(* ===== verification/_CoqProject ===== *)
-Q . S2P
Prelude.v
VmmDefs.v
Address.v
Lock.v
Heap.v
HeapSpec.v
Hash64.v
Mtrr.v
Libc.v
E820.v
Dlist.v
ArrayList.v
EventMgr.v
LocalApic.v
VmexitMsr.v
VmexitMsrSpec.v
PageWalker.v
PageWalkerSpec.v
MamEntry.v
MamEntrySpec.v
Mam.v
MamSpec.v
MamFail.v
MamMap.v
MamHeap.v
MamIter.v
Cache64.v
VmcsFields.v
Vmcs.v
VmcsSw.v
VmcsMsrList.v
VmcsActual.v
VmcsActualSpec.v
VmcsNmi.v
VmcsLife.v
VmcsHw.v
GuestCpu.v
GuestCpuSpec.v
GuestSeg.v
GuestMsr.v
GuestControl.v
GuestControlSpec.v
GuestControlAccept.v
GuestInject.v
VmexitCr.v
VmexitCrSpec.v
Gpm.v
GpmSpec.v
GpmE820.v
VmexitIo.v
MemAlloc.v
Ipc.v
IpcInit.v
IpcSpec.v
IpcCall.v
IpcLive.v
IpcApi.v
GuestGva.v
TaskSwitch.v
TaskSwitchSpec.v
