(* ===== verification/Prelude.v ===== *)
(** * The eVMM hypervisor of CloudProxy (cpvmm): a verification development

    The program is the hypervisor under src/cpvmm/vmm: a small virtual machine monitor that a
    bootstrap loader starts on every processor. It gives each guest the physical memory it may
    use (address mapper, guest physical memory, page walker), drives the processor's virtual
    machine control structures (VMCS objects over a cache of fields), keeps the guest away from the registers and ports of
    the host (control register, MSR and I/O exits, requested through counters and answered by injected events), answers the guest's firmware and memory-type questions (E820
    map, MTRR cache), and is built on its own heap, locks, tables, lists and C library.

    ** Conventions

    Machine integers are [Z] with the width written out: [u8], [u32], [u64] wrap, and the
    operators with a subscript are the wrapping ones. A call returns an [outcome]: [Ok] with a
    value, [Fault] for an access out of an array, through a wild pointer or a call through
    NULL, [Spin] for a loop that cannot end. The build modelled is the release build: assertions,
    log output and the code under DEBUG, ENABLE_VTLB, FAST_VIEW_SWITCH, INCLUDE_LAYERING,
    USE_HPA_TO_GPA and INCLUDE_UNUSED_CODE are not in it, and signed arithmetic wraps. State is passed explicitly; a structure of the
    source is a record with the source's field names, an object behind pointers is an entry of
    a store ([gmap] from addresses). Loops with a bound known from the data are structural;
    the spin loops and the walks over linked structures have fuel, and the theorems about them
    either hold for every fuel above a stated bound or show that the bound is enough ([Spin] is
    never a result of the claimed runs).

    ** Files, and the code they model (paths under src/cpvmm)

    - Prelude: the outcome monad, wrapped arithmetic, array access with bounds, bit lemmas,
      the hint database [vmm] and the tactics shared below.
    - VmmDefs: common/include/vmm_defs.h, vmm/utils/math_utils.c, vmm/libc/bitarray_utilities.c,
      the bit scans of vmm/host/hw/machinesupport.c.
    - Address: vmm/utils/address.c.
    - Lock: vmm/utils/lock.c, sequentially and as interleavings of single memory accesses.
    - Heap, HeapSpec: vmm/utils/heap.c, and the first-fit allocator of blocks it refines.
    - Hash64: vmm/utils/hash64.c. - Dlist: vmm/include/list.h. - ArrayList: vmm/utils/array_list.c.
    - MemAlloc: vmm/utils/memory_allocator.c, against the interface of its pools.
    - Libc: vmm/libc/common_libc.c and vmm/libc/em64t_mem2.c.
    - Mtrr: vmm/arch/mtrrs_abstraction.c. - E820: vmm/arch/e820_abstraction.c.
    - EventMgr: vmm/utils/event_mgr.c.
    - LocalApic: the base register part of vmm/host/hw/local_apic.c.
    - VmexitMsr, VmexitMsrSpec: vmm/vmexit/vmexit_msr.c with report_uvmm_event
      (vmm/startup/vmm_extension.c) and the trial accesses of vmm/host/hw/hw_utils.c.
    - VmexitIo: vmm/vmexit/vmexit_io.c.
    - PageWalker, PageWalkerSpec: vmm/memory/memory_manager/page_walker.c, and the walk of the
      processor manual.
    - MamEntry, MamEntrySpec: the four entry formats of
      vmm/memory/memory_manager/memory_address_mapper.c, and the class [EntryLaws] of what the
      algorithms rely on, with instances for the internal, the page-table and the EPT format.
    - Mam: the tables and the interface of the address mapper; MamSpec: the tree that the tables
      represent, and every table operation on it, against the class [PagesLaws] of what the page
      heap promises; MamFail: why an operation fails; MamMap: the interface against an abstract map; MamHeap: heap.c is an
      instance of [PagesLaws], so the mapper's theorems hold on the real heap; MamIter: the
      iterator over ranges.
    - Gpm: vmm/memory/memory_manager/gpm.c, a client of the mapper and of the E820 map; GpmSpec: its
      operations and the copy of a guest's memory; GpmE820: the E820 map of a guest.
    - Cache64: vmm/utils/cache64.c.
    - VmcsFields, Vmcs, VmcsMsrList: vmm/vmx/vmcs.c (the table of fields with the map from encodings;
      the access functions; the MSR lists) with vmm/include/vmcs_api.h and vmm/vmx/vmcs_internal.h. A
      VMCS object is an instance of the class [VmcsOps] (the function pointers of the C structure),
      and [VmcsLaws] says that it is a memory of fields.
    - VmcsSw: vmm/vmx/vmcs_sw_object.c, the object that is only a cache: an instance of both.
    - VmcsActual, VmcsActualSpec: vmm/vmx/vmcs_actual.c and vmm/vmx/vmx.c, the object of the hardware.
      The VMX instructions are the class [Vmx], their documented effect [VmxLaws]; a sample
      processor is an instance.
    - VmcsNmi: the flush of the event controls as single accesses, interrupted by NMIs.
    - VmcsLife: an object from its creation to the flush before a VM entry.
    - VmcsHw: vmm/host/hw/vmcs_init.c, the capabilities of the processor.
    - GuestCpu, GuestMsr: vmm/guest/guest_cpu/guest_cpu_access.c, a guest CPU and its registers over any
      VMCS object; GuestCpuSpec: what its clients use (the VMCS of a guest CPU holds a function from
      fields to values); GuestSeg: the segments of real mode against the checks of a VM entry.
    - GuestControl: vmm/guest/guest_cpu/guest_cpu_control.c, unrestricted_guest.c and the activation
      functions of vmexit_msr.c and vmexit_io.c; GuestControlSpec: the abstract counters of requests;
      GuestControlAccept: the control fields that the processor accepts.
    - GuestInject: vmm/guest/guest_cpu/guest_cpu_vmenter_event.c. The class [NmiWindow] is what it needs of
      the VMCS beyond reads and writes.
    - Ipc: vmm/ipc/ipc.c, the messages between the processors, as interleaved steps of all processors;
      IpcInit: the memory of its queues; IpcSpec: what is in flight, for every interleaving; IpcLive:
      no deadlock; IpcCall: what a call that has returned is owed; IpcApi: vmm/ipc/ipc_api.c on top of it,
      stopping and starting the processors. The handlers of messages are the clients' code; a critical section of a
      lock is one step (an assumption that the compare-exchange of the source does not guarantee: see Lock), and the queues are those of
      ArrayList.
    - VmexitCr, VmexitCrSpec: vmm/vmexit/vmexit_cr_access.c. Guest memory, CPUID and the handlers of the
      write events are parameters.
    - GuestGva: the linear addresses of a guest (gcpu_gva_to_gpa and gcpu_gva_to_hva of
      vmm/guest/guest_cpu/guest_cpu.c) and the copies to and from them, against the class [GvaLaws] (the
      translation is a function of the guest CPU and of memory that keeps pages together), of which the page
      walk followed by the guest's physical memory map is an instance.
    - TaskSwitch, TaskSwitchSpec: vmm/vmexit/vmexit_task_switch.c, the hardware task switch of a 32-bit guest.

    ** What the theorems show

    - Memory: the heap refines a first-fit allocator with coalescing (allocation is complete and
      safe, release merges and keeps the rest); the small allocator returns aligned buffers of
      the right pool and gives them back; memcpy, strcpy_s, lists, queue and hash table meet
      their abstract counterparts on every branch.
    - Concurrency: the compare-exchange of the source is a load and a store, so the locks do not exclude each
      other in every interleaving (a schedule of two processors shows it); they do in every interleaving in which
      no other processor touches the lock word between that load and that store, and a free lock is acquired in
      bounded steps. The theorems about messages take a critical section as one step, so they hold on the
      same condition.
    - Messages: in every interleaving the queues never overflow, each message is received once and in
      order, a send returns when its receivers have the message (or have run its handler), senders do
      not deadlock, and a processor that was stopped stays stopped until it is started.
    - Address mapper: over any sequence of insertions, removals and changes of permissions,
      whatever tables are created, split, merged and destroyed, the object answers as a
      function from addresses to mappings, fails only for want of a page or for a request that the
      interface refuses, and writes no page of anybody else; each format's
      entries read back what was written; the iteration over ranges ends and partitions the
      covered addresses into uniform ranges.
    - Guest memory: the copy of a guest's memory maps the same addresses, and the E820 map made for
      a guest lists exactly the memory the guest has, with the types of the original map.
    - VMCS: a hardware object refines a memory of fields from its creation over its activation to
      the flush, after which the processor has the fields; the NMI window survives NMIs at any step of
      the flush, which ends; the encodings of the fields are told apart; the MSR lists refine maps up
      to their capacity, and a fifth entry is written behind the buffer.
    - Page walker: in long mode the walk agrees with the manual's walk on address, fault and
      error code; the accessed and dirty bits are set by the right atomic updates.
    - Exits: registration of MSR and port handlers refines a map and keeps the bitmap in step;
      the VMX capability registers stay hidden; the registers kept in the VMCS read back what
      was written, up to the width of the field; the I/O handler decodes, faults or dispatches as it should, and a blocked IN makes
      the hypervisor fault; the APIC base is changed only as the processor allows.
    - Guest CPUs: the requests for exits refine counters per bit, the control fields that result are
      accepted by the processor that reported its capabilities; a write of EFER keeps the entry controls
      in step; real-mode segments pass the checks of a VM entry; an exception that left the guest is
      given back as the processor would have delivered it; a control register write is refused with #GP
      and no other effect, or sets the real and the visible register before the handlers run; a task switch
      always ends, with the state of the new task loaded, its segments as the descriptors in memory say, both tasks marked and stack and code segments
      that the next VM entry accepts, or with one exception for the guest if something of the tasks is not in order; a copy to the guest's linear addresses
      succeeds exactly when they are all mapped, writes only there, and reads back.
    - Firmware: the memory type of an address is the architecture's, tracked register writes
      keep the cache equal to the registers, the E820 service enumerates the map.
    - Deviations: theorems on concrete or general inputs where the code does not do what its
      comments, its header or the processor manual say (each is named in its doc comment).

    ** Bounds and fuel

    [lock_acquire] has fuel for its spin loop; one attempt is enough on a free lock. The hash
    chains use the number of nodes. A table of the mapper has 512 entries and four levels, and the
    recursions are over the level; the iteration needs one step per 4 KB page of the first
    table, which is the bound its theorem states. The runs of the processors are lists of steps of any
    length, and the completion of all sends is shown with a measure of the work that is left. The transaction of the event controls has fuel for
    its retries: without NMIs one round is enough, and each NMI adds at most one more. The scan of a
    request has 64 steps, one per bit. A copy to or from the guest has one step more than bytes, and each round
    copies at least one byte. A page directory entry is read until two reads agree; when nobody
    writes it, no retry is needed.

    ** Not modelled

    Device and register access in assembly, the VMCSs of nested monitors, the tables of guests and the scheduler,
    the EPT policy above the mapper, start-up, the bootstrap loader, console output, the debugger
    and the Go and C++ parts of the repository; the page walk outside long mode has definitions and
    deviations but no equivalence; the conversions of a mapping to another format have
    definitions and no preservation theorem yet. *)

From Stdlib Require Export ZArith Lia.
From stdpp Require Export base tactics list gmap numbers.

(** Prefer std++'s list lemmas to the Standard Library's of the same name. *)
Export list_basics.list list_relations.list list_monad.list list_misc.list list_numbers.list.

#[global] Open Scope Z_scope.

(** Let [lia] use the equations of division and remainder. *)
Ltac Zify.zify_post_hook ::= Z.to_euclidean_division_equations.

(** * Machine integers

    A w-bit unsigned C integer is a [Z] in [0, 2^w); every arithmetic result
    that C truncates is wrapped explicitly with one of the functions below. *)

Definition wrap (w x : Z) : Z := x mod 2 ^ w.

Definition u8 : Z -> Z := wrap 8.
Definition u16 : Z -> Z := wrap 16.
Definition u31 : Z -> Z := wrap 31.
Definition u32 : Z -> Z := wrap 32.
Definition u64 : Z -> Z := wrap 64.

Declare Scope uint_scope.
Delimit Scope uint_scope with uint.
Notation "x ⊕₃₂ y" := (u32 (x + y)) (at level 50, left associativity) : uint_scope.
Notation "x ⊖₃₂ y" := (u32 (x - y)) (at level 50, left associativity) : uint_scope.
Notation "x ⊗₃₂ y" := (u32 (x * y)) (at level 40, left associativity) : uint_scope.
Notation "x ⊕₆₄ y" := (u64 (x + y)) (at level 50, left associativity) : uint_scope.
Notation "x ⊖₆₄ y" := (u64 (x - y)) (at level 50, left associativity) : uint_scope.
#[global] Open Scope uint_scope.

(** [x] is a value of the w-bit unsigned type. *)
Definition fits (w x : Z) : Prop := 0 <= x < 2 ^ w.

#[global] Instance fits_dec w x : Decision (fits w x).
Proof. unfold fits. apply _. Defined.

Create HintDb vmm.
Create Rewrite HintDb vmm.

Lemma wrap_small w x : 0 <= x < 2 ^ w -> wrap w x = x.
Proof. apply Z.mod_small. Qed.

Lemma wrap_fits w x : 0 <= w -> fits w (wrap w x).
Proof. intros Hw. apply Z.mod_pos_bound. lia. Qed.

Lemma wrap_wrap w x : wrap w (wrap w x) = wrap w x.
Proof. apply Zmod_mod. Qed.

Lemma u8_small x : 0 <= x < 256 -> u8 x = x.
Proof. exact (wrap_small 8 x). Qed.
Lemma u16_small x : 0 <= x < 65536 -> u16 x = x.
Proof. exact (wrap_small 16 x). Qed.
Lemma u31_small x : 0 <= x < 2147483648 -> u31 x = x.
Proof. exact (wrap_small 31 x). Qed.
Lemma u32_small x : 0 <= x < 4294967296 -> u32 x = x.
Proof. exact (wrap_small 32 x). Qed.
Lemma u64_small x : 0 <= x < 18446744073709551616 -> u64 x = x.
Proof. exact (wrap_small 64 x). Qed.
Lemma u32_range x : 0 <= u32 x < 4294967296.
Proof. exact (wrap_fits 32 x ltac:(lia)). Qed.
Lemma u64_range x : 0 <= u64 x < 18446744073709551616.
Proof. exact (wrap_fits 64 x ltac:(lia)). Qed.

#[export] Hint Resolve u32_range u64_range : vmm.

(** Bounds from bits. *)
Lemma bits_lt_pow2 x n : 0 <= x -> 0 <= n ->
  (forall j, n <= j -> Z.testbit x j = false) -> x < 2 ^ n.
Proof.
  intros Hx Hn H. destruct (decide (x < 2 ^ n)) as [|Hge]; [done|exfalso].
  assert (0 < x) by lia. specialize (H (Z.log2 x)).
  rewrite Z.bit_log2 in H by done. discriminate H. apply Z.log2_le_pow2; lia.
Qed.

Lemma bits_above x n j : 0 <= x < 2 ^ n -> 0 <= n <= j -> Z.testbit x j = false.
Proof.
  intros Hx Hj. destruct (decide (x = 0)) as [->|]; [apply Z.bits_0|].
  apply Z.bits_above_log2; [lia|]. apply (Z.lt_le_trans _ n); [|lia].
  apply Z.log2_lt_pow2; lia.
Qed.
Lemma lor_disjoint a b n : 0 <= n -> 0 <= b < 2 ^ n -> Z.lor (a * 2 ^ n) b = a * 2 ^ n + b.
Proof.
  intros Hn Hb. symmetry. apply Z.add_nocarry_lor. apply Z.bits_inj'. intros k Hk.
  rewrite Z.land_spec, Z.bits_0. destruct (decide (k < n)).
  - by rewrite Z.mul_pow2_bits_low by lia.
  - by rewrite (bits_above b n k), andb_false_r by lia.
Qed.

(** Remove wrap-arounds whose argument is in range. *)
Ltac usmall1 :=
  match goal with
  | |- context [u32 ?x] => rewrite (u32_small x) by lia
  | |- context [u64 ?x] => rewrite (u64_small x) by lia
  | |- context [u31 ?x] => rewrite (u31_small x) by lia
  | |- context [u16 ?x] => rewrite (u16_small x) by lia
  | |- context [u8 ?x] => rewrite (u8_small x) by lia
  end.
Ltac usmall := repeat usmall1.

(** Case analysis on the integer comparisons the code branches on. *)
Ltac zcase1 :=
  match goal with
  | |- context [Z.ltb ?a ?b] => destruct (Z.ltb_spec a b)
  | |- context [Z.leb ?a ?b] => destruct (Z.leb_spec a b)
  | |- context [Z.eqb ?a ?b] => destruct (Z.eqb_spec a b)
  | H : context [Z.ltb ?a ?b] |- _ => destruct (Z.ltb_spec a b)
  | H : context [Z.leb ?a ?b] |- _ => destruct (Z.leb_spec a b)
  | H : context [Z.eqb ?a ?b] |- _ => destruct (Z.eqb_spec a b)
  end.
Ltac zcases := repeat (zcase1; simpl in *; try lia).

(** * Outcomes of C code

    [Ok a] is a normal return; [Fault] is an access outside the storage of an
    object (undefined behaviour in C); [Spin] is a loop that never exits. *)

Inductive outcome (A : Type) : Type :=
| Ok (a : A)
| Fault
| Spin.
Arguments Ok {A} a.
Arguments Fault {A}.
Arguments Spin {A}.

#[global] Instance outcome_ret : MRet outcome := fun A a => Ok a.
#[global] Instance outcome_bind : MBind outcome := fun A B f o =>
  match o with
  | Ok a => f a
  | Fault => Fault
  | Spin => Spin
  end.

Lemma bind_Ok {A B} (f : A -> outcome B) a : (Ok a ≫= f) = f a.
Proof. done. Qed.

Lemma bind_Ok_inv {A B} (f : A -> outcome B) o b : (o ≫= f) = Ok b -> exists a, o = Ok a /\ f a = Ok b.
Proof. destruct o as [a| |]; [|done|done]. intros H. by exists a. Qed.

Lemma bind_ok {A B} (f : A -> outcome B) (o : outcome A) b :
  (o ≫= f) = Ok b -> exists a, o = Ok a /\ f a = Ok b.
Proof. destruct o as [a| |]; simpl; try discriminate. eauto. Qed.

(** Split a successful sequence of calls into its steps. *)
Ltac ostep H :=
  let a := fresh "r" in
  let E := fresh "E" in
  apply bind_ok in H; destruct H as [a [E H]].

(** [for (i = a; i < b; ++i) body(i)] over a state of type [S]; the bounds are
    values of the index type, so the index never wraps. *)
Fixpoint loop_up {S} (n : nat) (i : Z) (body : Z -> S -> outcome S) (s : S) : outcome S :=
  match n with
  | O => Ok s
  | Datatypes.S n' => s' ← body i s; loop_up n' (i + 1) body s'
  end.

Definition for_range {S} (a b : Z) (body : Z -> S -> outcome S) (s : S) : outcome S :=
  loop_up (Z.to_nat (b - a)) a body s.

(** The loop invariant rule: the invariant, indexed by the loop variable, holds
    at the end when it holds at the start and each iteration succeeds and
    re-establishes it. *)
Lemma for_range_inv {S} (P : Z -> S -> Prop) a b body (s : S) :
  a <= b -> P a s ->
  (forall i s, a <= i < b -> P i s -> exists s', body i s = Ok s' /\ P (i + 1) s') ->
  exists s', for_range a b body s = Ok s' /\ P b s'.
Proof.
  unfold for_range. intros Hab.
  remember (Z.to_nat (b - a)) as n eqn:En. assert (b = a + Z.of_nat n) as -> by lia.
  clear En Hab. revert a s. induction n as [|n IH]; intros a s HP Hbody; simpl.
  - exists s. by rewrite Z.add_0_r.
  - destruct (Hbody a s) as (s1 & -> & HP1); [lia|done|]. simpl.
    destruct (IH (a + 1) s1 HP1) as (s2 & E2 & HP2).
    { intros i t Hi. apply Hbody. lia. }
    exists s2. split; [done|].
    replace (a + Z.of_nat (Datatypes.S n)) with (a + 1 + Z.of_nat n) by lia. done.
Qed.

Lemma for_range_empty {S} a b body (s : S) : b <= a -> for_range a b body s = Ok s.
Proof. intros H. unfold for_range. by replace (Z.to_nat (b - a)) with 0%nat by lia. Qed.

Lemma for_range_step {S} a b body (s : S) : a < b ->
  for_range a b body s = s' ← body a s; for_range (a + 1) b body s'.
Proof.
  intros H. unfold for_range.
  replace (Z.to_nat (b - a)) with (Datatypes.S (Z.to_nat (b - (a + 1)))) by lia. done.
Qed.

Lemma loop_up_app {S} n m a body (s : S) :
  loop_up (n + m) a body s = s' ← loop_up n a body s; loop_up m (a + Z.of_nat n) body s'.
Proof.
  revert a s. induction n as [|n IH]; intros a s; simpl loop_up; [by rewrite Z.add_0_r|].
  destruct (body a s) as [s1| |]; [|done|done]. rewrite !bind_Ok, IH.
  by replace (a + Z.of_nat (Datatypes.S n)) with (a + 1 + Z.of_nat n) by lia.
Qed.

(** * Arrays

    A C array is a list; an index outside it faults. *)

Definition in_range {A} (l : list A) (i : Z) : bool :=
  (0 <=? i) && (i <? Z.of_nat (length l)).

Definition rd {A} (l : list A) (i : Z) : outcome A :=
  if 0 <=? i then
    match l !! Z.to_nat i with Some a => Ok a | None => Fault end
  else Fault.

Definition wr {A} (l : list A) (i : Z) (a : A) : outcome (list A) :=
  if in_range l i then Ok (<[Z.to_nat i := a]> l) else Fault.

Lemma rd_ok {A} (l : list A) i a : 0 <= i -> l !! Z.to_nat i = Some a -> rd l i = Ok a.
Proof. intros Hi Hl. unfold rd. by rewrite (proj2 (Z.leb_le 0 i) Hi), Hl. Qed.

Lemma rd_inv {A} (l : list A) i a :
  rd l i = Ok a -> 0 <= i < Z.of_nat (length l) /\ l !! Z.to_nat i = Some a.
Proof.
  unfold rd. zcases; [|discriminate]. destruct (l !! Z.to_nat i) eqn:E; intros [=]; subst.
  apply lookup_lt_Some in E as Hlt. split; [lia|done].
Qed.

Lemma rd_fault {A} (l : list A) i : Z.of_nat (length l) <= i -> rd l i = Fault.
Proof.
  intros H. unfold rd. zcases. by rewrite lookup_ge_None_2 by lia.
Qed.

Lemma wr_ok {A} (l : list A) i a :
  0 <= i < Z.of_nat (length l) -> wr l i a = Ok (<[Z.to_nat i := a]> l).
Proof. intros H. unfold wr, in_range. zcases. done. Qed.

Lemma wr_fault {A} (l : list A) i a : Z.of_nat (length l) <= i -> wr l i a = Fault.
Proof. intros H. unfold wr, in_range. zcases; done. Qed.

(** Position bookkeeping used by the array invariants. *)
Lemma lookup_middle_eq {A} (l1 l2 : list A) x i :
  i = length l1 -> (l1 ++ x :: l2) !! i = Some x.
Proof. intros ->. by apply list_lookup_middle. Qed.

Lemma insert_middle_eq {A} (l1 l2 : list A) x y i :
  i = length l1 -> <[i := y]> (l1 ++ x :: l2) = l1 ++ y :: l2.
Proof.
  intros ->. rewrite insert_app_r_alt by lia. by rewrite Nat.sub_diag.
Qed.

(** A loop that stores [f i] in each entry [i] of a segment of the array. *)
Lemma for_range_fill {A} (f : Z -> A) (pre mid post : list A) a b :
  a = Z.of_nat (length pre) -> b = a + Z.of_nat (length mid) ->
  for_range a b (fun i d => wr d i (f i)) (pre ++ mid ++ post)
    = Ok (pre ++ (f <$> seqZ a (b - a)) ++ post).
Proof.
  revert pre a. induction mid as [|x mid IH]; intros pre a Ha Hb; simpl in Hb.
  - rewrite for_range_empty by lia. by rewrite seqZ_nil by lia.
  - rewrite for_range_step by lia.
    rewrite wr_ok by (rewrite length_app; simpl; lia). rewrite bind_Ok. simpl app at 2.
    rewrite insert_middle_eq by lia.
    replace (pre ++ f a :: mid ++ post) with ((pre ++ [f a]) ++ mid ++ post)
      by by rewrite <- app_assoc.
    rewrite IH by (rewrite ?length_app; simpl; lia).
    rewrite (seqZ_cons a) by lia. rewrite <- app_assoc.
    replace (Z.succ a) with (a + 1) by lia.
    by replace (Z.pred (b - a)) with (b - (a + 1)) by lia.
Qed.

(** The loop that stores one value in consecutive entries. *)
Lemma fmap_const_seqZ {A} (x : A) a n : (fun _ => x) <$> seqZ a n = replicate (Z.to_nat n) x.
Proof.
  rewrite <- (length_seqZ a n). generalize (seqZ a n) as l.
  induction l; simpl; [done|by f_equal].
Qed.

Lemma for_range_ext {S} (f g : Z -> S -> outcome S) a b s :
  (forall i s, a <= i < b -> f i s = g i s) -> for_range a b f s = for_range a b g s.
Proof.
  unfold for_range. remember (Z.to_nat (b - a)) as n eqn:En. intros H.
  assert (forall i s, a <= i < a + Z.of_nat n -> f i s = g i s) as H'
    by (intros i t Hi; apply H; lia).
  clear En H. revert a s H'. induction n as [|n IH]; intros a s H; simpl; [done|].
  rewrite H by lia. destruct (g a s); simpl; [|done|done].
  apply IH. intros. apply H. lia.
Qed.

(** * Filtering *)

Lemma filter_none {A} (P : A -> Prop) {HP : forall x, Decision (P x)} (l : list A) :
  (forall x, x ∈ l -> ~ P x) -> filter P l = [].
Proof.
  induction l as [|x l IH]; intros H; [done|].
  rewrite filter_cons_False by (apply H; left). apply IH. intros y Hy. apply H. by right.
Qed.

Lemma filter_same {A} (P Q : A -> Prop) {HP : forall x, Decision (P x)} {HQ : forall x, Decision (Q x)}
  (l : list A) : (forall x, x ∈ l -> P x <-> Q x) -> filter P l = filter Q l.
Proof.
  induction l as [|x l IH]; intros H; [done|].
  pose proof (H x ltac:(left)) as Hx. rewrite !filter_cons.
  rewrite IH by (intros y Hy; apply H; by right).
  by destruct (decide (P x)), (decide (Q x)); tauto.
Qed.

Lemma filter_map {A B} (f : A -> B) (P : B -> Prop) {HP : forall x, Decision (P x)} (l : list A) :
  filter P (f <$> l) = f <$> filter (fun x => P (f x)) l.
Proof.
  induction l as [|x l IH]; [done|]. rewrite fmap_cons, !filter_cons, IH.
  by destruct (decide (P (f x))).
Qed.

(** * Counting the entries of an array that satisfy a test *)

Definition count {A} (P : A -> bool) (l : list A) : Z :=
  Z.of_nat (length (filter (fun x => P x = true) l)).

Lemma count_cons {A} (P : A -> bool) x l : count P (x :: l) = Z.b2z (P x) + count P l.
Proof.
  unfold count. destruct (P x) eqn:E.
  - rewrite filter_cons_True by done. simpl length. simpl Z.b2z. lia.
  - rewrite filter_cons_False by congruence. done.
Qed.

Lemma count_nonneg {A} (P : A -> bool) (l : list A) : 0 <= count P l.
Proof. unfold count. lia. Qed.

Lemma count_insert {A} (P : A -> bool) (l : list A) i x y : l !! i = Some x ->
  count P (<[i := y]> l) = count P l - Z.b2z (P x) + Z.b2z (P y).
Proof.
  revert i. induction l as [|z l IH]; intros [|i] H; simplify_eq/=;
    rewrite !count_cons; [lia|]. rewrite IH by done. lia.
Qed.

Lemma count_member {A} (P : A -> bool) (l : list A) i x :
  l !! i = Some x -> P x = true -> 1 <= count P l.
Proof.
  revert i. induction l as [|z l IH]; intros [|i] H HP; simplify_eq/=; rewrite count_cons.
  - rewrite HP. pose proof (count_nonneg P l). simpl Z.b2z. lia.
  - pose proof (IH i H HP). destruct (P z); simpl Z.b2z; lia.
Qed.

Lemma count_two {A} (P : A -> bool) (l : list A) i j x y : i <> j ->
  l !! i = Some x -> l !! j = Some y -> P x = true -> P y = true -> 2 <= count P l.
Proof.
  revert i j. induction l as [|z l IH]; intros [|i] [|j] Hij Hi Hj Hx Hy; simplify_eq/=;
    rewrite count_cons.
  - pose proof (count_member P l j y Hj Hy). rewrite Hx. simpl Z.b2z. lia.
  - pose proof (count_member P l i x Hi Hx). rewrite Hy. simpl Z.b2z. lia.
  - pose proof (IH i j ltac:(congruence) Hi Hj Hx Hy). destruct (P z); simpl Z.b2z; lia.
Qed.

Lemma count_zero {A} (P : A -> bool) (l : list A) i x :
  count P l = 0 -> l !! i = Some x -> P x = false.
Proof.
  intros H Hi. destruct (P x) eqn:E; [|done]. pose proof (count_member P l i x Hi E). lia.
Qed.

Lemma count_le {A} (P Q : A -> bool) (l : list A) :
  (forall x, P x = true -> Q x = true) -> count P l <= count Q l.
Proof.
  intros H. induction l as [|x l IH]; [done|]. rewrite !count_cons.
  destruct (P x) eqn:E; [rewrite (H x E)|destruct (Q x)]; simpl Z.b2z; lia.
Qed.

Lemma count_replicate {A} (P : A -> bool) n x : P x = false -> count P (replicate n x) = 0.
Proof. intros H. induction n; [done|]. simpl replicate. rewrite count_cons, H, IHn. done. Qed.

Lemma count_split {A} (P Q : A -> bool) (l : list A) :
  count P l = count (fun x => P x && Q x) l + count (fun x => P x && negb (Q x)) l.
Proof.
  induction l as [|x l IH]; [done|]. rewrite !count_cons, IH.
  destruct (P x), (Q x); simpl Z.b2z; lia.
Qed.
