(* ===== verification/VmmDefs.v ===== *)
(** The macros of src/cpvmm/common/include/vmm_defs.h that the components
    share (page sizes, alignment, bit arrays), the bit-scan primitives of
    host/hw/machinesupport.c, and the two small utilities built on them:
    utils/math_utils.c and libc/bitarray_utilities.c. *)

From S2P Require Import Prelude.

(** The status most operations return. *)
Inductive VMM_STATUS := VMM_ERROR | VMM_OK.

(** * Sizes and alignment *)

Definition PAGE_4KB_SIZE : Z := 4096.
Definition PAGE_4KB_MASK : Z := PAGE_4KB_SIZE - 1.

(** [((ADDRESS)(a) & ~((b) - 1))]: [b] is a signed int or a 64-bit value, so the
    complement is extended to 64 bits. *)
Definition ALIGN_BACKWARD (a b : Z) : Z := Z.land (u64 a) (u64 (Z.lnot (b - 1))).

(** [ALIGN_FORWARD] on a 64-bit and on a 32-bit first argument: the sum is
    computed in the type of that argument. *)
Definition ALIGN_FORWARD (a b : Z) : Z := ALIGN_BACKWARD (u64 (a + b - 1)) b.
Definition ALIGN_FORWARD_U32 (a b : Z) : Z := ALIGN_BACKWARD (u32 (a + b - 1)) b.

Definition IS_POW_OF_2 (n : Z) : bool := Z.land n (n - 1) =? 0.

Definition ADDRESSES_ON_THE_SAME_PAGE (a b : Z) : bool :=
  ALIGN_BACKWARD a PAGE_4KB_SIZE =? ALIGN_BACKWARD b PAGE_4KB_SIZE.

(** * Bit scans (bsr, bsf): [None] when no bit is set, where the instruction
    leaves the destination undefined and the function returns FALSE. *)

Definition hw_scan_bit_backward (bitset : Z) : option Z :=
  if bitset =? 0 then None else Some (Z.log2 bitset).

(** Position of the lowest set bit. *)
Fixpoint pos_lowest (p : positive) : Z :=
  match p with
  | xO p' => 1 + pos_lowest p'
  | _ => 0
  end.

Definition hw_scan_bit_forward64 (bitset : Z) : option Z :=
  match bitset with
  | Zpos p => Some (pos_lowest p)
  | _ => None
  end.

(** [1 << k] on a 32-bit int (compiled with -fwrapv), converted to UINT32; a
    shift count of 32 or more is undefined. *)
Definition shl_one (k : Z) : outcome Z :=
  if (0 <=? k) && (k <? 32) then Ok (2 ^ k) else Fault.

(** math_utils.c *)
Definition align_forward_to_power_of_2 (number : Z) : outcome Z :=
  if number =? 0 then Ok 1
  else
    match hw_scan_bit_backward number with
    | None => Fault
    | Some msb_index =>
        let msb_index := if negb (IS_POW_OF_2 number) then msb_index + 1 else msb_index in
        shl_one msb_index
    end.

(** * Bit arrays: arrays of UINT8 *)

Definition BITARRAY_SIZE_IN_BYTES (bits : Z) : Z := (bits + 7) / 8.
Definition BITARRAY_BYTE (bitno : Z) : Z := Z.shiftr bitno 3.
Definition BITARRAY_MASK (bitno : Z) : Z := Z.shiftl 1 (Z.land bitno 7).

Definition BITARRAY_SET (a : list Z) (bitno : Z) : outcome (list Z) :=
  b ← rd a (BITARRAY_BYTE bitno);
  wr a (BITARRAY_BYTE bitno) (u8 (Z.lor b (BITARRAY_MASK bitno))).

Definition BITARRAY_CLR (a : list Z) (bitno : Z) : outcome (list Z) :=
  b ← rd a (BITARRAY_BYTE bitno);
  wr a (BITARRAY_BYTE bitno) (u8 (Z.land b (Z.lnot (BITARRAY_MASK bitno)))).

Definition BITARRAY_GET (a : list Z) (bitno : Z) : outcome Z :=
  b ← rd a (BITARRAY_BYTE bitno);
  Ok (Z.land b (BITARRAY_MASK bitno)).

(** bitarray_utilities.c. The 64-bit scan word is assembled from up to eight
    bytes; the union makes byte [idx] its bits [8*idx .. 8*idx+7]. *)
Fixpoint load_mask (a : list Z) (base : Z) (idx : Z) (n : nat) : outcome Z :=
  match n with
  | O => Ok 0
  | S n' =>
      b ← rd a (BITARRAY_BYTE (base + idx * 8));
      r ← load_mask a base (idx + 1) n';
      Ok (Z.lor (Z.shiftl b (8 * idx)) r)
  end.

(** [while (temp_mask.uint != 0) { scan; clear; cb }]: at most 64 iterations. *)
Fixpoint scan_mask (fuel : nat) (base mask : Z) : list Z :=
  match fuel with
  | O => []
  | S fuel' =>
      match hw_scan_bit_forward64 mask with
      | None => []
      | Some bit_idx => (base + bit_idx) :: scan_mask fuel' base (Z.clearbit mask bit_idx)
      end
  end.

(** The outer loop advances by 64 bits; the result is the sequence of bit
    numbers the callback is called with. *)
Fixpoint enumerate_from (fuel : nat) (a : list Z) (bits base : Z) : outcome (list Z) :=
  match fuel with
  | O => Ok []
  | S fuel' =>
      if base <? bits then
        let extra_bytes := (bits - base + 7) / 8 in
        let bytes_to_copy := if extra_bytes <? 8 then extra_bytes else 8 in
        mask ← load_mask a base 0 (Z.to_nat bytes_to_copy);
        rest ← enumerate_from fuel' a bits (base + 64);
        Ok (scan_mask 64 base mask ++ rest)
      else Ok []
  end.

Definition bitarray_enumerate_bits (a : list Z) (bits : Z) : outcome (list Z) :=
  enumerate_from (Z.to_nat (bits / 64 + 1)) a bits 0.

(** * Lemmas on alignment *)

Lemma land_u64_r a x : 0 <= a < 2 ^ 64 -> Z.land a (u64 x) = Z.land a x.
Proof.
  intros Ha. unfold u64, wrap. rewrite <- Z.land_ones by lia.
  rewrite (Z.land_comm x), Z.land_assoc, Z.land_ones by lia.
  by rewrite Z.mod_small by lia.
Qed.

Lemma land_lnot_ones a k : 0 <= k -> Z.land a (Z.lnot (2 ^ k - 1)) = a - a mod 2 ^ k.
Proof.
  intros Hk. rewrite <- Z.ldiff_land.
  replace (2 ^ k - 1) with (Z.ones k) by (rewrite Z.ones_equiv; lia).
  rewrite Z.ldiff_ones_r by lia. rewrite Z.shiftl_mul_pow2, Z.shiftr_div_pow2 by lia.
  pose proof (Z.div_mod a (2 ^ k)). lia.
Qed.

Lemma ALIGN_BACKWARD_pow2 a k :
  0 <= k -> 0 <= a < 2 ^ 64 -> ALIGN_BACKWARD a (2 ^ k) = a - a mod 2 ^ k.
Proof.
  intros Hk Ha. unfold ALIGN_BACKWARD. rewrite u64_small by lia.
  rewrite land_u64_r by lia. by apply land_lnot_ones.
Qed.

Lemma ALIGN_BACKWARD_page a : 0 <= a < 2 ^ 64 -> ALIGN_BACKWARD a 4096 = a - a mod 4096.
Proof. apply (ALIGN_BACKWARD_pow2 a 12). lia. Qed.

(** Rounding up: the result is aligned, not below the argument and less than one
    unit above it. *)
Lemma ALIGN_FORWARD_pow2 a k : 0 <= k -> 0 <= a -> a + 2 ^ k - 1 < 2 ^ 64 ->
  let r := ALIGN_FORWARD a (2 ^ k) in a <= r < a + 2 ^ k /\ r mod 2 ^ k = 0.
Proof.
  intros Hk Ha Hb r. unfold r, ALIGN_FORWARD.
  assert (0 < 2 ^ k) by lia.
  rewrite u64_small by lia. rewrite ALIGN_BACKWARD_pow2 by lia.
  pose proof (Z.mod_pos_bound (a + 2 ^ k - 1) (2 ^ k)).
  split; [lia|].
  rewrite Zminus_mod_idemp_r, Z.sub_diag. done.
Qed.

Lemma ALIGN_FORWARD_page a : 0 <= a -> a + 4095 < 2 ^ 64 ->
  a <= ALIGN_FORWARD a 4096 < a + 4096 /\ ALIGN_FORWARD a 4096 mod 4096 = 0.
Proof. intros. apply (ALIGN_FORWARD_pow2 a 12); lia. Qed.

Lemma ALIGN_FORWARD_8 a : 0 <= a -> a + 7 < 2 ^ 64 ->
  a <= ALIGN_FORWARD a 8 < a + 8 /\ ALIGN_FORWARD a 8 mod 8 = 0.
Proof. intros. apply (ALIGN_FORWARD_pow2 a 3); lia. Qed.

(** * Powers of two *)

Lemma IS_POW_OF_2_spec n : 0 < n -> IS_POW_OF_2 n = true <-> n = 2 ^ Z.log2 n.
Proof.
  intros Hn. unfold IS_POW_OF_2. rewrite Z.eqb_eq.
  pose proof (Z.log2_spec n Hn) as [Hlo Hhi]. pose proof (Z.log2_nonneg n) as Hk.
  split; intros H.
  - destruct (decide (n = 2 ^ Z.log2 n)) as [|Hne]; [done|exfalso].
    assert (Z.log2 (n - 1) = Z.log2 n) as Hl by (apply Z.log2_unique; lia).
    assert (Z.testbit (Z.land n (n - 1)) (Z.log2 n) = true) as Ht.
    { rewrite Z.land_spec, Z.bit_log2 by lia. rewrite <- Hl. apply Z.bit_log2. lia. }
    rewrite H, Z.bits_0 in Ht. discriminate Ht.
  - rewrite H at 1 2. replace (2 ^ Z.log2 n - 1) with (Z.ones (Z.log2 n))
      by (rewrite Z.ones_equiv; lia).
    rewrite Z.land_ones by lia. apply Z_mod_same_full.
Qed.

Lemma align_forward_ok n : 0 < n <= 2 ^ 31 ->
  align_forward_to_power_of_2 n = Ok (2 ^ Z.log2_up n).
Proof.
  intros Hn. unfold align_forward_to_power_of_2, hw_scan_bit_backward. zcases.
  assert (Z.log2 n < 32) by (apply Z.log2_lt_pow2; lia).
  assert (Z.log2_up n <= 31).
  { replace 31 with (Z.log2_up (2 ^ 31)) by (apply Z.log2_up_pow2; lia).
    apply Z.log2_up_le_mono; lia. }
  assert ((if negb (IS_POW_OF_2 n) then Z.log2 n + 1 else Z.log2 n) = Z.log2_up n) as ->.
  { pose proof (Z.log2_nonneg n). destruct (IS_POW_OF_2 n) eqn:E; simpl.
    - apply IS_POW_OF_2_spec in E; [|lia]. rewrite E at 2. by rewrite Z.log2_up_pow2 by lia.
    - assert (n <> 2 ^ Z.log2 n) as Hne
        by (intros C; apply IS_POW_OF_2_spec in C; [congruence|lia]).
      destruct (Z.log2_spec n); [lia|].
      symmetry. apply Z.log2_up_unique; [lia|].
      rewrite Z.add_1_r, Z.pred_succ. lia. }
  unfold shl_one. pose proof (Z.log2_up_nonneg n). zcases. done.
Qed.

(** * Bit arrays *)

(** Abstract content of a bit array. *)
Definition bit_of (a : list Z) (i : Z) : bool :=
  if 0 <=? i then Z.testbit (default 0 (a !! Z.to_nat (i / 8))) (i mod 8) else false.

Definition bytes_ok (a : list Z) : Prop := Forall (fits 8) a.

Lemma BITARRAY_BYTE_div i : BITARRAY_BYTE i = i / 8.
Proof. unfold BITARRAY_BYTE. by rewrite Z.shiftr_div_pow2. Qed.

Lemma BITARRAY_MASK_pow i : BITARRAY_MASK i = 2 ^ (i mod 8).
Proof.
  unfold BITARRAY_MASK. replace 7 with (Z.ones 3) by done.
  rewrite Z.land_ones by lia. change (2 ^ 3) with 8.
  rewrite Z.shiftl_1_l. done.
Qed.

Lemma testbit_u8 x j : 0 <= j < 8 -> Z.testbit (u8 x) j = Z.testbit x j.
Proof. intros Hj. apply Z.mod_pow2_bits_low. lia. Qed.

Lemma bytes_ok_lookup a i b : bytes_ok a -> a !! i = Some b -> 0 <= b < 256.
Proof. intros H E. exact (Forall_lookup_1 _ _ _ _ H E). Qed.

Lemma bytes_ok_insert a i x : bytes_ok a -> bytes_ok (<[i := u8 x]> a).
Proof. intros H. apply Forall_insert; [done|]. by apply wrap_fits. Qed.

Lemma bit_byte_lookup (a : list Z) i : 0 <= i < 8 * Z.of_nat (length a) ->
  exists b, a !! Z.to_nat (i / 8) = Some b.
Proof. intros H. apply lookup_lt_is_Some. lia. Qed.

(** A byte update moves exactly one bit. *)
Lemma bit_of_update (a : list Z) i b x v : 0 <= i -> a !! Z.to_nat (i / 8) = Some b ->
  (forall j, 0 <= j < 8 -> Z.testbit x j = if j =? i mod 8 then v else Z.testbit b j) ->
  forall j, bit_of (<[Z.to_nat (i / 8) := x]> a) j = if j =? i then v else bit_of a j.
Proof.
  intros Hi Hb Hx j. unfold bit_of.
  destruct (Z.leb_spec 0 j); [|zcases; done].
  assert (Z.to_nat (i / 8) < length a)%nat by (by eapply lookup_lt_Some).
  destruct (decide (j / 8 = i / 8)) as [He|Hne].
  - rewrite He, list_lookup_insert_eq, Hb by done. simpl. rewrite Hx by lia. zcases; done.
  - rewrite list_lookup_insert_ne by lia. zcases. done.
Qed.

Lemma BITARRAY_SET_spec a i : 0 <= i < 8 * Z.of_nat (length a) ->
  exists a', BITARRAY_SET a i = Ok a' /\ length a' = length a /\ (bytes_ok a -> bytes_ok a') /\
    forall j, bit_of a' j = if j =? i then true else bit_of a j.
Proof.
  intros Hi. destruct (bit_byte_lookup a i Hi) as [b Hb].
  unfold BITARRAY_SET. rewrite BITARRAY_BYTE_div, BITARRAY_MASK_pow.
  rewrite (rd_ok _ _ b) by (done || lia). simpl. rewrite wr_ok by lia.
  eexists. split; [done|]. split; [apply length_insert|].
  split; [intros; by apply bytes_ok_insert|].
  apply (bit_of_update _ _ b); [lia|done|]. intros j Hj.
  rewrite testbit_u8, Z.lor_spec, Z.pow2_bits_eqb by lia.
  rewrite Z.eqb_sym. by destruct (j =? i mod 8), (Z.testbit b j).
Qed.

Lemma BITARRAY_CLR_spec a i : 0 <= i < 8 * Z.of_nat (length a) ->
  exists a', BITARRAY_CLR a i = Ok a' /\ length a' = length a /\ (bytes_ok a -> bytes_ok a') /\
    forall j, bit_of a' j = if j =? i then false else bit_of a j.
Proof.
  intros Hi. destruct (bit_byte_lookup a i Hi) as [b Hb].
  unfold BITARRAY_CLR. rewrite BITARRAY_BYTE_div, BITARRAY_MASK_pow.
  rewrite (rd_ok _ _ b) by (done || lia). simpl. rewrite wr_ok by lia.
  eexists. split; [done|]. split; [apply length_insert|].
  split; [intros; by apply bytes_ok_insert|].
  apply (bit_of_update _ _ b); [lia|done|]. intros j Hj.
  rewrite testbit_u8, Z.land_spec, Z.lnot_spec, Z.pow2_bits_eqb by lia.
  rewrite Z.eqb_sym. by destruct (j =? i mod 8), (Z.testbit b j).
Qed.

Lemma BITARRAY_GET_spec a i : 0 <= i < 8 * Z.of_nat (length a) ->
  exists w, BITARRAY_GET a i = Ok w /\ (w =? 0) = negb (bit_of a i).
Proof.
  intros Hi. destruct (bit_byte_lookup a i Hi) as [b Hb].
  unfold BITARRAY_GET. rewrite BITARRAY_BYTE_div, BITARRAY_MASK_pow.
  rewrite (rd_ok _ _ b) by (done || lia). simpl. eexists. split; [done|].
  unfold bit_of. zcase1; [|lia]. rewrite Hb. simpl.
  destruct (Z.testbit b (i mod 8)) eqn:E; simpl.
  - apply Z.eqb_neq. intros C.
    apply (f_equal (fun w => Z.testbit w (i mod 8))) in C.
    rewrite Z.land_spec, Z.pow2_bits_true, E, Z.bits_0 in C by lia. done.
  - apply Z.eqb_eq. apply Z.bits_inj'. intros k Hk.
    rewrite Z.land_spec, Z.pow2_bits_eqb, Z.bits_0 by lia.
    destruct (Z.eqb_spec (i mod 8) k) as [<-|]; [by rewrite E|apply andb_false_r].
Qed.

(** * Enumeration of the set bits *)

Lemma pos_lowest_spec p : 0 <= pos_lowest p /\ Z.testbit (Zpos p) (pos_lowest p) = true /\
  forall j, 0 <= j < pos_lowest p -> Z.testbit (Zpos p) j = false.
Proof.
  induction p as [p _|p (IH0 & IH1 & IH2)|]; cbn [pos_lowest].
  - split; [lia|split; [done|lia]].
  - rewrite (Pos2Z.inj_xO p). split; [lia|split].
    + rewrite Z.add_comm, Z.add_1_r. rewrite Z.double_bits_succ. done.
    + intros j Hj. destruct (decide (j = 0)) as [->|]; [apply Z.testbit_even_0|].
      replace j with (Z.succ (j - 1)) by lia. rewrite Z.double_bits_succ. apply IH2. lia.
  - split; [lia|split; [done|lia]].
Qed.

Lemma hw_scan_bit_forward64_spec m l : hw_scan_bit_forward64 m = Some l ->
  0 <= l /\ Z.testbit m l = true /\ forall j, 0 <= j < l -> Z.testbit m j = false.
Proof. destruct m; intros [= <-]. apply pos_lowest_spec. Qed.

Definition set_bits (f : Z -> bool) (from len : Z) : list Z :=
  filter (fun i => f i = true) (seqZ from len).

Lemma set_bits_none f from len :
  (forall i, from <= i < from + len -> f i = false) -> set_bits f from len = [].
Proof.
  intros H. unfold set_bits. apply filter_none.
  intros i Hi. apply elem_of_seqZ in Hi. rewrite H by lia. done.
Qed.

Lemma set_bits_app f from l1 l2 : 0 <= l1 -> 0 <= l2 ->
  set_bits f from (l1 + l2) = set_bits f from l1 ++ set_bits f (from + l1) l2.
Proof. intros. unfold set_bits. rewrite seqZ_app by lia. by rewrite list.filter_app. Qed.

Lemma set_bits_ext f g from len :
  (forall i, from <= i < from + len -> f i = g i) -> set_bits f from len = set_bits g from len.
Proof.
  intros H. unfold set_bits. apply filter_same.
  intros i Hi. apply elem_of_seqZ in Hi. by rewrite H by lia.
Qed.

Lemma set_bits_cons f from len : 0 < len -> f from = true ->
  set_bits f from len = from :: set_bits f (from + 1) (len - 1).
Proof.
  intros Hl Hf. unfold set_bits. rewrite seqZ_cons by lia. rewrite filter_cons_True by done.
  by rewrite <- Z.add_1_r, <- Z.sub_1_r.
Qed.

Lemma scan_mask_spec fuel base m k : 0 <= k <= 64 -> (Z.to_nat (64 - k) <= fuel)%nat ->
  0 <= m < 2 ^ 64 -> (forall j, 0 <= j < k -> Z.testbit m j = false) ->
  scan_mask fuel base m = (fun j => base + j) <$> set_bits (Z.testbit m) k (64 - k).
Proof.
  revert m k. induction fuel as [|fuel IH]; intros m k Hk Hf Hm Hz; simpl.
  { replace (64 - k) with 0 by lia. done. }
  destruct (hw_scan_bit_forward64 m) as [l|] eqn:El.
  - apply hw_scan_bit_forward64_spec in El as (Hl0 & Hl1 & Hl2).
    assert (k <= l). { destruct (decide (k <= l)); [done|]. rewrite Hz in Hl1; [done|lia]. }
    assert (l < 64).
    { destruct (decide (l < 64)); [done|]. rewrite (bits_above m 64) in Hl1; [done|lia|lia]. }
    replace (64 - k) with ((l - k) + (64 - l)) by lia.
    rewrite set_bits_app by lia. rewrite (set_bits_none _ k) by (intros; apply Hl2; lia).
    replace (k + (l - k)) with l by lia. rewrite set_bits_cons by (done || lia). simpl.
    f_equal. rewrite (IH _ (l + 1)).
    + f_equal. replace (64 - l - 1) with (64 - (l + 1)) by lia. apply set_bits_ext.
      intros i Hi. rewrite Z.clearbit_neq by lia. done.
    + lia.
    + lia.
    + unfold Z.clearbit. split; [apply Z.ldiff_nonneg; lia|].
      apply bits_lt_pow2; [apply Z.ldiff_nonneg; lia|lia|].
      intros j Hj. by rewrite Z.ldiff_spec, (bits_above m 64) by lia.
    + intros j Hj. rewrite Z.clearbit_eqb.
      destruct (decide (j = l)) as [->|]; [by rewrite Z.eqb_refl, andb_false_r|].
      rewrite Hl2 by lia. done.
  - destruct m as [|p|p]; [|discriminate|lia].
    rewrite set_bits_none; [done|]. intros. apply Z.bits_0.
Qed.

Lemma load_mask_spec a base idx n : bytes_ok a -> base mod 8 = 0 -> 0 <= base -> 0 <= idx ->
  base / 8 + idx + Z.of_nat n <= Z.of_nat (length a) ->
  exists m, load_mask a base idx n = Ok m /\ 0 <= m < 2 ^ (8 * (idx + Z.of_nat n)) /\
    forall j, 0 <= j -> Z.testbit m j =
      if (8 * idx <=? j) && (j <? 8 * (idx + Z.of_nat n)) then bit_of a (base + j) else false.
Proof.
  intros Ha Hb8 Hb0. revert idx. induction n as [|n IH]; intros idx Hi Hlen; simpl.
  { exists 0. split; [done|]. split; [lia|]. intros j Hj. rewrite Z.bits_0. zcases; done. }
  destruct (IH (idx + 1)) as (m & -> & Hm & Hbits); [lia|lia|].
  rewrite BITARRAY_BYTE_div.
  destruct (bit_byte_lookup a (base + idx * 8)) as [b Hb]; [lia|].
  rewrite (rd_ok _ _ b) by (done || lia). simpl. eexists. split; [done|].
  pose proof (bytes_ok_lookup _ _ _ Ha Hb) as Hb256.
  assert (forall j, 0 <= j -> Z.testbit (Z.lor (Z.shiftl b (8 * idx)) m) j =
    if (8 * idx <=? j) && (j <? 8 * (idx + Z.of_nat (S n))) then bit_of a (base + j) else false)
    as Hall.
  { intros j Hj. rewrite Z.lor_spec, Z.shiftl_spec, Hbits by lia.
    unfold bit_of. rewrite (proj2 (Z.leb_le 0 (base + j))) by lia.
    destruct (decide (8 * idx <= j < 8 * idx + 8)) as [Hin|Hout].
    - replace ((base + j) / 8) with ((base + idx * 8) / 8) by lia. rewrite Hb. simpl.
      replace ((base + j) mod 8) with (j - 8 * idx) by lia. zcases. apply orb_false_r.
    - assert (Z.testbit b (j - 8 * idx) = false) as ->.
      { destruct (decide (j < 8 * idx)); [by rewrite Z.testbit_neg_r by lia|].
        apply (bits_above b 8); lia. }
      zcases; done. }
  split; [|done]. split; [apply Z.lor_nonneg; split; [apply Z.shiftl_nonneg; lia|lia]|].
  apply bits_lt_pow2; [apply Z.lor_nonneg; split; [apply Z.shiftl_nonneg; lia|lia]|lia|].
  intros j Hj. rewrite Hall by lia. zcases; done.
Qed.

Lemma enumerate_from_spec fuel a bits base : bytes_ok a -> 0 <= base -> base mod 64 = 0 ->
  BITARRAY_SIZE_IN_BYTES bits <= Z.of_nat (length a) ->
  (bits <= base + 64 * Z.of_nat fuel) ->
  enumerate_from fuel a bits base =
    Ok (set_bits (bit_of a) base (8 * BITARRAY_SIZE_IN_BYTES bits - base)).
Proof.
  intros Ha. unfold BITARRAY_SIZE_IN_BYTES. revert base.
  induction fuel as [|fuel IH]; intros base Hb0 Hb64 Hlen Hfuel; cbn [enumerate_from].
  { unfold set_bits, seqZ. by replace (Z.to_nat (8 * ((bits + 7) / 8) - base)) with 0%nat by lia. }
  destruct (Z.ltb_spec base bits) as [Hlt|Hge].
  2:{ unfold set_bits, seqZ. by replace (Z.to_nat (8 * ((bits + 7) / 8) - base)) with 0%nat by lia. }
  set (n := if (bits - base + 7) / 8 <? 8 then (bits - base + 7) / 8 else 8).
  assert (0 < n <= 8 /\ base / 8 + n <= (bits + 7) / 8 /\
    (n = 8 \/ base / 8 + n = (bits + 7) / 8)) as (Hn & Hn2 & Hn3) by (unfold n; zcases).
  destruct (load_mask_spec a base 0 (Z.to_nat n)) as (m & -> & Hm & Hbits); try (done || lia).
  rewrite bind_Ok, IH, bind_Ok by lia. f_equal.
  assert (0 <= m < 2 ^ 64) as Hm64.
  { split; [lia|]. eapply Z.lt_le_trans; [apply Hm|]. apply Z.pow_le_mono_r; lia. }
  rewrite (scan_mask_spec 64 base m 0) by (lia || done). change (64 - 0) with 64.
  assert ((fun j => base + j) <$> set_bits (Z.testbit m) 0 64 = set_bits (bit_of a) base (8 * n))
    as ->.
  { replace 64 with (8 * n + (64 - 8 * n)) by lia. rewrite set_bits_app by lia.
    rewrite (set_bits_none _ (0 + 8 * n)) by (intros i Hi; rewrite Hbits by lia; zcases; done).
    rewrite app_nil_r, (set_bits_ext _ (fun j => bit_of a (base + j)))
      by (intros i Hi; rewrite Hbits by lia; zcases; done).
    unfold set_bits. replace (seqZ base (8 * n)) with (seqZ (base + 0) (8 * n)) by (f_equal; lia).
    rewrite <- (fmap_add_seqZ base 0), filter_map. done. }
  destruct Hn3 as [->|Hn3].
  - replace (8 * ((bits + 7) / 8) - base)
      with (8 * 8 + (8 * ((bits + 7) / 8) - (base + 64))) at 1 by lia.
    destruct (decide (base + 64 <= 8 * ((bits + 7) / 8))); [by rewrite set_bits_app by lia|lia].
  - replace (8 * ((bits + 7) / 8) - base) with (8 * n) by lia.
    rewrite (set_bits_none _ (base + 64)) by lia. apply app_nil_r.
Qed.

(** * Properties *)

(** [align_forward_to_power_of_2] returns the least power of two that is not
    below its argument, for every argument up to 2^31 (1 for 0). *)
Theorem align_forward_least_pow2 n : 0 <= n <= 2 ^ 31 ->
  exists k, align_forward_to_power_of_2 n = Ok (2 ^ k) /\ 0 <= k <= 31 /\ n <= 2 ^ k /\
    forall j, 0 <= j -> n <= 2 ^ j -> k <= j.
Proof.
  intros Hn. destruct (decide (n = 0)) as [->|Hne].
  { exists 0. repeat split; lia. }
  exists (Z.log2_up n). pose proof (Z.log2_up_nonneg n).
  split; [apply align_forward_ok; lia|]. split; [|split].
  - split; [done|]. replace 31 with (Z.log2_up (2 ^ 31)) by (apply Z.log2_up_pow2; lia).
    apply Z.log2_up_le_mono. lia.
  - destruct (decide (n = 1)) as [->|]; [done|]. apply Z.log2_log2_up_spec. lia.
  - intros j Hj Hle. apply Z.log2_up_le_pow2; lia.
Qed.

Lemma align_forward_least_pow2_witness :
  exists k, align_forward_to_power_of_2 1000 = Ok (2 ^ k) /\ 0 <= k <= 31 /\ 1000 <= 2 ^ k /\
    forall j, 0 <= j -> 1000 <= 2 ^ j -> k <= j.
Proof. apply (align_forward_least_pow2 1000). lia. Defined.

(** [bitarray_enumerate_bits] calls its callback once for every set bit of the
    bytes that hold the first [bits] bits, in ascending order, and returns (bits
    past [bits] in the last byte are visited as well). *)
Theorem bitarray_enumerate_bits_spec a bits :
  bytes_ok a -> 0 <= bits -> BITARRAY_SIZE_IN_BYTES bits <= Z.of_nat (length a) ->
  bitarray_enumerate_bits a bits =
    Ok (set_bits (bit_of a) 0 (8 * BITARRAY_SIZE_IN_BYTES bits)).
Proof.
  intros Ha Hb Hlen. unfold bitarray_enumerate_bits.
  rewrite enumerate_from_spec by (done || lia). by rewrite Z.sub_0_r.
Qed.

Lemma bitarray_enumerate_bits_spec_witness :
  bitarray_enumerate_bits [5; 0; 128] 20 = Ok [0; 2; 23].
Proof.
  rewrite (bitarray_enumerate_bits_spec [5; 0; 128] 20); [reflexivity| |lia|vm_compute; discriminate].
  repeat constructor; lia.
Defined.
