(* ===== verification/Address.v ===== *)
(** utils/address.c: the widths of physical and virtual addresses read from
    CPUID, and the canonical-address checks built on them. *)

From S2P Require Import Prelude VmmDefs.

(** The module's static variables. *)
Record address_space := {
  max_virtual_address : Z;
  virtual_address_copmplement : Z;
  physical_address_size : Z;
  virtual_address_size : Z;
  pw_reserved_bits_high_mask : Z
}.

(** [value] is what [hw_read_address_size] (CPUID leaf 0x80000008) returns. A
    shift count outside the width of the shifted operand is undefined. *)
Definition addr_setup_address_space (value : Z) : outcome address_space :=
  let phys := u8 (Z.land value 255) in
  let virt := u8 (Z.land (Z.shiftr value 8) 255) in
  if (64 <=? virt) || (phys <? 32) || (64 <=? phys) then Fault
  else
    let max_virt := u64 (Z.shiftl 1 virt - 1) in
    Ok {| max_virtual_address := max_virt;
          virtual_address_copmplement := u64 (Z.lnot (Z.shiftr max_virt 1));
          physical_address_size := phys;
          virtual_address_size := virt;
          pw_reserved_bits_high_mask := u32 (Z.lnot (u32 (Z.shiftl 1 (phys - 32)) - 1)) |}.

Definition addr_get_physical_address_size (s : address_space) : Z := physical_address_size s.

Definition addr_canonize_address (s : address_space) (address : Z) : Z :=
  if Z.land address (virtual_address_copmplement s) =? 0 then address
  else Z.lor address (virtual_address_copmplement s).

Definition addr_is_canonical (s : address_space) (address : Z) : bool :=
  addr_canonize_address s address =? address.

Definition addr_physical_is_valid (s : address_space) (address : Z) : bool :=
  address <? u64 (Z.shiftl 1 (physical_address_size s)).

(** * Facts *)

(** The complement mask is the set of bits from the sign bit [virt - 1] up. *)
Lemma setup_complement value s : addr_setup_address_space value = Ok s ->
  1 <= virtual_address_size s ->
  virtual_address_copmplement s = 2 ^ 64 - 2 ^ (virtual_address_size s - 1) /\
  virtual_address_size s < 64.
Proof.
  unfold addr_setup_address_space.
  set (virt := u8 (Z.land (Z.shiftr value 8) 255)). set (phys := u8 (Z.land value 255)).
  destruct (_ || _ || _) eqn:E; [discriminate|]. intros [= <-]. simpl. intros Hv.
  apply orb_false_iff in E as [E _]. apply orb_false_iff in E as [E _].
  apply Z.leb_gt in E. split; [|lia].
  assert (2 ^ virt = 2 * 2 ^ (virt - 1)) as Hp.
  { rewrite <- Z.pow_succ_r by lia. f_equal. lia. }
  assert (2 ^ (virt - 1) <= 2 ^ 62) by (apply Z.pow_le_mono_r; lia).
  assert (0 < 2 ^ (virt - 1)) by lia.
  rewrite Z.shiftl_1_l, (u64_small (2 ^ virt - 1)) by lia.
  rewrite Z.shiftr_div_pow2 by lia. change (2 ^ 1) with 2.
  replace ((2 ^ virt - 1) / 2) with (2 ^ (virt - 1) - 1) by lia.
  unfold u64, wrap, Z.lnot.
  symmetry. apply (Z.mod_unique_pos _ _ (-1)); lia.
Qed.

Lemma land_complement a k : 0 <= k <= 63 -> 0 <= a < 2 ^ 64 ->
  Z.land a (2 ^ 64 - 2 ^ k) = a - a mod 2 ^ k.
Proof.
  intros Hk Ha. assert (0 < 2 ^ k) by lia.
  assert (2 ^ k <= 2 ^ 63) by (apply Z.pow_le_mono_r; lia).
  rewrite <- land_lnot_ones by lia. rewrite <- (land_u64_r a (Z.lnot _)) by lia.
  f_equal. unfold u64, wrap, Z.lnot. apply (Z.mod_unique_pos _ _ (-1)); lia.
Qed.

(** Setting all the sign bits. *)
Lemma lor_complement a k : 0 <= k <= 63 -> 0 <= a < 2 ^ 64 ->
  Z.lor a (2 ^ 64 - 2 ^ k) = 2 ^ 64 - 2 ^ k + a mod 2 ^ k.
Proof.
  intros Hk Ha. pose proof (Z.add_lor_land a (2 ^ 64 - 2 ^ k)) as E.
  rewrite land_complement in E by lia. lia.
Qed.

(** * Properties *)

Definition sign_extended (virt a : Z) : Prop :=
  a < 2 ^ (virt - 1) \/ 2 ^ 64 - 2 ^ (virt - 1) <= a.

(** After set-up from CPUID, [addr_is_canonical] accepts exactly the 64-bit
    addresses that are the sign extension of their low [virtual_address_size]
    bits. *)
Theorem addr_is_canonical_spec value s a :
  addr_setup_address_space value = Ok s -> 1 <= virtual_address_size s -> 0 <= a < 2 ^ 64 ->
  addr_is_canonical s a = true <-> sign_extended (virtual_address_size s) a.
Proof.
  intros Hs Hv Ha. destruct (setup_complement _ _ Hs Hv) as [Hc Hlt].
  set (k := virtual_address_size s - 1) in *. unfold sign_extended. fold k.
  assert (0 < 2 ^ k) by (apply Z.pow_pos_nonneg; lia).
  unfold addr_is_canonical, addr_canonize_address. rewrite Hc, land_complement by lia.
  assert (2 ^ k <= 2 ^ 63) by (apply Z.pow_le_mono_r; lia).
  pose proof (Z.mod_pos_bound a (2 ^ k)) as Hm. pose proof (Z.div_mod a (2 ^ k)) as Hd.
  destruct (Z.eqb_spec (a - a mod 2 ^ k) 0) as [E|E].
  - rewrite Z.eqb_refl. split; [lia|done].
  - rewrite lor_complement, Z.eqb_eq by lia. split; intros H'; [lia|].
    destruct H' as [H'|H']; [rewrite Z.mod_small in E; lia|].
    replace a with (2 ^ 64 - 2 ^ k + (a - (2 ^ 64 - 2 ^ k))) at 1 by lia.
    replace (2 ^ 64 - 2 ^ k) with ((2 ^ (64 - k) - 1) * 2 ^ k) at 2.
    2:{ rewrite Z.mul_sub_distr_r, <- Z.pow_add_r by lia. f_equal; [f_equal|]; lia. }
    rewrite Z.add_comm, (Z.add_comm _ (a - _)), Z_mod_plus_full, Z.mod_small; lia.
Qed.

Lemma addr_is_canonical_spec_witness :
  exists s, addr_setup_address_space 12327 = Ok s /\
    (addr_is_canonical s 18446603336221196288 = true <->
      sign_extended (virtual_address_size s) 18446603336221196288).
Proof.
  eexists. split; [reflexivity|].
  apply (addr_is_canonical_spec 12327 _ 18446603336221196288); [reflexivity| |lia].
  vm_compute. discriminate.
Defined.

(** The canonized address is always canonical, and a canonical address is not
    changed. *)
Theorem addr_canonize_idempotent value s a :
  addr_setup_address_space value = Ok s -> 1 <= virtual_address_size s -> 0 <= a < 2 ^ 64 ->
  addr_is_canonical s (addr_canonize_address s a) = true /\
  (addr_is_canonical s a = true -> addr_canonize_address s a = a).
Proof.
  intros Hs Hv Ha. destruct (setup_complement _ _ Hs Hv) as [Hc Hlt].
  split; [|intros H; by apply Z.eqb_eq in H].
  unfold addr_is_canonical. apply Z.eqb_eq. unfold addr_canonize_address.
  destruct (Z.eqb_spec (Z.land a (virtual_address_copmplement s)) 0) as [E|E].
  - by rewrite E.
  - rewrite <- Z.lor_assoc, Z.lor_diag. by destruct (_ =? 0).
Qed.

Lemma addr_canonize_idempotent_witness :
  exists s, addr_setup_address_space 12327 = Ok s /\
    addr_is_canonical s (addr_canonize_address s 140737488355328) = true.
Proof.
  eexists. split; [reflexivity|].
  apply (addr_canonize_idempotent 12327 _ 140737488355328); [reflexivity| |lia].
  vm_compute. discriminate.
Defined.
