(* ===== verification/Lock.v ===== *)
(** utils/lock.c: spin locks and read/write locks, with the compare-exchange of
    host/hw/machinesupport.c they are built on.

    The first part gives the routines their sequential meaning (what one CPU
    sees while no other CPU touches the lock); the other components use it. The
    second part interleaves CPUs: [system] is the lock and the program counter
    of each CPU inside the acquire/release code, and [cpu_step] runs one memory
    access of one CPU. The compare-exchange of the source is three accesses (two
    loads and a store), not an interlocked one: the locks exclude in the
    interleavings in which it is not disturbed, and only there. *)

From S2P Require Import Prelude VmmDefs.

(** * Data *)

Record VMM_LOCK := mk_lock { uint32_lock : Z; owner_cpu_id : Z }.

(** (CPU_ID)-1, CPU_ID being UINT16. *)
Definition NO_CPU : Z := 65535.
Definition LOCK_INIT_STATE : VMM_LOCK := mk_lock 0 NO_CPU.

Record VMM_READ_WRITE_LOCK := mk_rw_lock { rw_lock : VMM_LOCK; rw_readers : Z }.

#[global] Instance VMM_LOCK_eq_dec : EqDecision VMM_LOCK.
Proof. solve_decision. Defined.

(** * The routines, one CPU at a time *)

(** Returns the new content of the destination and the value returned:
    movl (dest),edx; cmpxchgl ecx,edx; movl edx,(dest). *)
Definition hw_interlocked_compare_exchange (destination expected comperand : Z) : Z * Z :=
  let old := destination in
  let edx := destination in
  let edx := if edx =? expected then comperand else edx in
  (edx, old).

(** A signed 32-bit increment and decrement, with wrap-around. *)
Definition s32 (x : Z) : Z := (x + 2 ^ 31) mod 2 ^ 32 - 2 ^ 31.
Definition hw_interlocked_increment (x : Z) : Z := s32 (x + 1).
Definition hw_interlocked_decrement (x : Z) : Z := s32 (x - 1).

(** A [VMM_LOCK*] argument is [None] when it is NULL. *)
Definition lock_try_acquire (lock : option VMM_LOCK) : option VMM_LOCK * bool :=
  match lock with
  | None => (None, false)
  | Some l =>
      let '(v, current_value) := hw_interlocked_compare_exchange (uint32_lock l) 0 1 in
      (Some (mk_lock v (owner_cpu_id l)), current_value =? 0)
  end.

(** The spin loop with a bound on its iterations; [Spin] when the bound is hit. *)
Fixpoint lock_acquire (fuel : nat) (this_cpu_id : Z) (lock : option VMM_LOCK)
  : outcome (option VMM_LOCK) :=
  match lock with
  | None => Ok None
  | Some _ =>
      match fuel with
      | O => Spin
      | S fuel' =>
          match lock_try_acquire lock with
          | (Some l, true) => Ok (Some (mk_lock (uint32_lock l) this_cpu_id))
          | (lock', _) => lock_acquire fuel' this_cpu_id lock'
          end
      end
  end.

(** The interruptible form serves one IPC per failed attempt; [ipc_process_one_ipc]
    is ipc.c's routine, acting on the rest of the machine state [W]. *)
Fixpoint interruptible_lock_acquire {W} (ipc_process_one_ipc : W -> bool * W) (fuel : nat)
  (this_cpu_id : Z) (lock : option VMM_LOCK) (w : W) : outcome (option VMM_LOCK * W) :=
  match lock with
  | None => Ok (None, w)
  | Some _ =>
      match fuel with
      | O => Spin
      | S fuel' =>
          match lock_try_acquire lock with
          | (Some l, true) => Ok (Some (mk_lock (uint32_lock l) this_cpu_id), w)
          | (lock', _) =>
              let '(_, w') := ipc_process_one_ipc w in
              interruptible_lock_acquire ipc_process_one_ipc fuel' this_cpu_id lock' w'
          end
      end
  end.

Definition lock_release (lock : option VMM_LOCK) : option VMM_LOCK :=
  match lock with
  | None => None
  | Some _ => Some (mk_lock 0 NO_CPU)
  end.

Definition lock_initialize (lock : option VMM_LOCK) : option VMM_LOCK := lock_release lock.

Definition lock_initialize_read_write_lock (lock : VMM_READ_WRITE_LOCK) : VMM_READ_WRITE_LOCK :=
  match lock_initialize (Some (rw_lock lock)) with
  | Some l => mk_rw_lock l 0
  | None => lock
  end.

(** The lock embedded in a structure is never NULL. *)
Definition acquire (fuel : nat) (cpu : Z) (l : VMM_LOCK) : outcome VMM_LOCK :=
  o ← lock_acquire fuel cpu (Some l);
  match o with Some l' => Ok l' | None => Fault end.

Definition release (l : VMM_LOCK) : VMM_LOCK := default l (lock_release (Some l)).

Definition lock_acquire_readlock (fuel : nat) (cpu : Z) (lock : VMM_READ_WRITE_LOCK)
  : outcome VMM_READ_WRITE_LOCK :=
  l ← acquire fuel cpu (rw_lock lock);
  Ok (mk_rw_lock (release l) (hw_interlocked_increment (rw_readers lock))).

Definition lock_release_readlock (lock : VMM_READ_WRITE_LOCK) : VMM_READ_WRITE_LOCK :=
  mk_rw_lock (rw_lock lock) (hw_interlocked_decrement (rw_readers lock)).

(** [while (lock->readers) hw_pause();]: nothing changes the counter when no
    other CPU runs, so a non-zero counter spins. *)
Definition lock_acquire_writelock (fuel : nat) (cpu : Z) (lock : VMM_READ_WRITE_LOCK)
  : outcome VMM_READ_WRITE_LOCK :=
  l ← acquire fuel cpu (rw_lock lock);
  if rw_readers lock =? 0 then Ok (mk_rw_lock l (rw_readers lock)) else Spin.

Definition lock_release_writelock (lock : VMM_READ_WRITE_LOCK) : VMM_READ_WRITE_LOCK :=
  mk_rw_lock (release (rw_lock lock)) (rw_readers lock).

Definition interruptible_lock_acquire_readlock {W} (ipc_process_one_ipc : W -> bool * W)
  (fuel : nat) (cpu : Z) (lock : VMM_READ_WRITE_LOCK) (w : W)
  : outcome (VMM_READ_WRITE_LOCK * W) :=
  r ← interruptible_lock_acquire ipc_process_one_ipc fuel cpu (Some (rw_lock lock)) w;
  match r with
  | (Some l, w') => Ok (mk_rw_lock (release l) (hw_interlocked_increment (rw_readers lock)), w')
  | (None, _) => Fault
  end.

(** [while (lock->readers)] with one IPC served per iteration; an IPC may run a
    [lock_release_readlock] on this CPU, so it acts on the counter as well. *)
Fixpoint wait_no_readers {W} (ipc_process_one_ipc : Z * W -> bool * (Z * W)) (fuel : nat)
  (st : Z * W) : outcome (Z * W) :=
  if st.1 =? 0 then Ok st
  else
    match fuel with
    | O => Spin
    | S fuel' => let '(_, st') := ipc_process_one_ipc st in
                 wait_no_readers ipc_process_one_ipc fuel' st'
    end.

Definition interruptible_lock_acquire_writelock {W}
  (ipc_process_one_ipc : Z * W -> bool * (Z * W)) (fuel : nat) (cpu : Z)
  (lock : VMM_READ_WRITE_LOCK) (w : W) : outcome (VMM_READ_WRITE_LOCK * W) :=
  r ← interruptible_lock_acquire ipc_process_one_ipc fuel cpu (Some (rw_lock lock))
        (rw_readers lock, w);
  match r with
  | (Some l, st) => st' ← wait_no_readers ipc_process_one_ipc fuel st;
                    Ok (mk_rw_lock l st'.1, st'.2)
  | (None, _) => Fault
  end.

(** ** Sequential facts *)

Lemma acquire_free fuel cpu l : uint32_lock l = 0 ->
  acquire (S fuel) cpu l = Ok (mk_lock 1 cpu).
Proof. intros H. unfold acquire. simpl. by rewrite H. Qed.

Lemma lock_acquire_held fuel cpu l : uint32_lock l <> 0 ->
  lock_acquire fuel cpu (Some l) = Spin.
Proof.
  intros H. induction fuel as [|fuel IH]; [done|].
  simpl. rewrite (proj2 (Z.eqb_neq (uint32_lock l) 0) H).
  destruct l as [v o]. simpl in *. done.
Qed.

Lemma acquire_held fuel cpu l : uint32_lock l <> 0 -> acquire fuel cpu l = Spin.
Proof. intros H. unfold acquire. by rewrite lock_acquire_held. Qed.

Lemma release_eq l : release l = LOCK_INIT_STATE.
Proof. done. Qed.

#[export] Hint Rewrite release_eq : vmm.

(** * Interleaved CPUs *)

(** Where a CPU is in the code. [Idle] is outside; [Critical] is between a
    completed [lock_acquire] and the call of [lock_release]. *)
Inductive pc :=
| Idle
| TryOld                 (** about to run [old = *destination] *)
| TryLoad (old : Z)      (** about to load the destination into edx *)
| TryStore (old edx : Z) (** registers compared; about to store edx back *)
| TryTest (old : Z)      (** about to test the value returned *)
| SetOwner               (** about to store [owner_cpu_id] *)
| Critical
| RelOwner               (** [lock_release]: about to store -1 to the owner *)
| RelStore.              (** about to store 0 to [uint32_lock] *)

#[global] Instance pc_eq_dec : EqDecision pc.
Proof. solve_decision. Defined.

(** The next memory access of CPU [cpu]; a CPU that is [Idle] starts
    [lock_acquire], one in [Critical] starts [lock_release]. *)
Definition cpu_step (cpu : Z) (p : pc) (l : VMM_LOCK) : pc * VMM_LOCK :=
  match p with
  | Idle => (TryOld, l)
  | TryOld => (TryLoad (uint32_lock l), l)
  | TryLoad old =>
      let edx := uint32_lock l in
      (TryStore old (if edx =? 0 then 1 else edx), l)
  | TryStore old edx => (TryTest old, mk_lock edx (owner_cpu_id l))
  | TryTest old => (if old =? 0 then SetOwner else TryOld, l)
  | SetOwner => (Critical, mk_lock (uint32_lock l) cpu)
  | Critical => (RelOwner, l)
  | RelOwner => (RelStore, mk_lock (uint32_lock l) NO_CPU)
  | RelStore => (Idle, mk_lock 0 (owner_cpu_id l))
  end.

(** The steps of one attempt, run without interruption, are the sequential
    compare-exchange. *)
Lemma attempt_sequential cpu l :
  let '(v, old) := hw_interlocked_compare_exchange (uint32_lock l) 0 1 in
  let '(p1, l1) := cpu_step cpu TryOld l in
  let '(p2, l2) := cpu_step cpu p1 l1 in
  cpu_step cpu p2 l2 = (TryTest old, mk_lock v (owner_cpu_id l)).
Proof. done. Qed.

Record system := mk_system { the_lock : VMM_LOCK; pcs : list pc }.

(** [n] CPUs, none of them in the lock code. *)
Definition boot (n : nat) : system := mk_system LOCK_INIT_STATE (replicate n Idle).

(** Run the CPUs in the order of a schedule, one access at a time. *)
Definition sched1 (s : system) (i : nat) : system :=
  match pcs s !! i with
  | None => s
  | Some p =>
      let '(p', l') := cpu_step (Z.of_nat i) p (the_lock s) in
      mk_system l' (<[i := p']> (pcs s))
  end.

Definition run (s : system) (sched : list nat) : system := fold_left sched1 sched s.

(** Between the first and the last access of a compare-exchange. *)
Definition exchanging (p : pc) : bool :=
  match p with TryLoad _ | TryStore _ _ => true | _ => false end.
(** The next access is to the lock word. *)
Definition touches_word (p : pc) : bool :=
  match p with TryOld | TryLoad _ | TryStore _ _ | RelStore => true | _ => false end.

(** No CPU touches the lock word while another one is inside its compare-exchange:
    what a lock prefix would enforce, and the source does not. *)
Definition undisturbed1 (s : system) (i : nat) : bool :=
  match pcs s !! i with
  | None => true
  | Some p => negb (touches_word p) || (count exchanging (delete i (pcs s)) =? 0)
  end.
Fixpoint undisturbed (s : system) (sched : list nat) : bool :=
  match sched with
  | [] => true
  | i :: sched' => undisturbed1 s i && undisturbed (sched1 s i) sched'
  end.

(** ** The invariant *)

Lemma count_delete {A} (P : A -> bool) (l : list A) i x : l !! i = Some x ->
  count P (delete i l) = count P l - Z.b2z (P x).
Proof.
  revert i. induction l as [|y l IH]; intros [|i] H; simplify_eq/=; rewrite ?count_cons; [lia|].
  rewrite (IH i H). lia.
Qed.

(** The CPU owns the lock word: it read 0 and the word is 1 since. *)
Definition holding (p : pc) : bool :=
  match p with
  | TryTest old => old =? 0
  | SetOwner | Critical | RelOwner | RelStore => true
  | _ => false
  end.

Definition owner_ok (l : VMM_LOCK) (i : nat) (p : pc) : Prop :=
  p = Critical -> owner_cpu_id l = Z.of_nat i.

(** The registers of a compare-exchange agree with the word. *)
Definition registers_ok (l : VMM_LOCK) (p : pc) : Prop :=
  match p with
  | TryLoad old => old = uint32_lock l
  | TryStore old edx => old = uint32_lock l /\ edx = (if old =? 0 then 1 else old)
  | _ => True
  end.

Record lock_inv (s : system) : Prop := {
  inv_word : uint32_lock (the_lock s) = count holding (pcs s);
  inv_bool : count holding (pcs s) <= 1;
  inv_regs : forall i p, pcs s !! i = Some p -> registers_ok (the_lock s) p;
  inv_owner : forall i p, pcs s !! i = Some p -> owner_ok (the_lock s) i p
}.

Lemma boot_inv n : lock_inv (boot n).
Proof.
  split; simpl.
  - by rewrite count_replicate.
  - by rewrite count_replicate.
  - intros i p H. by apply lookup_replicate in H as [-> _].
  - intros i p H. apply lookup_replicate in H as [-> _]. intros [=].
Qed.

(** Only the lock holder can be critical, so changing the owner field while
    holding disturbs nobody else. *)
Lemma other_not_critical s i j p q : lock_inv s -> i <> j ->
  pcs s !! i = Some p -> holding p = true -> pcs s !! j = Some q -> q <> Critical.
Proof.
  intros Hinv Hij Hi Hp Hj ->.
  pose proof (count_two holding (pcs s) i j p Critical Hij Hi Hj Hp eq_refl).
  pose proof (inv_bool _ Hinv). lia.
Qed.

(** While [i] touches the word, the others have no registers to keep. *)
Lemma other_registers s i j p q l : undisturbed1 s i = true -> touches_word p = true -> i <> j ->
  pcs s !! i = Some p -> pcs s !! j = Some q -> registers_ok l q.
Proof.
  intros Hu Ht Hij Hi Hj. unfold undisturbed1 in Hu. rewrite Hi, Ht in Hu. simpl in Hu. apply Z.eqb_eq in Hu.
  destruct (exchanging q) eqn:Eq; [exfalso|by destruct q].
  rewrite (count_delete _ _ _ _ Hi) in Hu. destruct (exchanging p) eqn:Ep.
  - pose proof (count_two exchanging (pcs s) i j p q Hij Hi Hj Ep Eq). simpl Z.b2z in Hu. lia.
  - pose proof (count_member exchanging (pcs s) j q Hj Eq). simpl Z.b2z in Hu. lia.
Qed.

Lemma step_inv s i : lock_inv s -> undisturbed1 s i = true -> lock_inv (sched1 s i).
Proof.
  intros Hinv Hu. unfold sched1. destruct (pcs s !! i) as [p|] eqn:Hi; [|done].
  destruct (cpu_step (Z.of_nat i) p (the_lock s)) as [p' l'] eqn:E.
  pose proof (inv_word _ Hinv) as Hw. pose proof (inv_bool _ Hinv) as Hb.
  pose proof (inv_owner _ Hinv) as Ho. pose proof (inv_regs _ Hinv) as Hr.
  pose proof (Hr i p Hi) as Hip.
  pose proof (count_insert holding (pcs s) i p p' Hi) as Hc.
  pose proof (count_nonneg holding (pcs s)) as Hnn.
  assert (holding p = true -> count holding (pcs s) = 1) as Hone.
  { intros H. pose proof (count_member _ _ _ _ Hi H). lia. }
  assert (forall j q, <[i := p']> (pcs s) !! j = Some q -> (j = i /\ q = p') \/ (i <> j /\ pcs s !! j = Some q)) as Hlk.
  { intros j q H. destruct (decide (j = i)) as [->|]; [|by rewrite list_lookup_insert_ne in H; auto].
    rewrite list_lookup_insert_eq in H by (by eapply lookup_lt_Some). left. naive_solver. }
  assert (uint32_lock l' = uint32_lock (the_lock s) \/ touches_word p = true) as Ht by (destruct p; simplify_eq/=; auto).
  split; simpl.
  - destruct p; simpl in E, Hip, Hone, Hc; simplify_eq/=; try lia.
    + destruct Hip as [-> ->]. destruct (uint32_lock (the_lock s) =? 0) eqn:E0; simpl in *; lia.
    + destruct (old =? 0); simpl in *; lia.
  - destruct p; simpl in E, Hip, Hone, Hc; simplify_eq/=; try lia.
    + destruct Hip as [-> ->]. destruct (uint32_lock (the_lock s) =? 0) eqn:E0; simpl in *; lia.
    + destruct (old =? 0); simpl in *; lia.
  - intros j q [[-> ->]|[Hne Hj]]%Hlk.
    + destruct p; simpl in E; simplify_eq/=; try done. by destruct (old =? 0).
    + destruct Ht as [Ht|Ht]; [|by apply (other_registers s i j p)].
      pose proof (Hr j q Hj) as Hq. destruct q; simpl in *; rewrite ?Ht; done.
  - intros j q [[-> ->]|[Hne Hj]]%Hlk Hq; subst.
    + destruct p; simpl in E; simplify_eq/=; try done. by destruct (old =? 0).
    + destruct p; simpl in E; simplify_eq/=; try (by apply (Ho j _ Hj));
        exfalso; by eapply (other_not_critical s i j).
Qed.

Lemma run_inv sched : forall s, lock_inv s -> undisturbed s sched = true -> lock_inv (run s sched).
Proof.
  induction sched as [|i sched IH]; intros s Hs Hu; [done|]. simpl in *. apply andb_true_iff in Hu as [H1 H2].
  apply IH; [by apply step_inv|done].
Qed.

(** * Read/write locks, interleaved *)

Module RW.

(** A CPU in the read/write lock code. The compare-exchange of the spin lock
    inside is again two loads ([RTry], [RLoad]) and a store ([RStore], with the
    test of the value read); the counter is changed by locked instructions. *)
Inductive rwpc :=
| RWIdle
| RTry | RLoad (old : Z) | RStore (old edx : Z) | RSetOwner | RInc | RRelOwner | RRelStore | Reading
| WTry | WLoad (old : Z) | WStore (old edx : Z) | WSetOwner | WWait | Writing | WRelOwner | WRelStore.

#[global] Instance rwpc_eq_dec : EqDecision rwpc.
Proof. solve_decision. Defined.

(** [reader] chooses, for an idle CPU, between [lock_acquire_readlock] and
    [lock_acquire_writelock]. *)
Definition rw_cpu_step (reader : bool) (cpu : Z) (p : rwpc) (s : VMM_READ_WRITE_LOCK)
  : rwpc * VMM_READ_WRITE_LOCK :=
  let l := rw_lock s in
  let word := uint32_lock l in
  let set_word v := mk_rw_lock (mk_lock v (owner_cpu_id l)) (rw_readers s) in
  let set_owner o := mk_rw_lock (mk_lock word o) (rw_readers s) in
  match p with
  | RWIdle => (if reader then RTry else WTry, s)
  | RTry => (RLoad word, s)
  | RLoad old => (RStore old (if word =? 0 then 1 else word), s)
  | RStore old edx => (if old =? 0 then RSetOwner else RTry, set_word edx)
  | RSetOwner => (RInc, set_owner cpu)
  | RInc => (RRelOwner, mk_rw_lock l (hw_interlocked_increment (rw_readers s)))
  | RRelOwner => (RRelStore, set_owner NO_CPU)
  | RRelStore => (Reading, set_word 0)
  | Reading => (RWIdle, mk_rw_lock l (hw_interlocked_decrement (rw_readers s)))
  | WTry => (WLoad word, s)
  | WLoad old => (WStore old (if word =? 0 then 1 else word), s)
  | WStore old edx => (if old =? 0 then WSetOwner else WTry, set_word edx)
  | WSetOwner => (WWait, set_owner cpu)
  | WWait => (if rw_readers s =? 0 then Writing else WWait, s)
  | Writing => (WRelOwner, s)
  | WRelOwner => (WRelStore, set_owner NO_CPU)
  | WRelStore => (RWIdle, set_word 0)
  end.

(** A schedule is a list of CPU numbers with the choice an idle CPU makes. *)
Definition rw_sched1 (st : VMM_READ_WRITE_LOCK * list rwpc) (c : nat * bool) :=
  match st.2 !! c.1 with
  | None => st
  | Some p => let '(p', s') := rw_cpu_step c.2 (Z.of_nat c.1) p st.1 in (s', <[c.1 := p']> st.2)
  end.
Definition rw_run st sched := fold_left rw_sched1 sched st.
Definition rw_boot (n : nat) : VMM_READ_WRITE_LOCK * list rwpc := (mk_rw_lock LOCK_INIT_STATE 0, replicate n RWIdle).

(** As for the spin lock: nobody touches the lock word during a compare-exchange. *)
Definition rw_exchanging (p : rwpc) : bool :=
  match p with RLoad _ | RStore _ _ | WLoad _ | WStore _ _ => true | _ => false end.
Definition rw_touches_word (p : rwpc) : bool :=
  match p with RTry | WTry | RRelStore | WRelStore => true | _ => rw_exchanging p end.
Definition rw_undisturbed1 (st : VMM_READ_WRITE_LOCK * list rwpc) (c : nat * bool) : bool :=
  match st.2 !! c.1 with
  | None => true
  | Some p => negb (rw_touches_word p) || (count rw_exchanging (delete c.1 st.2) =? 0)
  end.
Fixpoint rw_undisturbed (st : VMM_READ_WRITE_LOCK * list rwpc) (sched : list (nat * bool)) : bool :=
  match sched with
  | [] => true
  | c :: sched' => rw_undisturbed1 st c && rw_undisturbed (rw_sched1 st c) sched'
  end.

Definition rw_holding (p : rwpc) : bool :=
  match p with RWIdle | RTry | RLoad _ | RStore _ _ | Reading | WTry | WLoad _ | WStore _ _ => false | _ => true end.
Definition counted (p : rwpc) : bool :=
  match p with RRelOwner | RRelStore | Reading => true | _ => false end.
Definition write_phase (p : rwpc) : bool :=
  match p with Writing | WRelOwner | WRelStore => true | _ => false end.

Definition rw_registers (word : Z) (p : rwpc) : Prop :=
  match p with
  | RLoad old | WLoad old => old = word
  | RStore old edx | WStore old edx => old = word /\ edx = (if old =? 0 then 1 else old)
  | _ => True
  end.

Record rw_inv (s : VMM_READ_WRITE_LOCK) (ps : list rwpc) : Prop := {
  rw_word : uint32_lock (rw_lock s) = count rw_holding ps;
  rw_bool : count rw_holding ps <= 1;
  rw_count : rw_readers s = count counted ps;
  rw_write : count write_phase ps = 0 \/ rw_readers s = 0;
  rw_regs : forall j q, ps !! j = Some q -> rw_registers (uint32_lock (rw_lock s)) q
}.

Lemma s32_small x : - 2 ^ 31 <= x < 2 ^ 31 -> s32 x = x.
Proof. intros H. unfold s32. rewrite Z.mod_small; lia. Qed.

Lemma count_bound {A} (P : A -> bool) (l : list A) : count P l <= Z.of_nat (length l).
Proof.
  induction l as [|x l IH]; [done|]. rewrite count_cons. simpl length.
  destruct (P x); simpl Z.b2z; lia.
Qed.

Lemma rw_other_registers st c p j q w : rw_undisturbed1 st c = true -> rw_touches_word p = true -> c.1 <> j ->
  st.2 !! c.1 = Some p -> st.2 !! j = Some q -> rw_registers w q.
Proof.
  intros Hu Ht Hij Hi Hj. unfold rw_undisturbed1 in Hu. rewrite Hi, Ht in Hu. simpl in Hu. apply Z.eqb_eq in Hu.
  destruct (rw_exchanging q) eqn:Eq; [exfalso|by destruct q].
  rewrite (count_delete _ _ _ _ Hi) in Hu. destruct (rw_exchanging p) eqn:Ep.
  - pose proof (count_two rw_exchanging st.2 c.1 j p q Hij Hi Hj Ep Eq). simpl Z.b2z in Hu. lia.
  - pose proof (count_member rw_exchanging st.2 j q Hj Eq). simpl Z.b2z in Hu. lia.
Qed.

(** The counting part of the invariant. *)
Lemma rw_step_counts s ps i p p' s' reader :
  Z.of_nat (length ps) < 2 ^ 31 -> rw_inv s ps -> ps !! i = Some p ->
  rw_cpu_step reader (Z.of_nat i) p s = (p', s') ->
  let ps' := <[i := p']> ps in
  uint32_lock (rw_lock s') = count rw_holding ps' /\ count rw_holding ps' <= 1 /\
  rw_readers s' = count counted ps' /\ (count write_phase ps' = 0 \/ rw_readers s' = 0).
Proof.
  intros Hlen [Hw Hb Hc Hx Hr] Hi E ps'. specialize (Hr i p Hi).
  pose proof (count_insert rw_holding ps i p p' Hi) as H1.
  pose proof (count_insert counted ps i p p' Hi) as H2.
  pose proof (count_insert write_phase ps i p p' Hi) as H3.
  pose proof (count_nonneg rw_holding ps). pose proof (count_nonneg counted ps).
  pose proof (count_nonneg write_phase ps). pose proof (count_bound counted ps).
  pose proof (count_split rw_holding write_phase ps).
  assert (count write_phase ps <= count (fun p => rw_holding p && write_phase p) ps)
    by (apply count_le; by intros []).
  assert (rw_holding p && negb (write_phase p) = true ->
    1 <= count (fun p => rw_holding p && negb (write_phase p)) ps)
    by (intros; by eapply count_member).
  pose proof (count_nonneg (fun p => rw_holding p && negb (write_phase p)) ps).
  assert (rw_holding p = true -> count rw_holding ps = 1).
  { intros H'. pose proof (count_member _ _ _ _ Hi H'). lia. }
  assert (counted p = true -> 1 <= count counted ps)
    by (intros; by eapply count_member).
  assert (write_phase p = true -> 1 <= count write_phase ps)
    by (intros; by eapply count_member).
  assert (count counted ps' <= Z.of_nat (length ps)).
  { unfold ps'. etransitivity; [apply count_bound|]. by rewrite length_insert. }
  unfold rw_cpu_step in E. fold ps' in H1, H2, H3. clearbody ps'.
  destruct p; cbn -[s32 Z.pow] in *; lazymatch type of Hr with _ /\ _ => destruct Hr as [-> ->] | _ => idtac end;
    try (destruct (Z.eqb_spec (uint32_lock (rw_lock s)) 0));
    try (destruct (Z.eqb_spec (rw_readers s) 0)); try destruct reader;
    injection E as <- <-; cbn -[s32 Z.pow] in *;
    unfold hw_interlocked_increment, hw_interlocked_decrement in *;
    rewrite ?s32_small by lia; split_and!; lia.
Qed.

Lemma rw_step_inv st c : Z.of_nat (length st.2) < 2 ^ 31 -> rw_inv st.1 st.2 -> rw_undisturbed1 st c = true ->
  rw_inv (rw_sched1 st c).1 (rw_sched1 st c).2 /\ length (rw_sched1 st c).2 = length st.2.
Proof.
  intros Hlen Hinv Hu. unfold rw_sched1. destruct (st.2 !! c.1) as [p|] eqn:Hi; [|done].
  destruct (rw_cpu_step c.2 (Z.of_nat c.1) p st.1) as [p' s'] eqn:E. simpl. split; [|apply length_insert].
  destruct (rw_step_counts _ _ _ _ _ _ _ Hlen Hinv Hi E) as (I1 & I2 & I3 & I4). split; try done.
  intros j q Hq. pose proof (rw_regs _ _ Hinv c.1 p Hi) as Hp.
  assert (uint32_lock (rw_lock s') = uint32_lock (rw_lock st.1) \/ rw_touches_word p = true) as Ht by (destruct p; simplify_eq/=; auto).
  destruct (decide (c.1 = j)) as [<-|Hne].
  - rewrite list_lookup_insert_eq in Hq by (by eapply lookup_lt_Some). simplify_eq.
    destruct p; simpl in E; simplify_eq/=; try done; by repeat case_match.
  - rewrite list_lookup_insert_ne in Hq by done. destruct Ht as [Ht|Ht]; [|by eapply rw_other_registers].
    rewrite Ht. by apply (rw_regs _ _ Hinv j q).
Qed.

Lemma rw_run_inv sched : forall st, Z.of_nat (length st.2) < 2 ^ 31 -> rw_inv st.1 st.2 -> rw_undisturbed st sched = true ->
  rw_inv (rw_run st sched).1 (rw_run st sched).2.
Proof.
  induction sched as [|c sched IH]; intros st Hl Hs Hu; [done|]. simpl in *. apply andb_true_iff in Hu as [H1 H2].
  destruct (rw_step_inv st c Hl Hs H1) as [Hs' Hl']. apply IH; [by rewrite Hl'|done|done].
Qed.

Lemma rw_boot_inv n : rw_inv (rw_boot n).1 (rw_boot n).2.
Proof.
  split; cbn; rewrite ?count_replicate by done; auto; try done.
  intros j q Hq. by apply lookup_replicate in Hq as [-> _].
Qed.

End RW.

(** * Properties *)

(** C10. Mutual exclusion of the spin lock, with the compare-exchange of the
    source, which is three separate accesses and not an interlocked instruction:
    in every interleaving of the memory accesses of any number of CPUs in which
    no CPU touches the lock word between the first and the last access of another
    CPU's compare-exchange, at most one CPU is between [lock_acquire] and
    [lock_release], and [owner_cpu_id] names it. (Without the condition it fails:
    [lock_mutual_exclusion_fails].) *)
Theorem lock_mutual_exclusion n sched i j :
  undisturbed (boot n) sched = true ->
  let s := run (boot n) sched in
  pcs s !! i = Some Critical ->
  owner_cpu_id (the_lock s) = Z.of_nat i /\ (pcs s !! j = Some Critical -> i = j).
Proof.
  intros Hu s Hi. pose proof (run_inv sched _ (boot_inv n) Hu) as Hinv. fold s in Hinv. split.
  - by apply (inv_owner _ Hinv i Critical).
  - intros Hj. destruct (decide (i = j)) as [|Hne]; [done|].
    pose proof (count_two holding _ i j _ _ Hne Hi Hj eq_refl eq_refl).
    pose proof (inv_bool _ Hinv). lia.
Qed.

(** Two CPUs compete; the second one tries while the first is critical. *)
Lemma lock_mutual_exclusion_witness :
  let s := run (boot 2) [0; 1; 0; 0; 0; 0; 0; 1; 1; 1; 1]%nat in
  owner_cpu_id (the_lock s) = 0 /\ (pcs s !! 1%nat = Some Critical -> 0%nat = 1%nat).
Proof.
  apply (lock_mutual_exclusion 2 [0; 1; 0; 0; 0; 0; 0; 1; 1; 1; 1]%nat 0 1); reflexivity.
Defined.

(** The compare-exchange of machinesupport.c (load, compare in registers,
    store back) is not atomic: two CPUs reach their critical sections together. *)
Theorem lock_mutual_exclusion_fails :
  let s := run (boot 2) [0; 1; 0; 1; 0; 1; 0; 1; 0; 1; 0; 1]%nat in
  pcs s !! 0%nat = Some Critical /\ pcs s !! 1%nat = Some Critical.
Proof. split; reflexivity. Qed.

(** Liveness of the spin loop: a CPU that has reached the attempt while the
    lock word is 0 is in its critical section, and owns the lock, after its next
    five steps run without interference. *)
Theorem lock_acquire_progress l ps i :
  uint32_lock l = 0 -> ps !! i = Some TryOld ->
  pcs (run (mk_system l ps) [i; i; i; i; i]) !! i = Some Critical /\
  the_lock (run (mk_system l ps) [i; i; i; i; i]) = mk_lock 1 (Z.of_nat i).
Proof.
  intros Hl Hi. assert (Hlt : (i < length ps)%nat) by (by eapply lookup_lt_Some).
  unfold run, sched1. cbn [fold_left pcs the_lock]. rewrite Hi. cbn [cpu_step pcs the_lock]. rewrite Hl.
  repeat (rewrite list_lookup_insert_eq by (by rewrite ?length_insert); cbn [cpu_step pcs the_lock uint32_lock owner_cpu_id Z.eqb]; rewrite ?Hl; cbn [cpu_step pcs the_lock uint32_lock owner_cpu_id Z.eqb]).
  done.
Qed.

(** C35. Read/write exclusion: while one CPU holds the write lock no other CPU
    holds the read or the write lock, for any number of CPUs that the signed
    32-bit reader counter can count, in every interleaving in which no CPU touches
    the lock word during another CPU's compare-exchange (which the source does not
    interlock). *)
Theorem rw_lock_exclusion n sched i j p :
  Z.of_nat n < 2 ^ 31 -> RW.rw_undisturbed (RW.rw_boot n) sched = true ->
  let ps := (RW.rw_run (RW.rw_boot n) sched).2 in
  ps !! i = Some RW.Writing -> ps !! j = Some p -> i <> j ->
  p <> RW.Reading /\ p <> RW.Writing.
Proof.
  intros Hn Hu ps Hi Hj Hij.
  assert (Hinv : RW.rw_inv (RW.rw_run (RW.rw_boot n) sched).1 ps).
  { apply RW.rw_run_inv; [simpl; by rewrite length_replicate|apply RW.rw_boot_inv|done]. }
  split; intros ->.
  - pose proof (count_member RW.write_phase ps i _ Hi eq_refl).
    pose proof (count_member RW.counted ps j _ Hj eq_refl).
    pose proof (RW.rw_count _ _ Hinv). pose proof (RW.rw_write _ _ Hinv). lia.
  - pose proof (count_two RW.rw_holding ps i j _ _ Hij Hi Hj eq_refl eq_refl).
    pose proof (RW.rw_bool _ _ Hinv). lia.
Qed.

Definition rw_schedule : list (nat * bool) :=
  [(0, false); (0, false); (0, false); (0, false); (0, false); (0, false); (1, true); (1, true); (1, true); (1, true)]%nat.
Lemma rw_lock_exclusion_witness :
  (RW.rw_run (RW.rw_boot 2) rw_schedule).2 !! 0%nat = Some RW.Writing /\ RW.RTry <> RW.Reading /\ RW.RTry <> RW.Writing.
Proof.
  split; [reflexivity|].
  apply (rw_lock_exclusion 2 rw_schedule 0 1); [lia|reflexivity|reflexivity|reflexivity|lia].
Defined.
