(* ===== verification/Heap.v ===== *)
(** utils/heap.c: the page heap. Descriptors of 4 KB pages are stored in an array
    at the start of the heap buffer, below the first page; an allocation is the
    first run of free pages that is long enough, a release coalesces with the
    free pages after and before it. *)

From S2P Require Import Prelude VmmDefs Lock.

(** * Data *)

(** A descriptor packs a 31-bit count and a 1-bit flag (heap.h); without DEBUG it
    takes 4 bytes. *)
Record HEAP_PAGE_DESCRIPTOR := mk_desc { number_of_pages : Z; in_use : bool }.
Definition DESCRIPTOR_SIZE : Z := 4.

(** Assigning [number_of_pages] keeps 31 bits. *)
Definition desc (n : Z) (used : bool) : HEAP_PAGE_DESCRIPTOR := mk_desc (u31 n) used.

#[global] Instance desc_eq_dec : EqDecision HEAP_PAGE_DESCRIPTOR.
Proof. solve_decision. Defined.

(** The static variables of heap.c. [heap_array] is the address of the descriptor
    array and [descs] its storage: the descriptors that lie below the first page
    ([heap_base]). An access past it would touch the pages themselves and is a
    [Fault] of the model. *)
Record heap := mk_heap {
  heap_array : Z;
  descs : list HEAP_PAGE_DESCRIPTOR;
  heap_base : Z;
  heap_total_pages : Z;
  heap_total_size : Z;
  heap_lock : VMM_LOCK;
  heap_pages : Z;
  ex_heap_base : Z;
  ex_heap_pages : Z;
  ex_heap_start_page : Z;
  max_used_pages : Z
}.

Definition heap_zero : heap :=
  mk_heap 0 [] 0 0 0 (mk_lock 0 0) 0 0 0 0 0.

Definition set_descs (h : heap) (d : list HEAP_PAGE_DESCRIPTOR) : heap :=
  mk_heap (heap_array h) d (heap_base h) (heap_total_pages h) (heap_total_size h) (heap_lock h)
    (heap_pages h) (ex_heap_base h) (ex_heap_pages h) (ex_heap_start_page h) (max_used_pages h).
Definition set_lock (h : heap) (l : VMM_LOCK) : heap :=
  mk_heap (heap_array h) (descs h) (heap_base h) (heap_total_pages h) (heap_total_size h) l
    (heap_pages h) (ex_heap_base h) (ex_heap_pages h) (ex_heap_start_page h) (max_used_pages h).
Definition set_max_used (h : heap) (m : Z) : heap :=
  mk_heap (heap_array h) (descs h) (heap_base h) (heap_total_pages h) (heap_total_size h)
    (heap_lock h) (heap_pages h) (ex_heap_base h) (ex_heap_pages h) (ex_heap_start_page h) m.

(** * Macros *)

Definition CHECK_ADDRESS_IN_RANGE (addr range_start size : Z) : bool :=
  (range_start <=? addr) && (addr <=? range_start ⊕₆₄ size).

Definition HEAP_PAGE_TO_POINTER (h : heap) (page_no : Z) : Z :=
  if ex_heap_start_page h <=? page_no
  then ex_heap_base h ⊕₆₄ (((page_no ⊖₃₂ ex_heap_start_page h) ⊖₃₂ 1) ⊗₃₂ PAGE_4KB_SIZE)
  else heap_base h ⊕₆₄ (page_no ⊗₃₂ PAGE_4KB_SIZE).

Definition HEAP_POINTER_TO_PAGE (h : heap) (pointer : Z) : Z :=
  if CHECK_ADDRESS_IN_RANGE pointer (ex_heap_base h) (ex_heap_pages h ⊗₃₂ PAGE_4KB_SIZE)
  then (u32 ((pointer ⊖₆₄ ex_heap_base h) / PAGE_4KB_SIZE) ⊕₃₂ ex_heap_start_page h) ⊕₃₂ 1
  else u32 ((pointer ⊖₆₄ heap_base h) / PAGE_4KB_SIZE).

(** * Operations *)

Definition vmm_heap_get_total_pages (h : heap) : Z := heap_total_pages h.
Definition vmm_heap_get_max_used_pages (h : heap) : Z := max_used_pages h.
Definition vmm_heap_get_details (h : heap) : Z * Z := (heap_array h, heap_total_size h).

(** [for (i = from; i < total; ++i) { in_use = 0; number_of_pages = total - i }] *)
Definition init_descs (from total : Z) (d : list HEAP_PAGE_DESCRIPTOR)
  : outcome (list HEAP_PAGE_DESCRIPTOR) :=
  for_range from total (fun i d => wr d i (desc (total ⊖₃₂ i) false)) d.

(** [old] is the descriptor storage's previous content, indexed from 0; [h] the
    statics before the call. *)
Definition vmm_heap_initialize (g_heap_pa_num : Z) (old : nat -> HEAP_PAGE_DESCRIPTOR) (h : heap)
  (heap_buffer_address heap_buffer_size : Z) : outcome (Z * heap) :=
  let heap_buffer_address := ALIGN_FORWARD heap_buffer_address 8 in
  let total_size := u32 (ALIGN_FORWARD heap_buffer_size PAGE_4KB_SIZE) in
  let number_of_pages :=
    u32 ((heap_buffer_size ⊕₆₄ (g_heap_pa_num ⊗₃₂ PAGE_4KB_SIZE))
           / (PAGE_4KB_SIZE + DESCRIPTOR_SIZE)) in
  let unaligned_heap_base := heap_buffer_address ⊕₆₄ (number_of_pages * DESCRIPTOR_SIZE) in
  let base := ALIGN_FORWARD unaligned_heap_base PAGE_4KB_SIZE in
  let heap_buffer_size := heap_buffer_size ⊖₆₄ (base ⊖₆₄ heap_buffer_address) in
  let total := u32 (heap_buffer_size / PAGE_4KB_SIZE) in
  let capacity := (base - heap_buffer_address) / DESCRIPTOR_SIZE in
  d ← init_descs 0 total (old <$> seq 0 (Z.to_nat capacity));
  Ok (base ⊕₆₄ (total ⊗₃₂ PAGE_4KB_SIZE),
      mk_heap heap_buffer_address d base total total_size (release (heap_lock h))
        total (ex_heap_base h) (ex_heap_pages h) (number_of_pages ⊕₃₂ 1) (max_used_pages h)).

Section WithCpu.
(** The calling CPU, and the bound on the iterations of its spin loops. *)
Context (fuel : nat) (cpu : Z).

Definition vmm_heap_extend (h : heap) (ex_heap_buffer_address ex_heap_buffer_size : Z)
  : outcome (Z * heap) :=
  l ← acquire fuel cpu (heap_lock h);
  let ex_base := ALIGN_FORWARD ex_heap_buffer_address 8 in
  let total_size :=
    heap_total_size h ⊕₃₂ u32 (ALIGN_FORWARD ex_heap_buffer_size PAGE_4KB_SIZE) in
  let buffer_size := ex_heap_buffer_size ⊖₆₄ (ex_base ⊖₆₄ ex_heap_buffer_address) in
  let ex_pages := u32 (buffer_size / PAGE_4KB_SIZE) ⊕₃₂ 1 in
  let start := heap_total_pages h in
  let total := heap_total_pages h ⊕₃₂ ex_pages in
  d ← wr (descs h) start (desc 1 true);
  d ← init_descs (start ⊕₃₂ 1) total d;
  Ok (ex_base ⊕₆₄ (ex_pages ⊗₃₂ PAGE_4KB_SIZE),
      mk_heap (heap_array h) d (heap_base h) total total_size (release l) (heap_pages h)
        ex_base ex_pages start (max_used_pages h)).

(** The search of [page_alloc_unprotected]: the first free page whose run is long
    enough, from page [i], over [n] pages. *)
Fixpoint find_fit (d : list HEAP_PAGE_DESCRIPTOR) (n : nat) (i pages : Z) : outcome (option Z) :=
  match n with
  | O => Ok None
  | S n' =>
      x ← rd d i;
      if negb (in_use x) && (pages <=? number_of_pages x) then Ok (Some i)
      else find_fit d n' (i + 1) pages
  end.

(** NULL is 0. *)
Definition page_alloc_unprotected (h : heap) (pages : Z) : outcome (Z * heap) :=
  if pages =? 0 then Ok (0, h)
  else
    r ← find_fit (descs h) (Z.to_nat (heap_total_pages h)) 0 pages;
    match r with
    | None => Ok (0, h)
    | Some i =>
        let p_buffer := HEAP_PAGE_TO_POINTER h i in
        d ← wr (descs h) i (desc pages true);
        d ← for_range (i + 1) (i ⊕₃₂ pages) (fun j d => wr d j (desc 0 true)) d;
        let used := i ⊕₃₂ pages in
        Ok (p_buffer,
            set_max_used (set_descs h d)
              (if max_used_pages h <? used then used else max_used_pages h))
    end.

Definition vmm_page_allocate (h : heap) (pages : Z) : outcome (Z * heap) :=
  l ← acquire fuel cpu (heap_lock h);
  r ← page_alloc_unprotected (set_lock h l) pages;
  let '(p_buffer, h') := r in
  Ok (p_buffer, set_lock h' (release (heap_lock h'))).

(** The loop of [vmm_page_allocate_scattered]: the pointers obtained before the
    first failure, and the heap after them. *)
Fixpoint alloc_single_pages (n : nat) (h : heap) : outcome (list Z * heap) :=
  match n with
  | O => Ok ([], h)
  | S n' =>
      r ← page_alloc_unprotected h 1;
      let '(p, h') := r in
      if p =? 0 then Ok ([], h')
      else
        r' ← alloc_single_pages n' h';
        Ok (p :: r'.1, r'.2)
  end.

(** Returns the page array (failed entries are NULL) and the number of pages. *)
Definition vmm_page_allocate_scattered (h : heap) (n : Z) : outcome (list Z * Z * heap) :=
  l ← acquire fuel cpu (heap_lock h);
  r ← alloc_single_pages (Z.to_nat n) (set_lock h l);
  let '(ps, h') := r in
  let count := Z.of_nat (length ps) in
  Ok (ps ++ replicate (Z.to_nat (n - count)) 0, count, set_lock h' (release (heap_lock h'))).

Definition vmm_mark_pages_free (d : list HEAP_PAGE_DESCRIPTOR) (page_from page_to pages : Z)
  : outcome (list HEAP_PAGE_DESCRIPTOR) :=
  for_range page_from page_to
    (fun i d => wr d i (desc (pages ⊖₃₂ (i ⊖₃₂ page_from)) false)) d.

(** [while (from > 0 && free(from - 1) && count(from - 1) != 0)
       { from--; pages_to_release++; }] *)
Fixpoint grab_backward (d : list HEAP_PAGE_DESCRIPTOR) (from : nat) (pages : Z)
  : outcome (Z * Z) :=
  match from with
  | O => Ok (0, pages)
  | S from' =>
      x ← rd d (Z.of_nat from');
      if negb (in_use x) && negb (number_of_pages x =? 0)
      then grab_backward d from' (pages ⊕₃₂ 1)
      else Ok (Z.of_nat from, pages)
  end.

(** The address check shared by the release and the size query. *)
Definition heap_address_ok (h : heap) (address : Z) : bool :=
  (CHECK_ADDRESS_IN_RANGE address (heap_base h) (heap_pages h ⊗₃₂ PAGE_4KB_SIZE)
   || CHECK_ADDRESS_IN_RANGE address (ex_heap_base h) (ex_heap_pages h ⊗₃₂ PAGE_4KB_SIZE))
  && (Z.land address PAGE_4KB_MASK =? 0).

(** VMM_DEADLOOP expands to nothing (vmm_dbg.h), so both error paths return; the
    second one returns with the lock held. *)
Definition vmm_page_free (h : heap) (address : Z) : outcome heap :=
  if negb (heap_address_ok h address) then Ok h
  else
    l ← acquire fuel cpu (heap_lock h);
    let h := set_lock h l in
    let from := HEAP_POINTER_TO_PAGE h address in
    x ← rd (descs h) from;
    if negb (in_use x) || (number_of_pages x =? 0) then Ok h
    else
      let pages := number_of_pages x in
      let to := from ⊕₃₂ pages in
      pages' ← (if to <? heap_total_pages h then
                  y ← rd (descs h) to;
                  if negb (in_use y) && (to ⊕₃₂ number_of_pages y <=? heap_total_pages h)
                  then Ok (pages ⊕₃₂ number_of_pages y) else Ok pages
                else Ok pages);
      b ← grab_backward (descs h) (Z.to_nat from) pages';
      d ← vmm_mark_pages_free (descs h) b.1 to b.2;
      Ok (set_lock (set_descs h d) (release l)).

Definition vmm_page_buff_size (h : heap) (address : Z) : outcome Z :=
  if negb (heap_address_ok h address) then Ok 0
  else
    x ← rd (descs h) (HEAP_POINTER_TO_PAGE h address);
    if negb (in_use x) || (number_of_pages x =? 0) then Ok 0
    else Ok (number_of_pages x).

(** The content of memory: one byte per address. [vmm_memset(p, 0, n)]. *)
Definition memory := Z -> Z.
Definition zero_fill (m : memory) (p n : Z) : memory :=
  fun a => if (p <=? a) && (a <? p + n) then 0 else m a.

Definition vmm_memory_allocate (h : heap) (m : memory) (size : Z)
  : outcome (Z * heap * memory) :=
  if size =? 0 then Ok (0, h, m)
  else
    let size := u32 (ALIGN_FORWARD_U32 size PAGE_4KB_SIZE) in
    r ← vmm_page_allocate h (size / PAGE_4KB_SIZE);
    let '(p_buffer, h') := r in
    Ok (p_buffer, h', if p_buffer =? 0 then m else zero_fill m p_buffer size).

(** The registered callbacks, applied to their contexts; they act on the heap and
    the memory. The one of the requesting owner is skipped. *)
Definition callback := heap * memory -> outcome (heap * memory).

Fixpoint run_callbacks (cbs : list callback) (i owner : Z) (st : heap * memory)
  : outcome (heap * memory) :=
  match cbs with
  | [] => Ok st
  | cb :: cbs' =>
      if i =? owner then run_callbacks cbs' (i + 1) owner st
      else st' ← cb st; run_callbacks cbs' (i + 1) owner st'
  end.

Definition vmm_memory_allocate_must_succeed (free_mem_callbacks : list callback) (handle : Z)
  (h : heap) (m : memory) (size : Z) : outcome (Z * heap * memory) :=
  r ← vmm_memory_allocate h m size;
  let '(p, h', m') := r in
  if p =? 0 then
    st ← run_callbacks free_mem_callbacks 0 handle (h', m');
    vmm_memory_allocate st.1 st.2 size
  else Ok (p, h', m').

End WithCpu.

(** [vmm_heap_register_free_mem_callback]: at most 20 callbacks; the handle is the
    index, or HEAP_INVALID_ALLOC_HANDLE. *)
Definition HEAP_MAX_NUM_OF_RECORDED_CALLBACKS : Z := 20.
Definition HEAP_INVALID_ALLOC_HANDLE : Z := 2 ^ 32 - 1.

Definition vmm_heap_register_free_mem_callback (cbs : list callback) (cb : callback)
  : list callback * Z :=
  if Z.of_nat (length cbs) =? HEAP_MAX_NUM_OF_RECORDED_CALLBACKS
  then (cbs, HEAP_INVALID_ALLOC_HANDLE)
  else (cbs ++ [cb], Z.of_nat (length cbs)).
