(* ===== verification/HeapSpec.v ===== *)
(** What utils/heap.c promises, and that Heap.v keeps it.

    The abstract state is a list of blocks, in address order: an allocation
    ([Used]) or a maximal run of free pages ([Free]), with its length in pages.
    Allocation is first fit, release coalesces with the free neighbours.
    [heap_wf h bs] says that the descriptor array of [h] represents [bs];
    the theorems show that each operation of heap.c implements the operation on
    blocks, and that the representation is established by the initialisation and
    kept by every operation. *)

From S2P Require Import Prelude VmmDefs Lock Heap.

(** * The abstract heap *)

Inductive block := Used (k : nat) | Free (k : nat).

#[global] Instance block_eq_dec : EqDecision block.
Proof. solve_decision. Defined.

Definition size (b : block) : nat := match b with Used k | Free k => k end.
Definition total (bs : list block) : nat := sum_list_with size bs.

(** A possibly empty free run, as blocks. *)
Definition opt_free (k : nat) : list block := match k with O => [] | _ => [Free k] end.

(** First fit: the page number of the allocation and the new blocks. *)
Fixpoint first_fit (n : nat) (bs : list block) : option (nat * list block) :=
  match bs with
  | [] => None
  | b :: t =>
      if (match b with Free k => (n <=? k)%nat | Used _ => false end)
      then Some (0%nat, Used n :: opt_free (size b - n) ++ t)
      else r ← first_fit n t; Some ((size b + r.1)%nat, b :: r.2)
  end.

(** The allocation that starts at page [pos], with what is before and after it. *)
Fixpoint split_used (pos : nat) (bs : list block) : option (list block * nat * list block) :=
  match bs with
  | [] => None
  | b :: t =>
      if (match b with Used _ => (pos =? 0)%nat | Free _ => false end)
      then Some ([], size b, t)
      else if (size b <=? pos)%nat
      then r ← split_used (pos - size b) t; Some (b :: r.1.1, r.1.2, r.2)
      else None
  end.

Definition strip_first (bs : list block) : nat * list block :=
  match bs with Free j :: t => (j, t) | _ => (0%nat, bs) end.

Fixpoint strip_last (bs : list block) : list block * nat :=
  match bs with
  | [] => ([], 0%nat)
  | b :: t =>
      match b, t with
      | Free i, [] => ([], i)
      | _, _ => let r := strip_last t in (b :: r.1, r.2)
      end
  end.

(** Release with coalescing. *)
Definition release_block (pos : nat) (bs : list block) : option (list block) :=
  r ← split_used pos bs;
  let '(l1, k, l2) := r in
  let '(l1', i) := strip_last l1 in
  let '(j, l2') := strip_first l2 in
  Some (l1' ++ Free (i + k + j) :: l2').

(** [k] pages from page [pos] are one live allocation. *)
Definition used_at (bs : list block) (pos k : nat) : Prop :=
  exists l1 l2, bs = l1 ++ Used k :: l2 /\ total l1 = pos.

Definition starts_free (bs : list block) : bool :=
  match bs with Free _ :: _ => true | _ => false end.
Definition ends_free (bs : list block) : bool :=
  match last bs with Some (Free _) => true | _ => false end.

(** No two free runs touch: every free run is maximal. *)
Fixpoint separated (bs : list block) : Prop :=
  match bs with
  | [] => True
  | Free _ :: t => starts_free t = false /\ separated t
  | Used _ :: t => separated t
  end.

Definition blocks_ok (bs : list block) : Prop :=
  Forall (fun b => (0 < size b)%nat) bs /\ separated bs.

(** * Its representation *)

Definition used_run (k : nat) : list HEAP_PAGE_DESCRIPTOR :=
  match k with
  | O => []
  | S k' => mk_desc (Z.of_nat k) true :: replicate k' (mk_desc 0 true)
  end.

Fixpoint free_run (k : nat) : list HEAP_PAGE_DESCRIPTOR :=
  match k with
  | O => []
  | S k' => mk_desc (Z.of_nat k) false :: free_run k'
  end.

Definition layout_block (b : block) : list HEAP_PAGE_DESCRIPTOR :=
  match b with Used k => used_run k | Free k => free_run k end.
Definition layout (bs : list block) : list HEAP_PAGE_DESCRIPTOR := bs ≫= layout_block.

(** The two address ranges: the initial buffer, and the one added by
    [vmm_heap_extend] behind the descriptor of the guard page. *)
Definition base_range (h : heap) : Prop :=
  0 < heap_base h /\ heap_base h mod 4096 = 0 /\ 0 <= heap_pages h /\
  heap_pages h * 4096 < 2 ^ 32 /\ heap_base h + heap_pages h * 4096 < 2 ^ 64.
Definition not_extended (h : heap) : Prop :=
  ex_heap_pages h = 0 /\ ex_heap_base h = 0 /\ heap_total_pages h = heap_pages h /\
  heap_total_pages h <= ex_heap_start_page h.
Definition is_extended (h : heap) : Prop :=
  1 <= ex_heap_pages h /\ 0 < ex_heap_base h /\ ex_heap_base h mod 4096 = 0 /\
  ex_heap_pages h * 4096 < 2 ^ 32 /\ ex_heap_base h + ex_heap_pages h * 4096 < 2 ^ 64 /\
  ex_heap_start_page h = heap_pages h /\
  heap_total_pages h = heap_pages h + ex_heap_pages h /\
  (ex_heap_base h + ex_heap_pages h * 4096 < heap_base h \/
   heap_base h + heap_pages h * 4096 <= ex_heap_base h).
Definition geometry (h : heap) : Prop :=
  base_range h /\ (not_extended h \/ is_extended h).

Record heap_wf (h : heap) (bs : list block) : Prop := {
  wf_blocks : blocks_ok bs;
  wf_layout : exists rest, descs h = layout bs ++ rest;
  wf_total : heap_total_pages h = Z.of_nat (total bs);
  wf_geometry : geometry h;
  wf_guard : ex_heap_pages h <> 0 -> used_at bs (Z.to_nat (heap_pages h)) 1
}.

(** No CPU is inside a heap operation. *)
Definition heap_idle (h : heap) : Prop := heap_lock h = LOCK_INIT_STATE.

(** [i] is the number of a page of memory (not of the guard descriptor). *)
Definition real_page (h : heap) (i : Z) : Prop :=
  0 <= i < heap_total_pages h /\ (ex_heap_pages h <> 0 -> i <> heap_pages h).

Definition page_address (h : heap) (i : Z) : Z :=
  if (ex_heap_pages h =? 0) || (i <? heap_pages h) then heap_base h + i * 4096
  else ex_heap_base h + (i - heap_pages h - 1) * 4096.

(** * Lemmas on blocks *)

Lemma total_app l1 l2 : total (l1 ++ l2) = (total l1 + total l2)%nat.
Proof. apply sum_list_with_app. Qed.
Lemma total_cons b l : total (b :: l) = (size b + total l)%nat.
Proof. done. Qed.
Lemma total_opt_free k : total (opt_free k) = k.
Proof. destruct k; unfold total; simpl; lia. Qed.
#[export] Hint Rewrite total_app total_cons total_opt_free : vmm.

Lemma layout_app l1 l2 : layout (l1 ++ l2) = layout l1 ++ layout l2.
Proof. apply bind_app. Qed.
Lemma layout_cons b l : layout (b :: l) = layout_block b ++ layout l.
Proof. done. Qed.
Lemma layout_opt_free k : layout (opt_free k) = free_run k.
Proof. destruct k; [done|]. unfold layout. simpl. by rewrite app_nil_r. Qed.
#[export] Hint Rewrite layout_app layout_cons layout_opt_free : vmm.

Lemma length_free_run k : length (free_run k) = k.
Proof. induction k; simpl; lia. Qed.
Lemma length_used_run k : length (used_run k) = k.
Proof. destruct k; simpl; [done|]. rewrite length_replicate. lia. Qed.
Lemma length_layout_block b : length (layout_block b) = size b.
Proof. destruct b; [apply length_used_run|apply length_free_run]. Qed.
Lemma length_layout l : length (layout l) = total l.
Proof.
  induction l as [|b l IH]; [done|].
  by rewrite layout_cons, length_app, length_layout_block, IH, total_cons.
Qed.
#[export] Hint Rewrite @length_app length_free_run length_used_run length_layout_block
  length_layout : vmm.

(** Sizes and positions. *)
Ltac sizes := autorewrite with vmm in *; simpl in *; try lia.

Lemma ends_free_app l1 l2 : l2 <> [] -> ends_free (l1 ++ l2) = ends_free l2.
Proof.
  intros H. unfold ends_free. rewrite last_app. destruct (last l2) eqn:E; [done|].
  by apply last_None in E.
Qed.

Lemma ends_free_cons b l : l <> [] -> ends_free (b :: l) = ends_free l.
Proof. apply (ends_free_app [b]). Qed.

Lemma separated_app l1 l2 : separated (l1 ++ l2) <->
  separated l1 /\ separated l2 /\ (ends_free l1 = true -> starts_free l2 = false).
Proof.
  induction l1 as [|b l1 IH]; simpl; [unfold ends_free; simpl; intuition congruence|].
  destruct l1 as [|c l1]; [destruct b; unfold ends_free; simpl; intuition congruence|].
  rewrite ends_free_cons by done. destruct b; rewrite IH; simpl starts_free; intuition congruence.
Qed.

Lemma blocks_ok_app l1 l2 : blocks_ok (l1 ++ l2) <->
  blocks_ok l1 /\ blocks_ok l2 /\ (ends_free l1 = true -> starts_free l2 = false).
Proof. unfold blocks_ok. rewrite Forall_app, separated_app. intuition congruence. Qed.

Lemma blocks_ok_used k l : blocks_ok (Used k :: l) <-> (0 < k)%nat /\ blocks_ok l.
Proof. unfold blocks_ok. rewrite Forall_cons_iff. simpl. intuition congruence. Qed.

Lemma blocks_ok_free k l :
  blocks_ok (Free k :: l) <-> (0 < k)%nat /\ starts_free l = false /\ blocks_ok l.
Proof. unfold blocks_ok. rewrite Forall_cons_iff. simpl. intuition congruence. Qed.

Lemma blocks_ok_nil : blocks_ok [].
Proof. split; [constructor|done]. Qed.
#[export] Hint Resolve blocks_ok_nil : vmm.

Lemma strip_first_spec l : blocks_ok l ->
  exists j l', strip_first l = (j, l') /\ l = opt_free j ++ l' /\ starts_free l' = false.
Proof.
  destruct l as [|[k|k] l]; simpl; intros H; [by exists 0%nat, []|by exists 0%nat, (Used k :: l)|].
  apply blocks_ok_free in H as (Hk & Hs & _). exists k, l. destruct k; [lia|]. done.
Qed.

Lemma strip_last_spec l : blocks_ok l ->
  exists i l', strip_last l = (l', i) /\ l = l' ++ opt_free i /\ ends_free l' = false.
Proof.
  induction l as [|b l IH]; simpl; intros H; [by exists 0%nat, []|].
  apply (blocks_ok_app [b]) in H as (Hb & Hl & Hadj).
  destruct (IH Hl) as (i & l' & E & El & He). rewrite E.
  destruct l as [|c l].
  { simpl in E. simplify_eq. destruct b as [k|k]; [by exists 0%nat, [Used k]|].
    apply blocks_ok_free in Hb as (Hk & _). exists k, []. destruct k; [lia|done]. }
  exists i, (b :: l'). split; [by destruct b|]. split; [by rewrite El|].
  destruct l' as [|d l']; [|by rewrite ends_free_cons].
  destruct b; [done|]. rewrite El in Hadj. specialize (Hadj eq_refl).
  destruct i; [done|discriminate].
Qed.

Lemma first_fit_spec n bs p bs' : first_fit n bs = Some (p, bs') ->
  exists l1 k l2, bs = l1 ++ Free k :: l2 /\ p = total l1 /\ (n <= k)%nat /\
    bs' = l1 ++ Used n :: opt_free (k - n) ++ l2.
Proof.
  revert p bs'. induction bs as [|b bs IH]; intros p bs' H; simpl in H; [done|].
  destruct (match b with Used _ => false | Free k => (n <=? k)%nat end) eqn:E.
  - destruct b as [k|k]; [done|]. apply Nat.leb_le in E. simplify_eq.
    by exists [], k, bs.
  - destruct (first_fit n bs) as [[q t]|] eqn:F; [|done]. simplify_eq/=.
    destruct (IH q t eq_refl) as (l1 & k & l2 & -> & -> & Hn & ->).
    exists (b :: l1), k, l2. sizes. done.
Qed.

Lemma split_used_spec pos bs l1 k l2 : split_used pos bs = Some (l1, k, l2) ->
  bs = l1 ++ Used k :: l2 /\ pos = total l1.
Proof.
  revert pos l1. induction bs as [|b bs IH]; intros pos l1 H; simpl in H; [done|].
  destruct (match b with Used _ => (pos =? 0)%nat | Free _ => false end) eqn:E.
  - destruct b as [m|m]; [|done]. apply Nat.eqb_eq in E. simplify_eq. done.
  - destruct (Nat.leb_spec (size b) pos); [|done].
    destruct (split_used (pos - size b) bs) as [[[u v] w]|] eqn:F; [|done]. simplify_eq/=.
    destruct (IH _ _ F) as [-> Hp]. split; [done|]. sizes.
Qed.

Lemma split_used_app l1 k l2 : Forall (fun b => (0 < size b)%nat) l1 ->
  split_used (total l1) (l1 ++ Used k :: l2) = Some (l1, k, l2).
Proof.
  induction l1 as [|b l1 IH]; intros H; [done|].
  apply Forall_cons_iff in H as [Hb Hl]. simpl app. rewrite total_cons. simpl split_used.
  rewrite (proj2 (Nat.leb_le _ _)) by lia.
  replace (size b + total l1 - size b)%nat with (total l1) by lia. rewrite IH by done.
  destruct b as [m|m]; [|done]. simpl in *. by rewrite (proj2 (Nat.eqb_neq _ _)) by lia.
Qed.

Lemma blocks_ok_pos bs : blocks_ok bs -> Forall (fun b => (0 < size b)%nat) bs.
Proof. by intros [? _]. Qed.

Lemma starts_free_opt k l : (0 < k)%nat -> starts_free (opt_free k ++ l) = true.
Proof. destruct k; [lia|done]. Qed.

(** Allocation and release keep the block list in canonical form. *)
Lemma alloc_blocks_ok l1 k l2 n : (0 < n <= k)%nat -> blocks_ok (l1 ++ Free k :: l2) ->
  blocks_ok (l1 ++ Used n :: opt_free (k - n) ++ l2).
Proof.
  rewrite !blocks_ok_app, blocks_ok_free, blocks_ok_used. intros Hn (H1 & (Hk & Hs & H2) & Ha).
  split_and!; [done|lia| |done]. destruct (k - n)%nat eqn:E; [done|].
  simpl. rewrite blocks_ok_free. split_and!; [lia|done|done].
Qed.

Lemma blocks_ok_opt k l :
  blocks_ok (opt_free k ++ l) <-> blocks_ok l /\ ((0 < k)%nat -> starts_free l = false).
Proof.
  destruct k; simpl; [intuition lia|]. rewrite blocks_ok_free.
  assert (0 < S k)%nat by lia. tauto.
Qed.

Lemma release_spec l1 k l2 : blocks_ok (l1 ++ Used k :: l2) ->
  exists l1' i j l2', l1 = l1' ++ opt_free i /\ l2 = opt_free j ++ l2' /\
    ends_free l1' = false /\ starts_free l2' = false /\
    release_block (total l1) (l1 ++ Used k :: l2) = Some (l1' ++ Free (i + k + j) :: l2') /\
    blocks_ok (l1' ++ Free (i + k + j) :: l2').
Proof.
  intros Hok. pose proof Hok as (H1 & H2 & _)%blocks_ok_app.
  apply blocks_ok_used in H2 as [Hk H2].
  destruct (strip_last_spec l1 H1) as (i & l1' & E1 & Hl1 & He).
  destruct (strip_first_spec l2 H2) as (j & l2' & E2 & Hl2 & Hs).
  exists l1', i, j, l2'. split_and!; [done..| |].
  - unfold release_block. rewrite split_used_app by (by apply blocks_ok_pos).
    simpl. by rewrite E1, E2.
  - rewrite Hl1, blocks_ok_app in H1. rewrite Hl2, blocks_ok_opt in H2.
    rewrite blocks_ok_app, blocks_ok_free, He. split_and!; [tauto|lia|done|tauto|done].
Qed.

(** * Lemmas on the representation *)

Lemma free_run_app a b :
  free_run (a + b) =
    ((fun i => mk_desc (Z.of_nat (a + b) - i) false) <$> seqZ 0 (Z.of_nat a)) ++ free_run b.
Proof.
  induction a as [|a IH]; [done|]. rewrite seqZ_cons by lia. simpl.
  rewrite IH. do 2 f_equal.
  replace (Z.pred (Z.of_nat (S a))) with (Z.of_nat a) by lia.
  replace (Z.succ 0) with (1 + 0) by lia. rewrite <- fmap_add_seqZ, <- list_fmap_compose.
  apply list_fmap_ext. intros _ x _. simpl. f_equal. lia.
Qed.

Lemma free_run_split n k : (n <= k)%nat ->
  exists l, free_run k = l ++ free_run (k - n) /\ length l = n.
Proof.
  intros H. assert (k = n + (k - n))%nat as E by lia.
  pose proof (free_run_app n (k - n)) as F. rewrite <- E in F.
  eexists. split; [exact F|]. rewrite length_fmap, length_seqZ. lia.
Qed.

Lemma free_run_elem x k : x ∈ free_run k ->
  in_use x = false /\ 0 < number_of_pages x <= Z.of_nat k.
Proof.
  induction k as [|k IH]; simpl; [by intros ?%not_elem_of_nil|].
  intros [->|H]%elem_of_cons; simpl; [split; [done|lia]|].
  destruct (IH H). split; [done|lia].
Qed.

Lemma used_run_elem x k : x ∈ used_run k -> in_use x = true.
Proof.
  destruct k; simpl; [by intros ?%not_elem_of_nil|].
  by intros [->|[-> _]%elem_of_replicate]%elem_of_cons.
Qed.

Lemma find_fit_skip pre l rest m pages :
  (forall x, x ∈ l -> in_use x = true \/ number_of_pages x < pages) ->
  find_fit (pre ++ l ++ rest) (length l + m) (Z.of_nat (length pre)) pages
    = find_fit (pre ++ l ++ rest) m (Z.of_nat (length pre + length l)) pages.
Proof.
  revert pre. induction l as [|x l IH]; intros pre H; [by rewrite Nat.add_0_r|].
  simpl length. simpl plus at 1. simpl find_fit at 1.
  rewrite (rd_ok _ _ x); [|lia|by apply lookup_middle_eq; lia]. rewrite bind_Ok.
  assert (negb (in_use x) && (pages <=? number_of_pages x) = false) as ->.
  { destruct (H x ltac:(left)) as [->|Hx]; [done|]. zcases; destruct (in_use x); done. }
  specialize (IH (pre ++ [x]) ltac:(intros; apply H; by right)).
  rewrite <- app_assoc, length_app in IH. simpl in IH.
  replace (Z.of_nat (length pre) + 1) with (Z.of_nat (length pre + 1)) by lia.
  rewrite IH. do 2 f_equal. lia.
Qed.

Lemma find_fit_spec bs pre rest n : blocks_ok bs -> (0 < n)%nat ->
  find_fit (pre ++ layout bs ++ rest) (total bs) (Z.of_nat (length pre)) (Z.of_nat n)
    = Ok (match first_fit n bs with
          | Some (p, _) => Some (Z.of_nat (length pre + p))
          | None => None
          end).
Proof.
  intros Hok Hn. revert pre. induction bs as [|b bs IH]; intros pre; [done|].
  apply (blocks_ok_app [b]) in Hok as (Hb & Hbs & _). specialize (IH Hbs).
  rewrite layout_cons, <- app_assoc, total_cons. simpl first_fit.
  destruct (match b with Used _ => false | Free k => (n <=? k)%nat end) eqn:E.
  - destruct b as [k|k]; [done|]. apply blocks_ok_free in Hb as [Hk _].
    apply Nat.leb_le in E. destruct k; [lia|]. simpl.
    rewrite (rd_ok _ _ (mk_desc (Z.of_nat (S k)) false)); [|lia|by apply lookup_middle_eq; lia].
    simpl. rewrite (proj2 (Z.leb_le _ _)) by lia. simpl. do 2 f_equal. lia.
  - rewrite <- (length_layout_block b). rewrite find_fit_skip.
    2: { intros x Hx. destruct b as [k|k]; [left; by eapply used_run_elem|].
         apply free_run_elem in Hx. apply Nat.leb_gt in E. right. lia. }
    rewrite app_assoc, <- length_app, IH. rewrite length_app.
    destruct (first_fit n bs) as [[p t]|]; simpl; [|done].
    do 2 f_equal. rewrite length_layout_block. lia.
Qed.

(** * Page numbers and addresses *)

Lemma geometry_bounds h : geometry h -> 0 <= heap_pages h < 2 ^ 20 /\
  0 <= heap_total_pages h < 2 ^ 21 /\ 0 <= ex_heap_pages h < 2 ^ 20.
Proof. unfold geometry, base_range, not_extended, is_extended. lia. Qed.

Lemma page_to_pointer h i : geometry h -> real_page h i ->
  HEAP_PAGE_TO_POINTER h i = page_address h i /\ 0 < page_address h i < 2 ^ 64 /\
  page_address h i mod 4096 = 0.
Proof.
  unfold geometry, base_range, not_extended, is_extended, real_page, page_address,
    HEAP_PAGE_TO_POINTER, PAGE_4KB_SIZE. intros [Hb [He|He]] [Hi Hg].
  - rewrite (proj2 (Z.leb_gt _ _)) by lia. rewrite (proj2 (Z.eqb_eq _ _)) by lia. simpl.
    usmall. lia.
  - rewrite (proj2 (Z.eqb_neq _ _)) by lia. simpl.
    destruct (Z.leb_spec (ex_heap_start_page h) i); destruct (Z.ltb_spec i (heap_pages h));
      try lia; usmall; lia.
Qed.

Lemma page_mask_0 a : 0 <= a < 2 ^ 64 -> a mod 4096 = 0 -> Z.land a PAGE_4KB_MASK = 0.
Proof.
  intros Ha H. unfold PAGE_4KB_MASK. change (PAGE_4KB_SIZE - 1) with (Z.ones 12).
  by rewrite Z.land_ones by lia.
Qed.

Lemma check_range_spec a s n : 0 <= s -> 0 <= n -> s + n < 2 ^ 64 ->
  CHECK_ADDRESS_IN_RANGE a s n = true <-> s <= a <= s + n.
Proof. unfold CHECK_ADDRESS_IN_RANGE. intros. usmall. lia. Qed.

Lemma ex_range_spec h i : geometry h -> real_page h i ->
  CHECK_ADDRESS_IN_RANGE (page_address h i) (ex_heap_base h) (ex_heap_pages h ⊗₃₂ PAGE_4KB_SIZE)
    = negb ((ex_heap_pages h =? 0) || (i <? heap_pages h)).
Proof.
  unfold geometry, base_range, not_extended, is_extended, real_page, page_address,
    CHECK_ADDRESS_IN_RANGE, PAGE_4KB_SIZE. intros [Hb [He|He]] [Hi Hg]; usmall.
  - rewrite (proj2 (Z.eqb_eq _ _)) by lia. simpl. lia.
  - rewrite (proj2 (Z.eqb_neq _ _)) by lia. simpl.
    destruct (Z.ltb_spec i (heap_pages h)); simpl; lia.
Qed.

Lemma base_range_spec h i : geometry h -> real_page h i ->
  (ex_heap_pages h =? 0) || (i <? heap_pages h) = true ->
  CHECK_ADDRESS_IN_RANGE (page_address h i) (heap_base h) (heap_pages h ⊗₃₂ PAGE_4KB_SIZE) = true.
Proof.
  unfold geometry, base_range, not_extended, is_extended, real_page, page_address,
    CHECK_ADDRESS_IN_RANGE, PAGE_4KB_SIZE. intros [Hb He] [Hi Hg] E. rewrite E. usmall.
  destruct (Z.eqb_spec (ex_heap_pages h) 0); simpl in E; lia.
Qed.

Lemma pointer_to_page h i : geometry h -> real_page h i ->
  HEAP_POINTER_TO_PAGE h (page_address h i) = i.
Proof.
  intros G R. unfold HEAP_POINTER_TO_PAGE. rewrite ex_range_spec by done.
  pose proof (page_to_pointer h i G R) as (_ & Hr & _). revert Hr G R.
  unfold page_address, geometry, base_range, not_extended, is_extended, real_page, PAGE_4KB_SIZE.
  destruct ((ex_heap_pages h =? 0) || (i <? heap_pages h)) eqn:E; simpl; intros Hr [Hb He] [Hi Hg].
  - replace (heap_base h + i * 4096 - heap_base h) with (i * 4096) by lia.
    usmall. rewrite Z.div_mul by lia. usmall. lia.
  - replace (ex_heap_base h + (i - heap_pages h - 1) * 4096 - ex_heap_base h)
      with ((i - heap_pages h - 1) * 4096) by lia.
    apply orb_false_iff in E as [E1 E2].
    usmall. rewrite Z.div_mul by lia. usmall. lia.
Qed.

Lemma address_ok h i : geometry h -> real_page h i -> heap_address_ok h (page_address h i) = true.
Proof.
  intros G R. pose proof (page_to_pointer h i G R) as (_ & Hr & Hm).
  unfold heap_address_ok. rewrite page_mask_0 by (done || lia).
  rewrite ex_range_spec by done. simpl. rewrite andb_true_r.
  destruct ((ex_heap_pages h =? 0) || (i <? heap_pages h)) eqn:E; [|by rewrite orb_true_r].
  by rewrite base_range_spec.
Qed.

(** * Live allocations *)

Lemma used_at_bound bs pos k : used_at bs pos k -> (pos + k <= total bs)%nat.
Proof. intros (l1 & l2 & -> & <-). sizes. Qed.

Lemma app_cons_cases {A} (l1 l2 m1 m2 : list A) x y :
  l1 ++ x :: l2 = m1 ++ y :: m2 ->
  (exists u, m1 = l1 ++ x :: u /\ l2 = u ++ y :: m2) \/
  (l1 = m1 /\ x = y /\ l2 = m2) \/
  (exists u, l1 = m1 ++ y :: u /\ m2 = u ++ x :: l2).
Proof.
  revert m1. induction l1 as [|a l1 IH]; intros [|b m1] H; injection H as -> H.
  - by right; left.
  - left. by exists m1.
  - right; right. by exists l1.
  - destruct (IH m1 H) as [(u & -> & ->)|[(-> & -> & ->)|(u & -> & ->)]];
      [left|right; left|right; right]; eauto.
Qed.

(** Two live allocations do not overlap. *)
Lemma used_at_disjoint bs p k q m : blocks_ok bs -> used_at bs p k -> used_at bs q m ->
  (p = q /\ k = m) \/ (p + k <= q)%nat \/ (q + m <= p)%nat.
Proof.
  intros _ (l1 & l2 & E1 & <-) (m1 & m2 & E2 & <-). rewrite E1 in E2.
  destruct (app_cons_cases _ _ _ _ _ _ E2) as [(u & -> & _)|[(-> & [= ->] & _)|(u & -> & _)]];
    sizes.
Qed.

(** An allocation leaves the other allocations in place; so does a release. *)
Lemma used_at_alloc l1 k l2 n p m : (n <= k)%nat -> used_at (l1 ++ Free k :: l2) p m ->
  used_at (l1 ++ Used n :: opt_free (k - n) ++ l2) p m.
Proof.
  intros Hn (m1 & m2 & E & <-).
  destruct (app_cons_cases _ _ _ _ _ _ E) as [(u & -> & ->)|[(_ & [=] & _)|(u & -> & ->)]].
  - exists (l1 ++ Used n :: opt_free (k - n) ++ u), m2. split; [|sizes].
    by rewrite <- !app_assoc, <- app_comm_cons, <- !app_assoc.
  - exists m1, (u ++ Used n :: opt_free (k - n) ++ l2). split; [by rewrite <- app_assoc|done].
Qed.

Lemma opt_free_no_used j u m l l' : opt_free j ++ l' = u ++ Used m :: l ->
  exists v, u = opt_free j ++ v /\ l' = v ++ Used m :: l.
Proof.
  destruct j; simpl; [eauto|]. destruct u as [|b u]; intros [= <- ->]. eauto.
Qed.

Lemma snoc_free_no_used i u m l l' : l' ++ opt_free i = u ++ Used m :: l ->
  exists v, l = v ++ opt_free i /\ l' = u ++ Used m :: v.
Proof.
  destruct i; simpl; [rewrite app_nil_r; intros ->; exists l; by rewrite app_nil_r|].
  intros H. destruct (app_cons_cases _ _ _ _ _ _ H) as [(v & _ & E)|[(_ & [=] & _)|(v & -> & ->)]].
  - by apply app_cons_not_nil in E.
  - eauto.
Qed.

Lemma used_at_release l1 i k j l2 p m : p <> total (l1 ++ opt_free i) ->
  used_at ((l1 ++ opt_free i) ++ Used k :: opt_free j ++ l2) p m ->
  used_at (l1 ++ Free (i + k + j) :: l2) p m.
Proof.
  intros Hp (m1 & m2 & E & <-).
  destruct (app_cons_cases _ _ _ _ _ _ E) as [(u & -> & F)|[(<- & _ & _)|(u & F & ->)]]; [|done|].
  - apply opt_free_no_used in F as (v & -> & ->).
    exists (l1 ++ Free (i + k + j) :: v), m2. split; [|sizes].
    by rewrite <- app_assoc.
  - apply snoc_free_no_used in F as (v & -> & ->).
    exists m1, (v ++ Free (i + k + j) :: l2). split; [by rewrite <- app_assoc|done].
Qed.

(** * The operations on the representation *)

(** A heap operation changes the descriptors and the high-water mark only. *)
Definition same_heap (h h' : heap) : Prop :=
  exists d m, h' = set_max_used (set_descs h d) m.

Lemma same_heap_refl h : same_heap h h.
Proof. exists (descs h), (max_used_pages h). by destruct h. Qed.
Lemma same_heap_trans h1 h2 h3 : same_heap h1 h2 -> same_heap h2 h3 -> same_heap h1 h3.
Proof. intros (d & m & ->) (d' & m' & ->). by exists d', m'. Qed.
#[export] Hint Resolve same_heap_refl same_heap_trans : vmm.

Lemma wf_update h bs d m bs' rest : heap_wf h bs -> blocks_ok bs' -> total bs' = total bs ->
  d = layout bs' ++ rest ->
  (ex_heap_pages h <> 0 -> used_at bs' (Z.to_nat (heap_pages h)) 1) ->
  heap_wf (set_max_used (set_descs h d) m) bs'.
Proof.
  intros [_ _ Ht G _] Hok Hbs Hd Hg. split; simpl; [done|by exists rest|lia|done|done].
Qed.

Lemma wf_set_lock h l bs : heap_wf h bs <-> heap_wf (set_lock h l) bs.
Proof. split; intros [A B C D F]; split; done. Qed.

Lemma set_lock_idle h l : heap_idle h -> set_lock (set_lock h l) LOCK_INIT_STATE = h.
Proof. unfold heap_idle. destruct h; simpl. by intros ->. Qed.

Lemma set_max_used_same h : set_max_used (set_descs h (descs h)) (max_used_pages h) = h.
Proof. by destruct h. Qed.

Lemma mark_used {mid pre post : list HEAP_PAGE_DESCRIPTOR} a n : (0 < n)%nat ->
  Z.of_nat n < 2 ^ 31 -> length mid = n -> a = Z.of_nat (length pre) ->
  (d ← wr (pre ++ mid ++ post) a (desc (Z.of_nat n) true);
   for_range (a + 1) (a + Z.of_nat n) (fun j d => wr d j (desc 0 true)) d)
    = Ok (pre ++ used_run n ++ post).
Proof.
  intros Hn Hb Hl Ha. destruct mid as [|x mid]; simpl in Hl; [lia|]. subst n.
  rewrite wr_ok by (rewrite length_app; simpl; lia). rewrite bind_Ok. simpl app.
  rewrite insert_middle_eq by lia.
  replace (pre ++ desc (Z.of_nat (S (length mid))) true :: mid ++ post)
    with ((pre ++ [desc (Z.of_nat (S (length mid))) true]) ++ mid ++ post)
    by by rewrite <- app_assoc.
  rewrite (for_range_fill (fun _ => desc 0 true)) by (rewrite ?length_app; simpl; lia).
  rewrite fmap_const_seqZ, <- app_assoc. unfold desc. usmall. simpl.
  by replace (Z.to_nat _) with (length mid) by lia.
Qed.

(** [in_use] entries stop the backward scan of a release. *)
Definition stops (pre : list HEAP_PAGE_DESCRIPTOR) : Prop :=
  pre = [] \/ exists p x, pre = p ++ [x] /\ in_use x = true.

Lemma used_run_snoc k : (0 < k)%nat -> exists u x, used_run k = u ++ [x] /\ in_use x = true.
Proof.
  intros H. destruct (used_run k) as [|y l _] eqn:E using rev_ind.
  - apply (f_equal length) in E. rewrite length_used_run in E. simpl in E. lia.
  - exists l, y. split; [done|]. apply (used_run_elem y k). rewrite E.
    apply elem_of_app. right. by left.
Qed.

Lemma layout_stops l : blocks_ok l -> ends_free l = false -> stops (layout l).
Proof.
  intros H E. destruct l as [|b l _] using rev_ind; [by left|right].
  rewrite ends_free_app in E by done. destruct b as [k|k]; [|done].
  apply blocks_ok_app in H as (_ & [Hk _]%blocks_ok_used & _).
  destruct (used_run_snoc k Hk) as (u & x & Eu & Hx). exists (layout l ++ u), x.
  split; [|done]. rewrite layout_app. unfold layout at 2. simpl.
  by rewrite app_nil_r, Eu, app_assoc.
Qed.

Lemma grab_stop pre tail pages : stops pre ->
  grab_backward (pre ++ tail) (length pre) pages = Ok (Z.of_nat (length pre), pages).
Proof.
  intros [->|(p & x & -> & Hx)]; [done|].
  rewrite length_app, <- app_assoc. simpl. rewrite Nat.add_1_r. simpl.
  rewrite (rd_ok _ _ x); [|lia|by apply lookup_middle_eq; lia]. simpl. rewrite Hx. done.
Qed.

Lemma grab_backward_spec pre mid tail pages : stops pre ->
  (forall x, x ∈ mid -> in_use x = false /\ 0 < number_of_pages x) ->
  0 <= pages -> pages + Z.of_nat (length mid) < 2 ^ 32 ->
  grab_backward (pre ++ mid ++ tail) (length pre + length mid) pages
    = Ok (Z.of_nat (length pre), pages + Z.of_nat (length mid)).
Proof.
  intros Hs. revert tail pages. induction mid as [|x mid IH] using rev_ind;
    intros tail pages Hm Hp Hb.
  - simpl. rewrite Nat.add_0_r, Z.add_0_r. by apply grab_stop.
  - rewrite !length_app in *. simpl in *. rewrite Nat.add_1_r, Nat.add_succ_r. simpl.
    rewrite (rd_ok _ _ x); [|lia|].
    2: { rewrite <- app_assoc, app_assoc. apply lookup_middle_eq.
         rewrite length_app. lia. }
    simpl. destruct (Hm x) as [Hx Hn]; [apply elem_of_app; right; by left|].
    rewrite Hx, (proj2 (Z.eqb_neq _ _)) by lia. simpl. rewrite <- app_assoc.
    rewrite IH; [usmall; do 2 f_equal; lia|..]; usmall; try lia.
    intros y Hy. apply Hm. apply elem_of_app. by left.
Qed.

(** The new free run: the entries written, then the run that follows them. *)
Lemma mark_free pre mid post a b from to pages : length mid = a ->
  pages = Z.of_nat (a + b) -> Z.of_nat (length pre) + pages < 2 ^ 31 ->
  from = Z.of_nat (length pre) -> to = from + Z.of_nat a ->
  vmm_mark_pages_free (pre ++ mid ++ free_run b ++ post) from to pages
    = Ok (pre ++ free_run (a + b) ++ post).
Proof.
  intros Hm Hp Hb Hf Ht. unfold vmm_mark_pages_free.
  rewrite (for_range_ext _ (fun i d => wr d i (mk_desc (pages - (i - from)) false))).
  2: { intros i s Hi. unfold desc. usmall. done. }
  rewrite (for_range_fill (fun i => mk_desc (pages - (i - from)) false)) by lia.
  replace (to - from) with (Z.of_nat a) by lia.
  rewrite free_run_app, <- app_assoc. do 3 f_equal.
  pose proof (fmap_add_seqZ from 0 (Z.of_nat a)) as F. rewrite Z.add_0_r in F.
  rewrite <- F, <- list_fmap_compose.
  apply list_fmap_ext. intros _ x _. simpl. f_equal. lia.
Qed.

Section Operations.
Context (h : heap) (bs : list block) (WF : heap_wf h bs).

Lemma page_alloc_fail n : 0 < n -> first_fit (Z.to_nat n) bs = None ->
  page_alloc_unprotected h n = Ok (0, h).
Proof using WF.
  destruct WF as [Hok [rest Hd] Ht G Hg]. intros Hn F. unfold page_alloc_unprotected.
  rewrite (proj2 (Z.eqb_neq n 0)) by lia. rewrite Hd, Ht, Nat2Z.id.
  pose proof (find_fit_spec bs [] rest (Z.to_nat n) Hok ltac:(lia)) as S.
  simpl in S. change (Z.of_nat 0) with 0 in S. rewrite Z2Nat.id in S by lia. rewrite S, F. done.
Qed.

(** A fitting free run does not contain the guard page. *)
Lemma fit_real_page l1 k l2 : bs = l1 ++ Free k :: l2 -> real_page h (Z.of_nat (total l1)).
Proof using WF.
  destruct WF as [Hok _ Ht G Hg]. intros E. split.
  - rewrite Ht, E. rewrite E in Hok. apply blocks_ok_app in Hok as (_ & H2 & _).
    apply blocks_ok_free in H2. sizes.
  - intros Hx Heq. destruct (Hg Hx) as (m1 & m2 & E' & Hm). rewrite E in E', Hok.
    apply blocks_ok_app in Hok as (_ & H2 & _). apply blocks_ok_free in H2 as [Hk _].
    destruct (app_cons_cases _ _ _ _ _ _ E') as [(u & -> & ->)|[(_ & [=] & _)|(u & -> & ->)]];
      sizes.
Qed.

Lemma page_alloc_ok n p bs' : 0 < n -> first_fit (Z.to_nat n) bs = Some (p, bs') ->
  real_page h (Z.of_nat p) /\ total bs' = total bs /\
  exists h', page_alloc_unprotected h n = Ok (page_address h (Z.of_nat p), h') /\
    heap_wf h' bs' /\ same_heap h h'.
Proof using WF.
  intros Hn F. pose proof F as (l1 & k & l2 & E & -> & Hk & E')%first_fit_spec.
  pose proof (fit_real_page l1 k l2 E) as R.
  pose proof WF as [Hok [rest Hd] Ht G Hg]. pose proof (geometry_bounds h G) as B.
  assert (Z.of_nat (total l1) + Z.of_nat k <= heap_total_pages h) as Hend by (rewrite Ht, E; sizes).
  assert (total bs' = total bs) as Htot by (rewrite E, E'; sizes).
  split_and!; [done..|].
  unfold page_alloc_unprotected. rewrite (proj2 (Z.eqb_neq n 0)) by lia.
  pose proof (find_fit_spec bs [] rest (Z.to_nat n) Hok ltac:(lia)) as S.
  simpl in S. change (Z.of_nat 0) with 0 in S. rewrite Z2Nat.id in S by lia.
  rewrite Hd, Ht, Nat2Z.id, S, F, bind_Ok. simpl.
  destruct (free_run_split (Z.to_nat n) k Hk) as (mid & Hmid & Hlen).
  replace (layout bs ++ rest) with (layout l1 ++ mid ++ free_run (k - Z.to_nat n) ++ layout l2 ++ rest).
  2: { rewrite E. autorewrite with vmm. simpl. by rewrite Hmid, <- !app_assoc. }
  rewrite u32_small by lia.
  pose proof (mark_used (pre := layout l1) (mid := mid)
    (post := free_run (k - Z.to_nat n) ++ layout l2 ++ rest)
    (Z.of_nat (total l1)) (Z.to_nat n) ltac:(lia) ltac:(lia) Hlen ltac:(by rewrite length_layout))
    as M.
  rewrite Z2Nat.id in M by lia. apply bind_ok in M as (d1 & -> & M).
  rewrite bind_Ok, M, bind_Ok. eexists. split.
  { do 2 f_equal. by apply page_to_pointer. }
  split; [|by do 2 eexists].
  apply (wf_update h bs _ _ _ rest WF); [|done| |].
  - rewrite E'. apply alloc_blocks_ok; [lia|by rewrite <- E].
  - rewrite E'. autorewrite with vmm. simpl. by rewrite <- !app_assoc.
  - intros Hx. rewrite E'. apply used_at_alloc; [done|]. rewrite <- E. by apply Hg.
Qed.

(** The forward merge: [j] is the length of the free run after the block. *)
Lemma merge_forward l1 k j l2 : bs = l1 ++ Used k :: opt_free j ++ l2 -> starts_free l2 = false ->
  let to := Z.of_nat (total l1 + k) in
  (if to <? heap_total_pages h then
     y ← rd (descs h) to;
     if negb (in_use y) && (to ⊕₃₂ number_of_pages y <=? heap_total_pages h)
     then Ok (Z.of_nat k ⊕₃₂ number_of_pages y) else Ok (Z.of_nat k)
   else Ok (Z.of_nat k)) = Ok (Z.of_nat (k + j)).
Proof using WF.
  intros E Hs. simpl. destruct WF as [Hok [rest Hd] Ht G _].
  pose proof (geometry_bounds h G) as B. rewrite Ht, E in B.
  assert (length (layout l1 ++ used_run k) = total l1 + k)%nat as Hlen by sizes.
  assert (descs h = (layout l1 ++ used_run k) ++ free_run j ++ layout l2 ++ rest) as Hd'.
  { rewrite Hd, E. autorewrite with vmm. simpl. by rewrite <- !app_assoc. }
  rewrite E in Hok. apply blocks_ok_app in Hok as (_ & [_ H2]%blocks_ok_used & _).
  rewrite Ht, E, Hd'. destruct j as [|j].
  - rewrite Nat.add_0_r. destruct l2 as [|[m|m] l2]; [|simpl in *|done].
    { rewrite (proj2 (Z.ltb_ge _ _)) by sizes. done. }
    apply blocks_ok_used in H2 as [Hm _]. destruct m as [|m]; [lia|].
    rewrite (proj2 (Z.ltb_lt _ _)) by sizes. simpl.
    rewrite (rd_ok _ _ (mk_desc (Z.of_nat (S m)) true));
      [done|lia|by apply lookup_middle_eq; rewrite Hlen; lia].
  - rewrite (proj2 (Z.ltb_lt _ _)) by sizes. simpl free_run.
    rewrite (rd_ok _ _ (mk_desc (Z.of_nat (S j)) false));
      [|lia|by apply lookup_middle_eq; rewrite Hlen; lia].
    simpl. sizes. usmall. rewrite (proj2 (Z.leb_le _ _)) by lia. f_equal. lia.
Qed.

Lemma page_free_ok fuel cpu l1 k l2 : bs = l1 ++ Used k :: l2 ->
  real_page h (Z.of_nat (total l1)) -> heap_idle h ->
  exists h' bs', vmm_page_free (S fuel) cpu h (page_address h (Z.of_nat (total l1))) = Ok h' /\
    release_block (total l1) bs = Some bs' /\ total bs' = total bs /\
    heap_wf h' bs' /\ heap_idle h' /\ same_heap h h'.
Proof using WF.
  intros E R Hidle. pose proof WF as [Hok [rest Hd] Ht G Hg].
  pose proof (geometry_bounds h G) as B. rewrite Ht, E in B.
  pose proof Hok as Hok0. rewrite E in Hok0.
  destruct (release_spec l1 k l2 Hok0) as (l1' & i & j & l2' & -> & -> & He & Hs & Hr & Hok').
  pose proof Hok0 as ((Hl1 & _)%blocks_ok_app & [Hk _]%blocks_ok_used & _)%blocks_ok_app.
  rewrite <- E in Hr. unfold vmm_page_free. rewrite address_ok by done. simpl negb.
  rewrite acquire_free by (unfold heap_idle in Hidle; by rewrite Hidle). rewrite bind_Ok.
  change (HEAP_POINTER_TO_PAGE (set_lock h (mk_lock 1 cpu))) with (HEAP_POINTER_TO_PAGE h).
  rewrite pointer_to_page by done. simpl descs. simpl heap_total_pages.
  assert (descs h = layout l1' ++ free_run i ++ used_run k ++ free_run j ++ layout l2' ++ rest) as Hd'.
  { rewrite Hd, E. autorewrite with vmm. simpl. by rewrite <- !app_assoc. }
  rewrite (rd_ok _ _ (mk_desc (Z.of_nat k) true)); [|lia|].
  2: { rewrite Hd', app_assoc. destruct k; [lia|]. apply lookup_middle_eq. sizes. }
  rewrite bind_Ok. simpl in_use. simpl number_of_pages.
  rewrite (proj2 (Z.eqb_neq _ _)) by lia. simpl.
  rewrite u32_small by sizes. rewrite <- Nat2Z.inj_add.
  rewrite (merge_forward _ _ _ _ E Hs), bind_Ok, Nat2Z.id, Hd'.
  assert (total (l1' ++ opt_free i) = length (layout l1') + length (free_run i))%nat as Hpos by sizes.
  rewrite Hpos.
  rewrite grab_backward_spec; [|by apply layout_stops| |lia|sizes].
  2: { intros x [? ?]%free_run_elem. split; [done|lia]. }
  rewrite bind_Ok. simpl fst. simpl snd.
  rewrite (app_assoc (free_run i)).
  rewrite (mark_free _ (free_run i ++ used_run k) _ (i + k) j) by sizes.
  rewrite bind_Ok, <- Hpos. eexists _, _. split; [done|]. split; [exact Hr|].
  assert (total (l1' ++ Free (i + k + j) :: l2') = total bs) as Htot by (rewrite E; sizes).
  split; [done|]. split; [|split; [done|]].
  - split; simpl; [done| |by rewrite Htot|exact G|].
    + exists rest. autorewrite with vmm. simpl. by rewrite <- !app_assoc.
    + intros Hx. apply used_at_release; [|rewrite <- E; by apply Hg].
      intros Hc. apply (proj2 R Hx). pose proof (proj1 B). lia.
  - exists (layout l1' ++ free_run (i + k + j) ++ layout l2' ++ rest), (max_used_pages h).
    unfold heap_idle in Hidle. destruct h; simpl in *. by rewrite Hidle.
Qed.

End Operations.

(** * The locked entry points *)

Section EntryPoints.
Context (fuel : nat) (cpu : Z).

Lemma allocate_zero h : heap_idle h -> vmm_page_allocate (S fuel) cpu h 0 = Ok (0, h).
Proof.
  intros Hi. unfold vmm_page_allocate. rewrite acquire_free by by rewrite Hi.
  rewrite bind_Ok. simpl. by rewrite release_eq, set_lock_idle.
Qed.

Lemma allocate_none h bs n : heap_wf h bs -> heap_idle h -> 0 < n ->
  first_fit (Z.to_nat n) bs = None -> vmm_page_allocate (S fuel) cpu h n = Ok (0, h).
Proof.
  intros WF Hi Hn F. unfold vmm_page_allocate. rewrite acquire_free by by rewrite Hi.
  rewrite bind_Ok.
  rewrite (page_alloc_fail (set_lock h (mk_lock 1 cpu)) bs) by (done || by apply wf_set_lock).
  rewrite bind_Ok. by rewrite release_eq, set_lock_idle.
Qed.

Lemma set_lock_same h1 h2 l : heap_idle h1 -> same_heap (set_lock h1 l) h2 ->
  same_heap h1 (set_lock h2 LOCK_INIT_STATE).
Proof.
  unfold heap_idle. intros Hi (d & m & ->). exists d, m. destruct h1. simpl in *. by rewrite Hi.
Qed.

Lemma allocate_some h bs n p bs' : heap_wf h bs -> heap_idle h -> 0 < n ->
  first_fit (Z.to_nat n) bs = Some (p, bs') ->
  real_page h (Z.of_nat p) /\ total bs' = total bs /\
  exists h', vmm_page_allocate (S fuel) cpu h n = Ok (page_address h (Z.of_nat p), h') /\
    heap_wf h' bs' /\ heap_idle h' /\ same_heap h h'.
Proof.
  intros WF Hi Hn F. apply wf_set_lock with (l := mk_lock 1 cpu) in WF.
  destruct (page_alloc_ok _ _ WF n p bs' Hn F) as (R & Ht & h' & E & WF' & S).
  split; [exact R|]. split; [done|]. exists (set_lock h' LOCK_INIT_STATE).
  unfold vmm_page_allocate. rewrite acquire_free by by rewrite Hi.
  rewrite bind_Ok, E, bind_Ok. split; [done|]. split; [by apply wf_set_lock|].
  split; [done|]. by eapply set_lock_same.
Qed.

End EntryPoints.

(** [same_heap] keeps the addresses. *)
Lemma same_heap_address h h' i : same_heap h h' ->
  page_address h' i = page_address h i /\ (real_page h' i <-> real_page h i).
Proof. by intros (d & m & ->). Qed.

(** * When an allocation exists *)

(** [n] consecutive free pages from page [i]. *)
Definition free_window (d : list HEAP_PAGE_DESCRIPTOR) (i n : nat) : Prop :=
  forall j, (i <= j < i + n)%nat -> exists x, d !! j = Some x /\ in_use x = false.

Lemma free_window_shift l d i n :
  (length l <= i)%nat -> free_window (l ++ d) i n -> free_window d (i - length l) n.
Proof.
  intros Hi H j Hj. destruct (H (j + length l)%nat ltac:(lia)) as (x & Hx & E).
  exists x. split; [|done]. rewrite lookup_app_r in Hx by lia.
  by replace (j + length l - length l)%nat with j in Hx by lia.
Qed.

Lemma window_fits bs rest i n : blocks_ok bs -> (0 < n)%nat -> (i + n <= total bs)%nat ->
  free_window (layout bs ++ rest) i n -> is_Some (first_fit n bs).
Proof.
  intros Hok Hn. revert i. induction bs as [|b bs IH]; intros i Hi W; [simpl in Hi; lia|].
  simpl. destruct (match b with Used _ => false | Free k => (n <=? k)%nat end) eqn:E; [by eexists|].
  apply (blocks_ok_app [b]) in Hok as (Hb & Hbs & Hadj).
  rewrite layout_cons, <- app_assoc in W. rewrite total_cons in Hi.
  destruct (decide (size b <= i)%nat) as [Hge|Hlt].
  - apply free_window_shift in W; rewrite length_layout_block in *; [|done].
    destruct (IH Hbs (i - size b)%nat ltac:(lia) W) as [r ->]. by eexists.
  - exfalso. destruct b as [k|k]; simpl in *.
    + destruct (W i ltac:(lia)) as (x & Hx & Hu). rewrite lookup_app_l in Hx by sizes.
      apply list_elem_of_lookup_2 in Hx. apply used_run_elem in Hx. congruence.
    + apply Nat.leb_gt in E. destruct (W k ltac:(lia)) as (x & Hx & Hu).
      rewrite lookup_app_r, length_free_run, Nat.sub_diag in Hx by sizes.
      destruct bs as [|[m|m] bs]; [simpl in Hi; lia| |by specialize (Hadj eq_refl)].
      apply blocks_ok_used in Hbs as [Hm _]. destruct m; [lia|]. simpl in Hx. by simplify_eq.
Qed.

Lemma fit_window bs rest n p bs' : first_fit n bs = Some (p, bs') ->
  (p + n <= total bs)%nat /\ free_window (layout bs ++ rest) p n.
Proof.
  intros (l1 & k & l2 & -> & -> & Hk & ->)%first_fit_spec. split; [sizes|].
  intros j Hj. autorewrite with vmm. rewrite <- !app_assoc.
  rewrite lookup_app_r by sizes. rewrite lookup_app_l by sizes. simpl.
  destruct (lookup_lt_is_Some_2 (free_run k) (j - length (layout l1))) as [x Hx]; [sizes|].
  exists x. split; [done|]. by apply list_elem_of_lookup_2, free_run_elem in Hx as [? _].
Qed.

Lemma release_fit n bs p bs' : (0 < n)%nat -> blocks_ok bs -> first_fit n bs = Some (p, bs') ->
  release_block p bs' = Some bs.
Proof.
  intros Hn Hok (l1 & k & l2 & -> & -> & Hk & ->)%first_fit_spec.
  pose proof (alloc_blocks_ok l1 k l2 n ltac:(lia) Hok) as Hok'.
  destruct (release_spec _ _ _ Hok') as (l1' & i & j & l2' & E1 & E2 & _ & Hs' & -> & _).
  apply blocks_ok_app in Hok as (_ & (_ & Hs & _)%blocks_ok_free & Ha).
  destruct i as [|i].
  2: { exfalso. specialize (Ha ltac:(rewrite E1; by rewrite ends_free_app)). done. }
  simpl in E1. rewrite app_nil_r in E1. subst l1'.
  assert (j = k - n /\ l2' = l2)%nat as [-> ->].
  { destruct j, (k - n)%nat eqn:D; simpl in E2; simplify_eq; try done; by rewrite <- E2 in *. }
  by replace (0 + n + (k - n))%nat with k by lia.
Qed.

(** * Initialisation and extension *)

Lemma init_descs_spec pre mid post from tot : from = Z.of_nat (length pre) ->
  tot = from + Z.of_nat (length mid) -> tot < 2 ^ 31 ->
  init_descs from tot (pre ++ mid ++ post) = Ok (pre ++ free_run (length mid) ++ post).
Proof.
  intros Hf Ht Hb. unfold init_descs.
  rewrite (for_range_ext _ (fun i d => wr d i (mk_desc (tot - i) false))).
  2: { intros i s Hi. unfold desc. usmall. done. }
  rewrite (for_range_fill (fun i => mk_desc (tot - i) false)) by lia.
  pose proof (free_run_app (length mid) 0) as F. simpl in F.
  rewrite Nat.add_0_r, app_nil_r in F. rewrite F. do 3 f_equal.
  pose proof (fmap_add_seqZ from 0 (tot - from)) as G. rewrite Z.add_0_r in G.
  rewrite <- G, <- list_fmap_compose. replace (tot - from) with (Z.of_nat (length mid)) by lia.
  apply list_fmap_ext. intros _ x _. simpl. f_equal. lia.
Qed.

Lemma blocks_ok_opt_free k : blocks_ok (opt_free k).
Proof. rewrite <- (app_nil_r (opt_free k)). apply blocks_ok_opt. split; [apply blocks_ok_nil|done]. Qed.
#[export] Hint Resolve blocks_ok_opt_free : vmm.

(** The arithmetic of [vmm_heap_initialize]: with room reserved for at least one
    page of extension, the descriptors of the initial pages fit below them. *)
Lemma init_capacity a size g : 0 <= size -> 1 <= g ->
  let np := (size + g * 4096) / 4100 in
  forall base, a + np * 4 <= base < a + np * 4 + 4096 -> base - a <= size ->
  0 <= (size - (base - a)) / 4096 <= np /\ np <= (base - a) / 4.
Proof. simpl. intros. lia. Qed.

(** The block list after the initialisation: one free run. *)
Lemma heap_initialize_ok g old h addr size :
  0 < addr -> addr + size + 2 ^ 33 < 2 ^ 64 -> 1 <= g -> g * 4096 < 2 ^ 32 ->
  0 <= size -> size + 4096 < 2 ^ 32 -> (size + g * 4096) / 4100 * 4 + 4096 <= size ->
  ex_heap_base h = 0 -> ex_heap_pages h = 0 ->
  exists last h', vmm_heap_initialize g old h addr size = Ok (last, h') /\
    heap_idle h' /\ heap_wf h' (opt_free (Z.to_nat (heap_total_pages h'))) /\
    Z.of_nat (length (descs h')) = (heap_base h' - heap_array h') / 4 /\
    (size + g * 4096) / 4100 <= Z.of_nat (length (descs h')) /\
    addr <= heap_array h' < addr + 8 /\
    heap_array h' + 4 * heap_total_pages h' <= heap_base h' /\
    last = heap_base h' + 4096 * heap_total_pages h' /\
    last <= heap_array h' + size < last + 4096.
Proof.
  intros Ha Hs Hg Hg2 Hsz Hsz2 Hfit He1 He2. unfold vmm_heap_initialize, PAGE_4KB_SIZE, DESCRIPTOR_SIZE.
  pose proof (ALIGN_FORWARD_8 addr ltac:(lia) ltac:(lia)) as Ha8.
  generalize dependent (ALIGN_FORWARD addr 8). intros a Ha8.
  usmall. set (np := (size + g * 4096) / (4096 + 4)).
  assert (0 <= np < 2 ^ 22) as Hnp by (unfold np; lia).
  pose proof (ALIGN_FORWARD_page (a + np * 4) ltac:(lia) ltac:(lia)) as Hbase.
  generalize dependent (ALIGN_FORWARD (a + np * 4) 4096). intros base Hbase.
  assert (base - a <= size) as Hba by (unfold np in *; lia).
  usmall. set (tot := (size - (base - a)) / 4096).
  destruct (init_capacity a size g ltac:(lia) ltac:(lia) base ltac:(lia) ltac:(lia)) as [Htot Hcap].
  fold np in Htot, Hcap. fold tot in Htot. set (cap := (base - a) / 4) in *.
  set (d0 := old <$> seq 0 (Z.to_nat cap)).
  assert (length d0 = Z.to_nat cap) as Hd0 by (unfold d0; by rewrite length_fmap, length_seq).
  rewrite <- (take_drop (Z.to_nat tot) d0).
  assert (length (take (Z.to_nat tot) d0) = Z.to_nat tot) as Htk by (rewrite length_take; lia).
  pose proof (init_descs_spec [] (take (Z.to_nat tot) d0) (drop (Z.to_nat tot) d0) 0 tot) as I.
  simpl in I. rewrite Htk in I. rewrite I by lia. rewrite bind_Ok. clear I.
  do 2 eexists. split; [done|]. simpl.
  assert (0 <= tot /\ tot * 4096 <= size - (base - a) < tot * 4096 + 4096) as Htp by (unfold tot; lia).
  split_and!; [done| |..].
  - split; simpl; autorewrite with vmm; [apply blocks_ok_opt_free|by eexists|lia| |lia].
    split; [unfold base_range; simpl; lia|]. left. unfold not_extended. simpl. usmall. lia.
  - rewrite length_app, length_free_run, length_drop. lia.
  - rewrite length_app, length_free_run, length_drop. unfold np in *. lia.
  - lia.
  - lia.
  - lia.
  - usmall. lia.
  - usmall. lia.
  - usmall. lia.
Qed.

Lemma heap_extend_ok fuel cpu h bs addr size : heap_wf h bs -> heap_idle h -> not_extended h ->
  let pages := size / 4096 + 1 in
  0 < addr -> addr mod 4096 = 0 -> 0 <= size -> size + 8192 < 2 ^ 32 -> addr + size + 8192 < 2 ^ 64 ->
  (addr + pages * 4096 < heap_base h \/ heap_base h + heap_pages h * 4096 <= addr) ->
  heap_total_pages h + pages <= Z.of_nat (length (descs h)) ->
  exists last h', vmm_heap_extend (S fuel) cpu h addr size = Ok (last, h') /\
    heap_idle h' /\ is_extended h' /\ ex_heap_base h' = addr /\ ex_heap_pages h' = pages /\
    heap_wf h' (bs ++ Used 1 :: opt_free (Z.to_nat (size / 4096))).
Proof.
  intros [Hok [rest Hd] Ht G Hg] Hi NE pages Ha Hal Hs Hs2 Hs3 Hdis Hcap.
  pose proof (geometry_bounds h G) as B. pose proof G as [BR _]. pose proof NE as (N1 & N2 & N3 & N4).
  unfold vmm_heap_extend. rewrite acquire_free by by rewrite Hi. rewrite bind_Ok.
  pose proof (ALIGN_FORWARD_8 addr ltac:(lia) ltac:(lia)) as HA.
  assert (ALIGN_FORWARD addr 8 = addr) as -> by lia. unfold PAGE_4KB_SIZE.
  rewrite Z.sub_diag. change (u64 0) with 0. rewrite Z.sub_0_r. usmall. fold pages.
  assert (Z.of_nat (length (layout bs)) = heap_total_pages h) as Hlen by (rewrite length_layout; lia).
  rewrite Hd, length_app in Hcap. destruct rest as [|x rest]; [unfold pages in Hcap; simpl in Hcap; lia|].
  rewrite Hd. rewrite wr_ok by (rewrite length_app; simpl; lia). rewrite bind_Ok.
  rewrite insert_middle_eq by lia. simpl in Hcap.
  rewrite <- (take_drop (Z.to_nat (size / 4096)) rest).
  set (mid := take (Z.to_nat (size / 4096)) rest).
  assert (length mid = Z.to_nat (size / 4096)) as Hmid
    by (unfold mid; rewrite length_take; unfold pages in Hcap; lia).
  replace (layout bs ++ desc 1 true :: mid ++ drop (Z.to_nat (size / 4096)) rest)
    with ((layout bs ++ [desc 1 true]) ++ mid ++ drop (Z.to_nat (size / 4096)) rest)
    by by rewrite <- app_assoc.
  rewrite init_descs_spec; [|rewrite length_app; simpl; usmall; lia
                            |usmall; unfold pages; lia|unfold pages; lia].
  rewrite bind_Ok, Hmid. do 2 eexists. split; [done|]. split; [done|].
  assert (is_extended (mk_heap (heap_array h) [] (heap_base h) (heap_total_pages h + pages) 0
    LOCK_INIT_STATE (heap_pages h) addr pages (heap_total_pages h) 0)) as X.
  { unfold is_extended. simpl. unfold base_range, pages in *. lia. }
  split; [exact X|]. split; [done|]. split; [done|]. split; simpl.
  - apply blocks_ok_app. split; [done|]. rewrite blocks_ok_used.
    split; [split; [lia|apply blocks_ok_opt_free]|done].
  - exists (drop (Z.to_nat (size / 4096)) rest). autorewrite with vmm. simpl. unfold desc. usmall.
    by rewrite <- !app_assoc.
  - unfold pages. sizes.
  - split; [exact BR|right; exact X].
  - intros _. exists bs, (opt_free (Z.to_nat (size / 4096))). split; [done|lia].
Qed.

(** * Sequences of operations *)

Inductive heap_op := OpAlloc (n : Z) | OpFree (page : nat).

(** The page number of the guard descriptor. *)
Definition guard_page (h : heap) : option nat :=
  if ex_heap_pages h =? 0 then None else Some (Z.to_nat (heap_pages h)).

(** The abstract heap: a result is the page number of an allocation. A release of
    a page that does not start an allocation, or of the guard, is not a valid use. *)
Definition spec_op (guard : option nat) (bs : list block) (op : heap_op)
  : option (option nat * list block) :=
  match op with
  | OpAlloc n =>
      if n =? 0 then Some (None, bs)
      else match first_fit (Z.to_nat n) bs with
           | None => Some (None, bs)
           | Some (p, bs') => Some (Some p, bs')
           end
  | OpFree page =>
      if decide (guard = Some page) then None
      else bs' ← release_block page bs; Some (None, bs')
  end.

Fixpoint spec_run (guard : option nat) (bs : list block) (ops : list heap_op)
  : option (list (option nat) * list block) :=
  match ops with
  | [] => Some ([], bs)
  | op :: ops' =>
      r ← spec_op guard bs op;
      r' ← spec_run guard r.2 ops';
      Some (r.1 :: r'.1, r'.2)
  end.

(** The code: a result is the pointer returned (0 for a release). *)
Definition heap_do (fuel : nat) (cpu : Z) (h : heap) (op : heap_op) : outcome (Z * heap) :=
  match op with
  | OpAlloc n => vmm_page_allocate fuel cpu h n
  | OpFree page =>
      h' ← vmm_page_free fuel cpu h (page_address h (Z.of_nat page)); Ok (0, h')
  end.

Fixpoint heap_run (fuel : nat) (cpu : Z) (h : heap) (ops : list heap_op)
  : outcome (list Z * heap) :=
  match ops with
  | [] => Ok ([], h)
  | op :: ops' =>
      r ← heap_do fuel cpu h op;
      r' ← heap_run fuel cpu r.2 ops';
      Ok (r.1 :: r'.1, r'.2)
  end.

Definition pointer_of (h : heap) (r : option nat) : Z :=
  match r with Some p => page_address h (Z.of_nat p) | None => 0 end.

Lemma heap_do_ok fuel cpu h bs op r bs' : heap_wf h bs -> heap_idle h ->
  (match op with OpAlloc n => 0 <= n | OpFree _ => True end) ->
  spec_op (guard_page h) bs op = Some (r, bs') ->
  exists h', heap_do (S fuel) cpu h op = Ok (pointer_of h r, h') /\
    heap_wf h' bs' /\ heap_idle h' /\ same_heap h h'.
Proof.
  intros WF Hi Hn H. destruct op as [n|page]; simpl in *.
  - destruct (Z.eqb_spec n 0) as [->|Hnz].
    { simplify_eq. exists h. split; [by apply allocate_zero|]. split_and!; [done..|apply same_heap_refl]. }
    destruct (first_fit (Z.to_nat n) bs) as [[p b]|] eqn:F; simplify_eq.
    + destruct (allocate_some fuel cpu h bs n p bs' WF Hi ltac:(lia) F) as (_ & _ & h' & ?).
      by exists h'.
    + exists h. rewrite (allocate_none fuel cpu h bs' n WF Hi) by (done || lia).
      split_and!; [done..|apply same_heap_refl].
  - case_decide as Hg; [done|]. destruct (release_block page bs) as [b|] eqn:F; simplify_eq/=.
    assert (exists l1 k l2, bs = l1 ++ Used k :: l2 /\ page = total l1) as (l1 & k & l2 & E & ->).
    { unfold release_block in F. destruct (split_used page bs) as [[[l1 k] l2]|] eqn:S; [|done].
      apply split_used_spec in S as [-> ->]. by exists l1, k, l2. }
    assert (real_page h (Z.of_nat (total l1))) as R.
    { destruct WF as [Hok _ Ht G _]. rewrite E in Ht, Hok.
      apply blocks_ok_app in Hok as (_ & [Hk _]%blocks_ok_used & _). split; [sizes|].
      intros Hx Heq. apply Hg. unfold guard_page. rewrite (proj2 (Z.eqb_neq _ _)) by done.
      f_equal. lia. }
    destruct (page_free_ok h bs WF fuel cpu l1 k l2 E R Hi) as (h' & bs2 & EF & RF & _ & WF' & Hi' & S).
    rewrite F in RF. simplify_eq. exists h'. by rewrite EF.
Qed.

(** * Scattered allocation *)

Definition free_pages (bs : list block) : nat :=
  sum_list_with (fun b => match b with Free k => k | Used _ => 0%nat end) bs.

Lemma free_pages_app l1 l2 : free_pages (l1 ++ l2) = (free_pages l1 + free_pages l2)%nat.
Proof. apply sum_list_with_app. Qed.

Lemma free_pages_opt k : free_pages (opt_free k) = k.
Proof. destruct k; unfold free_pages; simpl; lia. Qed.

Lemma free_pages_fit n bs p bs' : first_fit n bs = Some (p, bs') ->
  free_pages bs = (n + free_pages bs')%nat.
Proof.
  intros (l1 & k & l2 & -> & _ & Hn & ->)%first_fit_spec.
  rewrite !free_pages_app. unfold free_pages at 2 4. simpl.
  fold (free_pages l2). fold (free_pages (opt_free (k - n) ++ l2)).
  rewrite free_pages_app, free_pages_opt. lia.
Qed.

Lemma free_pages_none bs : blocks_ok bs -> first_fit 1 bs = None -> free_pages bs = 0%nat.
Proof.
  induction bs as [|b bs IH]; intros Hok H; [done|].
  apply (blocks_ok_app [b]) in Hok as (Hb & Hbs & _).
  destruct b as [k|k]; simpl in H.
  - destruct (first_fit 1 bs) eqn:F; [done|]. by apply IH.
  - apply blocks_ok_free in Hb as [Hk _]. destruct k; [lia|done].
Qed.

Lemma first_fit_used n bs p bs' : first_fit n bs = Some (p, bs') -> used_at bs' p n.
Proof.
  intros (l1 & k & l2 & _ & -> & _ & ->)%first_fit_spec. by do 2 eexists.
Qed.

Lemma first_fit_keeps n bs p bs' q m :
  first_fit n bs = Some (p, bs') -> used_at bs q m -> used_at bs' q m.
Proof.
  intros (l1 & k & l2 & -> & _ & Hn & ->)%first_fit_spec. by apply used_at_alloc.
Qed.

Lemma first_fit_fresh n bs p bs' q m : (0 < n)%nat -> blocks_ok bs ->
  first_fit n bs = Some (p, bs') -> used_at bs q m -> p <> q.
Proof.
  intros Hn Hok (l1 & k & l2 & -> & -> & Hk & _)%first_fit_spec (m1 & m2 & E & <-).
  assert (blocks_ok (m1 ++ Used m :: m2)) as Hok2 by by rewrite <- E.
  apply blocks_ok_app in Hok as (_ & [Hk0 _]%blocks_ok_free & _).
  apply blocks_ok_app in Hok2 as (_ & [Hm0 _]%blocks_ok_used & _).
  destruct (app_cons_cases _ _ _ _ _ _ E) as [(u & -> & _)|[(_ & [=] & _)|(u & -> & _)]]; sizes.
Qed.

(** The pages of a run of single-page allocations: each is a live allocation of
    one page afterwards, they are pairwise distinct and new, and the run stops
    early only when no free page is left. *)
Lemma alloc_single_ok c : forall h bs, heap_wf h bs ->
  exists pages h' bs', alloc_single_pages c h = Ok (page_address h <$> (Z.of_nat <$> pages), h') /\
    heap_wf h' bs' /\ same_heap h h' /\ NoDup pages /\
    Forall (fun p => used_at bs' p 1 /\ real_page h (Z.of_nat p)) pages /\
    (forall q m, used_at bs q m -> used_at bs' q m /\ q ∉ pages) /\
    length pages = (c `min` free_pages bs)%nat.
Proof.
  induction c as [|c IH]; intros h bs WF.
  { exists [], h, bs. split_and!; [done|done|apply same_heap_refl|constructor|constructor| |done].
    intros q m Hq. split; [done|apply not_elem_of_nil]. }
  cbn [alloc_single_pages]. destruct (first_fit (Z.to_nat 1) bs) as [[p bs1]|] eqn:F.
  - destruct (page_alloc_ok h bs WF 1 p bs1 ltac:(lia) F) as (R & _ & h1 & -> & WF1 & S1).
    rewrite bind_Ok. pose proof (page_to_pointer h _ (wf_geometry _ _ WF) R) as (_ & Hp & _).
    rewrite (proj2 (Z.eqb_neq _ _)) by lia.
    destruct (IH h1 bs1 WF1) as (ps & h2 & bs2 & -> & WF2 & S2 & ND & FA & K & L).
    rewrite bind_Ok. destruct (K p 1%nat (first_fit_used _ _ _ _ F)) as [Kp Np].
    exists (p :: ps), h2, bs2. split_and!; [|done|by eapply same_heap_trans| | | |].
    + simpl. do 3 f_equal. apply list_fmap_ext. intros _ i _. by apply same_heap_address.
    + by constructor.
    + constructor; [done|]. eapply Forall_impl; [exact FA|]. intros q [Hu Hq].
      split; [done|]. by apply (same_heap_address h h1).
    + intros q m Hq. destruct (K q m (first_fit_keeps _ _ _ _ _ _ F Hq)) as [Ku Kn].
      split; [done|]. rewrite not_elem_of_cons. split; [|done]. intros ->.
      by apply (first_fit_fresh 1 _ _ _ _ _ Nat.lt_0_1 (wf_blocks _ _ WF) F Hq).
    + rewrite (free_pages_fit _ _ _ _ F). change (length (p :: ps)) with (S (length ps)).
      rewrite L. lia.
  - rewrite (page_alloc_fail h bs WF 1) by (done || lia). rewrite bind_Ok.
    exists [], h, bs. split_and!; [done|done|apply same_heap_refl|constructor|constructor| |].
    + intros q m Hq. split; [done|apply not_elem_of_nil].
    + by rewrite (free_pages_none bs (wf_blocks _ _ WF) F).
Qed.

(** The page rounding of a 32-bit size. *)
Lemma round_up_u32 size : 0 < size < 2 ^ 32 ->
  u32 (ALIGN_FORWARD_U32 size PAGE_4KB_SIZE)
    = if size <=? 2 ^ 32 - 4096 then (size + 4095) / 4096 * 4096 else 0.
Proof.
  intros H. unfold ALIGN_FORWARD_U32, PAGE_4KB_SIZE.
  rewrite ALIGN_BACKWARD_page by (pose proof (u32_range (size + 4096 - 1)); lia).
  destruct (Z.leb_spec size (2 ^ 32 - 4096)).
  - usmall. lia.
  - replace (u32 (size + 4096 - 1)) with (size + 4096 - 1 - 2 ^ 32) by (unfold u32, wrap; lia).
    usmall. lia.
Qed.

(** * Properties *)

(** A small heap of which the blocks are known, for the instances below. *)
Definition sample (bs : list block) : heap :=
  mk_heap 32768 (layout bs) 65536 (Z.of_nat (total bs)) 65536 LOCK_INIT_STATE
    (Z.of_nat (total bs)) 0 0 1000 0.

Lemma sample_wf bs : blocks_ok bs -> (total bs < 1000)%nat -> heap_wf (sample bs) bs.
Proof.
  intros Hok Hb. split; simpl; [done|by exists []; rewrite app_nil_r|done| |done].
  split; [unfold base_range|left; unfold not_extended]; simpl; lia.
Qed.

Ltac blocks_ok_tac := split; [repeat constructor; simpl; lia|simpl; tauto].

(** C1. Any sequence of allocations and valid releases on the page heap returns the
    pointers that the abstract first-fit heap with coalescing returns (NULL where
    it has no run of pages long enough), never faults or spins, and leaves a
    descriptor array that represents the abstract heap, with the lock free. *)
Theorem heap_run_refines fuel cpu h bs ops rs bs' :
  heap_wf h bs -> heap_idle h ->
  Forall (fun op => match op with OpAlloc n => 0 <= n | OpFree _ => True end) ops ->
  spec_run (guard_page h) bs ops = Some (rs, bs') ->
  exists h', heap_run (S fuel) cpu h ops = Ok (pointer_of h <$> rs, h') /\
    heap_wf h' bs' /\ heap_idle h'.
Proof.
  intros WF Hi Hops. revert h bs rs WF Hi.
  induction Hops as [|op ops Hop _ IH]; intros h bs rs WF Hi H; simpl in H.
  { simplify_eq. by exists h. }
  destruct (spec_op (guard_page h) bs op) as [[r b1]|] eqn:E1; [|done]. simpl in H.
  destruct (spec_run (guard_page h) b1 ops) as [[rs1 b2]|] eqn:E2; [|done]. simplify_eq/=.
  destruct (heap_do_ok fuel cpu h bs op r b1 WF Hi Hop E1) as (h1 & -> & WF1 & Hi1 & S).
  assert (guard_page h1 = guard_page h) as Eg by (by destruct S as (? & ? & ->)).
  rewrite <- Eg in E2. destruct (IH h1 b1 rs1 WF1 Hi1 E2) as (h2 & E & WF2 & Hi2).
  exists h2. rewrite bind_Ok. simpl. rewrite E. split; [|done]. simpl. do 3 f_equal.
  apply list_fmap_ext. intros _ [p|] _; [by apply same_heap_address|done].
Qed.

Lemma heap_run_refines_witness :
  exists h', heap_run 1 3 (sample [Free 8])
      [OpAlloc 2; OpAlloc 3; OpFree 0; OpAlloc 9; OpAlloc 1; OpFree 2]
    = Ok ([65536; 73728; 0; 0; 65536; 0], h') /\ heap_wf h' [Used 1; Free 7] /\ heap_idle h'.
Proof.
  apply (heap_run_refines 0 3 (sample [Free 8]) [Free 8]
    [OpAlloc 2; OpAlloc 3; OpFree 0; OpAlloc 9; OpAlloc 1; OpFree 2]
    [Some 0; Some 2; None; None; Some 0; None]%nat).
  - apply sample_wf; [blocks_ok_tac|simpl; lia].
  - done.
  - repeat constructor; lia.
  - vm_compute. done.
Defined.

(** An allocation of n > 0 pages returns NULL exactly when no n consecutive
    pages of the heap are free, and then the heap is unchanged. *)
Theorem vmm_page_allocate_complete fuel cpu h bs n :
  heap_wf h bs -> heap_idle h -> 0 < n ->
  exists p h', vmm_page_allocate (S fuel) cpu h n = Ok (p, h') /\
    (p = 0 <-> ~ exists i, (i + Z.to_nat n <= total bs)%nat /\
                           free_window (descs h) i (Z.to_nat n)) /\
    (p = 0 -> h' = h).
Proof.
  intros WF Hi Hn. pose proof WF as [Hok [rest Hd] _ G _].
  destruct (first_fit (Z.to_nat n) bs) as [[p bs']|] eqn:F.
  - destruct (allocate_some fuel cpu h bs n p bs' WF Hi Hn F) as (R & _ & h' & -> & _).
    pose proof (page_to_pointer h _ G R) as (_ & Hp & _).
    do 2 eexists. split; [done|]. split; [|intros; exfalso; lia].
    split; [intros; exfalso; lia|]. intros H. exfalso. apply H.
    rewrite Hd. exists p. by eapply fit_window.
  - exists 0, h. rewrite (allocate_none fuel cpu h bs n WF Hi Hn F). split; [done|].
    split; [|done]. split; [|done]. intros _ (i & Hi' & W). rewrite Hd in W.
    destruct (window_fits bs rest i (Z.to_nat n) Hok ltac:(lia) Hi' W) as [r Hr]. congruence.
Qed.

Lemma vmm_page_allocate_complete_witness :
  exists p h', vmm_page_allocate 1 0 (sample [Free 2; Used 1; Free 3]) 4 = Ok (p, h') /\
    (p = 0 <-> ~ exists i, (i + 4 <= 6)%nat /\
                 free_window (layout [Free 2; Used 1; Free 3]) i 4) /\
    (p = 0 -> h' = sample [Free 2; Used 1; Free 3]).
Proof.
  apply (vmm_page_allocate_complete 0 0 (sample [Free 2; Used 1; Free 3]) [Free 2; Used 1; Free 3] 4).
  - apply sample_wf; [blocks_ok_tac|simpl; lia].
  - done.
  - lia.
Defined.

(** A successful allocation returns the address of n pages that were all free,
    makes them one live allocation, and keeps every live allocation in place and
    apart from the new one. *)
Theorem vmm_page_allocate_safe fuel cpu h bs n p h' :
  heap_wf h bs -> heap_idle h -> 0 < n ->
  vmm_page_allocate (S fuel) cpu h n = Ok (p, h') -> p <> 0 ->
  exists pos bs', p = page_address h (Z.of_nat pos) /\ real_page h (Z.of_nat pos) /\
    free_window (descs h) pos (Z.to_nat n) /\
    heap_wf h' bs' /\ used_at bs' pos (Z.to_nat n) /\
    (forall q m, used_at bs q m -> used_at bs' q m /\
       (pos + Z.to_nat n <= q \/ q + m <= pos)%nat).
Proof.
  intros WF Hi Hn E Hp. pose proof WF as [Hok [rest Hd] _ G _].
  destruct (first_fit (Z.to_nat n) bs) as [[pos bs']|] eqn:F.
  2: { rewrite (allocate_none fuel cpu h bs n WF Hi Hn F) in E. by simplify_eq. }
  destruct (allocate_some fuel cpu h bs n pos bs' WF Hi Hn F) as (R & _ & h2 & E2 & WF2 & _).
  rewrite E2 in E. simplify_eq. exists pos, bs'. split_and!; [done|done| |done| |].
  - rewrite Hd. by eapply fit_window.
  - by eapply first_fit_used.
  - intros q m Hq. pose proof (first_fit_keeps _ _ _ _ _ _ F Hq) as Hq'. split; [done|].
    pose proof (first_fit_fresh (Z.to_nat n) _ _ _ _ _ ltac:(lia) Hok F Hq).
    destruct (used_at_disjoint bs' _ _ _ _ (wf_blocks _ _ WF2) (first_fit_used _ _ _ _ F) Hq') as [?|?];
      lia.
Qed.

Lemma vmm_page_allocate_safe_witness :
  exists h', vmm_page_allocate 1 0 (sample [Free 2; Used 1; Free 3]) 3 = Ok (77824, h') /\
  exists pos bs', 77824 = page_address (sample [Free 2; Used 1; Free 3]) (Z.of_nat pos) /\
    real_page (sample [Free 2; Used 1; Free 3]) (Z.of_nat pos) /\
    free_window (descs (sample [Free 2; Used 1; Free 3])) pos 3 /\
    heap_wf h' bs' /\ used_at bs' pos 3 /\
    (forall q m, used_at [Free 2; Used 1; Free 3] q m -> used_at bs' q m /\
       (pos + 3 <= q \/ q + m <= pos)%nat).
Proof.
  eexists. split; [vm_compute; reflexivity|].
  apply (vmm_page_allocate_safe 0 0 (sample [Free 2; Used 1; Free 3]) [Free 2; Used 1; Free 3] 3).
  - apply sample_wf; [blocks_ok_tac|simpl; lia].
  - done.
  - lia.
  - vm_compute. reflexivity.
  - lia.
Defined.

(** Releasing a live allocation frees its pages, merges them with the free runs
    on both sides (the result has no two adjacent free runs) and keeps every
    other live allocation in place. *)
Theorem vmm_page_free_coalesces fuel cpu h bs pos k :
  heap_wf h bs -> heap_idle h -> used_at bs pos k -> real_page h (Z.of_nat pos) ->
  exists h' bs', vmm_page_free (S fuel) cpu h (page_address h (Z.of_nat pos)) = Ok h' /\
    release_block pos bs = Some bs' /\ heap_wf h' bs' /\ heap_idle h' /\
    free_window (descs h') pos k /\
    (forall q m, used_at bs q m -> q <> pos -> used_at bs' q m).
Proof.
  intros WF Hi (l1 & l2 & E & <-) R.
  destruct (page_free_ok h bs WF fuel cpu l1 k l2 E R Hi) as (h' & bs' & EF & RF & _ & WF' & Hi' & _).
  exists h', bs'. split_and!; [done..| |].
  all: pose proof (wf_blocks _ _ WF) as Hok; rewrite E in Hok;
    destruct (release_spec _ _ _ Hok) as (l1' & i & j & l2' & -> & -> & _ & _ & RS & _);
    rewrite <- E in RS; rewrite RF in RS; injection RS as ->.
  - destruct WF' as [_ [rest ->] _ _ _]. intros x Hx. autorewrite with vmm.
    rewrite <- !app_assoc. rewrite lookup_app_r by sizes. simpl.
    rewrite lookup_app_l by sizes.
    destruct (lookup_lt_is_Some_2 (free_run (i + k + j)) (x - length (layout l1'))) as [y Hy]; [sizes|].
    exists y. split; [done|]. by apply list_elem_of_lookup_2, free_run_elem in Hy as [? _].
  - intros q m Hq Hne. apply used_at_release; [done|]. by rewrite <- E.
Qed.

Lemma vmm_page_free_coalesces_witness :
  exists h' bs', vmm_page_free 1 0 (sample [Free 2; Used 3; Free 1; Used 2]) 73728 = Ok h' /\
    release_block 2 [Free 2; Used 3; Free 1; Used 2] = Some bs' /\ heap_wf h' bs' /\ heap_idle h' /\
    free_window (descs h') 2 3 /\
    (forall q m, used_at [Free 2; Used 3; Free 1; Used 2] q m -> q <> 2%nat -> used_at bs' q m).
Proof.
  apply (vmm_page_free_coalesces 0 0 (sample [Free 2; Used 3; Free 1; Used 2])
    [Free 2; Used 3; Free 1; Used 2] 2 3).
  - apply sample_wf; [blocks_ok_tac|simpl; lia].
  - done.
  - by exists [Free 2], [Free 1; Used 2].
  - split; [simpl; lia|done].
Defined.

(** Allocating and then releasing restores the descriptors of the whole heap. *)
Theorem vmm_page_allocate_free_roundtrip fuel cpu h bs n p h1 :
  heap_wf h bs -> heap_idle h -> 0 < n ->
  vmm_page_allocate (S fuel) cpu h n = Ok (p, h1) -> p <> 0 ->
  exists h2, vmm_page_free (S fuel) cpu h1 p = Ok h2 /\ heap_idle h2 /\ heap_wf h2 bs /\
    take (total bs) (descs h2) = take (total bs) (descs h).
Proof.
  intros WF Hi Hn E Hp. destruct (first_fit (Z.to_nat n) bs) as [[pos bs']|] eqn:F.
  2: { rewrite (allocate_none fuel cpu h bs n WF Hi Hn F) in E. by simplify_eq. }
  destruct (allocate_some fuel cpu h bs n pos bs' WF Hi Hn F) as (R & _ & h' & E2 & WF1 & Hi1 & S).
  rewrite E2 in E. simplify_eq. clear E2.
  pose proof (first_fit_used _ _ _ _ F) as (l1 & l2 & Eb & <-).
  pose proof (same_heap_address h h1 (Z.of_nat (total l1)) S) as [<- R1].
  destruct (page_free_ok h1 bs' WF1 fuel cpu l1 _ l2 Eb (proj2 R1 R) Hi1)
    as (h2 & bs2 & EF & RF & _ & WF2 & Hi2 & _).
  rewrite (release_fit (Z.to_nat n) bs _ bs' ltac:(lia) (wf_blocks _ _ WF) F) in RF. simplify_eq.
  exists h2. split_and!; [done..|]. destruct WF as [_ [r1 ->] _ _ _], WF2 as [_ [r2 ->] _ _ _].
  by rewrite !take_app_length' by (by rewrite length_layout).
Qed.

Lemma vmm_page_allocate_free_roundtrip_witness :
  exists h1, vmm_page_allocate 1 0 (sample [Free 2; Used 1; Free 3]) 3 = Ok (77824, h1) /\
  exists h2, vmm_page_free 1 0 h1 77824 = Ok h2 /\ heap_idle h2 /\
    heap_wf h2 [Free 2; Used 1; Free 3] /\
    take 6 (descs h2) = take 6 (descs (sample [Free 2; Used 1; Free 3])).
Proof.
  eexists. split; [vm_compute; reflexivity|].
  apply (vmm_page_allocate_free_roundtrip 0 0 (sample [Free 2; Used 1; Free 3])
    [Free 2; Used 1; Free 3] 3).
  - apply sample_wf; [blocks_ok_tac|simpl; lia].
  - done.
  - lia.
  - vm_compute. reflexivity.
  - lia.
Defined.

(** When at least one page of extension is announced (g_heap_pa_num >= 1) and
    the descriptors fit in the buffer, [vmm_heap_initialize] yields one free run
    of pages; the descriptors of all its pages lie below the first page, the
    pages end inside the (8-byte aligned) buffer and less than one page of it is
    left over. *)
Theorem vmm_heap_initialize_wf g old h addr size :
  0 < addr -> addr + size + 2 ^ 33 < 2 ^ 64 -> 1 <= g -> g * 4096 < 2 ^ 32 ->
  0 <= size -> size + 4096 < 2 ^ 32 -> (size + g * 4096) / 4100 * 4 + 4096 <= size ->
  ex_heap_base h = 0 -> ex_heap_pages h = 0 ->
  exists last h', vmm_heap_initialize g old h addr size = Ok (last, h') /\
    heap_idle h' /\ heap_wf h' (opt_free (Z.to_nat (heap_total_pages h'))) /\
    addr <= heap_array h' < addr + 8 /\
    heap_array h' + 4 * heap_total_pages h' <= heap_base h' /\
    last = heap_base h' + 4096 * heap_total_pages h' /\
    last <= heap_array h' + size < last + 4096.
Proof.
  intros. destruct (heap_initialize_ok g old h addr size) as (last & h' & ?); [done..|].
  exists last, h'. tauto.
Qed.

Lemma vmm_heap_initialize_wf_witness :
  exists last h', vmm_heap_initialize 3 (fun _ => mk_desc 0 false) heap_zero 1048577 65536
      = Ok (last, h') /\
    heap_idle h' /\ heap_wf h' (opt_free (Z.to_nat (heap_total_pages h'))) /\
    1048577 <= heap_array h' < 1048577 + 8 /\
    heap_array h' + 4 * heap_total_pages h' <= heap_base h' /\
    last = heap_base h' + 4096 * heap_total_pages h' /\
    last <= heap_array h' + 65536 < last + 4096.
Proof. apply (vmm_heap_initialize_wf 3); simpl; lia. Defined.

(** [vmm_heap_extend] adds the pages of a page-aligned buffer behind a guard
    page that stays in use, provided the descriptor array has room for them and
    for the guard and the buffer is apart from the heap; the existing
    allocations are untouched. *)
Theorem vmm_heap_extend_wf fuel cpu h bs addr size :
  heap_wf h bs -> heap_idle h -> not_extended h ->
  0 < addr -> addr mod 4096 = 0 -> 0 <= size -> size + 8192 < 2 ^ 32 -> addr + size + 8192 < 2 ^ 64 ->
  (addr + (size / 4096 + 1) * 4096 < heap_base h \/ heap_base h + heap_pages h * 4096 <= addr) ->
  heap_total_pages h + (size / 4096 + 1) <= Z.of_nat (length (descs h)) ->
  exists last h', vmm_heap_extend (S fuel) cpu h addr size = Ok (last, h') /\
    heap_idle h' /\ guard_page h' = Some (Z.to_nat (heap_total_pages h)) /\
    heap_wf h' (bs ++ Used 1 :: opt_free (Z.to_nat (size / 4096))).
Proof.
  intros WF Hi NE H1 H2 H3 H4 H5 H6 H7.
  destruct (heap_extend_ok fuel cpu h bs addr size WF Hi NE H1 H2 H3 H4 H5 H6 H7)
    as (last & h' & E & Hi' & X & _ & Hp & WF'). exists last, h'. split_and!; [done|done| |done].
  unfold guard_page. rewrite Hp, (proj2 (Z.eqb_neq _ _)) by lia. f_equal.
  destruct NE as (_ & _ & -> & _). apply bind_ok in E as (l & _ & E).
  apply bind_ok in E as (d & _ & E). apply bind_ok in E as (d' & _ & E). by injection E as _ <-.
Qed.

Lemma vmm_heap_extend_wf_witness :
  let h := set_descs (sample [Used 2; Free 1])
             (layout [Used 2; Free 1] ++ replicate 5 (mk_desc 0 false)) in
  exists last h', vmm_heap_extend 1 0 h 1048576 16384 = Ok (last, h') /\
    heap_idle h' /\ guard_page h' = Some 3%nat /\ heap_wf h' [Used 2; Free 1; Used 1; Free 4].
Proof.
  intros h. apply (vmm_heap_extend_wf 0 0 h [Used 2; Free 1] 1048576 16384);
    try (subst h; simpl; lia); try done.
  destruct (sample_wf [Used 2; Free 1]) as [A B C D F]; [blocks_ok_tac|simpl; lia|].
  split; [exact A|by eexists|exact C|exact D|exact F].
Defined.

(** [vmm_page_allocate_scattered] fills the array with the addresses of
    min(n, free pages) pairwise distinct pages, each a live one-page allocation
    afterwards and none of them part of an earlier one; the remaining entries are
    NULL and the count of pages is returned. *)
Theorem vmm_page_allocate_scattered_spec fuel cpu h bs n :
  heap_wf h bs -> heap_idle h -> 0 <= n ->
  exists pages h' bs',
    vmm_page_allocate_scattered (S fuel) cpu h n =
      Ok ((page_address h <$> (Z.of_nat <$> pages)) ++ replicate (Z.to_nat n - length pages) 0,
          Z.of_nat (length pages), h') /\
    length pages = (Z.to_nat n `min` free_pages bs)%nat /\ NoDup pages /\
    Forall (fun p => used_at bs' p 1 /\ real_page h (Z.of_nat p)) pages /\
    (forall q m, used_at bs q m -> used_at bs' q m /\ q ∉ pages) /\
    heap_wf h' bs' /\ heap_idle h'.
Proof.
  intros WF Hi Hn. apply wf_set_lock with (l := mk_lock 1 cpu) in WF.
  destruct (alloc_single_ok (Z.to_nat n) _ _ WF) as (ps & h' & bs' & E & WF' & S & ND & FA & K & L).
  exists ps, (set_lock h' LOCK_INIT_STATE), bs'. unfold vmm_page_allocate_scattered.
  rewrite acquire_free by by rewrite Hi. rewrite bind_Ok, E, bind_Ok.
  split_and!; [|done|done|done|done|by apply wf_set_lock|done].
  rewrite !length_fmap.
  by replace (Z.to_nat (n - Z.of_nat (length ps))) with (Z.to_nat n - length ps)%nat by lia.
Qed.

Lemma vmm_page_allocate_scattered_spec_witness :
  let h := sample [Free 1; Used 2; Free 2] in
  exists pages h' bs',
    vmm_page_allocate_scattered 1 0 h 5 =
      Ok ((page_address h <$> (Z.of_nat <$> pages)) ++ replicate (5 - length pages) 0,
          Z.of_nat (length pages), h') /\
    length pages = 3%nat /\ NoDup pages /\
    Forall (fun p => used_at bs' p 1 /\ real_page h (Z.of_nat p)) pages /\
    (forall q m, used_at [Free 1; Used 2; Free 2] q m -> used_at bs' q m /\ q ∉ pages) /\
    heap_wf h' bs' /\ heap_idle h'.
Proof.
  apply (vmm_page_allocate_scattered_spec 0 0 (sample [Free 1; Used 2; Free 2])
    [Free 1; Used 2; Free 2] 5).
  - apply sample_wf; [blocks_ok_tac|simpl; lia].
  - done.
  - lia.
Defined.

(** [vmm_memory_allocate] of size bytes returns NULL, or a live allocation of
    the pages that hold size bytes, all of them zeroed and the rest of memory
    unchanged. A size above 2^32 - 4096 rounds up to 0 and returns NULL. *)
Theorem vmm_memory_allocate_zeroed fuel cpu h bs m size :
  heap_wf h bs -> heap_idle h -> fits 32 size ->
  exists p h' m', vmm_memory_allocate (S fuel) cpu h m size = Ok (p, h', m') /\
    (size = 0 \/ 2 ^ 32 - 4096 < size -> p = 0) /\
    (p = 0 -> h' = h /\ m' = m) /\
    (p <> 0 ->
       let pages := (size + 4095) / 4096 in
       (forall a, m' a = if (p <=? a) && (a <? p + pages * 4096) then 0 else m a) /\
       exists pos bs', p = page_address h (Z.of_nat pos) /\ heap_wf h' bs' /\ heap_idle h' /\
         used_at bs' pos (Z.to_nat pages)).
Proof.
  intros WF Hi Hs. unfold fits in Hs. unfold vmm_memory_allocate.
  destruct (Z.eqb_spec size 0) as [->|Hnz]; [by exists 0, h, m|].
  rewrite round_up_u32 by lia. unfold PAGE_4KB_SIZE.
  destruct (Z.leb_spec size (2 ^ 32 - 4096)) as [Hle|Hgt].
  2: { change (0 / 4096) with 0. rewrite allocate_zero by done. rewrite bind_Ok. by exists 0, h, m. }
  rewrite Z.div_mul by lia.
  set (pages := (size + 4095) / 4096). assert (0 < pages) as Hp by (unfold pages; lia).
  destruct (first_fit (Z.to_nat pages) bs) as [[pos bs']|] eqn:F.
  - destruct (allocate_some fuel cpu h bs pages pos bs' WF Hi Hp F) as (R & _ & h' & -> & WF' & Hi' & _).
    pose proof (page_to_pointer h _ (wf_geometry _ _ WF) R) as (_ & Hr & _).
    rewrite bind_Ok. do 3 eexists. split; [done|]. split; [lia|]. split; [intros; exfalso; lia|].
    intros _. split; [|exists pos, bs'; split_and!; [done..|by eapply first_fit_used]].
    intros a. rewrite (proj2 (Z.eqb_neq _ _)) by lia. done.
  - rewrite (allocate_none fuel cpu h bs pages WF Hi Hp F), bind_Ok. by exists 0, h, m.
Qed.

Lemma vmm_memory_allocate_zeroed_witness :
  let h := sample [Used 1; Free 3] in
  let m : memory := fun _ => 7 in
  exists p h' m', vmm_memory_allocate 1 0 h m 5000 = Ok (p, h', m') /\
    (5000 = 0 \/ 2 ^ 32 - 4096 < 5000 -> p = 0) /\
    (p = 0 -> h' = h /\ m' = m) /\
    (p <> 0 ->
       let pages := (5000 + 4095) / 4096 in
       (forall a, m' a = if (p <=? a) && (a <? p + pages * 4096) then 0 else m a) /\
       exists pos bs', p = page_address h (Z.of_nat pos) /\ heap_wf h' bs' /\ heap_idle h' /\
         used_at bs' pos (Z.to_nat pages)).
Proof.
  apply (vmm_memory_allocate_zeroed 0 0 (sample [Used 1; Free 3]) [Used 1; Free 3] (fun _ => 7) 5000).
  - apply sample_wf; [blocks_ok_tac|simpl; lia].
  - done.
  - unfold fits. lia.
Defined.

(** Releasing a page that does not start a live allocation (a double free, or a
    pointer into the middle of a buffer) returns with the heap lock held: every
    later allocation or release of a heap address, by any CPU, spins forever. *)
Theorem vmm_page_free_leaks_lock fuel cpu h address x :
  heap_idle h -> heap_address_ok h address = true ->
  rd (descs h) (HEAP_POINTER_TO_PAGE h address) = Ok x ->
  in_use x = false \/ number_of_pages x = 0 ->
  exists h', vmm_page_free (S fuel) cpu h address = Ok h' /\ descs h' = descs h /\
    forall fuel' cpu', (forall n, vmm_page_allocate fuel' cpu' h' n = Spin) /\
      (forall a, heap_address_ok h a = true -> vmm_page_free fuel' cpu' h' a = Spin).
Proof.
  intros Hi Ha Hx Hn. exists (set_lock h (mk_lock 1 cpu)).
  unfold vmm_page_free at 1. rewrite Ha. simpl negb. rewrite acquire_free by by rewrite Hi.
  rewrite bind_Ok.
  change (HEAP_POINTER_TO_PAGE (set_lock h (mk_lock 1 cpu))) with (HEAP_POINTER_TO_PAGE h).
  simpl. rewrite Hx, bind_Ok. split; [by destruct Hn as [->| ->]; rewrite ?orb_true_r|].
  split; [done|]. intros fuel' cpu'. split.
  - intros n. unfold vmm_page_allocate. by rewrite acquire_held.
  - intros a E. unfold vmm_page_free.
    change (heap_address_ok (set_lock h (mk_lock 1 cpu)) a) with (heap_address_ok h a).
    rewrite E. by rewrite acquire_held.
Qed.

Lemma vmm_page_free_leaks_lock_witness :
  let h := sample [Used 1; Free 3] in
  exists h', vmm_page_free 1 0 h 69632 = Ok h' /\ descs h' = descs h /\
    forall fuel' cpu', (forall n, vmm_page_allocate fuel' cpu' h' n = Spin) /\
      (forall a, heap_address_ok h a = true -> vmm_page_free fuel' cpu' h' a = Spin).
Proof.
  apply (vmm_page_free_leaks_lock 0 0 (sample [Used 1; Free 3]) 69632 (mk_desc 3 false)).
  - done.
  - done.
  - done.
  - by left.
Defined.

(** Without a reserve for an extension (g_heap_pa_num = 0) the capacity computed
    by [vmm_heap_initialize] can be one descriptor short: on a page-aligned buffer
    of 1026 pages the initialisation writes the last descriptor into the first
    heap page. *)
Theorem vmm_heap_initialize_overflow :
  vmm_heap_initialize 0 (fun _ => mk_desc 0 false) heap_zero 1048576 (1026 * 4096) = Fault.
Proof. vm_compute. reflexivity. Qed.

(** The reserve does not count the guard page: initialising a page-aligned
    buffer of 1024 pages with one announced page of extension, and then extending
    by that page, writes a descriptor into the first heap page. *)
Theorem vmm_heap_extend_overflow :
  (r ← vmm_heap_initialize 1 (fun _ => mk_desc 0 false) heap_zero 1048576 (1024 * 4096);
   vmm_heap_extend 1 0 r.2 16777216 4096) = Fault.
Proof. vm_compute. reflexivity. Qed.

(** The range check of [vmm_page_free] accepts the address just past the initial
    buffer, which maps to the guard page. Once the guard is released, a later
    allocation runs across the two buffers: it returns the 2-page initial buffer
    for a request of 5 pages. *)
Theorem vmm_page_free_releases_guard :
  let h := mk_heap 32768 (layout [Free 2; Used 1; Free 2]) 65536 5 65536 LOCK_INIT_STATE
             2 1048576 3 2 0 in
  heap_wf h [Free 2; Used 1; Free 2] /\ guard_page h = Some 2%nat /\
  exists h1 h2, vmm_page_free 1 0 h (heap_base h + heap_pages h * 4096) = Ok h1 /\
    vmm_page_allocate 1 0 h1 5 = Ok (heap_base h, h2).
Proof.
  split.
  - split; simpl; [blocks_ok_tac|by exists []|done| |].
    + split; [unfold base_range|right; unfold is_extended]; simpl; lia.
    + intros _. by exists [Free 2], [Free 2].
  - split; [done|]. do 2 eexists. split.
    + vm_compute. reflexivity.
    + vm_compute. reflexivity.
Qed.
