(* ===== verification/Hash64.v ===== *)
(** utils/hash64.c and hash64.h: the chained hash table of 64-bit keys and values.

    Nodes live in a store ([nodes]), a pointer is their address and NULL is 0; an
    access to an address without a node (NULL, never allocated or already
    released) faults, so the theorems also show that no operation uses a node
    after it is freed. The function pointers a table is created with are fields
    of the table, as in the source; they act on the allocator state [A]. *)

From S2P Require Import Prelude VmmDefs.

(** * Data *)

Record HASH64_NODE := mk_node { next : Z; key : Z; value : Z }.

(** What the table needs of its environment: the heap's allocation routines and
    the content of memory that was just allocated. *)
Class MemoryServices (A : Type) := {
  vmm_memory_alloc : Z -> A -> Z * A;
  vmm_memory_free : Z -> A -> A;
  uninit_node : Z -> HASH64_NODE;
  uninit_cell : nat -> Z
}.

(** [array] is the address of the cells, [cells] their content. *)
Record HASH64_TABLE (A : Type) := mk_table {
  self : Z;
  array : Z;
  cells : list Z;
  hash_func : Z -> Z -> Z;
  mem_alloc_func : option (Z -> A -> Z * A);
  mem_dealloc_func : option (Z -> A -> A);
  node_alloc_func : Z -> A -> Z * A;
  node_dealloc_func : Z -> Z -> A -> A;
  node_allocation_deallocation_context : Z;
  hash_size : Z;
  element_count : Z;
  is_multiple_values_hash : bool
}.
Arguments mk_table {A}.
Arguments self {A}.
Arguments array {A}.
Arguments cells {A}.
Arguments hash_func {A}.
Arguments mem_alloc_func {A}.
Arguments mem_dealloc_func {A}.
Arguments node_alloc_func {A}.
Arguments node_dealloc_func {A}.
Arguments node_allocation_deallocation_context {A}.
Arguments hash_size {A}.
Arguments element_count {A}.
Arguments is_multiple_values_hash {A}.

(** The node store and the allocator. *)
Record world (A : Type) := mk_world { nodes : gmap Z HASH64_NODE; alloc_state : A }.
Arguments mk_world {A}.
Arguments nodes {A}.
Arguments alloc_state {A}.

Section Operations.
Context {A : Type} `{MemoryServices A}.
Implicit Types (t : HASH64_TABLE A) (w : world A).

Definition set_cells t (c : list Z) : HASH64_TABLE A :=
  mk_table (self t) (array t) c (hash_func t) (mem_alloc_func t) (mem_dealloc_func t)
    (node_alloc_func t) (node_dealloc_func t) (node_allocation_deallocation_context t)
    (hash_size t) (element_count t) (is_multiple_values_hash t).
Definition set_array t (a : Z) (c : list Z) (size : Z) : HASH64_TABLE A :=
  mk_table (self t) a c (hash_func t) (mem_alloc_func t) (mem_dealloc_func t)
    (node_alloc_func t) (node_dealloc_func t) (node_allocation_deallocation_context t)
    size (element_count t) (is_multiple_values_hash t).
Definition set_count t (n : Z) : HASH64_TABLE A :=
  mk_table (self t) (array t) (cells t) (hash_func t) (mem_alloc_func t) (mem_dealloc_func t)
    (node_alloc_func t) (node_dealloc_func t) (node_allocation_deallocation_context t)
    (hash_size t) n (is_multiple_values_hash t).

Definition hash64_inc_element_count t := set_count t (element_count t ⊕₃₂ 1).
Definition hash64_dec_element_count t := set_count t (element_count t ⊖₃₂ 1).

(** Reading and writing the fields of a node. *)
Definition get_node (m : gmap Z HASH64_NODE) (p : Z) : outcome HASH64_NODE :=
  match m !! p with Some n => Ok n | None => Fault end.
Definition hash64_node_set_next (m : gmap Z HASH64_NODE) (p q : Z) : outcome (gmap Z HASH64_NODE) :=
  n ← get_node m p; Ok (<[p := mk_node q (key n) (value n)]> m).
Definition hash64_node_set_key (m : gmap Z HASH64_NODE) (p k : Z) : outcome (gmap Z HASH64_NODE) :=
  n ← get_node m p; Ok (<[p := mk_node (next n) k (value n)]> m).
Definition hash64_node_set_value (m : gmap Z HASH64_NODE) (p v : Z) : outcome (gmap Z HASH64_NODE) :=
  n ← get_node m p; Ok (<[p := mk_node (next n) (key n) v]> m).

(** * Allocation *)

(** A node the allocator returns becomes part of the store, with arbitrary content. *)
Definition hash64_allocate_node t w : Z * world A :=
  let '(p, a) := node_alloc_func t (node_allocation_deallocation_context t) (alloc_state w) in
  (p, mk_world (if p =? 0 then nodes w else <[p := uninit_node p]> (nodes w)) a).

Definition hash64_free_node t (data : Z) w : world A :=
  mk_world (delete data (nodes w))
    (node_dealloc_func t (node_allocation_deallocation_context t) data (alloc_state w)).

(** The size is passed as UINT32. *)
Definition call_mem_alloc (f : option (Z -> A -> Z * A)) (size : Z) (a : A) : Z * A :=
  match f with None => vmm_memory_alloc (u32 size) a | Some g => g (u32 size) a end.
Definition call_mem_free (f : option (Z -> A -> A)) (data : Z) (a : A) : A :=
  match f with None => vmm_memory_free data a | Some g => g data a end.

Definition hash64_mem_alloc t (size : Z) w : Z * world A :=
  let '(p, a) := call_mem_alloc (mem_alloc_func t) size (alloc_state w) in
  (p, mk_world (nodes w) a).
Definition hash64_mem_free t (data : Z) w : world A :=
  mk_world (nodes w) (call_mem_free (mem_dealloc_func t) data (alloc_state w)).

(** The cells that fit in an allocation of [8 * size] bytes, truncated to 32 bits. *)
Definition new_cells (size : Z) : list Z :=
  uninit_cell <$> seq 0 (Z.to_nat (u32 (8 * size) / 8)).
Definition clear_cells (size : Z) (c : list Z) : outcome (list Z) :=
  for_range 0 size (fun i c => wr c i 0) c.

(** * Lookup *)

(** [while (node != NULL)]: a chain longer than the store is a cycle. *)
Fixpoint find_from (fuel : nat) (m : gmap Z HASH64_NODE) (node k : Z) : outcome Z :=
  if node =? 0 then Ok 0
  else
    match fuel with
    | O => Spin
    | S fuel' =>
        n ← get_node m node;
        if key n =? k then Ok node else find_from fuel' m (next n) k
    end.

Definition hash64_retrieve_appropriate_array_cell t (k : Z) : Z :=
  hash_func t k (hash_size t).

Definition hash64_find t (m : gmap Z HASH64_NODE) (k : Z) : outcome Z :=
  node ← rd (cells t) (hash64_retrieve_appropriate_array_cell t k);
  find_from (size m) m node k.

Definition hash64_lookup (hash : option (HASH64_TABLE A)) w (k : Z) : outcome (option Z) :=
  match hash with
  | None => Ok None
  | Some t =>
      node ← hash64_find t (nodes w) k;
      if node =? 0 then Ok None
      else n ← get_node (nodes w) node; Ok (Some (value n))
  end.

(** * Insertion *)

(** The assertions call [hash64_find] and drop its result. *)
Definition hash64_insert_internal t w (k v : Z) (update_when_found : bool)
  : outcome (bool * HASH64_TABLE A * world A) :=
  found ← hash64_find t (nodes w) k;
  let node := if update_when_found then found else 0 in
  if node =? 0 then
    let '(node, w) := hash64_allocate_node t w in
    if node =? 0 then Ok (false, t, w)
    else
      let c := hash64_retrieve_appropriate_array_cell t k in
      head ← rd (cells t) c;
      m ← hash64_node_set_next (nodes w) node head;
      cells' ← wr (cells t) c node;
      m ← hash64_node_set_key m node k;
      let t := hash64_inc_element_count (set_cells t cells') in
      m ← hash64_node_set_value m node v;
      _ ← hash64_find t m k;
      Ok (true, t, mk_world m (alloc_state w))
  else
    m ← hash64_node_set_value (nodes w) node v;
    _ ← hash64_find t m k;
    Ok (true, t, mk_world m (alloc_state w)).

Definition with_handle (hash : option (HASH64_TABLE A)) w
  (f : HASH64_TABLE A -> outcome (bool * HASH64_TABLE A * world A))
  : outcome (bool * option (HASH64_TABLE A) * world A) :=
  match hash with
  | None => Ok (false, None, w)
  | Some t => r ← f t; Ok (r.1.1, Some r.1.2, r.2)
  end.

Definition hash64_insert (hash : option (HASH64_TABLE A)) w (k v : Z) :=
  with_handle hash w (fun t => hash64_insert_internal t w k v false).
Definition hash64_update (hash : option (HASH64_TABLE A)) w (k v : Z) :=
  with_handle hash w (fun t => hash64_insert_internal t w k v true).

(** * Removal *)

(** The loop over the nodes after the first one: [node] is the previous node. *)
Fixpoint remove_after (fuel : nat) t w (node k : Z) : outcome (bool * HASH64_TABLE A * world A) :=
  if node =? 0 then Ok (false, t, w)
  else
    match fuel with
    | O => Spin
    | S fuel' =>
        n ← get_node (nodes w) node;
        if next n =? 0 then remove_after fuel' t w (next n) k
        else
          n' ← get_node (nodes w) (next n);
          if key n' =? k then
            m ← hash64_node_set_next (nodes w) node (next n');
            _ ← hash64_find t m k;
            Ok (true, hash64_dec_element_count t,
                hash64_free_node t (next n) (mk_world m (alloc_state w)))
          else remove_after fuel' t w (next n) k
    end.

Definition hash64_remove (hash : option (HASH64_TABLE A)) w (k : Z) :=
  with_handle hash w (fun t =>
    _ ← hash64_find t (nodes w) k;
    let c := hash64_retrieve_appropriate_array_cell t k in
    node ← rd (cells t) c;
    if node =? 0 then Ok (false, t, w)
    else
      n ← get_node (nodes w) node;
      if key n =? k then
        cells' ← wr (cells t) c (next n);
        let t := set_cells t cells' in
        _ ← hash64_find t (nodes w) k;
        Ok (true, hash64_dec_element_count t, hash64_free_node t node w)
      else remove_after (size (nodes w)) t w node k).

Definition hash64_is_empty (hash : option (HASH64_TABLE A)) : bool :=
  match hash with None => false | Some t => element_count t =? 0 end.
Definition hash64_get_num_of_elements t : Z := element_count t.

(** * Resizing *)

(** Move the nodes of one chain to the cells of the (already resized) table. *)
Fixpoint rehash_chain (fuel : nat) t (m : gmap Z HASH64_NODE) (node : Z)
  : outcome (HASH64_TABLE A * gmap Z HASH64_NODE) :=
  if node =? 0 then Ok (t, m)
  else
    match fuel with
    | O => Spin
    | S fuel' =>
        n ← get_node m node;
        let c := hash64_retrieve_appropriate_array_cell t (key n) in
        head ← rd (cells t) c;
        m ← hash64_node_set_next m node head;
        cells' ← wr (cells t) c node;
        rehash_chain fuel' (set_cells t cells') m (next n)
    end.

(** The outer loop; each cell of the old array is cleared after its chain moved. *)
Definition rehash_cell (i : Z) (s : HASH64_TABLE A * gmap Z HASH64_NODE * list Z)
  : outcome (HASH64_TABLE A * gmap Z HASH64_NODE * list Z) :=
  let '(t, m, old) := s in
  node ← rd old i;
  r ← rehash_chain (size m) t m node;
  old' ← wr old i 0;
  Ok (r.1, r.2, old').

Definition hash64_change_size_and_rehash (hash : option (HASH64_TABLE A)) w (new_size : Z) :=
  with_handle hash w (fun t =>
    let '(new_array, w) := hash64_mem_alloc t (8 * new_size) w in
    if new_array =? 0 then Ok (false, t, w)
    else
      cells' ← clear_cells new_size (new_cells new_size);
      let t' := set_array t new_array cells' new_size in
      s ← for_range 0 (hash_size t) rehash_cell (t', nodes w, cells t);
      let '(t'', m, _) := s in
      Ok (true, t'', hash64_mem_free t'' (array t) (mk_world m (alloc_state w)))).

(** * Creation and destruction *)

(** sizeof(HASH64_TABLE). *)
Definition TABLE_SIZE : Z := 72.

Definition hash64_create_hash_internal (hash_func : Z -> Z -> Z)
  (mem_alloc : option (Z -> A -> Z * A)) (mem_dealloc : option (Z -> A -> A))
  (node_alloc : Z -> A -> Z * A) (node_dealloc : Z -> Z -> A -> A) (context : Z)
  (size : Z) (is_multi : bool) w : outcome (option (HASH64_TABLE A) * world A) :=
  let '(hash, a) := call_mem_alloc mem_alloc TABLE_SIZE (alloc_state w) in
  if hash =? 0 then Ok (None, mk_world (nodes w) a)
  else
    let '(arr, a) := call_mem_alloc mem_alloc (8 * size) a in
    if arr =? 0 then Ok (None, mk_world (nodes w) (call_mem_free mem_dealloc hash a))
    else
      cells' ← clear_cells size (new_cells size);
      Ok (Some (mk_table hash arr cells' hash_func mem_alloc mem_dealloc node_alloc node_dealloc
                  context size 0 is_multi),
          mk_world (nodes w) a).

Definition hash64_create_hash hash_func mem_alloc mem_dealloc node_alloc node_dealloc context size w :=
  hash64_create_hash_internal hash_func mem_alloc mem_dealloc node_alloc node_dealloc context
    size false w.

(** [key % size] on a 64-bit key; the divisor must not be 0. *)
Definition hash64_default_hash_func (k size : Z) : Z := u32 (k mod size).
Definition hash64_get_node_size : Z := 24.
Definition hash64_default_node_alloc_func (context : Z) (a : A) : Z * A :=
  vmm_memory_alloc hash64_get_node_size a.
Definition hash64_default_node_dealloc_func (context data : Z) (a : A) : A :=
  vmm_memory_free data a.
Definition hash64_create_default_hash (size : Z) w :=
  hash64_create_hash hash64_default_hash_func None None hash64_default_node_alloc_func
    hash64_default_node_dealloc_func 0 size w.

(** Release the nodes of an inner list (the values of one key). *)
Fixpoint destroy_inner (fuel : nat) t w (node : Z) : outcome (world A) :=
  if node =? 0 then Ok w
  else
    match fuel with
    | O => Spin
    | S fuel' =>
        n ← get_node (nodes w) node;
        destroy_inner fuel' t (hash64_free_node t node w) (next n)
    end.

Fixpoint destroy_chain (fuel : nat) t w (node : Z) : outcome (HASH64_TABLE A * world A) :=
  if node =? 0 then Ok (t, w)
  else
    match fuel with
    | O => Spin
    | S fuel' =>
        n ← get_node (nodes w) node;
        w ← (if is_multiple_values_hash t
             then destroy_inner (size (nodes w)) t w (value n) else Ok w);
        destroy_chain fuel' (hash64_dec_element_count t) (hash64_free_node t node w) (next n)
    end.

(** [for (i = 0; i < size; i++)]: the loop stops when the element count is 0. *)
Fixpoint destroy_cells (n : nat) (i : Z) t w : outcome (HASH64_TABLE A * world A) :=
  match n with
  | O => Ok (t, w)
  | S n' =>
      node ← rd (cells t) i;
      if element_count t =? 0 then Ok (t, w)
      else
        r ← destroy_chain (size (nodes w)) t w node;
        destroy_cells n' (i + 1) r.1 r.2
  end.

Definition hash64_destroy_hash_internal t w : outcome (world A) :=
  r ← destroy_cells (Z.to_nat (hash_size t)) 0 t w;
  Ok (hash64_mem_free t (self t) (hash64_mem_free t (array t) r.2)).

Definition hash64_destroy_hash t w := hash64_destroy_hash_internal t w.

End Operations.

(** * What a table promises *)

(** An entry of the table: where its node is, and what the node holds. *)
Record entry := mk_entry { ptr : Z; ek : Z; ev : Z }.

(** The nodes from [p] are the entries [l], in this order. *)
Fixpoint chain (m : gmap Z HASH64_NODE) (p : Z) (l : list entry) : Prop :=
  match l with
  | [] => p = 0
  | e :: l' =>
      p = ptr e /\ p <> 0 /\ exists q, m !! p = Some (mk_node q (ek e) (ev e)) /\ chain m q l'
  end.

(** Every entry is in the bucket its key hashes to; the buckets are numbered from [n]. *)
Fixpoint hashed (h : Z -> Z) (n : nat) (bks : list (list entry)) : Prop :=
  match bks with
  | [] => True
  | l :: bks' => Forall (fun e => h (ek e) = Z.of_nat n) l /\ hashed h (S n) bks'
  end.

(** The finite map a list of buckets stands for. *)
Definition contents (bks : list (list entry)) : gmap Z Z :=
  list_to_map ((fun e => (ek e, ev e)) <$> concat bks).

Record table_rep {A} (t : HASH64_TABLE A) (m : gmap Z HASH64_NODE) (bks : list (list entry)) : Prop := {
  rep_size : 0 < hash_size t < 2 ^ 32 /\ Z.of_nat (length (cells t)) = hash_size t;
  rep_chains : Forall2 (chain m) (cells t) bks;
  rep_ptrs : NoDup (ptr <$> concat bks);
  rep_keys : NoDup (ek <$> concat bks);
  rep_hashed : hashed (fun k => hash_func t k (hash_size t)) 0 bks;
  rep_count : element_count t = Z.of_nat (length (concat bks)) /\ fits 32 (element_count t)
}.

(** What a table relies on: the hash function's result is below the number of
    cells (hash64_api.h), and the allocators hand out addresses that are not in
    use ([live]) and keep the others in use until they are released. *)
Class TableFunctions {A} `{MemoryServices A} (live : A -> gset Z) (t : HASH64_TABLE A) := {
  hash_in_range : forall k n, 0 < n < 2 ^ 32 -> 0 <= hash_func t k n < n;
  node_alloc_fresh : forall c a p a', node_alloc_func t c a = (p, a') ->
    live a ⊆ live a' /\ (p <> 0 -> (p ∉ live a) /\ p ∈ live a');
  node_free_others : forall c p a, (live a ∖ {[p]}) ⊆ live (node_dealloc_func t c p a);
  mem_alloc_fresh : forall n a p a', call_mem_alloc (mem_alloc_func t) n a = (p, a') ->
    live a ⊆ live a' /\ (p <> 0 -> (p ∉ live a) /\ p ∈ live a');
  mem_free_others : forall p a, (live a ∖ {[p]}) ⊆ live (call_mem_free (mem_dealloc_func t) p a)
}.

(** The table [t] holds the map [M]; [fp] are the addresses of its nodes. Every node
    of the store, and the array, is in use by the allocator's account. *)
Record table_ok {A} (live : A -> gset Z) (t : HASH64_TABLE A) (w : world A)
  (fp : gset Z) (M : gmap Z Z) : Prop := {
  ok_rep : exists bks, table_rep t (nodes w) bks /\ M = contents bks /\
             fp = list_to_set (ptr <$> concat bks);
  ok_live : dom (nodes w) ⊆ live (alloc_state w);
  ok_array : array t ∈ live (alloc_state w) /\ array t ∉ dom (nodes w)
}.

(** Nodes that are not the table's keep their content. *)
Definition frame {A} (fp : gset Z) (w w' : world A) : Prop :=
  forall q, q ∈ dom (nodes w) -> q ∉ fp -> nodes w' !! q = nodes w !! q.

(** * Lemmas on chains *)

Lemma chain_frame m m' p l : chain m p l -> (forall e, e ∈ l -> m' !! ptr e = m !! ptr e) ->
  chain m' p l.
Proof.
  revert p. induction l as [|e l IH]; intros p Hc Hm; [done|].
  destruct Hc as (-> & Hz & q & Hq & Hc). split_and!; [done..|]. exists q.
  split; [rewrite Hm by left; done|]. apply IH; [done|]. intros. apply Hm. by right.
Qed.

Lemma chains_frame m m' cs bks : Forall2 (chain m) cs bks ->
  (forall e, e ∈ concat bks -> m' !! ptr e = m !! ptr e) -> Forall2 (chain m') cs bks.
Proof.
  induction 1 as [|c l cs bks Hc _ IH]; intros Hm; constructor.
  - apply (chain_frame m); [done|]. intros e He. apply Hm. apply elem_of_app. by left.
  - apply IH. intros e He. apply Hm. apply elem_of_app. by right.
Qed.

Lemma chain_elem m p l e : chain m p l -> e ∈ l ->
  ptr e <> 0 /\ exists q, m !! ptr e = Some (mk_node q (ek e) (ev e)).
Proof.
  revert p. induction l as [|a l IH]; intros p Hc He; [by apply not_elem_of_nil in He|].
  destruct Hc as (-> & Hz & q & Hq & Hc). apply elem_of_cons in He as [->|He]; [eauto|].
  by apply (IH q).
Qed.

Lemma chains_elem m cs bks e : Forall2 (chain m) cs bks -> e ∈ concat bks ->
  ptr e <> 0 /\ exists q, m !! ptr e = Some (mk_node q (ek e) (ev e)).
Proof.
  induction 1 as [|c l cs bks Hc _ IH]; simpl; [by intros ?%not_elem_of_nil|].
  intros [He|He]%elem_of_app; [by eapply chain_elem|by apply IH].
Qed.

Lemma chain_length m p l : chain m p l -> NoDup (ptr <$> l) -> (length l <= size m)%nat.
Proof.
  intros Hc Hn. rewrite <- (length_fmap ptr), <- (size_list_to_set (C := gset Z)) by done.
  rewrite <- (size_dom m). apply subseteq_size. intros x Hx.
  apply elem_of_list_to_set, list_elem_of_fmap in Hx as (e & -> & He).
  destruct (chain_elem m p l e Hc He) as (_ & q & Hq). by apply elem_of_dom_2 in Hq.
Qed.

(** The first entry of a bucket with a given key. *)
Fixpoint assoc (k : Z) (l : list entry) : option entry :=
  match l with
  | [] => None
  | e :: l' => if ek e =? k then Some e else assoc k l'
  end.

Lemma assoc_some k l e : assoc k l = Some e ->
  exists l1 l2, l = l1 ++ e :: l2 /\ ek e = k /\ Forall (fun x => ek x <> k) l1.
Proof.
  induction l as [|x l IH]; simpl; [done|]. destruct (Z.eqb_spec (ek x) k).
  - intros [= ->]. by exists [], l.
  - intros (l1 & l2 & -> & Hk & Hf)%IH. exists (x :: l1), l2. split_and!; [done..|].
    by constructor.
Qed.

Lemma assoc_none k l : assoc k l = None <-> k ∉ ek <$> l.
Proof.
  induction l as [|x l IH]; simpl; [split; [intros _; apply not_elem_of_nil|done]|].
  rewrite not_elem_of_cons. destruct (Z.eqb_spec (ek x) k); [|rewrite IH]; intuition congruence.
Qed.

Definition node_of (o : option entry) : Z := match o with Some e => ptr e | None => 0 end.

Lemma find_from_spec fuel m p l k : chain m p l -> (length l <= fuel)%nat ->
  find_from fuel m p k = Ok (node_of (assoc k l)).
Proof.
  revert fuel p. induction l as [|e l IH]; intros fuel p Hc Hl.
  { simpl in Hc. subst p. by destruct fuel. }
  destruct Hc as (-> & Hz & q & Hq & Hc). destruct fuel as [|fuel]; [simpl in Hl; lia|]. simpl.
  rewrite (proj2 (Z.eqb_neq _ _)) by done. unfold get_node. rewrite Hq, bind_Ok. simpl.
  destruct (ek e =? k); [done|]. apply IH; [done|]. simpl in Hl. lia.
Qed.

(** * Lemmas on buckets *)

Lemma hashed_app h n b1 b2 :
  hashed h n (b1 ++ b2) <-> hashed h n b1 /\ hashed h (n + length b1) b2.
Proof.
  revert n. induction b1 as [|l b1 IH]; intros n; simpl; [rewrite Nat.add_0_r; tauto|].
  rewrite IH, Nat.add_succ_r. tauto.
Qed.

Lemma hashed_bound h n bks e : hashed h n bks -> e ∈ concat bks ->
  Z.of_nat n <= h (ek e) < Z.of_nat (n + length bks).
Proof.
  revert n. induction bks as [|l bks IH]; intros n; simpl; [by intros _ ?%not_elem_of_nil|].
  intros [Hl Hb] [He|He]%elem_of_app.
  - rewrite Forall_forall in Hl. rewrite (Hl e He). lia.
  - specialize (IH _ Hb He). lia.
Qed.

Lemma concat_split (b1 b2 : list (list entry)) l :
  concat (b1 ++ l :: b2) = concat b1 ++ l ++ concat b2.
Proof. rewrite concat_app. done. Qed.

(** Moving one entry to the front of the list of all entries. *)
Lemma concat_perm (b1 b2 : list (list entry)) l1 l2 e :
  concat (b1 ++ (l1 ++ e :: l2) :: b2) ≡ₚ e :: concat (b1 ++ (l1 ++ l2) :: b2).
Proof.
  rewrite !concat_split, <- !app_assoc. simpl. rewrite <- Permutation_middle.
  rewrite <- Permutation_middle. done.
Qed.

Lemma contents_perm b e b' : NoDup (ek <$> concat b) -> concat b ≡ₚ e :: concat b' ->
  contents b = <[ek e := ev e]> (contents b') /\ contents b' !! ek e = None /\
  NoDup (ek <$> concat b').
Proof.
  intros Hn P. assert (NoDup (ek <$> e :: concat b')) as Hn' by by rewrite <- P.
  simpl in Hn'. apply NoDup_cons in Hn' as [Hni Hn']. unfold contents.
  split; [|split; [|done]].
  - rewrite (list_to_map_proper _ ((fun e => (ek e, ev e)) <$> e :: concat b')); [done| |by rewrite P].
    rewrite <- list_fmap_compose. done.
  - apply not_elem_of_list_to_map_1. by rewrite <- list_fmap_compose.
Qed.

Lemma contents_same b b' : NoDup (ek <$> concat b) -> concat b ≡ₚ concat b' -> contents b = contents b'.
Proof.
  intros Hn P. unfold contents. apply list_to_map_proper; [|by rewrite P].
  by rewrite <- list_fmap_compose.
Qed.

Lemma contents_none b k : contents b !! k = None <-> k ∉ ek <$> concat b.
Proof.
  unfold contents. rewrite <- not_elem_of_list_to_map. by rewrite <- list_fmap_compose.
Qed.

Lemma contents_size b : NoDup (ek <$> concat b) -> size (contents b) = length (concat b).
Proof.
  intros Hn. unfold contents. rewrite map_size_list_to_map; [by rewrite length_fmap|].
  by rewrite <- list_fmap_compose.
Qed.

Lemma nodup_frame (b1 b2 : list (list entry)) l1 l2 e x :
  NoDup (ptr <$> concat (b1 ++ (l1 ++ e :: l2) :: b2)) ->
  x ∈ concat (b1 ++ (l1 ++ l2) :: b2) -> ptr x <> ptr e.
Proof.
  rewrite (concat_perm b1 b2 l1 l2 e). intros [Hn _]%NoDup_cons Hx E. apply Hn.
  rewrite <- E. by apply list_elem_of_fmap_2.
Qed.

(** The bucket of a key, inside the table. *)
Section Bucket.
Context {A : Type} `{MemoryServices A} (live : A -> gset Z) (t : HASH64_TABLE A).
Context {TF : TableFunctions live t}.

Lemma rep_bucket m bks k : table_rep t m bks ->
  exists c1 c c2 b1 l b2, cells t = c1 ++ c :: c2 /\ bks = b1 ++ l :: b2 /\
    Z.of_nat (length c1) = hash64_retrieve_appropriate_array_cell t k /\ length b1 = length c1 /\
    Forall2 (chain m) c1 b1 /\ chain m c l /\ Forall2 (chain m) c2 b2 /\
    (k ∈ ek <$> concat bks -> k ∈ ek <$> l).
Proof using TF.
  intros [[Hs Hl] HC _ _ HH _]. pose proof (hash_in_range k (hash_size t) Hs) as Hr.
  destruct (lookup_lt_is_Some_2 (cells t) (Z.to_nat (hash_func t k (hash_size t)))) as [c Hc]; [lia|].
  apply list_elem_of_split_length in Hc as (c1 & c2 & Ec & Lc). rewrite Ec in HC.
  apply Forall2_app_inv_l in HC as (b1 & b' & H1 & H2 & ->).
  inversion H2 as [|? l ? b2 Hcl H3 E1 E2]. subst. exists c1, c, c2, b1, l, b2.
  pose proof (Forall2_length _ _ _ H1) as L1.
  unfold hash64_retrieve_appropriate_array_cell. split_and!; [done|done|lia|done..|].
  apply hashed_app in HH as [HH1 [_ HH2]].
  rewrite concat_split, !fmap_app, !elem_of_app.
  intros [(e & -> & He)%list_elem_of_fmap|[?|(e & -> & He)%list_elem_of_fmap]]; [|done|];
    [pose proof (hashed_bound _ _ _ _ HH1 He)|pose proof (hashed_bound _ _ _ _ HH2 He)]; simpl in *; lia.
Qed.

Lemma rd_cell (c1 c2 : list Z) c k : cells t = c1 ++ c :: c2 ->
  Z.of_nat (length c1) = hash64_retrieve_appropriate_array_cell t k ->
  rd (cells t) (hash64_retrieve_appropriate_array_cell t k) = Ok c.
Proof. intros -> <-. apply rd_ok; [lia|]. apply lookup_middle_eq. lia. Qed.

Lemma wr_cell (c1 c2 : list Z) c c' k : cells t = c1 ++ c :: c2 ->
  Z.of_nat (length c1) = hash64_retrieve_appropriate_array_cell t k ->
  wr (cells t) (hash64_retrieve_appropriate_array_cell t k) c' = Ok (c1 ++ c' :: c2).
Proof.
  intros -> <-. rewrite wr_ok by (rewrite length_app; simpl; lia).
  f_equal. apply insert_middle_eq. lia.
Qed.

Lemma nodup_bucket (b1 b2 : list (list entry)) l :
  NoDup (ptr <$> concat (b1 ++ l :: b2)) -> NoDup (ptr <$> l).
Proof.
  rewrite concat_split, !fmap_app. intros (_ & _ & Hn)%NoDup_app. by apply NoDup_app in Hn as [? _].
Qed.

(** [hash64_find] returns the node of the key, or NULL when the key is absent. *)
Lemma hash64_find_ok m bks k : table_rep t m bks ->
  exists o, hash64_find t m k = Ok (node_of o) /\
    match o with
    | None => k ∉ ek <$> concat bks
    | Some e => ptr e <> 0 /\ ek e = k /\ (exists q, m !! ptr e = Some (mk_node q k (ev e))) /\
        exists b1 l1 l2 b2, bks = b1 ++ (l1 ++ e :: l2) :: b2
    end.
Proof using TF.
  intros R. destruct (rep_bucket m bks k R)
    as (c1 & c & c2 & b1 & l & b2 & Ec & -> & Hi & _ & _ & Hc & _ & Hk).
  exists (assoc k l). unfold hash64_find. rewrite (rd_cell c1 c2 c k Ec Hi), bind_Ok.
  rewrite (find_from_spec _ _ _ l).
  2: done.
  2: { apply (chain_length m c); [done|]. by eapply nodup_bucket, rep_ptrs. }
  split; [done|]. destruct (assoc k l) as [e|] eqn:E.
  - apply assoc_some in E as (l1 & l2 & -> & <- & _).
    destruct (chain_elem m c _ e Hc) as (? & q & Hq); [apply elem_of_app; right; left|].
    split_and!; [done..|by exists q|]. by exists b1, l1, l2, b2.
  - apply assoc_none in E. auto.
Qed.

End Bucket.

(** * The operations keep the representation *)

#[global] Instance table_functions_cells {A} `{MemoryServices A} live (t : HASH64_TABLE A) c :
  TableFunctions live t -> TableFunctions live (set_cells t c).
Proof. intros [? ? ? ? ?]. split; done. Qed.
#[global] Instance table_functions_count {A} `{MemoryServices A} live (t : HASH64_TABLE A) n :
  TableFunctions live t -> TableFunctions live (set_count t n).
Proof. intros [? ? ? ? ?]. split; done. Qed.
#[global] Instance table_functions_array {A} `{MemoryServices A} live (t : HASH64_TABLE A) a c n :
  TableFunctions live t -> TableFunctions live (set_array t a c n).
Proof. intros [? ? ? ? ?]. split; done. Qed.

Section Rep.
Context {A : Type} (t : HASH64_TABLE A) (m : gmap Z HASH64_NODE).

(** The parts of a representation in which one bucket changes. *)
Lemma rep_change_bucket c1 c c2 b1 l b2 m' c' l' n :
  table_rep t m (b1 ++ l :: b2) -> cells t = c1 ++ c :: c2 -> length b1 = length c1 ->
  Forall2 (chain m) c1 b1 -> Forall2 (chain m) c2 b2 ->
  (forall x, x ∈ concat b1 ++ concat b2 -> m' !! ptr x = m !! ptr x) ->
  chain m' c' l' ->
  NoDup (ptr <$> concat (b1 ++ l' :: b2)) -> NoDup (ek <$> concat (b1 ++ l' :: b2)) ->
  Forall (fun e => hash_func t (ek e) (hash_size t) = Z.of_nat (length c1)) l' ->
  n = Z.of_nat (length (concat (b1 ++ l' :: b2))) -> fits 32 n ->
  table_rep (set_count (set_cells t (c1 ++ c' :: c2)) n) m' (b1 ++ l' :: b2).
Proof.
  intros [[Hs Hl] _ _ _ HH _] Ec Lb H1 H2 Hm Hc' Hp Hk Hh Hn Hf.
  split; simpl; [|apply Forall2_app; [|constructor; [done|]]|done|done| |done].
  - rewrite Ec, length_app in Hl. rewrite length_app. simpl in *. lia.
  - apply (chains_frame m); [done|]. intros x Hx. apply Hm. apply elem_of_app. by left.
  - apply (chains_frame m); [done|]. intros x Hx. apply Hm. apply elem_of_app. by right.
  - apply hashed_app. apply hashed_app in HH as [HH1 [_ HH2]].
    split; [done|]. split; [|done]. by rewrite Lb.
Qed.

Lemma bucket_hashed c1 b1 l b2 : table_rep t m (b1 ++ l :: b2) -> length b1 = length c1 ->
  Forall (fun e => hash_func t (ek e) (hash_size t) = Z.of_nat (length (c1 : list Z))) l.
Proof.
  intros [_ _ _ _ HH _] <-. apply hashed_app in HH as [_ [? _]]. done.
Qed.

Lemma rep_elem_dom bks x : table_rep t m bks -> x ∈ concat bks -> is_Some (m !! ptr x).
Proof.
  intros R Hx. destruct (chains_elem m (cells t) bks x (rep_chains _ _ _ R) Hx) as (_ & q & Hq).
  by exists (mk_node q (ek x) (ev x)).
Qed.

Lemma concat_length_bucket (b1 b2 : list (list entry)) l :
  length (concat (b1 ++ l :: b2)) = (length (concat b1) + length l + length (concat b2))%nat.
Proof. rewrite concat_split, !length_app. lia. Qed.

(** Linking a fresh node in front of the bucket of its key. *)
Lemma rep_insert c1 c c2 b1 l b2 k v p :
  table_rep t m (b1 ++ l :: b2) -> cells t = c1 ++ c :: c2 -> length b1 = length c1 ->
  Forall2 (chain m) c1 b1 -> chain m c l -> Forall2 (chain m) c2 b2 ->
  Z.of_nat (length c1) = hash_func t k (hash_size t) ->
  k ∉ ek <$> concat (b1 ++ l :: b2) -> p <> 0 -> m !! p = None ->
  element_count t + 1 < 2 ^ 32 ->
  table_rep (hash64_inc_element_count (set_cells t (c1 ++ p :: c2)))
    (<[p := mk_node c k v]> m) (b1 ++ (mk_entry p k v :: l) :: b2).
Proof.
  intros R Ec Lb H1 Hc H2 Hh Hk Hp Hfresh Hcnt. unfold hash64_inc_element_count. simpl.
  pose proof R as [_ _ RP RK _ [Hn Hf]]. unfold fits in Hf.
  assert (forall x, x ∈ concat (b1 ++ l :: b2) -> ptr x <> p) as Hne.
  { intros x Hx <-. destruct (rep_elem_dom _ _ R Hx) as [? Hs]. congruence. }
  pose proof (concat_perm b1 b2 [] l (mk_entry p k v)) as P. simpl in P.
  apply (rep_change_bucket c1 c c2 b1 l b2); try done.
  - intros x Hx. rewrite lookup_insert_ne; [done|]. symmetry. apply Hne.
    rewrite concat_split, !elem_of_app. apply elem_of_app in Hx as [?|?]; tauto.
  - split; [done|]. split; [done|]. exists c. split; [by rewrite lookup_insert_eq|].
    apply (chain_frame m); [done|]. intros x Hx. rewrite lookup_insert_ne; [done|].
    symmetry. apply Hne. rewrite concat_split, !elem_of_app. tauto.
  - rewrite P. simpl. apply NoDup_cons. split; [|done].
    intros (x & E & Hx)%list_elem_of_fmap. by apply (Hne x Hx).
  - rewrite P. simpl. by apply NoDup_cons.
  - constructor; [done|]. by apply (bucket_hashed c1 b1 l b2).
  - rewrite concat_length_bucket in *. simpl. usmall. lia.
  - unfold fits. usmall. lia.
Qed.

(** Storing a new value in a node of the bucket. *)
Lemma chain_set_value m' p l1 e l2 q v :
  chain m p (l1 ++ e :: l2) -> NoDup (ptr <$> l1 ++ e :: l2) ->
  m !! ptr e = Some (mk_node q (ek e) (ev e)) ->
  m' = <[ptr e := mk_node q (ek e) v]> m ->
  chain m' p (l1 ++ mk_entry (ptr e) (ek e) v :: l2).
Proof.
  intros Hc Hn Hq ->. revert p Hc Hn. induction l1 as [|x l1 IH]; intros p Hc Hn.
  - destruct Hc as (-> & Hz & q' & Hq' & Hc). rewrite Hq in Hq'. simplify_eq.
    simpl in Hn. apply NoDup_cons in Hn as [Hn _].
    split; [done|]. split; [done|]. exists q'. rewrite lookup_insert_eq. split; [done|].
    apply (chain_frame m); [done|]. intros y Hy. rewrite lookup_insert_ne; [done|].
    intros E. apply Hn. rewrite E. by apply list_elem_of_fmap_2.
  - destruct Hc as (-> & Hz & q' & Hq' & Hc). simpl in Hn. apply NoDup_cons in Hn as [Hx Hn].
    split; [done|]. split; [done|]. exists q'. split; [|by apply IH].
    rewrite lookup_insert_ne; [done|]. intros E. apply Hx. rewrite <- E.
    apply list_elem_of_fmap_2, elem_of_app. right. left.
Qed.

(** Unlinking the node after [e]. *)
Lemma chain_unlink p l1 e d l2 q :
  chain m p (l1 ++ e :: d :: l2) -> NoDup (ptr <$> l1 ++ e :: d :: l2) ->
  m !! ptr d = Some (mk_node q (ek d) (ev d)) ->
  chain (<[ptr e := mk_node q (ek e) (ev e)]> m) p (l1 ++ e :: l2).
Proof.
  intros Hc Hn Hq. revert p Hc Hn. induction l1 as [|x l1 IH]; intros p Hc Hn.
  - destruct Hc as (-> & Hz & q' & Hq' & -> & Hz' & q2 & Hq2 & Hc). rewrite Hq in Hq2. simplify_eq.
    simpl in Hn. apply NoDup_cons in Hn as [Hn _].
    split; [done|]. split; [done|]. exists q2. rewrite lookup_insert_eq. split; [done|].
    apply (chain_frame m); [done|]. intros y Hy. rewrite lookup_insert_ne; [done|].
    intros E. apply Hn. rewrite E. right. by apply list_elem_of_fmap_2.
  - destruct Hc as (-> & Hz & q' & Hq' & Hc). simpl in Hn. apply NoDup_cons in Hn as [Hx Hn].
    split; [done|]. split; [done|]. exists q'. split; [|by apply IH].
    rewrite lookup_insert_ne; [done|]. intros E. apply Hx. rewrite <- E.
    apply list_elem_of_fmap_2, elem_of_app. right. left.
Qed.

Lemma rep_set_value c1 c c2 b1 l1 e l2 b2 q v :
  table_rep t m (b1 ++ (l1 ++ e :: l2) :: b2) -> cells t = c1 ++ c :: c2 -> length b1 = length c1 ->
  Forall2 (chain m) c1 b1 -> chain m c (l1 ++ e :: l2) -> Forall2 (chain m) c2 b2 ->
  m !! ptr e = Some (mk_node q (ek e) (ev e)) ->
  table_rep t (<[ptr e := mk_node q (ek e) v]> m)
    (b1 ++ (l1 ++ mk_entry (ptr e) (ek e) v :: l2) :: b2).
Proof.
  intros R Ec Lb H1 Hc H2 Hq. pose proof R as [_ _ RP RK _ [Hn Hf]].
  assert (t = set_count (set_cells t (c1 ++ c :: c2)) (element_count t)) as Et
    by (rewrite <- Ec; by destruct t). rewrite Et at 1.
  apply (rep_change_bucket c1 c c2 b1 (l1 ++ e :: l2) b2); try done.
  - intros x Hx. rewrite lookup_insert_ne; [done|]. symmetry.
    apply (nodup_frame b1 b2 l1 l2); [done|].
    rewrite concat_split, !elem_of_app. apply elem_of_app in Hx as [?|?]; tauto.
  - eapply chain_set_value; [done| |done|done]. by eapply nodup_bucket.
  - rewrite (concat_perm b1 b2 l1 l2) in RP |- *. done.
  - rewrite (concat_perm b1 b2 l1 l2) in RK |- *. done.
  - pose proof (bucket_hashed c1 _ _ _ R Lb) as HF. rewrite !Forall_app, !Forall_cons in *. tauto.
  - rewrite concat_length_bucket, length_app in *. simpl in *. lia.
Qed.

(** Removing an entry: the node itself is still in the store. *)
Lemma rep_remove c1 c c2 b1 l1 e l2 b2 m' c' :
  table_rep t m (b1 ++ (l1 ++ e :: l2) :: b2) -> cells t = c1 ++ c :: c2 -> length b1 = length c1 ->
  Forall2 (chain m) c1 b1 -> Forall2 (chain m) c2 b2 ->
  (forall x, x ∈ concat b1 ++ concat b2 -> m' !! ptr x = m !! ptr x) ->
  chain m' c' (l1 ++ l2) ->
  table_rep (hash64_dec_element_count (set_cells t (c1 ++ c' :: c2))) m' (b1 ++ (l1 ++ l2) :: b2).
Proof.
  intros R Ec Lb H1 H2 Hm Hc'. pose proof R as [_ _ RP RK _ [Hn Hf]]. unfold fits in Hf.
  rewrite (concat_perm b1 b2 l1 l2) in RP, RK.
  rewrite (Permutation_length (concat_perm b1 b2 l1 l2 e)) in Hn. simpl in *.
  unfold hash64_dec_element_count. simpl. rewrite u32_small by lia.
  apply (rep_change_bucket c1 c c2 b1 (l1 ++ e :: l2) b2); try done.
  - by apply NoDup_cons in RP as [_ ?].
  - by apply NoDup_cons in RK as [_ ?].
  - pose proof (bucket_hashed c1 _ _ _ R Lb) as HF. rewrite !Forall_app, !Forall_cons in *. tauto.
  - lia.
  - unfold fits. lia.
Qed.

(** A released node is not one of the remaining entries. *)
Lemma rep_delete bks p : table_rep t m bks -> (forall x, x ∈ concat bks -> ptr x <> p) ->
  table_rep t (delete p m) bks.
Proof.
  intros [Hs Hc Hp Hk Hh Hn] Hne. split; try done. apply (chains_frame m); [done|].
  intros x Hx. rewrite lookup_delete_ne; [done|]. symmetry. by apply Hne.
Qed.

End Rep.

(** * The operations *)

Lemma get_node_ok m p n : m !! p = Some n -> get_node m p = Ok n.
Proof. intros H. unfold get_node. by rewrite H. Qed.

Section Refinement.
Context {A : Type} `{MemoryServices A} (live : A -> gset Z).
Implicit Types (t : HASH64_TABLE A) (w : world A).

(** Filling in a fresh node and linking it. *)
Lemma insert_new_eq t m p k v c1 c c2 : p <> 0 -> cells t = c1 ++ c :: c2 ->
  Z.of_nat (length c1) = hash64_retrieve_appropriate_array_cell t k ->
  (head ← rd (cells t) (hash64_retrieve_appropriate_array_cell t k);
   m1 ← hash64_node_set_next (<[p := uninit_node p]> m) p head;
   cells' ← wr (cells t) (hash64_retrieve_appropriate_array_cell t k) p;
   m2 ← hash64_node_set_key m1 p k;
   m3 ← hash64_node_set_value m2 p v;
   Ok (m3, cells')) = Ok (<[p := mk_node c k v]> m, c1 ++ p :: c2).
Proof.
  intros Hp Ec Hi. rewrite (rd_cell t c1 c2 c k Ec Hi), bind_Ok.
  rewrite (wr_cell t c1 c2 c p k Ec Hi).
  unfold hash64_node_set_next, hash64_node_set_key, hash64_node_set_value, get_node.
  rewrite lookup_insert_eq, !bind_Ok, lookup_insert_eq, !bind_Ok, lookup_insert_eq, !bind_Ok.
  simpl. by rewrite !insert_insert_eq.
Qed.

Lemma insert_internal_new t w k v p (a : A) c1 c c2 :
  p <> 0 -> cells t = c1 ++ c :: c2 ->
  Z.of_nat (length c1) = hash64_retrieve_appropriate_array_cell t k ->
  (let t' := hash64_inc_element_count (set_cells t (c1 ++ p :: c2)) in
   let m' := <[p := mk_node c k v]> (nodes w) in
   exists r, hash64_find t' m' k = Ok r) ->
  let w1 := mk_world (<[p := uninit_node p]> (nodes w)) a in
  (head ← rd (cells t) (hash64_retrieve_appropriate_array_cell t k);
   m ← hash64_node_set_next (nodes w1) p head;
   cells' ← wr (cells t) (hash64_retrieve_appropriate_array_cell t k) p;
   m ← hash64_node_set_key m p k;
   let t := hash64_inc_element_count (set_cells t cells') in
   m ← hash64_node_set_value m p v;
   _ ← hash64_find t m k;
   Ok (true, t, mk_world m (alloc_state w1)))
  = Ok (true, hash64_inc_element_count (set_cells t (c1 ++ p :: c2)),
        mk_world (<[p := mk_node c k v]> (nodes w)) a).
Proof.
  intros Hp Ec Hi [r Hr] w1.
  pose proof (insert_new_eq t (nodes w) p k v c1 c c2 Hp Ec Hi) as E.
  apply bind_ok in E as (h & -> & E). rewrite bind_Ok.
  apply bind_ok in E as (m1 & E1 & E). simpl nodes. rewrite E1, bind_Ok.
  apply bind_ok in E as (c' & -> & E). rewrite bind_Ok.
  apply bind_ok in E as (m2 & -> & E). rewrite bind_Ok. cbv zeta.
  apply bind_ok in E as (m3 & -> & E). rewrite bind_Ok. simplify_eq.
  simpl in Hr. by rewrite Hr.
Qed.

(** Inserting a key that is absent. *)
Lemma insert_absent t w fp M k v u : TableFunctions live t -> table_ok live t w fp M ->
  M !! k = None -> element_count t + 1 < 2 ^ 32 ->
  exists ok t' w', hash64_insert_internal t w k v u = Ok (ok, t', w') /\ frame fp w w' /\
    TableFunctions live t' /\
    if ok then exists p, (p ∉ fp) /\ table_ok live t' w' ({[p]} ∪ fp) (<[k := v]> M)
    else t' = t /\ nodes w' = nodes w /\ table_ok live t' w' fp M.
Proof.
  intros TF [(bks & R & -> & ->) HL [HA HA']] Hk Hcnt. apply contents_none in Hk as Hk'.
  destruct (hash64_find_ok live t (nodes w) bks k R) as (o & F & Ho).
  destruct o as [e|]; [destruct Ho as (_ & <- & _ & b1 & l1 & l2 & b2 & ->); exfalso; apply Hk';
    apply list_elem_of_fmap_2; rewrite concat_perm; left|].
  unfold hash64_insert_internal. rewrite F, bind_Ok. simpl node_of.
  replace (if u then 0 else 0) with 0 by by destruct u. simpl.
  unfold hash64_allocate_node.
  destruct (node_alloc_func t (node_allocation_deallocation_context t) (alloc_state w)) as [p a] eqn:EA.
  destruct (node_alloc_fresh _ _ _ _ EA) as [Hsub Hfresh].
  destruct (Z.eqb_spec p 0) as [->|Hp].
  { simpl. do 3 eexists. split; [done|]. split; [done|]. split; [done|]. split; [done|].
    split; [done|]. split; simpl; [by exists bks|set_solver|set_solver]. }
  destruct (Hfresh Hp) as [Hp1 Hp2].
  assert (nodes w !! p = None) as Hnone by (apply not_elem_of_dom; set_solver).
  destruct (rep_bucket live t (nodes w) bks k R)
    as (c1 & c & c2 & b1 & l & b2 & Ec & -> & Hi & Lb & H1 & Hc & H2 & _).
  pose proof (rep_insert t (nodes w) c1 c c2 b1 l b2 k v p R Ec Lb H1 Hc H2 Hi Hk' Hp Hnone Hcnt) as R'.
  do 3 eexists. split.
  { apply (insert_internal_new t w k v p a c1 c c2 Hp Ec Hi).
    destruct (hash64_find_ok live _ _ _ k R') as (o & Fo & _). simpl. rewrite Fo. by eexists. }
  split_and!.
  - intros q Hq _. simpl. apply lookup_insert_ne. intros ->. apply elem_of_dom in Hq as [? ?]. congruence.
  - unfold hash64_inc_element_count. apply _.
  - pose proof (concat_perm b1 b2 [] l (mk_entry p k v)) as P. simpl in P.
    exists p. split.
    { intros (x & -> & Hx)%elem_of_list_to_set%list_elem_of_fmap.
      destruct (rep_elem_dom _ _ _ _ R Hx) as [? ?]. congruence. }
    split; simpl.
    + exists (b1 ++ (mk_entry p k v :: l) :: b2). split; [done|]. split.
      * by destruct (contents_perm _ _ _ (rep_keys _ _ _ R') P) as [-> _].
      * rewrite P. simpl. done.
    + rewrite dom_insert_L. set_solver.
    + rewrite dom_insert_L. set_solver.
Qed.

(** Updating a key that is present. *)
Lemma update_present t w fp M k v v0 : TableFunctions live t -> table_ok live t w fp M ->
  M !! k = Some v0 ->
  exists w', hash64_insert_internal t w k v true = Ok (true, t, w') /\ frame fp w w' /\
    alloc_state w' = alloc_state w /\ table_ok live t w' fp (<[k := v]> M).
Proof.
  intros TF [(bks & R & -> & ->) HL [HA HA']] Hk.
  destruct (hash64_find_ok live t (nodes w) bks k R) as (o & F & Ho).
  destruct o as [e|]; [|apply contents_none in Ho; congruence].
  destruct Ho as (Hp & Hek & (q & Hq) & _).
  unfold hash64_insert_internal. rewrite F, bind_Ok. simpl. rewrite (proj2 (Z.eqb_neq _ _)) by done.
  unfold hash64_node_set_value. rewrite (get_node_ok _ _ _ Hq), !bind_Ok. simpl.
  destruct (rep_bucket live t (nodes w) bks k R)
    as (c1 & c & c2 & b1 & l & b2 & Ec & -> & Hi & Lb & H1 & Hc & H2 & _).
  assert (exists l1 l2, l = l1 ++ e :: l2) as (l1 & l2 & ->).
  { unfold hash64_find in F. rewrite (rd_cell t c1 c2 c k Ec Hi), bind_Ok in F.
    rewrite (find_from_spec _ _ _ l) in F;
      [|done|by eapply chain_length; [done|eapply nodup_bucket, rep_ptrs]].
    injection F as F. destruct (assoc k l) as [e'|] eqn:EA; simpl in F; [|congruence].
    apply assoc_some in EA as (l1 & l2 & -> & He' & _). exists l1, l2.
    destruct (chain_elem _ _ _ e' Hc) as (_ & q' & Hq'); [apply elem_of_app; right; left|].
    rewrite F, Hq in Hq'. do 2 f_equal. destruct e, e'. simpl in *. by simplify_eq. }
  rewrite <- Hek in Hq |- *.
  pose proof (rep_set_value t (nodes w) c1 c c2 b1 l1 e l2 b2 q v R Ec Lb H1 Hc H2 Hq) as R'.
  destruct (hash64_find_ok live _ _ _ (ek e) R') as (o & -> & _). rewrite bind_Ok.
  eexists. split; [done|]. split; [|split; [done|]].
  - intros x _ Hx. simpl. apply lookup_insert_ne. intros <-. apply Hx.
    apply elem_of_list_to_set, list_elem_of_fmap_2. rewrite concat_perm. left.
  - pose proof (concat_perm b1 b2 l1 l2 e) as P.
    pose proof (concat_perm b1 b2 l1 l2 (mk_entry (ptr e) (ek e) v)) as P'.
    split; simpl.
    + exists (b1 ++ (l1 ++ mk_entry (ptr e) (ek e) v :: l2) :: b2). split; [done|]. split.
      * destruct (contents_perm _ _ _ (rep_keys _ _ _ R) P) as (-> & _).
        destruct (contents_perm _ _ _ (rep_keys _ _ _ R') P') as (-> & _). by rewrite insert_insert_eq.
      * by rewrite P, P'.
    + rewrite dom_insert_lookup_L by done. done.
    + rewrite dom_insert_lookup_L by done. done.
Qed.

(** The search of the removal beyond the first node. *)
Lemma remove_after_spec t w k l fuel e : chain (nodes w) (ptr e) (e :: l) -> (length l < fuel)%nat ->
  (forall u pe d u2 q, e :: l = u ++ pe :: d :: u2 ->
     nodes w !! ptr d = Some (mk_node q (ek d) (ev d)) ->
     exists r, hash64_find t (<[ptr pe := mk_node q (ek pe) (ev pe)]> (nodes w)) k = Ok r) ->
  ((k ∉ ek <$> l) /\ remove_after fuel t w (ptr e) k = Ok (false, t, w)) \/
  (exists u pe d u2 q, e :: l = u ++ pe :: d :: u2 /\ ek d = k /\
     nodes w !! ptr d = Some (mk_node q (ek d) (ev d)) /\
     remove_after fuel t w (ptr e) k =
       Ok (true, hash64_dec_element_count t,
           hash64_free_node t (ptr d)
             (mk_world (<[ptr pe := mk_node q (ek pe) (ev pe)]> (nodes w)) (alloc_state w)))).
Proof.
  revert e fuel. induction l as [|d l IH]; intros e fuel Hc Hf Hfind;
    destruct Hc as (_ & Hz & q & Hq & Hc); (destruct fuel as [|fuel]; [simpl in Hf; lia|]); simpl.
  - left. split; [apply not_elem_of_nil|]. simpl in Hc. subst q.
    rewrite (proj2 (Z.eqb_neq _ _)) by done. rewrite (get_node_ok _ _ _ Hq), bind_Ok. simpl.
    by destruct fuel.
  - pose proof Hc as (-> & Hz' & q' & Hq' & Hc').
    rewrite (proj2 (Z.eqb_neq (ptr e) 0)) by done. rewrite (get_node_ok _ _ _ Hq), bind_Ok. simpl next.
    rewrite (proj2 (Z.eqb_neq (ptr d) 0)) by done.
    rewrite (get_node_ok _ _ _ Hq'), bind_Ok. simpl key.
    destruct (Z.eqb_spec (ek d) k) as [Hk|Hk].
    + right. exists [], e, d, l, q'. split_and!; [done..|].
      unfold hash64_node_set_next. rewrite (get_node_ok _ _ _ Hq), !bind_Ok. simpl.
      destruct (Hfind [] e d l q' eq_refl Hq') as [r ->]. done.
    + destruct (IH d fuel Hc) as [[Hn E]|(u & pe & d' & u2 & q2 & E1 & E2 & E3 & E4)].
      * simpl in Hf. lia.
      * intros u pe d' u2 q2 Eu. apply (Hfind (e :: u) pe d' u2). by rewrite Eu.
      * left. split; [|done]. apply not_elem_of_cons. split; [congruence|done].
      * right. exists (e :: u), pe, d', u2, q2. split; [by rewrite E1|]. done.
Qed.

(** Unlinking an entry that is not the first of its chain. *)
Lemma unlink_rep t m c1 c c2 b1 u pe d u2 b2 q :
  table_rep t m (b1 ++ (u ++ pe :: d :: u2) :: b2) -> cells t = c1 ++ c :: c2 ->
  length b1 = length c1 ->
  Forall2 (chain m) c1 b1 -> chain m c (u ++ pe :: d :: u2) -> Forall2 (chain m) c2 b2 ->
  m !! ptr d = Some (mk_node q (ek d) (ev d)) ->
  table_rep (hash64_dec_element_count (set_cells t (cells t)))
    (<[ptr pe := mk_node q (ek pe) (ev pe)]> m) (b1 ++ (u ++ pe :: u2) :: b2).
Proof.
  intros R Ec Lb H1 Hc H2 Hq. rewrite Ec.
  pose proof (rep_ptrs _ _ _ R) as Hn. pose proof (nodup_bucket _ _ _ Hn) as Hnb.
  replace (u ++ pe :: u2) with ((u ++ [pe]) ++ u2) by by rewrite <- app_assoc.
  replace (u ++ pe :: d :: u2) with ((u ++ [pe]) ++ d :: u2) in R by by rewrite <- app_assoc.
  eapply rep_remove; try done.
  - intros x Hx. rewrite lookup_insert_ne; [done|]. symmetry.
    apply (nodup_frame b1 b2 u (d :: u2)); [done|].
    rewrite concat_split, !elem_of_app. apply elem_of_app in Hx as [?|?]; tauto.
  - rewrite <- app_assoc. by eapply chain_unlink.
Qed.

Lemma hash64_find_dec t m k :
  hash64_find (hash64_dec_element_count (set_cells t (cells t))) m k = hash64_find t m k.
Proof. done. Qed.

Lemma set_cells_same t : set_cells t (cells t) = t.
Proof. by destruct t. Qed.

Lemma remove_absent t w fp M k : TableFunctions live t -> table_ok live t w fp M ->
  M !! k = None -> hash64_remove (Some t) w k = Ok (false, Some t, w).
Proof.
  intros TF [(bks & R & -> & _) HL _] Hk. apply contents_none in Hk. simpl.
  destruct (hash64_find_ok live t (nodes w) bks k R) as (o & -> & _). rewrite bind_Ok.
  destruct (rep_bucket live t (nodes w) bks k R)
    as (c1 & c & c2 & b1 & l & b2 & Ec & -> & Hi & Lb & H1 & Hc & H2 & _).
  rewrite (rd_cell t c1 c2 c k Ec Hi), bind_Ok.
  assert (k ∉ ek <$> l) as Hl by (rewrite concat_split, !fmap_app, !not_elem_of_app in Hk; tauto).
  destruct l as [|e l]; [simpl in Hc; by subst c|]. pose proof Hc as (-> & Hz & q & Hq & _).
  rewrite (proj2 (Z.eqb_neq _ _)) by done. rewrite (get_node_ok _ _ _ Hq), bind_Ok. simpl key.
  simpl in Hl. apply not_elem_of_cons in Hl as [Hne Hl].
  rewrite (proj2 (Z.eqb_neq (ek e) k)) by congruence.
  pose proof (chain_length _ _ _ Hc (nodup_bucket _ _ _ (rep_ptrs _ _ _ R))) as Hlen. simpl in Hlen.
  destruct (remove_after_spec t w k l (size (nodes w)) e Hc ltac:(lia)) as [[_ ->]|X]; [|done|].
  - intros u pe d u2 q2 Eu Hq2. rewrite Eu in R, Hc.
    pose proof (unlink_rep _ _ _ _ _ _ _ _ _ _ _ _ R Ec Lb H1 Hc H2 Hq2) as R'.
    destruct (hash64_find_ok live _ _ _ k R') as (o' & Fo & _). rewrite hash64_find_dec in Fo. eauto.
  - exfalso. destruct X as (u & pe & d & u2 & q2 & Eu & Hd & _). destruct u as [|x u]; simplify_eq/=.
    + apply Hl. left.
    + apply Hl. set_solver.
Qed.

Lemma table_ok_released t t' w p m a bks fp b1 l1 e l2 b2 :
  TableFunctions live t -> array t' = array t -> p = ptr e ->
  table_rep t (nodes w) (b1 ++ (l1 ++ e :: l2) :: b2) -> dom (nodes w) ⊆ live a ->
  array t ∈ live a -> array t ∉ dom (nodes w) ->
  bks = b1 ++ (l1 ++ l2) :: b2 -> table_rep t' m bks -> dom m = dom (nodes w) ->
  fp = list_to_set (ptr <$> concat (b1 ++ (l1 ++ e :: l2) :: b2)) ->
  table_ok live t' (hash64_free_node t p (mk_world m a)) (fp ∖ {[p]})
    (delete (ek e) (contents (b1 ++ (l1 ++ e :: l2) :: b2))).
Proof.
  intros TF EA -> R HL HA HA' -> R' Hdom ->.
  pose proof (concat_perm b1 b2 l1 l2 e) as P.
  pose proof (node_free_others (node_allocation_deallocation_context t) (ptr e) a) as Hfree.
  destruct (contents_perm _ _ _ (rep_keys _ _ _ R) P) as (-> & Hnone & _).
  assert (ptr e ∈ dom (nodes w)) as He.
  { apply elem_of_dom. apply (rep_elem_dom t _ _ _ R). rewrite P. left. }
  pose proof (rep_ptrs _ _ _ R) as Hn.
  split; simpl.
  - exists (b1 ++ (l1 ++ l2) :: b2). split; [|split].
    + apply rep_delete; [done|]. intros x. by apply nodup_frame.
    + rewrite delete_insert_eq, delete_id by done. done.
    + rewrite P in Hn |- *. simpl in *. apply NoDup_cons in Hn as [Hn _].
      rewrite <- (elem_of_list_to_set (C := gset Z)) in Hn.
      clear - Hn. set_solver.
  - rewrite dom_delete_L, Hdom. clear - HL Hfree. set_solver.
  - rewrite EA, dom_delete_L, Hdom. split; [|clear - HA'; set_solver]. apply Hfree.
    apply elem_of_difference. split; [done|]. rewrite elem_of_singleton. congruence.
Qed.

(** Removing a key that is present releases its node, and only it. *)
Lemma remove_present t w fp M k v : TableFunctions live t -> table_ok live t w fp M ->
  M !! k = Some v ->
  exists t' w' (p : Z), hash64_remove (Some t) w k = Ok (true, Some t', w') /\ p ∈ fp /\
    frame fp w w' /\ dom (nodes w') = (dom (nodes w) ∖ {[p]} : gset Z) /\ TableFunctions live t' /\
    table_ok live t' w' (fp ∖ {[p]}) (delete k M).
Proof.
  intros TF [(bks & R & -> & ->) HL [HA HA']] Hk. simpl.
  destruct (hash64_find_ok live t (nodes w) bks k R) as (o & -> & _). rewrite bind_Ok.
  destruct (rep_bucket live t (nodes w) bks k R)
    as (c1 & c & c2 & b1 & l & b2 & Ec & -> & Hi & Lb & H1 & Hc & H2 & Hin).
  assert (k ∈ ek <$> l) as Hl.
  { apply Hin. destruct (decide (k ∈ ek <$> concat (b1 ++ l :: b2))) as [|Hno]; [done|].
    apply contents_none in Hno. congruence. }
  rewrite (rd_cell t c1 c2 c k Ec Hi), bind_Ok.
  destruct l as [|e l]; [by apply not_elem_of_nil in Hl|]. pose proof Hc as (-> & Hz & q & Hq & Hc').
  rewrite (proj2 (Z.eqb_neq (ptr e) 0)) by done. rewrite (get_node_ok _ _ _ Hq), bind_Ok. simpl key.
  destruct (Z.eqb_spec (ek e) k) as [<-|Hne].
  - rewrite (wr_cell t c1 c2 (ptr e) _ _ Ec Hi), bind_Ok. simpl next.
    pose proof (rep_remove t (nodes w) c1 (ptr e) c2 b1 [] e l b2 (nodes w) q R Ec Lb H1 H2
      ltac:(done) Hc') as R'.
    pose proof (hash64_find_ok live _ _ _ (ek e) R') as (o' & Fo & _).
    change (hash64_find (hash64_dec_element_count (set_cells t (c1 ++ q :: c2))))
      with (hash64_find (set_cells t (c1 ++ q :: c2))) in Fo.
    rewrite Fo, bind_Ok. eexists _, _, (ptr e). split; [done|]. simpl.
    pose proof (concat_perm b1 b2 [] l e) as P. simpl in P.
    split; [rewrite P; simpl; clear; set_solver|].
    split; [|split; [apply dom_delete_L|split; [unfold hash64_dec_element_count; apply _|]]].
    + intros x _ Hx. simpl. apply lookup_delete_ne. intros <-. apply Hx. rewrite P. clear. set_solver.
    + destruct w as [m a]. by eapply (table_ok_released t _ (mk_world m a) _ m a _ _ b1 [] e l b2).
  - pose proof (chain_length _ _ _ Hc (nodup_bucket _ _ _ (rep_ptrs _ _ _ R))) as Hlen. simpl in Hlen.
    destruct (remove_after_spec t w k l (size (nodes w)) e Hc ltac:(lia)) as [[Hn _]|X].
    { intros u pe d u2 q2 Eu Hq2. rewrite Eu in R, Hc.
      pose proof (unlink_rep _ _ _ _ _ _ _ _ _ _ _ _ R Ec Lb H1 Hc H2 Hq2) as R'.
      destruct (hash64_find_ok live _ _ _ k R') as (o' & Fo & _). rewrite hash64_find_dec in Fo. eauto. }
    { simpl in Hl. apply elem_of_cons in Hl as [?|?]; [congruence|done]. }
    destruct X as (u & pe & d & u2 & q2 & Eu & <- & Hq2 & ->). rewrite bind_Ok. clear Hl Hin Hne.
    rewrite Eu in R, Hc |- *.
    pose proof (unlink_rep _ _ _ _ _ _ _ _ _ _ _ _ R Ec Lb H1 Hc H2 Hq2) as R'.
    rewrite set_cells_same in R'.
    assert (is_Some (nodes w !! ptr pe)) as Hpe.
    { apply (rep_elem_dom t _ _ _ R). rewrite concat_split, !elem_of_app. right; left. right; left. }
    eexists _, _, (ptr d). split; [done|]. simpl.
    replace (u ++ pe :: d :: u2) with ((u ++ [pe]) ++ d :: u2) in * by by rewrite <- app_assoc.
    pose proof (concat_perm b1 b2 (u ++ [pe]) u2 d) as P.
    split; [rewrite P; simpl; clear; set_solver|].
    split; [|split; [by rewrite dom_delete_L, dom_insert_lookup_L|
                     split; [unfold hash64_dec_element_count; apply _|]]].
    + intros x _ Hx. simpl. rewrite lookup_delete_ne, lookup_insert_ne; [done| |].
      * intros <-. apply Hx. rewrite concat_split, !fmap_app. clear. set_solver.
      * intros <-. apply Hx. rewrite P. clear. set_solver.
    + eapply (table_ok_released t _ w _ _ _ _ _ b1 (u ++ [pe]) d u2 b2);
        [done|done|done|exact R|done|done|done|done| |by apply dom_insert_lookup_L|done].
      by rewrite <- app_assoc.
Qed.

Lemma lookup_ok t w fp M k : TableFunctions live t -> table_ok live t w fp M ->
  hash64_lookup (Some t) w k = Ok (M !! k).
Proof.
  intros TF [(bks & R & -> & _) _ _]. simpl.
  destruct (hash64_find_ok live t (nodes w) bks k R) as ([e|] & -> & Ho); rewrite bind_Ok; simpl.
  - destruct Ho as (Hp & <- & (q & Hq) & b1 & l1 & l2 & b2 & ->).
    rewrite (proj2 (Z.eqb_neq _ _)) by done. rewrite (get_node_ok _ _ _ Hq), bind_Ok. simpl.
    destruct (contents_perm _ _ _ (rep_keys _ _ _ R) (concat_perm b1 b2 l1 l2 e)) as (-> & _).
    by rewrite lookup_insert_eq.
  - by rewrite (proj2 (contents_none _ _) Ho).
Qed.

(** ** Resizing *)

Lemma split_cells m cs bks i : Forall2 (chain m) cs bks -> 0 <= i < Z.of_nat (length cs) ->
  exists c1 c c2 b1 l b2, cs = c1 ++ c :: c2 /\ bks = b1 ++ l :: b2 /\ Z.of_nat (length c1) = i /\
    length b1 = length c1 /\ Forall2 (chain m) c1 b1 /\ chain m c l /\ Forall2 (chain m) c2 b2.
Proof.
  intros HC Hi. destruct (lookup_lt_is_Some_2 cs (Z.to_nat i)) as [c Hc]; [lia|].
  apply list_elem_of_split_length in Hc as (c1 & c2 & -> & Lc).
  apply Forall2_app_inv_l in HC as (b1 & b' & H1 & H2 & ->).
  inversion H2 as [|? l ? b2 Hcl H3 E1 E2]. subst. exists c1, c, c2, b1, l, b2.
  pose proof (Forall2_length _ _ _ H1). split_and!; [done|done|lia|done..].
Qed.

(** The buckets built so far in the new cells. *)
Definition built (t : HASH64_TABLE A) (m : gmap Z HASH64_NODE) (bks : list (list entry)) : Prop :=
  Z.of_nat (length (cells t)) = hash_size t /\ Forall2 (chain m) (cells t) bks /\
  hashed (fun k => hash_func t k (hash_size t)) 0 bks.

Lemma built_push t m bks e rest n : TableFunctions live t -> 0 < hash_size t < 2 ^ 32 -> built t m bks ->
  NoDup (ptr <$> e :: concat bks ++ rest) -> ptr e <> 0 ->
  m !! ptr e = Some (mk_node n (ek e) (ev e)) ->
  exists c cells' bks', rd (cells t) (hash64_retrieve_appropriate_array_cell t (ek e)) = Ok c /\
    wr (cells t) (hash64_retrieve_appropriate_array_cell t (ek e)) (ptr e) = Ok cells' /\
    concat bks' ≡ₚ e :: concat bks /\
    built (set_cells t cells') (<[ptr e := mk_node c (ek e) (ev e)]> m) bks'.
Proof.
  intros TF Hs (Hl & HC & HH) Hn Hp Hm.
  pose proof (hash_in_range (ek e) (hash_size t) Hs) as Hr.
  destruct (split_cells m (cells t) bks (hash_func t (ek e) (hash_size t)) HC ltac:(lia))
    as (c1 & c & c2 & b1 & l & b2 & Ec & -> & Hi & Lb & H1 & Hc & H2).
  exists c, (c1 ++ ptr e :: c2), (b1 ++ (e :: l) :: b2).
  split; [by apply (rd_cell t c1 c2)|]. split; [by apply (wr_cell t c1 c2 c)|].
  split; [apply (concat_perm b1 b2 [] l e)|].
  simpl in Hn. apply NoDup_cons in Hn as [Hn _].
  assert (forall x, x ∈ concat b1 ++ l ++ concat b2 ->
    <[ptr e := mk_node c (ek e) (ev e)]> m !! ptr x = m !! ptr x) as Hm'.
  { intros x Hx. apply lookup_insert_ne. intros E. apply Hn. rewrite E.
    apply list_elem_of_fmap_2. rewrite concat_split. apply elem_of_app. by left. }
  apply hashed_app in HH as [HH1 [HHl HH2]]. split; [|split]; simpl.
  - rewrite <- Hl, Ec, !length_app. simpl. lia.
  - apply Forall2_app; [|constructor].
    + apply (chains_frame m); [done|]. intros x Hx. apply Hm'. apply elem_of_app. by left.
    + split; [done|]. split; [done|]. exists c. split; [by rewrite lookup_insert_eq|].
      apply (chain_frame m); [done|]. intros x Hx. apply Hm'. rewrite !elem_of_app. tauto.
    + apply (chains_frame m); [done|]. intros x Hx. apply Hm'. rewrite !elem_of_app. tauto.
  - apply hashed_app. split; [done|]. split; [|done]. constructor; [|done]. simpl. lia.
Qed.

Lemma rehash_chain_ok l : forall fuel t m node bks rest,
  TableFunctions live t -> 0 < hash_size t < 2 ^ 32 -> built t m bks -> chain m node l ->
  NoDup (ptr <$> concat bks ++ l ++ rest) -> (length l <= fuel)%nat ->
  exists cells' m' bks', rehash_chain fuel t m node = Ok (set_cells t cells', m') /\
    built (set_cells t cells') m' bks' /\ concat bks' ≡ₚ concat bks ++ l /\ dom m' = dom m /\
    (forall q, q ∉ ptr <$> l -> m' !! q = m !! q).
Proof.
  induction l as [|e l IH]; intros fuel t m node bks rest TF Hs HB Hc Hn Hf.
  { simpl in Hc. subst node. exists (cells t), m, bks. rewrite set_cells_same, app_nil_r.
    split; [by destruct fuel|]. done. }
  destruct Hc as (-> & Hp & q & Hq & Hc). destruct fuel as [|fuel]; [simpl in Hf; lia|].
  assert (NoDup (ptr <$> e :: concat bks ++ l ++ rest)) as Hn1 by (by rewrite Permutation_middle).
  destruct (built_push t m bks e _ _ TF Hs HB Hn1 Hp Hq) as (c & cells' & bks1 & Er & Ew & P1 & HB1).
  simpl. rewrite (proj2 (Z.eqb_neq _ _)) by done. rewrite (get_node_ok _ _ _ Hq), bind_Ok. simpl key.
  rewrite Er, bind_Ok. unfold hash64_node_set_next. rewrite (get_node_ok _ _ _ Hq), !bind_Ok. simpl.
  rewrite Ew, bind_Ok.
  destruct (IH fuel (set_cells t cells') (<[ptr e := mk_node c (ek e) (ev e)]> m) q bks1 rest)
    as (cells2 & m2 & bks2 & -> & HB2 & P2 & Hd & Hm); [apply _|done|done| | |simpl in Hf; lia|].
  - simpl in Hn1. apply NoDup_cons in Hn1 as [Hn1 _]. apply (chain_frame m); [done|].
    intros x Hx. apply lookup_insert_ne. intros E. apply Hn1. rewrite E.
    apply list_elem_of_fmap_2. rewrite !elem_of_app. tauto.
  - by rewrite P1.
  - exists cells2, m2, bks2. split; [done|]. split; [done|]. split; [|split].
    + rewrite P2, P1. simpl. by rewrite Permutation_middle.
    + rewrite Hd. by apply dom_insert_lookup_L.
    + intros x [Hx1 Hx2]%not_elem_of_cons. rewrite Hm by done. by apply lookup_insert_ne.
Qed.
(** One iteration of the outer loop, and the whole loop. *)
Lemma rehash_loop_ok cs bks0 : forall done_cells t m bks,
  TableFunctions live t -> 0 < hash_size t < 2 ^ 32 -> built t m bks -> Forall2 (chain m) cs bks0 ->
  NoDup (ptr <$> concat bks ++ concat bks0) ->
  exists cells' m' bks' old', loop_up (length cs) (Z.of_nat (length done_cells)) rehash_cell
      (t, m, done_cells ++ cs) = Ok (set_cells t cells', m', old') /\
    built (set_cells t cells') m' bks' /\ concat bks' ≡ₚ concat bks ++ concat bks0 /\
    dom m' = dom m /\ (forall q, q ∉ ptr <$> concat bks0 -> m' !! q = m !! q).
Proof.
  revert bks0. induction cs as [|c cs IH]; intros bks0 dc t m bks TF Hs HB HC Hn.
  { inversion HC. subst. exists (cells t), m, bks, dc. simpl. rewrite set_cells_same, !app_nil_r. done. }
  inversion HC as [|? l ? bks1 Hc HC1]. subst. simpl in Hn. simpl loop_up.
  rewrite (rd_ok _ _ c) by (lia || by apply lookup_middle_eq; lia). rewrite bind_Ok.
  assert (length l <= size m)%nat as Hlen.
  { eapply chain_length; [done|]. rewrite !fmap_app in Hn. apply NoDup_app in Hn as (_ & _ & Hn).
    by apply NoDup_app in Hn as [? _]. }
  destruct (rehash_chain_ok l (size m) t m c bks _ TF Hs HB Hc Hn Hlen)
    as (cells1 & m1 & bks' & -> & HB1 & P1 & Hd1 & Hm1). rewrite bind_Ok.
  rewrite wr_ok by (rewrite length_app; simpl; lia). rewrite !bind_Ok, insert_middle_eq by lia.
  cbn [fst snd].
  replace (dc ++ 0 :: cs) with ((dc ++ [0]) ++ cs) by by rewrite <- app_assoc.
  replace (Z.of_nat (length dc) + 1) with (Z.of_nat (length (dc ++ [0])))
    by (rewrite length_app; simpl; lia).
  destruct (IH bks1 (dc ++ [0]) (set_cells t cells1) m1 bks')
    as (cells2 & m2 & bks2 & old2 & -> & HB2 & P2 & Hd2 & Hm2); [apply _|done|done| | |].
  - apply (chains_frame m); [done|]. intros x Hx. apply Hm1.
    rewrite app_assoc, fmap_app in Hn. apply NoDup_app in Hn as (_ & Hn & _).
    intros Hx2. apply (Hn (ptr x)); [|by apply list_elem_of_fmap_2].
    rewrite fmap_app. apply elem_of_app. by right.
  - rewrite P1, <- app_assoc. done.
  - exists cells2, m2, bks2, old2. split; [done|]. split; [done|]. simpl concat.
    split; [by rewrite P2, P1, <- app_assoc|]. split; [congruence|].
    intros x Hx. rewrite fmap_app, not_elem_of_app in Hx. rewrite Hm2, Hm1 by tauto. done.
Qed.

Lemma clear_cells_ok n : 0 <= n -> 8 * n < 2 ^ 32 ->
  clear_cells n (new_cells n) = Ok (replicate (Z.to_nat n) 0).
Proof.
  intros Hn Hb. unfold clear_cells, new_cells. rewrite u32_small by lia.
  pose proof (for_range_fill (fun _ => 0) [] (uninit_cell <$> seq 0 (Z.to_nat (8 * n / 8))) [] 0 n) as E.
  rewrite length_fmap, length_seq, !app_nil_r in E. simpl in E. rewrite E by lia.
  by rewrite fmap_const_seqZ, Z.sub_0_r.
Qed.

Lemma empty_chains m n : Forall2 (chain m) (replicate n 0) (replicate n ([] : list entry)).
Proof. induction n; simpl; by constructor. Qed.
Lemma empty_hashed h n k : hashed h k (replicate n []).
Proof. revert k. induction n; simpl; [done|]. intros k. split; [constructor|auto]. Qed.
Lemma empty_concat n : concat (replicate n ([] : list entry)) = [].
Proof. by induction n. Qed.

Lemma rehash_ok t w fp M n : TableFunctions live t -> table_ok live t w fp M ->
  0 < n -> 8 * n < 2 ^ 32 -> forall arr a, call_mem_alloc (mem_alloc_func t) (8 * n) (alloc_state w) = (arr, a) ->
  if arr =? 0
  then hash64_change_size_and_rehash (Some t) w n = Ok (false, Some t, mk_world (nodes w) a) /\ table_ok live t (mk_world (nodes w) a) fp M
  else exists t' w', hash64_change_size_and_rehash (Some t) w n = Ok (true, Some t', w') /\
    hash_size t' = n /\ array t' = arr /\ alloc_state w' = call_mem_free (mem_dealloc_func t) (array t) a /\
    frame fp w w' /\ dom (nodes w') = dom (nodes w) /\ table_ok live t' w' fp M.
Proof.
  intros TF [(bks & R & -> & ->) HL [HA HA']] Hn Hb arr a EA. simpl. unfold hash64_mem_alloc. rewrite EA.
  destruct (mem_alloc_fresh _ _ _ _ EA) as [Hsub Hfresh].
  destruct (Z.eqb_spec arr 0) as [->|Hz].
  { split; [done|]. split; simpl; [by exists bks|by etrans|split; [by apply Hsub|done]]. }
  destruct (Hfresh Hz) as [Hf1 Hf2]. rewrite clear_cells_ok by lia. rewrite bind_Ok.
  set (t1 := set_array t arr (replicate (Z.to_nat n) 0) n).
  pose proof R as [[Hs Hl] HC RP RK _ [Hcnt Hfit]].
  destruct (rehash_loop_ok (cells t) bks [] t1 (nodes w) (replicate (Z.to_nat n) []))
    as (cells' & m' & bks' & old' & EL & (HB1 & HB2 & HB3) & P & Hd & Hm).
  { apply _. }
  { simpl. lia. }
  { split; [simpl; rewrite length_replicate; lia|]. split; [apply empty_chains|apply empty_hashed]. }
  { done. }
  { by rewrite empty_concat. }
  rewrite empty_concat in P. simpl in P.
  unfold for_range. rewrite Z.sub_0_r, <- Hl, Nat2Z.id. cbn [nodes alloc_state].
  change (Z.of_nat (length (@nil Z))) with 0 in EL. simpl app in EL. rewrite EL, !bind_Ok.
  do 2 eexists. split; [done|]. split; [done|]. split; [done|]. split; [done|].
  split; [|split; [done|]].
  - intros q _ Hq. simpl. apply Hm. by rewrite <- (elem_of_list_to_set (C := gset Z)).
  - pose proof (mem_free_others (t := t) (array t) a) as Hfree. split; simpl.
    + exists bks'. split; [|split; [by apply contents_same|by rewrite P]].
      split; simpl; [split; [lia|done]|done|by rewrite P|by rewrite P|done|].
      rewrite (Permutation_length P). done.
    + rewrite Hd. clear - HL Hsub HA' Hfree. set_solver.
    + rewrite Hd. split; [apply Hfree|by intros X%HL].
      apply elem_of_difference. split; [done|]. rewrite elem_of_singleton. intros ->. by apply Hf1.
Qed.

(** ** Destruction *)

(** The store after the nodes of some entries are released. *)
Definition drop_nodes (l : list entry) (m : gmap Z HASH64_NODE) : gmap Z HASH64_NODE :=
  foldl (fun m e => delete (ptr e) m) m l.

Lemma drop_nodes_lookup l m q :
  drop_nodes l m !! q = if decide (q ∈ ptr <$> l) then None else m !! q.
Proof.
  revert m. induction l as [|e l IH]; intros m.
  { rewrite decide_False by apply not_elem_of_nil. done. }
  change (drop_nodes (e :: l) m) with (drop_nodes l (delete (ptr e) m)). rewrite fmap_cons.
  rewrite IH. destruct (decide (q ∈ ptr <$> l)) as [Hl|Hl].
  - by rewrite decide_True by (by right).
  - destruct (decide (q = ptr e)) as [->|Hne].
    + rewrite lookup_delete_eq, decide_True by left. done.
    + rewrite lookup_delete_ne by done. rewrite decide_False; [done|].
      by rewrite not_elem_of_cons.
Qed.

Lemma drop_nodes_app l1 l2 m : drop_nodes (l1 ++ l2) m = drop_nodes l2 (drop_nodes l1 m).
Proof. apply foldl_app. Qed.

Lemma destroy_chain_ok l : forall fuel t w node,
  is_multiple_values_hash t = false -> chain (nodes w) node l -> NoDup (ptr <$> l) ->
  (length l <= fuel)%nat -> Z.of_nat (length l) <= element_count t < 2 ^ 32 ->
  exists a, destroy_chain fuel t w node =
    Ok (set_count t (element_count t - Z.of_nat (length l)), mk_world (drop_nodes l (nodes w)) a).
Proof.
  induction l as [|e l IH]; intros fuel t w node Hmul Hc Hn Hf Hcnt.
  { simpl in Hc. subst node. exists (alloc_state w). simpl. rewrite Z.sub_0_r.
    destruct fuel; simpl; by destruct t, w. }
  destruct Hc as (-> & Hp & q & Hq & Hc). destruct fuel as [|fuel]; [simpl in Hf; lia|].
  simpl in Hn. apply NoDup_cons in Hn as [Hne Hn]. simpl in Hcnt.
  simpl. rewrite (proj2 (Z.eqb_neq _ _)) by done. rewrite (get_node_ok _ _ _ Hq), bind_Ok.
  rewrite Hmul, bind_Ok. simpl next.
  destruct (IH fuel (hash64_dec_element_count t) (hash64_free_node t (ptr e) w) q) as [a ->].
  - done.
  - apply (chain_frame (nodes w)); [done|]. intros x Hx. simpl. apply lookup_delete_ne.
    intros E. apply Hne. rewrite E. by apply list_elem_of_fmap_2.
  - done.
  - simpl in Hf. lia.
  - simpl. usmall. lia.
  - exists a. unfold hash64_dec_element_count. simpl. rewrite u32_small by lia.
    replace (element_count t - 1 - Z.of_nat (length l))
      with (element_count t - Z.pos (Pos.of_succ_nat (length l))) by lia. done.
Qed.

Lemma destroy_cells_ok cs bks : forall pre t w,
  is_multiple_values_hash t = false -> cells t = pre ++ cs -> Forall2 (chain (nodes w)) cs bks ->
  NoDup (ptr <$> concat bks) -> element_count t = Z.of_nat (length (concat bks)) -> element_count t < 2 ^ 32 ->
  exists t' a, destroy_cells (length cs) (Z.of_nat (length pre)) t w =
    Ok (t', mk_world (drop_nodes (concat bks) (nodes w)) a).
Proof.
  revert bks. induction cs as [|c cs IH]; intros bks pre t w Hmul Ec HC Hn Hcnt Hb.
  { inversion HC. subst. exists t, (alloc_state w). simpl. by destruct w. }
  inversion HC as [|? l ? bks1 Hc HC1]. subst. simpl in Hn, Hcnt. rewrite fmap_app in Hn.
  rewrite length_app in Hcnt. apply NoDup_app in Hn as (Hn1 & Hdis & Hn2).
  simpl. rewrite (rd_ok _ _ c) by (lia || by rewrite Ec; apply lookup_middle_eq; lia).
  rewrite bind_Ok. destruct (Z.eqb_spec (element_count t) 0) as [Hz|Hz].
  { exists t, (alloc_state w). destruct l; [|simpl in *; lia].
    destruct (concat bks1) eqn:E; [|simpl in *; lia]. by destruct w. }
  destruct (destroy_chain_ok l (size (nodes w)) t w c Hmul Hc Hn1
    (chain_length _ _ _ Hc Hn1) ltac:(lia)) as [a ->].
  rewrite bind_Ok. cbn [fst snd]. rewrite drop_nodes_app.
  replace (Z.of_nat (length pre) + 1) with (Z.of_nat (length (pre ++ [c])))
    by (rewrite length_app; simpl; lia).
  apply (IH bks1 (pre ++ [c]) (set_count t (element_count t - Z.of_nat (length l)))
    (mk_world (drop_nodes l (nodes w)) a)); simpl; try done.
  - rewrite Ec, <- app_assoc. done.
  - apply (chains_frame (nodes w)); [done|]. intros x Hx. rewrite drop_nodes_lookup.
    rewrite decide_False; [done|]. intros Hx2. apply (Hdis _ Hx2). by apply list_elem_of_fmap_2.
  - lia.
  - lia.
Qed.

End Refinement.

(** * Properties *)

(** A bump allocator, for the instances below: the state is the next address. *)
Definition bump (limit : Z) (a : Z) : Z * Z :=
  if (1 <=? a) && (a <? limit) then (a, a + 1) else (0, a).
#[global] Instance bump_services : MemoryServices Z := {|
  vmm_memory_alloc := fun _ => bump 100;
  vmm_memory_free := fun _ a => a;
  uninit_node := fun p => mk_node p p p;
  uninit_cell := fun i => 77
|}.
Definition bump_live (a : Z) : gset Z := list_to_set (seqZ 1 (a - 1)).

Lemma default_hash_in_range k n : 0 < n < 2 ^ 32 -> 0 <= hash64_default_hash_func k n < n.
Proof. intros Hn. unfold hash64_default_hash_func. rewrite u32_small; lia. Qed.

Lemma bump_fresh l a p a' : bump l a = (p, a') ->
  bump_live a ⊆ bump_live a' /\ (p <> 0 -> (p ∉ bump_live a) /\ p ∈ bump_live a').
Proof.
  unfold bump, bump_live. destruct ((1 <=? a) && (a <? l)) eqn:E; intros [= <- <-].
  - apply andb_true_iff in E as [E1 E2]. split.
    + intros x. rewrite !elem_of_list_to_set, !elem_of_seqZ. lia.
    + intros _. rewrite !elem_of_list_to_set, !elem_of_seqZ. lia.
  - done.
Qed.

(** A table with the functions of [hash64_create_default_hash]. *)
Definition sample_table (c : list Z) (count : Z) : HASH64_TABLE Z :=
  mk_table 1 2 c hash64_default_hash_func None None hash64_default_node_alloc_func
    hash64_default_node_dealloc_func 0 (Z.of_nat (length c)) count false.

#[global] Instance sample_functions c n : TableFunctions bump_live (sample_table c n).
Proof.
  split; simpl.
  - intros k m Hm. by apply default_hash_in_range.
  - intros _ a p a'. apply bump_fresh.
  - intros _ p a. unfold hash64_default_node_dealloc_func. simpl. set_solver.
  - intros _ a p a'. apply bump_fresh.
  - intros p a. simpl. set_solver.
Qed.

(** Two cells; keys 4 and 6 in the first, key 5 in the second. *)
Definition sample_world : world Z :=
  mk_world {[ 10 := mk_node 11 4 40; 11 := mk_node 0 6 60; 12 := mk_node 0 5 50 ]} 20.
Definition sample_buckets : list (list entry) :=
  [[mk_entry 10 4 40; mk_entry 11 6 60]; [mk_entry 12 5 50]].

Lemma sample_ok : table_ok bump_live (sample_table [10; 12] 3) sample_world
  {[10; 11; 12]} {[4 := 40; 6 := 60; 5 := 50]}.
Proof.
  split; simpl.
  - exists sample_buckets. split; [|split; [done|vm_compute; done]]. split; simpl.
    + lia.
    + repeat constructor; simpl; eauto 20; lia.
    + vm_compute. repeat constructor; set_solver.
    + vm_compute. repeat constructor; set_solver.
    + repeat constructor.
    + unfold fits. lia.
  - intros x Hx. unfold bump_live. rewrite elem_of_list_to_set, elem_of_seqZ.
    rewrite !dom_insert_L, dom_singleton_L in Hx. set_solver by lia.
  - split; [unfold bump_live; rewrite elem_of_list_to_set, elem_of_seqZ; lia|].
    rewrite !dom_insert_L, dom_singleton_L. set_solver by lia.
Qed.

Section Properties.
Context {A : Type} `{MemoryServices A} (live : A -> gset Z).
Context (t : HASH64_TABLE A) {TF : TableFunctions live t}.
Context (w : world A) (fp : gset Z) (M : gmap Z Z).

(** [hash64_lookup] returns exactly the value the table's map has for the key:
    every walk over a chain ends and reads only nodes in use. *)
Theorem hash64_lookup_spec k : table_ok live t w fp M ->
  hash64_lookup (Some t) w k = Ok (M !! k).
Proof using TF. intros OK. by eapply lookup_ok. Qed.

(** Inserting an absent key either fails, when no node could be allocated, with
    the table unchanged, or adds the key with one fresh node; all other nodes of
    the store keep their content. *)
Theorem hash64_insert_spec k v : table_ok live t w fp M -> M !! k = None ->
  element_count t + 1 < 2 ^ 32 ->
  exists ok t' w', hash64_insert (Some t) w k v = Ok (ok, Some t', w') /\ frame fp w w' /\
    if ok then exists p, (p ∉ fp) /\ table_ok live t' w' ({[p]} ∪ fp) (<[k := v]> M)
    else t' = t /\ nodes w' = nodes w.
Proof using TF.
  intros OK Hk Hc.
  destruct (insert_absent live t w fp M k v false TF OK Hk Hc) as (ok & t' & w' & E & F & _ & R).
  exists ok, t', w'. unfold hash64_insert. simpl. rewrite E. split; [done|]. split; [done|].
  destruct ok; tauto.
Qed.

(** [hash64_update] sets the value of the key: in the node that holds it when the
    key is present, in a fresh node (or failing, table unchanged) when it is absent. *)
Theorem hash64_update_spec k v : table_ok live t w fp M -> element_count t + 1 < 2 ^ 32 ->
  exists ok t' w' fp', hash64_update (Some t) w k v = Ok (ok, Some t', w') /\ frame fp w w' /\
    table_ok live t' w' fp' (if ok then <[k := v]> M else M) /\
    (is_Some (M !! k) -> ok = true /\ t' = t /\ fp' = fp).
Proof using TF.
  intros OK Hc. unfold hash64_update. simpl. destruct (M !! k) as [v0|] eqn:Hk.
  - destruct (update_present live t w fp M k v v0 TF OK Hk) as (w' & -> & F & _ & R).
    by exists true, t, w', fp.
  - destruct (insert_absent live t w fp M k v true TF OK Hk Hc) as (ok & t' & w' & -> & F & _ & R).
    destruct ok; [destruct R as (p & _ & R)|destruct R as (_ & _ & R)];
      do 3 eexists; eexists; (split; [done|]); (split; [done|]); (split; [exact R|]);
      by intros [? [=]].
Qed.

(** C24. [hash64_remove] fails without any change when the key is absent; otherwise it
    deletes the key, releases its node and no other, and keeps every other node. *)
Theorem hash64_remove_spec k : table_ok live t w fp M ->
  (M !! k = None -> hash64_remove (Some t) w k = Ok (false, Some t, w)) /\
  (is_Some (M !! k) -> exists t' w' (p : Z), hash64_remove (Some t) w k = Ok (true, Some t', w') /\
     p ∈ fp /\ frame fp w w' /\ dom (nodes w') = (dom (nodes w) ∖ {[p]} : gset Z) /\
     table_ok live t' w' (fp ∖ {[p]}) (delete k M)).
Proof using TF.
  intros OK. split; [intros Hk; by eapply remove_absent|].
  intros [v Hk]. destruct (remove_present live t w fp M k v TF OK Hk) as (t' & w' & p & ?).
  exists t', w', p. tauto.
Qed.

(** C34. Resizing to a size [n] with 0 < n and 8 * n < 2^32 (the size of the new array is a 32-bit number)
    asks the table's allocator for 8 * n bytes. When it gives them, the call returns TRUE: the table has size
    [n] and the new array, the old array is given back, the nodes are the same, and the table holds the same
    map, every node in the cell its key hashes to. When it does not, the call returns FALSE and the table and
    its nodes are unchanged. *)
Theorem hash64_change_size_and_rehash_spec n arr a : table_ok live t w fp M -> 0 < n -> 8 * n < 2 ^ 32 ->
  call_mem_alloc (mem_alloc_func t) (8 * n) (alloc_state w) = (arr, a) ->
  if arr =? 0
  then hash64_change_size_and_rehash (Some t) w n = Ok (false, Some t, mk_world (nodes w) a) /\ table_ok live t (mk_world (nodes w) a) fp M
  else exists t' w', hash64_change_size_and_rehash (Some t) w n = Ok (true, Some t', w') /\
    hash_size t' = n /\ array t' = arr /\ alloc_state w' = call_mem_free (mem_dealloc_func t) (array t) a /\
    frame fp w w' /\ dom (nodes w') = dom (nodes w) /\ table_ok live t' w' fp M.
Proof using TF. intros OK Hn Hb EA. by apply (rehash_ok live t w fp M n TF OK Hn Hb). Qed.

(** The element count, and so [hash64_get_num_of_elements] and [hash64_is_empty],
    is the number of keys of the map. *)
Theorem hash64_count_spec : table_ok live t w fp M ->
  hash64_get_num_of_elements t = Z.of_nat (size M) /\
  (hash64_is_empty (Some t) = true <-> M = ∅).
Proof.
  intros [(bks & [_ _ _ RK _ [Hc _]] & -> & _) _ _].
  pose proof (contents_size bks RK) as Hs. unfold hash64_get_num_of_elements. simpl.
  rewrite Hc, <- Hs. split; [done|]. rewrite Z.eqb_eq, <- map_size_empty_iff. lia.
Qed.

(** Destroying a one-value table releases every node of the table and only those,
    and never touches a node after releasing it. *)
Theorem hash64_destroy_hash_spec : table_ok live t w fp M -> is_multiple_values_hash t = false ->
  exists w', hash64_destroy_hash t w = Ok w' /\
    forall q, nodes w' !! q = if decide (q ∈ fp) then None else nodes w !! q.
Proof.
  intros [(bks & [[Hs Hl] HC RP _ _ [Hc Hf]] & _ & ->) _ _] Hm. unfold fits in Hf.
  destruct (destroy_cells_ok live (cells t) bks [] t w Hm eq_refl HC RP Hc ltac:(lia)) as (t' & a & E).
  unfold hash64_destroy_hash, hash64_destroy_hash_internal. rewrite <- Hl, Nat2Z.id.
  change (Z.of_nat (length (@nil Z))) with 0 in E. rewrite E, bind_Ok. eexists. split; [done|].
  intros q. simpl. rewrite drop_nodes_lookup. destruct (decide (q ∈ ptr <$> concat bks)) as [X|X].
  - rewrite decide_True; [done|]. by apply elem_of_list_to_set.
  - rewrite decide_False; [done|]. by rewrite elem_of_list_to_set.
Qed.

(** [hash64_create_hash] fails, releasing what it allocated, or returns a table
    that holds the empty map. *)
Theorem hash64_create_hash_spec n : dom (nodes w) ⊆ live (alloc_state w) ->
  0 < n -> 8 * n < 2 ^ 32 ->
  exists o w', hash64_create_hash (hash_func t) (mem_alloc_func t) (mem_dealloc_func t)
      (node_alloc_func t) (node_dealloc_func t) (node_allocation_deallocation_context t) n w
      = Ok (o, w') /\ nodes w' = nodes w /\ dom (nodes w) ⊆ live (alloc_state w') /\
    (forall t', o = Some t' -> hash_size t' = n /\ table_ok live t' w' ∅ ∅).
Proof using TF.
  intros HL Hn Hb. unfold hash64_create_hash, hash64_create_hash_internal.
  destruct (call_mem_alloc (mem_alloc_func t) TABLE_SIZE (alloc_state w)) as [h1 a1] eqn:E1.
  destruct (mem_alloc_fresh _ _ _ _ E1) as [S1 F1].
  destruct (Z.eqb_spec h1 0) as [->|Hh]; [do 2 eexists; split_and!; [done|done|by etrans|done]|].
  destruct (call_mem_alloc (mem_alloc_func t) (8 * n) a1) as [arr a2] eqn:E2.
  destruct (mem_alloc_fresh _ _ _ _ E2) as [S2 F2]. destruct (F1 Hh) as [Hf1 Hf1'].
  destruct (Z.eqb_spec arr 0) as [->|Ha].
  { do 2 eexists. split_and!; [done|done| |done]. simpl.
    pose proof (mem_free_others (t := t) h1 a2) as Hfree.
    intros x Hx. apply Hfree. apply elem_of_difference. split; [by apply S2, S1, HL|].
    rewrite elem_of_singleton. intros ->. by apply Hf1, HL. }
  destruct (F2 Ha) as [Hf2 Hf2']. rewrite clear_cells_ok by lia. rewrite bind_Ok.
  do 2 eexists. split_and!; [done|done|by etrans; [|etrans]|]. intros t' [= <-].
  split; [done|]. split; simpl.
  - exists (replicate (Z.to_nat n) []). unfold contents. rewrite empty_concat. split; [|done].
    split; simpl; rewrite ?empty_concat; simpl.
    + rewrite length_replicate. lia.
    + apply empty_chains.
    + constructor.
    + constructor.
    + apply empty_hashed.
    + unfold fits. lia.
  - by etrans; [|etrans].
  - split; [done|]. by intros X%HL%S1.
Qed.

End Properties.

Notation tbl := (sample_table [10; 12] 3).
Notation fp0 := ({[10; 11; 12]} : gset Z).
Notation map0 := ({[4 := 40; 6 := 60; 5 := 50]} : gmap Z Z).

Lemma hash64_lookup_spec_witness :
  hash64_lookup (Some tbl) sample_world 6 = Ok (map0 !! 6) /\
  hash64_lookup (Some tbl) sample_world 8 = Ok (map0 !! 8).
Proof. split; apply (hash64_lookup_spec bump_live tbl sample_world fp0 map0), sample_ok. Defined.

Lemma hash64_insert_spec_witness :
  exists ok t' w', hash64_insert (Some tbl) sample_world 8 80 = Ok (ok, Some t', w') /\
    frame fp0 sample_world w' /\
    if ok then exists p, (p ∉ fp0) /\ table_ok bump_live t' w' ({[p]} ∪ fp0) (<[8 := 80]> map0)
    else t' = tbl /\ nodes w' = nodes sample_world.
Proof.
  apply (hash64_insert_spec bump_live tbl sample_world fp0 map0).
  - apply sample_ok.
  - vm_compute. reflexivity.
  - simpl. lia.
Defined.

Lemma hash64_update_spec_witness :
  exists ok t' w' fp', hash64_update (Some tbl) sample_world 5 51 = Ok (ok, Some t', w') /\
    frame fp0 sample_world w' /\
    table_ok bump_live t' w' fp' (if ok then <[5 := 51]> map0 else map0) /\
    (is_Some (map0 !! 5) -> ok = true /\ t' = tbl /\ fp' = fp0).
Proof.
  apply (hash64_update_spec bump_live tbl sample_world fp0 map0).
  - apply sample_ok.
  - simpl. lia.
Defined.

Lemma hash64_remove_spec_witness :
  (map0 !! 6 = None -> hash64_remove (Some tbl) sample_world 6 = Ok (false, Some tbl, sample_world)) /\
  (is_Some (map0 !! 6) -> exists t' w' (p : Z),
     hash64_remove (Some tbl) sample_world 6 = Ok (true, Some t', w') /\
     p ∈ fp0 /\ frame fp0 sample_world w' /\
     dom (nodes w') = (dom (nodes sample_world) ∖ {[p]} : gset Z) /\
     table_ok bump_live t' w' (fp0 ∖ {[p]}) (delete 6 map0)).
Proof. apply (hash64_remove_spec bump_live tbl sample_world fp0 map0), sample_ok. Defined.

Lemma hash64_change_size_and_rehash_spec_witness :
  exists t' w', hash64_change_size_and_rehash (Some tbl) sample_world 3 = Ok (true, Some t', w') /\
    hash_size t' = 3 /\ dom (nodes w') = dom (nodes sample_world) /\ table_ok bump_live t' w' fp0 map0.
Proof.
  pose proof (hash64_change_size_and_rehash_spec bump_live tbl sample_world fp0 map0 3 20 21 sample_ok ltac:(lia) ltac:(lia) eq_refl)
    as (t' & w' & E & H1 & _ & _ & _ & H2 & H3).
  exists t', w'. split; [exact E|]. split; [exact H1|]. split; [exact H2|exact H3].
Defined.

Lemma hash64_count_spec_witness :
  hash64_get_num_of_elements tbl = Z.of_nat (size map0) /\
  (hash64_is_empty (Some tbl) = true <-> map0 = ∅).
Proof. apply (hash64_count_spec bump_live tbl sample_world fp0 map0), sample_ok. Defined.

Lemma hash64_destroy_hash_spec_witness :
  exists w', hash64_destroy_hash tbl sample_world = Ok w' /\
    forall q, nodes w' !! q = if decide (q ∈ fp0) then None else nodes sample_world !! q.
Proof.
  apply (hash64_destroy_hash_spec bump_live tbl sample_world fp0 map0).
  - apply sample_ok.
  - reflexivity.
Defined.

Lemma hash64_create_hash_spec_witness :
  exists o w', hash64_create_hash hash64_default_hash_func None None
      hash64_default_node_alloc_func hash64_default_node_dealloc_func 0 7 (mk_world ∅ 5)
      = Ok (o, w') /\ nodes w' = ∅ /\ dom (∅ : gmap Z HASH64_NODE) ⊆ bump_live (alloc_state w') /\
    (forall t', o = Some t' -> hash_size t' = 7 /\ table_ok bump_live t' w' ∅ ∅).
Proof.
  apply (hash64_create_hash_spec bump_live (sample_table [] 0) (mk_world ∅ 5)); simpl;
    [rewrite dom_empty_L; set_solver|lia|lia].
Defined.

(** Inserting a key that is already present does not return FALSE, as
    hash64_api.h documents: it returns TRUE and adds a second entry for the key,
    so that removing the key afterwards brings the old value back. *)
Theorem hash64_insert_duplicate :
  (r1 ← hash64_insert (Some tbl) sample_world 5 55;
   let '(inserted, t1, w1) := r1 in
   v1 ← hash64_lookup t1 w1 5;
   r2 ← hash64_remove t1 w1 5;
   let '(removed, t2, w2) := r2 in
   v2 ← hash64_lookup t2 w2 5;
   Ok (inserted, hash64_get_num_of_elements <$> t1, v1, removed, v2))
  = Ok (true, Some 4, Some 55, true, Some 50).
Proof. vm_compute. reflexivity. Qed.
