(* ===== verification/Mtrr.v ===== *)
(** arch/mtrrs_abstraction.c: the cached copy of the memory type range registers,
    the memory type of an address and of a range, and the tracking of a guest's
    writes to the registers. *)

From S2P Require Import Prelude VmmDefs Address.

(** * Register layouts *)

(** The bit field of [n] bits from bit [lo]. *)
Definition field (v lo n : Z) : Z := Z.land (Z.shiftr v lo) (Z.ones n).

(** IA32_MTRRCAP_REG *)
Definition cap_vcnt (v : Z) : Z := field v 0 8.
Definition cap_fix (v : Z) : Z := field v 8 1.
(** IA32_MTRR_DEF_TYPE_REG *)
Definition def_type (v : Z) : Z := field v 0 8.
Definition def_res0 (v : Z) : Z := field v 8 2.
Definition def_fixed_range_enable (v : Z) : Z := field v 10 1.
Definition def_enable (v : Z) : Z := field v 11 1.
Definition def_res1 (v : Z) : Z := field v 12 20.
(** IA32_FIXED_RANGE_MTRR: 8 types of one byte *)
Definition fixed_type (v i : Z) : Z := field v (8 * i) 8.
(** IA32_MTRR_PHYSBASE_REG *)
Definition base_type (v : Z) : Z := field v 0 8.
Definition base_res0 (v : Z) : Z := field v 8 4.
Definition base_low (v : Z) : Z := field v 12 20.
Definition base_high (v : Z) : Z := field v 32 20.
Definition base_res1 (v : Z) : Z := field v 52 12.
(** IA32_MTRR_PHYSMASK_REG *)
Definition mask_res0 (v : Z) : Z := field v 0 11.
Definition mask_valid (v : Z) : Z := field v 11 1.
Definition mask_low (v : Z) : Z := field v 12 20.
Definition mask_high (v : Z) : Z := field v 32 20.
Definition mask_res1 (v : Z) : Z := field v 52 12.

(** VMM_PHYS_MEM_TYPE *)
Definition UC : Z := 0.
Definition WC : Z := 1.
Definition WT : Z := 4.
Definition WP : Z := 5.
Definition WB : Z := 6.
Definition UNDEFINED : Z := -1.

(** MSR numbers (mtrrs_abstraction.h) *)
Definition IA32_MTRRCAP_ADDR : Z := 254.
Definition IA32_MTRR_DEF_TYPE_ADDR : Z := 767.
Definition IA32_MTRR_PHYSBASE0_ADDR : Z := 512.
Definition IA32_MTRR_PHYSMASK0_ADDR : Z := 513.
Definition IA32_MTRR_PHYSBASE8_ADDR : Z := 528.
Definition IA32_MTRR_MAX_PHYSMASK_ADDR : Z := 531.
Definition IA32_MTRR_FIX64K_00000_ADDR : Z := 592.
Definition IA32_MTRR_FIX4K_F8000_ADDR : Z := 623.
Definition fixed_msrs : list Z := [592; 600; 601; 616; 617; 618; 619; 620; 621; 622; 623].

Definition NUM_FIXED : Z := 11.
Definition NUM_VAR : Z := 10.

(** * State *)

(** [mtrrs_cached_info], with the two other static variables of the file. *)
Record mtrr_info := mk_info {
  mtrrcap : Z;
  mtrr_def_type : Z;
  mtrr_fix : list Z;
  fix_range : list (Z * Z);
  var_base : list Z;
  var_mask : list Z;
  is_initialized : bool;
  MTRR_MSBs : Z
}.

Definition zero_info (msbs : Z) : mtrr_info :=
  mk_info 0 0 (replicate 11 0) (replicate 11 (0, 0)) (replicate 10 0) (replicate 10 0) false msbs.

Definition mtrrs_abstraction_get_num_of_variable_range_regs (s : mtrr_info) : Z :=
  cap_vcnt (mtrrcap s).
Definition mtrrs_abstraction_are_fixed_regs_supported (s : mtrr_info) : bool :=
  negb (cap_fix (mtrrcap s) =? 0).
Definition mtrrs_abstraction_are_mtrrs_enabled (s : mtrr_info) : bool :=
  negb (def_enable (mtrr_def_type s) =? 0).
Definition mtrrs_abstraction_are_fixed_ranged_mtrrs_enabled (s : mtrr_info) : bool :=
  negb (def_fixed_range_enable (mtrr_def_type s) =? 0).
Definition mtrrs_abstraction_get_default_memory_type (s : mtrr_info) : Z :=
  def_type (mtrr_def_type s).

(** The accessors of one variable range register, on its value. *)
Definition is_var_reg_valid (mask : Z) : bool := negb (mask_valid mask =? 0).
Definition get_address_from_reg (base : Z) : Z :=
  Z.lor (Z.shiftl (base_high base) 32) (u32 (Z.shiftl (base_low base) 12)).
Definition get_mask_from_reg (mask : Z) : Z :=
  Z.lor (Z.shiftl (mask_high mask) 32) (u32 (Z.shiftl (mask_low mask) 12)).

(** Whether the register covers the address, and the bytes from the address to the
    end of its range ([remsize], left as it was when the address is not covered). *)
Definition is_addr_covered_by_var_reg (msbs base mask address remsize : Z) : bool * Z :=
  let phys_base := get_address_from_reg base in
  let phys_mask := get_mask_from_reg mask in
  let mask_base := Z.land phys_base phys_mask in
  let mask_target := Z.land phys_mask address in
  if mask_base =? mask_target
  then (true, u64 (Z.land phys_base phys_mask + u64 (Z.lnot (Z.lor phys_mask msbs)) + 1 - address))
  else (false, remsize).

Definition mttrs_abstraction_is_type_valid (t : Z) : bool :=
  (t =? UC) || (t =? WC) || (t =? WT) || (t =? WP) || (t =? WB).

Definition is_IA32_MTRR_DEF_TYPE_valid (v : Z) : bool :=
  (def_res0 v =? 0) && (def_res1 v =? 0) && mttrs_abstraction_is_type_valid (def_type v).
Definition is_IA32_MTRR_PHYSBASE_REG_valid (v : Z) : bool :=
  (base_res0 v =? 0) && (base_res1 v =? 0) && mttrs_abstraction_is_type_valid (base_type v).
Definition is_IA32_MTRR_PHYSMASK_REG_valid (v : Z) : bool :=
  (mask_res0 v =? 0) && (mask_res1 v =? 0).
Definition is_IA32_FIXED_RANGE_REG_valid (v : Z) : bool :=
  forallb (fun i => mttrs_abstraction_is_type_valid (fixed_type v i)) (seqZ 0 8).

(** The loop over PHYSMASK9 and PHYSMASK8 ([i] = 1, 2). *)
Definition mtrrs_is_variable_mtrrr_supported (s : mtrr_info) (msr_id : Z) : bool :=
  if (IA32_MTRR_PHYSBASE8_ADDR <=? msr_id) && (msr_id <=? IA32_MTRR_MAX_PHYSMASK_ADDR) then
    let test index i := (index =? msr_id) || (index - 1 =? msr_id) in
    let supported i := NUM_VAR - i <? mtrrs_abstraction_get_num_of_variable_range_regs s in
    if test IA32_MTRR_MAX_PHYSMASK_ADDR 1 then supported 1
    else if test (IA32_MTRR_MAX_PHYSMASK_ADDR - 2) 2 then supported 2
    else true
  else true.

(** * Initialisation *)

Section Msr.
(** hw_read_msr of the executing CPU. *)
Context (hw_read_msr : Z -> Z).

Definition fixed_ranges : list (Z * Z) :=
  [(0x0, 0x7ffff); (0x80000, 0x9ffff); (0xa0000, 0xbffff); (0xc0000, 0xc7fff);
   (0xc8000, 0xcffff); (0xd0000, 0xd7fff); (0xd8000, 0xdffff); (0xe0000, 0xe7fff);
   (0xe8000, 0xeffff); (0xf0000, 0xf7fff); (0xf8000, 0xfffff)].

(** One iteration of the loop over the variable range registers. *)
Definition read_var (i : Z) (bm : list Z * list Z) : outcome (list Z * list Z) :=
  let msr_addr := IA32_MTRR_PHYSBASE0_ADDR + 2 * i in
  b ← wr bm.1 i (hw_read_msr msr_addr);
  m ← wr bm.2 i (hw_read_msr (msr_addr + 1));
  Ok (b, m).

Definition mtrrs_abstraction_bsp_initialize (space : address_space) (s : mtrr_info)
  : outcome (mtrr_info * bool) :=
  let s := zero_info (MTRR_MSBs s) in
  let cap := hw_read_msr IA32_MTRRCAP_ADDR in
  let def := hw_read_msr IA32_MTRR_DEF_TYPE_ADDR in
  let fixed := negb (cap_fix cap =? 0) in
  bm ← for_range 0 (cap_vcnt cap) read_var (var_base s, var_mask s);
  Ok (mk_info cap def
        (if fixed then hw_read_msr <$> fixed_msrs else mtrr_fix s)
        (if fixed then fixed_ranges else fix_range s)
        bm.1 bm.2 true
        (u64 (Z.lnot (u64 (Z.shiftl 1 (addr_get_physical_address_size space) - 1)))),
      true).

(** The comparison loop of an AP; an index past the arrays faults. *)
Fixpoint compare_vars (n : nat) (i : Z) (s : mtrr_info) : outcome bool :=
  match n with
  | O => Ok true
  | S n' =>
      let msr_addr := IA32_MTRR_PHYSBASE0_ADDR + 2 * i in
      b ← rd (var_base s) i;
      if negb (b =? hw_read_msr msr_addr) then Ok false
      else
        m ← rd (var_mask s) i;
        if negb (m =? hw_read_msr (msr_addr + 1)) then Ok false
        else compare_vars n' (i + 1) s
  end.

Definition mtrrs_abstraction_ap_initialize (s : mtrr_info) : outcome bool :=
  if negb (is_initialized s) then Ok false
  else if negb (mtrrcap s =? hw_read_msr IA32_MTRRCAP_ADDR) then Ok false
  else if negb (mtrr_def_type s =? hw_read_msr IA32_MTRR_DEF_TYPE_ADDR) then Ok false
  else if mtrrs_abstraction_are_fixed_regs_supported s &&
          negb (bool_decide (mtrr_fix s = hw_read_msr <$> fixed_msrs)) then Ok false
  else compare_vars (Z.to_nat (mtrrs_abstraction_get_num_of_variable_range_regs s)) 0 s.

End Msr.

(** * The memory type of an address *)

(** The fixed range that contains the address, scanning from index [i]. *)
Fixpoint fixed_lookup (ranges : list (Z * Z)) (fix_ : list Z) (address : Z) : outcome (option (Z * Z)) :=
  match ranges, fix_ with
  | (start_addr, end_addr) :: ranges', v :: fix' =>
      if address <=? end_addr then
        let offset := address ⊖₆₄ start_addr in
        let size := (end_addr ⊕₃₂ 1) ⊖₃₂ start_addr in
        let sub_range_size := size / 8 in
        if sub_range_size =? 0 then Fault
        else
          let sub_range_index := offset / sub_range_size in
          let remsize := u64 (u64 (u64 (sub_range_index + 1) * sub_range_size) - offset) in
          if sub_range_index <? 8 then Ok (Some (fixed_type v sub_range_index, remsize)) else Fault
      else fixed_lookup ranges' fix' address
  | _, _ => Ok None
  end.

(** The local variables of the loop over the variable range registers. *)
Record scan := mk_scan {
  bitmap : Z;
  type_ : Z;
  remsize : Z;
  remsize_back : Z;
  type_back : Z
}.

(** The loop body for a valid register. *)
Definition scan_reg (msbs address base mask : Z) (st : scan) : outcome scan :=
  let '(covered, rem) := is_addr_covered_by_var_reg msbs base mask address (remsize st) in
  if covered then
    let type := base_type base in
    bit ← shl_one type;
    let bm := Z.lor (bitmap st) bit in
    if 0 <? remsize_back st then
      if (type =? UC) || (type_back st =? UC) then
        let rb := if negb (type_back st =? UC) then rem else remsize_back st in
        let rem := if negb (type =? UC) then 0 else rem in
        let rb := if (type =? UC) && (type_back st =? UC)
                  then (if rem <? rb then rb else rem) else rb in
        Ok (mk_scan bm type 0 rb UC)
      else
        Ok (mk_scan bm type 0 (if rem <? remsize_back st then rem else remsize_back st) type)
    else Ok (mk_scan bm type 0 rem type)
  else
    let range_base := get_address_from_reg base in
    if (address <? range_base) && (range_base <? address ⊕₆₄ remsize_back st)
    then Ok (mk_scan (bitmap st) (type_ st) rem (range_base ⊖₆₄ address) (type_back st))
    else Ok (mk_scan (bitmap st) (type_ st) rem (remsize_back st) (type_back st)).

Definition scan_index (s : mtrr_info) (address : Z) (i : Z) (st : scan) : outcome scan :=
  m ← rd (var_mask s) i;
  if negb (is_var_reg_valid m) then Ok st
  else b ← rd (var_base s) i; scan_reg (MTRR_MSBs s) address b m st.

(** The type chosen from the types of the registers that cover the address. *)
Definition combine_types (s : mtrr_info) (st : scan) : Z :=
  if bitmap st =? 0 then mtrrs_abstraction_get_default_memory_type s
  else if IS_POW_OF_2 (bitmap st) then type_ st
  else if Z.land (Z.shiftr (bitmap st) UC) 1 =? 1 then UC
  else if Z.lor (Z.shiftl 1 WT) (Z.shiftl 1 WB) =? bitmap st then WT
  else UNDEFINED.

(** Returns the type and the value left in [remsize]. The loop breaks at the tenth
    register. *)
Definition mtrrs_abstraction_get_memory_type (s : mtrr_info) (address : Z) : outcome (Z * Z) :=
  if negb (mtrrs_abstraction_are_mtrrs_enabled s) then Ok (UC, 0)
  else
    last ← rd (fix_range s) (NUM_FIXED - 1);
    r ← (if mtrrs_abstraction_are_fixed_regs_supported s &&
            mtrrs_abstraction_are_fixed_ranged_mtrrs_enabled s && (address <=? last.2)
         then fixed_lookup (fix_range s) (mtrr_fix s) address else Ok None);
    match r with
    | Some p => Ok p
    | None =>
        st ← for_range 0 (Z.min (mtrrs_abstraction_get_num_of_variable_range_regs s) NUM_VAR)
               (scan_index s address) (mk_scan 0 UNDEFINED 0 0 UNDEFINED);
        Ok (combine_types s st, remsize_back st)
    end.

(** [for (mem_type = first; mem_type == first && range_size < totalsize; ...)] *)
Fixpoint range_loop (fuel : nat) (s : mtrr_info) (address total first mem_type rem range_size : Z)
  : outcome Z :=
  if (mem_type =? first) && (range_size <? total) then
    match fuel with
    | O => Spin
    | S fuel' =>
        let range_size := if negb (rem =? 0) then range_size ⊕₆₄ rem else range_size ⊕₆₄ 4096 in
        r ← mtrrs_abstraction_get_memory_type s (address ⊕₆₄ range_size);
        range_loop fuel' s address total first r.1 r.2 range_size
    end
  else Ok range_size.

Definition mtrrs_abstraction_get_range_memory_type (fuel : nat) (s : mtrr_info)
  (address totalsize : Z) : outcome (Z * Z) :=
  r ← mtrrs_abstraction_get_memory_type s address;
  size ← range_loop fuel s address totalsize r.1 r.1 r.2 0;
  Ok (r.1, size).

(** * Tracking writes *)

Definition set_fix (s : mtrr_info) (f : list Z) : mtrr_info :=
  mk_info (mtrrcap s) (mtrr_def_type s) f (fix_range s) (var_base s) (var_mask s)
    (is_initialized s) (MTRR_MSBs s).
Definition set_def_type (s : mtrr_info) (v : Z) : mtrr_info :=
  mk_info (mtrrcap s) v (mtrr_fix s) (fix_range s) (var_base s) (var_mask s)
    (is_initialized s) (MTRR_MSBs s).
Definition set_vars (s : mtrr_info) (b m : list Z) : mtrr_info :=
  mk_info (mtrrcap s) (mtrr_def_type s) (mtrr_fix s) (fix_range s) b m
    (is_initialized s) (MTRR_MSBs s).

(** The switch on the MSR number of a fixed range register. *)
Definition fixed_index (mtrr_index : Z) : option Z :=
  Z.of_nat <$> (fst <$> list_find (fun m => m = mtrr_index) fixed_msrs).

Definition mtrrs_abstraction_track_mtrr_update (s : mtrr_info) (mtrr_index value : Z)
  : outcome (bool * mtrr_info) :=
  if mtrr_index =? IA32_MTRR_DEF_TYPE_ADDR then
    if negb (is_IA32_MTRR_DEF_TYPE_valid value) then Ok (false, s)
    else Ok (true, set_def_type s value)
  else if (IA32_MTRR_FIX64K_00000_ADDR <=? mtrr_index) && (mtrr_index <=? IA32_MTRR_FIX4K_F8000_ADDR) then
    match fixed_index mtrr_index with
    | None => Ok (false, s)
    | Some i =>
        if negb (is_IA32_FIXED_RANGE_REG_valid value) then Ok (false, s)
        else f ← wr (mtrr_fix s) i value; Ok (true, set_fix s f)
    end
  else if (IA32_MTRR_PHYSBASE0_ADDR <=? mtrr_index) && (mtrr_index <=? IA32_MTRR_MAX_PHYSMASK_ADDR) then
    if mtrr_index mod 2 =? 0 then
      if negb (is_IA32_MTRR_PHYSBASE_REG_valid value) then Ok (false, s)
      else b ← wr (var_base s) ((mtrr_index - IA32_MTRR_PHYSBASE0_ADDR) / 2) value;
           Ok (true, set_vars s b (var_mask s))
    else
      if negb (is_IA32_MTRR_PHYSMASK_REG_valid value) then Ok (false, s)
      else m ← wr (var_mask s) ((mtrr_index - IA32_MTRR_PHYSMASK0_ADDR) / 2) value;
           Ok (true, set_vars s (var_base s) m)
  else Ok (false, s).

(** * Reference: which type the registers give an address *)

(** A variable range register as the range of addresses it covers. *)
Record range := mk_range { lo : Z; hi : Z; ty : Z }.
Definition covers (a : Z) (r : range) : bool := (lo r <=? a) && (a <? hi r).

(** The types of the registers that cover the address, in order. *)
Definition covering (rs : list range) (a : Z) : list Z := ty <$> filter (fun r => covers a r = true) rs.

(** The rule of the processor manual: no register, the default type; one type (on
    one or several registers), that type; UC wins over everything; WT over WB;
    other combinations are undefined. *)
Definition effective_type (default : Z) (ts : list Z) : Z :=
  match ts with
  | [] => default
  | t :: ts' =>
      if bool_decide (Forall (fun x => x = t) ts') then t
      else if bool_decide (UC ∈ ts) then UC
      else if bool_decide (Forall (fun x => x = WT \/ x = WB) ts) then WT
      else UNDEFINED
  end.

(** The register pair (base, mask) covers the 2^k bytes from its base, [P] being the
    width of physical addresses. *)
Definition reg_wf (P : Z) (bm : Z * Z) (r : range) : Prop :=
  exists k, 12 <= k <= P /\ P <= 52 /\
    get_mask_from_reg bm.2 = 2 ^ P - 2 ^ k /\ get_address_from_reg bm.1 = lo r /\
    lo r mod 2 ^ k = 0 /\ 0 <= lo r < 2 ^ P /\ hi r = lo r + 2 ^ k /\
    ty r = base_type bm.1 /\ ty r < 8.

(** * Facts on masks *)

Lemma mask_ldiff P k : 0 <= k <= P -> 2 ^ P - 2 ^ k = Z.ldiff (Z.ones P) (Z.ones k).
Proof.
  intros H. rewrite <- Z.sub_nocarry_ldiff.
  - rewrite !Z.ones_equiv. lia.
  - apply Z.bits_inj_iff'. intros n Hn. rewrite Z.ldiff_spec, Z.bits_0.
    rewrite !Z.testbit_ones_nonneg by lia. destruct (Z.ltb_spec n k), (Z.ltb_spec n P); lia.
Qed.

Lemma land_range_mask x P k : 0 <= k <= P -> 0 <= x < 2 ^ P ->
  Z.land x (2 ^ P - 2 ^ k) = x - x mod 2 ^ k.
Proof.
  intros Hk Hx. rewrite <- (land_lnot_ones x k) by lia. rewrite (mask_ldiff P k Hk).
  replace (2 ^ k - 1) with (Z.ones k) by (rewrite Z.ones_equiv; lia).
  rewrite Z.ldiff_land, Z.land_assoc, Z.land_ones by lia. by rewrite Z.mod_small by lia.
Qed.

Lemma complement_mask P k : 0 <= k <= P -> P <= 64 ->
  u64 (Z.lnot (Z.lor (2 ^ P - 2 ^ k) (2 ^ 64 - 2 ^ P))) = 2 ^ k - 1.
Proof.
  intros Hk HP. replace (Z.lor (2 ^ P - 2 ^ k) (2 ^ 64 - 2 ^ P)) with (2 ^ 64 - 2 ^ k).
  - unfold u64, wrap, Z.lnot.
    assert (2 ^ k <= 2 ^ 64) by (apply Z.pow_le_mono_r; lia). assert (0 < 2 ^ k) by lia.
    replace (Z.pred (- (2 ^ 64 - 2 ^ k))) with (2 ^ k - 1 + (-1) * 2 ^ 64) by lia.
    rewrite Z.mod_add by lia. apply Z.mod_small. lia.
  - rewrite !mask_ldiff by lia. apply Z.bits_inj_iff'. intros n Hn.
    rewrite Z.lor_spec, !Z.ldiff_spec, !Z.testbit_ones_nonneg by lia.
    destruct (Z.ltb_spec n k), (Z.ltb_spec n P), (Z.ltb_spec n 64); simpl; done || (exfalso; lia).
Qed.

Lemma covered_spec P bm r a rem : reg_wf P bm r -> 0 <= a < 2 ^ P ->
  is_addr_covered_by_var_reg (2 ^ 64 - 2 ^ P) bm.1 bm.2 a rem
    = if covers a r then (true, hi r - a) else (false, rem).
Proof.
  intros (k & Hk & HP & Hm & Hb & Hal & Hlo & Hhi & _) Ha.
  unfold is_addr_covered_by_var_reg. rewrite Hb, Hm.
  rewrite (Z.land_comm _ a), !land_range_mask by lia. rewrite Hal, Z.sub_0_r.
  assert (0 < 2 ^ k) as Hpos by lia.
  pose proof (Z.mod_pos_bound a (2 ^ k) Hpos) as Hmod.
  assert (lo r = a - a mod 2 ^ k <-> lo r <= a < hi r) as Hiff.
  { rewrite Hhi. split; [lia|]. intros Hr.
    rewrite (Z.div_mod (lo r) (2 ^ k)) in Hr |- * by lia. rewrite Hal, Z.add_0_r in *.
    rewrite (Z.div_mod a (2 ^ k)) at 1 by lia.
    assert (a / 2 ^ k = lo r / 2 ^ k) by (symmetry; apply (Z.div_unique_pos _ _ _ (a - 2 ^ k * (lo r / 2 ^ k))); lia).
    lia. }
  unfold covers. destruct (Z.eqb_spec (lo r) (a - a mod 2 ^ k)) as [E|E].
  - apply Hiff in E. rewrite (proj2 (Z.leb_le _ _)), (proj2 (Z.ltb_lt _ _)) by lia. simpl.
    rewrite complement_mask by lia. f_equal.
    assert (2 ^ P <= 2 ^ 52) by (apply Z.pow_le_mono_r; lia).
    assert (2 ^ k <= 2 ^ P) by (apply Z.pow_le_mono_r; lia). rewrite u64_small by lia. lia.
  - destruct (Z.leb_spec (lo r) a), (Z.ltb_spec a (hi r)); simpl; try done. exfalso. apply E. tauto.
Qed.

(** * The scan over the registers *)

(** The loop as a fold over the valid registers. *)
Fixpoint scan_all (msbs a : Z) (regs : list (Z * Z)) (st : scan) : outcome scan :=
  match regs with
  | [] => Ok st
  | bm :: regs' =>
      if is_var_reg_valid bm.2 then st' ← scan_reg msbs a bm.1 bm.2 st; scan_all msbs a regs' st'
      else scan_all msbs a regs' st
  end.

Lemma scan_loop s a bs ms : forall preb prem st,
  var_base s = preb ++ bs -> var_mask s = prem ++ ms -> length preb = length prem ->
  forall n, (n <= length bs)%nat -> (n <= length ms)%nat ->
  loop_up n (Z.of_nat (length prem)) (scan_index s a) st
    = scan_all (MTRR_MSBs s) a (take n (zip bs ms)) st.
Proof.
  revert ms. induction bs as [|b bs IH]; intros ms preb prem st Hb Hm Hl n Hn1 Hn2.
  { simpl in Hn1. by replace n with 0%nat by lia. }
  destruct n as [|n]; [done|]. destruct ms as [|m ms]; [simpl in Hn2; lia|].
  cbn [loop_up take zip_with scan_all fst snd].
  assert (scan_index s a (Z.of_nat (length prem)) st
    = if is_var_reg_valid m then scan_reg (MTRR_MSBs s) a b m st else Ok st) as ->.
  { unfold scan_index. rewrite Hm, Hb.
    rewrite (rd_ok (prem ++ m :: ms) _ m) by (lia || by apply lookup_middle_eq; lia).
    rewrite (rd_ok (preb ++ b :: bs) _ b) by (lia || by apply lookup_middle_eq; lia).
    rewrite !bind_Ok. by destruct (is_var_reg_valid m). }
  assert (forall st', loop_up n (Z.of_nat (length prem) + 1) (scan_index s a) st'
      = scan_all (MTRR_MSBs s) a (take n (zip bs ms)) st') as IH'.
  { intros st'. replace (Z.of_nat (length prem) + 1) with (Z.of_nat (length (prem ++ [m])))
      by (rewrite length_app; simpl; lia).
    apply (IH ms (preb ++ [b]) (prem ++ [m])); simpl in Hn1, Hn2;
      rewrite ?length_app; simpl length; try lia.
    - by rewrite Hb, <- app_assoc.
    - by rewrite Hm, <- app_assoc. }
  destruct (is_var_reg_valid m); [|rewrite bind_Ok; apply IH'].
  destruct (scan_reg (MTRR_MSBs s) a b m st); [rewrite !bind_Ok; apply IH'|done|done].
Qed.

(** What is known of a scan after the registers [rs]: the types seen, and how far the
    match of every register is known to stay as it is at the address. *)
Definition type_bits (ts : list Z) : Z := foldl (fun b t => Z.lor b (2 ^ t)) 0 ts.

Definition steady (a rem : Z) (r : range) : Prop :=
  forall a', a <= a' < a + rem -> covers a' r = covers a r.

Definition reach_ok (a : Z) (rs : list range) (st : scan) : Prop :=
  (covering rs a = [] /\ remsize_back st = 0 /\ Forall (fun r => lo r <= a) rs) \/
  (0 < remsize_back st /\ type_back st = UC /\
     exists r, r ∈ rs /\ ty r = UC /\ lo r <= a /\ a + remsize_back st <= hi r) \/
  (0 < remsize_back st /\ type_back st <> UC /\ UC ∉ covering rs a /\
     forall r, r ∈ rs -> steady a (remsize_back st) r).

(** The registers before the first one that covers the address start below it. *)
Fixpoint starts_below (a : Z) (rs : list range) : Prop :=
  match rs with
  | [] => True
  | r :: rs' => covers a r = true \/ (lo r <= a /\ starts_below a rs')
  end.

Lemma covering_snoc rs r a :
  covering (rs ++ [r]) a = covering rs a ++ (if covers a r then [ty r] else []).
Proof.
  unfold covering. rewrite filter_app, fmap_app. f_equal. rewrite filter_cons, filter_nil.
  destruct (covers a r); [by rewrite decide_True|by rewrite decide_False].
Qed.

Lemma field_nonneg v l n : 0 <= n -> 0 <= field v l n.
Proof.
  intros Hn. unfold field. rewrite Z.land_ones by done. apply Z.mod_pos_bound. lia.
Qed.

Lemma covers_spec a r : covers a r = true <-> lo r <= a < hi r.
Proof. unfold covers. rewrite andb_true_iff, Z.leb_le, Z.ltb_lt. done. Qed.
Lemma covers_false a r : covers a r = false <-> a < lo r \/ hi r <= a.
Proof. unfold covers. rewrite andb_false_iff, Z.leb_gt, Z.ltb_ge. done. Qed.

Lemma steady_smaller a rem rem' r : steady a rem r -> rem' <= rem -> steady a rem' r.
Proof. intros H Hr a' Ha. apply H. lia. Qed.

Lemma steady_covered a rem r : covers a r = true -> a + rem <= hi r -> steady a rem r.
Proof. intros Hc Hr a' Ha. rewrite Hc. apply covers_spec in Hc. apply covers_spec. lia. Qed.

Lemma steady_below a rem r : covers a r = false -> lo r <= a -> steady a rem r.
Proof. intros Hc Hr a' Ha. rewrite Hc. apply covers_false in Hc. apply covers_false. lia. Qed.

Lemma steady_above a rem r : a + rem <= lo r -> steady a rem r.
Proof.
  intros Hr a' Ha. transitivity false; [|symmetry]; apply covers_false; lia.
Qed.

Lemma reg_wf_bounds P bm r : reg_wf P bm r -> 0 <= lo r < hi r /\ hi r <= 2 ^ 53 /\ 0 <= ty r < 8.
Proof.
  intros (k & Hk & HP & _ & _ & _ & Hlo & Hhi & Ht & Ht8).
  assert (2 ^ P <= 2 ^ 52) by (apply Z.pow_le_mono_r; lia).
  assert (2 ^ k <= 2 ^ P) by (apply Z.pow_le_mono_r; lia).
  split; [lia|]. split; [lia|]. split; [|done]. rewrite Ht. apply field_nonneg. lia.
Qed.

Record scan_ok (a : Z) (rs : list range) (st : scan) : Prop := {
  sc_bitmap : bitmap st = type_bits (covering rs a);
  sc_type : type_ st = default UNDEFINED (last (covering rs a));
  sc_bound : 0 <= remsize_back st <= 2 ^ 53
}.

(** One register of the scan, when it covers the address. *)
Lemma scan_reg_covered P bm r a rs st : reg_wf P bm r -> 0 <= a < 2 ^ P -> P <= 52 ->
  covers a r = true -> scan_ok a rs st ->
  exists st', scan_reg (2 ^ 64 - 2 ^ P) a bm.1 bm.2 st = Ok st' /\ scan_ok a (rs ++ [r]) st' /\
    (reach_ok a rs st -> reach_ok a (rs ++ [r]) st').
Proof.
  intros W Ha HP Hc [Sb St Sr]. pose proof (reg_wf_bounds P bm r W) as (Hb1 & Hb2 & Hty).
  unfold scan_reg. rewrite (covered_spec P bm r a _ W Ha), Hc.
  destruct W as (k & _ & _ & _ & _ & _ & _ & _ & <- & _).
  unfold shl_one. rewrite (proj2 (Z.leb_le 0 (ty r))), (proj2 (Z.ltb_lt (ty r) 32)) by lia.
  cbv beta iota zeta. cbn [andb]. rewrite bind_Ok. apply covers_spec in Hc as Hc'.
  assert (forall rem rb tb, 0 <= rb <= 2 ^ 53 ->
    scan_ok a (rs ++ [r]) (mk_scan (Z.lor (bitmap st) (2 ^ ty r)) (ty r) rem rb tb)) as Hsc.
  { intros rem rb tb Hrb. split; simpl; [| |done]; rewrite covering_snoc, Hc.
    - unfold type_bits. rewrite foldl_app. simpl. fold (type_bits (covering rs a)). by rewrite Sb.
    - by rewrite last_snoc. }
  assert (r ∈ rs ++ [r]) as Hin by (apply elem_of_app; right; left).
  assert (UC ∉ covering rs a -> ty r <> UC -> UC ∉ covering (rs ++ [r]) a) as Hnu.
  { intros H1 H2. rewrite covering_snoc, Hc. rewrite not_elem_of_app. split; [done|].
    rewrite list_elem_of_singleton. congruence. }
  destruct (Z.ltb_spec 0 (remsize_back st)) as [Hpos|Hz].
  - destruct (Z.eqb_spec (ty r) UC) as [Eu|Eu]; [|destruct (Z.eqb_spec (type_back st) UC) as [Eb|Eb]]; simpl orb; cbv iota.
    + eexists. split; [done|]. split; [apply Hsc; destruct (type_back st =? UC); simpl; zcases; lia|].
      intros [(_ & E & _)|[(_ & E2 & r0 & Hr0 & Ht0 & Hl0 & Hh0)|(_ & E3 & _ & _)]]; [lia| |]; right; left.
      * rewrite E2. simpl. split_and!; [zcases; lia|done|].
        destruct (Z.ltb_spec (hi r - a) (remsize_back st)).
        -- exists r0. split_and!; [apply elem_of_app; by left|done|done|done].
        -- exists r. split_and!; [done..|lia|lia].
      * rewrite (proj2 (Z.eqb_neq _ _)) by done. simpl. split_and!; [lia|done|].
        exists r. split_and!; [done..|lia|lia].
    + eexists. split; [done|]. split; [by apply Hsc|].
      intros [(_ & E & _)|[(_ & _ & r0 & Hr0 & Ht0 & Hl0 & Hh0)|(_ & E3 & _)]]; [lia| |done].
      right; left. simpl. split_and!; [done..|]. exists r0.
      split_and!; [apply elem_of_app; by left|done|done|done].
    + eexists. split; [done|]. split; [apply Hsc; zcases; lia|].
      intros [(_ & E & _)|[(_ & E2 & _)|(_ & _ & E3 & E4)]]; [lia|done|].
      right; right. simpl. split_and!; [zcases; lia|done|by apply Hnu|].
      intros r' [Hr'|Hr']%elem_of_app.
      * apply (steady_smaller a (remsize_back st)); [by apply E4|]. zcases; lia.
      * apply list_elem_of_singleton in Hr' as ->. apply steady_covered; [done|]. zcases; lia.
  - eexists. split; [done|]. split; [apply Hsc; lia|].
    intros [(E1 & _ & E2)|[(E & _)|(E & _)]]; [|lia|lia]. right.
    destruct (decide (ty r = UC)) as [Eu|Eu]; [left|right]; simpl.
    + split_and!; [lia|done|]. exists r. split_and!; [done..|lia|lia].
    + split_and!; [lia|done| |].
      * apply Hnu; [rewrite E1; apply not_elem_of_nil|done].
      * intros r' [Hr'|Hr']%elem_of_app.
        -- rewrite Forall_forall in E2. apply steady_below; [|by apply E2].
           destruct (covers a r') eqn:Ec; [|done]. exfalso.
           assert (ty r' ∈ covering rs a) as X; [|rewrite E1 in X; by apply not_elem_of_nil in X].
           unfold covering. apply list_elem_of_fmap_2. by apply list_elem_of_filter.
        -- apply list_elem_of_singleton in Hr' as ->. apply steady_covered; [done|lia].
Qed.

(** A register that does not cover the address can only shorten the range. *)
Lemma scan_reg_other P bm r a rs st : reg_wf P bm r -> 0 <= a < 2 ^ P -> P <= 52 ->
  covers a r = false -> scan_ok a rs st ->
  exists st', scan_reg (2 ^ 64 - 2 ^ P) a bm.1 bm.2 st = Ok st' /\ scan_ok a (rs ++ [r]) st' /\
    (reach_ok a rs st -> covering rs a <> [] \/ lo r <= a -> reach_ok a (rs ++ [r]) st').
Proof.
  intros W Ha HP Hc [Sb St Sr]. pose proof (reg_wf_bounds P bm r W) as (Hb1 & Hb2 & _).
  assert (2 ^ P <= 2 ^ 52) as HPb by (apply Z.pow_le_mono_r; lia).
  unfold scan_reg. rewrite (covered_spec P bm r a _ W Ha), Hc.
  destruct W as (k & _ & _ & _ & -> & _). cbv beta iota zeta. usmall.
  assert (covering (rs ++ [r]) a = covering rs a) as Hcov by (rewrite covering_snoc, Hc; apply app_nil_r).
  set (cut := (a <? lo r) && (lo r <? a + remsize_back st)).
  exists (mk_scan (bitmap st) (type_ st) (remsize st)
    (if cut then u64 (lo r - a) else remsize_back st) (type_back st)).
  split; [by destruct cut|].
  assert (cut = true -> u64 (lo r - a) = lo r - a /\ a < lo r < a + remsize_back st) as Hcut.
  { unfold cut. intros [E1 E2]%andb_true_iff. usmall. lia. }
  split; [split; simpl; rewrite ?Hcov; [done..|destruct cut; [destruct (Hcut eq_refl)|]; lia]|].
  apply covers_false in Hc as Hc'.
  intros [(E1 & E2 & E3)|[(E1 & E2 & r0 & Hr0 & Ht0 & Hl0 & Hh0)|(E1 & E2 & E3 & E4)]] Hlow.
  - left. simpl. rewrite Hcov, Forall_app, Forall_cons, Forall_nil.
    assert (cut = false) as -> by (unfold cut; lia). split_and!; [done..| |done].
    destruct Hlow; [done|lia].
  - right; left. simpl. split_and!; [destruct cut; [destruct (Hcut eq_refl)|]; lia|done|].
    exists r0. split_and!; [apply elem_of_app; by left|done|done|].
    destruct cut; [destruct (Hcut eq_refl)|]; lia.
  - right; right. simpl. rewrite Hcov.
    split_and!; [destruct cut; [destruct (Hcut eq_refl)|]; lia|done|done|].
    intros r' [Hr'|Hr']%elem_of_app.
    + apply (steady_smaller a (remsize_back st)); [by apply E4|].
      destruct cut; [destruct (Hcut eq_refl)|]; lia.
    + apply list_elem_of_singleton in Hr' as ->. destruct (decide (lo r <= a)); [by apply steady_below|].
      apply steady_above. unfold cut in *. destruct (Z.ltb_spec a (lo r)); [|lia].
      destruct (Z.ltb_spec (lo r) (a + remsize_back st)); simpl in *; [destruct (Hcut eq_refl); lia|lia].
Qed.

(** The valid register pairs [regs] cover the ranges [rs]. *)
Definition regs_wf (P : Z) (regs : list (Z * Z)) (rs : list range) : Prop :=
  Forall2 (reg_wf P) (filter (fun bm => is_var_reg_valid bm.2 = true) regs) rs.

Lemma scan_all_ok P a regs rs2 : forall rs1 st, 0 <= a < 2 ^ P -> P <= 52 ->
  regs_wf P regs rs2 -> scan_ok a rs1 st ->
  exists st', scan_all (2 ^ 64 - 2 ^ P) a regs st = Ok st' /\ scan_ok a (rs1 ++ rs2) st' /\
    (reach_ok a rs1 st -> covering rs1 a <> [] \/ starts_below a rs2 -> reach_ok a (rs1 ++ rs2) st').
Proof.
  revert rs2. induction regs as [|bm regs IH]; intros rs2 rs1 st Ha HP HW Hsc.
  { inversion HW. subst. exists st. rewrite app_nil_r. done. }
  unfold regs_wf in HW. rewrite filter_cons in HW. cbn [scan_all].
  destruct (is_var_reg_valid bm.2) eqn:V; [rewrite decide_True in HW by done|
    rewrite decide_False in HW by done; by apply IH].
  inversion HW as [|? r ? rs3 W1 W2]. subst.
  replace (rs1 ++ r :: rs3) with ((rs1 ++ [r]) ++ rs3) by by rewrite <- app_assoc.
  destruct (covers a r) eqn:Hc.
  - destruct (scan_reg_covered P bm r a rs1 st W1 Ha HP Hc Hsc) as (st1 & -> & Hsc1 & HR1).
    rewrite bind_Ok. destruct (IH rs3 (rs1 ++ [r]) st1 Ha HP W2 Hsc1) as (st2 & -> & Hsc2 & HR2).
    exists st2. split_and!; [done..|]. intros R _. apply HR2; [by apply HR1|].
    left. rewrite covering_snoc, Hc. by destruct (covering rs1 a).
  - destruct (scan_reg_other P bm r a rs1 st W1 Ha HP Hc Hsc) as (st1 & -> & Hsc1 & HR1).
    rewrite bind_Ok. destruct (IH rs3 (rs1 ++ [r]) st1 Ha HP W2 Hsc1) as (st2 & -> & Hsc2 & HR2).
    exists st2. split_and!; [done..|]. intros R Hb. apply HR2; [apply HR1; [done|]|].
    + destruct Hb as [?|[?|[? _]]]; [by left|congruence|by right].
    + rewrite covering_snoc, Hc, app_nil_r. destruct Hb as [?|[?|[_ ?]]]; [by left|congruence|by right].
Qed.

(** * The chosen type *)

Lemma type_bits_spec ts i : Forall (fun t => 0 <= t) ts -> 0 <= i ->
  Z.testbit (type_bits ts) i = bool_decide (i ∈ ts).
Proof.
  intros Ht Hi. induction ts as [|t ts IH] using rev_ind.
  { unfold type_bits. simpl. rewrite Z.bits_0. done. }
  apply Forall_app in Ht as [Ht1 Ht2]. apply Forall_cons in Ht2 as [Ht2 _].
  unfold type_bits. rewrite foldl_app. simpl. fold (type_bits ts).
  rewrite Z.lor_spec, IH, Z.pow2_bits_eqb by done.
  destruct (Z.eqb_spec t i) as [->|Hne].
  - rewrite orb_true_r. symmetry. apply bool_decide_eq_true. set_solver.
  - rewrite orb_false_r. apply bool_decide_ext. set_solver.
Qed.

Lemma type_bits_nonneg ts : Forall (fun t => 0 <= t) ts -> 0 <= type_bits ts.
Proof.
  intros Ht. induction ts as [|t ts IH] using rev_ind; [done|].
  apply Forall_app in Ht as [Ht1 Ht2]. apply Forall_cons in Ht2 as [Ht2 _].
  unfold type_bits. rewrite foldl_app. simpl. fold (type_bits ts). apply Z.lor_nonneg.
  split; [by apply IH|]. lia.
Qed.

Lemma all_equal_bits t ts : 0 <= t -> Forall (fun x => x = t) ts ->
  type_bits (t :: ts) = 2 ^ t /\ last (t :: ts) = Some t.
Proof.
  intros Ht H. induction ts as [|x ts IH] using rev_ind; [done|].
  apply Forall_app in H as [H1 H2]. apply Forall_cons in H2 as [-> _].
  destruct (IH H1) as [E1 _]. rewrite app_comm_cons, last_snoc. split; [|done].
  unfold type_bits in *. rewrite foldl_app, E1. simpl. apply Z.lor_diag.
Qed.

Lemma pow2_bits_all_equal t ts : Forall (fun x => 0 <= x) (t :: ts) ->
  IS_POW_OF_2 (type_bits (t :: ts)) = true -> Forall (fun x => x = t) ts.
Proof.
  intros Hn Hp. pose proof (type_bits_nonneg _ Hn) as Hnn.
  assert (forall x, x ∈ t :: ts -> Z.testbit (type_bits (t :: ts)) x = true) as Hb.
  { intros x Hx. rewrite type_bits_spec; [by apply bool_decide_eq_true|done|].
    rewrite Forall_forall in Hn. by apply Hn. }
  assert (0 < type_bits (t :: ts)) as Hpos.
  { destruct (decide (type_bits (t :: ts) = 0)) as [E|]; [|lia].
    specialize (Hb t ltac:(left)). rewrite E, Z.bits_0 in Hb. done. }
  apply IS_POW_OF_2_spec in Hp; [|done].
  assert (forall x, x ∈ t :: ts -> x = Z.log2 (type_bits (t :: ts))) as Hl.
  { intros x Hx. specialize (Hb x Hx). rewrite Hp, Z.pow2_bits_eqb in Hb by apply Z.log2_nonneg.
    symmetry. by apply Z.eqb_eq. }
  apply Forall_forall. intros x Hx. rewrite (Hl x) by by right. symmetry. apply Hl. left.
Qed.

Lemma uc_bit ts : Forall (fun x => 0 <= x) ts ->
  (Z.land (Z.shiftr (type_bits ts) UC) 1 =? 1) = bool_decide (UC ∈ ts).
Proof.
  intros Hn. rewrite <- (type_bits_spec ts UC Hn) by done. unfold UC. rewrite Z.shiftr_0_r.
  change 1 with (Z.ones 1) at 1. rewrite Z.land_ones by lia. change (2 ^ 1) with 2.
  by rewrite Z.bit0_odd, Zodd_mod.
Qed.

(** The bitmap of write-through and write-back. *)
Lemma wt_wb_bits ts : Forall (fun x => 0 <= x < 8) ts ->
  ts <> [] -> ~ (exists t, Forall (fun x => x = t) ts) ->
  (Z.lor (Z.shiftl 1 WT) (Z.shiftl 1 WB) =? type_bits ts)
    = bool_decide (Forall (fun x => x = WT \/ x = WB) ts).
Proof.
  intros Hn Hne Hd. assert (Forall (fun x => 0 <= x) ts) as Hn0 by (eapply Forall_impl; [done|]; simpl; lia).
  assert (forall i, 0 <= i -> Z.testbit (type_bits ts) i = bool_decide (i ∈ ts)) as Hb
    by (intros; by apply type_bits_spec).
  change (Z.lor (Z.shiftl 1 WT) (Z.shiftl 1 WB)) with 80. apply eq_true_iff_eq.
  rewrite Z.eqb_eq, bool_decide_eq_true, Forall_forall. split.
  - intros E x Hx. pose proof (bool_decide_eq_true_2 _ Hx) as Hx'.
    rewrite Forall_forall in Hn. specialize (Hn x Hx). rewrite <- Hb, <- E in Hx' by lia.
    assert (x = 0 \/ x = 1 \/ x = 2 \/ x = 3 \/ x = 4 \/ x = 5 \/ x = 6 \/ x = 7) as C by lia.
    unfold WT, WB. repeat destruct C as [->|C]; try discriminate Hx'; try lia. subst. discriminate Hx'.
  - intros HF. assert (WT ∈ ts /\ WB ∈ ts) as [H4 H6].
    { split; [destruct (decide (WT ∈ ts)) as [|H]|destruct (decide (WB ∈ ts)) as [|H]]; try done;
        exfalso; apply Hd; [exists WB|exists WT]; apply Forall_forall; intros x Hx;
        destruct (HF x Hx) as [->| ->]; done. }
    apply Z.bits_inj_iff'. intros i Hi. rewrite Hb by done.
    destruct (decide (i = 4)) as [->|]; [by rewrite bool_decide_eq_true_2|].
    destruct (decide (i = 6)) as [->|]; [by rewrite bool_decide_eq_true_2|].
    rewrite bool_decide_eq_false_2 by (intros X; destruct (HF i X); unfold WT, WB in *; lia).
    destruct (decide (i < 8)) as [Hlt|Hge].
    + assert (i = 0 \/ i = 1 \/ i = 2 \/ i = 3 \/ i = 5 \/ i = 7) as C by lia.
      repeat destruct C as [->|C]; try done. by subst.
    + apply (bits_above 80 8); lia.
Qed.

Lemma combine_types_ok s a rs st : Forall (fun r => 0 <= ty r < 8) rs -> scan_ok a rs st ->
  combine_types s st = effective_type (mtrrs_abstraction_get_default_memory_type s) (covering rs a).
Proof.
  intros Hty [Sb St _]. unfold combine_types. rewrite Sb, St.
  assert (Forall (fun x => 0 <= x < 8) (covering rs a)) as Hn8.
  { apply Forall_forall. unfold covering. intros x (r & -> & [_ Hr]%list_elem_of_filter)%list_elem_of_fmap.
    rewrite Forall_forall in Hty. by apply Hty. }
  assert (Forall (fun x => 0 <= x) (covering rs a)) as Hn by (eapply Forall_impl; [done|]; simpl; lia).
  destruct (covering rs a) as [|t ts] eqn:E; [done|]. simpl effective_type.
  assert (0 <= t) as Ht by (by apply Forall_cons in Hn as [? _]).
  assert (type_bits (t :: ts) <> 0) as Hnz.
  { intros Z0. pose proof (type_bits_spec (t :: ts) t Hn Ht) as B. rewrite Z0, Z.bits_0 in B.
    symmetry in B. apply bool_decide_eq_false in B. apply B. left. }
  rewrite (proj2 (Z.eqb_neq _ _)) by done.
  destruct (bool_decide_reflect (Forall (fun x => x = t) ts)) as [HA|HA].
  - destruct (all_equal_bits t ts Ht HA) as [-> ->]. simpl.
    assert (IS_POW_OF_2 (2 ^ t) = true) as ->; [|done]. apply IS_POW_OF_2_spec; [lia|].
    by rewrite Z.log2_pow2.
  - destruct (IS_POW_OF_2 (type_bits (t :: ts))) eqn:EP; [by apply pow2_bits_all_equal in EP|].
    rewrite uc_bit by done. destruct (bool_decide (UC ∈ t :: ts)); [done|].
    rewrite wt_wb_bits; [done|done|done|]. intros [u Hu]. apply HA.
    apply Forall_cons in Hu as [-> Hu]. done.
Qed.

(** * Properties *)

(** The cached registers describe the ranges [rs] of a machine with [P]-bit physical
    addresses. *)
Record mtrr_wf (s : mtrr_info) (P : Z) (rs : list range) : Prop := {
  wf_lengths : length (var_base s) = 10%nat /\ length (var_mask s) = 10%nat /\
               length (mtrr_fix s) = 11%nat /\ length (fix_range s) = 11%nat;
  wf_msbs : MTRR_MSBs s = 2 ^ 64 - 2 ^ P /\ P <= 52;
  wf_regs : regs_wf P
    (take (Z.to_nat (Z.min (mtrrs_abstraction_get_num_of_variable_range_regs s) NUM_VAR))
       (zip (var_base s) (var_mask s))) rs
}.

(** The address is not decided by the fixed range registers. *)
Definition variable_area (s : mtrr_info) (a : Z) : Prop :=
  mtrrs_abstraction_are_mtrrs_enabled s = true /\
  forall last, fix_range s !! 10%nat = Some last ->
    mtrrs_abstraction_are_fixed_regs_supported s &&
    mtrrs_abstraction_are_fixed_ranged_mtrrs_enabled s && (a <=? last.2) = false.

Lemma get_memory_type_scan s P rs a : mtrr_wf s P rs -> variable_area s a -> 0 <= a < 2 ^ P ->
  exists st, mtrrs_abstraction_get_memory_type s a =
      Ok (effective_type (mtrrs_abstraction_get_default_memory_type s) (covering rs a),
          remsize_back st) /\
    (starts_below a rs -> reach_ok a rs st).
Proof.
  intros [(Lb & Lm & _ & Lr) [HM HP] HW] [He Hv] Ha.
  unfold mtrrs_abstraction_get_memory_type. rewrite He. cbn [negb].
  destruct (lookup_lt_is_Some_2 (fix_range s) 10) as [last Hl]; [lia|].
  rewrite (rd_ok _ _ last) by done. rewrite bind_Ok, (Hv last Hl), bind_Ok.
  unfold for_range. rewrite Z.sub_0_r.
  set (n := Z.to_nat _) in *.
  assert (n <= 10)%nat as Hn by (unfold n, NUM_VAR; lia).
  rewrite (scan_loop s a (var_base s) (var_mask s) [] []) by (done || lia).
  rewrite HM.
  destruct (scan_all_ok P a _ rs [] (mk_scan 0 UNDEFINED 0 0 UNDEFINED) Ha HP HW) as (st & -> & Sc & R).
  { split; simpl; [done|done|lia]. }
  rewrite bind_Ok. exists st. split.
  - rewrite (combine_types_ok s a rs st); [done| |done].
    unfold regs_wf in HW. revert HW. generalize (filter (fun bm : Z * Z => is_var_reg_valid bm.2 = true)
      (take n (zip (var_base s) (var_mask s)))). intros l HW.
    clear - HW. induction HW as [|bm r l rs W _ IH]; constructor; [|done].
    by apply reg_wf_bounds in W as (_ & _ & ?).
  - intros Hb. apply R; [|by right]. left. simpl. split_and!; [done|done|constructor].
Qed.

(** C23. The memory type of an address outside the fixed ranges is the one the
    processor manual prescribes for the variable range registers that cover it:
    the default type, the common type, UC over anything, WT over WB. *)
Theorem get_memory_type_effective s P rs a :
  mtrr_wf s P rs -> variable_area s a -> 0 <= a < 2 ^ P ->
  exists rem, mtrrs_abstraction_get_memory_type s a =
    Ok (effective_type (mtrrs_abstraction_get_default_memory_type s) (covering rs a), rem).
Proof.
  intros W V Ha. destruct (get_memory_type_scan s P rs a W V Ha) as (st & E & _).
  by exists (remsize_back st).
Qed.

Lemma effective_type_uc d ts : UC ∈ ts -> effective_type d ts = UC.
Proof.
  destruct ts as [|t ts]; [by intros ?%not_elem_of_nil|]. intros H. simpl.
  rewrite (bool_decide_eq_true_2 (UC ∈ t :: ts)) by done.
  case_bool_decide as HA; [|done]. apply elem_of_cons in H as [H|H]; [done|].
  rewrite Forall_forall in HA. symmetry. by apply HA.
Qed.

Lemma covering_elem rs a r : r ∈ rs -> covers a r = true -> ty r ∈ covering rs a.
Proof. intros H1 H2. unfold covering. apply list_elem_of_fmap_2. by apply list_elem_of_filter. Qed.

(** The remaining size reported with the type is sound when no register listed
    before the first one that covers the address starts above the address: every
    address in that range has the same type. *)
Theorem get_memory_type_remsize s P rs a t rem :
  mtrr_wf s P rs -> variable_area s a -> 0 <= a < 2 ^ P -> starts_below a rs ->
  mtrrs_abstraction_get_memory_type s a = Ok (t, rem) ->
  forall a', a <= a' < a + rem -> a' < 2 ^ P ->
    exists rem', mtrrs_abstraction_get_memory_type s a' = Ok (t, rem').
Proof.
  intros W V Ha Hb E a' Ha' HP'. destruct (get_memory_type_scan s P rs a W V Ha) as (st & E' & R).
  rewrite E' in E. simplify_eq.
  assert (variable_area s a') as V'.
  { destruct V as [V1 V2]. split; [done|]. intros last Hl. specialize (V2 last Hl).
    rewrite andb_false_iff in V2 |- *. destruct V2 as [V2|V2]; [by left|right]. lia. }
  destruct (get_memory_type_scan s P rs a' W V' ltac:(lia)) as (st' & -> & _).
  eexists. do 2 f_equal.
  destruct (R Hb) as [(_ & Z0 & _)|[(_ & _ & r & Hr & Ht & Hl & Hh)|(_ & _ & _ & Hs)]]; [lia| |].
  - rewrite !effective_type_uc; [done|..]; rewrite <- Ht; apply covering_elem; try done; apply covers_spec; lia.
  - f_equal. unfold covering. f_equal. apply filter_same. intros r Hr. by rewrite (Hs r Hr a' Ha').
Qed.

(** A machine with 36-bit physical addresses, two variable range registers, no fixed
    range registers, and uncached memory by default. *)
Definition two_regs (b0 m0 b1 m1 : Z) : mtrr_info :=
  mk_info 2 2048 (replicate 11 0) (replicate 11 (0, 0))
    ([b0; b1] ++ replicate 8 0) ([m0; m1] ++ replicate 8 0) true (2 ^ 64 - 2 ^ 36).

(** WB for the first 1 GB, UC for 1 MB at 512 MB. *)
Definition wb_base : Z := 6.
Definition wb_mask : Z := 2 ^ 36 - 2 ^ 30 + 2048.
Definition uc_base : Z := 2 ^ 29.
Definition uc_mask : Z := 2 ^ 36 - 2 ^ 20 + 2048.
Definition wb_range : range := mk_range 0 (2 ^ 30) 6.
Definition uc_range : range := mk_range (2 ^ 29) (2 ^ 29 + 2 ^ 20) 0.

Lemma wb_reg_wf : reg_wf 36 (wb_base, wb_mask) wb_range.
Proof. exists 30. vm_compute. repeat split; discriminate. Qed.
Lemma uc_reg_wf : reg_wf 36 (uc_base, uc_mask) uc_range.
Proof. exists 20. vm_compute. repeat split; discriminate. Qed.

Lemma two_regs_wf b0 m0 b1 m1 r0 r1 : is_var_reg_valid m0 = true -> is_var_reg_valid m1 = true ->
  reg_wf 36 (b0, m0) r0 -> reg_wf 36 (b1, m1) r1 -> mtrr_wf (two_regs b0 m0 b1 m1) 36 [r0; r1].
Proof.
  intros V0 V1 W0 W1. split; [done|split; [done|lia]|]. unfold regs_wf.
  change (take _ _) with [(b0, m0); (b1, m1)].
  rewrite !filter_cons, !decide_True by done. by repeat constructor.
Qed.

Lemma two_regs_area b0 m0 b1 m1 a : variable_area (two_regs b0 m0 b1 m1) a.
Proof. split; [done|]. intros last _. done. Qed.

Lemma get_memory_type_effective_witness :
  exists rem, mtrrs_abstraction_get_memory_type (two_regs wb_base wb_mask uc_base uc_mask) (2 ^ 29 + 4096)
    = Ok (effective_type 0 (covering [wb_range; uc_range] (2 ^ 29 + 4096)), rem).
Proof.
  apply (get_memory_type_effective (two_regs wb_base wb_mask uc_base uc_mask) 36).
  - apply two_regs_wf; [done|done|apply wb_reg_wf|apply uc_reg_wf].
  - apply two_regs_area.
  - lia.
Defined.

Lemma get_memory_type_remsize_witness :
  mtrrs_abstraction_get_memory_type (two_regs wb_base wb_mask uc_base uc_mask) 4096
    = Ok (WB, 2 ^ 29 - 4096) /\
  forall a', 4096 <= a' < 4096 + (2 ^ 29 - 4096) -> a' < 2 ^ 36 ->
    exists rem', mtrrs_abstraction_get_memory_type (two_regs wb_base wb_mask uc_base uc_mask) a'
      = Ok (WB, rem').
Proof.
  split; [vm_compute; reflexivity|].
  apply (get_memory_type_remsize (two_regs wb_base wb_mask uc_base uc_mask) 36 [wb_range; uc_range]).
  - apply two_regs_wf; [done|done|apply wb_reg_wf|apply uc_reg_wf].
  - apply two_regs_area.
  - lia.
  - left. vm_compute. reflexivity.
  - vm_compute. reflexivity.
Defined.

(** The remaining size depends on the order of the registers: with the same two
    registers in the other order, the whole first gigabyte is reported as
    write-back from address 0 although 1 MB in the middle of it is uncached. *)
Theorem get_memory_type_order_dependent :
  let s := two_regs uc_base uc_mask wb_base wb_mask in
  mtrr_wf s 36 [uc_range; wb_range] /\
  mtrrs_abstraction_get_memory_type s 0 = Ok (WB, 2 ^ 30) /\
  mtrrs_abstraction_get_memory_type s (2 ^ 29) = Ok (UC, 2 ^ 20) /\
  mtrrs_abstraction_get_range_memory_type 8 s 0 (2 ^ 30) = Ok (WB, 2 ^ 30).
Proof.
  split; [apply two_regs_wf; [done|done|apply uc_reg_wf|apply wb_reg_wf]|].
  split; [vm_compute; reflexivity|]. split; [vm_compute; reflexivity|]. vm_compute. reflexivity.
Qed.

(** ** Fixed ranges *)

(** The register and the byte of it that hold the type of an address below 1 MB. *)
Definition fixed_reg (a : Z) : Z :=
  if a <? 0x80000 then 0 else if a <? 0xc0000 then 1 + (a - 0x80000) / 0x20000
  else 3 + (a - 0xc0000) / 0x8000.
Definition fixed_byte (a : Z) : Z :=
  if a <? 0x80000 then a / 0x10000 else if a <? 0xc0000 then (a - 0x80000) mod 0x20000 / 0x4000
  else (a - 0xc0000) mod 0x8000 / 0x1000.
Definition fixed_unit (a : Z) : Z :=
  if a <? 0x80000 then 0x10000 else if a <? 0xc0000 then 0x4000 else 0x1000.

Lemma fixed_lookup_hit start_ end_ unit v rs fx a : 0 <= start_ <= a -> a <= end_ < 2 ^ 20 ->
  0 < unit -> end_ + 1 - start_ = 8 * unit ->
  fixed_lookup ((start_, end_) :: rs) (v :: fx) a
    = Ok (Some (fixed_type v ((a - start_) / unit), unit - (a - start_) mod unit)).
Proof.
  intros H1 H2 Hu Hs. cbn [fixed_lookup]. rewrite (proj2 (Z.leb_le a end_)) by lia.
  usmall. rewrite Hs. replace (8 * unit / 8) with unit by lia.
  rewrite (proj2 (Z.eqb_neq unit 0)) by lia.
  assert (0 <= (a - start_) / unit < 8) as Hd.
  { split; [apply Z.div_pos; lia|]. apply Z.div_lt_upper_bound; lia. }
  rewrite (proj2 (Z.ltb_lt _ _)) by lia. do 3 f_equal.
  rewrite (u64_small ((a - start_) / unit + 1)) by lia.
  pose proof (Z.div_mod (a - start_) unit ltac:(lia)) as Hdm.
  pose proof (Z.mod_pos_bound (a - start_) unit Hu) as Hm.
  generalize dependent ((a - start_) / unit). intros q Hd Hdm.
  generalize dependent ((a - start_) mod unit). intros m Hdm Hm.
  replace ((q + 1) * unit) with (a - start_ - m + unit) by lia. usmall. lia.
Qed.

Lemma fixed_lookup_miss start_ end_ v rs fx a : end_ < a ->
  fixed_lookup ((start_, end_) :: rs) (v :: fx) a = fixed_lookup rs fx a.
Proof. intros H. cbn [fixed_lookup]. by rewrite (proj2 (Z.leb_gt a end_)) by lia. Qed.

(** Closing one of the eleven cases. *)
Ltac fixed_index_tac :=
  match goal with
  | |- Some _ = Some _ => reflexivity
  | |- _ !! Z.to_nat ?e = Some _ =>
      first [ replace e with 0 by lia | replace e with 1 by lia | replace e with 2 by lia
            | replace e with 3 by lia | replace e with 4 by lia | replace e with 5 by lia
            | replace e with 6 by lia | replace e with 7 by lia | replace e with 8 by lia
            | replace e with 9 by lia | replace e with 10 by lia ]; reflexivity
  end.
Ltac fixed_value_tac :=
  match goal with
  | |- Ok (fixed_type _ ?x, ?y) = Ok (fixed_type _ ?x', ?y') =>
      replace x with x' by lia; replace y with y' by lia; reflexivity
  end.

(** Below 1 MB, with the fixed range registers supported and enabled, the type
    is the byte of the register that the processor manual assigns to the address,
    and the remaining size reaches to the end of its 64, 16 or 4 KB unit, so that
    it holds for every address of the unit. *)
Theorem get_memory_type_fixed s a :
  mtrrs_abstraction_are_mtrrs_enabled s = true ->
  mtrrs_abstraction_are_fixed_regs_supported s = true ->
  mtrrs_abstraction_are_fixed_ranged_mtrrs_enabled s = true ->
  fix_range s = fixed_ranges -> length (mtrr_fix s) = 11%nat -> 0 <= a <= 0xfffff ->
  exists v, mtrr_fix s !! Z.to_nat (fixed_reg a) = Some v /\
    mtrrs_abstraction_get_memory_type s a
      = Ok (fixed_type v (fixed_byte a), fixed_unit a - a mod fixed_unit a).
Proof.
  intros He Hf Hfe Hr Hl Ha. unfold mtrrs_abstraction_get_memory_type. rewrite He, Hf, Hfe, Hr.
  cbn [negb andb]. rewrite (rd_ok _ _ (0xf8000, 0xfffff)) by done. rewrite bind_Ok.
  rewrite (proj2 (Z.leb_le _ _)) by (simpl; lia).
  assert (forall n, (n < 11)%nat -> exists v, mtrr_fix s !! n = Some v) as Hv
    by (intros n Hn; apply lookup_lt_is_Some_2; lia).
  destruct (mtrr_fix s) as [|v0 [|v1 [|v2 [|v3 [|v4 [|v5 [|v6 [|v7 [|v8 [|v9 [|v10 [|]]]]]]]]]]]];
    simpl in Hl; try lia. clear Hv Hl.
  unfold fixed_ranges, fixed_reg, fixed_byte, fixed_unit.
  repeat match goal with
  | |- context [fixed_lookup ((?x, ?y) :: _) (?v :: _) a] =>
      let u := eval vm_compute in ((y + 1 - x) / 8) in
      destruct (Z.leb_spec a y);
        [ exists v; rewrite (fixed_lookup_hit x y u) by lia; rewrite bind_Ok;
          zcases; (split; [fixed_index_tac|fixed_value_tac])
        | rewrite (fixed_lookup_miss x y) by lia ]
  end.
  lia.
Qed.

Lemma get_memory_type_fixed_witness :
  let s := mk_info 256 3072 (Z.mul 257 <$> seqZ 1 11) fixed_ranges (replicate 10 0) (replicate 10 0)
             true (2 ^ 64 - 2 ^ 36) in
  exists v, mtrr_fix s !! Z.to_nat (fixed_reg 0xc1234) = Some v /\
    mtrrs_abstraction_get_memory_type s 0xc1234
      = Ok (fixed_type v (fixed_byte 0xc1234), fixed_unit 0xc1234 - 0xc1234 mod fixed_unit 0xc1234).
Proof. intros s. apply (get_memory_type_fixed s 0xc1234); (reflexivity || lia). Defined.

(** ** Initialisation on the boot processor and the others *)

(** The registers that are compared, given the capability register. *)
Definition tracked_msrs (cap : Z) : list Z :=
  [IA32_MTRRCAP_ADDR; IA32_MTRR_DEF_TYPE_ADDR] ++
  (if negb (cap_fix cap =? 0) then fixed_msrs else []) ++
  ((fun i => IA32_MTRR_PHYSBASE0_ADDR + 2 * i) <$> seqZ 0 (cap_vcnt cap)) ++
  ((fun i => IA32_MTRR_PHYSBASE0_ADDR + 2 * i + 1) <$> seqZ 0 (cap_vcnt cap)).

Lemma read_vars_ok hw n : 0 <= n <= 10 ->
  exists bm, for_range 0 n (read_var hw) (replicate 10 0, replicate 10 0) = Ok bm /\
    length bm.1 = 10%nat /\ length bm.2 = 10%nat /\
    forall j, 0 <= j < n ->
      bm.1 !! Z.to_nat j = Some (hw (IA32_MTRR_PHYSBASE0_ADDR + 2 * j)) /\
      bm.2 !! Z.to_nat j = Some (hw (IA32_MTRR_PHYSBASE0_ADDR + 2 * j + 1)).
Proof.
  intros Hn. apply (for_range_inv (fun i bm => length bm.1 = 10%nat /\ length bm.2 = 10%nat /\
    forall j, 0 <= j < i ->
      bm.1 !! Z.to_nat j = Some (hw (IA32_MTRR_PHYSBASE0_ADDR + 2 * j)) /\
      bm.2 !! Z.to_nat j = Some (hw (IA32_MTRR_PHYSBASE0_ADDR + 2 * j + 1)))).
  - lia.
  - split; [done|]. split; [done|]. intros j Hj. lia.
  - intros i [b m] Hi (Lb & Lm & H). simpl in Lb, Lm, H. unfold read_var. simpl fst. simpl snd.
    rewrite !wr_ok by lia. rewrite !bind_Ok. eexists. split; [done|]. simpl.
    rewrite !length_insert. split; [done|]. split; [done|]. intros j Hj.
    destruct (decide (j = i)) as [->|Hne].
    + rewrite !list_lookup_insert_eq by lia. done.
    + rewrite !list_lookup_insert_ne by lia. apply H. lia.
Qed.

Lemma compare_vars_ok hw s n : forall i, 0 <= i -> i + Z.of_nat n <= 10 ->
  length (var_base s) = 10%nat -> length (var_mask s) = 10%nat ->
  exists b, compare_vars hw n i s = Ok b /\
    (b = true <-> forall j, i <= j < i + Z.of_nat n ->
       var_base s !! Z.to_nat j = Some (hw (IA32_MTRR_PHYSBASE0_ADDR + 2 * j)) /\
       var_mask s !! Z.to_nat j = Some (hw (IA32_MTRR_PHYSBASE0_ADDR + 2 * j + 1))).
Proof.
  induction n as [|n IH]; intros i Hi Hn Lb Lm; [exists true; split; [done|]; split; [intros _ j Hj; lia|done]|].
  destruct (lookup_lt_is_Some_2 (var_base s) (Z.to_nat i)) as [b Hb]; [lia|].
  destruct (lookup_lt_is_Some_2 (var_mask s) (Z.to_nat i)) as [m Hm]; [lia|].
  cbn [compare_vars]. rewrite (rd_ok (var_base s) i b), bind_Ok by (lia || done).
  destruct (Z.eqb_spec b (hw (IA32_MTRR_PHYSBASE0_ADDR + 2 * i))) as [->|Hne]; cbn [negb].
  2: { exists false. split; [done|]. split; [done|]. intros H. destruct (H i) as [E _]; [lia|]. congruence. }
  rewrite (rd_ok (var_mask s) i m), bind_Ok by (lia || done).
  destruct (Z.eqb_spec m (hw (IA32_MTRR_PHYSBASE0_ADDR + 2 * i + 1))) as [->|Hne]; cbn [negb].
  2: { exists false. split; [done|]. split; [done|]. intros H. destruct (H i) as [_ E]; [lia|]. congruence. }
  destruct (IH (i + 1)) as (r & -> & Hr); [lia|lia|done|done|]. exists r. split; [done|].
  rewrite Hr. split; intros H j Hj.
  - destruct (decide (j = i)) as [->|]; [done|]. apply H. lia.
  - apply H. lia.
Qed.

(** The first [n] pairs of variable range registers are the same on both processors. *)
Definition same_vars (hw hw' : Z -> Z) (n : Z) : Prop :=
  forall j, 0 <= j < n ->
    hw' (IA32_MTRR_PHYSBASE0_ADDR + 2 * j) = hw (IA32_MTRR_PHYSBASE0_ADDR + 2 * j) /\
    hw' (IA32_MTRR_PHYSBASE0_ADDR + 2 * j + 1) = hw (IA32_MTRR_PHYSBASE0_ADDR + 2 * j + 1).

Lemma tracked_msrs_spec hw hw' cap :
  Forall (fun msr => hw' msr = hw msr) (tracked_msrs cap) <->
  hw' IA32_MTRRCAP_ADDR = hw IA32_MTRRCAP_ADDR /\
  hw' IA32_MTRR_DEF_TYPE_ADDR = hw IA32_MTRR_DEF_TYPE_ADDR /\
  (negb (cap_fix cap =? 0) = true -> hw <$> fixed_msrs = hw' <$> fixed_msrs) /\
  same_vars hw hw' (cap_vcnt cap).
Proof.
  unfold tracked_msrs. rewrite !Forall_app, !Forall_fmap, !Forall_cons, Forall_nil, !Forall_seqZ.
  assert (Forall (fun msr => hw' msr = hw msr) fixed_msrs <-> hw <$> fixed_msrs = hw' <$> fixed_msrs) as EF.
  { unfold fixed_msrs. rewrite !Forall_cons, Forall_nil. simpl. split; [intuition congruence|].
    intros [=]. intuition congruence. }
  unfold same_vars. split.
  - intros ((H1 & H2 & _) & H3 & H4 & H5). split_and!; [done|done| |].
    + intros E. rewrite E in H3. by apply EF.
    + intros j Hj. split; [apply H4|apply H5]; lia.
  - intros (H1 & H2 & H3 & H4). split_and!; try done.
    + destruct (negb (cap_fix cap =? 0)); [|by apply Forall_nil]. by apply EF, H3.
    + intros j Hj. apply H4. lia.
    + intros j Hj. apply H4. lia.
Qed.

(** After the boot processor has cached its registers, another processor is
    accepted exactly when every register that is tracked has the same value on
    both (for at most ten variable range registers). *)
Theorem ap_initialize_spec hw hw' space s0 s ok :
  cap_vcnt (hw IA32_MTRRCAP_ADDR) <= 10 ->
  mtrrs_abstraction_bsp_initialize hw space s0 = Ok (s, ok) ->
  exists b, mtrrs_abstraction_ap_initialize hw' s = Ok b /\
    (b = true <-> Forall (fun msr => hw' msr = hw msr) (tracked_msrs (hw IA32_MTRRCAP_ADDR))).
Proof.
  intros Hv E. assert (0 <= cap_vcnt (hw IA32_MTRRCAP_ADDR)) as Hv0 by (apply field_nonneg; lia).
  unfold mtrrs_abstraction_bsp_initialize in E.
  destruct (read_vars_ok hw (cap_vcnt (hw IA32_MTRRCAP_ADDR)) ltac:(lia)) as (bm & Er & Lb & Lm & Hbm).
  cbv zeta in E. cbn [var_base var_mask zero_info] in E. rewrite Er, bind_Ok in E. injection E as <- <-.
  unfold mtrrs_abstraction_ap_initialize. cbn [is_initialized negb mtrrcap mtrr_def_type].
  unfold mtrrs_abstraction_are_fixed_regs_supported, mtrrs_abstraction_get_num_of_variable_range_regs.
  cbn [mtrrcap mtrr_fix].
  pose proof (tracked_msrs_spec hw hw' (hw IA32_MTRRCAP_ADDR)) as HT. set (cap := hw IA32_MTRRCAP_ADDR) in *.
  set (s := mk_info _ _ _ _ _ _ _ _).
  destruct (Z.eqb_spec cap (hw' IA32_MTRRCAP_ADDR)) as [E1|E1]; cbn [negb].
  2: { exists false. split; [done|]. rewrite HT. split; [done|]. intros (? & _). congruence. }
  destruct (Z.eqb_spec (hw IA32_MTRR_DEF_TYPE_ADDR) (hw' IA32_MTRR_DEF_TYPE_ADDR)) as [E2|E2]; cbn [negb].
  2: { exists false. split; [done|]. rewrite HT. split; [done|]. intros (_ & ? & _). congruence. }
  destruct (compare_vars_ok hw' s (Z.to_nat (cap_vcnt cap)) 0) as (b & Eb & Hb); [lia|lia|done|done|].
  assert (b = true <-> same_vars hw hw' (cap_vcnt cap)) as Hb'.
  { rewrite Hb. unfold same_vars. split; intros H j Hj; destruct (Hbm j ltac:(lia)) as [X' Y'].
    - destruct (H j) as [X Y]; [lia|]. simpl in X, Y. split; congruence.
    - simpl. destruct (H j) as [X Y]; [lia|]. rewrite X, Y. done. }
  destruct (negb (cap_fix cap =? 0)) eqn:Ef; simpl andb.
  - case_bool_decide as EQ; cbn [negb].
    + exists b. split; [exact Eb|]. rewrite HT, Hb'. intuition congruence.
    + exists false. split; [done|]. rewrite HT. split; [done|]. intros (_ & _ & H & _). by exfalso; apply EQ, H.
  - exists b. split; [exact Eb|]. rewrite HT, Hb'. intuition congruence.
Qed.

Lemma ap_initialize_spec_witness :
  let hw := fun msr => if msr =? IA32_MTRRCAP_ADDR then 258 else msr in
  let space := {| max_virtual_address := 0; virtual_address_copmplement := 0;
                  physical_address_size := 36; virtual_address_size := 48;
                  pw_reserved_bits_high_mask := 0 |} in
  exists s, mtrrs_abstraction_bsp_initialize hw space (zero_info 0) = Ok (s, true) /\
  exists b, mtrrs_abstraction_ap_initialize (fun _ => 0) s = Ok b /\
    (b = true <-> Forall (fun msr => 0 = hw msr) (tracked_msrs (hw IA32_MTRRCAP_ADDR))).
Proof.
  intros hw space. eexists. split; [vm_compute; reflexivity|].
  apply (ap_initialize_spec hw (fun _ => 0) space (zero_info 0) _ true).
  - vm_compute. discriminate.
  - vm_compute. reflexivity.
Defined.

(** The count of variable range registers is not checked (the dead loop on the
    error path expands to nothing): with more than ten of them the initialisation
    writes past the cached arrays. *)
Theorem bsp_initialize_overflow hw space s :
  10 < cap_vcnt (hw IA32_MTRRCAP_ADDR) -> mtrrs_abstraction_bsp_initialize hw space s = Fault.
Proof.
  intros Hv. unfold mtrrs_abstraction_bsp_initialize. cbv zeta. cbn [var_base var_mask zero_info].
  destruct (read_vars_ok hw 10 ltac:(lia)) as (bm & E & Lb & Lm & _).
  assert (forall n (st : list Z * list Z), 10 < n ->
    for_range 0 n (read_var hw) st = s1 ← for_range 0 10 (read_var hw) st; for_range 10 n (read_var hw) s1) as Hsplit.
  { intros n st Hn. unfold for_range. replace (Z.to_nat (n - 0)) with (10 + Z.to_nat (n - 10))%nat by lia.
    change (Z.to_nat (10 - 0)) with 10%nat. by apply loop_up_app. }
  rewrite Hsplit, E, bind_Ok by done. rewrite for_range_step by lia.
  assert (read_var hw 10 bm = Fault) as ->; [|done]. unfold read_var. rewrite (wr_fault bm.1) by lia. done.
Qed.

Lemma bsp_initialize_overflow_witness :
  mtrrs_abstraction_bsp_initialize (fun _ => 11)
    {| max_virtual_address := 0; virtual_address_copmplement := 0; physical_address_size := 36;
       virtual_address_size := 48; pw_reserved_bits_high_mask := 0 |} (zero_info 0) = Fault.
Proof. apply bsp_initialize_overflow. vm_compute. reflexivity. Defined.

(** ** Tracking *)

(** The cached value of a register. *)
Definition cached (s : mtrr_info) (msr : Z) : option Z :=
  if msr =? IA32_MTRR_DEF_TYPE_ADDR then Some (mtrr_def_type s)
  else
    match fixed_index msr with
    | Some i => mtrr_fix s !! Z.to_nat i
    | None =>
        if (IA32_MTRR_PHYSBASE0_ADDR <=? msr) && (msr <=? IA32_MTRR_MAX_PHYSMASK_ADDR) then
          (if msr mod 2 =? 0 then var_base s else var_mask s)
            !! Z.to_nat ((msr - IA32_MTRR_PHYSBASE0_ADDR) / 2)
        else None
    end.

(** The values a write to a register may have. *)
Definition acceptable (msr value : Z) : bool :=
  if msr =? IA32_MTRR_DEF_TYPE_ADDR then is_IA32_MTRR_DEF_TYPE_valid value
  else
    match fixed_index msr with
    | Some i => is_IA32_FIXED_RANGE_REG_valid value
    | None =>
        (IA32_MTRR_PHYSBASE0_ADDR <=? msr) && (msr <=? IA32_MTRR_MAX_PHYSMASK_ADDR) &&
        (if msr mod 2 =? 0 then is_IA32_MTRR_PHYSBASE_REG_valid value
         else is_IA32_MTRR_PHYSMASK_REG_valid value)
    end.


Lemma fixed_index_spec msr i : fixed_index msr = Some i ->
  0 <= i < 11 /\ fixed_msrs !! Z.to_nat i = Some msr /\
  IA32_MTRR_FIX64K_00000_ADDR <= msr <= IA32_MTRR_FIX4K_F8000_ADDR.
Proof.
  unfold fixed_index. destruct (list_find (fun m => m = msr) fixed_msrs) as [[n m]|] eqn:E; [|done].
  intros [= <-]. apply list_find_Some in E as (E & -> & _). rewrite Nat2Z.id.
  apply lookup_lt_Some in E as Hl. simpl in Hl. split; [lia|]. split; [done|].
  do 11 (destruct n as [|n]; [simpl in E; injection E as <-; split; discriminate|]). lia.
Qed.

Lemma fixed_index_inj m1 m2 i : fixed_index m1 = Some i -> fixed_index m2 = Some i -> m1 = m2.
Proof. intros (_ & H1 & _)%fixed_index_spec (_ & H2 & _)%fixed_index_spec. congruence. Qed.

(** A tracked write is accepted exactly when the register is cached and the value
    has no reserved bit and only defined memory types; an accepted write changes
    the cached value of that register and of no other, a rejected one nothing. *)
Theorem track_mtrr_update_spec s msr value :
  length (var_base s) = 10%nat -> length (var_mask s) = 10%nat -> length (mtrr_fix s) = 11%nat ->
  exists s', mtrrs_abstraction_track_mtrr_update s msr value = Ok (acceptable msr value, s') /\
    if acceptable msr value
    then cached s' msr = Some value /\ (forall msr', msr' <> msr -> cached s' msr' = cached s msr')
    else s' = s.
Proof.
  intros Lb Lm Lf. unfold mtrrs_abstraction_track_mtrr_update, acceptable.
  destruct (Z.eqb_spec msr IA32_MTRR_DEF_TYPE_ADDR) as [->|Hd].
  { destruct (is_IA32_MTRR_DEF_TYPE_valid value); eexists; (split; [done|]); [|done].
    split; [done|]. intros m Hm. unfold cached. by rewrite (proj2 (Z.eqb_neq _ _)). }
  destruct (fixed_index msr) as [i|] eqn:Ei.
  - destruct (fixed_index_spec msr i Ei) as (Hi & _ & Hr).
    rewrite (proj2 (Z.leb_le _ _)), (proj2 (Z.leb_le _ _)) by apply Hr. cbn [andb].
    destruct (is_IA32_FIXED_RANGE_REG_valid value); cbn [negb]; [|by exists s].
    rewrite wr_ok by lia. rewrite bind_Ok. eexists. split; [done|]. unfold cached.
    rewrite (proj2 (Z.eqb_neq _ _)), Ei by done. cbn [mtrr_fix set_fix mtrr_def_type var_base var_mask].
    split; [by rewrite list_lookup_insert_eq by lia|]. intros m Hm.
    destruct (m =? IA32_MTRR_DEF_TYPE_ADDR); [done|]. destruct (fixed_index m) as [j|] eqn:Ej; [|done].
    destruct (fixed_index_spec m j Ej) as (Hj & _). rewrite list_lookup_insert_ne; [done|].
    intros E. apply Hm. apply (fixed_index_inj _ _ i); [|done]. rewrite Ej. f_equal. lia.
  - destruct ((IA32_MTRR_FIX64K_00000_ADDR <=? msr) && (msr <=? IA32_MTRR_FIX4K_F8000_ADDR)) eqn:Ef.
    { exists s. unfold IA32_MTRR_FIX64K_00000_ADDR, IA32_MTRR_MAX_PHYSMASK_ADDR in *.
      rewrite (proj2 (Z.leb_gt msr 531)) by lia. rewrite andb_false_r. done. }
    destruct ((IA32_MTRR_PHYSBASE0_ADDR <=? msr) && (msr <=? IA32_MTRR_MAX_PHYSMASK_ADDR)) eqn:Er;
      [|by exists s]. cbn [andb].
    assert (0 <= (msr - 512) / 2 < 10 /\ (msr mod 2 <> 0 -> (msr - 513) / 2 = (msr - 512) / 2)) as [Hx Hodd].
    { unfold IA32_MTRR_PHYSBASE0_ADDR, IA32_MTRR_MAX_PHYSMASK_ADDR in *. lia. }
    unfold cached. rewrite (proj2 (Z.eqb_neq msr IA32_MTRR_DEF_TYPE_ADDR)), Ei, Er by done.
    destruct (Z.eqb_spec (msr mod 2) 0) as [Hev|Hev];
      [destruct (is_IA32_MTRR_PHYSBASE_REG_valid value)|destruct (is_IA32_MTRR_PHYSMASK_REG_valid value)];
      cbn [negb]; try (by exists s); unfold IA32_MTRR_PHYSMASK0_ADDR, IA32_MTRR_PHYSBASE0_ADDR;
      rewrite ?Hodd, wr_ok by lia; rewrite bind_Ok; eexists; (split; [done|]);
      cbn [mtrr_fix set_vars mtrr_def_type var_base var_mask];
      (split; [by rewrite list_lookup_insert_eq by lia|]); intros m Hm;
      destruct (m =? IA32_MTRR_DEF_TYPE_ADDR); try done; destruct (fixed_index m); try done;
      destruct ((512 <=? m) && (m <=? IA32_MTRR_MAX_PHYSMASK_ADDR)) eqn:Em; try done;
      destruct (Z.eqb_spec (m mod 2) 0); try done; (rewrite list_lookup_insert_ne; [done|]); lia.
Qed.

Lemma track_mtrr_update_spec_witness :
  let s := two_regs wb_base wb_mask uc_base uc_mask in
  exists s', mtrrs_abstraction_track_mtrr_update s 514 (2 ^ 28 + 4) = Ok (acceptable 514 (2 ^ 28 + 4), s') /\
    if acceptable 514 (2 ^ 28 + 4)
    then cached s' 514 = Some (2 ^ 28 + 4) /\ (forall msr', msr' <> 514 -> cached s' msr' = cached s msr')
    else s' = s.
Proof. intros s. apply (track_mtrr_update_spec s 514 (2 ^ 28 + 4)); reflexivity. Defined.
