(* ===== verification/Libc.v ===== *)
(** libc/common_libc.c and libc/em64t_mem2.c: the memory and string routines every
    component uses.  Memory is a function from addresses to bytes; the objects a routine
    is given do not wrap around the end of the address space. *)

From S2P Require Import Prelude VmmDefs.

Definition mem := Z -> Z.

(** Every cell holds a byte. *)
Definition mem_ok (m : mem) : Prop := forall x, 0 <= m x < 256.

(** * Accesses of 1 and of 8 bytes, little endian *)

Definition within (a n x : Z) : bool := (a <=? x) && (x <? a + n).

Definition store8 (m : mem) (a v : Z) : mem := fun x => if x =? a then u8 v else m x.

Fixpoint load_bytes (m : mem) (a : Z) (n : nat) : Z :=
  match n with O => 0 | S n' => m a + 256 * load_bytes m (a + 1) n' end.

Definition store_bytes (m : mem) (a n v : Z) : mem :=
  fun x => if within a n x then Z.shiftr v (8 * (x - a)) mod 256 else m x.

Definition load64 (m : mem) (a : Z) : Z := load_bytes m a 8.
Definition store64 (m : mem) (a v : Z) : mem := store_bytes m a 8 v.

(** The bytes from [h] on; memory with other bytes from [h] on. *)
Fixpoint peek (m : mem) (h : Z) (n : nat) : list Z :=
  match n with O => [] | S n' => m h :: peek m (h + 1) n' end.
Fixpoint poke (m : mem) (h : Z) (bs : list Z) : mem :=
  match bs with [] => m | b :: bs' => poke (store8 m h b) (h + 1) bs' end.

(** Little-endian words in a buffer. *)
Definition le (bs : list Z) : Z := foldr (fun b v => b + 256 * v) 0 bs.
Definition le_bytes (n v : Z) : list Z := (fun i => Z.shiftr v (8 * i) mod 256) <$> seqZ 0 n.

(** * Loops *)

Fixpoint up {S} (n : nat) (i : Z) (body : Z -> S -> S) (s : S) : S :=
  match n with O => s | Datatypes.S n' => up n' (i + 1) body (body i s) end.

(** [for (i = n; i > 0; i--) body(i)]. *)
Fixpoint down {S} (n : nat) (body : Z -> S -> S) (s : S) : S :=
  match n with O => s | Datatypes.S n' => down n' body (body (Z.of_nat n) s) end.

(** * Memory routines *)

(** [while (count-- > 0) *(p++) = (UINT8)filler;] *)
Fixpoint memset_loop (n : nat) (p filler : Z) (m : mem) : mem :=
  match n with O => m | S n' => memset_loop n' (p + 1) filler (store8 m p filler) end.

Definition vmm_memset (m : mem) (dest filler count : Z) : mem :=
  memset_loop (Z.to_nat count) dest filler m.

Definition vmm_memcpy_ascending (m : mem) (dest src count : Z) : mem :=
  let cnt_64bit := Z.shiftr count 3 in
  let m := up (Z.to_nat cnt_64bit) 0 (fun i m => store64 m (dest + 8 * i) (load64 m (src + 8 * i))) m in
  let i := if cnt_64bit =? 0 then 0 else Z.shiftl cnt_64bit 3 in
  up (Z.to_nat (count - i)) i (fun j m => store8 m (dest + j) (m (src + j))) m.

Definition vmm_memcpy_descending (m : mem) (dest src count : Z) : mem :=
  let cnt := Z.shiftr count 3 in
  let rem := Z.land count 7 in
  let m := up (Z.to_nat rem) 0 (fun i m => store8 m (dest + (count - i - 1)) (m (src + (count - i - 1)))) m in
  down (Z.to_nat cnt) (fun i m => store64 m (dest + 8 * (i - 1)) (load64 m (src + 8 * (i - 1)))) m.

Definition vmm_memcpy (m : mem) (dest src count : Z) : mem :=
  if src <=? dest then vmm_memcpy_descending m dest src count
  else vmm_memcpy_ascending m dest src count.

Definition vmm_memmove (m : mem) (dest src count : Z) : mem :=
  if dest =? src then m
  else if src <=? dest then vmm_memcpy_descending m dest src count
  else vmm_memcpy_ascending m dest src count.

Definition copy_word (n : nat) (m : mem) (dst src : Z) : mem :=
  store_bytes m dst (Z.of_nat n) (load_bytes m src n).

Definition vmm_memcpy_assuming_mmio (m : mem) (dst src count : Z) : mem :=
  if count =? 0 then m
  else if count =? 1 then store8 m dst (m src)
  else if count =? 2 then copy_word 2 m dst src
  else if count =? 4 then copy_word 4 m dst src
  else if count =? 8 then copy_word 8 m dst src
  else if count =? 16 then copy_word 8 (copy_word 8 m dst src) (dst + 8) (src + 8)
  else vmm_memcpy m dst src count.

(** char is signed. *)
Definition char (b : Z) : Z := if b <? 128 then b else b - 256.

(** The loop of vmm_memcmp: the index where it stops. *)
Fixpoint memcmp_loop (n : nat) (m : mem) (m1 m2 : Z) : Z :=
  match n with
  | O => 0
  | S n' => if char (m (m1 + Z.of_nat n')) =? char (m (m2 + Z.of_nat n')) then memcmp_loop n' m m1 m2
            else Z.of_nat n'
  end.

Definition vmm_memcmp (m : mem) (mem1 mem2 count : Z) : Z :=
  let i := memcmp_loop (Z.to_nat count) m mem1 mem2 in
  char (m (mem1 + i)) - char (m (mem2 + i)).

(** * Strings *)

Definition SIZE_T_ALL_ONES : Z := 2 ^ 64 - 1.

(** The scan for the terminator, with a bound on its iterations. *)
Fixpoint strlen_loop (fuel : nat) (m : mem) (next len : Z) : outcome Z :=
  match fuel with
  | O => Spin
  | S fuel' => if m next =? 0 then Ok len else strlen_loop fuel' m (next + 1) (len + 1)
  end.

Definition vmm_strlen (fuel : nat) (m : mem) (string : Z) : outcome Z :=
  if string =? 0 then Ok SIZE_T_ALL_ONES else strlen_loop fuel m string 0.

Fixpoint strcpy_loop (fuel : nat) (m : mem) (dst src : Z) : outcome (Z * mem) :=
  match fuel with
  | O => Spin
  | S fuel' =>
      let c := m src in
      let m := store8 m dst c in
      if c =? 0 then Ok (dst + 1, m) else strcpy_loop fuel' m (dst + 1) (src + 1)
  end.

Definition vmm_strcpy (fuel : nat) (m : mem) (dst src : Z) : outcome (Z * mem) :=
  if (src =? 0) || (dst =? 0) then Ok (0, m) else strcpy_loop fuel m dst src.

Fixpoint strcpy_s_loop (fuel : nat) (m : mem) (dst s : Z) : outcome (Z * mem) :=
  match fuel with
  | O => Spin
  | S fuel' =>
      if m s =? 0 then Ok (dst, store8 m dst 0)
      else strcpy_s_loop fuel' (store8 m dst (m s)) (dst + 1) (s + 1)
  end.

Definition vmm_strcpy_s (fuel : nat) (m : mem) (dst dst_length src : Z) : outcome (Z * mem) :=
  src_length ← vmm_strlen fuel m src;
  if (src =? 0) || (dst =? 0) || (dst_length =? 0) || (dst_length <? src_length ⊕₆₄ 1) then Ok (0, m)
  else strcpy_s_loop fuel m dst src.

Fixpoint strcmp_loop (fuel : nat) (m : mem) (str1 str2 : Z) : outcome Z :=
  match fuel with
  | O => Spin
  | S fuel' =>
      if char (m str1) =? char (m str2) then
        if char (m str1) =? 0 then Ok (char (m str1) - char (m str2))
        else strcmp_loop fuel' m (str1 + 1) (str2 + 1)
      else Ok (char (m str1) - char (m str2))
  end.

Definition vmm_strcmp (fuel : nat) (m : mem) (string1 string2 : Z) : outcome Z :=
  if string1 =? string2 then Ok 0
  else if string1 =? 0 then Ok (-1)
  else if string2 =? 0 then Ok 1
  else strcmp_loop fuel m string1 string2.

(** * The locked routines *)

(** movb (src),bl; lock xchg bl,(dst). *)
Definition vmm_lock_xchg_byte (m : mem) (dst src : Z) : mem := store8 m dst (m src).

(** movq src,r8; movq src,rdx; movq dst,rcx; movq r8,(rdx); lock xchg r8,(rcx): r8 is
    the pointer itself, not the word it points to. *)
Definition vmm_lock_xchg_qword (m : mem) (dst src : Z) : mem := store64 (store64 m src src) dst src.

Definition vmm_lock_memcpy_ascending (m : mem) (dest src count : Z) : mem :=
  let cnt := Z.shiftr count 3 in
  let m := up (Z.to_nat cnt) 0 (fun i m => vmm_lock_xchg_qword m (dest + 8 * i) (src + 8 * i)) m in
  let i := if cnt =? 0 then 0 else Z.shiftl cnt 3 in
  up (Z.to_nat (count - i)) i (fun j m => vmm_lock_xchg_byte m (dest + j) (src + j)) m.

Definition vmm_lock_memcpy_descending (m : mem) (dest src count : Z) : mem :=
  let cnt := Z.shiftr count 3 in
  let rem := Z.land count 7 in
  let m := up (Z.to_nat rem) 0 (fun i m => vmm_lock_xchg_byte m (dest + (count - i - 1)) (src + (count - i - 1))) m in
  down (Z.to_nat cnt) (fun i m => vmm_lock_xchg_qword m (dest + 8 * (i - 1)) (src + 8 * (i - 1))) m.

Definition vmm_lock_memcpy (m : mem) (dest src count : Z) : mem :=
  if src <=? dest then vmm_lock_memcpy_descending m dest src count
  else vmm_lock_memcpy_ascending m dest src count.

(** * Facts *)

(** What copying [n] bytes means, overlapping or not. *)
Definition moved (m : mem) (dest src n : Z) : mem :=
  fun x => if within dest n x then m (src + (x - dest)) else m x.

Lemma within_spec a n x : within a n x = true <-> a <= x < a + n.
Proof. unfold within. rewrite andb_true_iff, Z.leb_le, Z.ltb_lt. done. Qed.

Lemma within_false a n x : within a n x = false <-> ~ (a <= x < a + n).
Proof. rewrite <- within_spec. by destruct (within a n x). Qed.

Ltac within_cases :=
  repeat match goal with
  | |- context [within ?a ?n ?x] =>
      let E := fresh "Hin" in
      destruct (within a n x) eqn:E; [apply within_spec in E|apply within_false in E]
  | H : context [within ?a ?n ?x] |- _ =>
      let E := fresh "Hin" in
      destruct (within a n x) eqn:E; [apply within_spec in E|apply within_false in E]
  end.

Lemma up_inv {S} (P : Z -> S -> Prop) body n i (s : S) : P i s ->
  (forall j s, i <= j < i + Z.of_nat n -> P j s -> P (j + 1) (body j s)) ->
  P (i + Z.of_nat n) (up n i body s).
Proof.
  revert i s. induction n as [|n IH]; intros i s H0 Hstep; simpl up; [by rewrite Z.add_0_r|].
  replace (i + Z.of_nat (Datatypes.S n)) with (i + 1 + Z.of_nat n) by lia.
  apply IH; [apply Hstep; [lia|done]|]. intros j t Hj. apply Hstep. lia.
Qed.

Lemma down_inv {S} (P : Z -> S -> Prop) body n (s : S) : P (Z.of_nat n) s ->
  (forall j s, 0 < j <= Z.of_nat n -> P j s -> P (j - 1) (body j s)) ->
  P 0 (down n body s).
Proof.
  revert s. induction n as [|n IH]; intros s H0 Hstep; [done|]. cbn [down].
  apply IH; [|intros j t Hj; apply Hstep; lia].
  replace (Z.of_nat n) with (Z.of_nat (Datatypes.S n) - 1) by lia. apply Hstep; [lia|done].
Qed.

(** Byte [k] of a little-endian word. *)
Lemma load_byte m n : mem_ok m -> forall a k, 0 <= k < Z.of_nat n ->
  Z.shiftr (load_bytes m a n) (8 * k) mod 256 = m (a + k).
Proof.
  intros Hm. induction n as [|n IH]; intros a k Hk; [lia|]. cbn [load_bytes].
  pose proof (Hm a). destruct (decide (k = 0)) as [->|].
  - rewrite Z.mul_0_r, Z.shiftr_0_r, Z.add_0_r.
    rewrite (Z.add_comm (m a)), (Z.mul_comm 256), Z.add_comm, Z.mod_add by lia. apply Z.mod_small. lia.
  - replace (8 * k) with (8 + 8 * (k - 1)) by lia. rewrite <- Z.shiftr_shiftr by lia.
    replace (Z.shiftr (m a + 256 * load_bytes m (a + 1) n) 8) with (load_bytes m (a + 1) n).
    + rewrite IH by lia. f_equal. lia.
    + rewrite Z.shiftr_div_pow2 by lia. change (2 ^ 8) with 256.
      rewrite Z.mul_comm, Z.div_add by lia. rewrite Z.div_small by lia. lia.
Qed.

(** A word read from its bytes. *)
Lemma load_of_bytes (m : mem) n : forall v a,
  (forall x, within a (Z.of_nat n) x = true -> m x = Z.shiftr v (8 * (x - a)) mod 256) ->
  load_bytes m a n = v mod 256 ^ Z.of_nat n.
Proof.
  induction n as [|n IH]; intros v a E; cbn [load_bytes]; [by rewrite Z.mod_1_r|].
  rewrite (IH (Z.shiftr v 8) (a + 1)).
  - rewrite E by (apply within_spec; lia). rewrite Z.sub_diag, Z.mul_0_r, Z.shiftr_0_r.
    rewrite Z.shiftr_div_pow2 by lia. change (2 ^ 8) with 256.
    replace (Z.of_nat (S n)) with (1 + Z.of_nat n) by lia. rewrite Z.pow_add_r by lia. change (256 ^ 1) with 256.
    symmetry. apply Z.rem_mul_r; lia.
  - intros x Hx%within_spec. rewrite E by (apply within_spec; lia). rewrite Z.shiftr_shiftr by lia.
    do 2 f_equal. lia.
Qed.

Lemma load_store m a n v : 0 <= v < 256 ^ Z.of_nat n -> load_bytes (store_bytes m a (Z.of_nat n) v) a n = v.
Proof.
  intros Hv. rewrite (load_of_bytes _ n v a); [by apply Z.mod_small|].
  intros x Hx. unfold store_bytes. by rewrite Hx.
Qed.

Lemma load_ext (m m' : mem) n : forall a, (forall x, a <= x < a + Z.of_nat n -> m' x = m x) ->
  load_bytes m' a n = load_bytes m a n.
Proof.
  induction n as [|n IH]; intros a E; cbn [load_bytes]; [done|]. rewrite E by lia.
  rewrite IH; [done|]. intros x Hx. apply E. lia.
Qed.

Lemma store_load m m' a b n x : mem_ok m ->
  store_bytes m' a (Z.of_nat n) (load_bytes m b n) x
    = if within a (Z.of_nat n) x then m (b + (x - a)) else m' x.
Proof.
  intros Hm. unfold store_bytes. within_cases; [|done]. apply load_byte; [done|lia].
Qed.

Lemma store64_load64 m m' a b x : mem_ok m ->
  store64 m' a (load64 m b) x = if within a 8 x then m (b + (x - a)) else m' x.
Proof. exact (store_load m m' a b 8 x). Qed.

Lemma store8_eq (m m' : mem) a b x : mem_ok m ->
  store8 m' a (m b) x = if x =? a then m b else m' x.
Proof. intros Hm. pose proof (Hm b). unfold store8. by rewrite u8_small. Qed.

Lemma moved_ok m (m' : mem) dest src n : mem_ok m -> (forall x, m' x = moved m dest src n x) -> mem_ok m'.
Proof. intros Hm E x. rewrite E. unfold moved. destruct (within dest n x); apply Hm. Qed.

Lemma shiftr3 n : 0 <= n -> Z.shiftr n 3 = n / 8.
Proof. intros H. by rewrite Z.shiftr_div_pow2. Qed.

Lemma words_bytes n : 0 <= n -> (if Z.shiftr n 3 =? 0 then 0 else Z.shiftl (Z.shiftr n 3) 3) = 8 * (n / 8).
Proof.
  intros H. rewrite shiftr3 by done. rewrite Z.shiftl_mul_pow2 by done. change (2 ^ 3) with 8.
  destruct (Z.eqb_spec (n / 8) 0) as [->|]; lia.
Qed.

(** Towards lower addresses, the ascending copy reads every byte before it is
    overwritten. *)
Lemma memcpy_ascending_moved m dest src n : mem_ok m -> dest <= src -> 0 <= n ->
  forall x, vmm_memcpy_ascending m dest src n x = moved m dest src n x.
Proof.
  intros Hm Hds Hn. unfold vmm_memcpy_ascending. rewrite words_bytes, shiftr3 by done.
  pose (P := fun i (m' : mem) => forall x, m' x = moved m dest src i x).
  match goal with |- context [up (Z.to_nat (n - _)) _ _ ?m'] =>
    assert (P (8 * (n / 8)) m') as Hw; [|set (m1 := m') in *] end.
  { replace (8 * (n / 8)) with (8 * (0 + Z.of_nat (Z.to_nat (n / 8)))) by lia.
    apply (up_inv (fun i m' => P (8 * i) m')).
    - intros x. unfold moved. within_cases; [lia|done].
    - intros i m' Hi Hp x. rewrite store64_load64 by by eapply moved_ok.
      rewrite !Hp. unfold moved. within_cases; try lia; f_equal; lia. }
  clearbody m1. pose proof (up_inv P (fun j m => store8 m (dest + j) (m (src + j)))
    (Z.to_nat (n - 8 * (n / 8))) (8 * (n / 8)) m1 Hw) as Hb.
  replace (8 * (n / 8) + Z.of_nat (Z.to_nat (n - 8 * (n / 8)))) with n in Hb by lia.
  apply Hb. intros j m' Hj Hp x. rewrite store8_eq by by eapply moved_ok. rewrite !Hp.
  unfold moved. destruct (Z.eqb_spec x (dest + j)); within_cases; try lia; f_equal; lia.
Qed.

(** The upper end of a copy that has been done. *)
Lemma memcpy_descending_moved m dest src n : mem_ok m -> src <= dest -> 0 <= n ->
  forall x, vmm_memcpy_descending m dest src n x = moved m dest src n x.
Proof.
  intros Hm Hds Hn. unfold vmm_memcpy_descending.
  change 7 with (Z.ones 3). rewrite Z.land_ones, shiftr3 by done. change (2 ^ 3) with 8.
  (* bytes [k, n) have been copied *)
  pose (P := fun k (m' : mem) => forall x, m' x = moved m (dest + k) (src + k) (n - k) x).
  match goal with |- context [down _ _ ?m'] => assert (P (8 * (n / 8)) m') as Hw end.
  { replace (8 * (n / 8)) with (n - (0 + Z.of_nat (Z.to_nat (n mod 8)))) by lia.
    apply (up_inv (fun i m' => P (n - i) m')).
    - intros x. unfold moved. within_cases; [lia|done].
    - intros i m' Hi Hp x. rewrite store8_eq by by eapply moved_ok. rewrite !Hp.
      unfold moved. destruct (Z.eqb_spec x (dest + (n - i - 1))); within_cases; try lia; f_equal; lia. }
  match goal with |- context [down ?c ?b ?m1] =>
    pose proof (down_inv (fun i mi => P (8 * i) mi) b c m1) as Hd end.
  rewrite Z2Nat.id in Hd by lia. specialize (Hd Hw).
  intros x. rewrite Hd.
  - unfold moved. within_cases; try lia; f_equal; lia.
  - intros j m' Hj Hp y. rewrite store64_load64 by by eapply moved_ok. rewrite !Hp.
    unfold moved. within_cases; try lia; f_equal; lia.
Qed.

Lemma memset_loop_spec n : forall p filler m x,
  memset_loop n p filler m x = if within p (Z.of_nat n) x then u8 filler else m x.
Proof.
  induction n as [|n IH]; intros p f m x; cbn [memset_loop].
  - within_cases; [lia|done].
  - rewrite IH. unfold store8. destruct (Z.eqb_spec x p); within_cases; lia || done.
Qed.

(** [vmm_memcpy] copies correctly whether or not the two areas overlap (it is a
    memmove): afterwards the destination holds the source's former bytes, and nothing
    else has changed. *)
Theorem vmm_memcpy_moves (m : mem) (dest src count : Z) : mem_ok m -> 0 <= count ->
  forall x, vmm_memcpy m dest src count x = moved m dest src count x.
Proof.
  intros Hm Hc. unfold vmm_memcpy. destruct (Z.leb_spec src dest).
  - by apply memcpy_descending_moved.
  - apply memcpy_ascending_moved; [done|lia|done].
Qed.

Definition sample_mem : mem := fun x => x mod 256.

Lemma sample_mem_ok : mem_ok sample_mem.
Proof. intros x. unfold sample_mem. lia. Qed.

Lemma vmm_memcpy_moves_witness : vmm_memcpy sample_mem 103 100 21 110 = 107.
Proof. rewrite (vmm_memcpy_moves sample_mem 103 100 21 sample_mem_ok); [reflexivity|lia]. Defined.

(** [vmm_memmove] is the same. *)
Lemma vmm_memmove_moves (m : mem) (dest src count : Z) : mem_ok m -> 0 <= count ->
  forall x, vmm_memmove m dest src count x = moved m dest src count x.
Proof.
  intros Hm Hc x. unfold vmm_memmove. destruct (Z.eqb_spec dest src) as [->|].
  - unfold moved. within_cases; [f_equal; lia|done].
  - destruct (Z.leb_spec src dest); [by apply memcpy_descending_moved|].
    apply memcpy_ascending_moved; [done|lia|done].
Qed.

(** The store of one byte. *)
Lemma copy_word_moved n m dst src : mem_ok m ->
  forall x, copy_word n m dst src x = moved m dst src (Z.of_nat n) x.
Proof. intros Hm x. unfold copy_word, moved. by rewrite store_load. Qed.

(** [vmm_memcpy_assuming_mmio] copies, with single accesses for the sizes of device
    registers, whenever the areas do not overlap forwards. *)
Theorem vmm_memcpy_assuming_mmio_moves (m : mem) (dst src count : Z) : mem_ok m -> 0 <= count ->
  dst <= src \/ src + count <= dst ->
  forall x, vmm_memcpy_assuming_mmio m dst src count x = moved m dst src count x.
Proof.
  intros Hm Hc Hov x. unfold vmm_memcpy_assuming_mmio.
  destruct (Z.eqb_spec count 0) as [->|]; [unfold moved; within_cases; [lia|done]|].
  destruct (Z.eqb_spec count 1) as [->|].
  { rewrite store8_eq by done. unfold moved. destruct (Z.eqb_spec x dst); within_cases; try lia; f_equal; lia. }
  destruct (Z.eqb_spec count 2) as [->|]; [by apply (copy_word_moved 2)|].
  destruct (Z.eqb_spec count 4) as [->|]; [by apply (copy_word_moved 4)|].
  destruct (Z.eqb_spec count 8) as [->|]; [by apply (copy_word_moved 8)|].
  destruct (Z.eqb_spec count 16) as [->|].
  { pose proof (copy_word_moved 8 m dst src Hm) as E1.
    rewrite (copy_word_moved 8) by by eapply moved_ok. unfold moved at 1. rewrite !E1.
    unfold moved. within_cases; try lia; f_equal; lia. }
  unfold vmm_memcpy. destruct (Z.leb_spec src dst); [by apply memcpy_descending_moved|].
  apply memcpy_ascending_moved; [done|lia|done].
Qed.

Lemma vmm_memcpy_assuming_mmio_moves_witness :
  forall x, vmm_memcpy_assuming_mmio sample_mem 100 108 16 x = moved sample_mem 100 108 16 x.
Proof.
  apply vmm_memcpy_assuming_mmio_moves; [|lia|lia]. intros x. unfold sample_mem. lia.
Defined.

Lemma char_inj a b : 0 <= a < 256 -> 0 <= b < 256 -> char a = char b -> a = b.
Proof. unfold char. intros. destruct (Z.ltb_spec a 128), (Z.ltb_spec b 128); lia. Qed.

Lemma memcmp_loop_spec m a b n : mem_ok m ->
  let i := memcmp_loop n m a b in
  (0 <= i) /\ (forall j, i < j < Z.of_nat n -> m (a + j) = m (b + j)) /\
  (i = 0 \/ (i < Z.of_nat n /\ m (a + i) <> m (b + i))).
Proof.
  intros Hm. cbv zeta. induction n as [|n IH]; cbn [memcmp_loop].
  { split_and!; [lia|intros j Hj; lia|by left]. }
  destruct (Z.eqb_spec (char (m (a + Z.of_nat n))) (char (m (b + Z.of_nat n)))) as [E|E].
  - apply char_inj in E; [|apply Hm..]. destruct IH as (I1 & I2 & I3). split_and!; [done| |lia].
    intros j Hj. destruct (decide (j = Z.of_nat n)) as [->|]; [done|]. apply I2. lia.
  - split_and!; [lia|intros j Hj; lia|]. right. split; [lia|congruence].
Qed.

(** [vmm_memcmp] of at least one byte is 0 exactly when the two areas have the same
    bytes. *)
Theorem vmm_memcmp_equal (m : mem) (mem1 mem2 count : Z) : mem_ok m -> 0 < count ->
  vmm_memcmp m mem1 mem2 count = 0 <-> (forall i, 0 <= i < count -> m (mem1 + i) = m (mem2 + i)).
Proof.
  intros Hm Hc. unfold vmm_memcmp. destruct (memcmp_loop_spec m mem1 mem2 (Z.to_nat count) Hm) as (I1 & I2 & I3).
  set (i := memcmp_loop (Z.to_nat count) m mem1 mem2) in *. split.
  - intros E. assert (m (mem1 + i) = m (mem2 + i)) as Ei by (apply char_inj; [apply Hm..|lia]).
    destruct I3 as [I3|[_ I3]]; [|done]. intros j Hj.
    destruct (decide (j = 0)) as [->|]; [by rewrite <- I3|]. apply I2. lia.
  - intros E. rewrite E; [lia|]. lia.
Qed.

Lemma vmm_memcmp_equal_witness :
  vmm_memcmp sample_mem 0 256 4 = 0 <-> (forall i, 0 <= i < 4 -> sample_mem (0 + i) = sample_mem (256 + i)).
Proof. apply vmm_memcmp_equal; [exact sample_mem_ok|lia]. Defined.

(** * Strings *)

(** A string: its characters, none of them 0, then a 0. *)
Fixpoint c_string (m : mem) (p : Z) (l : list Z) : Prop :=
  match l with
  | [] => m p = 0
  | c :: l' => m p = c /\ c <> 0 /\ c_string m (p + 1) l'
  end.

Lemma c_string_ext m m' p l : c_string m p l ->
  (forall x, p <= x <= p + Z.of_nat (length l) -> m' x = m x) -> c_string m' p l.
Proof.
  revert p. induction l as [|c l IH]; intros p Hs E.
  - cbn [c_string] in *. rewrite E; [done|]. simpl. lia.
  - destruct Hs as (H1 & H2 & H3). cbn [length] in E. split_and!; [rewrite E; [done|lia]|done|].
    apply IH; [done|]. intros x Hx. apply E. lia.
Qed.

Lemma strlen_loop_spec m l : forall fuel p len, c_string m p l -> (length l < fuel)%nat ->
  strlen_loop fuel m p len = Ok (len + Z.of_nat (length l)).
Proof.
  induction l as [|c l IH]; intros [|fuel] p len Hs Hf; cbn [length] in *; try lia; cbn [strlen_loop].
  - cbn [c_string] in Hs. rewrite Hs. simpl. f_equal. lia.
  - destruct Hs as (-> & Hc & Hs). rewrite (proj2 (Z.eqb_neq c 0) Hc).
    rewrite IH by (done || lia). f_equal. lia.
Qed.

Lemma c_string_chars m p l : mem_ok m -> c_string m p l -> Forall (fun c => 0 < c < 256) l.
Proof.
  intros Hm. revert p. induction l as [|c l IH]; intros p Hs; [done|]. destruct Hs as (H1 & H2 & H3).
  pose proof (Hm p). constructor; [lia|]. by eapply IH.
Qed.

Lemma strcpy_s_loop_spec l : forall fuel m dst s, mem_ok m -> c_string m s l -> (length l < fuel)%nat ->
  dst + Z.of_nat (length l) < s \/ s + Z.of_nat (length l) < dst ->
  exists m', strcpy_s_loop fuel m dst s = Ok (dst + Z.of_nat (length l), m') /\ c_string m' dst l /\
    (forall x, ~ (dst <= x <= dst + Z.of_nat (length l)) -> m' x = m x).
Proof.
  induction l as [|c l IH]; intros [|fuel] m dst s Hm Hs Hf Hd; cbn [length] in *; try lia;
    cbn [strcpy_s_loop].
  - cbn [c_string] in Hs. rewrite Hs. simpl. eexists. rewrite Z.add_0_r. split; [done|]. cbn [c_string].
    unfold store8. rewrite Z.eqb_refl. split; [done|]. intros x Hx.
    rewrite (proj2 (Z.eqb_neq x dst)) by lia. done.
  - destruct Hs as (Hc & Hc0 & Hs). rewrite Hc, (proj2 (Z.eqb_neq c 0) Hc0).
    assert (E : forall x, x <> dst -> store8 m dst c x = m x)
      by (intros x Hx; unfold store8; by rewrite (proj2 (Z.eqb_neq x dst))).
    assert (Hu : u8 c = c) by (pose proof (Hm s); apply u8_small; lia).
    destruct (IH fuel (store8 m dst c) (dst + 1) (s + 1)) as (m' & -> & H1 & H2).
    + intros x. unfold store8. pose proof (Hm s). pose proof (Hm x).
      destruct (x =? dst); [rewrite Hu|]; lia.
    + eapply c_string_ext; [done|]. intros x Hx. apply E. lia.
    + lia.
    + lia.
    + exists m'. split_and!; [do 2 f_equal; lia| |].
      * split_and!; [|done|done]. rewrite H2 by lia. unfold store8. by rewrite Z.eqb_refl.
      * intros x Hx. rewrite H2 by lia. apply E. lia.
Qed.

(** [vmm_strcpy_s] of a terminated string: when the destination's length is too small
    for the string and its terminator it returns NULL and writes nothing; otherwise it
    terminates with the whole string copied and no byte outside changed. *)
Theorem vmm_strcpy_s_spec (fuel : nat) (m : mem) (dst dst_length src : Z) (l : list Z) :
  mem_ok m -> c_string m src l -> src <> 0 -> dst <> 0 -> (length l < fuel)%nat ->
  Z.of_nat (length l) + 1 < 2 ^ 64 ->
  dst + Z.of_nat (length l) < src \/ src + Z.of_nat (length l) < dst ->
  (dst_length < Z.of_nat (length l) + 1 -> vmm_strcpy_s fuel m dst dst_length src = Ok (0, m)) /\
  (Z.of_nat (length l) + 1 <= dst_length ->
     exists m', vmm_strcpy_s fuel m dst dst_length src = Ok (dst + Z.of_nat (length l), m') /\
       c_string m' dst l /\ forall x, ~ (dst <= x <= dst + Z.of_nat (length l)) -> m' x = m x).
Proof.
  intros Hm Hs Hs0 Hd0 Hf Hb Hov. unfold vmm_strcpy_s, vmm_strlen.
  rewrite (proj2 (Z.eqb_neq src 0)), (proj2 (Z.eqb_neq dst 0)) by done.
  rewrite (strlen_loop_spec m l) by done. rewrite bind_Ok, Z.add_0_l. cbn [orb]. usmall. split.
  - intros Hlt. rewrite (proj2 (Z.ltb_lt _ _)) by lia. by rewrite orb_true_r.
  - intros Hge. rewrite (proj2 (Z.ltb_ge _ _)), (proj2 (Z.eqb_neq dst_length 0)) by lia.
    by apply strcpy_s_loop_spec.
Qed.

(** "ab" at address 10. *)
Definition string_mem : mem := fun x => if x =? 10 then 97 else if x =? 11 then 98 else 0.

Lemma string_mem_ok : mem_ok string_mem.
Proof. intros x. unfold string_mem. destruct (x =? 10), (x =? 11); lia. Qed.

Lemma vmm_strcpy_s_spec_witness :
  (2 < 2 + 1 -> vmm_strcpy_s 5 string_mem 20 2 10 = Ok (0, string_mem)) /\
  (2 + 1 <= 2 -> exists m', vmm_strcpy_s 5 string_mem 20 2 10 = Ok (22, m') /\
     c_string m' 20 [97; 98] /\ forall x, ~ (20 <= x <= 22) -> m' x = string_mem x).
Proof.
  apply (vmm_strcpy_s_spec 5 string_mem 20 2 10 [97; 98] string_mem_ok); simpl; try lia.
  vm_compute. repeat split; discriminate.
Defined.

Lemma strcmp_loop_spec m l1 : forall l2 fuel p q, mem_ok m -> c_string m p l1 -> c_string m q l2 ->
  (length l1 < fuel)%nat -> exists r, strcmp_loop fuel m p q = Ok r /\ (r = 0 <-> l1 = l2).
Proof.
  induction l1 as [|a l1 IH]; intros l2 [|fuel] p q Hm H1 H2 Hf; cbn [length] in Hf; try lia;
    cbn [strcmp_loop]; pose proof (Hm p); pose proof (Hm q).
  - cbn [c_string] in H1. rewrite H1 in *. change (char 0) with 0.
    destruct l2 as [|b l2]; [cbn [c_string] in H2; rewrite H2; simpl; eexists; split; [done|]; done|].
    destruct H2 as (<- & Hb & _). destruct (Z.eqb_spec 0 (char (m q))) as [E|E].
    + exfalso. apply Hb. apply char_inj; [lia..|]. by rewrite <- E.
    + eexists. split; [done|]. split; [lia|done].
  - destruct H1 as (<- & Ha & H1). destruct (Z.eqb_spec (char (m p)) (char (m q))) as [E|E].
    + apply char_inj in E; [|lia..]. rewrite (proj2 (Z.eqb_neq (char (m p)) 0)).
      2:{ intros X. apply Ha. apply char_inj; [lia..|done]. }
      destruct l2 as [|b l2]; [cbn [c_string] in H2; congruence|]. destruct H2 as (<- & _ & H2).
      destruct (IH l2 fuel (p + 1) (q + 1) Hm H1 H2 ltac:(lia)) as (r & -> & Hr).
      exists r. split; [done|]. rewrite Hr. split; [intros ->|intros [=]; done]. by rewrite E.
    + eexists. split; [done|]. split; [lia|]. intros <-. destruct H2 as (X & _). by rewrite X in E.
Qed.

(** [vmm_strcmp] terminates on two terminated strings and returns 0 exactly when they
    are equal. *)
Theorem vmm_strcmp_equal (fuel : nat) (m : mem) (string1 string2 : Z) (l1 l2 : list Z) :
  mem_ok m -> c_string m string1 l1 -> c_string m string2 l2 -> string1 <> 0 -> string2 <> 0 ->
  (length l1 < fuel)%nat ->
  exists r, vmm_strcmp fuel m string1 string2 = Ok r /\ (r = 0 <-> l1 = l2).
Proof.
  intros Hm H1 H2 Hz1 Hz2 Hf. unfold vmm_strcmp.
  destruct (Z.eqb_spec string1 string2) as [->|].
  - exists 0. split; [done|]. split; [|done]. intros _. clear Hf Hz1 Hz2. revert string2 l2 H1 H2.
    induction l1 as [|a l1 IH]; intros p [|b l2] H1 H2; cbn [c_string] in *; [done|lia|lia|].
    destruct H1 as (<- & _ & H1), H2 as (<- & _ & H2). f_equal. by eapply IH.
  - rewrite (proj2 (Z.eqb_neq string1 0)), (proj2 (Z.eqb_neq string2 0)) by done.
    by apply strcmp_loop_spec.
Qed.

Lemma vmm_strcmp_equal_witness :
  exists r, vmm_strcmp 3 string_mem 10 11 = Ok r /\ (r = 0 <-> [97; 98] = [98]).
Proof.
  apply (vmm_strcmp_equal 3 string_mem 10 11 [97; 98] [98] string_mem_ok); try (simpl; lia);
    vm_compute; repeat split; discriminate.
Defined.

(** [vmm_lock_memcpy] of 8 bytes does not copy: the exchange stores the source's
    address, not its content, in the destination and in the source itself. *)
Theorem vmm_lock_memcpy_copies_pointer (m : mem) (dest src : Z) :
  0 <= src -> src + 8 <= dest -> dest + 8 <= 2 ^ 64 ->
  let m' := vmm_lock_memcpy m dest src 8 in load64 m' dest = src /\ load64 m' src = src.
Proof.
  intros Hs Hd He m'. subst m'. unfold vmm_lock_memcpy. rewrite (proj2 (Z.leb_le _ _)) by lia.
  unfold vmm_lock_memcpy_descending. change (Z.shiftr 8 3) with 1. change (Z.land 8 7) with 0.
  change (Z.to_nat 0) with 0%nat. change (Z.to_nat 1) with 1%nat. cbn [up down].
  change (8 * (Z.of_nat 1 - 1)) with 0. rewrite !Z.add_0_r. unfold vmm_lock_xchg_qword.
  assert (Hload : forall (m0 : mem) a v, 0 <= v < 2 ^ 64 -> (forall x, within a 8 x = true ->
            m0 x = Z.shiftr v (8 * (x - a)) mod 256) -> load64 m0 a = v).
  { intros m0 a v Hv E. unfold load64. rewrite (load_of_bytes m0 8 v a) by done. apply Z.mod_small. done. }
  split; apply Hload; try lia; intros x Hx; unfold store64, store_bytes; rewrite ?Hx; [done|].
  apply within_spec in Hx. by rewrite (proj2 (within_false dest 8 x)) by lia.
Qed.

Lemma vmm_lock_memcpy_copies_pointer_witness :
  let m' := vmm_lock_memcpy sample_mem 4096 4000 8 in load64 m' 4096 = 4000 /\ load64 m' 4000 = 4000.
Proof. apply vmm_lock_memcpy_copies_pointer; lia. Defined.

(** * Buffers *)

Lemma poke_below m bs : forall h x, x < h -> poke m h bs x = m x.
Proof.
  revert m. induction bs as [|b bs IH]; intros m h x Hx; cbn [poke]; [done|]. rewrite IH by lia.
  unfold store8. by rewrite (proj2 (Z.eqb_neq x h)) by lia.
Qed.
Lemma poke_lookup m bs : forall h i b, Forall (fun c => 0 <= c < 256) bs -> bs !! i = Some b -> poke m h bs (h + Z.of_nat i) = b.
Proof.
  revert m. induction bs as [|c bs IH]; intros m h i b Hb Ei; [done|]. apply Forall_cons in Hb as [Hc Hb]. cbn [poke].
  destruct i as [|i].
  - injection Ei as <-. rewrite Z.add_0_r, poke_below by lia. unfold store8. rewrite Z.eqb_refl. by apply u8_small.
  - replace (h + Z.of_nat (S i)) with (h + 1 + Z.of_nat i) by lia. by apply IH.
Qed.
Lemma length_le_bytes n v : length (le_bytes n v) = Z.to_nat n.
Proof. unfold le_bytes. by rewrite length_fmap, length_seqZ. Qed.
Lemma le_bytes_bytes n v : Forall (fun c => 0 <= c < 256) (le_bytes n v).
Proof. unfold le_bytes. apply Forall_fmap, Forall_true. intros i. cbn. apply Z.mod_pos_bound. lia. Qed.
Lemma le_le_bytes (n : nat) : forall v, 0 <= v < 2 ^ (8 * Z.of_nat n) -> le (le_bytes (Z.of_nat n) v) = v.
Proof.
  induction n as [|n IH]; intros v Hv.
  - change (2 ^ _) with 1 in Hv. assert (v = 0) as -> by lia. reflexivity.
  - assert (E : le_bytes (Z.of_nat (S n)) v = v mod 256 :: le_bytes (Z.of_nat n) (v / 256)).
    { unfold le_bytes. rewrite seqZ_cons by lia. rewrite fmap_cons, Z.shiftr_0_r. f_equal.
      replace (Z.pred (Z.of_nat (S n))) with (Z.of_nat n) by lia. change (Z.succ 0) with (1 + 0).
      rewrite <- fmap_add_seqZ, <- list_fmap_compose. apply list_fmap_ext. intros k i Hi.
      apply list_elem_of_lookup_2, elem_of_seqZ in Hi. cbn [compose]. unfold compose.
      rewrite !Z.shiftr_div_pow2 by lia. replace (8 * (1 + i)) with (8 + 8 * i) by lia.
      rewrite Z.pow_add_r by lia. change (2 ^ 8) with 256. by rewrite Z.div_div by lia. }
    rewrite E. cbn [le foldr]. fold (le (le_bytes (Z.of_nat n) (v / 256))). rewrite IH; [lia|].
    replace (8 * Z.of_nat (S n)) with (8 * Z.of_nat n + 8) in Hv by lia. rewrite Z.pow_add_r in Hv by lia. change (2 ^ 8) with 256 in Hv.
    split; [lia|]. apply Z.div_lt_upper_bound; lia.
Qed.
