(* ===== verification/E820.v ===== *)
(** arch/e820_abstraction.c: the memory map the firmware reports, its iterators, the
    construction of new maps, and the emulation of the INT15/E820 service for a
    guest. *)

From S2P Require Import Prelude VmmDefs Libc.

(** * Data *)

Record e820_entry := mk_entry820 {
  base_address : Z;
  range_length : Z;
  address_range_type : Z;
  extended_attributes : Z
}.

(** sizeof of the basic and of the extended entry, both packed. *)
Definition ENTRY_SIZE : Z := 20.
Definition ENTRY_EXT_SIZE : Z := 24.

(** A map at address [map_addr]: the size field (4 bytes) and the entries. *)
Record e820_map := mk_map { map_addr : Z; memory_map_size : Z; map_entries : list e820_entry }.

Definition entries_hva (m : e820_map) : Z := map_addr m + 4.

(** A handle is NULL ([None], E820_ORIGINAL_MAP) or a map created here; [g] is the
    static g_e820_map. *)
Definition e820_abstraction_get_map (g handle : option e820_map) : option e820_map :=
  match handle with None => g | Some m => Some m end.

(** [alloc] is the result of vmm_memory_alloc (NULL is 0). *)
Definition e820_abstraction_initialize (g : option e820_map) (alloc : Z) (map : option e820_map)
  : bool * option e820_map :=
  match map with
  | None => (false, g)
  | Some m =>
      if alloc =? 0 then (false, None)
      else (true, Some (mk_map alloc (memory_map_size m) (map_entries m)))
  end.

Definition e820_abstraction_is_initialized (g : option e820_map) : bool :=
  match g with None => false | Some _ => true end.

(** * Iterators: the address of an entry, or 0 *)

Definition e820_abstraction_iterator_get_first (g handle : option e820_map) : Z :=
  match e820_abstraction_get_map g handle with
  | None => 0
  | Some m => if memory_map_size m =? 0 then 0 else entries_hva m
  end.

Definition e820_abstraction_iterator_get_next (g handle : option e820_map) (iter : Z) : Z :=
  if iter =? 0 then 0
  else
    match e820_abstraction_get_map g handle with
    | None => 0
    | Some m =>
        let iter_hva := iter ⊕₆₄ ENTRY_EXT_SIZE in
        if entries_hva m ⊕₆₄ memory_map_size m <=? iter_hva then 0 else iter_hva
    end.

(** Reading the entry an iterator points to. *)
Definition e820_abstraction_iterator_get_range_details (m : e820_map) (iter : Z)
  : outcome (option e820_entry) :=
  if iter =? 0 then Ok None
  else if (iter - entries_hva m) mod ENTRY_EXT_SIZE =? 0 then
    e ← rd (map_entries m) ((iter - entries_hva m) / ENTRY_EXT_SIZE); Ok (Some e)
  else Fault.

(** * Building a map: one 4 KB page *)

(** [page] is the result of vmm_page_alloc(1). *)
Definition e820_abstraction_create_new_map (page : Z) : option e820_map :=
  if page =? 0 then None else Some (mk_map page 0 []).

(** Returns whether the map was released. *)
Definition e820_abstraction_destroy_map (handle : option e820_map) : bool :=
  match handle with None => false | Some _ => true end.

(** Storing entry [i] of a map of one page; the entry must lie inside the page. *)
Definition store_entry (m : e820_map) (i : Z) (e : e820_entry) : outcome (list e820_entry) :=
  if 4 + ENTRY_EXT_SIZE * (i + 1) <=? PAGE_4KB_SIZE then
    if i =? Z.of_nat (length (map_entries m)) then Ok (map_entries m ++ [e]) else wr (map_entries m) i e
  else Fault.

Definition e820_abstraction_add_new_range (handle : option e820_map)
  (base length_ type attributes : Z) : outcome (bool * option e820_map) :=
  match handle with
  | None => Ok (false, None)
  | Some m =>
      if PAGE_4KB_SIZE <=? memory_map_size m + ENTRY_EXT_SIZE then Ok (false, Some m)
      else if length_ =? 0 then Ok (false, Some m)
      else
        let new_entry_index := memory_map_size m / ENTRY_EXT_SIZE in
        bad ← (if 0 <? new_entry_index then
                 last ← rd (map_entries m) (new_entry_index - 1);
                 Ok ((base <=? base_address last) ||
                     (base <? base_address last ⊕₆₄ range_length last))
               else Ok false);
        if (bad : bool) then Ok (false, Some m)
        else
          es ← store_entry m new_entry_index (mk_entry820 base length_ type attributes);
          Ok (true, Some (mk_map (map_addr m) (memory_map_size m ⊕₃₂ ENTRY_EXT_SIZE) es))
  end.

(** * INT15 for the guest *)

Record E820_GUEST_STATE := mk_gs {
  em_es : Z; em_rflags : Z; em_rax : Z; em_rbx : Z; em_rcx : Z; em_rdx : Z; em_rdi : Z
}.

(** [emu_map] is the map built for the guest at its first call (NULL handle before). *)
Record E820MAP_STATE := mk_emap {
  guest_state : E820_GUEST_STATE;
  emu_map : option e820_map;
  emu_map_entries : Z;
  continuation_value : Z
}.

Definition SEGMENT_OFFSET_TO_LINEAR (seg ofs : Z) : Z :=
  Z.shiftl (Z.land seg 65535) 4 + Z.land ofs 65535.
Definition RFLAGS_CARRY : Z := 1.
Definition SMAP : Z := 0x534d4150.

Definition set_carry (gs : E820_GUEST_STATE) : E820_GUEST_STATE :=
  mk_gs (em_es gs) (Z.lor (em_rflags gs) RFLAGS_CARRY) (em_rax gs) (em_rbx gs) (em_rcx gs)
    (em_rdx gs) (em_rdi gs).

(** The packed entry in memory. *)
Definition entry_bytes (e : e820_entry) : list Z :=
  le_bytes 8 (base_address e) ++ le_bytes 8 (range_length e) ++ le_bytes 4 (address_range_type e) ++ le_bytes 4 (extended_attributes e).

(** [hm] is the memory at the host addresses; the entry is copied with vmm_memcpy. *)
Definition e820_int15_handler (gpm_create_e820_map : option e820_map)
  (gpm_gpa_to_hva : Z -> option Z) (emap : E820MAP_STATE) (hm : mem) : outcome (bool * E820MAP_STATE * mem) :=
  match (match emu_map emap with
         | Some _ => Some emap
         | None =>
             match gpm_create_e820_map with
             | None => None
             | Some m => Some (mk_emap (guest_state emap) (Some m)
                                 (u16 (memory_map_size m / ENTRY_EXT_SIZE)) 0)
             end
         end) with
  | None => Ok (false, emap, hm)
  | Some emap =>
      let gs := guest_state emap in
      if (em_rcx gs <? ENTRY_SIZE) || (emu_map_entries emap <=? em_rbx gs) ||
         (negb (em_rbx gs =? 0) && negb (em_rbx gs =? continuation_value emap)) then
        Ok (true, mk_emap (set_carry gs) (emu_map emap) (emu_map_entries emap)
                    (continuation_value emap), hm)
      else
        let rcx := if ENTRY_EXT_SIZE <=? em_rcx gs then ENTRY_EXT_SIZE else ENTRY_SIZE in
        let gs := mk_gs (em_es gs) (em_rflags gs) (em_rax gs) (em_rbx gs) rcx (em_rdx gs) (em_rdi gs) in
        match gpm_gpa_to_hva (SEGMENT_OFFSET_TO_LINEAR (em_es gs) (em_rdi gs)) with
        | None =>
            Ok (false, mk_emap (set_carry gs) (emu_map emap) (emu_map_entries emap)
                         (continuation_value emap), hm)
        | Some dest_hva =>
            e ← rd (match emu_map emap with Some m => map_entries m | None => [] end) (em_rbx gs);
            let hm := poke hm dest_hva (take (Z.to_nat rcx) (entry_bytes e)) in
            let cont := u16 (u16 (em_rbx gs) + 1) in
            let flags := Z.land (em_rflags gs) (Z.lnot RFLAGS_CARRY) in
            let '(rbx, cont) := if emu_map_entries emap <=? cont then (0, 0) else (cont, cont) in
            Ok (true, mk_emap (mk_gs (em_es gs) flags SMAP rbx rcx (em_rdx gs) (em_rdi gs))
                        (emu_map emap) (emu_map_entries emap) cont, hm)
        end
  end.

(** * Facts *)

(** The size field counts the entries. *)
Definition map_ok (m : e820_map) : Prop :=
  0 < map_addr m /\ memory_map_size m = ENTRY_EXT_SIZE * Z.of_nat (length (map_entries m)) /\
  map_addr m + 4 + memory_map_size m < 2 ^ 64.

(** Ranges in increasing order that do not overlap or wrap. *)
Fixpoint ordered (es : list e820_entry) : Prop :=
  match es with
  | [] => True
  | e :: es' =>
      0 < range_length e /\ 0 <= base_address e /\ base_address e + range_length e < 2 ^ 64 /\
      match es' with [] => True | e' :: _ => base_address e + range_length e <= base_address e' end /\
      ordered es'
  end.

Lemma ordered_snoc es e : ordered es -> 0 < range_length e -> 0 <= base_address e ->
  base_address e + range_length e < 2 ^ 64 ->
  (forall l, last es = Some l -> base_address l + range_length l <= base_address e) ->
  ordered (es ++ [e]).
Proof.
  induction es as [|a es IH]; intros Ho H1 H2 H3 Hl; [simpl; tauto|].
  destruct Ho as (A1 & A2 & A3 & A4 & A5). simpl. split_and!; [done..| |].
  - destruct es as [|b es]; simpl; [by apply Hl|done].
  - apply IH; try done. intros l El. apply Hl. destruct es; [done|exact El].
Qed.

Lemma ordered_last es l : ordered es -> last es = Some l ->
  0 < range_length l /\ 0 <= base_address l /\ base_address l + range_length l < 2 ^ 64.
Proof.
  induction es as [|a es IH]; intros Ho El; [done|]. destruct Ho as (A1 & A2 & A3 & _ & A5).
  destruct es as [|b es]; [simpl in El; simplify_eq; lia|]. by apply IH.
Qed.

(** Walking a map with the iterators. *)
Fixpoint walk (fuel : nat) (m : e820_map) (iter : Z) : outcome (list e820_entry) :=
  if iter =? 0 then Ok []
  else
    match fuel with
    | O => Spin
    | S fuel' =>
        d ← e820_abstraction_iterator_get_range_details m iter;
        match d with
        | None => Ok []
        | Some e =>
            r ← walk fuel' m (e820_abstraction_iterator_get_next None (Some m) iter);
            Ok (e :: r)
        end
    end.

Lemma walk_from m pre post : map_ok m -> map_entries m = pre ++ post -> post <> [] ->
  forall fuel, (length post <= fuel)%nat ->
  walk fuel m (entries_hva m + ENTRY_EXT_SIZE * Z.of_nat (length pre)) = Ok post.
Proof.
  intros (Ha & Hs & Hb). unfold ENTRY_EXT_SIZE in *. revert pre.
  induction post as [|e post IH]; intros pre E Hne fuel Hf; [done|].
  destruct fuel as [|fuel]; [simpl in Hf; lia|]. rewrite E, length_app in Hs. simpl length in Hs.
  cbn [walk]. unfold entries_hva in *. rewrite (proj2 (Z.eqb_neq _ _)) by lia.
  unfold e820_abstraction_iterator_get_range_details. rewrite (proj2 (Z.eqb_neq _ _)) by lia.
  unfold entries_hva, ENTRY_EXT_SIZE. replace (map_addr m + 4 + 24 * Z.of_nat (length pre) - (map_addr m + 4))
    with (Z.of_nat (length pre) * 24) by lia.
  rewrite Z.mod_mul, Z.div_mul by lia. simpl Z.eqb. cbv iota.
  rewrite E. rewrite (rd_ok _ _ e) by (lia || by apply lookup_middle_eq; lia). rewrite !bind_Ok.
  unfold e820_abstraction_iterator_get_next. rewrite (proj2 (Z.eqb_neq _ _)) by lia. simpl.
  unfold entries_hva, ENTRY_EXT_SIZE. usmall.
  destruct post as [|e2 post].
  - rewrite (proj2 (Z.leb_le _ _)) by (simpl in *; lia). by destruct fuel.
  - rewrite (proj2 (Z.leb_gt _ _)) by (simpl in *; lia).
    replace (map_addr m + 4 + 24 * Z.of_nat (length pre) + 24)
      with (map_addr m + 4 + 24 * Z.of_nat (length (pre ++ [e]))) by (rewrite length_app; simpl; lia).
    rewrite (IH (pre ++ [e])); [done| |done|simpl in *; lia]. by rewrite E, <- app_assoc.
Qed.

(** Walking a map with e820_abstraction_iterator_get_first and _get_next visits every
    entry once, in order, and ends after the last one, with no read outside the map. *)
Theorem e820_iterator_complete (m : e820_map) (fuel : nat) :
  map_ok m -> (length (map_entries m) <= fuel)%nat ->
  walk fuel m (e820_abstraction_iterator_get_first None (Some m)) = Ok (map_entries m).
Proof.
  intros Hm Hf. pose proof Hm as (Ha & Hs & Hb).
  unfold e820_abstraction_iterator_get_first; simpl. unfold ENTRY_EXT_SIZE in Hs.
  destruct (map_entries m) as [|e es] eqn:E; simpl length in *.
  - rewrite Hs. simpl. by destruct fuel.
  - rewrite (proj2 (Z.eqb_neq _ _)) by lia.
    pose proof (walk_from m [] (e :: es) Hm E ltac:(done) fuel Hf) as W.
    simpl length in W. by rewrite Z.mul_0_r, Z.add_0_r in W.
Qed.

Definition sample_map : e820_map :=
  mk_map 0x100000 72 [mk_entry820 0 0x9f000 1 1; mk_entry820 0x9f000 0x61000 2 1;
                      mk_entry820 0x100000 0x3ff00000 1 1].

Lemma e820_iterator_complete_witness :
  walk 3 sample_map (e820_abstraction_iterator_get_first None (Some sample_map))
    = Ok (map_entries sample_map).
Proof.
  apply e820_iterator_complete; [|simpl; lia].
  unfold map_ok. simpl. unfold ENTRY_EXT_SIZE. lia.
Defined.

(** What a map under construction satisfies: it fits its page, at most 170 entries,
    increasing and disjoint ranges. *)
Definition page_map (m : e820_map) : Prop :=
  map_ok m /\ map_addr m + PAGE_4KB_SIZE <= 2 ^ 64 /\ (length (map_entries m) <= 170)%nat /\
  ordered (map_entries m).

Lemma last_of_entries (m : e820_map) : map_ok m -> 0 < memory_map_size m / ENTRY_EXT_SIZE ->
  exists l, last (map_entries m) = Some l /\
    rd (map_entries m) (memory_map_size m / ENTRY_EXT_SIZE - 1) = Ok l.
Proof.
  intros (_ & Hs & _) Hpos. unfold ENTRY_EXT_SIZE in *. rewrite Hs in *.
  rewrite Z.mul_comm, Z.div_mul in * by lia.
  destruct (map_entries m) as [|e es _] using rev_ind; [simpl in Hpos; lia|].
  exists e. rewrite last_snoc. split; [done|]. rewrite length_app in *. simpl length in *.
  apply rd_ok; [lia|]. apply lookup_middle_eq. lia.
Qed.

(** The comparison of a new range with the last entry of the map. *)
Lemma conflict_ok (m : e820_map) (base : Z) : page_map m ->
  exists bad : bool,
    (if 0 <? memory_map_size m / ENTRY_EXT_SIZE then
       last ← rd (map_entries m) (memory_map_size m / ENTRY_EXT_SIZE - 1);
       Ok ((base <=? base_address last) || (base <? base_address last ⊕₆₄ range_length last))
     else Ok false) = Ok bad /\
    (bad = true <-> exists l, last (map_entries m) = Some l /\ base < base_address l + range_length l).
Proof.
  intros (Hm & _ & _ & Ho). pose proof Hm as (_ & Hs & _).
  destruct (Z.ltb_spec 0 (memory_map_size m / ENTRY_EXT_SIZE)) as [Hn0|Hn0].
  - destruct (last_of_entries m Hm Hn0) as (l & El & Er). rewrite Er, bind_Ok.
    destruct (ordered_last _ l Ho El) as (L1 & L2 & L3).
    eexists; split; [done|]. usmall. rewrite El. split.
    + intros H. exists l. split; [done|]. zcases; done || lia.
    + intros (? & [= <-] & H). zcases; done || lia.
  - exists false. split; [done|]. split; [done|]. intros (l & El & _).
    unfold ENTRY_EXT_SIZE in *. destruct (map_entries m); [done|]. simpl in Hs; lia.
Qed.

Lemma add_new_range_ok (m : e820_map) (base len ty att : Z) :
  page_map m -> 0 <= base -> 0 <= len -> base + len < 2 ^ 64 ->
  exists ok m', e820_abstraction_add_new_range (Some m) base len ty att = Ok (ok, Some m') /\
    page_map m' /\ map_addr m' = map_addr m /\
    (ok = false <-> length (map_entries m) = 170%nat \/ len = 0 \/
       exists l, last (map_entries m) = Some l /\ base < base_address l + range_length l) /\
    map_entries m' = map_entries m ++ (if ok then [mk_entry820 base len ty att] else []).
Proof.
  intros Hp Hb Hl Hw. pose proof Hp as (Hm & Hpg & Hn & Ho). pose proof Hm as (Ha & Hs & Hbd).
  unfold PAGE_4KB_SIZE in Hpg. unfold e820_abstraction_add_new_range, PAGE_4KB_SIZE.
  assert (Hreject : (length (map_entries m) = 170%nat \/ len = 0 \/
       exists l, last (map_entries m) = Some l /\ base < base_address l + range_length l) ->
     page_map m /\ map_addr m = map_addr m /\
     (false = false <-> length (map_entries m) = 170%nat \/ len = 0 \/
       exists l, last (map_entries m) = Some l /\ base < base_address l + range_length l) /\
     map_entries m = map_entries m ++ []) by (rewrite app_nil_r; tauto).
  pose proof Hs as Hs'. unfold ENTRY_EXT_SIZE in Hs'.
  destruct (Z.leb_spec 4096 (memory_map_size m + ENTRY_EXT_SIZE)) as [Hfull|Hroom];
    unfold ENTRY_EXT_SIZE in * |-.
  { exists false, m. split; [done|]. apply Hreject. left. lia. }
  destruct (Z.eqb_spec len 0) as [->|Hlen].
  { exists false, m. split; [done|]. apply Hreject. by right; left. }
  cbv zeta. set (n := memory_map_size m / ENTRY_EXT_SIZE) in *.
  assert (Hnlen : n = Z.of_nat (length (map_entries m)))
    by (unfold n, ENTRY_EXT_SIZE; rewrite Hs'; lia).
  destruct (conflict_ok m base Hp) as (bad & Hlast & Hbad). fold n in Hlast. rewrite Hlast.
  clear Hlast. rewrite bind_Ok. destruct bad.
  { exists false, m. split; [done|]. apply Hreject. right; right. by apply Hbad. }
  unfold store_entry, PAGE_4KB_SIZE, ENTRY_EXT_SIZE. rewrite (proj2 (Z.leb_le _ _)) by lia.
  rewrite (proj2 (Z.eqb_eq _ _)) by done. rewrite bind_Ok. usmall.
  eexists true, _. split; [done|]. simpl. split_and!; [| done | | done].
  - unfold page_map, map_ok, PAGE_4KB_SIZE, ENTRY_EXT_SIZE. simpl. rewrite length_app. simpl length.
    split_and!; [lia..|]. apply ordered_snoc; simpl; try done; [lia|].
    intros l El. destruct (decide (base < base_address l + range_length l)) as [Hlt|]; [|lia].
    enough (false = true) by done. apply Hbad. by exists l.
  - split; [done|]. intros [H|[H|H]]; [lia|done|]. by apply Hbad in H.
Qed.

(** e820_abstraction_add_new_range never faults, keeps a map inside its page with
    increasing disjoint ranges, appends the range when it accepts it, and rejects it, with
    the map unchanged, exactly when the page is full, the length is 0, or the range does
    not lie above the last one. *)
Theorem e820_add_new_range_spec (m : e820_map) (base len ty att : Z) :
  page_map m -> 0 <= base -> 0 <= len -> base + len < 2 ^ 64 ->
  exists ok m', e820_abstraction_add_new_range (Some m) base len ty att = Ok (ok, Some m') /\
    page_map m' /\ map_addr m' = map_addr m /\
    (ok = false <-> length (map_entries m) = 170%nat \/ len = 0 \/
       exists l, last (map_entries m) = Some l /\ base < base_address l + range_length l) /\
    map_entries m' = map_entries m ++ (if ok then [mk_entry820 base len ty att] else []).
Proof. apply add_new_range_ok. Qed.

Lemma e820_add_new_range_spec_witness :
  exists ok m', e820_abstraction_add_new_range (Some sample_map) 0x40000000 0x1000 2 1 = Ok (ok, Some m') /\
    page_map m' /\ map_addr m' = map_addr sample_map /\
    (ok = false <-> length (map_entries sample_map) = 170%nat \/ 0x1000 = 0 \/
       exists l, last (map_entries sample_map) = Some l /\
         0x40000000 < base_address l + range_length l) /\
    map_entries m' = map_entries sample_map ++ (if ok then [mk_entry820 0x40000000 0x1000 2 1] else []).
Proof.
  apply (e820_add_new_range_spec sample_map 0x40000000 0x1000 2 1); [|lia..].
  unfold page_map, map_ok, PAGE_4KB_SIZE, ENTRY_EXT_SIZE. simpl. lia.
Defined.

(** * The guest's INT15 loop *)

(** What a guest reads at its physical address [gpa], byte by byte. *)
Definition guest_read (xlat : Z -> option Z) (hm : mem) (gpa n : Z) : option (list Z) :=
  mapM (fun i => hm <$> xlat (gpa + i)) (seqZ 0 n).

(** An entry as the guest decodes it; the attributes are there when ECX says 24 bytes. *)
Record received := mk_received { rc_base : Z; rc_length : Z; rc_type : Z; rc_attributes : option Z }.
Definition decode (n : Z) (bs : list Z) : received :=
  mk_received (le (take 8 bs)) (le (take 8 (drop 8 bs))) (le (take 4 (drop 16 bs)))
    (if n =? 24 then Some (le (take 4 (drop 20 bs))) else None).

(** One call as the BIOS interface defines it: EAX = 0xE820, EDX = 'SMAP', EBX the continuation value and
    ECX the size of the buffer at ES:DI. The call has succeeded when carry is clear, EAX is 'SMAP' and ECX
    is the size of an entry that fits in the buffer; the guest then reads that many bytes. *)
Definition guest_call (create : option e820_map) (xlat : Z -> option Z) (es rdi size rbx : Z)
  (emap : E820MAP_STATE) (hm : mem) : outcome (option received * E820MAP_STATE * mem) :=
  r ← e820_int15_handler create xlat
        (mk_emap (mk_gs es 1 0xe820 rbx size 0x534d4150 rdi) (emu_map emap) (emu_map_entries emap)
           (continuation_value emap)) hm;
  let '(ok, emap', hm) := r in
  let gs := guest_state emap' in
  Ok (if (ok : bool) && negb (Z.testbit (em_rflags gs) 0) && (em_rax gs =? 0x534d4150) &&
         ((em_rcx gs =? 20) || (em_rcx gs =? 24)) && (em_rcx gs <=? size)
      then option_map (decode (em_rcx gs)) (guest_read xlat hm (es * 16 + rdi) (em_rcx gs)) else None, emap', hm).

(** The guest goes on with the EBX of the previous call until it is 0; [None]: a call failed. *)
Fixpoint guest_enumerate (fuel : nat) (create : option e820_map) (xlat : Z -> option Z)
  (es rdi size rbx : Z) (emap : E820MAP_STATE) (hm : mem) : outcome (option (list received) * E820MAP_STATE * mem) :=
  match fuel with
  | O => Spin
  | S fuel' =>
      r ← guest_call create xlat es rdi size rbx emap hm;
      let '(got, emap', hm) := r in
      match got with
      | None => Ok (None, emap', hm)
      | Some e =>
          if em_rbx (guest_state emap') =? 0 then Ok (Some [e], emap', hm)
          else
            r ← guest_enumerate fuel' create xlat es rdi size (em_rbx (guest_state emap')) emap' hm;
            Ok (option_map (cons e) r.1.1, r.1.2, r.2)
      end
  end.

(** The fields of an entry have their widths. *)
Definition entry_fits (e : e820_entry) : Prop :=
  fits 64 (base_address e) /\ fits 64 (range_length e) /\ fits 32 (address_range_type e) /\ fits 32 (extended_attributes e).
(** What the guest must get of an entry with a buffer of [size] bytes. *)
Definition announced (size : Z) (e : e820_entry) : received :=
  mk_received (base_address e) (range_length e) (address_range_type e) (if 24 <=? size then Some (extended_attributes e) else None).
(** The guest's buffer is mapped to adjacent host addresses. *)
Definition buffer_mapped (xlat : Z -> option Z) (gpa n : Z) : Prop :=
  exists hva, forall i, 0 <= i < n -> xlat (gpa + i) = Some (hva + i).

Lemma entry_bytes_bytes e : Forall (fun c => 0 <= c < 256) (entry_bytes e).
Proof. unfold entry_bytes. repeat (apply Forall_app; split); apply le_bytes_bytes. Qed.
Lemma length_entry_bytes e : length (entry_bytes e) = 24%nat.
Proof. unfold entry_bytes. by rewrite !length_app, !length_le_bytes. Qed.
Lemma decode_entry e n : entry_fits e -> n = 20 \/ n = 24 -> decode n (take (Z.to_nat n) (entry_bytes e)) = announced n e.
Proof.
  intros (H1 & H2 & H3 & H4) Hn. unfold decode, announced.
  assert (L8 : forall v, length (le_bytes 8 v) = 8%nat) by (intros; by rewrite length_le_bytes).
  assert (L4 : forall v, length (le_bytes 4 v) = 4%nat) by (intros; by rewrite length_le_bytes).
  assert (E1 : le (take 8 (entry_bytes e)) = base_address e).
  { unfold entry_bytes. rewrite take_app_length' by (rewrite L8; done). by apply (le_le_bytes 8). }
  assert (E2 : le (take 8 (drop 8 (entry_bytes e))) = range_length e).
  { unfold entry_bytes. rewrite drop_app_length' by (rewrite L8; done). rewrite take_app_length' by (rewrite L8; done). by apply (le_le_bytes 8). }
  assert (D16 : drop 16 (entry_bytes e) = le_bytes 4 (address_range_type e) ++ le_bytes 4 (extended_attributes e)).
  { unfold entry_bytes. rewrite app_assoc. apply drop_app_length'. by rewrite length_app, !L8. }
  assert (E3 : le (take 4 (drop 16 (entry_bytes e))) = address_range_type e).
  { rewrite D16, take_app_length' by (rewrite L4; done). by apply (le_le_bytes 4). }
  assert (E4 : le (take 4 (drop 20 (entry_bytes e))) = extended_attributes e).
  { change 20%nat with (16 + 4)%nat. rewrite <- drop_drop, D16, drop_app_length' by (rewrite L4; done).
    rewrite firstn_all2 by (rewrite L4; lia). by apply (le_le_bytes 4). }
  destruct Hn as [-> | ->].
  - change (Z.to_nat 20) with 20%nat. rewrite !skipn_firstn_comm, !take_take.
    change (8 `min` 20)%nat with 8%nat. change (8 `min` (20 - 8))%nat with 8%nat. change (4 `min` (20 - 16))%nat with 4%nat. by rewrite E1, E2, E3.
  - change (Z.to_nat 24) with 24%nat. rewrite (take_ge (entry_bytes e) 24) by (by rewrite length_entry_bytes). by rewrite E1, E2, E3, E4.
Qed.

Lemma guest_read_poke xlat hm gpa hva n bs : length bs = Z.to_nat n -> Forall (fun c => 0 <= c < 256) bs ->
  (forall i, 0 <= i < n -> xlat (gpa + i) = Some (hva + i)) -> guest_read xlat (poke hm hva bs) gpa n = Some bs.
Proof.
  intros Hl Hb Hx. unfold guest_read. apply mapM_Some_2, Forall2_same_length_lookup_2; [by rewrite length_seqZ|].
  intros i x b Ex Eb. apply lookup_seqZ in Ex as [-> Hi]. rewrite Hx by lia. cbn. f_equal. by apply poke_lookup.
Qed.

Section enumerate.
Context (create : option e820_map) (xlat : Z -> option Z) (m : e820_map) (es rdi size : Z).
Hypothesis Hlen : 0 < Z.of_nat (length (map_entries m)) < 65536.
Hypothesis Hfit : Forall entry_fits (map_entries m).
Hypothesis Hsize : 20 <= size.
Hypothesis Hes : fits 16 es.
Hypothesis Hdi : fits 16 rdi.
Hypothesis Hx : buffer_mapped xlat (es * 16 + rdi) (Z.min size 24).

Lemma linear_of : SEGMENT_OFFSET_TO_LINEAR es rdi = es * 16 + rdi.
Proof.
  unfold SEGMENT_OFFSET_TO_LINEAR, fits in *. change 65535 with (Z.ones 16). rewrite !Z.land_ones, Z.shiftl_mul_pow2 by lia.
  rewrite !Z.mod_small by lia. lia.
Qed.

Lemma int15_call (i : Z) (e : e820_entry) (gs : E820_GUEST_STATE) (cont : Z) (hm : mem) :
  map_entries m !! Z.to_nat i = Some e -> 0 <= i -> (i = 0 \/ i = cont) ->
  let next := if Z.of_nat (length (map_entries m)) <=? i + 1 then 0 else i + 1 in
  exists gs' hm', guest_call create xlat es rdi size i (mk_emap gs (Some m) (Z.of_nat (length (map_entries m))) cont) hm =
    Ok (Some (announced size e), mk_emap gs' (Some m) (Z.of_nat (length (map_entries m))) next, hm') /\ em_rbx gs' = next.
Proof.
  intros Hi H0 Hc next. destruct Hx as [hva Hhva]. pose proof (lookup_lt_Some _ _ _ Hi) as Hlt.
  unfold guest_call, e820_int15_handler. cbn [emu_map guest_state em_rcx em_rbx emu_map_entries
    continuation_value em_es em_rdi em_rflags em_rdx].
  unfold ENTRY_SIZE, ENTRY_EXT_SIZE in *. rewrite (proj2 (Z.ltb_ge _ _)) by done. rewrite (proj2 (Z.leb_gt _ _)) by lia.
  assert (negb (i =? 0) && negb (i =? cont) = false) as ->
    by (destruct (Z.eqb_spec i 0), (Z.eqb_spec i cont); simpl; lia || done).
  cbn [orb]. rewrite linear_of.
  assert (Hd : xlat (es * 16 + rdi) = Some hva) by (rewrite <- (Z.add_0_r (es * 16 + rdi)), Hhva by lia; f_equal; lia). rewrite Hd.
  rewrite (rd_ok _ _ e H0 Hi), bind_Ok. cbv zeta. set (n := if 24 <=? size then 24 else 20).
  assert (En : (n = 20 \/ n = 24) /\ n <= size /\ n <= Z.min size 24 /\ announced n e = announced size e).
  { unfold n, announced. destruct (Z.leb_spec 24 size); (split; [tauto|]); (split; [lia|]); (split; [lia|done]). }
  destruct En as (En & En1 & En2 & En3).
  assert (ER : guest_read xlat (poke hm hva (take (Z.to_nat n) (entry_bytes e))) (es * 16 + rdi) n = Some (take (Z.to_nat n) (entry_bytes e))).
  { apply guest_read_poke.
    - rewrite length_take, length_entry_bytes. lia.
    - apply Forall_take, entry_bytes_bytes.
    - intros k Hk. apply Hhva. lia. }
  assert (Ef : entry_fits e) by (rewrite Forall_forall in Hfit; apply Hfit; by eapply list_elem_of_lookup_2).
  pose proof (decode_entry e n Ef En) as ED. usmall. unfold next.
  destruct (Z.leb_spec (Z.of_nat (length (map_entries m))) (i + 1)); rewrite bind_Ok; cbv beta iota; cbn [guest_state em_rflags em_rax em_rcx];
    rewrite (proj2 (Z.leb_le n size)) by done; rewrite ER; (replace ((n =? 20) || (n =? 24)) with true by (destruct En as [-> | ->]; done));
    cbn [andb]; rewrite ?andb_true_r; (eexists _, _; split; [cbn -[Z.land announced entry_bytes decode take]; rewrite ED, En3; reflexivity|done]).
Qed.

Lemma enumerate_from post : forall pre fuel gs cont hm,
  map_entries m = pre ++ post -> post <> [] -> (length post <= fuel)%nat ->
  (length pre = 0%nat \/ Z.of_nat (length pre) = cont) ->
  exists gs' hm', guest_enumerate fuel create xlat es rdi size (Z.of_nat (length pre))
    (mk_emap gs (Some m) (Z.of_nat (length (map_entries m))) cont) hm
    = Ok (Some (announced size <$> post), mk_emap gs' (Some m) (Z.of_nat (length (map_entries m))) 0, hm').
Proof using Hlen Hfit Hsize Hes Hdi Hx.
  induction post as [|e post IH]; intros pre fuel gs cont hm E Hne Hf Hc; [done|].
  destruct fuel as [|fuel]; [simpl in Hf; lia|]. cbn [guest_enumerate].
  destruct (int15_call (Z.of_nat (length pre)) e gs cont hm) as (gs1 & hm1 & Ecall & Eb);
    [rewrite E; apply lookup_middle_eq; lia|lia|lia|]. rewrite Ecall, bind_Ok. cbn [guest_state]. rewrite Eb.
  assert (length (map_entries m) = length pre + S (length post))%nat as Hl
    by (by rewrite E, length_app).
  destruct post as [|e2 post]; simpl length in Hl.
  - rewrite (proj2 (Z.leb_le _ _)) by lia. by eexists _, _.
  - rewrite (proj2 (Z.leb_gt _ _)) by lia. rewrite (proj2 (Z.eqb_neq _ _)) by lia.
    replace (Z.of_nat (length pre) + 1) with (Z.of_nat (length (pre ++ [e])))
      by (rewrite length_app; simpl; lia).
    edestruct (IH (pre ++ [e]) fuel) as (gs' & hm' & ->); [by rewrite E, <- app_assoc|done| |by right|].
    { simpl in *; lia. }
    by eexists _, _.
Qed.
End enumerate.

(** C39. The INT15/E820 service (built only with ENABLE_INT15_VIRTUALIZATION, which the makefiles of the
    repository do not define): a guest that calls it with EBX = 0 and a buffer of at least 20 bytes at ES:DI,
    mapped to adjacent host addresses, and goes on with the EBX each call returns, finds after every call
    carry clear, EAX = 'SMAP', ECX = 24 (or 20, when its buffer is smaller) and in its buffer the base, the
    length and the type (and, with 24 bytes, the attributes) of the next entry of the map: every entry
    exactly once and in order, then EBX = 0; a second enumeration may follow. The map is created at the
    first call. *)
Theorem e820_int15_enumerates (m : e820_map) (create : option e820_map) (xlat : Z -> option Z)
  (es rdi size : Z) (emap : E820MAP_STATE) (hm : mem) (fuel : nat) :
  map_ok m -> 0 < Z.of_nat (length (map_entries m)) < 65536 -> Forall entry_fits (map_entries m) ->
  20 <= size -> fits 16 es -> fits 16 rdi -> buffer_mapped xlat (es * 16 + rdi) (Z.min size 24) ->
  (emu_map emap = None /\ create = Some m \/
   emu_map emap = Some m /\ emu_map_entries emap = Z.of_nat (length (map_entries m))) ->
  (length (map_entries m) <= fuel)%nat ->
  exists emap' hm', guest_enumerate fuel create xlat es rdi size 0 emap hm =
      Ok (Some (announced size <$> map_entries m), emap', hm') /\
    emu_map emap' = Some m /\ emu_map_entries emap' = Z.of_nat (length (map_entries m)) /\
    continuation_value emap' = 0.
Proof.
  intros Hm Hlen Hfit Hsize Hes Hdi Hx Hst Hf.
  assert (Hfrom : forall gs cont, exists gs' hm',
    guest_enumerate fuel create xlat es rdi size 0
      (mk_emap gs (Some m) (Z.of_nat (length (map_entries m))) cont) hm
    = Ok (Some (announced size <$> map_entries m), mk_emap gs' (Some m) (Z.of_nat (length (map_entries m))) 0, hm')).
  { intros gs cont. apply (enumerate_from create xlat m es rdi size Hlen Hfit Hsize Hes Hdi Hx _ []); try done.
    - intros E. rewrite E in Hlen. simpl in Hlen. lia.
    - by left. }
  destruct emap as [gs mm n cont]; simpl in Hst.
  destruct Hst as [(-> & ->)|(-> & ->)].
  - destruct (Hfrom gs 0) as (gs' & hm' & E). exists (mk_emap gs' (Some m) (Z.of_nat (length (map_entries m))) 0), hm'.
    split; [|done]. rewrite <- E. destruct fuel; [done|]. cbn [guest_enumerate]. unfold guest_call.
    destruct Hm as (_ & Hs & _). unfold e820_int15_handler.
    cbn [emu_map guest_state emu_map_entries continuation_value].
    rewrite Hs, (Z.mul_comm ENTRY_EXT_SIZE), Z.div_mul by done. by usmall.
  - destruct (Hfrom gs cont) as (gs' & hm' & E). rewrite E. by eexists _, _.
Qed.

Lemma e820_int15_enumerates_witness :
  exists emap' hm', guest_enumerate 3 (Some sample_map) (fun gpa => Some (gpa + 0x1000)) 0x9000 0x100 20 0
      (mk_emap (mk_gs 0 0 0 0 0 0 0) None 0 0) (fun _ => 0) =
      Ok (Some [mk_received 0 0x9f000 1 None; mk_received 0x9f000 0x61000 2 None; mk_received 0x100000 0x3ff00000 1 None], emap', hm') /\
    emu_map emap' = Some sample_map /\ emu_map_entries emap' = 3 /\ continuation_value emap' = 0.
Proof.
  apply (e820_int15_enumerates sample_map (Some sample_map) (fun gpa => Some (gpa + 0x1000)) 0x9000
           0x100 20 (mk_emap (mk_gs 0 0 0 0 0 0 0) None 0 0) (fun _ => 0) 3).
  - unfold map_ok, ENTRY_EXT_SIZE. simpl. lia.
  - simpl. lia.
  - repeat constructor; done.
  - done.
  - done.
  - done.
  - exists (0x9000 * 16 + 0x100 + 0x1000). intros i Hi. f_equal. lia.
  - by left.
  - simpl. lia.
Defined.
