(* ===== verification/Dlist.v ===== *)
(** include/list.h: circular doubly linked lists through LIST_ELEMENT links embedded in
    other structures.  The links live in a shared store, so two lists whose elements move
    between them (utils/array_list.c) are two rings of the same store. *)

From S2P Require Import Prelude VmmDefs.

(** * Data and operations *)

Record LIST_ELEMENT := mk_link { lnext : Z; lprev : Z }.

Notation links := (gmap Z LIST_ELEMENT).

Definition get_link (m : links) (p : Z) : outcome LIST_ELEMENT :=
  match m !! p with Some n => Ok n | None => Fault end.
Definition set_next (m : links) (p q : Z) : outcome links :=
  n ← get_link m p; Ok (<[p := mk_link q (lprev n)]> m).
Definition set_prev (m : links) (p q : Z) : outcome links :=
  n ← get_link m p; Ok (<[p := mk_link (lnext n) q]> m).

Definition list_init (m : links) (entry : Z) : outcome links :=
  m ← set_next m entry entry; set_prev m entry entry.

Definition list_add_between (m : links) (prev next new_entry : Z) : outcome links :=
  m ← set_next m prev new_entry;
  m ← set_prev m new_entry prev;
  m ← set_prev m next new_entry;
  set_next m new_entry next.

Definition list_add (m : links) (head new_entry : Z) : outcome links :=
  n ← get_link m head; list_add_between m head (lnext n) new_entry.

Definition list_remove (m : links) (head : Z) : outcome links :=
  n ← get_link m head;
  m ← set_next m (lprev n) (lnext n);
  n ← get_link m head;
  m ← set_prev m (lnext n) (lprev n);
  m ← set_next m head 0;
  set_prev m head 0.

Definition list_is_empty (m : links) (head : Z) : outcome bool :=
  n ← get_link m head; Ok (lnext n =? head).

(** [while (curr->next != list) { size++; curr = curr->next; }], size a UINT16. *)
Fixpoint list_size_loop (fuel : nat) (m : links) (head curr size : Z) : outcome Z :=
  match fuel with
  | O => Spin
  | S fuel' =>
      n ← get_link m curr;
      if lnext n =? head then Ok size else list_size_loop fuel' m head (lnext n) (u16 (size + 1))
  end.

Definition list_size (fuel : nat) (m : links) (head : Z) : outcome Z :=
  list_size_loop fuel m head head 0.

(** LIST_FOR_EACH: the elements the loop visits. *)
Fixpoint for_each_from (fuel : nat) (m : links) (head iter : Z) : outcome (list Z) :=
  if iter =? head then Ok []
  else
    match fuel with
    | O => Spin
    | S fuel' => n ← get_link m iter; r ← for_each_from fuel' m head (lnext n); Ok (iter :: r)
    end.

Definition LIST_FOR_EACH (fuel : nat) (m : links) (head : Z) : outcome (list Z) :=
  n ← get_link m head; for_each_from fuel m head (lnext n).

(** * Rings *)

Definition nxt (m : links) (p : Z) : option Z := lnext <$> m !! p.
Definition prv (m : links) (p : Z) : option Z := lprev <$> m !! p.

(** Consecutive elements point to each other. *)
Fixpoint linked (m : links) (xs : list Z) : Prop :=
  match xs with
  | x :: (y :: _) as r => nxt m x = Some y /\ prv m y = Some x /\ linked m r
  | _ => True
  end.

(** The ring with head [h] and elements [l], in this order. *)
Definition ring (m : links) (h : Z) (l : list Z) : Prop :=
  NoDup (h :: l) /\ linked m (h :: l ++ [h]).

Lemma set_next_ok m p q : is_Some (m !! p) ->
  exists m', set_next m p q = Ok m' /\ dom m' = dom m /\
    (forall x, nxt m' x = if decide (x = p) then Some q else nxt m x) /\
    (forall x, prv m' x = prv m x).
Proof.
  intros [n Hn]. unfold set_next, get_link. rewrite Hn, bind_Ok. eexists. split; [done|].
  split; [by apply dom_insert_lookup_L|]. unfold nxt, prv. split; intros x.
  - case_decide as E; [subst; by rewrite lookup_insert_eq|]. by rewrite lookup_insert_ne.
  - destruct (decide (x = p)) as [->|]; [by rewrite lookup_insert_eq, Hn|]. by rewrite lookup_insert_ne.
Qed.

Lemma set_prev_ok m p q : is_Some (m !! p) ->
  exists m', set_prev m p q = Ok m' /\ dom m' = dom m /\
    (forall x, nxt m' x = nxt m x) /\
    (forall x, prv m' x = if decide (x = p) then Some q else prv m x).
Proof.
  intros [n Hn]. unfold set_prev, get_link. rewrite Hn, bind_Ok. eexists. split; [done|].
  split; [by apply dom_insert_lookup_L|]. unfold nxt, prv. split; intros x.
  - destruct (decide (x = p)) as [->|]; [by rewrite lookup_insert_eq, Hn|]. by rewrite lookup_insert_ne.
  - case_decide as E; [subst; by rewrite lookup_insert_eq|]. by rewrite lookup_insert_ne.
Qed.

Lemma dom_is_Some (m m' : links) p : dom m' = dom m -> is_Some (m !! p) -> is_Some (m' !! p).
Proof. rewrite <- !elem_of_dom. by intros ->. Qed.

Lemma get_link_ok m p q : nxt m p = Some q -> exists n, get_link m p = Ok n /\ lnext n = q /\
  forall r, prv m p = Some r -> lprev n = r.
Proof.
  unfold nxt, prv, get_link. destruct (m !! p) as [n|]; simpl; [|done]. intros [= <-].
  exists n. split_and!; [done..|]. by intros r [= <-].
Qed.

Lemma nxt_Some m p q : nxt m p = Some q -> is_Some (m !! p).
Proof. unfold nxt. destruct (m !! p); [by eexists|done]. Qed.

Lemma prv_Some m p q : prv m p = Some q -> is_Some (m !! p).
Proof. unfold prv. destruct (m !! p); [by eexists|done]. Qed.

(** [linked] over a concatenation. *)
Lemma linked_app m xs y ys : linked m (xs ++ y :: ys) <-> linked m (xs ++ [y]) /\ linked m (y :: ys).
Proof.
  induction xs as [|x xs IH]; simpl app; [cbn [linked]; destruct ys; tauto|].
  destruct xs as [|x' xs]; simpl app in *; [cbn [linked]; tauto|].
  change (linked m (x :: x' :: ?r)) with
    (nxt m x = Some x' /\ prv m x' = Some x /\ linked m (x' :: r)). cbn [linked] in *. tauto.
Qed.

(** Changes to links of other elements: a left element keeps its next, a right element its
    previous one. *)
Lemma linked_frame m m' xs :
  (forall x, x ∈ removelast xs -> nxt m' x = nxt m x) ->
  (forall x, x ∈ tail xs -> prv m' x = prv m x) ->
  linked m xs -> linked m' xs.
Proof.
  induction xs as [|x xs IH]; intros Hn Hp HL; [done|]. destruct xs as [|y ys]; [done|].
  destruct HL as (H1 & H2 & H3). split_and!.
  - rewrite Hn; [done|]. cbn [removelast]. left.
  - rewrite Hp; [done|]. left.
  - apply IH; [| |done].
    + intros z Hz. apply Hn. change (removelast (x :: y :: ys)) with (x :: removelast (y :: ys)). by right.
    + intros z Hz. apply Hp. by right.
Qed.

(** The two ends of a stretch of a ring. *)
Lemma removelast_snoc {A} (l : list A) x : removelast (l ++ [x]) = l.
Proof. apply removelast_last. Qed.

(** * The operations on rings *)

(** Insertion between two consecutive elements of a walk around a ring. *)
Lemma list_add_between_ok m u p q v e : linked m (u ++ p :: q :: v) ->
  NoDup (removelast (u ++ p :: q :: v)) -> NoDup (tail (u ++ p :: q :: v)) ->
  e ∉ u ++ p :: q :: v -> is_Some (m !! e) ->
  exists m', list_add_between m p q e = Ok m' /\ dom m' = dom m /\
    linked m' (u ++ p :: e :: q :: v) /\
    (forall x, x <> p -> x <> e -> nxt m' x = nxt m x) /\
    (forall x, x <> q -> x <> e -> prv m' x = prv m x).
Proof.
  intros HL N1 N2 He Hi. pose proof HL as HL'. rewrite linked_app in HL'.
  destruct HL' as (HL1 & Hpq & Hqp & HL2).
  assert (e <> p /\ e <> q) as [Hep Heq] by set_solver.
  unfold list_add_between.
  destruct (set_next_ok m p e) as (m1 & -> & D1 & X1 & P1); [by eapply nxt_Some|]. rewrite bind_Ok.
  destruct (set_prev_ok m1 e p) as (m2 & -> & D2 & X2 & P2); [by eapply dom_is_Some|]. rewrite bind_Ok.
  destruct (set_prev_ok m2 q e) as (m3 & -> & D3 & X3 & P3);
    [eapply dom_is_Some; [by rewrite D2|by eapply prv_Some]|]. rewrite bind_Ok.
  destruct (set_next_ok m3 e q) as (m4 & -> & D4 & X4 & P4);
    [eapply dom_is_Some; [by rewrite D3, D2|done]|].
  exists m4. split; [done|]. split; [congruence|].
  assert (Hn : forall x, x <> p -> x <> e -> nxt m4 x = nxt m x).
  { intros x H1 H2. rewrite X4, X3, X2, X1. by rewrite !decide_False. }
  assert (Hp : forall x, x <> q -> x <> e -> prv m4 x = prv m x).
  { intros x H1 H2. rewrite P4, P3, P2, P1. by rewrite !decide_False. }
  split; [|done].
  assert (p ∉ u) as Hpu.
  { replace (u ++ p :: q :: v) with (u ++ p :: (q :: v)) in N1 by done.
    rewrite removelast_app in N1 by done. apply NoDup_app in N1 as (_ & N & _).
    intros X. apply (N _ X). by left. }
  assert (q ∉ v) as Hqv.
  { destruct u as [|x u]; simpl in N2; [|apply NoDup_app in N2 as (_ & _ & N2); apply NoDup_cons in N2 as [_ N2]];
      by apply NoDup_cons in N2 as [? _]. }
  assert (q ∉ tail (u ++ [p])) as Hqu.
  { destruct u as [|x u]; simpl in *; [set_solver|].
    apply NoDup_app in N2 as (_ & N & [N3 _]%NoDup_cons). clear - N N3. set_solver. }
  assert (p ∉ removelast (q :: v)) as Hpv.
  { rewrite removelast_app in N1 by done. apply NoDup_app in N1 as (_ & _ & N).
    change (removelast (p :: q :: v)) with (p :: removelast (q :: v)) in N. by apply NoDup_cons in N as [? _]. }
  apply linked_app. split; [|split; [|split; [|split; [|split]]]].
  - apply (linked_frame m); [| |done].
    + intros x. rewrite removelast_snoc. intros Hx. apply Hn; set_solver.
    + intros x Hx. apply Hp; [set_solver|]. intros ->. apply He. destruct u; set_solver.
  - rewrite X4, X3, X2, X1. by rewrite decide_False, decide_True by done.
  - rewrite P4, P3, P2. by rewrite decide_False, decide_True by done.
  - rewrite X4. by rewrite decide_True.
  - rewrite P4, P3. by rewrite decide_True.
  - apply (linked_frame m); [| |done].
    + intros x Hx. apply Hn; [set_solver|]. intros ->. apply He.
      apply elem_of_app; right; right. clear -Hx.
      revert Hx. generalize (q :: v) as l. induction l as [|a [|b l] IH]; simpl; [done|set_solver|].
      set_solver.
    + intros x Hx. simpl in Hx. apply Hp; set_solver.
Qed.

(** The two NoDup conditions, from the ring's. *)
Lemma ring_nodup (h : Z) (l : list Z) : NoDup (h :: l) ->
  NoDup (removelast (h :: l ++ [h])) /\ NoDup (tail (h :: l ++ [h])).
Proof.
  intros N. change (h :: l ++ [h]) with ((h :: l) ++ [h]). rewrite removelast_snoc. split; [done|].
  simpl. apply NoDup_app. apply NoDup_cons in N as [N1 N2]. split_and!; [done|set_solver|].
  apply NoDup_singleton.
Qed.

Lemma nodup_middle (h e : Z) (l1 l2 : list Z) :
  NoDup (h :: l1 ++ e :: l2) <-> e ∉ h :: l1 ++ l2 /\ NoDup (h :: l1 ++ l2).
Proof. by rewrite <- (Permutation_middle l1), (Permutation_swap e h), NoDup_cons. Qed.

(** What an operation leaves alone: links of elements outside the given ones. *)
Definition others (S : list Z) (m m' : links) : Prop :=
  forall x, x ∉ S -> m' !! x = m !! x.

Lemma nxt_prv_eq m m' x : nxt m' x = nxt m x -> prv m' x = prv m x -> m' !! x = m !! x.
Proof.
  unfold nxt, prv. destruct (m' !! x) as [[]|], (m !! x) as [[]|]; simpl; intros; by simplify_eq.
Qed.

Lemma ring_others m m' h l : ring m h l -> others [] m m' \/ (forall x, x ∈ h :: l -> m' !! x = m !! x) ->
  ring m' h l.
Proof.
  intros [N L] E. assert (forall x, x ∈ h :: l -> m' !! x = m !! x) as E'
    by (destruct E as [E|E]; [intros x _; apply E; set_solver|done]).
  split; [done|]. apply (linked_frame m); [| |done].
  - change (h :: l ++ [h]) with ((h :: l) ++ [h]). rewrite removelast_snoc. intros x Hx.
    unfold nxt. by rewrite E'.
  - simpl. intros x Hx. unfold prv. rewrite E'; [done|]. set_solver.
Qed.

(** Adding after any element of the ring, the head included. *)
Lemma list_add_ok m h l1 l2 e : ring m h (l1 ++ l2) -> e ∉ h :: l1 ++ l2 -> is_Some (m !! e) ->
  exists m', list_add m (default h (last l1)) e = Ok m' /\ ring m' h (l1 ++ e :: l2) /\ dom m' = dom m /\
    others (e :: h :: l1 ++ l2) m m'.
Proof.
  intros [N HL] He Hi. destruct (ring_nodup h (l1 ++ l2) N) as [N1 N2].
  assert (exists u p q v, h :: (l1 ++ l2) ++ [h] = u ++ p :: q :: v /\ p = default h (last l1) /\
            h :: (l1 ++ e :: l2) ++ [h] = u ++ p :: e :: q :: v) as (u & p & q & v & E & Ep & E').
  { destruct (l2 ++ [h]) as [|q v] eqn:E2; [by destruct l2|].
    destruct l1 as [|p u _] using rev_ind.
    - exists [], h, q, v. simpl. split_and!; [by rewrite E2|done|]. by rewrite E2.
    - exists (h :: u), p, q, v. rewrite last_snoc. simpl.
      rewrite <- !app_assoc. simpl. rewrite E2. done. }
  rewrite E in HL, N1, N2. pose proof HL as HL'. rewrite linked_app in HL'.
  destruct HL' as (_ & Hpq & _). rewrite <- Ep.
  destruct (list_add_between_ok m u p q v e) as (m' & Em & D & L' & X & P); try done.
  { rewrite <- E. set_solver. }
  unfold list_add. destruct (get_link_ok m p q Hpq) as (n & -> & Hn & _). rewrite bind_Ok, Hn.
  exists m'. split; [done|]. split; [split; [|by rewrite E']|split; [done|]].
  - by apply nodup_middle.
  - intros x Hx. assert (p ∈ h :: (l1 ++ l2) ++ [h] /\ q ∈ h :: (l1 ++ l2) ++ [h]) as [Hp Hq]
      by (rewrite E; set_solver).
    apply nxt_prv_eq; [apply X|apply P]; set_solver.
Qed.

(** Removing an element from the ring. *)
Lemma list_remove_ok m h l1 e l2 : ring m h (l1 ++ e :: l2) ->
  exists m', list_remove m e = Ok m' /\ ring m' h (l1 ++ l2) /\ dom m' = dom m /\
    others (h :: l1 ++ e :: l2) m m'.
Proof.
  intros [N HL]. destruct (ring_nodup h _ N) as [N1 N2].
  assert (exists u p q v, h :: (l1 ++ l2) ++ [h] = u ++ p :: q :: v /\
            h :: (l1 ++ e :: l2) ++ [h] = u ++ p :: e :: q :: v) as (u & p & q & v & E' & E).
  { destruct (l2 ++ [h]) as [|q v] eqn:E2; [by destruct l2|].
    destruct l1 as [|p u _] using rev_ind.
    - exists [], h, q, v. simpl. by rewrite E2.
    - exists (h :: u), p, q, v. simpl. rewrite <- !app_assoc. simpl. by rewrite E2. }
  rewrite E in HL, N1, N2. pose proof HL as HL'. rewrite linked_app in HL'.
  destruct HL' as (HL1 & Hpe & Hep & Heq & Hqe & HL2).
  assert (e ∉ h :: l1 ++ l2) as He by by apply nodup_middle in N as [N _].
  assert (e ∉ u ++ p :: q :: v) as He' by (rewrite <- E'; clear -He; set_solver).
  assert (e <> p /\ e <> q) as [Hne1 Hne2] by (clear -He'; set_solver).
  assert (p ∉ u /\ p ∉ removelast (q :: v)) as [Hpu Hpv].
  { rewrite removelast_app in N1 by done. apply NoDup_app in N1 as (_ & A & B).
    change (removelast (p :: e :: q :: v)) with (p :: e :: removelast (q :: v)) in *.
    apply NoDup_cons in B as [B _]. split; intros X; [apply (A p X); left|apply B; by right]. }
  assert (q ∉ v /\ q ∉ tail (u ++ [p])) as [Hqv Hqu].
  { destruct u as [|x u]; simpl in N2 |- *.
    - apply NoDup_cons in N2 as [_ [N2 _]%NoDup_cons]. split; [done|]. apply not_elem_of_nil.
    - apply NoDup_app in N2 as (_ & A & [B1 [_ [B2 _]%NoDup_cons]%NoDup_cons]%NoDup_cons).
      split; [done|]. intros [X|X]%elem_of_app; [apply (A q X); right; right; left|].
      apply list_elem_of_singleton in X as ->. apply B1. right. left. }
  unfold list_remove. destruct (get_link_ok m e q Heq) as (n & -> & Hn & Hpn). rewrite bind_Ok.
  rewrite Hn, (Hpn p Hep).
  destruct (set_next_ok m p q) as (m1 & -> & D1 & X1 & P1); [by eapply nxt_Some|]. rewrite bind_Ok.
  destruct (get_link_ok m1 e q) as (n' & -> & Hn' & Hpn'); [by rewrite X1, decide_False|]. rewrite bind_Ok.
  rewrite Hn', (Hpn' p) by by rewrite P1.
  destruct (set_prev_ok m1 q p) as (m2 & -> & D2 & X2 & P2);
    [apply (dom_is_Some m); [congruence|exact (prv_Some _ _ _ Hqe)]|]. rewrite bind_Ok.
  destruct (set_next_ok m2 e 0) as (m3 & -> & D3 & X3 & P3);
    [apply (dom_is_Some m); [congruence|exact (nxt_Some _ _ _ Heq)]|]. rewrite bind_Ok.
  destruct (set_prev_ok m3 e 0) as (m4 & -> & D4 & X4 & P4);
    [apply (dom_is_Some m); [congruence|exact (nxt_Some _ _ _ Heq)]|].
  assert (Hxn : forall x, x <> p -> x <> e -> nxt m4 x = nxt m x)
    by (intros x ? ?; rewrite X4, X3, X2, X1; by rewrite !decide_False).
  assert (Hxp : forall x, x <> q -> x <> e -> prv m4 x = prv m x)
    by (intros x ? ?; rewrite P4, P3, P2, P1; by rewrite !decide_False).
  exists m4. split; [done|]. split; [split|split; [congruence|]].
  - by apply nodup_middle in N as [_ N].
  - rewrite E'. apply linked_app. split; [|split; [|split]].
    + apply (linked_frame m); [| |done].
      * intros x. rewrite removelast_snoc. intros Hx.
        apply Hxn; intros ->; [done|]. apply He', elem_of_app. by left.
      * intros x Hx. apply Hxp; [by intros ->|]. intros ->. apply He'. clear -Hx. destruct u; set_solver.
    + rewrite X4, X3, X2, X1. by rewrite decide_False, decide_True by done.
    + rewrite P4, P3, P2. by rewrite decide_False, decide_True by done.
    + apply (linked_frame m); [| |done].
      * intros x Hx. apply Hxn; [by intros ->|]. intros ->. apply He', elem_of_app; right; right.
        clear -Hx. revert Hx. generalize (q :: v) as l. induction l as [|a [|b l] IH]; simpl; set_solver.
      * intros x Hx. simpl in Hx. apply Hxp; intros ->; [done|].
        apply He', elem_of_app; right; right; by right.
  - intros x Hx. assert (p ∈ h :: (l1 ++ l2) ++ [h] /\ q ∈ h :: (l1 ++ l2) ++ [h]) as [Hp Hq]
      by (rewrite E'; clear; set_solver).
    clear -Hx Hp Hq Hxn Hxp. apply nxt_prv_eq; [apply Hxn|apply Hxp]; set_solver.
Qed.

Lemma list_init_ok m h : is_Some (m !! h) ->
  exists m', list_init m h = Ok m' /\ ring m' h [] /\ dom m' = dom m /\ others [h] m m'.
Proof.
  intros Hi. unfold list_init.
  destruct (set_next_ok m h h Hi) as (m1 & -> & D1 & X1 & P1). rewrite bind_Ok.
  destruct (set_prev_ok m1 h h) as (m2 & -> & D2 & X2 & P2); [by apply (dom_is_Some m)|].
  exists m2. split; [done|]. split; [split; [apply NoDup_singleton|]|split; [congruence|]].
  - simpl. split_and!; [|by rewrite P2, decide_True|done]. by rewrite X2, X1, decide_True.
  - intros x Hx. assert (x <> h) by set_solver. apply nxt_prv_eq.
    + by rewrite X2, X1, decide_False.
    + by rewrite P2, P1, decide_False.
Qed.

Lemma list_is_empty_ok m h l : ring m h l ->
  list_is_empty m h = Ok (match l with [] => true | _ => false end).
Proof.
  intros [N HL]. unfold list_is_empty. destruct l as [|e l].
  - destruct HL as (Hn & _). destruct (get_link_ok m h h Hn) as (n & -> & Hx & _).
    rewrite bind_Ok, Hx. by rewrite Z.eqb_refl.
  - destruct HL as (Hn & _). destruct (get_link_ok m h e Hn) as (n & -> & Hx & _).
    rewrite bind_Ok, Hx. rewrite (proj2 (Z.eqb_neq e h)); [done|]. intros ->.
    apply NoDup_cons in N as [N _]. apply N. left.
Qed.

Lemma for_each_ok m h l : forall fuel p, NoDup (h :: l) -> linked m (p :: l ++ [h]) ->
  (length l <= fuel)%nat -> forall q, nxt m p = Some q -> for_each_from fuel m h q = Ok l.
Proof.
  induction l as [|e l IH]; intros fuel p N HL Hf q Hq; destruct HL as (Hn & _ & HL);
    rewrite Hn in Hq; injection Hq as <-.
  - destruct fuel; simpl; by rewrite Z.eqb_refl.
  - destruct fuel as [|fuel]; [simpl in Hf; lia|]. cbn [for_each_from].
    rewrite (proj2 (Z.eqb_neq e h)) by (intros ->; apply NoDup_cons in N as [N _]; apply N; left).
    assert (exists q, nxt m e = Some q) as [q Hq] by (destruct l; destruct HL as (HL & _); by eexists).
    destruct (get_link_ok m e q Hq) as (n & -> & Hx & _). rewrite bind_Ok, Hx.
    rewrite (IH fuel e) with (q := q); [done| |done|simpl in Hf; lia|done].
    apply NoDup_cons in N as [N1 [_ N2]%NoDup_cons]. apply NoDup_cons. set_solver.
Qed.

Lemma list_size_loop_ok m h l : forall fuel p s, linked m (p :: l ++ [h]) -> h ∉ l ->
  (length l < fuel)%nat -> 0 <= s -> s + Z.of_nat (length l) < 65536 ->
  list_size_loop fuel m h p s = Ok (s + Z.of_nat (length l)).
Proof.
  induction l as [|e l IH]; intros [|fuel] p s HL Hh Hf Hs Hb; cbn [length] in *; try lia;
    destruct HL as (Hn & _ & HL); cbn [list_size_loop];
    destruct (get_link_ok m p _ Hn) as (n & -> & Hx & _); rewrite bind_Ok, Hx.
  - rewrite Z.eqb_refl. f_equal. lia.
  - rewrite (proj2 (Z.eqb_neq e h)) by set_solver. usmall. rewrite IH; [f_equal; lia|done|set_solver|lia..].
Qed.

(** The ring operations: list_add puts the element after the given one (the head or
    any element), list_remove takes exactly that element out, list_is_empty, list_size and
    LIST_FOR_EACH see the elements in order; the links of elements that are not in the
    list keep their content. *)
Theorem list_operations (m : links) (h e : Z) (l1 l2 : list Z) (fuel : nat) :
  ring m h (l1 ++ l2) -> e ∉ h :: l1 ++ l2 -> is_Some (m !! e) ->
  Z.of_nat (length (l1 ++ l2)) < 65535 -> (length (l1 ++ l2) + 1 < fuel)%nat ->
  exists m1 m2, list_add m (default h (last l1)) e = Ok m1 /\
    LIST_FOR_EACH fuel m1 h = Ok (l1 ++ e :: l2) /\ list_is_empty m1 h = Ok false /\
    list_size fuel m1 h = Ok (Z.of_nat (length (l1 ++ l2)) + 1) /\
    others (e :: h :: l1 ++ l2) m m1 /\
    list_remove m1 e = Ok m2 /\ ring m2 h (l1 ++ l2) /\ others (e :: h :: l1 ++ l2) m m2.
Proof.
  intros R He Hi Hb Hf. destruct (list_add_ok m h l1 l2 e R He Hi) as (m1 & E1 & R1 & D1 & O1).
  destruct (list_remove_ok m1 h l1 e l2 R1) as (m2 & E2 & R2 & D2 & O2).
  exists m1, m2. pose proof R1 as [N1 HL1].
  assert (exists q, nxt m1 h = Some q) as [q Hq]
    by (destruct (l1 ++ e :: l2); destruct HL1 as (HL1 & _); by eexists).
  rewrite length_app in *. split_and!; try done.
  - unfold LIST_FOR_EACH. destruct (get_link_ok m1 h q Hq) as (n & -> & Hx & _). rewrite bind_Ok, Hx.
    apply (for_each_ok m1 h _ fuel h); try done. rewrite length_app. simpl. lia.
  - rewrite (list_is_empty_ok m1 h (l1 ++ e :: l2) R1). by destruct l1.
  - unfold list_size. rewrite (list_size_loop_ok m1 h (l1 ++ e :: l2));
      rewrite ?length_app; simpl; try lia; [f_equal; lia|done|by apply NoDup_cons in N1 as [? _]].
  - intros x Hx. rewrite O2, O1; [done|set_solver|]. rewrite <- Permutation_middle. set_solver.
Qed.

(** A ring with head 1 and elements 2, 3; element 4 is not linked. *)
Definition sample_links : links :=
  {[ 1 := mk_link 2 3; 2 := mk_link 3 1; 3 := mk_link 1 2; 4 := mk_link 0 0 ]}.

Lemma list_operations_witness :
  exists m1 m2, list_add sample_links 2 4 = Ok m1 /\
    LIST_FOR_EACH 9 m1 1 = Ok [2; 4; 3] /\ list_is_empty m1 1 = Ok false /\
    list_size 9 m1 1 = Ok 3 /\ others [4; 1; 2; 3] sample_links m1 /\
    list_remove m1 4 = Ok m2 /\ ring m2 1 [2; 3] /\ others [4; 1; 2; 3] sample_links m2.
Proof.
  apply (list_operations sample_links 1 4 [2] [3] 9).
  - split; [repeat constructor; set_solver|vm_compute; done].
  - set_solver.
  - by eexists.
  - simpl. lia.
  - simpl. lia.
Defined.
