(* ===== verification/ArrayList.v ===== *)
(** utils/array_list.c: a bounded list in a caller's buffer.  Elements move between a free
    ring and a used ring ([Dlist]); the inter-processor message queues (ipc.c) are used
    through array_list_add, array_list_first and array_list_remove. *)

From S2P Require Import Prelude VmmDefs Dlist.

(** * Layout *)

(** sizeof(ARRAY_LIST) - sizeof(array), the offset of [array], and the offsets of the two
    ring heads. *)
Definition HEADER_BYTES : Z := 60.
Definition ARRAY_OFFSET : Z := 60.
Definition FREE_OFFSET : Z := 24.
Definition USED_OFFSET : Z := 40.
Definition ARRAY_LIST_ELEMENT_HEADER_SIZE : Z := 16.

Definition ARRAY_LIST_HEADER_SIZE (alignment : Z) : Z := u32 (ALIGN_FORWARD HEADER_BYTES alignment).
Definition ARRAY_LIST_ELEMENT_SIZE (element_size alignment : Z) : Z :=
  u32 (ALIGN_FORWARD (ARRAY_LIST_ELEMENT_HEADER_SIZE ⊕₃₂ element_size) alignment).
Definition ARRAY_LIST_PADDING_SIZE (address alignment : Z) : Z :=
  u32 (ALIGN_FORWARD address alignment - address).

(** The record at address [alist]; the rings' heads and the elements are in the store. *)
Record ARRAY_LIST := mk_alist {
  alist : Z;
  element_size : Z;
  max_num_of_elements : Z;
  alignment : Z;
  memory_size : Z;
  header_padding_size : Z;
  list_id : Z;
  num_of_used_elements : Z
}.

Definition free_list (a : ARRAY_LIST) : Z := alist a + FREE_OFFSET.
Definition used_list (a : ARRAY_LIST) : Z := alist a + USED_OFFSET.

Definition ARRAY_LIST_ELEMENT_BY_INDEX (a : ARRAY_LIST) (i : Z) : Z :=
  alist a + ARRAY_OFFSET + (ARRAY_LIST_ELEMENT_SIZE (element_size a) (alignment a) ⊗₃₂ i).

Definition ELEMENT_TO_DATA (element : Z) : Z := element + ARRAY_LIST_ELEMENT_HEADER_SIZE.
Definition ARRAY_LIST_DATA_TO_ELEMENT (data : Z) : Z := data - ARRAY_LIST_ELEMENT_HEADER_SIZE.

(** The links of the rings and the content of the data areas, by address. *)
Record store := mk_store { ring_links : gmap Z LIST_ELEMENT; data_areas : gmap Z (list Z) }.

Definition set_used (a : ARRAY_LIST) (n : Z) : ARRAY_LIST :=
  mk_alist (alist a) (element_size a) (max_num_of_elements a) (alignment a) (memory_size a)
    (header_padding_size a) (list_id a) n.

(** * Operations *)

Definition array_list_memory_size (buffer element_size num_of_elements alignment : Z) : Z :=
  (ARRAY_LIST_PADDING_SIZE buffer alignment ⊕₃₂ ARRAY_LIST_HEADER_SIZE alignment)
    ⊕₃₂ (ARRAY_LIST_ELEMENT_SIZE element_size alignment ⊗₃₂ num_of_elements).

Definition array_list_size (a : ARRAY_LIST) : Z := num_of_used_elements a.

Section Init.
(** What the buffer holds before it is initialised. *)
Context (uninit : Z -> LIST_ELEMENT) (buffer buffer_size : Z).

(** A link of the buffer, with the bytes that follow it, must lie inside the buffer. *)
Definition claim (m : gmap Z LIST_ELEMENT) (p extra : Z) : outcome (gmap Z LIST_ELEMENT) :=
  if (buffer <=? p) && (p + ARRAY_LIST_ELEMENT_HEADER_SIZE + extra <=? buffer + buffer_size)
  then Ok (<[p := uninit p]> m) else Fault.

Definition init_element (a : ARRAY_LIST) (i : Z) (st : gmap Z LIST_ELEMENT * Z)
  : outcome (gmap Z LIST_ELEMENT * Z) :=
  let '(m, free) := st in
  let entry := ARRAY_LIST_ELEMENT_BY_INDEX a i in
  m ← claim m entry (element_size a);
  m ← list_add m free entry;
  n ← get_link m free;
  Ok (m, lnext n).

(** [id] is the static list_id. *)
Definition array_list_init (m : gmap Z LIST_ELEMENT) (id element_size num_of_elements alignment : Z)
  : outcome (option ARRAY_LIST * gmap Z LIST_ELEMENT * Z) :=
  let required := array_list_memory_size buffer element_size num_of_elements alignment in
  if buffer_size <? required then Ok (None, m, id)
  else
    let pad := ARRAY_LIST_PADDING_SIZE buffer alignment in
    let a := mk_alist (buffer + pad) element_size num_of_elements alignment buffer_size pad id 0 in
    m ← claim m (free_list a) 0;
    m ← claim m (used_list a) 0;
    m ← list_init m (free_list a);
    m ← list_init m (used_list a);
    r ← for_range 0 num_of_elements (init_element a) (m, free_list a);
    Ok (Some a, r.1, u16 (id + 1)).

End Init.

(** The NULL tests come after [alist] has been dereferenced, so a NULL list is not an
    argument here; [data] may be NULL. *)
Definition array_list_add (a : ARRAY_LIST) (s : store) (data : option (list Z))
  : outcome (bool * ARRAY_LIST * store) :=
  empty ← list_is_empty (ring_links s) (free_list a);
  match data with
  | Some bytes =>
      if (empty : bool) then Ok (false, a, s)
      else
        f ← get_link (ring_links s) (free_list a);
        let free_element := lnext f in
        m ← list_remove (ring_links s) free_element;
        u ← get_link m (used_list a);
        m ← list_add m (lprev u) free_element;
        Ok (true, set_used a (num_of_used_elements a ⊕₃₂ 1),
            mk_store m (<[ELEMENT_TO_DATA free_element := take (Z.to_nat (element_size a)) bytes]> (data_areas s)))
  | None => Ok (false, a, s)
  end.

Definition array_list_remove (a : ARRAY_LIST) (s : store) (data : Z)
  : outcome (bool * ARRAY_LIST * store) :=
  empty ← list_is_empty (ring_links s) (used_list a);
  if (empty : bool) || (data =? 0) then Ok (false, a, s)
  else
    let element := ARRAY_LIST_DATA_TO_ELEMENT data in
    m ← list_remove (ring_links s) element;
    f ← get_link m (free_list a);
    m ← list_add m (lprev f) element;
    Ok (true, set_used a (num_of_used_elements a ⊖₃₂ 1), mk_store m (data_areas s)).

(** Returns the data pointer, 0 for NULL. *)
Definition array_list_first (a : ARRAY_LIST) (s : store) : outcome Z :=
  empty ← list_is_empty (ring_links s) (used_list a);
  if (empty : bool) then Ok 0
  else
    u ← get_link (ring_links s) (used_list a);
    Ok (ELEMENT_TO_DATA (lnext u)).

(** * What a list promises *)

(** The free elements, the used elements and what the used ones hold. *)
Record list_rep (a : ARRAY_LIST) (s : store) (free used : list Z) : Prop := {
  lr_free : ring (ring_links s) (free_list a) free;
  lr_used : ring (ring_links s) (used_list a) used;
  lr_disjoint : NoDup (free_list a :: used_list a :: free ++ used);
  lr_count : num_of_used_elements a = Z.of_nat (length used);
  lr_bound : Z.of_nat (length (free ++ used)) < 2 ^ 32;
  lr_nonzero : Forall (fun e => ELEMENT_TO_DATA e <> 0) (free ++ used)
}.

(** The link before the head is the last element. *)
Lemma ring_last m h l : ring m h l -> exists n, get_link m h = Ok n /\ lprev n = default h (last l).
Proof.
  intros [N HL].
  assert (prv m h = Some (default h (last l))) as Hp.
  { destruct l as [|e l _] using rev_ind; [by destruct HL as (_ & Hp & _)|]. rewrite last_snoc.
    replace (h :: (l ++ [e]) ++ [h]) with ((h :: l) ++ e :: [h]) in HL by (simpl; by rewrite <- app_assoc).
    apply linked_app in HL as (_ & _ & Hp & _). done. }
  unfold prv, get_link in *. destruct (m !! h) as [n|]; [|done]. simpl in Hp. exists n. split; [done|].
  by injection Hp.
Qed.

Lemma ring_first m h l : ring m h l ->
  exists n, get_link m h = Ok n /\ lnext n = default h (head l).
Proof.
  intros [N HL]. destruct l as [|e l]; destruct HL as (Hn & _);
    destruct (get_link_ok m h _ Hn) as (n & E & Hx & _); exists n; done.
Qed.

(** Moving an element from one ring to the end of the other. *)
Lemma move_ok m h1 h2 l1 e l2 k : ring m h1 (l1 ++ e :: l2) -> ring m h2 k ->
  NoDup (h1 :: h2 :: (l1 ++ e :: l2) ++ k) ->
  exists m1 n m2, list_remove m e = Ok m1 /\ get_link m1 h2 = Ok n /\
    list_add m1 (lprev n) e = Ok m2 /\ ring m2 h1 (l1 ++ l2) /\ ring m2 h2 (k ++ [e]).
Proof.
  intros R1 R2 N. destruct (list_remove_ok m h1 l1 e l2 R1) as (m1 & E1 & R1' & D1 & O1).
  assert (Hd : forall x, x ∈ h2 :: k -> x ∉ h1 :: l1 ++ e :: l2).
  { apply NoDup_cons in N as [N1 [N2 (_ & N3 & _)%NoDup_app]%NoDup_cons].
    intros x [->|Hx]%elem_of_cons X; [apply elem_of_cons in X as [->|X]; [apply N1; left|]|
      apply elem_of_cons in X as [->|X]].
    - apply N2, elem_of_app. by left.
    - apply N1. right. apply elem_of_app. by right.
    - by apply (N3 x X). }
  assert (R2' : ring m1 h2 k) by (apply (ring_others m); [done|right; intros x Hx; by apply O1, Hd]).
  destruct (ring_last m1 h2 k R2') as (n & En & Hn).
  assert (He : e ∉ h2 :: k ++ []).
  { rewrite app_nil_r. intros X. apply (Hd e X). right. apply elem_of_app. right. left. }
  assert (Hi : is_Some (m1 !! e)).
  { apply (dom_is_Some m); [done|]. destruct R1 as [_ HL].
    replace (h1 :: (l1 ++ e :: l2) ++ [h1]) with ((h1 :: l1) ++ e :: (l2 ++ [h1])) in HL
      by (simpl; by rewrite <- app_assoc).
    apply linked_app in HL as (_ & HL). destruct l2; destruct HL as (HL & _); by eapply nxt_Some. }
  rewrite <- (app_nil_r k) in R2'.
  destruct (list_add_ok m1 h2 k [] e R2' He Hi) as (m2 & E2 & R2'' & _ & O2).
  exists m1, n, m2. rewrite Hn. split_and!; try done.
  apply (ring_others m1); [done|]. right. intros x Hx. apply O2.
  intros [->|X]%elem_of_cons.
  - destruct R1 as [N' _]. by apply nodup_middle in N' as [? _].
  - rewrite app_nil_r in X. apply (Hd x X). clear -Hx. set_solver.
Qed.

Lemma add_ok a s x f used bytes : list_rep a s (x :: f) used ->
  exists s', array_list_add a s (Some bytes) =
      Ok (true, set_used a (num_of_used_elements a + 1), s') /\
    list_rep (set_used a (num_of_used_elements a + 1)) s' f (used ++ [x]) /\
    data_areas s' = <[ELEMENT_TO_DATA x := take (Z.to_nat (element_size a)) bytes]> (data_areas s).
Proof.
  intros [RF RU ND HC HB HZ]. unfold array_list_add.
  rewrite (list_is_empty_ok _ _ _ RF), bind_Ok.
  destruct (ring_first _ _ _ RF) as (n & -> & Hn). rewrite bind_Ok, Hn. simpl default.
  destruct (move_ok (ring_links s) (free_list a) (used_list a) [] x f used RF RU ND)
    as (m1 & u & m2 & -> & Eu & E2 & RF' & RU'). rewrite bind_Ok, Eu, bind_Ok, E2, bind_Ok.
  rewrite length_app in HB. simpl length in HB. usmall.
  eexists. split; [done|]. split; [|done]. split; simpl; try done.
  - replace (f ++ used ++ [x]) with ((f ++ used) ++ [x]) by by rewrite <- app_assoc.
    by rewrite <- Permutation_cons_append.
  - rewrite length_app. simpl. lia.
  - rewrite !length_app. simpl. lia.
  - rewrite app_assoc, <- Permutation_cons_append. done.
Qed.

Lemma add_full a s used bytes : list_rep a s [] used -> array_list_add a s (Some bytes) = Ok (false, a, s).
Proof. intros [RF _ _ _ _ _]. unfold array_list_add. by rewrite (list_is_empty_ok _ _ _ RF). Qed.

Lemma remove_ok a s free u1 x u2 : list_rep a s free (u1 ++ x :: u2) ->
  exists s', array_list_remove a s (ELEMENT_TO_DATA x) =
      Ok (true, set_used a (num_of_used_elements a - 1), s') /\
    list_rep (set_used a (num_of_used_elements a - 1)) s' (free ++ [x]) (u1 ++ u2) /\
    data_areas s' = data_areas s.
Proof.
  intros [RF RU ND HC HB HZ]. unfold array_list_remove.
  rewrite (list_is_empty_ok _ _ _ RU), bind_Ok.
  assert (ELEMENT_TO_DATA x <> 0) as Hx.
  { rewrite Forall_forall in HZ. apply HZ. apply elem_of_app. right. apply elem_of_app. right. left. }
  rewrite (proj2 (Z.eqb_neq (ELEMENT_TO_DATA x) 0) Hx). destruct (u1 ++ x :: u2) as [|y ys] eqn:EU; [by destruct u1|].
  rewrite <- EU in *. cbn [orb]. clear y ys EU.
  replace (ARRAY_LIST_DATA_TO_ELEMENT (ELEMENT_TO_DATA x)) with x
    by (unfold ARRAY_LIST_DATA_TO_ELEMENT, ELEMENT_TO_DATA; lia).
  assert (P : free ++ u1 ++ x :: u2 ≡ₚ (free ++ [x]) ++ u1 ++ u2)
    by (rewrite <- app_assoc; simpl; by rewrite <- (Permutation_middle u1)).
  destruct (move_ok (ring_links s) (used_list a) (free_list a) u1 x u2 free RU RF) as
    (m1 & u & m2 & E1 & Eu & E2 & RU' & RF').
  { by rewrite Permutation_swap, (Permutation_app_comm _ free). }
  rewrite E1, bind_Ok, Eu, bind_Ok, E2, bind_Ok.
  rewrite length_app in HB, HC. rewrite length_app in HB. simpl length in HB, HC. usmall.
  eexists. split; [done|]. split; [|done]. split; simpl; try done.
  - by rewrite <- P.
  - rewrite length_app. lia.
  - rewrite !length_app. simpl. lia.
  - by rewrite <- P.
Qed.

Lemma first_ok a s free used : list_rep a s free used ->
  array_list_first a s = Ok (match used with [] => 0 | x :: _ => ELEMENT_TO_DATA x end).
Proof.
  intros [_ RU _ _ _ _]. unfold array_list_first. rewrite (list_is_empty_ok _ _ _ RU), bind_Ok.
  destruct used as [|x u]; [done|]. destruct (ring_first _ _ _ RU) as (n & -> & Hn).
  by rewrite bind_Ok, Hn.
Qed.

(** * A queue *)

Inductive queue_op := Push (bytes : list Z) | Pop.

(** Push is array_list_add; Pop takes the first element and removes it, as
    ipc_dequeue_message does. *)
Definition queue_do (a : ARRAY_LIST) (s : store) (op : queue_op)
  : outcome (option (list Z) * bool * ARRAY_LIST * store) :=
  match op with
  | Push b => r ← array_list_add a s (Some b); let '(ok, a, s) := r in Ok (None, ok, a, s)
  | Pop =>
      p ← array_list_first a s;
      if p =? 0 then Ok (None, false, a, s)
      else r ← array_list_remove a s p; let '(ok, a, s) := r in Ok (data_areas s !! p, ok, a, s)
  end.

Fixpoint queue_run (a : ARRAY_LIST) (s : store) (ops : list queue_op)
  : outcome (list (option (list Z) * bool) * ARRAY_LIST * store) :=
  match ops with
  | [] => Ok ([], a, s)
  | op :: ops' =>
      r ← queue_do a s op;
      let '(v, ok, a, s) := r in
      r ← queue_run a s ops';
      let '(rs, a, s) := r in Ok ((v, ok) :: rs, a, s)
  end.

(** The specification: a first-in-first-out queue of at most [cap] messages, each cut to
    [n] bytes. *)
Definition spec_do (cap : nat) (n : Z) (q : list (list Z)) (op : queue_op)
  : option (list Z) * bool * list (list Z) :=
  match op, q with
  | Push b, _ => if (length q <? cap)%nat then (None, true, q ++ [take (Z.to_nat n) b]) else (None, false, q)
  | Pop, [] => (None, false, [])
  | Pop, m :: q' => (Some m, true, q')
  end.

Fixpoint spec_run (cap : nat) (n : Z) (q : list (list Z)) (ops : list queue_op)
  : list (option (list Z) * bool) * list (list Z) :=
  match ops with
  | [] => ([], q)
  | op :: ops' =>
      let '(v, ok, q') := spec_do cap n q op in
      let '(rs, q'') := spec_run cap n q' ops' in ((v, ok) :: rs, q'')
  end.

(** The list holds the messages [q], out of [cap] places. *)
Definition queue_rep (a : ARRAY_LIST) (s : store) (cap : nat) (q : list (list Z)) : Prop :=
  exists free used, list_rep a s free used /\ length (free ++ used) = cap /\
    Forall2 (fun e d => data_areas s !! ELEMENT_TO_DATA e = Some d) used q.

Lemma Forall2_elem_impl {A B} (P Q : A -> B -> Prop) (l : list A) (k : list B) :
  Forall2 P l k -> (forall x y, x ∈ l -> P x y -> Q x y) -> Forall2 Q l k.
Proof.
  induction 1 as [|x y l k Hxy H IH]; intros HI; constructor.
  - apply HI; [left|done].
  - apply IH. intros. apply HI; [by right|done].
Qed.

Lemma queue_do_ok a s cap q op : queue_rep a s cap q ->
  exists a' s', queue_do a s op = Ok ((spec_do cap (element_size a) q op).1, a', s') /\
    queue_rep a' s' cap (spec_do cap (element_size a) q op).2 /\ element_size a' = element_size a.
Proof.
  intros (free & used & R & HC & HF). pose proof (Forall2_length _ _ _ HF) as Hlen.
  rewrite length_app in HC. destruct op as [b|]; cbn [queue_do spec_do].
  - destruct free as [|x f]; simpl length in HC.
    + rewrite (add_full a s used b R), bind_Ok. rewrite (proj2 (Nat.ltb_ge _ _)) by lia.
      exists a, s. split; [done|]. split; [|done]. exists [], used. rewrite length_app. done.
    + destruct (add_ok a s x f used b R) as (s' & -> & R' & D). rewrite bind_Ok.
      rewrite (proj2 (Nat.ltb_lt _ _)) by lia.
      eexists _, s'. split; [done|]. split; [|done]. exists f, (used ++ [x]).
      split; [done|]. split; [rewrite !length_app; simpl; lia|]. rewrite D.
      apply Forall2_app; [|constructor; [by rewrite lookup_insert_eq|constructor]].
      assert (x ∉ used) as Hx.
      { pose proof (lr_disjoint _ _ _ _ R) as N. simpl in N. rewrite !NoDup_cons in N.
        destruct N as (_ & _ & N & _). intros X. apply N, elem_of_app. by right. }
      apply (Forall2_elem_impl _ _ _ _ HF). intros e d He Hd. rewrite lookup_insert_ne; [done|].
      unfold ELEMENT_TO_DATA. intros X. apply Hx. by replace x with e by lia.
  - rewrite (first_ok a s free used R), bind_Ok. destruct used as [|x u]; inversion HF as [|? d ? q' Hd HF']; subst.
    + exists a, s. split; [done|]. split; [|done]. exists free, []. rewrite length_app. done.
    + assert (ELEMENT_TO_DATA x <> 0) as Hx.
      { pose proof (lr_nonzero _ _ _ _ R) as HZ. rewrite Forall_forall in HZ. apply HZ.
        apply elem_of_app. right. left. }
      rewrite (proj2 (Z.eqb_neq _ 0) Hx).
      destruct (remove_ok a s free [] x u R) as (s' & E & R' & D). simpl app in E. rewrite E, bind_Ok.
      eexists _, s'. rewrite D, Hd. split; [done|]. split; [|done]. exists (free ++ [x]), u.
      split; [done|]. split; [rewrite !length_app; simpl in *; lia|]. by rewrite D.
Qed.

(** Any sequence of adds and of first-and-remove pairs behaves as a bounded
    first-in-first-out queue: the same results, no access outside the rings, and the list
    still holds exactly the queue's messages. *)
Theorem array_list_is_queue (ops : list queue_op) (a : ARRAY_LIST) (s : store) (cap : nat)
  (q : list (list Z)) : queue_rep a s cap q ->
  exists a' s', queue_run a s ops = Ok ((spec_run cap (element_size a) q ops).1, a', s') /\
    queue_rep a' s' cap (spec_run cap (element_size a) q ops).2.
Proof.
  revert a s q. induction ops as [|op ops IH]; intros a s q R; [by exists a, s|]. cbn [queue_run spec_run].
  destruct (queue_do_ok a s cap q op R) as (a1 & s1 & -> & R1 & Ez). rewrite bind_Ok.
  destruct (spec_do cap (element_size a) q op) as [[v ok] q1] eqn:E1.
  destruct (IH a1 s1 q1 R1) as (a2 & s2 & E2 & R2). rewrite Ez in *. simpl fst. cbv beta iota.
  rewrite E2, bind_Ok. destruct (spec_run cap (element_size a) q1 ops) as [rs q2]. by exists a2, s2.
Qed.

(** * Initialisation *)

Lemma ring_next_last m h l e : ring m h (l ++ [e]) ->
  exists n, get_link m (default h (last l)) = Ok n /\ lnext n = e.
Proof.
  intros [_ HL].
  assert (nxt m (default h (last l)) = Some e) as Hn.
  { destruct l as [|x l _] using rev_ind; [by destruct HL as (Hn & _)|]. rewrite last_snoc.
    replace (h :: ((l ++ [x]) ++ [e]) ++ [h]) with ((h :: l) ++ x :: e :: [h]) in HL
      by (simpl; by rewrite <- !app_assoc).
    by apply linked_app in HL as (_ & Hn & _). }
  destruct (get_link_ok m _ _ Hn) as (n & E & Hx & _). by exists n.
Qed.

Section InitProof.
Context (buffer buffer_size k esz n : Z).
Notation pad := (ALIGN_FORWARD buffer (2 ^ k) - buffer).
Notation hdr := (ALIGN_FORWARD 60 (2 ^ k)).
Notation unit_ := (ALIGN_FORWARD (16 + esz) (2 ^ k)).

(** No size of the layout exceeds 32 bits. *)
Definition layout_fits : Prop :=
  0 <= k /\ 0 <= esz /\ 0 <= n /\ 0 < buffer /\ buffer + 2 ^ 33 < 2 ^ 64 /\
  16 + esz + 2 ^ k < 2 ^ 32 /\ 60 + 2 ^ k < 2 ^ 32 /\ pad + hdr + unit_ * n < 2 ^ 32.

Context (HF : layout_fits).

Lemma layout_sizes : 0 <= pad < 2 ^ k /\ 60 <= hdr < 60 + 2 ^ k /\ 16 + esz <= unit_ < 16 + esz + 2 ^ k /\
  ARRAY_LIST_PADDING_SIZE buffer (2 ^ k) = pad /\ ARRAY_LIST_HEADER_SIZE (2 ^ k) = hdr /\
  ARRAY_LIST_ELEMENT_SIZE esz (2 ^ k) = unit_ /\
  array_list_memory_size buffer esz n (2 ^ k) = pad + hdr + unit_ * n.
Proof using HF.
  destruct HF as (Hk & He & Hn & Hb & Hbb & H1 & H2 & H3). assert (0 < 2 ^ k) by lia.
  destruct (ALIGN_FORWARD_pow2 buffer k) as [Hp _]; [lia..|].
  destruct (ALIGN_FORWARD_pow2 60 k) as [Hh _]; [lia..|].
  destruct (ALIGN_FORWARD_pow2 (16 + esz) k) as [Hu _]; [lia..|].
  assert (E1 : ARRAY_LIST_PADDING_SIZE buffer (2 ^ k) = pad)
    by (unfold ARRAY_LIST_PADDING_SIZE; by rewrite u32_small by lia).
  assert (E2 : ARRAY_LIST_HEADER_SIZE (2 ^ k) = hdr)
    by (unfold ARRAY_LIST_HEADER_SIZE, HEADER_BYTES; by rewrite u32_small by lia).
  assert (E3 : ARRAY_LIST_ELEMENT_SIZE esz (2 ^ k) = unit_).
  { unfold ARRAY_LIST_ELEMENT_SIZE, ARRAY_LIST_ELEMENT_HEADER_SIZE.
    rewrite (u32_small (16 + esz)) by lia. by rewrite u32_small by lia. }
  split_and!; [lia..|done|done|done|]. unfold array_list_memory_size. rewrite E1, E2, E3.
  assert (0 <= unit_ * n) by nia.
  rewrite (u32_small (unit_ * n)), (u32_small (pad + hdr)) by lia. by rewrite u32_small by lia.
Qed.

Definition the_list (id : Z) : ARRAY_LIST :=
  mk_alist (buffer + pad) esz n (2 ^ k) buffer_size pad id 0.
Definition element (i : Z) : Z := buffer + pad + 60 + unit_ * i.
Definition elements (i : Z) : list Z := element <$> seqZ 0 i.

Lemma elements_snoc i : 0 <= i -> elements (i + 1) = elements i ++ [element i].
Proof. intros Hi. unfold elements. rewrite seqZ_app by lia. rewrite fmap_app. done. Qed.

Lemma element_fresh id i : 0 <= i -> NoDup (free_list (the_list id) :: used_list (the_list id) :: elements i) /\
  element i ∉ free_list (the_list id) :: used_list (the_list id) :: elements i.
Proof using HF.
  intros Hi. destruct layout_sizes as (Hp & Hh & Hu & _). destruct HF as (_ & He & _).
  assert (Hlow : forall x, x ∈ elements i -> buffer + pad + 60 <= x < element i).
  { intros x (j & -> & Hj%elem_of_seqZ)%list_elem_of_fmap. unfold element. nia. }
  assert (Hne : buffer + pad + 60 <= element i) by (unfold element; nia).
  unfold free_list, used_list, FREE_OFFSET, USED_OFFSET, the_list. simpl.
  split.
  - apply NoDup_cons. split; [|apply NoDup_cons; split].
    + intros [X|X%Hlow]%elem_of_cons; lia.
    + intros X%Hlow. lia.
    + apply NoDup_fmap_2_strong; [|apply NoDup_seqZ]. intros j1 j2 _ _. unfold element. nia.
  - intros [X|[X|X%Hlow]%elem_of_cons]%elem_of_cons; lia.
Qed.

Context (uninit : Z -> LIST_ELEMENT) (Hsize : pad + hdr + unit_ * n <= buffer_size).

Lemma claim_ok m p extra : buffer <= p -> p + 16 + extra <= buffer + buffer_size ->
  claim uninit buffer buffer_size m p extra = Ok (<[p := uninit p]> m).
Proof.
  intros H1 H2. unfold claim, ARRAY_LIST_ELEMENT_HEADER_SIZE.
  by rewrite (proj2 (Z.leb_le _ _) H1), (proj2 (Z.leb_le _ _) H2).
Qed.

(** An address of the buffer. *)
Definition in_buffer (x : Z) : Prop := buffer <= x < buffer + buffer_size.
Lemma element_in_buffer i : 0 <= i < n -> in_buffer (element i).
Proof using HF Hsize.
  clear uninit. intros Hi. pose proof layout_sizes as (Hp & Hh & Hu & _). pose proof HF as (_ & He & _). unfold in_buffer, element. nia.
Qed.
Lemma elements_in_buffer i x : i <= n -> x ∈ elements i -> in_buffer x.
Proof using HF Hsize. clear uninit. intros Hi (j & -> & Hj%elem_of_seqZ)%list_elem_of_fmap. apply element_in_buffer. lia. Qed.
Lemma heads_in_buffer id : in_buffer (free_list (the_list id)) /\ in_buffer (used_list (the_list id)).
Proof using HF Hsize.
  clear uninit. pose proof layout_sizes as (Hp & Hh & Hu & _). pose proof HF as (_ & He & Hn & _). unfold in_buffer, free_list, used_list, FREE_OFFSET, USED_OFFSET, the_list.
  cbn [alist]. nia.
Qed.

(** [m0] is the memory before the initialisation. *)
Definition init_inv (m0 : gmap Z LIST_ELEMENT) (id i : Z) (st : gmap Z LIST_ELEMENT * Z) : Prop :=
  ring st.1 (free_list (the_list id)) (elements i) /\ ring st.1 (used_list (the_list id)) [] /\
  st.2 = default (free_list (the_list id)) (last (elements i)) /\
  forall x, ~ in_buffer x -> st.1 !! x = m0 !! x.

Lemma init_element_ok m0 id i st : 0 <= i < n -> init_inv m0 id i st ->
  exists st', init_element uninit buffer buffer_size (the_list id) i st = Ok st' /\ init_inv m0 id (i + 1) st'.
Proof using HF Hsize.
  intros Hi (RF & RU & Ef & Ho). destruct st as [m fr]. simpl in RF, RU, Ef. subst fr.
  pose proof layout_sizes as (Hp & Hh & Hu & _ & _ & Eu & _). pose proof HF as (_ & He & _).
  destruct (element_fresh id i ltac:(lia)) as [ND Hfr].
  assert (Hent : ARRAY_LIST_ELEMENT_BY_INDEX (the_list id) i = element i).
  { unfold ARRAY_LIST_ELEMENT_BY_INDEX, ARRAY_OFFSET, element. simpl. rewrite Eu.
    destruct HF as (_ & _ & _ & _ & _ & _ & _ & Htot). by rewrite u32_small by nia. }
  unfold init_element. rewrite Hent. simpl element_size.
  rewrite claim_ok by (unfold element; nia). rewrite bind_Ok. set (m1 := <[element i := uninit (element i)]> m).
  assert (Hm1 : forall x, x <> element i -> m1 !! x = m !! x) by (intros; by apply lookup_insert_ne).
  assert (RF1 : ring m1 (free_list (the_list id)) (elements i ++ [])).
  { rewrite app_nil_r. apply (ring_others m); [done|]. right. intros x Hx. apply Hm1. intros ->.
    apply Hfr. apply elem_of_cons in Hx as [->|Hx]; [left|right; by right]. }
  assert (RU1 : ring m1 (used_list (the_list id)) []).
  { apply (ring_others m); [done|]. right. intros x Hx. apply Hm1. intros ->. apply Hfr. right.
    apply list_elem_of_singleton in Hx as ->. left. }
  destruct (list_add_ok m1 _ (elements i) [] (element i) RF1) as (m2 & -> & RF2 & _ & O2).
  { rewrite app_nil_r. intros X. apply Hfr. apply elem_of_cons in X as [->|X]; [left|right; by right]. }
  { unfold m1. rewrite lookup_insert_eq. by eexists. }
  rewrite bind_Ok. destruct (ring_next_last m2 _ (elements i) (element i) RF2) as (nn & -> & Hnn).
  rewrite bind_Ok, Hnn. eexists. split; [done|]. unfold init_inv. simpl.
  rewrite elements_snoc by lia. split_and!; [done| |by rewrite last_snoc|].
  2:{ intros x Hx. simpl in Ho. rewrite <- (Ho x Hx), <- Hm1 by (intros ->; by apply Hx, element_in_buffer). apply O2.
      rewrite app_nil_r. intros [->|[->|X]%elem_of_cons]%elem_of_cons; [by apply Hx, element_in_buffer|by apply Hx, heads_in_buffer|].
      apply Hx. by apply (elements_in_buffer i); [lia|]. }
  apply (ring_others m1); [done|]. right. intros x ->%list_elem_of_singleton. apply O2.
  rewrite app_nil_r. apply NoDup_cons in ND as [ND1 [ND2 _]%NoDup_cons].
  intros [X|[X|X]%elem_of_cons]%elem_of_cons.
  - apply Hfr. rewrite <- X. right. left.
  - apply ND1. rewrite <- X. left.
  - by apply ND2.
Qed.

End InitProof.

(** array_list_init of a buffer that is large enough returns an empty queue with
    [num_of_elements] places at the first aligned address of the buffer, every access of the
    initialisation inside the buffer: memory outside of it is unchanged, and the queue stays what it is
    whatever happens to that memory. With a buffer that is too small it returns NULL and writes nothing. *)
Theorem array_list_init_spec (uninit : Z -> LIST_ELEMENT) (buffer buffer_size k esz n id : Z)
  (m : gmap Z LIST_ELEMENT) : layout_fits buffer k esz n ->
  (buffer_size < array_list_memory_size buffer esz n (2 ^ k) ->
     array_list_init uninit buffer buffer_size m id esz n (2 ^ k) = Ok (None, m, id)) /\
  (array_list_memory_size buffer esz n (2 ^ k) <= buffer_size ->
     exists a m', array_list_init uninit buffer buffer_size m id esz n (2 ^ k)
       = Ok (Some a, m', u16 (id + 1)) /\ element_size a = esz /\ alist a = ALIGN_FORWARD buffer (2 ^ k) /\
       (forall x, ~ in_buffer buffer buffer_size x -> m' !! x = m !! x) /\
       forall m'', (forall x, in_buffer buffer buffer_size x -> m'' !! x = m' !! x) -> queue_rep a (mk_store m'' ∅) (Z.to_nat n) []).
Proof.
  intros HF. pose proof (layout_sizes buffer k esz n HF) as (Hp & Hh & Hu & Ep & Eh & Eu & Em).
  pose proof HF as (_ & He & Hn & Hb0 & _ & _ & _ & Htot).
  unfold array_list_init. split; intros Hs; [by rewrite (proj2 (Z.ltb_lt _ _) Hs)|].
  rewrite (proj2 (Z.ltb_ge _ _) Hs). rewrite Em in Hs. rewrite Ep. cbv zeta.
  change (mk_alist (buffer + (ALIGN_FORWARD buffer (2 ^ k) - buffer)) esz n (2 ^ k) buffer_size
    (ALIGN_FORWARD buffer (2 ^ k) - buffer) id 0) with (the_list buffer buffer_size k esz n id).
  destruct (heads_in_buffer buffer buffer_size k esz n HF Hs id) as [HIf HIu].
  set (a := the_list buffer buffer_size k esz n id) in *.
  assert (free_list a = buffer + (ALIGN_FORWARD buffer (2 ^ k) - buffer) + 24) as Hfl by done.
  assert (used_list a = buffer + (ALIGN_FORWARD buffer (2 ^ k) - buffer) + 40) as Hul by done.
  assert (0 <= ALIGN_FORWARD (16 + esz) (2 ^ k) * n) by nia.
  rewrite claim_ok by lia. rewrite bind_Ok, claim_ok by lia. rewrite bind_Ok.
  set (m2 := <[used_list a := _]> _).
  destruct (list_init_ok m2 (free_list a)) as (m3 & -> & RF & D3 & O3).
  { unfold m2. rewrite lookup_insert_ne by lia. rewrite lookup_insert_eq. by eexists. }
  rewrite bind_Ok. destruct (list_init_ok m3 (used_list a)) as (m4 & -> & RU & D4 & O4).
  { apply (dom_is_Some m2); [done|]. unfold m2. rewrite lookup_insert_eq. by eexists. }
  rewrite bind_Ok.
  destruct (for_range_inv (init_inv buffer buffer_size k esz n m id) 0 n
              (init_element uninit buffer buffer_size a) (m4, free_list a)) as (r & -> & RF' & RU' & _ & HO).
  { done. }
  { split_and!; simpl; [|done|done|].
    - apply (ring_others m3); [done|]. right.
      intros x ->%list_elem_of_singleton. apply O4. intros X%list_elem_of_singleton.
      change (free_list a = used_list a) in X. lia.
    - intros x Hx. assert (x <> free_list a) by (intros ->; done). assert (x <> used_list a) by (intros ->; done).
      rewrite O4, O3 by (by intros ?%list_elem_of_singleton). unfold m2. by rewrite !lookup_insert_ne by done. }
  { intros i st Hi. by apply init_element_ok. }
  rewrite bind_Ok. eexists a, _. split; [done|]. split; [done|]. split; [cbn; lia|]. split; [exact HO|]. intros m'' Hag.
  exists (elements buffer k esz n), []. rewrite app_nil_r.
  assert (Hlen : length (elements buffer k esz n) = Z.to_nat n)
    by (unfold elements; by rewrite length_fmap, length_seqZ).
  assert (RF'' : ring m'' (free_list a) (elements buffer k esz n)).
  { apply (ring_others r.1); [done|]. right. intros x [->|Hx]%elem_of_cons; apply Hag; [done|].
    by apply (elements_in_buffer buffer buffer_size k esz n HF Hs n x). }
  assert (RU'' : ring m'' (used_list a) []).
  { apply (ring_others r.1); [done|]. right. intros x ->%list_elem_of_singleton. by apply Hag. }
  split; [|split; [done|constructor]]. split; simpl; rewrite ?app_nil_r; try done.
  - apply (element_fresh buffer buffer_size k esz n HF id n Hn).
  - rewrite Hlen. nia.
  - apply Forall_forall. intros x (j & -> & Hj%elem_of_seqZ)%list_elem_of_fmap.
    unfold element, ELEMENT_TO_DATA, ARRAY_LIST_ELEMENT_HEADER_SIZE. nia.
Qed.

Lemma small_layout : layout_fits 4096 3 8 2.
Proof. vm_compute. repeat split; try discriminate; reflexivity. Qed.

Lemma array_list_init_spec_witness :
  exists a m', array_list_init (fun _ => mk_link 7 7) 4096 176 ∅ 1 8 2 8 = Ok (Some a, m', 2) /\ alist a = 4096 /\
    queue_rep a (mk_store m' ∅) 2 [].
Proof.
  destruct (array_list_init_spec (fun _ => mk_link 7 7) 4096 176 3 8 2 1 ∅ small_layout) as [_ X].
  destruct X as (a & m' & E & _ & A & _ & Q); [vm_compute; discriminate|].
  exists a, m'. split; [exact E|]. split; [rewrite A; reflexivity|]. apply Q. intros x _. reflexivity.
Defined.

(** Two free places of 8 bytes at address 4096. *)
Definition sample_list : ARRAY_LIST := mk_alist 4096 8 2 8 128 0 1 0.
Definition sample_store : store :=
  mk_store {[ 4120 := mk_link 4156 4180; 4156 := mk_link 4180 4120; 4180 := mk_link 4120 4156;
              4136 := mk_link 4136 4136 ]} ∅.

Lemma sample_queue : queue_rep sample_list sample_store 2 [].
Proof.
  exists [4156; 4180], []. split; [|done]. split; simpl; try done.
  - split; [repeat constructor; set_solver|vm_compute; done].
  - split; [repeat constructor; set_solver|vm_compute; done].
  - repeat constructor; vm_compute; set_solver.
  - by repeat constructor.
Qed.

Lemma array_list_is_queue_witness :
  exists a' s', queue_run sample_list sample_store [Push [1; 2]; Push [3]; Push [4]; Pop; Push [5]; Pop; Pop; Pop]
      = Ok ([(None, true); (None, true); (None, false); (Some [1; 2], true); (None, true);
             (Some [3], true); (Some [5], true); (None, false)], a', s') /\
    queue_rep a' s' 2 [].
Proof.
  exact (array_list_is_queue [Push [1; 2]; Push [3]; Push [4]; Pop; Push [5]; Pop; Pop; Pop]
           sample_list sample_store 2 [] sample_queue).
Defined.

(** The elements are not aligned: their array starts at the offset of the field
    [array], 60, and not after the aligned header, so with any alignment of 8 or more the
    data of every element is 4 bytes off an 8-byte boundary. *)
Theorem array_list_elements_misaligned (buffer buffer_size k esz n id i : Z) :
  layout_fits buffer k esz n -> 3 <= k -> 0 <= i < n ->
  ELEMENT_TO_DATA (ARRAY_LIST_ELEMENT_BY_INDEX (the_list buffer buffer_size k esz n id) i) mod 8 = 4.
Proof.
  intros HF Hk Hi. pose proof (layout_sizes buffer k esz n HF) as (Hp & Hh & Hu & _ & _ & Eu & _).
  destruct HF as (_ & He & _ & Hb & Hbb & H1 & H2 & H3).
  destruct (ALIGN_FORWARD_pow2 buffer k) as [_ Ab]; [lia..|].
  destruct (ALIGN_FORWARD_pow2 (16 + esz) k) as [_ Au]; [lia..|].
  assert (Hdiv : forall x, x mod 2 ^ k = 0 -> x mod 8 = 0).
  { intros x Hx. apply Z.mod_divide in Hx; [|lia]. apply Z.mod_divide; [lia|].
    apply (Z.divide_trans _ (2 ^ k)); [|done]. exists (2 ^ (k - 3)).
    change 8 with (2 ^ 3). rewrite <- Z.pow_add_r by lia. f_equal. lia. }
  apply Hdiv in Ab, Au.
  unfold ELEMENT_TO_DATA, ARRAY_LIST_ELEMENT_BY_INDEX, ARRAY_OFFSET, ARRAY_LIST_ELEMENT_HEADER_SIZE.
  simpl. rewrite Eu, u32_small by nia.
  set (b := ALIGN_FORWARD buffer (2 ^ k)) in *. set (u := ALIGN_FORWARD (16 + esz) (2 ^ k)) in *.
  replace (buffer + (b - buffer) + 60 + u * i + 16) with (b + u * i + 76) by lia.
  rewrite <- Zplus_mod_idemp_l, (Zplus_mod b), Ab, (Z.mul_mod u), Au by lia. done.
Qed.

Lemma array_list_elements_misaligned_witness :
  ELEMENT_TO_DATA (ARRAY_LIST_ELEMENT_BY_INDEX (the_list 4096 128 3 8 2 1) 1) mod 8 = 4.
Proof. apply array_list_elements_misaligned; [exact small_layout|lia|lia]. Defined.
