(* ===== verification/EventMgr.v ===== *)
(** utils/event_mgr.c: observers of events, registered per guest CPU, per guest or
    globally, and raised in this order.  The table from guest CPUs to their events is a
    64-bit hash table; it is used through the interface [KeyTable], which [Hash64]
    implements (the instance below). *)

From S2P Require Import Prelude VmmDefs Lock Hash64.

(** * The table of guest CPUs *)

Class KeyTable (T : Type) := {
  kt_lookup : T -> Z -> outcome (option Z);
  kt_insert : T -> Z -> Z -> outcome (bool * T);
  (** The table holds this map. *)
  kt_holds : T -> gmap Z Z -> Prop;
  kt_lookup_law : forall t M k, kt_holds t M -> kt_lookup t k = Ok (M !! k);
  kt_insert_law : forall t M k v, kt_holds t M -> M !! k = None -> Z.of_nat (size M) + 1 < 2 ^ 32 ->
    exists ok t', kt_insert t k v = Ok (ok, t') /\ kt_holds t' (if ok : bool then <[k := v]> M else M)
}.

(** hash64.c is such a table. *)
Section Hash64Table.
Context {A : Type} `{MemoryServices A} (live : A -> gset Z).

Definition table_lookup (s : HASH64_TABLE A * world A) (k : Z) : outcome (option Z) :=
  hash64_lookup (Some s.1) s.2 k.
Definition table_insert (s : HASH64_TABLE A * world A) (k v : Z)
  : outcome (bool * (HASH64_TABLE A * world A)) :=
  r ← hash64_insert (Some s.1) s.2 k v;
  match r with
  | (ok, Some t, w) => Ok (ok, (t, w))
  | (_, None, _) => Fault
  end.
Definition table_holds (s : HASH64_TABLE A * world A) (M : gmap Z Z) : Prop :=
  TableFunctions live s.1 /\ exists fp, table_ok live s.1 s.2 fp M.

Lemma table_count t w fp M : table_ok live t w fp M -> element_count t = Z.of_nat (size M).
Proof.
  intros [(bks & [_ _ _ RK _ [Hc _]] & -> & _) _ _]. by rewrite Hc, (contents_size bks RK).
Qed.

#[refine] Instance hash64_key_table : KeyTable (HASH64_TABLE A * world A) := {|
  kt_lookup := table_lookup; kt_insert := table_insert; kt_holds := table_holds
|}.
Proof.
  - intros [t w] M k [TF [fp OK]]. by eapply lookup_ok.
  - intros [t w] M k v [TF [fp OK]] Hk Hs. simpl in *.
    rewrite <- (table_count t w fp M OK) in Hs.
    destruct (insert_absent live t w fp M k v false TF OK Hk Hs) as (ok & t' & w' & E & _ & TF' & R).
    exists ok, (t', w'). unfold table_insert, hash64_insert. simpl. rewrite E. split; [done|].
    split; [done|]. destruct ok; [destruct R as (p & _ & R)|destruct R as (_ & _ & R)]; by eexists.
Defined.
End Hash64Table.

(** * Data *)

Definition OBSERVERS_LIMIT : Z := 5.
Definition NO_EVENT_SPECIFIC_LIMIT : Z := 2 ^ 32 - 1.
Definition EVENTS_COUNT : Z := 31.
Definition EVENT_GLOBAL_SCOPE : Z := 1.
Definition EVENT_GUEST_SCOPE : Z := 2.
Definition EVENT_GCPU_SCOPE : Z := 4.
Definition EVENT_ALL_SCOPE : Z := 7.
Definition EVENT_GCPU_ADD : Z := 26.

(** Callbacks are code addresses, 0 for none. *)
Record EVENT_ENTRY := mk_event { ev_lock : VMM_READ_WRITE_LOCK; ev_call : list Z }.

Record GUEST_CPU := mk_gcpu { guest_id : Z; guest_cpu_id : Z; gcpu_guest : Z }.

(** [cpu_events] are the CPU_EVENTS structures by address; [gcpu_events] maps guest CPUs to
    them. *)
Record EVENT_MANAGER (T : Type) := mk_mgr {
  gcpu_events : T;
  cpu_events : gmap Z (list EVENT_ENTRY);
  guest_events : list (Z * list EVENT_ENTRY);
  general_event : list EVENT_ENTRY
}.
Arguments mk_mgr {T}.
Arguments gcpu_events {T}.
Arguments cpu_events {T}.
Arguments guest_events {T}.
Arguments general_event {T}.

(** Observer limit and scope of each event, in the order of UVMM_EVENT_INTERNAL. *)
Definition any : Z * Z := (NO_EVENT_SPECIFIC_LIMIT, EVENT_ALL_SCOPE).
Definition one_gcpu : Z * Z := (1, EVENT_GCPU_SCOPE).
Definition events_characteristics : list (Z * Z) :=
  [any; any; any; any; any; any; any; any; one_gcpu; any; any; any; any; any; any;
   one_gcpu; one_gcpu; one_gcpu; any; any; any; any; any; any; any; any; any; any; any;
   (1, EVENT_ALL_SCOPE); (1, EVENT_ALL_SCOPE)].

Definition event_observers_limit (e : Z) : outcome Z :=
  c ← rd events_characteristics e;
  Ok (if c.1 =? NO_EVENT_SPECIFIC_LIMIT then OBSERVERS_LIMIT else c.1).

(** (UINT64)(guest_id << 16 | guest_cpu_id): the shift is a signed 32-bit one. *)
Definition gcpu_key (g : GUEST_CPU) : Z :=
  u64 (s32 (Z.lor (Z.shiftl (guest_id g) 16) (guest_cpu_id g))).

Definition EMPTY_EVENT : EVENT_ENTRY :=
  mk_event (lock_initialize_read_write_lock (mk_rw_lock (mk_lock 0 0) 0)) (replicate 5 0).
Definition new_events : list EVENT_ENTRY := replicate 31 EMPTY_EVENT.

(** Where an EVENT_ENTRY is. *)
Inductive entry_ref := GcpuEntry (p e : Z) | GuestEntry (i : nat) (e : Z) | GlobalEntry (e : Z).

Section Operations.
Context {T : Type} `{KeyTable T}.
Notation mgr := (EVENT_MANAGER T).

Definition events_at (m : mgr) (r : entry_ref) : outcome (list EVENT_ENTRY * Z) :=
  match r with
  | GcpuEntry p e => match cpu_events m !! p with Some es => Ok (es, e) | None => Fault end
  | GuestEntry i e => match guest_events m !! i with Some (_, es) => Ok (es, e) | None => Fault end
  | GlobalEntry e => Ok (general_event m, e)
  end.

Definition put_events (m : mgr) (r : entry_ref) (es : list EVENT_ENTRY) : mgr :=
  match r with
  | GcpuEntry p _ => mk_mgr (gcpu_events m) (<[p := es]> (cpu_events m)) (guest_events m) (general_event m)
  | GuestEntry i _ => mk_mgr (gcpu_events m) (cpu_events m)
                        (alter (fun ge => (ge.1, es)) i (guest_events m)) (general_event m)
  | GlobalEntry _ => mk_mgr (gcpu_events m) (cpu_events m) (guest_events m) es
  end.

Definition read_entry (m : mgr) (r : entry_ref) : outcome EVENT_ENTRY :=
  x ← events_at m r; rd x.1 x.2.
Definition write_entry (m : mgr) (r : entry_ref) (en : EVENT_ENTRY) : outcome mgr :=
  x ← events_at m r; es ← wr x.1 x.2 en; Ok (put_events m r es).

(** * Looking up observers *)

Definition get_gcpu_observers (m : mgr) (e : Z) (g : GUEST_CPU) : outcome (option entry_ref) :=
  o ← kt_lookup (gcpu_events m) (gcpu_key g);
  Ok (match o with
      | Some p => if p =? 0 then None else Some (GcpuEntry p e)
      | None => None
      end).

Fixpoint find_guest (ges : list (Z * list EVENT_ENTRY)) (id : Z) (i : nat) : option nat :=
  match ges with
  | [] => None
  | ge :: ges' => if ge.1 =? id then Some i else find_guest ges' id (S i)
  end.

Definition get_guest_observers (m : mgr) (e guest : Z) : option entry_ref :=
  match find_guest (guest_events m) guest 0 with Some i => Some (GuestEntry i e) | None => None end.

Definition get_global_observers (e : Z) : entry_ref := GlobalEntry e.

(** * Registration *)

(** [while (i < limit && call[i]) ++i;] *)
Fixpoint find_slot (n : nat) (call : list Z) (i limit : Z) : outcome Z :=
  match n with
  | O => Ok i
  | S n' =>
      if i <? limit then c ← rd call i; if c =? 0 then Ok i else find_slot n' call (i + 1) limit
      else Ok i
  end.

Section WithCpu.
Context (fuel : nat) (cpu : Z).

Definition event_register_internal (m : mgr) (p_event : entry_ref) (e call : Z) : outcome (bool * mgr) :=
  limit ← event_observers_limit e;
  en ← read_entry m p_event;
  l ← lock_acquire_writelock fuel cpu (ev_lock en);
  m ← write_entry m p_event (mk_event l (ev_call en));
  i ← find_slot (Z.to_nat limit) (ev_call en) 0 limit;
  r ← (if i <? limit then calls ← wr (ev_call en) i call; Ok (true, calls) else Ok (false, ev_call en));
  m ← write_entry m p_event (mk_event (lock_release_writelock l) r.2);
  Ok (r.1, m).

Definition event_global_register (m : mgr) (e call : Z) : outcome (bool * mgr) :=
  if call =? 0 then Ok (false, m)
  else if EVENTS_COUNT <=? e then Ok (false, m)
  else
    c ← rd events_characteristics e;
    if Z.land c.2 EVENT_GLOBAL_SCOPE =? 0 then Ok (false, m)
    else event_register_internal m (get_global_observers e) e call.

Definition event_gcpu_register (m : mgr) (e : Z) (g : GUEST_CPU) (call : Z) : outcome (bool * mgr) :=
  if call =? 0 then Ok (false, m)
  else if EVENTS_COUNT <=? e then Ok (false, m)
  else
    c ← rd events_characteristics e;
    if Z.land c.2 EVENT_GCPU_SCOPE =? 0 then Ok (false, m)
    else
      o ← get_gcpu_observers m e g;
      match o with
      | Some r => event_register_internal m r e call
      | None => Ok (false, m)
      end.

(** * Initialisation *)

(** [p] is the address vmm_malloc returned, in zeroed memory. *)
Definition event_manager_gcpu_initialize (m : mgr) (g : GUEST_CPU) (p : Z) : outcome mgr :=
  r ← kt_insert (gcpu_events m) (gcpu_key g) p;
  if p =? 0 then Fault
  else Ok (mk_mgr r.2 (<[p := new_events]> (cpu_events m)) (guest_events m) (general_event m)).

Fixpoint gcpus_initialize (m : mgr) (gs : list (GUEST_CPU * Z)) : outcome mgr :=
  match gs with
  | [] => Ok m
  | (g, p) :: gs' => m ← event_manager_gcpu_initialize m g p; gcpus_initialize m gs'
  end.

Definition event_manager_guest_initialize (m : mgr) (id : Z) (gs : list (GUEST_CPU * Z)) : outcome mgr :=
  m ← gcpus_initialize m gs;
  Ok (mk_mgr (gcpu_events m) (cpu_events m) ((id, new_events) :: guest_events m) (general_event m)).

Fixpoint guests_initialize (m : mgr) (guests : list (Z * list (GUEST_CPU * Z))) : outcome mgr :=
  match guests with
  | [] => Ok m
  | (id, gs) :: guests' => m ← event_manager_guest_initialize m id gs; guests_initialize m guests'
  end.

(** [t] is the table hash64_create_default_hash returned, [add_gcpu] the address of
    event_manager_add_gcpu, [guests] the guests with their CPUs and the memory for each. *)
Definition event_manager_initialize (t : T) (add_gcpu : Z) (guests : list (Z * list (GUEST_CPU * Z)))
  : outcome mgr :=
  m ← guests_initialize (mk_mgr t ∅ [] new_events) guests;
  r ← event_global_register m EVENT_GCPU_ADD add_gcpu;
  Ok r.2.

(** * Raising *)

(** What calling a callback does: [exec] runs the code at an address; it may use the
    event manager itself. *)
Context {W : Type} (exec : Z -> option GUEST_CPU -> Z -> mgr * W -> outcome (mgr * W)).

(** [while (i < limit && call[i]) call[i++](gcpu, p);] *)
Fixpoint call_observers (n : nat) (call : list Z) (i limit : Z) (g : option GUEST_CPU) (p : Z)
  (handled : bool) (st : mgr * W) : outcome (bool * (mgr * W)) :=
  match n with
  | O => Ok (handled, st)
  | S n' =>
      if i <? limit then
        c ← rd call i;
        if c =? 0 then Ok (handled, st)
        else st ← exec c g p st; call_observers n' call (i + 1) limit g p true st
      else Ok (handled, st)
  end.

Definition event_raise_internal (st : mgr * W) (p_event : entry_ref) (e : Z) (g : option GUEST_CPU) (p : Z)
  : outcome (bool * (mgr * W)) :=
  limit ← event_observers_limit e;
  en ← read_entry st.1 p_event;
  l ← lock_acquire_readlock fuel cpu (ev_lock en);
  m ← write_entry st.1 p_event (mk_event l (ev_call en));
  let call := ev_call en in
  m ← write_entry m p_event (mk_event (lock_release_readlock l) (ev_call en));
  call_observers (Z.to_nat limit) call 0 limit g p false (m, st.2).

Definition event_global_raise st e g p := event_raise_internal st (get_global_observers e) e g p.

Definition event_guest_raise (st : mgr * W) (e : Z) (g : GUEST_CPU) (p : Z) : outcome (bool * (mgr * W)) :=
  match get_guest_observers st.1 e (gcpu_guest g) with
  | Some r => event_raise_internal st r e (Some g) p
  | None => Ok (false, st)
  end.

Definition event_gcpu_raise (st : mgr * W) (e : Z) (g : GUEST_CPU) (p : Z) : outcome (bool * (mgr * W)) :=
  o ← get_gcpu_observers st.1 e g;
  match o with
  | Some r => event_raise_internal st r e (Some g) p
  | None => Ok (false, st)
  end.

Definition event_raise (st : mgr * W) (e : Z) (g : option GUEST_CPU) (p : Z) : outcome (bool * (mgr * W)) :=
  if e <? EVENTS_COUNT then
    r ← (match g with Some c => event_gcpu_raise st e c p | None => Ok (false, st) end);
    r ← (match g with
         | Some c => if (r.1 : bool) then Ok r else event_guest_raise r.2 e c p
         | None => Ok r
         end);
    if (r.1 : bool) then Ok r else event_global_raise r.2 e g p
  else Ok (false, st).

End WithCpu.
End Operations.

(** * Facts *)

Lemma characteristics_length : length events_characteristics = 31%nat.
Proof. done. Qed.

(** The leading callbacks of a table. *)
Fixpoint leading (call : list Z) : list Z :=
  match call with [] => [] | c :: r => if c =? 0 then [] else c :: leading r end.

(** The observers of an entry, for an event with this limit. *)
Definition observers (limit : Z) (en : EVENT_ENTRY) : list Z := leading (take (Z.to_nat limit) (ev_call en)).

Definition rw_idle : VMM_READ_WRITE_LOCK := mk_rw_lock LOCK_INIT_STATE 0.

Lemma readlock_idle fuel cpu : lock_acquire_readlock (S fuel) cpu rw_idle = Ok (mk_rw_lock LOCK_INIT_STATE 1) /\
  lock_release_readlock (mk_rw_lock LOCK_INIT_STATE 1) = rw_idle.
Proof. done. Qed.

Lemma writelock_idle fuel cpu : lock_acquire_writelock (S fuel) cpu rw_idle = Ok (mk_rw_lock (mk_lock 1 cpu) 0) /\
  lock_release_writelock (mk_rw_lock (mk_lock 1 cpu) 0) = rw_idle.
Proof. done. Qed.

(** An entry at rest: the lock is free, the table has its five places, and the callbacks
    come first. *)
Definition entry_ok (en : EVENT_ENTRY) : Prop :=
  ev_lock en = rw_idle /\
  exists os, Forall (fun c => c <> 0) os /\ (length os <= 5)%nat /\
    ev_call en = os ++ replicate (5 - length os) 0.

Definition events_ok (es : list EVENT_ENTRY) : Prop := length es = 31%nat /\ Forall entry_ok es.

Lemma new_events_ok : events_ok new_events.
Proof.
  split; [done|]. apply Forall_replicate. split; [done|]. exists []. split_and!; [done|simpl; lia|done].
Qed.

Lemma entry_call_length en : entry_ok en -> length (ev_call en) = 5%nat.
Proof. intros (_ & os & _ & Hl & ->). rewrite length_app, length_replicate. lia. Qed.

Lemma limit_bounds e : 0 <= e < EVENTS_COUNT ->
  exists limit scope, rd events_characteristics e = Ok (limit, scope) /\
  exists l, event_observers_limit e = Ok l /\ 1 <= l <= 5.
Proof.
  intros He. unfold EVENTS_COUNT in He. unfold event_observers_limit.
  destruct (lookup_lt_is_Some_2 events_characteristics (Z.to_nat e)) as [[l sc] Hl].
  { rewrite characteristics_length. lia. }
  exists l, sc. rewrite (rd_ok _ _ _ (proj1 He) Hl). split; [done|]. eexists. split; [done|]. simpl fst.
  assert (Forall (fun c : Z * Z => c.1 = NO_EVENT_SPECIFIC_LIMIT \/ c.1 = 1) events_characteristics) as HF.
  { unfold events_characteristics, any, one_gcpu. 
    repeat (apply List.Forall_cons; [first [by left|by right]|]). apply List.Forall_nil. }
  rewrite Forall_forall in HF. destruct (HF (l, sc)) as [E|E]; [by eapply list_elem_of_lookup_2| |];
    simpl in E; subst; [|by vm_compute]. rewrite Z.eqb_refl. by vm_compute.
Qed.

(** ** Reading and writing entries *)

Lemma alter_twice {A} (f g : A -> A) (l : list A) i : (forall x, f (g x) = f x) ->
  alter f i (alter g i l) = alter f i l.
Proof.
  intros E. revert i. induction l as [|x l IH]; intros [|i]; simpl; [done|done|by rewrite E|].
  unfold alter in *. by rewrite IH.
Qed.

Lemma alter_id {A} (f : A -> A) (l : list A) i x : l !! i = Some x -> f x = x -> alter f i l = l.
Proof.
  revert i. induction l as [|y l IH]; intros [|i] Hl E; simplify_eq/=; [by rewrite E|].
  unfold alter in *. by rewrite IH.
Qed.

Section Refs.
Context {T : Type} `{KeyTable T}.
Notation mgr := (EVENT_MANAGER T).
Implicit Types (m : mgr) (r : entry_ref).

Definition ref_event (r : entry_ref) : Z := match r with GcpuEntry _ e | GuestEntry _ e | GlobalEntry e => e end.

Lemma events_at_ref m r es e : events_at m r = Ok (es, e) -> e = ref_event r.
Proof.
  destruct r as [p e'|i e'|e']; simpl; [destruct (cpu_events m !! p)|destruct (guest_events m !! i) as [[]|]|];
    intros; by simplify_eq.
Qed.

Lemma put_get m r es e es' : events_at m r = Ok (es, e) -> events_at (put_events m r es') r = Ok (es', e).
Proof.
  destruct r as [p e'|i e'|e']; simpl.
  - destruct (cpu_events m !! p); [|done]. intros [= _ <-]. by rewrite lookup_insert_eq.
  - destruct (guest_events m !! i) as [[id x]|] eqn:E; [|done]. intros [= _ <-].
    by rewrite list_lookup_alter_eq, E.
  - by intros [= _ <-].
Qed.

Lemma put_put m r es es' : put_events (put_events m r es) r es' = put_events m r es'.
Proof.
  destruct r as [p e'|i e'|e']; simpl; [by rewrite insert_insert_eq| |done].
  f_equal. apply (alter_twice (fun ge => (ge.1, es')) (fun ge => (ge.1, es))). by intros [].
Qed.

Lemma put_same m r es e : events_at m r = Ok (es, e) -> put_events m r es = m.
Proof.
  destruct m as [t c g n]. destruct r as [p e'|i e'|e']; simpl.
  - destruct (c !! p) as [x|] eqn:E; [|done]. intros [= -> _]. by rewrite insert_id.
  - destruct (g !! i) as [[id x]|] eqn:E; [|done]. intros [= -> _]. f_equal.
    by apply (alter_id _ g i (id, es)).
  - by intros [= -> _].
Qed.

Lemma read_write m r en : read_entry m r = Ok en ->
  exists es e, events_at m r = Ok (es, e) /\ rd es e = Ok en /\
  forall en', write_entry m r en' = Ok (put_events m r (<[Z.to_nat e := en']> es)).
Proof.
  unfold read_entry, write_entry. intros E. apply bind_ok in E as ([es e] & E1 & E2). exists es, e.
  split; [done|]. split; [done|]. intros en'. rewrite E1, bind_Ok. simpl.
  apply rd_inv in E2 as [Hr _]. rewrite wr_ok by done. done.
Qed.

(** Two writes through the same reference. *)
Lemma write_write m r en en1 en2 : read_entry m r = Ok en ->
  (m ← write_entry m r en1; write_entry m r en2) = write_entry m r en2.
Proof.
  intros E. destruct (read_write m r en E) as (es & e & E1 & E2 & W). rewrite (W en1), bind_Ok, (W en2).
  unfold write_entry. rewrite (put_get m r es e) by done. rewrite bind_Ok. simpl.
  apply rd_inv in E2 as [Hr _]. rewrite wr_ok by by rewrite length_insert. rewrite bind_Ok.
  by rewrite put_put, list_insert_insert_eq.
Qed.

Lemma write_same m r en : read_entry m r = Ok en -> write_entry m r en = Ok m.
Proof.
  intros E. destruct (read_write m r en E) as (es & e & E1 & E2 & W). rewrite W.
  apply rd_inv in E2 as [_ E2]. rewrite list_insert_id by done. by rewrite (put_same m r es e).
Qed.

(** ** Raising one entry *)

Section Raise.
Context {W : Type} (exec : Z -> option GUEST_CPU -> Z -> mgr * W -> outcome (mgr * W)).
Context (fuel : nat) (cpu : Z).

(** Calling a list of observers in order. *)
Fixpoint run_observers (os : list Z) (g : option GUEST_CPU) (p : Z) (st : mgr * W) : outcome (mgr * W) :=
  match os with [] => Ok st | c :: os' => st ← exec c g p st; run_observers os' g p st end.

Definition non_empty {A} (l : list A) : bool := match l with [] => false | _ => true end.

Lemma call_observers_ok call limit g p : limit <= Z.of_nat (length call) ->
  forall n i h st, 0 <= i -> Z.of_nat n = limit - i ->
  let os := leading (take n (drop (Z.to_nat i) call)) in
  call_observers exec n call i limit g p h st =
    st' ← run_observers os g p st; Ok (h || non_empty os, st').
Proof.
  intros Hl. induction n as [|n IH]; intros i h st Hi Hn; cbv zeta; cbn [call_observers].
  { rewrite take_0. simpl. by rewrite orb_false_r. }
  rewrite (proj2 (Z.ltb_lt _ _)) by lia.
  destruct (lookup_lt_is_Some_2 call (Z.to_nat i)) as [c Hc]; [lia|].
  rewrite (rd_ok _ _ _ Hi Hc), bind_Ok. rewrite (drop_S _ _ _ Hc). cbn [take firstn leading].
  destruct (Z.eqb_spec c 0); [simpl; by rewrite orb_false_r|]. cbn [run_observers non_empty].
  rewrite orb_true_r. destruct (exec c g p st) as [st1| |]; [|done|done]. rewrite !bind_Ok.
  rewrite IH by lia. cbv zeta. replace (Z.to_nat (i + 1)) with (S (Z.to_nat i)) by lia. done.
Qed.

Lemma raise_ok m r e limit en g p (w : W) : event_observers_limit e = Ok limit -> 1 <= limit <= 5 ->
  read_entry m r = Ok en -> entry_ok en ->
  event_raise_internal (S fuel) cpu exec (m, w) r e g p =
    st' ← run_observers (observers limit en) g p (m, w); Ok (non_empty (observers limit en), st').
Proof.
  intros EL HL ER OK. unfold event_raise_internal. rewrite EL, bind_Ok. simpl fst. rewrite ER, bind_Ok.
  pose proof OK as (Elk & _). rewrite Elk. destruct (readlock_idle fuel cpu) as [-> Erl]. rewrite bind_Ok.
  cbv zeta. rewrite Erl.
  assert (en = mk_event rw_idle (ev_call en)) as Een by (destruct en; simpl in *; by subst).
  rewrite <- Een. destruct (read_write m r en ER) as (es & e0 & E1 & E2 & HW).
  pose proof (write_write m r en (mk_event (mk_rw_lock LOCK_INIT_STATE 1) (ev_call en)) en ER) as WW.
  rewrite (write_same m r en ER) in WW. rewrite HW in WW |- *. rewrite !bind_Ok in *. rewrite WW, bind_Ok.
  simpl snd. rewrite call_observers_ok by (rewrite ?(entry_call_length en OK); lia). done.
Qed.

End Raise.
End Refs.

Lemma leading_zeros k n : leading (take n (replicate k 0)) = [].
Proof. destruct k, n; done. Qed.

Lemma leading_take os k : Forall (fun c => c <> 0) os -> forall n,
  leading (take n (os ++ replicate k 0)) = take n os.
Proof.
  induction 1 as [|c os Hc _ IH]; intros n; [rewrite take_nil; apply leading_zeros|].
  destruct n as [|n]; [done|]. simpl. rewrite (proj2 (Z.eqb_neq c 0) Hc). f_equal. apply IH.
Qed.

Lemma find_slot_ok os k limit : Forall (fun c => c <> 0) os -> limit <= Z.of_nat (length os + k) ->
  forall n i, 0 <= i <= Z.of_nat (length os) -> i <= limit -> Z.of_nat n = limit - i ->
  find_slot n (os ++ replicate k 0) i limit = Ok (Z.min (Z.of_nat (length os)) limit).
Proof.
  intros HF Hlim. induction n as [|n IH]; intros i Hi Hil Hn; cbn [find_slot]; [f_equal; lia|].
  rewrite (proj2 (Z.ltb_lt _ _)) by lia.
  destruct (decide (i = Z.of_nat (length os))) as [->|].
  - assert ((os ++ replicate k 0) !! Z.to_nat (Z.of_nat (length os)) = Some 0) as E.
    { rewrite Nat2Z.id, lookup_app_r, Nat.sub_diag by lia. apply lookup_replicate. split; [done|lia]. }
    rewrite (rd_ok _ _ 0) by (lia || done). rewrite bind_Ok. simpl. f_equal. lia.
  - destruct (lookup_lt_is_Some_2 os (Z.to_nat i)) as [c Hc]; [lia|].
    assert ((os ++ replicate k 0) !! Z.to_nat i = Some c) as E by by apply lookup_app_l_Some.
    rewrite (rd_ok _ _ c) by (lia || done). rewrite bind_Ok. rewrite Forall_forall in HF.
    rewrite (proj2 (Z.eqb_neq c 0)) by (eapply HF, list_elem_of_lookup_2, Hc). apply IH; lia.
Qed.

Definition limit_of (e : Z) : Z := match event_observers_limit e with Ok l => l | _ => 0 end.

(** The observers of event [e] in a table of events. *)
Definition obs_in (es : list EVENT_ENTRY) (e : Z) : list Z :=
  match es !! Z.to_nat e with Some en => observers (limit_of e) en | None => [] end.

Section Manager.
Context {T : Type} `{KeyTable T}.
Notation mgr := (EVENT_MANAGER T).
Implicit Types (m : mgr) (M : gmap Z Z) (g : GUEST_CPU).

(** The observers of an event for a guest CPU, for its guest, and global ones; [M] is the
    map the hash table holds. *)
Definition gcpu_obs (m : mgr) (M : gmap Z Z) (g : GUEST_CPU) (e : Z) : list Z :=
  match M !! gcpu_key g with
  | Some p => match cpu_events m !! p with Some es => obs_in es e | None => [] end
  | None => []
  end.
Definition guest_obs (m : mgr) (g : GUEST_CPU) (e : Z) : list Z :=
  match find_guest (guest_events m) (gcpu_guest g) 0 with
  | Some i => match guest_events m !! i with Some ge => obs_in ge.2 e | None => [] end
  | None => []
  end.
Definition global_obs (m : mgr) (e : Z) : list Z := obs_in (general_event m) e.

(** The manager at rest. *)
Record mgr_ok (m : mgr) (M : gmap Z Z) : Prop := {
  mo_table : kt_holds (gcpu_events m) M;
  mo_cpus : forall k p, M !! k = Some p -> p <> 0 /\ exists es, cpu_events m !! p = Some es /\ events_ok es;
  mo_own : forall k1 k2 p, M !! k1 = Some p -> M !! k2 = Some p -> k1 = k2;
  mo_guests : Forall (fun ge => events_ok ge.2) (guest_events m);
  mo_global : events_ok (general_event m)
}.

Lemma find_guest_lookup (ges : list (Z * list EVENT_ENTRY)) id : forall i j, find_guest ges id i = Some j ->
  exists ge, ges !! (j - i)%nat = Some ge /\ (i <= j)%nat.
Proof.
  induction ges as [|ge ges IH]; intros i j Hf; simpl in Hf; [done|].
  destruct (ge.1 =? id); [simplify_eq; exists ge; by rewrite Nat.sub_diag|].
  destruct (IH (S i) j Hf) as (x & Hx & Hle). exists x. split; [|lia].
  by replace (j - i)%nat with (S (j - S i)) by lia.
Qed.

Lemma events_ok_entry es e : events_ok es -> 0 <= e < EVENTS_COUNT ->
  exists en, rd es e = Ok en /\ es !! Z.to_nat e = Some en /\ entry_ok en.
Proof.
  intros [Hl HF] He. unfold EVENTS_COUNT in He.
  destruct (lookup_lt_is_Some_2 es (Z.to_nat e)) as [en Hen]; [lia|]. exists en.
  rewrite (rd_ok _ _ _ (proj1 He) Hen). split_and!; [done..|]. by eapply Forall_lookup_1.
Qed.

Section Raise.
Context {W : Type} (exec : Z -> option GUEST_CPU -> Z -> mgr * W -> outcome (mgr * W)).
Context (fuel : nat) (cpu : Z).

(** The observers an event is delivered to: those of the first level that has any. *)
Definition targets (m : mgr) (M : gmap Z Z) (g : option GUEST_CPU) (e : Z) : list Z :=
  match g with
  | None => global_obs m e
  | Some g =>
      if non_empty (gcpu_obs m M g e) then gcpu_obs m M g e
      else if non_empty (guest_obs m g e) then guest_obs m g e
      else global_obs m e
  end.

(** Raising a level with observers [os]. *)
Definition delivered (os : list Z) (g : option GUEST_CPU) (p : Z) (st : mgr * W) : outcome (bool * (mgr * W)) :=
  st' ← run_observers exec os g p st; Ok (non_empty os, st').

Lemma raise_table m r es e (g : option GUEST_CPU) p w : events_at m r = Ok (es, e) -> events_ok es -> 0 <= e < EVENTS_COUNT ->
  event_raise_internal (S fuel) cpu exec (m, w) r e g p = delivered (obs_in es e) g p (m, w).
Proof.
  intros Ha Hok He. destruct (events_ok_entry es e Hok He) as (en & Er & El & OK).
  destruct (limit_bounds e He) as (_ & _ & _ & l & Elim & Hl).
  unfold delivered, obs_in, limit_of. rewrite El, Elim. apply raise_ok; [done|done| |done].
  unfold read_entry. by rewrite Ha, bind_Ok.
Qed.

Lemma gcpu_raise_ok m M e g p w : mgr_ok m M -> 0 <= e < EVENTS_COUNT ->
  event_gcpu_raise (S fuel) cpu exec (m, w) e g p = delivered (gcpu_obs m M g e) (Some g) p (m, w).
Proof.
  intros OK He. unfold event_gcpu_raise, get_gcpu_observers, gcpu_obs. simpl fst.
  rewrite (kt_lookup_law _ _ _ (mo_table _ _ OK)), bind_Ok.
  destruct (M !! gcpu_key g) as [q|] eqn:Eq; [|done].
  destruct (mo_cpus _ _ OK _ _ Eq) as (Hq & es & Ees & Hes).
  rewrite (proj2 (Z.eqb_neq q 0) Hq), bind_Ok, Ees. apply raise_table; [|done|done]. simpl. by rewrite Ees.
Qed.

Lemma guest_raise_ok m M e g p w : mgr_ok m M -> 0 <= e < EVENTS_COUNT ->
  event_guest_raise (S fuel) cpu exec (m, w) e g p = delivered (guest_obs m g e) (Some g) p (m, w).
Proof.
  intros OK He. unfold event_guest_raise, get_guest_observers, guest_obs. simpl fst.
  destruct (find_guest (guest_events m) (gcpu_guest g) 0) as [i|] eqn:Ei; [|done].
  destruct (find_guest_lookup _ _ _ _ Ei) as ([id es] & Hge & _). rewrite Nat.sub_0_r in Hge. rewrite Hge.
  apply raise_table; [|by apply (Forall_lookup_1 _ _ _ _ (mo_guests _ _ OK) Hge)|done]. simpl. by rewrite Hge.
Qed.

End Raise.
End Manager.

(** C25. Raising an event calls, in order of registration, every observer of the guest CPU;
    if it has none, every observer of its guest; if there are none either, every global
    observer; and reports whether anything was called.  The observers run on a snapshot
    taken with the entry's lock released, so a callback may itself use the manager. *)
Theorem event_raise_spec {T} `{KeyTable T} {W} (exec : Z -> option GUEST_CPU -> Z -> EVENT_MANAGER T * W ->
    outcome (EVENT_MANAGER T * W)) (fuel : nat) (cpu : Z) (m : EVENT_MANAGER T) (M : gmap Z Z)
  (w : W) (e p : Z) (g : option GUEST_CPU) :
  mgr_ok m M -> 0 <= e < EVENTS_COUNT ->
  event_raise (S fuel) cpu exec (m, w) e g p = delivered exec (targets m M g e) g p (m, w).
Proof.
  intros OK He. unfold event_raise. rewrite (proj2 (Z.ltb_lt _ _)) by lia.
  assert (HG : event_global_raise (S fuel) cpu exec (m, w) e g p = delivered exec (global_obs m e) g p (m, w)).
  { apply raise_table; [done|apply (mo_global _ _ OK)|done]. }
  assert (Hnil : forall os, non_empty os = false -> delivered exec os g p (m, w) = Ok (false, (m, w)))
    by (intros [|] ?; done).
  destruct g as [g|]; simpl targets; [|by rewrite !bind_Ok].
  rewrite (gcpu_raise_ok exec fuel cpu m M) by done.
  destruct (non_empty (gcpu_obs m M g e)) eqn:E1.
  - unfold delivered. destruct (run_observers _ _ _ _ _); [|done|done]. rewrite !bind_Ok. simpl. by rewrite E1.
  - rewrite (Hnil _ E1), bind_Ok. simpl fst. cbv iota. simpl snd.
    rewrite (guest_raise_ok exec fuel cpu m M) by done.
    destruct (non_empty (guest_obs m g e)) eqn:E2.
    + unfold delivered. destruct (run_observers _ _ _ _ _); [|done|done]. rewrite !bind_Ok. simpl. by rewrite E2.
    + rewrite (Hnil _ E2), bind_Ok. simpl fst. cbv iota. exact HG.
Qed.

(** ** Registration *)

Section Register.
Context {T : Type} `{KeyTable T} (fuel : nat) (cpu : Z).
Notation mgr := (EVENT_MANAGER T).

(** Adding a callback to an entry with room. *)
Lemma slot_entry en limit call : entry_ok en -> 1 <= limit <= 5 -> call <> 0 ->
  exists i, find_slot (Z.to_nat limit) (ev_call en) 0 limit = Ok i /\
  if decide (Z.of_nat (length (observers limit en)) < limit) then
    i < limit /\ exists calls, wr (ev_call en) i call = Ok calls /\
      entry_ok (mk_event rw_idle calls) /\
      observers limit (mk_event rw_idle calls) = observers limit en ++ [call]
  else limit <= i.
Proof.
  intros (Hlk & os & HF & Hl & Ec) Hlim Hcall. unfold observers.
  rewrite Ec, leading_take by done. rewrite (find_slot_ok os) by (done || lia).
  eexists. split; [done|]. rewrite length_take. case_decide as Hd; [|lia].
  rewrite Z.min_l by lia. split; [lia|].
  destruct (5 - length os)%nat as [|k] eqn:Ek; [lia|]. simpl replicate.
  rewrite wr_ok by (rewrite length_app; simpl; lia).
  rewrite insert_middle_eq by lia. eexists. split; [done|].
  assert (HF' : Forall (fun c => c <> 0) (os ++ [call])) by (apply Forall_app; split; [done|by repeat constructor]).
  split.
  - split; [done|]. exists (os ++ [call]). rewrite length_app. simpl length. split_and!; [done|lia|].
    simpl ev_call. rewrite <- app_assoc. simpl. by replace (5 - (length os + 1))%nat with k by lia.
  - simpl ev_call. replace (os ++ call :: replicate k 0) with ((os ++ [call]) ++ replicate k 0)
      by by rewrite <- app_assoc. rewrite leading_take by done.
    rewrite !take_ge; [done|lia|rewrite length_app; simpl; lia].
Qed.

(** Registering in a table of events. *)
Lemma register_table (m : mgr) r es e call : events_at m r = Ok (es, e) -> events_ok es ->
  0 <= e < EVENTS_COUNT -> call <> 0 ->
  exists ok es', event_register_internal (S fuel) cpu m r e call = Ok (ok, put_events m r es') /\
    events_ok es' /\ (ok = true <-> Z.of_nat (length (obs_in es e)) < limit_of e) /\
    (forall e', 0 <= e' < EVENTS_COUNT ->
       obs_in es' e' = obs_in es e' ++ (if ok && (e' =? e) then [call] else [])).
Proof.
  intros Ha Hok He Hcall. destruct (events_ok_entry es e Hok He) as (en & Er & El & OK).
  destruct (limit_bounds e He) as (_ & _ & _ & l & Elim & Hl).
  assert (Elof : limit_of e = l) by (unfold limit_of; by rewrite Elim).
  assert (ER : read_entry m r = Ok en) by (unfold read_entry; by rewrite Ha, bind_Ok).
  unfold event_register_internal. rewrite Elim, bind_Ok, ER, bind_Ok.
  pose proof OK as (Elk & _). rewrite Elk. destruct (writelock_idle fuel cpu) as [-> Erl]. rewrite bind_Ok.
  destruct (slot_entry en l call OK Hl Hcall) as (i & Ei & Hi).
  destruct (read_write m r en ER) as (es0 & e0 & E1 & _ & HW). rewrite Ha in E1. injection E1 as <- <-.
  rewrite HW, bind_Ok, Ei, bind_Ok, Erl.
  match goal with |- context [write_entry ?m1 r _] =>
    assert (WW : forall en2, write_entry m1 r en2 = write_entry m r en2) end.
  { intros en2. pose proof (write_write m r en (mk_event (mk_rw_lock (mk_lock 1 cpu) 0) (ev_call en)) en2 ER) as X.
    by rewrite HW, bind_Ok in X. }
  assert (Hobs : obs_in es e = observers l en) by (unfold obs_in; by rewrite El, Elof).
  rewrite Hobs, Elof. assert (Hlt : (Z.to_nat e < length es)%nat) by by eapply lookup_lt_Some.
  case_decide as Hd.
  - destruct Hi as (Hil & calls & Ew & OK' & Eo). rewrite (proj2 (Z.ltb_lt _ _) Hil), Ew, !bind_Ok.
    simpl fst. simpl snd. rewrite WW, HW, bind_Ok. exists true, (<[Z.to_nat e := mk_event rw_idle calls]> es).
    split; [done|]. split; [split; [rewrite length_insert; apply Hok|by apply Forall_insert; [apply Hok|]]|].
    split; [done|]. intros e' He'. unfold obs_in. simpl andb. destruct (Z.eqb_spec e' e) as [->|Hne].
    + rewrite list_lookup_insert_eq by done. by rewrite El, Elof.
    + rewrite list_lookup_insert_ne by lia. by rewrite app_nil_r.
  - rewrite (proj2 (Z.ltb_ge _ _) Hi), !bind_Ok. simpl fst. simpl snd.
    assert (en = mk_event rw_idle (ev_call en)) as Een by (destruct en; simpl in *; by subst).
    rewrite <- Een, WW, (write_same m r en ER), bind_Ok. exists false, es.
    rewrite (put_same m r es e Ha). split; [done|]. split; [done|]. split; [by split|].
    intros e' _. by rewrite app_nil_r.
Qed.
End Register.

Lemma gcpu_scope_all e c : rd events_characteristics e = Ok c -> Z.land c.2 EVENT_GCPU_SCOPE <> 0.
Proof.
  intros [_ Hc%list_elem_of_lookup_2]%rd_inv.
  assert (Forall (fun c : Z * Z => Z.land c.2 EVENT_GCPU_SCOPE <> 0) events_characteristics) as HF.
  { unfold events_characteristics. repeat (apply List.Forall_cons; [by vm_compute|]). apply List.Forall_nil. }
  rewrite Forall_forall in HF. by apply HF.
Qed.

(** Registering a callback for a guest CPU succeeds exactly when the callback and the
    event are valid, the guest CPU is known and the event has a free place; then the
    callback becomes the last observer of this event for this guest CPU, and the observers
    of every other event, guest CPU, guest and of the global level are unchanged. *)
Theorem event_gcpu_register_spec {T} `{KeyTable T} (fuel : nat) (cpu : Z) (m : EVENT_MANAGER T)
  (M : gmap Z Z) (e call : Z) (g : GUEST_CPU) : mgr_ok m M -> 0 <= e ->
  exists ok m', event_gcpu_register (S fuel) cpu m e g call = Ok (ok, m') /\ mgr_ok m' M /\
    (ok = true <-> call <> 0 /\ e < EVENTS_COUNT /\ is_Some (M !! gcpu_key g) /\
                   Z.of_nat (length (gcpu_obs m M g e)) < limit_of e) /\
    (forall g' e', 0 <= e' < EVENTS_COUNT -> gcpu_obs m' M g' e' = gcpu_obs m M g' e' ++
       (if ok && (gcpu_key g' =? gcpu_key g) && (e' =? e) then [call] else [])) /\
    guest_events m' = guest_events m /\ general_event m' = general_event m.
Proof.
  intros OK He.
  assert (Hno : forall P : Prop, (~ P) -> exists ok m', Ok (false, m) = Ok (ok, m') /\ mgr_ok m' M /\
    (ok = true <-> P) /\ (forall g' e', 0 <= e' < EVENTS_COUNT -> gcpu_obs m' M g' e' = gcpu_obs m M g' e' ++
       (if ok && (gcpu_key g' =? gcpu_key g) && (e' =? e) then [call] else [])) /\
    guest_events m' = guest_events m /\ general_event m' = general_event m).
  { intros P HP. exists false, m. split_and!; [done|done| |intros; by rewrite app_nil_r|done|done].
    split; [done|]. by intros X%HP. }
  unfold event_gcpu_register. destruct (Z.eqb_spec call 0) as [->|Hcall]; [apply Hno; tauto|].
  destruct (Z.leb_spec EVENTS_COUNT e) as [|Hlt]; [apply Hno; lia|].
  destruct (limit_bounds e (conj He Hlt)) as (lim & sc & Ec & _). rewrite Ec, bind_Ok.
  rewrite (proj2 (Z.eqb_neq _ 0) (gcpu_scope_all e _ Ec)).
  unfold get_gcpu_observers. rewrite (kt_lookup_law _ _ _ (mo_table _ _ OK)), bind_Ok.
  destruct (M !! gcpu_key g) as [q|] eqn:Eq; [|rewrite bind_Ok; apply Hno; intros (_ & _ & [? [=]] & _)].
  destruct (mo_cpus _ _ OK _ _ Eq) as (Hq & es & Ees & Hes).
  rewrite (proj2 (Z.eqb_neq q 0) Hq), bind_Ok.
  destruct (register_table fuel cpu m (GcpuEntry q e) es e call) as (ok & es' & E & Hes' & Hok & Hobs);
    [simpl; by rewrite Ees|done|done|done|].
  exists ok, (put_events m (GcpuEntry q e) es'). split; [done|]. split; [split; simpl|].
  - apply (mo_table _ _ OK).
  - intros k p Hk. destruct (mo_cpus _ _ OK _ _ Hk) as (Hp & esp & Ep & Hep). split; [done|].
    destruct (decide (p = q)) as [->|]; [exists es'; by rewrite lookup_insert_eq|].
    exists esp. by rewrite lookup_insert_ne.
  - apply (mo_own _ _ OK).
  - apply (mo_guests _ _ OK).
  - apply (mo_global _ _ OK).
  - assert (Hg : gcpu_obs m M g e = obs_in es e) by (unfold gcpu_obs; by rewrite Eq, Ees).
    rewrite Hg, Hok. split_and!; [naive_solver| |done|done].
    intros g' e' He'. unfold gcpu_obs. simpl cpu_events. destruct (Z.eqb_spec (gcpu_key g') (gcpu_key g)) as [Ek|Ek].
    + rewrite Ek, Eq, lookup_insert_eq, Ees, andb_true_r. by apply Hobs.
    + rewrite andb_false_r, app_nil_r. destruct (M !! gcpu_key g') as [p|] eqn:Ep; [|done].
      rewrite lookup_insert_ne; [done|]. intros ->. apply Ek. by eapply (mo_own _ _ OK).
Qed.

(** Adding a guest CPU (at start-up or on EVENT_GCPU_ADD) keeps the manager consistent;
    the new CPU has no observers and every other guest CPU keeps its own.  When the hash
    table cannot take the entry the CPU stays unknown. *)
Theorem event_manager_gcpu_initialize_spec {T} `{KeyTable T} (m : EVENT_MANAGER T) (M : gmap Z Z)
  (g : GUEST_CPU) (p : Z) : mgr_ok m M -> M !! gcpu_key g = None -> Z.of_nat (size M) + 1 < 2 ^ 32 ->
  p <> 0 -> cpu_events m !! p = None ->
  exists m' M', event_manager_gcpu_initialize m g p = Ok m' /\ mgr_ok m' M' /\
    (M' = M \/ M' = <[gcpu_key g := p]> M) /\
    (forall e, 0 <= e < EVENTS_COUNT -> gcpu_obs m' M' g e = []) /\
    (forall g' e, gcpu_key g' <> gcpu_key g -> gcpu_obs m' M' g' e = gcpu_obs m M g' e) /\
    guest_events m' = guest_events m /\ general_event m' = general_event m.
Proof.
  intros OK Hk Hs Hp Hfresh. unfold event_manager_gcpu_initialize.
  destruct (kt_insert_law _ _ _ p (mo_table _ _ OK) Hk Hs) as (ok & t' & -> & Ht). rewrite bind_Ok.
  rewrite (proj2 (Z.eqb_neq p 0) Hp). simpl snd.
  assert (Hne : forall k q, M !! k = Some q -> q <> p).
  { intros k q Hq ->. destruct (mo_cpus _ _ OK _ _ Hq) as (_ & es & E & _). congruence. }
  assert (Hold : forall k q, M !! k = Some q -> q <> 0 /\ exists es,
    <[p := new_events]> (cpu_events m) !! q = Some es /\ events_ok es).
  { intros k q Hq. destruct (mo_cpus _ _ OK _ _ Hq) as (Hq0 & es & E & HE). split; [done|]. exists es.
    rewrite lookup_insert_ne; [done|]. intros X. by apply (Hne k q Hq). }
  exists (mk_mgr t' (<[p := new_events]> (cpu_events m)) (guest_events m) (general_event m)),
    (if ok then <[gcpu_key g := p]> M else M).
  split; [done|]. split; [split; simpl|].
  - done.
  - destruct ok; [|done]. intros k q. destruct (decide (k = gcpu_key g)) as [->|].
    + rewrite lookup_insert_eq. intros [= <-]. split; [done|]. exists new_events.
      rewrite lookup_insert_eq. split; [done|apply new_events_ok].
    + rewrite lookup_insert_ne by done. apply Hold.
  - destruct ok; [|apply (mo_own _ _ OK)]. intros k1 k2 q. rewrite !lookup_insert.
    repeat case_decide; subst; intros X Y; simplify_eq; try done; [by apply Hne in Y|by apply Hne in X|].
    by eapply (mo_own _ _ OK).
  - apply (mo_guests _ _ OK).
  - apply (mo_global _ _ OK).
  - split; [destruct ok; tauto|]. split_and!; [| |done|done].
    + intros e He. unfold gcpu_obs. destruct ok; [rewrite lookup_insert_eq|by rewrite Hk].
      simpl cpu_events. rewrite lookup_insert_eq. unfold obs_in. unfold EVENTS_COUNT in He.
      destruct (new_events !! Z.to_nat e) as [en|] eqn:En; [|done]. apply lookup_replicate in En as [-> _].
      unfold observers. simpl. by destruct (Z.to_nat (limit_of e)).
    + intros g' e Hg. unfold gcpu_obs. simpl cpu_events.
      replace ((if ok then <[gcpu_key g := p]> M else M) !! gcpu_key g') with (M !! gcpu_key g')
        by (destruct ok; [by rewrite lookup_insert_ne|done]).
      destruct (M !! gcpu_key g') as [q|] eqn:Eq; [|done]. rewrite lookup_insert_ne; [done|].
      intros X. by apply (Hne _ _ Eq).
Qed.

(** * An instance *)

(** The hash table of [Hash64.sample_ok], for three CPUs of guest 0; CPU 4 has two
    observers of event 3. *)
#[local] Instance sample_key_table : KeyTable (HASH64_TABLE Z * world Z) := hash64_key_table bump_live.

Definition sample_gcpus : gmap Z Z := {[4 := 40; 6 := 60; 5 := 50]}.
Definition sample_cpu (id : Z) : GUEST_CPU := mk_gcpu 0 id 0.
Definition observed : EVENT_ENTRY := mk_event rw_idle [100; 101; 0; 0; 0].
Definition sample_mgr : EVENT_MANAGER (HASH64_TABLE Z * world Z) :=
  mk_mgr (sample_table [10; 12] 3, sample_world)
    {[40 := <[3%nat := observed]> new_events; 60 := new_events; 50 := new_events]}
    [(0, new_events)] new_events.

Lemma sample_mgr_ok : mgr_ok sample_mgr sample_gcpus.
Proof.
  assert (Hobs : entry_ok observed).
  { split; [done|]. exists [100; 101]. split_and!; [by repeat constructor|simpl; lia|done]. }
  assert (Ho : events_ok (<[3%nat := observed]> new_events)).
  { split; [done|]. apply Forall_insert; [apply new_events_ok|done]. }
  split.
  - split; [apply _|]. exists {[10; 11; 12]}. apply sample_ok.
  - intros k p Hk. unfold sample_gcpus in Hk.
    apply lookup_insert_Some in Hk as [[<- <-]|[_ Hk]]; [split; [done|]; by eexists|].
    apply lookup_insert_Some in Hk as [[<- <-]|[_ Hk]];
      [split; [done|]; exists new_events; split; [done|apply new_events_ok]|].
    apply lookup_singleton_Some in Hk as [<- <-]. split; [done|]. exists new_events. split; [done|apply new_events_ok].
  - intros k1 k2 p H1 H2. unfold sample_gcpus in *. rewrite !lookup_insert_Some, !lookup_singleton_Some in H1, H2. lia.
  - apply List.Forall_cons; [apply new_events_ok|apply List.Forall_nil].
  - apply new_events_ok.
Qed.

(** A callback that logs its address. *)
Definition log_call (c : Z) (_ : option GUEST_CPU) (_ : Z)
  (st : EVENT_MANAGER (HASH64_TABLE Z * world Z) * list Z)
  : outcome (EVENT_MANAGER (HASH64_TABLE Z * world Z) * list Z) := Ok (st.1, st.2 ++ [c]).

Lemma event_raise_spec_witness :
  targets sample_mgr sample_gcpus (Some (sample_cpu 4)) 3 = [100; 101] /\
  event_raise 1 0 log_call (sample_mgr, []) 3 (Some (sample_cpu 4)) 0
    = delivered log_call (targets sample_mgr sample_gcpus (Some (sample_cpu 4)) 3) (Some (sample_cpu 4)) 0
        (sample_mgr, []).
Proof.
  split; [vm_compute; reflexivity|].
  apply (event_raise_spec log_call 0 0 sample_mgr sample_gcpus [] 3 0 (Some (sample_cpu 4)) sample_mgr_ok).
  unfold EVENTS_COUNT. lia.
Defined.

Lemma event_gcpu_register_spec_witness :
  exists ok m', event_gcpu_register 1 0 sample_mgr 3 (sample_cpu 4) 102 = Ok (ok, m') /\ mgr_ok m' sample_gcpus /\
    (ok = true <-> 102 <> 0 /\ 3 < EVENTS_COUNT /\ is_Some (sample_gcpus !! gcpu_key (sample_cpu 4)) /\
                   Z.of_nat (length (gcpu_obs sample_mgr sample_gcpus (sample_cpu 4) 3)) < limit_of 3) /\
    (forall g' e', 0 <= e' < EVENTS_COUNT -> gcpu_obs m' sample_gcpus g' e' = gcpu_obs sample_mgr sample_gcpus g' e' ++
       (if ok && (gcpu_key g' =? gcpu_key (sample_cpu 4)) && (e' =? 3) then [102] else [])) /\
    guest_events m' = guest_events sample_mgr /\ general_event m' = general_event sample_mgr.
Proof. apply (event_gcpu_register_spec 0 0 sample_mgr sample_gcpus 3 102 (sample_cpu 4) sample_mgr_ok). lia. Defined.

Lemma event_manager_gcpu_initialize_spec_witness :
  exists m' M', event_manager_gcpu_initialize sample_mgr (sample_cpu 8) 80 = Ok m' /\ mgr_ok m' M' /\
    (M' = sample_gcpus \/ M' = <[gcpu_key (sample_cpu 8) := 80]> sample_gcpus) /\
    (forall e, 0 <= e < EVENTS_COUNT -> gcpu_obs m' M' (sample_cpu 8) e = []) /\
    (forall g' e, gcpu_key g' <> gcpu_key (sample_cpu 8) -> gcpu_obs m' M' g' e = gcpu_obs sample_mgr sample_gcpus g' e) /\
    guest_events m' = guest_events sample_mgr /\ general_event m' = general_event sample_mgr.
Proof.
  apply (event_manager_gcpu_initialize_spec sample_mgr sample_gcpus (sample_cpu 8) 80 sample_mgr_ok).
  - vm_compute. reflexivity.
  - vm_compute. reflexivity.
  - lia.
  - vm_compute. reflexivity.
Defined.
