(* ===== verification/LocalApic.v ===== *)
(** host/hw/local_apic.c: the mode of a CPU's local APIC, its discovery from
    IA32_APIC_BASE, and the check of a guest's write to that register. *)

From S2P Require Import Prelude VmmDefs.

Inductive LOCAL_APIC_MODE := LOCAL_APIC_DISABLED | LOCAL_APIC_ENABLED | LOCAL_APIC_X2_ENABLED.

#[global] Instance mode_eq_dec : EqDecision LOCAL_APIC_MODE.
Proof. solve_decision. Defined.

(** Which pair of register accessors is installed. *)
Inductive reg_access := mmio_access | msr_access.

Record LOCAL_APIC_PER_CPU_DATA := mk_lapic {
  lapic_base_address_hpa : Z;
  lapic_base_address_hva : Z;
  lapic_mode : LOCAL_APIC_MODE;
  lapic_cpu_id : Z;
  lapic_reg : option reg_access
}.

Definition IA32_APIC_BASE_MSR_BSP : Z := 0x100.
Definition IA32_APIC_BASE_MSR_X2APIC_ENABLE : Z := 0x400.
Definition IA32_APIC_BASE_MSR_GLOBAL_ENABLE : Z := 0x800.

Definition BITMAP_GET (word mask : Z) : Z := Z.land word mask.

(** [value] is the content of IA32_APIC_BASE. *)
Definition local_apic_discover_mode (value : Z) : LOCAL_APIC_MODE :=
  if negb (BITMAP_GET value IA32_APIC_BASE_MSR_X2APIC_ENABLE =? 0) then LOCAL_APIC_X2_ENABLED
  else if negb (BITMAP_GET value IA32_APIC_BASE_MSR_GLOBAL_ENABLE =? 0) then LOCAL_APIC_ENABLED
  else LOCAL_APIC_DISABLED.

Definition lapic_fill_current_mode (value : Z) (d : LOCAL_APIC_PER_CPU_DATA) : LOCAL_APIC_PER_CPU_DATA :=
  let mode := local_apic_discover_mode value in
  mk_lapic (lapic_base_address_hpa d) (lapic_base_address_hva d) mode (lapic_cpu_id d)
    (match mode with
     | LOCAL_APIC_X2_ENABLED => Some msr_access
     | LOCAL_APIC_ENABLED => Some mmio_access
     | LOCAL_APIC_DISABLED => lapic_reg d
     end).

(** [x2apic_supported]: local_apic_is_x2apic_supported (CPUID); [address_size]:
    hw_read_address_size; [current]: the content of IA32_APIC_BASE. The masks are summed in
    64 bits. *)
Definition reserved_bits_mask (x2apic_supported : bool) (address_size : Z) : Z :=
  if x2apic_supported
  then u64 (Z.shiftl 1 9 + 0xff + u64 (Z.lnot (Z.shiftl 1 36 - 1)) + IA32_APIC_BASE_MSR_BSP)
  else u64 (u64 (Z.lnot (u64 (Z.shiftl 1 (u8 address_size)) - 1)) + Z.shiftl 1 9 + 0xff +
            IA32_APIC_BASE_MSR_X2APIC_ENABLE + IA32_APIC_BASE_MSR_BSP).

Definition validate_APIC_BASE_change (x2apic_supported : bool) (address_size current : Z)
  (d : LOCAL_APIC_PER_CPU_DATA) (msr_value : Z) : bool :=
  let mask := reserved_bits_mask x2apic_supported address_size in
  if negb (Z.land current mask =? Z.land msr_value mask) then false
  else if decide (lapic_mode d = LOCAL_APIC_X2_ENABLED) then
    negb ((BITMAP_GET msr_value IA32_APIC_BASE_MSR_X2APIC_ENABLE =? 0) ||
          (BITMAP_GET msr_value IA32_APIC_BASE_MSR_GLOBAL_ENABLE =? 0))
  else if negb (bool_decide (lapic_mode d = LOCAL_APIC_ENABLED)) then false
  else negb (BITMAP_GET msr_value IA32_APIC_BASE_MSR_GLOBAL_ENABLE =? 0).

(** [map hpa hva]: what hmm_map_uc_physical_page leaves in its out parameter. *)
Definition local_apic_setup_changed (map : Z -> Z -> Z) (value : Z) (d : LOCAL_APIC_PER_CPU_DATA)
  : LOCAL_APIC_PER_CPU_DATA :=
  let hpa := ALIGN_BACKWARD value PAGE_4KB_SIZE in
  let d := lapic_fill_current_mode value
             (mk_lapic hpa (lapic_base_address_hva d) (lapic_mode d) (lapic_cpu_id d) (lapic_reg d)) in
  if decide (lapic_mode d = LOCAL_APIC_X2_ENABLED) then d
  else mk_lapic (lapic_base_address_hpa d) (map hpa (lapic_base_address_hva d)) (lapic_mode d)
         (lapic_cpu_id d) (lapic_reg d).

(** * Facts *)

Lemma land_bit_zero v k : 0 <= k -> (Z.land v (2 ^ k) =? 0) = negb (Z.testbit v k).
Proof.
  intros Hk. destruct (Z.testbit v k) eqn:E; simpl.
  - apply Z.eqb_neq. intros C. apply (f_equal (fun w => Z.testbit w k)) in C.
    by rewrite Z.land_spec, Z.pow2_bits_true, E, Z.bits_0 in C by lia.
  - apply Z.eqb_eq, Z.bits_inj'. intros j Hj.
    rewrite Z.land_spec, Z.pow2_bits_eqb, Z.bits_0 by lia.
    destruct (Z.eqb_spec k j) as [<-|]; [by rewrite E|apply andb_false_r].
Qed.

Lemma discover_bits v : local_apic_discover_mode v =
  if Z.testbit v 10 then LOCAL_APIC_X2_ENABLED
  else if Z.testbit v 11 then LOCAL_APIC_ENABLED else LOCAL_APIC_DISABLED.
Proof.
  unfold local_apic_discover_mode, BITMAP_GET, IA32_APIC_BASE_MSR_X2APIC_ENABLE,
    IA32_APIC_BASE_MSR_GLOBAL_ENABLE.
  change 0x400 with (2 ^ 10). change 0x800 with (2 ^ 11).
  rewrite !land_bit_zero by lia. by destruct (Z.testbit v 10), (Z.testbit v 11).
Qed.

(** IA32_APIC_BASE by its bits (SDM vol. 3, 10.4.4 and 10.12.1): bits 0-7 and 9 are reserved, bit 8 is
    BSP, bit 10 EXTD, bit 11 EN, and from bit 12 up to the physical address size lies the address. A write
    must keep what is reserved, BSP, and, where there is no x2APIC, EXTD. With x2APIC the code takes the
    physical address size to be 36 bits. *)
Definition apic_base_kept (x2 : bool) (size k : Z) : bool :=
  (k <? 10) || (negb x2 && (k =? 10)) || ((if x2 then 36 else size) <=? k).

Lemma reserved_mask_range x2 size : 0 <= reserved_bits_mask x2 size < 2 ^ 64.
Proof. unfold reserved_bits_mask. destruct x2; apply u64_range. Qed.

Lemma reserved_mask_bits x2 size k : 12 <= u8 size < 64 -> 0 <= k < 64 ->
  Z.testbit (reserved_bits_mask x2 size) k = apic_base_kept x2 (u8 size) k.
Proof.
  intros Hs Hk. destruct x2.
  - assert (E : forallb (fun j => Bool.eqb (Z.testbit (reserved_bits_mask true 36) j) (apic_base_kept true 36 j)) (seqZ 0 64) = true)
      by (vm_compute; reflexivity).
    rewrite forallb_forall in E. apply Bool.eqb_prop, E, list_elem_of_In, elem_of_seqZ. lia.
  - unfold reserved_bits_mask, apic_base_kept, IA32_APIC_BASE_MSR_X2APIC_ENABLE, IA32_APIC_BASE_MSR_BSP.
    set (n := u8 size) in *.
    assert (2 ^ n = 2 ^ 12 * 2 ^ (n - 12)) as Hn by (rewrite <- Z.pow_add_r by lia; f_equal; lia).
    assert (0 < 2 ^ (n - 12)) by lia. assert (2 ^ n <= 2 ^ 63) by (apply Z.pow_le_mono_r; lia).
    rewrite (Z.shiftl_1_l n), (u64_small (2 ^ n)) by lia.
    assert (u64 (Z.lnot (2 ^ n - 1)) = Z.ones (64 - n) * 2 ^ n) as ->.
    { unfold u64, wrap. rewrite Z.ones_equiv. replace (Z.pred (2 ^ (64 - n)) * 2 ^ n) with (2 ^ 64 - 2 ^ n)
        by (assert (2 ^ 64 = 2 ^ (64 - n) * 2 ^ n) by (rewrite <- Z.pow_add_r by lia; f_equal; lia); nia).
      replace (Z.lnot (2 ^ n - 1)) with ((2 ^ 64 - 2 ^ n) + (-1) * 2 ^ 64) by (unfold Z.lnot; lia).
      rewrite Z.mod_add by lia. apply Z.mod_small. lia. }
    assert (E : Z.ones (64 - n) * 2 ^ n + Z.shiftl 1 9 + 255 + 1024 + 256 = Z.lor (Z.ones (64 - n) * 2 ^ n) (Z.ones 11)).
    { rewrite lor_disjoint by (change (Z.ones 11) with 2047; lia). change (Z.shiftl 1 9) with 512. change (Z.ones 11) with 2047. lia. }
    rewrite E, u64_small.
    + rewrite Z.lor_spec, Z.mul_pow2_bits, !Z.testbit_ones by lia. zcases; lia.
    + rewrite <- E. split; [rewrite Z.ones_equiv; assert (0 < 2 ^ (64 - n)) by (apply Z.pow_pos_nonneg; lia); change (Z.shiftl 1 9) with 512; nia|].
      rewrite Z.ones_equiv. change (Z.shiftl 1 9) with 512.
      assert (2 ^ 64 = 2 ^ (64 - n) * 2 ^ n) by (rewrite <- Z.pow_add_r by lia; f_equal; lia). nia.
Qed.

(** The comparison under the mask compares exactly the kept bits. *)
Lemma reserved_mask_eq x2 size a b : 12 <= u8 size < 64 ->
  (Z.land a (reserved_bits_mask x2 size) =? Z.land b (reserved_bits_mask x2 size)) = true <->
  (forall k, 0 <= k < 64 -> apic_base_kept x2 (u8 size) k = true -> Z.testbit b k = Z.testbit a k).
Proof.
  intros Hs. rewrite Z.eqb_eq. split.
  - intros E k Hk Hr. apply (f_equal (fun w => Z.testbit w k)) in E.
    by rewrite !Z.land_spec, reserved_mask_bits, Hr, !andb_true_r in E.
  - intros Hb. apply Z.bits_inj'. intros k Hk. rewrite !Z.land_spec. destruct (decide (k < 64)).
    + rewrite reserved_mask_bits by lia. destruct (apic_base_kept _ _ _) eqn:E; [|by rewrite !andb_false_r]. by rewrite (Hb k).
    + pose proof (reserved_mask_range x2 size). rewrite (bits_above (reserved_bits_mask x2 size) 64 k) by lia. by rewrite !andb_false_r.
Qed.

(** C38. A guest's write to IA32_APIC_BASE is accepted exactly when it keeps bits 0 to 9, the bits from the
    physical address size on (from bit 36 on with x2APIC) and, without x2APIC, bit 10; when it leaves bit 11
    (global enable) set; when it does not clear bit 10 (x2APIC mode) once set; and when the local APIC was
    enabled before. After local_apic_setup_changed with an accepted value the recorded base is the page of
    the value, and the mode and the installed accessors are those of its bit 10. *)
Theorem validate_APIC_BASE_change_safe (x2 : bool) (size current : Z) (d : LOCAL_APIC_PER_CPU_DATA)
  (v : Z) (map : Z -> Z -> Z) :
  12 <= u8 size < 64 -> 0 <= v < 2 ^ 64 ->
  lapic_mode d = (if Z.testbit current 10 then LOCAL_APIC_X2_ENABLED
                  else if Z.testbit current 11 then LOCAL_APIC_ENABLED else LOCAL_APIC_DISABLED) ->
  (validate_APIC_BASE_change x2 size current d v = true <->
    (forall k, 0 <= k < 64 -> apic_base_kept x2 (u8 size) k = true -> Z.testbit v k = Z.testbit current k) /\
    Z.testbit v 11 = true /\ (Z.testbit current 10 = true -> Z.testbit v 10 = true) /\
    (Z.testbit current 10 = true \/ Z.testbit current 11 = true)) /\
  (validate_APIC_BASE_change x2 size current d v = true ->
    let d' := local_apic_setup_changed map v d in
    lapic_base_address_hpa d' = v / 4096 * 4096 /\
    lapic_mode d' = (if Z.testbit v 10 then LOCAL_APIC_X2_ENABLED else LOCAL_APIC_ENABLED) /\
    lapic_reg d' = Some (if Z.testbit v 10 then msr_access else mmio_access)).
Proof.
  intros Hs Hv Hd.
  assert (Hacc : validate_APIC_BASE_change x2 size current d v = true <->
    (forall k, 0 <= k < 64 -> apic_base_kept x2 (u8 size) k = true -> Z.testbit v k = Z.testbit current k) /\
    Z.testbit v 11 = true /\ (Z.testbit current 10 = true -> Z.testbit v 10 = true) /\
    (Z.testbit current 10 = true \/ Z.testbit current 11 = true)).
  { rewrite <- (reserved_mask_eq x2 size current v Hs). unfold validate_APIC_BASE_change.
    unfold BITMAP_GET, IA32_APIC_BASE_MSR_X2APIC_ENABLE, IA32_APIC_BASE_MSR_GLOBAL_ENABLE.
    change 0x400 with (2 ^ 10). change 0x800 with (2 ^ 11). rewrite !land_bit_zero, Hd by lia.
    destruct (Z.land current _ =? _); cbn [negb]; [|naive_solver].
    destruct (Z.testbit current 10), (Z.testbit current 11), (Z.testbit v 10), (Z.testbit v 11);
      repeat case_decide; repeat case_bool_decide; naive_solver. }
  split; [exact Hacc|]. intros Hok. apply Hacc in Hok as (_ & E11 & _). cbv zeta.
  unfold local_apic_setup_changed, lapic_fill_current_mode. cbn [lapic_mode].
  rewrite discover_bits, E11. pose proof (ALIGN_BACKWARD_page v ltac:(lia)) as EA. change (ALIGN_BACKWARD v 4096) with (ALIGN_BACKWARD v PAGE_4KB_SIZE) in EA.
  replace (v - v mod 4096) with (v / 4096 * 4096) in EA by lia.
  case_decide as C; cbn [lapic_base_address_hpa lapic_mode lapic_reg]; rewrite EA; by destruct (Z.testbit v 10).
Qed.

(** The switch from xAPIC to x2APIC mode on a processor that has it. *)
Lemma validate_APIC_BASE_change_safe_witness :
  let d := mk_lapic 0xFEE00000 0x1000 LOCAL_APIC_ENABLED 0 (Some mmio_access) in
  let d' := local_apic_setup_changed (fun hpa hva => hva) 0xFEE00C00 d in
  validate_APIC_BASE_change true 36 0xFEE00800 d 0xFEE00C00 = true /\ lapic_base_address_hpa d' = 0xFEE00000 /\
  lapic_mode d' = LOCAL_APIC_X2_ENABLED /\ lapic_reg d' = Some msr_access.
Proof.
  intros d d'. split; [reflexivity|].
  apply (validate_APIC_BASE_change_safe true 36 0xFEE00800 d 0xFEE00C00 (fun hpa hva => hva));
    [by vm_compute|lia|reflexivity|reflexivity].
Defined.
