(* ===== verification/VmexitMsr.v ===== *)
(** vmexit/vmexit_msr.c: which model specific registers of a guest cause a VM exit (the MSR
    bitmap), the handlers registered for them, the handling of RDMSR and WRMSR exits, and
    the set-up of a guest; with report_uvmm_event of startup/vmm_extension.c. *)

From S2P Require Import Prelude VmmDefs Mtrr LocalApic.

(** * Data *)

(** RW_ACCESS *)
Definition WRITE_ACCESS : Z := 1.
Definition READ_ACCESS : Z := 2.
Definition READ_WRITE_ACCESS : Z := 3.

Definition MSR_LOW_FIRST : Z := 0.
Definition MSR_LOW_LAST : Z := 0x1FFF.
Definition MSR_HIGH_FIRST : Z := 0xC0000000.
Definition MSR_HIGH_LAST : Z := 0xC0001FFF.

Definition MSR_LOW_RANGE_IN_BITS : Z := (MSR_LOW_LAST - MSR_LOW_FIRST + 1) / 8.
Definition MSR_HIGH_RANGE_IN_BITS : Z := (MSR_HIGH_LAST - MSR_HIGH_FIRST + 1) / 8.
Definition MSR_READ_LOW_OFFSET : Z := 0.
Definition MSR_READ_HIGH_OFFSET : Z := MSR_READ_LOW_OFFSET + MSR_LOW_RANGE_IN_BITS.
Definition MSR_WRITE_LOW_OFFSET : Z := MSR_READ_HIGH_OFFSET + MSR_LOW_RANGE_IN_BITS.
Definition MSR_WRITE_HIGH_OFFSET : Z := MSR_WRITE_LOW_OFFSET + MSR_HIGH_RANGE_IN_BITS.

Definition HYPER_V_MSR_MIN : Z := 0x40000000.
Definition HYPER_V_MSR_MAX : Z := 0x400000F0.

Definition IA32_MSR_APIC_BASE : Z := 0x1B.
Definition IA32_MSR_FEATURE_CONTROL : Z := 0x3A.
Definition IA32_MSR_MISC_ENABLE : Z := 0x1A0.
Definition IA32_MSR_DEBUGCTL : Z := 0x1D9.
Definition IA32_MSR_PERF_GLOBAL_CTRL : Z := 0x38F.
Definition IA32_MSR_EFER : Z := 0xC0000080.
Definition IA32_MSR_VMX_FIRST : Z := 0x480.
Definition IA32_MSR_VMX_LAST : Z := 0x490.

(** The access handlers: those of this file, and those of other components by address. *)
Inductive MSR_ACCESS_HANDLER :=
| msr_unsupported_access_handler_p
| msr_efer_write_handler_p
| msr_efer_read_handler_p
| msr_lapic_base_write_handler_p
| msr_feature_control_read_handler_p
| msr_feature_control_write_handler_p
| msr_misc_enable_write_handler_p
| msr_mtrr_write_handler_p
| other_handler (address : Z).

(** A NULL handler is [None]. *)
Record MSR_VMEXIT_DESCRIPTOR := mk_msrdesc {
  msr_id : Z;
  msr_read_handler : option MSR_ACCESS_HANDLER;
  msr_write_handler : option MSR_ACCESS_HANDLER;
  msr_context : Z
}.

(** The bitmap page, [] when it could not be allocated, and the list of descriptors. *)
Record MSR_VMEXIT_CONTROL := mk_msrctl {
  msr_bitmap : list Z;
  msr_list : list MSR_VMEXIT_DESCRIPTOR
}.

(** * The bitmap *)

(** The byte offset of the bit array of an access in the bitmap and the number of the bit;
    [None] for a number outside both ranges. *)
Definition msr_bit (id access_index : Z) : option (Z * Z) :=
  if id <=? MSR_LOW_LAST then
    Some (if READ_ACCESS =? access_index then MSR_READ_LOW_OFFSET else MSR_WRITE_LOW_OFFSET, id)
  else if (MSR_HIGH_FIRST <=? id) && (id <=? MSR_HIGH_LAST) then
    Some (if READ_ACCESS =? access_index then MSR_READ_HIGH_OFFSET else MSR_WRITE_HIGH_OFFSET,
          id - MSR_HIGH_FIRST)
  else None.

(** The loop over the accesses, [n] of them from [access_index]. *)
Fixpoint bits_config_loop (n : nat) (access_index : Z) (bitmap : list Z) (id access : Z) (set : bool)
  : outcome (VMM_STATUS * list Z) :=
  match n with
  | O => Ok (VMM_OK, bitmap)
  | S n' =>
      if negb (Z.land access_index access =? 0) then
        match msr_bit id access_index with
        | None => Ok (VMM_ERROR, bitmap)
        | Some (offset, bitno) =>
            b ← (if set then BITARRAY_SET bitmap (8 * offset + bitno)
                 else BITARRAY_CLR bitmap (8 * offset + bitno));
            bits_config_loop n' (access_index + 1) b id access set
        end
      else bits_config_loop n' (access_index + 1) bitmap id access set
  end.

Definition msr_vmexit_bits_config (bitmap : list Z) (id access : Z) (set : bool)
  : outcome (VMM_STATUS * list Z) :=
  bits_config_loop 2 WRITE_ACCESS bitmap id access set.

(** * The descriptors *)

Definition msr_descriptor_lookup (l : list MSR_VMEXIT_DESCRIPTOR) (id : Z)
  : option (nat * MSR_VMEXIT_DESCRIPTOR) := list_find (fun d => msr_id d = id) l.

Definition zero_desc : MSR_VMEXIT_DESCRIPTOR := mk_msrdesc 0 None None 0.

(** The stores into a descriptor when a handler is registered. *)
Definition set_handlers (d : MSR_VMEXIT_DESCRIPTOR) (id : Z) (h : MSR_ACCESS_HANDLER) (access context : Z)
  : MSR_VMEXIT_DESCRIPTOR :=
  mk_msrdesc id
    (if negb (Z.land access READ_ACCESS =? 0) then Some h else msr_read_handler d)
    (if negb (Z.land access WRITE_ACCESS =? 0) then Some h else msr_write_handler d)
    context.

Section Registration.
(** The allocator of descriptors: whether vmm_malloc succeeds, and its state. *)
Context {A : Type} (vmm_malloc : A -> bool * A) (vmm_mfree : A -> A).

#[local] Abbreviation state := (MSR_VMEXIT_CONTROL * A)%type.

(** A new descriptor is zeroed and linked in at the head of the list; it stays there when
    the number turns out to be out of range. *)
Definition msr_vmexit_handler_register (st : state) (id : Z) (h : MSR_ACCESS_HANDLER) (access context : Z)
  : outcome (VMM_STATUS * state) :=
  let '(c, a) := st in
  let '(found, l, a) :=
    match msr_descriptor_lookup (msr_list c) id with
    | Some (i, _) => (Some i, msr_list c, a)
    | None =>
        let '(ok, a) := vmm_malloc a in
        if ok then (Some 0%nat, zero_desc :: msr_list c, a) else (None, msr_list c, a)
    end in
  match found with
  | None => Ok (VMM_ERROR, (mk_msrctl (msr_bitmap c) l, a))
  | Some i =>
      r ← msr_vmexit_bits_config (msr_bitmap c) id access true;
      match r.1 with
      | VMM_ERROR => Ok (VMM_ERROR, (mk_msrctl r.2 l, a))
      | VMM_OK =>
          d ← rd l (Z.of_nat i);
          l ← wr l (Z.of_nat i) (set_handlers d id h access context);
          Ok (VMM_OK, (mk_msrctl r.2 l, a))
      end
  end.

(** list_remove and vmm_mfree when no handler is left. *)
Definition msr_vmexit_handler_unregister (st : state) (id access : Z) : outcome (VMM_STATUS * state) :=
  let '(c, a) := st in
  match msr_descriptor_lookup (msr_list c) id with
  | None => Ok (VMM_ERROR, st)
  | Some (i, d) =>
      r ← msr_vmexit_bits_config (msr_bitmap c) id access false;
      let d := mk_msrdesc (msr_id d)
                 (if negb (Z.land access READ_ACCESS =? 0) then None else msr_read_handler d)
                 (if negb (Z.land access WRITE_ACCESS =? 0) then None else msr_write_handler d)
                 (msr_context d) in
      match msr_write_handler d, msr_read_handler d with
      | None, None => Ok (VMM_OK, (mk_msrctl r.2 (delete i (msr_list c)), vmm_mfree a))
      | _, _ => Ok (VMM_OK, (mk_msrctl r.2 (<[i := d]> (msr_list c)), a))
      end
  end.

Definition msr_guest_access_inhibit (st : state) (id : Z) : outcome (VMM_STATUS * state) :=
  msr_vmexit_handler_register st id msr_unsupported_access_handler_p READ_WRITE_ACCESS 0.

(** Consecutive registrations whose status is ignored. *)
Fixpoint register_calls (calls : list (Z * MSR_ACCESS_HANDLER * Z)) (st : state) : outcome state :=
  match calls with
  | [] => Ok st
  | (id, h, access) :: calls' =>
      r ← msr_vmexit_handler_register st id h access 0;
      register_calls calls' r.2
  end.

(** [vcnt]: mtrrs_abstraction_get_num_of_variable_range_regs. *)
Definition mtrr_calls (vcnt : Z) : list (Z * MSR_ACCESS_HANDLER * Z) :=
  ((fun id => (id, msr_mtrr_write_handler_p, WRITE_ACCESS)) <$>
     IA32_MTRRCAP_ADDR :: IA32_MTRR_DEF_TYPE_ADDR :: fixed_msrs) ++
  concat ((fun i => [(IA32_MTRR_PHYSBASE0_ADDR + 2 * i, msr_mtrr_write_handler_p, WRITE_ACCESS);
                     (IA32_MTRR_PHYSBASE0_ADDR + 2 * i + 1, msr_mtrr_write_handler_p, WRITE_ACCESS)])
            <$> seqZ 0 vcnt).

Definition msr_vmexit_register_mtrr_accesses_handler (vcnt : Z) (st : state) : outcome state :=
  register_calls (mtrr_calls vcnt) st.

(** The registrations that msr_vmexit_guest_setup makes itself. *)
Definition guest_calls (unrestricted : bool) : list (Z * MSR_ACCESS_HANDLER * Z) :=
  (if unrestricted then []
   else [(IA32_MSR_EFER, msr_efer_write_handler_p, WRITE_ACCESS);
         (IA32_MSR_EFER, msr_efer_read_handler_p, READ_ACCESS)]) ++
  [(IA32_MSR_APIC_BASE, msr_lapic_base_write_handler_p, WRITE_ACCESS);
   (IA32_MSR_FEATURE_CONTROL, msr_feature_control_read_handler_p, READ_ACCESS);
   (IA32_MSR_FEATURE_CONTROL, msr_feature_control_write_handler_p, WRITE_ACCESS);
   (IA32_MSR_MISC_ENABLE, msr_misc_enable_write_handler_p, WRITE_ACCESS)].

(** [bitmap]: the page from vmm_memory_alloc. The installation of the two exit handlers in
    the dispatch table of vmexit.c is not part of this state. *)
Definition msr_vmexit_guest_setup (unrestricted : bool) (vcnt : Z) (bitmap : list Z) (st : state)
  : outcome state :=
  let st := (mk_msrctl bitmap (msr_list st.1), st.2) in
  st ← for_range IA32_MSR_VMX_FIRST (IA32_MSR_VMX_LAST + 1)
         (fun id st => r ← msr_guest_access_inhibit st id; Ok r.2) st;
  st ← register_calls (guest_calls unrestricted) st;
  msr_vmexit_register_mtrr_accesses_handler vcnt st.

(** vmexit_register_unregister_for_efer: the interface of the unrestricted-guest code. *)
Definition vmexit_register_unregister_for_efer (unrestricted : bool) (st : state) (id access : Z)
  (reg_dereg : bool) : outcome (bool * state) :=
  if negb unrestricted then Ok (false, st)
  else if (id =? IA32_MSR_EFER) && reg_dereg then
    r ← msr_vmexit_handler_register st IA32_MSR_EFER
          (if access =? WRITE_ACCESS then msr_efer_write_handler_p else msr_efer_read_handler_p)
          (if access =? WRITE_ACCESS then WRITE_ACCESS else READ_ACCESS) 0;
    Ok (true, r.2)
  else if (id =? IA32_MSR_EFER) && negb reg_dereg then
    r ← msr_vmexit_handler_unregister st id access;
    Ok (true, r.2)
  else Ok (false, st).
End Registration.

(** * Exits *)

(** startup/vmm_extension.c: the answer of the default extension to each event. *)
Inductive UVMM_EVENT :=
| UVMM_EVENT_INITIALIZATION_BEFORE_APS_STARTED | UVMM_EVENT_INITIALIZATION_AFTER_APS_STARTED
| UVMM_EVENT_EPT_VIOLATION | UVMM_EVENT_MTF_VMEXIT | UVMM_EVENT_CR_ACCESS
| UVMM_EVENT_DR_LOAD_ACCESS | UVMM_EVENT_LDTR_LOAD_ACCESS | UVMM_EVENT_GDTR_IDTR_ACCESS
| UVMM_EVENT_MSR_READ_ACCESS | UVMM_EVENT_MSR_WRITE_ACCESS | UVMM_EVENT_SET_ACTIVE_EPTP
| UVMM_EVENT_INITIAL_VMEXIT_CHECK | UVMM_EVENT_SINGLE_STEPPING_CHECK
| UVMM_EVENT_VMM_TEARDOWN | UVMM_EVENT_INVALID_FAST_VIEW_SWITCH
| UVMM_EVENT_VMX_PREEMPTION_TIMER | UVMM_EVENT_HALT_INSTRUCTION | UVMM_EVENT_IO_INSTRUCTION
| UVMM_EVENT_NMI | UVMM_EVENT_LOG | UVMM_EVENT_UPDATE_ACTIVE_VIEW | UVMM_EVENT_VMM_ASSERT
| UVMM_EVENT_MAX_COUNT.

Definition report_uvmm_event (event : UVMM_EVENT) : bool :=
  match event with
  | UVMM_EVENT_CR_ACCESS | UVMM_EVENT_INITIAL_VMEXIT_CHECK => false
  | _ => true
  end.

Inductive VMCS_FIELD :=
| VMCS_GUEST_SYSENTER_CS | VMCS_GUEST_SYSENTER_ESP | VMCS_GUEST_SYSENTER_EIP
| VMCS_GUEST_DEBUG_CONTROL | VMCS_GUEST_IA32_PERF_GLOBAL_CTRL
| VMCS_GUEST_FS_BASE | VMCS_GUEST_GS_BASE
| VMCS_ENTER_CONTROL_VECTOR | VMCS_EXIT_INFO_INSTRUCTION_LENGTH.

#[global] Instance field_eq_dec : EqDecision VMCS_FIELD.
Proof. solve_decision. Defined.

Definition vmcs_resident_guest_msrs : list (Z * VMCS_FIELD) :=
  [(0x174, VMCS_GUEST_SYSENTER_CS); (0x175, VMCS_GUEST_SYSENTER_ESP);
   (0x176, VMCS_GUEST_SYSENTER_EIP); (IA32_MSR_DEBUGCTL, VMCS_GUEST_DEBUG_CONTROL);
   (IA32_MSR_PERF_GLOBAL_CTRL, VMCS_GUEST_IA32_PERF_GLOBAL_CTRL);
   (0xC0000100, VMCS_GUEST_FS_BASE); (0xC0000101, VMCS_GUEST_GS_BASE)].

(** What an exit asks of other components, in order. *)
Inductive msr_event := EVENT_GCPU_AFTER_EFER_MSR_WRITE | EVENT_GCPU_AFTER_MTRR_MSR_WRITE.
Inductive msr_action :=
| InjectGp0
| InjectException (vector error_code instruction_length : Z)
| SkipInstruction
| RaiseEvent (e : msr_event) (id new_guest_visible_value : Z).

(** The guest CPU, the registers of the processor it runs on, and the actions so far. *)
Record gcpu := mk_gcpu {
  rcx : Z; rdx : Z; rax : Z;
  guest_efer : Z;
  vmcs : VMCS_FIELD -> Z;
  hw_msrs : Z -> Z;
  mtrrs : mtrr_info;
  lapic : LOCAL_APIC_PER_CPU_DATA;
  actions : list msr_action
}.

Definition act (a : msr_action) (g : gcpu) : gcpu :=
  mk_gcpu (rcx g) (rdx g) (rax g) (guest_efer g) (vmcs g) (hw_msrs g) (mtrrs g) (lapic g)
    (actions g ++ [a]).
Definition set_value_regs (d a : Z) (g : gcpu) : gcpu :=
  mk_gcpu (rcx g) d a (guest_efer g) (vmcs g) (hw_msrs g) (mtrrs g) (lapic g) (actions g).
Definition set_efer (v : Z) (g : gcpu) : gcpu :=
  mk_gcpu (rcx g) (rdx g) (rax g) v (vmcs g) (hw_msrs g) (mtrrs g) (lapic g) (actions g).
(** The width of a field, from bits 14:13 of its encoding: what the next exit reads of a value that was
    written is cut to it. *)
Definition field_width (f : VMCS_FIELD) : Z :=
  match f with
  | VMCS_GUEST_SYSENTER_CS | VMCS_ENTER_CONTROL_VECTOR | VMCS_EXIT_INFO_INSTRUCTION_LENGTH => 32
  | _ => 64
  end.
Definition vmcs_write (f : VMCS_FIELD) (v : Z) (g : gcpu) : gcpu :=
  mk_gcpu (rcx g) (rdx g) (rax g) (guest_efer g) (fun f' => if decide (f' = f) then v mod 2 ^ field_width f else vmcs g f')
    (hw_msrs g) (mtrrs g) (lapic g) (actions g).
Definition set_msr (id v : Z) (g : gcpu) : gcpu :=
  mk_gcpu (rcx g) (rdx g) (rax g) (guest_efer g) (vmcs g)
    (fun i => if i =? id then v else hw_msrs g i) (mtrrs g) (lapic g) (actions g).
Definition set_mtrrs (m : mtrr_info) (g : gcpu) : gcpu :=
  mk_gcpu (rcx g) (rdx g) (rax g) (guest_efer g) (vmcs g) (hw_msrs g) m (lapic g) (actions g).
Definition set_lapic (l : LOCAL_APIC_PER_CPU_DATA) (g : gcpu) : gcpu :=
  mk_gcpu (rcx g) (rdx g) (rax g) (guest_efer g) (vmcs g) (hw_msrs g) (mtrrs g) l (actions g).

Section Exit.
(** The processor: the vector and error code of the exception that RDMSR of a register, or
    WRMSR of a value to it, raises; CPUID; the VMCS fields it has. *)
Context (rdmsr_fault : Z -> option (Z * Z)) (wrmsr_fault : Z -> Z -> option (Z * Z)).
Context (x2apic_supported : bool) (address_size : Z) (vmcs_field_is_supported : VMCS_FIELD -> bool).
(** hmm_map_uc_physical_page, and the handlers of other components. *)
Context (map_uc : Z -> Z -> Z) (other : Z -> Z -> Z -> Z -> gcpu -> outcome (bool * Z * gcpu)).

(** An exception in the hypervisor itself is a [Fault]. *)
Definition hw_write_msr (id v : Z) (g : gcpu) : outcome gcpu :=
  match wrmsr_fault id v with
  | Some _ => Fault
  | None => Ok (set_msr id v g)
  end.

(** hw_utils.c: under TRY, an exception is caught and its vector and error code returned. *)
Definition hw_wrmsr_safe (id v : Z) (g : gcpu) : option (Z * Z) * gcpu :=
  match wrmsr_fault id v with
  | Some e => (Some e, g)
  | None => (None, set_msr id v g)
  end.
Definition hw_rdmsr_safe (id v : Z) (g : gcpu) : option (Z * Z) * Z :=
  match rdmsr_fault id with
  | Some e => (Some e, v)
  | None => (None, hw_msrs g id)
  end.

(** The handlers return whether the instruction was executed, and the value. *)
Definition msr_unsupported_access_handler (id value : Z) (g : gcpu) : outcome (bool * Z * gcpu) :=
  if negb (report_uvmm_event UVMM_EVENT_MSR_WRITE_ACCESS) then Ok (false, value, g)
  else Ok (false, value, act InjectGp0 g).

(** The check of EFER.LME against CR4.PAE has no effect in this build. *)
Definition msr_efer_write_handler (id value : Z) (g : gcpu) : outcome (bool * Z * gcpu) :=
  if negb (report_uvmm_event UVMM_EVENT_MSR_WRITE_ACCESS) then Ok (false, value, g)
  else Ok (true, value, act (RaiseEvent EVENT_GCPU_AFTER_EFER_MSR_WRITE id value) (set_efer value g)).

Definition msr_efer_read_handler (id value : Z) (g : gcpu) : outcome (bool * Z * gcpu) :=
  Ok (true, guest_efer g, g).

Definition msr_mtrr_write_handler (id value : Z) (g : gcpu) : outcome (bool * Z * gcpu) :=
  if negb (report_uvmm_event UVMM_EVENT_MSR_WRITE_ACCESS) then Ok (false, value, g)
  else
    g ← hw_write_msr id value g;
    r ← mtrrs_abstraction_track_mtrr_update (mtrrs g) id value;
    Ok (true, value, act (RaiseEvent EVENT_GCPU_AFTER_MTRR_MSR_WRITE id value) (set_mtrrs r.2 g)).

Definition msr_lapic_base_write_handler (id value : Z) (g : gcpu) : outcome (bool * Z * gcpu) :=
  if negb (report_uvmm_event UVMM_EVENT_MSR_WRITE_ACCESS) then Ok (false, value, g)
  else if negb (validate_APIC_BASE_change x2apic_supported address_size
                  (hw_msrs g IA32_MSR_APIC_BASE) (lapic g) value)
  then Ok (false, value, act InjectGp0 g)
  else
    g ← hw_write_msr IA32_MSR_APIC_BASE value g;
    Ok (true, value, set_lapic (local_apic_setup_changed map_uc (hw_msrs g IA32_MSR_APIC_BASE) (lapic g)) g).

Definition msr_feature_control_read_handler (id value : Z) (g : gcpu) : outcome (bool * Z * gcpu) :=
  Ok (true, value, act InjectGp0 g).
Definition msr_feature_control_write_handler (id value : Z) (g : gcpu) : outcome (bool * Z * gcpu) :=
  Ok (true, value, act InjectGp0 g).

(** Bit 22 (limit CPUID MAXVAL) is cleared. *)
Definition msr_misc_enable_write_handler (id value : Z) (g : gcpu) : outcome (bool * Z * gcpu) :=
  if negb (report_uvmm_event UVMM_EVENT_MSR_WRITE_ACCESS) then Ok (false, value, g)
  else
    let value := Z.land value (u64 (Z.lnot (Z.shiftl 1 22))) in
    g ← hw_write_msr IA32_MSR_MISC_ENABLE value g;
    Ok (true, value, g).

Definition call_handler (h : MSR_ACCESS_HANDLER) (id value context : Z) (g : gcpu)
  : outcome (bool * Z * gcpu) :=
  match h with
  | msr_unsupported_access_handler_p => msr_unsupported_access_handler id value g
  | msr_efer_write_handler_p => msr_efer_write_handler id value g
  | msr_efer_read_handler_p => msr_efer_read_handler id value g
  | msr_lapic_base_write_handler_p => msr_lapic_base_write_handler id value g
  | msr_feature_control_read_handler_p => msr_feature_control_read_handler id value g
  | msr_feature_control_write_handler_p => msr_feature_control_write_handler id value g
  | msr_misc_enable_write_handler_p => msr_misc_enable_write_handler id value g
  | msr_mtrr_write_handler_p => msr_mtrr_write_handler id value g
  | other_handler address => other address context id value g
  end.

(** LoadDebugControls and Load_IA32_PERF_GLOBAL_CTRL are bits 2 and 13 of the VM-entry
    controls. *)
Definition msr_vmcs_resident_default_handler (id access value : Z) (g : gcpu) : bool * Z * gcpu :=
  let controls := u32 (vmcs g VMCS_ENTER_CONTROL_VECTOR) in
  match list_find (fun e => e.1 = id) vmcs_resident_guest_msrs with
  | None => (false, value, g)
  | Some (_, (_, f)) =>
      let found :=
        if id =? IA32_MSR_DEBUGCTL then Z.testbit controls 2
        else if id =? IA32_MSR_PERF_GLOBAL_CTRL then Z.testbit controls 13 && vmcs_field_is_supported f
        else true in
      if found then
        if access =? READ_ACCESS then (true, vmcs g f, g)
        else if access =? WRITE_ACCESS then (true, value, vmcs_write f value g)
        else (true, value, g)
      else (false, value, g)
  end.

Definition msr_trial_access (id access value : Z) (g : gcpu) : bool * Z * gcpu :=
  let fault e g := act (InjectException e.1 e.2 (u16 (vmcs g VMCS_EXIT_INFO_INSTRUCTION_LENGTH))) g in
  if access =? READ_ACCESS then
    match hw_rdmsr_safe id value g with
    | (Some e, v) => (false, v, fault e g)
    | (None, v) => (true, v, g)
    end
  else if access =? WRITE_ACCESS then
    match hw_wrmsr_safe id value g with
    | (Some e, g) => (false, value, fault e g)
    | (None, g) => (true, value, g)
    end
  else (false, value, g).

Definition msr_common_vmexit_handler (c : MSR_VMEXIT_CONTROL) (access value : Z) (g : gcpu)
  : outcome (bool * Z * gcpu) :=
  let id := u32 (rcx g) in
  let desc := snd <$> msr_descriptor_lookup (msr_list c) id in
  let handler :=
    match desc with
    | None => None
    | Some d =>
        if negb (Z.land access WRITE_ACCESS =? 0) then msr_write_handler d
        else if negb (Z.land access READ_ACCESS =? 0) then msr_read_handler d else None
    end in
  r ← (match handler return outcome (bool * Z * gcpu) with
       | None =>
           let '(found, v, g') := msr_vmcs_resident_default_handler id access value g in
           if found then Ok (true, v, g') else Ok (msr_trial_access id access v g')
       | Some h => call_handler h id value (default 0 (msr_context <$> desc)) g
       end);
  let '(executed, v, g) := r in
  Ok (executed, v, (if executed : bool then act SkipInstruction g else g)).

Definition LOW_BITS_32_MASK : Z := 0xFFFFFFFF.

Definition vmexit_msr_read (c : MSR_VMEXIT_CONTROL) (g : gcpu) : outcome gcpu :=
  let id := u32 (rcx g) in
  if (HYPER_V_MSR_MIN <=? id) && (id <=? HYPER_V_MSR_MAX) then Ok (act InjectGp0 g)
  else
    r ← msr_common_vmexit_handler c READ_ACCESS 0 g;
    let '(executed, v, g) := r in
    Ok (if executed : bool then set_value_regs (Z.shiftr v 32) (Z.land v LOW_BITS_32_MASK) g else g).

Definition vmexit_msr_write (c : MSR_VMEXIT_CONTROL) (g : gcpu) : outcome gcpu :=
  let id := u32 (rcx g) in
  if (HYPER_V_MSR_MIN <=? id) && (id <=? HYPER_V_MSR_MAX) then Ok (act InjectGp0 g)
  else
    let value := Z.lor (u64 (Z.shiftl (rdx g) 32)) (Z.land (rax g) LOW_BITS_32_MASK) in
    r ← msr_common_vmexit_handler c WRITE_ACCESS value g;
    Ok r.2.
End Exit.
