(* ===== verification/VmexitMsrSpec.v ===== *)
(** The MSR bitmap as the processor reads it, the descriptors of vmexit/vmexit_msr.c as a
    map, and the properties of the registration, of the guest set-up and of the exits. *)

From S2P Require Import Prelude VmmDefs Mtrr LocalApic VmexitMsr.

(** * The bitmap as the processor reads it *)

(** The bit of the MSR bitmap that the processor manual assigns to an access of a register:
    four arrays of 8192 bits, read low, read high, write low, write high. *)
Definition manual_bit (access id : Z) : option Z :=
  if (0 <=? id) && (id <? 8192) then Some ((if access =? READ_ACCESS then 0 else 16384) + id)
  else if (0xC0000000 <=? id) && (id <? 0xC0000000 + 8192)
  then Some ((if access =? READ_ACCESS then 8192 else 24576) + (id - 0xC0000000))
  else None.

Definition managed (id : Z) : Prop := 0 <= id < 8192 \/ 0xC0000000 <= id < 0xC0000000 + 8192.
#[global] Instance managed_dec id : Decision (managed id).
Proof. unfold managed. apply _. Defined.

(** Whether an access exits; one outside both ranges always does. *)
Definition intercepted (b : list Z) (access id : Z) : bool :=
  match manual_bit access id with
  | Some p => bit_of b p
  | None => true
  end.

Definition one_access (access : Z) : Prop := access = WRITE_ACCESS \/ access = READ_ACCESS.

Lemma msr_bit_manual id access : 0 <= id ->
  manual_bit access id = (fun p => 8 * p.1 + p.2) <$> msr_bit id access.
Proof.
  intros H0. unfold manual_bit, msr_bit, MSR_LOW_LAST, MSR_HIGH_FIRST, MSR_HIGH_LAST.
  rewrite (Z.eqb_sym READ_ACCESS).
  destruct (access =? READ_ACCESS); zcases; try done; f_equal; simpl; try lia;
    unfold MSR_READ_HIGH_OFFSET, MSR_WRITE_LOW_OFFSET, MSR_WRITE_HIGH_OFFSET,
      MSR_LOW_RANGE_IN_BITS, MSR_HIGH_RANGE_IN_BITS, MSR_READ_HIGH_OFFSET, MSR_READ_LOW_OFFSET,
      MSR_LOW_LAST, MSR_LOW_FIRST, MSR_HIGH_LAST, MSR_HIGH_FIRST; simpl; lia.
Qed.

Lemma manual_bit_managed access id : managed id <-> exists p, manual_bit access id = Some p.
Proof.
  unfold manual_bit, managed. split.
  - intros H. zcases; eauto; lia.
  - intros [p Hp]. zcases; done || lia.
Qed.

Lemma manual_bit_bound access id p : manual_bit access id = Some p -> 0 <= p < 32768.
Proof. unfold manual_bit. intros H. destruct (access =? READ_ACCESS); zcases; simplify_eq; lia. Qed.

Lemma manual_bit_inj a a' id id' p : one_access a -> one_access a' ->
  manual_bit a id = Some p -> manual_bit a' id' = Some p -> a = a' /\ id = id'.
Proof.
  unfold manual_bit, one_access, WRITE_ACCESS, READ_ACCESS. intros [-> | ->] [-> | ->] H H';
    simpl in *; zcases; simplify_eq; lia.
Qed.

(** One pass of the loop changes the bit of its access only. *)
Lemma config_bit b a id (set : bool) : length b = 4096%nat -> one_access a -> managed id -> 0 <= id ->
  exists off bitno b', msr_bit id a = Some (off, bitno) /\
    (if set then BITARRAY_SET b (8 * off + bitno) else BITARRAY_CLR b (8 * off + bitno)) = Ok b' /\
    length b' = 4096%nat /\
    forall a' id', one_access a' -> intercepted b' a' id' =
      if bool_decide (a' = a /\ id' = id) then set else intercepted b a' id'.
Proof.
  intros Hl Ha Hm H0. apply (manual_bit_managed a) in Hm as [p Hp].
  pose proof (msr_bit_manual id a H0) as Hb. rewrite Hp in Hb.
  destruct (msr_bit id a) as [[off bitno]|] eqn:E; [simpl in Hb|done].
  injection Hb as Hb. pose proof (manual_bit_bound _ _ _ Hp) as Hbd.
  exists off, bitno. rewrite <- Hb.
  assert (exists b', (if set then BITARRAY_SET b p else BITARRAY_CLR b p) = Ok b' /\
      length b' = length b /\ forall j, bit_of b' j = if j =? p then set else bit_of b j)
    as (b' & -> & Hl' & Hbits).
  { destruct set; [destruct (BITARRAY_SET_spec b p) as (b' & ? & ? & _ & ?)
                  |destruct (BITARRAY_CLR_spec b p) as (b' & ? & ? & _ & ?)];
      try (rewrite Hl; lia); by exists b'. }
  exists b'. split_and!; [done|done|congruence|]. intros a' id' Ha'. unfold intercepted.
  destruct (manual_bit a' id') as [q|] eqn:Eq.
  - rewrite Hbits. destruct (Z.eqb_spec q p) as [->|Hne].
    + destruct (manual_bit_inj a' a id' id p) as [-> ->]; try done. by rewrite bool_decide_true.
    + rewrite bool_decide_false; [done|]. intros [-> ->]. congruence.
  - rewrite bool_decide_false; [done|]. intros [-> ->]. congruence.
Qed.

Lemma bits_config_managed b id access (set : bool) :
  length b = 4096%nat -> managed id -> 0 <= id -> 1 <= access <= 3 ->
  exists b', msr_vmexit_bits_config b id access set = Ok (VMM_OK, b') /\ length b' = 4096%nat /\
    forall a id', one_access a -> intercepted b' a id' =
      if bool_decide (id' = id /\ Z.land a access <> 0) then set else intercepted b a id'.
Proof.
  intros Hl Hm H0 Ha. unfold msr_vmexit_bits_config. cbn [bits_config_loop].
  destruct (config_bit b WRITE_ACCESS id set Hl ltac:(by left) Hm H0)
    as (off1 & bit1 & b1 & M1 & E1 & L1 & I1).
  destruct (config_bit b READ_ACCESS id set Hl ltac:(by right) Hm H0)
    as (off2 & bit2 & b2 & M2 & E2 & L2 & I2).
  destruct (config_bit b1 READ_ACCESS id set L1 ltac:(by right) Hm H0)
    as (off3 & bit3 & b3 & M3 & E3 & L3 & I3).
  change (WRITE_ACCESS + 1) with READ_ACCESS.
  assert (access = 1 \/ access = 2 \/ access = 3) as [-> | [-> | ->]] by lia; simpl negb; cbv iota.
  - rewrite M1, E1, bind_Ok. exists b1. split_and!; [done|done|]. intros a id' Hoa. rewrite (I1 a id' Hoa).
    destruct Hoa as [-> | ->]; clear; repeat case_bool_decide; naive_solver.
  - rewrite M2, E2, bind_Ok. exists b2. split_and!; [done|done|]. intros a id' Hoa. rewrite (I2 a id' Hoa).
    destruct Hoa as [-> | ->]; clear; repeat case_bool_decide; naive_solver.
  - rewrite M1, E1, bind_Ok, M3, E3, bind_Ok. exists b3. split_and!; [done|done|].
    intros a id' Hoa. rewrite (I3 a id' Hoa), (I1 a id' Hoa).
    destruct Hoa as [-> | ->]; clear; repeat case_bool_decide; naive_solver.
Qed.

Lemma bits_config_bad b id access (set : bool) : ~ managed id -> 0 <= id -> 1 <= access <= 3 ->
  msr_vmexit_bits_config b id access set = Ok (VMM_ERROR, b).
Proof.
  intros Hm H0 Ha. unfold msr_vmexit_bits_config.
  assert (forall a, msr_bit id a = None) as Hnone.
  { intros a. pose proof (msr_bit_manual id a H0) as Hb.
    destruct (msr_bit id a) as [q|]; [|done]. exfalso. apply Hm. apply (manual_bit_managed a). by eexists. }
  cbn [bits_config_loop]. rewrite !Hnone.
  assert (access = 1 \/ access = 2 \/ access = 3) as [-> | [-> | ->]] by lia; done.
Qed.

(** * The descriptors as a map *)

(** The read handler, the write handler and the context of a register. *)
Definition triple (d : MSR_VMEXIT_DESCRIPTOR) := (msr_read_handler d, msr_write_handler d, msr_context d).

Definition handlers (l : list MSR_VMEXIT_DESCRIPTOR) (id : Z)
  : option (option MSR_ACCESS_HANDLER * option MSR_ACCESS_HANDLER * Z) :=
  (fun p => triple p.2) <$> msr_descriptor_lookup l id.

(** The handler of one access. *)
Definition handler_for (l : list MSR_VMEXIT_DESCRIPTOR) (access id : Z) : option MSR_ACCESS_HANDLER :=
  match handlers l id with
  | None => None
  | Some (r, w, _) => if access =? READ_ACCESS then r else w
  end.

(** A control is consistent when it has one descriptor per register and an access exits
    exactly when it has a handler. *)
Definition ctl_ok (c : MSR_VMEXIT_CONTROL) : Prop :=
  length (msr_bitmap c) = 4096%nat /\ NoDup (msr_id <$> msr_list c) /\
  forall access id, one_access access -> managed id ->
    (intercepted (msr_bitmap c) access id = true <-> is_Some (handler_for (msr_list c) access id)).

Lemma handlers_cons d l x : handlers (d :: l) x =
  if decide (msr_id d = x) then Some (triple d) else handlers l x.
Proof.
  unfold handlers, msr_descriptor_lookup. simpl. case_decide; [done|].
  by destruct (list_find _ l) as [[i d']|].
Qed.

Lemma handlers_app l1 l2 x : handlers (l1 ++ l2) x =
  match handlers l1 x with Some t => Some t | None => handlers l2 x end.
Proof.
  induction l1 as [|d l1 IH]; [done|]. rewrite <- app_comm_cons, !handlers_cons, IH. by case_decide.
Qed.

Lemma handlers_none l x : x ∉ (msr_id <$> l) -> handlers l x = None.
Proof.
  induction l as [|d l IH]; [done|]. rewrite fmap_cons, not_elem_of_cons, handlers_cons.
  intros [? ?]. rewrite decide_False by congruence. by apply IH.
Qed.

(** The found descriptor splits the list; no other descriptor has the number. *)
Lemma lookup_split l x i d : NoDup (msr_id <$> l) -> msr_descriptor_lookup l x = Some (i, d) ->
  exists l1 l2, l = l1 ++ d :: l2 /\ length l1 = i /\ msr_id d = x /\
    x ∉ (msr_id <$> l1) /\ x ∉ (msr_id <$> l2).
Proof.
  intros Hnd (Hi & Hx & _)%list_find_Some. subst x.
  exists (take i l), (drop (S i) l). rewrite take_drop_middle by done.
  assert (i < length l)%nat by (by eapply lookup_lt_Some).
  rewrite <- (take_drop_middle l i d Hi), fmap_app, fmap_cons in Hnd.
  apply NoDup_app in Hnd as (_ & Hdis & Hnd). apply NoDup_cons in Hnd as [Hn2 _].
  split_and!; [done|rewrite length_take; lia|done| |done].
  intros Hin. apply (Hdis _ Hin). set_solver.
Qed.

Lemma handlers_replace l1 l2 d d' x : msr_id d' = msr_id d ->
  msr_id d ∉ (msr_id <$> l1) ->
  handlers (l1 ++ d' :: l2) x =
    if decide (x = msr_id d) then Some (triple d') else handlers (l1 ++ d :: l2) x.
Proof.
  intros Hid H1. rewrite !handlers_app, !handlers_cons, Hid.
  destruct (decide (x = msr_id d)) as [->|].
  - by rewrite (handlers_none l1), decide_True by done.
  - destruct (handlers l1 x); [done|]. by repeat case_decide.
Qed.

Lemma handlers_remove l1 l2 d x : msr_id d ∉ (msr_id <$> l1) -> msr_id d ∉ (msr_id <$> l2) ->
  handlers (l1 ++ l2) x = if decide (x = msr_id d) then None else handlers (l1 ++ d :: l2) x.
Proof.
  intros H1 H2. rewrite !handlers_app, handlers_cons. destruct (decide (x = msr_id d)) as [->|].
  - by rewrite !handlers_none.
  - destruct (handlers l1 x); [done|]. by repeat case_decide.
Qed.

Lemma handlers_lookup_none l x : handlers l x = None <-> msr_descriptor_lookup l x = None.
Proof. unfold handlers. apply fmap_None. Qed.

Lemma lookup_none_ids l x : msr_descriptor_lookup l x = None -> x ∉ (msr_id <$> l).
Proof.
  intros H%list_find_None (d & -> & Hd)%list_elem_of_fmap.
  by apply (proj1 (Forall_forall _ _) H d Hd).
Qed.

(** The map after a handler is registered, or removed, for some accesses. *)
Definition with_handler (t : option (option MSR_ACCESS_HANDLER * option MSR_ACCESS_HANDLER * Z))
  (h : MSR_ACCESS_HANDLER) (access context : Z) :=
  let '(r, w, _) := default (None, None, 0) t in
  (if negb (Z.land access READ_ACCESS =? 0) then Some h else r,
   if negb (Z.land access WRITE_ACCESS =? 0) then Some h else w, context).

Definition without_handler (t : option MSR_ACCESS_HANDLER * option MSR_ACCESS_HANDLER * Z) (access : Z) :=
  let '(r, w, context) := t in
  let r := if negb (Z.land access READ_ACCESS =? 0) then None else r in
  let w := if negb (Z.land access WRITE_ACCESS =? 0) then None else w in
  match w, r with
  | None, None => None
  | _, _ => Some (r, w, context)
  end.

Lemma managed_nonneg id : managed id -> 0 <= id.
Proof. unfold managed. lia. Qed.

(** Consistency carries over when the bits and the handlers of some accesses of one
    register change together. *)
Lemma ctl_ok_update c b' l' x access (v : bool) : ctl_ok c -> length b' = 4096%nat ->
  NoDup (msr_id <$> l') ->
  (forall a y, one_access a -> intercepted b' a y =
     if bool_decide (y = x /\ Z.land a access <> 0) then v else intercepted (msr_bitmap c) a y) ->
  (forall a y, one_access a -> is_Some (handler_for l' a y) <->
     if bool_decide (y = x /\ Z.land a access <> 0) then v = true
     else is_Some (handler_for (msr_list c) a y)) ->
  ctl_ok (mk_msrctl b' l').
Proof.
  intros (_ & _ & Hc) Hl Hnd Hb Hh. split_and!; [done|done|]. intros a y Ha Hy. simpl.
  rewrite (Hb a y Ha), (Hh a y Ha). case_bool_decide; [done|]. by apply Hc.
Qed.

Lemma handler_for_with l l' x h access context a y : one_access a ->
  (forall z, handlers l' z =
     if decide (z = x) then Some (with_handler (handlers l x) h access context) else handlers l z) ->
  is_Some (handler_for l' a y) <->
    if bool_decide (y = x /\ Z.land a access <> 0) then true = true else is_Some (handler_for l a y).
Proof.
  intros Ha Hl. unfold handler_for. rewrite Hl. destruct (decide (y = x)) as [->|Hne].
  - unfold with_handler. destruct (default (None, None, 0) (handlers l x)) as [[r w] ct] eqn:Ed.
    rewrite (Z.land_comm a access).
    destruct Ha as [-> | ->]; simpl Z.eqb; cbv iota;
      match goal with |- context [Z.land access ?k] => destruct (Z.eqb_spec (Z.land access k) 0) as [E|E] end;
      simpl negb; cbv iota; rewrite ?E; repeat case_bool_decide; try naive_solver;
      destruct (handlers l x) as [[[r' w'] ct']|]; simpl in Ed; simplify_eq; naive_solver.
  - rewrite bool_decide_false by naive_solver. done.
Qed.

Lemma handler_for_without l l' x t access a y : one_access a -> handlers l x = Some t ->
  (forall z, handlers l' z = if decide (z = x) then without_handler t access else handlers l z) ->
  is_Some (handler_for l' a y) <->
    if bool_decide (y = x /\ Z.land a access <> 0) then false = true else is_Some (handler_for l a y).
Proof.
  intros Ha Ht Hl. unfold handler_for. rewrite Hl. destruct (decide (y = x)) as [->|Hne].
  - rewrite Ht. destruct t as [[r w] ct]. unfold without_handler. rewrite (Z.land_comm a access).
    destruct (Z.eqb_spec (Z.land access READ_ACCESS) 0) as [Er|Er],
      (Z.eqb_spec (Z.land access WRITE_ACCESS) 0) as [Ew|Ew], r, w;
      destruct Ha as [-> | ->]; simpl; rewrite ?Er, ?Ew; repeat case_bool_decide;
      unfold is_Some; naive_solver.
  - rewrite bool_decide_false by naive_solver. done.
Qed.

Section RegistrationSpec.
Context {A : Type} (vmm_malloc : A -> bool * A).

Lemma register_ok c a x h access context : ctl_ok c -> managed x -> 1 <= access <= 3 ->
  (handlers (msr_list c) x = None /\ (vmm_malloc a).1 = false /\
   msr_vmexit_handler_register vmm_malloc (c, a) x h access context
     = Ok (VMM_ERROR, (c, (vmm_malloc a).2))) \/
  exists c' a', msr_vmexit_handler_register vmm_malloc (c, a) x h access context = Ok (VMM_OK, (c', a')) /\
    ctl_ok c' /\
    forall y, handlers (msr_list c') y =
      if decide (y = x) then Some (with_handler (handlers (msr_list c) x) h access context)
      else handlers (msr_list c) y.
Proof.
  intros Hok Hm Ha. pose proof Hok as (Hl & Hnd & _).
  destruct (bits_config_managed (msr_bitmap c) x access true Hl Hm (managed_nonneg x Hm) Ha)
    as (b' & Eb & Lb & Ib).
  assert (Hfin : forall l', NoDup (msr_id <$> l') ->
    (forall y, handlers l' y = if decide (y = x)
       then Some (with_handler (handlers (msr_list c) x) h access context) else handlers (msr_list c) y) ->
    ctl_ok (mk_msrctl b' l')).
  { intros l' Hnd' Hh. apply (ctl_ok_update c b' l' x access true Hok Lb Hnd' Ib).
    intros a' y Ha'. exact (handler_for_with _ _ x h access context a' y Ha' Hh). }
  unfold msr_vmexit_handler_register.
  destruct (msr_descriptor_lookup (msr_list c) x) as [[i d]|] eqn:E.
  - right. destruct (lookup_split _ _ _ _ Hnd E) as (l1 & l2 & El & <- & <- & H1 & H2).
    rewrite Eb, bind_Ok. simpl fst; simpl snd. cbv iota. rewrite El.
    rewrite (rd_ok _ _ d) by (lia || apply lookup_middle_eq; lia). rewrite bind_Ok.
    rewrite wr_ok by (rewrite length_app; simpl; lia). rewrite bind_Ok, Nat2Z.id, insert_middle_eq by done.
    assert (Hh : forall y, handlers (l1 ++ set_handlers d (msr_id d) h access context :: l2) y =
      if decide (y = msr_id d) then Some (with_handler (handlers (msr_list c) (msr_id d)) h access context)
      else handlers (msr_list c) y).
    { intros y. rewrite (handlers_replace l1 l2 d) by done. rewrite El. case_decide; [|done].
      by rewrite handlers_app, (handlers_none l1), handlers_cons, decide_True by done. }
    eexists _, a. split_and!; [done| |rewrite <- El; exact Hh]. apply Hfin; [|exact Hh].
    rewrite El, !fmap_app, !fmap_cons in *. done.
  - destruct (vmm_malloc a) as [[] a'] eqn:Ea.
    + right. rewrite Eb, bind_Ok. simpl fst; simpl snd. cbv iota.
      rewrite (rd_ok _ _ zero_desc), bind_Ok by done. rewrite wr_ok, bind_Ok by (simpl; lia).
      assert (Hh : forall y, handlers (set_handlers zero_desc x h access context :: msr_list c) y =
        if decide (y = x) then Some (with_handler (handlers (msr_list c) x) h access context)
        else handlers (msr_list c) y).
      { intros y. rewrite handlers_cons. simpl msr_id.
        apply handlers_lookup_none in E as ->. repeat case_decide; done. }
      eexists _, a'. split_and!; [done| |exact Hh]. apply Hfin; [|exact Hh].
      apply NoDup_cons. split; [by apply lookup_none_ids|done].
    + left. split_and!; [by apply handlers_lookup_none|done|]. by destruct c.
Qed.

(** The calls of the set-up, with an allocator that does not run out. *)
Definition apply_call (m : Z -> option (option MSR_ACCESS_HANDLER * option MSR_ACCESS_HANDLER * Z))
  (call : Z * MSR_ACCESS_HANDLER * Z) (y : Z) :=
  let '(x, h, access) := call in
  if decide (y = x) then Some (with_handler (m x) h access 0) else m y.

Definition good_call (call : Z * MSR_ACCESS_HANDLER * Z) : Prop :=
  managed call.1.1 /\ 1 <= call.2 <= 3.

Lemma register_calls_ok calls : (forall a, (vmm_malloc a).1 = true) -> Forall good_call calls ->
  forall c a m, ctl_ok c -> (forall y, handlers (msr_list c) y = m y) ->
  exists c' a', register_calls vmm_malloc calls (c, a) = Ok (c', a') /\ ctl_ok c' /\
    forall y, handlers (msr_list c') y = foldl apply_call m calls y.
Proof.
  intros Hal. induction calls as [|[[x h] access] calls IH]; intros Hg c a m Hok Hm.
  - by exists c, a.
  - apply Forall_cons in Hg as [[Hx Ha] Hg]. cbn [register_calls].
    destruct (register_ok c a x h access 0 Hok Hx Ha) as [(_ & Hf & _)|(c' & a' & -> & Hok' & Hh)];
      [by rewrite Hal in Hf|].
    rewrite bind_Ok. cbn [snd foldl]. apply (IH Hg c' a' _ Hok'). intros y. rewrite Hh. simpl.
    rewrite !Hm. done.
Qed.

End RegistrationSpec.

(** Unregistering removes the handlers of the given accesses, clears their bits, and drops
    the descriptor that has no handler left. *)
Lemma unregister_ok {A} (vmm_mfree : A -> A) c a x access t : ctl_ok c -> managed x -> 1 <= access <= 3 ->
  handlers (msr_list c) x = Some t ->
  exists c' a', msr_vmexit_handler_unregister vmm_mfree (c, a) x access = Ok (VMM_OK, (c', a')) /\
    ctl_ok c' /\
    forall y, handlers (msr_list c') y =
      if decide (y = x) then without_handler t access else handlers (msr_list c) y.
Proof.
  intros Hok Hm Ha Ht. pose proof Hok as (Hl & Hnd & _).
  destruct (bits_config_managed (msr_bitmap c) x access false Hl Hm (managed_nonneg x Hm) Ha)
    as (b' & Eb & Lb & Ib).
  assert (Hfin : forall l', NoDup (msr_id <$> l') ->
    (forall y, handlers l' y = if decide (y = x) then without_handler t access
       else handlers (msr_list c) y) -> ctl_ok (mk_msrctl b' l')).
  { intros l' Hnd' Hh. apply (ctl_ok_update c b' l' x access false Hok Lb Hnd' Ib).
    intros a' y Ha'. exact (handler_for_without _ _ x t access a' y Ha' Ht Hh). }
  unfold msr_vmexit_handler_unregister.
  destruct (msr_descriptor_lookup (msr_list c) x) as [[i d]|] eqn:E;
    [|apply handlers_lookup_none in E; congruence].
  destruct (lookup_split _ _ _ _ Hnd E) as (l1 & l2 & El & <- & <- & H1 & H2).
  assert (t = triple d) as ->.
  { unfold handlers in Ht. rewrite E in Ht. simpl in Ht. congruence. }
  rewrite Eb, bind_Ok. cbn [fst snd msr_write_handler msr_read_handler].
  rewrite El, delete_middle, insert_middle_eq by done.
  assert (Hnd1 : NoDup (msr_id <$> l1 ++ l2)).
  { rewrite El, fmap_app, fmap_cons in Hnd. rewrite fmap_app.
    apply NoDup_app in Hnd as (N1 & N2 & N3%NoDup_cons). apply NoDup_app. set_solver. }
  unfold triple, without_handler.
  destruct (if negb (Z.land access WRITE_ACCESS =? 0) then None else msr_write_handler d) as [w|] eqn:Ew,
    (if negb (Z.land access READ_ACCESS =? 0) then None else msr_read_handler d) as [r|] eqn:Er;
    (eexists _, _; split; [done|]).
  all: match goal with |- ctl_ok (mk_msrctl _ ?l') /\ _ =>
    assert (Hh : forall y, handlers l' y = if decide (y = msr_id d)
      then without_handler (triple d) access else handlers (msr_list c) y);
    [intros y; rewrite El; unfold triple, without_handler; rewrite Ew, Er;
       (by rewrite (handlers_replace l1 l2 d)) || (by rewrite (handlers_remove l1 l2 d))
    |split; [apply Hfin; [|exact Hh]|]]
  end.
  all: try (simpl; intros y; rewrite Hh, El; unfold triple, without_handler; by rewrite Ew, Er).
  all: try done; by rewrite El, !fmap_app, !fmap_cons in *.
Qed.

(** * The properties *)

Lemma foldl_apply_calls (ids : list Z) h access (m : Z -> option _) y :
  foldl apply_call m ((fun i => (i, h, access)) <$> ids) y =
    if decide (y ∈ ids) then Some (with_handler (m y) h access 0) else m y.
Proof.
  revert m. induction ids as [|x ids IH]; intros m; [done|]. cbn [fmap list_fmap foldl]. rewrite IH.
  cbn [apply_call]. destruct (decide (y = x)) as [->|Hne].
  - rewrite (decide_True (P := x ∈ x :: ids)) by set_solver. case_decide; [|done].
    unfold with_handler. destruct (default (None, None, 0) (m x)) as [[r w] ct]. simpl.
    by destruct (negb _), (negb _).
  - by destruct (decide (y ∈ ids)), (decide (y ∈ x :: ids)); try set_solver.
Qed.

(** The registers whose writes the MTRR code tracks. *)
Definition mtrr_ids (vcnt : Z) : list Z :=
  IA32_MTRRCAP_ADDR :: IA32_MTRR_DEF_TYPE_ADDR :: fixed_msrs ++
  concat ((fun i => [IA32_MTRR_PHYSBASE0_ADDR + 2 * i; IA32_MTRR_PHYSBASE0_ADDR + 2 * i + 1]) <$> seqZ 0 vcnt).

Lemma mtrr_calls_ids vcnt :
  mtrr_calls vcnt = (fun i => (i, msr_mtrr_write_handler_p, WRITE_ACCESS)) <$> mtrr_ids vcnt.
Proof.
  unfold mtrr_calls, mtrr_ids. rewrite !fmap_cons, fmap_app. simpl app. do 13 f_equal.
  induction (seqZ 0 vcnt) as [|i l IH]; [done|]. by rewrite !fmap_cons; simpl; rewrite IH.
Qed.

(** The handlers of a guest after the set-up. *)
Definition setup_handlers (unrestricted : bool) (vcnt id : Z)
  : option (option MSR_ACCESS_HANDLER * option MSR_ACCESS_HANDLER * Z) :=
  if (IA32_MSR_VMX_FIRST <=? id) && (id <=? IA32_MSR_VMX_LAST)
  then Some (Some msr_unsupported_access_handler_p, Some msr_unsupported_access_handler_p, 0)
  else if (id =? IA32_MSR_EFER) && negb unrestricted
  then Some (Some msr_efer_read_handler_p, Some msr_efer_write_handler_p, 0)
  else if id =? IA32_MSR_APIC_BASE then Some (None, Some msr_lapic_base_write_handler_p, 0)
  else if id =? IA32_MSR_FEATURE_CONTROL
  then Some (Some msr_feature_control_read_handler_p, Some msr_feature_control_write_handler_p, 0)
  else if id =? IA32_MSR_MISC_ENABLE then Some (None, Some msr_misc_enable_write_handler_p, 0)
  else if decide (id ∈ mtrr_ids vcnt) then Some (None, Some msr_mtrr_write_handler_p, 0)
  else None.

Lemma mtrr_ids_spec vcnt id : id ∈ mtrr_ids vcnt <->
  id ∈ IA32_MTRRCAP_ADDR :: IA32_MTRR_DEF_TYPE_ADDR :: fixed_msrs \/ 512 <= id < 512 + 2 * vcnt.
Proof.
  unfold mtrr_ids. rewrite !elem_of_cons, elem_of_app.
  assert (id ∈ concat ((fun i => [IA32_MTRR_PHYSBASE0_ADDR + 2 * i; IA32_MTRR_PHYSBASE0_ADDR + 2 * i + 1])
            <$> seqZ 0 vcnt) <-> 512 <= id < 512 + 2 * vcnt) as ->.
  2: { tauto. }
  unfold IA32_MTRR_PHYSBASE0_ADDR. rewrite list_elem_of_In, in_concat. split.
  - intros (l & (i & <- & Hi%list_elem_of_In%elem_of_seqZ)%in_map_iff & Hin). simpl in Hin. lia.
  - intros H. exists [512 + 2 * ((id - 512) / 2); 512 + 2 * ((id - 512) / 2) + 1]. split; [|simpl; lia].
    apply in_map_iff. exists ((id - 512) / 2). split; [done|]. apply list_elem_of_In, elem_of_seqZ. lia.
Qed.
Lemma register_calls_app {A} (vmm_malloc : A -> bool * A) l1 l2 st :
  register_calls vmm_malloc (l1 ++ l2) st =
    st' ← register_calls vmm_malloc l1 st; register_calls vmm_malloc l2 st'.
Proof.
  revert st. induction l1 as [|[[x h] access] l1 IH]; intros st; [done|].
  rewrite <- app_comm_cons. cbn [register_calls].
  destruct (msr_vmexit_handler_register _ _ _ _ _ _) as [r| |]; [|done|done]. rewrite !bind_Ok. apply IH.
Qed.

Definition vmx_calls : list (Z * MSR_ACCESS_HANDLER * Z) :=
  (fun i => (i, msr_unsupported_access_handler_p, READ_WRITE_ACCESS)) <$> seqZ IA32_MSR_VMX_FIRST 17.

Lemma setup_calls {A} (vmm_malloc : A -> bool * A) unrestricted vcnt bitmap st :
  msr_vmexit_guest_setup vmm_malloc unrestricted vcnt bitmap st =
  register_calls vmm_malloc (vmx_calls ++ guest_calls unrestricted ++ mtrr_calls vcnt)
    (mk_msrctl bitmap (msr_list st.1), st.2).
Proof.
  unfold msr_vmexit_guest_setup, msr_vmexit_register_mtrr_accesses_handler. rewrite !register_calls_app.
  assert (forall (n : nat) i s,
    loop_up n i (fun id st => r ← msr_guest_access_inhibit vmm_malloc st id; Ok r.2) s =
    register_calls vmm_malloc
      ((fun i => (i, msr_unsupported_access_handler_p, READ_WRITE_ACCESS)) <$> seqZ i (Z.of_nat n)) s) as H.
  { induction n as [|n IH]; intros i s; [done|]. rewrite seqZ_cons by lia.
    rewrite fmap_cons. cbn [register_calls loop_up]. cbv beta.
    change (msr_guest_access_inhibit vmm_malloc s i) with (msr_vmexit_handler_register vmm_malloc s i
      msr_unsupported_access_handler_p READ_WRITE_ACCESS 0).
    destruct (msr_vmexit_handler_register vmm_malloc s i _ _ _) as [r| |]; [|done|done].
    rewrite !bind_Ok, IH. by replace (Z.pred (Z.of_nat (S n))) with (Z.of_nat n) by lia. }
  unfold for_range. rewrite H. unfold vmx_calls. change (Z.of_nat _) with 17.
  destruct (register_calls vmm_malloc (_ <$> seqZ IA32_MSR_VMX_FIRST 17) _) as [st1| |]; [|done|done].
  rewrite !bind_Ok. by rewrite register_calls_app.
Qed.

Lemma setup_calls_good unrestricted vcnt : 0 <= vcnt <= 255 ->
  Forall good_call (vmx_calls ++ guest_calls unrestricted ++ mtrr_calls vcnt).
Proof.
  intros Hv. rewrite mtrr_calls_ids. apply Forall_app. split; [|apply Forall_app; split].
  - apply Forall_fmap, Forall_forall. intros i Hi%elem_of_seqZ.
    unfold good_call, managed, IA32_MSR_VMX_FIRST in *. simpl. unfold READ_WRITE_ACCESS. lia.
  - unfold guest_calls. apply Forall_app. split; [destruct unrestricted|];
      repeat constructor; unfold good_call, managed; simpl; lia || (right; done) || (vm_compute; intuition congruence).
  - apply Forall_fmap, Forall_forall. intros i [Hi|Hi]%mtrr_ids_spec;
      unfold good_call, managed; simpl; unfold WRITE_ACCESS; [|lia].
    unfold IA32_MTRRCAP_ADDR, IA32_MTRR_DEF_TYPE_ADDR, fixed_msrs in Hi.
    rewrite !elem_of_cons, elem_of_nil in Hi. lia.
Qed.

(** A zeroed page and no descriptors: no access of a register exits. *)
Lemma fresh_ctl_ok : ctl_ok (mk_msrctl (replicate 4096 0) []).
Proof.
  split_and!; [exact (length_replicate 4096 0)|constructor|]. intros a id Ha Hm. cbn [msr_bitmap msr_list].
  unfold intercepted. apply (manual_bit_managed a) in Hm as [p ->].
  split; [|by intros [? ?]]. unfold bit_of. destruct (0 <=? p); [|done].
  destruct (replicate 4096 0 !! Z.to_nat (p / 8)) as [b|] eqn:E; [|by rewrite Z.bits_0].
  apply lookup_replicate in E as [-> _]. by rewrite Z.bits_0.
Qed.

Lemma fold_guest_calls unrestricted m y :
  foldl apply_call m (guest_calls unrestricted) y =
    if (y =? IA32_MSR_EFER) && negb unrestricted
    then Some (with_handler (Some (with_handler (m y) msr_efer_write_handler_p WRITE_ACCESS 0))
                 msr_efer_read_handler_p READ_ACCESS 0)
    else if y =? IA32_MSR_APIC_BASE
    then Some (with_handler (m y) msr_lapic_base_write_handler_p WRITE_ACCESS 0)
    else if y =? IA32_MSR_FEATURE_CONTROL
    then Some (with_handler (Some (with_handler (m y) msr_feature_control_read_handler_p READ_ACCESS 0))
                 msr_feature_control_write_handler_p WRITE_ACCESS 0)
    else if y =? IA32_MSR_MISC_ENABLE
    then Some (with_handler (m y) msr_misc_enable_write_handler_p WRITE_ACCESS 0)
    else m y.
Proof.
  unfold guest_calls, IA32_MSR_EFER, IA32_MSR_APIC_BASE, IA32_MSR_FEATURE_CONTROL, IA32_MSR_MISC_ENABLE.
  destruct unrestricted; cbn [foldl app apply_call negb];
    rewrite ?andb_false_r, ?andb_true_r; repeat case_decide; subst; try done; zcases; done || lia.
Qed.

Lemma setup_handlers_fold unrestricted vcnt y : 0 <= vcnt <= 255 ->
  foldl apply_call (fun _ => None) (vmx_calls ++ guest_calls unrestricted ++ mtrr_calls vcnt) y =
  setup_handlers unrestricted vcnt y.
Proof.
  intros Hv. rewrite !foldl_app, mtrr_calls_ids, foldl_apply_calls, fold_guest_calls.
  unfold vmx_calls. rewrite foldl_apply_calls. unfold setup_handlers.
  assert (Hm : y ∈ mtrr_ids vcnt -> 254 <= y < 1024 /\ y <> 416).
  { intros [Hi|Hi]%mtrr_ids_spec; [|lia].
    unfold IA32_MTRRCAP_ADDR, IA32_MTRR_DEF_TYPE_ADDR, fixed_msrs in Hi.
    rewrite !elem_of_cons, elem_of_nil in Hi. lia. }
  unfold IA32_MSR_VMX_FIRST, IA32_MSR_VMX_LAST, IA32_MSR_EFER, IA32_MSR_APIC_BASE,
    IA32_MSR_FEATURE_CONTROL, IA32_MSR_MISC_ENABLE in *.
  destruct (decide (y ∈ seqZ 1152 17)) as [Hs%elem_of_seqZ|Hs]; [|rewrite elem_of_seqZ in Hs];
    destruct (decide (y ∈ mtrr_ids vcnt)) as [Hin|]; [apply Hm in Hin|clear Hm|apply Hm in Hin|clear Hm];
    destruct unrestricted; cbn [negb]; rewrite ?andb_true_r, ?andb_false_r; zcases; done || lia.
Qed.
(** ** Registration *)

Inductive msr_op :=
| Register (id : Z) (h : MSR_ACCESS_HANDLER) (access context : Z)
| Unregister (id access : Z).

Definition msr_do {A} (vmm_malloc : A -> bool * A) (vmm_mfree : A -> A) (op : msr_op)
  (st : MSR_VMEXIT_CONTROL * A) : outcome (VMM_STATUS * (MSR_VMEXIT_CONTROL * A)) :=
  match op with
  | Register id h access context => msr_vmexit_handler_register vmm_malloc st id h access context
  | Unregister id access => msr_vmexit_handler_unregister vmm_mfree st id access
  end.

Fixpoint msr_run {A} (vmm_malloc : A -> bool * A) (vmm_mfree : A -> A) (ops : list msr_op)
  (st : MSR_VMEXIT_CONTROL * A) : outcome (MSR_VMEXIT_CONTROL * A) :=
  match ops with
  | [] => Ok st
  | op :: ops' => r ← msr_do vmm_malloc vmm_mfree op st; msr_run vmm_malloc vmm_mfree ops' r.2
  end.

Definition good_op (op : msr_op) : Prop :=
  match op with
  | Register id _ access _ | Unregister id access => managed id /\ 1 <= access <= 3
  end.

(** What an operation does to the map of handlers. *)
Definition spec_op (m : Z -> option (option MSR_ACCESS_HANDLER * option MSR_ACCESS_HANDLER * Z))
  (op : msr_op) (y : Z) :=
  match op with
  | Register id h access context =>
      if decide (y = id) then Some (with_handler (m id) h access context) else m y
  | Unregister id access =>
      if decide (y = id) then (match m id with Some t => without_handler t access | None => None end) else m y
  end.

Lemma spec_op_ext op m m' y : (forall z, m z = m' z) -> spec_op m op y = spec_op m' op y.
Proof. intros H. destruct op; simpl; by rewrite !H. Qed.

Lemma foldl_spec_ext ops m m' y : (forall z, m z = m' z) -> foldl spec_op m ops y = foldl spec_op m' ops y.
Proof.
  revert m m'. induction ops as [|op ops IH]; intros m m' H; [done|]. cbn [foldl].
  apply IH. intros z. by apply spec_op_ext.
Qed.

Lemma msr_do_ok {A} (vmm_malloc : A -> bool * A) (vmm_mfree : A -> A) op c a : ctl_ok c -> good_op op ->
  exists s c' a', msr_do vmm_malloc vmm_mfree op (c, a) = Ok (s, (c', a')) /\ ctl_ok c' /\
    ((vmm_malloc a).1 = true -> forall y, handlers (msr_list c') y = spec_op (handlers (msr_list c)) op y).
Proof.
  intros Hok Hg. destruct op as [id h access context|id access]; destruct Hg as [Hm Ha]; cbn [msr_do spec_op].
  - destruct (register_ok vmm_malloc c a id h access context Hok Hm Ha)
      as [(_ & Hf & ->)|(c' & a' & -> & Hok' & Hh)].
    + do 3 eexists. split; [done|]. split; [done|]. by rewrite Hf.
    + do 3 eexists. split; [done|]. split; [done|]. by intros _.
  - destruct (handlers (msr_list c) id) as [t|] eqn:Et.
    + destruct (unregister_ok vmm_mfree c a id access t Hok Hm Ha Et) as (c' & a' & -> & Hok' & Hh).
      do 3 eexists. split; [done|]. split; [done|]. by intros _.
    + unfold msr_vmexit_handler_unregister. rewrite (proj1 (handlers_lookup_none _ _) Et).
      do 3 eexists. split; [done|]. split; [done|]. intros _ y. case_decide; by subst.
Qed.

(** C17. Any sequence of registrations and removals of handlers for registers the bitmap
    covers runs without a fault, whether or not descriptors can be allocated, and keeps the
    control consistent: one descriptor per register, and an access exits to the hypervisor
    exactly when it has a handler.  With memory for the descriptors the handlers are those
    of a map updated by the same operations. *)
Theorem msr_registration_refines {A} (vmm_malloc : A -> bool * A) (vmm_mfree : A -> A)
  (ops : list msr_op) (c : MSR_VMEXIT_CONTROL) (a : A) :
  ctl_ok c -> Forall good_op ops ->
  exists c' a', msr_run vmm_malloc vmm_mfree ops (c, a) = Ok (c', a') /\ ctl_ok c' /\
    ((forall b, (vmm_malloc b).1 = true) ->
     forall y, handlers (msr_list c') y = foldl spec_op (handlers (msr_list c)) ops y).
Proof.
  intros Hok Hg. revert c a Hok. induction Hg as [|op ops Hop Hg IH]; intros c a Hok.
  - by exists c, a.
  - cbn [msr_run]. destruct (msr_do_ok vmm_malloc vmm_mfree op c a Hok Hop) as (s & c1 & a1 & -> & Hok1 & H1).
    rewrite bind_Ok. cbn [snd]. destruct (IH c1 a1 Hok1) as (c2 & a2 & -> & Hok2 & H2).
    exists c2, a2. split_and!; [done|done|]. intros Hal y. rewrite H2 by done. cbn [foldl].
    apply foldl_spec_ext. by apply H1.
Qed.

Definition plenty : nat -> bool * nat := fun n => (true, S n).

Lemma msr_registration_refines_witness :
  exists c' a', msr_run plenty pred
      [Register 0x10 (other_handler 7) READ_ACCESS 5; Register 0xC0000080 (other_handler 8) READ_WRITE_ACCESS 0;
       Unregister 0x10 READ_ACCESS] (mk_msrctl (replicate 4096 0) [], 0%nat) = Ok (c', a') /\ ctl_ok c' /\
    ((forall b, (plenty b).1 = true) -> forall y, handlers (msr_list c') y =
       foldl spec_op (handlers [])
         [Register 0x10 (other_handler 7) READ_ACCESS 5; Register 0xC0000080 (other_handler 8) READ_WRITE_ACCESS 0;
          Unregister 0x10 READ_ACCESS] y).
Proof.
  apply (msr_registration_refines plenty pred _ (mk_msrctl (replicate 4096 0) []) 0%nat fresh_ctl_ok).
  repeat constructor; simpl; unfold managed, READ_ACCESS, READ_WRITE_ACCESS; lia.
Defined.

(** ** The guest's set-up and the exits *)

(** C36. With memory for the descriptors, the set-up of a guest (any number of variable range
    registers the capability register can report) leaves a consistent control in which
    exactly the documented registers have handlers: every VMX capability register and
    IA32_FEATURE_CONTROL for both accesses, EFER unless the processor runs unrestricted
    guests, and the writes of IA32_APIC_BASE, IA32_MISC_ENABLE and the MTRRs. *)
Theorem msr_vmexit_guest_setup_spec {A} (vmm_malloc : A -> bool * A) (unrestricted : bool) (vcnt : Z) (a : A) :
  (forall b, (vmm_malloc b).1 = true) -> 0 <= vcnt <= 255 ->
  exists c' a',
    msr_vmexit_guest_setup vmm_malloc unrestricted vcnt (replicate 4096 0) (mk_msrctl [] [], a) = Ok (c', a') /\
    ctl_ok c' /\ (forall id, handlers (msr_list c') id = setup_handlers unrestricted vcnt id) /\
    (forall access id, one_access access -> managed id ->
       intercepted (msr_bitmap c') access id =
         match setup_handlers unrestricted vcnt id with
         | None => false
         | Some (r, w, _) => bool_decide (is_Some (if access =? READ_ACCESS then r else w))
         end).
Proof.
  intros Hal Hv. rewrite setup_calls. cbn [fst snd msr_list].
  destruct (register_calls_ok vmm_malloc _ Hal (setup_calls_good unrestricted vcnt Hv)
    (mk_msrctl (replicate 4096 0) []) a (fun _ => None) fresh_ctl_ok ltac:(done)) as (c' & a' & E & Hok & Hh).
  exists c', a'. assert (Hs : forall y, handlers (msr_list c') y = setup_handlers unrestricted vcnt y)
    by (intros y; rewrite Hh; by apply setup_handlers_fold).
  split_and!; [done|done|done|]. intros access id Ha Hm.
  destruct Hok as (_ & _ & Hok). specialize (Hok access id Ha Hm). unfold handler_for in Hok. rewrite Hs in Hok.
  destruct (intercepted (msr_bitmap c') access id), (setup_handlers unrestricted vcnt id) as [[[r w] ct]|];
    try case_bool_decide; try done; destruct Hok as [H1 H2]; exfalso;
    [apply H|destruct H1|discriminate H2]; eauto; try done.
Qed.

Lemma msr_vmexit_guest_setup_spec_witness :
  exists c' a',
    msr_vmexit_guest_setup plenty false 8 (replicate 4096 0) (mk_msrctl [] [], 0%nat) = Ok (c', a') /\
    ctl_ok c' /\ (forall id, handlers (msr_list c') id = setup_handlers false 8 id) /\
    (forall access id, one_access access -> managed id ->
       intercepted (msr_bitmap c') access id =
         match setup_handlers false 8 id with
         | None => false
         | Some (r, w, _) => bool_decide (is_Some (if access =? READ_ACCESS then r else w))
         end).
Proof. apply (msr_vmexit_guest_setup_spec plenty false 8 0%nat); [done|lia]. Defined.

Lemma guest_setup_ok {A} (vmm_malloc : A -> bool * A) unrestricted vcnt a :
  (forall b, (vmm_malloc b).1 = true) -> 0 <= vcnt <= 255 ->
  exists c a',
    msr_vmexit_guest_setup vmm_malloc unrestricted vcnt (replicate 4096 0) (mk_msrctl [] [], a) = Ok (c, a') /\
    ctl_ok c /\ forall id, handlers (msr_list c) id = setup_handlers unrestricted vcnt id.
Proof.
  intros Hal Hv. rewrite setup_calls. cbn [fst snd msr_list].
  destruct (register_calls_ok vmm_malloc _ Hal (setup_calls_good unrestricted vcnt Hv)
    (mk_msrctl (replicate 4096 0) []) a (fun _ => None) fresh_ctl_ok ltac:(done)) as (c & a' & E & Hok & Hh).
  exists c, a'. split_and!; [done|done|]. intros id. rewrite Hh. by apply setup_handlers_fold.
Qed.

Lemma setup_handlers_of {A} (vmm_malloc : A -> bool * A) unrestricted vcnt a c a' :
  (forall b, (vmm_malloc b).1 = true) -> 0 <= vcnt <= 255 ->
  msr_vmexit_guest_setup vmm_malloc unrestricted vcnt (replicate 4096 0) (mk_msrctl [] [], a) = Ok (c, a') ->
  forall id, handlers (msr_list c) id = setup_handlers unrestricted vcnt id.
Proof.
  intros Hal Hv Hset. destruct (guest_setup_ok vmm_malloc unrestricted vcnt a Hal Hv) as (c1 & a1 & E & _ & Hh).
  rewrite E in Hset. by injection Hset as -> ->.
Qed.

Section ExitSpec.
Context (rdmsr_fault : Z -> option (Z * Z)) (wrmsr_fault : Z -> Z -> option (Z * Z)).
Context (x2apic_supported : bool) (address_size : Z) (vmcs_field_is_supported : VMCS_FIELD -> bool).
Context (map_uc : Z -> Z -> Z) (other : Z -> Z -> Z -> Z -> gcpu -> outcome (bool * Z * gcpu)).

#[local] Abbreviation exit_read := (vmexit_msr_read rdmsr_fault wrmsr_fault x2apic_supported address_size
  vmcs_field_is_supported map_uc other).
#[local] Abbreviation exit_write := (vmexit_msr_write rdmsr_fault wrmsr_fault x2apic_supported address_size
  vmcs_field_is_supported map_uc other).
#[local] Abbreviation common := (msr_common_vmexit_handler rdmsr_fault wrmsr_fault x2apic_supported address_size
  vmcs_field_is_supported map_uc other).
#[local] Abbreviation call := (call_handler wrmsr_fault x2apic_supported address_size map_uc other).

(** The dispatch, on the map of handlers. *)
Lemma common_handler c access value g h ct : one_access access ->
  handler_for (msr_list c) access (u32 (rcx g)) = Some h ->
  (match handlers (msr_list c) (u32 (rcx g)) with Some (_, _, ct') => ct' | None => 0 end) = ct ->
  common c access value g =
    r ← call h (u32 (rcx g)) value ct g;
    let '(executed, v, g) := r in
    Ok (executed, v, (if executed : bool then act SkipInstruction g else g)).
Proof.
  unfold handler_for, handlers, msr_common_vmexit_handler. intros Ha Hh <-.
  destruct (msr_descriptor_lookup (msr_list c) (u32 (rcx g))) as [[i d]|]; [|done].
  cbn [fmap option_fmap option_map snd triple] in *.
  destruct Ha as [-> | ->]; simpl in Hh; simpl; by rewrite Hh.
Qed.

Lemma common_default c access value g : one_access access ->
  handler_for (msr_list c) access (u32 (rcx g)) = None ->
  common c access value g =
    let '(found, v, g1) :=
      msr_vmcs_resident_default_handler vmcs_field_is_supported (u32 (rcx g)) access value g in
    let '(executed, v, g2) :=
      if found then (true, v, g1) else msr_trial_access rdmsr_fault wrmsr_fault (u32 (rcx g)) access v g1 in
    Ok (executed, v, (if executed : bool then act SkipInstruction g2 else g2)).
Proof.
  unfold handler_for, handlers, msr_common_vmexit_handler. intros Ha Hh.
  assert (Hn : match snd <$> msr_descriptor_lookup (msr_list c) (u32 (rcx g)) with
    | None => None
    | Some d => if negb (Z.land access WRITE_ACCESS =? 0) then msr_write_handler d
        else if negb (Z.land access READ_ACCESS =? 0) then msr_read_handler d else None
    end = None).
  { destruct (msr_descriptor_lookup (msr_list c) (u32 (rcx g))) as [[i d]|]; [|done].
    cbn [fmap option_fmap option_map snd triple] in *. destruct Ha as [-> | ->]; simpl in *; by rewrite Hh. }
  rewrite Hn. destruct (msr_vmcs_resident_default_handler _ _ _ _ _) as [[[] v] g1]; [done|].
  rewrite bind_Ok. by destruct (msr_trial_access _ _ _ _ _ _) as [[ex v'] g2].
Qed.

(** C28. The VMX capability registers are hidden from a guest: after its set-up, RDMSR and
    WRMSR of any of them does nothing but inject #GP(0); the instruction is not skipped, and
    no register of the guest or of the processor changes. *)
Theorem vmx_msrs_hidden {A} (vmm_malloc : A -> bool * A) (unrestricted : bool) (vcnt : Z) (a : A)
  (c : MSR_VMEXIT_CONTROL) (a' : A) (g : gcpu) :
  (forall b, (vmm_malloc b).1 = true) -> 0 <= vcnt <= 255 ->
  msr_vmexit_guest_setup vmm_malloc unrestricted vcnt (replicate 4096 0) (mk_msrctl [] [], a) = Ok (c, a') ->
  IA32_MSR_VMX_FIRST <= u32 (rcx g) <= IA32_MSR_VMX_LAST ->
  exit_read c g = Ok (act InjectGp0 g) /\ exit_write c g = Ok (act InjectGp0 g).
Proof.
  intros Hal Hv Hset Hid. pose proof (setup_handlers_of _ _ _ _ _ _ Hal Hv Hset) as Hh.
  assert (Hd : handlers (msr_list c) (u32 (rcx g)) =
    Some (Some msr_unsupported_access_handler_p, Some msr_unsupported_access_handler_p, 0)).
  { rewrite Hh. unfold setup_handlers.
    by rewrite (proj2 (Z.leb_le _ _)), (proj2 (Z.leb_le _ _)) by lia. }
  unfold IA32_MSR_VMX_FIRST, IA32_MSR_VMX_LAST in Hid. unfold vmexit_msr_read, vmexit_msr_write.
  assert ((HYPER_V_MSR_MIN <=? u32 (rcx g)) && (u32 (rcx g) <=? HYPER_V_MSR_MAX) = false) as ->
    by (unfold HYPER_V_MSR_MIN, HYPER_V_MSR_MAX; zcases; done || lia).
  split.
  - rewrite (common_handler c READ_ACCESS 0 g msr_unsupported_access_handler_p 0);
      [done|by right|unfold handler_for; by rewrite Hd|by rewrite Hd].
  - rewrite (common_handler c WRITE_ACCESS _ g msr_unsupported_access_handler_p 0);
      [done|by left|unfold handler_for; by rewrite Hd|by rewrite Hd].
Qed.

(** A guest's write of a value the processor rejects, to a register the set-up tracks for the
    MTRRs (IA32_MTRRCAP, which is read-only, is one), raises the exception in the hypervisor
    itself: the handler writes the register without the trial access. *)
Theorem mtrr_write_faults_hypervisor {A} (vmm_malloc : A -> bool * A) (unrestricted : bool) (vcnt : Z) (a : A)
  (c : MSR_VMEXIT_CONTROL) (a' : A) (g : gcpu) :
  (forall b, (vmm_malloc b).1 = true) -> 0 <= vcnt <= 255 ->
  msr_vmexit_guest_setup vmm_malloc unrestricted vcnt (replicate 4096 0) (mk_msrctl [] [], a) = Ok (c, a') ->
  rcx g = IA32_MTRRCAP_ADDR -> (forall v, is_Some (wrmsr_fault IA32_MTRRCAP_ADDR v)) ->
  exit_write c g = Fault.
Proof.
  intros Hal Hv Hset Hid Hf. pose proof (setup_handlers_of _ _ _ _ _ _ Hal Hv Hset IA32_MTRRCAP_ADDR) as Hh.
  assert (Hs : setup_handlers unrestricted vcnt IA32_MTRRCAP_ADDR = Some (None, Some msr_mtrr_write_handler_p, 0)).
  { unfold setup_handlers. rewrite (decide_True (P := IA32_MTRRCAP_ADDR ∈ mtrr_ids vcnt));
      [by destruct unrestricted|by left]. }
  rewrite Hs in Hh. unfold vmexit_msr_write. rewrite Hid. change (u32 IA32_MTRRCAP_ADDR) with IA32_MTRRCAP_ADDR.
  simpl andb. cbv iota.
  rewrite (common_handler c WRITE_ACCESS _ g msr_mtrr_write_handler_p 0);
    [|by left|unfold handler_for; rewrite Hid; change (u32 _) with IA32_MTRRCAP_ADDR; by rewrite Hh
     |rewrite Hid; change (u32 _) with IA32_MTRRCAP_ADDR; by rewrite Hh].
  rewrite Hid. change (u32 _) with IA32_MTRRCAP_ADDR.
  unfold call_handler, msr_mtrr_write_handler, hw_write_msr. simpl negb. cbv iota.
  by destruct (Hf (Z.lor (u64 (rdx g ≪ 32)) (Z.land (rax g) LOW_BITS_32_MASK))) as [e ->].
Qed.

(** RDMSR of IA32_FEATURE_CONTROL injects #GP and also counts as executed: the guest's
    instruction pointer moves past it and EDX:EAX are cleared. *)
Theorem feature_control_faults_and_skips (c : MSR_VMEXIT_CONTROL) (g : gcpu) (w : option MSR_ACCESS_HANDLER) (ct : Z) :
  handlers (msr_list c) IA32_MSR_FEATURE_CONTROL = Some (Some msr_feature_control_read_handler_p, w, ct) ->
  rcx g = IA32_MSR_FEATURE_CONTROL ->
  exit_read c g = Ok (set_value_regs 0 0 (act SkipInstruction (act InjectGp0 g))).
Proof.
  intros Hh Hid. unfold vmexit_msr_read. rewrite Hid. change (u32 _) with IA32_MSR_FEATURE_CONTROL.
  simpl andb. cbv iota.
  rewrite (common_handler c READ_ACCESS _ g msr_feature_control_read_handler_p ct);
    [done|by right|unfold handler_for; rewrite Hid; change (u32 _) with IA32_MSR_FEATURE_CONTROL; by rewrite Hh
     |rewrite Hid; change (u32 _) with IA32_MSR_FEATURE_CONTROL; by rewrite Hh].
Qed.

Lemma edx_eax (d e : Z) : 0 <= d -> 0 <= e ->
  Z.shiftr (Z.lor (u64 (Z.shiftl d 32)) (Z.land e LOW_BITS_32_MASK)) 32 = u32 d /\
  Z.land (Z.lor (u64 (Z.shiftl d 32)) (Z.land e LOW_BITS_32_MASK)) LOW_BITS_32_MASK = u32 e.
Proof.
  intros Hd He. unfold LOW_BITS_32_MASK, u32, u64, wrap. change 0xFFFFFFFF with (Z.ones 32).
  rewrite <- !Z.land_ones by lia. split; apply Z.bits_inj'; intros k Hk.
  - rewrite Z.shiftr_spec, Z.lor_spec, !Z.land_spec, Z.shiftl_spec by lia.
    replace (k + 32 - 32) with k by lia.
    rewrite (Z.ones_spec_high 32 (k + 32)) by lia. rewrite andb_false_r, orb_false_r. f_equal.
    destruct (decide (k < 32)); [rewrite !Z.ones_spec_low by lia|rewrite !Z.ones_spec_high by lia]; done.
  - rewrite !Z.land_spec, Z.lor_spec, !Z.land_spec by lia.
    destruct (decide (k < 32)); [|by rewrite !(Z.ones_spec_high 32 k), !andb_false_r by lia].
    rewrite Z.shiftl_spec_low, !(Z.ones_spec_low 32 k) by lia. simpl. by rewrite !andb_true_r.
Qed.

(** The registers that the manual keeps in the guest-state area of the VMCS (SDM vol. 3, 24.4.1), by their
    numbers; the debug and performance controls belong there when the VM-entry controls [controls] load them
    (bits 2 and 13). *)
Inductive lives_in (controls : Z) : Z -> VMCS_FIELD -> Prop :=
| lives_sysenter_cs : lives_in controls 0x174 VMCS_GUEST_SYSENTER_CS
| lives_sysenter_esp : lives_in controls 0x175 VMCS_GUEST_SYSENTER_ESP
| lives_sysenter_eip : lives_in controls 0x176 VMCS_GUEST_SYSENTER_EIP
| lives_debugctl : Z.testbit controls 2 = true -> lives_in controls 0x1D9 VMCS_GUEST_DEBUG_CONTROL
| lives_perf_global : Z.testbit controls 13 = true -> vmcs_field_is_supported VMCS_GUEST_IA32_PERF_GLOBAL_CTRL = true ->
    lives_in controls 0x38F VMCS_GUEST_IA32_PERF_GLOBAL_CTRL
| lives_fs_base : lives_in controls 0xC0000100 VMCS_GUEST_FS_BASE
| lives_gs_base : lives_in controls 0xC0000101 VMCS_GUEST_GS_BASE.

Lemma resident_found id f access value g : lives_in (vmcs g VMCS_ENTER_CONTROL_VECTOR) id f ->
  msr_vmcs_resident_default_handler vmcs_field_is_supported id access value g =
    (if access =? READ_ACCESS then (true, vmcs g f, g)
     else if access =? WRITE_ACCESS then (true, value, vmcs_write f value g) else (true, value, g)).
Proof.
  assert (Hu : forall k, 0 <= k < 32 -> Z.testbit (u32 (vmcs g VMCS_ENTER_CONTROL_VECTOR)) k = Z.testbit (vmcs g VMCS_ENTER_CONTROL_VECTOR) k)
    by (intros k Hk; unfold u32, wrap; by rewrite Z.mod_pow2_bits_low by lia).
  unfold msr_vmcs_resident_default_handler. set (controls := vmcs g VMCS_ENTER_CONTROL_VECTOR) in *.
  destruct 1 as [| | |B|B E| |];
    match goal with |- context [list_find ?P ?l] => let r := eval vm_compute in (list_find P l) in change (list_find P l) with r end;
    cbv beta iota zeta; unfold IA32_MSR_DEBUGCTL, IA32_MSR_PERF_GLOBAL_CTRL; cbn [Z.eqb Pos.eqb]; rewrite ?Hu, ?B, ?E by lia; done.
Qed.

(** C37. The registers that live in the guest-state area of the VMCS (the SYSENTER registers, the FS and GS
    bases, and the debug and performance controls when VM entry loads them), when no handler is registered
    for them: WRMSR puts EDX:EAX into the register's own field of the VMCS, cut to the 32 bits of the field
    for IA32_SYSENTER_CS and whole for the others, and changes no other field; RDMSR gives the field back in
    EDX:EAX. Both instructions are skipped, nothing is injected and no register of the processor is touched. *)
Theorem vmcs_resident_msr_roundtrip (c : MSR_VMEXIT_CONTROL) (g : gcpu) (f : VMCS_FIELD) (d e : Z) :
  let id := u32 (rcx g) in
  lives_in (vmcs g VMCS_ENTER_CONTROL_VECTOR) id f ->
  handler_for (msr_list c) READ_ACCESS id = None -> handler_for (msr_list c) WRITE_ACCESS id = None ->
  0 <= rdx g -> 0 <= rax g ->
  exists g1 g2, exit_write c g = Ok g1 /\ exit_read c (set_value_regs d e g1) = Ok g2 /\
    vmcs g1 f = (if decide (f = VMCS_GUEST_SYSENTER_CS) then u32 (rax g) else u32 (rdx g) * 2 ^ 32 + u32 (rax g)) /\
    (forall f', f' <> f -> vmcs g1 f' = vmcs g f') /\ vmcs g2 = vmcs g1 /\
    rdx g2 = (if decide (f = VMCS_GUEST_SYSENTER_CS) then 0 else u32 (rdx g)) /\ rax g2 = u32 (rax g) /\
    actions g2 = actions g ++ [SkipInstruction; SkipInstruction] /\ hw_msrs g2 = hw_msrs g.
Proof.
  intros id Hl Hr Hw Hd Ha.
  set (v := Z.lor (u64 (Z.shiftl (rdx g) 32)) (Z.land (rax g) LOW_BITS_32_MASK)).
  destruct (edx_eax (rdx g) (rax g) Hd Ha) as [E1 E2]. fold v in E1, E2.
  assert (Hv : v = u32 (rdx g) * 2 ^ 32 + u32 (rax g)).
  { change LOW_BITS_32_MASK with (Z.ones 32) in E2. rewrite Z.land_ones in E2 by lia. rewrite Z.shiftr_div_pow2 in E1 by lia.
    rewrite <- E1, <- E2. lia. }
  assert (Hne : f <> VMCS_ENTER_CONTROL_VECTOR /\ (HYPER_V_MSR_MIN <=? id) && (id <=? HYPER_V_MSR_MAX) = false)
    by (by destruct Hl).
  destruct Hne as [Hne Hhv].
  assert (Hl1 : forall x, lives_in (vmcs (set_value_regs d e (act SkipInstruction (vmcs_write f x g))) VMCS_ENTER_CONTROL_VECTOR) id f)
    by (intros x; cbn [vmcs set_value_regs act vmcs_write]; by rewrite decide_False by congruence).
  assert (Hst : v mod 2 ^ field_width f = if decide (f = VMCS_GUEST_SYSENTER_CS) then u32 (rax g) else v).
  { pose proof (u32_range (rdx g)). pose proof (u32_range (rax g)).
    rewrite Hv. destruct Hl; cbn [field_width]; case_decide; try done; lia. }
  eexists (act SkipInstruction (vmcs_write f v g)), _. split; [|split].
  - unfold vmexit_msr_write. fold id. rewrite Hhv. fold v. rewrite common_default by (done || by left).
    fold id. by rewrite (resident_found id f _ _ g Hl).
  - unfold vmexit_msr_read. change (rcx (set_value_regs _ _ _)) with (rcx g). fold id. rewrite Hhv.
    rewrite common_default by (done || by right). change (rcx (set_value_regs _ _ _)) with (rcx g). fold id.
    by rewrite (resident_found id f _ _ _ (Hl1 v)).
  - cbn [vmcs set_value_regs act vmcs_write rdx rax actions hw_msrs]. rewrite decide_True by done. rewrite Hst.
    pose proof (u32_range (rax g)) as Ra. change LOW_BITS_32_MASK with (Z.ones 32) in *. rewrite Z.land_ones, Z.shiftr_div_pow2 by lia.
    split; [case_decide; [done|exact Hv]|]. split; [intros f' Hf'; by rewrite decide_False by done|]. split; [done|].
    rewrite Z.land_ones in E2 by lia. rewrite Z.shiftr_div_pow2 in E1 by lia.
    split; [case_decide; [lia|done]|]. split; [case_decide; [lia|done]|]. split; [by rewrite <- app_assoc|done].
Qed.
End ExitSpec.

(** A processor that implements every register, and rejects writes to IA32_MTRRCAP. *)
Definition no_rd_fault (id : Z) : option (Z * Z) := None.
Definition cap_wr_fault (id v : Z) : option (Z * Z) := if id =? IA32_MTRRCAP_ADDR then Some (13, 0) else None.
Definition no_other (h ct id v : Z) (g : gcpu) : outcome (bool * Z * gcpu) := Ok (true, v, g).

Definition sample_gcpu (c d e : Z) : gcpu :=
  mk_gcpu c d e 0 (fun _ => 0) (fun _ => 0) (zero_info 0) (mk_lapic 0 0 LOCAL_APIC_ENABLED 0 None) [].

Lemma vmx_msrs_hidden_witness :
  exists c a', msr_vmexit_guest_setup plenty true 8 (replicate 4096 0) (mk_msrctl [] [], 0%nat) = Ok (c, a') /\
    vmexit_msr_read no_rd_fault cap_wr_fault true 36 (fun _ => true) (fun h v => v) no_other c (sample_gcpu 0x480 0 0)
      = Ok (act InjectGp0 (sample_gcpu 0x480 0 0)) /\
    vmexit_msr_write no_rd_fault cap_wr_fault true 36 (fun _ => true) (fun h v => v) no_other c (sample_gcpu 0x480 0 0)
      = Ok (act InjectGp0 (sample_gcpu 0x480 0 0)).
Proof.
  destruct (guest_setup_ok plenty true 8 0%nat) as (c & a' & E & _); [done|lia|].
  exists c, a'. split; [exact E|].
  apply (vmx_msrs_hidden no_rd_fault cap_wr_fault true 36 (fun _ => true) (fun h v => v) no_other
           plenty true 8 0%nat c a' (sample_gcpu 0x480 0 0) (fun _ => eq_refl) ltac:(lia) E).
  change (u32 (rcx (sample_gcpu 0x480 0 0))) with 0x480. unfold IA32_MSR_VMX_FIRST, IA32_MSR_VMX_LAST. lia.
Defined.

Lemma mtrr_write_faults_hypervisor_witness :
  exists c a', msr_vmexit_guest_setup plenty true 8 (replicate 4096 0) (mk_msrctl [] [], 0%nat) = Ok (c, a') /\
    vmexit_msr_write no_rd_fault cap_wr_fault true 36 (fun _ => true) (fun h v => v) no_other c (sample_gcpu 254 0 0)
      = Fault.
Proof.
  destruct (guest_setup_ok plenty true 8 0%nat) as (c & a' & E & _); [done|lia|].
  exists c, a'. split; [exact E|].
  apply (mtrr_write_faults_hypervisor no_rd_fault cap_wr_fault true 36 (fun _ => true) (fun h v => v) no_other
           plenty true 8 0%nat c a' (sample_gcpu 254 0 0) (fun _ => eq_refl) ltac:(lia) E eq_refl).
  intros v. by eexists.
Defined.

Lemma feature_control_faults_and_skips_witness :
  vmexit_msr_read no_rd_fault cap_wr_fault true 36 (fun _ => true) (fun h v => v) no_other
    (mk_msrctl [] [mk_msrdesc 0x3A (Some msr_feature_control_read_handler_p) None 0]) (sample_gcpu 0x3A 5 6)
  = Ok (set_value_regs 0 0 (act SkipInstruction (act InjectGp0 (sample_gcpu 0x3A 5 6)))).
Proof.
  apply (feature_control_faults_and_skips no_rd_fault cap_wr_fault true 36 (fun _ => true) (fun h v => v) no_other
    (mk_msrctl [] [mk_msrdesc 0x3A (Some msr_feature_control_read_handler_p) None 0])
    (sample_gcpu 0x3A 5 6) None 0); reflexivity.
Defined.

Lemma vmcs_resident_msr_roundtrip_witness :
  exists g1 g2,
    vmexit_msr_write no_rd_fault cap_wr_fault true 36 (fun _ => true) (fun h v => v) no_other
      (mk_msrctl [] []) (sample_gcpu 0xC0000100 0x7f 0x12345678) = Ok g1 /\
    vmexit_msr_read no_rd_fault cap_wr_fault true 36 (fun _ => true) (fun h v => v) no_other
      (mk_msrctl [] []) (set_value_regs 0 0 g1) = Ok g2 /\
    vmcs g1 VMCS_GUEST_FS_BASE = 0x7f12345678 /\ rdx g2 = 0x7f /\ rax g2 = 0x12345678 /\
    actions g2 = [SkipInstruction; SkipInstruction].
Proof.
  destruct (vmcs_resident_msr_roundtrip no_rd_fault cap_wr_fault true 36 (fun _ => true) (fun h v => v) no_other
    (mk_msrctl [] []) (sample_gcpu 0xC0000100 0x7f 0x12345678) VMCS_GUEST_FS_BASE 0 0
    ltac:(apply lives_fs_base) ltac:(done) ltac:(done) ltac:(simpl; lia) ltac:(simpl; lia))
    as (g1 & g2 & E1 & E2 & F & _ & _ & D & A & Ac & _).
  exists g1, g2. split; [exact E1|]. split; [exact E2|]. split; [exact F|]. split; [exact D|]. split; [exact A|exact Ac].
Defined.

(** A registration that fails because the number is out of range leaves a zeroed descriptor
    at the head of the list; it stands for register 0 and hides the handler registered for
    it, although its accesses still exit. *)
Theorem bad_id_hides_msr_zero :
  match msr_run plenty pred
          [Register 0 (other_handler 7) READ_ACCESS 5; Register 0x2000 (other_handler 8) READ_ACCESS 0]
          (mk_msrctl (replicate 4096 0) [], 0%nat) with
  | Ok (c, _) => intercepted (msr_bitmap c) READ_ACCESS 0 = true /\ handler_for (msr_list c) READ_ACCESS 0 = None
  | _ => False
  end.
Proof. vm_compute. done. Qed.
