(* ===== verification/PageWalker.v ===== *)
(** memory/memory_manager/page_walker.c: the walk over a guest's page tables that the
    hypervisor makes for a guest linear address, in the 32-bit, PAE and IA-32e modes, with
    the page fault error code and the update of the accessed and dirty bits. *)

From S2P Require Import Prelude VmmDefs Address Lock Libc.

(** * Entries

    An entry is its 64-bit value; without PAE only the low 32 bits are read. *)

Definition bits (v lo n : Z) : Z := Z.land (Z.shiftr v lo) (Z.ones n).

Definition e_present (e : Z) : bool := Z.testbit e 0.
Definition e_writable (e : Z) : bool := Z.testbit e 1.
Definition e_user (e : Z) : bool := Z.testbit e 2.
Definition e_page_size (e : Z) : bool := Z.testbit e 7.
Definition e_addr_base_low (e : Z) : Z := bits e 12 20.
Definition e_addr_base_high (e : Z) : Z := bits e 32 20.
Definition e_avl_or_res (e : Z) : Z := bits e 52 11.
Definition e_exb_or_res (e : Z) : bool := Z.testbit e 63.
Definition set_accessed (e : Z) : Z := Z.lor e (2 ^ 5).
Definition set_dirty (e : Z) : Z := Z.lor e (2 ^ 6).

(** PW_PFEC: present, is_write, is_user, is_reserved, is_fetch. *)
Definition pfec (present write user reserved fetch : bool) : Z :=
  Z.b2z present + 2 * Z.b2z write + 4 * Z.b2z user + 8 * Z.b2z reserved + 16 * Z.b2z fetch.

Inductive PW_RETVAL := PW_RETVAL_SUCCESS | PW_RETVAL_PF | PW_RETVAL_PHYS_MEM_VIOLATION | PW_RETVAL_FAIL.

Definition PW_INVALID_GPA : Z := 2 ^ 64 - 1.
Definition PW_INVALID_INDEX : Z := 2 ^ 32 - 1.
Definition PW_PAE_ENTRY_INCREMENT : Z := 8.
Definition PW_NON_PAE_ENTRY_INCREMENT : Z := 4.
Definition PW_NUM_OF_PDPT_ENTRIES_IN_32_BIT_MODE : Z := 4.
Definition PW_PDPT_ALIGNMENT : Z := 32.
Definition PAGE_2MB_SIZE : Z := 2 ^ 21.
Definition PAGE_4MB_SIZE : Z := 2 ^ 22.
Definition PAGE_1GB_SIZE : Z := 2 ^ 30.

(** The paging controls of the guest CPU. *)
Record paging := mk_paging { is_nxe : bool; is_lme : bool; is_wp : bool; is_pae : bool; is_pse : bool }.

Definition EFER_LME : Z := 0x100.
Definition EFER_NXE : Z := 0x800.
Definition CR0_WP : Z := 0x10000.
Definition CR4_PSE : Z := 0x10.
Definition CR4_PAE : Z := 0x20.

Definition paging_of (efer cr0 cr4 : Z) : paging :=
  mk_paging (negb (Z.land efer EFER_NXE =? 0)) (negb (Z.land efer EFER_LME =? 0))
    (negb (Z.land cr0 CR0_WP =? 0)) (negb (Z.land cr4 CR4_PAE =? 0)) (negb (Z.land cr4 CR4_PSE =? 0)).

Definition pw_retrieve_table_from_cr3 (cr3 : Z) (is_pae is_lme : bool) : Z :=
  if negb is_pae || is_lme then ALIGN_BACKWARD cr3 PAGE_4KB_SIZE
  else ALIGN_BACKWARD cr3 PW_PDPT_ALIGNMENT.

(** The indices into the PML4, the page directory pointers, the directory and the table. *)
Definition pw_retrieve_indices (virtual_address : Z) (is_pae is_lme : bool) : Z * Z * Z * Z :=
  let low := u32 virtual_address in
  if is_pae then
    let '(pml4te_index, pdpte_index) :=
      if is_lme then
        (u32 (Z.shiftr (Z.land virtual_address 0xff8000000000) 39),
         u32 (Z.shiftr (Z.land virtual_address 0x7fc0000000) 30))
      else (PW_INVALID_INDEX, Z.shiftr (Z.land low 0xc0000000) 30) in
    (pml4te_index, pdpte_index, Z.shiftr (Z.land low 0x3fe00000) 21, Z.shiftr (Z.land low 0x1ff000) 12)
  else
    (PW_INVALID_INDEX, PW_INVALID_INDEX, Z.shiftr (Z.land low 0xffc00000) 22,
     Z.shiftr (Z.land low 0x3ff000) 12).

Definition pw_is_big_page_pde (entry : Z) (is_lme is_pae is_pse : bool) : bool :=
  if negb (e_page_size entry) then false
  else if is_lme || is_pae then true
  else is_pse.

Definition pw_is_1gb_page_pdpte (entry : Z) : bool := e_page_size entry.

Section Reserved.
(** pw_reserved_bits_high_mask, set up by address.c. *)
Context (high_mask : Z).

Definition high_reserved (entry : Z) : bool := negb (Z.land (e_addr_base_high entry) high_mask =? 0).

Definition pw_are_reserved_bits_in_pml4te_cleared (entry : Z) (is_nxe : bool) : bool :=
  if high_reserved entry then false
  else if negb is_nxe && e_exb_or_res entry then false
  else true.

Definition pw_are_reserved_bits_in_pdpte_cleared (entry : Z) (is_nxe is_lme : bool) : bool :=
  if high_reserved entry then false
  else if negb is_lme then
    negb (negb (e_avl_or_res entry =? 0) || e_exb_or_res entry || e_writable entry || e_user entry)
  else if negb is_nxe && e_exb_or_res entry then false
  else if pw_is_1gb_page_pdpte entry then Z.land entry 0x3fffe000 =? 0
  else true.

Definition pw_are_reserved_bits_in_pde_cleared (entry : Z) (is_nxe is_lme is_pae is_pse : bool) : bool :=
  if is_pae then
    if high_reserved entry then false
    else if negb is_nxe && e_exb_or_res entry then false
    else if negb is_lme && negb (e_avl_or_res entry =? 0) then false
    else if pw_is_big_page_pde entry is_lme is_pae is_pse then Z.land entry 0x1fe000 =? 0
    else true
  else
    negb (pw_is_big_page_pde entry is_lme is_pae is_pse && negb (Z.land (u32 entry) 0x3fe000 =? 0)).

Definition pw_are_reserved_bits_in_pte_cleared (pte : Z) (is_nxe is_lme is_pae : bool) : bool :=
  if negb is_pae then true
  else if high_reserved pte then false
  else if negb is_lme && negb (e_avl_or_res pte =? 0) then false
  else if negb is_nxe && e_exb_or_res pte then false
  else true.
End Reserved.

(** * Permissions *)

Definition pw_is_write_access_permitted (pml4te pdpte pde pte : Z) (is_user is_wp is_lme is_pae is_pse : bool)
  : bool :=
  if negb is_user && negb is_wp then true
  else if is_lme && (negb (e_writable pml4te) || negb (e_writable pdpte)) then false
  else if pw_is_1gb_page_pdpte pdpte then true
  else if negb (e_writable pde) then false
  else if pw_is_big_page_pde pde is_lme is_pae is_pse then true
  else e_writable pte.

Definition pw_is_user_access_permitted (pml4te pdpte pde pte : Z) (is_lme is_pae is_pse : bool) : bool :=
  if is_lme && (negb (e_user pml4te) || negb (e_user pdpte)) then false
  else if pw_is_1gb_page_pdpte pdpte then true
  else if negb (e_user pde) then false
  else if pw_is_big_page_pde pde is_lme is_pae is_pse then true
  else e_user pte.

Definition pw_is_fetch_access_permitted (pml4te pdpte pde pte : Z) (is_lme is_pae is_pse : bool) : bool :=
  if is_lme && (e_exb_or_res pml4te || e_exb_or_res pdpte) then false
  else if pw_is_1gb_page_pdpte pdpte then true
  else if e_exb_or_res pde then false
  else if pw_is_big_page_pde pde is_lme is_pae is_pse then true
  else negb (e_exb_or_res pte).

(** * Addresses *)

(** Without PAE the 20-bit field is promoted to int before it is shifted, so that the
    result is sign-extended to 64 bits. *)
Definition pw_retrieve_phys_addr (entry : Z) (is_pae : bool) : Z :=
  if is_pae then
    let addr_low := u32 (Z.shiftl (e_addr_base_low entry) 12) in
    let addr_high := e_addr_base_high entry in
    Z.lor (Z.shiftl addr_high 32) addr_low
  else u64 (s32 (Z.shiftl (e_addr_base_low entry) 12)).

Definition pw_retrieve_big_page_phys_addr (entry : Z) (is_pae is_1gb : bool) : Z :=
  let base := pw_retrieve_phys_addr entry is_pae in
  if is_pae then
    if is_1gb then ALIGN_BACKWARD base PAGE_1GB_SIZE else ALIGN_BACKWARD base PAGE_2MB_SIZE
  else ALIGN_BACKWARD base PAGE_4MB_SIZE.

Definition pw_get_big_page_offset (virtual_address : Z) (is_pae is_1gb : bool) : Z :=
  if is_pae then
    if is_1gb then u32 (Z.land virtual_address (PAGE_1GB_SIZE - 1))
    else u32 (Z.land virtual_address (PAGE_2MB_SIZE - 1))
  else u32 (Z.land virtual_address (PAGE_4MB_SIZE - 1)).

(** * Accesses to the guest's tables *)

Definition load32 (m : mem) (a : Z) : Z := load_bytes m a 4.
Definition store32 (m : mem) (a v : Z) : mem := store_bytes m a 4 v.

(** The compare-exchange on the low half of the entry; its failure is ignored. *)
Definition pw_update_ad_bits_in_entry (m : mem) (native_entry old_value new_value : Z) : mem :=
  if negb (u32 old_value =? u32 new_value) then
    store32 m native_entry
      (hw_interlocked_compare_exchange (load32 m native_entry) (u32 old_value) (u32 new_value)).1
  else m.

(** Pointers to the entries in the guest's tables (0 is NULL), and the values read. *)
Definition pw_update_ad_bits (m : mem) (p_pml4te pml4te p_pdpte pdpte p_pde pde p_pte pte : Z)
  (is_write_access is_lme is_pae is_pse : bool) : mem :=
  let '(m, pdpte) :=
    if is_lme then
      let m := pw_update_ad_bits_in_entry m p_pml4te pml4te (set_accessed pml4te) in
      let before := if p_pml4te =? p_pdpte then set_accessed pdpte else pdpte in
      (pw_update_ad_bits_in_entry m p_pdpte before (set_accessed pdpte), set_accessed pdpte)
    else (m, pdpte) in
  if pw_is_1gb_page_pdpte pdpte then m
  else
    let before := if (p_pml4te =? p_pde) || (p_pdpte =? p_pde) then set_accessed pde else pde in
    let pde := set_accessed pde in
    if pw_is_big_page_pde pde is_lme is_pae is_pse then
      pw_update_ad_bits_in_entry m p_pde before (if is_write_access then set_dirty pde else pde)
    else
      let m := pw_update_ad_bits_in_entry m p_pde before pde in
      let before :=
        if (p_pml4te =? p_pte) || (p_pdpte =? p_pte) || (p_pde =? p_pte) then set_accessed pte else pte in
      let pte := set_accessed pte in
      pw_update_ad_bits_in_entry m p_pte before (if is_write_access then set_dirty pte else pte).

(** * The walk *)

Record walk_result := mk_walk { w_retval : PW_RETVAL; w_gpa : Z; w_pfec : option Z; w_mem : mem }.

Section Walk.
(** gpm_gpa_to_hpa of the guest's current map, and hmm_hpa_to_hva. *)
Context (gpa_to_hpa : Z -> option Z) (hpa_to_hva : Z -> option Z).
Context (use_host_page_tables : bool) (high_mask : Z) (p : paging).

Definition pw_retrieve_table_entry (table_gpa entry_index : Z) : option Z :=
  let table_hpa := if use_host_page_tables then Some table_gpa else gpa_to_hpa table_gpa in
  match table_hpa with
  | None => None
  | Some table_hpa =>
      hpa_to_hva (if is_pae p then table_hpa ⊕₆₄ (entry_index ⊗₃₂ PW_PAE_ENTRY_INCREMENT)
                  else table_hpa ⊕₆₄ (entry_index ⊗₃₂ PW_NON_PAE_ENTRY_INCREMENT))
  end.

(** The guest does not run meanwhile, so that two reads of an entry agree. *)
Definition pw_read_entry_value (m : mem) (fill_from : Z) : Z :=
  if is_pae p then load64 m fill_from else load32 m fill_from.

Section Access.
Context (virt_addr : Z) (is_write is_user is_fetch set_ad_bits : bool).

Definition fetch_checked : bool := is_pae p && is_nxe p && is_fetch.

Definition fault (m : mem) (gpa : Z) (present reserved : bool) : walk_result :=
  mk_walk PW_RETVAL_PF gpa (Some (pfec present is_write is_user reserved fetch_checked)) m.
Definition violation (m : mem) : walk_result := mk_walk PW_RETVAL_PHYS_MEM_VIOLATION PW_INVALID_GPA None m.

(** The three permission checks, made in the same order for each page size. *)
Definition permitted (pml4te pdpte pde pte : Z) : bool :=
  negb (is_write &&
        negb (pw_is_write_access_permitted pml4te pdpte pde pte is_user (is_wp p) (is_lme p) (is_pae p) (is_pse p))) &&
  negb (is_user && negb (pw_is_user_access_permitted pml4te pdpte pde pte (is_lme p) (is_pae p) (is_pse p))) &&
  negb (fetch_checked &&
        negb (pw_is_fetch_access_permitted pml4te pdpte pde pte (is_lme p) (is_pae p) (is_pse p))).

(** The end of the walk on a page: [gpa_fault] is what the caller gets with a protection
    fault, [gpa] with success. *)
Definition finish (m : mem) (p_pml4te pml4te p_pdpte pdpte p_pde pde p_pte pte gpa_fault gpa : Z) : walk_result :=
  if negb (permitted pml4te pdpte pde pte) then fault m gpa_fault true false
  else
    mk_walk PW_RETVAL_SUCCESS gpa None
      (if set_ad_bits then
         pw_update_ad_bits m p_pml4te pml4te p_pdpte pdpte p_pde pde p_pte pte is_write
           (is_lme p) (is_pae p) (is_pse p)
       else m).

(** From the page table on. *)
Definition walk_pte (m : mem) (pte_index p_pml4te pml4te p_pdpte pdpte p_pde pde : Z) : walk_result :=
  match pw_retrieve_table_entry (pw_retrieve_phys_addr pde (is_pae p)) pte_index with
  | None => violation m
  | Some p_pte =>
      let pte := pw_read_entry_value m p_pte in
      if negb (e_present pte) then fault m PW_INVALID_GPA false false
      else if negb (pw_are_reserved_bits_in_pte_cleared high_mask pte (is_nxe p) (is_lme p) (is_pae p))
      then fault m PW_INVALID_GPA true true
      else
        let gpa := pw_retrieve_phys_addr pte (is_pae p) in
        finish m p_pml4te pml4te p_pdpte pdpte p_pde pde p_pte pte gpa
          (Z.lor gpa (Z.land virt_addr PAGE_4KB_MASK))
  end.

(** From the page directory on. *)
Definition walk_pde (m : mem) (pd_gpa pde_index pte_index p_pml4te pml4te p_pdpte pdpte : Z) : walk_result :=
  match pw_retrieve_table_entry pd_gpa pde_index with
  | None => violation m
  | Some p_pde =>
      let pde := pw_read_entry_value m p_pde in
      if negb (e_present pde) then fault m PW_INVALID_GPA false false
      else if negb (pw_are_reserved_bits_in_pde_cleared high_mask pde (is_nxe p) (is_lme p) (is_pae p) (is_pse p))
      then fault m PW_INVALID_GPA true true
      else if pw_is_big_page_pde pde (is_lme p) (is_pae p) (is_pse p) then
        let gpa := pw_retrieve_big_page_phys_addr pde (is_pae p) false
                     ⊕₆₄ pw_get_big_page_offset virt_addr (is_pae p) false in
        finish m p_pml4te pml4te p_pdpte pdpte p_pde pde 0 0 gpa gpa
      else walk_pte m pte_index p_pml4te pml4te p_pdpte pdpte p_pde pde
  end.

(** From the test for a 1 GB page on; without PAE the entry is 0. *)
Definition walk_1gb (m : mem) (first_table pde_index pte_index p_pml4te pml4te p_pdpte pdpte : Z) : walk_result :=
  if pw_is_1gb_page_pdpte pdpte then
    let gpa := pw_retrieve_big_page_phys_addr pdpte (is_pae p) true
                 ⊕₆₄ pw_get_big_page_offset virt_addr (is_pae p) true in
    finish m p_pml4te pml4te p_pdpte pdpte 0 0 0 0 gpa gpa
  else
    let pd_gpa := if is_pae p then pw_retrieve_phys_addr pdpte (is_pae p) else first_table in
    walk_pde m pd_gpa pde_index pte_index p_pml4te pml4te p_pdpte pdpte.

(** The page directory pointer entry at [p_pdpte]. *)
Definition walk_pdpte (m : mem) (first_table pde_index pte_index p_pml4te pml4te p_pdpte : Z) : walk_result :=
  let pdpte := pw_read_entry_value m p_pdpte in
  if negb (e_present pdpte) then fault m PW_INVALID_GPA false false
  else if negb (pw_are_reserved_bits_in_pdpte_cleared high_mask pdpte (is_nxe p) (is_lme p))
  then fault m PW_INVALID_GPA true true
  else walk_1gb m first_table pde_index pte_index p_pml4te pml4te p_pdpte pdpte.

Definition pw_perform_page_walk (m : mem) (cr3 : Z) : walk_result :=
  let '(pml4te_index, pdpte_index, pde_index, pte_index) := pw_retrieve_indices virt_addr (is_pae p) (is_lme p) in
  let first_table := pw_retrieve_table_from_cr3 cr3 (is_pae p) (is_lme p) in
  if is_pae p then
    if is_lme p then
      match pw_retrieve_table_entry first_table pml4te_index with
      | None => violation m
      | Some p_pml4te =>
          let pml4te := pw_read_entry_value m p_pml4te in
          if negb (e_present pml4te) then fault m PW_INVALID_GPA false false
          else if negb (pw_are_reserved_bits_in_pml4te_cleared high_mask pml4te (is_nxe p))
          then fault m PW_INVALID_GPA true true
          else
            match pw_retrieve_table_entry (pw_retrieve_phys_addr pml4te (is_pae p)) pdpte_index with
            | None => violation m
            | Some p_pdpte => walk_pdpte m first_table pde_index pte_index p_pml4te pml4te p_pdpte
            end
      end
    else
      match pw_retrieve_table_entry first_table pdpte_index with
      | None => violation m
      | Some p_pdpte => walk_pdpte m first_table pde_index pte_index 0 0 p_pdpte
      end
  else walk_1gb m first_table pde_index pte_index 0 0 0 0.
End Access.

(** The check of the four entries a CR3 load reads in PAE mode. *)
Fixpoint pdpt_valid_loop (n : nat) (m : mem) (pdpte_hva : Z) : bool :=
  match n with
  | O => true
  | S n' =>
      let pdpte := load64 m pdpte_hva in
      if negb (e_present pdpte) then pdpt_valid_loop n' m (pdpte_hva + PW_PAE_ENTRY_INCREMENT)
      else if negb (pw_are_reserved_bits_in_pdpte_cleared high_mask pdpte (is_nxe p) (is_lme p)) then false
      else pdpt_valid_loop n' m (pdpte_hva + PW_PAE_ENTRY_INCREMENT)
  end.
Definition pw_is_pdpt_in_32_bit_pae_mode_valid (m : mem) (pdpt_ptr : Z) : bool :=
  pdpt_valid_loop (Z.to_nat PW_NUM_OF_PDPT_ENTRIES_IN_32_BIT_MODE) m pdpt_ptr.
End Walk.
