(* ===== verification/PageWalkerSpec.v ===== *)
(** The page walk against the 4-level walk of the processor manual, and the accessed and
    dirty bits against one sequence of OR operations on the entries. *)

From S2P Require Import Prelude VmmDefs Address Lock Libc PageWalker.

(** * Reference: the 4-level walk of the processor manual

    One recursive function over the levels, with the rights of the entries accumulated on
    the way down. *)

(** Bits [lo .. lo+n-1] of a value. *)
Definition fld (v lo n : Z) : Z := (v / 2 ^ lo) mod 2 ^ n.

Record level := mk_level {
  shift : Z;           (** log2 of the memory one entry maps *)
  may_map : bool;      (** an entry with bit 7 set maps a page *)
  is_last : bool       (** every entry maps a page *)
}.

(** [gb_pages]: the processor has pages of 1 GB. *)
Definition ia32e_levels (gb_pages : bool) : list level :=
  [mk_level 39 false false; mk_level 30 gb_pages false; mk_level 21 true false; mk_level 12 false true].

Inductive ref_result :=
| RefPage (gpa : Z)
| RefFault (present reserved : bool) (gpa : option Z)   (** the target, for a protection fault *)
| RefNoMemory.

Section Reference.
(** The value of an entry of the table at a guest physical address. *)
Context (entry_at : Z -> Z -> option Z).
Context (phys_bits : Z) (nxe wp smep : bool) (va : Z) (write user fetch : bool).

(** The reserved bits of an entry: from the physical address width to bit 51, execute-disable
    when it is not enabled, bit 7 where it cannot make the entry map a page, and in an entry that maps a
    large page the bits of the address below its size, bit 12 (PAT) excepted. *)
Definition ref_reserved (l : level) (leaf : bool) (e : Z) : bool :=
  negb (fld e phys_bits (52 - phys_bits) =? 0) ||
  (negb nxe && Z.testbit e 63) ||
  (negb (is_last l) && negb (may_map l) && Z.testbit e 7) ||
  (leaf && negb (fld e 13 (shift l - 13) =? 0) && negb (is_last l)).

(** A write needs the right, but for a supervisor without CR0.WP; a user access needs a user page; a fetch needs an
    executable page, and with SMEP a supervisor does not fetch from a user page. *)
Definition ref_allowed (w u x : bool) : bool :=
  (negb write || w || (negb user && negb wp)) && (negb user || u) && (negb (fetch && nxe) || x) &&
  negb (fetch && smep && negb user && u).

(** The page an entry maps, and the address in it. *)
Definition ref_frame (e : Z) : Z := fld e 12 40 * 2 ^ 12.
Definition ref_page (l : level) (e : Z) : Z := ref_frame e / 2 ^ shift l * 2 ^ shift l.

Fixpoint ref_walk (levels : list level) (table : Z) (w u x : bool) : ref_result :=
  match levels with
  | [] => RefNoMemory
  | l :: levels' =>
      match entry_at table (fld va (shift l) 9) with
      | None => RefNoMemory
      | Some e =>
          let leaf := is_last l || (may_map l && Z.testbit e 7) in
          if negb (Z.testbit e 0) then RefFault false false None
          else if ref_reserved l leaf e then RefFault true true None
          else
            let w := w && Z.testbit e 1 in
            let u := u && Z.testbit e 2 in
            let x := x && negb (Z.testbit e 63) in
            if leaf then
              if ref_allowed w u x then RefPage (ref_page l e + va mod 2 ^ shift l)
              else RefFault true false (Some (ref_page l e + va mod 2 ^ shift l))
            else ref_walk levels' (ref_frame e) w u x
      end
  end.
End Reference.

(** * Fields *)

Lemma bits_fld v lo n : 0 <= lo -> 0 <= n -> bits v lo n = fld v lo n.
Proof. intros. unfold bits, fld. by rewrite Z.land_ones, Z.shiftr_div_pow2 by lia. Qed.

Lemma fld_testbit v lo n k : 0 <= lo -> 0 <= n -> 0 <= k ->
  Z.testbit (fld v lo n) k = (k <? n) && Z.testbit v (lo + k).
Proof.
  intros Hl Hn Hk. unfold fld. destruct (Z.ltb_spec k n).
  - rewrite Z.mod_pow2_bits_low, <- Z.shiftr_div_pow2, Z.shiftr_spec by lia. simpl. f_equal. lia.
  - by rewrite Z.mod_pow2_bits_high by lia.
Qed.

Lemma fld_bound v lo n : 0 <= n -> 0 <= fld v lo n < 2 ^ n.
Proof. intros. apply Z.mod_pos_bound. lia. Qed.

(** A masked field shifted down. *)
Lemma masked_fld v lo n : 0 <= lo -> 0 <= n -> Z.shiftr (Z.land v (Z.shiftl (Z.ones n) lo)) lo = fld v lo n.
Proof.
  intros Hl Hn. apply Z.bits_inj'. intros k Hk. rewrite fld_testbit by lia.
  rewrite Z.shiftr_spec, Z.land_spec, Z.shiftl_spec by lia. rewrite (Z.add_comm k lo).
  replace (lo + k - lo) with k by lia. destruct (Z.ltb_spec k n).
  - by rewrite Z.ones_spec_low, andb_true_r by lia.
  - by rewrite Z.ones_spec_high, andb_false_r by lia.
Qed.

Lemma masked_zero v lo n : 0 <= lo -> 0 <= n ->
  (Z.land v (Z.shiftl (Z.ones n) lo) =? 0) = (fld v lo n =? 0).
Proof.
  intros Hl Hn. rewrite <- masked_fld by lia. apply eq_true_iff_eq. rewrite !Z.eqb_eq. split.
  - intros ->. by rewrite Z.shiftr_0_l.
  - intros H. apply Z.bits_inj'. intros k Hk. rewrite Z.bits_0, Z.land_spec, Z.shiftl_spec by lia.
    destruct (decide (lo <= k)) as [Hk'|]; [|by rewrite (Z.testbit_neg_r (Z.ones n)), andb_false_r by lia].
    apply (f_equal (fun z => Z.testbit z (k - lo))) in H.
    rewrite Z.shiftr_spec, Z.land_spec, Z.shiftl_spec, Z.bits_0 in H by lia.
    by replace (k - lo + lo) with k in H by lia.
Qed.

Lemma fld_u32 v lo n : 0 <= lo -> 0 <= n -> lo + n <= 32 -> fld (u32 v) lo n = fld v lo n.
Proof.
  intros Hl Hn Hs. apply Z.bits_inj'. intros k Hk. rewrite !fld_testbit by lia.
  destruct (Z.ltb_spec k n); [|done]. simpl. unfold u32, wrap. rewrite Z.mod_pow2_bits_low by lia. done.
Qed.

Lemma indices_ia32e va : pw_retrieve_indices va true true =
  (fld va 39 9, fld va 30 9, fld va 21 9, fld va 12 9).
Proof.
  unfold pw_retrieve_indices.
  change 0xff8000000000 with (Z.shiftl (Z.ones 9) 39). change 0x7fc0000000 with (Z.shiftl (Z.ones 9) 30).
  change 0x3fe00000 with (Z.shiftl (Z.ones 9) 21). change 0x1ff000 with (Z.shiftl (Z.ones 9) 12).
  rewrite !masked_fld by lia. rewrite !fld_u32 by lia.
  pose proof (fld_bound va 39 9). pose proof (fld_bound va 30 9). by usmall.
Qed.

(** Splitting a field in two. *)
Lemma fld_split v lo n1 n2 : 0 <= lo -> 0 <= n1 -> 0 <= n2 ->
  fld v lo (n1 + n2) = fld v lo n1 + 2 ^ n1 * fld v (lo + n1) n2.
Proof.
  intros Hl H1 H2. unfold fld. rewrite !Z.pow_add_r by lia.
  rewrite <- Z.div_div by lia. rewrite Z.rem_mul_r by lia. done.
Qed.


Lemma phys_addr_frame e : pw_retrieve_phys_addr e true = ref_frame e.
Proof.
  unfold pw_retrieve_phys_addr, e_addr_base_low, e_addr_base_high, ref_frame. rewrite !bits_fld by lia.
  pose proof (fld_bound e 12 20 ltac:(lia)). pose proof (fld_bound e 32 20 ltac:(lia)).
  rewrite !Z.shiftl_mul_pow2 by lia. usmall. rewrite lor_disjoint by lia.
  change 40 with (20 + 20). rewrite fld_split by lia. change (12 + 20) with 32. lia.
Qed.

(** The mask of address.c selects the bits from the physical address width up. *)
Definition high_mask_of (phys_bits : Z) : Z := u32 (Z.lnot (u32 (Z.shiftl 1 (phys_bits - 32)) - 1)).

Lemma high_mask_bit n k : 32 <= n <= 52 -> 0 <= k -> Z.testbit (high_mask_of n) k = (k <? 32) && (n - 32 <=? k).
Proof.
  intros Hn Hk. unfold high_mask_of. rewrite Z.shiftl_1_l.
  assert (2 ^ (n - 32) <= 2 ^ 20) by (apply Z.pow_le_mono_r; lia).
  rewrite (u32_small (2 ^ (n - 32))) by lia. rewrite <- Z.sub_1_r || idtac.
  replace (2 ^ (n - 32) - 1) with (Z.ones (n - 32)) by (rewrite Z.ones_equiv; lia).
  unfold u32, wrap. destruct (Z.ltb_spec k 32); [|by rewrite Z.mod_pow2_bits_high by lia].
  rewrite Z.mod_pow2_bits_low, Z.lnot_spec by lia. simpl.
  destruct (Z.leb_spec (n - 32) k); [by rewrite Z.ones_spec_high by lia|by rewrite Z.ones_spec_low by lia].
Qed.

Lemma high_reserved_fld n e : 32 <= n <= 52 ->
  high_reserved (high_mask_of n) e = negb (fld e n (52 - n) =? 0).
Proof.
  intros Hn. unfold high_reserved, e_addr_base_high. rewrite bits_fld by lia. f_equal.
  assert (Z.land (fld e 32 20) (high_mask_of n) = Z.shiftl (fld e n (52 - n)) (n - 32)) as ->.
  { apply Z.bits_inj'. intros k Hk. rewrite Z.land_spec, Z.shiftl_spec, high_mask_bit, fld_testbit by lia.
    destruct (Z.leb_spec (n - 32) k).
    - rewrite fld_testbit by lia. replace (n + (k - (n - 32))) with (32 + k) by lia.
      destruct (Z.ltb_spec k 20), (Z.ltb_spec (k - (n - 32)) (52 - n)), (Z.ltb_spec k 32); try lia; simpl;
        by rewrite ?andb_true_r.
    - by rewrite (Z.testbit_neg_r _ (k - (n - 32))), !andb_false_r by lia. }
  rewrite Z.shiftl_mul_pow2 by lia. pose proof (fld_bound e n (52 - n) ltac:(lia)).
  assert (0 < 2 ^ (n - 32)) by lia.
  destruct (Z.eqb_spec (fld e n (52 - n)) 0) as [->|]; [done|]. apply Z.eqb_neq. nia.
Qed.

(** Large pages. *)
Lemma align_page e s : 12 <= s <= 39 ->
  ALIGN_BACKWARD (ref_frame e) (2 ^ s) = ref_frame e / 2 ^ s * 2 ^ s.
Proof.
  intros Hs. pose proof (fld_bound e 12 40 ltac:(lia)). unfold ref_frame in *.
  rewrite ALIGN_BACKWARD_pow2 by lia. pose proof (Z.div_mod (fld e 12 40 * 2 ^ 12) (2 ^ s)). lia.
Qed.

Lemma page_plus_offset e s va : 12 <= s <= 39 -> 0 <= va ->
  u64 (ref_frame e / 2 ^ s * 2 ^ s + va mod 2 ^ s) = ref_frame e / 2 ^ s * 2 ^ s + va mod 2 ^ s.
Proof.
  intros Hs Hva. pose proof (fld_bound e 12 40 ltac:(lia)). unfold ref_frame.
  assert (2 ^ s <= 2 ^ 39) by (apply Z.pow_le_mono_r; lia).
  pose proof (Z.div_mod (fld e 12 40 * 2 ^ 12) (2 ^ s)). pose proof (Z.mod_pos_bound va (2 ^ s)).
  pose proof (Z.mod_pos_bound (fld e 12 40 * 2 ^ 12) (2 ^ s)).
  assert (0 <= fld e 12 40 * 2 ^ 12 / 2 ^ s) by (apply Z.div_pos; lia).
  rewrite u64_small; [done|]. nia.
Qed.

(** * Equivalence in IA-32e mode *)

(** The walk of the code gives the result of the reference. With a protection fault on a
    4 KB page the address is that of the page, without the offset. *)
Definition agrees (va : Z) (write user fetch : bool) (r : walk_result) (ref : ref_result) : Prop :=
  match ref with
  | RefPage gpa => w_retval r = PW_RETVAL_SUCCESS /\ w_gpa r = gpa /\ w_pfec r = None
  | RefFault present reserved gpa =>
      w_retval r = PW_RETVAL_PF /\ w_pfec r = Some (pfec present write user reserved fetch) /\
      match gpa with
      | None => w_gpa r = PW_INVALID_GPA
      | Some t => w_gpa r = t \/ w_gpa r = t - va mod 4096
      end
  | RefNoMemory => w_retval r = PW_RETVAL_PHYS_MEM_VIOLATION /\ w_gpa r = PW_INVALID_GPA
  end.

Lemma reserved_pml4te n e nxe : 32 <= n <= 52 -> Z.testbit e 7 = false ->
  pw_are_reserved_bits_in_pml4te_cleared (high_mask_of n) e nxe =
    negb (ref_reserved n nxe (mk_level 39 false false) false e).
Proof.
  intros Hn H7. unfold pw_are_reserved_bits_in_pml4te_cleared, ref_reserved, e_exb_or_res.
  rewrite high_reserved_fld, H7 by done. by destruct (fld e n (52 - n) =? 0), nxe, (Z.testbit e 63).
Qed.

Lemma reserved_pdpte n e nxe : 32 <= n <= 52 ->
  pw_are_reserved_bits_in_pdpte_cleared (high_mask_of n) e nxe true =
    negb (ref_reserved n nxe (mk_level 30 true false) (Z.testbit e 7) e).
Proof.
  intros Hn. unfold pw_are_reserved_bits_in_pdpte_cleared, ref_reserved, e_exb_or_res, pw_is_1gb_page_pdpte,
    e_page_size. rewrite high_reserved_fld by done.
  change 0x3fffe000 with (Z.shiftl (Z.ones 17) 13). rewrite masked_zero by lia. cbn [shift is_last].
  change (30 - 13) with 17.
  by destruct (fld e n (52 - n) =? 0), nxe, (Z.testbit e 63), (Z.testbit e 7), (fld e 13 17 =? 0).
Qed.

Lemma reserved_pde n e nxe pse : 32 <= n <= 52 ->
  pw_are_reserved_bits_in_pde_cleared (high_mask_of n) e nxe true true pse =
    negb (ref_reserved n nxe (mk_level 21 true false) (Z.testbit e 7) e).
Proof.
  intros Hn. unfold pw_are_reserved_bits_in_pde_cleared, ref_reserved, e_exb_or_res, pw_is_big_page_pde,
    e_page_size. rewrite high_reserved_fld by done.
  change 0x1fe000 with (Z.shiftl (Z.ones 8) 13). rewrite masked_zero by lia. cbn [shift is_last].
  change (21 - 13) with 8.
  by destruct (fld e n (52 - n) =? 0), nxe, (Z.testbit e 63), (Z.testbit e 7), (fld e 13 8 =? 0).
Qed.

Lemma reserved_pte n e nxe : 32 <= n <= 52 ->
  pw_are_reserved_bits_in_pte_cleared (high_mask_of n) e nxe true true =
    negb (ref_reserved n nxe (mk_level 12 false true) true e).
Proof.
  intros Hn. unfold pw_are_reserved_bits_in_pte_cleared, ref_reserved, e_exb_or_res.
  rewrite high_reserved_fld by done. cbn [is_last negb]. rewrite andb_false_r.
  by destruct (fld e n (52 - n) =? 0), nxe, (Z.testbit e 63).
Qed.

Section Equivalence.
Context (gpa_to_hpa hpa_to_hva : Z -> option Z) (use_host : bool) (n : Z) (p : paging).
Context (va : Z) (write user fetch set_ad smep : bool) (m : mem).
Hypothesis Hsmep : fetch = true -> smep = true -> user = true /\ is_nxe p = true.
Hypothesis Hn : 32 <= n <= 52.
Hypothesis Hpae : is_pae p = true.
Hypothesis Hlme : is_lme p = true.
Hypothesis Hva : 0 <= va < 2 ^ 64.

Definition entry_at (table index : Z) : option Z :=
  load64 m <$> pw_retrieve_table_entry gpa_to_hpa hpa_to_hva use_host p table index.

#[local] Abbreviation agree :=
  (agrees va write user (fetch_checked p fetch)).
#[local] Abbreviation ref :=
  (ref_walk entry_at n (is_nxe p) (is_wp p) smep va write user fetch).
#[local] Abbreviation allowed :=
  (ref_allowed (is_nxe p) (is_wp p) smep write user fetch).

(** The end of the walk, on a page whose permissions the reference has accumulated. *)
Lemma finish_agrees pp4 p4 pp3 p3 pp2 p2 pp1 p1 gpa_fault gpa w u x :
  permitted p write user fetch p4 p3 p2 p1 = allowed w u x ->
  (gpa_fault = gpa \/ gpa_fault = gpa - va mod 4096) ->
  agree (finish p write user fetch set_ad m pp4 p4 pp3 p3 pp2 p2 pp1 p1 gpa_fault gpa)
    (if allowed w u x then RefPage gpa else RefFault true false (Some gpa)).
Proof.
  intros Hp Hg. unfold finish. rewrite Hp. destruct (allowed w u x); simpl; [done|]. by split_and!.
Qed.

Lemma permitted_rights p4 p3 p2 p1 w u x :
  w = e_writable p4 && e_writable p3 &&
      (e_page_size p3 || e_writable p2 && (e_page_size p2 || e_writable p1)) ->
  u = e_user p4 && e_user p3 && (e_page_size p3 || e_user p2 && (e_page_size p2 || e_user p1)) ->
  x = negb (e_exb_or_res p4) && negb (e_exb_or_res p3) &&
      (e_page_size p3 || negb (e_exb_or_res p2) && (e_page_size p2 || negb (e_exb_or_res p1))) ->
  permitted p write user fetch p4 p3 p2 p1 = allowed w u x.
Proof using Hlme Hpae Hsmep.
  intros -> -> ->.
  assert (Es : forall b, negb (fetch && smep && negb user && b) = true).
  { intros b. destruct fetch, smep; try done. by destruct (Hsmep eq_refl eq_refl) as [-> _]. }
  unfold permitted, ref_allowed, fetch_checked, pw_is_write_access_permitted,
    pw_is_user_access_permitted, pw_is_fetch_access_permitted, pw_is_big_page_pde, pw_is_1gb_page_pdpte.
  rewrite Hpae, Hlme, Es, andb_true_r. simpl andb. f_equal; [f_equal|].
  - destruct write, user, (is_wp p), (e_writable p4), (e_writable p3), (e_page_size p3); try done;
      simpl; by destruct (e_writable p2), (e_page_size p2), (e_writable p1).
  - destruct user, (e_user p4), (e_user p3), (e_page_size p3); try done;
      simpl; by destruct (e_user p2), (e_page_size p2), (e_user p1).
  - rewrite (andb_comm fetch). destruct (is_nxe p && fetch); [|done]. simpl.
    destruct (e_exb_or_res p4), (e_exb_or_res p3), (e_page_size p3); try done;
      simpl; by destruct (e_exb_or_res p2), (e_page_size p2), (e_exb_or_res p1).
Qed.

(** What the rights are once the levels above have been passed. *)
Definition above_w (p4 p3 p2 : Z) : bool := e_writable p4 && e_writable p3 && e_writable p2.
Definition above_u (p4 p3 p2 : Z) : bool := e_user p4 && e_user p3 && e_user p2.
Definition above_x (p4 p3 p2 : Z) : bool :=
  negb (e_exb_or_res p4) && negb (e_exb_or_res p3) && negb (e_exb_or_res p2).

Lemma walk_pte_agrees pp4 p4 pp3 p3 pp2 p2 : e_page_size p3 = false -> e_page_size p2 = false ->
  agree (walk_pte gpa_to_hpa hpa_to_hva use_host (high_mask_of n) p va write user fetch set_ad m
           (fld va 12 9) pp4 p4 pp3 p3 pp2 p2)
    (ref [mk_level 12 false true] (ref_frame p2) (above_w p4 p3 p2) (above_u p4 p3 p2) (above_x p4 p3 p2)).
Proof using Hlme Hpae Hn Hva Hsmep.
  intros H3 H2. unfold walk_pte. cbn [ref_walk]. unfold entry_at. rewrite Hpae, phys_addr_frame.
  cbn [shift is_last may_map].
  destruct (pw_retrieve_table_entry _ _ _ _ _ _) as [pp1|]; [|done]. cbn [fmap option_fmap option_map].
  unfold pw_read_entry_value. rewrite Hpae, Hlme. set (p1 := load64 m pp1).
  cbn [orb]. rewrite reserved_pte by done. rewrite negb_involutive. unfold e_present.
  destruct (Z.testbit p1 0); cbn [negb]; [|done].
  destruct (ref_reserved _ _ _ _ _); [done|].
  assert (Hg : Z.lor (pw_retrieve_phys_addr p1 true) (Z.land va PAGE_4KB_MASK) =
               ref_page (mk_level 12 false true) p1 + va mod 2 ^ 12).
  { rewrite phys_addr_frame. unfold ref_page, ref_frame, PAGE_4KB_MASK, PAGE_4KB_SIZE. cbn [shift].
    replace (4096 - 1) with (Z.ones 12) by done. rewrite Z.land_ones by lia.
    rewrite lor_disjoint by lia. by rewrite Z.div_mul by lia. }
  rewrite Hg. apply finish_agrees.
  - apply permitted_rights; rewrite H3, H2; unfold above_w, above_u, above_x, e_writable, e_user, e_exb_or_res;
      simpl; by rewrite ?andb_assoc.
  - right. rewrite phys_addr_frame. unfold ref_page, ref_frame. cbn [shift]. rewrite Z.div_mul by lia. lia.
Qed.

Lemma walk_pde_agrees pp4 p4 pp3 p3 : e_page_size p3 = false ->
  agree (walk_pde gpa_to_hpa hpa_to_hva use_host (high_mask_of n) p va write user fetch set_ad m
           (ref_frame p3) (fld va 21 9) (fld va 12 9) pp4 p4 pp3 p3)
    (ref [mk_level 21 true false; mk_level 12 false true] (ref_frame p3)
       (e_writable p4 && e_writable p3) (e_user p4 && e_user p3)
       (negb (e_exb_or_res p4) && negb (e_exb_or_res p3))).
Proof using Hlme Hpae Hn Hva Hsmep.
  intros H3. unfold walk_pde. remember [mk_level 12 false true] as l1. cbn [ref_walk]. unfold entry_at at 1.
  cbn [shift is_last may_map].
  destruct (pw_retrieve_table_entry _ _ _ _ _ _) as [pp2|]; [|done]. cbn [fmap option_fmap option_map].
  unfold pw_read_entry_value. rewrite Hpae, Hlme. set (p2 := load64 m pp2).
  cbn [orb andb]. rewrite reserved_pde by done. rewrite negb_involutive. unfold e_present.
  destruct (Z.testbit p2 0); cbn [negb]; [|done].
  destruct (ref_reserved _ _ _ _ _); [done|].
  unfold pw_is_big_page_pde. cbn [orb]. unfold e_page_size at 1. destruct (Z.testbit p2 7) eqn:E7; cbn [negb].
  - assert (Hg : pw_retrieve_big_page_phys_addr p2 true false ⊕₆₄ pw_get_big_page_offset va true false =
        ref_page (mk_level 21 true false) p2 + va mod 2 ^ 21).
    { unfold pw_retrieve_big_page_phys_addr, pw_get_big_page_offset, PAGE_2MB_SIZE.
      rewrite phys_addr_frame, align_page by lia. replace (2 ^ 21 - 1) with (Z.ones 21) by done.
      rewrite Z.land_ones by lia. rewrite (u32_small (va mod 2 ^ 21)) by lia. by apply page_plus_offset; lia. }
    rewrite Hg. apply finish_agrees; [|by left].
    apply permitted_rights; rewrite H3; unfold e_page_size, e_writable, e_user, e_exb_or_res; rewrite E7;
      simpl; by rewrite ?andb_true_r, ?andb_assoc.
  - subst l1. apply walk_pte_agrees; done.
Qed.

Lemma walk_pdpte_agrees first pp4 p4 pp3 :
  agree (walk_pdpte gpa_to_hpa hpa_to_hva use_host (high_mask_of n) p va write user fetch set_ad m
           first (fld va 21 9) (fld va 12 9) pp4 p4 pp3)
    (let p3 := load64 m pp3 in
     if negb (Z.testbit p3 0) then RefFault false false None
     else if ref_reserved n (is_nxe p) (mk_level 30 true false) (Z.testbit p3 7) p3 then RefFault true true None
     else if Z.testbit p3 7 then
       if allowed (e_writable p4 && Z.testbit p3 1) (e_user p4 && Z.testbit p3 2)
            (negb (e_exb_or_res p4) && negb (Z.testbit p3 63))
       then RefPage (ref_page (mk_level 30 true false) p3 + va mod 2 ^ 30)
       else RefFault true false (Some (ref_page (mk_level 30 true false) p3 + va mod 2 ^ 30))
     else ref [mk_level 21 true false; mk_level 12 false true] (ref_frame p3)
       (e_writable p4 && Z.testbit p3 1) (e_user p4 && Z.testbit p3 2)
       (negb (e_exb_or_res p4) && negb (Z.testbit p3 63))).
Proof using Hlme Hpae Hn Hva Hsmep.
  unfold walk_pdpte, pw_read_entry_value. rewrite Hpae, Hlme. cbv zeta. set (p3 := load64 m pp3).
  rewrite reserved_pdpte by done. rewrite negb_involutive. unfold e_present.
  destruct (Z.testbit p3 0); cbn [negb]; [|done]. destruct (ref_reserved _ _ _ _ _); [done|].
  unfold walk_1gb, pw_is_1gb_page_pdpte. unfold e_page_size at 1. rewrite Hpae.
  destruct (Z.testbit p3 7) eqn:E7.
  - assert (Hg : pw_retrieve_big_page_phys_addr p3 true true ⊕₆₄ pw_get_big_page_offset va true true =
        ref_page (mk_level 30 true false) p3 + va mod 2 ^ 30).
    { unfold pw_retrieve_big_page_phys_addr, pw_get_big_page_offset, PAGE_1GB_SIZE.
      rewrite phys_addr_frame, align_page by lia. replace (2 ^ 30 - 1) with (Z.ones 30) by done.
      rewrite Z.land_ones by lia. rewrite (u32_small (va mod 2 ^ 30)) by lia. by apply page_plus_offset; lia. }
    rewrite Hg. apply finish_agrees; [|by left].
    apply permitted_rights; unfold e_page_size, e_writable, e_user, e_exb_or_res; rewrite E7; simpl;
      by rewrite ?andb_true_r.
  - rewrite phys_addr_frame. by apply walk_pde_agrees.
Qed.
End Equivalence.


(** * The accessed and dirty bits *)

Definition mem_eq (m m' : mem) : Prop := forall x, m x = m' x.
#[local] Infix "≡ₘ" := mem_eq (at level 70).

#[global] Instance mem_eq_equivalence : Equivalence mem_eq.
Proof. split; intros ?; unfold mem_eq; congruence || (intros; etrans; eauto). Qed.

(** The processor's own update: an OR of the bits into the entry. *)
Definition touch (m : mem) (q b : Z) : mem := store32 m q (Z.lor (load32 m q) b).

Definition ACCESSED : Z := 2 ^ 5.
Definition DIRTY : Z := 2 ^ 6.

#[local] Instance load32_proper : Proper (mem_eq ==> eq ==> eq) load32.
Proof. intros m m' E a _ <-. apply load_ext. intros. apply E. Qed.
#[local] Instance store32_proper : Proper (mem_eq ==> eq ==> eq ==> mem_eq) store32.
Proof. intros m m' E a _ <- v _ <- x. unfold store32, store_bytes. by destruct (within a 4 x). Qed.
#[local] Instance touch_proper : Proper (mem_eq ==> eq ==> eq ==> mem_eq) touch.
Proof. intros m m' E a _ <- b _ <-. unfold touch. by rewrite E. Qed.
#[local] Instance update_proper : Proper (mem_eq ==> eq ==> eq ==> eq ==> mem_eq) pw_update_ad_bits_in_entry.
Proof.
  intros m m' E a _ <- o _ <- v _ <-. unfold pw_update_ad_bits_in_entry.
  destruct (u32 o =? u32 v); [done|]. cbn [negb]. by rewrite E.
Qed.

Lemma load32_bound m a : mem_ok m -> 0 <= load32 m a < 2 ^ 32.
Proof.
  intros Hm. unfold load32. cbn [load_bytes].
  pose proof (Hm a). pose proof (Hm (a + 1)). pose proof (Hm (a + 1 + 1)). pose proof (Hm (a + 1 + 1 + 1)). lia.
Qed.

(** The entry's low half. *)
Lemma load64_u32 m a : mem_ok m -> u32 (load64 m a) = load32 m a.
Proof.
  intros Hm. assert (load64 m a = load32 m a + 2 ^ 32 * load32 m (a + 4)) as ->.
  { unfold load64, load32. cbn [load_bytes]. replace (a + 4) with (a + 1 + 1 + 1 + 1) by lia. lia. }
  unfold u32, wrap. rewrite Z.mul_comm, Z.mod_add by lia. apply Z.mod_small, load32_bound. done.
Qed.

Lemma touch_ok m q b : mem_ok m -> mem_ok (touch m q b).
Proof.
  intros Hm x. unfold touch, store32, store_bytes. destruct (within q 4 x); [|apply Hm].
  apply Z.mod_pos_bound. lia.
Qed.

Lemma lor_u32 v b : 0 <= b < 2 ^ 32 -> u32 (Z.lor v b) = Z.lor (u32 v) b.
Proof.
  intros Hb. unfold u32, wrap. apply Z.bits_inj'. intros k Hk.
  rewrite Z.lor_spec. destruct (decide (k < 32)).
  - by rewrite !Z.mod_pow2_bits_low, Z.lor_spec by lia.
  - rewrite !Z.mod_pow2_bits_high, (bits_above b 32 k) by lia. done.
Qed.

(** Two entries of page tables are the same or do not overlap. *)
Definition entries_apart (q q' : Z) : Prop := q = q' \/ q + 8 <= q' \/ q' + 8 <= q.

Lemma lor_bound32 v b : 0 <= v < 2 ^ 32 -> 0 <= b < 2 ^ 32 -> 0 <= Z.lor v b < 2 ^ 32.
Proof.
  intros Hv Hb. rewrite <- (u32_small v) by lia. rewrite <- lor_u32 by lia.
  unfold u32, wrap. apply Z.mod_pos_bound. lia.
Qed.

Lemma load_touch m q b q' : mem_ok m -> 0 <= b < 2 ^ 32 -> entries_apart q q' ->
  load32 (touch m q b) q' = if q =? q' then Z.lor (load32 m q') b else load32 m q'.
Proof.
  intros Hm Hb Ha. pose proof (load32_bound m q Hm). destruct (Z.eqb_spec q q') as [<-|Hne].
  - unfold touch, store32. change 4 with (Z.of_nat 4). unfold load32 at 1. rewrite load_store; [done|].
    change (256 ^ Z.of_nat 4) with (2 ^ 32). by apply lor_bound32.
  - apply load_ext. intros x Hx. unfold touch, store32, store_bytes.
    destruct Ha as [?|Ha]; [done|]. destruct (within q 4 x) eqn:E; [|done].
    apply within_spec in E. lia.
Qed.

(** The compare-exchange sets the bits when the value it expects is the entry's. *)
Lemma update_is_touch m q before new b : mem_ok m -> 0 <= b < 2 ^ 32 -> load32 m q = u32 before ->
  new = Z.lor before b -> pw_update_ad_bits_in_entry m q before new ≡ₘ touch m q b.
Proof.
  intros Hm Hb E ->. unfold pw_update_ad_bits_in_entry, hw_interlocked_compare_exchange, touch.
  rewrite lor_u32, E by done. destruct (Z.eqb_spec (u32 before) (Z.lor (u32 before) b)) as [<-|]; cbn [negb].
  - intros x. rewrite <- E. unfold store32, load32. change 4 with (Z.of_nat 4). rewrite store_load by done.
    destruct (within q (Z.of_nat 4) x); [f_equal; lia|done].
  - by rewrite Z.eqb_refl.
Qed.

(** What the processor does to the entries of a walk in IA-32e mode. *)
Definition ref_ad_bits (m : mem) (p4 p3 p2 p1 : Z) (pdpte pde : Z) (write : bool) : mem :=
  let leaf := if write then Z.lor ACCESSED DIRTY else ACCESSED in
  let m := touch (touch m p4 ACCESSED) p3 ACCESSED in
  if e_page_size pdpte then m
  else if e_page_size pde then touch m p2 leaf
  else touch (touch m p2 ACCESSED) p1 leaf.

Lemma lor_accessed_dirty e : set_dirty (set_accessed e) = Z.lor e (Z.lor ACCESSED DIRTY).
Proof. unfold set_dirty, set_accessed. by rewrite <- Z.lor_assoc. Qed.

(** The value the code expects: the one it has read, with the accessed bit when an entry
    above is the same. *)
Lemma before_accessed e (c : bool) b : Z.land ACCESSED b = ACCESSED ->
  Z.lor (if c then set_accessed e else e) b = Z.lor e b.
Proof.
  intros Hb. destruct c; [|done]. unfold set_accessed. rewrite <- Z.lor_assoc. f_equal.
  fold ACCESSED. rewrite <- Hb at 1. rewrite Z.lor_comm. apply Z.bits_inj'. intros k Hk.
  rewrite Z.lor_spec, Z.land_spec. by destruct (Z.testbit b k), (Z.testbit ACCESSED k).
Qed.

Lemma expected_value m e (c d : bool) v : mem_ok m -> e = load64 m v ->
  (if c then Z.lor (if d then Z.lor (load32 m v) ACCESSED else load32 m v) ACCESSED
   else if d then Z.lor (load32 m v) ACCESSED else load32 m v) = u32 (if c || d then set_accessed e else e).
Proof.
  intros Hm ->. destruct c, d; simpl; unfold set_accessed; rewrite ?lor_u32, load64_u32 by done; try done.
  by rewrite <- Z.lor_assoc, Z.lor_diag.
Qed.

Lemma page_size_accessed e : e_page_size (set_accessed e) = e_page_size e.
Proof.
  unfold e_page_size, set_accessed. rewrite Z.lor_spec, (Z.pow2_bits_false 5 7) by lia. apply orb_false_r.
Qed.

Lemma leaf_value e (c write : bool) :
  (if write then set_dirty (set_accessed e) else set_accessed e) =
  Z.lor (if c then set_accessed e else e) (if write then Z.lor ACCESSED DIRTY else ACCESSED).
Proof. rewrite before_accessed by (by destruct write). destruct write; [apply lor_accessed_dirty|done]. Qed.

Lemma accessed_value e (c : bool) : set_accessed e = Z.lor (if c then set_accessed e else e) ACCESSED.
Proof. by rewrite before_accessed. Qed.

(** In IA-32e mode the accessed and dirty bits end up as if each entry of the walk had
    been ORed in turn, from the PML4 down, also when the tables refer to themselves so that
    one entry serves two levels: no compare-exchange of the code fails, and no other byte of
    the memory changes. (An entry that maps a 1 GB page is only marked accessed.) *)
Theorem pw_update_ad_bits_spec (m : mem) (p4 p3 p2 p1 : Z) (write pae pse : bool) :
  mem_ok m ->
  entries_apart p4 p3 -> entries_apart p4 p2 -> entries_apart p4 p1 ->
  entries_apart p3 p2 -> entries_apart p3 p1 -> entries_apart p2 p1 ->
  mem_eq (pw_update_ad_bits m p4 (load64 m p4) p3 (load64 m p3) p2 (load64 m p2) p1 (load64 m p1) write true pae pse)
    (ref_ad_bits m p4 p3 p2 p1 (load64 m p3) (load64 m p2) write).
Proof.
  intros Hm H43 H42 H41 H32 H31 H21.
  assert (HA : 0 <= ACCESSED < 2 ^ 32) by done.
  assert (HL : 0 <= (if write then Z.lor ACCESSED DIRTY else ACCESSED) < 2 ^ 32) by (by destruct write).
  pose proof (touch_ok m p4 ACCESSED Hm) as Hm4. pose proof (touch_ok _ p3 ACCESSED Hm4) as Hm3.
  assert (mem_eq (pw_update_ad_bits_in_entry m p4 (load64 m p4) (set_accessed (load64 m p4)))
            (touch m p4 ACCESSED)) as E4 by (apply update_is_touch; rewrite ?load64_u32; done).
  assert (mem_eq (pw_update_ad_bits_in_entry
      (pw_update_ad_bits_in_entry m p4 (load64 m p4) (set_accessed (load64 m p4))) p3
      (if p4 =? p3 then set_accessed (load64 m p3) else load64 m p3) (set_accessed (load64 m p3)))
    (touch (touch m p4 ACCESSED) p3 ACCESSED)) as E3.
  { rewrite E4. apply update_is_touch; [done..| |apply accessed_value].
    rewrite load_touch by done. destruct (p4 =? p3); [|by rewrite load64_u32].
    unfold set_accessed. by rewrite lor_u32, load64_u32. }
  unfold pw_update_ad_bits, ref_ad_bits, pw_is_1gb_page_pdpte, pw_is_big_page_pde. cbv beta iota zeta.
  rewrite !page_size_accessed. destruct (e_page_size (load64 m p3)); [done|].
  assert (load32 (touch (touch m p4 ACCESSED) p3 ACCESSED) p2 =
    u32 (if (p4 =? p2) || (p3 =? p2) then set_accessed (load64 m p2) else load64 m p2)) as L2.
  { rewrite !load_touch, orb_comm by done. by apply expected_value. }
  destruct (e_page_size (load64 m p2)); cbn [negb orb].
  - rewrite E3. apply update_is_touch; [done..|apply leaf_value].
  - rewrite E3. rewrite (update_is_touch _ p2 _ _ ACCESSED); [|exact Hm3|exact HA|exact L2|apply accessed_value].
    apply update_is_touch; [by apply touch_ok|done| |apply leaf_value].
    rewrite !load_touch by done.
    destruct (p2 =? p1); rewrite ?orb_true_r, ?orb_false_r.
    + rewrite (expected_value m (load64 m p1)) by done.
      rewrite <- (lor_u32 _ ACCESSED), before_accessed by done. done.
    + rewrite (orb_comm (p4 =? p1)). by apply expected_value.
Qed.

Lemma pw_update_ad_bits_spec_witness :
  (** a self-referencing table: one entry serves the PML4, the directory pointers and the directory *)
  let m := store64 (store64 (fun _ => 0) 4096 4099) 4104 8195 in
  load64 (pw_update_ad_bits m 4096 4099 4096 4099 4096 4099 4104 8195 true true true false) 4096 = 4099 + 32 /\
  load64 (pw_update_ad_bits m 4096 4099 4096 4099 4096 4099 4104 8195 true true true false) 4104 = 8195 + 96.
Proof.
  set (m := store64 (store64 (fun _ => 0) 4096 4099) 4104 8195).
  pose proof (pw_update_ad_bits_spec m 4096 4096 4096 4104 true true false) as H.
  assert (mem_ok m) as Hm.
  { intros x. unfold m, store64, store_bytes. destruct (within _ _ _); [apply Z.mod_pos_bound; lia|].
    destruct (within _ _ _); [apply Z.mod_pos_bound; lia|lia]. }
  specialize (H Hm ltac:(by left) ltac:(by left) ltac:(right; lia) ltac:(by left) ltac:(right; lia) ltac:(right; lia)).
  change (load64 m 4096) with 4099 in H. change (load64 m 4104) with 8195 in H.
  unfold load64. rewrite !(load_ext _ _ 8 _ (fun x _ => H x)). by vm_compute.
Defined.

(** * The walk *)

Lemma setup_high_mask value s : addr_setup_address_space value = Ok s ->
  32 <= physical_address_size s /\ pw_reserved_bits_high_mask s = high_mask_of (physical_address_size s).
Proof.
  unfold addr_setup_address_space. destruct (_ || _ || _) eqn:E; [done|]. intros [= <-]. simpl.
  rewrite !orb_false_iff, !Z.leb_gt, !Z.ltb_ge in E. split; [lia|done].
Qed.

(** C16. In IA-32e mode the walk of the code is the 4-level walk of the processor manual: with the mask
    that address.c derives from the physical address width in CPUID (at most 52 bits), for every linear address,
    access and content of the tables it finds the same page (4 KB, 2 MB or 1 GB), or the same page fault with
    the same error code, or stops at the same table that is not in memory. The code knows neither
    SMEP nor processors without pages of 1 GB, and does not test bit 7 of a PML4 entry, which is reserved; so the
    conditions are that the processor has such pages, that bit 7 is clear in the PML4 entry of the address, and that
    under SMEP a fetch is one of the user with NX enabled (outside of them the walks differ:
    pml4e_bit_7_accepted, missing_1gb_pages_mapped, smep_ignored). SMAP and protection keys, which the
    guest cannot enable (their CR4 bits are refused), and paging in other modes are left out. *)
Theorem pw_walk_matches_manual (value : Z) (s : address_space) (gpa_to_hpa hpa_to_hva : Z -> option Z)
  (use_host : bool) (p : paging) (va : Z) (write user fetch set_ad gb_pages smep : bool) (m : mem) (cr3 : Z) :
  addr_setup_address_space value = Ok s -> physical_address_size s <= 52 ->
  is_pae p = true -> is_lme p = true -> 0 <= va < 2 ^ 64 -> 0 <= cr3 < 2 ^ 64 ->
  let table := cr3 / 2 ^ 12 * 2 ^ 12 in
  let entries := entry_at gpa_to_hpa hpa_to_hva use_host p m in
  gb_pages = true -> (forall e, entries table (fld va 39 9) = Some e -> Z.testbit e 7 = false) ->
  (fetch = true -> smep = true -> user = true /\ is_nxe p = true) ->
  agrees va write user (fetch && (is_nxe p || smep))
    (pw_perform_page_walk gpa_to_hpa hpa_to_hva use_host (pw_reserved_bits_high_mask s) p va write user fetch
       set_ad m cr3)
    (ref_walk entries (physical_address_size s) (is_nxe p) (is_wp p) smep
       va write user fetch (ia32e_levels gb_pages) table true true true).
Proof.
  intros [Hn ->]%setup_high_mask Hn' Hpae Hlme Hva Hcr table entries -> H7 Hsm. unfold table in *. unfold entries in *. clear table entries. pose proof (conj Hn Hn') as Hnn. clear Hn Hn'.
  unfold pw_perform_page_walk. rewrite Hpae, Hlme, indices_ia32e.
  assert (pw_retrieve_table_from_cr3 cr3 true true = cr3 / 2 ^ 12 * 2 ^ 12) as ->.
  { unfold pw_retrieve_table_from_cr3, PAGE_4KB_SIZE. simpl orb. cbv iota.
    rewrite ALIGN_BACKWARD_page by lia. change (2 ^ 12) with 4096. lia. }
  revert H7. unfold ia32e_levels. remember [mk_level 21 true false; mk_level 12 false true] as l2.
  remember (mk_level 30 true false :: l2) as l3. cbn [ref_walk]. unfold entry_at at 1 2.
  cbn [shift is_last may_map].
  destruct (pw_retrieve_table_entry _ _ _ _ _ _) as [pp4|]; [|done]. cbn [fmap option_fmap option_map]. intros H7.
  unfold pw_read_entry_value. rewrite Hpae. set (p4 := load64 m pp4) in *.
  cbn [orb andb]. rewrite reserved_pml4te by (done || by apply H7). rewrite negb_involutive. unfold e_present.
  assert (fetch && (is_nxe p || smep) = fetch_checked p fetch) as ->.
  { unfold fetch_checked. rewrite Hpae. destruct fetch; [|by rewrite andb_false_r]. rewrite andb_true_r. destruct smep; [|by rewrite orb_false_r].
    destruct (Hsm eq_refl eq_refl) as [_ ->]. done. }
  destruct (Z.testbit p4 0); cbn [negb]; [|done]. destruct (ref_reserved _ _ _ _ _); [done|].
  rewrite phys_addr_frame. subst l3. cbn [ref_walk]. unfold entry_at at 1. cbn [shift is_last may_map].
  destruct (pw_retrieve_table_entry _ _ _ _ _ _) as [pp3|]; [|done]. cbn [fmap option_fmap option_map].
  subst l2. cbn [orb andb]. by apply walk_pdpte_agrees.
Qed.

(** Tables at 4096, 8192, 12288 and 16384 that map the linear address 0x203123. *)
Definition sample_tables : mem :=
  store64 (store64 (store64 (store64 (fun _ => 0) 4096 8195) 8192 12291) 12296 16387) 16408 0x5001.

Lemma pw_walk_matches_manual_witness :
  let p := paging_of 0x900 0x10000 0x20 in
  let walk write := pw_perform_page_walk Some Some false (u32 (- (2 ^ 7))) p 0x203123 write false false true
                sample_tables 4096 in
  w_retval (walk false) = PW_RETVAL_SUCCESS /\ w_gpa (walk false) = 0x5123 /\
  w_retval (walk true) = PW_RETVAL_PF /\ w_pfec (walk true) = Some 3.
Proof.
  assert (exists s, addr_setup_address_space 0x3027 = Ok s /\ physical_address_size s <= 52 /\
    pw_reserved_bits_high_mask s = u32 (- (2 ^ 7)) /\ physical_address_size s = 39)
    as (s & Es & Hs & <- & H39) by (eexists; split; [reflexivity|done]).
  pose proof (pw_walk_matches_manual 0x3027 s Some Some false (paging_of 0x900 0x10000 0x20) 0x203123
    false false false true true true sample_tables 4096 Es Hs eq_refl eq_refl ltac:(lia) ltac:(lia) eq_refl
    ltac:(intros e He; vm_compute in He; injection He as <-; reflexivity) ltac:(discriminate)) as Hr.
  pose proof (pw_walk_matches_manual 0x3027 s Some Some false (paging_of 0x900 0x10000 0x20) 0x203123
    true false false true true true sample_tables 4096 Es Hs eq_refl eq_refl ltac:(lia) ltac:(lia) eq_refl
    ltac:(intros e He; vm_compute in He; injection He as <-; reflexivity) ltac:(discriminate)) as Hw.
  rewrite H39 in Hr, Hw.
  match type of Hr with agrees _ _ _ _ _ ?r => replace r with (RefPage 0x5123) in Hr by (vm_compute; reflexivity) end.
  match type of Hw with agrees _ _ _ _ _ ?r =>
    replace r with (RefFault true false (Some 0x5123)) in Hw by (vm_compute; reflexivity) end.
  destruct Hr as (R1 & R2 & _), Hw as (W1 & W2 & _). by split_and!.
Defined.

(** ** Where the walks differ *)

(** The walk of the code and the one of the manual, with 39 bits of physical addresses and NX enabled. *)
Definition code_walk (m : mem) (va : Z) (user fetch : bool) : PW_RETVAL * option Z :=
  let r := pw_perform_page_walk Some Some false (high_mask_of 39) (paging_of 0x900 0x10000 0x20) va false user fetch true m 4096 in
  (w_retval r, w_pfec r).
Definition manual_walk (m : mem) (gb_pages smep : bool) (va : Z) (user fetch : bool) : ref_result :=
  ref_walk (entry_at Some Some false (paging_of 0x900 0x10000 0x20) m) 39 true true smep va false user fetch (ia32e_levels gb_pages) 4096 true true true.

(** Bit 7 of a PML4 entry is reserved: the processor faults, the code walks on. *)
Theorem pml4e_bit_7_accepted :
  let m := store64 sample_tables 4096 0x2083 in
  code_walk m 0x203123 false false = (PW_RETVAL_SUCCESS, None) /\ manual_walk m true false 0x203123 false false = RefFault true true None.
Proof. vm_compute. by split. Qed.

(** On a processor without pages of 1 GB bit 7 of a directory pointer is reserved; the code maps such a page. *)
Theorem missing_1gb_pages_mapped :
  let m := store64 sample_tables 8192 0x40000083 in
  code_walk m 0x203123 false false = (PW_RETVAL_SUCCESS, None) /\ manual_walk m false false 0x203123 false false = RefFault true true None.
Proof. vm_compute. by split. Qed.

(** With SMEP, a supervisor's fetch from a user page faults; the code allows it. *)
Theorem smep_ignored :
  let m := store64 (store64 (store64 (store64 (fun _ => 0) 4096 8199) 8192 12295) 12296 16391) 16408 0x5007 in
  code_walk m 0x203123 false true = (PW_RETVAL_SUCCESS, None) /\ manual_walk m true true 0x203123 false true = RefFault true false (Some 0x5123).
Proof. vm_compute. by split. Qed.

(** * Other modes *)

(** In 32-bit paging without PAE the 20 bits of the frame are shifted as a signed int: the
    address of a table or page from 2 GB up gets 32 ones above it. *)
Theorem non_pae_frames_sign_extended (e : Z) : e_addr_base_low e >= 2 ^ 19 ->
  pw_retrieve_phys_addr e false = e_addr_base_low e * 2 ^ 12 + (2 ^ 64 - 2 ^ 32).
Proof.
  intros H. unfold pw_retrieve_phys_addr. rewrite Z.shiftl_mul_pow2 by lia.
  assert (e_addr_base_low e < 2 ^ 20).
  { unfold e_addr_base_low. rewrite bits_fld by lia. apply fld_bound. lia. }
  assert (s32 (e_addr_base_low e * 2 ^ 12) = e_addr_base_low e * 2 ^ 12 - 2 ^ 32) as ->.
  { unfold s32. rewrite <- (Z.mod_unique_pos (e_addr_base_low e * 2 ^ 12 + 2 ^ 31) (2 ^ 32) 1
      (e_addr_base_low e * 2 ^ 12 + 2 ^ 31 - 2 ^ 32)); lia. }
  unfold u64, wrap. symmetry. apply (Z.mod_unique_pos _ _ (-1)); lia.
Qed.

Lemma non_pae_frames_sign_extended_witness : pw_retrieve_phys_addr 0x80000001 false = 0xffffffff80000000.
Proof. rewrite non_pae_frames_sign_extended; [reflexivity|vm_compute; discriminate]. Defined.

(** With PAE and without IA-32e mode the bits 5 to 8 of a directory pointer entry are
    reserved; the code accepts them, and takes an entry with bit 7 for a 1 GB page. *)
Theorem pae_pdpte_maps_1gb_page :
  let p := paging_of 0 0x10000 0x20 in
  let m := store64 (fun _ => 0) 4096 0x40000081 in
  pw_are_reserved_bits_in_pdpte_cleared (high_mask_of 39) 0x400001e1 false false = true /\
  w_retval (pw_perform_page_walk Some Some false (high_mask_of 39) p 0x1234 true true false true m 4096)
    = PW_RETVAL_SUCCESS /\
  w_gpa (pw_perform_page_walk Some Some false (high_mask_of 39) p 0x1234 true true false true m 4096) = 0x40001234.
Proof. vm_compute. done. Qed.

(** * The page walk keeps a page together *)

Section SamePage.
Context (a b : Z).
Hypothesis Ha : fits 64 a.
Hypothesis Hb : fits 64 b.
Hypothesis Hab : a / 4096 = b / 4096.

Lemma high_bits i : 12 <= i -> Z.testbit a i = Z.testbit b i.
Proof.
  intros Hi. replace i with (i - 12 + 12) by lia. rewrite <- !Z.div_pow2_bits by lia. change (2 ^ 12) with 4096. by rewrite Hab.
Qed.
Lemma same_masked w mask : 0 <= w -> Z.land mask 4095 = 0 -> Z.land (wrap w a) mask = Z.land (wrap w b) mask.
Proof.
  intros Hw Hm. unfold wrap.
  apply Z.bits_inj'. intros i Hi. rewrite !Z.land_spec. destruct (decide (12 <= i)).
  - destruct (decide (i < w)); [by rewrite !Z.mod_pow2_bits_low, high_bits by lia|by rewrite !Z.mod_pow2_bits_high by lia].
  - assert (Z.testbit mask i = false) as ->; [|by rewrite !andb_false_r].
    assert (E : Z.testbit (Z.land mask 4095) i = false) by by rewrite Hm, Z.bits_0.
    rewrite Z.land_spec in E. change 4095 with (Z.ones 12) in E. rewrite Z.ones_spec_low, andb_true_r in E by lia. done.
Qed.

Lemma same_indices pae lme : pw_retrieve_indices a pae lme = pw_retrieve_indices b pae lme.
Proof.
  unfold pw_retrieve_indices. pose proof (fun mask => same_masked 64 mask ltac:(lia)) as E64. pose proof (fun mask => same_masked 32 mask ltac:(lia)) as E32.
  change (wrap 64) with u64 in E64. change (wrap 32) with u32 in E32.
  rewrite (u64_small a), (u64_small b) in E64 by done.
  destruct pae, lme; cbv zeta iota; rewrite ?(E32 0xc0000000), ?(E32 0x3fe00000), ?(E32 0x1ff000), ?(E32 0xffc00000), ?(E32 0x3ff000),
    ?(E64 0xff8000000000), ?(E64 0x7fc0000000) by done; done.
Qed.

(** The same result, at the distance of the two addresses. *)
Definition near (x y : Z) : Prop := fits 64 x /\ fits 64 y /\ x / 4096 = y / 4096 /\ y = x + (b - a).
Definition near_walks (w w' : walk_result) : Prop :=
  w_retval w' = w_retval w /\ (w_retval w = PW_RETVAL_SUCCESS -> near (w_gpa w) (w_gpa w')).

Lemma near_offset base n : 12 <= n <= 40 -> fits 64 base -> base mod 2 ^ n = 0 -> near (base + a mod 2 ^ n) (base + b mod 2 ^ n).
Proof.
  intros Hn Hf Hz. assert (E : 2 ^ n = 4096 * 2 ^ (n - 12)) by (change 4096 with (2 ^ 12); rewrite <- Z.pow_add_r; [f_equal; lia|lia|lia]).
  assert (E64 : 2 ^ 64 = 2 ^ n * 2 ^ (64 - n)) by (rewrite <- Z.pow_add_r; [f_equal; lia|lia|lia]).
  pose proof (Z.pow_pos_nonneg 2 (n - 12) ltac:(lia) ltac:(lia)) as Hp. pose proof (Z.pow_pos_nonneg 2 (64 - n) ltac:(lia) ltac:(lia)) as Hq.
  pose proof (Z.rem_mul_r a 4096 (2 ^ (n - 12)) ltac:(lia) Hp) as Ea. pose proof (Z.rem_mul_r b 4096 (2 ^ (n - 12)) ltac:(lia) Hp) as Eb.
  rewrite <- E in Ea, Eb. rewrite Hab in Ea. unfold near, fits in *. rewrite E64 in *.
  pose proof (Z.mod_pos_bound a (2 ^ n) ltac:(lia)). pose proof (Z.mod_pos_bound b (2 ^ n) ltac:(lia)).
  apply Z.div_exact in Hz; [|lia].
  assert (base / 2 ^ n < 2 ^ (64 - n)) by (apply Z.div_lt_upper_bound; nia).
  assert (Hm : base + 2 ^ n <= 2 ^ n * 2 ^ (64 - n)) by nia.
  split; [lia|]. split; [lia|]. rewrite Ea, Eb. set (q := (b / 4096) mod 2 ^ (n - 12)).
  replace base with (4096 * (2 ^ (n - 12) * (base / 2 ^ n))) by nia. generalize (2 ^ (n - 12) * (base / 2 ^ n)). clear - Hab. intros z. lia.
Qed.

Lemma near_page base : fits 64 base -> base mod 4096 = 0 -> near (Z.lor base (Z.land a PAGE_4KB_MASK)) (Z.lor base (Z.land b PAGE_4KB_MASK)).
Proof.
  intros Hf Hz. change PAGE_4KB_MASK with (Z.ones 12). rewrite !Z.land_ones by lia. change (2 ^ 12) with 4096.
  assert (E : base = base / 4096 * 2 ^ 12) by lia. rewrite E, !lor_disjoint, <- E by lia. by apply (near_offset base 12).
Qed.
Lemma near_big base n : 12 <= n <= 32 -> fits 64 base ->
  near (ALIGN_BACKWARD base (2 ^ n) ⊕₆₄ u32 (Z.land a (2 ^ n - 1))) (ALIGN_BACKWARD base (2 ^ n) ⊕₆₄ u32 (Z.land b (2 ^ n - 1))).
Proof.
  intros Hn Hf. rewrite ALIGN_BACKWARD_pow2 by (done || lia).
  replace (2 ^ n - 1) with (Z.ones n) by (rewrite Z.ones_equiv; lia). rewrite !Z.land_ones by lia.
  assert (2 ^ n <= 2 ^ 32) by (apply Z.pow_le_mono_r; lia). pose proof (Z.pow_pos_nonneg 2 n ltac:(lia) ltac:(lia)).
  rewrite !u32_small by (pose proof (Z.mod_pos_bound a (2 ^ n)); pose proof (Z.mod_pos_bound b (2 ^ n)); lia).
  assert (Hz : (base - base mod 2 ^ n) mod 2 ^ n = 0) by by rewrite Zminus_mod_idemp_r, Z.sub_diag.
  destruct (near_offset (base - base mod 2 ^ n) n) as (A & B & C); [lia| |done|].
  { unfold fits in *. pose proof (Z.mod_pos_bound base (2 ^ n)). pose proof (Z.mod_le base (2 ^ n)). lia. }
  rewrite !u64_small by (unfold fits in A, B; lia). split; [exact A|]. split; [exact B|exact C].
Qed.

Lemma phys_addr_page e pae : fits 64 (pw_retrieve_phys_addr e pae) /\ pw_retrieve_phys_addr e pae mod 4096 = 0.
Proof.
  pose proof (fld_bound e 12 20 ltac:(lia)) as Hl. pose proof (fld_bound e 32 20 ltac:(lia)) as Hh.
  unfold pw_retrieve_phys_addr, e_addr_base_low, e_addr_base_high. rewrite !bits_fld by lia.
  rewrite !Z.shiftl_mul_pow2 by lia. destruct pae.
  - rewrite u32_small by lia. rewrite lor_disjoint by lia. unfold fits. lia.
  - unfold s32, u64, wrap, fits. lia.
Qed.

Section Walks.
Context (gpa_to_hpa hpa_to_hva : Z -> option Z) (use_host : bool) (high_mask : Z) (p : paging) (is_write is_user is_fetch set_ad : bool) (m : mem).
Abbreviation call f := (f gpa_to_hpa hpa_to_hva use_host high_mask p).

Lemma finish_near p4 e4 p3 e3 p2 e2 p1 e1 f f' x y : near x y ->
  near_walks (finish p is_write is_user is_fetch set_ad m p4 e4 p3 e3 p2 e2 p1 e1 f x)
    (finish p is_write is_user is_fetch set_ad m p4 e4 p3 e3 p2 e2 p1 e1 f' y).
Proof. intros Hn. unfold finish, fault. by destruct (negb _); split. Qed.

Lemma walk_pte_near i p4 e4 p3 e3 p2 e2 :
  near_walks (call walk_pte a is_write is_user is_fetch set_ad m i p4 e4 p3 e3 p2 e2)
    (call walk_pte b is_write is_user is_fetch set_ad m i p4 e4 p3 e3 p2 e2).
Proof.
  unfold walk_pte. destruct (pw_retrieve_table_entry _ _ _ _ _ _) as [q|]; [|by split]. cbv zeta.
  do 2 (case_match; [by split|]). apply finish_near, near_page; apply phys_addr_page.
Qed.
Lemma walk_pde_near d i j p4 e4 p3 e3 :
  near_walks (call walk_pde a is_write is_user is_fetch set_ad m d i j p4 e4 p3 e3)
    (call walk_pde b is_write is_user is_fetch set_ad m d i j p4 e4 p3 e3).
Proof.
  unfold walk_pde. destruct (pw_retrieve_table_entry _ _ _ _ _ _) as [q|]; [|by split]. cbv zeta.
  do 2 (case_match; [by split|]). case_match; [|apply walk_pte_near].
  unfold pw_retrieve_big_page_phys_addr, pw_get_big_page_offset.
  destruct (is_pae p); apply finish_near; [apply (near_big _ 21)|apply (near_big _ 22)]; (lia || apply phys_addr_page).
Qed.
Lemma walk_1gb_near d i j p4 e4 p3 e3 :
  near_walks (call walk_1gb a is_write is_user is_fetch set_ad m d i j p4 e4 p3 e3)
    (call walk_1gb b is_write is_user is_fetch set_ad m d i j p4 e4 p3 e3).
Proof.
  unfold walk_1gb. case_match; [|apply walk_pde_near].
  unfold pw_retrieve_big_page_phys_addr, pw_get_big_page_offset.
  destruct (is_pae p); apply finish_near; [apply (near_big _ 30)|apply (near_big _ 22)]; (lia || apply phys_addr_page).
Qed.
Lemma walk_near cr3 :
  near_walks (call pw_perform_page_walk a is_write is_user is_fetch set_ad m cr3)
    (call pw_perform_page_walk b is_write is_user is_fetch set_ad m cr3).
Proof.
  unfold pw_perform_page_walk. rewrite same_indices. destruct (pw_retrieve_indices b _ _) as [[[i4 i3] i2] i1]. cbv zeta.
  assert (X : forall first p4 e4 p3, near_walks (call walk_pdpte a is_write is_user is_fetch set_ad m first i2 i1 p4 e4 p3)
    (call walk_pdpte b is_write is_user is_fetch set_ad m first i2 i1 p4 e4 p3)).
  { intros. unfold walk_pdpte. cbv zeta. do 2 (case_match; [by split|]). apply walk_1gb_near. }
  destruct (is_pae p); [|apply walk_1gb_near]. destruct (is_lme p).
  - case_match; [|by split]. do 2 (case_match; [by split|]). case_match; [apply X|by split].
  - case_match; [apply X|by split].
Qed.
End Walks.
End SamePage.
