(* ===== verification/MamEntry.v ===== *)
(** memory/memory_manager/memory_address_mapper.c and .h: the 64-bit entries of the address
    mapper's tables. An entry is internal, or has the format of a page table, of an extended
    page table (EPT) or of a VT-d page table; the code reaches it through a table of
    operations per format and a table of operations per level. *)

From S2P Require Import Prelude VmmDefs Lock.

(** * Bit fields *)

Definition bitfield (v lo n : Z) : Z := Z.land (Z.shiftr v lo) (Z.ones n).
Definition set_bitfield (v lo n x : Z) : Z :=
  Z.lor (Z.land v (Z.lnot (Z.shiftl (Z.ones n) lo))) (Z.shiftl (Z.land x (Z.ones n)) lo).

(** * Levels

    A [MAM_LEVEL_OPS] pointer is its level; 0 is NULL. *)

Definition MAM_NUM_OF_ENTRIES_IN_TABLE : Z := 512.
Definition MAM_ENTRY_INDEX_MASK : Z := 0x1ff.

Definition mam_get_size_covered_by_entry (level : nat) : Z :=
  match level with
  | 1%nat => PAGE_4KB_SIZE
  | 2%nat => PAGE_4KB_SIZE * MAM_NUM_OF_ENTRIES_IN_TABLE
  | 3%nat => PAGE_4KB_SIZE * MAM_NUM_OF_ENTRIES_IN_TABLE * MAM_NUM_OF_ENTRIES_IN_TABLE
  | _ => PAGE_4KB_SIZE * MAM_NUM_OF_ENTRIES_IN_TABLE * MAM_NUM_OF_ENTRIES_IN_TABLE
           * MAM_NUM_OF_ENTRIES_IN_TABLE
  end.
Definition mam_get_size_covered_by_table (level : nat) : Z :=
  mam_get_size_covered_by_entry level * MAM_NUM_OF_ENTRIES_IN_TABLE.
Definition mam_level_pos (level : nat) : Z :=
  match level with 1%nat => 12 | 2%nat => 21 | 3%nat => 30 | _ => 39 end.
Definition mam_get_entry_index (level : nat) (address : Z) : Z :=
  u32 (Z.land (Z.shiftr address (mam_level_pos level)) MAM_ENTRY_INDEX_MASK).
Definition mam_get_lower_level_ops (level : nat) : nat := pred level.
Definition mam_get_upper_level_ops (level : nat) : nat :=
  match level with 4%nat => 0%nat | _ => S level end.

(** * The mapping object *)

Record MAM := mk_mam {
  first_table : Z;
  first_table_ops : nat;
  inner_level_attributes : Z;
  ept_supper_page_support : Z;
  update_lock : VMM_LOCK;
  update_counter : Z;
  update_on_cpu : Z;
  is_32bit_page_tables : bool;
  vtdpt_supper_page_support : Z;
  vtdpt_snoop_behavior : Z;
  vtdpt_trans_mapping : Z;
  ept_hw_ve_support : Z;
  last_iterator : Z;
  last_range_size : Z
}.

Definition MAM_EPT_SUPPORT_2MB_PAGE : Z := 1.
Definition MAM_EPT_SUPPORT_1GB_PAGE : Z := 2.
Definition MAM_EPT_SUPPORT_512_GB_PAGE : Z := 4.
Definition MAM_VTDPT_SUPPORT_2MB_PAGE : Z := 1.
Definition MAM_VTDPT_SUPPORT_1GB_PAGE : Z := 2.
Definition MAM_VTDPT_SUPPORT_512_GB_PAGE : Z := 4.

Definition PAGE_2MB_MASK : Z := 0x1fffff.
Definition MAM_PAGE_1GB_MASK : Z := 0x3fffffff.
Definition MAM_PAGE_512GB_MASK : Z := 0x7fffffffff.

Definition MAM_MAPPING_SUCCESSFUL : Z := 0.
Definition MAM_UNKNOWN_MAPPING : Z := 0x7fffffff.

(** * Types of entries *)

Definition MAM_PAGE_TABLE_ENTRY : Z := 0.
Definition MAM_EPT_ENTRY : Z := 1.
Definition MAM_INTERNAL_ENTRY : Z := 2.
Definition MAM_VTDPT_ENTRY : Z := 3.
Definition MAM_INNER_ENTRY_TYPE_MASK : Z := 3.
Definition MAM_LEAF_ENTRY_TYPE_MASK : Z := 4.
Definition MAM_LEAF_PAGE_TABLE_ENTRY : Z := 4.
Definition MAM_LEAF_EPT_ENTRY : Z := 5.
Definition MAM_LEAF_INTERNAL_ENTRY : Z := 6.
Definition MAM_LEAF_VTDPT_ENTRY : Z := 7.

(** A [MAM_ENTRY_OPS] pointer is one of the four static tables. *)
Inductive MAM_ENTRY_OPS :=
| MAM_INTERNAL_ENTRY_OPS | MAM_PAGE_TABLE_ENTRY_OPS | MAM_EPT_ENTRY_OPS | MAM_VTDPT_ENTRY_OPS.

#[global] Instance MAM_ENTRY_OPS_eq_dec : EqDecision MAM_ENTRY_OPS.
Proof. solve_decision. Defined.

Definition get_mam_entry_type (entry : Z) : Z :=
  let entry_type := Z.land (bitfield entry 9 3) MAM_INNER_ENTRY_TYPE_MASK in
  if negb (entry_type =? MAM_VTDPT_ENTRY) then bitfield entry 9 3
  else Z.lor entry_type (Z.shiftl (bitfield entry 8 1) 2).

Definition mam_is_leaf_entry (entry : Z) : bool :=
  negb (Z.land (get_mam_entry_type entry) MAM_LEAF_ENTRY_TYPE_MASK =? 0).

(** The types with the same low two bits share their operations. *)
Definition mam_get_entry_ops (entry : Z) : MAM_ENTRY_OPS :=
  let entry_type := Z.land (get_mam_entry_type entry) MAM_INNER_ENTRY_TYPE_MASK in
  if entry_type =? MAM_INTERNAL_ENTRY then MAM_INTERNAL_ENTRY_OPS
  else if entry_type =? MAM_PAGE_TABLE_ENTRY then MAM_PAGE_TABLE_ENTRY_OPS
  else if entry_type =? MAM_EPT_ENTRY then MAM_EPT_ENTRY_OPS
  else MAM_VTDPT_ENTRY_OPS.

Definition mam_get_leaf_entry_type (ops : MAM_ENTRY_OPS) : Z :=
  match ops with
  | MAM_INTERNAL_ENTRY_OPS => MAM_LEAF_INTERNAL_ENTRY
  | MAM_PAGE_TABLE_ENTRY_OPS => MAM_LEAF_PAGE_TABLE_ENTRY
  | MAM_EPT_ENTRY_OPS => MAM_LEAF_EPT_ENTRY
  | MAM_VTDPT_ENTRY_OPS => MAM_LEAF_VTDPT_ENTRY
  end.

(** * Invalid entries *)

Definition invalid_reason (entry : Z) : Z := bitfield entry 32 31.

Definition mam_invalidate_entry (entry reason entry_type : Z) : Z :=
  let entry := set_bitfield entry 0 9 0 in
  let entry := set_bitfield entry 12 20 0 in
  let entry := set_bitfield entry 9 3 entry_type in
  set_bitfield entry 32 31 reason.

(** * Addresses *)

Definition mam_get_address_from_any_entry (entry : Z) : Z :=
  let addr_low := u32 (Z.shiftl (bitfield entry 12 20) 12) in
  let addr_high := bitfield entry 32 8 in
  Z.lor (u64 (Z.shiftl addr_high 32)) addr_low.

Definition mam_set_address_in_any_entry (entry addr : Z) : Z :=
  let addr_low := Z.shiftr (u32 addr) 12 in
  let addr_high := u32 (Z.shiftr addr 32) in
  set_bitfield (set_bitfield entry 12 20 addr_low) 32 8 addr_high.

Definition mam_get_address_from_leaf_entry (entry : Z) (level : nat) (ops : MAM_ENTRY_OPS) : Z :=
  let addr := mam_get_address_from_any_entry entry in
  match ops with
  | MAM_PAGE_TABLE_ENTRY_OPS =>
      if (level =? 2)%nat then Z.land addr (u64 (Z.lnot (Z.shiftl 1 12))) else addr
  | _ => addr
  end.

(** * Attributes *)

Definition mam_calculate_pat_index (pwt pcd pat : Z) : Z :=
  Z.lor (Z.lor (u32 (Z.shiftl pat 2)) (u32 (Z.shiftl pcd 1))) pwt.
(** pwt, pcd, pat *)
Definition mam_calculate_caching_attributes_from_pat_index (pat_index : Z) : Z * Z * Z :=
  (Z.land pat_index 1, Z.land (Z.shiftr pat_index 1) 1, Z.land (Z.shiftr pat_index 2) 1).

Definition mam_get_attributes_from_page_table_entry (entry : Z) (level : nat) : Z :=
  let attrs := set_bitfield 0 0 1 (bitfield entry 1 1) in
  let attrs := set_bitfield attrs 1 1 (bitfield entry 2 1) in
  let attrs := set_bitfield attrs 2 1 (if bitfield entry 63 1 =? 0 then 1 else 0) in
  let attrs := set_bitfield attrs 3 1 (bitfield entry 8 1) in
  let pat_bit :=
    if (level =? 1)%nat then bitfield entry 7 1
    else if (level =? 2)%nat && negb (bitfield entry 7 1 =? 0) then Z.land (bitfield entry 12 20) 1
    else 0 in
  set_bitfield attrs 4 3 (mam_calculate_pat_index (bitfield entry 3 1) (bitfield entry 4 1) pat_bit).

Definition mam_get_attributes_from_ept_entry (entry : Z) : Z :=
  let attrs := set_bitfield 0 0 1 (bitfield entry 0 1) in
  let attrs := set_bitfield attrs 1 1 (bitfield entry 1 1) in
  let attrs := set_bitfield attrs 2 1 (bitfield entry 2 1) in
  let attrs := set_bitfield attrs 3 1 (bitfield entry 6 1) in
  let attrs := set_bitfield attrs 4 3 (bitfield entry 3 3) in
  set_bitfield attrs 7 1 (bitfield entry 63 1).

Definition mam_get_attributes_from_vtdpt_entry (entry : Z) : Z :=
  let attrs := set_bitfield 0 0 1 (bitfield entry 0 1) in
  let attrs := set_bitfield attrs 1 1 (bitfield entry 1 1) in
  let attrs := set_bitfield attrs 2 1 (bitfield entry 11 1) in
  set_bitfield attrs 3 1 (bitfield entry 62 1).

Definition mam_get_attributes_from_entry (entry : Z) (level : nat) (ops : MAM_ENTRY_OPS) : Z :=
  match ops with
  | MAM_INTERNAL_ENTRY_OPS => bitfield entry 1 8
  | MAM_PAGE_TABLE_ENTRY_OPS => mam_get_attributes_from_page_table_entry entry level
  | MAM_EPT_ENTRY_OPS => mam_get_attributes_from_ept_entry entry
  | MAM_VTDPT_ENTRY_OPS => mam_get_attributes_from_vtdpt_entry entry
  end.

(** * Leaf entries *)

Definition mam_is_entry_present (entry : Z) (ops : MAM_ENTRY_OPS) : bool :=
  match ops with
  | MAM_INTERNAL_ENTRY_OPS | MAM_PAGE_TABLE_ENTRY_OPS => negb (bitfield entry 0 1 =? 0)
  | MAM_EPT_ENTRY_OPS =>
      negb (bitfield entry 0 1 =? 0) || negb (bitfield entry 1 1 =? 0) || negb (bitfield entry 2 1 =? 0)
  | MAM_VTDPT_ENTRY_OPS => negb (bitfield entry 0 1 =? 0) || negb (bitfield entry 1 1 =? 0)
  end.

Definition mam_update_leaf_internal_entry (addr attr : Z) : Z :=
  let entry := set_bitfield 0 9 3 MAM_LEAF_INTERNAL_ENTRY in
  let entry := mam_set_address_in_any_entry entry addr in
  let entry := set_bitfield entry 1 8 attr in
  set_bitfield entry 0 1 1.

Definition mam_update_leaf_page_table_entry (addr attr : Z) (level : nat) : Z :=
  let entry := set_bitfield 0 9 3 MAM_LEAF_PAGE_TABLE_ENTRY in
  let entry := mam_set_address_in_any_entry entry addr in
  let entry := set_bitfield entry 1 1 (bitfield attr 0 1) in
  let entry := set_bitfield entry 2 1 (bitfield attr 1 1) in
  let entry := set_bitfield entry 8 1 (bitfield attr 3 1) in
  let '(pwt_bit, pcd_bit, pat_bit) := mam_calculate_caching_attributes_from_pat_index (bitfield attr 4 3) in
  let entry := set_bitfield entry 3 1 pwt_bit in
  let entry := set_bitfield entry 4 1 pcd_bit in
  let entry :=
    if (level =? 1)%nat then set_bitfield entry 7 1 pat_bit
    else
      let entry := set_bitfield entry 7 1 1 in
      if negb (pat_bit =? 0) then set_bitfield entry 12 20 (Z.lor (bitfield entry 12 20) 1) else entry in
  set_bitfield entry 0 1 1.

Definition mam_update_leaf_ept_entry (addr attr : Z) (level : nat) : Z :=
  let entry := set_bitfield 0 9 3 MAM_LEAF_EPT_ENTRY in
  let entry := mam_set_address_in_any_entry entry addr in
  let entry := set_bitfield entry 6 1 (bitfield attr 3 1) in
  let entry := set_bitfield entry 3 3 (bitfield attr 4 3) in
  let entry := set_bitfield entry 63 1 (bitfield attr 7 1) in
  let entry := if negb (level =? 1)%nat then set_bitfield entry 7 1 1 else entry in
  let entry := set_bitfield entry 0 1 (bitfield attr 0 1) in
  let entry := set_bitfield entry 1 1 (bitfield attr 1 1) in
  set_bitfield entry 2 1 (bitfield attr 2 1).

Definition mam_update_leaf_vtdpt_entry (addr attr : Z) (level : nat) : Z :=
  let entry := set_bitfield 0 9 2 MAM_VTDPT_ENTRY in
  let entry := set_bitfield entry 8 1 (Z.shiftr MAM_LEAF_ENTRY_TYPE_MASK 2) in
  let entry := mam_set_address_in_any_entry entry addr in
  let entry := if negb (level =? 1)%nat then set_bitfield entry 7 1 1 else entry in
  let entry := set_bitfield entry 0 1 (bitfield attr 0 1) in
  let entry := set_bitfield entry 1 1 (bitfield attr 1 1) in
  let entry := set_bitfield entry 11 1 (bitfield attr 2 1) in
  set_bitfield entry 62 1 (bitfield attr 3 1).

(** The old content of the entry is discarded. *)
Definition mam_update_leaf_entry (addr attr : Z) (level : nat) (ops : MAM_ENTRY_OPS) : Z :=
  match ops with
  | MAM_INTERNAL_ENTRY_OPS => mam_update_leaf_internal_entry addr attr
  | MAM_PAGE_TABLE_ENTRY_OPS => mam_update_leaf_page_table_entry addr attr level
  | MAM_EPT_ENTRY_OPS => mam_update_leaf_ept_entry addr attr level
  | MAM_VTDPT_ENTRY_OPS => mam_update_leaf_vtdpt_entry addr attr level
  end.

Definition mam_update_attributes_in_leaf_page_table_entry (entry attrs : Z) (level : nat) : Z :=
  let entry := set_bitfield entry 1 1 (bitfield attrs 0 1) in
  let entry := set_bitfield entry 2 1 (bitfield attrs 1 1) in
  let entry := set_bitfield entry 8 1 (bitfield attrs 3 1) in
  let '(pwt_bit, pcd_bit, pat_bit) := mam_calculate_caching_attributes_from_pat_index (bitfield attrs 4 3) in
  let entry := set_bitfield entry 3 1 pwt_bit in
  let entry := set_bitfield entry 4 1 pcd_bit in
  if (level =? 2)%nat then set_bitfield entry 12 20 (Z.lor (bitfield entry 12 20) pat_bit)
  else set_bitfield entry 7 1 pat_bit.

Definition mam_update_attributes_in_leaf_ept_entry (entry attrs : Z) (level : nat) : Z :=
  let entry := set_bitfield entry 0 1 (bitfield attrs 0 1) in
  let entry := set_bitfield entry 1 1 (bitfield attrs 1 1) in
  let entry := set_bitfield entry 2 1 (bitfield attrs 2 1) in
  let entry := set_bitfield entry 6 1 (bitfield attrs 3 1) in
  let entry := set_bitfield entry 3 3 (bitfield attrs 4 3) in
  let entry := set_bitfield entry 63 1 (bitfield attrs 7 1) in
  if negb (level =? 1)%nat then set_bitfield entry 7 1 1 else entry.

Definition mam_update_attributes_in_leaf_vtdpt_entry (entry attrs : Z) (level : nat) : Z :=
  let entry := set_bitfield entry 0 1 (bitfield attrs 0 1) in
  let entry := set_bitfield entry 1 1 (bitfield attrs 1 1) in
  let entry := set_bitfield entry 11 1 (bitfield attrs 2 1) in
  let entry := set_bitfield entry 62 1 (bitfield attrs 3 1) in
  if negb (level =? 1)%nat then set_bitfield entry 7 1 1 else entry.

Definition mam_update_attributes_in_leaf_entry (entry attrs : Z) (level : nat) (ops : MAM_ENTRY_OPS) : Z :=
  match ops with
  | MAM_INTERNAL_ENTRY_OPS => set_bitfield entry 1 8 attrs
  | MAM_PAGE_TABLE_ENTRY_OPS => mam_update_attributes_in_leaf_page_table_entry entry attrs level
  | MAM_EPT_ENTRY_OPS => mam_update_attributes_in_leaf_ept_entry entry attrs level
  | MAM_VTDPT_ENTRY_OPS => mam_update_attributes_in_leaf_vtdpt_entry entry attrs level
  end.

Definition mam_can_be_leaf_page_table_entry (level : nat) (requested_size tgt_addr : Z) : bool :=
  if negb (level =? 1)%nat && negb (level =? 2)%nat then false
  else if negb (mam_get_size_covered_by_entry level =? requested_size) then false
  else if (level =? 2)%nat then Z.land tgt_addr PAGE_2MB_MASK =? 0
  else true.

(** The same code for the EPT and for the VT-d super pages. *)
Definition mam_can_be_super_page (support s2 s1 s512 : Z) (level : nat) (requested_size tgt_addr : Z) : bool :=
  if negb (mam_get_size_covered_by_entry level =? requested_size) then false
  else if (level =? 1)%nat then true
  else if (level =? 2)%nat then
    negb ((Z.land support s2 =? 0) || negb (Z.land tgt_addr PAGE_2MB_MASK =? 0))
  else if (level =? 3)%nat then
    negb ((Z.land support s1 =? 0) || negb (Z.land tgt_addr MAM_PAGE_1GB_MASK =? 0))
  else negb ((Z.land support s512 =? 0) || negb (Z.land tgt_addr MAM_PAGE_512GB_MASK =? 0)).

Definition mam_can_be_leaf_entry (mam : MAM) (level : nat) (requested_size tgt_addr : Z) (ops : MAM_ENTRY_OPS)
  : bool :=
  match ops with
  | MAM_INTERNAL_ENTRY_OPS => mam_get_size_covered_by_entry level =? requested_size
  | MAM_PAGE_TABLE_ENTRY_OPS => mam_can_be_leaf_page_table_entry level requested_size tgt_addr
  | MAM_EPT_ENTRY_OPS =>
      mam_can_be_super_page (ept_supper_page_support mam) MAM_EPT_SUPPORT_2MB_PAGE
        MAM_EPT_SUPPORT_1GB_PAGE MAM_EPT_SUPPORT_512_GB_PAGE level requested_size tgt_addr
  | MAM_VTDPT_ENTRY_OPS =>
      mam_can_be_super_page (vtdpt_supper_page_support mam) MAM_VTDPT_SUPPORT_2MB_PAGE
        MAM_VTDPT_SUPPORT_1GB_PAGE MAM_VTDPT_SUPPORT_512_GB_PAGE level requested_size tgt_addr
  end.

(** * Inner entries

    The internal format refers to a table by its virtual address, the others by its physical
    one; [hmm_hva_to_hpa] and [hmm_hpa_to_hva] are host_memory_manager.c's. *)

Section Inner.
Context (hmm_hva_to_hpa hmm_hpa_to_hva : Z -> option Z).

Definition mam_hpa_to_hva (hpa : Z) : Z := default 0 (hmm_hpa_to_hva hpa).
Definition mam_hva_to_hpa (hva : Z) : Z := default 0 (hmm_hva_to_hpa hva).

Definition mam_get_table_pointed_by_entry (entry : Z) (ops : MAM_ENTRY_OPS) : Z :=
  match ops with
  | MAM_INTERNAL_ENTRY_OPS => mam_get_address_from_any_entry entry
  | _ => mam_hpa_to_hva (mam_get_address_from_any_entry entry)
  end.

Definition mam_update_inner_internal_entry (mam : MAM) (next_table : Z) : Z :=
  let entry := set_bitfield 0 9 3 MAM_INTERNAL_ENTRY in
  let entry := mam_set_address_in_any_entry entry next_table in
  let entry := set_bitfield entry 1 8 (inner_level_attributes mam) in
  set_bitfield entry 0 1 1.

Definition mam_update_inner_page_table_entry (mam : MAM) (next_table : Z) (level : nat) : Z :=
  let attrs := inner_level_attributes mam in
  let entry := set_bitfield 0 9 3 MAM_PAGE_TABLE_ENTRY in
  let entry := mam_set_address_in_any_entry entry (mam_hva_to_hpa next_table) in
  let entry :=
    if negb (is_32bit_page_tables mam) || negb (level =? 3)%nat then
      let entry := set_bitfield entry 1 1 (bitfield attrs 0 1) in
      let entry := set_bitfield entry 2 1 (bitfield attrs 1 1) in
      set_bitfield entry 8 1 (bitfield attrs 3 1)
    else entry in
  let '(pwt_bit, pcd_bit, _) := mam_calculate_caching_attributes_from_pat_index (bitfield attrs 4 3) in
  let entry := set_bitfield entry 3 1 pwt_bit in
  let entry := set_bitfield entry 4 1 pcd_bit in
  set_bitfield entry 0 1 1.

Definition mam_update_inner_ept_entry (mam : MAM) (next_table : Z) : Z :=
  let attrs := inner_level_attributes mam in
  let entry := set_bitfield 0 9 3 MAM_EPT_ENTRY in
  let entry := mam_set_address_in_any_entry entry (mam_hva_to_hpa next_table) in
  let entry := set_bitfield entry 0 1 (bitfield attrs 0 1) in
  let entry := set_bitfield entry 1 1 (bitfield attrs 1 1) in
  let entry := set_bitfield entry 2 1 (bitfield attrs 2 1) in
  set_bitfield entry 63 1 (bitfield attrs 7 1).

Definition mam_update_inner_vtdpt_entry (mam : MAM) (next_table : Z) : Z :=
  let attrs := inner_level_attributes mam in
  let entry := set_bitfield 0 9 2 MAM_VTDPT_ENTRY in
  let entry := mam_set_address_in_any_entry entry (mam_hva_to_hpa next_table) in
  let entry := set_bitfield entry 0 1 (bitfield attrs 0 1) in
  set_bitfield entry 1 1 (bitfield attrs 1 1).

Definition mam_update_inner_level_entry (mam : MAM) (next_table : Z) (level : nat) (ops : MAM_ENTRY_OPS) : Z :=
  match ops with
  | MAM_INTERNAL_ENTRY_OPS => mam_update_inner_internal_entry mam next_table
  | MAM_PAGE_TABLE_ENTRY_OPS => mam_update_inner_page_table_entry mam next_table level
  | MAM_EPT_ENTRY_OPS => mam_update_inner_ept_entry mam next_table
  | MAM_VTDPT_ENTRY_OPS => mam_update_inner_vtdpt_entry mam next_table
  end.
End Inner.
