(* ===== verification/MamEntrySpec.v ===== *)
(** The round trips of the address mapper's entries: what is written into an entry of each
    format is what the operations of that format read back. *)

From S2P Require Import Prelude VmmDefs Lock MamEntry.

(** * Bit fields *)

Lemma testbit_bitfield v lo n k : 0 <= lo -> 0 <= n -> 0 <= k ->
  Z.testbit (bitfield v lo n) k = (k <? n) && Z.testbit v (lo + k).
Proof.
  intros. unfold bitfield. rewrite Z.land_spec, Z.shiftr_spec by lia. rewrite (Z.add_comm k).
  destruct (Z.ltb_spec k n).
  - by rewrite Z.ones_spec_low, andb_true_r by lia.
  - by rewrite Z.ones_spec_high, andb_false_r by lia.
Qed.

Lemma testbit_set v lo n x k : 0 <= lo -> 0 <= n -> 0 <= k ->
  Z.testbit (set_bitfield v lo n x) k = if (lo <=? k) && (k <? lo + n) then Z.testbit x (k - lo) else Z.testbit v k.
Proof.
  intros. unfold set_bitfield. rewrite Z.lor_spec, Z.land_spec, Z.lnot_spec, !Z.shiftl_spec by lia.
  destruct (Z.leb_spec lo k); simpl.
  - rewrite Z.land_spec. destruct (Z.ltb_spec k (lo + n)).
    + rewrite Z.ones_spec_low by lia. simpl. by rewrite andb_false_r, andb_true_r.
    + rewrite Z.ones_spec_high by lia. simpl. by rewrite andb_true_r, andb_false_r, orb_false_r.
  - rewrite !(Z.testbit_neg_r _ (k - lo)) by lia. simpl. by rewrite andb_true_r, orb_false_r.
Qed.

(** A field inside, and a field apart from, the one that was set. *)
Lemma bitfield_inside v lo n x lo' n' : 0 <= lo' -> 0 <= n -> lo' <= lo -> lo + n <= lo' + n' ->
  bitfield (set_bitfield v lo' n' x) lo n = bitfield x (lo - lo') n.
Proof.
  intros. apply Z.bits_inj'. intros k Hk. rewrite !testbit_bitfield, testbit_set by lia.
  destruct (Z.ltb_spec k n); [|done]. simpl.
  destruct (Z.leb_spec lo' (lo + k)); [|lia]. destruct (Z.ltb_spec (lo + k) (lo' + n')); [|lia].
  simpl. f_equal. lia.
Qed.

Lemma bitfield_apart v lo n x lo' n' : 0 <= lo -> 0 <= n -> 0 <= lo' -> 0 <= n' ->
  lo + n <= lo' \/ lo' + n' <= lo -> bitfield (set_bitfield v lo' n' x) lo n = bitfield v lo n.
Proof.
  intros. apply Z.bits_inj'. intros k Hk. rewrite !testbit_bitfield, testbit_set by lia.
  destruct (Z.ltb_spec k n); [|done]. simpl.
  destruct (Z.leb_spec lo' (lo + k)), (Z.ltb_spec (lo + k) (lo' + n')); simpl; done || lia.
Qed.

Lemma bitfield_bound v lo n : 0 <= lo -> 0 <= n -> 0 <= bitfield v lo n < 2 ^ n.
Proof. intros. unfold bitfield. rewrite Z.land_ones by lia. apply Z.mod_pos_bound. lia. Qed.

Lemma bitfield_small v n : 0 <= v < 2 ^ n -> 0 <= n -> bitfield v 0 n = v.
Proof. intros. unfold bitfield. rewrite Z.shiftr_0_r, Z.land_ones by lia. by apply Z.mod_small. Qed.

Lemma bitfield_div v lo n : 0 <= lo -> 0 <= n -> bitfield v lo n = (v / 2 ^ lo) mod 2 ^ n.
Proof. intros. unfold bitfield. by rewrite Z.land_ones, Z.shiftr_div_pow2 by lia. Qed.

Lemma bitfield_bitfield v lo n lo' n' : 0 <= lo -> 0 <= n -> 0 <= lo' -> 0 <= n' -> lo' + n' <= n ->
  bitfield (bitfield v lo n) lo' n' = bitfield v (lo + lo') n'.
Proof.
  intros. apply Z.bits_inj'. intros k Hk. rewrite !testbit_bitfield by lia.
  destruct (Z.ltb_spec k n'); [|done]. simpl. destruct (Z.ltb_spec (lo' + k) n); [|lia]. simpl. f_equal. lia.
Qed.

(** The same with side conditions that compute. *)
Lemma bf_inside v lo n x lo' n' : (0 <=? lo') && (0 <=? n) && (lo' <=? lo) && (lo + n <=? lo' + n') = true ->
  bitfield (set_bitfield v lo' n' x) lo n = bitfield x (lo - lo') n.
Proof. rewrite !andb_true_iff, !Z.leb_le. intros [[[]]]. by apply bitfield_inside. Qed.

Lemma bf_apart v lo n x lo' n' :
  (0 <=? lo) && (0 <=? n) && (0 <=? lo') && (0 <=? n') && ((lo + n <=? lo') || (lo' + n' <=? lo)) = true ->
  bitfield (set_bitfield v lo' n' x) lo n = bitfield v lo n.
Proof. rewrite !andb_true_iff, orb_true_iff, !Z.leb_le. intros [[[[]]]]. by apply bitfield_apart. Qed.

Lemma bf_bitfield v lo n lo' n' :
  (0 <=? lo) && (0 <=? n) && (0 <=? lo') && (0 <=? n') && (lo' + n' <=? n) = true ->
  bitfield (bitfield v lo n) lo' n' = bitfield v (lo + lo') n'.
Proof. rewrite !andb_true_iff, !Z.leb_le. intros [[[[]]]]. by apply bitfield_bitfield. Qed.

(** Compute the fields of an entry that was built field by field. *)
Ltac bf1 :=
  match goal with
  | |- context [bitfield (set_bitfield ?v ?lo' ?n' ?x) ?lo ?n] =>
      first
        [ rewrite (bf_apart v lo n x lo' n' eq_refl)
        | let d := eval vm_compute in (lo - lo') in
          rewrite (bf_inside v lo n x lo' n' eq_refl); change (lo - lo') with d ]
  | |- context [bitfield (bitfield ?v ?lo ?n) ?lo' ?n'] =>
      let d := eval vm_compute in (lo + lo') in
      rewrite (bf_bitfield v lo n lo' n' eq_refl); change (lo + lo') with d
  end.
Ltac bf := repeat bf1.

(** * Addresses *)

Lemma get_address_fields e : mam_get_address_from_any_entry e = bitfield e 32 8 * 2 ^ 32 + bitfield e 12 20 * 2 ^ 12.
Proof.
  unfold mam_get_address_from_any_entry.
  pose proof (bitfield_bound e 32 8 ltac:(lia) ltac:(lia)). pose proof (bitfield_bound e 12 20 ltac:(lia) ltac:(lia)).
  rewrite !Z.shiftl_mul_pow2 by lia. usmall. symmetry. apply Z.add_nocarry_lor. apply Z.bits_inj'. intros k Hk.
  rewrite Z.land_spec, Z.bits_0. destruct (decide (k < 32)).
  - by rewrite Z.mul_pow2_bits_low by lia.
  - by rewrite (bits_above (bitfield e 12 20 * 2 ^ 12) 32 k), andb_false_r by lia.
Qed.

(** A page-aligned address that the 40 bits of an entry hold. *)
Definition addr_ok (a : Z) : Prop := 0 <= a < 2 ^ 40 /\ a mod 4096 = 0.

Lemma set_address_fields e a : addr_ok a ->
  mam_set_address_in_any_entry e a = set_bitfield (set_bitfield e 12 20 (bitfield a 12 20)) 32 8 (bitfield a 32 8).
Proof.
  intros [Ha _]. unfold mam_set_address_in_any_entry. f_equal; [f_equal|].
  - rewrite bitfield_div by lia. unfold u32, wrap. rewrite Z.shiftr_div_pow2 by lia.
    change (2 ^ 32) with (2 ^ 12 * 2 ^ 20). rewrite Z.rem_mul_r by lia.
    rewrite Z.mul_comm, Z.div_add by lia. rewrite Z.div_small by lia. lia.
  - rewrite bitfield_div, Z.shiftr_div_pow2 by lia. rewrite u32_small by lia. lia.
Qed.

Lemma address_of_fields a : addr_ok a -> bitfield a 32 8 * 2 ^ 32 + bitfield a 12 20 * 2 ^ 12 = a.
Proof. intros [Ha Hm]. rewrite !bitfield_div by lia. lia. Qed.

(** * Views *)

(** What the operations of a format read from an entry. *)
Inductive entry_view :=
| VInvalid (reason : Z)
| VLeaf (addr attrs : Z)
| VInner (table : Z).

Section Views.
Context (hva_to_hpa hpa_to_hva : Z -> option Z).

Definition view (K : MAM_ENTRY_OPS) (level : nat) (e : Z) : entry_view :=
  if mam_is_entry_present e K then
    if mam_is_leaf_entry e then
      VLeaf (mam_get_address_from_leaf_entry e level K) (mam_get_attributes_from_entry e level K)
    else VInner (mam_get_table_pointed_by_entry hpa_to_hva e K)
  else VInvalid (invalid_reason e).

(** The attributes a format keeps. *)
Definition attr_ok (K : MAM_ENTRY_OPS) (attr : Z) : Prop :=
  match K with
  | MAM_INTERNAL_ENTRY_OPS => 0 <= attr < 2 ^ 8
  | MAM_EPT_ENTRY_OPS => 0 <= attr < 2 ^ 8 /\ bitfield attr 0 3 <> 0
  | MAM_PAGE_TABLE_ENTRY_OPS => 0 <= attr < 2 ^ 6 /\ Z.testbit attr 2 = true
  | MAM_VTDPT_ENTRY_OPS => 0 <= attr < 2 ^ 4 /\ bitfield attr 0 2 <> 0
  end.

(** The addresses a format keeps in a leaf of a level. *)
Definition leaf_ok (K : MAM_ENTRY_OPS) (level : nat) (a : Z) : Prop :=
  addr_ok a /\ match K with
               | MAM_PAGE_TABLE_ENTRY_OPS => level = 1%nat \/ level = 2%nat /\ a mod 2 ^ 21 = 0
               | _ => True
               end.

(** The attributes of the inner levels make the entry present. *)
Definition inner_ok (K : MAM_ENTRY_OPS) (mam : MAM) : Prop :=
  match K with
  | MAM_EPT_ENTRY_OPS => bitfield (inner_level_attributes mam) 0 3 <> 0
  | MAM_VTDPT_ENTRY_OPS => bitfield (inner_level_attributes mam) 0 2 <> 0
  | _ => True
  end.

(** A table that entries can refer to. *)
Definition table_ok (hva : Z) : Prop :=
  addr_ok hva /\ 0 < hva /\ addr_ok (mam_hva_to_hpa hva_to_hpa hva) /\
  mam_hpa_to_hva hpa_to_hva (mam_hva_to_hpa hva_to_hpa hva) = hva.
End Views.

(** Evaluate the fields of constants. *)
Ltac bf_const :=
  unfold MAM_LEAF_INTERNAL_ENTRY, MAM_LEAF_PAGE_TABLE_ENTRY, MAM_LEAF_EPT_ENTRY, MAM_LEAF_VTDPT_ENTRY,
    MAM_INTERNAL_ENTRY, MAM_PAGE_TABLE_ENTRY, MAM_EPT_ENTRY, MAM_VTDPT_ENTRY in *;
  repeat match goal with
  | |- context [bitfield ?a ?b ?c] =>
      match isZcst a with
      | true => let v := eval vm_compute in (bitfield a b c) in change (bitfield a b c) with v
      end
  end.
Ltac bfs := bf; bf_const.

Lemma ept_attrs_fields attr : 0 <= attr < 2 ^ 8 ->
  set_bitfield (set_bitfield (set_bitfield (set_bitfield (set_bitfield (set_bitfield 0 0 1 (bitfield attr 0 1))
    1 1 (bitfield attr 1 1)) 2 1 (bitfield attr 2 1)) 3 1 (bitfield attr 3 1)) 4 3 (bitfield attr 4 3))
    7 1 (bitfield attr 7 1) = attr.
Proof.
  intros Ha. apply Z.bits_inj'. intros k Hk. rewrite !testbit_set by lia. rewrite Z.bits_0.
  destruct (decide (k < 8)).
  - assert (k = 0 \/ k = 1 \/ k = 2 \/ k = 3 \/ k = 4 \/ k = 5 \/ k = 6 \/ k = 7) as Hc by lia.
    repeat destruct Hc as [->|Hc]; [..|subst k]; cbn -[bitfield Z.testbit];
      rewrite testbit_bitfield by lia; reflexivity.
  - rewrite (bits_above attr 8 k) by lia.
    destruct (Z.ltb_spec k (7 + 1)); [lia|]. destruct (Z.ltb_spec k (4 + 3)); [lia|].
    destruct (Z.ltb_spec k (3 + 1)); [lia|]. destruct (Z.ltb_spec k (2 + 1)); [lia|].
    destruct (Z.ltb_spec k (1 + 1)); [lia|]. destruct (Z.ltb_spec k (0 + 1)); [lia|]. by rewrite !andb_false_r.
Qed.

Lemma bit_of attr k : 0 <= k -> bitfield attr k 1 = Z.b2z (Z.testbit attr k).
Proof. intros. rewrite bitfield_div by lia. by rewrite Z.testbit_spec'. Qed.

(** The caching attributes are bits 4 to 6. *)
Lemma caching_bits attr : mam_calculate_caching_attributes_from_pat_index (bitfield attr 4 3) =
  (bitfield attr 4 1, bitfield attr 5 1, bitfield attr 6 1).
Proof.
  unfold mam_calculate_caching_attributes_from_pat_index.
  assert (forall x k, Z.land (Z.shiftr x k) 1 = bitfield x k 1) as H by done.
  rewrite <- (Z.shiftr_0_r (bitfield attr 4 3)) at 1. rewrite !H. by bf.
Qed.

(** The page table format has no execute-disable bit set and uses the first four PAT entries. *)
Lemma pt_attrs_fields attr : 0 <= attr < 2 ^ 6 -> Z.testbit attr 2 = true ->
  set_bitfield (set_bitfield (set_bitfield (set_bitfield (set_bitfield 0 0 1 (bitfield attr 0 1))
    1 1 (bitfield attr 1 1)) 2 1 1) 3 1 (bitfield attr 3 1))
    4 3 (mam_calculate_pat_index (bitfield attr 4 1) (bitfield attr 5 1) 0) = attr.
Proof.
  intros Ha H2. unfold mam_calculate_pat_index. rewrite !(bit_of attr) by lia.
  apply Z.bits_inj'. intros k Hk. rewrite !testbit_set by lia. rewrite Z.bits_0.
  destruct (decide (k < 7)).
  - assert (Z.testbit attr 6 = false) as H6 by (apply (bits_above attr 6); lia).
    assert (k = 0 \/ k = 1 \/ k = 2 \/ k = 3 \/ k = 4 \/ k = 5 \/ k = 6) as Hc by lia.
    repeat destruct Hc as [-> | Hc]; [..|subst k]; cbn -[Z.testbit]; rewrite ?H2, ?H6;
      destruct (Z.testbit attr 0), (Z.testbit attr 1), (Z.testbit attr 3), (Z.testbit attr 4),
        (Z.testbit attr 5); reflexivity.
  - rewrite (bits_above attr 6 k) by lia.
    destruct (Z.ltb_spec k (4 + 3)); [lia|]. destruct (Z.ltb_spec k (3 + 1)); [lia|].
    destruct (Z.ltb_spec k (2 + 1)); [lia|]. destruct (Z.ltb_spec k (1 + 1)); [lia|].
    destruct (Z.ltb_spec k (0 + 1)); [lia|]. by rewrite !andb_false_r.
Qed.

(** The address of a 2 MB page without the PAT bit. *)
Lemma mask_pat a : addr_ok a -> a mod 2 ^ 21 = 0 -> Z.land a (u64 (Z.lnot (Z.shiftl 1 12))) = a.
Proof.
  intros [Ha _] Hm. apply Z.bits_inj'. intros k Hk. rewrite Z.land_spec. unfold u64, wrap.
  destruct (decide (k < 64)); [|rewrite (bits_above a 40 k) by lia; done].
  rewrite Z.mod_pow2_bits_low, Z.lnot_spec, Z.shiftl_spec by lia.
  destruct (decide (k = 12)) as [->|].
  - replace a with (a / 2 ^ 21 * 2 ^ 21) by (pose proof (Z.div_mod a (2 ^ 21)); lia).
    by rewrite Z.mul_pow2_bits_low by lia.
  - assert (Z.testbit 1 (k - 12) = false) as ->; [|by rewrite andb_true_r].
    destruct (decide (k < 12)); [by rewrite Z.testbit_neg_r by lia|].
    apply (bits_above 1 1); lia.
Qed.

Lemma pat_of_2mb a : a mod 2 ^ 21 = 0 -> Z.land (bitfield a 12 20) 1 = 0.
Proof.
  intros Hm. change 1 with (Z.ones 1). rewrite Z.land_ones, bitfield_div by lia. lia.
Qed.

(** What the attributes tell about an entry in the page table format. *)
Lemma pt_exb e l : Z.testbit (mam_get_attributes_from_page_table_entry e l) 2 = true -> bitfield e 63 1 = 0.
Proof.
  unfold mam_get_attributes_from_page_table_entry. cbv zeta. rewrite !testbit_set by lia. cbn -[bitfield].
  destruct (Z.eqb_spec (bitfield e 63 1) 0); done.
Qed.

Lemma pt_pat e l old : mam_get_attributes_from_page_table_entry e l = old -> 0 <= old < 2 ^ 6 ->
  (if (l =? 2)%nat && negb (bitfield e 7 1 =? 0) then Z.land (bitfield e 12 20) 1 else 0) = 0.
Proof.
  intros H Ho. assert (Z.testbit old 6 = false) as H6 by (apply (bits_above old 6); lia).
  rewrite <- H in H6. unfold mam_get_attributes_from_page_table_entry in H6. cbv zeta in H6.
  destruct (l =? 2)%nat eqn:E2; [|done]. apply Nat.eqb_eq in E2 as ->. cbn [Nat.eqb andb] in *.
  destruct (negb _); [|done].
  assert (Z.land (bitfield e 12 20) 1 = 0 \/ Z.land (bitfield e 12 20) 1 = 1) as [|E1]; [|done|].
  { assert (Z.land (bitfield e 12 20) 1 = bitfield e 12 20 mod 2) as -> by (apply (Z.land_ones _ 1); lia). lia. }
  rewrite E1 in H6. rewrite testbit_set in H6 by lia. revert H6. unfold mam_calculate_pat_index.
  rewrite !bit_of by lia. cbn -[Z.testbit]. by destruct (Z.testbit e 3), (Z.testbit e 4).
Qed.

Lemma level_is_1 l : (l =? 1)%nat = true \/ (l =? 1)%nat = false.
Proof. destruct (l =? 1)%nat; auto. Qed.

Lemma present_bits attr : bitfield attr 0 3 <> 0 ->
  negb (bitfield attr 0 1 =? 0) || negb (bitfield attr 1 1 =? 0) || negb (bitfield attr 2 1 =? 0) = true.
Proof. rewrite !bitfield_div by lia. intros H. change (2 ^ 3) with 8 in H. zcases; lia. Qed.

(** What the tables' algorithms rely on: an entry written by an operation of the format is
    read back as what was written, with its format. *)
Class EntryLaws (hva_to_hpa hpa_to_hva : Z -> option Z) (K : MAM_ENTRY_OPS) : Prop := {
  law_invalid l e r : 0 <= r < 2 ^ 31 ->
    let e' := mam_invalidate_entry e r (mam_get_leaf_entry_type K) in
    view hpa_to_hva K l e' = VInvalid r /\ mam_get_entry_ops e' = K /\
    get_mam_entry_type e' = mam_get_leaf_entry_type K;
  law_leaf l a attr : leaf_ok K l a -> attr_ok K attr ->
    let e' := mam_update_leaf_entry a attr l K in
    view hpa_to_hva K l e' = VLeaf a attr /\ mam_get_entry_ops e' = K;
  law_inner mam hva l : table_ok hva_to_hpa hpa_to_hva hva -> inner_ok K mam ->
    let e' := mam_update_inner_level_entry hva_to_hpa mam hva l K in
    view hpa_to_hva K l e' = VInner hva /\ mam_get_entry_ops e' = K;
  law_attrs l e a old new : view hpa_to_hva K l e = VLeaf a old -> mam_get_entry_ops e = K ->
    leaf_ok K l a -> attr_ok K old -> attr_ok K new ->
    let e' := mam_update_attributes_in_leaf_entry e new l K in
    view hpa_to_hva K l e' = VLeaf a new /\ mam_get_entry_ops e' = K
}.

Ltac open_entry :=
  unfold view, mam_get_entry_ops, mam_is_leaf_entry, get_mam_entry_type, invalid_reason;
  cbn [mam_is_entry_present mam_get_address_from_leaf_entry mam_get_attributes_from_entry
       mam_get_table_pointed_by_entry mam_get_leaf_entry_type];
  rewrite ?get_address_fields.

Lemma view_leaf hpa_to_hva K l e a attr : view hpa_to_hva K l e = VLeaf a attr ->
  mam_is_entry_present e K = true /\ mam_is_leaf_entry e = true /\
  mam_get_address_from_leaf_entry e l K = a /\ mam_get_attributes_from_entry e l K = attr.
Proof.
  unfold view. destruct (mam_is_entry_present e K); [|done]. destruct (mam_is_leaf_entry e); [|done].
  intros H. by simplify_eq.
Qed.

(** Bit 8 belongs to the type in the VT-d format only. *)
Lemma type_stable e e' : bitfield e' 9 3 = bitfield e 9 3 -> mam_get_entry_ops e <> MAM_VTDPT_ENTRY_OPS ->
  get_mam_entry_type e' = get_mam_entry_type e.
Proof.
  intros E. unfold mam_get_entry_ops, get_mam_entry_type. rewrite E.
  destruct (Z.eqb_spec (Z.land (bitfield e 9 3) MAM_INNER_ENTRY_TYPE_MASK) MAM_VTDPT_ENTRY) as [->|]; [|done].
  cbn [negb]. pose proof (bitfield_bound e 8 1 ltac:(lia) ltac:(lia)).
  assert (bitfield e 8 1 = 0 \/ bitfield e 8 1 = 1) as [-> | ->] by lia; by intros [].
Qed.

Section Laws.
Context (hva_to_hpa hpa_to_hva : Z -> option Z).

#[global] Instance internal_laws : EntryLaws hva_to_hpa hpa_to_hva MAM_INTERNAL_ENTRY_OPS.
Proof.
  split.
  - intros l e r Hr. unfold mam_invalidate_entry. cbv zeta. open_entry. bfs.
    by rewrite (bitfield_small r 31) by lia.
  - intros l a attr [Ha _] Hat. cbn [mam_update_leaf_entry]. unfold mam_update_leaf_internal_entry. cbv zeta.
    rewrite set_address_fields by done. open_entry. bfs. rewrite address_of_fields by done.
    by rewrite (bitfield_small attr 8) by (done || lia).
  - intros mam hva l (Ha & _) _. cbn [mam_update_inner_level_entry]. unfold mam_update_inner_internal_entry. cbv zeta.
    rewrite set_address_fields by done. open_entry. bfs. by rewrite address_of_fields.
  - intros l e a old new V E _ _ Hn. apply view_leaf in V as (Hp & Hl & Haddr & _).
    cbn [mam_update_attributes_in_leaf_entry].
    assert (Ht : get_mam_entry_type (set_bitfield e 1 8 new) = get_mam_entry_type e)
      by (apply type_stable; [by bf|by rewrite E]).
    revert Hp Hl Haddr E. unfold view, mam_is_leaf_entry, mam_get_entry_ops. rewrite Ht.
    cbn [mam_is_entry_present mam_get_address_from_leaf_entry mam_get_attributes_from_entry].
    rewrite !get_address_fields. bfs. intros -> -> -> ->. by rewrite (bitfield_small new 8) by (done || lia).
Qed.

#[global] Instance ept_laws : EntryLaws hva_to_hpa hpa_to_hva MAM_EPT_ENTRY_OPS.
Proof.
  split.
  - intros l e r Hr. unfold mam_invalidate_entry. cbv zeta. open_entry. bfs.
    by rewrite (bitfield_small r 31) by lia.
  - intros l a attr [Ha _] [Hat Hp]. cbn [mam_update_leaf_entry]. unfold mam_update_leaf_ept_entry. cbv zeta.
    rewrite set_address_fields by done. open_entry. unfold mam_get_attributes_from_ept_entry.
    destruct (level_is_1 l) as [-> | ->]; cbn [negb]; bfs; rewrite present_bits by done;
      rewrite address_of_fields by done; by rewrite ept_attrs_fields.
  - intros mam hva l (_ & _ & Ha & Hh) Hp. cbn [mam_update_inner_level_entry].
    unfold mam_update_inner_ept_entry. cbv zeta.
    rewrite set_address_fields by done. open_entry. bfs. rewrite present_bits by done.
    by rewrite address_of_fields, Hh by done.
  - intros l e a old new V E _ _ [Hn Hp']. apply view_leaf in V as (_ & Hl & Haddr & _).
    cbn [mam_update_attributes_in_leaf_entry]. unfold mam_update_attributes_in_leaf_ept_entry. cbv zeta.
    revert Hl Haddr E. open_entry. unfold mam_get_attributes_from_ept_entry.
    destruct (level_is_1 l) as [-> | ->]; cbn [negb]; bfs; intros -> -> ->;
      rewrite present_bits by done; by rewrite ept_attrs_fields.
Qed.
#[global] Instance page_table_laws : EntryLaws hva_to_hpa hpa_to_hva MAM_PAGE_TABLE_ENTRY_OPS.
Proof.
  split.
  - intros l e r Hr. unfold mam_invalidate_entry. cbv zeta. open_entry. bfs.
    by rewrite (bitfield_small r 31) by lia.
  - intros l a attr [Ha Hl] [Hat H2]. cbn [mam_update_leaf_entry]. unfold mam_update_leaf_page_table_entry.
    rewrite caching_bits. cbv zeta beta iota.
    assert (bitfield attr 6 1 = 0) as -> by (rewrite bitfield_div by lia; lia).
    rewrite set_address_fields by done. open_entry. unfold mam_get_attributes_from_page_table_entry.
    destruct Hl as [-> | [-> Hl]]; cbn [Nat.eqb andb negb Z.eqb]; bfs; cbn [negb Z.eqb];
      rewrite ?(pat_of_2mb a), address_of_fields, ?mask_pat, pt_attrs_fields by done; done.
  - intros mam hva l (_ & _ & Ha & Hh) _. cbn [mam_update_inner_level_entry].
    unfold mam_update_inner_page_table_entry. rewrite caching_bits. cbv zeta beta iota.
    rewrite set_address_fields by done. open_entry.
    destruct (negb (is_32bit_page_tables mam) || negb (l =? 3)%nat); bfs;
      by rewrite address_of_fields, Hh by done.
  - intros l e a old new V E [Ha Hl] [Ho Ho2] [Hn H2].
    apply view_leaf in V as (Hp & Hleaf & Haddr & Hat).
    cbn [mam_update_attributes_in_leaf_entry]. unfold mam_update_attributes_in_leaf_page_table_entry.
    rewrite caching_bits. cbv zeta beta iota.
    assert (bitfield new 6 1 = 0) as -> by (rewrite bitfield_div by lia; lia).
    cbn [mam_get_attributes_from_entry] in Hat.
    pose proof (pt_exb e l) as Hexb. rewrite Hat in Hexb. specialize (Hexb Ho2).
    pose proof (pt_pat e l old Hat ltac:(lia)) as Hpat.
    match goal with |- view _ _ _ ?e' = _ /\ _ => set (e1 := e') end.
    assert (Ht : get_mam_entry_type e1 = get_mam_entry_type e).
    { apply type_stable; [|by rewrite E]. unfold e1. destruct (l =? 2)%nat; by bf. }
    revert Hp Hleaf Haddr E. unfold view, mam_is_leaf_entry, mam_get_entry_ops. rewrite Ht.
    cbn [mam_is_entry_present mam_get_address_from_leaf_entry mam_get_attributes_from_entry].
    rewrite !get_address_fields. unfold mam_get_attributes_from_page_table_entry.
    destruct Hl as [-> | [-> Hl]]; unfold e1; cbn [Nat.eqb andb negb Z.eqb] in *; bfs;
      rewrite ?Z.lor_0_r; bf; intros -> -> -> ->; rewrite Hexb, ?Hpat; cbn [Z.eqb negb];
      by rewrite pt_attrs_fields.
Qed.
End Laws.

(** * The VT-d format *)

Lemma basic_type e : Z.land (bitfield e 9 3) MAM_INNER_ENTRY_TYPE_MASK = bitfield e 9 2.
Proof.
  transitivity (bitfield (bitfield e 9 3) 0 2); [|by bf]. unfold bitfield at 2. by rewrite Z.shiftr_0_r.
Qed.

Lemma vtdpt_attrs_fields attr : 0 <= attr < 2 ^ 4 ->
  set_bitfield (set_bitfield (set_bitfield (set_bitfield 0 0 1 (bitfield attr 0 1)) 1 1 (bitfield attr 1 1))
    2 1 (bitfield attr 2 1)) 3 1 (bitfield attr 3 1) = attr.
Proof.
  intros Ha. rewrite !(bit_of attr) by lia. apply Z.bits_inj'. intros k Hk. rewrite !testbit_set by lia.
  rewrite Z.bits_0. destruct (decide (k < 4)).
  - assert (k = 0 \/ k = 1 \/ k = 2 \/ k = 3) as Hc by lia.
    repeat destruct Hc as [-> | Hc]; [..|subst k]; cbn -[Z.testbit];
      destruct (Z.testbit attr 0), (Z.testbit attr 1), (Z.testbit attr 2), (Z.testbit attr 3); reflexivity.
  - rewrite (bits_above attr 4 k) by lia.
    destruct (Z.ltb_spec k (3 + 1)); [lia|]. destruct (Z.ltb_spec k (2 + 1)); [lia|].
    destruct (Z.ltb_spec k (1 + 1)); [lia|]. destruct (Z.ltb_spec k (0 + 1)); [lia|]. by rewrite !andb_false_r.
Qed.

Lemma vtdpt_leaf hpa_to_hva l a attr : addr_ok a -> 0 <= attr < 2 ^ 4 -> bitfield attr 0 2 <> 0 ->
  view hpa_to_hva MAM_VTDPT_ENTRY_OPS l (mam_update_leaf_entry a attr l MAM_VTDPT_ENTRY_OPS) = VLeaf a attr.
Proof.
  intros Ha Hat Hp. cbn [mam_update_leaf_entry]. unfold mam_update_leaf_vtdpt_entry. cbv zeta.
  change (Z.shiftr MAM_LEAF_ENTRY_TYPE_MASK 2) with 1.
  rewrite set_address_fields by done. unfold view, mam_is_leaf_entry, get_mam_entry_type. rewrite !basic_type.
  cbn [mam_is_entry_present mam_get_address_from_leaf_entry mam_get_attributes_from_entry].
  rewrite !get_address_fields. unfold mam_get_attributes_from_vtdpt_entry.
  assert (negb (bitfield attr 0 1 =? 0) || negb (bitfield attr 1 1 =? 0) = true) as Hpr.
  { rewrite !bitfield_div in * by lia. change (2 ^ 2) with 4 in *. zcases; lia. }
  destruct (level_is_1 l) as [-> | ->]; cbn [negb]; bfs; rewrite Hpr, address_of_fields by done;
    by rewrite vtdpt_attrs_fields.
Qed.

(** ** Page-table leaves with any attributes *)

Lemma pt_attrs_any attr : 0 <= attr < 2 ^ 7 ->
  set_bitfield (set_bitfield (set_bitfield (set_bitfield (set_bitfield 0 0 1 (bitfield attr 0 1)) 1 1 (bitfield attr 1 1)) 2 1 1)
    3 1 (bitfield attr 3 1)) 4 3 (mam_calculate_pat_index (bitfield attr 4 1) (bitfield attr 5 1) (bitfield attr 6 1)) = Z.lor attr 4.
Proof.
  intros Ha. assert (H : Forall (fun attr =>
    set_bitfield (set_bitfield (set_bitfield (set_bitfield (set_bitfield 0 0 1 (bitfield attr 0 1)) 1 1 (bitfield attr 1 1)) 2 1 1)
    3 1 (bitfield attr 3 1)) 4 3 (mam_calculate_pat_index (bitfield attr 4 1) (bitfield attr 5 1) (bitfield attr 6 1)) = Z.lor attr 4) (seqZ 0 128)).
  { apply (bool_decide_unpack _). vm_compute. exact I. }
  rewrite Forall_forall in H. apply H, elem_of_seqZ. lia.
Qed.

Lemma pat_bit_cases attr : bitfield attr 6 1 = 0 \/ bitfield attr 6 1 = 1.
Proof. rewrite bitfield_div by lia. lia. Qed.

Lemma pat_set a : a mod 2 ^ 21 = 0 -> Z.lor (bitfield a 12 20) 1 = bitfield a 12 20 + 1.
Proof.
  intros Hm. assert (E : bitfield a 12 20 mod 2 = 0) by (rewrite bitfield_div by lia; lia).
  pose proof (Z.div_mod (bitfield a 12 20) 2 ltac:(lia)) as D. set (q := bitfield a 12 20 / 2) in *. rewrite E, Z.add_0_r in D.
  rewrite D. symmetry. apply Z.add_nocarry_lor. change 1 with (Z.ones 1). rewrite Z.land_ones by lia. lia.
Qed.

Lemma address_with_pat a : addr_ok a -> a mod 2 ^ 21 = 0 ->
  Z.land (bitfield a 32 8 * 2 ^ 32 + Z.lor (bitfield a 12 20) 1 * 2 ^ 12) (u64 (Z.lnot (Z.shiftl 1 12))) = a.
Proof.
  intros Ha Hm. rewrite pat_set by done.
  replace (bitfield a 32 8 * 2 ^ 32 + (bitfield a 12 20 + 1) * 2 ^ 12) with (a + 2 ^ 12)
    by (pose proof (address_of_fields a Ha); lia).
  assert (Z.land a (2 ^ 12) = 0) as Hd.
  { apply Z.bits_inj'. intros k Hk. rewrite Z.land_spec, Z.pow2_bits_eqb, Z.bits_0 by lia. destruct (Z.eqb_spec 12 k) as [<-|]; [|by rewrite andb_false_r].
    replace a with (a / 2 ^ 21 * 2 ^ 21) by (pose proof (Z.div_mod a (2 ^ 21)); lia). by rewrite Z.mul_pow2_bits_low by lia. }
  rewrite Z.add_nocarry_lor, (Z.land_comm (Z.lor _ _)), Z.land_lor_distr_r, (Z.land_comm _ a), mask_pat by done.
  change (Z.land (u64 (Z.lnot (Z.shiftl 1 12))) (2 ^ 12)) with 0. apply Z.lor_0_r.
Qed.

Lemma page_table_leaf hpa_to_hva l a attr : leaf_ok MAM_PAGE_TABLE_ENTRY_OPS l a -> 0 <= attr < 2 ^ 7 ->
  view hpa_to_hva MAM_PAGE_TABLE_ENTRY_OPS l (mam_update_leaf_entry a attr l MAM_PAGE_TABLE_ENTRY_OPS) = VLeaf a (Z.lor attr 4).
Proof.
  intros [Ha Hl] Hat. cbn [mam_update_leaf_entry]. unfold mam_update_leaf_page_table_entry. rewrite caching_bits. cbv zeta beta iota.
  rewrite set_address_fields by done. rewrite <- (pt_attrs_any attr Hat).
  destruct (pat_bit_cases attr) as [E|E]; rewrite E; open_entry; unfold mam_get_attributes_from_page_table_entry;
    destruct Hl as [-> | [-> Hl]]; cbn [Nat.eqb andb negb Z.eqb]; bfs; cbn [negb Z.eqb].
  1-2: by rewrite ?(pat_of_2mb a), address_of_fields, ?mask_pat by done.
  - by rewrite address_of_fields by done.
  - assert (E2 : bitfield (Z.lor (bitfield a 12 20) 1) 0 20 = Z.lor (bitfield a 12 20) 1).
    { apply bitfield_small; [|lia]. rewrite pat_set by done. rewrite bitfield_div by lia. lia. }
    rewrite E2, address_with_pat by done.
    assert (Z.land (Z.lor (bitfield a 12 20) 1) 1 = 1) as ->; [|done].
    by rewrite Z.land_lor_distr_l, pat_of_2mb by done.
Qed.

(** The attributes that a leaf of a format can be written with, and what is read back: the page-table format
    does not keep the absence of the execute permission. *)
Definition leaf_attr_ok (K : MAM_ENTRY_OPS) (attr : Z) : Prop :=
  match K with MAM_PAGE_TABLE_ENTRY_OPS => 0 <= attr < 2 ^ 7 | _ => attr_ok K attr end.
Definition read_back (K : MAM_ENTRY_OPS) (attr : Z) : Z :=
  match K with MAM_PAGE_TABLE_ENTRY_OPS => Z.lor attr 4 | _ => attr end.

(** C29. A leaf entry of each of the four formats gives back the page address, of 40 bits, and the
    attributes it was written with, at the levels the format allows (page tables: level 1, or level 2 with a
    2 MB aligned address). In the page-table format, with attributes of 7 bits, the execute permission is always
    read back as set, because the write of the NX bit is compiled out; in the EPT and the VT-d formats, with
    attributes of 8 and of 4 bits, one of the permissions must be set, or the entry is not a present one. *)
Theorem mam_leaf_entry_roundtrip (hpa_to_hva : Z -> option Z) (K : MAM_ENTRY_OPS) (l : nat) (a attr : Z) :
  leaf_ok K l a -> leaf_attr_ok K attr ->
  view hpa_to_hva K l (mam_update_leaf_entry a attr l K) = VLeaf a (read_back K attr).
Proof.
  destruct K; intros Ha Hat.
  - by apply (internal_laws (fun _ => None) hpa_to_hva).
  - by apply page_table_leaf.
  - by apply (ept_laws (fun _ => None) hpa_to_hva).
  - destruct Ha as [Ha _], Hat. by apply vtdpt_leaf.
Qed.

Lemma mam_leaf_entry_roundtrip_witness :
  view Some MAM_EPT_ENTRY_OPS 2 (mam_update_leaf_entry 0x40000000 0x67 2 MAM_EPT_ENTRY_OPS) = VLeaf 0x40000000 0x67 /\
  view Some MAM_PAGE_TABLE_ENTRY_OPS 2 (mam_update_leaf_entry 0x40000000 0x43 2 MAM_PAGE_TABLE_ENTRY_OPS) = VLeaf 0x40000000 0x47.
Proof.
  split.
  - apply (mam_leaf_entry_roundtrip Some MAM_EPT_ENTRY_OPS 2 0x40000000 0x67).
    + split; [|done]. split; [lia|reflexivity].
    + split; [lia|]. vm_compute. discriminate.
  - apply (mam_leaf_entry_roundtrip Some MAM_PAGE_TABLE_ENTRY_OPS 2 0x40000000 0x43).
    + split; [split; [lia|reflexivity]|]. right. split; reflexivity.
    + cbn [leaf_attr_ok]. lia.
Defined.

(** A VT-d entry that is not present is taken for one that refers to a table: the type of an
    invalid entry is written to the three available bits, and the leaf bit of the VT-d format
    is bit 8, which is cleared. *)
Theorem invalid_vtdpt_entry_is_inner (e reason : Z) :
  mam_is_leaf_entry (mam_invalidate_entry e reason (mam_get_leaf_entry_type MAM_VTDPT_ENTRY_OPS)) = false.
Proof.
  unfold mam_invalidate_entry, mam_is_leaf_entry, get_mam_entry_type. cbv zeta. cbn [mam_get_leaf_entry_type].
  rewrite !basic_type. by bfs.
Qed.
