(* ===== verification/Mam.v ===== *)
(** memory/memory_manager/memory_address_mapper.c: the address mapper, a radix tree of pages of
    512 entries that maps ranges of source addresses to target addresses and attributes, or to
    the reason why they are not mapped. *)

From S2P Require Import Prelude VmmDefs Lock MamEntry.

(** * Memory

    The tables are pages of the heap, held by their virtual address; a pointer that is not the
    address of a live table faults. [A] is the state of the page heap. *)

(** What heap.c gives to the mapper: [vmm_page_alloc(1)] (0 is NULL), [vmm_memory_free], and
    what a page holds when it is handed out. *)
Class Pages (A : Type) := {
  vmm_page_alloc : A -> outcome (Z * A);
  vmm_memory_free : A -> Z -> outcome A;
  stale : A -> Z -> list Z
}.

Record mstate (A : Type) := mk_mstate { tabs : gmap Z (list Z); pages : A }.
Arguments mk_mstate {A} tabs pages.
Arguments tabs {A} m.
Arguments pages {A} m.

Inductive MAM_UPDATE_OP := MAM_OVERWRITE_ADDR_AND_ATTRS | MAM_SET_ATTRS | MAM_CLEAR_ATTRS | MAM_OVERWRITE_ATTRS.

#[global] Instance MAM_UPDATE_OP_eq_dec : EqDecision MAM_UPDATE_OP.
Proof. solve_decision. Defined.

Definition MAM_INVALID_ADDRESS : Z := 2 ^ 64 - 1.
Definition MAM_INVALID_CPU_ID : Z := 2 ^ 32 - 1.
Definition MAM_INVALID_MEMORY_RANGES_ITERATOR : Z := 2 ^ 64 - 1.

Section Tables.
Context {A : Type} `{!Pages A} (hmm_hva_to_hpa hmm_hpa_to_hva : Z -> option Z).

Definition rd_entry (s : mstate A) (table index : Z) : outcome Z :=
  match tabs s !! table with Some es => rd es index | None => Fault end.

Definition wr_entry (s : mstate A) (table index e : Z) : outcome (mstate A) :=
  match tabs s !! table with
  | Some es => es' ← wr es index e; Ok (mk_mstate (<[table := es']> (tabs s)) (pages s))
  | None => Fault
  end.

(** The new table; its entries are invalidated one after the other. *)
Definition mam_create_table (s : mstate A) (unmapped_reason entry_type : Z) : outcome (Z * mstate A) :=
  r ← vmm_page_alloc (pages s);
  let '(table, a) := r in
  if table =? 0 then Ok (0, mk_mstate (tabs s) a)
  else
    Ok (table,
        mk_mstate (<[table := (fun e => mam_invalidate_entry e unmapped_reason entry_type)
                                <$> stale (pages s) table]> (tabs s)) a).

(** The recursion over the tables below, with a bound on its depth. *)
Fixpoint mam_destroy_table (depth : nat) (s : mstate A) (table : Z) : outcome (mstate A) :=
  match depth with
  | O => Spin
  | S depth' =>
      first_entry ← rd_entry s table 0;
      let entry_ops := mam_get_entry_ops first_entry in
      s ← for_range 0 MAM_NUM_OF_ENTRIES_IN_TABLE (fun i s =>
             entry ← rd_entry s table i;
             if negb (mam_is_leaf_entry entry)
             then mam_destroy_table depth' s (mam_get_table_pointed_by_entry hmm_hpa_to_hva entry entry_ops)
             else Ok s) s;
      a ← vmm_memory_free (pages s) table;
      Ok (mk_mstate (delete table (tabs s)) a)
  end.

(** Tables are nested four deep. *)
Definition destroy (s : mstate A) (table : Z) : outcome (mstate A) := mam_destroy_table 4 s table.

(** The leaves of the table an entry is expanded to. *)
Definition expanded (tgt_addr attrs : Z) (lower_level : nat) (ops : MAM_ENTRY_OPS) : list Z :=
  (fun k => mam_update_leaf_entry (tgt_addr ⊕₆₄ (k * mam_get_size_covered_by_entry lower_level)) attrs
              lower_level ops) <$> seqZ 0 MAM_NUM_OF_ENTRIES_IN_TABLE.

Definition mam_expand_leaf_entry (mam : MAM) (s : mstate A) (table index : Z) (level : nat) (ops : MAM_ENTRY_OPS)
  : outcome (bool * Z * mstate A) :=
  entry ← rd_entry s table index;
  let entry_type := get_mam_entry_type entry in
  let tgt_addr := mam_get_address_from_leaf_entry entry level ops in
  let attrs := mam_get_attributes_from_entry entry level ops in
  r ← mam_create_table s MAM_UNKNOWN_MAPPING entry_type;
  let '(lower_level_table, s) := r in
  let lower_level := mam_get_lower_level_ops level in
  if lower_level_table =? 0 then Ok (false, 0, s)
  else if (lower_level =? 0)%nat then Fault
  else
    let s := mk_mstate (<[lower_level_table := expanded tgt_addr attrs lower_level ops]> (tabs s)) (pages s) in
    s ← wr_entry s table index (mam_update_inner_level_entry hmm_hva_to_hpa mam lower_level_table level ops);
    Ok (true, lower_level_table, s).

(** * Retraction *)

(** The check of the entries after the first one. *)
Fixpoint retractable (ops : MAM_ENTRY_OPS) (lower_level : nat) (first_present : bool)
  (tgt_addr attr reason : Z) (index : Z) (es : list Z) : bool :=
  match es with
  | [] => true
  | entry :: es' =>
      let present := mam_is_entry_present entry ops in
      if negb (Bool.eqb present first_present) || negb (mam_is_leaf_entry entry) then false
      else if present then
        if negb (mam_get_address_from_leaf_entry entry lower_level ops =?
                   tgt_addr ⊕₆₄ (index * mam_get_size_covered_by_entry lower_level)) then false
        else if negb (mam_get_attributes_from_entry entry lower_level ops =? attr) then false
        else retractable ops lower_level first_present tgt_addr attr reason (index + 1) es'
      else if negb (invalid_reason entry =? reason) then false
      else retractable ops lower_level first_present tgt_addr attr reason (index + 1) es'
  end.

Definition mam_try_to_retract_inner_entry_to_leaf (mam : MAM) (s : mstate A) (table index : Z) (level : nat)
  (ops : MAM_ENTRY_OPS) : outcome (mstate A) :=
  entry_to_retract ← rd_entry s table index;
  let lower_level := mam_get_lower_level_ops level in
  let table_pointed_by_entry := mam_get_table_pointed_by_entry hmm_hpa_to_hva entry_to_retract ops in
  match tabs s !! table_pointed_by_entry with
  | Some (first_entry :: rest) =>
      let first_entry_present := mam_is_entry_present first_entry ops in
      let tgt_addr := mam_get_address_from_leaf_entry first_entry lower_level ops in
      if first_entry_present &&
         (negb (mam_is_leaf_entry first_entry) ||
          negb (mam_can_be_leaf_entry mam level (mam_get_size_covered_by_entry level) tgt_addr ops))
      then Ok s
      else
        let attr := mam_get_attributes_from_entry first_entry lower_level ops in
        let reason := invalid_reason first_entry in
        if negb (retractable ops lower_level first_entry_present tgt_addr attr reason 1 rest) then Ok s
        else
          s ← wr_entry s table index
                (if first_entry_present then mam_update_leaf_entry tgt_addr attr level ops
                 else mam_invalidate_entry entry_to_retract reason (mam_get_leaf_entry_type ops));
          destroy s table_pointed_by_entry
  | _ => Fault
  end.

(** * Query *)

(** The result, with the address and the attributes when it is MAM_MAPPING_SUCCESSFUL because
    a leaf was found. *)
Fixpoint mam_get_mapping_from_table (level : nat) (s : mstate A) (table src_addr : Z)
  : outcome (Z * option (Z * Z)) :=
  match level with
  | O => Fault
  | S lower_level =>
      entry ← rd_entry s table (mam_get_entry_index level src_addr);
      let entry_ops := mam_get_entry_ops entry in
      if negb (mam_is_entry_present entry entry_ops) then Ok (invalid_reason entry, None)
      else if mam_is_leaf_entry entry then
        let tgt_addr := mam_get_address_from_leaf_entry entry level entry_ops in
        let attrs := mam_get_attributes_from_entry entry level entry_ops in
        let offset := Z.land src_addr (mam_get_size_covered_by_entry level - 1) in
        Ok (MAM_MAPPING_SUCCESSFUL, Some (tgt_addr ⊕₆₄ offset, attrs))
      else
        mam_get_mapping_from_table lower_level s
          (mam_get_table_pointed_by_entry hmm_hpa_to_hva entry entry_ops) src_addr
  end.

(** * The loop over the entries that a range touches

    [body] handles one entry: its index, the first address it maps, the source and target
    address and the size of the part of the range that falls into it. *)
Fixpoint entries_loop (n : nat)
  (body : Z -> Z -> Z -> Z -> Z -> mstate A -> outcome (bool * mstate A)) (size_covered_by_entry : Z)
  (index entry_first src_addr tgt_addr remaining_size : Z) (s : mstate A) : outcome (bool * mstate A) :=
  match n with
  | O => Ok (true, s)
  | S n' =>
      let max_possible_size_for_entry := (entry_first ⊕₆₄ size_covered_by_entry) ⊖₆₄ src_addr in
      let size := if max_possible_size_for_entry <? remaining_size then max_possible_size_for_entry
                  else remaining_size in
      r ← body index entry_first src_addr tgt_addr size s;
      let '(res, s) := r in
      if negb (res : bool) then Ok (false, s)
      else
        entries_loop n' body size_covered_by_entry (index + 1) (entry_first ⊕₆₄ size_covered_by_entry)
          (src_addr ⊕₆₄ size) (tgt_addr ⊕₆₄ size) (remaining_size ⊖₆₄ size) s
  end.

(** The common frame of mam_update_table and mam_remove_range_from_table. *)
Definition over_range (body : MAM_ENTRY_OPS -> Z -> Z -> Z -> Z -> Z -> mstate A -> outcome (bool * mstate A))
  (level : nat) (s : mstate A) (table first_mapped_address src_addr tgt_addr size : Z) : outcome (bool * mstate A) :=
  let size_covered_by_entry := mam_get_size_covered_by_entry level in
  let curr_entry_index := mam_get_entry_index level src_addr in
  let final_entry_index := mam_get_entry_index level ((src_addr ⊕₆₄ size) ⊖₆₄ 1) in
  first_entry ← rd_entry s table 0;
  let entry_ops := mam_get_entry_ops first_entry in
  entries_loop (Z.to_nat (final_entry_index - curr_entry_index + 1)) (body entry_ops) size_covered_by_entry
    curr_entry_index (first_mapped_address ⊕₆₄ (curr_entry_index * size_covered_by_entry)) src_addr tgt_addr
    size s.

(** * Update *)

Definition new_attributes (update_op : MAM_UPDATE_OP) (curr attrs : Z) : Z :=
  match update_op with
  | MAM_SET_ATTRS => Z.lor curr attrs
  | MAM_OVERWRITE_ATTRS =>
      let new_attrs := set_bitfield curr 0 1 (bitfield attrs 0 1) in
      let new_attrs := set_bitfield new_attrs 1 1 (bitfield attrs 1 1) in
      let new_attrs := set_bitfield new_attrs 2 1 (bitfield attrs 2 1) in
      set_bitfield new_attrs 7 1 (bitfield attrs 7 1)
  | _ => Z.land curr (u32 (Z.lnot attrs))
  end.

Definition retract_if (check_for_retraction : bool) (mam : MAM) (table index : Z) (level : nat)
  (ops : MAM_ENTRY_OPS) (r : bool * mstate A) : outcome (bool * mstate A) :=
  let '(res, s) := r in
  if (res : bool) && check_for_retraction then
    s ← mam_try_to_retract_inner_entry_to_leaf mam s table index level ops; Ok (true, s)
  else Ok (res, s).

(** One entry; [rec] is the call for the table below. *)
Definition update_entry (rec : mstate A -> Z -> Z -> Z -> Z -> Z -> outcome (bool * mstate A))
  (mam : MAM) (level : nat) (attrs : Z) (update_op : MAM_UPDATE_OP) (table : Z)
  (ops : MAM_ENTRY_OPS) (index entry_first src_addr tgt_addr size : Z) (s : mstate A)
  : outcome (bool * mstate A) :=
  entry ← rd_entry s table index;
  let is_entry_present := mam_is_entry_present entry ops in
  if bool_decide (update_op = MAM_OVERWRITE_ADDR_AND_ATTRS) then
    if mam_can_be_leaf_entry mam level size tgt_addr ops then
      s ← (if is_entry_present && negb (mam_is_leaf_entry entry) then
             let lower_level_table := mam_get_table_pointed_by_entry hmm_hpa_to_hva entry ops in
             s ← wr_entry s table index
                   (mam_invalidate_entry entry MAM_UNKNOWN_MAPPING MAM_LEAF_INTERNAL_ENTRY);
             destroy s lower_level_table
           else Ok s);
      s ← wr_entry s table index (mam_update_leaf_entry tgt_addr attrs level ops);
      Ok (true, s)
    else if negb is_entry_present then
      r ← mam_create_table s (invalid_reason entry) (get_mam_entry_type entry);
      let '(lower_level_table, s) := r in
      if lower_level_table =? 0 then Ok (false, s)
      else
        s ← wr_entry s table index (mam_update_inner_level_entry hmm_hva_to_hpa mam lower_level_table level ops);
        rec s lower_level_table entry_first src_addr tgt_addr size
    else if mam_is_leaf_entry entry then
      r ← mam_expand_leaf_entry mam s table index level ops;
      let '(res, lower_level_table, s) := r in
      if negb (res : bool) then Ok (false, s) else rec s lower_level_table entry_first src_addr tgt_addr size
    else
      r ← rec s (mam_get_table_pointed_by_entry hmm_hpa_to_hva entry ops) entry_first src_addr tgt_addr size;
      retract_if true mam table index level ops r
  else if is_entry_present then
    if mam_is_leaf_entry entry then
      let curr_entry_attrs := mam_get_attributes_from_entry entry level ops in
      let new_attrs := new_attributes update_op curr_entry_attrs attrs in
      if new_attrs =? curr_entry_attrs then Ok (true, s)
      else if size =? mam_get_size_covered_by_entry level then
        s ← wr_entry s table index (mam_update_attributes_in_leaf_entry entry new_attrs level ops);
        Ok (true, s)
      else
        r ← mam_expand_leaf_entry mam s table index level ops;
        let '(res, lower_level_table, s) := r in
        if negb (res : bool) then Ok (false, s) else rec s lower_level_table entry_first src_addr tgt_addr size
    else
      r ← rec s (mam_get_table_pointed_by_entry hmm_hpa_to_hva entry ops) entry_first src_addr tgt_addr size;
      retract_if true mam table index level ops r
  else Ok (true, s).

Fixpoint mam_update_table (level : nat) (mam : MAM) (attrs : Z) (update_op : MAM_UPDATE_OP) (s : mstate A)
  (table first_mapped_address src_addr tgt_addr size : Z) : outcome (bool * mstate A) :=
  match level with
  | O => Fault
  | S lower_level =>
      over_range (update_entry (mam_update_table lower_level mam attrs update_op) mam level attrs update_op table)
        level s table first_mapped_address src_addr tgt_addr size
  end.

(** * Removal *)

Definition remove_entry (rec : mstate A -> Z -> Z -> Z -> Z -> Z -> outcome (bool * mstate A))
  (mam : MAM) (level : nat) (reason : Z) (table : Z)
  (ops : MAM_ENTRY_OPS) (index entry_first src_addr tgt_addr size : Z) (s : mstate A)
  : outcome (bool * mstate A) :=
  entry ← rd_entry s table index;
  let invalid := mam_invalidate_entry entry reason (mam_get_leaf_entry_type ops) in
  if (entry_first =? src_addr) && (mam_get_size_covered_by_entry level =? size) then
    if mam_is_entry_present entry ops && negb (mam_is_leaf_entry entry) then
      s ← wr_entry s table index invalid;
      s ← destroy s (mam_get_table_pointed_by_entry hmm_hpa_to_hva entry ops);
      Ok (true, s)
    else s ← wr_entry s table index invalid; Ok (true, s)
  else if negb (mam_is_entry_present entry ops) then
    let curr_reason := invalid_reason entry in
    if negb (curr_reason =? reason) then
      r ← mam_create_table s curr_reason (get_mam_entry_type entry);
      let '(lower_level_table, s) := r in
      if lower_level_table =? 0 then Ok (false, s)
      else
        s ← wr_entry s table index (mam_update_inner_level_entry hmm_hva_to_hpa mam lower_level_table level ops);
        rec s lower_level_table entry_first src_addr tgt_addr size
    else Ok (true, s)
  else if mam_is_leaf_entry entry then
    r ← mam_expand_leaf_entry mam s table index level ops;
    let '(res, lower_level_table, s) := r in
    if negb (res : bool) then Ok (false, s) else rec s lower_level_table entry_first src_addr tgt_addr size
  else
    r ← rec s (mam_get_table_pointed_by_entry hmm_hpa_to_hva entry ops) entry_first src_addr tgt_addr size;
    retract_if true mam table index level ops r.

(** There is no target address; 0 takes its place. *)
Fixpoint remove_range (level : nat) (mam : MAM) (reason : Z) (s : mstate A)
  (table first_mapped_address src_addr tgt_addr size : Z) : outcome (bool * mstate A) :=
  match level with
  | O => Fault
  | S lower_level =>
      over_range (remove_entry (remove_range lower_level mam reason) mam level reason table)
        level s table first_mapped_address src_addr tgt_addr size
  end.
Definition mam_remove_range_from_table (level : nat) (mam : MAM) (s : mstate A)
  (table first_mapped_address src_addr size reason : Z) : outcome (bool * mstate A) :=
  remove_range level mam reason s table first_mapped_address src_addr 0 size.
End Tables.

(** * Growth, conversion and iteration *)

Section Whole.
Context {A : Type} `{!Pages A} (hmm_hva_to_hpa hmm_hpa_to_hva : Z -> option Z).

Definition set_first_table (mam : MAM) (table : Z) (level : nat) : MAM :=
  mk_mam table level (inner_level_attributes mam) (ept_supper_page_support mam) (update_lock mam)
    (update_counter mam) (update_on_cpu mam) (is_32bit_page_tables mam) (vtdpt_supper_page_support mam)
    (vtdpt_snoop_behavior mam) (vtdpt_trans_mapping mam) (ept_hw_ve_support mam) (last_iterator mam)
    (last_range_size mam).

(** Each iteration adds a level; there are four. *)
Fixpoint grow_first_table (n : nat) (entry_ops : MAM_ENTRY_OPS) (mam : MAM) (s : mstate A) (limit : Z)
  : outcome (MAM * mstate A) :=
  match n with
  | O => Spin
  | S n' =>
      if (first_table_ops mam =? 0)%nat then Fault
      else if mam_get_size_covered_by_table (first_table_ops mam) <? limit then
        r ← mam_create_table s MAM_UNKNOWN_MAPPING MAM_LEAF_INTERNAL_ENTRY;
        let '(new_first_table, s) := r in
        if new_first_table =? 0 then Ok (mam, s)
        else
          let new_level := mam_get_upper_level_ops (first_table_ops mam) in
          s ← wr_entry s new_first_table 0
                (mam_update_inner_level_entry hmm_hva_to_hpa mam (first_table mam) new_level entry_ops);
          grow_first_table n' entry_ops (set_first_table mam new_first_table new_level) s limit
      else Ok (mam, s)
  end.

Definition mam_update_first_table_to_cover_requested_range (mam : MAM) (s : mstate A) (src_addr size : Z)
  : outcome (MAM * mstate A) :=
  first_entry ← rd_entry s (first_table mam) 0;
  grow_first_table 5 (mam_get_entry_ops first_entry) mam s (src_addr ⊕₆₄ size).

(** One entry of mam_convert_entries_in_table; [rec] is the call for the table below. *)
Definition convert_entry (rec : mstate A -> Z -> outcome (bool * mstate A)) (mam : MAM) (level : nat)
  (new_ops : MAM_ENTRY_OPS) (table index : Z) (s : mstate A) : outcome (bool * mstate A) :=
  entry ← rd_entry s table index;
  let curr_ops := mam_get_entry_ops entry in
  if bool_decide (curr_ops = new_ops) then Ok (true, s)
  else if negb (mam_is_entry_present entry curr_ops) then
    let reason := invalid_reason entry in
    let entry := if bool_decide (new_ops = MAM_EPT_ENTRY_OPS)
                 then set_bitfield entry 63 1 (ept_hw_ve_support mam) else entry in
    s ← wr_entry s table index (mam_invalidate_entry entry reason (mam_get_leaf_entry_type new_ops));
    Ok (true, s)
  else if mam_is_leaf_entry entry then
    let tgt_addr := mam_get_address_from_leaf_entry entry level curr_ops in
    let attr := mam_get_attributes_from_entry entry level curr_ops in
    let attr := if bool_decide (new_ops = MAM_VTDPT_ENTRY_OPS)
                then set_bitfield (set_bitfield attr 2 1 (vtdpt_snoop_behavior mam)) 3 1 (vtdpt_trans_mapping mam)
                else attr in
    if mam_can_be_leaf_entry mam level (mam_get_size_covered_by_entry level) tgt_addr new_ops then
      s ← wr_entry s table index (mam_update_leaf_entry tgt_addr attr level new_ops);
      Ok (true, s)
    else
      r ← mam_expand_leaf_entry hmm_hva_to_hpa mam s table index level curr_ops;
      let '(res, lower_level_table, s) := r in
      if negb (res : bool) then Ok (false, s)
      else
        r ← rec s lower_level_table;
        let '(res, s) := r in
        if negb (res : bool) then Ok (false, s)
        else
          s ← wr_entry s table index
                (mam_update_inner_level_entry hmm_hva_to_hpa mam lower_level_table level new_ops);
          Ok (true, s)
  else
    let lower_level_table := mam_get_table_pointed_by_entry hmm_hpa_to_hva entry curr_ops in
    r ← rec s lower_level_table;
    let '(res, s) := r in
    if negb (res : bool) then Ok (false, s)
    else
      s ← wr_entry s table index (mam_update_inner_level_entry hmm_hva_to_hpa mam lower_level_table level new_ops);
      Ok (true, s).

Fixpoint convert_loop (n : nat) (body : Z -> mstate A -> outcome (bool * mstate A)) (index : Z) (s : mstate A)
  : outcome (bool * mstate A) :=
  match n with
  | O => Ok (true, s)
  | S n' =>
      r ← body index s;
      let '(res, s) := r in
      if negb (res : bool) then Ok (false, s) else convert_loop n' body (index + 1) s
  end.

Fixpoint mam_convert_entries_in_table (level : nat) (mam : MAM) (new_ops : MAM_ENTRY_OPS) (s : mstate A)
  (table : Z) : outcome (bool * mstate A) :=
  match level with
  | O => Fault
  | S lower_level =>
      convert_loop (Z.to_nat MAM_NUM_OF_ENTRIES_IN_TABLE)
        (convert_entry (mam_convert_entries_in_table lower_level mam new_ops) mam level new_ops table) 0 s
  end.

(** The entries after the first one that continue its range. *)
Fixpoint continuing (ops : MAM_ENTRY_OPS) (level : nat) (present : bool) (tgt_addr attrs reason k : Z)
  (es : list Z) : Z :=
  match es with
  | [] => 0
  | entry :: es' =>
      let continues :=
        if present then
          mam_is_entry_present entry ops && mam_is_leaf_entry entry &&
          (mam_get_address_from_leaf_entry entry level ops =?
             tgt_addr ⊕₆₄ (mam_get_size_covered_by_entry level * k)) &&
          (attrs =? mam_get_attributes_from_entry entry level ops)
        else negb (mam_is_entry_present entry ops) && (invalid_reason entry =? reason) in
      if continues then 1 + continuing ops level present tgt_addr attrs reason (k + 1) es' else 0
  end.

Fixpoint mam_get_size_of_range (level : nat) (s : mstate A) (src_addr table : Z) : outcome Z :=
  match level with
  | O => Fault
  | S lower_level =>
      let start_index := mam_get_entry_index level src_addr in
      first_entry ← rd_entry s table start_index;
      let ops := mam_get_entry_ops first_entry in
      let present := mam_is_entry_present first_entry ops in
      if present && negb (mam_is_leaf_entry first_entry) then
        mam_get_size_of_range lower_level s src_addr (mam_get_table_pointed_by_entry hmm_hpa_to_hva first_entry ops)
      else
        let es := default [] (tabs s !! table) in
        let n := continuing ops level present (mam_get_address_from_leaf_entry first_entry level ops)
                   (mam_get_attributes_from_entry first_entry level ops) (invalid_reason first_entry) 1
                   (drop (S (Z.to_nat start_index)) es) in
        Ok (mam_get_size_covered_by_entry level ⊕₆₄ (n * mam_get_size_covered_by_entry level))
  end.

(** * The interface *)

Context (fuel : nat) (cpu : Z).

(** The object and its first table; a zeroed page holds the object. *)
Definition mam_create_mapping (s : mstate A) (inner_attributes : Z) : outcome (option (Z * MAM) * mstate A) :=
  r ← vmm_page_alloc (pages s);
  let '(mam_ptr, a) := r in
  let s := mk_mstate (tabs s) a in
  if mam_ptr =? 0 then Ok (None, s)
  else
    r ← mam_create_table s MAM_UNKNOWN_MAPPING MAM_LEAF_INTERNAL_ENTRY;
    let '(table, s) := r in
    if table =? 0 then
      a ← vmm_memory_free (pages s) mam_ptr;
      Ok (None, mk_mstate (tabs s) a)
    else
      Ok (Some (mam_ptr,
                mk_mam table 1 inner_attributes 0 (release (mk_lock 0 0)) 0 0 false 0 0 0 0
                  MAM_INVALID_MEMORY_RANGES_ITERATOR 0), s).

(** The lock is in the object, which is freed. *)
Definition mam_destroy_mapping (s : mstate A) (mam_ptr : Z) (mam : MAM) : outcome (mstate A) :=
  l ← acquire fuel cpu (update_lock mam);
  s ← mam_destroy_table hmm_hpa_to_hva 4 s (first_table mam);
  a ← vmm_memory_free (pages s) mam_ptr;
  Ok (mk_mstate (tabs s) a).

Definition mam_get_mapping (mam : MAM) (s : mstate A) (src_addr : Z) : outcome (Z * option (Z * Z)) :=
  if (first_table_ops mam =? 0)%nat then Ok (MAM_UNKNOWN_MAPPING, None)
  else if mam_get_size_covered_by_table (first_table_ops mam) <=? src_addr then Ok (MAM_UNKNOWN_MAPPING, None)
  else
    r ← mam_get_mapping_from_table hmm_hpa_to_hva (first_table_ops mam) s (first_table mam) src_addr;
    (** no other CPU runs: the counter is the same after the query, and an update in progress
        on another CPU does not end *)
    if negb (Z.land (update_counter mam) 1 =? 0) && negb (cpu =? update_on_cpu mam) then Spin else Ok r.

Definition set_update (mam : MAM) (l : VMM_LOCK) (counter on_cpu : Z) : MAM :=
  mk_mam (first_table mam) (first_table_ops mam) (inner_level_attributes mam) (ept_supper_page_support mam) l
    counter on_cpu (is_32bit_page_tables mam) (vtdpt_supper_page_support mam)
    (vtdpt_snoop_behavior mam) (vtdpt_trans_mapping mam) (ept_hw_ve_support mam) (last_iterator mam)
    (last_range_size mam).

(** Taking the lock with the first increment of the counter, and the label [out]. *)
Definition begin_update (mam : MAM) : outcome MAM :=
  l ← acquire fuel cpu (update_lock mam);
  Ok (set_update mam l (update_counter mam ⊕₃₂ 1) cpu).
Definition end_update (mam : MAM) : MAM :=
  set_update mam (release (update_lock mam)) (update_counter mam ⊕₃₂ 1) MAM_INVALID_CPU_ID.

Definition misaligned (x : Z) : bool := negb (Z.land x (PAGE_4KB_SIZE - 1) =? 0).

(** A handle is [None] when it is MAM_INVALID_HANDLE. *)
Definition mam_insert_range (handle : option MAM) (s : mstate A) (src_addr tgt_addr size attrs : Z)
  : outcome (bool * option MAM * mstate A) :=
  match handle with
  | None => Ok (false, None, s)
  | Some mam =>
      mam ← begin_update mam;
      if misaligned src_addr || misaligned tgt_addr || misaligned size || (size =? 0)
      then Ok (false, Some (end_update mam), s)
      else if mam_get_size_covered_by_table 4 <? src_addr ⊕₆₄ size then Ok (false, Some (end_update mam), s)
      else
        r ← mam_update_first_table_to_cover_requested_range mam s src_addr size;
        let '(mam, s) := r in
        if mam_get_size_covered_by_table (first_table_ops mam) <? src_addr ⊕₆₄ size
        then Ok (false, Some (end_update mam), s)
        else
          r ← mam_update_table hmm_hva_to_hpa hmm_hpa_to_hva (first_table_ops mam) mam attrs
                MAM_OVERWRITE_ADDR_AND_ATTRS s (first_table mam) 0 src_addr tgt_addr size;
          let '(res, s) := r in Ok (res, Some (end_update mam), s)
  end.

Definition mam_insert_not_existing_range (handle : option MAM) (s : mstate A) (src_addr size reason : Z)
  : outcome (bool * option MAM * mstate A) :=
  match handle with
  | None => Ok (false, None, s)
  | Some mam =>
      mam ← begin_update mam;
      if misaligned src_addr || misaligned size then Ok (false, Some (end_update mam), s)
      else if (reason =? MAM_MAPPING_SUCCESSFUL) || (reason =? MAM_UNKNOWN_MAPPING)
      then Ok (false, Some (end_update mam), s)
      else if mam_get_size_covered_by_table 4 <? src_addr ⊕₆₄ size then Ok (false, Some (end_update mam), s)
      else
        r ← mam_update_first_table_to_cover_requested_range mam s src_addr size;
        let '(mam, s) := r in
        if mam_get_size_covered_by_table (first_table_ops mam) <? src_addr ⊕₆₄ size
        then Ok (false, Some (end_update mam), s)
        else
          r ← mam_remove_range_from_table hmm_hva_to_hpa hmm_hpa_to_hva (first_table_ops mam) mam s
                (first_table mam) 0 src_addr size reason;
          let '(res, s) := r in Ok (res, Some (end_update mam), s)
  end.

(** The three operations on permissions; the object is read before the handle is compared with
    MAM_INVALID_HANDLE. *)
Definition change_permissions (op : MAM_UPDATE_OP) (handle : option MAM) (s : mstate A) (src_addr size attrs : Z)
  : outcome (bool * option MAM * mstate A) :=
  match handle with
  | None => Fault
  | Some mam =>
      mam ← begin_update mam;
      if misaligned src_addr || misaligned size then Ok (false, Some (end_update mam), s)
      else
        r ← mam_update_table hmm_hva_to_hpa hmm_hpa_to_hva (first_table_ops mam) mam attrs op s
              (first_table mam) 0 src_addr MAM_INVALID_ADDRESS size;
        let '(res, s) := r in Ok (res, Some (end_update mam), s)
  end.
Definition mam_add_permissions_to_existing_mapping := change_permissions MAM_SET_ATTRS.
Definition mam_remove_permissions_from_existing_mapping := change_permissions MAM_CLEAR_ATTRS.
Definition mam_overwrite_permissions_in_existing_mapping := change_permissions MAM_OVERWRITE_ATTRS.

(** ** Conversion *)

Definition set_ept_support (mam : MAM) (support ve : Z) : MAM :=
  mk_mam (first_table mam) (first_table_ops mam) (inner_level_attributes mam) support (update_lock mam)
    (update_counter mam) (update_on_cpu mam) (is_32bit_page_tables mam) (vtdpt_supper_page_support mam)
    (vtdpt_snoop_behavior mam) (vtdpt_trans_mapping mam) ve (last_iterator mam) (last_range_size mam).
Definition set_vtdpt (mam : MAM) (support snoop tm : Z) : MAM :=
  mk_mam (first_table mam) (first_table_ops mam) (inner_level_attributes mam) (ept_supper_page_support mam)
    (update_lock mam) (update_counter mam) (update_on_cpu mam) (is_32bit_page_tables mam) support snoop tm
    (ept_hw_ve_support mam) (last_iterator mam) (last_range_size mam).
Definition set_32bit (mam : MAM) : MAM :=
  mk_mam (first_table mam) (first_table_ops mam) (inner_level_attributes mam) (ept_supper_page_support mam)
    (update_lock mam) (update_counter mam) (update_on_cpu mam) true (vtdpt_supper_page_support mam)
    (vtdpt_snoop_behavior mam) (vtdpt_trans_mapping mam) (ept_hw_ve_support mam) (last_iterator mam)
    (last_range_size mam).

(** The size to cover and the level for each guest address width (21, 30, 39, 48 bits). *)
Definition ept_requested_level (gaw : Z) : Z * nat :=
  if gaw =? 0 then (2 ^ 21, 1%nat) else if gaw =? 1 then (2 ^ 30, 2%nat)
  else if gaw =? 2 then (2 ^ 39, 3%nat) else (mam_get_size_covered_by_table 4, 4%nat).

(** The result, with the physical address of the first table on success. *)
Definition mam_convert_to_ept (handle : option MAM) (s : mstate A) (support gaw ve : Z)
  : outcome (option Z * option MAM * mstate A) :=
  match handle with
  | None => Ok (None, None, s)
  | Some mam =>
      mam ← begin_update mam;
      let '(requested_size, required_level) := ept_requested_level gaw in
      r ← mam_update_first_table_to_cover_requested_range mam s 0 requested_size;
      let '(mam, s) := r in
      if negb (first_table_ops mam =? required_level)%nat then Ok (None, Some (end_update mam), s)
      else
        let mam := set_ept_support mam support (u8 ve) in
        r ← mam_convert_entries_in_table (first_table_ops mam) mam MAM_EPT_ENTRY_OPS s (first_table mam);
        let '(res, s) := r in
        if negb (res : bool) then Ok (None, Some (end_update mam), s)
        else
          let mam := set_ept_support mam 0 (ept_hw_ve_support mam) in
          Ok (Some (mam_hva_to_hpa hmm_hva_to_hpa (first_table mam)), Some (end_update mam), s)
  end.

(** The index of the bit of SAGAW selects a 2-, 3- or 4-level table; with another index
    nothing is requested. *)
Definition vtdpt_requested_level (sagaw_bit_index : Z) : Z * nat :=
  if sagaw_bit_index =? 0 then (mam_get_size_covered_by_table 2, 2%nat)
  else if sagaw_bit_index =? 1 then (mam_get_size_covered_by_table 3, 3%nat)
  else if sagaw_bit_index =? 2 then (mam_get_size_covered_by_table 4, 4%nat)
  else (0, 0%nat).

Definition mam_convert_to_vtdpt (handle : option MAM) (s : mstate A) (support snoop tm sagaw_bit_index : Z)
  : outcome (option Z * option MAM * mstate A) :=
  match handle with
  | None => Ok (None, None, s)
  | Some mam =>
      mam ← begin_update mam;
      let '(requested_size, required_level) := vtdpt_requested_level sagaw_bit_index in
      r ← mam_update_first_table_to_cover_requested_range mam s 0 requested_size;
      let '(mam, s) := r in
      if negb (first_table_ops mam =? required_level)%nat then Ok (None, Some (end_update mam), s)
      else
        let mam := set_vtdpt mam support snoop tm in
        r ← mam_convert_entries_in_table (first_table_ops mam) mam MAM_VTDPT_ENTRY_OPS s (first_table mam);
        let '(res, s) := r in
        if negb (res : bool) then Ok (None, Some (end_update mam), s)
        else Ok (Some (mam_hva_to_hpa hmm_hva_to_hpa (first_table mam)), Some (end_update mam), s)
  end.

Definition mam_convert_to_64bit_page_tables (handle : option MAM) (s : mstate A)
  : outcome (option Z * option MAM * mstate A) :=
  match handle with
  | None => Ok (None, None, s)
  | Some mam =>
      mam ← begin_update mam;
      r ← mam_update_first_table_to_cover_requested_range mam s 0 (mam_get_size_covered_by_table 4);
      let '(mam, s) := r in
      if negb (first_table_ops mam =? 4)%nat then Ok (None, Some (end_update mam), s)
      else
        r ← mam_convert_entries_in_table (first_table_ops mam) mam MAM_PAGE_TABLE_ENTRY_OPS s (first_table mam);
        let '(res, s) := r in
        if negb (res : bool) then Ok (None, Some (end_update mam), s)
        else Ok (Some (mam_hva_to_hpa hmm_hva_to_hpa (first_table mam)), Some (end_update mam), s)
  end.

Definition mam_clear_reserved_bits_in_pdpte (pdpte : Z) : Z :=
  let pdpte := set_bitfield pdpte 1 1 0 in
  let pdpte := set_bitfield pdpte 2 1 0 in
  let pdpte := set_bitfield pdpte 7 1 0 in
  let pdpte := set_bitfield pdpte 8 1 0 in
  set_bitfield pdpte 63 1 0.

Definition mam_clear_reserved_bits_in_pdpt (s : mstate A) (pdpt : Z) : outcome (mstate A) :=
  for_range 0 4 (fun i s =>
    pdpte ← rd_entry s pdpt i; wr_entry s pdpt i (mam_clear_reserved_bits_in_pdpte pdpte)) s.

Definition mam_convert_to_32bit_pae_page_tables (handle : option MAM) (s : mstate A)
  : outcome (option Z * option MAM * mstate A) :=
  match handle with
  | None => Ok (None, None, s)
  | Some mam =>
      mam ← begin_update mam;
      r ← mam_update_first_table_to_cover_requested_range mam s 0 (2 ^ 32);
      let '(mam, s) := r in
      if negb (first_table_ops mam =? 3)%nat then Ok (None, Some (end_update mam), s)
      else
        r ← mam_convert_entries_in_table (first_table_ops mam) mam MAM_PAGE_TABLE_ENTRY_OPS s (first_table mam);
        let '(res, s) := r in
        if negb (res : bool) then Ok (None, Some (end_update mam), s)
        else
          s ← mam_clear_reserved_bits_in_pdpt s (first_table mam);
          let mam := set_32bit mam in
          Ok (Some (u32 (mam_hva_to_hpa hmm_hva_to_hpa (first_table mam))), Some (end_update mam), s)
  end.

(** ** Iteration *)

Definition set_last_iterator (mam : MAM) (iter size : Z) : MAM :=
  mk_mam (first_table mam) (first_table_ops mam) (inner_level_attributes mam) (ept_supper_page_support mam)
    (update_lock mam) (update_counter mam) (update_on_cpu mam) (is_32bit_page_tables mam)
    (vtdpt_supper_page_support mam) (vtdpt_snoop_behavior mam) (vtdpt_trans_mapping mam)
    (ept_hw_ve_support mam) iter size.

Definition mam_get_memory_ranges_iterator (mam : MAM) : Z * MAM :=
  let mam := set_last_iterator mam MAM_INVALID_MEMORY_RANGES_ITERATOR 0 in
  if (first_table_ops mam =? 0)%nat then (MAM_INVALID_MEMORY_RANGES_ITERATOR, mam) else (0, mam).

(** The next iterator, and the source address and the size of the range. *)
Definition mam_get_range_details_from_iterator (mam : MAM) (s : mstate A) (iter : Z)
  : outcome (Z * Z * Z * MAM) :=
  if iter =? MAM_INVALID_MEMORY_RANGES_ITERATOR
  then Ok (MAM_INVALID_MEMORY_RANGES_ITERATOR, 2 ^ 64 - 1, 0, mam)
  else
    size ← mam_get_size_of_range (first_table_ops mam) s iter (first_table mam);
    let next_iter := iter ⊕₆₄ size in
    let next_iter := if mam_get_size_covered_by_table (first_table_ops mam) <=? next_iter
                     then MAM_INVALID_MEMORY_RANGES_ITERATOR else next_iter in
    if negb (Z.land (update_counter mam) 1 =? 0) then Spin
    else Ok (next_iter, iter, size, set_last_iterator mam iter size).

Definition mam_get_range_start_address_from_iterator (iter : Z) : Z :=
  if iter =? MAM_INVALID_MEMORY_RANGES_ITERATOR then 2 ^ 64 - 1 else iter.
End Whole.
