(* ===== verification/MamSpec.v ===== *)
(** The address mapper as a map from addresses to mappings: representation of the tables of
    512 entries as a tree, and the refinement of the operations on a range. *)

From S2P Require Import Prelude VmmDefs Lock MamEntry MamEntrySpec Mam.

(** * Sizes *)

#[local] Abbreviation esz := mam_get_size_covered_by_entry.

Definition level_ok (l : nat) : Prop := (1 <= l <= 4)%nat.

(** The four levels. *)
Lemma level_cases l : level_ok l -> l = 1%nat \/ l = 2%nat \/ l = 3%nat \/ l = 4%nat.
Proof. unfold level_ok. lia. Qed.

Ltac levels H := destruct (level_cases _ H) as [-> | [-> | [-> | ->]]].

Lemma esz_pow l : level_ok l -> esz l = 2 ^ (3 + 9 * Z.of_nat l).
Proof. intros H. by levels H. Qed.

Lemma esz_pos l : 0 < esz l.
Proof. destruct l as [|[|[|[|]]]]; done. Qed.

Lemma esz_S l : level_ok (S (S l)) -> esz (S (S l)) = 512 * esz (S l).
Proof. intros H. assert (l = 0 \/ l = 1 \/ l = 2)%nat as [-> | [-> | ->]] by (unfold level_ok in H; lia); done. Qed.

Lemma esz_page l : exists k, 0 < k /\ esz l = k * 4096.
Proof.
  destruct l as [|[|[|[|]]]]; [exists (2 ^ 27)|exists 1|exists (2 ^ 9)|exists (2 ^ 18)|exists (2 ^ 27)]; done.
Qed.

Lemma esz_le l : 512 * esz l <= 2 ^ 48.
Proof. destruct l as [|[|[|[|]]]]; done. Qed.

Lemma entry_index l a : level_ok l -> 0 <= a -> mam_get_entry_index l a = (a / esz l) mod 512.
Proof.
  intros Hl Ha. unfold mam_get_entry_index, MAM_ENTRY_INDEX_MASK. change 0x1ff with (Z.ones 9).
  rewrite Z.land_ones, Z.shiftr_div_pow2 by (unfold mam_level_pos; repeat case_match; lia).
  change (2 ^ 9) with 512. rewrite u32_small by lia. by levels Hl.
Qed.

Lemma index_at l first y : level_ok l -> 0 <= first -> first mod (512 * esz l) = 0 -> first <= y < first + 512 * esz l ->
  mam_get_entry_index l y = (y - first) / esz l.
Proof.
  intros Hl H0 Hf Hy. rewrite entry_index by (done || lia). pose proof (esz_pos l).
  apply Z.mod_divide in Hf as [k ->]; [|lia].
  replace y with (y - k * (512 * esz l) + k * 512 * esz l) at 1 by lia. rewrite Z.div_add by lia.
  rewrite Z.mod_add by lia. apply Z.mod_small. split; [apply Z.div_pos; lia|].
  apply Z.div_lt_upper_bound; lia.
Qed.

(** * Changes of the memory *)

(** The tables at [S] are replaced by the tables at [S']; all the others are as before. *)
Definition evolves (t t' : gmap Z (list Z)) (S S' : gset Z) : Prop :=
  (forall k, k ∈ S' -> k ∈ dom t -> k ∈ S) /\
  (forall k, k ∉ S -> k ∉ S' -> t' !! k = t !! k) /\
  (forall k, k ∈ S -> k ∉ S' -> t' !! k = None).

Lemma evolves_refl t S : evolves t t S S.
Proof. split_and!; naive_solver. Qed.

Lemma evolves_trans t1 t2 t3 S1 S2 S3 : evolves t1 t2 S1 S2 -> evolves t2 t3 S2 S3 -> evolves t1 t3 S1 S3.
Proof.
  intros (A1 & B1 & C1) (A2 & B2 & C2). split_and!; intros k.
  - intros H3 Hd. destruct (decide (k ∈ S1)); [done|]. destruct (decide (k ∈ S2)) as [H2|H2]; [naive_solver|].
    assert (k ∈ dom t2) by (apply elem_of_dom; rewrite B1 by done; by apply elem_of_dom). naive_solver.
  - intros H1 H3. destruct (decide (k ∈ S2)) as [H2|H2]; [|rewrite B2, B1; done].
    rewrite C2 by done. symmetry. apply not_elem_of_dom. naive_solver.
  - intros H1 H3. destruct (decide (k ∈ S2)) as [H2|H2]; [naive_solver|]. rewrite B2 by done. naive_solver.
Qed.

Lemma evolves_frame t t' S S' F : evolves t t' S S' -> F ⊆ dom t -> F ## S ->
  evolves t t' (S ∪ F) (S' ∪ F) /\ F ## S'.
Proof.
  intros (HA & HB & HC) HF HS. split; [split_and!|].
  - set_solver.
  - intros k Hk Hk'. apply HB; set_solver.
  - intros k Hk Hk'. apply HC; set_solver.
  - set_solver.
Qed.

Lemma evolves_same t t' S S' k : evolves t t' S S' -> k ∈ dom t -> k ∉ S -> t' !! k = t !! k /\ k ∉ S'.
Proof. intros (HA & HB & HC) Hd Hk. assert (k ∉ S') by naive_solver. naive_solver. Qed.

(** A table is rewritten in place, created, released. *)
Lemma evolves_upd (t : gmap Z (list Z)) h v S : h ∈ S -> evolves t (<[h := v]> t) S S.
Proof.
  intros Hh. split_and!; [done| |done]. intros k Hk _. rewrite lookup_insert_ne; [done|]. by intros ->.
Qed.

Lemma evolves_new (t : gmap Z (list Z)) p v : p ∉ dom t -> evolves t (<[p := v]> t) ∅ {[p]}.
Proof.
  intros Hp. split_and!.
  - by intros k ->%elem_of_singleton.
  - intros k _ Hk%not_elem_of_singleton. by rewrite lookup_insert_ne.
  - by intros k ?%not_elem_of_empty.
Qed.

Lemma evolves_del (t : gmap Z (list Z)) h : evolves t (delete h t) {[h]} ∅.
Proof.
  split_and!.
  - by intros k ?%not_elem_of_empty.
  - intros k Hk%not_elem_of_singleton _. by rewrite lookup_delete_ne.
  - intros k ->%elem_of_singleton _. apply lookup_delete_eq.
Qed.

(** The frame of one table. *)
Lemma evolves_frame1 t t' S S' h : evolves t t' S S' -> h ∈ dom t -> h ∉ S ->
  evolves t t' ({[h]} ∪ S) ({[h]} ∪ S') /\ h ∉ S'.
Proof.
  intros Hev Hd Hh. destruct (evolves_frame _ _ _ _ {[h]} Hev) as [H1 H2].
  - by intros k ->%elem_of_singleton.
  - by apply disjoint_singleton_l.
  - rewrite !(union_comm_L {[h]}). split; [done|]. by apply disjoint_singleton_l.
Qed.

(** * Trees *)

(** An entry, with the tables below it. *)
Inductive tree :=
| TInv (reason : Z)
| TLeaf (addr attrs : Z)
| TNode (table : Z) (entries : list tree).

(** What an address is mapped to. *)
Inductive mapping := Unmapped (reason : Z) | Mapped (addr attrs : Z).

Fixpoint fp (l : nat) (t : tree) : gset Z :=
  match l, t with
  | S l', TNode h ts => {[h]} ∪ ⋃ (fp l' <$> ts)
  | _, _ => ∅
  end.

Definition fps (l : nat) (ts : list tree) : gset Z := ⋃ (fp l <$> ts).

(** The mapping at an offset into the memory an entry covers, and a table covers. *)
Fixpoint den (l : nat) (t : tree) (x : Z) : mapping :=
  match t with
  | TInv r => Unmapped r
  | TLeaf a attrs => Mapped (a + x) attrs
  | TNode _ ts =>
      match l with
      | O => Unmapped 0
      | S l' => match ts !! Z.to_nat (x / esz l') with
                | Some t' => den l' t' (x mod esz l')
                | None => Unmapped 0
                end
      end
  end.
Definition tden (l : nat) (ts : list tree) (x : Z) : mapping :=
  match ts !! Z.to_nat (x / esz l) with Some t => den l t (x mod esz l) | None => Unmapped 0 end.

(** The tables below two entries of a table are different. *)
Definition separated (l : nat) (ts : list tree) : Prop :=
  forall i j a b, i <> j -> ts !! i = Some a -> ts !! j = Some b -> fp l a ## fp l b.

Lemma elem_of_fps l ts k : k ∈ fps l ts <-> exists i t, ts !! i = Some t /\ k ∈ fp l t.
Proof.
  unfold fps. rewrite elem_of_union_list. split.
  - intros (X & HX & Hk). apply list_elem_of_fmap in HX as (t & -> & Ht).
    apply list_elem_of_lookup in Ht as [i Hi]. eauto.
  - intros (i & t & Hi & Hk). exists (fp l t). split; [|done]. apply list_elem_of_fmap. exists t. split; [done|].
    by eapply list_elem_of_lookup_2.
Qed.

(** * Representation *)

(** What the mapper relies on from the page heap: a page handed out is new and can be a table;
    the pages [S] are the ones held. *)
Class PagesLaws (A : Type) `{!Pages A} (ok : Z -> Prop) := {
  owns : A -> gset Z -> Prop;
  alloc_law a S : owns a S ->
    exists p a', vmm_page_alloc a = Ok (p, a') /\
      (p = 0 /\ owns a' S \/ p <> 0 /\ p ∉ S /\ ok p /\ owns a' ({[p]} ∪ S));
  free_law a S p : owns a S -> p ∈ S -> exists a', vmm_memory_free a p = Ok a' /\ owns a' (S ∖ {[p]});
  stale_law a p : length (stale a p) = 512%nat
}.

Section Rep.
Context (hva_to_hpa hpa_to_hva : Z -> option Z) (K : MAM_ENTRY_OPS).

#[local] Abbreviation tbl_ok := (table_ok hva_to_hpa hpa_to_hva).
#[local] Abbreviation vw := (view hpa_to_hva K).

(** Entry [e] of level [l] is the tree [t]. *)
Fixpoint rep (l : nat) (tabs : gmap Z (list Z)) (e : Z) (t : tree) : Prop :=
  mam_get_entry_ops e = K /\
  match t with
  | TInv r => vw l e = VInvalid r /\ 0 <= r < 2 ^ 31 /\ get_mam_entry_type e = mam_get_leaf_entry_type K
  | TLeaf a attrs => vw l e = VLeaf a attrs /\ leaf_ok K l a /\ a + esz l <= 2 ^ 40 /\ attr_ok K attrs
  | TNode h ts =>
      vw l e = VInner h /\ tbl_ok h /\
      match l with
      | S (S _ as l') =>
          exists es, tabs !! h = Some es /\ length es = 512%nat /\ Forall2 (rep l' tabs) es ts /\
            separated l' ts /\ h ∉ fps l' ts
      | _ => False
      end
  end.

(** The table at [h] holds the entries [ts]. *)
Definition trep (l : nat) (tabs : gmap Z (list Z)) (h : Z) (ts : list tree) : Prop :=
  exists es, tabs !! h = Some es /\ length es = 512%nat /\ Forall2 (rep l tabs) es ts /\
    separated l ts /\ h ∉ fps l ts.
Definition tfp (l : nat) (h : Z) (ts : list tree) : gset Z := {[h]} ∪ fps l ts.

Lemma elem_of_tfp l h ts k : k ∈ tfp l h ts <-> k = h \/ k ∈ fps l ts.
Proof. unfold tfp. by rewrite elem_of_union, elem_of_singleton. Qed.

Lemma rep_node l tabs e h ts : rep (S (S l)) tabs e (TNode h ts) <->
  mam_get_entry_ops e = K /\ vw (S (S l)) e = VInner h /\ tbl_ok h /\ trep (S l) tabs h ts.
Proof. done. Qed.

Lemma rep_ops l tabs e t : rep l tabs e t -> mam_get_entry_ops e = K.
Proof. destruct l; by intros []. Qed.

Lemma rep_dom l : forall tabs e t, rep l tabs e t -> fp l t ⊆ dom tabs.
Proof.
  induction l as [|l IH]; intros tabs e t H; [apply empty_subseteq|].
  destruct t as [r|a attrs|h ts]; [apply empty_subseteq..|].
  destruct l as [|l]; [by destruct H as (_ & _ & _ & ?)|].
  apply rep_node in H as (_ & _ & _ & (es & Hh & _ & Hes & _)).
  change (tfp (S l) h ts ⊆ dom tabs). intros k [->|Hk]%elem_of_tfp; [by apply elem_of_dom|].
  apply elem_of_fps in Hk as (i & t & Hi & Hk).
  apply Forall2_lookup_r with (i := i) (y := t) in Hes as (e' & _ & Ht); [|done]. by eapply IH.
Qed.

Lemma trep_dom l tabs h ts : trep l tabs h ts -> tfp l h ts ⊆ dom tabs.
Proof.
  intros (es & Hh & _ & Hes & _). intros k [->|Hk]%elem_of_tfp; [by apply elem_of_dom|].
  apply elem_of_fps in Hk as (i & t & Hi & Hk).
  apply Forall2_lookup_r with (i := i) (y := t) in Hes as (e' & _ & Ht); [|done]. by eapply rep_dom.
Qed.

(** The representation reads the tables of its footprint only. *)
Lemma rep_frame l : forall tabs tabs' e t, rep l tabs e t -> (forall k, k ∈ fp l t -> tabs' !! k = tabs !! k) ->
  rep l tabs' e t.
Proof.
  induction l as [|l IH]; intros tabs tabs' e t H E; [by destruct t|].
  destruct t as [r|a attrs|h ts]; [exact H..|]. destruct l as [|l]; [by destruct H as (_ & _ & _ & ?)|].
  apply rep_node in H as (H1 & H2 & H3 & (es & Hh & Hlen & Hes & Hs & Hn)).
  assert (forall k, k ∈ tfp (S l) h ts -> tabs' !! k = tabs !! k) as E' by exact E.
  apply rep_node. split_and!; [done..|]. exists es. split_and!; [|done| |done..].
  - rewrite E'; [done|]. apply elem_of_tfp. by left.
  - apply Forall2_same_length_lookup_2; [by eapply Forall2_length|].
    intros i e' t' He Ht. apply (IH tabs).
    + by eapply Forall2_lookup_lr.
    + intros k Hk. apply E'. apply elem_of_tfp. right. apply elem_of_fps. eauto.
Qed.

Lemma trep_frame l tabs tabs' h ts : trep l tabs h ts -> (forall k, k ∈ tfp l h ts -> tabs' !! k = tabs !! k) ->
  trep l tabs' h ts.
Proof.
  intros (es & Hh & Hlen & Hes & Hs & Hn) E. exists es. split_and!; [|done| |done..].
  - rewrite E; [done|]. apply elem_of_tfp. by left.
  - apply Forall2_same_length_lookup_2; [by eapply Forall2_length|].
    intros i e' t' He Ht. apply (rep_frame l tabs).
    + by eapply Forall2_lookup_lr.
    + intros k Hk. apply E. apply elem_of_tfp. right. apply elem_of_fps. eauto.
Qed.

Lemma trep_length l tabs h ts : trep l tabs h ts -> length ts = 512%nat.
Proof. intros (es & _ & Hlen & Hes & _). rewrite <- Hlen. symmetry. by eapply Forall2_length. Qed.

Lemma trep_lookup l tabs h ts i t : trep l tabs h ts -> ts !! i = Some t ->
  exists es e, tabs !! h = Some es /\ length es = 512%nat /\ es !! i = Some e /\ rep l tabs e t.
Proof.
  intros (es & Hh & Hlen & Hes & _) Ht.
  apply Forall2_lookup_r with (i := i) (y := t) in Hes as (e & He & Hr); [|done]. eauto 10.
Qed.

(** One entry of a table is replaced, with the tables below it. *)
Lemma entry_step l tabs tabs' h ts i es e' t t' :
  trep l tabs h ts -> ts !! i = Some t -> tabs !! h = Some es ->
  evolves tabs tabs' ({[h]} ∪ fp l t) ({[h]} ∪ fp l t') ->
  tabs' !! h = Some (<[i := e']> es) -> rep l tabs' e' t' -> h ∉ fp l t' ->
  trep l tabs' h (<[i := t']> ts) /\ evolves tabs tabs' (tfp l h ts) (tfp l h (<[i := t']> ts)).
Proof.
  intros Hrep Ht Hh Hev Hh' Hr' Hn'. pose proof (trep_dom _ _ _ _ Hrep) as Hdom.
  destruct Hrep as (es0 & Hh0 & Hlen & Hes & Hs & Hn). assert (es0 = es) as -> by congruence. clear Hh0.
  assert (Hi : (i < length ts)%nat) by by eapply lookup_lt_Some.
  assert (Hother : forall j u k, j <> i -> ts !! j = Some u -> k ∈ fp l u ->
    tabs' !! k = tabs !! k /\ k ∉ fp l t' /\ k <> h).
  { intros j u k Hj Hu Hk.
    assert (k ∈ fps l ts) by (apply elem_of_fps; eauto).
    assert (k <> h) by (intros ->; done).
    assert (k ∉ fp l t) by (pose proof (Hs j i u t Hj Hu Ht); set_solver).
    destruct (evolves_same _ _ _ _ k Hev) as [? Hk']; [apply Hdom; set_solver|set_solver|].
    split_and!; [done|set_solver|done]. }
  assert (Hlook : forall j u, <[i := t']> ts !! j = Some u -> j = i /\ u = t' \/ j <> i /\ ts !! j = Some u).
  { intros j u Hu. destruct (decide (j = i)) as [->|Hj].
    - rewrite list_lookup_insert_eq in Hu by done. simplify_eq. by left.
    - rewrite list_lookup_insert_ne in Hu by done. by right. }
  split.
  - exists (<[i := e']> es). split_and!; [done|by rewrite length_insert| | |].
    + apply Forall2_same_length_lookup_2; [rewrite !length_insert; by eapply Forall2_length|].
      intros j e u He Hu. destruct (Hlook j u Hu) as [[-> ->]|[Hj Hu']].
      * rewrite list_lookup_insert_eq in He by (rewrite (Forall2_length _ _ _ Hes); done). by simplify_eq.
      * rewrite list_lookup_insert_ne in He by done. apply (rep_frame l tabs); [by eapply Forall2_lookup_lr|].
        intros k Hk. by eapply Hother.
    + intros j j' u u' Hjj Hu Hu'.
      destruct (Hlook j u Hu) as [[-> ->]|[Hj Hu1]], (Hlook j' u' Hu') as [[-> ->]|[Hj' Hu1']]; [done| | |].
      * intros k Hk Hk'. by eapply Hother in Hk' as (_ & ? & _).
      * intros k Hk Hk'. by eapply Hother in Hk as (_ & ? & _).
      * by apply (Hs j j').
    + intros (j & u & Hu & Hk)%elem_of_fps. destruct (Hlook j u Hu) as [[-> ->]|[Hj Hu1]]; [done|].
      by eapply Hother in Hk as (_ & _ & ?).
  - set (F := fps l ts ∖ ({[h]} ∪ fp l t)).
    destruct (evolves_frame _ _ _ _ F Hev) as [Hev' Hdis]; [set_solver|set_solver|].
    assert ({[h]} ∪ fp l t ∪ F = tfp l h ts) as E1.
    { apply set_eq. intros k. unfold F, tfp.
      assert (k ∈ fp l t -> k ∈ fps l ts) by (intros; apply elem_of_fps; eauto). set_unfold. destruct (decide (k ∈ fp l t)), (decide (k = h)); tauto. }
    assert ({[h]} ∪ fp l t' ∪ F = tfp l h (<[i := t']> ts)) as E2.
    { apply set_eq. intros k. unfold tfp. split.
      - intros [[Hk|Hk]%elem_of_union|Hk]%elem_of_union.
        + by apply elem_of_union_l.
        + apply elem_of_union_r, elem_of_fps. exists i, t'. by rewrite list_lookup_insert_eq.
        + apply elem_of_difference in Hk as [(j & u & Hu & Hk)%elem_of_fps Hnk].
          apply elem_of_union_r, elem_of_fps. exists j, u. split; [|done].
          rewrite list_lookup_insert_ne; [done|]. intros ->. simplify_eq. set_solver.
      - intros [Hk|(j & u & Hu & Hk)%elem_of_fps]%elem_of_union; [set_solver|].
        destruct (Hlook j u Hu) as [[-> ->]|[Hj Hu1]]; [set_solver|].
        apply elem_of_union_r, elem_of_difference. split; [apply elem_of_fps; eauto|].
        pose proof (Hother j u k Hj Hu1 Hk) as (_ & _ & ?). pose proof (Hs j i u t Hj Hu1 Ht). set_solver. }
    by rewrite E1, E2 in Hev'.
Qed.
End Rep.
#[global] Typeclasses Opaque rep trep fps tfp fp separated den.

(** * Tables *)

Section Ops.
Context {A : Type} `{!Pages A} (hva_to_hpa hpa_to_hva : Z -> option Z) (K : MAM_ENTRY_OPS).
Context `{!EntryLaws hva_to_hpa hpa_to_hva K} `{!PagesLaws A (table_ok hva_to_hpa hpa_to_hva)}.

#[local] Abbreviation tbl_ok := (table_ok hva_to_hpa hpa_to_hva).
#[local] Abbreviation vw := (view hpa_to_hva K).
#[local] Abbreviation rep := (rep hva_to_hpa hpa_to_hva K).
#[local] Abbreviation trep := (trep hva_to_hpa hpa_to_hva K).

Definition pages_ok (s : mstate A) : Prop := exists S, owns (pages s) S /\ dom (tabs s) ⊆ S.

Lemma rd_entry_ok (s : mstate A) h es (i : nat) e : tabs s !! h = Some es -> es !! i = Some e ->
  rd_entry s h (Z.of_nat i) = Ok e.
Proof. intros Hh He. unfold rd_entry. rewrite Hh. apply rd_ok; [lia|by rewrite Nat2Z.id]. Qed.

Definition upd_entry (s : mstate A) (h : Z) (es : list Z) (i : nat) (e : Z) : mstate A :=
  mk_mstate (<[h := <[i := e]> es]> (tabs s)) (pages s).

Lemma wr_entry_ok (s : mstate A) h es (i : nat) e : tabs s !! h = Some es -> (i < length es)%nat ->
  wr_entry s h (Z.of_nat i) e = Ok (upd_entry s h es i e).
Proof. intros Hh Hi. unfold wr_entry. rewrite Hh, wr_ok by lia. by rewrite bind_Ok, Nat2Z.id. Qed.

Lemma upd_pages_ok s h es es' i e : pages_ok s -> tabs s !! h = Some es' -> pages_ok (upd_entry s h es i e).
Proof.
  intros (S & Ho & Hd) Hh. exists S. split; [done|]. cbn [upd_entry tabs]. rewrite dom_insert_L.
  assert (h ∈ dom (tabs s)) by by apply elem_of_dom. set_solver.
Qed.

Lemma create_spec s r ty : pages_ok s ->
  exists p s', mam_create_table s r ty = Ok (p, s') /\ pages_ok s' /\
    (p = 0 /\ tabs s' = tabs s \/
     p <> 0 /\ tbl_ok p /\ p ∉ dom (tabs s) /\
     exists es, length es = 512%nat /\
       tabs s' = <[p := (fun e => mam_invalidate_entry e r ty) <$> es]> (tabs s)).
Proof.
  intros (S & Ho & Hd). destruct (alloc_law _ _ Ho) as (p & a' & E & Hp). unfold mam_create_table. rewrite E, bind_Ok.
  destruct Hp as [[-> Ho']|(Hp0 & HpS & Hok & Ho')].
  - exists 0, (mk_mstate (tabs s) a'). split; [done|]. split; [by exists S|]. by left.
  - destruct (Z.eqb_spec p 0); [done|]. eexists p, _. split; [done|]. split.
    + exists ({[p]} ∪ S). split; [done|]. cbn [tabs]. rewrite dom_insert_L. set_solver.
    + right. split_and!; [done..|set_solver|]. exists (stale (pages s) p). split; [apply stale_law|done].
Qed.

(** A table without tables below. *)
Lemma flat_table l tabs p es ts : tabs !! p = Some es -> length es = 512%nat -> Forall2 (rep l tabs) es ts ->
  (forall t, t ∈ ts -> fp l t = ∅) -> trep l tabs p ts /\ fps l ts = ∅.
Proof.
  intros Hp Hlen Hes Hfp. assert (fps l ts = ∅) as E.
  { apply set_eq. intros k. split; [|set_solver]. intros (i & t & Hi & Hk)%elem_of_fps.
    rewrite Hfp in Hk; [done|]. by eapply list_elem_of_lookup_2. }
  split; [|done]. exists es. split_and!; [done..| |rewrite E; apply not_elem_of_empty].
  intros i j a b _ Ha Hb. rewrite (Hfp a); [set_solver|]. by eapply list_elem_of_lookup_2.
Qed.

Lemma invalid_rep l tabs e r : 0 <= r < 2 ^ 31 ->
  rep l tabs (mam_invalidate_entry e r (mam_get_leaf_entry_type K)) (TInv r).
Proof. intros Hr. destruct (law_invalid (K := K) l e r Hr) as (H1 & H2 & H3). by destruct l; repeat split; try lia. Qed.

Lemma leaf_rep l tabs a attrs : leaf_ok K l a -> a + esz l <= 2 ^ 40 -> attr_ok K attrs ->
  rep l tabs (mam_update_leaf_entry a attrs l K) (TLeaf a attrs).
Proof. intros Ha Hb Hat. destruct (law_leaf (K := K) l a attrs Ha Hat) as [H1 H2]. destruct l; by split_and!. Qed.

Lemma fp_inv l r : fp l (TInv r) = ∅.
Proof. by destruct l. Qed.
Lemma fp_leaf l a attrs : fp l (TLeaf a attrs) = ∅.
Proof. by destruct l. Qed.

Lemma invalid_table l tabs p es r : 0 <= r < 2 ^ 31 -> length es = 512%nat ->
  tabs !! p = Some ((fun e => mam_invalidate_entry e r (mam_get_leaf_entry_type K)) <$> es) ->
  trep l tabs p (replicate 512 (TInv r)) /\ fps l (replicate 512 (TInv r)) = ∅.
Proof.
  intros Hr Hlen Hp. eapply flat_table; [done|by rewrite length_fmap| |].
  - apply Forall2_same_length_lookup_2; [by rewrite length_fmap, length_replicate|].
    intros i e t He Ht. apply lookup_replicate in Ht as [-> _]. rewrite list_lookup_fmap in He.
    destruct (es !! i); [|done]. simpl in He. simplify_eq. by apply invalid_rep.
  - intros t [-> _]%elem_of_replicate. apply fp_inv.
Qed.

(** ** The change of a leaf or invalid entry into another one, and into a table *)

Lemma write_step l (s : mstate A) h ts (i : nat) es e' t t' :
  trep l (tabs s) h ts -> ts !! i = Some t -> tabs s !! h = Some es -> fp l t = ∅ -> fp l t' = ∅ ->
  rep l (tabs (upd_entry s h es i e')) e' t' ->
  trep l (tabs (upd_entry s h es i e')) h (<[i := t']> ts) /\
  evolves (tabs s) (tabs (upd_entry s h es i e')) (tfp l h ts) (tfp l h (<[i := t']> ts)).
Proof.
  intros Hrep Ht Hh Hf Hf' Hr'.
  eapply (entry_step _ _ _ l (tabs s) _ h ts i es e' t t'); [done..| | |done|by rewrite Hf'].
  - rewrite Hf, Hf'. apply evolves_upd, elem_of_union_l, elem_of_singleton_2. done.
  - cbn [upd_entry tabs]. apply lookup_insert_eq.
Qed.

(** The entry becomes an inner entry that refers to the new table [p]. *)
Lemma node_step l (s s1 : mstate A) h ts (i : nat) es esp e' t p ts0 :
  trep (S (S l)) (tabs s) h ts -> ts !! i = Some t -> tabs s !! h = Some es -> fp (S (S l)) t = ∅ ->
  p ∉ dom (tabs s) -> tabs s1 = <[p := esp]> (tabs s) -> tbl_ok p ->
  trep (S l) (tabs s1) p ts0 -> fps (S l) ts0 = ∅ ->
  vw (S (S l)) e' = VInner p -> mam_get_entry_ops e' = K ->
  trep (S (S l)) (tabs (upd_entry s1 h es i e')) h (<[i := TNode p ts0]> ts) /\
  evolves (tabs s) (tabs (upd_entry s1 h es i e')) (tfp (S (S l)) h ts) (tfp (S (S l)) h (<[i := TNode p ts0]> ts)).
Proof.
  intros Hrep Ht Hh Hf Hp Hs1 Hok Hrp Hf0 Hv Ho.
  assert (p <> h) as Hne by (intros ->; apply Hp, elem_of_dom; eauto).
  assert (fp (S (S l)) (TNode p ts0) = {[p]}) as Efp.
  { change (tfp (S l) p ts0 = {[p]}). unfold tfp. rewrite Hf0. apply union_empty_r_L. }
  eapply (entry_step _ _ _ (S (S l)) (tabs s) _ h ts i es e' t); [done..| | | |].
  - rewrite Hf, Efp. cbn [upd_entry tabs]. rewrite Hs1.
    destruct (evolves_frame1 _ _ _ _ h (evolves_new (tabs s) p esp Hp)) as [Hev _];
      [apply elem_of_dom; eauto|apply not_elem_of_empty|].
    eapply evolves_trans; [exact Hev|]. apply evolves_upd, elem_of_union_l, elem_of_singleton_2. done.
  - cbn [upd_entry tabs]. apply lookup_insert_eq.
  - apply rep_node. split_and!; [done..|]. apply (trep_frame _ _ _ _ (tabs s1)); [done|].
    intros k Hk. apply elem_of_tfp in Hk as [->|Hk]; [|rewrite Hf0 in Hk; by apply not_elem_of_empty in Hk].
    cbn [upd_entry tabs]. by rewrite lookup_insert_ne.
  - rewrite Efp. by apply not_elem_of_singleton.
Qed.

(** The table below an inner entry changes. *)
Lemma below_step l tabs tabs' h ts (i : nat) p ts0 ts' :
  trep (S (S l)) tabs h ts -> ts !! i = Some (TNode p ts0) ->
  evolves tabs tabs' (tfp (S l) p ts0) (tfp (S l) p ts') -> trep (S l) tabs' p ts' ->
  trep (S (S l)) tabs' h (<[i := TNode p ts']> ts) /\
  evolves tabs tabs' (tfp (S (S l)) h ts) (tfp (S (S l)) h (<[i := TNode p ts']> ts)).
Proof.
  intros Hrep Ht Hev Hrp. pose proof (trep_dom _ _ _ _ _ _ _ Hrep) as Hdom.
  destruct (trep_lookup _ _ _ _ _ _ _ i _ Hrep Ht) as (es & e & Hh & Hlen & He & Hr).
  apply rep_node in Hr as (Ho & Hv & Hok & Hrp0).
  assert (h ∉ tfp (S l) p ts0) as Hn.
  { destruct Hrep as (_ & _ & _ & _ & _ & Hn). intros Hk. apply Hn, elem_of_fps. eauto. }
  destruct (evolves_frame1 _ _ _ _ h Hev) as [Hev' Hn']; [by apply elem_of_dom|done|].
  eapply (entry_step _ _ _ (S (S l)) tabs tabs' h ts i es e (TNode p ts0) (TNode p ts')); [done..| | | |].
  - change (fp (S (S l)) (TNode p ts0)) with (tfp (S l) p ts0). change (fp (S (S l)) (TNode p ts')) with (tfp (S l) p ts').
    exact Hev'.
  - rewrite list_insert_id by done. destruct (evolves_same _ _ _ _ h Hev) as [-> _]; [|done..].
    by apply elem_of_dom.
  - apply rep_node. by split_and!.
  - exact Hn'.
Qed.

(** ** Reading an entry *)

Lemma view_invalid l e r : vw l e = VInvalid r -> mam_is_entry_present e K = false /\ invalid_reason e = r.
Proof. unfold view. destruct (mam_is_entry_present e K), (mam_is_leaf_entry e); intros; by simplify_eq. Qed.

Lemma view_inner l e p : vw l e = VInner p ->
  mam_is_entry_present e K = true /\ mam_is_leaf_entry e = false /\ mam_get_table_pointed_by_entry hpa_to_hva e K = p.
Proof. unfold view. destruct (mam_is_entry_present e K), (mam_is_leaf_entry e); intros; by simplify_eq. Qed.

Lemma leaf_type e : get_mam_entry_type e = mam_get_leaf_entry_type K -> mam_is_leaf_entry e = true.
Proof. intros E. unfold mam_is_leaf_entry. rewrite E. by destruct K. Qed.

(** Entries without tables below are leaves for the code; the others refer to their table. *)
Lemma rep_leafness l tabs e t : rep l tabs e t ->
  match t with
  | TNode p ts => mam_is_leaf_entry e = false /\ mam_is_entry_present e K = true /\
                  mam_get_table_pointed_by_entry hpa_to_hva e K = p
  | TLeaf a attrs => mam_is_leaf_entry e = true /\ mam_is_entry_present e K = true /\
                     mam_get_address_from_leaf_entry e l K = a /\ mam_get_attributes_from_entry e l K = attrs
  | TInv r => mam_is_leaf_entry e = true /\ mam_is_entry_present e K = false /\ invalid_reason e = r /\
              get_mam_entry_type e = mam_get_leaf_entry_type K
  end.
Proof.
  intros H. assert (H' : match t with
    | TInv r => vw l e = VInvalid r /\ get_mam_entry_type e = mam_get_leaf_entry_type K
    | TLeaf a attrs => vw l e = VLeaf a attrs
    | TNode p ts => vw l e = VInner p end).
  { destruct l, t; destruct H as (_ & H); naive_solver. }
  destruct t as [r|a attrs|p ts].
  - destruct H' as [[? ?]%view_invalid ?]. split_and!; [by apply leaf_type|done..].
  - by apply view_leaf in H' as (? & ? & ? & ?).
  - by apply view_inner in H' as (? & ? & ?).
Qed.

Lemma fps_drop l ts (i : nat) t : ts !! i = Some t -> fps l (drop i ts) = fp l t ∪ fps l (drop (S i) ts).
Proof. intros Ht. by rewrite (drop_S ts t i Ht). Qed.

Lemma fps_drop_elem l ts (i : nat) k : k ∈ fps l (drop i ts) <-> exists j t, (i <= j)%nat /\ ts !! j = Some t /\ k ∈ fp l t.
Proof.
  rewrite elem_of_fps. split.
  - intros (j & t & Hj & Hk). rewrite lookup_drop in Hj. exists (i + j)%nat, t. split_and!; [lia|done..].
  - intros (j & t & Hij & Hj & Hk). exists (j - i)%nat, t. rewrite lookup_drop.
    replace (i + (j - i))%nat with j by lia. done.
Qed.

(** ** Destruction *)

Lemma free_step s h es : pages_ok s -> tabs s !! h = Some es ->
  exists s', (a ← vmm_memory_free (pages s) h; Ok (mk_mstate (delete h (tabs s)) a)) = Ok s' /\
    tabs s' = delete h (tabs s) /\ pages_ok s'.
Proof.
  intros (S & Ho & Hd) Hh. assert (h ∈ dom (tabs s)) by by apply elem_of_dom.
  destruct (free_law _ _ h Ho) as (a' & E & Ho'); [set_solver|]. rewrite E, bind_Ok.
  eexists. split; [done|]. split; [done|]. exists (S ∖ {[h]}). split; [done|]. cbn [tabs]. rewrite dom_delete_L. set_solver.
Qed.

(** The part of a table's destruction that is done before entry [i]. *)
Definition destroyed_upto (l : nat) (t0 : gmap Z (list Z)) (h : Z) (es : list Z) (ts : list tree) (i : Z)
  (s : mstate A) : Prop :=
  tabs s !! h = Some es /\ evolves t0 (tabs s) (fps l ts) (fps l (drop (Z.to_nat i) ts)) /\ pages_ok s /\
  forall k, k ∈ fps l (drop (Z.to_nat i) ts) -> tabs s !! k = t0 !! k.

Lemma destroy_spec l : forall depth s h ts, (l <= depth)%nat -> (1 <= l)%nat ->
  trep l (tabs s) h ts -> pages_ok s ->
  exists s', mam_destroy_table hpa_to_hva depth s h = Ok s' /\ evolves (tabs s) (tabs s') (tfp l h ts) ∅ /\ pages_ok s'.
Proof.
  induction l as [|l IH]; intros depth s h ts Hd Hl Hrep Hpg; [lia|]. destruct depth as [|depth]; [lia|].
  pose proof (trep_dom _ _ _ _ _ _ _ Hrep) as Hdom. pose proof (trep_length _ _ _ _ _ _ _ Hrep) as Hlts.
  pose proof Hrep as (es & Hh & Hlen & Hes & Hsep & Hn). cbn [mam_destroy_table].
  destruct (lookup_lt_is_Some_2 ts 0%nat ltac:(lia)) as [t0 Ht0].
  destruct (trep_lookup _ _ _ _ _ _ _ 0%nat t0 Hrep Ht0) as (es' & e0 & Hh' & _ & He0 & Hr0).
  assert (es' = es) as -> by congruence. assert (rd_entry s h 0 = Ok e0) as -> by by apply (rd_entry_ok s h es 0%nat).
  rewrite bind_Ok, (rep_ops _ _ _ _ _ _ _ Hr0).
  edestruct (for_range_inv (destroyed_upto (S l) (tabs s) h es ts)) as (s1 & E & Hinv); [| | |rewrite E, bind_Ok].
  - done.
  - split_and!; [done|apply evolves_refl|done|done].
  - intros i s1 Hi (Hh1 & Hev & Hpg1 & Hsame). unfold MAM_NUM_OF_ENTRIES_IN_TABLE in Hi.
    destruct (lookup_lt_is_Some_2 ts (Z.to_nat i) ltac:(lia)) as [t Ht].
    destruct (trep_lookup _ _ _ _ _ _ _ _ t Hrep Ht) as (es' & e & Hh2 & _ & He & Hr).
    assert (es' = es) as -> by congruence. clear Hh2.
    assert (rd_entry s1 h i = Ok e) as ->
      by (rewrite <- (Z2Nat.id i) by lia; by apply (rd_entry_ok s1 h es)).
    rewrite bind_Ok.
    pose proof (fps_drop (S l) ts _ t Ht) as Edrop.
    assert (Z.to_nat (i + 1) = S (Z.to_nat i)) as Ei by lia.
    pose proof (rep_leafness _ _ _ _ Hr) as Hleaf. destruct t as [r|a attrs|p ts'].
    + destruct Hleaf as [-> _]. exists s1. split; [done|]. unfold destroyed_upto. rewrite Ei.
      rewrite fp_inv, union_empty_l_L in Edrop. rewrite <- Edrop. by split_and!.
    + destruct Hleaf as [-> _]. exists s1. split; [done|]. unfold destroyed_upto. rewrite Ei.
      rewrite fp_leaf, union_empty_l_L in Edrop. rewrite <- Edrop. by split_and!.
    + destruct Hleaf as (-> & _ & ->). cbn [negb].
      assert (exists l', l = S l') as [l' ->] by (destruct l; [by destruct Hr as (_ & _ & _ & [])|eauto]).
      apply rep_node in Hr as (_ & _ & _ & Hrp).
      assert (Hrp1 : trep (S l') (tabs s1) p ts').
      { apply (trep_frame _ _ _ _ (tabs s)); [done|]. intros k Hk. apply Hsame. rewrite Edrop.
        apply elem_of_union_l. exact Hk. }
      destruct (IH depth s1 p ts' ltac:(lia) ltac:(lia) Hrp1 Hpg1) as (s2 & E2 & Hev2 & Hpg2).
      exists s2. split; [done|]. unfold destroyed_upto. rewrite Ei.
      set (F := fps (S (S l')) (drop (S (Z.to_nat i)) ts)) in *.
      assert (HF : F ## tfp (S l') p ts').
      { intros k (j & u & Hj & Hu & Hk)%fps_drop_elem Hk'.
        by apply (Hsep j (Z.to_nat i) u (TNode p ts') ltac:(lia) Hu Ht k). }
      assert (HFd : F ⊆ dom (tabs s1)).
      { intros k Hk. apply elem_of_dom. rewrite Hsame by (rewrite Edrop; by apply elem_of_union_r).
        apply elem_of_dom, Hdom. apply fps_drop_elem in Hk as (j & u & _ & Hu & Hk).
        apply elem_of_tfp. right. apply elem_of_fps. eauto. }
      assert (Hhp : h ∉ tfp (S l') p ts').
      { intros Hk. apply Hn, elem_of_fps. eauto. }
      destruct (evolves_frame _ _ _ _ F Hev2 HFd HF) as [Hev2' _].
      split_and!.
      * destruct (evolves_same _ _ _ _ h Hev2) as [-> _]; [by apply elem_of_dom|done|done].
      * eapply evolves_trans; [exact Hev|]. rewrite Edrop. rewrite union_empty_l_L in Hev2'. exact Hev2'.
      * done.
      * intros k Hk. destruct (evolves_same _ _ _ _ k Hev2) as [-> _]; [by apply HFd|intros Hk'; by apply (HF k)|].
        apply Hsame. rewrite Edrop. by apply elem_of_union_r.
  - destruct Hinv as (Hh1 & Hev & Hpg1 & _). destruct (free_step s1 h es Hpg1 Hh1) as (s2 & E2 & Ht2 & Hpg2).
    exists s2. split; [done|]. split; [|done]. rewrite Ht2.
    rewrite drop_ge in Hev by (rewrite Hlts; unfold MAM_NUM_OF_ENTRIES_IN_TABLE; lia).
    change (fps (S l) []) with (∅ : gset Z) in Hev.
    destruct (evolves_frame1 _ _ _ _ h Hev) as [Hev' _]; [by apply elem_of_dom|done|].
    eapply evolves_trans; [exact Hev'|]. rewrite union_empty_r_L. apply evolves_del.
Qed.

(** ** Detaching a table: the entry is overwritten, then the table below is destroyed *)

Lemma detach l (s : mstate A) h ts (i : nat) es e' p ts0 : level_ok (S (S l)) ->
  trep (S (S l)) (tabs s) h ts -> ts !! i = Some (TNode p ts0) -> tabs s !! h = Some es -> pages_ok s ->
  exists s', destroy hpa_to_hva (upd_entry s h es i e') p = Ok s' /\ pages_ok s' /\
    tabs s' !! h = Some (<[i := e']> es) /\
    evolves (tabs s) (tabs s') ({[h]} ∪ fp (S (S l)) (TNode p ts0)) {[h]}.
Proof.
  intros Hlv Hrep Ht Hh Hpg. destruct (trep_lookup _ _ _ _ _ _ _ i _ Hrep Ht) as (es' & e & Hh' & Hlen & He & Hr).
  assert (es' = es) as -> by congruence. apply rep_node in Hr as (_ & _ & _ & Hrp).
  assert (Hn : h ∉ tfp (S l) p ts0).
  { destruct Hrep as (_ & _ & _ & _ & _ & Hn). intros Hk. apply Hn, elem_of_fps. eauto. }
  assert (Hrp1 : trep (S l) (tabs (upd_entry s h es i e')) p ts0).
  { apply (trep_frame _ _ _ _ (tabs s)); [done|]. intros k Hk. cbn [upd_entry tabs].
    rewrite lookup_insert_ne; [done|]. by intros <-. }
  unfold level_ok in Hlv.
  destruct (destroy_spec (S l) 4 _ p ts0 ltac:(lia) ltac:(lia) Hrp1 (upd_pages_ok _ _ _ _ _ _ Hpg Hh))
    as (s' & E & Hev & Hpg').
  exists s'. split; [done|]. split; [done|].
  assert (Hh1 : tabs (upd_entry s h es i e') !! h = Some (<[i := e']> es)) by apply lookup_insert_eq.
  assert (Hd : h ∈ dom (tabs (upd_entry s h es i e'))) by (apply elem_of_dom; eauto).
  split; [by destruct (evolves_same _ _ _ _ h Hev Hd Hn) as [-> _]|].
  change (fp (S (S l)) (TNode p ts0)) with (tfp (S l) p ts0).
  eapply evolves_trans; [apply evolves_upd, elem_of_union_l, elem_of_singleton_2; done|].
  destruct (evolves_frame1 _ _ _ _ h Hev Hd Hn) as [Hev' _]. rewrite union_empty_r_L in Hev'. exact Hev'.
Qed.

(** ** Leaves as tables of leaves *)

Definition leaves (a attrs : Z) (l : nat) : list tree :=
  (fun k => TLeaf (a + k * esz l) attrs) <$> seqZ 0 512.

Lemma leaves_lookup a attrs l (j : nat) t : leaves a attrs l !! j = Some t <->
  (j < 512)%nat /\ t = TLeaf (a + Z.of_nat j * esz l) attrs.
Proof.
  unfold leaves. rewrite list_lookup_fmap. split.
  - destruct (seqZ 0 512 !! j) as [k|] eqn:E; [|done]. apply lookup_seqZ in E as [-> ?]. intros [= <-].
    split; [lia|done].
  - intros [Hj ->]. assert (seqZ 0 512 !! j = Some (Z.of_nat j)) as ->; [|done]. apply lookup_seqZ. lia.
Qed.

(** Dividing an offset into an entry by the size of the entries below. *)
Lemma below_index l x : level_ok (S (S l)) -> 0 <= x < esz (S (S l)) ->
  (Z.to_nat (x / esz (S l)) < 512)%nat /\ Z.of_nat (Z.to_nat (x / esz (S l))) = x / esz (S l) /\
  x = x / esz (S l) * esz (S l) + x mod esz (S l) /\ 0 <= x mod esz (S l) < esz (S l).
Proof.
  intros Hl Hx. rewrite esz_S in Hx by done. pose proof (esz_pos (S l)).
  assert (0 <= x / esz (S l)) by (apply Z.div_pos; lia).
  assert (x / esz (S l) < 512) by (apply Z.div_lt_upper_bound; lia).
  pose proof (Z.div_mod x (esz (S l)) ltac:(lia)). pose proof (Z.mod_pos_bound x (esz (S l)) ltac:(lia)).
  split_and!; lia.
Qed.

Lemma node_of_leaves l p ts a attrs x : level_ok (S (S l)) -> 0 <= x < esz (S (S l)) ->
  (forall (j : nat) t, ts !! j = Some t -> t = TLeaf (a + Z.of_nat j * esz (S l)) attrs) -> length ts = 512%nat ->
  den (S (S l)) (TNode p ts) x = Mapped (a + x) attrs.
Proof.
  intros Hl Hx Hts Hlen. destruct (below_index l x Hl Hx) as (Hi & Hi' & Ex & _). cbn [den].
  destruct (lookup_lt_is_Some_2 ts (Z.to_nat (x / esz (S l))) ltac:(lia)) as [t Ht]. rewrite Ht.
  rewrite (Hts _ _ Ht), Hi'. cbn [den]. f_equal. lia.
Qed.

Lemma node_of_invalid l p ts r x : level_ok (S (S l)) -> 0 <= x < esz (S (S l)) ->
  (forall (j : nat) t, ts !! j = Some t -> t = TInv r) -> length ts = 512%nat ->
  den (S (S l)) (TNode p ts) x = Unmapped r.
Proof.
  intros Hl Hx Hts Hlen. destruct (below_index l x Hl Hx) as (Hi & _). cbn [den].
  destruct (lookup_lt_is_Some_2 ts (Z.to_nat (x / esz (S l))) ltac:(lia)) as [t Ht]. rewrite Ht.
  by rewrite (Hts _ _ Ht).
Qed.

Lemma leaf_below l a (j : Z) : level_ok (S (S l)) -> 0 <= j < 512 -> leaf_ok K (S (S l)) a -> a + esz (S (S l)) <= 2 ^ 40 ->
  leaf_ok K (S l) (a + j * esz (S l)) /\ a + j * esz (S l) + esz (S l) <= 2 ^ 40 /\ 0 <= a + j * esz (S l) < 2 ^ 40.
Proof.
  intros Hl Hj [[Ha Hm] HK] Hb. rewrite esz_S in Hb by done. pose proof (esz_pos (S l)).
  destruct (esz_page (S l)) as (k & _ & Ek).
  assert (0 <= a + j * esz (S l) < 2 ^ 40) as Hr by nia. split_and!; [|nia|lia|lia].
  split; [split; [done|]|].
  - rewrite Ek. replace (a + j * (k * 4096)) with (a + j * k * 4096) by lia. rewrite Z.mod_add by lia. done.
  - destruct K; try done. left. destruct HK as [|[[= ->] _]]; [lia|done].
Qed.

Lemma leaf_table l t p a attrs : level_ok (S (S l)) -> leaf_ok K (S (S l)) a -> a + esz (S (S l)) <= 2 ^ 40 -> attr_ok K attrs ->
  t !! p = Some (expanded a attrs (S l) K) ->
  trep (S l) t p (leaves a attrs (S l)) /\ fps (S l) (leaves a attrs (S l)) = ∅.
Proof.
  intros Hl Ha Hb Hat Hp. eapply flat_table; [done|by unfold expanded; rewrite length_fmap, length_seqZ| |].
  - apply Forall2_same_length_lookup_2; [unfold expanded, leaves; by rewrite !length_fmap, !length_seqZ|].
    intros i e u He Hu. apply leaves_lookup in Hu as [Hi ->]. unfold expanded in He. rewrite list_lookup_fmap in He.
    destruct (seqZ 0 MAM_NUM_OF_ENTRIES_IN_TABLE !! i) as [k|] eqn:Ek; [|done].
    apply lookup_seqZ in Ek as [-> _]. cbn [fmap option_fmap option_map] in He. rewrite Z.add_0_l in He.
    destruct (leaf_below l a (Z.of_nat i) Hl ltac:(lia) Ha Hb) as (Hlf & Hb' & Hr).
    rewrite u64_small in He by lia. simplify_eq. by apply leaf_rep.
  - intros u Hu. apply list_elem_of_lookup in Hu as [i Hi]. apply leaves_lookup in Hi as [_ ->]. apply fp_leaf.
Qed.

(** ** Expansion of a leaf *)

Context (mam : MAM).
Hypothesis Hinner : inner_ok K mam.

Lemma expand_spec l (s : mstate A) h ts (i : nat) a attrs : level_ok (S (S l)) ->
  trep (S (S l)) (tabs s) h ts -> ts !! i = Some (TLeaf a attrs) -> pages_ok s ->
  exists res p s', mam_expand_leaf_entry hva_to_hpa mam s h (Z.of_nat i) (S (S l)) K = Ok (res, p, s') /\ pages_ok s' /\
    (res = false /\ tabs s' = tabs s \/
     res = true /\ trep (S (S l)) (tabs s') h (<[i := TNode p (leaves a attrs (S l))]> ts) /\
     evolves (tabs s) (tabs s') (tfp (S (S l)) h ts) (tfp (S (S l)) h (<[i := TNode p (leaves a attrs (S l))]> ts))).
Proof.
  intros Hl Hrep Ht Hpg. destruct (trep_lookup _ _ _ _ _ _ _ i _ Hrep Ht) as (es & e & Hh & Hlen & He & Hr).
  pose proof (rep_leafness _ _ _ _ Hr) as (_ & _ & Ea & Eat). destruct Hr as (_ & _ & Hlf & Hb & Hat).
  unfold mam_expand_leaf_entry. rewrite (rd_entry_ok s h es i e) by done. rewrite bind_Ok.
  rewrite Ea, Eat. clear Ea Eat.
  destruct (create_spec s MAM_UNKNOWN_MAPPING (get_mam_entry_type e) Hpg) as (p & s1 & E & Hpg1 & Hp).
  rewrite E, bind_Ok. destruct Hp as [[-> Ht1]|(Hp0 & Hok & Hpd & es1 & Hlen1 & Ht1)].
  - exists false, 0, s1. split; [done|]. split; [done|]. by left.
  - destruct (Z.eqb_spec p 0); [done|]. cbn [mam_get_lower_level_ops pred Nat.eqb].
    set (s2 := mk_mstate (<[p := expanded a attrs (S l) K]> (tabs s1)) (pages s1)).
    assert (Ht2 : tabs s2 = <[p := expanded a attrs (S l) K]> (tabs s)) by (cbn [s2 tabs]; by rewrite Ht1, insert_insert_eq).
    assert (h <> p) as Hne by (intros ->; apply Hpd, elem_of_dom; eauto).
    assert (Hh2 : tabs s2 !! h = Some es) by (rewrite Ht2, lookup_insert_ne; done).
    rewrite (wr_entry_ok s2 h es i) by (done || (rewrite Hlen; apply lookup_lt_Some in He; lia)). rewrite bind_Ok.
    eexists true, p, _. split; [done|].
    assert (Hpg2 : pages_ok s2).
    { destruct Hpg1 as (X & Ho & Hd). exists X. split; [done|]. rewrite Ht2. rewrite Ht1 in Hd.
      rewrite dom_insert_L in *. done. }
    split; [by eapply upd_pages_ok|]. right. split; [done|].
    destruct (leaf_table l (tabs s2) p a attrs Hl Hlf Hb Hat) as [Hrp Hfp]; [rewrite Ht2; apply lookup_insert_eq|].
    destruct (law_inner (K := K) mam p (S (S l)) Hok Hinner) as [Hv Ho].
    eapply (node_step l s s2); eauto using fp_leaf.
Qed.

(** ** Retraction *)

Lemma can_be_leaf_ok l size a : mam_can_be_leaf_entry mam l size a K = true -> addr_ok a ->
  leaf_ok K l a /\ size = esz l.
Proof.
  intros H Ha. split; [split; [done|]|].
  - destruct K; try done. cbn [mam_can_be_leaf_entry] in H. unfold mam_can_be_leaf_page_table_entry in H.
    destruct (Nat.eqb_spec l 1); [by left|]. destruct (Nat.eqb_spec l 2) as [->|]; [right|done]. split; [done|].
    cbn [negb andb] in H. destruct (mam_get_size_covered_by_entry 2 =? size); [|done]. cbn [negb] in H. apply Z.eqb_eq in H.
    change PAGE_2MB_MASK with (Z.ones 21) in H. by rewrite Z.land_ones in H by lia.
  - destruct (Z.eqb_spec (esz l) size) as [|Hne]; [done|]. exfalso. apply Z.eqb_neq in Hne.
    destruct K; cbn [mam_can_be_leaf_entry] in H;
      unfold mam_can_be_leaf_page_table_entry, mam_can_be_super_page in H; rewrite Hne in H; cbn [negb] in H; try done.
    by destruct (negb (l =? 1)%nat && negb (l =? 2)%nat).
Qed.

Lemma can_be_leaf_1 size a : size = 4096 -> mam_can_be_leaf_entry mam 1 size a K = true.
Proof. intros ->. by destruct K. Qed.

Lemma retractable_spec l t present tgt attr reason es ts : Forall2 (rep l t) es ts ->
  forall idx, retractable K l present tgt attr reason idx es = true ->
  forall (j : nat) u, ts !! j = Some u ->
    u = if present then TLeaf (u64 (tgt + (idx + Z.of_nat j) * esz l)) attr else TInv reason.
Proof.
  induction 1 as [|e u es ts Hr Hes IH]; intros idx H j w Hj; [done|]. cbn [retractable] in H.
  pose proof (rep_leafness _ _ _ _ Hr) as Hleaf.
  assert (Hhead : u = (if present then TLeaf (u64 (tgt + idx * esz l)) attr else TInv reason) /\
    retractable K l present tgt attr reason (idx + 1) es = true).
  { destruct u as [r|a attrs|p ts'].
    - destruct Hleaf as (El & Ep & Er & _). rewrite El, Ep, Er in H. destruct present; [done|]. simpl in H.
      destruct (Z.eqb_spec r reason) as [->|]; done.
    - destruct Hleaf as (El & Ep & Ea & Et). rewrite El, Ep, Ea, Et in H. destruct present; [|done]. simpl in H.
      destruct (Z.eqb_spec a (u64 (tgt + idx * esz l))) as [->|]; [|done].
      destruct (Z.eqb_spec attrs attr) as [->|]; done.
    - destruct Hleaf as (El & Ep & _). rewrite El, orb_true_r in H. done. }
  destruct Hhead as [-> Hrest]. destruct j as [|j].
  - simpl in Hj. simplify_eq. by rewrite Z.add_0_r.
  - rewrite (IH (idx + 1) Hrest j w Hj). replace (idx + 1 + Z.of_nat j) with (idx + Z.of_nat (S j)) by lia. done.
Qed.

(** All the entries of a table that can be retracted. *)
Lemma retractable_table l t e0 rest t0 trest : (1 <= l)%nat -> rep l t e0 t0 -> Forall2 (rep l t) rest trest ->
  mam_is_leaf_entry e0 = true ->
  retractable K l (mam_is_entry_present e0 K) (mam_get_address_from_leaf_entry e0 l K)
    (mam_get_attributes_from_entry e0 l K) (invalid_reason e0) 1 rest = true -> (length rest < 512)%nat ->
  match t0 with
  | TInv r => forall (j : nat) u, (t0 :: trest) !! j = Some u -> u = TInv r
  | TLeaf a attrs => forall (j : nat) u, (t0 :: trest) !! j = Some u -> u = TLeaf (a + Z.of_nat j * esz l) attrs
  | TNode _ _ => False
  end.
Proof.
  intros Hl Hr Hrest Hlf H Hlen. pose proof (rep_leafness _ _ _ _ Hr) as Hleaf. destruct t0 as [r|a attrs|p ts'].
  - destruct Hleaf as (_ & Ep & Er & _). rewrite Ep, Er in H. intros [|j] u Hu; [by simplify_eq/=|].
    exact (retractable_spec _ _ _ _ _ _ _ _ Hrest 1 H j u Hu).
  - destruct Hleaf as (_ & Ep & Ea & Et). rewrite Ep, Ea, Et in H. intros [|j] u Hu.
    + simplify_eq/=. f_equal. lia.
    + rewrite (retractable_spec _ _ _ _ _ _ _ _ Hrest 1 H j u Hu). apply lookup_lt_Some in Hu. simpl in Hu.
      rewrite <- (Forall2_length _ _ _ Hrest) in Hu.
      assert (0 <= a /\ a + esz l <= 2 ^ 40) as [Ha Hb].
      { destruct l; [lia|]. destruct Hr as (_ & _ & [[[? _] _] _] & ? & _). lia. }
      pose proof (esz_pos l). pose proof (esz_le l). f_equal. rewrite u64_small by nia. lia.
  - destruct Hleaf as [E _]. congruence.
Qed.

Definition entry_result (l : nat) (s s' : mstate A) (h : Z) (ts : list tree) (i : nat) (t' : tree) : Prop :=
  pages_ok s' /\ trep l (tabs s') h (<[i := t']> ts) /\
  evolves (tabs s) (tabs s') (tfp l h ts) (tfp l h (<[i := t']> ts)).

Lemma no_change l s h ts (i : nat) t : pages_ok s -> trep l (tabs s) h ts -> ts !! i = Some t ->
  entry_result l s s h ts i t.
Proof. intros Hpg Hrep Ht. unfold entry_result. rewrite list_insert_id by done. split_and!; [done..|apply evolves_refl]. Qed.

(** The inner entry is overwritten by one without a table. *)
Lemma replace_node l (s : mstate A) h ts (i : nat) es e' p ts0 t' : level_ok (S (S l)) ->
  trep (S (S l)) (tabs s) h ts -> ts !! i = Some (TNode p ts0) -> tabs s !! h = Some es -> pages_ok s ->
  (forall t, rep (S (S l)) t e' t') -> fp (S (S l)) t' = ∅ ->
  exists s', destroy hpa_to_hva (upd_entry s h es i e') p = Ok s' /\ entry_result (S (S l)) s s' h ts i t'.
Proof.
  intros Hl Hrep Ht Hh Hpg Hr' Hf.
  destruct (detach l s h ts i es e' p ts0 Hl Hrep Ht Hh Hpg) as (s' & E & Hpg' & Hh' & Hev).
  exists s'. split; [done|]. split; [done|].
  eapply (entry_step _ _ _ (S (S l)) (tabs s) (tabs s') h ts i es e' _ t'); [done..| |done|apply Hr'|by rewrite Hf].
  by rewrite Hf, union_empty_r_L.
Qed.

Lemma retract_spec l (s : mstate A) h ts (i : nat) p ts0 : level_ok (S (S l)) ->
  trep (S (S l)) (tabs s) h ts -> ts !! i = Some (TNode p ts0) -> pages_ok s ->
  exists s' t',
    mam_try_to_retract_inner_entry_to_leaf hpa_to_hva mam s h (Z.of_nat i) (S (S l)) K = Ok s' /\
    entry_result (S (S l)) s s' h ts i t' /\
    forall x, 0 <= x < esz (S (S l)) -> den (S (S l)) t' x = den (S (S l)) (TNode p ts0) x.
Proof.
  intros Hl Hrep Ht Hpg. destruct (trep_lookup _ _ _ _ _ _ _ i _ Hrep Ht) as (es & e & Hh & Hlen & He & Hr).
  pose proof (rep_leafness _ _ _ _ Hr) as (_ & _ & Etab). apply rep_node in Hr as (_ & _ & _ & Hrp).
  pose proof Hrp as (es0 & Hp & Hlen0 & Hes0 & _).
  assert (Hi : (i < length es)%nat) by by eapply lookup_lt_Some.
  unfold mam_try_to_retract_inner_entry_to_leaf. rewrite (rd_entry_ok s h es i e) by done. rewrite bind_Ok, Etab, Hp.
  pose proof (no_change _ s h ts i _ Hpg Hrep Ht) as Hsame.
  destruct Hes0 as [|e0 t0 rest trest Hr0 Hrest]; [done|]. cbn [mam_get_lower_level_ops pred].
  simpl in Hlen0. apply Nat.succ_inj in Hlen0.
  destruct (mam_is_entry_present e0 K && _) eqn:E1; [exists s, (TNode p (t0 :: trest)); by split_and!|].
  destruct (negb (retractable _ _ _ _ _ _ _ _)) eqn:E2; [exists s, (TNode p (t0 :: trest)); by split_and!|].
  apply negb_false_iff in E2. rewrite (wr_entry_ok s h es i) by done. rewrite bind_Ok.
  pose proof (Forall2_length _ _ _ Hrest) as Hlen1.
  assert (Hlf : mam_is_leaf_entry e0 = true).
  { pose proof (rep_leafness _ _ _ _ Hr0) as Hleaf. destruct t0; try apply Hleaf.
    destruct Hleaf as (Ef & Ep & _). rewrite Ef, Ep in E1. done. }
  pose proof (retractable_table (S l) _ e0 rest t0 trest ltac:(lia) Hr0 Hrest Hlf E2 ltac:(lia)) as Hall.
  pose proof (rep_leafness _ _ _ _ Hr0) as Hleaf. destruct t0 as [r|a attrs|]; [| |done].
  - destruct Hleaf as (_ & Ep & Er & _). rewrite Ep, Er. destruct Hr0 as (_ & _ & Hrr & _).
    destruct (replace_node l s h ts i es (mam_invalidate_entry e r (mam_get_leaf_entry_type K)) p _ (TInv r) Hl Hrep Ht Hh Hpg)
      as (s' & E & Hres); [intros; by apply invalid_rep|done|].
    exists s', (TInv r). split_and!; [done..|]. intros x Hx. symmetry. apply node_of_invalid; [done..|simpl; lia].
  - destruct Hleaf as (_ & Ep & Ea & Et). rewrite Ep, Ea, Et in *. cbn [andb] in E1.
    apply orb_false_iff in E1 as [_ E1%negb_false_iff]. destruct Hr0 as (_ & _ & [Ha _] & Hb & Hat).
    destruct (can_be_leaf_ok _ _ _ E1 Ha) as [Hlfok _].
    assert (Hb' : a + esz (S (S l)) <= 2 ^ 40).
    { destruct (lookup_lt_is_Some_2 trest 510%nat ltac:(lia)) as [u Hu]. pose proof (Hall 511%nat u Hu) as ->.
      apply Forall2_lookup_r with (i := 510%nat) (y := TLeaf (a + Z.of_nat 511 * esz (S l)) attrs) in Hrest
        as (e1 & _ & Hr1); [|done]. destruct Hr1 as (_ & _ & _ & Hb1 & _). rewrite esz_S by done. lia. }
    destruct (replace_node l s h ts i es (mam_update_leaf_entry a attrs (S (S l)) K) p _ (TLeaf a attrs) Hl Hrep Ht Hh Hpg)
      as (s' & E & Hres); [intros; by apply leaf_rep|done|].
    exists s', (TLeaf a attrs). split_and!; [done..|]. intros x Hx. symmetry. apply node_of_leaves; [done..|simpl; lia].
Qed.

(** * Operations on a range

    An operation applies [f] to the mapping of every address of the range; when it runs out of
    memory it stops, and what it has not reached is as before. *)

Definition updated_at (res inside : bool) (f : mapping -> mapping) (d d' : mapping) : Prop :=
  if inside then d' = f d \/ res = false /\ d' = d else d' = d.

Definition in_rng (src size y : Z) : bool := (src <=? y) && (y <? src + size).

Lemma in_rng_spec src size y : in_rng src size y = true <-> src <= y < src + size.
Proof. unfold in_rng. rewrite andb_true_iff, Z.leb_le, Z.ltb_lt. done. Qed.

Lemma in_rng_false src size y : in_rng src size y = false <-> ~ (src <= y < src + size).
Proof. rewrite <- in_rng_spec. destruct (in_rng src size y); naive_solver. Qed.

Lemma tden_insert l ts (i : nat) t' x : (i < length ts)%nat -> 
  tden l (<[i := t']> ts) x = if decide (Z.to_nat (x / esz l) = i) then den l t' (x mod esz l) else tden l ts x.
Proof.
  intros Hi. unfold tden. destruct (decide (Z.to_nat (x / esz l) = i)) as [->|Hne].
  - by rewrite list_lookup_insert_eq.
  - by rewrite list_lookup_insert_ne by done.
Qed.

Section Ranges.
(** The effect at an address, and what holds of a range and its target. *)
Context (f : Z -> mapping -> mapping) (okr : Z -> Z -> Z -> Prop).
Hypothesis okr_prefix : forall src tgt size n, okr src tgt size -> 0 < n <= size -> n mod 4096 = 0 -> okr src tgt n.
Hypothesis okr_suffix : forall src tgt size n, okr src tgt size -> 0 < n < size -> n mod 4096 = 0 ->
  okr (src + n) (u64 (tgt + n)) (size - n).

Definition entry_spec (l : nat) (h : Z) (body : Z -> Z -> Z -> Z -> Z -> mstate A -> outcome (bool * mstate A)) : Prop :=
  forall s ts (i : nat) t first src tgt n,
    trep l (tabs s) h ts -> pages_ok s -> ts !! i = Some t ->
    0 <= first -> first mod esz l = 0 -> first + esz l <= 2 ^ 48 ->
    first <= src -> 0 < n -> src + n <= first + esz l -> src mod 4096 = 0 -> n mod 4096 = 0 -> okr src tgt n ->
    exists res s' t', body (Z.of_nat i) first src tgt n s = Ok (res, s') /\ entry_result l s s' h ts i t' /\
      forall x, 0 <= x < esz l -> updated_at res (in_rng src n (first + x)) (f (first + x)) (den l t x) (den l t' x).

Definition table_spec (l : nat) (op : mstate A -> Z -> Z -> Z -> Z -> Z -> outcome (bool * mstate A)) : Prop :=
  forall s h ts first src tgt size,
    trep l (tabs s) h ts -> pages_ok s ->
    0 <= first -> first mod (512 * esz l) = 0 -> first + 512 * esz l <= 2 ^ 48 ->
    first <= src -> 0 < size -> src + size <= first + 512 * esz l -> src mod 4096 = 0 -> size mod 4096 = 0 ->
    okr src tgt size ->
    exists res s' ts', op s h first src tgt size = Ok (res, s') /\ pages_ok s' /\ trep l (tabs s') h ts' /\
      evolves (tabs s) (tabs s') (tfp l h ts) (tfp l h ts') /\
      forall y, 0 <= y < 512 * esz l ->
        updated_at res (in_rng src size (first + y)) (f (first + y)) (tden l ts y) (tden l ts' y).

(** The arithmetic of one iteration. *)
Lemma entry_of l y (c : nat) : 0 <= y -> Z.to_nat (y / esz l) = c <-> Z.of_nat c * esz l <= y < (Z.of_nat c + 1) * esz l.
Proof.
  intros Hy. pose proof (esz_pos l). pose proof (Z.div_mod y (esz l) ltac:(lia)).
  pose proof (Z.mod_pos_bound y (esz l) ltac:(lia)). assert (0 <= y / esz l) by (apply Z.div_pos; lia). split.
  - intros <-. rewrite Z2Nat.id by lia. nia.
  - intros H'. assert (y / esz l = Z.of_nat c); [|lia]. symmetry. apply (Z.div_unique_pos y (esz l) _ (y - Z.of_nat c * esz l)); lia.
Qed.

Lemma offset_in l y (c : nat) : 0 <= y -> Z.to_nat (y / esz l) = c ->
  0 <= y mod esz l < esz l /\ y = Z.of_nat c * esz l + y mod esz l.
Proof.
  intros Hy Hc. pose proof (esz_pos l). pose proof (Z.div_mod y (esz l) ltac:(lia)).
  pose proof (Z.mod_pos_bound y (esz l) ltac:(lia)). assert (0 <= y / esz l) by (apply Z.div_pos; lia).
  assert (y / esz l = Z.of_nat c) by lia. split; [lia|]. nia.
Qed.

(** The effect of one entry's step on the table. *)
Lemma entry_effect l ts (c : nat) t t' first src n res : ts !! c = Some t -> 
  (forall x, 0 <= x < esz l -> updated_at res (in_rng src n (first + Z.of_nat c * esz l + x))
     (f (first + Z.of_nat c * esz l + x)) (den l t x) (den l t' x)) ->
  first + Z.of_nat c * esz l <= src -> src + n <= first + (Z.of_nat c + 1) * esz l ->
  forall y, 0 <= y -> updated_at res (in_rng src n (first + y)) (f (first + y)) (tden l ts y) (tden l (<[c := t']> ts) y).
Proof.
  intros Ht Hx Hs Hn y Hy. rewrite tden_insert by by eapply lookup_lt_Some.
  destruct (decide (Z.to_nat (y / esz l) = c)) as [Hc|Hc].
  - destruct (offset_in l y c Hy Hc) as [Hm Ey]. specialize (Hx _ Hm).
    replace (first + Z.of_nat c * esz l + y mod esz l) with (first + y) in Hx by lia.
    unfold tden. by rewrite Hc, Ht.
  - rewrite entry_of in Hc by done. assert (in_rng src n (first + y) = false) as ->; [|done].
    apply in_rng_false. lia.
Qed.

Lemma updated_then res1 res2 in1 in2 g d d1 d2 : updated_at res1 in1 g d d1 -> res1 = true -> updated_at res2 in2 g d1 d2 ->
  (in1 = true -> in2 = false) -> updated_at res2 (in1 || in2) g d d2.
Proof. unfold updated_at. destruct in1, in2; simpl; naive_solver. Qed.

Lemma loop_spec l h body first : level_ok l -> entry_spec l h body ->
  0 <= first -> first mod (512 * esz l) = 0 -> first + 512 * esz l <= 2 ^ 48 ->
  forall (n c : nat) s ts src tgt rem,
    trep l (tabs s) h ts -> pages_ok s -> (c + n <= 512)%nat -> (1 <= n)%nat ->
    first + Z.of_nat c * esz l <= src < first + (Z.of_nat c + 1) * esz l -> 0 < rem ->
    first + (Z.of_nat c + Z.of_nat n - 1) * esz l < src + rem <= first + (Z.of_nat c + Z.of_nat n) * esz l ->
    src mod 4096 = 0 -> rem mod 4096 = 0 -> okr src tgt rem ->
    exists res s' ts', entries_loop n body (esz l) (Z.of_nat c) (first + Z.of_nat c * esz l) src tgt rem s = Ok (res, s') /\
      pages_ok s' /\ trep l (tabs s') h ts' /\ evolves (tabs s) (tabs s') (tfp l h ts) (tfp l h ts') /\
      forall y, 0 <= y < 512 * esz l ->
        updated_at res (in_rng src rem (first + y)) (f (first + y)) (tden l ts y) (tden l ts' y).
Proof using okr_prefix okr_suffix.
  intros Hl Hbody H0 Hf0 Hmax. pose proof (esz_pos l) as Hpos. destruct (esz_page l) as (kp & Hkp & Ekp).
  induction n as [|n IH]; intros c s ts src tgt rem Hrep Hpg Hcn Hn1 Hsrc Hrem Hend Ha Hra Hok; [lia|].
  pose proof (trep_length _ _ _ _ _ _ _ Hrep) as Hlts.
  destruct (lookup_lt_is_Some_2 ts c ltac:(lia)) as [t Ht]. cbn [entries_loop].
  assert (HcE : 0 <= Z.of_nat c * esz l) by (clear - Hpos; lia).
  assert (HnE : (Z.of_nat c + Z.of_nat (S n)) * esz l <= 512 * esz l).
  { clear - Hpos Hcn. apply Z.mul_le_mono_nonneg_r; lia. }
  assert (Hn0 : 0 <= Z.of_nat n * esz l) by (clear - Hpos; lia).
  set (ef := first + Z.of_nat c * esz l) in *.
  assert (Hef : ef + esz l <= 2 ^ 48) by lia.
  assert (Hefm : ef mod esz l = 0).
  { unfold ef. rewrite Z.mod_add by lia. apply Z.mod_divide in Hf0 as [q ->]; [|lia].
    replace (q * (512 * esz l)) with (q * 512 * esz l) by lia. apply Z.mod_mul. lia. }
  rewrite (u64_small (ef + esz l)) by lia. rewrite (u64_small (ef + esz l - src)) by lia.
  set (size := if ef + esz l - src <? rem then ef + esz l - src else rem).
  assert (Hsz : size = Z.min rem (ef + esz l - src)) by (unfold size; zcases; lia).
  assert (Hsm : size mod 4096 = 0).
  { rewrite Hsz. destruct (Z.min_spec rem (ef + esz l - src)) as [[_ ->]|[_ ->]]; [done|].
    assert (ef mod 4096 = 0); [|lia]. apply Z.mod_divide in Hefm as [q Eq]; [|lia].
    rewrite Eq, Ekp. replace (q * (kp * 4096)) with (q * kp * 4096) by lia. apply Z.mod_mul. lia. }
  destruct (Hbody s ts c t ef src tgt size Hrep Hpg Ht) as (res & s1 & t' & E & (Hpg1 & Hrep1 & Hev1) & Hd);
    [lia|done|lia|lia|lia|lia|done|done|apply (okr_prefix _ _ rem); [done|lia|done]|].
  rewrite E, bind_Ok.
  pose proof (entry_effect l ts c t t' first src size res Ht Hd ltac:(lia) ltac:(lia)) as Heff.
  destruct res; cbn [negb].
  2:{ exists false, s1, (<[c := t']> ts). split_and!; [done..|]. intros y Hy. specialize (Heff y ltac:(lia)).
      unfold updated_at in *. destruct (in_rng src rem (first + y)) eqn:E1, (in_rng src size (first + y)) eqn:E2; [done|by right| |done].
      apply in_rng_spec in E2. apply in_rng_false in E1. lia. }
  destruct (decide (n = 0%nat)) as [->|Hn].
  - assert (size = rem) as Hsr by lia. rewrite Hsr in Heff.
    exists true, s1, (<[c := t']> ts). cbn [entries_loop]. split_and!; [done..|]. intros y Hy. apply Heff. lia.
  - assert (Hn2 : esz l <= Z.of_nat n * esz l).
    { clear - Hpos Hn. pose proof (Z.mul_le_mono_nonneg_r 1 (Z.of_nat n) (esz l)). lia. }
    assert (Hfull : size = ef + esz l - src) by lia.
    replace (Z.of_nat c + 1) with (Z.of_nat (S c)) by lia.
    replace (ef + esz l) with (first + Z.of_nat (S c) * esz l) in * by (unfold ef; lia).
    rewrite (u64_small (src + size)) by lia. rewrite (u64_small (rem - size)) by lia.
    destruct (IH (S c) s1 (<[c := t']> ts) (src + size) (u64 (tgt + size)) (rem - size)) as (res & s2 & ts2 & E2 & Hpg2 & Hrep2 & Hev2 & Heff2);
      [done|done|lia|lia|lia|lia|lia|lia|lia|apply okr_suffix; [done|lia|done]|].
    exists res, s2, ts2. split; [done|]. split; [done|]. split; [done|]. split; [by eapply evolves_trans|].
    intros y Hy. specialize (Heff y ltac:(lia)). specialize (Heff2 y ltac:(lia)).
    assert (in_rng src rem (first + y) = in_rng src size (first + y) || in_rng (src + size) (rem - size) (first + y)) as ->.
    { apply eq_true_iff_eq. rewrite orb_true_iff, !in_rng_spec. lia. }
    eapply updated_then; [exact Heff|done|exact Heff2|]. rewrite in_rng_spec, in_rng_false. lia.
Qed.

Lemma range_spec l (body : Z -> MAM_ENTRY_OPS -> Z -> Z -> Z -> Z -> Z -> mstate A -> outcome (bool * mstate A)) :
  level_ok l -> (forall h, entry_spec l h (body h K)) ->
  table_spec l (fun s h first src tgt size => over_range (body h) l s h first src tgt size).
Proof using okr_prefix okr_suffix.
  intros Hl Hbody s h ts first src tgt size Hrep Hpg H0 Hf Hmax Hs Hsz He Ha Hsa Hok.
  pose proof (esz_pos l) as Hpos. pose proof (trep_length _ _ _ _ _ _ _ Hrep) as Hlts.
  destruct (lookup_lt_is_Some_2 ts 0%nat ltac:(lia)) as [t0 Ht0].
  destruct (trep_lookup _ _ _ _ _ _ _ 0%nat t0 Hrep Ht0) as (es & e0 & Hh & _ & He0 & Hr0).
  unfold over_range. assert (rd_entry s h 0 = Ok e0) as -> by by apply (rd_entry_ok s h es 0%nat).
  rewrite bind_Ok, (rep_ops _ _ _ _ _ _ _ Hr0).
  rewrite (u64_small (src + size)) by lia. rewrite (u64_small (src + size - 1)) by lia.
  rewrite !(index_at l first) by (done || lia).
  set (c := (src - first) / esz l). set (d := (src + size - 1 - first) / esz l).
  assert (Hc : 0 <= c /\ c * esz l <= src - first < (c + 1) * esz l).
  { pose proof (Z.div_mod (src - first) (esz l) ltac:(lia)). pose proof (Z.mod_pos_bound (src - first) (esz l) ltac:(lia)).
    fold c in H. split; [apply Z.div_pos; lia|nia]. }
  assert (Hd : d < 512 /\ d * esz l <= src + size - 1 - first < (d + 1) * esz l).
  { pose proof (Z.div_mod (src + size - 1 - first) (esz l) ltac:(lia)).
    pose proof (Z.mod_pos_bound (src + size - 1 - first) (esz l) ltac:(lia)). fold d in H.
    split; [apply Z.div_lt_upper_bound; lia|nia]. }
  assert (c <= d) as Hcd by nia.
  rewrite (u64_small (first + c * esz l)) by nia.
  destruct (loop_spec l h (body h K) first Hl (Hbody h) H0 Hf Hmax (Z.to_nat (d - c + 1)) (Z.to_nat c) s ts src tgt size)
    as (res & s' & ts' & E & Hpg' & Hrep' & Hev & Heff); [done|done|lia|lia|rewrite !Z2Nat.id by lia; nia|done|rewrite !Z2Nat.id by lia; nia|done..|].
  rewrite !Z2Nat.id in E by lia. exists res, s', ts'. by split_and!.
Qed.
End Ranges.

(** * The steps the operations share *)

Lemma entry_result_trans l s s1 s2 h ts (i : nat) t1 t2 : (i < length ts)%nat ->
  entry_result l s s1 h ts i t1 -> entry_result l s1 s2 h (<[i := t1]> ts) i t2 -> entry_result l s s2 h ts i t2.
Proof.
  intros Hi (_ & _ & Hev1) (Hpg & Hrep & Hev2). rewrite list_insert_insert_eq in *.
  split_and!; [done..|]. by eapply evolves_trans.
Qed.

(** What a step has to achieve for the part of the range in its entry. *)
Definition step_post (f : Z -> mapping -> mapping) (l : nat) (s : mstate A) (h : Z) (ts : list tree) (i : nat) (t : tree)
  (first src n : Z) (o : outcome (bool * mstate A)) : Prop :=
  exists res s' t', o = Ok (res, s') /\ entry_result l s s' h ts i t' /\
    forall x, 0 <= x < esz l -> updated_at res (in_rng src n (first + x)) (f (first + x)) (den l t x) (den l t' x).

Lemma step_fail f l s s' h ts (i : nat) t first src n : ts !! i = Some t -> trep l (tabs s) h ts -> pages_ok s' ->
  tabs s' = tabs s -> step_post f l s h ts i t first src n (Ok (false, s')).
Proof.
  intros Ht Hrep Hpg E. exists false, s', t. split; [done|]. split.
  - split; [done|]. rewrite E, list_insert_id by done. split; [done|apply evolves_refl].
  - intros x _. unfold updated_at. destruct (in_rng _ _ _); [by right|done].
Qed.

Section Rec.
Context (f : Z -> mapping -> mapping) (okr : Z -> Z -> Z -> Prop) (l : nat).
Context (rec : mstate A -> Z -> Z -> Z -> Z -> Z -> outcome (bool * mstate A)).
Hypothesis Hl : level_ok (S (S l)).
Hypothesis Hrec : table_spec f okr (S l) rec.
Context (h : Z) (ts : list tree) (i : nat) (first src tgt n : Z).
Hypothesis Hfirst : 0 <= first /\ first mod esz (S (S l)) = 0 /\ first + esz (S (S l)) <= 2 ^ 48.
Hypothesis Hrange : first <= src /\ 0 < n /\ src + n <= first + esz (S (S l)) /\ src mod 4096 = 0 /\ n mod 4096 = 0 /\
  okr src tgt n.

(** The table below has been updated, after the entry was changed without effect. *)
Lemma rec_step s t s1 p ts0 : ts !! i = Some t -> pages_ok s1 ->
  entry_result (S (S l)) s s1 h ts i (TNode p ts0) ->
  (forall x, 0 <= x < esz (S (S l)) -> den (S (S l)) (TNode p ts0) x = den (S (S l)) t x) ->
  exists res s2 ts2, rec s1 p first src tgt n = Ok (res, s2) /\
    entry_result (S (S l)) s s2 h ts i (TNode p ts2) /\
    forall x, 0 <= x < esz (S (S l)) -> updated_at res (in_rng src n (first + x)) (f (first + x))
      (den (S (S l)) t x) (den (S (S l)) (TNode p ts2) x).
Proof using Hl Hrec Hfirst Hrange.
  intros Ht Hpg1 Hres Hden. destruct Hfirst as (H0 & Hm & Hmax), Hrange as (Hs & Hn & He & Ha & Hna & Hok).
  assert (Hi : (i < length ts)%nat) by by eapply lookup_lt_Some.
  pose proof Hres as (_ & Hrep1 & _).
  assert (Ht1 : <[i := TNode p ts0]> ts !! i = Some (TNode p ts0)) by by rewrite list_lookup_insert_eq.
  destruct (trep_lookup _ _ _ _ _ _ _ i _ Hrep1 Ht1) as (es & e & _ & _ & _ & Hr).
  apply rep_node in Hr as (_ & _ & _ & Hrp). pose proof (esz_S l Hl) as Esz. rewrite Esz in *.
  destruct (Hrec s1 p ts0 first src tgt n Hrp Hpg1) as (res & s2 & ts2 & E & Hpg2 & Hrp2 & Hev2 & Heff); [done..|].
  exists res, s2, ts2. split; [done|].
  destruct (below_step l (tabs s1) (tabs s2) h _ i p ts0 ts2 Hrep1 Ht1 Hev2 Hrp2) as [Hrep2 Hev].
  split; [by eapply entry_result_trans; [done|exact Hres|]|].
  intros x Hx. rewrite <- Hden by done. apply Heff. done.
Qed.

Lemma rec_post s t s1 p ts0 : ts !! i = Some t -> pages_ok s1 ->
  entry_result (S (S l)) s s1 h ts i (TNode p ts0) ->
  (forall x, 0 <= x < esz (S (S l)) -> den (S (S l)) (TNode p ts0) x = den (S (S l)) t x) ->
  step_post f (S (S l)) s h ts i t first src n (rec s1 p first src tgt n).
Proof using Hl Hrec Hfirst Hrange.
  intros Ht Hpg1 Hres Hden. destruct (rec_step s t s1 p ts0 Ht Hpg1 Hres Hden) as (res & s2 & ts2 & E & H1 & H2).
  exists res, s2, (TNode p ts2). by split_and!.
Qed.

(** An inner entry: the table below is updated, then retracted if possible. *)
Lemma inner_post s p ts0 : trep (S (S l)) (tabs s) h ts -> pages_ok s -> ts !! i = Some (TNode p ts0) ->
  step_post f (S (S l)) s h ts i (TNode p ts0) first src n
    (r ← rec s p first src tgt n; retract_if hpa_to_hva true mam h (Z.of_nat i) (S (S l)) K r).
Proof using Hl Hrec Hfirst Hrange Hinner PagesLaws0 EntryLaws0.
  intros Hrep Hpg Ht. assert (Hi : (i < length ts)%nat) by by eapply lookup_lt_Some.
  destruct (rec_step s _ s p ts0 Ht Hpg (no_change _ s h ts i _ Hpg Hrep Ht)) as (res & s2 & ts2 & E & Hres & Heff);
    [done|]. rewrite E, bind_Ok. unfold retract_if. destruct res; cbn [andb].
  - pose proof Hres as (Hpg2 & Hrep2 & _).
    destruct (retract_spec l s2 h _ i p ts2 Hl Hrep2) as (s3 & t3 & E3 & Hres3 & Hden); [by rewrite list_lookup_insert_eq|done|].
    rewrite E3, bind_Ok. exists true, s3, t3. split; [done|]. split; [by eapply entry_result_trans|].
    intros x Hx. rewrite Hden by done. by apply Heff.
  - exists false, s2, (TNode p ts2). by split_and!.
Qed.

(** A leaf that is expanded first. *)
Lemma expand_post s a attrs : trep (S (S l)) (tabs s) h ts -> pages_ok s -> ts !! i = Some (TLeaf a attrs) ->
  step_post f (S (S l)) s h ts i (TLeaf a attrs) first src n
    (r ← mam_expand_leaf_entry hva_to_hpa mam s h (Z.of_nat i) (S (S l)) K;
     let '(res, lower_level_table, s) := r in
     if negb (res : bool) then Ok (false, s) else rec s lower_level_table first src tgt n).
Proof using Hl Hrec Hfirst Hrange Hinner PagesLaws0 EntryLaws0.
  intros Hrep Hpg Ht. destruct (expand_spec l s h ts i a attrs Hl Hrep Ht Hpg) as (res & p & s1 & E & Hpg1 & Hor).
  rewrite E, bind_Ok. destruct Hor as [[-> Es]|(-> & Hrep1 & Hev)]; cbn [negb].
  - by apply step_fail.
  - apply (rec_post s _ s1 p (leaves a attrs (S l))); [done..|]. intros x Hx.
    rewrite (node_of_leaves l p _ a attrs x Hl Hx); [done| |unfold leaves; by rewrite length_fmap, length_seqZ].
    intros j u Hu. by apply leaves_lookup in Hu as [_ ->].
Qed.

(** An invalid entry below which a table is created first. *)
Lemma create_post s e es r : trep (S (S l)) (tabs s) h ts -> pages_ok s -> ts !! i = Some (TInv r) ->
  tabs s !! h = Some es -> es !! i = Some e -> rep (S (S l)) (tabs s) e (TInv r) ->
  step_post f (S (S l)) s h ts i (TInv r) first src n
    (w ← mam_create_table s (invalid_reason e) (get_mam_entry_type e);
     let '(lower_level_table, s) := w in
     if lower_level_table =? 0 then Ok (false, s)
     else
       s ← wr_entry s h (Z.of_nat i) (mam_update_inner_level_entry hva_to_hpa mam lower_level_table (S (S l)) K);
       rec s lower_level_table first src tgt n).
Proof using Hl Hrec Hfirst Hrange Hinner PagesLaws0 EntryLaws0.
  intros Hrep Hpg Ht Hh He Hr. pose proof (rep_leafness _ _ _ _ Hr) as (_ & _ & -> & ->).
  destruct Hr as (_ & _ & Hrr & _).
  destruct (create_spec s r (mam_get_leaf_entry_type K) Hpg) as (p & s1 & E & Hpg1 & Hp).
  rewrite E, bind_Ok. destruct Hp as [[-> Es]|(Hp0 & Hok & Hpd & es1 & Hlen1 & Es)].
  - by apply step_fail.
  - destruct (Z.eqb_spec p 0); [done|].
    assert (h <> p) as Hne by (intros ->; apply Hpd, elem_of_dom; eauto).
    assert (Hh1 : tabs s1 !! h = Some es) by (rewrite Es, lookup_insert_ne; done).
    assert (Hi : (i < length es)%nat) by by eapply lookup_lt_Some.
    rewrite (wr_entry_ok s1 h es i) by done. rewrite bind_Ok.
    destruct (law_inner (K := K) mam p (S (S l)) Hok Hinner) as [Hv Ho].
    destruct (invalid_table (S l) (tabs s1) p es1 r Hrr Hlen1) as [Hrp Hfp]; [rewrite Es; apply lookup_insert_eq|].
    apply (rec_post s _ _ p (replicate 512 (TInv r))); [done|by eapply upd_pages_ok| |].
    + split; [by eapply upd_pages_ok|]. eapply (node_step l s s1); eauto using fp_inv.
    + intros x Hx. rewrite (node_of_invalid l p _ r x Hl Hx); [done| |by rewrite length_replicate].
      intros j u Hu. by apply lookup_replicate in Hu as [-> _].
Qed.
End Rec.

(** * Overwriting *)

Lemma whole_entry first src n l : first <= src -> src + n <= first + esz l -> n = esz l -> src = first.
Proof. lia. Qed.

(** A range of whole pages covers an entry of level 1. *)
Lemma level1_whole n src first : 0 < n -> n mod 4096 = 0 -> first <= src -> src + n <= first + esz 1 -> n = 4096.
Proof. unfold mam_get_size_covered_by_entry, PAGE_4KB_SIZE. intros. lia. Qed.

Lemma den_leaf_whole l f a attrs t first src n : src = first -> n = esz l ->
  (forall x, 0 <= x < esz l -> f (first + x) (den l t x) = Mapped (a + x) attrs) ->
  forall x, 0 <= x < esz l -> updated_at true (in_rng src n (first + x)) (f (first + x)) (den l t x) (den l (TLeaf a attrs) x).
Proof.
  intros -> -> Hf x Hx. assert (in_rng first (esz l) (first + x) = true) as -> by (apply in_rng_spec; lia).
  left. rewrite Hf by done. by destruct l.
Qed.

Lemma den_inv_whole l f r t first src n : src = first -> n = esz l ->
  (forall x, 0 <= x < esz l -> f (first + x) (den l t x) = Unmapped r) ->
  forall x, 0 <= x < esz l -> updated_at true (in_rng src n (first + x)) (f (first + x)) (den l t x) (den l (TInv r) x).
Proof.
  intros -> -> Hf x Hx. assert (in_rng first (esz l) (first + x) = true) as -> by (apply in_rng_spec; lia).
  left. rewrite Hf by done. by destruct l.
Qed.

(** The entry is rewritten without a table below. *)
Lemma plain_post f l s h ts (i : nat) es e' t t' first src n :
  trep l (tabs s) h ts -> pages_ok s -> ts !! i = Some t -> tabs s !! h = Some es -> fp l t = ∅ -> fp l t' = ∅ ->
  (forall m, rep l m e' t') ->
  (forall x, 0 <= x < esz l -> updated_at true (in_rng src n (first + x)) (f (first + x)) (den l t x) (den l t' x)) ->
  step_post f l s h ts i t first src n (s ← wr_entry s h (Z.of_nat i) e'; Ok (true, s)).
Proof.
  intros Hrep Hpg Ht Hh Hf Hf' Hr' Heff.
  destruct (trep_lookup _ _ _ _ _ _ _ i _ Hrep Ht) as (es' & e & Hh' & _ & He & _).
  assert (es' = es) as -> by congruence.
  rewrite (wr_entry_ok s h es i) by (done || by eapply lookup_lt_Some). rewrite bind_Ok.
  exists true, (upd_entry s h es i e'), t'. split; [done|]. split; [|done].
  split; [by eapply upd_pages_ok|]. by eapply write_step.
Qed.

(** The inner entry is replaced by an entry without a table; in between it may hold [e1]. *)
Lemma detached_result l s s1 h ts (i : nat) es e1 e' p ts0 t' : level_ok (S (S l)) ->
  trep (S (S l)) (tabs s) h ts -> ts !! i = Some (TNode p ts0) -> tabs s !! h = Some es -> pages_ok s1 ->
  tabs s1 !! h = Some (<[i := e1]> es) ->
  evolves (tabs s) (tabs s1) ({[h]} ∪ fp (S (S l)) (TNode p ts0)) {[h]} ->
  (forall m, rep (S (S l)) m e' t') -> fp (S (S l)) t' = ∅ ->
  exists s2, wr_entry s1 h (Z.of_nat i) e' = Ok s2 /\ entry_result (S (S l)) s s2 h ts i t'.
Proof.
  intros Hl Hrep Ht Hh Hpg1 Hh1 Hev Hr' Hf.
  destruct (trep_lookup _ _ _ _ _ _ _ i _ Hrep Ht) as (es' & e & Hh' & _ & He & _).
  assert (es' = es) as -> by congruence. assert (Hi : (i < length es)%nat) by by eapply lookup_lt_Some.
  rewrite (wr_entry_ok s1 h _ i e' Hh1) by (by rewrite length_insert). eexists. split; [done|].
  split; [by eapply upd_pages_ok|].
  eapply (entry_step _ _ _ (S (S l)) (tabs s) _ h ts i es e' _ t'); [done..| | |apply Hr'|by rewrite Hf].
  - rewrite Hf, union_empty_r_L. eapply evolves_trans; [exact Hev|]. apply evolves_upd, elem_of_singleton_2. done.
  - cbn [upd_entry tabs]. by rewrite lookup_insert_eq, list_insert_insert_eq.
Qed.

Section Overwrite.
Context (delta attrs : Z).
Hypothesis Hattrs : attr_ok K attrs.

(** The target is at a fixed distance, in the 40 bits of an entry. *)
Definition overwrite_ok (src tgt size : Z) : Prop :=
  tgt = src + delta /\ 0 <= tgt /\ tgt + size <= 2 ^ 40 /\ tgt mod 4096 = 0.
Definition overwrite_eff (y : Z) (_ : mapping) : mapping := Mapped (y + delta) attrs.

Lemma overwrite_prefix src tgt size n : overwrite_ok src tgt size -> 0 < n <= size -> n mod 4096 = 0 -> overwrite_ok src tgt n.
Proof. unfold overwrite_ok. intros (? & ? & ? & ?) ? ?. split_and!; lia. Qed.
Lemma overwrite_suffix src tgt size n : overwrite_ok src tgt size -> 0 < n < size -> n mod 4096 = 0 ->
  overwrite_ok (src + n) (u64 (tgt + n)) (size - n).
Proof. unfold overwrite_ok. intros (? & ? & ? & ?) ? ?. rewrite u64_small by lia. split_and!; lia. Qed.

Lemma overwrite_entry_spec l rec h : level_ok (S l) -> (l <> 0%nat -> table_spec overwrite_eff overwrite_ok l rec) ->
  entry_spec overwrite_eff overwrite_ok (S l) h
    (update_entry hva_to_hpa hpa_to_hva rec mam (S l) attrs MAM_OVERWRITE_ADDR_AND_ATTRS h K).
Proof using Hattrs Hinner PagesLaws0 EntryLaws0.
  intros Hl Hrec s ts i t first src tgt n Hrep Hpg Ht H0 Hm Hmax Hs Hn He Ha Hna Hok.
  destruct (trep_lookup _ _ _ _ _ _ _ i _ Hrep Ht) as (es & e & Hh & _ & Hei & Hr).
  unfold update_entry. rewrite (rd_entry_ok s h es i e) by done. rewrite bind_Ok. rewrite bool_decide_true by done.
  pose proof (rep_leafness _ _ _ _ Hr) as Hleaf.
  destruct (mam_can_be_leaf_entry mam (S l) n tgt K) eqn:Ecan.
  - destruct Hok as (Etgt & Ht0 & Htb & Htm).
    destruct (can_be_leaf_ok _ _ _ Ecan) as [Hlf Hsz]; [split; [lia|done]|].
    pose proof (whole_entry _ _ _ _ Hs He Hsz) as Hsf.
    assert (Hr' : forall m, rep (S l) m (mam_update_leaf_entry tgt attrs (S l) K) (TLeaf tgt attrs))
      by (intros; apply leaf_rep; [done|lia|done]).
    assert (Hd : forall x, 0 <= x < esz (S l) ->
      updated_at true (in_rng src n (first + x)) (overwrite_eff (first + x)) (den (S l) t x) (den (S l) (TLeaf tgt attrs) x)).
    { apply den_leaf_whole; [done..|]. intros x _. unfold overwrite_eff. f_equal. lia. }
    destruct t as [r|a0 at0|p ts0].
    + destruct Hleaf as (-> & -> & _). cbn [andb negb]. rewrite bind_Ok. eapply (plain_post _ _ _ _ _ _ _ _ _ (TLeaf tgt attrs)); eauto using fp_inv, fp_leaf.
    + destruct Hleaf as (-> & -> & _). cbn [andb negb]. rewrite bind_Ok. eapply (plain_post _ _ _ _ _ _ _ _ _ (TLeaf tgt attrs)); eauto using fp_inv, fp_leaf.
    + destruct Hleaf as (-> & -> & ->). cbn [andb negb].
      destruct l as [|l]; [by destruct Hr as (_ & _ & _ & [])|].
      rewrite (wr_entry_ok s h es i) by (done || by eapply lookup_lt_Some). rewrite bind_Ok.
      edestruct (detach l s h ts i es) as (s1 & E1 & Hpg1 & Hh1 & Hev1); [done..|]. rewrite E1, bind_Ok.
      destruct (detached_result l s s1 h ts i es _ _ p ts0 (TLeaf tgt attrs) Hl Hrep Ht Hh Hpg1 Hh1 Hev1 Hr')
        as (s2 & E2 & Hres); [done|]. rewrite E2, bind_Ok. exists true, s2, (TLeaf tgt attrs). by split_and!.
  - destruct l as [|l].
    { assert (n = 4096) as Hn1 by (by apply (level1_whole n src first)). by rewrite can_be_leaf_1 in Ecan. }
    specialize (Hrec ltac:(done)). destruct t as [r|a0 at0|p ts0].
    + destruct Hleaf as (_ & -> & _). cbn [negb]. eapply create_post; eauto; by split_and!.
    + destruct Hleaf as (-> & -> & _). cbn [negb]. eapply expand_post; eauto; by split_and!.
    + destruct Hleaf as (-> & -> & ->). cbn [negb]. eapply inner_post; eauto; by split_and!.
Qed.

Lemma overwrite_table_spec l : level_ok l ->
  table_spec overwrite_eff overwrite_ok l
    (mam_update_table hva_to_hpa hpa_to_hva l mam attrs MAM_OVERWRITE_ADDR_AND_ATTRS).
Proof using Hattrs Hinner PagesLaws0 EntryLaws0.
  induction l as [|l IH]; intros Hl; [by destruct Hl; lia|]. cbn [mam_update_table].
  apply (range_spec overwrite_eff overwrite_ok overwrite_prefix overwrite_suffix (S l)
    (fun h => update_entry hva_to_hpa hpa_to_hva
       (mam_update_table hva_to_hpa hpa_to_hva l mam attrs MAM_OVERWRITE_ADDR_AND_ATTRS) mam (S l) attrs
       MAM_OVERWRITE_ADDR_AND_ATTRS h)); [done|].
  intros h. apply overwrite_entry_spec; [done|]. intros Hne. apply IH. unfold level_ok in *. lia.
Qed.
End Overwrite.

(** * Changing permissions *)

Section Permissions.
Context (op : MAM_UPDATE_OP) (attrs : Z).
Hypothesis Hop : op <> MAM_OVERWRITE_ADDR_AND_ATTRS.
(** The new attributes can be kept in an entry of the format. *)
Hypothesis Hnew : forall curr, attr_ok K curr -> attr_ok K (new_attributes op curr attrs).

Definition permission_eff (_ : Z) (d : mapping) : mapping :=
  match d with Mapped a curr => Mapped a (new_attributes op curr attrs) | Unmapped r => Unmapped r end.
Definition any_range (src tgt size : Z) : Prop := True.

Lemma permission_entry_spec l rec h : level_ok (S l) -> (l <> 0%nat -> table_spec permission_eff any_range l rec) ->
  entry_spec permission_eff any_range (S l) h
    (update_entry hva_to_hpa hpa_to_hva rec mam (S l) attrs op h K).
Proof using Hnew Hop Hinner PagesLaws0 EntryLaws0.
  intros Hl Hrec s ts i t first src tgt n Hrep Hpg Ht H0 Hm Hmax Hs Hn He Ha Hna _.
  destruct (trep_lookup _ _ _ _ _ _ _ i _ Hrep Ht) as (es & e & Hh & _ & Hei & Hr).
  unfold update_entry. rewrite (rd_entry_ok s h es i e) by done. rewrite bind_Ok. rewrite bool_decide_false by done.
  pose proof (rep_leafness _ _ _ _ Hr) as Hleaf. destruct t as [r|a curr|p ts0].
  - destruct Hleaf as (_ & -> & _). exists true, s, (TInv r). split; [done|]. split; [by apply no_change|].
    intros x _. unfold updated_at. destruct (in_rng _ _ _); [by left|done].
  - destruct Hleaf as (-> & -> & _ & ->).
    destruct (Z.eqb_spec (new_attributes op curr attrs) curr) as [Eq|Hne].
    { exists true, s, (TLeaf a curr). split; [done|]. split; [by apply no_change|].
      intros x _. unfold updated_at. destruct (in_rng _ _ _); [|done]. left. unfold permission_eff. cbn [den]. by rewrite Eq. }
    destruct (Z.eqb_spec n (esz (S l))) as [Hsz|Hsz].
    + destruct Hr as (Hops & Hv & Hlf & Hb & Hat). pose proof (whole_entry _ _ _ _ Hs He Hsz) as Hsf.
      destruct (law_attrs (K := K) (S l) e a curr _ Hv Hops Hlf Hat (Hnew _ Hat)) as [Hv' Ho'].
      eapply (plain_post _ _ _ _ _ _ _ _ _ (TLeaf a (new_attributes op curr attrs))); eauto using fp_leaf.
      * intros m. split; [done|]. split_and!; [done..|by apply Hnew].
      * apply den_leaf_whole; [done..|]. intros x _. done.
    + destruct l as [|l].
      { destruct Hsz. change (n = 4096). by apply (level1_whole n src first). }
      specialize (Hrec ltac:(done)). eapply expand_post; eauto; by split_and!.
  - destruct Hleaf as (-> & -> & ->). destruct l as [|l]; [by destruct Hr as (_ & _ & _ & [])|].
    specialize (Hrec ltac:(done)). eapply inner_post; eauto; by split_and!.
Qed.

Lemma permission_table_spec l : level_ok l ->
  table_spec permission_eff any_range l (mam_update_table hva_to_hpa hpa_to_hva l mam attrs op).
Proof using Hnew Hop Hinner PagesLaws0 EntryLaws0.
  induction l as [|l IH]; intros Hl; [by destruct Hl; lia|]. cbn [mam_update_table].
  apply (range_spec permission_eff any_range ltac:(done) ltac:(done) (S l)
    (fun h => update_entry hva_to_hpa hpa_to_hva (mam_update_table hva_to_hpa hpa_to_hva l mam attrs op) mam (S l) attrs
       op h)); [done|].
  intros h. apply permission_entry_spec; [done|]. intros Hne. apply IH. unfold level_ok in *. lia.
Qed.
End Permissions.

(** * Removal *)

Section Removal.
Context (reason : Z).
Hypothesis Hreason : 0 <= reason < 2 ^ 31.

Definition removal_eff (_ : Z) (_ : mapping) : mapping := Unmapped reason.

Lemma removal_entry_spec l rec h : level_ok (S l) -> (l <> 0%nat -> table_spec removal_eff any_range l rec) ->
  entry_spec removal_eff any_range (S l) h (remove_entry hva_to_hpa hpa_to_hva rec mam (S l) reason h K).
Proof using Hreason Hinner PagesLaws0 EntryLaws0.
  intros Hl Hrec s ts i t first src tgt n Hrep Hpg Ht H0 Hm Hmax Hs Hn He Ha Hna _.
  destruct (trep_lookup _ _ _ _ _ _ _ i _ Hrep Ht) as (es & e & Hh & _ & Hei & Hr).
  unfold remove_entry. rewrite (rd_entry_ok s h es i e) by done. rewrite bind_Ok.
  pose proof (rep_leafness _ _ _ _ Hr) as Hleaf.
  assert (Hr' : forall m, rep (S l) m (mam_invalidate_entry e reason (mam_get_leaf_entry_type K)) (TInv reason))
    by (intros; by apply invalid_rep).
  destruct ((first =? src) && (esz (S l) =? n)) eqn:Ew.
  - apply andb_true_iff in Ew as [Hsf%Z.eqb_eq Hsz%Z.eqb_eq]. symmetry in Hsf, Hsz.
    pose proof (den_inv_whole (S l) removal_eff reason t first src n Hsf Hsz ltac:(done)) as Hd.
    destruct t as [r|a0 at0|p ts0].
    + destruct Hleaf as (-> & -> & _). cbn [andb negb]. eapply (plain_post _ _ _ _ _ _ _ _ _ (TInv reason)); eauto using fp_inv.
    + destruct Hleaf as (-> & -> & _). cbn [andb negb]. eapply (plain_post _ _ _ _ _ _ _ _ _ (TInv reason)); eauto using fp_inv, fp_leaf.
    + destruct Hleaf as (-> & -> & ->). cbn [andb negb].
      destruct l as [|l]; [by destruct Hr as (_ & _ & _ & [])|].
      rewrite (wr_entry_ok s h es i) by (done || by eapply lookup_lt_Some). rewrite bind_Ok.
      destruct (replace_node l s h ts i es _ p ts0 (TInv reason) Hl Hrep Ht Hh Hpg Hr') as (s1 & E1 & Hres); [done|].
      rewrite E1, bind_Ok. exists true, s1, (TInv reason). by split_and!.
  - destruct l as [|l].
    { exfalso. assert (n = 4096) as Hsz by (by apply (level1_whole n src first)).
      pose proof (whole_entry first src n 1 Hs He Hsz) as ->. rewrite Hsz, Z.eqb_refl in Ew. done. }
    specialize (Hrec ltac:(done)). destruct t as [r|a0 at0|p ts0].
    + destruct Hleaf as (_ & -> & Er & _). cbn [negb].
      destruct (Z.eqb_spec (invalid_reason e) reason) as [Heq|Hne]; cbn [negb].
      * rewrite Er in Heq. rewrite Heq in Ht. exists true, s, (TInv reason). split; [done|]. split; [by apply no_change|]. rewrite Heq.
        intros x _. unfold updated_at. destruct (in_rng _ _ _); [by left|done].
      * eapply create_post; eauto; by split_and!.
    + destruct Hleaf as (-> & -> & _). cbn [negb]. eapply expand_post; eauto; by split_and!.
    + destruct Hleaf as (-> & -> & ->). cbn [negb]. eapply inner_post; eauto; by split_and!.
Qed.

Lemma removal_table_spec l : level_ok l ->
  table_spec removal_eff any_range l (remove_range hva_to_hpa hpa_to_hva l mam reason).
Proof using Hreason Hinner PagesLaws0 EntryLaws0.
  induction l as [|l IH]; intros Hl; [by destruct Hl; lia|]. cbn [remove_range].
  apply (range_spec removal_eff any_range ltac:(done) ltac:(done) (S l)
    (fun h => remove_entry hva_to_hpa hpa_to_hva (remove_range hva_to_hpa hpa_to_hva l mam reason) mam (S l) reason h)); [done|].
  intros h. apply removal_entry_spec; [done|]. intros Hne. apply IH. unfold level_ok in *. lia.
Qed.
End Removal.
End Ops.
