(* ===== verification/MamFail.v ===== *)
(** Why an operation of the address mapper fails: the argument checks refuse it, or the heap has no page for
    a table. These facts need no representation of the tables; the sizes and addresses that the mapper
    answers are whole pages for the same reason. *)

From S2P Require Import Prelude VmmDefs Lock MamEntry MamEntrySpec Mam MamSpec.

#[local] Abbreviation esz := mam_get_size_covered_by_entry.
#[local] Abbreviation tsz := mam_get_size_covered_by_table.

(** ** Whole pages *)

Lemma wrap64_page x : x mod 4096 = 0 -> (x mod 2 ^ 64) mod 4096 = 0.
Proof. intros H. lia. Qed.

Lemma add_page x y : x mod 4096 = 0 -> y mod 4096 = 0 -> (x + y) mod 4096 = 0.
Proof. intros Hx Hy. lia. Qed.

Lemma esz_page_mod l : esz l mod 4096 = 0.
Proof. by destruct l as [|[|[|[|]]]]. Qed.

Lemma page_land a m : a mod 4096 = 0 -> Z.land a m mod 4096 = 0.
Proof.
  change 4096 with (2 ^ 12). rewrite <- !Z.land_ones by lia. intros H. by rewrite <- Z.land_assoc, (Z.land_comm m), Z.land_assoc, H, Z.land_0_l.
Qed.

Lemma leaf_address_page e l ops : mam_get_address_from_leaf_entry e l ops mod 4096 = 0.
Proof.
  assert (H : mam_get_address_from_any_entry e mod 4096 = 0).
  { rewrite get_address_fields. replace (2 ^ 32) with (2 ^ 20 * 4096) by lia. change (2 ^ 12) with 4096.
    rewrite Z.mul_assoc, <- Z.mul_add_distr_r. apply Z.mod_mul. lia. }
  unfold mam_get_address_from_leaf_entry. repeat case_match; try done. by apply page_land.
Qed.

Section Failure.
Context {A : Type} `{!Pages A} (hva_to_hpa hpa_to_hva : Z -> option Z).

(** The last request for a page has been answered with NULL, which left the heap as it is in [s]. *)
Definition starved (s : mstate A) : Prop := exists a, vmm_page_alloc a = Ok (0, pages s).

Lemma create_table_starved (s : mstate A) reason type s' : mam_create_table s reason type = Ok (0, s') -> starved s'.
Proof.
  unfold mam_create_table. intros H. ostep H. destruct r as [table a]. destruct (Z.eqb_spec table 0) as [->|Hne]; [|congruence].
  injection H as <-. by exists (pages s).
Qed.

Lemma expand_starved mam (s : mstate A) table index level ops h s' :
  mam_expand_leaf_entry hva_to_hpa mam s table index level ops = Ok (false, h, s') -> starved s'.
Proof.
  unfold mam_expand_leaf_entry. intros H. ostep H. ostep H. destruct r0 as [t s1]. destruct (Z.eqb_spec t 0) as [->|].
  - injection H as <- <-. by eapply create_table_starved.
  - destruct (_ =? 0)%nat; [done|]. by ostep H.
Qed.

(** [f] answers FALSE only when it has run out of pages. *)
Definition fails_starved (o : outcome (bool * mstate A)) : Prop := forall s', o = Ok (false, s') -> starved s'.

Lemma loop_starved body size_covered n : (forall index first src tgt size s, fails_starved (body index first src tgt size s)) ->
  forall index first src tgt remaining (s : mstate A), fails_starved (entries_loop n body size_covered index first src tgt remaining s).
Proof.
  intros Hb. induction n as [|n IH]; intros index first src tgt remaining s s' H; [done|]. cbn [entries_loop] in H.
  cbv zeta in H. ostep H. destruct r as [[] s1]; cbn [negb] in H; [by eapply IH|]. injection H as <-. by eapply Hb.
Qed.

Lemma over_range_starved body level (s : mstate A) table first src tgt size :
  (forall ops index first src tgt size s, fails_starved (body ops index first src tgt size s)) ->
  fails_starved (over_range body level s table first src tgt size).
Proof. intros Hb s' H. unfold over_range in H. cbv zeta in H. ostep H. eapply loop_starved; [|exact H]. intros. apply Hb. Qed.

Lemma retract_starved b mam table index level ops res (s : mstate A) s' :
  retract_if hpa_to_hva b mam table index level ops (res, s) = Ok (false, s') -> res = false /\ s' = s.
Proof. unfold retract_if. destruct res, b; cbn [andb]; intros H; try ostep H; by simplify_eq. Qed.

Section Entry.
Context (rec : mstate A -> Z -> Z -> Z -> Z -> Z -> outcome (bool * mstate A)).
Context (rec_starved : forall s table first src tgt size, fails_starved (rec s table first src tgt size)).

Lemma recurse_starved mam s table first src tgt size b t index level ops :
  fails_starved (r ← rec s table first src tgt size; retract_if hpa_to_hva b mam t index level ops r).
Proof using rec_starved. intros s' H. ostep H. destruct r as [res s1]. apply retract_starved in H as [-> ->]. by eapply rec_starved. Qed.

Lemma expand_then_starved mam s table index level ops first src tgt size :
  fails_starved (r ← mam_expand_leaf_entry hva_to_hpa mam s table index level ops;
                 let '(res, lower, s) := r in if negb res then Ok (false, s) else rec s lower first src tgt size).
Proof using rec_starved.
  intros s' H. ostep H. destruct r as [[[] lower] s1]; cbn [negb] in H; [by eapply rec_starved|].
  injection H as <-. by eapply expand_starved.
Qed.

Lemma create_then_starved s reason type (k : Z -> mstate A -> outcome (mstate A)) first src tgt size :
  fails_starved (r ← mam_create_table s reason type;
                 let '(lower, s) := r in
                 if lower =? 0 then Ok (false, s) else s ← k lower s; rec s lower first src tgt size).
Proof using rec_starved.
  intros s' H. ostep H. destruct r as [lower s1]. destruct (Z.eqb_spec lower 0) as [->|].
  - injection H as <-. by eapply create_table_starved.
  - ostep H. by eapply rec_starved.
Qed.

Lemma update_entry_starved mam level attrs op table ops index first src tgt size s :
  fails_starved (update_entry hva_to_hpa hpa_to_hva rec mam level attrs op table ops index first src tgt size s).
Proof using rec_starved.
  intros s' H. unfold update_entry in H. cbv zeta in H. ostep H. repeat case_match; try discriminate H.
  all: first [eapply recurse_starved; exact H | eapply expand_then_starved; exact H
             | eapply (create_then_starved _ _ _ (fun lower s => wr_entry s table index (mam_update_inner_level_entry hva_to_hpa mam lower level ops))); exact H
             | repeat ostep H; discriminate H].
Qed.

Lemma remove_entry_starved mam level reason table ops index first src tgt size s :
  fails_starved (remove_entry hva_to_hpa hpa_to_hva rec mam level reason table ops index first src tgt size s).
Proof using rec_starved.
  intros s' H. unfold remove_entry in H. cbv zeta in H. ostep H. repeat case_match; try discriminate H.
  all: first [eapply recurse_starved; exact H | eapply expand_then_starved; exact H
             | eapply (create_then_starved _ _ _ (fun lower s => wr_entry s table index (mam_update_inner_level_entry hva_to_hpa mam lower level ops))); exact H
             | repeat ostep H; discriminate H].
Qed.
End Entry.

Lemma update_table_starved mam attrs op level : forall (s : mstate A) table first src tgt size,
  fails_starved (mam_update_table hva_to_hpa hpa_to_hva level mam attrs op s table first src tgt size).
Proof.
  induction level as [|level IH]; intros s table first src tgt size; [done|]. cbn [mam_update_table].
  apply over_range_starved. intros. by apply update_entry_starved.
Qed.

Lemma remove_range_starved mam reason level : forall (s : mstate A) table first src tgt size,
  fails_starved (remove_range hva_to_hpa hpa_to_hva level mam reason s table first src tgt size).
Proof.
  induction level as [|level IH]; intros s table first src tgt size; [done|]. cbn [remove_range].
  apply over_range_starved. intros. by apply remove_entry_starved.
Qed.

Lemma grow_starved ops limit n : forall mam (s : mstate A) mam' s',
  grow_first_table hva_to_hpa n ops mam s limit = Ok (mam', s') -> limit <= tsz (first_table_ops mam') \/ starved s'.
Proof.
  induction n as [|n IH]; intros mam s mam' s' H; [done|]. cbn [grow_first_table] in H.
  destruct (_ =? 0)%nat; [done|]. destruct (Z.ltb_spec (tsz (first_table_ops mam)) limit).
  - ostep H. destruct r as [t s1]. destruct (Z.eqb_spec t 0) as [->|].
    + injection H as <- <-. right. by eapply create_table_starved.
    + cbv zeta in H. ostep H. by eapply IH.
  - injection H as <- <-. by left.
Qed.

Lemma size_of_range_page level : forall (s : mstate A) src table size,
  mam_get_size_of_range hpa_to_hva level s src table = Ok size -> size mod 4096 = 0.
Proof using Type.
  induction level as [|level IH]; intros s src table size H; [done|]. cbn [mam_get_size_of_range] in H. cbv zeta in H.
  ostep H. destruct (_ && _); [by eapply IH|]. injection H as <-. unfold u64, wrap. apply wrap64_page.
  fold (esz (S level)). pose proof (esz_page_mod (S level)) as [k E']%Z.mod_divide; [|done]. rewrite E', Z.mul_assoc, <- Z.mul_add_distr_r.
  apply Z.mod_mul. done.
Qed.

Lemma mapping_page level : forall (s : mstate A) table src r a attrs, src mod 4096 = 0 ->
  mam_get_mapping_from_table hpa_to_hva level s table src = Ok (r, Some (a, attrs)) -> a mod 4096 = 0.
Proof using Type.
  induction level as [|level IH]; intros s table src r a attrs Hs H; [done|]. cbn [mam_get_mapping_from_table] in H. cbv zeta in H.
  ostep H. destruct (negb _); [done|]. destruct (mam_is_leaf_entry r0); [|by eapply IH]. injection H as _ <- _.
  unfold u64, wrap. apply wrap64_page, add_page; [apply leaf_address_page|exact (page_land src (esz (S level) - 1) Hs)].
Qed.

Lemma get_mapping_page cpu mam (s : mstate A) src r a attrs : src mod 4096 = 0 ->
  mam_get_mapping hpa_to_hva cpu mam s src = Ok (r, Some (a, attrs)) -> a mod 4096 = 0.
Proof using Type.
  intros Hs H. unfold mam_get_mapping in H. destruct (_ =? 0)%nat; [done|]. destruct (_ <=? src); [done|]. ostep H.
  destruct (_ && _); [done|]. injection H as ->. by eapply mapping_page.
Qed.

(** ** The operations *)

Context (fuel : nat) (cpu : Z).

Definition insert_refused (src tgt size : Z) : bool :=
  misaligned src || misaligned tgt || misaligned size || (size =? 0) || (tsz 4 <? src ⊕₆₄ size).
Definition removal_refused (src size reason : Z) : bool :=
  misaligned src || misaligned size || ((reason =? MAM_MAPPING_SUCCESSFUL) || (reason =? MAM_UNKNOWN_MAPPING)) ||
  (tsz 4 <? src ⊕₆₄ size).
Definition change_refused (src size : Z) : bool := misaligned src || misaligned size.

Lemma insert_fails mam (s : mstate A) src tgt size attrs h s' :
  mam_insert_range hva_to_hpa hpa_to_hva fuel cpu (Some mam) s src tgt size attrs = Ok (false, h, s') ->
  insert_refused src tgt size = true /\ s' = s \/ insert_refused src tgt size = false /\ starved s'.
Proof.
  unfold mam_insert_range, insert_refused. intros H. ostep H. destruct (misaligned src || _ || _ || _); cbn [orb] in *.
  { injection H as _ <-. by left. }
  destruct (tsz 4 <? _). { injection H as _ <-. by left. }
  right. split; [done|]. ostep H. destruct r0 as [mam1 s1]. unfold mam_update_first_table_to_cover_requested_range in E0. ostep E0.
  destruct (Z.ltb_spec (tsz (first_table_ops mam1)) (src ⊕₆₄ size)).
  - injection H as _ <-. apply grow_starved in E0 as [?|?]; [lia|done].
  - ostep H. destruct r1 as [[] s2]; [done|]. injection H as _ <-. by eapply update_table_starved.
Qed.

Lemma removal_fails mam (s : mstate A) src size reason h s' :
  mam_insert_not_existing_range hva_to_hpa hpa_to_hva fuel cpu (Some mam) s src size reason = Ok (false, h, s') ->
  removal_refused src size reason = true /\ s' = s \/ removal_refused src size reason = false /\ starved s'.
Proof.
  unfold mam_insert_not_existing_range, removal_refused. intros H. ostep H. destruct (misaligned src || _); cbn [orb] in *.
  { injection H as _ <-. by left. }
  destruct ((reason =? _) || _); cbn [orb] in *. { injection H as _ <-. by left. }
  destruct (tsz 4 <? _). { injection H as _ <-. by left. }
  right. split; [done|]. ostep H. destruct r0 as [mam1 s1]. unfold mam_update_first_table_to_cover_requested_range in E0. ostep E0.
  destruct (Z.ltb_spec (tsz (first_table_ops mam1)) (src ⊕₆₄ size)).
  - injection H as _ <-. apply grow_starved in E0 as [?|?]; [lia|done].
  - ostep H. destruct r1 as [[] s2]; [done|]. injection H as _ <-. by eapply remove_range_starved.
Qed.

Lemma change_fails op mam (s : mstate A) src size attrs h s' :
  change_permissions hva_to_hpa hpa_to_hva fuel cpu op (Some mam) s src size attrs = Ok (false, h, s') ->
  change_refused src size = true /\ s' = s \/ change_refused src size = false /\ starved s'.
Proof.
  unfold change_permissions, change_refused. intros H. ostep H. destruct (misaligned src || _).
  { injection H as _ <-. by left. }
  right. split; [done|]. ostep H. destruct r0 as [[] s2]; [done|]. injection H as _ <-. by eapply update_table_starved.
Qed.

(** A refused operation does not succeed. *)
Lemma insert_not_refused mam (s : mstate A) src tgt size attrs h s' :
  mam_insert_range hva_to_hpa hpa_to_hva fuel cpu (Some mam) s src tgt size attrs = Ok (true, h, s') -> insert_refused src tgt size = false.
Proof.
  unfold mam_insert_range, insert_refused. intros H. ostep H. destruct (misaligned src || _ || _ || _); [done|]. by destruct (tsz 4 <? _).
Qed.

Lemma removal_not_refused mam (s : mstate A) src size reason h s' :
  mam_insert_not_existing_range hva_to_hpa hpa_to_hva fuel cpu (Some mam) s src size reason = Ok (true, h, s') ->
  removal_refused src size reason = false.
Proof.
  unfold mam_insert_not_existing_range, removal_refused. intros H. ostep H. destruct (misaligned src || _); [done|].
  destruct ((reason =? _) || _); [done|]. by destruct (tsz 4 <? _).
Qed.

Lemma change_not_refused op mam (s : mstate A) src size attrs h s' :
  change_permissions hva_to_hpa hpa_to_hva fuel cpu op (Some mam) s src size attrs = Ok (true, h, s') -> change_refused src size = false.
Proof. unfold change_permissions, change_refused. intros H. ostep H. by destruct (misaligned src || _). Qed.
End Failure.
