(* ===== verification/MamMap.v ===== *)
(** The address mapper's interface refines a map from addresses to mappings: creation, insertion,
    removal, changes of permissions and queries, on any sequence of operations. *)

From S2P Require Import Prelude VmmDefs Lock MamEntry MamEntrySpec Mam MamSpec MamFail.

#[local] Abbreviation esz := mam_get_size_covered_by_entry.
#[local] Abbreviation tsz := mam_get_size_covered_by_table.

Lemma tsz_esz l : tsz l = 512 * esz l.
Proof. unfold mam_get_size_covered_by_table, MAM_NUM_OF_ENTRIES_IN_TABLE. lia. Qed.

(** The abstract state: what every address is mapped to. *)
Definition amap := Z -> mapping.

(** The operation of a range: [f] is applied inside, or, when it fails, to a part of it. *)
Definition map_updated (res : bool) (src size : Z) (f : Z -> mapping -> mapping) (m m' : amap) : Prop :=
  forall y, 0 <= y -> updated_at res (in_rng src size y) (f y) (m y) (m' y).

Section Interface.
Context {A : Type} `{!Pages A} (hva_to_hpa hpa_to_hva : Z -> option Z) (K : MAM_ENTRY_OPS).
Context `{!EntryLaws hva_to_hpa hpa_to_hva K} `{!PagesLaws A (table_ok hva_to_hpa hpa_to_hva)}.
Context (fuel : nat) (cpu : Z).

#[local] Abbreviation pages_ok := (pages_ok hva_to_hpa hpa_to_hva).
#[local] Abbreviation trep := (trep hva_to_hpa hpa_to_hva K).

(** What the tables say of an address; above the first table nothing is known. *)
Definition table_map (l : nat) (ts : list tree) : amap :=
  fun y => if y <? tsz l then tden l ts y else Unmapped MAM_UNKNOWN_MAPPING.

(** The tables of the object hold [m]; [F] are the pages they are in. *)
Definition holds (mam : MAM) (s : mstate A) (m : amap) (F : gset Z) : Prop :=
  level_ok (first_table_ops mam) /\ inner_ok K mam /\ pages_ok s /\
  table_ok hva_to_hpa hpa_to_hva (first_table mam) /\
  exists ts, trep (first_table_ops mam) (tabs s) (first_table mam) ts /\
    F = tfp (first_table_ops mam) (first_table mam) ts /\
    forall y, 0 <= y -> m y = table_map (first_table_ops mam) ts y.

(** No update is in progress. *)
Definition idle (mam : MAM) : Prop :=
  uint32_lock (update_lock mam) = 0 /\ Z.land (update_counter mam) 1 = 0 /\ fits 32 (update_counter mam).

Definition represents (mam : MAM) (s : mstate A) (m : amap) (F : gset Z) : Prop := holds mam s m F /\ idle mam.

(** ** Queries *)

Lemma get_from_table l : level_ok l -> forall (s : mstate A) h ts first y, trep l (tabs s) h ts ->
  0 <= first -> first mod (512 * esz l) = 0 -> 0 <= y < 512 * esz l -> first + 512 * esz l <= 2 ^ 48 ->
  mam_get_mapping_from_table hpa_to_hva l s h (first + y) =
    Ok (match tden l ts y with
        | Mapped a attrs => (MAM_MAPPING_SUCCESSFUL, Some (a, attrs))
        | Unmapped r => (r, None)
        end).
Proof.
  induction l as [|l IH]; intros Hl s h ts first y Hrep H0 Hm Hy Hmax; [by destruct Hl; lia|].
  pose proof (esz_pos (S l)) as Hpos. cbn [mam_get_mapping_from_table].
  rewrite (index_at (S l) first) by (done || lia). replace (first + y - first) with y by lia.
  pose proof (trep_length _ _ _ _ _ _ _ Hrep) as Hlen.
  assert (Hi : 0 <= y / esz (S l) < 512) by (split; [apply Z.div_pos; lia|apply Z.div_lt_upper_bound; lia]).
  destruct (lookup_lt_is_Some_2 ts (Z.to_nat (y / esz (S l))) ltac:(lia)) as [t Ht].
  destruct (trep_lookup _ _ _ _ _ _ _ _ t Hrep Ht) as (es & e & Hh & _ & He & Hr).
  assert (rd_entry s h (y / esz (S l)) = Ok e) as ->
    by (rewrite <- (Z2Nat.id (y / esz (S l))) by lia; by apply (rd_entry_ok s h es)).
  rewrite bind_Ok, (rep_ops _ _ _ _ _ _ _ Hr). unfold tden. rewrite Ht.
  pose proof (rep_leafness _ _ _ _ _ _ _ Hr) as Hleaf.
  pose proof (Z.div_mod y (esz (S l)) ltac:(lia)) as Edm. pose proof (Z.mod_pos_bound y (esz (S l)) ltac:(lia)) as Hmod.
  destruct t as [r|a attrs|p ts0].
  - destruct Hleaf as (_ & -> & -> & _). done.
  - destruct Hleaf as (-> & -> & -> & ->). cbn [negb den].
    assert (Z.land (first + y) (esz (S l) - 1) = y mod esz (S l)) as ->.
    { rewrite (esz_pow (S l) Hl). replace (2 ^ (3 + 9 * Z.of_nat (S l)) - 1) with (Z.ones (3 + 9 * Z.of_nat (S l)))
        by (rewrite Z.ones_equiv; lia). rewrite Z.land_ones by lia. rewrite <- (esz_pow (S l) Hl).
      apply Z.mod_divide in Hm as [q ->]; [|lia].
      replace (q * (512 * esz (S l)) + y) with (y + q * 512 * esz (S l)) by lia. by rewrite Z.mod_add by lia. }
    destruct Hr as (_ & _ & [[Ha _] _] & Hb & _). rewrite u64_small by lia. done.
  - destruct Hleaf as (-> & -> & ->). cbn [negb]. destruct l as [|l]; [by destruct Hr as (_ & _ & _ & [])|].
    apply rep_node in Hr as (_ & _ & _ & Hrp). pose proof (esz_S l Hl) as Esz.
    replace (first + y) with (first + y / esz (S (S l)) * esz (S (S l)) + y mod esz (S (S l))) by lia.
    rewrite (IH ltac:(unfold level_ok in *; lia) s p ts0); [done|done|nia| |lia|rewrite <- Esz; nia].
    rewrite <- Esz. rewrite Z.mod_add by lia. apply Z.mod_divide in Hm as [q ->]; [|lia].
    replace (q * (512 * esz (S (S l)))) with (q * 512 * esz (S (S l))) by lia. apply Z.mod_mul. lia.
Qed.

Lemma get_mapping_spec mam s m F y : represents mam s m F -> 0 <= y ->
  mam_get_mapping hpa_to_hva cpu mam s y =
    Ok (match m y with
        | Mapped a attrs => (MAM_MAPPING_SUCCESSFUL, Some (a, attrs))
        | Unmapped r => (r, None)
        end).
Proof.
  intros [(Hl & _ & _ & _ & ts & Hrep & _ & Hm) (_ & Hc & _)] Hy. unfold mam_get_mapping. rewrite Hm by done.
  destruct (Nat.eqb_spec (first_table_ops mam) 0) as [E|_]; [rewrite E in Hl; by destruct Hl; lia|].
  unfold table_map. destruct (Z.leb_spec (tsz (first_table_ops mam)) y), (Z.ltb_spec y (tsz (first_table_ops mam)));
    try lia; [done|]. rewrite tsz_esz in *.
  pose proof (esz_pos (first_table_ops mam)). pose proof (esz_le (first_table_ops mam)).
  pose proof (get_from_table _ Hl s _ ts 0 y Hrep) as E. change (0 + y) with y in E.
  rewrite E, bind_Ok, Hc; [done|lia|by rewrite Z.mod_0_l by lia|lia|lia].
Qed.

(** ** Growth of the first table *)

Lemma grow_tree l ts p y : level_ok (S l) -> (1 <= l)%nat -> length ts = 512%nat -> 0 <= y ->
  table_map (S l) (<[0%nat := TNode p ts]> (replicate 512 (TInv MAM_UNKNOWN_MAPPING))) y = table_map l ts y.
Proof.
  intros Hl Hl1 Hlen Hy. destruct l as [|l]; [lia|]. unfold table_map. rewrite !tsz_esz.
  pose proof (esz_S l Hl) as Esz. rewrite <- Esz. pose proof (esz_pos (S (S l))) as Hpos.
  rewrite tden_insert by (rewrite length_replicate; lia).
  destruct (Z.ltb_spec y (esz (S (S l)))) as [H1|H1].
  - assert (y / esz (S (S l)) = 0) as E by (apply Z.div_small; lia). rewrite E. rewrite decide_True by done.
    destruct (Z.ltb_spec y (512 * esz (S (S l)))); [|lia]. rewrite Z.mod_small by lia. done.
  - destruct (Z.ltb_spec y (512 * esz (S (S l)))) as [H2|H2]; [|done].
    assert (1 <= y / esz (S (S l)) < 512) by (split; [apply Z.div_le_lower_bound; lia|apply Z.div_lt_upper_bound; lia]).
    rewrite decide_False by lia. unfold tden. rewrite lookup_replicate_2 by lia. done.
Qed.

Lemma grow_fps l h ts : (1 <= l)%nat ->
  fps (S l) (<[0%nat := TNode h ts]> (replicate 512 (TInv MAM_UNKNOWN_MAPPING))) = tfp l h ts.
Proof.
  intros Hl. apply set_eq. intros k. rewrite elem_of_fps. split.
  - intros (i & t & Hi & Hk). destruct i as [|i].
    + rewrite list_lookup_insert_eq in Hi by (rewrite length_replicate; lia). simplify_eq. exact Hk.
    + rewrite list_lookup_insert_ne in Hi by done. apply lookup_replicate in Hi as [-> _]. done.
  - intros Hk. exists 0%nat, (TNode h ts). split; [|exact Hk].
    by rewrite list_lookup_insert_eq by (rewrite length_replicate; lia).
Qed.

(** The new first table refers to the old one from its first entry. *)
Lemma grow_table l (t1 : gmap Z (list Z)) es h ts p e' : (1 <= l)%nat ->
  trep l t1 h ts -> table_ok hva_to_hpa hpa_to_hva h -> p ∉ tfp l h ts ->
  trep (S l) t1 p (replicate 512 (TInv MAM_UNKNOWN_MAPPING)) -> t1 !! p = Some es ->
  view hpa_to_hva K (S l) e' = VInner h -> mam_get_entry_ops e' = K ->
  trep (S l) (<[p := <[0%nat := e']> es]> t1) p (<[0%nat := TNode h ts]> (replicate 512 (TInv MAM_UNKNOWN_MAPPING))).
Proof.
  intros Hl Hrep Hok Hp (es0 & Hp0 & Hlen & Hes & _) Hes1 Hv Ho. assert (es0 = es) as -> by congruence. clear Hp0.
  exists (<[0%nat := e']> es). rewrite grow_fps by done.
  split_and!; [apply lookup_insert_eq|by rewrite length_insert| | |done].
  - apply Forall2_insert.
    + apply Forall2_same_length_lookup_2; [by rewrite Hlen, length_replicate|]. intros i e t He Ht.
      pose proof (Forall2_lookup_lr _ _ _ _ _ _ Hes He Ht) as Hr. apply lookup_replicate in Ht as [-> _]. done.
    + destruct l as [|l]; [lia|]. apply rep_node. split_and!; [done..|].
      apply (trep_frame _ _ _ _ t1); [done|]. intros k Hk. rewrite lookup_insert_ne; [done|]. by intros <-.
  - intros i j a b Hij Ha Hb. destruct i as [|i].
    + rewrite list_lookup_insert_ne in Hb by done. apply lookup_replicate in Hb as [-> _].
      rewrite fp_inv. apply disjoint_empty_r.
    + rewrite list_lookup_insert_ne in Ha by done. apply lookup_replicate in Ha as [-> _].
      rewrite fp_inv. apply disjoint_empty_l.
Qed.

Definition same_rest (mam mam' : MAM) : Prop := mam' = set_first_table mam (first_table mam') (first_table_ops mam').

Lemma grow_spec n : forall mam s m F limit, holds mam s m F -> (5 <= first_table_ops mam + n)%nat ->
  K = MAM_INTERNAL_ENTRY_OPS \/ limit <= tsz (first_table_ops mam) -> limit <= 2 ^ 48 ->
  exists mam' s' F', grow_first_table hva_to_hpa n K mam s limit = Ok (mam', s') /\
    holds mam' s' m F' /\ evolves (tabs s) (tabs s') F F' /\ same_rest mam mam'.
Proof.
  induction n as [|n IH]; intros mam s m F limit Hh Hn HK Hlim.
  { destruct Hh as [Hl _]. unfold level_ok in Hl. lia. }
  pose proof Hh as (Hl & Hin & Hpg & Hok & ts & Hrep & HF & Hm). cbn [grow_first_table].
  destruct (Nat.eqb_spec (first_table_ops mam) 0) as [E|_]; [unfold level_ok in Hl; lia|].
  assert (Hdone : exists mam' s' F', Ok (mam, s) = Ok (mam', s') /\ holds mam' s' m F' /\
    evolves (tabs s) (tabs s') F F' /\ same_rest mam mam').
  { exists mam, s, F. split_and!; [done..|apply evolves_refl|]. unfold same_rest, set_first_table. by destruct mam. }
  destruct (Z.ltb_spec (tsz (first_table_ops mam)) limit) as [Hlt|]; [|done].
  destruct HK as [HK|?]; [|lia].
  assert (MAM_LEAF_INTERNAL_ENTRY = mam_get_leaf_entry_type K) as -> by by rewrite HK.
  destruct (create_spec hva_to_hpa hpa_to_hva K s MAM_UNKNOWN_MAPPING (mam_get_leaf_entry_type K) Hpg)
    as (p & s1 & E & Hpg1 & Hp).
  rewrite E, bind_Ok. destruct Hp as [[-> Es]|(Hp0 & Hokp & Hpd & es1 & Hlen1 & Es)].
  - exists mam, s1, F. split_and!; [done| |rewrite Es; apply evolves_refl|unfold same_rest, set_first_table; by destruct mam].
    split; [done|]. split; [done|]. split; [done|]. split; [done|]. exists ts. rewrite Es. done.
  - destruct (Z.eqb_spec p 0); [done|].
    set (l := first_table_ops mam) in *. set (h := first_table mam) in *.
    assert (Hl' : (1 <= l < 4)%nat).
    { unfold level_ok in Hl. destruct (decide (l = 4%nat)) as [El|]; [|lia]. rewrite El in Hlt. change (tsz 4) with (2 ^ 48) in Hlt. lia. }
    assert (mam_get_upper_level_ops l = S l) as El by (unfold mam_get_upper_level_ops; repeat case_match; lia). rewrite El.
    set (es2 := (fun e => mam_invalidate_entry e MAM_UNKNOWN_MAPPING (mam_get_leaf_entry_type K)) <$> es1) in *.
    assert (Hp1 : tabs s1 !! p = Some es2) by (rewrite Es; apply lookup_insert_eq).
    assert (wr_entry s1 p 0 (mam_update_inner_level_entry hva_to_hpa mam h (S l) K) =
      Ok (upd_entry s1 p es2 0 (mam_update_inner_level_entry hva_to_hpa mam h (S l) K))) as ->.
    { apply (wr_entry_ok s1 p es2 0); [done|]. unfold es2. rewrite length_fmap. lia. }
    rewrite bind_Ok.
    destruct (law_inner (K := K) mam h (S l) Hok Hin) as [Hv Ho].
    destruct (invalid_table hva_to_hpa hpa_to_hva K (S l) (tabs s1) p es1 MAM_UNKNOWN_MAPPING) as [Hrp _];
      [by vm_compute|done|done|].
    pose proof (trep_dom _ _ _ _ _ _ _ Hrep) as Hdom.
    assert (Hpn : p ∉ tfp l h ts) by (intros Hk; by apply Hpd, Hdom).
    assert (Hrep1 : trep l (tabs s1) h ts).
    { apply (trep_frame _ _ _ _ (tabs s)); [done|]. intros k Hk. rewrite Es, lookup_insert_ne; [done|]. by intros <-. }
    pose proof (grow_table l (tabs s1) es2 h ts p _ ltac:(lia) Hrep1 Hok Hpn Hrp Hp1 Hv Ho) as Hrep2.
    set (s2 := upd_entry s1 p es2 0 _) in *.
    destruct (IH (set_first_table mam p (S l)) s2 m (tfp (S l) p (<[0%nat := TNode h ts]> (replicate 512 (TInv MAM_UNKNOWN_MAPPING)))) limit)
      as (mam' & s' & F' & E' & Hh' & Hev & Hsr).
    + unfold holds. cbn [set_first_table first_table first_table_ops inner_level_attributes].
      split; [unfold level_ok; lia|]. split; [done|]. split; [by eapply upd_pages_ok|]. split; [done|].
      eexists. split; [exact Hrep2|]. split; [done|]. intros y Hy. rewrite grow_tree; [by apply Hm|unfold level_ok; lia|lia| |done].
      by eapply trep_length.
    + cbn [set_first_table first_table_ops]. lia.
    + by left.
    + done.
    + exists mam', s', F'. split; [done|]. split; [done|]. split.
      * eapply evolves_trans; [|exact Hev]. subst F. unfold tfp at 2. rewrite grow_fps by lia.
        destruct (evolves_frame _ _ _ _ (tfp l h ts) (evolves_new (tabs s) p es2 Hpd)) as [Hf _]; [done|apply disjoint_empty_r|].
        rewrite union_empty_l_L in Hf. eapply evolves_trans; [exact Hf|]. cbn [s2 upd_entry tabs]. rewrite Es.
        apply evolves_upd, elem_of_union_l, elem_of_singleton_2. done.
      * unfold same_rest in *. rewrite Hsr. by destruct mam.
Qed.

(** ** The frame of an update *)

Lemma begin_spec mam : idle mam ->
  begin_update (S fuel) cpu mam = Ok (set_update mam (mk_lock 1 cpu) (update_counter mam + 1) cpu).
Proof.
  intros (Hlk & Hev & Hc). unfold begin_update. rewrite acquire_free by done. rewrite bind_Ok.
  assert (update_counter mam mod 2 = 0) by by apply (Z.land_ones _ 1) in Hev || (rewrite <- (Z.land_ones _ 1) by lia; done).
  unfold fits in Hc. by rewrite u32_small by lia.
Qed.

Lemma end_spec mam mam1 : idle mam -> update_counter mam1 = update_counter mam + 1 -> idle (end_update mam1).
Proof.
  intros (_ & Hev & Hc) E. assert (Hm : update_counter mam mod 2 = 0) by (rewrite <- (Z.land_ones _ 1) by lia; done).
  unfold fits in Hc. split_and!; [done| |].
  - cbn [end_update set_update update_counter]. rewrite E. change 1 with (Z.ones 1) at 3. rewrite Z.land_ones by lia.
    unfold u32, wrap. change (2 ^ 1) with 2. lia.
  - cbn [end_update set_update update_counter]. apply u32_range.
Qed.

Lemma aligned_spec x : misaligned x = false <-> x mod 4096 = 0.
Proof.
  unfold misaligned, PAGE_4KB_SIZE. replace (4096 - 1) with (Z.ones 12) by done. rewrite Z.land_ones by lia.
  change (2 ^ 12) with 4096. rewrite negb_false_iff, Z.eqb_eq. done.
Qed.

(** What an operation on the object returns. *)
Definition refined (m : amap) (F : gset Z) (s : mstate A) (P : bool -> amap -> Prop)
  (o : outcome (bool * option MAM * mstate A)) : Prop :=
  exists res mam' s' m' F', o = Ok (res, Some mam', s') /\ represents mam' s' m' F' /\
    evolves (tabs s) (tabs s') F F' /\ P res m'.

Lemma refined_weaken m F s (P Q : bool -> amap -> Prop) o : (forall res m', P res m' -> Q res m') ->
  refined m F s P o -> refined m F s Q o.
Proof. intros HPQ (res & mam' & s' & m' & F' & ? & ? & ? & ?). exists res, mam', s', m', F'. auto. Qed.

Lemma refined_refuse mam mam1 s m F (P : bool -> amap -> Prop) : idle mam -> holds mam1 s m F ->
  update_counter mam1 = update_counter mam + 1 -> P false m -> refined m F s P (Ok (false, Some (end_update mam1), s)).
Proof.
  intros Hi Hh Hc HP. exists false, (end_update mam1), s, m, F. split; [done|]. split; [split; [exact Hh|by eapply end_spec]|].
  split; [apply evolves_refl|done].
Qed.

(** ** Operations on ranges *)

(** A table's update as an update of the map. *)
Lemma table_updated l ts ts' src size res f : 0 <= src -> src + size <= tsz l ->
  (forall y, 0 <= y < 512 * esz l -> updated_at res (in_rng src size (0 + y)) (f (0 + y)) (tden l ts y) (tden l ts' y)) ->
  map_updated res src size f (table_map l ts) (table_map l ts').
Proof.
  intros Hs Hsz H y Hy. unfold table_map. rewrite tsz_esz in *. destruct (Z.ltb_spec y (512 * esz l)).
  - by apply (H y).
  - assert (in_rng src size y = false) as ->; [apply in_rng_false; lia|done].
Qed.

Lemma map_updated_ext res src size f m1 m2 m' : (forall y, 0 <= y -> m1 y = m2 y) ->
  map_updated res src size f m2 m' -> map_updated res src size f m1 m'.
Proof. intros E H y Hy. rewrite E by done. by apply H. Qed.

Lemma nothing_updated src size f m : map_updated false src size f m m.
Proof. intros y _. unfold updated_at. destruct (in_rng _ _ _); [by right|done]. Qed.

(** The operation on the first table, and the end of the update. *)
Lemma refined_table mam mam1 s s1 m F F1 f okr op src tgt size : idle mam ->
  holds mam1 s1 m F1 -> evolves (tabs s) (tabs s1) F F1 -> update_counter mam1 = update_counter mam + 1 ->
  table_spec hva_to_hpa hpa_to_hva K f okr (first_table_ops mam1) op ->
  0 <= src -> 0 < size -> src + size <= tsz (first_table_ops mam1) -> src mod 4096 = 0 -> size mod 4096 = 0 ->
  okr src tgt size ->
  refined m F s (fun res m' => map_updated res src size f m m')
    (r ← op s1 (first_table mam1) 0 src tgt size;
     let '(res, s) := r in Ok (res, Some (end_update mam1), s)).
Proof.
  intros Hi Hh Hev Hc Hspec Hs Hsz He Ha Hna Hok. pose proof Hh as (Hl & Hin & Hpg & Htok & ts & Hrep & -> & Hm).
  pose proof (esz_le (first_table_ops mam1)). pose proof (esz_pos (first_table_ops mam1)).
  destruct (Hspec s1 (first_table mam1) ts 0 src tgt size Hrep Hpg) as (res & s' & ts' & E & Hpg' & Hrep' & Hev' & Heff);
    [lia|by rewrite Z.mod_0_l by lia|lia|done|done|rewrite tsz_esz in He; lia|done..|].
  rewrite E, bind_Ok. exists res, (end_update mam1), s', (table_map (first_table_ops mam1) ts'), (tfp (first_table_ops mam1) (first_table mam1) ts').
  split; [done|]. split; [split; [|by eapply end_spec]|].
  - split; [done|]. split; [done|]. split; [done|]. split; [done|]. exists ts'. done.
  - split; [by eapply evolves_trans|]. eapply map_updated_ext; [exact Hm|]. by apply table_updated.
Qed.

(** The first table covers the range, or the format allows it to grow. *)
Definition can_grow (mam : MAM) (limit : Z) : Prop :=
  K = MAM_INTERNAL_ENTRY_OPS \/ limit <= tsz (first_table_ops mam).

Lemma first_ops mam s m F : holds mam s m F ->
  exists e0, rd_entry s (first_table mam) 0 = Ok e0 /\ mam_get_entry_ops e0 = K.
Proof.
  intros (Hl & _ & _ & _ & ts & Hrep & _). pose proof (trep_length _ _ _ _ _ _ _ Hrep) as Hlen.
  destruct (lookup_lt_is_Some_2 ts 0%nat ltac:(lia)) as [t0 Ht0].
  destruct (trep_lookup _ _ _ _ _ _ _ 0%nat t0 Hrep Ht0) as (es & e0 & Hh & _ & He0 & Hr0).
  exists e0. split; [by apply (rd_entry_ok s _ es 0%nat)|by eapply rep_ops].
Qed.

(** The first table is made to cover the range, unless memory runs out. *)
Lemma cover_spec mam s m F src size : holds mam s m F -> can_grow mam (src + size) -> 0 <= src -> 0 <= size ->
  src + size <= 2 ^ 48 ->
  exists mam' s' F', mam_update_first_table_to_cover_requested_range hva_to_hpa mam s src size = Ok (mam', s') /\
    holds mam' s' m F' /\ evolves (tabs s) (tabs s') F F' /\ same_rest mam mam'.
Proof.
  intros Hh Hg Hs Hsz Hmax. unfold mam_update_first_table_to_cover_requested_range.
  destruct (first_ops _ _ _ _ Hh) as (e0 & -> & He0). rewrite bind_Ok, He0, u64_small by lia.
  apply grow_spec; [done|lia|done|done].
Qed.

Lemma same_rest_counter mam mam' : same_rest mam mam' -> update_counter mam' = update_counter mam.
Proof. intros ->. done. Qed.

Lemma insert_spec mam s m F src tgt size attrs : represents mam s m F ->
  can_grow mam (src + size) -> attr_ok K attrs ->
  0 <= src -> 0 <= size -> src + size < 2 ^ 64 -> 0 <= tgt -> tgt + size <= 2 ^ 40 ->
  refined m F s (fun res m' => map_updated res src size (fun y _ => Mapped (y - src + tgt) attrs) m m')
    (mam_insert_range hva_to_hpa hpa_to_hva (S fuel) cpu (Some mam) s src tgt size attrs).
Proof.
  intros [Hh Hi] Hg Hat Hs Hsz Hw Ht Htb. unfold mam_insert_range. rewrite begin_spec, bind_Ok by done.
  set (mam1 := set_update mam _ _ _).
  assert (Hh1 : holds mam1 s m F) by exact Hh.
  assert (Hbad : refined m F s (fun res m' => map_updated res src size (fun y _ => Mapped (y - src + tgt) attrs) m m')
    (Ok (false, Some (end_update mam1), s))) by (eapply refined_refuse; [done|done|done|apply nothing_updated]).
  destruct (misaligned src) eqn:E1; [done|]. destruct (misaligned tgt) eqn:E2; [done|].
  destruct (misaligned size) eqn:E3; [done|]. destruct (Z.eqb_spec size 0) as [|Hne]; [done|]. cbn [orb].
  rewrite (u64_small (src + size)) by lia.
  destruct (Z.ltb_spec (tsz 4) (src + size)) as [|Hle]; [done|]. change (tsz 4) with (2 ^ 48) in Hle.
  apply aligned_spec in E1, E2, E3.
  destruct (cover_spec mam1 s m F src size Hh1 Hg Hs ltac:(lia) Hle) as (mam2 & s2 & F2 & -> & Hh2 & Hev2 & Hsr).
  rewrite bind_Ok. pose proof (same_rest_counter _ _ Hsr) as Hc2.
  destruct (Z.ltb_spec (tsz (first_table_ops mam2)) (src + size)) as [Hoom|Hcov].
  - exists false, (end_update mam2), s2, m, F2. split; [done|]. split; [split; [exact Hh2|by eapply end_spec]|].
    split; [done|apply nothing_updated].
  - pose proof Hh2 as (Hl2 & Hin2 & _).
    assert (Hext : forall o, refined m F s (fun res m' => map_updated res src size (overwrite_eff (tgt - src) attrs) m m') o ->
      refined m F s (fun res m' => map_updated res src size (fun y _ => Mapped (y - src + tgt) attrs) m m') o).
    { intros o (res & mam' & s' & m' & F' & Eo & HR & Hv & Hu). exists res, mam', s', m', F'. split_and!; [done..|].
      intros y Hy. specialize (Hu y Hy). unfold overwrite_eff in Hu. by replace (y - src + tgt) with (y + (tgt - src)) by lia. }
    apply Hext. eapply (refined_table mam mam2); [done|done|done|done|by apply overwrite_table_spec|done|lia|lia|done..|].
    unfold overwrite_ok. split_and!; lia.
Qed.

Lemma remove_spec mam s m F src size reason : represents mam s m F -> can_grow mam (src + size) ->
  0 <= src -> 0 < size -> src + size < 2 ^ 64 -> 0 <= reason < 2 ^ 31 ->
  refined m F s (fun res m' => map_updated res src size (fun _ _ => Unmapped reason) m m')
    (mam_insert_not_existing_range hva_to_hpa hpa_to_hva (S fuel) cpu (Some mam) s src size reason).
Proof.
  intros [Hh Hi] Hg Hs Hsz Hw Hr. unfold mam_insert_not_existing_range. rewrite begin_spec, bind_Ok by done.
  set (mam1 := set_update mam _ _ _).
  assert (Hh1 : holds mam1 s m F) by exact Hh.
  assert (Hbad : refined m F s (fun res m' => map_updated res src size (fun _ _ => Unmapped reason) m m')
    (Ok (false, Some (end_update mam1), s))) by (eapply refined_refuse; [done|done|done|apply nothing_updated]).
  destruct (misaligned src) eqn:E1; [done|]. destruct (misaligned size) eqn:E3; [done|]. cbn [orb].
  destruct ((reason =? MAM_MAPPING_SUCCESSFUL) || (reason =? MAM_UNKNOWN_MAPPING)); [done|].
  rewrite (u64_small (src + size)) by lia.
  destruct (Z.ltb_spec (tsz 4) (src + size)) as [|Hle]; [done|]. change (tsz 4) with (2 ^ 48) in Hle.
  apply aligned_spec in E1, E3.
  destruct (cover_spec mam1 s m F src size Hh1 Hg Hs ltac:(lia) Hle) as (mam2 & s2 & F2 & -> & Hh2 & Hev2 & Hsr).
  rewrite bind_Ok. pose proof (same_rest_counter _ _ Hsr) as Hc2.
  destruct (Z.ltb_spec (tsz (first_table_ops mam2)) (src + size)) as [Hoom|Hcov].
  - exists false, (end_update mam2), s2, m, F2. split; [done|]. split; [split; [exact Hh2|by eapply end_spec]|].
    split; [done|apply nothing_updated].
  - pose proof Hh2 as (Hl2 & Hin2 & _). unfold mam_remove_range_from_table.
    eapply (refined_table mam mam2 _ _ _ _ _ (removal_eff reason) any_range
      (remove_range hva_to_hpa hpa_to_hva (first_table_ops mam2) mam2 reason) src 0 size); try done; try lia.
    by apply removal_table_spec.
Qed.

Lemma permission_spec op mam s m F src size attrs : represents mam s m F ->
  op <> MAM_OVERWRITE_ADDR_AND_ATTRS -> (forall curr, attr_ok K curr -> attr_ok K (new_attributes op curr attrs)) ->
  0 <= src -> 0 < size -> src + size <= tsz (first_table_ops mam) ->
  refined m F s (fun res m' => map_updated res src size (permission_eff op attrs) m m')
    (change_permissions hva_to_hpa hpa_to_hva (S fuel) cpu op (Some mam) s src size attrs).
Proof.
  intros [Hh Hi] Hop Hnew Hs Hsz Hle. unfold change_permissions. rewrite begin_spec, bind_Ok by done.
  set (mam1 := set_update mam _ _ _).
  assert (Hh1 : holds mam1 s m F) by exact Hh.
  destruct (misaligned src) eqn:E1; [eapply refined_refuse; [done|done|done|apply nothing_updated]|].
  destruct (misaligned size) eqn:E3; [eapply refined_refuse; [done|done|done|apply nothing_updated]|]. cbn [orb].
  apply aligned_spec in E1, E3. pose proof Hh1 as (Hl1 & Hin1 & _).
  eapply (refined_table mam mam1 s s m F F (permission_eff op attrs) any_range); try done; try apply evolves_refl.
  by apply permission_table_spec.
Qed.
End Interface.

(** * A mapping from its creation on *)

Section Internal.
Context {A : Type} `{!Pages A} (hva_to_hpa hpa_to_hva : Z -> option Z).
Context `{!PagesLaws A (table_ok hva_to_hpa hpa_to_hva)}.
Context (fuel : nat) (cpu : Z).

#[local] Abbreviation K := MAM_INTERNAL_ENTRY_OPS.
#[local] Abbreviation represents := (represents hva_to_hpa hpa_to_hva K).

Definition nothing_mapped : amap := fun _ => Unmapped MAM_UNKNOWN_MAPPING.

Lemma fresh_table ts y : 0 <= y -> ts = replicate 512 (TInv MAM_UNKNOWN_MAPPING) -> table_map 1 ts y = nothing_mapped y.
Proof.
  intros Hy ->. unfold table_map. rewrite tsz_esz. pose proof (esz_pos 1).
  destruct (Z.ltb_spec y (512 * esz 1)); [|done]. unfold tden. rewrite lookup_replicate_2; [done|].
  assert (0 <= y / esz 1 < 512) by (split; [apply Z.div_pos; lia|apply Z.div_lt_upper_bound; lia]). lia.
Qed.

Lemma create_mapping_spec s attrs : pages_ok hva_to_hpa hpa_to_hva s ->
  exists r s', mam_create_mapping s attrs = Ok (r, s') /\
    match r with
    | None => tabs s' = tabs s /\ pages_ok hva_to_hpa hpa_to_hva s'
    | Some (_, mam) => exists F, represents mam s' nothing_mapped F /\ evolves (tabs s) (tabs s') ∅ F
    end.
Proof.
  intros (S & Ho & Hd). unfold mam_create_mapping.
  destruct (alloc_law _ _ Ho) as (q & a1 & E1 & [[-> Ho1]|(Hq0 & HqS & Hqok & Ho1)]); rewrite E1, bind_Ok.
  { eexists None, _. split; [done|]. split; [done|]. by exists S. }
  destruct (Z.eqb_spec q 0); [done|]. unfold mam_create_table. cbn [pages tabs].
  destruct (alloc_law _ _ Ho1) as (p & a2 & E2 & [[-> Ho2]|(Hp0 & HpS & Hpok & Ho2)]); rewrite E2, bind_Ok; cbn [Z.eqb].
  - rewrite bind_Ok. cbn [Z.eqb pages tabs].
    destruct (free_law _ _ q Ho2) as (a3 & E3 & Ho3); [set_solver|]. rewrite E3, bind_Ok.
    eexists None, _. split; [done|]. split; [done|]. exists (({[q]} ∪ S) ∖ {[q]}). split; [done|]. cbn [tabs]. set_solver.
  - destruct (Z.eqb_spec p 0); [done|]. rewrite bind_Ok. destruct (Z.eqb_spec p 0); [done|].
    set (es := (fun e => mam_invalidate_entry e MAM_UNKNOWN_MAPPING MAM_LEAF_INTERNAL_ENTRY) <$> stale a1 p).
    eexists (Some (q, _)), _. split; [done|]. exists {[p]}.
    assert (Hpd : p ∉ dom (tabs s)) by set_solver.
    split; [|cbn [tabs]; by apply evolves_new]. split; [|by split_and!].
    destruct (invalid_table hva_to_hpa hpa_to_hva K 1 (<[p := es]> (tabs s)) p (stale a1 p) MAM_UNKNOWN_MAPPING) as [Hrp Hfp];
      [done|apply stale_law|apply lookup_insert_eq|].
    split; [unfold level_ok; simpl; lia|]. split; [done|].
    split; [exists ({[p]} ∪ ({[q]} ∪ S)); split; [done|cbn [tabs]; rewrite dom_insert_L; set_solver]|].
    split; [done|]. eexists. split; [exact Hrp|]. split; [unfold tfp; cbn [first_table first_table_ops]; rewrite Hfp; by rewrite union_empty_r_L|].
    intros y Hy. symmetry. by apply fresh_table.
Qed.

(** ** Sequences of operations *)

Inductive mam_op :=
| Insert (src tgt size attrs : Z)
| InsertNotExisting (src size reason : Z)
| AddPermissions (src size attrs : Z)
| RemovePermissions (src size attrs : Z)
| OverwritePermissions (src size attrs : Z).

Definition run_op (op : mam_op) (mam : MAM) (s : mstate A) : outcome (bool * option MAM * mstate A) :=
  match op with
  | Insert src tgt size attrs =>
      mam_insert_range hva_to_hpa hpa_to_hva (S fuel) cpu (Some mam) s src tgt size attrs
  | InsertNotExisting src size reason =>
      mam_insert_not_existing_range hva_to_hpa hpa_to_hva (S fuel) cpu (Some mam) s src size reason
  | AddPermissions src size attrs =>
      mam_add_permissions_to_existing_mapping hva_to_hpa hpa_to_hva (S fuel) cpu (Some mam) s src size attrs
  | RemovePermissions src size attrs =>
      mam_remove_permissions_from_existing_mapping hva_to_hpa hpa_to_hva (S fuel) cpu (Some mam) s src size attrs
  | OverwritePermissions src size attrs =>
      mam_overwrite_permissions_in_existing_mapping hva_to_hpa hpa_to_hva (S fuel) cpu (Some mam) s src size attrs
  end.

(** What the caller must keep to: no empty range except for an insertion, no wrap-around,
    targets of 40 bits, attributes of 8 bits, and permissions inside the covered range. *)
Definition op_pre (op : mam_op) (mam : MAM) : Prop :=
  match op with
  | Insert src tgt size attrs => 0 <= src /\ 0 <= size /\ src + size < 2 ^ 64 /\ 0 <= tgt /\ tgt + size <= 2 ^ 40 /\ fits 8 attrs
  | InsertNotExisting src size reason => 0 <= src /\ 0 < size /\ src + size < 2 ^ 64 /\ fits 31 reason
  | AddPermissions src size attrs | RemovePermissions src size attrs | OverwritePermissions src size attrs =>
      0 <= src /\ 0 < size /\ src + size <= tsz (first_table_ops mam) /\ fits 8 attrs
  end.

(** The permissions after an operation, a 32-bit word: bits 0 to 2 and bit 7 (read, write,
    execute and suppress #VE) are the ones that can be overwritten. *)
Definition with_permissions (op : mam_op) (curr : Z) : Z :=
  match op with
  | AddPermissions _ _ attrs => Z.lor curr attrs
  | RemovePermissions _ _ attrs => Z.ldiff (u32 curr) attrs
  | OverwritePermissions _ _ attrs => Z.lor (Z.ldiff curr 0x87) (Z.land attrs 0x87)
  | _ => curr
  end.

Definition permissions_changed (op : mam_op) (_ : Z) (d : mapping) : mapping :=
  match d with Mapped a curr => Mapped a (with_permissions op curr) | Unmapped r => Unmapped r end.

(** The abstract operation. *)
Definition op_spec (op : mam_op) (res : bool) (m m' : amap) : Prop :=
  match op with
  | Insert src tgt size attrs => map_updated res src size (fun y _ => Mapped (y - src + tgt) attrs) m m'
  | InsertNotExisting src size reason => map_updated res src size (fun _ _ => Unmapped reason) m m'
  | AddPermissions src size _ | RemovePermissions src size _ | OverwritePermissions src size _ =>
      map_updated res src size (permissions_changed op) m m'
  end.

(** The requests that the argument checks refuse. *)
Definition op_refused (op : mam_op) : Prop :=
  match op with
  | Insert src tgt size _ => src mod 4096 <> 0 \/ tgt mod 4096 <> 0 \/ size mod 4096 <> 0 \/ size = 0 \/ 2 ^ 48 < src + size
  | InsertNotExisting src size reason =>
      src mod 4096 <> 0 \/ size mod 4096 <> 0 \/ reason = MAM_MAPPING_SUCCESSFUL \/ reason = MAM_UNKNOWN_MAPPING \/ 2 ^ 48 < src + size
  | AddPermissions src size _ | RemovePermissions src size _ | OverwritePermissions src size _ =>
      src mod 4096 <> 0 \/ size mod 4096 <> 0
  end.

(** What the result of an operation tells: TRUE, the request was not refused; FALSE, it was refused and
    nothing changed, or it was not and the heap had no page for a table. *)
Definition result_explained (op : mam_op) (res : bool) (s s' : mstate A) : Prop :=
  if res then ~ op_refused op else op_refused op /\ s' = s \/ ~ op_refused op /\ starved s'.

Lemma misaligned_spec x : misaligned x = true <-> x mod 4096 <> 0.
Proof. rewrite <- aligned_spec. destruct (misaligned x); split; intros H; congruence. Qed.

Lemma insert_refused_spec src tgt size attrs : 0 <= src -> 0 <= size -> src + size < 2 ^ 64 ->
  insert_refused src tgt size = true <-> op_refused (Insert src tgt size attrs).
Proof.
  intros. unfold insert_refused. rewrite !orb_true_iff, !misaligned_spec, Z.eqb_eq, Z.ltb_lt, u64_small by lia.
  change (tsz 4) with (2 ^ 48). cbn [op_refused]. tauto.
Qed.

Lemma removal_refused_spec src size reason : 0 <= src -> 0 <= size -> src + size < 2 ^ 64 ->
  removal_refused src size reason = true <-> op_refused (InsertNotExisting src size reason).
Proof.
  intros. unfold removal_refused. rewrite !orb_true_iff, !misaligned_spec, !Z.eqb_eq, Z.ltb_lt, u64_small by lia.
  change (tsz 4) with (2 ^ 48). cbn [op_refused]. tauto.
Qed.

Lemma change_refused_spec src size : change_refused src size = true <-> src mod 4096 <> 0 \/ size mod 4096 <> 0.
Proof. unfold change_refused. by rewrite orb_true_iff, !misaligned_spec. Qed.

Lemma explained (b : bool) (P : Prop) (s s' : mstate A) (res : bool) : (b = true <-> P) ->
  (res = true -> b = false) -> (res = false -> b = true /\ s' = s \/ b = false /\ starved s') ->
  if res then ~ P else P /\ s' = s \/ ~ P /\ starved s'.
Proof.
  intros Hb H1 H2. destruct res; [rewrite <- Hb, H1 by done; congruence|]. destruct (H2 eq_refl) as [[-> ->]|[-> ?]]; [left|right]; split; try done.
  - by apply Hb.
  - rewrite <- Hb. congruence.
Qed.

Lemma run_op_result op mam s res h s' : op_pre op mam -> run_op op mam s = Ok (res, h, s') -> result_explained op res s s'.
Proof.
  intros Hpre E. unfold result_explained. destruct op as [src tgt size attrs|src size reason|src size attrs|src size attrs|src size attrs];
    cbn [run_op op_pre] in *; destruct_and!.
  - eapply explained; [apply insert_refused_spec; lia| |]; intros ->; [by eapply insert_not_refused|by eapply insert_fails].
  - eapply explained; [apply removal_refused_spec; lia| |]; intros ->; [by eapply removal_not_refused|by eapply removal_fails].
  - eapply explained; [apply change_refused_spec| |]; intros ->; [by eapply change_not_refused|by eapply change_fails].
  - eapply explained; [apply change_refused_spec| |]; intros ->; [by eapply change_not_refused|by eapply change_fails].
  - eapply explained; [apply change_refused_spec| |]; intros ->; [by eapply change_not_refused|by eapply change_fails].
Qed.

Lemma set_one curr attrs k : 0 <= k -> forall j, 0 <= j ->
  Z.testbit (set_bitfield curr k 1 (bitfield attrs k 1)) j = if j =? k then Z.testbit attrs k else Z.testbit curr j.
Proof.
  intros Hk j Hj. rewrite testbit_set by lia. destruct (Z.eqb_spec j k) as [->|Hne].
  - destruct (Z.leb_spec k k), (Z.ltb_spec k (k + 1)); try lia. cbn [andb]. rewrite testbit_bitfield by lia.
    by replace (k + (k - k)) with k by lia; replace (k - k) with 0 by lia.
  - destruct (Z.leb_spec k j), (Z.ltb_spec j (k + 1)); try lia; done.
Qed.

(** The code computes these permissions. *)
Lemma new_attributes_set src size curr attrs :
  new_attributes MAM_SET_ATTRS curr attrs = with_permissions (AddPermissions src size attrs) curr.
Proof. done. Qed.

Lemma new_attributes_clear src size curr attrs :
  new_attributes MAM_CLEAR_ATTRS curr attrs = with_permissions (RemovePermissions src size attrs) curr.
Proof.
  cbn [new_attributes with_permissions]. unfold u32, wrap. rewrite <- !Z.land_ones by lia.
  apply Z.bits_inj'. intros j Hj. rewrite Z.ldiff_spec, !Z.land_spec, Z.lnot_spec by done.
  by rewrite (andb_comm (negb _)), andb_assoc.
Qed.

Lemma new_attributes_overwrite src size curr attrs :
  new_attributes MAM_OVERWRITE_ATTRS curr attrs = with_permissions (OverwritePermissions src size attrs) curr.
Proof.
  cbn [new_attributes with_permissions]. cbv zeta. apply Z.bits_inj'. intros j Hj.
  rewrite Z.lor_spec, Z.ldiff_spec, Z.land_spec, !set_one by lia.
  destruct (Z.eqb_spec j 7) as [->|]; [by rewrite andb_false_r, andb_true_r|].
  destruct (Z.eqb_spec j 2) as [->|]; [by rewrite andb_false_r, andb_true_r|].
  destruct (Z.eqb_spec j 1) as [->|]; [by rewrite andb_false_r, andb_true_r|].
  destruct (Z.eqb_spec j 0) as [->|]; [by rewrite andb_false_r, andb_true_r|].
  assert (Z.testbit 0x87 j = false) as ->.
  { destruct (decide (j < 8)); [|by apply (bits_above 0x87 8); lia].
    assert (j = 3 \/ j = 4 \/ j = 5 \/ j = 6) as [->|[->|[->| ->]]] by lia; done. }
  by rewrite andb_true_r, andb_false_r, orb_false_r.
Qed.

Lemma map_updated_eff res src size f g m m' : (forall y d, f y d = g y d) ->
  map_updated res src size f m m' -> map_updated res src size g m m'.
Proof. intros Hfg H y Hy. specialize (H y Hy). unfold updated_at in *. by rewrite <- Hfg. Qed.

Lemma land_bound a b : 0 <= a < 2 ^ 8 -> 0 <= b -> 0 <= Z.land a b < 2 ^ 8.
Proof.
  intros Ha Hb. split; [apply Z.land_nonneg; lia|]. apply bits_lt_pow2; [apply Z.land_nonneg; lia|lia|].
  intros j Hj. by rewrite Z.land_spec, (bits_above a 8 j) by lia.
Qed.

Lemma set_bitfield_bound v lo n x : 0 <= v < 2 ^ 8 -> 0 <= lo -> 0 <= n -> lo + n <= 8 ->
  0 <= set_bitfield v lo n x < 2 ^ 8.
Proof.
  intros Hv Hlo Hn Hs. assert (0 <= set_bitfield v lo n x).
  { unfold set_bitfield. apply Z.lor_nonneg. split; [apply Z.land_nonneg; lia|].
    apply Z.shiftl_nonneg, Z.land_nonneg. right. rewrite Z.ones_equiv. assert (0 < 2 ^ n) by (apply Z.pow_pos_nonneg; lia). lia. }
  split; [done|]. apply bits_lt_pow2; [done|lia|]. intros j Hj. rewrite testbit_set by lia.
  destruct (Z.ltb_spec j (lo + n)); [lia|]. rewrite andb_false_r. apply (bits_above v 8); lia.
Qed.

Lemma new_attributes_fit op attrs curr : fits 8 attrs -> 0 <= curr < 2 ^ 8 -> 0 <= new_attributes op curr attrs < 2 ^ 8.
Proof.
  unfold fits. intros Ha Hc. destruct op; cbn [new_attributes].
  1,3: apply land_bound; [done|apply u32_range].
  - split; [apply Z.lor_nonneg; lia|]. apply bits_lt_pow2; [apply Z.lor_nonneg; lia|lia|].
    intros j Hj. by rewrite Z.lor_spec, (bits_above curr 8 j), (bits_above attrs 8 j) by lia.
  - repeat (apply set_bitfield_bound; [|lia..]). done.
Qed.

Lemma run_op_spec op mam s m F : represents mam s m F -> op_pre op mam ->
  refined hva_to_hpa hpa_to_hva K m F s (fun res m' => op_spec op res m m') (run_op op mam s).
Proof.
  intros HR Hpre. destruct op as [src tgt size attrs|src size reason|src size attrs|src size attrs|src size attrs];
    cbn [run_op op_pre op_spec] in *; destruct_and!.
  - apply insert_spec; try done; try exact _; try lia. by left.
  - apply remove_spec; try done; try exact _; try lia. by left.
  - eapply refined_weaken; [|apply permission_spec; try done; try exact _; intros; by apply new_attributes_fit].
    intros res m'. apply map_updated_eff. intros y [r|a curr]; [done|]. cbn [permission_eff permissions_changed]. by rewrite (new_attributes_set src size).
  - eapply refined_weaken; [|apply permission_spec; try done; try exact _; intros; by apply new_attributes_fit].
    intros res m'. apply map_updated_eff. intros y [r|a curr]; [done|]. cbn [permission_eff permissions_changed]. by rewrite (new_attributes_clear src size).
  - eapply refined_weaken; [|apply permission_spec; try done; try exact _; intros; by apply new_attributes_fit].
    intros res m'. apply map_updated_eff. intros y [r|a curr]; [done|]. cbn [permission_eff permissions_changed]. by rewrite (new_attributes_overwrite src size).
Qed.

Fixpoint run_ops (ops : list mam_op) (mam : MAM) (s : mstate A) : outcome (list bool * MAM * mstate A) :=
  match ops with
  | [] => Ok ([], mam, s)
  | op :: ops' =>
      r ← run_op op mam s;
      let '(res, handle, s) := r in
      match handle with
      | None => Fault
      | Some mam =>
          r ← run_ops ops' mam s;
          let '(rs, mam, s) := r in Ok (res :: rs, mam, s)
      end
  end.

Fixpoint ops_pre (ops : list mam_op) (mam : MAM) (s : mstate A) : Prop :=
  match ops with
  | [] => True
  | op :: ops' => op_pre op mam /\ forall res mam' s', run_op op mam s = Ok (res, Some mam', s') -> ops_pre ops' mam' s'
  end.

Inductive abs_run : list mam_op -> amap -> list bool -> amap -> Prop :=
| abs_nil m : abs_run [] m [] m
| abs_cons op ops res rs m m1 m2 : op_spec op res m m1 -> abs_run ops m1 rs m2 -> abs_run (op :: ops) m (res :: rs) m2.

Lemma run_ops_spec ops : forall mam s m F, represents mam s m F -> ops_pre ops mam s ->
  exists rs mam' s' m' F', run_ops ops mam s = Ok (rs, mam', s') /\ abs_run ops m rs m' /\
    represents mam' s' m' F' /\ evolves (tabs s) (tabs s') F F'.
Proof.
  induction ops as [|op ops IH]; intros mam s m F HR Hpre.
  { exists [], mam, s, m, F. split_and!; [done|constructor|done|apply evolves_refl]. }
  destruct Hpre as [Hpre Hrest]. cbn [run_ops].
  destruct (run_op_spec op mam s m F HR Hpre) as (res & mam1 & s1 & m1 & F1 & E & HR1 & Hev1 & Hs1).
  rewrite E, bind_Ok. destruct (IH mam1 s1 m1 F1 HR1 (Hrest _ _ _ E)) as (rs & mam2 & s2 & m2 & F2 & E2 & Hr2 & HR2 & Hev2).
  rewrite E2, bind_Ok. exists (res :: rs), mam2, s2, m2, F2. split_and!; [done|by econstructor|done|by eapply evolves_trans].
Qed.

Lemma ops_pre_at ops1 : forall mam s op ops2 rs mam1 s1, ops_pre (ops1 ++ op :: ops2) mam s ->
  run_ops ops1 mam s = Ok (rs, mam1, s1) -> op_pre op mam1.
Proof.
  induction ops1 as [|o ops1 IH]; intros mam s op ops2 rs mam1 s1 [Hpre Hrest] E; cbn [run_ops] in E; [by simplify_eq|].
  ostep E. destruct r as [[res [mam2|]] s2]; [|done]. ostep E. destruct r as [[rs2 mam3] s3]. injection E as <- <- <-.
  by eapply IH; [apply (Hrest _ _ _ E0)|].
Qed.
End Internal.

(** * Properties *)

(** C2. A mapping behaves as a function from addresses to mappings, from its creation on and over
    every sequence of insertions, removals and changes of permissions that keeps to op_pre: ranges that do
    not wrap around 2^64, no empty removal or change of permissions, targets of 40 bits, attributes of 8
    bits, and permissions changed inside the covered range (outside of these the code faults or changes
    other addresses: empty_removal_faults, wrapping_insertion_maps_elsewhere, permissions_change_elsewhere).
    Whatever tables are created, split, merged and destroyed, every query answers what the function says, an
    operation that succeeds changes exactly its range, one that fails leaves each address either unchanged
    or updated, and the pages of nobody else are written. An operation fails only when its arguments
    are refused (not page aligned, an empty insertion, a reserved reason, above 2^48), and then changes
    nothing, or when the heap has answered NULL to a request for a page. *)
Theorem mam_run_refines {A : Type} `{!Pages A} (hva_to_hpa hpa_to_hva : Z -> option Z)
  `{!PagesLaws A (table_ok hva_to_hpa hpa_to_hva)} (fuel : nat) (cpu inner_attrs ptr : Z) (s0 s : mstate A) (mam : MAM)
  (ops : list mam_op) :
  pages_ok hva_to_hpa hpa_to_hva s0 -> mam_create_mapping s0 inner_attrs = Ok (Some (ptr, mam), s) ->
  ops_pre hva_to_hpa hpa_to_hva fuel cpu ops mam s ->
  (exists rs mam' s' m F,
    run_ops hva_to_hpa hpa_to_hva fuel cpu ops mam s = Ok (rs, mam', s') /\
    abs_run ops nothing_mapped rs m /\ evolves (tabs s0) (tabs s') ∅ F /\
    forall y, 0 <= y ->
      mam_get_mapping hpa_to_hva cpu mam' s' y =
        Ok (match m y with
            | Mapped a attrs => (MAM_MAPPING_SUCCESSFUL, Some (a, attrs))
            | Unmapped r => (r, None)
            end)) /\
  (forall ops1 op ops2 rs1 mam1 s1 res h s2, ops = ops1 ++ op :: ops2 ->
    run_ops hva_to_hpa hpa_to_hva fuel cpu ops1 mam s = Ok (rs1, mam1, s1) ->
    run_op hva_to_hpa hpa_to_hva fuel cpu op mam1 s1 = Ok (res, h, s2) -> result_explained op res s1 s2).
Proof.
  intros Hpg Hc Hpre. split.
  - destruct (create_mapping_spec hva_to_hpa hpa_to_hva s0 inner_attrs Hpg) as (r & s1 & E & Hr).
    assert (Some (ptr, mam) = r /\ s = s1) as [<- <-] by (rewrite Hc in E; by simplify_eq).
    destruct Hr as (F0 & HR & Hev).
    destruct (run_ops_spec hva_to_hpa hpa_to_hva fuel cpu ops mam s _ F0 HR Hpre) as (rs & mam' & s' & m' & F' & E1 & Hrun & HR' & Hev').
    exists rs, mam', s', m', F'. split_and!; [done|done|by eapply evolves_trans|]. intros y Hy.
    exact (get_mapping_spec hva_to_hpa hpa_to_hva MAM_INTERNAL_ENTRY_OPS cpu mam' s' m' F' y HR' Hy).
  - intros ops1 op ops2 rs1 mam1 s1 res h s2 -> E1 E2. eapply run_op_result; [|exact E2].
    by eapply ops_pre_at.
Qed.
