(* ===== verification/MamHeap.v ===== *)
(** The address mapper on the page heap of heap.c: the heap gives what the mapper relies on,
    so a mapping whose tables come from the real heap behaves as an abstract map. *)

From S2P Require Import Prelude VmmDefs Lock Heap HeapSpec MamEntry MamEntrySpec Mam MamSpec MamMap.

Section HeapPages.
Context (fuel : nat) (cpu : Z) (hva_to_hpa hpa_to_hva : Z -> option Z).
(** What the pages of the heap hold when they are handed out. *)
Context (old : Z -> list Z) (old_length : forall p, length (old p) = 512%nat).

#[local] Abbreviation ok := (table_ok hva_to_hpa hpa_to_hva).

#[local] Instance heap_as_pages : Pages heap := {|
  vmm_page_alloc h := vmm_page_allocate (S fuel) cpu h 1;
  vmm_memory_free := vmm_page_free (S fuel) cpu;
  stale _ p := old p
|}.

(** The pages [S] are allocations of one page, and every page of the heap can be a table. *)
Definition heap_owns (h : heap) (S : gset Z) : Prop :=
  exists bs, heap_wf h bs /\ heap_idle h /\
    (forall i, real_page h i -> ok (page_address h i)) /\
    (forall p, p ∈ S -> exists pos, p = page_address h (Z.of_nat pos) /\ real_page h (Z.of_nat pos) /\ used_at bs pos 1).

Lemma page_address_inj h i j : geometry h -> real_page h i -> real_page h j -> page_address h i = page_address h j -> i = j.
Proof. intros G Hi Hj E. rewrite <- (pointer_to_page h i G Hi), <- (pointer_to_page h j G Hj). by rewrite E. Qed.

Lemma heap_alloc_law h S : heap_owns h S ->
  exists p h', vmm_page_allocate (Datatypes.S fuel) cpu h 1 = Ok (p, h') /\
    (p = 0 /\ heap_owns h' S \/ p <> 0 /\ p ∉ S /\ ok p /\ heap_owns h' ({[p]} ∪ S)).
Proof.
  intros (bs & WF & Hi & Hok & HS). pose proof (wf_geometry _ _ WF) as G.
  destruct (first_fit 1 bs) as [[pos bs']|] eqn:F.
  - destruct (allocate_some fuel cpu h bs 1 pos bs' WF Hi ltac:(lia) F) as (R & _ & h' & E & WF' & Hi' & Hs).
    assert (Hadr : forall i, page_address h' i = page_address h i /\ (real_page h' i <-> real_page h i))
      by (intros i; by apply same_heap_address).
    do 2 eexists. split; [exact E|]. right. destruct (page_to_pointer h _ G R) as (_ & ? & _).
    split_and!; [lia| |by apply Hok|].
    + intros Hp. destruct (HS _ Hp) as (q & Eq & Rq & Uq). apply page_address_inj in Eq; [|done..].
      by apply (first_fit_fresh 1 bs pos bs' q 1 ltac:(lia) (wf_blocks _ _ WF) F Uq), Nat2Z.inj.
    + exists bs'. split_and!; [done..| |].
      * intros i Ri%Hadr. rewrite (proj1 (Hadr i)). by apply Hok.
      * intros p [->%elem_of_singleton|Hp]%elem_of_union.
        -- exists pos. rewrite (proj1 (Hadr _)). split_and!; [done|by apply Hadr|by eapply first_fit_used].
        -- destruct (HS _ Hp) as (q & -> & Rq & Uq). exists q. rewrite (proj1 (Hadr _)).
           split_and!; [done|by apply Hadr|by eapply first_fit_keeps].
  - exists 0, h. split; [by eapply allocate_none|]. left. split; [done|]. by exists bs.
Qed.

Lemma heap_free_law h S p : heap_owns h S -> p ∈ S ->
  exists h', vmm_page_free (Datatypes.S fuel) cpu h p = Ok h' /\ heap_owns h' (S ∖ {[p]}).
Proof.
  intros (bs & WF & Hi & Hok & HS) Hp. pose proof (wf_geometry _ _ WF) as G.
  destruct (HS _ Hp) as (pos & -> & R & l1 & l2 & Eb & <-).
  destruct (page_free_ok h bs WF fuel cpu l1 1 l2 Eb R Hi) as (h' & bs' & E & RF & _ & WF' & Hi' & Hs).
  assert (Hadr : forall i, page_address h' i = page_address h i /\ (real_page h' i <-> real_page h i))
    by (intros i; by apply same_heap_address).
  exists h'. split; [done|]. exists bs'. split_and!; [done..| |].
  - intros i Ri%Hadr. rewrite (proj1 (Hadr i)). by apply Hok.
  - intros p [Hpp Hne]%elem_of_difference. destruct (HS _ Hpp) as (q & -> & Rq & Uq). exists q.
    rewrite (proj1 (Hadr _)). split_and!; [done|by apply Hadr|]. rewrite not_elem_of_singleton in Hne.
    pose proof (wf_blocks _ _ WF) as Hb. rewrite Eb in Hb, RF, Uq.
    destruct (release_spec _ _ _ Hb) as (l1' & i & j & l2' & El & Er & _ & _ & RS & _).
    rewrite RF in RS. injection RS as ->. subst l2. rewrite El in Uq, Hne.
    apply used_at_release; [|exact Uq]. intros ->. by apply Hne.
Qed.

#[local] Instance heap_pages_laws : PagesLaws heap (table_ok hva_to_hpa hpa_to_hva) := {|
  owns := heap_owns;
  alloc_law := heap_alloc_law;
  free_law := heap_free_law;
  stale_law _ := old_length
|}.
End HeapPages.

(** * An instance *)

(** A heap of eight pages at 0x10000, with host addresses equal to physical ones. *)
Module Example.
Definition old (_ : Z) : list Z := replicate 512 (2 ^ 63).

#[export] Instance sample_pages : Pages heap := heap_as_pages 0 0 old.
#[export] Instance sample_laws : PagesLaws heap (table_ok Some Some) :=
  heap_pages_laws 0 0 Some Some old (fun _ => length_replicate 512 _).

Definition start : mstate heap := mk_mstate ∅ (sample [Free 8]).

Definition created : MAM * mstate heap :=
  match mam_create_mapping start 7 with
  | Ok (Some (_, mam), s) => (mam, s)
  | _ => (mk_mam 0 0 0 0 (mk_lock 0 0) 0 0 false 0 0 0 0 0 0, start)
  end.

Definition ops : list mam_op :=
  [Insert 0 (2 ^ 30) (2 ^ 21) 7; RemovePermissions 4096 8192 2; Insert (2 ^ 21) 0 4096 3; InsertNotExisting 0 4096 2].

Lemma start_ok : pages_ok Some Some start.
Proof.
  exists ∅. split; [|done]. exists [Free 8]. split_and!; [apply sample_wf; [blocks_ok_tac|simpl; lia]|done| |set_solver].
  intros i [Hi _]. change (0 <= i < 8) in Hi. change (page_address _ i) with (65536 + i * 4096).
  assert ((65536 + i * 4096) mod 4096 = 0) by (rewrite Z.mod_add by lia; done).
  unfold table_ok, addr_ok, mam_hva_to_hpa, mam_hpa_to_hva. cbv [default from_option id]. split_and!; try done; lia.
Qed.
Lemma created_eq : mam_create_mapping start 7 = Ok (Some (65536, created.1), created.2).
Proof. vm_compute. reflexivity. Qed.

Lemma created_represents : exists F, represents Some Some MAM_INTERNAL_ENTRY_OPS created.1 created.2 nothing_mapped F.
Proof.
  destruct (create_mapping_spec Some Some start 7 start_ok) as (r & s' & E & H). rewrite created_eq in E.
  revert E H. generalize created.1, created.2. intros mam s E H. injection E as <- <-. destruct H as (F & H & _). by exists F.
Qed.

Definition level_after (op : mam_op) (mam : MAM) (s : mstate heap) : option nat :=
  match run_op Some Some 0 0 op mam s with Ok (_, Some mam, _) => Some (first_table_ops mam) | _ => None end.

Lemma ops_ok : ops_pre Some Some 0 0 ops created.1 created.2.
Proof.
  unfold ops. cbn [ops_pre op_pre]. unfold fits. split; [lia|]. intros res mam s E.
  assert (level_after (Insert 0 (2 ^ 30) (2 ^ 21) 7) created.1 created.2 = Some 1%nat) as H by (vm_compute; reflexivity).
  unfold level_after in H. rewrite E in H. injection H as ->. change (mam_get_size_covered_by_table 1) with (2 ^ 21).
  clear E. split; [lia|]. intros ? ? ? _. split; [lia|]. intros ? ? ? _. split; [lia|done].
Qed.
End Example.

Import Example.

(** The theorem on this heap of eight pages: the four operations succeed and the queries see them. *)
Lemma mam_run_refines_witness :
  exists mam' s' m F,
    run_ops Some Some 0 0 ops created.1 created.2 = Ok ([true; true; true; true], mam', s') /\
    abs_run ops nothing_mapped [true; true; true; true] m /\ evolves ∅ (tabs s') ∅ F /\
    forall y, 0 <= y ->
      mam_get_mapping Some 0 mam' s' y =
        Ok (match m y with
            | Mapped a attrs => (MAM_MAPPING_SUCCESSFUL, Some (a, attrs))
            | Unmapped r => (r, None)
            end).
Proof.
  destruct (mam_run_refines Some Some 0 0 7 65536 start created.2 created.1 ops start_ok created_eq ops_ok)
    as [(rs & mam' & s' & m & F & E & H) _].
  exists mam', s', m, F. assert (rs = [true; true; true; true]) as ->; [|split; [exact E|exact H]].
  assert (X : match run_ops Some Some 0 0 ops created.1 created.2 with Ok (rs, _, _) => rs | _ => [] end = [true; true; true; true])
    by (vm_compute; reflexivity). by rewrite E in X.
Defined.

(** * Deviations *)

Definition after (r : outcome (bool * option MAM * mstate heap)) (f : MAM -> mstate heap -> outcome (bool * option MAM * mstate heap))
  : outcome (bool * option MAM * mstate heap) :=
  r ← r; match r with (_, Some mam, s) => f mam s | _ => Fault end.

(** The result of an operation and what it leaves at an address. *)
Definition seen (r : outcome (bool * option MAM * mstate heap)) (y : Z) : outcome (bool * (Z * option (Z * Z))) :=
  r ← r;
  match r with
  | (res, Some mam, s) => m ← mam_get_mapping Some 0 mam s y; Ok (res, m)
  | _ => Fault
  end.

(** mam_insert_not_existing_range has no check for an empty range: it runs over the entries of
    the whole first table, builds tables below the lowest level and calls through a NULL level. *)
Theorem empty_removal_faults :
  mam_insert_not_existing_range Some Some 1 0 (Some created.1) created.2 0 0 2 = Fault.
Proof. vm_compute. reflexivity. Qed.

(** A range that ends at 2^64 passes every check of mam_insert_range, since the end wraps to 0:
    the insertion succeeds and maps another address, inside the first table. *)
Theorem wrapping_insertion_maps_elsewhere :
  seen (mam_insert_range Some Some 1 0 (Some created.1) created.2 (2 ^ 64 - 4096) 8192 4096 7) (2 ^ 21 - 4096)
    = Ok (true, (MAM_MAPPING_SUCCESSFUL, Some (8192, 7))) /\
  seen (mam_insert_range Some Some 1 0 (Some created.1) created.2 (2 ^ 64 - 4096) 8192 4096 7) (2 ^ 64 - 4096)
    = Ok (true, (MAM_UNKNOWN_MAPPING, None)).
Proof. split; vm_compute; reflexivity. Qed.

(** The operations on permissions do not check that the first table covers the range: with a
    first table of 2 MB, a change at 2 MB succeeds and changes address 0. *)
Theorem permissions_change_elsewhere :
  seen (after (mam_insert_range Some Some 1 0 (Some created.1) created.2 0 4096 4096 7) (fun mam s =>
    mam_remove_permissions_from_existing_mapping Some Some 1 0 (Some mam) s (2 ^ 21) 4096 2)) 0
    = Ok (true, (MAM_MAPPING_SUCCESSFUL, Some (4096, 5))).
Proof. vm_compute. reflexivity. Qed.

(** Taking all permissions from an EPT leaf makes its entry non-present, with the upper part of
    the address in the place of the reason: below 4 GB the query then answers
    MAM_MAPPING_SUCCESSFUL without an address or attributes. *)
Theorem no_permissions_read_as_success :
  seen (after (mam_insert_range Some Some 1 0 (Some created.1) created.2 0 4096 4096 7) (fun mam s =>
    r ← mam_convert_to_ept Some Some 1 0 (Some mam) s 0 0 0;
    let '(_, handle, s) := r in
    mam_remove_permissions_from_existing_mapping Some Some 1 0 handle s 0 4096 7)) 0
    = Ok (true, (MAM_MAPPING_SUCCESSFUL, None)).
Proof. vm_compute. reflexivity. Qed.
