(* ===== verification/MamIter.v ===== *)
(** Iteration over the ranges of a mapping: the iterator ends, and the ranges it visits are
    adjacent, cover what the first table covers and are uniform. *)

From S2P Require Import Prelude VmmDefs Lock Heap HeapSpec MamEntry MamEntrySpec Mam MamSpec MamMap MamHeap.

#[local] Abbreviation esz := mam_get_size_covered_by_entry.
#[local] Abbreviation tsz := mam_get_size_covered_by_table.

(** A mapping seen [d] bytes further. *)
Definition shifted (m : mapping) (d : Z) : mapping :=
  match m with Mapped a attrs => Mapped (a + d) attrs | Unmapped r => Unmapped r end.

(** [x] is the first address of the leaf, or invalid entry, that covers it. *)
Fixpoint at_start (l : nat) (t : tree) (x : Z) : Prop :=
  match t with
  | TNode _ ts =>
      match l with
      | O => False
      | S l' => match ts !! Z.to_nat (x / esz l') with Some t' => at_start l' t' (x mod esz l') | None => False end
      end
  | _ => x = 0
  end.
Definition tat_start (l : nat) (ts : list tree) (y : Z) : Prop :=
  match ts !! Z.to_nat (y / esz l) with Some t => at_start l t (y mod esz l) | None => False end.

Section Ranges.
Context {A : Type} `{!Pages A} (hva_to_hpa hpa_to_hva : Z -> option Z) (K : MAM_ENTRY_OPS).
Context `{!EntryLaws hva_to_hpa hpa_to_hva K}.

#[local] Abbreviation rep := (rep hva_to_hpa hpa_to_hva K).
#[local] Abbreviation trep := (trep hva_to_hpa hpa_to_hva K).

Lemma at_start_0 l : forall tabs e t, rep l tabs e t -> at_start l t 0.
Proof.
  induction l as [|l IH]; intros tabs e t Hr; [by destruct t; [..|destruct Hr as (_ & _ & _ & [])]|].
  destruct t as [r|a attrs|p ts]; [done..|]. destruct l as [|l]; [by destruct Hr as (_ & _ & _ & [])|].
  apply rep_node in Hr as (_ & _ & _ & Hrep). pose proof (esz_pos (S l)).
  change (tat_start (S l) ts 0). unfold tat_start. rewrite Z.div_0_l, Z.mod_0_l by lia. change (Z.to_nat 0) with 0%nat.
  pose proof (trep_length _ _ _ _ _ _ _ Hrep) as Hlen.
  destruct (lookup_lt_is_Some_2 ts 0%nat ltac:(lia)) as [t Ht]. rewrite Ht.
  destruct (trep_lookup _ _ _ _ _ _ _ 0%nat t Hrep Ht) as (es & e1 & _ & _ & _ & Hr1). by eapply IH.
Qed.

(** Every entry boundary is the start of a range. *)
Lemma tat_start_aligned l tabs h ts (i : nat) : trep l tabs h ts -> (i < 512)%nat -> tat_start l ts (Z.of_nat i * esz l).
Proof.
  intros Hrep Hi. pose proof (esz_pos l). pose proof (trep_length _ _ _ _ _ _ _ Hrep) as Hlen.
  unfold tat_start. rewrite Z.div_mul, Z.mod_mul, Nat2Z.id by lia.
  destruct (lookup_lt_is_Some_2 ts i ltac:(lia)) as [t Ht]. rewrite Ht.
  destruct (trep_lookup _ _ _ _ _ _ _ i t Hrep Ht) as (es & e1 & _ & _ & _ & Hr1). by eapply at_start_0.
Qed.

(** What [continuing] counts: entries that continue the first one. *)
Definition continues_at (l : nat) (t t' : tree) (k : Z) : Prop :=
  match t with
  | TInv r => t' = TInv r
  | TLeaf a attrs => t' = TLeaf (a + esz l * k) attrs
  | TNode _ _ => False
  end.

Lemma node_or_not t : (exists p ts, t = TNode p ts) \/ forall p ts, t <> TNode p ts.
Proof. destruct t; [by right..|left; eauto]. Qed.

Definition present_tree (t : tree) : bool := match t with TInv _ => false | _ => true end.

Lemma continuing_spec l tabs e0 t0 : level_ok l -> rep l tabs e0 t0 -> (forall p ts, t0 <> TNode p ts) ->
  forall es ts k, Forall2 (rep l tabs) es ts -> 0 <= k -> k + Z.of_nat (length es) <= 512 ->
  exists n : nat,
    continuing K l (present_tree t0) (mam_get_address_from_leaf_entry e0 l K)
      (mam_get_attributes_from_entry e0 l K) (invalid_reason e0) k es = Z.of_nat n /\
    (n <= length es)%nat /\ forall (j : nat) t, (j < n)%nat -> ts !! j = Some t -> continues_at l t0 t (k + Z.of_nat j).
Proof.
  intros Hl Hr0 Hleaf es ts k Hes. revert k. induction Hes as [|e t es ts Hr Hes IH]; intros k Hk Hb.
  { exists 0%nat. split_and!; [done|done|lia]. }
  cbn [continuing]. match goal with |- context [if ?b then _ else _] => destruct b eqn:E end; cbn [length] in Hb.
  2: { exists 0%nat. split_and!; [done|lia|lia]. }
  destruct (IH (k + 1) ltac:(lia) ltac:(lia)) as (n & -> & Hn & Hj). exists (S n).
  split_and!; [lia|cbn [length]; lia|]. intros [|j] t' Hlt Ht'.
  2: { replace (k + Z.of_nat (S j)) with (k + 1 + Z.of_nat j) by lia. apply Hj; [lia|done]. }
  injection Ht' as <-. replace (k + Z.of_nat 0) with k by lia. clear IH Hj.
  pose proof (rep_leafness _ _ _ _ _ _ _ Hr0) as H0. pose proof (rep_leafness _ _ _ _ _ _ _ Hr) as H1.
  destruct t0 as [r|a attrs|p ts0]; cbn [present_tree] in E; [| |by destruct (Hleaf p ts0)]; cbn [continues_at].
  - destruct H0 as (_ & _ & Er & _). destruct t as [r1|a1 attrs1|p1 ts1].
    + destruct H1 as (_ & Ep & E1 & _). rewrite Ep, E1, Er in E. by apply Z.eqb_eq in E as ->.
    + destruct H1 as (_ & E1 & _). by rewrite E1 in E.
    + destruct H1 as (_ & E1 & _). by rewrite E1 in E.
  - destruct H0 as (_ & _ & Ea & Et). rewrite Ea, Et in E.
    assert (0 <= a /\ a + esz l <= 2 ^ 40) as [Ha1 Ha2] by (destruct l; destruct Hr0 as (_ & _ & [[? _] _] & ? & _); lia).
    pose proof (esz_le l). pose proof (esz_pos l).
    destruct t as [r1|a1 attrs1|p1 ts1].
    + destruct H1 as (_ & E1 & _). by rewrite E1 in E.
    + destruct H1 as (_ & _ & E1 & E2). rewrite E1, E2 in E. rewrite u64_small in E by nia.
      apply andb_true_iff in E as [[_ E3%Z.eqb_eq]%andb_true_iff E4%Z.eqb_eq]. by rewrite E3, E4.
    + destruct H1 as (E1 & E2 & _). by rewrite E1, E2 in E.
Qed.

(** A run of [n] further entries from entry [i] is one range. *)
Lemma run_uniform l ts (i n : nat) t z : level_ok l -> ts !! i = Some t -> (forall p ts0, t <> TNode p ts0) ->
  (forall (j : nat) t', (j < n)%nat -> ts !! (S i + j)%nat = Some t' -> continues_at l t t' (1 + Z.of_nat j)) ->
  (i + n < length ts)%nat -> Z.of_nat i * esz l <= z < Z.of_nat (i + n + 1) * esz l ->
  tden l ts z = shifted (tden l ts (Z.of_nat i * esz l)) (z - Z.of_nat i * esz l).
Proof.
  intros Hl Ht Hleaf Hrun Hlen Hz. pose proof (esz_pos l). unfold tden.
  rewrite Z.div_mul, Z.mod_mul, Nat2Z.id by lia. rewrite Ht.
  pose proof (Z.div_mod z (esz l) ltac:(lia)) as Edm. pose proof (Z.mod_pos_bound z (esz l) ltac:(lia)) as Hmod.
  set (q := z / esz l) in *.
  assert (Z.of_nat i <= q < Z.of_nat (i + n + 1))
    by (unfold q; split; [apply Z.div_le_lower_bound; lia|apply Z.div_lt_upper_bound; lia]).
  destruct (decide (Z.to_nat q = i)) as [Eq|Hne].
  - rewrite Eq, Ht. assert (q = Z.of_nat i) by lia. subst q.
    destruct t as [r|a attrs|p ts0]; [by destruct l| |by destruct (Hleaf p ts0)]. destruct l; cbn [den shifted]; f_equal; lia.
  - destruct (lookup_lt_is_Some_2 ts (Z.to_nat q) ltac:(lia)) as [t' Ht']. rewrite Ht'.
    pose proof (Hrun (Z.to_nat q - S i)%nat t' ltac:(lia)) as Hc.
    replace (S i + (Z.to_nat q - S i))%nat with (Z.to_nat q) in Hc by lia. specialize (Hc Ht').
    destruct t as [r|a attrs|p ts0]; [by rewrite Hc; destruct l| |by destruct (Hleaf p ts0)].
    cbn [continues_at] in Hc. rewrite Hc. destruct l; cbn [den shifted]; f_equal; nia.
Qed.

(** What is asked of the size of the range at [y]. *)
Definition range_at (l : nat) (ts : list tree) (y sz : Z) : Prop :=
  4096 <= sz /\ y + sz <= 512 * esz l /\
  (forall z, y <= z < y + sz -> tden l ts z = shifted (tden l ts y) (z - y)) /\
  (y + sz < 512 * esz l -> tat_start l ts (y + sz)).

Lemma leaf_range l tabs h ts (i n : nat) t : level_ok l -> trep l tabs h ts -> ts !! i = Some t ->
  (forall p ts0, t <> TNode p ts0) ->
  (forall (j : nat) t', (j < n)%nat -> ts !! (S i + j)%nat = Some t' -> continues_at l t t' (1 + Z.of_nat j)) ->
  (i + n < 512)%nat -> range_at l ts (Z.of_nat i * esz l) (esz l + Z.of_nat n * esz l).
Proof.
  intros Hl Hrep Ht Hleaf Hrun Hlt. pose proof (esz_pos l). destruct (esz_page l) as (k & Hk & Ek).
  pose proof (trep_length _ _ _ _ _ _ _ Hrep) as Hlen.
  split_and!; [nia|nia| |].
  - intros z Hz. eapply (run_uniform l ts i n t); try done; [lia|nia].
  - intros Hend. replace (Z.of_nat i * esz l + (esz l + Z.of_nat n * esz l)) with (Z.of_nat (i + n + 1) * esz l) in * by lia.
    eapply tat_start_aligned; [exact Hrep|nia].
Qed.

(** The range found in the lower table is the range. *)
Lemma lower_range l tabs h ts (i : nat) p ts0 x sz : level_ok (S (S l)) -> trep (S (S l)) tabs h ts ->
  ts !! i = Some (TNode p ts0) -> 0 <= x < 512 * esz (S l) ->
  range_at (S l) ts0 x sz -> range_at (S (S l)) ts (Z.of_nat i * esz (S (S l)) + x) sz.
Proof.
  intros Hl Hrep Ht Hx (Hsz & Hle & Huni & Hst). pose proof (esz_S l Hl) as Es. pose proof (esz_pos (S l)).
  assert (Hi : (i < 512)%nat) by (apply lookup_lt_Some in Ht; by rewrite (trep_length _ _ _ _ _ _ _ Hrep) in Ht).
  assert (Hin : forall z, 0 <= z < esz (S (S l)) ->
    (Z.of_nat i * esz (S (S l)) + z) / esz (S (S l)) = Z.of_nat i /\
    (Z.of_nat i * esz (S (S l)) + z) mod esz (S (S l)) = z).
  { intros z Hz. rewrite Z.add_comm. rewrite Z.div_add, Z.mod_add by lia. rewrite Z.div_small, Z.mod_small by lia. lia. }
  assert (Hden : forall z, 0 <= z < esz (S (S l)) -> tden (S (S l)) ts (Z.of_nat i * esz (S (S l)) + z) = tden (S l) ts0 z).
  { intros z Hz. destruct (Hin z Hz) as [E1 E2]. unfold tden at 1. rewrite E1, E2, Nat2Z.id, Ht. done. }
  split_and!; [done|nia| |].
  - intros z Hz. replace z with (Z.of_nat i * esz (S (S l)) + (z - Z.of_nat i * esz (S (S l)))) at 1 by lia.
    rewrite !Hden by lia. rewrite Huni by lia. f_equal; lia.
  - intros Hend. destruct (decide (x + sz = 512 * esz (S l))) as [Ex|Hx1].
    + replace (Z.of_nat i * esz (S (S l)) + x + sz) with (Z.of_nat (S i) * esz (S (S l))) in * by lia.
      eapply tat_start_aligned; [exact Hrep|nia].
    + rewrite <- Z.add_assoc. destruct (Hin (x + sz) ltac:(lia)) as [E1 E2].
      unfold tat_start. rewrite E1, E2, Nat2Z.id, Ht. apply Hst. lia.
Qed.

Lemma size_of_range_spec l : level_ok l -> forall (s : mstate A) h ts first y, trep l (tabs s) h ts ->
  0 <= first -> first mod (512 * esz l) = 0 -> 0 <= y < 512 * esz l -> first + 512 * esz l <= 2 ^ 48 -> tat_start l ts y ->
  exists sz, mam_get_size_of_range hpa_to_hva l s (first + y) h = Ok sz /\ range_at l ts y sz.
Proof.
  induction l as [|l IH]; intros Hl s h ts first y Hrep H0 Hm Hy Hmax Hst; [by destruct Hl; lia|].
  pose proof (esz_pos (S l)) as Hpos. cbn [mam_get_size_of_range].
  rewrite (index_at (S l) first) by (done || lia). replace (first + y - first) with y by lia.
  pose proof (trep_length _ _ _ _ _ _ _ Hrep) as Hlen.
  assert (Hi : 0 <= y / esz (S l) < 512) by (split; [apply Z.div_pos; lia|apply Z.div_lt_upper_bound; lia]).
  pose proof (Z.div_mod y (esz (S l)) ltac:(lia)) as Edm. pose proof (Z.mod_pos_bound y (esz (S l)) ltac:(lia)) as Hmod.
  unfold tat_start in Hst. set (i := Z.to_nat (y / esz (S l))) in *.
  assert (Ei : y / esz (S l) = Z.of_nat i) by lia.
  destruct (lookup_lt_is_Some_2 ts i ltac:(lia)) as [t Ht]. rewrite Ht in Hst.
  destruct (trep_lookup _ _ _ _ _ _ _ i t Hrep Ht) as (es & e & Hh & Hlen2 & He & Hr).
  rewrite Ei, (rd_entry_ok s h es i e Hh He), bind_Ok, (rep_ops _ _ _ _ _ _ _ Hr).
  pose proof (rep_leafness _ _ _ _ _ _ _ Hr) as Hleaf.
  destruct (node_or_not t) as [(p & ts0 & ->)|Hn].
  - destruct Hleaf as (-> & -> & ->). cbn [andb negb].
    destruct l as [|l]; [by destruct Hr as (_ & _ & _ & [])|].
    apply rep_node in Hr as (_ & _ & _ & Hrp). pose proof (esz_S l Hl) as Esz.
    destruct (IH ltac:(unfold level_ok in *; lia) s p ts0 (first + Z.of_nat i * esz (S (S l))) (y mod esz (S (S l))))
      as (sz & E & Hrng); [done|nia| |lia|rewrite <- Esz; nia|exact Hst|].
    { rewrite <- Esz, Z.mod_add by lia. apply Z.mod_divide in Hm as [q ->]; [|lia].
      replace (q * (512 * esz (S (S l)))) with (q * 512 * esz (S (S l))) by lia. apply Z.mod_mul. lia. }
    exists sz. split.
    + rewrite <- E. f_equal. lia.
    + rewrite Edm, Ei, Z.mul_comm. eapply lower_range; try done. lia.
  - assert (mam_is_entry_present e K && negb (mam_is_leaf_entry e) = false /\ mam_is_entry_present e K = present_tree t) as [-> ->]
      by (destruct t as [r|a attrs|p ts0]; [| |by destruct (Hn p ts0)]; destruct Hleaf as (-> & -> & _); done).
    rewrite Hh. cbn [default]. destruct Hrep as (es' & Hh' & Hes) eqn:Erep. clear Erep.
    assert (es' = es) as -> by congruence. destruct Hes as (Hl2 & Hes & Hrest).
    destruct (continuing_spec (S l) (tabs s) e t Hl Hr Hn (drop (S i) es) (drop (S i) ts) 1) as (n & En & Hnl & Hrun);
      [by apply Forall2_drop|lia|rewrite length_drop; lia|].
    rewrite length_drop in Hnl. unfold default. cbn [from_option id]. rewrite En.
    assert (y mod esz (S l) = 0) as Hy0 by (destruct t as [r|a attrs|p ts0]; [done|done|by destruct (Hn p ts0)]).
    pose proof (esz_le (S l)). exists (esz (S l) + Z.of_nat n * esz (S l)).
    split; [rewrite u64_small by nia; done|].
    replace y with (Z.of_nat i * esz (S l)) by lia.
    apply (leaf_range (S l) (tabs s) h ts i n t Hl); [by exists es|done|done| |lia].
    intros j t' Hj Ht'. apply Hrun; [done|]. by rewrite lookup_drop.
Qed.
End Ranges.

(** * The iterator *)

Section Iterator.
Context {A : Type} `{!Pages A} (hva_to_hpa hpa_to_hva : Z -> option Z) (K : MAM_ENTRY_OPS).
Context `{!EntryLaws hva_to_hpa hpa_to_hva K} `{!PagesLaws A (table_ok hva_to_hpa hpa_to_hva)}.

(** The loop of the users of the iterator: the ranges from [iter] on. *)
Fixpoint ranges (fuel : nat) (mam : MAM) (s : mstate A) (iter : Z) : outcome (list (Z * Z) * MAM) :=
  if iter =? MAM_INVALID_MEMORY_RANGES_ITERATOR then Ok ([], mam)
  else
    match fuel with
    | O => Spin
    | S fuel =>
        r ← mam_get_range_details_from_iterator hpa_to_hva mam s iter;
        let '(next, start, size, mam) := r in
        r ← ranges fuel mam s next;
        let '(rs, mam) := r in Ok ((start, size) :: rs, mam)
    end.

(** Adjacent ranges from [a] to [b]. *)
Fixpoint covers (a b : Z) (rs : list (Z * Z)) : Prop :=
  match rs with
  | [] => a = b
  | (start, size) :: rs => start = a /\ 4096 <= size /\ covers (a + size) b rs
  end.

Definition uniform (m : amap) (r : Z * Z) : Prop :=
  forall z, r.1 <= z < r.1 + r.2 -> m z = shifted (m r.1) (z - r.1).

Lemma ranges_end fuel mam s : ranges fuel mam s MAM_INVALID_MEMORY_RANGES_ITERATOR = Ok ([], mam).
Proof. by destruct fuel. Qed.

Lemma table_map_in l ts y : y < tsz l -> table_map l ts y = tden l ts y.
Proof. intros Hy. unfold table_map. by destruct (Z.ltb_spec y (tsz l)); [|lia]. Qed.

Lemma ranges_spec l ts (m : amap) (s : mstate A) : level_ok l ->
  (forall y, 0 <= y -> m y = table_map l ts y) ->
  forall fuel mam y, trep hva_to_hpa hpa_to_hva K l (tabs s) (first_table mam) ts -> first_table_ops mam = l -> idle mam ->
  0 <= y < tsz l -> tat_start l ts y -> tsz l - y <= 4096 * Z.of_nat fuel ->
  exists rs mam', ranges fuel mam s y = Ok (rs, mam') /\ covers y (tsz l) rs /\ Forall (uniform m) rs.
Proof.
  intros Hl Hm. induction fuel as [|fuel IH]; intros mam y Hrep El Hid Hy Hst Hf; [lia|].
  rewrite tsz_esz in *. pose proof (esz_le l) as Hmax. pose proof (esz_pos l).
  assert (Hne : y =? MAM_INVALID_MEMORY_RANGES_ITERATOR = false)
    by (apply Z.eqb_neq; unfold MAM_INVALID_MEMORY_RANGES_ITERATOR; lia).
  cbn [ranges]. unfold mam_get_range_details_from_iterator. rewrite Hne, El.
  destruct (size_of_range_spec hva_to_hpa hpa_to_hva K l Hl s _ ts 0 y Hrep ltac:(lia) ltac:(by rewrite Z.mod_0_l by lia)
    Hy Hmax Hst) as (sz & E & Hsz & Hle & Huni & Hnext).
  change (0 + y) with y in E. rewrite E, bind_Ok, tsz_esz, u64_small by lia. destruct Hid as (Hl0 & Hc & Hc32).
  rewrite Hc. cbn [Z.eqb negb].
  assert (Hu : uniform m (y, sz)).
  { intros z Hz. cbn [fst snd] in *. rewrite !Hm, !table_map_in by (rewrite ?tsz_esz; lia). by apply Huni. }
  destruct (Z.leb_spec (512 * esz l) (y + sz)) as [Hlast|Hmore]; rewrite bind_Ok.
  - rewrite ranges_end, bind_Ok. do 2 eexists. split; [done|]. split; [cbn [covers]; lia|by constructor].
  - destruct (IH (set_last_iterator mam y sz) (y + sz)) as (rs & mam' & E1 & Hcov & Hall);
      [done|done|done|lia|by apply Hnext|lia|].
    rewrite E1, bind_Ok. do 2 eexists. split; [done|]. split; [by split_and!|by constructor].
Qed.
End Iterator.

(** * Properties *)

(** C27. The iteration over the ranges of a mapping ends after at most one step per page that
    the first table covers; the ranges are adjacent, cover all of it, and inside each of them
    the addresses are either mapped consecutively with the same attributes or unmapped for the
    same reason. *)
Theorem mam_iteration_spec {A : Type} `{!Pages A} (hva_to_hpa hpa_to_hva : Z -> option Z) (K : MAM_ENTRY_OPS)
  `{!EntryLaws hva_to_hpa hpa_to_hva K} `{!PagesLaws A (table_ok hva_to_hpa hpa_to_hva)}
  (mam : MAM) (s : mstate A) (m : amap) (F : gset Z) (fuel : nat) :
  represents hva_to_hpa hpa_to_hva K mam s m F -> tsz (first_table_ops mam) <= 4096 * Z.of_nat fuel ->
  exists rs mam',
    ranges hpa_to_hva fuel (mam_get_memory_ranges_iterator mam).2 s (mam_get_memory_ranges_iterator mam).1 = Ok (rs, mam') /\
    covers 0 (tsz (first_table_ops mam)) rs /\ Forall (uniform m) rs.
Proof.
  intros [(Hl & _ & _ & _ & ts & Hrep & _ & Hm) Hid] Hf. unfold mam_get_memory_ranges_iterator.
  destruct (Nat.eqb_spec (first_table_ops mam) 0) as [E|Hn]; [rewrite E in Hl; by destruct Hl; lia|].
  cbn [set_last_iterator first_table_ops]. rewrite (proj2 (Nat.eqb_neq _ _) Hn).
  pose proof (esz_pos (first_table_ops mam)).
  eapply (ranges_spec hva_to_hpa hpa_to_hva K _ ts); [done|done|done|done|done|rewrite tsz_esz; lia| |lia].
  apply (tat_start_aligned _ _ _ _ _ _ _ 0%nat Hrep). lia.
Qed.

Import MamHeap.Example.

(** On a new mapping the iteration gives ranges that cover its 2 MB. *)
Lemma mam_iteration_spec_witness :
  exists rs mam', ranges Some 512 (mam_get_memory_ranges_iterator created.1).2 created.2
      (mam_get_memory_ranges_iterator created.1).1 = Ok (rs, mam') /\
    covers 0 (2 ^ 21) rs /\ Forall (uniform nothing_mapped) rs.
Proof.
  destruct created_represents as [F H].
  apply (mam_iteration_spec Some Some MAM_INTERNAL_ENTRY_OPS created.1 created.2 nothing_mapped F 512 H).
  vm_compute. discriminate.
Defined.
