(* ===== verification/Cache64.v ===== *)
(** utils/cache64.c: a cache of 64-bit fields with a valid bit and a dirty bit per field, behind
    the VMCS objects. The cache is bypassed on a CPU whose entry of vmcs_sw_shadow_disable is set;
    the operations take that entry as an argument.

    A cache is compared with the partial map of its valid fields ([content]) and the set of its
    dirty fields ([dirty]). *)

From S2P Require Import Prelude VmmDefs.

Record CACHE64_STRUCT := mk_cache {
  num_of_entries : Z;
  bitmap_size : Z;
  flags : Z;
  table : list Z;
  dirty_bits : list Z;
  valid_bits : list Z
}.

Definition CACHE_ALL_ENTRIES : Z := 2 ^ 32 - 1.
Definition CACHE_DIRTY_FLAG : Z := 1.
Definition CACHE_VALID_FLAG : Z := 2.

Definition CACHE_FIELD_IS_VALID (c : CACHE64_STRUCT) (entry_no : Z) : outcome bool :=
  b ← BITARRAY_GET (valid_bits c) entry_no; Ok (negb (b =? 0)).
Definition CACHE_FIELD_IS_DIRTY (c : CACHE64_STRUCT) (entry_no : Z) : outcome bool :=
  b ← BITARRAY_GET (dirty_bits c) entry_no; Ok (negb (b =? 0)).

Definition set_table (t : list Z) (c : CACHE64_STRUCT) : CACHE64_STRUCT :=
  mk_cache (num_of_entries c) (bitmap_size c) (flags c) t (dirty_bits c) (valid_bits c).
Definition set_dirty (d : list Z) (c : CACHE64_STRUCT) : CACHE64_STRUCT :=
  mk_cache (num_of_entries c) (bitmap_size c) (flags c) (table c) d (valid_bits c).
Definition set_valid (v : list Z) (c : CACHE64_STRUCT) : CACHE64_STRUCT :=
  mk_cache (num_of_entries c) (bitmap_size c) (flags c) (table c) (dirty_bits c) v.
Definition set_flags (f : Z) (c : CACHE64_STRUCT) : CACHE64_STRUCT :=
  mk_cache (num_of_entries c) (bitmap_size c) f (table c) (dirty_bits c) (valid_bits c).

Definition CACHE_FIELD_SET_VALID (c : CACHE64_STRUCT) (entry_no : Z) : outcome CACHE64_STRUCT :=
  v ← BITARRAY_SET (valid_bits c) entry_no; Ok (set_valid v c).
Definition CACHE_FIELD_CLR_VALID (c : CACHE64_STRUCT) (entry_no : Z) : outcome CACHE64_STRUCT :=
  v ← BITARRAY_CLR (valid_bits c) entry_no; Ok (set_valid v c).
Definition CACHE_FIELD_SET_DIRTY (c : CACHE64_STRUCT) (entry_no : Z) : outcome CACHE64_STRUCT :=
  d ← BITARRAY_SET (dirty_bits c) entry_no; Ok (set_dirty d c).
Definition CACHE_FIELD_CLR_DIRTY (c : CACHE64_STRUCT) (entry_no : Z) : outcome CACHE64_STRUCT :=
  d ← BITARRAY_CLR (dirty_bits c) entry_no; Ok (set_dirty d c).

(** vmm_memset of a whole bitmap to 0; the buffer must hold [size] bytes. *)
Definition clear_bitmap (a : list Z) (size : Z) : outcome (list Z) :=
  if size <=? Z.of_nat (length a) then Ok (replicate (Z.to_nat size) 0 ++ drop (Z.to_nat size) a) else Fault.

(** The four pointers are the results of vmm_malloc; the second result lists the buffers that are
    given back. The size of the table is passed to vmm_malloc as a UINT32 and to vmm_memset
    unchanged. *)
Definition cache64_create (num : Z) (cache table_ dirty_ valid_ : Z) : outcome (option CACHE64_STRUCT * list Z) :=
  let bitmap := u16 (BITARRAY_SIZE_IN_BYTES (u32 (num + 7) - 7)) in
  if negb (cache =? 0) && negb (table_ =? 0) && negb (dirty_ =? 0) && negb (valid_ =? 0) then
    if u32 (8 * num) <? 8 * num then Fault
    else Ok (Some (mk_cache num bitmap 0 (replicate (Z.to_nat num) 0)
                     (replicate (Z.to_nat bitmap) 0) (replicate (Z.to_nat bitmap) 0)), [])
  else Ok (None, filter (fun p => p <> 0) [cache; table_; dirty_; valid_]).

Definition cache64_write (disabled : bool) (c : CACHE64_STRUCT) (value entry_no : Z) : outcome CACHE64_STRUCT :=
  if disabled then Ok c
  else if entry_no <? num_of_entries c then
    old ← rd (table c) entry_no;
    same ← (if old =? value then CACHE_FIELD_IS_VALID c entry_no else Ok false);
    if negb same then
      t ← wr (table c) entry_no value;
      c ← CACHE_FIELD_SET_DIRTY (set_table t c) entry_no;
      c ← CACHE_FIELD_SET_VALID c entry_no;
      Ok (set_flags (Z.lor (flags c) CACHE_DIRTY_FLAG) c)
    else Ok c
  else Ok c.

(** [None] is FALSE. *)
Definition cache64_read (disabled : bool) (c : CACHE64_STRUCT) (entry_no : Z) : outcome (option Z) :=
  if disabled then Ok None
  else if entry_no <? num_of_entries c then
    valid ← CACHE_FIELD_IS_VALID c entry_no;
    if (valid : bool) then v ← rd (table c) entry_no; Ok (Some v) else Ok None
  else Ok None.

Definition cache64_invalidate (c : CACHE64_STRUCT) (entry_no : Z) : outcome CACHE64_STRUCT :=
  if entry_no <? num_of_entries c then CACHE_FIELD_CLR_VALID c entry_no
  else
    let c := set_flags (Z.land (flags c) (u16 (Z.lnot CACHE_VALID_FLAG))) c in
    v ← clear_bitmap (valid_bits c) (bitmap_size c);
    d ← clear_bitmap (dirty_bits c) (bitmap_size c);
    Ok (set_dirty d (set_valid v c)).

(** The callback of a flush, or [None] for NULL; it works on a state [S] that contains the cache,
    and leaves the dirty bits alone. The calls are made in the order of the enumeration. *)
Section Flush.
Context {S : Type} (cache_of : S -> CACHE64_STRUCT) (set_cache : CACHE64_STRUCT -> S -> S).

Fixpoint call_each (function : Z -> S -> outcome S) (entries : list Z) (s : S) : outcome S :=
  match entries with
  | [] => Ok s
  | e :: entries => s ← function e s; call_each function entries s
  end.

Definition cache64_flush_dirty (entry_no : Z) (function : option (Z -> S -> outcome S)) (s : S) : outcome S :=
  let c := cache_of s in
  if entry_no <? num_of_entries c then
    d ← CACHE_FIELD_IS_DIRTY c entry_no;
    if (d : bool) then
      c ← CACHE_FIELD_CLR_DIRTY c entry_no;
      let s := set_cache c s in
      match function with Some f => f entry_no s | None => Ok s end
    else Ok s
  else
    let c := set_flags (Z.land (flags c) (u16 (Z.lnot CACHE_DIRTY_FLAG))) c in
    let s := set_cache c s in
    match function with
    | Some f => entries ← bitarray_enumerate_bits (dirty_bits c) (num_of_entries c); call_each f entries s
    | None => d ← clear_bitmap (dirty_bits c) (bitmap_size c); Ok (set_cache (set_dirty d c) s)
    end.
End Flush.

Definition cache64_is_dirty (c : CACHE64_STRUCT) : bool := negb (Z.land (flags c) CACHE_DIRTY_FLAG =? 0).

(** The buffers are the table, the two bit arrays and the object. *)
Definition cache64_destroy (cache table_ dirty_ valid_ : Z) : list Z := [table_; dirty_; valid_; cache].

(** * The represented partial map *)

Record cache_wf (c : CACHE64_STRUCT) : Prop := {
  wf_num : 0 <= num_of_entries c < 2 ^ 18;
  wf_table : Z.of_nat (length (table c)) = num_of_entries c;
  wf_size : bitmap_size c = BITARRAY_SIZE_IN_BYTES (num_of_entries c);
  wf_dirty_len : Z.of_nat (length (dirty_bits c)) = bitmap_size c;
  wf_valid_len : Z.of_nat (length (valid_bits c)) = bitmap_size c;
  wf_dirty : bytes_ok (dirty_bits c);
  wf_valid : bytes_ok (valid_bits c);
  (** No bits are set past the last entry. *)
  wf_dirty_end : forall i, num_of_entries c <= i -> bit_of (dirty_bits c) i = false
}.

(** The value of a valid field. *)
Definition content (c : CACHE64_STRUCT) (i : Z) : option Z :=
  if (0 <=? i) && (i <? num_of_entries c) && bit_of (valid_bits c) i then table c !! Z.to_nat i else None.
Definition dirty (c : CACHE64_STRUCT) (i : Z) : bool := bit_of (dirty_bits c) i.

(** A range of entries an operation may be called with. *)
Definition entry (c : CACHE64_STRUCT) (i : Z) : Prop := 0 <= i < num_of_entries c.

Lemma entry_bits c i : cache_wf c -> entry c i ->
  0 <= i < 8 * Z.of_nat (length (dirty_bits c)) /\ 0 <= i < 8 * Z.of_nat (length (valid_bits c)).
Proof.
  intros W Hi. unfold entry in Hi. rewrite (wf_dirty_len _ W), (wf_valid_len _ W), (wf_size _ W).
  unfold BITARRAY_SIZE_IN_BYTES. lia.
Qed.

Lemma is_valid_spec c i : cache_wf c -> entry c i -> CACHE_FIELD_IS_VALID c i = Ok (bit_of (valid_bits c) i).
Proof.
  intros W Hi. destruct (entry_bits c i W Hi) as [_ Hv]. unfold CACHE_FIELD_IS_VALID.
  destruct (BITARRAY_GET_spec _ _ Hv) as (w & -> & E). rewrite bind_Ok, E. by rewrite negb_involutive.
Qed.

Lemma is_dirty_spec c i : cache_wf c -> entry c i -> CACHE_FIELD_IS_DIRTY c i = Ok (dirty c i).
Proof.
  intros W Hi. destruct (entry_bits c i W Hi) as [Hd _]. unfold CACHE_FIELD_IS_DIRTY.
  destruct (BITARRAY_GET_spec _ _ Hd) as (w & -> & E). rewrite bind_Ok, E. by rewrite negb_involutive.
Qed.

Lemma table_lookup c i : cache_wf c -> entry c i -> exists v, table c !! Z.to_nat i = Some v.
Proof. intros W Hi. apply lookup_lt_is_Some. pose proof (wf_table _ W). unfold entry in Hi. lia. Qed.

Lemma content_entry c i : entry c i ->
  content c i = if bit_of (valid_bits c) i then table c !! Z.to_nat i else None.
Proof. intros Hi. unfold content, entry in *. zcases. done. Qed.

Lemma cache64_read_content c i : cache_wf c -> 0 <= i -> cache64_read false c i = Ok (content c i).
Proof.
  intros W Hi. unfold cache64_read, content. destruct (Z.ltb_spec i (num_of_entries c)) as [Hlt|Hge].
  2:{ zcases. done. }
  assert (entry c i) as He by done. rewrite is_valid_spec by done. rewrite bind_Ok.
  destruct (table_lookup c i W He) as [v Hv]. rewrite (proj2 (Z.leb_le 0 i)) by lia. cbn [andb].
  destruct (bit_of (valid_bits c) i); [|done].
  rewrite (rd_ok _ _ v) by (done || lia). by rewrite bind_Ok, Hv.
Qed.

(** Setting a bit of one of the arrays keeps the invariant. *)
Lemma set_dirty_wf c d i : cache_wf c -> entry c i -> length d = length (dirty_bits c) -> bytes_ok d ->
  (forall j, j <> i -> bit_of d j = bit_of (dirty_bits c) j) -> cache_wf (set_dirty d c).
Proof.
  intros [] Hi Hl Hb He. unfold entry in Hi. split; cbn [set_dirty num_of_entries bitmap_size table dirty_bits valid_bits]; try done; [lia|].
  intros j Hj. rewrite He by lia. by apply wf_dirty_end0.
Qed.

Lemma set_valid_wf c v : cache_wf c -> length v = length (valid_bits c) -> bytes_ok v -> cache_wf (set_valid v c).
Proof. intros [] Hl Hb. split; cbn; try done. lia. Qed.

Lemma set_flags_wf c f : cache_wf c -> cache_wf (set_flags f c).
Proof. intros []. by split. Qed.

Lemma set_table_wf c t : cache_wf c -> length t = length (table c) -> cache_wf (set_table t c).
Proof. intros [] Hl. split; cbn; try done. lia. Qed.

Lemma land_dirty_flag f : 0 <= f -> (Z.land (Z.lor f CACHE_DIRTY_FLAG) CACHE_DIRTY_FLAG =? 0) = false.
Proof.
  intros Hf. apply Z.eqb_neq. intros H. apply (f_equal (fun z => Z.testbit z 0)) in H.
  unfold CACHE_DIRTY_FLAG in H. rewrite Z.land_spec, Z.lor_spec in H. cbn in H. by rewrite orb_true_r in H.
Qed.

(** A write makes the field valid with the value; the field becomes dirty unless the value was
    already there, and no other field changes. *)
Lemma cache64_write_spec c v i : cache_wf c -> entry c i -> exists c',
  cache64_write false c v i = Ok c' /\ cache_wf c' /\ num_of_entries c' = num_of_entries c /\
  (forall j, content c' j = if j =? i then Some v else content c j) /\
  (forall j, dirty c' j = if (j =? i) && negb (bool_decide (content c i = Some v)) then true else dirty c j).
Proof.
  intros W Hi. unfold cache64_write. pose proof (wf_table _ W) as Ht. pose proof Hi as Hi'. unfold entry in Hi'.
  rewrite (proj2 (Z.ltb_lt _ _)) by lia. destruct (table_lookup c i W Hi) as [old Ho].
  rewrite (rd_ok _ _ old) by (done || lia). rewrite bind_Ok.
  assert ((if old =? v then CACHE_FIELD_IS_VALID c i else Ok false) = Ok (bool_decide (content c i = Some v))) as ->.
  { rewrite content_entry, Ho by done. destruct (Z.eqb_spec old v) as [->|Hne].
    - rewrite is_valid_spec by done. destruct (bit_of (valid_bits c) i); [by rewrite bool_decide_true|done].
    - rewrite bool_decide_false; [done|]. destruct (bit_of (valid_bits c) i); congruence. }
  rewrite bind_Ok. destruct (decide (content c i = Some v)) as [Hs|Hns].
  { rewrite bool_decide_true by done. cbn [negb]. exists c. split_and!; [done|done|done| |].
    - intros j. destruct (Z.eqb_spec j i) as [->|]; done.
    - intros j. by rewrite andb_false_r. }
  rewrite bool_decide_false by done. cbn [negb]. rewrite wr_ok by lia. rewrite bind_Ok.
  destruct (entry_bits c i W Hi) as [Hdb Hvb].
  unfold CACHE_FIELD_SET_DIRTY, CACHE_FIELD_SET_VALID. cbn [set_table dirty_bits].
  destruct (BITARRAY_SET_spec _ _ Hdb) as (d & -> & Hdl & Hdok & Hd). rewrite !bind_Ok. cbn [set_table set_dirty valid_bits].
  destruct (BITARRAY_SET_spec _ _ Hvb) as (b & -> & Hvl & Hvok & Hv). rewrite !bind_Ok.
  eexists. split; [done|]. split; [|split; [done|split]].
  - apply set_flags_wf. apply set_valid_wf; [|done|apply Hvok, W].
    apply (set_dirty_wf _ d i); [apply set_table_wf; [done|apply length_insert]|done|done|apply Hdok, W|].
    intros j Hj. cbn [set_table dirty_bits]. rewrite Hd. zcases. done.
  - intros j. unfold content. cbn [set_flags set_valid set_dirty set_table num_of_entries valid_bits table].
    rewrite Hv. destruct (Z.eqb_spec j i) as [->|Hne].
    + rewrite list_lookup_insert_eq by lia. zcases. done.
    + destruct (Z.leb_spec 0 j); [|done]. by rewrite list_lookup_insert_ne by lia.
  - intros j. unfold dirty. cbn. rewrite Hd. by destruct (j =? i).
Qed.

(** A write that changes the cache leaves the flag of the whole cache set. *)
Lemma cache64_write_flag c v i c' : 0 <= flags c -> cache64_write false c v i = Ok c' ->
  0 <= flags c' /\ (c' = c \/ cache64_is_dirty c' = true).
Proof.
  intros Hf. unfold cache64_write. destruct (i <? num_of_entries c); [|intros [= <-]; eauto].
  intros H. ostep H. ostep H. destruct r0; cbn [negb] in H; [injection H as <-; eauto|].
  ostep H. unfold CACHE_FIELD_SET_DIRTY, CACHE_FIELD_SET_VALID in H. ostep H.
  ostep E2. injection E2 as <-. ostep H. ostep E2. injection E2 as <-. injection H as <-.
  cbn [set_flags flags set_valid set_dirty set_table]. unfold cache64_is_dirty. cbn [set_flags flags].
  rewrite land_dirty_flag by done. split; [apply Z.lor_nonneg; by split|by right].
Qed.

Lemma replicate_app_drop {A} (x : A) (l : list A) : replicate (length l) x ++ drop (length l) l = replicate (length l) x.
Proof. by rewrite drop_all, app_nil_r. Qed.

Lemma clear_bitmap_all a size : Z.of_nat (length a) = size -> clear_bitmap a size = Ok (replicate (length a) 0).
Proof.
  intros <-. unfold clear_bitmap. rewrite Z.leb_refl, Nat2Z.id. by rewrite replicate_app_drop.
Qed.

Lemma bit_of_zeros n i : bit_of (replicate n 0) i = false.
Proof.
  unfold bit_of. destruct (0 <=? i); [|done].
  destruct (replicate n 0 !! Z.to_nat (i / 8)) as [x|] eqn:E; cbn [default]; [|apply Z.bits_0].
  apply lookup_replicate in E as [-> _]. apply Z.bits_0.
Qed.

Lemma bytes_ok_zeros n : bytes_ok (replicate n 0).
Proof. apply Forall_replicate. split; [done|]. reflexivity. Qed.

(** A successful creation gives an empty cache with no dirty field; a failed one gives back exactly
    the buffers it got. *)
Lemma cache64_create_spec num p1 p2 p3 p4 : 0 <= num < 2 ^ 18 ->
  (p1 <> 0 /\ p2 <> 0 /\ p3 <> 0 /\ p4 <> 0 /\ exists c, cache64_create num p1 p2 p3 p4 = Ok (Some c, []) /\
     cache_wf c /\ num_of_entries c = num /\ flags c = 0 /\
     (forall i, content c i = None) /\ (forall i, dirty c i = false)) \/
  ((p1 = 0 \/ p2 = 0 \/ p3 = 0 \/ p4 = 0) /\
   cache64_create num p1 p2 p3 p4 = Ok (None, filter (fun p => p <> 0) [p1; p2; p3; p4])).
Proof.
  intros Hn. unfold cache64_create.
  destruct (Z.eqb_spec p1 0), (Z.eqb_spec p2 0), (Z.eqb_spec p3 0), (Z.eqb_spec p4 0); cbn [negb andb];
    try (right; split; [tauto|done]).
  left. split_and!; try done. rewrite (u32_small (8 * num)) by lia. rewrite Z.ltb_irrefl.
  rewrite (u32_small (num + 7)) by lia. replace (num + 7 - 7) with num by lia.
  assert (u16 (BITARRAY_SIZE_IN_BYTES num) = BITARRAY_SIZE_IN_BYTES num) as ->
    by (apply u16_small; unfold BITARRAY_SIZE_IN_BYTES; lia).
  assert (0 <= BITARRAY_SIZE_IN_BYTES num) by (unfold BITARRAY_SIZE_IN_BYTES; lia).
  eexists. split; [done|]. split_and!; [|done|done| |].
  - split; cbn [num_of_entries bitmap_size table dirty_bits valid_bits]; rewrite ?length_replicate; try (done || lia);
      [apply bytes_ok_zeros|apply bytes_ok_zeros|intros; apply bit_of_zeros].
  - intros i. unfold content. cbn [valid_bits]. by rewrite bit_of_zeros, andb_false_r.
  - intros i. apply bit_of_zeros.
Qed.

(** Invalidation of all entries empties the cache, and forgets what was not flushed. *)
Lemma cache64_invalidate_all c e : cache_wf c -> num_of_entries c <= e -> exists c',
  cache64_invalidate c e = Ok c' /\ cache_wf c' /\ num_of_entries c' = num_of_entries c /\
  (forall i, content c' i = None) /\ (forall i, dirty c' i = false).
Proof.
  intros W He. pose proof W as []. unfold cache64_invalidate. zcase1; [lia|].
  cbn [set_flags valid_bits dirty_bits bitmap_size]. rewrite !clear_bitmap_all by done. rewrite !bind_Ok.
  eexists. split; [done|]. split_and!; [|done| |].
  - split; cbn; rewrite ?length_replicate; try done; try apply bytes_ok_zeros. intros; apply bit_of_zeros.
  - intros i. unfold content. cbn [set_dirty set_valid valid_bits]. by rewrite bit_of_zeros, andb_false_r.
  - intros i. apply bit_of_zeros.
Qed.

(** Invalidation of one entry makes it absent and keeps it dirty. *)
Lemma cache64_invalidate_one c e : cache_wf c -> entry c e -> exists c',
  cache64_invalidate c e = Ok c' /\ cache_wf c' /\ num_of_entries c' = num_of_entries c /\
  (forall i, content c' i = if i =? e then None else content c i) /\ (forall i, dirty c' i = dirty c i).
Proof.
  intros W He. pose proof He as He'. unfold entry in He'. destruct (entry_bits c e W He) as [_ Hvb].
  unfold cache64_invalidate. rewrite (proj2 (Z.ltb_lt _ _)) by lia. unfold CACHE_FIELD_CLR_VALID.
  destruct (BITARRAY_CLR_spec _ _ Hvb) as (b & -> & Hl & Hok & Hb). rewrite bind_Ok.
  eexists. split; [done|]. split_and!; [apply set_valid_wf; [done|done|apply Hok, W]|done| |done].
  intros i. unfold content. cbn [set_valid num_of_entries valid_bits table]. rewrite Hb.
  destruct (i =? e); [by rewrite andb_false_r|done].
Qed.

(** The dirty fields, in ascending order. *)
Definition dirty_fields (c : CACHE64_STRUCT) : list Z := set_bits (dirty c) 0 (num_of_entries c).

Lemma elem_of_dirty_fields c i : i ∈ dirty_fields c <-> entry c i /\ dirty c i = true.
Proof.
  unfold dirty_fields, set_bits, entry. rewrite list_elem_of_filter, elem_of_seqZ. intuition lia.
Qed.

Lemma dirty_fields_NoDup c : NoDup (dirty_fields c).
Proof. apply NoDup_filter, NoDup_seqZ. Qed.

Lemma enumerate_dirty c : cache_wf c -> bitarray_enumerate_bits (dirty_bits c) (num_of_entries c) = Ok (dirty_fields c).
Proof.
  intros W. pose proof W as []. unfold bitarray_enumerate_bits.
  rewrite enumerate_from_spec by (try done; try lia). f_equal. unfold dirty_fields. rewrite Z.sub_0_r.
  unfold BITARRAY_SIZE_IN_BYTES.
  replace (8 * ((num_of_entries c + 7) / 8))
    with (num_of_entries c + (8 * ((num_of_entries c + 7) / 8) - num_of_entries c)) by lia.
  rewrite set_bits_app by lia. rewrite (set_bits_none _ (0 + num_of_entries c)); [by rewrite app_nil_r|].
  intros i Hi. apply wf_dirty_end0. lia.
Qed.

(** A flush of the whole cache calls the function once for every dirty field, in ascending order,
    on the state with the dirty flag of the cache cleared; the dirty bits stay. *)
Lemma cache64_flush_all {S} (cache_of : S -> CACHE64_STRUCT) set_cache e f (s : S) :
  cache_wf (cache_of s) -> num_of_entries (cache_of s) <= e ->
  cache64_flush_dirty cache_of set_cache e (Some f) s =
    call_each f (dirty_fields (cache_of s))
      (set_cache (set_flags (Z.land (flags (cache_of s)) (u16 (Z.lnot CACHE_DIRTY_FLAG))) (cache_of s)) s).
Proof.
  intros W He. unfold cache64_flush_dirty. zcase1; [lia|]. cbn [set_flags dirty_bits num_of_entries].
  by rewrite enumerate_dirty.
Qed.

(** The values of a cache fit their type. *)
Definition values_fit (c : CACHE64_STRUCT) : Prop := forall f v, content c f = Some v -> fits 64 v.

Lemma values_fit_write c c' f v : values_fit c -> fits 64 v ->
  (forall j, content c' j = if j =? f then Some v else content c j) -> values_fit c'.
Proof. intros Hc Hv H j w. rewrite H. destruct (j =? f); [by intros [= <-]|apply Hc]. Qed.

(** A write of a new value leaves a field that the next flush writes out. *)
Lemma cache64_write_pending c v i c' : cache_wf c -> entry c i -> 0 <= flags c -> cache64_write false c v i = Ok c' ->
  0 <= flags c' /\ (cache64_is_dirty c = true -> cache64_is_dirty c' = true) /\
  (content c i = Some v \/ dirty c' i = true /\ cache64_is_dirty c' = true).
Proof.
  intros W Hi Hf Hw. destruct (cache64_write_flag c v i c' Hf Hw) as (H1 & H2). split; [done|].
  split; [by destruct H2 as [->|]|]. destruct (cache64_write_spec c v i W Hi) as (c1 & E & _ & _ & Hc & Hd).
  rewrite Hw in E. injection E as <-. destruct (decide (content c i = Some v)) as [He|He]; [by left|right].
  rewrite Hd, Z.eqb_refl, bool_decide_false by done. split; [done|]. destruct H2 as [->|]; [|done].
  exfalso. apply He. by rewrite Hc, Z.eqb_refl.
Qed.
