(* ===== verification/VmcsFields.v ===== *)
(** vmx/vmcs.c, first part: the fields of a VMCS, their encodings and access rights, and the
    translation between a field and its encoding. A field is its number in the enumeration
    VMCS_FIELD of vmcs_api.h; the table g_field_data is indexed by it. *)

From S2P Require Import Prelude VmmDefs.
From stdpp Require Import strings.

(** * The fields *)

#[local] Open Scope string_scope.
#[local] Open Scope Z_scope.

(** The enumeration, in order. *)
Definition VMCS_FIELD_names : list string :=
  ["VMCS_VPID"; "VMCS_EPTP_INDEX"; "VMCS_CONTROL_VECTOR_PIN_EVENTS";
   "VMCS_CONTROL_VECTOR_PROCESSOR_EVENTS"; "VMCS_CONTROL2_VECTOR_PROCESSOR_EVENTS"; "VMCS_EXCEPTION_BITMAP";
   "VMCS_CR3_TARGET_COUNT"; "VMCS_CR0_MASK"; "VMCS_CR4_MASK";
   "VMCS_CR0_READ_SHADOW"; "VMCS_CR4_READ_SHADOW"; "VMCS_PAGE_FAULT_ERROR_CODE_MASK";
   "VMCS_PAGE_FAULT_ERROR_CODE_MATCH"; "VMCS_EXIT_CONTROL_VECTOR"; "VMCS_EXIT_MSR_STORE_COUNT";
   "VMCS_EXIT_MSR_LOAD_COUNT"; "VMCS_ENTER_CONTROL_VECTOR"; "VMCS_ENTER_INTERRUPT_INFO";
   "VMCS_ENTER_EXCEPTION_ERROR_CODE"; "VMCS_ENTER_INSTRUCTION_LENGTH"; "VMCS_ENTER_MSR_LOAD_COUNT";
   "VMCS_IO_BITMAP_ADDRESS_A"; "VMCS_IO_BITMAP_ADDRESS_B"; "VMCS_MSR_BITMAP_ADDRESS";
   "VMCS_EXIT_MSR_STORE_ADDRESS"; "VMCS_EXIT_MSR_LOAD_ADDRESS"; "VMCS_ENTER_MSR_LOAD_ADDRESS";
   "VMCS_OSV_CONTROLLING_VMCS_ADDRESS"; "VMCS_TSC_OFFSET"; "VMCS_EXIT_INFO_GUEST_PHYSICAL_ADDRESS";
   "VMCS_EXIT_INFO_INSTRUCTION_ERROR_CODE"; "VMCS_EXIT_INFO_REASON"; "VMCS_EXIT_INFO_EXCEPTION_INFO";
   "VMCS_EXIT_INFO_EXCEPTION_ERROR_CODE"; "VMCS_EXIT_INFO_IDT_VECTORING"; "VMCS_EXIT_INFO_IDT_VECTORING_ERROR_CODE";
   "VMCS_EXIT_INFO_INSTRUCTION_LENGTH"; "VMCS_EXIT_INFO_INSTRUCTION_INFO"; "VMCS_EXIT_INFO_QUALIFICATION";
   "VMCS_EXIT_INFO_IO_RCX"; "VMCS_EXIT_INFO_IO_RSI"; "VMCS_EXIT_INFO_IO_RDI";
   "VMCS_EXIT_INFO_IO_RIP"; "VMCS_EXIT_INFO_GUEST_LINEAR_ADDRESS"; "VMCS_VIRTUAL_APIC_ADDRESS";
   "VMCS_APIC_ACCESS_ADDRESS"; "VMCS_EXIT_TPR_THRESHOLD"; "VMCS_EPTP_ADDRESS";
   "VMCS_PREEMPTION_TIMER"; "VMCS_GUEST_CR0"; "VMCS_GUEST_CR3";
   "VMCS_GUEST_CR4"; "VMCS_GUEST_DR7"; "VMCS_GUEST_ES_SELECTOR";
   "VMCS_GUEST_ES_BASE"; "VMCS_GUEST_ES_LIMIT"; "VMCS_GUEST_ES_AR";
   "VMCS_GUEST_CS_SELECTOR"; "VMCS_GUEST_CS_BASE"; "VMCS_GUEST_CS_LIMIT";
   "VMCS_GUEST_CS_AR"; "VMCS_GUEST_SS_SELECTOR"; "VMCS_GUEST_SS_BASE";
   "VMCS_GUEST_SS_LIMIT"; "VMCS_GUEST_SS_AR"; "VMCS_GUEST_DS_SELECTOR";
   "VMCS_GUEST_DS_BASE"; "VMCS_GUEST_DS_LIMIT"; "VMCS_GUEST_DS_AR";
   "VMCS_GUEST_FS_SELECTOR"; "VMCS_GUEST_FS_BASE"; "VMCS_GUEST_FS_LIMIT";
   "VMCS_GUEST_FS_AR"; "VMCS_GUEST_GS_SELECTOR"; "VMCS_GUEST_GS_BASE";
   "VMCS_GUEST_GS_LIMIT"; "VMCS_GUEST_GS_AR"; "VMCS_GUEST_LDTR_SELECTOR";
   "VMCS_GUEST_LDTR_BASE"; "VMCS_GUEST_LDTR_LIMIT"; "VMCS_GUEST_LDTR_AR";
   "VMCS_GUEST_TR_SELECTOR"; "VMCS_GUEST_TR_BASE"; "VMCS_GUEST_TR_LIMIT";
   "VMCS_GUEST_TR_AR"; "VMCS_GUEST_GDTR_BASE"; "VMCS_GUEST_GDTR_LIMIT";
   "VMCS_GUEST_IDTR_BASE"; "VMCS_GUEST_IDTR_LIMIT"; "VMCS_GUEST_RSP";
   "VMCS_GUEST_RIP"; "VMCS_GUEST_RFLAGS"; "VMCS_GUEST_PEND_DBE";
   "VMCS_GUEST_WORKING_VMCS_PTR"; "VMCS_GUEST_DEBUG_CONTROL"; "VMCS_GUEST_INTERRUPTIBILITY";
   "VMCS_GUEST_SLEEP_STATE"; "VMCS_GUEST_SMBASE"; "VMCS_GUEST_SYSENTER_CS";
   "VMCS_GUEST_SYSENTER_ESP"; "VMCS_GUEST_SYSENTER_EIP"; "VMCS_GUEST_PAT";
   "VMCS_GUEST_EFER"; "VMCS_GUEST_IA32_PERF_GLOBAL_CTRL"; "VMCS_GUEST_PDPTR0";
   "VMCS_GUEST_PDPTR1"; "VMCS_GUEST_PDPTR2"; "VMCS_GUEST_PDPTR3";
   "VMCS_HOST_CR0"; "VMCS_HOST_CR3"; "VMCS_HOST_CR4";
   "VMCS_HOST_ES_SELECTOR"; "VMCS_HOST_CS_SELECTOR"; "VMCS_HOST_SS_SELECTOR";
   "VMCS_HOST_DS_SELECTOR"; "VMCS_HOST_FS_SELECTOR"; "VMCS_HOST_FS_BASE";
   "VMCS_HOST_GS_SELECTOR"; "VMCS_HOST_GS_BASE"; "VMCS_HOST_TR_SELECTOR";
   "VMCS_HOST_TR_BASE"; "VMCS_HOST_GDTR_BASE"; "VMCS_HOST_IDTR_BASE";
   "VMCS_HOST_RSP"; "VMCS_HOST_RIP"; "VMCS_HOST_SYSENTER_CS";
   "VMCS_HOST_SYSENTER_ESP"; "VMCS_HOST_SYSENTER_EIP"; "VMCS_HOST_PAT";
   "VMCS_HOST_EFER"; "VMCS_HOST_IA32_PERF_GLOBAL_CTRL"; "VMCS_CR3_TARGET_VALUE_0";
   "VMCS_CR3_TARGET_VALUE_1"; "VMCS_CR3_TARGET_VALUE_2"; "VMCS_CR3_TARGET_VALUE_3";
   "VMCS_VE_INFO_ADDRESS"].

(** The constants of the enumeration. *)
Definition VMCS_VPID : Z := 0.
Definition VMCS_EPTP_INDEX : Z := 1.
Definition VMCS_CONTROL_VECTOR_PIN_EVENTS : Z := 2.
Definition VMCS_CONTROL_VECTOR_PROCESSOR_EVENTS : Z := 3.
Definition VMCS_CONTROL2_VECTOR_PROCESSOR_EVENTS : Z := 4.
Definition VMCS_EXCEPTION_BITMAP : Z := 5.
Definition VMCS_CR3_TARGET_COUNT : Z := 6.
Definition VMCS_CR0_MASK : Z := 7.
Definition VMCS_CR4_MASK : Z := 8.
Definition VMCS_CR0_READ_SHADOW : Z := 9.
Definition VMCS_CR4_READ_SHADOW : Z := 10.
Definition VMCS_PAGE_FAULT_ERROR_CODE_MASK : Z := 11.
Definition VMCS_PAGE_FAULT_ERROR_CODE_MATCH : Z := 12.
Definition VMCS_EXIT_CONTROL_VECTOR : Z := 13.
Definition VMCS_EXIT_MSR_STORE_COUNT : Z := 14.
Definition VMCS_EXIT_MSR_LOAD_COUNT : Z := 15.
Definition VMCS_ENTER_CONTROL_VECTOR : Z := 16.
Definition VMCS_ENTER_INTERRUPT_INFO : Z := 17.
Definition VMCS_ENTER_EXCEPTION_ERROR_CODE : Z := 18.
Definition VMCS_ENTER_INSTRUCTION_LENGTH : Z := 19.
Definition VMCS_ENTER_MSR_LOAD_COUNT : Z := 20.
Definition VMCS_IO_BITMAP_ADDRESS_A : Z := 21.
Definition VMCS_IO_BITMAP_ADDRESS_B : Z := 22.
Definition VMCS_MSR_BITMAP_ADDRESS : Z := 23.
Definition VMCS_EXIT_MSR_STORE_ADDRESS : Z := 24.
Definition VMCS_EXIT_MSR_LOAD_ADDRESS : Z := 25.
Definition VMCS_ENTER_MSR_LOAD_ADDRESS : Z := 26.
Definition VMCS_OSV_CONTROLLING_VMCS_ADDRESS : Z := 27.
Definition VMCS_TSC_OFFSET : Z := 28.
Definition VMCS_EXIT_INFO_GUEST_PHYSICAL_ADDRESS : Z := 29.
Definition VMCS_EXIT_INFO_INSTRUCTION_ERROR_CODE : Z := 30.
Definition VMCS_EXIT_INFO_REASON : Z := 31.
Definition VMCS_EXIT_INFO_EXCEPTION_INFO : Z := 32.
Definition VMCS_EXIT_INFO_EXCEPTION_ERROR_CODE : Z := 33.
Definition VMCS_EXIT_INFO_IDT_VECTORING : Z := 34.
Definition VMCS_EXIT_INFO_IDT_VECTORING_ERROR_CODE : Z := 35.
Definition VMCS_EXIT_INFO_INSTRUCTION_LENGTH : Z := 36.
Definition VMCS_EXIT_INFO_INSTRUCTION_INFO : Z := 37.
Definition VMCS_EXIT_INFO_QUALIFICATION : Z := 38.
Definition VMCS_EXIT_INFO_IO_RCX : Z := 39.
Definition VMCS_EXIT_INFO_IO_RSI : Z := 40.
Definition VMCS_EXIT_INFO_IO_RDI : Z := 41.
Definition VMCS_EXIT_INFO_IO_RIP : Z := 42.
Definition VMCS_EXIT_INFO_GUEST_LINEAR_ADDRESS : Z := 43.
Definition VMCS_VIRTUAL_APIC_ADDRESS : Z := 44.
Definition VMCS_APIC_ACCESS_ADDRESS : Z := 45.
Definition VMCS_EXIT_TPR_THRESHOLD : Z := 46.
Definition VMCS_EPTP_ADDRESS : Z := 47.
Definition VMCS_PREEMPTION_TIMER : Z := 48.
Definition VMCS_GUEST_CR0 : Z := 49.
Definition VMCS_GUEST_CR3 : Z := 50.
Definition VMCS_GUEST_CR4 : Z := 51.
Definition VMCS_GUEST_DR7 : Z := 52.
Definition VMCS_GUEST_ES_SELECTOR : Z := 53.
Definition VMCS_GUEST_ES_BASE : Z := 54.
Definition VMCS_GUEST_ES_LIMIT : Z := 55.
Definition VMCS_GUEST_ES_AR : Z := 56.
Definition VMCS_GUEST_CS_SELECTOR : Z := 57.
Definition VMCS_GUEST_CS_BASE : Z := 58.
Definition VMCS_GUEST_CS_LIMIT : Z := 59.
Definition VMCS_GUEST_CS_AR : Z := 60.
Definition VMCS_GUEST_SS_SELECTOR : Z := 61.
Definition VMCS_GUEST_SS_BASE : Z := 62.
Definition VMCS_GUEST_SS_LIMIT : Z := 63.
Definition VMCS_GUEST_SS_AR : Z := 64.
Definition VMCS_GUEST_DS_SELECTOR : Z := 65.
Definition VMCS_GUEST_DS_BASE : Z := 66.
Definition VMCS_GUEST_DS_LIMIT : Z := 67.
Definition VMCS_GUEST_DS_AR : Z := 68.
Definition VMCS_GUEST_FS_SELECTOR : Z := 69.
Definition VMCS_GUEST_FS_BASE : Z := 70.
Definition VMCS_GUEST_FS_LIMIT : Z := 71.
Definition VMCS_GUEST_FS_AR : Z := 72.
Definition VMCS_GUEST_GS_SELECTOR : Z := 73.
Definition VMCS_GUEST_GS_BASE : Z := 74.
Definition VMCS_GUEST_GS_LIMIT : Z := 75.
Definition VMCS_GUEST_GS_AR : Z := 76.
Definition VMCS_GUEST_LDTR_SELECTOR : Z := 77.
Definition VMCS_GUEST_LDTR_BASE : Z := 78.
Definition VMCS_GUEST_LDTR_LIMIT : Z := 79.
Definition VMCS_GUEST_LDTR_AR : Z := 80.
Definition VMCS_GUEST_TR_SELECTOR : Z := 81.
Definition VMCS_GUEST_TR_BASE : Z := 82.
Definition VMCS_GUEST_TR_LIMIT : Z := 83.
Definition VMCS_GUEST_TR_AR : Z := 84.
Definition VMCS_GUEST_GDTR_BASE : Z := 85.
Definition VMCS_GUEST_GDTR_LIMIT : Z := 86.
Definition VMCS_GUEST_IDTR_BASE : Z := 87.
Definition VMCS_GUEST_IDTR_LIMIT : Z := 88.
Definition VMCS_GUEST_RSP : Z := 89.
Definition VMCS_GUEST_RIP : Z := 90.
Definition VMCS_GUEST_RFLAGS : Z := 91.
Definition VMCS_GUEST_PEND_DBE : Z := 92.
Definition VMCS_GUEST_WORKING_VMCS_PTR : Z := 93.
Definition VMCS_GUEST_DEBUG_CONTROL : Z := 94.
Definition VMCS_GUEST_INTERRUPTIBILITY : Z := 95.
Definition VMCS_GUEST_SLEEP_STATE : Z := 96.
Definition VMCS_GUEST_SMBASE : Z := 97.
Definition VMCS_GUEST_SYSENTER_CS : Z := 98.
Definition VMCS_GUEST_SYSENTER_ESP : Z := 99.
Definition VMCS_GUEST_SYSENTER_EIP : Z := 100.
Definition VMCS_GUEST_PAT : Z := 101.
Definition VMCS_GUEST_EFER : Z := 102.
Definition VMCS_GUEST_IA32_PERF_GLOBAL_CTRL : Z := 103.
Definition VMCS_GUEST_PDPTR0 : Z := 104.
Definition VMCS_GUEST_PDPTR1 : Z := 105.
Definition VMCS_GUEST_PDPTR2 : Z := 106.
Definition VMCS_GUEST_PDPTR3 : Z := 107.
Definition VMCS_HOST_CR0 : Z := 108.
Definition VMCS_HOST_CR3 : Z := 109.
Definition VMCS_HOST_CR4 : Z := 110.
Definition VMCS_HOST_ES_SELECTOR : Z := 111.
Definition VMCS_HOST_CS_SELECTOR : Z := 112.
Definition VMCS_HOST_SS_SELECTOR : Z := 113.
Definition VMCS_HOST_DS_SELECTOR : Z := 114.
Definition VMCS_HOST_FS_SELECTOR : Z := 115.
Definition VMCS_HOST_FS_BASE : Z := 116.
Definition VMCS_HOST_GS_SELECTOR : Z := 117.
Definition VMCS_HOST_GS_BASE : Z := 118.
Definition VMCS_HOST_TR_SELECTOR : Z := 119.
Definition VMCS_HOST_TR_BASE : Z := 120.
Definition VMCS_HOST_GDTR_BASE : Z := 121.
Definition VMCS_HOST_IDTR_BASE : Z := 122.
Definition VMCS_HOST_RSP : Z := 123.
Definition VMCS_HOST_RIP : Z := 124.
Definition VMCS_HOST_SYSENTER_CS : Z := 125.
Definition VMCS_HOST_SYSENTER_ESP : Z := 126.
Definition VMCS_HOST_SYSENTER_EIP : Z := 127.
Definition VMCS_HOST_PAT : Z := 128.
Definition VMCS_HOST_EFER : Z := 129.
Definition VMCS_HOST_IA32_PERF_GLOBAL_CTRL : Z := 130.
Definition VMCS_CR3_TARGET_VALUE_0 : Z := 131.
Definition VMCS_CR3_TARGET_VALUE_1 : Z := 132.
Definition VMCS_CR3_TARGET_VALUE_2 : Z := 133.
Definition VMCS_CR3_TARGET_VALUE_3 : Z := 134.
Definition VMCS_VE_INFO_ADDRESS : Z := 135.
Definition VMCS_FIELD_COUNT : Z := 136.

(** * Encodings and access rights *)

Definition VMCS_NOT_EXISTS : Z := 0.
Definition VMCS_READABLE : Z := 1.
Definition VMCS_WRITABLE : Z := 2.
Definition VMCS_WRITABLE_IN_CACHE : Z := 4.

Definition NO_EXIST : Z := VMCS_NOT_EXISTS.
Definition READONLY : Z := VMCS_READABLE.
Definition WRITABLE : Z := Z.lor VMCS_READABLE VMCS_WRITABLE.
Definition WRITABLE_IN_CACHE : Z := Z.lor VMCS_READABLE VMCS_WRITABLE_IN_CACHE.
Definition FULL_ENC_ONLY : Z := 0.
Definition SUPP_HIGH_ENC : Z := 1.
Definition VMCS_NO_COMPONENT : Z := 0xFFFF.

Record VMCS_ENCODING := enc { encoding : Z; access : Z; supports_high_encoding : Z; name : string }.

(** The initial table; its last entry stands for VMCS_FIELD_COUNT. *)
Definition g_field_data_init : list VMCS_ENCODING :=
  [enc 0x0000 NO_EXIST FULL_ENC_ONLY "VMCS_VPID";
   enc 0x0004 NO_EXIST FULL_ENC_ONLY "VMCS_EPTP_INDEX";
   enc 0x4000 WRITABLE FULL_ENC_ONLY "VMCS_CONTROL_VECTOR_PIN_EVENTS";
   enc 0x4002 WRITABLE FULL_ENC_ONLY "VMCS_CONTROL_VECTOR_PROCESSOR_EVENTS";
   enc 0x401E WRITABLE FULL_ENC_ONLY "VMCS_CONTROL2_VECTOR_PROCESSOR_EVENTS";
   enc 0x4004 WRITABLE FULL_ENC_ONLY "VMCS_EXCEPTION_BITMAP";
   enc 0x400A WRITABLE FULL_ENC_ONLY "VMCS_CR3_TARGET_COUNT";
   enc 0x6000 WRITABLE FULL_ENC_ONLY "VMCS_CR0_MASK";
   enc 0x6002 WRITABLE FULL_ENC_ONLY "VMCS_CR4_MASK";
   enc 0x6004 WRITABLE FULL_ENC_ONLY "VMCS_CR0_READ_SHADOW";
   enc 0x6006 WRITABLE FULL_ENC_ONLY "VMCS_CR4_READ_SHADOW";
   enc 0x4006 WRITABLE FULL_ENC_ONLY "VMCS_PAGE_FAULT_ERROR_CODE_MASK";
   enc 0x4008 WRITABLE FULL_ENC_ONLY "VMCS_PAGE_FAULT_ERROR_CODE_MATCH";
   enc 0x400C WRITABLE FULL_ENC_ONLY "VMCS_EXIT_CONTROL_VECTOR";
   enc 0x400E WRITABLE FULL_ENC_ONLY "VMCS_EXIT_MSR_STORE_COUNT";
   enc 0x4010 WRITABLE FULL_ENC_ONLY "VMCS_EXIT_MSR_LOAD_COUNT";
   enc 0x4012 WRITABLE FULL_ENC_ONLY "VMCS_ENTER_CONTROL_VECTOR";
   enc 0x4016 WRITABLE FULL_ENC_ONLY "VMCS_ENTER_INTERRUPT_INFO";
   enc 0x4018 WRITABLE FULL_ENC_ONLY "VMCS_ENTER_EXCEPTION_ERROR_CODE";
   enc 0x401A WRITABLE FULL_ENC_ONLY "VMCS_ENTER_INSTRUCTION_LENGTH";
   enc 0x4014 WRITABLE FULL_ENC_ONLY "VMCS_ENTER_MSR_LOAD_COUNT";
   enc 0x2000 WRITABLE SUPP_HIGH_ENC "VMCS_IO_BITMAP_ADDRESS_A";
   enc 0x2002 WRITABLE SUPP_HIGH_ENC "VMCS_IO_BITMAP_ADDRESS_B";
   enc 0x2004 WRITABLE SUPP_HIGH_ENC "VMCS_MSR_BITMAP_ADDRESS";
   enc 0x2006 WRITABLE SUPP_HIGH_ENC "VMCS_EXIT_MSR_STORE_ADDRESS";
   enc 0x2008 WRITABLE SUPP_HIGH_ENC "VMCS_EXIT_MSR_LOAD_ADDRESS";
   enc 0x200A WRITABLE SUPP_HIGH_ENC "VMCS_ENTER_MSR_LOAD_ADDRESS";
   enc 0x200C WRITABLE SUPP_HIGH_ENC "VMCS_OSV_CONTROLLING_VMCS_ADDRESS";
   enc 0x2010 WRITABLE SUPP_HIGH_ENC "VMCS_TSC_OFFSET";
   enc 0x2400 NO_EXIST SUPP_HIGH_ENC "VMCS_EXIT_INFO_GUEST_PHYSICAL_ADDRESS";
   enc 0x4400 READONLY FULL_ENC_ONLY "VMCS_EXIT_INFO_INSTRUCTION_ERROR_CODE";
   enc 0x4402 READONLY FULL_ENC_ONLY "VMCS_EXIT_INFO_REASON";
   enc 0x4404 READONLY FULL_ENC_ONLY "VMCS_EXIT_INFO_EXCEPTION_INFO";
   enc 0x4406 READONLY FULL_ENC_ONLY "VMCS_EXIT_INFO_EXCEPTION_ERROR_CODE";
   enc 0x4408 WRITABLE_IN_CACHE FULL_ENC_ONLY "VMCS_EXIT_INFO_IDT_VECTORING";
   enc 0x440A READONLY FULL_ENC_ONLY "VMCS_EXIT_INFO_IDT_VECTORING_ERROR_CODE";
   enc 0x440C READONLY FULL_ENC_ONLY "VMCS_EXIT_INFO_INSTRUCTION_LENGTH";
   enc 0x440E READONLY FULL_ENC_ONLY "VMCS_EXIT_INFO_INSTRUCTION_INFO";
   enc 0x6400 READONLY FULL_ENC_ONLY "VMCS_EXIT_INFO_QUALIFICATION";
   enc 0x6402 READONLY FULL_ENC_ONLY "VMCS_EXIT_INFO_IO_RCX";
   enc 0x6404 READONLY FULL_ENC_ONLY "VMCS_EXIT_INFO_IO_RSI";
   enc 0x6406 READONLY FULL_ENC_ONLY "VMCS_EXIT_INFO_IO_RDI";
   enc 0x6408 READONLY FULL_ENC_ONLY "VMCS_EXIT_INFO_IO_RIP";
   enc 0x640A READONLY FULL_ENC_ONLY "VMCS_EXIT_INFO_GUEST_LINEAR_ADDRESS";
   enc 0x2012 WRITABLE SUPP_HIGH_ENC "VMCS_VIRTUAL_APIC_ADDRESS";
   enc 0x2014 WRITABLE SUPP_HIGH_ENC "VMCS_APIC_ACCESS_ADDRESS";
   enc 0x401C WRITABLE FULL_ENC_ONLY "VMCS_EXIT_TPR_THRESHOLD";
   enc 0x201A NO_EXIST SUPP_HIGH_ENC "VMCS_EPTP_ADDRESS";
   enc 0x482E NO_EXIST FULL_ENC_ONLY "VMCS_PREEMPTION_TIMER";
   enc 0x6800 WRITABLE FULL_ENC_ONLY "VMCS_GUEST_CR0";
   enc 0x6802 WRITABLE FULL_ENC_ONLY "VMCS_GUEST_CR3";
   enc 0x6804 WRITABLE FULL_ENC_ONLY "VMCS_GUEST_CR4";
   enc 0x681A WRITABLE FULL_ENC_ONLY "VMCS_GUEST_DR7";
   enc 0x0800 WRITABLE FULL_ENC_ONLY "VMCS_GUEST_ES_SELECTOR";
   enc 0x6806 WRITABLE FULL_ENC_ONLY "VMCS_GUEST_ES_BASE";
   enc 0x4800 WRITABLE FULL_ENC_ONLY "VMCS_GUEST_ES_LIMIT";
   enc 0x4814 WRITABLE FULL_ENC_ONLY "VMCS_GUEST_ES_AR";
   enc 0x0802 WRITABLE FULL_ENC_ONLY "VMCS_GUEST_CS_SELECTOR";
   enc 0x6808 WRITABLE FULL_ENC_ONLY "VMCS_GUEST_CS_BASE";
   enc 0x4802 WRITABLE FULL_ENC_ONLY "VMCS_GUEST_CS_LIMIT";
   enc 0x4816 WRITABLE FULL_ENC_ONLY "VMCS_GUEST_CS_AR";
   enc 0x0804 WRITABLE FULL_ENC_ONLY "VMCS_GUEST_SS_SELECTOR";
   enc 0x680A WRITABLE FULL_ENC_ONLY "VMCS_GUEST_SS_BASE";
   enc 0x4804 WRITABLE FULL_ENC_ONLY "VMCS_GUEST_SS_LIMIT";
   enc 0x4818 WRITABLE FULL_ENC_ONLY "VMCS_GUEST_SS_AR";
   enc 0x0806 WRITABLE FULL_ENC_ONLY "VMCS_GUEST_DS_SELECTOR";
   enc 0x680C WRITABLE FULL_ENC_ONLY "VMCS_GUEST_DS_BASE";
   enc 0x4806 WRITABLE FULL_ENC_ONLY "VMCS_GUEST_DS_LIMIT";
   enc 0x481A WRITABLE FULL_ENC_ONLY "VMCS_GUEST_DS_AR";
   enc 0x0808 WRITABLE FULL_ENC_ONLY "VMCS_GUEST_FS_SELECTOR";
   enc 0x680E WRITABLE FULL_ENC_ONLY "VMCS_GUEST_FS_BASE";
   enc 0x4808 WRITABLE FULL_ENC_ONLY "VMCS_GUEST_FS_LIMIT";
   enc 0x481C WRITABLE FULL_ENC_ONLY "VMCS_GUEST_FS_AR";
   enc 0x080A WRITABLE FULL_ENC_ONLY "VMCS_GUEST_GS_SELECTOR";
   enc 0x6810 WRITABLE FULL_ENC_ONLY "VMCS_GUEST_GS_BASE";
   enc 0x480A WRITABLE FULL_ENC_ONLY "VMCS_GUEST_GS_LIMIT";
   enc 0x481E WRITABLE FULL_ENC_ONLY "VMCS_GUEST_GS_AR";
   enc 0x080C WRITABLE FULL_ENC_ONLY "VMCS_GUEST_LDTR_SELECTOR";
   enc 0x6812 WRITABLE FULL_ENC_ONLY "VMCS_GUEST_LDTR_BASE";
   enc 0x480C WRITABLE FULL_ENC_ONLY "VMCS_GUEST_LDTR_LIMIT";
   enc 0x4820 WRITABLE FULL_ENC_ONLY "VMCS_GUEST_LDTR_AR";
   enc 0x080E WRITABLE FULL_ENC_ONLY "VMCS_GUEST_TR_SELECTOR";
   enc 0x6814 WRITABLE FULL_ENC_ONLY "VMCS_GUEST_TR_BASE";
   enc 0x480E WRITABLE FULL_ENC_ONLY "VMCS_GUEST_TR_LIMIT";
   enc 0x4822 WRITABLE FULL_ENC_ONLY "VMCS_GUEST_TR_AR";
   enc 0x6816 WRITABLE FULL_ENC_ONLY "VMCS_GUEST_GDTR_BASE";
   enc 0x4810 WRITABLE FULL_ENC_ONLY "VMCS_GUEST_GDTR_LIMIT";
   enc 0x6818 WRITABLE FULL_ENC_ONLY "VMCS_GUEST_IDTR_BASE";
   enc 0x4812 WRITABLE FULL_ENC_ONLY "VMCS_GUEST_IDTR_LIMIT";
   enc 0x681C WRITABLE FULL_ENC_ONLY "VMCS_GUEST_RSP";
   enc 0x681E WRITABLE FULL_ENC_ONLY "VMCS_GUEST_RIP";
   enc 0x6820 WRITABLE FULL_ENC_ONLY "VMCS_GUEST_RFLAGS";
   enc 0x6822 WRITABLE FULL_ENC_ONLY "VMCS_GUEST_PEND_DBE";
   enc 0x2800 WRITABLE SUPP_HIGH_ENC "VMCS_GUEST_WORKING_VMCS_PTR";
   enc 0x2802 WRITABLE SUPP_HIGH_ENC "VMCS_GUEST_DEBUG_CONTROL";
   enc 0x4824 WRITABLE FULL_ENC_ONLY "VMCS_GUEST_INTERRUPTIBILITY";
   enc 0x4826 WRITABLE FULL_ENC_ONLY "VMCS_GUEST_SLEEP_STATE";
   enc 0x4828 WRITABLE FULL_ENC_ONLY "VMCS_GUEST_SMBASE";
   enc 0x482A WRITABLE FULL_ENC_ONLY "VMCS_GUEST_SYSENTER_CS";
   enc 0x6824 WRITABLE FULL_ENC_ONLY "VMCS_GUEST_SYSENTER_ESP";
   enc 0x6826 WRITABLE FULL_ENC_ONLY "VMCS_GUEST_SYSENTER_EIP";
   enc 0x2804 NO_EXIST SUPP_HIGH_ENC "VMCS_GUEST_PAT";
   enc 0x2806 WRITABLE SUPP_HIGH_ENC "VMCS_GUEST_EFER";
   enc 0x2808 NO_EXIST SUPP_HIGH_ENC "GUEST_IA32_PERF_GLOBAL_CTRL";
   enc 0x280A NO_EXIST SUPP_HIGH_ENC "VMCS_GUEST_PDPTR0";
   enc 0x280C NO_EXIST SUPP_HIGH_ENC "VMCS_GUEST_PDPTR1";
   enc 0x280E NO_EXIST SUPP_HIGH_ENC "VMCS_GUEST_PDPTR2";
   enc 0x2810 NO_EXIST SUPP_HIGH_ENC "VMCS_GUEST_PDPTR3";
   enc 0x6C00 WRITABLE FULL_ENC_ONLY "VMCS_HOST_CR0";
   enc 0x6C02 WRITABLE FULL_ENC_ONLY "VMCS_HOST_CR3";
   enc 0x6C04 WRITABLE FULL_ENC_ONLY "VMCS_HOST_CR4";
   enc 0x0C00 WRITABLE FULL_ENC_ONLY "VMCS_HOST_ES_SELECTOR";
   enc 0x0C02 WRITABLE FULL_ENC_ONLY "VMCS_HOST_CS_SELECTOR";
   enc 0x0C04 WRITABLE FULL_ENC_ONLY "VMCS_HOST_SS_SELECTOR";
   enc 0x0C06 WRITABLE FULL_ENC_ONLY "VMCS_HOST_DS_SELECTOR";
   enc 0x0C08 WRITABLE FULL_ENC_ONLY "VMCS_HOST_FS_SELECTOR";
   enc 0x6C06 WRITABLE FULL_ENC_ONLY "VMCS_HOST_FS_BASE";
   enc 0x0C0A WRITABLE FULL_ENC_ONLY "VMCS_HOST_GS_SELECTOR";
   enc 0x6C08 WRITABLE FULL_ENC_ONLY "VMCS_HOST_GS_BASE";
   enc 0x0C0C WRITABLE FULL_ENC_ONLY "VMCS_HOST_TR_SELECTOR";
   enc 0x6C0A WRITABLE FULL_ENC_ONLY "VMCS_HOST_TR_BASE";
   enc 0x6C0C WRITABLE FULL_ENC_ONLY "VMCS_HOST_GDTR_BASE";
   enc 0x6C0E WRITABLE FULL_ENC_ONLY "VMCS_HOST_IDTR_BASE";
   enc 0x6C14 WRITABLE FULL_ENC_ONLY "VMCS_HOST_RSP";
   enc 0x6C16 WRITABLE FULL_ENC_ONLY "VMCS_HOST_RIP";
   enc 0x4C00 WRITABLE FULL_ENC_ONLY "VMCS_HOST_SYSENTER_CS";
   enc 0x6C10 WRITABLE FULL_ENC_ONLY "VMCS_HOST_SYSENTER_ESP";
   enc 0x6C12 WRITABLE FULL_ENC_ONLY "VMCS_HOST_SYSENTER_EIP";
   enc 0x2C00 NO_EXIST SUPP_HIGH_ENC "VMCS_HOST_PAT";
   enc 0x2C02 WRITABLE SUPP_HIGH_ENC "VMCS_HOST_EFER";
   enc 0x2C04 NO_EXIST SUPP_HIGH_ENC "HOST_IA32_PERF_GLOBAL_CTRL";
   enc 0x6008 WRITABLE FULL_ENC_ONLY "VM_X_CR3_TARGET_VALUE_0";
   enc 0x600A WRITABLE FULL_ENC_ONLY "VM_X_CR3_TARGET_VALUE_1";
   enc 0x600C WRITABLE FULL_ENC_ONLY "VM_X_CR3_TARGET_VALUE_2";
   enc 0x600E WRITABLE FULL_ENC_ONLY "VM_X_CR3_TARGET_VALUE_3";
   enc 0x202A NO_EXIST SUPP_HIGH_ENC "VMCS_VE_INFO_ADDRESS";
   enc 0xFFFF NO_EXIST FULL_ENC_ONLY "VMCS_FIELD_COUNT"].

(** The capabilities of the processor. *)
Record VMCS_HW_CONSTRAINTS := mk_constraints {
  may1_pin_based_exec_ctrl : Z;
  may0_pin_based_exec_ctrl : Z;
  may1_processor_based_exec_ctrl : Z;
  may0_processor_based_exec_ctrl : Z;
  may1_processor_based_exec_ctrl2 : Z;
  may0_processor_based_exec_ctrl2 : Z;
  may1_vm_exit_ctrl : Z;
  may0_vm_exit_ctrl : Z;
  may1_vm_entry_ctrl : Z;
  may0_vm_entry_ctrl : Z;
  may1_cr0 : Z;
  may0_cr0 : Z;
  may1_cr4 : Z;
  may0_cr4 : Z;
  number_of_cr3_target_values : Z;
  max_msr_lists_size_in_bytes : Z;
  vmx_timer_length : Z;
  vmcs_revision : Z;
  mseg_revision_id : Z;
  vm_entry_in_halt_state_supported : bool;
  vm_entry_in_shutdown_state_supported : bool;
  vm_entry_in_wait_for_sipi_state_supported : bool;
  processor_based_exec_ctrl2_supported : bool;
  ept_supported : bool;
  unrestricted_guest_supported : bool;
  vpid_supported : bool;
  ve_supported : bool;
  ept_vpid_capabilities : Z
}.

(** The bits of the control unions of vmx_ctrl_msrs.h. *)
Definition VmxTimer (pin : Z) : bool := Z.testbit pin 6.
Module Exit.
Definition SaveDebugControls (c : Z) : bool := Z.testbit c 2.
Definition Load_IA32_PERF_GLOBAL_CTRL (c : Z) : bool := Z.testbit c 12.
Definition SaveSysEnterMsrs (c : Z) : bool := Z.testbit c 16.
Definition SavePat (c : Z) : bool := Z.testbit c 18.
Definition LoadPat (c : Z) : bool := Z.testbit c 19.
Definition SaveEfer (c : Z) : bool := Z.testbit c 20.
Definition LoadEfer (c : Z) : bool := Z.testbit c 21.
End Exit.
Module Entry.
Definition Load_IA32_PERF_GLOBAL_CTRL (c : Z) : bool := Z.testbit c 13.
Definition LoadPat (c : Z) : bool := Z.testbit c 14.
Definition LoadEfer (c : Z) : bool := Z.testbit c 15.
End Entry.

(** [g_field_data[field].access = a]. *)
Definition set_access (field a : Z) (t : list VMCS_ENCODING) : outcome (list VMCS_ENCODING) :=
  e ← rd t field;
  wr t field (enc (encoding e) a (supports_high_encoding e) (name e)).

Fixpoint set_all (l : list (Z * Z)) (t : list VMCS_ENCODING) : outcome (list VMCS_ENCODING) :=
  match l with
  | [] => Ok t
  | (f, a) :: l => t ← set_access f a t; set_all l t
  end.

Definition enable_vmcs_2_0_fields (k : VMCS_HW_CONSTRAINTS) (t : list VMCS_ENCODING) : outcome (list VMCS_ENCODING) :=
  t ← (if ept_supported k then
         set_all [(VMCS_EPTP_ADDRESS, WRITABLE); (VMCS_EXIT_INFO_GUEST_PHYSICAL_ADDRESS, READONLY);
                  (VMCS_GUEST_PDPTR0, WRITABLE); (VMCS_GUEST_PDPTR1, WRITABLE);
                  (VMCS_GUEST_PDPTR2, WRITABLE); (VMCS_GUEST_PDPTR3, WRITABLE)] t
       else Ok t);
  t ← (if vpid_supported k then set_access VMCS_VPID WRITABLE t else Ok t);
  t ← (if Entry.LoadEfer (may1_vm_entry_ctrl k) || Exit.SaveEfer (may1_vm_exit_ctrl k)
       then set_access VMCS_GUEST_EFER WRITABLE t else Ok t);
  t ← (if Entry.LoadPat (may1_vm_entry_ctrl k) || Exit.SavePat (may1_vm_exit_ctrl k)
       then set_access VMCS_GUEST_PAT WRITABLE t else Ok t);
  t ← (if VmxTimer (may1_pin_based_exec_ctrl k) then set_access VMCS_PREEMPTION_TIMER WRITABLE t else Ok t);
  t ← (if Exit.LoadEfer (may1_vm_exit_ctrl k) then set_access VMCS_HOST_EFER WRITABLE t else Ok t);
  t ← (if Exit.LoadPat (may1_vm_exit_ctrl k) then set_access VMCS_HOST_PAT WRITABLE t else Ok t);
  t ← (if Exit.Load_IA32_PERF_GLOBAL_CTRL (may1_vm_exit_ctrl k)
       then set_access VMCS_GUEST_IA32_PERF_GLOBAL_CTRL WRITABLE t else Ok t);
  t ← (if Entry.Load_IA32_PERF_GLOBAL_CTRL (may1_vm_entry_ctrl k)
       then set_access VMCS_HOST_IA32_PERF_GLOBAL_CTRL WRITABLE t else Ok t);
  (if ve_supported k then set_all [(VMCS_EPTP_INDEX, WRITABLE); (VMCS_VE_INFO_ADDRESS, WRITABLE)] t else Ok t).

Definition vmcs_field_is_supported (t : list VMCS_ENCODING) (field : Z) : outcome bool :=
  if (field <? VMCS_FIELD_COUNT) && (field <? Z.of_nat (length t) - 1) then
    e ← rd t field; Ok (negb (access e =? NO_EXIST))
  else Ok false.

Definition FIELD_IS_READABLE (t : list VMCS_ENCODING) (field : Z) : outcome bool :=
  e ← rd t field; Ok (negb (Z.land (access e) VMCS_READABLE =? 0)).
Definition FIELD_IS_WRITEABLE (t : list VMCS_ENCODING) (field : Z) : outcome bool :=
  e ← rd t field; Ok (negb (Z.land (access e) (Z.lor VMCS_WRITABLE VMCS_WRITABLE_IN_CACHE) =? 0)).

(** The encoding and the access rights (no rights are written for a bad field). *)
Definition vmcs_get_field_encoding (t : list VMCS_ENCODING) (field : Z) : outcome (Z * option Z) :=
  if field <? VMCS_FIELD_COUNT then e ← rd t field; Ok (encoding e, Some (access e))
  else Ok (VMCS_NO_COMPONENT, None).

Definition vmcs_get_field_name (t : list VMCS_ENCODING) (field : Z) : outcome string :=
  if field <? VMCS_FIELD_COUNT then e ← rd t field; Ok (name e) else Ok "UNKNOWN VMCS FIELD".

(** * From an encoding to a field *)

Definition NUMBER_OF_ENCODING_TYPES : Z := 16.
Definition MAX_ENCODINGS_OF_SAME_TYPE : Z := 32.
Definition ENC_MUST_BE_ZERO_BITS : Z := 0x9000.
Definition ENC_TYPE_FROM_ENCODING (e : Z) : Z :=
  Z.lor (Z.shiftr (Z.land e 0x6000) 11) (Z.shiftr (Z.land e 0x0C00) 10).
Definition ENTRY_IDX_FROM_ENCODING (e : Z) : Z := Z.shiftr (Z.land e 0x03FE) 1.
Definition IS_ENCODING_HIGH_TYPE (e : Z) : bool := Z.land e 1 =? 1.

Record ENC_2_FIELD_ENTRY := mk_entry { valid : bool; field_id : Z }.

(** The two-dimensional table g_enc_2_field, row by row; the entry is its position. *)
Definition get_enc_2_field_entry (e : Z) : option Z :=
  let enc_type := ENC_TYPE_FROM_ENCODING e in
  let entry_idx := ENTRY_IDX_FROM_ENCODING e in
  if negb (Z.land e ENC_MUST_BE_ZERO_BITS =? 0) then None
  else if NUMBER_OF_ENCODING_TYPES <=? enc_type then None
  else if MAX_ENCODINGS_OF_SAME_TYPE <=? entry_idx then None
  else Some (enc_type * MAX_ENCODINGS_OF_SAME_TYPE + entry_idx).

(** The loop over the fields; a failed lookup leaves the pointer as it was ([None] is NULL). *)
Definition init_entry (t : list VMCS_ENCODING) (cur_field : Z) (s : list ENC_2_FIELD_ENTRY * option Z)
  : outcome (list ENC_2_FIELD_ENTRY * option Z) :=
  let '(g, ptr) := s in
  e ← rd t cur_field;
  if access e =? NO_EXIST then Ok (g, ptr)
  else
    let ptr := match get_enc_2_field_entry (encoding e) with Some p => Some p | None => ptr end in
    match ptr with
    | None => Fault
    | Some p => g ← wr g p (mk_entry true cur_field); Ok (g, ptr)
    end.
Definition init_enc_2_field_tables (t : list VMCS_ENCODING) : outcome (list ENC_2_FIELD_ENTRY) :=
  let zero := replicate (Z.to_nat (NUMBER_OF_ENCODING_TYPES * MAX_ENCODINGS_OF_SAME_TYPE)) (mk_entry false 0) in
  s ← for_range 0 VMCS_FIELD_COUNT (init_entry t) (zero, None);
  Ok s.1.

Definition vmcs_manager_init (k : VMCS_HW_CONSTRAINTS) : outcome (list VMCS_ENCODING * list ENC_2_FIELD_ENTRY) :=
  t ← enable_vmcs_2_0_fields k g_field_data_init;
  g ← init_enc_2_field_tables t;
  Ok (t, g).

(** The field and whether the encoding is of its high part (not written for a bad encoding). *)
Definition vmcs_get_field_id_by_encoding (t : list VMCS_ENCODING) (g : list ENC_2_FIELD_ENTRY) (e : Z)
  : outcome (Z * option bool) :=
  match get_enc_2_field_entry e with
  | None => Ok (VMCS_FIELD_COUNT, None)
  | Some p =>
      entry ← rd g p;
      if negb (valid entry) then Ok (VMCS_FIELD_COUNT, None)
      else
        d ← rd t (field_id entry);
        if IS_ENCODING_HIGH_TYPE e && negb (supports_high_encoding d =? SUPP_HIGH_ENC)
        then Ok (VMCS_FIELD_COUNT, None)
        else Ok (field_id entry, Some (IS_ENCODING_HIGH_TYPE e))
  end.

(** * The tables *)

(** What [enable_vmcs_2_0_fields] does not change. *)
Definition shape (t : list VMCS_ENCODING) : list (Z * Z) :=
  (fun d => (encoding d, supports_high_encoding d)) <$> t.

Lemma list_insert_fmap_same {A B} (f : A -> B) (l : list A) i x y :
  l !! i = Some x -> f y = f x -> f <$> <[i := y]> l = f <$> l.
Proof.
  intros Hx Hf. rewrite list_fmap_insert, Hf. apply list_insert_id. by rewrite list_lookup_fmap, Hx.
Qed.

Lemma shape_length t : length (shape t) = length t.
Proof. apply length_fmap. Qed.

Lemma set_access_shape f a t : 0 <= f < Z.of_nat (length t) ->
  exists t', set_access f a t = Ok t' /\ shape t' = shape t.
Proof.
  intros Hf. destruct (lookup_lt_is_Some_2 t (Z.to_nat f)) as [d Hd]; [lia|].
  unfold set_access. rewrite (rd_ok _ _ d) by (done || lia). rewrite bind_Ok, wr_ok by done.
  eexists. split; [done|]. by apply (list_insert_fmap_same _ _ _ d).
Qed.

Lemma set_all_shape l t : (forall f a, (f, a) ∈ l -> 0 <= f < Z.of_nat (length t)) ->
  exists t', set_all l t = Ok t' /\ shape t' = shape t.
Proof.
  revert t. induction l as [|[f a] l IH]; intros t H; [by exists t|]. cbn [set_all].
  destruct (set_access_shape f a t) as (t1 & -> & E1); [apply (H f a); left|]. rewrite bind_Ok.
  destruct (IH t1) as (t2 & -> & E2).
  { intros g b Hg. rewrite <- (shape_length t1), E1, shape_length. apply (H g b). by right. }
  exists t2. split; [done|]. congruence.
Qed.

(** One conditional step of the initialisation. *)
Lemma shape_step (b : bool) f t0 t (rest : list VMCS_ENCODING -> outcome (list VMCS_ENCODING)) :
  shape t = shape t0 ->
  (forall t, shape t = shape t0 -> exists t', f t = Ok t' /\ shape t' = shape t) ->
  (forall t, shape t = shape t0 -> exists t', rest t = Ok t' /\ shape t' = shape t0) ->
  exists t', ((if b then f t else Ok t) ≫= rest) = Ok t' /\ shape t' = shape t0.
Proof.
  intros Ht Hf Hr. destruct b; [|by apply Hr].
  destruct (Hf t Ht) as (t1 & -> & E). rewrite bind_Ok. apply Hr. congruence.
Qed.

Lemma set_access_init f a t : shape t = shape g_field_data_init -> 0 <= f < 137 ->
  exists t', set_access f a t = Ok t' /\ shape t' = shape t.
Proof.
  intros Ht Hf. apply set_access_shape. rewrite <- (shape_length t), Ht, shape_length.
  change (Z.of_nat (length g_field_data_init)) with 137. done.
Qed.

Lemma set_all_init l t : shape t = shape g_field_data_init ->
  Forall (fun x => 0 <= x.1 < 137) l -> exists t', set_all l t = Ok t' /\ shape t' = shape t.
Proof.
  intros Ht Hl. apply set_all_shape. rewrite <- (shape_length t), Ht, shape_length.
  change (Z.of_nat (length g_field_data_init)) with 137.
  intros f a Hf. exact (proj1 (Forall_forall _ _) Hl (f, a) Hf).
Qed.

Lemma enable_shape k : exists t, enable_vmcs_2_0_fields k g_field_data_init = Ok t /\ shape t = shape g_field_data_init.
Proof.
  unfold enable_vmcs_2_0_fields.
  do 9 (apply shape_step; [done|intros ? ?; first [by apply set_access_init|apply set_all_init; [done|repeat constructor; done]]|];
        clear; intros t Ht).
  destruct (ve_supported k); [|by exists t].
  destruct (set_all_init [(VMCS_EPTP_INDEX, WRITABLE); (VMCS_VE_INFO_ADDRESS, WRITABLE)] t Ht) as (t' & -> & E).
  { repeat constructor; done. }
  exists t'. split; [done|]. congruence.
Qed.

(** The encoding a position of the table stands for (of the full field). *)
Definition unslot (p : Z) : Z :=
  Z.lor (Z.lor (Z.shiftl (p / 32 / 4) 13) (Z.shiftl (p / 32 mod 4) 10)) (Z.shiftl (p mod 32) 1).

Lemma land_u16 e m : 0 <= m < 65536 -> Z.land (u16 e) m = Z.land e m.
Proof.
  intros Hm. unfold u16, wrap. rewrite <- Z.land_ones by lia.
  rewrite <- Z.land_assoc, (Z.land_comm (Z.ones 16)), Z.land_ones by lia. by rewrite (Z.mod_small m) by lia.
Qed.

Lemma get_enc_u16 e : get_enc_2_field_entry (u16 e) = get_enc_2_field_entry e.
Proof.
  unfold get_enc_2_field_entry, ENC_TYPE_FROM_ENCODING, ENTRY_IDX_FROM_ENCODING, ENC_MUST_BE_ZERO_BITS.
  by rewrite !land_u16 by done.
Qed.

Definition slot_ok (e : Z) : bool :=
  match get_enc_2_field_entry e with
  | Some p => (0 <=? p) && (p <? 512) && (e =? unslot p + e mod 2)
  | None => true
  end.

(** A test of every number of [k] bits that follow the bits of [b]. *)
Fixpoint all_bits (k : nat) (f : Z -> bool) (b : Z) : bool :=
  match k with
  | O => f b
  | S k => all_bits k f (2 * b) && all_bits k f (2 * b + 1)
  end.

Lemma all_bits_spec k f b e : all_bits k f b = true -> b * 2 ^ Z.of_nat k <= e < (b + 1) * 2 ^ Z.of_nat k -> f e = true.
Proof.
  revert b. induction k as [|k IH]; intros b H He; cbn [all_bits] in H.
  - change (2 ^ Z.of_nat 0) with 1 in He. by replace e with b by lia.
  - apply andb_prop in H as [H0 H1]. rewrite Nat2Z.inj_succ, Z.pow_succ_r in He by lia.
    destruct (decide (e < (2 * b + 1) * 2 ^ Z.of_nat k)); [apply (IH (2 * b))|apply (IH (2 * b + 1))]; (done || lia).
Qed.

Lemma slot_ok_all : all_bits 16 slot_ok 0 = true.
Proof. vm_compute. reflexivity. Qed.

Lemma get_enc_inv e p : get_enc_2_field_entry e = Some p ->
  0 <= p < 512 /\ u16 e = unslot p + u16 e mod 2.
Proof.
  rewrite <- get_enc_u16. intros H. pose proof (wrap_fits 16 e) as Hf. unfold fits in Hf. change (wrap 16) with u16 in Hf.
  assert (slot_ok (u16 e) = true) as Hs by (apply (all_bits_spec 16 _ 0); [exact slot_ok_all|lia]).
  unfold slot_ok in Hs. rewrite H in Hs. apply andb_prop in Hs as [Hs He].
  apply andb_prop in Hs as [H0 H1]. apply Z.eqb_eq in He. split; [lia|done].
Qed.

(** The position of a field. *)
Definition slot_of (d : Z * Z) : option Z := get_enc_2_field_entry d.1.

Definition init_check : bool :=
  forallb (fun d => match slot_of d with Some _ => true | None => false end &&
                    (d.1 mod 2 =? 0) && (d.1 <? 65535) && bool_decide (slot_of (d.1 + 1, d.2) = slot_of d))
    (take 136 (shape g_field_data_init)) &&
  bool_decide (NoDup (slot_of <$> take 136 (shape g_field_data_init))).

Lemma init_check_true : init_check = true.
Proof. vm_compute. reflexivity. Qed.

Section Tables.
Context (t : list VMCS_ENCODING) (Ht : shape t = shape g_field_data_init).

Lemma table_length : length t = 137%nat.
Proof. rewrite <- shape_length, Ht. reflexivity. Qed.

Lemma shape_lookup f d : 0 <= f < 136 -> t !! Z.to_nat f = Some d ->
  (encoding d, supports_high_encoding d) ∈ take 136 (shape g_field_data_init) /\
  take 136 (shape g_field_data_init) !! Z.to_nat f = Some (encoding d, supports_high_encoding d).
Proof.
  intros Hf Hd.
  assert (take 136 (shape g_field_data_init) !! Z.to_nat f = Some (encoding d, supports_high_encoding d)) as Hl.
  { rewrite lookup_take_lt by lia. rewrite <- Ht. unfold shape. by rewrite list_lookup_fmap, Hd. }
  split; [by eapply list_elem_of_lookup_2|done].
Qed.

(** Every field has a position of its own, which its high part shares. *)
Lemma field_slot f d : 0 <= f < 136 -> t !! Z.to_nat f = Some d -> exists p,
  get_enc_2_field_entry (encoding d) = Some p /\ get_enc_2_field_entry (encoding d + 1) = Some p /\
  0 <= p < 512 /\ encoding d mod 2 = 0 /\ 0 <= encoding d < 65535 /\ encoding d = unslot p.
Proof.
  intros Hf Hd. destruct (shape_lookup f d Hf Hd) as [Hin _].
  pose proof init_check_true as H. apply andb_prop in H as [H _]. rewrite forallb_forall in H.
  specialize (H (encoding d, supports_high_encoding d)). rewrite <- list_elem_of_In in H. specialize (H Hin).
  cbn [fst snd] in H. unfold slot_of in H. cbn [fst] in H.
  destruct (get_enc_2_field_entry (encoding d)) as [p|] eqn:Ep; [|done].
  rewrite !andb_true_iff, Z.eqb_eq, Z.ltb_lt, bool_decide_eq_true in H. destruct H as [[[_ Hev] Hlt] Hhi].
  destruct (get_enc_inv _ _ Ep) as [Hp Hu].
  assert (0 <= encoding d) as H0.
  { assert (forallb (fun x => 0 <=? x.1) (take 136 (shape g_field_data_init)) = true) as Hall by reflexivity.
    rewrite forallb_forall in Hall. specialize (Hall _ (proj1 (list_elem_of_In _ _) Hin)). cbn [fst] in Hall. lia. }
  rewrite u16_small in Hu by lia. exists p. split_and!; try done; lia.
Qed.

Lemma field_slot_inj f1 f2 d1 d2 : 0 <= f1 < 136 -> 0 <= f2 < 136 ->
  t !! Z.to_nat f1 = Some d1 -> t !! Z.to_nat f2 = Some d2 ->
  get_enc_2_field_entry (encoding d1) = get_enc_2_field_entry (encoding d2) -> f1 = f2.
Proof.
  intros Hf1 Hf2 H1 H2 He. pose proof init_check_true as H. apply andb_prop in H as [_ H].
  apply bool_decide_eq_true in H.
  destruct (shape_lookup f1 d1 Hf1 H1) as [_ L1]. destruct (shape_lookup f2 d2 Hf2 H2) as [_ L2].
  assert (Z.to_nat f1 = Z.to_nat f2); [|lia].
  apply (NoDup_lookup _ _ _ (slot_of (encoding d1, supports_high_encoding d1)) H);
    rewrite list_lookup_fmap, ?L1, ?L2; [done|]. unfold slot_of. cbn [fst snd fmap option_fmap option_map]. congruence.
Qed.
End Tables.

(** The table built so far: the fields below [i] that exist have their entries, and there are no
    other valid entries. *)
Definition filled (t : list VMCS_ENCODING) (i : Z) (g : list ENC_2_FIELD_ENTRY) : Prop :=
  length g = 512%nat /\
  (forall f d p, 0 <= f < i -> t !! Z.to_nat f = Some d -> access d <> NO_EXIST ->
     get_enc_2_field_entry (encoding d) = Some p -> g !! Z.to_nat p = Some (mk_entry true f)) /\
  (forall p x, g !! p = Some x -> valid x = true -> 0 <= field_id x < i /\
     exists d, t !! Z.to_nat (field_id x) = Some d /\ access d <> NO_EXIST /\
       get_enc_2_field_entry (encoding d) = Some (Z.of_nat p)).

Lemma init_entry_filled t i g ptr : shape t = shape g_field_data_init -> 0 <= i < 136 -> filled t i g ->
  exists g' ptr', init_entry t i (g, ptr) = Ok (g', ptr') /\ filled t (i + 1) g'.
Proof.
  intros Ht Hi (Hl & H1 & H2). pose proof (table_length t Ht) as Hlen.
  destruct (lookup_lt_is_Some_2 t (Z.to_nat i)) as [d Hd]; [lia|].
  unfold init_entry. rewrite (rd_ok _ _ d) by (done || lia). rewrite bind_Ok.
  destruct (Z.eqb_spec (access d) NO_EXIST) as [Ha|Ha].
  { exists g, ptr. split; [done|]. split; [done|]. split.
    - intros f d' p Hf Hd' Ha'. destruct (decide (f = i)) as [->|]; [congruence|]. apply (H1 f d' p); (done || lia).
    - intros p x Hx Hv. destruct (H2 p x Hx Hv) as (Hf & R). split; [lia|done]. }
  destruct (field_slot t Ht i d Hi Hd) as (p & Ep & _ & Hp & _). rewrite Ep, wr_ok by lia. rewrite bind_Ok.
  eexists _, _. split; [done|]. split; [by rewrite length_insert|]. split.
  - intros f d' p' Hf Hd' Ha' Ep'. destruct (decide (f = i)) as [->|Hne].
    + replace d' with d in Ep' by congruence. replace p' with p by congruence. by rewrite list_lookup_insert_eq by lia.
    + rewrite list_lookup_insert_ne; [apply (H1 f d' p'); (done || lia)|].
      intros Hpp. destruct (get_enc_inv _ _ Ep') as [Hp' _]. assert (p = p') as <- by lia.
      apply Hne. apply (field_slot_inj t Ht f i d' d); (done || lia || congruence).
  - intros p' x Hx Hv. destruct (decide (p' = Z.to_nat p)) as [->|Hne].
    + rewrite list_lookup_insert_eq in Hx by lia. injection Hx as <-. cbn [field_id]. split; [lia|].
      exists d. split_and!; [done|done|]. by rewrite Z2Nat.id by lia.
    + rewrite list_lookup_insert_ne in Hx by done. destruct (H2 p' x Hx Hv) as (Hf & R). split; [lia|done].
Qed.

Lemma init_filled t : shape t = shape g_field_data_init ->
  exists g, init_enc_2_field_tables t = Ok g /\ filled t 136 g.
Proof.
  intros Ht. unfold init_enc_2_field_tables.
  destruct (for_range_inv (fun i s => filled t i s.1) 0 VMCS_FIELD_COUNT (init_entry t)
    (replicate (Z.to_nat (NUMBER_OF_ENCODING_TYPES * MAX_ENCODINGS_OF_SAME_TYPE)) (mk_entry false 0), None))
    as ([g ptr] & -> & Hg); [done| | |].
  - split; [done|]. cbn [fst]. split; [lia|]. intros p x Hx Hv. apply lookup_replicate in Hx as [-> _]. done.
  - intros i [g ptr] Hi Hg. destruct (init_entry_filled t i g ptr Ht Hi Hg) as (g' & ptr' & -> & Hg').
    by exists (g', ptr').
  - rewrite bind_Ok. by exists g.
Qed.

(** What an initialised pair of tables is. *)
Lemma vmcs_manager_init_ok k : exists t g, vmcs_manager_init k = Ok (t, g) /\
  shape t = shape g_field_data_init /\ filled t 136 g.
Proof.
  unfold vmcs_manager_init. destruct (enable_shape k) as (t & -> & Ht). rewrite bind_Ok.
  destruct (init_filled t Ht) as (g & -> & Hg). rewrite bind_Ok. by exists t, g.
Qed.

Lemma high_type_odd e : IS_ENCODING_HIGH_TYPE e = (e mod 2 =? 1).
Proof.
  unfold IS_ENCODING_HIGH_TYPE. change (Z.land e 1) with (Z.land e (Z.ones 1)). by rewrite Z.land_ones by lia.
Qed.

Lemma high_type_even e : e mod 2 = 0 -> IS_ENCODING_HIGH_TYPE e = false /\ IS_ENCODING_HIGH_TYPE (e + 1) = true.
Proof. intros He. rewrite !high_type_odd. split; [apply Z.eqb_neq|apply Z.eqb_eq]; lia. Qed.

Lemma high_type_mod e : IS_ENCODING_HIGH_TYPE e = (u16 e mod 2 =? 1).
Proof.
  rewrite high_type_odd. f_equal. unfold u16, wrap.
  rewrite <- (Znumtheory.Zmod_div_mod 2 (2 ^ 16)); [done|lia|lia|]. by exists (2 ^ 15).
Qed.

(** C30. A field and its encoding determine each other. After the initialisation, on any processor, the
    encoding of every field that exists is translated to that field, the odd encoding after it
    to the high part of the field when the field has one, and to no field otherwise; and an
    encoding that is translated to a field is the encoding of that field or of its high part
    (in its low 16 bits, the only ones that are looked at). *)
Theorem field_encoding_roundtrip k : exists t g, vmcs_manager_init k = Ok (t, g) /\
  (forall f d, 0 <= f < VMCS_FIELD_COUNT -> t !! Z.to_nat f = Some d -> access d <> NO_EXIST ->
     vmcs_get_field_id_by_encoding t g (encoding d) = Ok (f, Some false) /\
     vmcs_get_field_id_by_encoding t g (encoding d + 1) =
       Ok (if supports_high_encoding d =? SUPP_HIGH_ENC then (f, Some true) else (VMCS_FIELD_COUNT, None))) /\
  (forall e, vmcs_get_field_id_by_encoding t g e = Ok (VMCS_FIELD_COUNT, None) \/
     exists f d high, vmcs_get_field_id_by_encoding t g e = Ok (f, Some high) /\
       0 <= f < VMCS_FIELD_COUNT /\ t !! Z.to_nat f = Some d /\ access d <> NO_EXIST /\
       u16 e = encoding d + Z.b2z high).
Proof.
  destruct (vmcs_manager_init_ok k) as (t & g & E & Ht & Hl & H1 & H2). exists t, g. split; [done|].
  change VMCS_FIELD_COUNT with 136. split.
  - intros f d Hf Hd Ha. destruct (field_slot t Ht f d Hf Hd) as (p & E0 & E1 & Hp & He & _).
    unfold vmcs_get_field_id_by_encoding. rewrite E0, E1.
    rewrite (rd_ok g _ (mk_entry true f)) by (lia || by apply (H1 f d p)). rewrite !bind_Ok. cbn [valid negb field_id].
    rewrite (rd_ok t _ d) by (done || lia). rewrite !bind_Ok.
    destruct (high_type_even _ He) as [-> ->]. cbn [andb]. split; [done|]. by destruct (_ =? SUPP_HIGH_ENC).
  - intros e. unfold vmcs_get_field_id_by_encoding.
    destruct (get_enc_2_field_entry e) as [p|] eqn:Ep; [|by left].
    destruct (get_enc_inv e p Ep) as [Hp Hu].
    destruct (lookup_lt_is_Some_2 g (Z.to_nat p)) as [x Hx]; [lia|].
    rewrite (rd_ok _ _ x) by (done || lia). rewrite bind_Ok. destruct (valid x) eqn:Hv; cbn [negb]; [|by left].
    destruct (H2 _ _ Hx Hv) as (Hf & d & Hd & Ha & Es). rewrite (rd_ok _ _ d) by (done || lia). rewrite bind_Ok.
    destruct (IS_ENCODING_HIGH_TYPE e && negb (supports_high_encoding d =? SUPP_HIGH_ENC)); [by left|].
    right. exists (field_id x), d, (IS_ENCODING_HIGH_TYPE e). split_and!; try (done || lia).
    destruct (field_slot t Ht _ d Hf Hd) as (p' & Ep' & _ & _ & _ & _ & Hu').
    assert (p' = p) as -> by (rewrite Es in Ep'; injection Ep' as <-; lia).
    rewrite high_type_mod, Hu', Hu at 1. pose proof (Z.mod_pos_bound (u16 e) 2). destruct (Z.eqb_spec (u16 e mod 2) 1); cbn [Z.b2z]; lia.
Qed.

(** The rights of the two fields of IA32_PERF_GLOBAL_CTRL are set from each other's control: the
    field loaded at VM entry exists when the processor can load the register at VM exit. *)
Lemma perf_global_ctrl_swapped : exists t,
  enable_vmcs_2_0_fields (mk_constraints 0 0 0 0 0 0 0 0 (2 ^ 13) 0 0 0 0 0 0 0 0 0 0 false false false false false false false false 0)
    g_field_data_init = Ok t /\
  vmcs_field_is_supported t VMCS_GUEST_IA32_PERF_GLOBAL_CTRL = Ok false /\
  vmcs_field_is_supported t VMCS_HOST_IA32_PERF_GLOBAL_CTRL = Ok true.
Proof. eexists. vm_compute. split; [reflexivity|]. split; reflexivity. Qed.

(** The table follows the enumeration. *)
Lemma field_names_agree f n d : VMCS_FIELD_names !! f = Some n -> g_field_data_init !! f = Some d ->
  name d = n \/ "VMCS_" +:+ name d = n \/ name d = "VM_X_" +:+ String.substring 5 100 n.
Proof.
  intros Hn Hd.
  assert (forallb (fun '(n, d) => bool_decide (name d = n \/ "VMCS_" +:+ name d = n \/
    name d = "VM_X_" +:+ String.substring 5 100 n)) (zip VMCS_FIELD_names g_field_data_init) = true) as H
    by (vm_compute; reflexivity).
  rewrite forallb_forall in H. specialize (H (n, d)). rewrite <- list_elem_of_In in H.
  apply bool_decide_eq_true in H; [done|]. apply (list_elem_of_lookup_2 _ f).
  apply lookup_zip_with_Some. by exists n, d.
Qed.
