(* ===== verification/Vmcs.v ===== *)
(** vmx/vmcs.c, second part: the access to a VMCS object through the operations it carries (struct
    _VMCS_OBJECT of vmcs_api.h), with the access rights of g_field_data.

    The function pointers of the object are the class [VmcsOps]; [VmcsLaws] states what a client
    expects of them: an object behaves as a memory of fields. The object of the hardware
    (VmcsActual.v) and the object kept in software implement the class, and the clients (the field
    updates here and the MSR lists of VmcsMsrList.v) are verified against it. *)

From S2P Require Import Prelude VmmDefs VmcsFields.

Definition VMCS_INVALID_ADDRESS : Z := 2 ^ 64 - 1.
Definition UINT64_ALL_ONES : Z := 2 ^ 64 - 1.

Inductive VMCS_LEVEL := VMCS_LEVEL_0 | VMCS_LEVEL_1 | VMCS_MERGED.

(** The data of the object; its function pointers are the class below. *)
Record VMCS_OBJECT := mk_vmcs {
  level : VMCS_LEVEL;
  skip_access_checking : bool;
  max_num_of_vmexit_store_msrs : Z;
  max_num_of_vmexit_load_msrs : Z;
  max_num_of_vmenter_load_msrs : Z
}.

Class VmcsOps (O : Type) := {
  base : O -> VMCS_OBJECT;
  set_base : VMCS_OBJECT -> O -> O;
  (** A read may fill a cache. *)
  op_read : O -> Z -> outcome (Z * O);
  op_write : O -> Z -> Z -> outcome O
}.

(** [view o] is the content of the object, as a function of the field; [serves] are the fields that
    exist for it. *)
Class VmcsLaws (O : Type) `{VmcsOps O} := {
  good : O -> Prop;
  view : O -> Z -> Z;
  serves : Z -> Prop;
  read_law : forall o f, good o -> 0 <= f < VMCS_FIELD_COUNT -> serves f ->
    exists o', op_read o f = Ok (view o f, o') /\ good o' /\ base o' = base o /\
      forall g, 0 <= g < VMCS_FIELD_COUNT -> view o' g = view o g;
  write_law : forall o f v, good o -> 0 <= f < VMCS_FIELD_COUNT -> serves f -> fits 64 v ->
    exists o', op_write o f v = Ok o' /\ good o' /\ base o' = base o /\
      forall g, 0 <= g < VMCS_FIELD_COUNT -> view o' g = if g =? f then v else view o g;
  set_base_law : forall o b, good o -> good (set_base b o) /\ base (set_base b o) = b /\
    forall g, view (set_base b o) g = view o g;
  view_range : forall o f, good o -> 0 <= f < VMCS_FIELD_COUNT -> fits 64 (view o f)
}.

Section Access.
Context {O : Type} `{VmcsOps O} (t : list VMCS_ENCODING).

Definition vmcs_get_level (o : O) : VMCS_LEVEL := level (base o).

Definition vmcs_write_nocheck (o : O) (field value : Z) : outcome O :=
  if field <? VMCS_FIELD_COUNT then op_write o field value else Ok o.

(** The assertion reads the table also for a bad field. *)
Definition vmcs_write (o : O) (field value : Z) : outcome O :=
  w ← FIELD_IS_WRITEABLE t field;
  if (field <? VMCS_FIELD_COUNT) && (skip_access_checking (base o) || w) then op_write o field value else Ok o.

Definition vmcs_read (o : O) (field : Z) : outcome (Z * O) :=
  r ← FIELD_IS_READABLE t field;
  if (field <? VMCS_FIELD_COUNT) && (skip_access_checking (base o) || r) then op_read o field
  else Ok (UINT64_ALL_ONES, o).

Definition vmcs_update (o : O) (field value bits_to_update : Z) : outcome O :=
  r ← vmcs_read o field;
  let '(result_value, o) := r in
  let value := Z.land value bits_to_update in
  let result_value := Z.land result_value (u64 (Z.lnot bits_to_update)) in
  vmcs_write o field (Z.lor result_value value).

Definition vmcs_clear_all_msr_lists (o : O) : outcome O :=
  o ← vmcs_write o VMCS_EXIT_MSR_STORE_COUNT 0;
  o ← vmcs_write o VMCS_EXIT_MSR_LOAD_COUNT 0;
  vmcs_write o VMCS_ENTER_MSR_LOAD_COUNT 0.

Definition set_maxima (store load enter : Z) (o : O) : O :=
  let b := base o in set_base (mk_vmcs (level b) (skip_access_checking b) store load enter) o.

Definition vmcs_init_all_msr_lists (o : O) : outcome O :=
  o ← vmcs_write o VMCS_EXIT_MSR_STORE_ADDRESS VMCS_INVALID_ADDRESS;
  o ← vmcs_write o VMCS_EXIT_MSR_LOAD_ADDRESS VMCS_INVALID_ADDRESS;
  o ← vmcs_write o VMCS_ENTER_MSR_LOAD_ADDRESS VMCS_INVALID_ADDRESS;
  o ← vmcs_clear_all_msr_lists o;
  Ok (set_maxima 0 0 0 o).
End Access.

(** * Access rights *)

(** A field the initialised table lets clients read and write. *)
Definition read_write (t : list VMCS_ENCODING) (f : Z) : Prop :=
  exists d, t !! Z.to_nat f = Some d /\ Z.land (access d) VMCS_READABLE <> 0 /\
    Z.land (access d) (Z.lor VMCS_WRITABLE VMCS_WRITABLE_IN_CACHE) <> 0.

Lemma read_write_rights t f : 0 <= f -> read_write t f ->
  FIELD_IS_READABLE t f = Ok true /\ FIELD_IS_WRITEABLE t f = Ok true.
Proof.
  intros Hf (d & Hd & Hr & Hw). unfold FIELD_IS_READABLE, FIELD_IS_WRITEABLE.
  rewrite !(rd_ok _ _ d) by done. rewrite !bind_Ok. split; f_equal; apply negb_true_iff; by apply Z.eqb_neq.
Qed.

(** A field that a client of objects of type [O] may use. *)
Definition usable (O : Type) `{VmcsLaws O} (t : list VMCS_ENCODING) (f : Z) : Prop := read_write t f /\ serves (O := O) f.

Section Client.
Context {O : Type} `{VmcsLaws O} (t : list VMCS_ENCODING).

Lemma vmcs_read_ok o f : good o -> 0 <= f < VMCS_FIELD_COUNT -> usable O t f ->
  exists o', vmcs_read t o f = Ok (view o f, o') /\ good o' /\ base o' = base o /\
    forall g, 0 <= g < VMCS_FIELD_COUNT -> view o' g = view o g.
Proof.
  intros Hg Hf [Ht Hs]. unfold vmcs_read. destruct (read_write_rights t f ltac:(lia) Ht) as [-> _]. rewrite bind_Ok.
  rewrite (proj2 (Z.ltb_lt _ _)), orb_true_r by lia. cbn [andb]. by apply read_law.
Qed.

Lemma vmcs_write_ok o f v : good o -> 0 <= f < VMCS_FIELD_COUNT -> usable O t f -> fits 64 v ->
  exists o', vmcs_write t o f v = Ok o' /\ good o' /\ base o' = base o /\
    forall g, 0 <= g < VMCS_FIELD_COUNT -> view o' g = if g =? f then v else view o g.
Proof.
  intros Hg Hf [Ht Hs] Hv. unfold vmcs_write. destruct (read_write_rights t f ltac:(lia) Ht) as [_ ->]. rewrite bind_Ok.
  rewrite (proj2 (Z.ltb_lt _ _)), orb_true_r by lia. cbn [andb]. by apply write_law.
Qed.

(** The value an update leaves: the bits of the mask from [value], the others from the field. *)
Definition updated (old value mask : Z) : Z := Z.lor (Z.land old (u64 (Z.lnot mask))) (Z.land value mask).

Lemma updated_bits old value mask i : fits 64 old -> 0 <= i ->
  Z.testbit (updated old value mask) i = if Z.testbit mask i then Z.testbit value i else Z.testbit old i.
Proof.
  intros Ho Hi. unfold updated. rewrite Z.lor_spec, !Z.land_spec. unfold u64, wrap.
  destruct (decide (i < 64)).
  - rewrite Z.mod_pow2_bits_low, Z.lnot_spec by lia.
    destruct (Z.testbit mask i), (Z.testbit value i), (Z.testbit old i); done.
  - rewrite (bits_above old 64 i) by (unfold fits in Ho; lia). cbn [andb orb].
    destruct (Z.testbit mask i), (Z.testbit value i); done.
Qed.

Lemma updated_fits old value mask : fits 64 old -> fits 64 mask -> fits 64 value -> fits 64 (updated old value mask).
Proof.
  intros Ho Hm Hv. pose proof Ho as [Ho0 _]. pose proof Hm as [Hm0 _]. pose proof Hv as [Hv0 _].
  assert (0 <= updated old value mask) by (apply Z.lor_nonneg; split; apply Z.land_nonneg; lia).
  split; [done|]. apply bits_lt_pow2; [done|lia|]. intros j Hj. rewrite updated_bits by (done || lia).
  rewrite (bits_above old 64), (bits_above value 64) by (unfold fits in *; lia). by destruct (Z.testbit mask j).
Qed.

Lemma vmcs_update_ok o f v mask : good o -> 0 <= f < VMCS_FIELD_COUNT -> usable O t f -> fits 64 v -> fits 64 mask ->
  exists o', vmcs_update t o f v mask = Ok o' /\ good o' /\ base o' = base o /\
    forall g, 0 <= g < VMCS_FIELD_COUNT -> view o' g = if g =? f then updated (view o f) v mask else view o g.
Proof.
  intros Hg Hf Ht Hv Hm. unfold vmcs_update.
  destruct (vmcs_read_ok o f Hg Hf Ht) as (o1 & -> & Hg1 & Hb1 & Hv1). rewrite bind_Ok.
  destruct (vmcs_write_ok o1 f (updated (view o f) v mask) Hg1 Hf Ht) as (o2 & E & Hg2 & Hb2 & Hv2).
  { apply updated_fits; try done. by apply view_range. }
  exists o2. split; [exact E|]. split; [done|]. split; [congruence|].
  intros g Hgr. rewrite Hv2 by done. destruct (g =? f); [done|]. by apply Hv1.
Qed.
End Client.

(** * The rights after the initialisation *)

Lemma set_access_other f a t t' g : set_access f a t = Ok t' -> g <> Z.to_nat f -> t' !! g = t !! g.
Proof.
  unfold set_access. intros H Hg. ostep H. apply rd_inv in E as [Hr _]. rewrite wr_ok in H by done.
  injection H as <-. by rewrite list_lookup_insert_ne.
Qed.

Lemma set_all_other l t t' g : set_all l t = Ok t' -> g ∉ (fun x => Z.to_nat x.1) <$> l -> t' !! g = t !! g.
Proof.
  revert t. induction l as [|[f a] l IH]; intros t H Hg; cbn [set_all] in H; [by injection H as <-|].
  rewrite fmap_cons, not_elem_of_cons in Hg. destruct Hg as [Hg1 Hg2]. ostep H.
  rewrite (IH _ H Hg2). by apply (set_access_other f a).
Qed.

(** The fields whose rights depend on the processor. *)
Definition optional_fields : list Z :=
  [VMCS_EPTP_ADDRESS; VMCS_EXIT_INFO_GUEST_PHYSICAL_ADDRESS; VMCS_GUEST_PDPTR0; VMCS_GUEST_PDPTR1; VMCS_GUEST_PDPTR2;
   VMCS_GUEST_PDPTR3; VMCS_VPID; VMCS_GUEST_EFER; VMCS_GUEST_PAT; VMCS_PREEMPTION_TIMER; VMCS_HOST_EFER;
   VMCS_HOST_PAT; VMCS_GUEST_IA32_PERF_GLOBAL_CTRL; VMCS_HOST_IA32_PERF_GLOBAL_CTRL; VMCS_EPTP_INDEX;
   VMCS_VE_INFO_ADDRESS].

Lemma if_bind (P : list VMCS_ENCODING -> Prop) (b : bool) f t (rest : list VMCS_ENCODING -> outcome (list VMCS_ENCODING)) t' :
  ((if b then f t else Ok t) ≫= rest) = Ok t' -> P t ->
  (forall t1, f t = Ok t1 -> P t -> P t1) -> exists t1, rest t1 = Ok t' /\ P t1.
Proof. intros H Ht Hf. ostep H. destruct b; [|injection E as <-]; eauto. Qed.

Lemma enable_other k t t' g : enable_vmcs_2_0_fields k t = Ok t' -> g ∉ Z.to_nat <$> optional_fields -> t' !! g = t !! g.
Proof.
  intros H Hg.
  assert (forall f a t1 t2, f ∈ optional_fields -> set_access f a t1 = Ok t2 -> t1 !! g = t !! g -> t2 !! g = t !! g) as Ha.
  { intros f a t1 t2 Hf E <-. apply (set_access_other _ _ _ _ _ E). intros ->. apply Hg.
    apply list_elem_of_fmap. by exists f. }
  assert (forall l t1 t2, Forall (fun x => x.1 ∈ optional_fields) l -> set_all l t1 = Ok t2 -> t1 !! g = t !! g ->
    t2 !! g = t !! g) as Hall.
  { intros l t1 t2 Hl E <-. apply (set_all_other _ _ _ _ E). intros Hin.
    apply list_elem_of_fmap in Hin as (x & -> & Hx). apply Hg. apply list_elem_of_fmap. exists x.1. split; [done|].
    by apply (proj1 (Forall_forall _ _) Hl). }
  unfold enable_vmcs_2_0_fields in H.
  do 9 (apply (if_bind (fun t1 => t1 !! g = t !! g)) in H as (? & H & ?);
    [|done|let E := fresh in intros ? E; first [eapply Ha; [|exact E]|eapply Hall; [|exact E]]; by apply (bool_decide_unpack _)]).
  destruct (ve_supported k); [|by injection H as <-]. eapply Hall; [|exact H|done]. by apply (bool_decide_unpack _).
Qed.

(** A field that is read-write in the initial table and does not depend on the processor. *)
Lemma init_read_write k t f : enable_vmcs_2_0_fields k g_field_data_init = Ok t ->
  bool_decide (f ∉ optional_fields /\ 0 <= f /\ access <$> g_field_data_init !! Z.to_nat f = Some WRITABLE) = true ->
  read_write t f.
Proof.
  intros Ht Hf. apply bool_decide_eq_true in Hf as (Ho & H0 & Ha).
  destruct (g_field_data_init !! Z.to_nat f) as [d|] eqn:Ed; [|done]. injection Ha as Ha.
  exists d. rewrite (enable_other k _ _ _ Ht).
  - rewrite Ha. split; [done|]. by split.
  - intros Hin. apply list_elem_of_fmap in Hin as (f' & He & Hf').
    assert (0 <= f'). { assert (Forall (fun x => 0 <= x) optional_fields) as Hp by (repeat constructor; done).
      by apply (proj1 (Forall_forall _ _) Hp). }
    assert (f' = f) by lia. by subst.
Qed.
