(* ===== verification/VmcsSw.v ===== *)
(** vmx/vmcs_sw_object.c: a VMCS that exists only in the cache of fields, never in the hardware. It
    implements the object operations of Vmcs.v. *)

From S2P Require Import Prelude VmmDefs Cache64 VmcsFields Vmcs.

(** The object, with the entry of vmcs_sw_shadow_disable of the CPU that uses it. *)
Record VMCS_SOFTWARE_OBJECT := mk_sw {
  vmcs_base : VMCS_OBJECT;
  cache : CACHE64_STRUCT;
  gcpu : Z;
  gpa : Z;
  disabled : bool
}.

Definition set_cache (c : CACHE64_STRUCT) (o : VMCS_SOFTWARE_OBJECT) : VMCS_SOFTWARE_OBJECT :=
  mk_sw (vmcs_base o) c (gcpu o) (gpa o) (disabled o).

Definition vmcs_sw_write (o : VMCS_SOFTWARE_OBJECT) (field value : Z) : outcome VMCS_SOFTWARE_OBJECT :=
  c ← cache64_write (disabled o) (cache o) value field; Ok (set_cache c o).

Definition vmcs_sw_read (o : VMCS_SOFTWARE_OBJECT) (field : Z) : outcome Z :=
  v ← cache64_read (disabled o) (cache o) field; Ok (default 0 v).

Definition vmcs_sw_flush_to_cpu (o : VMCS_SOFTWARE_OBJECT) : outcome VMCS_SOFTWARE_OBJECT :=
  cache64_flush_dirty cache set_cache VMCS_FIELD_COUNT None o.

Definition vmcs_sw_is_dirty (o : VMCS_SOFTWARE_OBJECT) : bool := cache64_is_dirty (cache o).
Definition vmcs_sw_get_owner (o : VMCS_SOFTWARE_OBJECT) : Z := gcpu o.

#[global] Instance sw_ops : VmcsOps VMCS_SOFTWARE_OBJECT := {
  base := vmcs_base;
  set_base := fun b o => mk_sw b (cache o) (gcpu o) (gpa o) (disabled o);
  op_read := fun o f => v ← vmcs_sw_read o f; Ok (v, o);
  op_write := vmcs_sw_write
}.

(** * The object is a memory of fields *)

Definition sw_good (o : VMCS_SOFTWARE_OBJECT) : Prop :=
  cache_wf (cache o) /\ num_of_entries (cache o) = VMCS_FIELD_COUNT /\ disabled o = false /\ values_fit (cache o).
Definition sw_view (o : VMCS_SOFTWARE_OBJECT) (f : Z) : Z := default 0 (content (cache o) f).

#[global] Instance sw_laws : VmcsLaws VMCS_SOFTWARE_OBJECT.
Proof.
  refine {| good := sw_good; view := sw_view; serves := fun _ => True |}.
  - intros o f (W & Hn & Hd & Hv) Hf _. exists o. split_and!; try done. cbn [op_read sw_ops]. unfold vmcs_sw_read.
    rewrite Hd, cache64_read_content by (done || lia). by rewrite !bind_Ok.
  - intros o f v (W & Hn & Hd & Hv) Hf _ Hfit. cbn [op_write sw_ops]. unfold vmcs_sw_write. rewrite Hd.
    destruct (cache64_write_spec (cache o) v f W) as (c' & -> & W' & Hn' & Hc & _); [unfold entry; lia|].
    rewrite bind_Ok. eexists. split; [done|]. cbn [set_cache base sw_ops vmcs_base cache disabled].
    split; [|split; [done|]].
    + split; [done|]. split; [exact (eq_trans Hn' Hn)|]. split; [done|]. by apply (values_fit_write (cache o) c' f v).
    + intros g Hg. unfold sw_view. cbn [set_cache cache]. rewrite Hc. by destruct (g =? f).
  - done.
  - intros o f (_ & _ & _ & Hv) _. unfold sw_view. destruct (content (cache o) f) eqn:E; [by apply (Hv f)|done].
Defined.
