(* ===== verification/VmcsMsrList.v ===== *)
(** vmx/vmcs.c, third part, and vmx/vmcs_internal.h: the lists of MSRs that the processor stores and
    loads at VM exit and VM entry. A list is an array of IA32_VMX_MSR_ENTRY whose address and length
    are fields of the VMCS; the object records the capacity of the array.

    The VMCS is used through [VmcsOps]/[VmcsLaws]. The arrays are in a memory of buffers, keyed by
    their host virtual addresses; a buffer from vmm_malloc_aligned has the requested size. *)

From S2P Require Import Prelude VmmDefs Cache64 VmcsFields Vmcs VmcsSw.

(** * Memory of MSR entries *)

Record IA32_VMX_MSR_ENTRY := msr { MsrIndex : Z; Reserved : Z; MsrData : Z }.
Abbreviation msr_mem := (gmap Z (list IA32_VMX_MSR_ENTRY)).

Definition rd_msr (m : msr_mem) (p i : Z) : outcome IA32_VMX_MSR_ENTRY :=
  match m !! p with Some l => rd l i | None => Fault end.
Definition wr_msr (m : msr_mem) (p i : Z) (e : IA32_VMX_MSR_ENTRY) : outcome msr_mem :=
  match m !! p with Some l => l ← wr l i e; Ok (<[p := l]> m) | None => Fault end.
(** vmm_mfree of an address that is no buffer corrupts the allocator. *)
Definition free_msr (m : msr_mem) (p : Z) : outcome msr_mem :=
  match m !! p with Some _ => Ok (delete p m) | None => Fault end.

Definition MIN_SIZE_OF_MSR_LIST : Z := 4.

(** [for (; !IS_POW_OF_2(n); n++);] *)
Fixpoint next_pow2 (fuel : nat) (n : Z) : outcome Z :=
  if IS_POW_OF_2 n then Ok n
  else match fuel with O => Spin | S fuel => next_pow2 fuel (n ⊕₃₂ 1) end.

Fixpoint vmcs_copy_msr_list (num : nat) (m : msr_mem) (to ti from fi : Z) : outcome msr_mem :=
  match num with
  | O => Ok m
  | S num =>
      e ← rd_msr m from fi;
      m ← wr_msr m to ti e;
      vmcs_copy_msr_list num m to (ti + 1) from (fi + 1)
  end.

(** The search loops: [skip_null] is the test of the pointer against NULL. *)
Fixpoint find_msr (n : nat) (skip_null : bool) (m : msr_mem) (p i msr_index : Z) : outcome (option Z) :=
  match n with
  | O => Ok None
  | S n =>
      if skip_null && (p =? 0) && (i =? 0) then find_msr n skip_null m p (i + 1) msr_index
      else
        e ← rd_msr m p i;
        if MsrIndex e =? msr_index then Ok (Some i) else find_msr n skip_null m p (i + 1) msr_index
  end.

Section Lists.
Context {O : Type} `{VmcsOps O} (t : list VMCS_ENCODING).
(** hmm_hpa_to_hva and hmm_hva_to_hpa of the host memory manager, and the address vmm_malloc_aligned
    returns for a size in a given memory. *)
Context (hmm_hpa_to_hva hmm_hva_to_hpa : Z -> option Z) (malloc : msr_mem -> Z -> Z).

(** The buffer and its capacity; (NULL, 0) without memory. *)
Definition vmcs_alloc_msr_list (m : msr_mem) (requested : Z) : outcome (Z * Z * msr_mem) :=
  let n := if 8 <? requested then requested else MIN_SIZE_OF_MSR_LIST in
  n ← next_pow2 (Z.to_nat n) n;
  let p := malloc m (u32 (n * 16)) in
  if p =? 0 then Ok (0, 0, m)
  else Ok (p, n, <[p := replicate (Z.to_nat (u32 (n * 16) / 16)) (msr 0 0 0)]> m).

(** The pointer to a list; a failed translation leaves NULL. *)
Definition list_ptr (is_hpa : bool) (addr : Z) : Z :=
  if is_hpa then default 0 (hmm_hpa_to_hva addr) else addr.

(** The end of vmcs_add_msr_to_list for a new entry. *)
Definition append_msr (o : O) (m : msr_mem) (p count msr_index value list_count max : Z) : outcome (O * msr_mem * Z) :=
  o ← vmcs_write t o list_count (count ⊕₃₂ 1);
  if (p =? 0) && (count =? 0) then Ok (o, m, max)
  else m ← wr_msr m p count (msr msr_index 0 value); Ok (o, m, max).

Definition vmcs_add_msr_to_list (o : O) (m : msr_mem) (msr_index value list_address list_count max : Z) (is_hpa : bool)
  : outcome (O * msr_mem * Z) :=
  r ← vmcs_read t o list_address;
  let '(addr, o) := r in
  r ← vmcs_read t o list_count;
  let '(count, o) := r in
  let count := u32 count in
  let p := if addr =? VMCS_INVALID_ADDRESS then 0 else list_ptr is_hpa addr in
  found ← find_msr (Z.to_nat count) true m p 0 msr_index;
  match found with
  | Some i => m ← wr_msr m p i (msr msr_index 0 value); Ok (o, m, max)
  | None =>
      if max <=? count then
        r ← vmcs_alloc_msr_list m (count ⊕₃₂ 1);
        let '(np, nmax, m) := r in
        m ← (if negb (count =? 0) then m ← vmcs_copy_msr_list (Z.to_nat count) m np 0 p 0; free_msr m p else Ok m);
        o ← (if is_hpa then
               match hmm_hva_to_hpa np with
               | Some hpa => vmcs_write t o list_address hpa
               | None => Fault
               end
             else vmcs_write t o list_address np);
        append_msr o m np count msr_index value list_count nmax
      else append_msr o m p count msr_index value list_count max
  end.

Definition vmcs_delete_msr_from_list (o : O) (m : msr_mem) (msr_index list_address list_count : Z) (is_hpa : bool)
  : outcome (O * msr_mem) :=
  r ← vmcs_read t o list_address;
  let '(addr, o) := r in
  r ← vmcs_read t o list_count;
  let '(count, o) := r in
  let count := u32 count in
  if negb (count =? 0) && negb (addr =? VMCS_INVALID_ADDRESS) then
    let p := list_ptr is_hpa addr in
    found ← find_msr (Z.to_nat count) false m p 0 msr_index;
    match found with
    | None => Ok (o, m)
    | Some i =>
        m ← vmcs_copy_msr_list (Z.to_nat (count - i - 1)) m p i p (i + 1);
        o ← vmcs_write t o list_count (count - 1);
        Ok (o, m)
    end
  else Ok (o, m).

(** Whether the addresses are host physical depends on the level of the object. *)
Definition vmcs_is_msr_in_list (o : O) (m : msr_mem) (list_address list_count msr_index : Z) : outcome (bool * O) :=
  r ← vmcs_read t o list_address;
  let '(addr, o) := r in
  r ← vmcs_read t o list_count;
  let '(count, o) := r in
  let count := u32 count in
  if count =? 0 then Ok (false, o)
  else
    let is_hpa := match vmcs_get_level o with VMCS_MERGED => true | _ => false end in
    found ← find_msr (Z.to_nat count) false m (list_ptr is_hpa addr) 0 msr_index;
    Ok (match found with Some _ => true | None => false end, o).

Definition vmcs_is_msr_in_vmexit_store_list (o : O) (m : msr_mem) (msr_index : Z) :=
  vmcs_is_msr_in_list o m VMCS_EXIT_MSR_STORE_ADDRESS VMCS_EXIT_MSR_STORE_COUNT msr_index.
Definition vmcs_is_msr_in_vmexit_load_list (o : O) (m : msr_mem) (msr_index : Z) :=
  vmcs_is_msr_in_list o m VMCS_EXIT_MSR_LOAD_ADDRESS VMCS_EXIT_MSR_LOAD_COUNT msr_index.
Definition vmcs_is_msr_in_vmenter_load_list (o : O) (m : msr_mem) (msr_index : Z) :=
  vmcs_is_msr_in_list o m VMCS_ENTER_MSR_LOAD_ADDRESS VMCS_ENTER_MSR_LOAD_COUNT msr_index.

(** ** The three lists of an object *)

Definition vmcs_add_msr_to_vmexit_store_list_internal (o : O) (m : msr_mem) (msr_index value : Z) (is_hpa : bool)
  : outcome (O * msr_mem) :=
  r ← vmcs_add_msr_to_list o m msr_index value VMCS_EXIT_MSR_STORE_ADDRESS VMCS_EXIT_MSR_STORE_COUNT
        (max_num_of_vmexit_store_msrs (base o)) is_hpa;
  let '(o, m, max) := r in
  Ok (set_maxima max (max_num_of_vmexit_load_msrs (base o)) (max_num_of_vmenter_load_msrs (base o)) o, m).

Definition vmcs_add_msr_to_vmexit_load_list_internal (o : O) (m : msr_mem) (msr_index value : Z) (is_hpa : bool)
  : outcome (O * msr_mem) :=
  r ← vmcs_add_msr_to_list o m msr_index value VMCS_EXIT_MSR_LOAD_ADDRESS VMCS_EXIT_MSR_LOAD_COUNT
        (max_num_of_vmexit_load_msrs (base o)) is_hpa;
  let '(o, m, max) := r in
  Ok (set_maxima (max_num_of_vmexit_store_msrs (base o)) max (max_num_of_vmenter_load_msrs (base o)) o, m).

Definition vmcs_add_msr_to_vmenter_load_list_internal (o : O) (m : msr_mem) (msr_index value : Z) (is_hpa : bool)
  : outcome (O * msr_mem) :=
  r ← vmcs_add_msr_to_list o m msr_index value VMCS_ENTER_MSR_LOAD_ADDRESS VMCS_ENTER_MSR_LOAD_COUNT
        (max_num_of_vmenter_load_msrs (base o)) is_hpa;
  let '(o, m, max) := r in
  Ok (set_maxima (max_num_of_vmexit_store_msrs (base o)) (max_num_of_vmexit_load_msrs (base o)) max o, m).

Definition vmcs_delete_msr_from_vmexit_store_list_internal (o : O) (m : msr_mem) (msr_index : Z) (is_hpa : bool) :=
  vmcs_delete_msr_from_list o m msr_index VMCS_EXIT_MSR_STORE_ADDRESS VMCS_EXIT_MSR_STORE_COUNT is_hpa.
Definition vmcs_delete_msr_from_vmexit_load_list_internal (o : O) (m : msr_mem) (msr_index : Z) (is_hpa : bool) :=
  vmcs_delete_msr_from_list o m msr_index VMCS_EXIT_MSR_LOAD_ADDRESS VMCS_EXIT_MSR_LOAD_COUNT is_hpa.
Definition vmcs_delete_msr_from_vmenter_load_list_internal (o : O) (m : msr_mem) (msr_index : Z) (is_hpa : bool) :=
  vmcs_delete_msr_from_list o m msr_index VMCS_ENTER_MSR_LOAD_ADDRESS VMCS_ENTER_MSR_LOAD_COUNT is_hpa.

(** [vmcs_write(vmcs, to, vmcs_read(vmcs, from))] *)
Definition copy_field (o : O) (to from : Z) : outcome O :=
  r ← vmcs_read t o from; vmcs_write t r.2 to r.1.

Definition vmcs_add_msr_to_vmexit_store_and_vmenter_load_lists_internal
  (o : O) (m : msr_mem) (msr_index value : Z) (is_hpa : bool) : outcome (O * msr_mem) :=
  r ← vmcs_read t o VMCS_EXIT_MSR_STORE_ADDRESS;
  let '(store_addr, o) := r in
  r ← vmcs_read t o VMCS_ENTER_MSR_LOAD_ADDRESS;
  let '(load_addr, o) := r in
  if negb (store_addr =? load_addr) && negb (load_addr =? VMCS_INVALID_ADDRESS) then
    r ← vmcs_add_msr_to_vmexit_store_list_internal o m msr_index value is_hpa;
    vmcs_add_msr_to_vmenter_load_list_internal r.1 r.2 msr_index value is_hpa
  else
    r ← vmcs_add_msr_to_vmexit_store_list_internal o m msr_index value is_hpa;
    let '(o, m) := r in
    r ← vmcs_read t o VMCS_EXIT_MSR_STORE_ADDRESS;
    r ← vmcs_read t r.2 VMCS_EXIT_MSR_STORE_COUNT;
    o ← copy_field r.2 VMCS_ENTER_MSR_LOAD_ADDRESS VMCS_EXIT_MSR_STORE_ADDRESS;
    o ← copy_field o VMCS_ENTER_MSR_LOAD_COUNT VMCS_EXIT_MSR_STORE_COUNT;
    Ok (o, m).

Definition vmcs_delete_msr_from_vmexit_store_and_vmenter_load_lists_internal
  (o : O) (m : msr_mem) (msr_index : Z) (is_hpa : bool) : outcome (O * msr_mem) :=
  r ← vmcs_read t o VMCS_EXIT_MSR_STORE_ADDRESS;
  let '(store_addr, o) := r in
  r ← vmcs_read t o VMCS_ENTER_MSR_LOAD_ADDRESS;
  let '(load_addr, o) := r in
  if negb (store_addr =? load_addr) then
    r ← vmcs_delete_msr_from_vmexit_store_list_internal o m msr_index is_hpa;
    vmcs_delete_msr_from_vmenter_load_list_internal r.1 r.2 msr_index is_hpa
  else if negb (load_addr =? VMCS_INVALID_ADDRESS) then
    r ← vmcs_delete_msr_from_vmexit_store_list_internal o m msr_index is_hpa;
    let '(o, m) := r in
    o ← copy_field o VMCS_ENTER_MSR_LOAD_COUNT VMCS_EXIT_MSR_STORE_COUNT;
    Ok (o, m)
  else Ok (o, m).

Definition vmcs_assign_vmexit_msr_load_list (o : O) (address_value count_value : Z) : outcome O :=
  o ← vmcs_write t o VMCS_EXIT_MSR_LOAD_ADDRESS address_value;
  o ← vmcs_write t o VMCS_EXIT_MSR_LOAD_COUNT count_value;
  Ok (set_maxima (max_num_of_vmexit_store_msrs (base o)) 0 (max_num_of_vmenter_load_msrs (base o)) o).

(** A failed translation frees an address that was never written. *)
Definition vmcs_free_msr_list (m : msr_mem) (addr : Z) (is_hpa : bool) : outcome msr_mem :=
  if negb (addr =? VMCS_INVALID_ADDRESS) then
    match (if is_hpa then hmm_hpa_to_hva addr else Some addr) with
    | Some hva => free_msr m hva
    | None => Fault
    end
  else Ok m.

Definition vmcs_destroy_all_msr_lists_internal (o : O) (m : msr_mem) (is_hpa : bool) : outcome (O * msr_mem) :=
  r ← vmcs_read t o VMCS_EXIT_MSR_STORE_ADDRESS;
  let '(store_addr, o) := r in
  r ← vmcs_read t o VMCS_EXIT_MSR_LOAD_ADDRESS;
  let '(load_addr, o) := r in
  r ← vmcs_read t o VMCS_ENTER_MSR_LOAD_ADDRESS;
  let '(enter_addr, o) := r in
  m ← vmcs_free_msr_list m store_addr is_hpa;
  m ← vmcs_free_msr_list m load_addr is_hpa;
  m ← vmcs_free_msr_list m enter_addr is_hpa;
  o ← vmcs_init_all_msr_lists t o;
  Ok (o, m).
End Lists.

(** * Lemmas on the loops *)

Lemma log2_up_next n : 0 < n -> n <> 2 ^ Z.log2 n -> Z.log2_up (n + 1) = Z.log2_up n.
Proof.
  intros Hn Hp. assert (1 < n) by (destruct (decide (n = 1)) as [->|]; [done|lia]).
  destruct (Z.log2_log2_up_spec n Hn) as [Hlo Hhi]. destruct (Z.log2_up_spec n) as [Hlt _]; [done|].
  apply Z.log2_up_unique; [apply Z.log2_up_pos; lia|].
  assert (n <> 2 ^ Z.log2_up n).
  { intros He. apply Hp. rewrite He at 2. rewrite Z.log2_pow2 by apply Z.log2_up_nonneg. done. }
  lia.
Qed.

Lemma next_pow2_ok fuel n : 0 < n <= 2 ^ 31 -> 2 ^ Z.log2_up n - n <= Z.of_nat fuel ->
  next_pow2 fuel n = Ok (2 ^ Z.log2_up n).
Proof.
  revert n. induction fuel as [|fuel IH]; intros n Hn Hf; cbn [next_pow2];
    destruct (IS_POW_OF_2 n) eqn:E; try (apply IS_POW_OF_2_spec in E; [|lia]; rewrite E at 1 2;
    rewrite Z.log2_up_pow2; [done|apply Z.log2_nonneg]).
  - destruct (Z.log2_log2_up_spec n ltac:(lia)) as [_ Hhi].
    assert (n = 2 ^ Z.log2_up n) as He by lia.
    assert (IS_POW_OF_2 n = true); [|congruence]. apply IS_POW_OF_2_spec; [lia|].
    rewrite He at 2. rewrite Z.log2_pow2 by apply Z.log2_up_nonneg. done.
  - assert (n <> 2 ^ Z.log2 n) as Hne by (intros C; apply IS_POW_OF_2_spec in C; [congruence|lia]).
    assert (n < 2 ^ 31) by (destruct (decide (n = 2 ^ 31)) as [->|]; [done|lia]).
    rewrite u32_small by lia. rewrite IH; rewrite ?log2_up_next by (done || lia); (done || lia).
Qed.

(** The position of an MSR in a list. *)
Definition position (msr_index : Z) (l : list IA32_VMX_MSR_ENTRY) : option nat :=
  fst <$> list_find (fun e => MsrIndex e = msr_index) l.

Lemma position_cons x e l :
  position x (e :: l) = if decide (MsrIndex e = x) then Some 0%nat else S <$> position x l.
Proof.
  unfold position. cbn [list_find]. destruct (decide (MsrIndex e = x)); [done|].
  by destruct (list_find _ l) as [[i y]|].
Qed.

Lemma position_Some x l i : position x l = Some i -> exists e, l !! i = Some e /\ MsrIndex e = x.
Proof.
  unfold position. intros H. destruct (list_find _ l) as [[j y]|] eqn:E; [|done]. injection H as <-.
  apply list_find_Some in E as (H1 & H2 & _). eauto.
Qed.

Lemma position_None x l : position x l = None -> x ∉ MsrIndex <$> l.
Proof.
  unfold position. intros H. destruct (list_find _ l) as [[j y]|] eqn:E; [done|].
  apply list_find_None in E. intros Hin. apply list_elem_of_fmap in Hin as (e & -> & He).
  by apply (proj1 (Forall_forall _ _) E e He).
Qed.

Lemma take_lookup_eq {A} (buf l : list A) i e : take (length l) buf = l -> l !! i = Some e -> buf !! i = Some e.
Proof.
  intros Hb Hl. rewrite <- Hb in Hl. apply lookup_take_Some in Hl. tauto.
Qed.

Lemma find_msr_ok b m p x buf l k : m !! p = Some buf -> p <> 0 ->
  (forall i e, l !! i = Some e -> buf !! (k + i)%nat = Some e) ->
  find_msr (length l) b m p (Z.of_nat k) x = Ok ((fun i => Z.of_nat (k + i)) <$> position x l).
Proof.
  intros Hm Hp. revert k. induction l as [|e l IH]; intros k Hl; [done|]. cbn [length find_msr].
  rewrite (proj2 (Z.eqb_neq p 0)) by done. rewrite andb_false_r. cbn [andb].
  unfold rd_msr. rewrite Hm. rewrite (rd_ok _ _ e) by (lia || rewrite Nat2Z.id; specialize (Hl 0%nat e eq_refl);
    by rewrite Nat.add_0_r in Hl).
  rewrite bind_Ok, position_cons.
  destruct (decide (MsrIndex e = x)) as [He|He].
  - rewrite He, Z.eqb_refl. cbn [fmap option_fmap option_map]. by rewrite Nat.add_0_r.
  - rewrite (proj2 (Z.eqb_neq _ _)) by done. replace (Z.of_nat k + 1) with (Z.of_nat (S k)) by lia.
    rewrite IH by (intros i e' Hi; rewrite Nat.add_succ_comm; by apply (Hl (S i) e')).
    destruct (position x l) as [i|]; [|done]. cbn [fmap option_fmap option_map]. do 2 f_equal. lia.
Qed.

(** Copying between two buffers, and moving the end of a list one place down. *)
Lemma copy_msrs n m to from ti fi dst src : to <> from -> m !! to = Some dst -> m !! from = Some src ->
  (ti + n <= length dst)%nat -> (fi + n <= length src)%nat ->
  vmcs_copy_msr_list n m to (Z.of_nat ti) from (Z.of_nat fi)
    = Ok (<[to := take ti dst ++ take n (drop fi src) ++ drop (ti + n) dst]> m).
Proof.
  intros Hne. revert m dst ti fi. induction n as [|n IH]; intros m dst ti fi Hto Hfrom Hd Hs; cbn [vmcs_copy_msr_list].
  - rewrite Nat.add_0_r, take_0, app_nil_l, take_drop. by rewrite insert_id.
  - destruct (lookup_lt_is_Some_2 src fi) as [e He]; [lia|].
    unfold rd_msr, wr_msr. rewrite Hfrom. rewrite (rd_ok _ _ e) by (lia || by rewrite Nat2Z.id). rewrite bind_Ok, Hto.
    rewrite wr_ok by lia. rewrite !bind_Ok, Nat2Z.id.
    replace (Z.of_nat ti + 1) with (Z.of_nat (S ti)) by lia. replace (Z.of_nat fi + 1) with (Z.of_nat (S fi)) by lia.
    rewrite (IH _ (<[ti:=e]> dst)); [|by rewrite lookup_insert_eq|by rewrite lookup_insert_ne|rewrite length_insert; lia|lia].
    rewrite insert_insert_eq. do 2 f_equal. rewrite (drop_S src e fi) by done. rewrite firstn_cons.
    rewrite drop_insert_lt by lia. rewrite (take_S_r (<[ti:=e]> dst) ti e) by (rewrite list_lookup_insert_eq; (done || lia)).
    rewrite take_insert_ge by lia. rewrite <- app_assoc. cbn [app].
    by replace (S ti + n)%nat with (ti + S n)%nat by lia.
Qed.

Lemma shift_msrs n m p i buf : m !! p = Some buf -> (i + 1 + n <= length buf)%nat ->
  vmcs_copy_msr_list n m p (Z.of_nat i) p (Z.of_nat i + 1)
    = Ok (<[p := take i buf ++ take n (drop (i + 1) buf) ++ drop (i + n) buf]> m).
Proof.
  revert m buf i. induction n as [|n IH]; intros m buf i Hp Hl; cbn [vmcs_copy_msr_list].
  - rewrite Nat.add_0_r, take_0, app_nil_l, take_drop. by rewrite insert_id.
  - destruct (lookup_lt_is_Some_2 buf (S i)) as [e He]; [lia|].
    unfold rd_msr, wr_msr. rewrite Hp.
    rewrite (rd_ok _ _ e) by (lia || by replace (Z.to_nat (Z.of_nat i + 1)) with (S i) by lia). rewrite bind_Ok.
    rewrite wr_ok by lia. rewrite !bind_Ok, Nat2Z.id.
    replace (Z.of_nat i + 1) with (Z.of_nat (S i)) by lia.
    rewrite (IH _ (<[i:=e]> buf)); [|by rewrite lookup_insert_eq|rewrite length_insert; lia].
    rewrite insert_insert_eq. do 2 f_equal. replace (i + 1)%nat with (S i) by lia.
    rewrite (drop_S buf e (S i)) by done. rewrite firstn_cons. rewrite !drop_insert_lt by lia.
    rewrite (take_S_r (<[i:=e]> buf) i e) by (rewrite list_lookup_insert_eq; (done || lia)).
    rewrite take_insert_ge by lia. rewrite <- app_assoc. cbn [app].
    replace (S i + 1)%nat with (S (S i)) by lia. by replace (S i + n)%nat with (i + S n)%nat by lia.
Qed.

(** * The lists as ordered maps *)

Definition msr_set (msr_index value : Z) (l : list IA32_VMX_MSR_ENTRY) : list IA32_VMX_MSR_ENTRY :=
  match position msr_index l with
  | Some i => <[i := msr msr_index 0 value]> l
  | None => l ++ [msr msr_index 0 value]
  end.
Definition msr_remove (msr_index : Z) (l : list IA32_VMX_MSR_ENTRY) : list IA32_VMX_MSR_ENTRY :=
  filter (fun e => MsrIndex e <> msr_index) l.

Lemma msr_set_NoDup x v l : NoDup (MsrIndex <$> l) -> NoDup (MsrIndex <$> msr_set x v l).
Proof.
  intros Hl. unfold msr_set. destruct (position x l) as [i|] eqn:E.
  - apply position_Some in E as (e & He & Hx). rewrite list_fmap_insert. cbn [MsrIndex].
    rewrite list_insert_id; [done|]. by rewrite list_lookup_fmap, He, <- Hx.
  - apply position_None in E. rewrite fmap_app. apply NoDup_app. split; [done|]. split; [|apply NoDup_singleton].
    intros y Hy Hy'. apply list_elem_of_singleton in Hy'. cbn [MsrIndex] in Hy'. by subst.
Qed.

Lemma msr_filter_NoDup x l : NoDup (MsrIndex <$> l) -> NoDup (MsrIndex <$> filter (fun e => MsrIndex e <> x) l).
Proof.
  induction l as [|e l IH]; [done|]. rewrite fmap_cons, NoDup_cons. intros [Hn Hl].
  rewrite filter_cons. destruct (decide (MsrIndex e <> x)); [|by apply IH]. rewrite fmap_cons, NoDup_cons.
  split; [|by apply IH]. intros Hin. apply Hn. apply list_elem_of_fmap in Hin as (y & -> & Hy).
  apply list_elem_of_filter in Hy as [_ Hy]. apply list_elem_of_fmap. eauto.
Qed.

Lemma msr_remove_absent x l : position x l = None -> msr_remove x l = l.
Proof.
  intros H. apply position_None in H. unfold msr_remove. induction l as [|e l IH]; [done|].
  rewrite fmap_cons, not_elem_of_cons in H. destruct H as [H1 H2]. rewrite filter_cons_True by congruence. f_equal. by apply IH.
Qed.

Lemma msr_remove_at x l i : NoDup (MsrIndex <$> l) -> position x l = Some i -> msr_remove x l = take i l ++ drop (S i) l.
Proof.
  revert i. induction l as [|e l IH]; intros i Hl Hi; [done|]. rewrite position_cons in Hi.
  rewrite fmap_cons, NoDup_cons in Hl. destruct Hl as [Hn Hl]. unfold msr_remove.
  destruct (decide (MsrIndex e = x)) as [He|He].
  - injection Hi as <-. rewrite filter_cons_False by tauto. rewrite take_0, app_nil_l. rewrite skipn_cons, drop_0.
    apply (msr_remove_absent x l). destruct (position x l) as [j|] eqn:E; [|done]. exfalso. apply Hn.
    apply position_Some in E as (y & Hy & Hyx). apply list_elem_of_fmap. exists y. split; [congruence|].
    by eapply list_elem_of_lookup_2.
  - destruct (position x l) as [j|] eqn:E; [|done]. injection Hi as <-. rewrite filter_cons_True by done.
    rewrite firstn_cons, skipn_cons. cbn [app]. f_equal. by apply IH.
Qed.

Section Spec.
Context {O : Type} `{VmcsLaws O} (t : list VMCS_ENCODING).
Context (hmm_hpa_to_hva hmm_hva_to_hpa : Z -> option Z) (malloc : msr_mem -> Z -> Z).
Context (list_address list_count : Z).
Context (address_field : 0 <= list_address < VMCS_FIELD_COUNT) (count_field : 0 <= list_count < VMCS_FIELD_COUNT).
Context (fields_differ : list_address <> list_count).
Context (address_rights : usable O t list_address) (count_rights : usable O t list_count).

(** The pointer the address field stands for. *)
Definition pointer (o : O) (is_hpa : bool) : Z :=
  if view o list_address =? VMCS_INVALID_ADDRESS then 0 else list_ptr hmm_hpa_to_hva is_hpa (view o list_address).

(** The fields of the object and the memory hold the list [l] in an array of [max] entries (none when
    [max] is 0). *)
Record list_at (o : O) (m : msr_mem) (max : Z) (is_hpa : bool) (l : list IA32_VMX_MSR_ENTRY) : Prop := {
  at_count : view o list_count = Z.of_nat (length l);
  at_small : Z.of_nat (length l) < 2 ^ 27;
  at_nodup : NoDup (MsrIndex <$> l);
  at_buffer : l = [] /\ max = 0 \/
    exists buf, m !! pointer o is_hpa = Some buf /\ pointer o is_hpa <> 0 /\
      Z.of_nat (length buf) = max /\ take (length l) buf = l
}.

Lemma at_find o m max is_hpa l x b : list_at o m max is_hpa l ->
  find_msr (length l) b m (pointer o is_hpa) 0 x = Ok (Z.of_nat <$> position x l).
Proof.
  intros [_ _ _ [[-> _]|(buf & Hm & Hp & _ & Hb)]]; [done|].
  apply (find_msr_ok b m _ x buf l 0); [done|done|]. intros i e. by apply take_lookup_eq.
Qed.

Lemma at_room o m max is_hpa l : list_at o m max is_hpa l -> Z.of_nat (length l) <= max.
Proof.
  intros [_ _ _ [[-> ->]|(buf & _ & _ & <- & Hb)]]; [done|]. rewrite <- Hb, length_take. lia.
Qed.

(** An entry is changed in place. *)
Lemma wr_msr_at o m max is_hpa l i x v : list_at o m max is_hpa l -> position x l = Some i ->
  exists m', wr_msr m (pointer o is_hpa) (Z.of_nat i) (msr x 0 v) = Ok m' /\
    list_at o m' max is_hpa (msr_set x v l) /\ forall q, q <> pointer o is_hpa -> m' !! q = m !! q.
Proof.
  intros L Hi. pose proof L as [Hc Hs Hn Hb]. destruct (position_Some _ _ _ Hi) as (e & He & Hx).
  destruct Hb as [[-> _]|(buf & Hm & Hp & Hl & Hb)]; [done|].
  assert (i < length buf)%nat. { eapply lookup_lt_Some. by apply (take_lookup_eq buf l i e). }
  unfold wr_msr. rewrite Hm, wr_ok by lia. rewrite bind_Ok, Nat2Z.id. eexists. split; [done|].
  split; [|intros q Hq; by rewrite lookup_insert_ne].
  assert (length (msr_set x v l) = length l) as Hlen by (unfold msr_set; rewrite Hi; apply length_insert).
  split; [by rewrite Hlen|by rewrite Hlen|by apply msr_set_NoDup|]. right. eexists. rewrite lookup_insert_eq.
  split; [done|]. split; [done|]. split; [by rewrite length_insert|]. rewrite Hlen.
  rewrite take_insert_lt by (by eapply lookup_lt_Some). rewrite Hb. unfold msr_set. by rewrite Hi.
Qed.

(** A new entry is stored behind the list. *)
Lemma append_msr_at o m max is_hpa l buf x v : good o ->
  view o list_count = Z.of_nat (length l) -> Z.of_nat (length l) + 1 < 2 ^ 27 -> NoDup (MsrIndex <$> l) ->
  m !! pointer o is_hpa = Some buf -> pointer o is_hpa <> 0 -> Z.of_nat (length buf) = max ->
  take (length l) buf = l -> Z.of_nat (length l) < max -> position x l = None ->
  exists o' m', append_msr t o m (pointer o is_hpa) (Z.of_nat (length l)) x v list_count max = Ok (o', m', max) /\
    good o' /\ base o' = base o /\ list_at o' m' max is_hpa (msr_set x v l) /\
    pointer o' is_hpa = pointer o is_hpa /\
    (forall g, 0 <= g < VMCS_FIELD_COUNT -> g <> list_count -> view o' g = view o g) /\
    forall q, q <> pointer o is_hpa -> m' !! q = m !! q.
Proof.
  intros Hg Hc Hs Hn Hm Hp Hl Hb Hr Hx. unfold append_msr. rewrite u32_small by lia.
  destruct (vmcs_write_ok t o list_count (Z.of_nat (length l) + 1) Hg count_field count_rights) as (o' & -> & Hg' & Hb' & Hv').
  { split; [lia|]. lia. }
  rewrite bind_Ok. rewrite (proj2 (Z.eqb_neq _ 0) Hp). cbn [andb]. unfold wr_msr. rewrite Hm, wr_ok by lia.
  rewrite !bind_Ok, Nat2Z.id. eexists _, _. split; [done|]. split; [done|]. split; [done|].
  assert (pointer o' is_hpa = pointer o is_hpa) as Hpp.
  { unfold pointer. rewrite Hv' by done. by rewrite (proj2 (Z.eqb_neq _ _) fields_differ). }
  split; [|split; [done|split; [intros g Hgr Hne; rewrite Hv' by done; by rewrite (proj2 (Z.eqb_neq _ _) Hne)|intros q Hq; by rewrite lookup_insert_ne]]].
  assert (msr_set x v l = l ++ [msr x 0 v]) as Hset by (unfold msr_set; by rewrite Hx).
  split.
  - rewrite Hv', Z.eqb_refl, Hset, length_app by done. cbn [length]. lia.
  - rewrite Hset, length_app. cbn [length]. lia.
  - by apply msr_set_NoDup.
  - right. rewrite Hpp. eexists. rewrite lookup_insert_eq. split; [done|]. split; [done|].
    split; [by rewrite length_insert|]. rewrite Hset, length_app. cbn [length].
    replace (length l + 1)%nat with (S (length l)) by lia.
    rewrite (take_S_r _ _ (msr x 0 v)) by (rewrite list_lookup_insert_eq; (done || lia)).
    rewrite take_insert_ge by lia. by rewrite Hb.
Qed.

(** ** What the allocator and the address translations do *)

Context (malloc_fresh : forall m sz, malloc m sz <> 0 ->
  m !! malloc m sz = None /\ fits 64 (malloc m sz) /\ malloc m sz <> VMCS_INVALID_ADDRESS).
Context (translations_agree : forall p h, hmm_hva_to_hpa p = Some h ->
  hmm_hpa_to_hva h = Some p /\ fits 64 h /\ h <> VMCS_INVALID_ADDRESS).

(** The array that is allocated for [count] entries and one more, and the list in it. *)
Lemma alloc_msr_ok m n : 0 < n < 2 ^ 27 -> (forall sz, malloc m sz <> 0) ->
  let cap := if 8 <? n then 2 ^ Z.log2_up n else 4 in
  vmcs_alloc_msr_list malloc m n
    = Ok (malloc m (cap * 16), cap, <[malloc m (cap * 16) := replicate (Z.to_nat cap) (msr 0 0 0)]> m).
Proof.
  intros Hn Hok cap. unfold vmcs_alloc_msr_list.
  set (n0 := if 8 <? n then n else MIN_SIZE_OF_MSR_LIST).
  assert (0 < n0 < 2 ^ 27) by (unfold n0, MIN_SIZE_OF_MSR_LIST; zcases).
  assert (2 ^ Z.log2_up n0 = cap) as Hcap by (unfold n0, cap; zcases; done).
  assert (2 ^ Z.log2_up n0 < 2 * n0) as Hlt.
  { destruct (decide (n0 = 1)) as [->|]; [done|]. destruct (Z.log2_up_spec n0) as [Hlt _]; [lia|].
    pose proof (Z.log2_up_pos n0 ltac:(lia)).
    replace (Z.log2_up n0) with (Z.succ (Z.pred (Z.log2_up n0))) by lia. rewrite Z.pow_succ_r by lia. lia. }
  rewrite next_pow2_ok by lia. rewrite bind_Ok, Hcap. rewrite u32_small by lia.
  rewrite (proj2 (Z.eqb_neq _ 0)) by done. by rewrite Z.div_mul by lia.
Qed.

Lemma capacity_enough n : 0 < n -> ~ 4 < n <= 8 -> n <= (if 8 <? n then 2 ^ Z.log2_up n else 4).
Proof.
  intros Hn Hr. destruct (Z.ltb_spec 8 n); [|lia]. apply Z.log2_log2_up_spec. lia.
Qed.

(** The address field is made to point to [np]. *)
Lemma write_address_ok o np is_hpa : good o -> fits 64 np -> np <> VMCS_INVALID_ADDRESS ->
  (is_hpa = true -> is_Some (hmm_hva_to_hpa np)) ->
  exists o', (if is_hpa then match hmm_hva_to_hpa np with Some hpa => vmcs_write t o list_address hpa | None => Fault end
              else vmcs_write t o list_address np) = Ok o' /\ good o' /\ base o' = base o /\
    pointer o' is_hpa = np /\
    forall g, 0 <= g < VMCS_FIELD_COUNT -> g <> list_address -> view o' g = view o g.
Proof.
  intros Hg Hf Hi Ht.
  assert (exists a, (if is_hpa then hmm_hva_to_hpa np = Some a else a = np) /\ fits 64 a /\ a <> VMCS_INVALID_ADDRESS /\
    list_ptr hmm_hpa_to_hva is_hpa a = np) as (a & Ha & Hfa & Hia & Hp).
  { destruct is_hpa; [|by exists np]. destruct (Ht eq_refl) as [h Hh].
    destruct (translations_agree np h Hh) as (E & ? & ?). exists h. split_and!; try done. unfold list_ptr. by rewrite E. }
  destruct (vmcs_write_ok t o list_address a Hg address_field address_rights Hfa) as (o' & E & Hg' & Hb' & Hv').
  exists o'. split; [destruct is_hpa; [by rewrite Ha|by subst a]|]. split; [done|]. split; [done|].
  split; [|intros g Hgr Hne; rewrite Hv' by done; by rewrite (proj2 (Z.eqb_neq _ _) Hne)].
  unfold pointer. rewrite Hv', Z.eqb_refl by done. by rewrite (proj2 (Z.eqb_neq a _) Hia).
Qed.

(** Copying the old list to the new array, and giving the old array back. *)
Lemma move_list o m max is_hpa l np cap : list_at o m max is_hpa l -> m !! np = None ->
  Z.of_nat (length l) <= cap ->
  exists m', (if negb (Z.of_nat (length l) =? 0) then
      m ← vmcs_copy_msr_list (length l) (<[np := replicate (Z.to_nat cap) (msr 0 0 0)]> m) np 0 (pointer o is_hpa) 0;
      free_msr m (pointer o is_hpa)
    else Ok (<[np := replicate (Z.to_nat cap) (msr 0 0 0)]> m)) = Ok m' /\
    (exists buf, m' !! np = Some buf /\ length buf = Z.to_nat cap /\ take (length l) buf = l) /\
    forall q, q <> np -> q <> pointer o is_hpa -> m' !! q = m !! q.
Proof.
  intros [_ _ _ Hb] Hnp Hcap. destruct (Z.eqb_spec (Z.of_nat (length l)) 0) as [Hz|Hnz]; cbn [negb].
  { destruct l; [|done]. eexists. split; [done|]. split.
    - eexists. rewrite lookup_insert_eq. split; [done|]. split; [apply length_replicate|by rewrite take_0].
    - intros q Hq _. by rewrite lookup_insert_ne. }
  destruct Hb as [[-> _]|(buf & Hm & Hp & Hl & Hb)]; [done|].
  assert (np <> pointer o is_hpa) as Hne by congruence.
  assert (length l <= length buf)%nat by (rewrite <- Hb, length_take; lia).
  rewrite (copy_msrs _ _ np (pointer o is_hpa) 0 0 (replicate (Z.to_nat cap) (msr 0 0 0)) buf); try done.
  2:{ by rewrite lookup_insert_eq. } 2:{ by rewrite lookup_insert_ne. } 2:{ rewrite length_replicate. lia. }
  rewrite bind_Ok, take_0, drop_0, Hb, insert_insert_eq. unfold free_msr. rewrite lookup_insert_ne, Hm by done.
  eexists. split; [done|]. split.
  - eexists. rewrite lookup_delete_ne, lookup_insert_eq by done. split; [done|]. split.
    + rewrite app_nil_l, length_app, length_drop, length_replicate. lia.
    + rewrite app_nil_l. by rewrite take_app_length.
  - intros q Hq1 Hq2. by rewrite lookup_delete_ne, lookup_insert_ne by done.
Qed.

(** ** Adding an entry *)

(** What an operation that may replace the array leaves: the new list, every other field and every
    other buffer. *)
Definition list_result (o : O) (m : msr_mem) (is_hpa : bool) (o' : O) (m' : msr_mem) (max' : Z)
  (l' : list IA32_VMX_MSR_ENTRY) : Prop :=
  good o' /\ base o' = base o /\ list_at o' m' max' is_hpa l' /\
  (forall g, 0 <= g < VMCS_FIELD_COUNT -> g <> list_address -> g <> list_count -> view o' g = view o g) /\
  (forall q b, m !! q = Some b -> q <> pointer o is_hpa -> m' !! q = Some b) /\
  (pointer o' is_hpa = pointer o is_hpa \/ m !! pointer o' is_hpa = None).

Lemma same_view_at o o' m max is_hpa l : (forall g, 0 <= g < VMCS_FIELD_COUNT -> view o' g = view o g) ->
  pointer o' is_hpa = pointer o is_hpa /\ (list_at o m max is_hpa l -> list_at o' m max is_hpa l).
Proof.
  intros Hv. assert (pointer o' is_hpa = pointer o is_hpa) as Hp by (unfold pointer; by rewrite Hv).
  split; [done|]. intros [Hc Hs Hn Hb]. split; [by rewrite Hv|done|done|]. by rewrite Hp.
Qed.

Lemma list_result_view o o1 m is_hpa o' m' max' l' : base o1 = base o ->
  (forall g, 0 <= g < VMCS_FIELD_COUNT -> view o1 g = view o g) ->
  list_result o1 m is_hpa o' m' max' l' -> list_result o m is_hpa o' m' max' l'.
Proof.
  intros Hb Hv (H1 & H2 & H3 & H4 & H5). destruct (same_view_at o o1 m max' is_hpa l' Hv) as [Hp _].
  split; [done|]. split; [congruence|]. split; [done|]. split; [|by rewrite <- Hp].
  intros g Hg Ha Hc. rewrite H4 by done. by apply Hv.
Qed.

(** The case of a full array. *)
Lemma grow_list o m max is_hpa l x v : good o -> list_at o m max is_hpa l -> Z.of_nat (length l) + 1 < 2 ^ 27 ->
  position x l = None -> ~ 4 <= Z.of_nat (length l) < 8 ->
  (forall sz, malloc m sz <> 0 /\ (is_hpa = true -> is_Some (hmm_hva_to_hpa (malloc m sz)))) ->
  exists o' m' max',
    (r ← vmcs_alloc_msr_list malloc m (Z.of_nat (length l) ⊕₃₂ 1);
     let '(np, nmax, m) := r in
     m ← (if negb (Z.of_nat (length l) =? 0)
          then m ← vmcs_copy_msr_list (length l) m np 0 (pointer o is_hpa) 0; free_msr m (pointer o is_hpa) else Ok m);
     o ← (if is_hpa then match hmm_hva_to_hpa np with Some hpa => vmcs_write t o list_address hpa | None => Fault end
          else vmcs_write t o list_address np);
     append_msr t o m np (Z.of_nat (length l)) x v list_count nmax) = Ok (o', m', max') /\
    list_result o m is_hpa o' m' max' (msr_set x v l) /\ (Z.of_nat (length l) < 8 -> max' = 4).
Proof.
  intros Hg L Hs Hx Hr Hok. rewrite u32_small by lia.
  rewrite alloc_msr_ok by (lia || intros; apply Hok). rewrite bind_Ok. cbv beta iota zeta.
  set (cap := if 8 <? Z.of_nat (length l) + 1 then _ else 4). set (np := malloc m (cap * 16)).
  assert (Z.of_nat (length l) + 1 <= cap) as Hcap by (apply capacity_enough; lia).
  destruct (Hok (cap * 16)) as [Hnz Htr]. fold np in Hnz, Htr.
  destruct (malloc_fresh m (cap * 16) Hnz) as (Hnone & Hfit & Hinv). fold np in Hnone, Hfit, Hinv.
  destruct (move_list o m max is_hpa l np cap L Hnone) as (m1 & -> & (buf & Hbuf & Hbl & Hbt) & Hm1); [lia|].
  rewrite bind_Ok.
  destruct (write_address_ok o np is_hpa Hg Hfit Hinv Htr) as (o1 & -> & Hg1 & Hb1 & Hp1 & Hv1). rewrite bind_Ok.
  destruct (append_msr_at o1 m1 cap is_hpa l buf x v) as (o2 & m2 & E & Hg2 & Hb2 & L2 & Hp2 & Hv2 & Hm2); rewrite ?Hp1; try (done || lia).
  { rewrite Hv1 by (done || lia). apply L. } { apply L. }
  rewrite Hp1 in E. rewrite E. exists o2, m2, cap. split; [done|]. split; [|unfold cap; zcases; done].
  split; [done|]. split; [congruence|]. split; [done|].
  split; [intros g Hgr Ha Hc; rewrite Hv2, Hv1; done|]. split; [|right; by rewrite Hp2, Hp1].
  intros q b Hq Hqp. assert (q <> np) by congruence. rewrite Hm2 by (by rewrite Hp1). by rewrite Hm1.
Qed.

(** The start of the operation: the two fields are read and the list is searched. *)
Lemma add_prologue o m max is_hpa l x v : good o -> list_at o m max is_hpa l ->
  exists o2, good o2 /\ base o2 = base o /\ (forall g, 0 <= g < VMCS_FIELD_COUNT -> view o2 g = view o g) /\
    list_at o2 m max is_hpa l /\ pointer o2 is_hpa = pointer o is_hpa /\
    vmcs_add_msr_to_list t hmm_hpa_to_hva hmm_hva_to_hpa malloc o m x v list_address list_count max is_hpa =
    match position x l with
    | Some i => m ← wr_msr m (pointer o2 is_hpa) (Z.of_nat i) (msr x 0 v); Ok (o2, m, max)
    | None =>
        if max <=? Z.of_nat (length l) then
          r ← vmcs_alloc_msr_list malloc m (Z.of_nat (length l) ⊕₃₂ 1);
          let '(np, nmax, m) := r in
          m ← (if negb (Z.of_nat (length l) =? 0)
               then m ← vmcs_copy_msr_list (length l) m np 0 (pointer o2 is_hpa) 0; free_msr m (pointer o2 is_hpa) else Ok m);
          o ← (if is_hpa then match hmm_hva_to_hpa np with Some hpa => vmcs_write t o2 list_address hpa | None => Fault end
               else vmcs_write t o2 list_address np);
          append_msr t o m np (Z.of_nat (length l)) x v list_count nmax
        else append_msr t o2 m (pointer o2 is_hpa) (Z.of_nat (length l)) x v list_count max
    end.
Proof.
  intros Hg L. unfold vmcs_add_msr_to_list.
  destruct (vmcs_read_ok t o list_address Hg address_field address_rights) as (o1 & -> & Hg1 & Hb1 & Hv1). rewrite bind_Ok.
  destruct (vmcs_read_ok t o1 list_count Hg1 count_field count_rights) as (o2 & -> & Hg2 & Hb2 & Hv2). rewrite bind_Ok.
  assert (forall g, 0 <= g < VMCS_FIELD_COUNT -> view o2 g = view o g) as Hv by (intros; rewrite Hv2, Hv1; done).
  destruct (same_view_at o o2 m max is_hpa l Hv) as [Hp L2]. specialize (L2 L). cbv zeta. fold (pointer o is_hpa).
  assert (u32 (view o1 list_count) = Z.of_nat (length l)) as Hcount.
  { rewrite Hv1, (at_count _ _ _ _ _ L) by done. rewrite u32_small; [done|]. pose proof (at_small _ _ _ _ _ L). lia. }
  exists o2. split; [done|]. split; [congruence|]. split; [done|]. split; [done|]. split; [done|].
  rewrite Hcount, Nat2Z.id, <- Hp, (at_find o2 m max is_hpa l x true L2), bind_Ok.
  by destruct (position x l) as [i|].
Qed.

(** No allocation: the MSR is in the list, or the array has room. *)
Lemma vmcs_add_msr_to_list_keep o m max is_hpa l x v :
  good o -> list_at o m max is_hpa l -> Z.of_nat (length l) + 1 < 2 ^ 27 ->
  is_Some (position x l) \/ Z.of_nat (length l) < max ->
  exists o' m', vmcs_add_msr_to_list t hmm_hpa_to_hva hmm_hva_to_hpa malloc o m x v list_address list_count max is_hpa
      = Ok (o', m', max) /\ list_result o m is_hpa o' m' max (msr_set x v l).
Proof.
  intros Hg L Hs Hroom. destruct (add_prologue o m max is_hpa l x v Hg L) as (o2 & Hg2 & Hb2 & Hv & L2 & Hp & ->).
  assert (forall o' m', list_result o2 m is_hpa o' m' max (msr_set x v l) ->
    list_result o m is_hpa o' m' max (msr_set x v l)) as Hres.
  { intros o' m'. apply list_result_view; [congruence|done]. }
  destruct (position x l) as [i|] eqn:Ex.
  { destruct (wr_msr_at o2 m max is_hpa l i x v L2 Ex) as (m' & -> & L' & Hm'). rewrite bind_Ok.
    exists o2, m'. split; [done|]. apply Hres. do 3 (split; [done|]). split; [done|]. split; [|by left].
    intros q b Hq Hqp. by rewrite Hm'. }
  destruct Hroom as [[? ?]|Hlt]; [done|]. destruct (Z.leb_spec max (Z.of_nat (length l))) as [|_]; [lia|].
  pose proof L2 as [Hc2 _ Hn2 Hb]. destruct Hb as [[-> ->]|(buf & Hbm & Hbp & Hbl & Hbt)]; [cbn in Hlt; lia|].
  destruct (append_msr_at o2 m max is_hpa l buf x v) as (o' & m' & E & H1 & H2 & H3 & H4 & H5 & H6); try done.
  exists o', m'. split; [exact E|]. apply Hres. do 3 (split; [done|]).
  split; [intros; by apply H5|]. split; [|by left]. intros q b Hq Hqp. by rewrite H6.
Qed.

Lemma vmcs_add_msr_to_list_ok o m max is_hpa l x v :
  good o -> list_at o m max is_hpa l -> Z.of_nat (length l) + 1 < 2 ^ 27 ->
  (max <= Z.of_nat (length l) -> position x l = None -> ~ 4 <= Z.of_nat (length l) < 8) ->
  (forall sz, malloc m sz <> 0 /\ (is_hpa = true -> is_Some (hmm_hva_to_hpa (malloc m sz)))) ->
  exists o' m' max', vmcs_add_msr_to_list t hmm_hpa_to_hva hmm_hva_to_hpa malloc o m x v list_address list_count max is_hpa
      = Ok (o', m', max') /\ list_result o m is_hpa o' m' max' (msr_set x v l) /\
    (max' = max \/ (Z.of_nat (length l) < 8 -> max' = 4)).
Proof.
  intros Hg L Hs Hr Hok. destruct (decide (max <= Z.of_nat (length l) /\ position x l = None)) as [[Hle Ex]|Hno].
  2:{ destruct (vmcs_add_msr_to_list_keep o m max is_hpa l x v Hg L Hs) as (o' & m' & E & R).
      { destruct (position x l); [by left|]. right. apply Znot_ge_lt. intros C. apply Hno. split; [lia|done]. }
      exists o', m', max. split; [done|]. split; [done|by left]. }
  destruct (add_prologue o m max is_hpa l x v Hg L) as (o2 & Hg2 & Hb2 & Hv & L2 & Hp & ->). rewrite Ex.
  rewrite (proj2 (Z.leb_le _ _) Hle).
  destruct (grow_list o2 m max is_hpa l x v Hg2 L2 Hs Ex (Hr Hle Ex) Hok) as (o' & m' & max' & E & R & Hm).
  exists o', m', max'. split; [exact E|]. split; [|by right]. revert R. apply list_result_view; [congruence|done].
Qed.

(** ** Deleting and looking up *)

Lemma vmcs_delete_msr_from_list_ok o m max is_hpa l x : good o -> list_at o m max is_hpa l ->
  exists o' m', vmcs_delete_msr_from_list t hmm_hpa_to_hva o m x list_address list_count is_hpa = Ok (o', m') /\
    list_result o m is_hpa o' m' max (msr_remove x l) /\ (l = [] -> m' = m).
Proof.
  intros Hg L. unfold vmcs_delete_msr_from_list.
  destruct (vmcs_read_ok t o list_address Hg address_field address_rights) as (o1 & -> & Hg1 & Hb1 & Hv1). rewrite bind_Ok.
  destruct (vmcs_read_ok t o1 list_count Hg1 count_field count_rights) as (o2 & -> & Hg2 & Hb2 & Hv2). rewrite bind_Ok.
  assert (forall g, 0 <= g < VMCS_FIELD_COUNT -> view o2 g = view o g) as Hv by (intros; rewrite Hv2, Hv1; done).
  destruct (same_view_at o o2 m max is_hpa l Hv) as [Hp L2]. specialize (L2 L). cbv zeta.
  assert (forall o' m' l', list_result o2 m is_hpa o' m' max l' -> list_result o m is_hpa o' m' max l') as Hres.
  { intros o' m' l'. apply list_result_view; [congruence|done]. }
  assert (list_result o2 m is_hpa o2 m max l) as Hsame by (split_and!; [done|done|done|done|done|by left]).
  assert (u32 (view o1 list_count) = Z.of_nat (length l)) as Hcount.
  { rewrite Hv1, (at_count _ _ _ _ _ L) by done. rewrite u32_small; [done|]. pose proof (at_small _ _ _ _ _ L). lia. }
  rewrite Hcount. pose proof L2 as [Hc2 Hs2 Hn2 Hb].
  destruct Hb as [[-> ->]|(buf & Hbm & Hbp & Hbl & Hbt)].
  { cbn [length Z.of_nat Z.eqb negb andb]. exists o2, m. split; [done|]. split; [by apply Hres|done]. }
  assert (view o list_address <> VMCS_INVALID_ADDRESS) as Hinv.
  { intros Hi. apply Hbp. rewrite Hp. unfold pointer. by rewrite Hi, Z.eqb_refl. }
  rewrite (proj2 (Z.eqb_neq _ _) Hinv), andb_true_r. destruct (Z.eqb_spec (Z.of_nat (length l)) 0) as [Hz|Hnz]; cbn [negb].
  { destruct l; [|done]. exists o2, m. split; [done|]. split; [by apply Hres|done]. }
  assert (list_ptr hmm_hpa_to_hva is_hpa (view o list_address) = pointer o2 is_hpa) as ->.
  { rewrite Hp. unfold pointer. by rewrite (proj2 (Z.eqb_neq _ _) Hinv). }
  rewrite Nat2Z.id, (at_find o2 m max is_hpa l x false L2), bind_Ok.
  destruct (position x l) as [i|] eqn:Ex; cbn [fmap option_fmap option_map].
  2:{ exists o2, m. split; [done|]. split; [|done]. apply Hres. by rewrite msr_remove_absent. }
  destruct (position_Some _ _ _ Ex) as (e & He & Hxe). pose proof (lookup_lt_Some _ _ _ He) as Hi.
  assert (length l <= length buf)%nat by (rewrite <- Hbt, length_take; lia).
  rewrite (shift_msrs _ m _ i buf) by (done || lia). rewrite bind_Ok.
  replace (Z.of_nat (length l) - 1) with (Z.of_nat (length l - 1)) by lia.
  destruct (vmcs_write_ok t o2 list_count (Z.of_nat (length l - 1)) Hg2 count_field count_rights) as (o3 & -> & Hg3 & Hb3 & Hv3).
  { split; lia. }
  rewrite bind_Ok. eexists _, _. split; [done|]. split; [apply Hres|by intros ->].
  assert (pointer o3 is_hpa = pointer o2 is_hpa) as Hp3.
  { unfold pointer. rewrite Hv3 by done. by rewrite (proj2 (Z.eqb_neq _ _) fields_differ). }
  rewrite (msr_remove_at x l i) by done.
  assert (length (take i l ++ drop (S i) l) = (length l - 1)%nat) as Hlen by (rewrite length_app, length_take, length_drop; lia).
  split; [done|]. split; [done|]. split; [|split; [intros g Hgr _ Hne; rewrite Hv3 by done; by rewrite (proj2 (Z.eqb_neq _ _) Hne)
    |split; [intros q b Hq Hqp; by rewrite lookup_insert_ne|by left]]].
  split; [by rewrite Hv3, Z.eqb_refl, Hlen|rewrite Hlen; lia| |].
  - rewrite <- (msr_remove_at x l i) by done. unfold msr_remove. by apply msr_filter_NoDup.
  - right. eexists. rewrite Hp3, lookup_insert_eq. split; [done|]. split; [done|]. split.
    + rewrite !length_app, !length_take, !length_drop. lia.
    + rewrite Hlen. rewrite app_assoc, take_app_le by (rewrite length_app, !length_take, length_drop; lia).
      rewrite take_ge by (rewrite length_app, !length_take, length_drop; lia).
      transitivity (take i (take (length l) buf) ++ drop (S i) (take (length l) buf)); [|by rewrite Hbt].
      rewrite take_take, Nat.min_l by lia. f_equal.
      rewrite skipn_firstn_comm. replace (i + 1)%nat with (S i) by lia. f_equal. lia.
Qed.

Lemma vmcs_is_msr_in_list_ok o m max l x : good o ->
  list_at o m max (match level (base o) with VMCS_MERGED => true | _ => false end) l -> view o list_address <> VMCS_INVALID_ADDRESS ->
  exists o', vmcs_is_msr_in_list t hmm_hpa_to_hva o m list_address list_count x = Ok (bool_decide (x ∈ MsrIndex <$> l), o').
Proof.
  intros Hg L Hinv. unfold vmcs_is_msr_in_list.
  destruct (vmcs_read_ok t o list_address Hg address_field address_rights) as (o1 & -> & Hg1 & Hb1 & Hv1). rewrite bind_Ok.
  destruct (vmcs_read_ok t o1 list_count Hg1 count_field count_rights) as (o2 & -> & Hg2 & Hb2 & Hv2). rewrite bind_Ok.
  rewrite Hv1, (at_count _ _ _ _ _ L), u32_small by (done || pose proof (at_small _ _ _ _ _ L); lia).
  destruct (Z.eqb_spec (Z.of_nat (length l)) 0) as [Hz|Hnz].
  { destruct l; [|done]. eexists. rewrite bool_decide_false; [done|]. apply not_elem_of_nil. }
  unfold vmcs_get_level. rewrite Hb2, Hb1. set (is_hpa := match level (base o) with VMCS_MERGED => true | _ => false end) in *.
  assert (list_ptr hmm_hpa_to_hva is_hpa (view o list_address) = pointer o is_hpa) as ->.
  { unfold pointer. by rewrite (proj2 (Z.eqb_neq _ _) Hinv). }
  rewrite Nat2Z.id, (at_find o m max is_hpa l x false L), bind_Ok. eexists. f_equal. f_equal.
  destruct (position x l) as [i|] eqn:E; cbn [fmap option_fmap option_map]; symmetry.
  - apply bool_decide_true. apply position_Some in E as (e & He & <-). apply list_elem_of_fmap. exists e. split; [done|].
    by eapply list_elem_of_lookup_2.
  - apply bool_decide_false. by apply position_None.
Qed.

(** ** The fifth entry *)

(** The array of a list never grows past four entries: for a fifth MSR the code allocates an array of
    four entries again (MIN_SIZE_OF_MSR_LIST for any request up to 8), copies the four entries and
    stores the new one behind the end of the array. *)
Theorem msr_list_fifth_entry_overflows o m is_hpa l x v : good o -> list_at o m 4 is_hpa l -> length l = 4%nat ->
  position x l = None ->
  (forall sz, malloc m sz <> 0 /\ (is_hpa = true -> is_Some (hmm_hva_to_hpa (malloc m sz)))) ->
  vmcs_add_msr_to_list t hmm_hpa_to_hva hmm_hva_to_hpa malloc o m x v list_address list_count 4 is_hpa = Fault.
Proof.
  intros Hg L Hl Ex Hok. destruct (add_prologue o m 4 is_hpa l x v Hg L) as (o2 & Hg2 & Hb2 & Hv & L2 & Hp & ->).
  rewrite Ex, (proj2 (Z.leb_le _ _)) by (rewrite Hl; done). rewrite u32_small by (rewrite Hl; done).
  rewrite alloc_msr_ok by (rewrite ?Hl; first [done|intros; apply Hok]). rewrite bind_Ok. cbv beta iota zeta.
  rewrite Hl. change (8 <? Z.of_nat 4 + 1) with false. cbv iota. set (np := malloc m (4 * 16)).
  destruct (Hok (4 * 16)) as [Hnz Htr]. fold np in Hnz, Htr.
  destruct (malloc_fresh m (4 * 16) Hnz) as (Hnone & Hfit & Hinv). fold np in Hnone, Hfit, Hinv.
  destruct (move_list o2 m 4 is_hpa l np 4 L2 Hnone) as (m1 & E & (buf & Hbuf & Hbl & _) & _); [rewrite Hl; done|].
  rewrite Hl in E. rewrite E, bind_Ok.
  destruct (write_address_ok o2 np is_hpa Hg2 Hfit Hinv Htr) as (o3 & -> & Hg3 & Hb3 & _). rewrite bind_Ok.
  unfold append_msr. destruct (vmcs_write_ok t o3 list_count (u32 (Z.of_nat 4 + 1)) Hg3 count_field count_rights) as (o4 & -> & _).
  { done. }
  rewrite bind_Ok. rewrite (proj2 (Z.eqb_neq _ 0) Hnz). cbn [andb]. unfold wr_msr. rewrite Hbuf.
  by rewrite wr_fault by (rewrite Hbl; done).
Qed.

(** ** Sequences of operations *)

Inductive list_op :=
| AddMsr (msr_index value : Z)
| DeleteMsr (msr_index : Z).

Definition list_step (is_hpa : bool) (op : list_op) (s : O * msr_mem * Z) : outcome (O * msr_mem * Z) :=
  let '(o, m, max) := s in
  match op with
  | AddMsr x v => vmcs_add_msr_to_list t hmm_hpa_to_hva hmm_hva_to_hpa malloc o m x v list_address list_count max is_hpa
  | DeleteMsr x =>
      r ← vmcs_delete_msr_from_list t hmm_hpa_to_hva o m x list_address list_count is_hpa; Ok (r.1, r.2, max)
  end.
Fixpoint list_run (is_hpa : bool) (ops : list list_op) (s : O * msr_mem * Z) : outcome (O * msr_mem * Z) :=
  match ops with
  | [] => Ok s
  | op :: ops => s ← list_step is_hpa op s; list_run is_hpa ops s
  end.

(** The same operations on an ordered map of at most four MSRs. *)
Definition map_step (op : list_op) (l : list IA32_VMX_MSR_ENTRY) : list IA32_VMX_MSR_ENTRY :=
  match op with AddMsr x v => msr_set x v l | DeleteMsr x => msr_remove x l end.
Fixpoint map_run (ops : list list_op) (l : list IA32_VMX_MSR_ENTRY) : option (list IA32_VMX_MSR_ENTRY) :=
  match ops with
  | [] => Some l
  | op :: ops => if (length (map_step op l) <=? 4)%nat then map_run ops (map_step op l) else None
  end.

(** The state during a sequence: before the first addition nothing is allocated. *)
Definition in_run (m0 : msr_mem) (s : O * msr_mem * Z) (is_hpa : bool) (l : list IA32_VMX_MSR_ENTRY) : Prop :=
  let '(o, m, max) := s in
  good o /\ list_at o m max is_hpa l /\ (length l <= 4)%nat /\ (max = 0 /\ m = m0 \/ max = 4) /\
  forall q b, m0 !! q = Some b -> m !! q = Some b /\ q <> pointer o is_hpa.

Lemma list_step_ok m0 s is_hpa l op : in_run m0 s is_hpa l ->
  (forall sz, malloc m0 sz <> 0 /\ (is_hpa = true -> is_Some (hmm_hva_to_hpa (malloc m0 sz)))) ->
  (length (map_step op l) <= 4)%nat ->
  exists s', list_step is_hpa op s = Ok s' /\ in_run m0 s' is_hpa (map_step op l) /\ base s'.1.1 = base s.1.1 /\
    forall g, 0 <= g < VMCS_FIELD_COUNT -> g <> list_address -> g <> list_count -> view s'.1.1 g = view s.1.1 g.
Proof.
  destruct s as [[o m] max]. intros (Hg & L & Hl & Hmax & Hq) Hok Hl'. destruct op as [x v|x]; cbn [list_step map_step fst].
  - pose proof (at_room _ _ _ _ _ L) as Hroom. pose proof (at_small _ _ _ _ _ L) as Hsm.
    assert (Z.of_nat (length l) + 1 < 2 ^ 27) as Hs by lia.
    assert (max <= Z.of_nat (length l) -> position x l = None -> max = 0 /\ m = m0) as Hgrow.
    { intros Hle Hx. destruct Hmax as [|Hm4]; [done|]. unfold map_step, msr_set in Hl'. rewrite Hx, length_app in Hl'.
      cbn [length] in Hl'. lia. }
    destruct (decide (max <= Z.of_nat (length l) /\ position x l = None)) as [[Hle Hx]|Hno].
    + destruct (Hgrow Hle Hx) as [-> ->].
      destruct (vmcs_add_msr_to_list_ok o m0 0 is_hpa l x v Hg L Hs) as (o' & m' & max' & E & R & Hm'); [lia|done|].
      destruct R as (Hg' & Hb' & L' & Hv' & Hq' & Hp').
      exists (o', m', max'). split; [exact E|]. split; [|done]. split; [done|]. split; [done|]. split; [done|]. split.
      * destruct Hm' as [->|Hm']; [|right; apply Hm'; lia]. exfalso. pose proof (at_room _ _ _ _ _ L') as Hr.
        unfold msr_set in Hr. rewrite Hx, length_app in Hr. cbn [length] in Hr. lia.
      * intros q b Hqb. destruct (Hq q b Hqb) as [_ Hne]. split; [by apply Hq'|].
        destruct Hp' as [-> |Hp']; [done|congruence].
    + destruct (vmcs_add_msr_to_list_keep o m max is_hpa l x v Hg L Hs) as (o' & m' & E & R).
      { destruct (position x l); [by left|]. right. apply Znot_ge_lt. intros C. apply Hno. split; [lia|done]. }
      destruct R as (Hg' & Hb' & L' & Hv' & Hq' & Hp').
      exists (o', m', max). split; [exact E|]. split; [|done]. split; [done|]. split; [done|]. split; [done|]. split.
      * destruct Hmax as [[-> ->]|]; [|by right]. exfalso. apply Hno. split; [lia|].
        destruct l; [done|]. cbn [length] in Hroom. lia.
      * intros q b Hqb. destruct (Hq q b Hqb) as [Hqm Hne]. split; [by apply Hq'|].
        destruct Hp' as [-> |Hp']; [done|congruence].
  - destruct (vmcs_delete_msr_from_list_ok o m max is_hpa l x Hg L) as (o' & m' & -> & R & Hkeep). rewrite bind_Ok.
    destruct R as (Hg' & Hb' & L' & Hv' & Hq' & Hp').
    exists (o', m', max). split; [done|]. split; [|done]. split; [done|]. split; [done|]. split; [done|]. split.
    + destruct Hmax as [[-> ->]|]; [|by right]. left. split; [done|]. apply Hkeep.
      pose proof (at_room _ _ _ _ _ L). destruct l; [done|]. cbn [length] in *. lia.
    + intros q b Hqb. destruct (Hq q b Hqb) as [Hqm Hne]. split; [by apply Hq'|].
      destruct Hp' as [-> |Hp']; [done|congruence].
Qed.

Lemma list_run_ok m0 s is_hpa ops l l' : in_run m0 s is_hpa l ->
  (forall sz, malloc m0 sz <> 0 /\ (is_hpa = true -> is_Some (hmm_hva_to_hpa (malloc m0 sz)))) ->
  map_run ops l = Some l' ->
  exists s', list_run is_hpa ops s = Ok s' /\ in_run m0 s' is_hpa l' /\ base s'.1.1 = base s.1.1 /\
    forall g, 0 <= g < VMCS_FIELD_COUNT -> g <> list_address -> g <> list_count -> view s'.1.1 g = view s.1.1 g.
Proof.
  intros Hs Hok. revert s l Hs. induction ops as [|op ops IH]; intros s l Hs Hrun; cbn [map_run list_run] in *.
  { injection Hrun as <-. by exists s. }
  destruct (Nat.leb_spec (length (map_step op l)) 4) as [Hl|]; [|done].
  destruct (list_step_ok m0 s is_hpa l op Hs Hok Hl) as (s1 & -> & Hs1 & Hb1 & Hv1). rewrite bind_Ok.
  destruct (IH s1 _ Hs1 Hrun) as (s2 & E2 & Hs2 & Hb2 & Hv2). exists s2. split; [done|]. split; [done|].
  split; [congruence|]. intros g Hg Ha Hc. rewrite Hv2, Hv1; done.
Qed.

(** C22. An MSR list behaves as an ordered map: from an object whose list is empty and not allocated, any
    sequence of additions and deletions that never holds more than four MSRs succeeds, and the
    address and count fields then describe an array in memory with exactly the MSRs of the map in
    their order. No other field of the VMCS and no other buffer changes. (The memory has to serve
    the one allocation; the addresses in the VMCS are physical for the object of the hardware.) *)
Theorem msr_list_refines o m is_hpa ops l :
  good o -> view o list_address = VMCS_INVALID_ADDRESS -> view o list_count = 0 -> m !! 0 = None ->
  (forall sz, malloc m sz <> 0 /\ (is_hpa = true -> is_Some (hmm_hva_to_hpa (malloc m sz)))) ->
  map_run ops [] = Some l ->
  exists o' m' max', list_run is_hpa ops (o, m, 0) = Ok (o', m', max') /\ good o' /\
    list_at o' m' max' is_hpa l /\ base o' = base o /\
    (forall g, 0 <= g < VMCS_FIELD_COUNT -> g <> list_address -> g <> list_count -> view o' g = view o g) /\
    (forall q b, m !! q = Some b -> m' !! q = Some b).
Proof.
  intros Hg Ha Hc Hz Hok Hrun.
  assert (in_run m (o, m, 0) is_hpa []) as Hs.
  { split; [done|]. split; [|split; [cbn; lia|split; [by left|]]].
    - split; [done|done|constructor|by left].
    - intros q b Hq. split; [done|]. unfold pointer. rewrite Ha, Z.eqb_refl. congruence. }
  destruct (list_run_ok m _ is_hpa ops [] l Hs Hok Hrun) as ([[o' m'] max'] & -> & (H1 & H2 & _ & _ & H3) & H4 & H5).
  exists o', m', max'. split_and!; try done. intros q b Hq. by apply H3.
Qed.
End Spec.

(** * An object with its lists initialised *)

Lemma vmcs_init_all_msr_lists_ok {O} `{VmcsLaws O} t (o : O) : good o ->
  Forall (usable O t) [VMCS_EXIT_MSR_STORE_ADDRESS; VMCS_EXIT_MSR_LOAD_ADDRESS; VMCS_ENTER_MSR_LOAD_ADDRESS;
    VMCS_EXIT_MSR_STORE_COUNT; VMCS_EXIT_MSR_LOAD_COUNT; VMCS_ENTER_MSR_LOAD_COUNT] ->
  exists o', vmcs_init_all_msr_lists t o = Ok o' /\ good o' /\
    base o' = mk_vmcs (level (base o)) (skip_access_checking (base o)) 0 0 0 /\
    forall g, 0 <= g < VMCS_FIELD_COUNT -> view o' g =
      if bool_decide (g ∈ [VMCS_EXIT_MSR_STORE_ADDRESS; VMCS_EXIT_MSR_LOAD_ADDRESS; VMCS_ENTER_MSR_LOAD_ADDRESS])
      then VMCS_INVALID_ADDRESS
      else if bool_decide (g ∈ [VMCS_EXIT_MSR_STORE_COUNT; VMCS_EXIT_MSR_LOAD_COUNT; VMCS_ENTER_MSR_LOAD_COUNT]) then 0
      else view o g.
Proof.
  intros Hg0 Hrw. rewrite !Forall_cons in Hrw. destruct Hrw as (R1 & R2 & R3 & R4 & R5 & R6 & _).
  unfold vmcs_init_all_msr_lists, vmcs_clear_all_msr_lists.
  destruct (vmcs_write_ok t o VMCS_EXIT_MSR_STORE_ADDRESS VMCS_INVALID_ADDRESS Hg0 ltac:(done) R1 ltac:(done)) as (o1 & -> & Hg1 & Hb1 & Hv1).
  rewrite bind_Ok.
  destruct (vmcs_write_ok t o1 VMCS_EXIT_MSR_LOAD_ADDRESS VMCS_INVALID_ADDRESS Hg1 ltac:(done) R2 ltac:(done)) as (o2 & -> & Hg2 & Hb2 & Hv2).
  rewrite bind_Ok.
  destruct (vmcs_write_ok t o2 VMCS_ENTER_MSR_LOAD_ADDRESS VMCS_INVALID_ADDRESS Hg2 ltac:(done) R3 ltac:(done)) as (o3 & -> & Hg3 & Hb3 & Hv3).
  rewrite bind_Ok.
  destruct (vmcs_write_ok t o3 VMCS_EXIT_MSR_STORE_COUNT 0 Hg3 ltac:(done) R4 ltac:(done)) as (o4 & -> & Hg4 & Hb4 & Hv4).
  rewrite bind_Ok.
  destruct (vmcs_write_ok t o4 VMCS_EXIT_MSR_LOAD_COUNT 0 Hg4 ltac:(done) R5 ltac:(done)) as (o5 & -> & Hg5 & Hb5 & Hv5).
  rewrite bind_Ok.
  destruct (vmcs_write_ok t o5 VMCS_ENTER_MSR_LOAD_COUNT 0 Hg5 ltac:(done) R6 ltac:(done)) as (o6 & -> & Hg6 & Hb6 & Hv6).
  rewrite bind_Ok. eexists. split; [done|]. unfold set_maxima.
  set (b := mk_vmcs (level (base o6)) (skip_access_checking (base o6)) 0 0 0).
  destruct (set_base_law o6 b Hg6) as (H1 & H2 & H3). split; [done|]. split; [rewrite H2; unfold b; congruence|].
  intros g Hg. rewrite H3, Hv6, Hv5, Hv4, Hv3, Hv2, Hv1 by done.
  case_bool_decide as Ha; [|case_bool_decide as Hc].
  - rewrite !elem_of_cons in Ha. destruct Ha as [->|[->|[->|Ha]]]; [done|done|done|by apply not_elem_of_nil in Ha].
  - rewrite !elem_of_cons in Hc. destruct Hc as [->|[->|[->|Hc]]]; [done|done|done|by apply not_elem_of_nil in Hc].
  - rewrite !not_elem_of_cons in Ha, Hc. destruct Ha as (Ha1 & Ha2 & Ha3 & _). destruct Hc as (Hc1 & Hc2 & Hc3 & _).
    by rewrite !(proj2 (Z.eqb_neq _ _)) by done.
Qed.

(** * Examples *)

Module MsrListExample.

Definition empty_cache : CACHE64_STRUCT := mk_cache 136 17 0 (replicate 136 0) (replicate 17 0) (replicate 17 0).
Definition fresh : VMCS_SOFTWARE_OBJECT := mk_sw (mk_vmcs VMCS_LEVEL_0 false 0 0 0) empty_cache 0 0 false.
Definition initialised : VMCS_SOFTWARE_OBJECT :=
  match vmcs_init_all_msr_lists g_field_data_init fresh with Ok o => o | _ => fresh end.

(** Two buffers at addresses 4096 and 8192, and addresses below 2^40 that are their own translation. *)
Definition two_buffers (m : msr_mem) (sz : Z) : Z :=
  if decide (m !! 4096 = None) then 4096 else if decide (m !! 8192 = None) then 8192 else 0.
Definition identity (p : Z) : option Z := if (0 <=? p) && (p <? 2 ^ 40) then Some p else None.

Lemma empty_cache_wf : cache_wf empty_cache.
Proof.
  split; try done; try apply bytes_ok_zeros. intros i _. apply (bit_of_zeros 17).
Qed.

Lemma init_rw : Forall (usable VMCS_SOFTWARE_OBJECT g_field_data_init) [VMCS_EXIT_MSR_STORE_ADDRESS; VMCS_EXIT_MSR_LOAD_ADDRESS;
  VMCS_ENTER_MSR_LOAD_ADDRESS; VMCS_EXIT_MSR_STORE_COUNT; VMCS_EXIT_MSR_LOAD_COUNT; VMCS_ENTER_MSR_LOAD_COUNT].
Proof. repeat (constructor; [split; [eexists; split; [reflexivity|split; discriminate]|done]|]). constructor. Qed.

Lemma initialised_good : sw_good initialised.
Proof.
  assert (good fresh) as Hf.
  { split; [apply empty_cache_wf|]. split; [done|]. split; [done|]. intros f v. unfold content. cbn [empty_cache valid_bits fresh cache].
    rewrite (bit_of_zeros 17), andb_false_r. done. }
  destruct (vmcs_init_all_msr_lists_ok g_field_data_init fresh Hf init_rw) as (o & E & Hg & _).
  unfold initialised. rewrite E. exact Hg.
Qed.

Lemma two_buffers_fresh m sz : two_buffers m sz <> 0 ->
  m !! two_buffers m sz = None /\ fits 64 (two_buffers m sz) /\ two_buffers m sz <> VMCS_INVALID_ADDRESS.
Proof.
  unfold two_buffers. intros Hn. destruct (decide (m !! 4096 = None)); [by split_and!|].
  destruct (decide (m !! 8192 = None)); [by split_and!|done].
Qed.

Lemma identity_agrees p h : identity p = Some h -> identity h = Some p /\ fits 64 h /\ h <> VMCS_INVALID_ADDRESS.
Proof.
  unfold identity. destruct ((0 <=? p) && (p <? 2 ^ 40)) eqn:E; [|done]. intros [= <-]. rewrite E.
  split; [done|]. unfold fits, VMCS_INVALID_ADDRESS. lia.
Qed.

Lemma two_buffers_ok sz : two_buffers ∅ sz <> 0 /\ (true = true -> is_Some (identity (two_buffers ∅ sz))).
Proof. split; [done|]. intros _. by exists 4096. Qed.

Definition some_ops : list list_op := [AddMsr 0x174 1; AddMsr 0x175 2; DeleteMsr 0x174; AddMsr 0x175 3].

Lemma initialised_empty :
  sw_view initialised VMCS_EXIT_MSR_STORE_ADDRESS = VMCS_INVALID_ADDRESS /\ sw_view initialised VMCS_EXIT_MSR_STORE_COUNT = 0.
Proof. split; vm_compute; reflexivity. Qed.

Lemma store_rights : usable VMCS_SOFTWARE_OBJECT g_field_data_init VMCS_EXIT_MSR_STORE_ADDRESS /\
  usable VMCS_SOFTWARE_OBJECT g_field_data_init VMCS_EXIT_MSR_STORE_COUNT.
Proof. pose proof init_rw as H. rewrite !Forall_cons in H. tauto. Qed.
End MsrListExample.

Lemma msr_list_refines_witness : exists o' m' max',
  list_run g_field_data_init MsrListExample.identity MsrListExample.identity MsrListExample.two_buffers
    VMCS_EXIT_MSR_STORE_ADDRESS VMCS_EXIT_MSR_STORE_COUNT true MsrListExample.some_ops
    (MsrListExample.initialised, ∅, 0) = Ok (o', m', max') /\
  list_at MsrListExample.identity VMCS_EXIT_MSR_STORE_ADDRESS VMCS_EXIT_MSR_STORE_COUNT o' m' max' true [msr 0x175 0 3].
Proof.
  destruct (msr_list_refines g_field_data_init MsrListExample.identity MsrListExample.identity MsrListExample.two_buffers
    VMCS_EXIT_MSR_STORE_ADDRESS VMCS_EXIT_MSR_STORE_COUNT ltac:(done) ltac:(done) ltac:(done)
    (proj1 MsrListExample.store_rights) (proj2 MsrListExample.store_rights)
    MsrListExample.two_buffers_fresh MsrListExample.identity_agrees
    MsrListExample.initialised ∅ true MsrListExample.some_ops [msr 0x175 0 3]
    MsrListExample.initialised_good (proj1 MsrListExample.initialised_empty) (proj2 MsrListExample.initialised_empty)
    (lookup_empty 0) MsrListExample.two_buffers_ok eq_refl) as (o' & m' & max' & H1 & _ & H2 & _).
  exists o', m', max'. split; [exact H1|exact H2].
Defined.

Module FullListExample.
Import MsrListExample.
Definition four_ops : list list_op := [AddMsr 0x174 1; AddMsr 0x175 2; AddMsr 0x176 3; AddMsr 0x1D9 4].
Definition four : list IA32_VMX_MSR_ENTRY := [msr 0x174 0 1; msr 0x175 0 2; msr 0x176 0 3; msr 0x1D9 0 4].
Definition full : VMCS_SOFTWARE_OBJECT * msr_mem * Z :=
  match list_run g_field_data_init identity identity two_buffers VMCS_EXIT_MSR_STORE_ADDRESS VMCS_EXIT_MSR_STORE_COUNT
          true four_ops (initialised, ∅, 0) with Ok s => s | _ => (initialised, ∅, 0) end.

Lemma full_in_run : in_run identity VMCS_EXIT_MSR_STORE_ADDRESS VMCS_EXIT_MSR_STORE_COUNT ∅ full true four.
Proof.
  destruct (list_run_ok g_field_data_init identity identity two_buffers
    VMCS_EXIT_MSR_STORE_ADDRESS VMCS_EXIT_MSR_STORE_COUNT ltac:(done) ltac:(done) ltac:(done)
    (proj1 store_rights) (proj2 store_rights) two_buffers_fresh identity_agrees
    ∅ (initialised, ∅, 0) true four_ops [] four) as (s & E & Hs & _); [|apply two_buffers_ok|done|].
  - split; [apply initialised_good|]. split; [|split; [cbn; lia|split; [by left|done]]].
    split; [apply initialised_empty|done|constructor|by left].
  - unfold full. by rewrite E.
Qed.

Lemma full_max : full.2 = 4.
Proof. vm_compute. reflexivity. Qed.
Lemma full_free : full.1.2 !! 8192 = None.
Proof. vm_compute. reflexivity. Qed.

Lemma full_list : list_at identity VMCS_EXIT_MSR_STORE_ADDRESS VMCS_EXIT_MSR_STORE_COUNT full.1.1 full.1.2 4 true four.
Proof. pose proof full_in_run as H. pose proof full_max as Hm. destruct full as [[o m] max]. cbn [fst snd] in *. subst. apply H. Qed.

Lemma full_memory sz : two_buffers full.1.2 sz <> 0 /\ (true = true -> is_Some (identity (two_buffers full.1.2 sz))).
Proof.
  unfold two_buffers. destruct (decide (full.1.2 !! 4096 = None)); [split; [done|intros _; by exists 4096]|].
  rewrite decide_True by exact full_free. split; [done|intros _; by exists 8192].
Qed.

Lemma full_good : sw_good full.1.1.
Proof. pose proof full_in_run as H. destruct full as [[o m] max]. apply H. Qed.
End FullListExample.

Lemma msr_list_fifth_entry_overflows_witness :
  vmcs_add_msr_to_list g_field_data_init MsrListExample.identity MsrListExample.identity MsrListExample.two_buffers
    FullListExample.full.1.1 FullListExample.full.1.2 0x38F 0 VMCS_EXIT_MSR_STORE_ADDRESS VMCS_EXIT_MSR_STORE_COUNT 4 true = Fault.
Proof.
  exact (msr_list_fifth_entry_overflows g_field_data_init MsrListExample.identity MsrListExample.identity
    MsrListExample.two_buffers VMCS_EXIT_MSR_STORE_ADDRESS VMCS_EXIT_MSR_STORE_COUNT ltac:(done) ltac:(done)
    (proj1 MsrListExample.store_rights) (proj2 MsrListExample.store_rights)
    MsrListExample.two_buffers_fresh MsrListExample.identity_agrees
    FullListExample.full.1.1 FullListExample.full.1.2 true FullListExample.four 0x38F 0
    FullListExample.full_good FullListExample.full_list eq_refl eq_refl FullListExample.full_memory).
Defined.

(** * Shared lists *)

(** A list that is used for both the VM-exit store and the VM-entry load is one array with two
    addresses in the VMCS; destroying the lists frees it twice. *)
Lemma shared_list_freed_twice :
  (r ← vmcs_add_msr_to_vmexit_store_and_vmenter_load_lists_internal g_field_data_init MsrListExample.identity
         MsrListExample.identity MsrListExample.two_buffers MsrListExample.initialised ∅ 0x174 1 true;
   vmcs_destroy_all_msr_lists_internal g_field_data_init MsrListExample.identity r.1 r.2 true) = Fault.
Proof. vm_compute. reflexivity. Qed.

(** An addition to the VM-entry load list alone frees the shared array while the VM-exit store list
    still refers to it: the next search of that list reads freed memory. *)
Lemma shared_list_dangles :
  (r ← vmcs_add_msr_to_vmexit_store_and_vmenter_load_lists_internal g_field_data_init MsrListExample.identity
         MsrListExample.identity MsrListExample.two_buffers MsrListExample.initialised ∅ 0x174 1 true;
   r ← vmcs_add_msr_to_vmenter_load_list_internal g_field_data_init MsrListExample.identity
         MsrListExample.identity MsrListExample.two_buffers r.1 r.2 0x175 2 true;
   vmcs_add_msr_to_vmexit_store_list_internal g_field_data_init MsrListExample.identity
         MsrListExample.identity MsrListExample.two_buffers r.1 r.2 0x176 3 true) = Fault.
Proof. vm_compute. reflexivity. Qed.
