(* ===== verification/VmcsActual.v ===== *)
(** vmx/vmcs_actual.c and vmx/vmx.c: the VMCS object of the hardware. Its fields are cached
    (Cache64.v); what is not cached is read from the processor, and the dirty fields are written to
    it before a VM entry. The object implements the operations of Vmcs.v.

    The VMX instructions are the processor's: the class [Vmx] gives their effect on its state and
    [VmxLaws] what the architecture manual says of them. The functions of vmx.c are around them. *)

From S2P Require Import Prelude VmmDefs Lock Cache64 VmcsFields Vmcs.

(** * The processor *)

(** How a VMX instruction reports: CF = ZF = 0; ZF = 1; CF = 1. *)
Inductive vmx_result := VMsucceed | VMfailValid | VMfailInvalid.

Class Vmx (H : Type) := {
  i_vmread : H -> Z -> vmx_result * Z;
  i_vmwrite : H -> Z -> Z -> vmx_result * H;
  i_vmptrld : H -> Z -> vmx_result * H;
  i_vmclear : H -> Z -> vmx_result * H
}.

(** The operand of vmptrst without a current VMCS. *)
Definition HW_VMCS_IS_EMPTY : Z := 2 ^ 64 - 1.

(** The width of a field, from bits 13-14 of its encoding. *)
Definition field_width (encoding : Z) : Z :=
  match Z.land (Z.shiftr encoding 13) 3 with 0 => 16 | 2 => 32 | _ => 64 end.

Lemma field_width_range e : 0 < field_width e <= 64.
Proof. unfold field_width. repeat case_match; lia. Qed.

Class VmxLaws (H : Type) `{Vmx H} := {
  (** The current VMCS, the content of the VMCS regions, the encodings of the fields the processor
      has and of those that can be written, and the addresses it accepts for a VMCS. *)
  current : H -> Z;
  region : H -> Z -> Z -> Z;
  supported : Z -> bool;
  settable : Z -> bool;
  vmcs_address : Z -> bool;
  vmcs_address_nonempty : forall p, vmcs_address p = true -> p <> HW_VMCS_IS_EMPTY;
  region_fits : forall h p e, fits (field_width e) (region h p e);
  vmread_law : forall h e, current h <> HW_VMCS_IS_EMPTY -> supported e = true ->
    i_vmread h e = (VMsucceed, region h (current h) e);
  vmwrite_law : forall h e v, current h <> HW_VMCS_IS_EMPTY -> supported e = true -> settable e = true ->
    exists h', i_vmwrite h e v = (VMsucceed, h') /\ current h' = current h /\
      forall p e', region h' p e' =
        if bool_decide (p = current h /\ e' = e) then v mod 2 ^ field_width e else region h p e';
  vmptrld_law : forall h p, vmcs_address p = true ->
    exists h', i_vmptrld h p = (VMsucceed, h') /\ current h' = p /\ forall q e, region h' q e = region h q e;
  vmclear_law : forall h p, vmcs_address p = true ->
    exists h', i_vmclear h p = (VMsucceed, h') /\
      current h' = (if current h =? p then HW_VMCS_IS_EMPTY else current h) /\
      forall q e, region h' q e = region h q e
}.

(** * vmx.c *)

Definition HW_VMX_SUCCESS : Z := 0.
Definition HW_VMX_FAILED_WITH_STATUS : Z := 1.
Definition HW_VMX_FAILED : Z := 2.

(** The jnc/jnz sequence after an instruction. *)
Definition ret_value (r : vmx_result) : Z :=
  match r with VMsucceed => HW_VMX_SUCCESS | VMfailValid => HW_VMX_FAILED_WITH_STATUS | VMfailInvalid => HW_VMX_FAILED end.

Section Processor.
Context {H : Type} `{Vmx H}.

(** [*value], [None] while nothing has been stored in it, is written on success only. *)
Definition vmx_vmread (h : H) (index : Z) (value : option Z) : Z * option Z :=
  let '(r, v) := i_vmread h index in
  (ret_value r, match r with VMsucceed => Some v | _ => value end).
Definition vmx_vmwrite (h : H) (index value : Z) : Z * H := let '(r, h) := i_vmwrite h index value in (ret_value r, h).
Definition vmx_vmptrld (h : H) (address : Z) : Z * H := let '(r, h) := i_vmptrld h address in (ret_value r, h).
Definition vmx_vmclear (h : H) (address : Z) : Z * H := let '(r, h) := i_vmclear h address in (ret_value r, h).

(** vmptrst stores to a local copy of [*ptr_to_vmcs_region], which is not copied back: the variable of
    the caller keeps what it had ([None] when it was not initialised). *)
Definition vmx_vmptrst (h : H) (ptr_to_vmcs_region : option Z) : option Z := ptr_to_vmcs_region.

Definition hw_vmx_flush_current_vmcs (h : H) (address : Z) : Z * H := vmx_vmclear h address.
Definition hw_vmx_write_current_vmcs (h : H) (field value : Z) : Z * H := vmx_vmwrite h field value.
Definition hw_vmx_read_current_vmcs (h : H) (field : Z) (value : option Z) : Z * option Z := vmx_vmread h field value.
End Processor.

(** * The object *)

Definition UPDATE_SUCCEEDED : Z := 0.
Definition UPDATE_FINISHED : Z := 1.
Definition UPDATE_FAILED : Z := 2.
Definition LAUNCHED_FLAG : Z := 1.
Definition ACTIVATED_FLAG : Z := 2.
Definition NEVER_ACTIVATED_FLAG : Z := 4.
Definition NMI_WINDOW_BIT : Z := 22.
Definition CPU_NEVER_USED : Z := 2 ^ 16 - 1.
Definition DATA32_GDT_ENTRY_OFFSET : Z := 8.

Definition FIELD_IS_HW_WRITABLE (access : Z) : Z := Z.land VMCS_WRITABLE access.

Record VMCS_ACTUAL_OBJECT := mk_actual {
  vmcs_base : VMCS_OBJECT;
  cache : CACHE64_STRUCT;
  hpa : Z;
  hva : Z;
  gcpu_owner : Z;
  update_status : Z;
  oflags : Z;
  owning_host_cpu : Z
}.

(** The CPU that uses the object: the processor, FS (not 0 after an NMI), its entries of nmi_window
    and vmcs_sw_shadow_disable, and whether nmi_is_pending_this holds. *)
Record host_cpu (H : Type) := mk_cpu {
  cpu_id : Z;
  hw : H;
  fs : Z;
  nmi_window : bool;
  shadow_disable : bool;
  nmi_pending : bool
}.
Arguments mk_cpu {H}.
Arguments cpu_id {H}.
Arguments hw {H}.
Arguments fs {H}.
Arguments nmi_window {H}.
Arguments shadow_disable {H}.
Arguments nmi_pending {H}.

(** The object together with the CPU. *)
Record active (H : Type) := mk_active { obj : VMCS_ACTUAL_OBJECT; cpu : host_cpu H }.
Arguments mk_active {H}.
Arguments obj {H}.
Arguments cpu {H}.

Definition o_set_cache (c : CACHE64_STRUCT) (o : VMCS_ACTUAL_OBJECT) : VMCS_ACTUAL_OBJECT :=
  mk_actual (vmcs_base o) c (hpa o) (hva o) (gcpu_owner o) (update_status o) (oflags o) (owning_host_cpu o).
Definition o_set_base (b : VMCS_OBJECT) (o : VMCS_ACTUAL_OBJECT) : VMCS_ACTUAL_OBJECT :=
  mk_actual b (cache o) (hpa o) (hva o) (gcpu_owner o) (update_status o) (oflags o) (owning_host_cpu o).
Definition o_set_status (s : Z) (o : VMCS_ACTUAL_OBJECT) : VMCS_ACTUAL_OBJECT :=
  mk_actual (vmcs_base o) (cache o) (hpa o) (hva o) (gcpu_owner o) s (oflags o) (owning_host_cpu o).
Definition o_set_flags (f : Z) (o : VMCS_ACTUAL_OBJECT) : VMCS_ACTUAL_OBJECT :=
  mk_actual (vmcs_base o) (cache o) (hpa o) (hva o) (gcpu_owner o) (update_status o) f (owning_host_cpu o).
Definition o_set_owning (c : Z) (o : VMCS_ACTUAL_OBJECT) : VMCS_ACTUAL_OBJECT :=
  mk_actual (vmcs_base o) (cache o) (hpa o) (hva o) (gcpu_owner o) (update_status o) (oflags o) c.

Section Object.
Context {H : Type} `{Vmx H} (t : list VMCS_ENCODING).
Implicit Types s : active H.

Definition on_obj (f : VMCS_ACTUAL_OBJECT -> VMCS_ACTUAL_OBJECT) s : active H := mk_active (f (obj s)) (cpu s).
Definition set_hw (h : H) s : active H :=
  let c := cpu s in
  mk_active (obj s) (mk_cpu (cpu_id c) h (fs c) (nmi_window c) (shadow_disable c) (nmi_pending c)).
Definition set_cache (c : CACHE64_STRUCT) s : active H := on_obj (o_set_cache c) s.
Definition cache_of s : CACHE64_STRUCT := cache (obj s).

Definition has_flag (flag : Z) s : bool := negb (Z.land (oflags (obj s)) flag =? 0).
Definition set_flag (flag : Z) s : active H := on_obj (fun o => o_set_flags (Z.lor (oflags o) flag) o) s.
Definition clear_flag (flag : Z) s : active H := on_obj (fun o => o_set_flags (Z.land (oflags o) (u16 (Z.lnot flag))) o) s.

(** ** NMI windows *)

Definition nmi_is_nmi_occured s : bool := negb (fs (cpu s) =? 0).
Definition set_nmi_window (b : bool) s : active H :=
  let c := cpu s in
  mk_active (obj s) (mk_cpu (cpu_id c) (hw c) (fs c) b (shadow_disable c) (nmi_pending c)).
Definition nmi_window_set s : active H := set_nmi_window true s.
Definition nmi_window_clear s : active H :=
  let s := set_nmi_window false s in if nmi_is_nmi_occured s then set_nmi_window true s else s.
Definition hw_write_fs (v : Z) s : active H :=
  let c := cpu s in
  mk_active (obj s) (mk_cpu (cpu_id c) (hw c) v (nmi_window c) (shadow_disable c) (nmi_pending c)).
Definition nmi_remember_occured_nmi s : active H := nmi_window_set (hw_write_fs DATA32_GDT_ENTRY_OFFSET s).
Definition nmi_window_is_requested s : bool := nmi_is_nmi_occured s || nmi_window (cpu s).

(** ** The current VMCS *)

(** error_processing, called when an instruction fails, only selects a message. *)
Definition temp_replace_vmcs_ptr (new_ptr : Z) s : option Z * active H :=
  let previous_vmcs := vmx_vmptrst (hw (cpu s)) None in
  let '(_, h) := vmx_vmptrld (hw (cpu s)) new_ptr in
  (previous_vmcs, set_hw h s).

Definition restore_previous_vmcs_ptr (ptr_to_restore : Z) s : outcome (active H) :=
  if negb (ptr_to_restore =? HW_VMCS_IS_EMPTY) then
    let '(_, h) := vmx_vmptrld (hw (cpu s)) ptr_to_restore in Ok (set_hw h s)
  else
    match vmx_vmptrst (hw (cpu s)) None with
    | None => Fault
    | Some temp =>
        if negb (temp =? HW_VMCS_IS_EMPTY) then
          let '(_, h) := hw_vmx_flush_current_vmcs (hw (cpu s)) temp in Ok (set_hw h s)
        else Ok s
    end.

(** ** Fields in the hardware *)

(** A value that no instruction has stored is indeterminate. *)
Definition vmcs_act_read_from_hardware s (field : Z) : outcome (Z * active H) :=
  e ← vmcs_get_field_encoding t field;
  let replaced := negb (has_flag ACTIVATED_FLAG s) in
  let '(previous_vmcs, s) := if replaced then temp_replace_vmcs_ptr (hpa (obj s)) s else (Some 0, s) in
  let '(_, value) := hw_vmx_read_current_vmcs (hw (cpu s)) e.1 None in
  let s := if owning_host_cpu (obj s) =? CPU_NEVER_USED
           then let '(_, h) := hw_vmx_flush_current_vmcs (hw (cpu s)) (hpa (obj s)) in set_hw h s else s in
  match previous_vmcs with
  | None => Fault
  | Some previous =>
      s ← (if negb (previous =? 0) then restore_previous_vmcs_ptr previous s else Ok s);
      match value with Some v => Ok (v, s) | None => Fault end
  end.

(** The field is written to the VMCS that is current, whether it is this one or not. *)
Definition vmcs_act_write_to_hardware s (field value : Z) : outcome (active H) :=
  e ← vmcs_get_field_encoding t field;
  match e.2 with
  | None => Fault
  | Some access_type =>
      if FIELD_IS_HW_WRITABLE access_type =? 0 then Ok s
      else let '(_, h) := hw_vmx_write_current_vmcs (hw (cpu s)) e.1 value in Ok (set_hw h s)
  end.

(** ** The operations of the object *)

Definition vmcs_act_is_dirty s : bool := cache64_is_dirty (cache_of s).
Definition vmcs_act_get_owner s : Z := gcpu_owner (obj s).

Definition vmcs_act_write s (field value : Z) : outcome (active H) :=
  if negb (shadow_disable (cpu s)) then
    c ← cache64_write (shadow_disable (cpu s)) (cache_of s) value field; Ok (set_cache c s)
  else vmcs_act_write_to_hardware s field value.

Definition vmcs_act_read s (field : Z) : outcome (Z * active H) :=
  r ← cache64_read (shadow_disable (cpu s)) (cache_of s) field;
  match r with
  | Some value => Ok (value, s)
  | None =>
      if has_flag NEVER_ACTIVATED_FLAG s then
        c ← cache64_write (shadow_disable (cpu s)) (cache_of s) 0 field; Ok (0, set_cache c s)
      else
        r ← vmcs_act_read_from_hardware s field;
        let '(value, s) := r in
        c ← cache64_write (shadow_disable (cpu s)) (cache_of s) value field;
        Ok (value, set_cache c s)
  end.

#[global] Instance actual_ops : VmcsOps (active H) := {
  base := fun s => vmcs_base (obj s);
  set_base := fun b => on_obj (o_set_base b);
  op_read := vmcs_act_read;
  op_write := vmcs_act_write
}.

(** One round of the transaction: the status, then whether it was successful. *)
Definition flush_nmi_round s (value : Z) : outcome (bool * Z * active H) :=
  let s := on_obj (o_set_status UPDATE_SUCCEEDED) s in
  let value := if nmi_window_is_requested s then Z.lor value (Z.shiftl 1 NMI_WINDOW_BIT) else value in
  s ← vmcs_act_write_to_hardware s VMCS_CONTROL_VECTOR_PROCESSOR_EVENTS value;
  let '(status, old) := hw_interlocked_compare_exchange (update_status (obj s)) UPDATE_SUCCEEDED UPDATE_FINISHED in
  Ok (old =? UPDATE_SUCCEEDED, value, on_obj (o_set_status status) s).

Fixpoint vmcs_act_flush_nmi_depended_field_to_cpu (fuel : nat) s (value : Z) : outcome (active H) :=
  match fuel with
  | O => Spin
  | S fuel =>
      r ← flush_nmi_round s value;
      let '(success, value, s) := r in
      if (success : bool) then Ok s else vmcs_act_flush_nmi_depended_field_to_cpu fuel s value
  end.

Definition vmcs_act_flush_field_to_cpu (fuel : nat) (field : Z) s : outcome (active H) :=
  r ← cache64_read (shadow_disable (cpu s)) (cache_of s) field;
  match r with
  | None => Ok s
  | Some value =>
      if negb (field =? VMCS_CONTROL_VECTOR_PROCESSOR_EVENTS) then vmcs_act_write_to_hardware s field value
      else vmcs_act_flush_nmi_depended_field_to_cpu fuel s value
  end.

Definition vmcs_act_flush_to_cpu (fuel : nat) s : outcome (active H) :=
  s ← (if nmi_window_is_requested s
       then vmcs_update t s VMCS_CONTROL_VECTOR_PROCESSOR_EVENTS UINT64_ALL_ONES (Z.shiftl 1 NMI_WINDOW_BIT) else Ok s);
  if cache64_is_dirty (cache_of s)
  then cache64_flush_dirty cache_of set_cache CACHE_ALL_ENTRIES (Some (vmcs_act_flush_field_to_cpu fuel)) s
  else Ok s.

Definition vmcs_nmi_handler s : outcome (active H) :=
  let s := nmi_remember_occured_nmi s in
  let s := on_obj (o_set_status UPDATE_FAILED) s in
  r ← vmcs_act_read_from_hardware s VMCS_CONTROL_VECTOR_PROCESSOR_EVENTS;
  let '(value, s) := r in
  vmcs_act_write_to_hardware s VMCS_CONTROL_VECTOR_PROCESSOR_EVENTS (Z.lor value (Z.shiftl 1 NMI_WINDOW_BIT)).

Definition nmi_window_update_before_vmresume s : outcome (active H) :=
  if nmi_is_nmi_occured s || nmi_pending (cpu s) then
    r ← vmcs_act_read_from_hardware s VMCS_CONTROL_VECTOR_PROCESSOR_EVENTS;
    let '(value, s) := r in
    s ← vmcs_act_write_to_hardware s VMCS_CONTROL_VECTOR_PROCESSOR_EVENTS (Z.lor value (Z.shiftl 1 NMI_WINDOW_BIT));
    Ok (nmi_window_set s)
  else Ok s.

Definition vmcs_write_nmi_window_bit s (value : bool) : outcome (active H) :=
  s ← vmcs_update t s VMCS_CONTROL_VECTOR_PROCESSOR_EVENTS (if value then 2 ^ 64 - 1 else 0) (Z.shiftl 1 NMI_WINDOW_BIT);
  Ok (if value then nmi_window_set s else nmi_window_clear s).

Definition vmcs_read_nmi_window_bit s : outcome (bool * active H) :=
  r ← vmcs_read t s VMCS_CONTROL_VECTOR_PROCESSOR_EVENTS;
  Ok (negb (Z.land r.1 (Z.shiftl 1 NMI_WINDOW_BIT) =? 0), r.2).

(** ** Activation *)

Definition vmcs_clear_cache s : outcome (active H) :=
  c ← cache64_invalidate (cache_of s) CACHE_ALL_ENTRIES; Ok (set_cache c s).

Definition vmcs_activate s : active H :=
  let s := if has_flag NEVER_ACTIVATED_FLAG s
           then let '(_, h) := hw_vmx_flush_current_vmcs (hw (cpu s)) (hpa (obj s)) in set_hw h s else s in
  let '(_, h) := vmx_vmptrld (hw (cpu s)) (hpa (obj s)) in
  let s := on_obj (o_set_owning (cpu_id (cpu s))) (set_hw h s) in
  clear_flag NEVER_ACTIVATED_FLAG (set_flag ACTIVATED_FLAG s).

Definition vmcs_deactivate s : active H := clear_flag ACTIVATED_FLAG s.
Definition vmcs_launch_required s : bool := negb (has_flag LAUNCHED_FLAG s).
Definition vmcs_set_launched s : active H := set_flag LAUNCHED_FLAG s.
Definition vmcs_set_launch_required s : active H := clear_flag LAUNCHED_FLAG s.

Definition vmcs_act_flush_to_memory (fuel : nat) s : outcome (active H) :=
  if owning_host_cpu (obj s) =? CPU_NEVER_USED then Ok s
  else
    let previous_vmcs := vmx_vmptrst (hw (cpu s)) None in
    s ← vmcs_act_flush_to_cpu fuel (vmcs_activate s);
    let '(_, h) := hw_vmx_flush_current_vmcs (hw (cpu s)) (hpa (obj s)) in
    let s := clear_flag LAUNCHED_FLAG (vmcs_deactivate (set_hw h s)) in
    let s := on_obj (o_set_owning CPU_NEVER_USED) s in
    match previous_vmcs with Some p => restore_previous_vmcs_ptr p s | None => Fault end.

(** The object in a zeroed buffer, with its cache and its region; [None] without memory. *)
Definition vmcs_act_create (c : host_cpu H) (p_vmcs : Z) (cache : option CACHE64_STRUCT) (hpa hva gcpu : Z)
  : outcome (option (active H)) :=
  if p_vmcs =? 0 then Ok None
  else
    match cache with
    | None => Ok None
    | Some cache =>
        let o := mk_actual (mk_vmcs VMCS_MERGED false 0 0 0) cache hpa hva gcpu 0
                   (Z.lor 0 NEVER_ACTIVATED_FLAG) CPU_NEVER_USED in
        s ← vmcs_init_all_msr_lists t (mk_active o c);
        Ok (Some s)
    end.
End Object.
