(* ===== verification/VmcsActualSpec.v ===== *)
(** The VMCS object of the hardware is a memory of fields: it satisfies the laws of Vmcs.v, and a
    flush leaves in the processor what clients have written. *)

From S2P Require Import Prelude VmmDefs Lock Cache64 VmcsFields Vmcs VmcsActual.

Section Spec.
Context {H : Type} `{VmxLaws H} (t : list VMCS_ENCODING).
Implicit Types s : active H.

(** * Fields of the table *)

Definition enc_of (f : Z) : Z := default 0 (encoding <$> t !! Z.to_nat f).
Definition hw_writable (f : Z) : bool :=
  match t !! Z.to_nat f with Some d => negb (FIELD_IS_HW_WRITABLE (access d) =? 0) | None => false end.

(** The table is the initialised one, and the processor has the fields it says can be written. *)
Context (table_shape : shape t = shape g_field_data_init).
Context (processor_fields : forall f, 0 <= f < VMCS_FIELD_COUNT -> hw_writable f = true ->
  supported (enc_of f) = true /\ settable (enc_of f) = true).

Lemma get_field_encoding_ok f : 0 <= f < VMCS_FIELD_COUNT ->
  exists a, vmcs_get_field_encoding t f = Ok (enc_of f, Some a) /\ hw_writable f = negb (FIELD_IS_HW_WRITABLE a =? 0).
Proof.
  intros Hf. change VMCS_FIELD_COUNT with 136 in Hf. unfold vmcs_get_field_encoding, enc_of, hw_writable.
  change VMCS_FIELD_COUNT with 136. rewrite (proj2 (Z.ltb_lt _ _)) by lia.
  destruct (lookup_lt_is_Some_2 t (Z.to_nat f)) as [d Hd]; [rewrite (table_length t table_shape); lia|].
  rewrite (rd_ok _ _ d) by (done || lia). rewrite bind_Ok, Hd. by exists (access d).
Qed.

Lemma enc_of_inj f g : 0 <= f < VMCS_FIELD_COUNT -> 0 <= g < VMCS_FIELD_COUNT -> enc_of f = enc_of g -> f = g.
Proof.
  change VMCS_FIELD_COUNT with 136. intros Hf Hg. unfold enc_of. pose proof (table_length t table_shape) as Hl.
  destruct (lookup_lt_is_Some_2 t (Z.to_nat f)) as [d Hd]; [lia|].
  destruct (lookup_lt_is_Some_2 t (Z.to_nat g)) as [d' Hd']; [lia|].
  rewrite Hd, Hd'. change (encoding d = encoding d' -> f = g). intros He.
  apply (field_slot_inj t table_shape f g d d'); try done. by rewrite He.
Qed.

Lemma region_fits64 (h : H) p e : fits 64 (region h p e).
Proof.
  pose proof (region_fits h p e) as [H2 H3]. pose proof (field_width_range e). split; [done|].
  eapply Z.lt_le_trans; [exact H3|]. apply Z.pow_le_mono_r; lia.
Qed.

Lemma region_small (h : H) p e : region h p e mod 2 ^ field_width e = region h p e.
Proof. apply Z.mod_small, region_fits. Qed.

(** * The invariant *)

(** The next flush writes the field. *)
Definition pending (c : CACHE64_STRUCT) (f : Z) : Prop := dirty c f = true /\ cache64_is_dirty c = true.

(** The hardware holds the value of the field. *)
Definition in_hardware s (f v : Z) : Prop :=
  region (hw (cpu s)) (hpa (obj s)) (enc_of f) = v mod 2 ^ field_width (enc_of f).

Definition cache_good (c : CACHE64_STRUCT) : Prop :=
  cache_wf c /\ num_of_entries c = VMCS_FIELD_COUNT /\ values_fit c /\ 0 <= flags c.

(** The object is the current VMCS of its CPU, or it was never loaded. *)
Definition is_active s : Prop :=
  has_flag ACTIVATED_FLAG s = true /\ has_flag NEVER_ACTIVATED_FLAG s = false /\
  owning_host_cpu (obj s) <> CPU_NEVER_USED /\ current (hw (cpu s)) = hpa (obj s).
Definition never_activated s : Prop := has_flag NEVER_ACTIVATED_FLAG s = true.

Record act_good s : Prop := {
  ag_cache : cache_good (cache_of s);
  ag_shadow : shadow_disable (cpu s) = false;
  ag_address : vmcs_address (hpa (obj s)) = true;
  ag_mode : is_active s \/ never_activated s;
  ag_sync : forall f v, 0 <= f < VMCS_FIELD_COUNT -> hw_writable f = true -> content (cache_of s) f = Some v ->
    pending (cache_of s) f \/ is_active s /\ in_hardware s f v
}.

(** What a client sees. *)
Definition act_view s (f : Z) : Z :=
  match content (cache_of s) f with
  | Some v => v
  | None => if has_flag NEVER_ACTIVATED_FLAG s then 0 else region (hw (cpu s)) (hpa (obj s)) (enc_of f)
  end.

(** * Reads and writes *)

(** Storing in the cache keeps the invariant. *)
Lemma cache_write_good s f v : act_good s -> 0 <= f < VMCS_FIELD_COUNT -> fits 64 v ->
  exists c, cache64_write false (cache_of s) v f = Ok c /\ act_good (set_cache c s) /\
    (forall g, content c g = if g =? f then Some v else content (cache_of s) g).
Proof.
  intros [(W & Hn & Hfit & Hfl) Hsh Ha Hm Hs] Hf Hv.
  assert (entry (cache_of s) f) as He by (unfold entry; lia).
  destruct (cache64_write_spec (cache_of s) v f W He) as (c & E & W' & Hn' & Hc & Hd).
  destruct (cache64_write_pending (cache_of s) v f c W He Hfl E) as (Hfl' & Hdm & Hp).
  exists c. split; [done|]. split; [|done]. split; [| done | done | done |].
  - split; [done|]. split; [exact (eq_trans Hn' Hn)|]. split; [|done]. by apply (values_fit_write (cache_of s) c f v).
  - change (cache_of (set_cache c s)) with c. intros g w Hg Hw Hcw. rewrite Hc in Hcw.
    change (is_active (set_cache c s)) with (is_active s). change (in_hardware (set_cache c s) g w) with (in_hardware s g w).
    assert (pending (cache_of s) g -> pending c g) as Hmono.
    { intros [Hdg Hdf]. split; [|by apply Hdm]. rewrite Hd, Hdg. by destruct (_ && _). }
    destruct (Z.eqb_spec g f) as [->|Hne].
    + injection Hcw as <-. destruct Hp as [Hsame|Hp]; [|by left].
      destruct (Hs f v Hf Hw Hsame) as [|]; [left; by apply Hmono|by right].
    + destruct (Hs g w Hg Hw Hcw) as [|]; [left; by apply Hmono|by right].
Qed.

Lemma act_write_ok s f v : act_good s -> 0 <= f < VMCS_FIELD_COUNT -> fits 64 v ->
  exists c, vmcs_act_write t s f v = Ok (set_cache c s) /\ act_good (set_cache c s) /\
    (forall g, content c g = if g =? f then Some v else content (cache_of s) g).
Proof.
  intros G Hf Hv. unfold vmcs_act_write. rewrite (ag_shadow _ G). cbn [negb].
  destruct (cache_write_good s f v G Hf Hv) as (c & -> & G' & Hc).
  rewrite bind_Ok. by exists c.
Qed.

(** The hardware is read without a change of the current VMCS. *)
Lemma read_from_hardware_ok s f : is_active s -> vmcs_address (hpa (obj s)) = true -> 0 <= f < VMCS_FIELD_COUNT ->
  supported (enc_of f) = true ->
  vmcs_act_read_from_hardware t s f = Ok (region (hw (cpu s)) (hpa (obj s)) (enc_of f), s).
Proof.
  intros (Ha & _ & Ho & Hc) Hp Hf Hs. unfold vmcs_act_read_from_hardware.
  destruct (get_field_encoding_ok f Hf) as (a & -> & _). rewrite bind_Ok. cbn [fst]. rewrite Ha. cbn [negb].
  unfold hw_vmx_read_current_vmcs, vmx_vmread.
  rewrite vmread_law by (try done; rewrite Hc; by apply vmcs_address_nonempty).
  rewrite (proj2 (Z.eqb_neq _ _) Ho). change (0 =? 0) with true. cbn [negb]. by rewrite bind_Ok, Hc.
Qed.

Lemma act_read_ok s f : act_good s -> 0 <= f < VMCS_FIELD_COUNT -> supported (enc_of f) = true ->
  exists c, vmcs_act_read t s f = Ok (act_view s f, set_cache c s) /\ act_good (set_cache c s) /\
    (forall g, content c g = if g =? f then Some (act_view s f) else content (cache_of s) g).
Proof.
  intros G Hf Hs. pose proof G as [(W & Hn & Hfit & Hfl) Hsh Ha Hm _]. unfold vmcs_act_read, act_view.
  rewrite Hsh, cache64_read_content by (done || lia). rewrite bind_Ok.
  destruct (content (cache_of s) f) as [v|] eqn:Ec.
  { exists (cache_of s). assert (set_cache (cache_of s) s = s) as -> by (by destruct s as [[] []]).
    split; [done|]. split; [done|]. intros g. by destruct (Z.eqb_spec g f) as [->|]. }
  destruct (has_flag NEVER_ACTIVATED_FLAG s) eqn:En.
  - destruct (cache_write_good s f 0 G Hf ltac:(done)) as (c & -> & G' & Hc).
    rewrite bind_Ok. by exists c.
  - destruct Hm as [Hact|Hnev]; [|unfold never_activated in Hnev; congruence].
    rewrite read_from_hardware_ok by done. rewrite bind_Ok. rewrite Hsh.
    destruct (cache_write_good s f (region (hw (cpu s)) (hpa (obj s)) (enc_of f)) G Hf) as (c & -> & G' & Hc);
      [apply region_fits64|]. rewrite bind_Ok. by exists c.
Qed.

Lemma view_set_cache s c f v : (forall g, content c g = if g =? f then Some v else content (cache_of s) g) ->
  forall g, act_view (set_cache c s) g = if g =? f then v else act_view s g.
Proof.
  intros Hc g. unfold act_view. change (cache_of (set_cache c s)) with c. rewrite Hc. by destruct (g =? f).
Qed.

Lemma act_view_fits s f : act_good s -> fits 64 (act_view s f).
Proof.
  intros [(W & Hn & Hfit & Hfl) Hsh Ha Hm _]. unfold act_view.
  destruct (content (cache_of s) f) as [v|] eqn:Ec; [by apply (Hfit f)|].
  destruct (has_flag NEVER_ACTIVATED_FLAG s); [done|apply region_fits64].
Qed.

#[local] Instance act_ops : VmcsOps (active H) := actual_ops t.

#[local] Instance actual_laws : VmcsLaws (active H).
Proof.
  refine {| good := act_good; view := act_view; serves := fun f => supported (enc_of f) = true |}.
  - intros s f G Hf Hs. destruct (act_read_ok s f G Hf Hs) as (c & E & G' & Hc). exists (set_cache c s).
    split; [exact E|]. split; [done|]. split; [done|]. intros g Hg. rewrite (view_set_cache s c f _ Hc).
    by destruct (Z.eqb_spec g f) as [->|].
  - intros s f v G Hf _ Hv. destruct (act_write_ok s f v G Hf Hv) as (c & E & G' & Hc). exists (set_cache c s).
    split; [exact E|]. split; [done|]. split; [done|]. intros g Hg. by rewrite (view_set_cache s c f v Hc).
  - intros s b [Hc Hsh Ha Hm Hs]. by split.
  - intros s f G _. by apply act_view_fits.
Defined.

(** * Flushing *)

(** [s'] differs from [s] in the VMCS regions and the status of the transaction only. *)
Definition same_but_regions s s' : Prop :=
  o_set_status 0 (obj s') = o_set_status 0 (obj s) /\
  mk_cpu (cpu_id (cpu s')) tt (fs (cpu s')) (nmi_window (cpu s')) (shadow_disable (cpu s')) (nmi_pending (cpu s'))
    = mk_cpu (cpu_id (cpu s)) tt (fs (cpu s)) (nmi_window (cpu s)) (shadow_disable (cpu s)) (nmi_pending (cpu s)) /\
  current (hw (cpu s')) = current (hw (cpu s)).

Lemma same_but_regions_refl s : same_but_regions s s.
Proof. done. Qed.

Lemma same_but_regions_trans s1 s2 s3 : same_but_regions s1 s2 -> same_but_regions s2 s3 -> same_but_regions s1 s3.
Proof. intros (A1 & A2 & A3) (B1 & B2 & B3). split_and!; congruence. Qed.

Lemma same_but_regions_fields s s' : same_but_regions s s' ->
  cache_of s' = cache_of s /\ hpa (obj s') = hpa (obj s) /\ shadow_disable (cpu s') = shadow_disable (cpu s) /\
  nmi_window_is_requested s' = nmi_window_is_requested s /\ (is_active s -> is_active s') /\ vmcs_base (obj s') = vmcs_base (obj s).
Proof.
  intros (Ho & Hc & Hcur). unfold o_set_status in Ho. injection Ho as E1 E2 E3 E4 E5 E6 E7. injection Hc as F1 F2 F3 F4 F5.
  unfold cache_of, nmi_window_is_requested, nmi_is_nmi_occured, is_active, has_flag. rewrite F2, F3, E6.
  split_and!; try done. intros (A1 & A2 & A3 & A4). split_and!; congruence.
Qed.

Lemma same_but_regions_status x s : same_but_regions s (on_obj (o_set_status x) s).
Proof. unfold same_but_regions. by split_and!. Qed.

(** The region after the fields of [l] were written to it. *)
Definition written s (l : list Z) (p e : Z) : Z :=
  match list_find (fun f => enc_of f = e) l with
  | Some (_, f) =>
      match content (cache_of s) f with
      | Some v => if bool_decide (p = hpa (obj s)) && hw_writable f then v mod 2 ^ field_width e else region (hw (cpu s)) p e
      | None => region (hw (cpu s)) p e
      end
  | None => region (hw (cpu s)) p e
  end.

Lemma written_nil s p e : written s [] p e = region (hw (cpu s)) p e.
Proof. done. Qed.

Lemma written_cons s f l p e : written s (f :: l) p e =
  if decide (enc_of f = e) then
    match content (cache_of s) f with
    | Some v => if bool_decide (p = hpa (obj s)) && hw_writable f then v mod 2 ^ field_width e else region (hw (cpu s)) p e
    | None => region (hw (cpu s)) p e
    end
  else written s l p e.
Proof.
  unfold written. cbn [list_find]. destruct (decide (enc_of f = e)); [done|].
  by destruct (list_find (fun f => enc_of f = e) l) as [[i g]|].
Qed.

Lemma write_to_hardware_ok s f v : is_active s -> vmcs_address (hpa (obj s)) = true -> 0 <= f < VMCS_FIELD_COUNT ->
  exists s', vmcs_act_write_to_hardware t s f v = Ok s' /\ same_but_regions s s' /\ obj s' = obj s /\
    forall p e, region (hw (cpu s')) p e =
      if bool_decide (p = hpa (obj s) /\ e = enc_of f) && hw_writable f then v mod 2 ^ field_width e
      else region (hw (cpu s)) p e.
Proof.
  intros (_ & _ & _ & Hc) Hp Hf. unfold vmcs_act_write_to_hardware.
  destruct (get_field_encoding_ok f Hf) as (a & -> & Hw). rewrite bind_Ok. cbn [fst snd].
  destruct (FIELD_IS_HW_WRITABLE a =? 0) eqn:Ea; cbn [negb] in Hw.
  { exists s. rewrite Hw. split; [done|]. split; [done|]. split; [done|]. intros p e. by rewrite andb_false_r. }
  destruct (processor_fields f Hf Hw) as [Hs1 Hs2]. unfold hw_vmx_write_current_vmcs, vmx_vmwrite.
  destruct (vmwrite_law (hw (cpu s)) (enc_of f) v) as (h & -> & Hcur & Hreg); [|done|done|].
  { rewrite Hc. by apply vmcs_address_nonempty. }
  exists (set_hw h s). split; [done|]. split; [by split_and!|]. split; [done|]. intros p e.
  cbn [set_hw cpu hw]. rewrite Hreg, Hc, Hw, andb_true_r.
  case_bool_decide as Hpe; [|done]. destruct Hpe as [_ ->]. done.
Qed.

(** The transaction of the event controls, not interrupted, ends after one round. *)
Lemma flush_nmi_ok fuel s v : is_active s -> vmcs_address (hpa (obj s)) = true ->
  (nmi_window_is_requested s = true -> Z.testbit v NMI_WINDOW_BIT = true) ->
  exists s', vmcs_act_flush_nmi_depended_field_to_cpu t (S fuel) s v = Ok s' /\ same_but_regions s s' /\
    forall p e, region (hw (cpu s')) p e =
      if bool_decide (p = hpa (obj s) /\ e = enc_of VMCS_CONTROL_VECTOR_PROCESSOR_EVENTS) &&
         hw_writable VMCS_CONTROL_VECTOR_PROCESSOR_EVENTS
      then v mod 2 ^ field_width e else region (hw (cpu s)) p e.
Proof.
  intros Ha Hp Hv. cbn [vmcs_act_flush_nmi_depended_field_to_cpu]. unfold flush_nmi_round.
  set (s1 := on_obj (o_set_status UPDATE_SUCCEEDED) s).
  assert ((if nmi_window_is_requested s1 then Z.lor v (Z.shiftl 1 NMI_WINDOW_BIT) else v) = v) as ->.
  { change (nmi_window_is_requested s1) with (nmi_window_is_requested s). destruct (nmi_window_is_requested s); [|done].
    apply Z.bits_inj'. intros n Hn. rewrite Z.lor_spec, Z.shiftl_1_l, Z.pow2_bits_eqb by done.
    destruct (Z.eqb_spec NMI_WINDOW_BIT n) as [<-|]; [by rewrite Hv|apply orb_false_r]. }
  destruct (write_to_hardware_ok s1 VMCS_CONTROL_VECTOR_PROCESSOR_EVENTS v) as (s2 & -> & Hs2 & Ho2 & Hr2); [done|done|done|].
  rewrite bind_Ok, Ho2. cbn [s1 on_obj obj o_set_status update_status]. unfold hw_interlocked_compare_exchange.
  change (UPDATE_SUCCEEDED =? UPDATE_SUCCEEDED) with true. cbv iota. rewrite bind_Ok.
  eexists. split; [done|]. split; [|exact Hr2].
  apply (same_but_regions_trans s s2); [|apply same_but_regions_status].
  apply (same_but_regions_trans s s1); [apply same_but_regions_status|done].
Qed.

Lemma flush_field_ok fuel s f : is_active s -> vmcs_address (hpa (obj s)) = true -> cache_wf (cache_of s) ->
  shadow_disable (cpu s) = false -> 0 <= f < VMCS_FIELD_COUNT ->
  (forall v, content (cache_of s) VMCS_CONTROL_VECTOR_PROCESSOR_EVENTS = Some v -> nmi_window_is_requested s = true ->
     Z.testbit v NMI_WINDOW_BIT = true) ->
  exists s', vmcs_act_flush_field_to_cpu t (S fuel) f s = Ok s' /\ same_but_regions s s' /\
    forall p e, region (hw (cpu s')) p e = written s [f] p e.
Proof.
  intros Ha Hp W Hsh Hf Hv. unfold vmcs_act_flush_field_to_cpu. rewrite Hsh, cache64_read_content by (done || lia).
  rewrite bind_Ok.
  assert (forall s' v, content (cache_of s) f = Some v -> (forall p e, region (hw (cpu s')) p e =
      if bool_decide (p = hpa (obj s) /\ e = enc_of f) && hw_writable f then v mod 2 ^ field_width e
      else region (hw (cpu s)) p e) ->
    forall p e, region (hw (cpu s')) p e = written s [f] p e) as Hreg.
  { intros s' v Ec Hs' p e. rewrite Hs', written_cons, Ec. destruct (decide (enc_of f = e)) as [<-|He].
    - do 2 case_bool_decide; tauto.
    - rewrite bool_decide_false by (intros [_ ?]; congruence). done. }
  destruct (content (cache_of s) f) as [v|] eqn:Ec.
  2:{ exists s. split; [done|]. split; [done|]. intros p e. rewrite written_cons, Ec. by destruct (decide (enc_of f = e)). }
  destruct (Z.eqb_spec f VMCS_CONTROL_VECTOR_PROCESSOR_EVENTS) as [->|Hne]; cbn [negb].
  - destruct (flush_nmi_ok fuel s v Ha Hp) as (s' & E & Hs & Hr); [by apply Hv|].
    exists s'. split; [exact E|]. split; [done|]. by apply (Hreg s' v).
  - destruct (write_to_hardware_ok s f v Ha Hp Hf) as (s' & E & Hs & _ & Hr).
    exists s'. split; [exact E|]. split; [done|]. by apply (Hreg s' v).
Qed.

Lemma written_not_in s l p e : (forall f, f ∈ l -> enc_of f <> e) -> written s l p e = region (hw (cpu s)) p e.
Proof.
  induction l as [|f l IH]; intros Hl; [done|]. rewrite written_cons, decide_False by (apply Hl; left).
  apply IH. intros g Hg. apply Hl. by right.
Qed.

Lemma written_in s l f p : f ∈ l -> (forall g, g ∈ l -> enc_of g = enc_of f -> g = f) ->
  written s l p (enc_of f) =
    match content (cache_of s) f with
    | Some v => if bool_decide (p = hpa (obj s)) && hw_writable f then v mod 2 ^ field_width (enc_of f) else region (hw (cpu s)) p (enc_of f)
    | None => region (hw (cpu s)) p (enc_of f)
    end.
Proof.
  induction l as [|g l IH]; intros Hf Hl; [by apply not_elem_of_nil in Hf|]. rewrite written_cons.
  destruct (decide (enc_of g = enc_of f)) as [He|He].
  - assert (g = f) as -> by (apply Hl; [left|done]). done.
  - apply IH; [|intros x Hx; apply Hl; by right]. apply elem_of_cons in Hf as [->|]; [done|done].
Qed.

(** Fields written one after the other. *)
Lemma flush_fields_ok fuel s l : is_active s -> vmcs_address (hpa (obj s)) = true -> cache_wf (cache_of s) ->
  shadow_disable (cpu s) = false -> (forall f, f ∈ l -> 0 <= f < VMCS_FIELD_COUNT) -> NoDup l ->
  (forall v, content (cache_of s) VMCS_CONTROL_VECTOR_PROCESSOR_EVENTS = Some v -> nmi_window_is_requested s = true ->
     Z.testbit v NMI_WINDOW_BIT = true) ->
  exists s', call_each (vmcs_act_flush_field_to_cpu t (S fuel)) l s = Ok s' /\ same_but_regions s s' /\
    forall p e, region (hw (cpu s')) p e = written s l p e.
Proof.
  revert s. induction l as [|f l IH]; intros s Ha Hp W Hsh Hl Hnd Hv; cbn [call_each]; [by exists s|].
  apply NoDup_cons in Hnd as [Hnf Hnd].
  destruct (flush_field_ok fuel s f Ha Hp W Hsh) as (s1 & -> & Hs1 & Hr1); [apply Hl; left|done|]. rewrite bind_Ok.
  destruct (same_but_regions_fields s s1 Hs1) as (Ec & Eh & Es & En & Eact & _).
  destruct (IH s1) as (s2 & E2 & Hs2 & Hr2); rewrite ?Ec, ?Eh, ?Es, ?En; [by apply Eact|done|done|done| |done|done|].
  { intros g Hg. apply Hl. by right. }
  exists s2. split; [done|]. split; [by apply (same_but_regions_trans s s1)|]. intros p e. rewrite Hr2, written_cons.
  assert (forall g, g ∈ l -> enc_of g = enc_of f -> False) as Hdiff.
  { intros g Hg Heq. apply Hnf. rewrite <- (enc_of_inj g f); [done| | |done]; apply Hl; [by right|left]. }
  destruct (decide (enc_of f = e)) as [<-|He].
  - rewrite written_not_in by (intros g Hg Heq; by apply (Hdiff g)). rewrite Hr1, written_cons, decide_True by done. done.
  - unfold written. rewrite Ec, Eh. assert (region (hw (cpu s1)) p e = region (hw (cpu s)) p e) as Hsame.
    { rewrite Hr1, written_cons, decide_False by done. done. }
    rewrite Hsame. done.
Qed.

(** An update of a field changes the cache only. *)
Lemma act_update_ok s f v mask : act_good s -> 0 <= f < VMCS_FIELD_COUNT -> read_write t f -> supported (enc_of f) = true ->
  fits 64 v -> fits 64 mask ->
  exists c, vmcs_update t s f v mask = Ok (set_cache c s) /\ act_good (set_cache c s) /\
    forall g, content c g = if g =? f then Some (updated (act_view s f) v mask) else content (cache_of s) g.
Proof.
  intros G Hf Ht Hs Hv Hm. unfold vmcs_update, vmcs_read, vmcs_write.
  destruct (read_write_rights t f ltac:(lia) Ht) as [-> ->]. rewrite !bind_Ok.
  rewrite (proj2 (Z.ltb_lt _ _)), !orb_true_r by lia. cbn [andb op_read op_write act_ops actual_ops].
  destruct (act_read_ok s f G Hf Hs) as (c1 & -> & G1 & Hc1). rewrite bind_Ok, bind_Ok, orb_true_r. cbn [op_write act_ops actual_ops].
  destruct (act_write_ok (set_cache c1 s) f (updated (act_view s f) v mask) G1 Hf) as (c2 & E & G2 & Hc2).
  { apply updated_fits; try done. by apply act_view_fits. }
  exists c2. split; [exact E|]. split; [exact G2|]. intros g. rewrite Hc2. change (cache_of (set_cache c1 s)) with c1.
  rewrite Hc1. by destruct (g =? f).
Qed.

Definition NMI_WINDOW : Z := Z.shiftl 1 NMI_WINDOW_BIT.

Lemma updated_ones_lor old : fits 64 old -> updated old UINT64_ALL_ONES NMI_WINDOW = Z.lor old NMI_WINDOW.
Proof.
  intros Ho. apply Z.bits_inj'. intros n Hn. rewrite updated_bits by done. rewrite Z.lor_spec.
  unfold NMI_WINDOW. rewrite Z.shiftl_1_l, Z.pow2_bits_eqb by done.
  destruct (Z.eqb_spec NMI_WINDOW_BIT n) as [<-|]; [by rewrite orb_true_r|by rewrite orb_false_r].
Qed.

(** The first part of a flush: the NMI window. *)
Lemma flush_window_ok s : act_good s -> read_write t VMCS_CONTROL_VECTOR_PROCESSOR_EVENTS ->
  supported (enc_of VMCS_CONTROL_VECTOR_PROCESSOR_EVENTS) = true ->
  exists c, (if nmi_window_is_requested s
             then vmcs_update t s VMCS_CONTROL_VECTOR_PROCESSOR_EVENTS UINT64_ALL_ONES (Z.shiftl 1 NMI_WINDOW_BIT)
             else Ok s) = Ok (set_cache c s) /\ act_good (set_cache c s) /\
    (forall f, content c f = if (f =? VMCS_CONTROL_VECTOR_PROCESSOR_EVENTS) && nmi_window_is_requested s
                             then Some (Z.lor (act_view s f) NMI_WINDOW) else content (cache_of s) f) /\
    (forall v, content c VMCS_CONTROL_VECTOR_PROCESSOR_EVENTS = Some v -> nmi_window_is_requested s = true ->
       Z.testbit v NMI_WINDOW_BIT = true).
Proof.
  intros G Ht Hs. destruct (nmi_window_is_requested s).
  2:{ exists (cache_of s). assert (set_cache (cache_of s) s = s) as -> by (by destruct s as [[] []]).
      split_and!; try done. intros f. by rewrite andb_false_r. }
  destruct (act_update_ok s VMCS_CONTROL_VECTOR_PROCESSOR_EVENTS UINT64_ALL_ONES NMI_WINDOW G ltac:(done) Ht Hs
    ltac:(done) ltac:(done)) as (c & E & G' & Hc).
  exists c. split; [exact E|]. split; [done|]. split.
  - intros f. rewrite Hc, updated_ones_lor, andb_true_r by by apply act_view_fits.
    by destruct (Z.eqb_spec f VMCS_CONTROL_VECTOR_PROCESSOR_EVENTS) as [->|].
  - intros v Hv _. rewrite Hc, Z.eqb_refl, updated_ones_lor in Hv by by apply act_view_fits. injection Hv as <-. unfold NMI_WINDOW.
    rewrite Z.lor_spec, Z.shiftl_1_l, Z.pow2_bits_true by done. apply orb_true_r.
Qed.

(** What a flush of [s] leaves: the regions, and everything else as it was. *)
Definition flush_result s (target : Z -> Z) (s' : active H) : Prop :=
  act_good s' /\ is_active s' /\ (forall f, content (cache_of s') f = content (cache_of s) f) /\
  (forall f, 0 <= f < VMCS_FIELD_COUNT -> act_view s' f = target f) /\
  hpa (obj s') = hpa (obj s) /\ vmcs_base (obj s') = vmcs_base (obj s) /\
  nmi_window_is_requested s' = nmi_window_is_requested s /\
  (forall f, 0 <= f < VMCS_FIELD_COUNT -> hw_writable f = true ->
     region (hw (cpu s')) (hpa (obj s)) (enc_of f) = target f mod 2 ^ field_width (enc_of f)) /\
  (forall p e, p <> hpa (obj s) \/ (forall f, 0 <= f < VMCS_FIELD_COUNT -> hw_writable f = true -> enc_of f <> e) ->
     region (hw (cpu s')) p e = region (hw (cpu s)) p e).

(** Nothing is dirty: the hardware already has every cached field. *)
Lemma flush_clean s : act_good s -> is_active s -> cache64_is_dirty (cache_of s) = false -> flush_result s (act_view s) s.
Proof.
  intros G Ha Hd. split_and!; try done. intros f Hf Hw. unfold act_view.
  destruct (content (cache_of s) f) as [v|] eqn:Ec.
  - destruct (ag_sync _ G f v Hf Hw Ec) as [[_ Hp]|[_ Hi]]; [congruence|exact Hi].
  - destruct Ha as (_ & -> & _). by rewrite region_small.
Qed.

(** The dirty fields are written. *)
Lemma flush_dirty fuel s : act_good s -> is_active s ->
  (forall v, content (cache_of s) VMCS_CONTROL_VECTOR_PROCESSOR_EVENTS = Some v -> nmi_window_is_requested s = true ->
     Z.testbit v NMI_WINDOW_BIT = true) ->
  exists s', cache64_flush_dirty cache_of set_cache CACHE_ALL_ENTRIES (Some (vmcs_act_flush_field_to_cpu t (S fuel))) s = Ok s' /\
    flush_result s (act_view s) s'.
Proof.
  intros G Ha Hv. pose proof G as [(W & Hn & Hfit & Hfl) Hsh Hadr Hm Hsync].
  rewrite cache64_flush_all by (try done; rewrite Hn; done).
  set (l := dirty_fields (cache_of s)). set (fl := Z.land (flags (cache_of s)) (u16 (Z.lnot CACHE_DIRTY_FLAG))).
  set (s1 := set_cache (set_flags fl (cache_of s)) s).
  assert (forall f, f ∈ l -> 0 <= f < VMCS_FIELD_COUNT) as Hl.
  { intros f Hf. apply elem_of_dirty_fields in Hf as [He _]. unfold entry in He. lia. }
  destruct (flush_fields_ok fuel s1 l) as (s2 & E & Hs2 & Hr); try done; [by apply set_flags_wf|apply dirty_fields_NoDup|].
  exists s2. split; [done|]. destruct (same_but_regions_fields s1 s2 Hs2) as (Ec & Eh & Es & En & Eact & Eb).
  change (hpa (obj s1)) with (hpa (obj s)) in *. change (cache_of s1) with (set_flags fl (cache_of s)) in Ec.
  assert (forall f, content (cache_of s2) f = content (cache_of s) f) as Hcont by (intros f; by rewrite Ec).
  assert (forall f, 0 <= f < VMCS_FIELD_COUNT -> hw_writable f = true ->
    region (hw (cpu s2)) (hpa (obj s)) (enc_of f) = act_view s f mod 2 ^ field_width (enc_of f)) as Hhw.
  { intros f Hf Hw. rewrite Hr. destruct (decide (f ∈ l)) as [Hin|Hout].
    - rewrite written_in by (try done; intros g Hg Heq; apply enc_of_inj; (done || by apply Hl)).
      change (content (cache_of s1) f) with (content (cache_of s) f). unfold act_view.
      destruct (content (cache_of s) f); [by rewrite bool_decide_true, Hw|]. destruct Ha as (_ & -> & _). by rewrite region_small.
    - rewrite written_not_in by (intros g Hg Heq; apply Hout; by rewrite <- (enc_of_inj g f (Hl g Hg) Hf Heq)).
      unfold act_view. change (hw (cpu s1)) with (hw (cpu s)).
      destruct (content (cache_of s) f) as [v|] eqn:Ecf; [|destruct Ha as (_ & -> & _); by rewrite region_small].
      destruct (Hsync f v Hf Hw Ecf) as [[Hd _]|[_ Hi]]; [|exact Hi].
      exfalso. apply Hout. apply elem_of_dirty_fields. split; [unfold entry; lia|done]. }
  assert (forall p e, p <> hpa (obj s) \/ (forall f, 0 <= f < VMCS_FIELD_COUNT -> hw_writable f = true -> enc_of f <> e) ->
    region (hw (cpu s2)) p e = region (hw (cpu s)) p e) as Hframe.
  { intros p e Hpe. rewrite Hr. clearbody l. clear -Hpe Hl. induction l as [|f l IH]; [done|]. rewrite written_cons.
    destruct (decide (enc_of f = e)) as [He|]; [|apply IH; intros g Hg; apply Hl; by right].
    destruct (content (cache_of s1) f); [|done]. destruct Hpe as [Hp|Hw]; [by rewrite bool_decide_false|].
    destruct (hw_writable f) eqn:Ew; [|by rewrite andb_false_r]. exfalso. apply (Hw f); [apply Hl; left|done|done]. }
  split; [|split; [by apply Eact|split; [done|split; [|split_and!; done]]]].
  - split; [|by rewrite Es|by rewrite Eh|left; by apply Eact|].
    + rewrite Ec. split; [by apply set_flags_wf|]. split; [done|]. split; [exact Hfit|]. apply Z.land_nonneg. by left.
    + intros f v Hf Hw Hc. rewrite Hcont in Hc. right. split; [by apply Eact|]. unfold in_hardware. rewrite Eh, Hhw by done.
      unfold act_view. by rewrite Hc.
  - intros f Hf. unfold act_view. rewrite Hcont. destruct (content (cache_of s) f) as [v|] eqn:Ecf; [done|].
    destruct (Eact Ha) as (_ & -> & _). destruct Ha as (Ha1 & Ha2 & Ha3 & Ha4). rewrite Ha2, Eh.
    destruct (hw_writable f) eqn:Ew.
    + rewrite Hhw by done. unfold act_view. by rewrite Ecf, Ha2, region_small.
    + rewrite Hframe; [done|]. right. intros g Hg Hw He. rewrite (enc_of_inj g f Hg Hf He) in Hw. congruence.
Qed.

(** A flush of the active VMCS: the event controls get the NMI window when one is requested, and what the
    clients of the object see is then in the hardware. *)
Lemma flush_to_cpu_ok fuel s : act_good s -> is_active s ->
  read_write t VMCS_CONTROL_VECTOR_PROCESSOR_EVENTS ->
  supported (enc_of VMCS_CONTROL_VECTOR_PROCESSOR_EVENTS) = true ->
  exists c s', vmcs_act_flush_to_cpu t (S fuel) s = Ok s' /\
    flush_result (set_cache c s) (act_view (set_cache c s)) s' /\
    (forall f, content c f = if (f =? VMCS_CONTROL_VECTOR_PROCESSOR_EVENTS) && nmi_window_is_requested s
                             then Some (Z.lor (act_view s f) NMI_WINDOW) else content (cache_of s) f).
Proof.
  intros G Ha Ht Hs. unfold vmcs_act_flush_to_cpu.
  destruct (flush_window_ok s G Ht Hs) as (c & E & G1 & Hc & Hbit). unfold act_ops in E. rewrite E, bind_Ok. exists c.
  assert (is_active (set_cache c s)) as Ha1 by exact Ha.
  destruct (cache64_is_dirty (cache_of (set_cache c s))) eqn:Ed.
  - destruct (flush_dirty fuel (set_cache c s) G1 Ha1 Hbit) as (s' & -> & R). by exists s'.
  - exists (set_cache c s). split; [done|]. split; [by apply flush_clean|done].
Qed.
End Spec.

(** * A processor *)

(** It has every field and lets software write all of them. *)
Module Sample.
Record processor := mk_proc { cur : Z; fields : gmap (Z * Z) Z }.

Definition field (h : processor) (p e : Z) : Z := default 0 (fields h !! (p, e)) mod 2 ^ field_width e.

#[global] Instance proc_vmx : Vmx processor := {
  i_vmread h e := if cur h =? HW_VMCS_IS_EMPTY then (VMfailInvalid, 0) else (VMsucceed, field h (cur h) e);
  i_vmwrite h e v := if cur h =? HW_VMCS_IS_EMPTY then (VMfailInvalid, h)
                     else (VMsucceed, mk_proc (cur h) (<[(cur h, e) := v]> (fields h)));
  i_vmptrld h p := (VMsucceed, mk_proc p (fields h));
  i_vmclear h p := (VMsucceed, mk_proc (if cur h =? p then HW_VMCS_IS_EMPTY else cur h) (fields h))
}.

#[global] Instance proc_laws : VmxLaws processor.
Proof.
  refine {| current := cur; region := field; supported := fun _ => true; settable := fun _ => true;
            vmcs_address := fun p => p <? 2 ^ 52 |}.
  - intros p Hp ->. done.
  - intros h p e. unfold field, fits. apply Z.mod_pos_bound, Z.pow_pos_nonneg; [done|]. pose proof (field_width_range e). lia.
  - intros h e Hc _. cbn. by rewrite (proj2 (Z.eqb_neq _ _) Hc).
  - intros h e v Hc _ _. cbn. rewrite (proj2 (Z.eqb_neq _ _) Hc). eexists. split; [done|]. split; [done|]. intros p e'.
    unfold field. cbn [fields cur]. case_bool_decide as E.
    + destruct E as [-> ->]. by rewrite lookup_insert_eq.
    + rewrite lookup_insert_ne by (intros [= ? ?]; subst; by apply E). done.
  - intros h p _. eexists. by split_and!.
  - intros h p _. eexists. by split_and!.
Defined.
End Sample.
