(* ===== verification/VmcsNmi.v ===== *)
(** vmx/vmcs_actual.c: the transaction that writes the event controls while NMIs may arrive.

    [vmcs_act_flush_nmi_depended_field_to_cpu] is cut into single memory accesses and instructions,
    the compare-exchange of machinesupport.c included; an NMI can be taken between any two of them,
    and its handler, [vmcs_nmi_handler], then runs to its end. *)

From S2P Require Import Prelude VmmDefs Lock Cache64 VmcsFields Vmcs VmcsActual VmcsActualSpec.

(** * Steps *)

(** The next access: the status is reset; FS is tested, then nmi_window; the field is written; the
    compare-exchange loads [old], loads edx and stores it back. *)
Inductive flush_pc :=
| FStart
| FTestFs
| FTestWindow
| FWrite
| FCasOld
| FCasLoad (old : Z)
| FCasStore (old edx : Z)
| FDone.

#[global] Instance flush_pc_eq_dec : EqDecision flush_pc.
Proof. solve_decision. Defined.

Section Steps.
Context {H : Type} `{Vmx H} (t : list VMCS_ENCODING).
Implicit Types s : active H.

Record transaction := mk_trans { at_pc : flush_pc; val : Z; on : active H }.

Definition set_window_bit (v : Z) : Z := Z.lor v (Z.shiftl 1 NMI_WINDOW_BIT).

Definition flush_step (x : transaction) : outcome transaction :=
  let v := val x in
  let s := on x in
  match at_pc x with
  | FStart => Ok (mk_trans FTestFs v (on_obj (o_set_status UPDATE_SUCCEEDED) s))
  | FTestFs => Ok (if nmi_is_nmi_occured s then mk_trans FWrite (set_window_bit v) s else mk_trans FTestWindow v s)
  | FTestWindow => Ok (mk_trans FWrite (if nmi_window (cpu s) then set_window_bit v else v) s)
  | FWrite => s ← vmcs_act_write_to_hardware t s VMCS_CONTROL_VECTOR_PROCESSOR_EVENTS v; Ok (mk_trans FCasOld v s)
  | FCasOld => Ok (mk_trans (FCasLoad (update_status (obj s))) v s)
  | FCasLoad old =>
      let edx := update_status (obj s) in
      Ok (mk_trans (FCasStore old (if edx =? UPDATE_SUCCEEDED then UPDATE_FINISHED else edx)) v s)
  | FCasStore old edx =>
      Ok (mk_trans (if old =? UPDATE_SUCCEEDED then FDone else FStart) v (on_obj (o_set_status edx) s))
  | FDone => Ok x
  end.

Definition nmi_step (x : transaction) : outcome transaction :=
  s ← vmcs_nmi_handler t (on x); Ok (mk_trans (at_pc x) (val x) s).

(** Executions with their numbers of steps of the transaction and of NMIs. *)
Inductive flush_run (x : transaction) : nat -> nat -> transaction -> Prop :=
| run_here : flush_run x 0 0 x
| run_step n m y z : flush_run x n m y -> at_pc y <> FDone -> flush_step y = Ok z -> flush_run x (S n) m z
| run_nmi n m y z : flush_run x n m y -> nmi_step y = Ok z -> flush_run x n (S m) z.
End Steps.
Arguments transaction H : clear implicits.

(** Not interrupted, seven steps are a round of the function, whichever way the tests go. *)
Fixpoint flush_steps {H} `{Vmx H} (t : list VMCS_ENCODING) (n : nat) (x : transaction H) : outcome (transaction H) :=
  match n with O => Ok x | S n => y ← flush_step t x; if decide (at_pc y = FDone) then Ok y else flush_steps t n y end.

Lemma write_to_hardware_obj {H} `{Vmx H} (t : list VMCS_ENCODING) (s : active H) f v s' :
  vmcs_act_write_to_hardware t s f v = Ok s' -> obj s' = obj s.
Proof.
  unfold vmcs_act_write_to_hardware. destruct (vmcs_get_field_encoding t f) as [[e [a|]]| |]; try done. rewrite bind_Ok. cbn [fst snd].
  destruct (_ =? 0); [by intros [= <-]|]. destruct (hw_vmx_write_current_vmcs _ _ _). by intros [= <-].
Qed.

Lemma flush_steps_next {H} `{Vmx H} (t : list VMCS_ENCODING) n (x y : transaction H) :
  flush_step t x = Ok y -> at_pc y <> FDone -> flush_steps t (S n) x = flush_steps t n y.
Proof. intros E Hy. cbn [flush_steps]. rewrite E, bind_Ok. by rewrite decide_False. Qed.

Lemma flush_steps_round {H} `{Vmx H} (t : list VMCS_ENCODING) (s : active H) v v' s' :
  flush_nmi_round t s v = Ok (true, v', s') -> flush_steps t 7 (mk_trans FStart v s) = Ok (mk_trans FDone v' s').
Proof.
  unfold flush_nmi_round. set (s1 := on_obj _ s). fold (set_window_bit v). intros E. change (flush_steps t 7 (mk_trans FStart v s))
    with (flush_steps t 6 (mk_trans FTestFs v s1)).
  set (v1 := if nmi_window_is_requested s1 then set_window_bit v else v) in E.
  destruct (vmcs_act_write_to_hardware t s1 VMCS_CONTROL_VECTOR_PROCESSOR_EVENTS v1) as [s2| |] eqn:Ew; try done.
  rewrite bind_Ok, (write_to_hardware_obj t s1 _ v1 s2 Ew) in E.
  cbn [s1 on_obj obj o_set_status update_status] in E. unfold hw_interlocked_compare_exchange in E.
  change (UPDATE_SUCCEEDED =? UPDATE_SUCCEEDED) with true in E. injection E as <- <-.
  assert (forall k, flush_steps t (4 + k) (mk_trans FWrite v1 s1) = Ok (mk_trans FDone v1 (on_obj (o_set_status UPDATE_FINISHED) s2))) as Hw.
  { intros k. cbn [Nat.add].
    rewrite (flush_steps_next t _ _ (mk_trans FCasOld v1 s2)) by (done || by cbn [flush_step at_pc val on]; rewrite Ew).
    rewrite (flush_steps_next t _ _ (mk_trans (FCasLoad (update_status (obj s2))) v1 s2)) by done.
    rewrite (flush_steps_next t _ _ (mk_trans (FCasStore (update_status (obj s2)) (if update_status (obj s2) =? UPDATE_SUCCEEDED
      then UPDATE_FINISHED else update_status (obj s2))) v1 s2)) by done.
    by rewrite (write_to_hardware_obj t s1 _ v1 s2 Ew). }
  unfold v1, nmi_window_is_requested in *. destruct (nmi_is_nmi_occured s1) eqn:Eo; cbn [orb] in *.
  - rewrite (flush_steps_next t _ _ (mk_trans FWrite (set_window_bit v) s1)); [exact (Hw 1%nat)| |done].
    cbn [flush_step at_pc val on]. by rewrite Eo.
  - rewrite (flush_steps_next t _ _ (mk_trans FTestWindow v s1)); [| |done]; [|cbn [flush_step at_pc val on]; by rewrite Eo].
    rewrite (flush_steps_next t _ _ (mk_trans FWrite (if nmi_window (cpu s1) then set_window_bit v else v) s1)) by done.
    exact (Hw 0%nat).
Qed.

(** * The NMI window is not lost *)

Section Nmi.
Context {H : Type} `{VmxLaws H} (t : list VMCS_ENCODING).
Implicit Types s : active H.
Context (table_shape : shape t = shape g_field_data_init).
Context (processor_fields : forall f, 0 <= f < VMCS_FIELD_COUNT -> hw_writable t f = true ->
  supported (enc_of t f) = true /\ settable (enc_of t f) = true).
Context (events_writable : hw_writable t VMCS_CONTROL_VECTOR_PROCESSOR_EVENTS = true).

Abbreviation EVENTS := (enc_of t VMCS_CONTROL_VECTOR_PROCESSOR_EVENTS).

(** The controls the processor should have: the value to be written, with the window when an NMI waits. *)
Definition wanted (v : Z) s : Z := if nmi_window_is_requested s then set_window_bit v else v.
Definition controls s : Z := region (hw (cpu s)) (hpa (obj s)) EVENTS.
Definition has_wanted (v : Z) s : Prop := controls s = wanted v s mod 2 ^ field_width EVENTS.

Lemma set_window_bit_idem v : set_window_bit (set_window_bit v) = set_window_bit v.
Proof. unfold set_window_bit. by rewrite <- Z.lor_assoc, Z.lor_diag. Qed.

Lemma set_window_bit_mod v w : 0 <= w -> set_window_bit (v mod 2 ^ w) mod 2 ^ w = set_window_bit v mod 2 ^ w.
Proof.
  intros Hw. apply Z.bits_inj'. intros n Hn. unfold set_window_bit. rewrite <- !Z.land_ones, !Z.land_spec, !Z.lor_spec, Z.land_spec by done.
  destruct (Z.testbit (Z.ones w) n); [by rewrite !andb_true_r|by rewrite !andb_false_r].
Qed.

(** The object is the current VMCS, at the address of [s0], and the regions but the field are those of [s0]. *)
Record steady s0 s : Prop := {
  st_active : is_active s;
  st_hpa : hpa (obj s) = hpa (obj s0);
  st_frame : forall p e, ~ (p = hpa (obj s0) /\ e = EVENTS) -> region (hw (cpu s)) p e = region (hw (cpu s0)) p e
}.

Lemma steady_write s0 s v : vmcs_address (hpa (obj s0)) = true -> steady s0 s ->
  exists s', vmcs_act_write_to_hardware t s VMCS_CONTROL_VECTOR_PROCESSOR_EVENTS v = Ok s' /\ steady s0 s' /\
    same_but_regions s s' /\ obj s' = obj s /\ controls s' = v mod 2 ^ field_width EVENTS.
Proof.
  intros Hp [Ha Hh Hf].
  destruct (write_to_hardware_ok t table_shape processor_fields s VMCS_CONTROL_VECTOR_PROCESSOR_EVENTS v Ha)
    as (s' & E & Hs & Ho & Hr); [by rewrite Hh|done|].
  rewrite Hh, events_writable in Hr. exists s'. split; [done|]. split; [|split; [done|split; [done|]]].
  - destruct (same_but_regions_fields s s' Hs) as (_ & Eh & _ & _ & Eact & _). split; [by apply Eact|by rewrite Eh|].
    intros p e Hpe. rewrite Hr, bool_decide_false by done. by apply Hf.
  - unfold controls. by rewrite Hr, Ho, Hh, bool_decide_true.
Qed.

(** The handler asks for the window, spoils the transaction and sets the window in the field. *)
Lemma nmi_handler_ok s0 s : vmcs_address (hpa (obj s0)) = true -> steady s0 s ->
  exists s', vmcs_nmi_handler t s = Ok s' /\ steady s0 s' /\ nmi_is_nmi_occured s' = true /\
    update_status (obj s') = UPDATE_FAILED /\ controls s' = set_window_bit (controls s) mod 2 ^ field_width EVENTS.
Proof.
  intros Hp Hst. unfold vmcs_nmi_handler. set (s1 := on_obj _ (nmi_remember_occured_nmi s)).
  assert (steady s0 s1) as Hst1 by (destruct Hst; by split).
  destruct (processor_fields VMCS_CONTROL_VECTOR_PROCESSOR_EVENTS ltac:(done) events_writable) as [Hsup _].
  rewrite (read_from_hardware_ok t table_shape s1 _ (st_active _ _ Hst1)) by (done || by rewrite (st_hpa _ _ Hst1)). rewrite bind_Ok.
  destruct (steady_write s0 s1 (set_window_bit (controls s)) Hp Hst1) as (s' & E & Hst' & Hs & Ho & Hc).
  exists s'. split; [exact E|]. split; [done|]. split; [|by rewrite Ho].
  unfold nmi_is_nmi_occured. destruct Hs as (_ & Hs & _). injection Hs as _ E2 _ _ _. by rewrite E2.
Qed.

(** The invariant, by what is still to be done. A transaction whose status is not spoilt has seen every NMI. *)
Definition flush_inv (v0 : Z) s0 (x : transaction H) : Prop :=
  let s := on x in
  steady s0 s /\
  (val x = v0 \/ val x = set_window_bit v0 /\ nmi_window_is_requested s = true) /\
  match at_pc x with
  | FStart | FTestFs => True
  | FTestWindow => update_status (obj s) = UPDATE_SUCCEEDED -> nmi_is_nmi_occured s = false
  | FWrite => update_status (obj s) = UPDATE_SUCCEEDED -> val x = wanted v0 s
  | FCasOld => update_status (obj s) = UPDATE_SUCCEEDED -> has_wanted v0 s
  | FCasLoad old | FCasStore old _ => old = UPDATE_SUCCEEDED -> has_wanted v0 s
  | FDone => has_wanted v0 s
  end.

Lemma flush_inv_nmi v0 s0 x : vmcs_address (hpa (obj s0)) = true -> flush_inv v0 s0 x ->
  exists y, nmi_step t x = Ok y /\ at_pc y = at_pc x /\ update_status (obj (on y)) = UPDATE_FAILED /\ flush_inv v0 s0 y.
Proof.
  intros Hp (Hst & Hv & Hpc). unfold nmi_step.
  destruct (nmi_handler_ok s0 (on x) Hp Hst) as (s' & -> & Hst' & Hocc & Hsp & Hc). rewrite bind_Ok.
  exists (mk_trans (at_pc x) (val x) s'). split; [done|]. split; [done|]. split; [done|]. cbn [on].
  assert (nmi_window_is_requested s' = true) as Hreq by (unfold nmi_window_is_requested; by rewrite Hocc).
  assert (has_wanted v0 (on x) -> has_wanted v0 s') as Hkeep.
  { unfold has_wanted. intros Hw. rewrite Hc, Hw, set_window_bit_mod by (pose proof (field_width_range EVENTS); lia).
    unfold wanted. rewrite Hreq. destruct (nmi_window_is_requested (on x)); [by rewrite set_window_bit_idem|done]. }
  split; [done|]. split; [cbn [val on]; rewrite Hreq; tauto|].
  cbn [at_pc val on]. rewrite Hsp. destruct (at_pc x); try done; auto.
Qed.

Lemma flush_inv_step v0 s0 x : vmcs_address (hpa (obj s0)) = true -> flush_inv v0 s0 x ->
  exists y, flush_step t x = Ok y /\ flush_inv v0 s0 y.
Proof.
  intros Hp (Hst & Hv & Hpc). destruct x as [pc v s]. unfold flush_step, flush_inv in *. cbn [at_pc val on] in *.
  assert (forall st, steady s0 (on_obj (o_set_status st) s)) as Hstat by (intros; destruct Hst; by split).
  assert (nmi_window_is_requested s = true -> set_window_bit v = wanted v0 s) as Hset.
  { intros Hr. unfold wanted. rewrite Hr. destruct Hv as [->|[-> _]]; [done|apply set_window_bit_idem]. }
  destruct pc as [| | | | |old|old edx|].
  - eexists. split; [done|]. split; [apply Hstat|]. split; [exact Hv|done].
  - eexists. split; [done|]. destruct (nmi_is_nmi_occured s) eqn:Eo; cbn [at_pc val on]; [|by split_and!].
    assert (nmi_window_is_requested s = true) as Hr by (unfold nmi_window_is_requested; by rewrite Eo).
    split_and!; [done| |by intros; apply Hset]. right. rewrite Hset by done. unfold wanted. by rewrite Hr.
  - eexists. split; [done|]. cbn [at_pc val on]. unfold wanted, nmi_window_is_requested in *. destruct (nmi_window (cpu s)) eqn:Ew.
    + rewrite orb_true_r in *. split_and!; [done| |intros _; exact (Hset eq_refl)]. right. split; [exact (Hset eq_refl)|done].
    + split_and!; [done|done|]. intros Hs. rewrite (Hpc Hs) in *. by destruct Hv as [->|[_ ?]].
  - destruct (steady_write s0 s v Hp Hst) as (s' & -> & Hst' & Hs & Ho & Hc). rewrite bind_Ok.
    eexists. split; [done|]. cbn [at_pc val on].
    destruct (same_but_regions_fields s s' Hs) as (_ & _ & _ & Er & _). rewrite Er, Ho.
    split_and!; [done|done|]. intros Hu. unfold has_wanted, wanted. rewrite Er, Hc. by rewrite (Hpc Hu).
  - eexists. split; [done|]. by split_and!.
  - eexists. split; [done|]. by split_and!.
  - eexists. split; [done|]. destruct (Z.eqb_spec old UPDATE_SUCCEEDED) as [Ho|]; cbn [at_pc val on]; split_and!; try done.
    by apply Hpc.
  - by eexists.
Qed.

(** * The transaction ends *)

(** Steps to the end if no further NMI comes. *)
Definition spoilt (st : Z) : nat := if st =? UPDATE_SUCCEEDED then 0 else 7.
Definition steps_left (x : transaction H) : nat :=
  let status := update_status (obj (on x)) in
  match at_pc x with
  | FStart => 7
  | FTestFs => 6 + spoilt status
  | FTestWindow => 5 + spoilt status
  | FWrite => 4 + spoilt status
  | FCasOld => 3 + spoilt status
  | FCasLoad old => 2 + spoilt old
  | FCasStore old _ => 1 + spoilt old
  | FDone => 0
  end.

Lemma steps_left_step x y : at_pc x <> FDone -> flush_step t x = Ok y -> (steps_left y < steps_left x)%nat.
Proof.
  intros Hx. destruct x as [pc v s]. unfold flush_step. cbn [at_pc val on] in *.
  destruct pc as [| | | | |old|old edx|]; try done.
  4:{ destruct (vmcs_act_write_to_hardware t s VMCS_CONTROL_VECTOR_PROCESSOR_EVENTS v) as [s'| |] eqn:E; try done.
      rewrite bind_Ok. intros [= <-]. unfold steps_left. cbn [at_pc on]. rewrite (write_to_hardware_obj t s _ _ s' E). lia. }
  all: intros [= <-]; unfold steps_left; cbn [at_pc on]; try lia; try (cbn [on_obj obj o_set_status update_status]; cbn; lia).
  - destruct (nmi_is_nmi_occured s); cbn [at_pc on]; lia.
  - unfold spoilt. destruct (old =? UPDATE_SUCCEEDED); cbv iota; lia.
Qed.

Lemma steps_left_nmi x y : at_pc y = at_pc x -> update_status (obj (on y)) = UPDATE_FAILED ->
  (steps_left y <= steps_left x + 7)%nat.
Proof. intros E1 E2. unfold steps_left, spoilt. rewrite E1, E2. cbn. destruct (at_pc x); repeat case_match; lia. Qed.

Lemma flush_run_inv v s n m x : vmcs_address (hpa (obj s)) = true -> is_active s ->
  flush_run t (mk_trans FStart v s) n m x -> flush_inv v s x /\ (n + steps_left x <= 7 * S m)%nat.
Proof.
  intros Hp Ha Hrun. induction Hrun as [|n m y z Hrun [Hinv Hn] Hpc Hz|n m y z Hrun [Hinv Hn] Hz].
  - split; [|done]. by split_and!; [split|left|].
  - destruct (flush_inv_step v s y Hp Hinv) as (z' & E & Hinv'). rewrite Hz in E. injection E as <-.
    split; [done|]. pose proof (steps_left_step y z Hpc Hz). lia.
  - destruct (flush_inv_nmi v s y Hp Hinv) as (z' & E & Hpc & Hst & Hinv'). rewrite Hz in E. injection E as <-.
    split; [done|]. pose proof (steps_left_nmi y z Hpc Hst). lia.
Qed.

(** C18. The transaction that writes the event controls withstands NMIs at any of its steps. Each NMI adds at
    most one more round of seven steps; the code and the handler never fault, so it goes on until it is
    done. Then the processor has the value to be written, with the NMI window set when an NMI has
    come before, between, or after the steps or was already waiting; nothing else in a VMCS region has
    changed. *)
Theorem nmi_window_not_lost v s n m x : vmcs_address (hpa (obj s)) = true -> is_active s ->
  flush_run t (mk_trans FStart v s) n m x ->
  (n <= 7 * S m)%nat /\
  (exists y, nmi_step t x = Ok y) /\
  match at_pc x with
  | FDone => has_wanted v (on x) /\ steady s (on x)
  | _ => exists y, flush_step t x = Ok y
  end.
Proof.
  intros Hp Ha Hrun. destruct (flush_run_inv v s n m x Hp Ha Hrun) as [Hinv Hn]. split; [lia|].
  destruct (flush_inv_nmi v s x Hp Hinv) as (y & Hy & _). split; [by exists y|].
  destruct (flush_inv_step v s x Hp Hinv) as (z & Hz & _). destruct Hinv as (Hst & _ & Hpc).
  destruct (at_pc x); try (by exists z). done.
Qed.
End Nmi.

(** * Schedules *)

(** Where NMIs come ([true]) among the steps of the transaction. *)
Fixpoint scheduled {H} `{Vmx H} (t : list VMCS_ENCODING) (nmis : list bool) (x : transaction H) : outcome (transaction H) :=
  match nmis with
  | [] => Ok x
  | b :: nmis =>
      x ← (if (b : bool) then nmi_step t x else if decide (at_pc x = FDone) then Fault else flush_step t x);
      scheduled t nmis x
  end.

Lemma scheduled_run {H} `{Vmx H} (t : list VMCS_ENCODING) nmis (x0 : transaction H) n m x y :
  flush_run t x0 n m x -> scheduled t nmis x = Ok y ->
  flush_run t x0 (n + length (filter (fun b => b = false) nmis)) (m + length (filter (fun b => b = true) nmis)) y.
Proof.
  revert n m x. induction nmis as [|b nmis IH]; intros n m x Hr E; cbn [scheduled] in E.
  { injection E as <-. by rewrite !Nat.add_0_r. }
  destruct b; ostep E.
  - rewrite filter_cons_False, filter_cons_True by done. cbn [length]. rewrite Nat.add_succ_r, <- Nat.add_succ_l.
    eapply IH; [|exact E]. by eapply run_nmi.
  - destruct (decide (at_pc x = FDone)); [done|].
    rewrite filter_cons_True, filter_cons_False by done. cbn [length]. rewrite Nat.add_succ_r, <- Nat.add_succ_l.
    eapply IH; [|exact E]. by eapply run_step.
Qed.

(** The event controls are to be 0x84006172. An NMI comes between the tests and the write, and spoils the
    round; another one comes between the two loads of the compare-exchange of the second round. *)
Definition nmi_object : VMCS_ACTUAL_OBJECT :=
  mk_actual (mk_vmcs VMCS_MERGED false 0 0 0) (mk_cache 0 0 0 [] [] []) 4096 8192 1 0 ACTIVATED_FLAG 0.
Definition nmi_cpu : host_cpu Sample.processor := mk_cpu 0 (Sample.mk_proc 4096 ∅) 0 false false false.
Definition nmi_active : active Sample.processor := mk_active nmi_object nmi_cpu.
Definition nmi_schedule : list bool :=
  [false; false; false; true; false; false; false; false; false; false; false; false; true; false; false].

Lemma nmi_window_not_lost_witness : exists x, scheduled g_field_data_init nmi_schedule (mk_trans FStart 0x84006172 nmi_active) = Ok x /\
  at_pc x = FDone /\ controls g_field_data_init (on x) = 0x84406172 /\ has_wanted g_field_data_init 0x84006172 (on x).
Proof.
  destruct (scheduled g_field_data_init nmi_schedule (mk_trans FStart 0x84006172 nmi_active)) as [x| |] eqn:E;
    [|vm_compute in E; discriminate E|vm_compute in E; discriminate E].
  exists x. split; [reflexivity|].
  pose proof (scheduled_run g_field_data_init nmi_schedule _ 0 0 _ x (run_here g_field_data_init _) E) as Hr.
  pose proof (nmi_window_not_lost g_field_data_init eq_refl (fun f _ _ => conj eq_refl eq_refl) eq_refl 0x84006172 nmi_active
    _ _ x eq_refl ltac:(vm_compute; repeat split; discriminate) Hr) as (_ & _ & Hx).
  assert (at_pc x = FDone) as Hd by (vm_compute in E; injection E as <-; reflexivity).
  rewrite Hd in Hx. destruct Hx as [Hw _]. split; [exact Hd|]. split; [|exact Hw].
  vm_compute in E. injection E as <-. vm_compute. reflexivity.
Defined.
