(* ===== verification/VmcsLife.v ===== *)
(** vmx/vmcs_actual.c: the life of a VMCS object, from its creation over its activation to the flush
    before a VM entry, refines a memory of fields. *)

From S2P Require Import Prelude VmmDefs Lock Cache64 VmcsFields Vmcs VmcsActual VmcsActualSpec.

(** * Clients *)

(** What the clients of an object do. *)
Inductive vmcs_cmd :=
| CRead (field : Z)
| CWrite (field value : Z)
| CUpdate (field value bits_to_update : Z)
| CFlush.

Definition exec {H} `{Vmx H} (t : list VMCS_ENCODING) (fuel : nat) (s : active H) (c : vmcs_cmd) : outcome (list Z * active H) :=
  match c with
  | CRead f => r ← vmcs_read (H := actual_ops t) t s f; Ok ([r.1], r.2)
  | CWrite f v => s ← vmcs_write (H := actual_ops t) t s f v; Ok ([], s)
  | CUpdate f v m => s ← vmcs_update (H := actual_ops t) t s f v m; Ok ([], s)
  | CFlush => s ← vmcs_act_flush_to_cpu t fuel s; Ok ([], s)
  end.

(** The values read, and the object. *)
Fixpoint exec_all {H} `{Vmx H} (t : list VMCS_ENCODING) (fuel : nat) (s : active H) (cs : list vmcs_cmd) : outcome (list Z * active H) :=
  match cs with
  | [] => Ok ([], s)
  | c :: cs => r ← exec t fuel s c; r' ← exec_all t fuel r.2 cs; Ok (r.1 ++ r'.1, r'.2)
  end.

(** * The memory of fields *)

(** The fields that were used, over what the others hold. *)
Definition memory : Type := Z -> option Z.
Definition seen (rest : Z -> Z) (m : memory) (f : Z) : Z := default (rest f) (m f).
Definition put (f v : Z) (m : memory) : memory := fun g => if g =? f then Some v else m g.

Definition spec (rest : Z -> Z) (nmi : bool) (m : memory) (c : vmcs_cmd) : list Z * memory :=
  match c with
  | CRead f => ([seen rest m f], put f (seen rest m f) m)
  | CWrite f v => ([], put f v m)
  | CUpdate f v bits => ([], put f (updated (seen rest m f) v bits) m)
  | CFlush => ([], if nmi then put VMCS_CONTROL_VECTOR_PROCESSOR_EVENTS
                                 (Z.lor (seen rest m VMCS_CONTROL_VECTOR_PROCESSOR_EVENTS) NMI_WINDOW) m
                   else m)
  end.

Fixpoint spec_all (rest : Z -> Z) (nmi : bool) (m : memory) (cs : list vmcs_cmd) : list Z * memory :=
  match cs with
  | [] => ([], m)
  | c :: cs => let '(r, m) := spec rest nmi m c in let '(r', m) := spec_all rest nmi m cs in (r ++ r', m)
  end.

(** The memory of a new object: the MSR lists are empty. *)
Definition new_memory : memory :=
  put VMCS_ENTER_MSR_LOAD_COUNT 0 (put VMCS_EXIT_MSR_LOAD_COUNT 0 (put VMCS_EXIT_MSR_STORE_COUNT 0
    (put VMCS_ENTER_MSR_LOAD_ADDRESS VMCS_INVALID_ADDRESS (put VMCS_EXIT_MSR_LOAD_ADDRESS VMCS_INVALID_ADDRESS
      (put VMCS_EXIT_MSR_STORE_ADDRESS VMCS_INVALID_ADDRESS (fun _ => None)))))).

Section Life.
Context {H : Type} `{VmxLaws H} (t : list VMCS_ENCODING).
Implicit Types s : active H.
Context (table_shape : shape t = shape g_field_data_init).
Context (processor_fields : forall f, 0 <= f < VMCS_FIELD_COUNT -> hw_writable t f = true ->
  supported (enc_of t f) = true /\ settable (enc_of t f) = true).

#[local] Instance life_ops : VmcsOps (active H) := actual_ops t.

(** A field clients may use, and a command on such fields; a flush is for an active object. *)
Definition field_ok (f : Z) : Prop := 0 <= f < VMCS_FIELD_COUNT /\ read_write t f /\ supported (enc_of t f) = true.
Definition cmd_ok (may_flush : bool) (c : vmcs_cmd) : Prop :=
  match c with
  | CRead f => field_ok f
  | CWrite f v => field_ok f /\ fits 64 v
  | CUpdate f v m => field_ok f /\ fits 64 v /\ fits 64 m
  | CFlush => may_flush = true /\ field_ok VMCS_CONTROL_VECTOR_PROCESSOR_EVENTS
  end.

(** The object stands for the memory: the used fields are cached, the others are [rest]. *)
Record stands_for (rest : Z -> Z) (m : memory) s : Prop := {
  sf_good : act_good t s;
  sf_used : forall f, content (cache_of s) f = m f;
  sf_rest : forall f, 0 <= f < VMCS_FIELD_COUNT -> m f = None ->
    rest f = if has_flag NEVER_ACTIVATED_FLAG s then 0 else region (hw (cpu s)) (hpa (obj s)) (enc_of t f)
}.

Lemma stands_for_view rest m s f : stands_for rest m s -> 0 <= f < VMCS_FIELD_COUNT -> act_view t s f = seen rest m f.
Proof.
  intros [_ Hu Hr] Hf. unfold act_view, seen. rewrite Hu. destruct (m f) eqn:E; [done|]. change (default (rest f) None) with (rest f).
  by rewrite Hr.
Qed.

(** A change of the cache that adds a used field. *)
Lemma stands_for_put rest m s c f v : stands_for rest m s -> act_good t (set_cache c s) ->
  (forall g, content c g = if g =? f then Some v else content (cache_of s) g) -> stands_for rest (put f v m) (set_cache c s).
Proof.
  intros [_ Hu Hr] G Hc. split; [done| |].
  - intros g. change (cache_of (set_cache c s)) with c. rewrite Hc, Hu. done.
  - intros g Hg. unfold put. destruct (g =? f); [done|]. by apply Hr.
Qed.

Lemma client_rights f : field_ok f -> FIELD_IS_READABLE t f = Ok true /\ FIELD_IS_WRITEABLE t f = Ok true /\
  (f <? VMCS_FIELD_COUNT) = true.
Proof.
  intros (Hf & Ht & _). destruct (read_write_rights t f ltac:(lia) Ht) as [-> ->]. by rewrite (proj2 (Z.ltb_lt _ _)) by lia.
Qed.
(** What commands do not change. *)
Definition same_object s s' : Prop :=
  hpa (obj s') = hpa (obj s) /\ nmi_window_is_requested s' = nmi_window_is_requested s /\
  has_flag NEVER_ACTIVATED_FLAG s' = has_flag NEVER_ACTIVATED_FLAG s /\ (is_active s -> is_active s') /\
  (forall p e, p <> hpa (obj s) -> region (hw (cpu s')) p e = region (hw (cpu s)) p e).

Lemma same_object_cache s c : same_object s (set_cache c s).
Proof. unfold same_object. by split_and!. Qed.

Lemma same_object_trans s1 s2 s3 : same_object s1 s2 -> same_object s2 s3 -> same_object s1 s3.
Proof.
  intros (A1 & A2 & A3 & A4 & A5) (B1 & B2 & B3 & B4 & B5). split_and!; try congruence; [tauto|].
  intros p e Hp. rewrite B5 by congruence. by apply A5.
Qed.

Lemma exec_flush_ok fuel rest m s : stands_for rest m s -> is_active s -> field_ok VMCS_CONTROL_VECTOR_PROCESSOR_EVENTS ->
  exists s', exec t (S fuel) s CFlush = Ok ([], s') /\
    let m' := (spec rest (nmi_window_is_requested s) m CFlush).2 in
    stands_for rest m' s' /\ same_object s s' /\
    (forall f, 0 <= f < VMCS_FIELD_COUNT -> hw_writable t f = true ->
       region (hw (cpu s')) (hpa (obj s)) (enc_of t f) = seen rest m' f mod 2 ^ field_width (enc_of t f)).
Proof.
  intros Hst Ha (Hf & Ht & Hs). pose proof Hst as [G Hu Hr]. cbn [exec].
  destruct (flush_to_cpu_ok t table_shape processor_fields fuel s G Ha Ht Hs) as (c & s' & -> & R & Hc). rewrite bind_Ok.
  destruct R as (G' & Ha' & Hcont & Hview & Eh & Eb & En & Hreg & Hframe).
  change (hpa (obj (set_cache c s))) with (hpa (obj s)) in *. change (cpu (set_cache c s)) with (cpu s) in *.
  exists s'. split; [done|]. cbv zeta. set (m' := (spec rest (nmi_window_is_requested s) m CFlush).2).
  assert (forall f, content (cache_of s') f = m' f) as Hm'.
  { intros f. rewrite Hcont. change (cache_of (set_cache c s)) with c. rewrite Hc. unfold m'. cbn [spec snd].
    destruct (nmi_window_is_requested s); [|by rewrite andb_false_r]. rewrite andb_true_r. unfold put.
    destruct (Z.eqb_spec f VMCS_CONTROL_VECTOR_PROCESSOR_EVENTS) as [->|]; [|done].
    by rewrite (stands_for_view rest m s) by done. }
  assert (has_flag NEVER_ACTIVATED_FLAG s = false /\ has_flag NEVER_ACTIVATED_FLAG s' = false) as [Hn Hn'].
  { split; [apply Ha|apply Ha']. }
  assert (forall f, 0 <= f < VMCS_FIELD_COUNT -> m' f = None -> rest f = region (hw (cpu s)) (hpa (obj s)) (enc_of t f)) as Hrest.
  { intros f Hf'. unfold m'. cbn [spec snd]. intros Hmf. specialize (Hr f Hf'). rewrite Hn in Hr. apply Hr.
    destruct (nmi_window_is_requested s); [|done]. unfold put in Hmf. by destruct (f =? _). }
  assert (forall f, 0 <= f < VMCS_FIELD_COUNT -> act_view t (set_cache c s) f = seen rest m' f) as Hseen.
  { intros f Hf'. unfold act_view, seen. rewrite <- (Hcont f), Hm'. destruct (m' f) eqn:Emf; [done|].
    change (has_flag NEVER_ACTIVATED_FLAG (set_cache c s)) with (has_flag NEVER_ACTIVATED_FLAG s). rewrite Hn. symmetry. by apply Hrest. }
  split; [|split].
  - split; [done|done|]. intros f Hf' Hmf. rewrite Hn', Eh. rewrite (Hrest f Hf' Hmf).
    assert (act_view t s' f = act_view t (set_cache c s) f) as Hv by by apply Hview.
    unfold act_view in Hv at 1. rewrite Hm', Hmf, Hn', Eh in Hv. rewrite Hv, (Hseen f Hf'). unfold seen. rewrite Hmf. symmetry.
    by apply Hrest.
  - split_and!; try done; [by rewrite Hn, Hn'|]. intros p e Hp. apply Hframe. by left.
  - intros f Hf' Hw. rewrite Hreg, Hseen by done. done.
Qed.

Lemma write_ok rest m s f v : stands_for rest m s -> field_ok f -> fits 64 v ->
  exists c, vmcs_write t s f v = Ok (set_cache c s) /\ stands_for rest (put f v m) (set_cache c s).
Proof.
  intros Hst Hf Hv. destruct (client_rights f Hf) as (_ & E2 & E3). destruct Hf as (Hf & Ht & Hs).
  destruct (act_write_ok t s f v (sf_good _ _ _ Hst) Hf Hv) as (c & E & G' & Hcont).
  exists c. unfold vmcs_write. rewrite E2, bind_Ok, E3, orb_true_r. split; [exact E|by apply stands_for_put].
Qed.

Lemma exec_ok fuel rest m s c may : stands_for rest m s -> (may = true -> is_active s) -> cmd_ok may c ->
  exists s', exec t (S fuel) s c = Ok ((spec rest (nmi_window_is_requested s) m c).1, s') /\
    stands_for rest (spec rest (nmi_window_is_requested s) m c).2 s' /\ same_object s s' /\ (may = false -> cpu s' = cpu s).
Proof.
  intros Hst Hact Hc. pose proof (sf_good _ _ _ Hst) as G. destruct c as [f|f v|f v bits|].
  - destruct (client_rights f Hc) as (E1 & _ & E3). pose proof Hc as (Hf & Ht & Hs). cbn [exec spec fst snd].
    destruct (act_read_ok t table_shape s f G Hf Hs) as (c & E & G' & Hcont).
    unfold vmcs_read. rewrite E1, bind_Ok, E3, orb_true_r. cbn [andb op_read actual_ops]. rewrite E, bind_Ok.
    rewrite (stands_for_view rest m s) in * by done. exists (set_cache c s). split; [done|].
    split; [by apply stands_for_put|]. split; [apply same_object_cache|done].
  - destruct Hc as [Hc Hv]. cbn [exec spec fst snd]. destruct (write_ok rest m s f v Hst Hc Hv) as (c & E & Hst').
    unfold life_ops in E. rewrite E, bind_Ok. exists (set_cache c s). split; [done|]. split; [done|].
    split; [apply same_object_cache|done].
  - destruct Hc as (Hc & Hv & Hb). pose proof Hc as (Hf & Ht & Hs). cbn [exec spec fst snd].
    destruct (act_update_ok t table_shape s f v bits G Hf Ht Hs Hv Hb) as (c & E & G' & Hcont). unfold act_ops in E. rewrite E, bind_Ok.
    rewrite (stands_for_view rest m s) in * by done. exists (set_cache c s). split; [done|].
    split; [by apply stands_for_put|]. split; [apply same_object_cache|done].
  - destruct Hc as [-> Hc]. destruct (exec_flush_ok fuel rest m s Hst (Hact eq_refl) Hc) as (s' & E & Hst' & Hso & _).
    exists s'. split; [exact E|]. split; [exact Hst'|]. by split.
Qed.

Lemma exec_all_ok fuel rest m s cs may : stands_for rest m s -> (may = true -> is_active s) -> Forall (cmd_ok may) cs ->
  exists s', exec_all t (S fuel) s cs = Ok ((spec_all rest (nmi_window_is_requested s) m cs).1, s') /\
    stands_for rest (spec_all rest (nmi_window_is_requested s) m cs).2 s' /\ same_object s s' /\ (may = false -> cpu s' = cpu s).
Proof.
  revert m s. induction cs as [|c cs IH]; intros m s Hst Hact Hcs; cbn [exec_all spec_all].
  { exists s. split; [done|]. split; [done|]. split; [by split_and!|done]. }
  apply Forall_cons in Hcs as [Hc Hcs].
  destruct (exec_ok fuel rest m s c may Hst Hact Hc) as (s1 & -> & Hst1 & Hso1 & Hcpu1). rewrite bind_Ok. cbn [fst snd].
  pose proof Hso1 as (_ & En & _ & Ha & _).
  destruct (spec rest (nmi_window_is_requested s) m c) as [r1 m1]. cbn [fst snd] in *.
  destruct (IH m1 s1 Hst1) as (s2 & -> & Hst2 & Hso2 & Hcpu2); [tauto|done|]. rewrite bind_Ok. cbn [fst snd]. rewrite En in *.
  destruct (spec_all rest (nmi_window_is_requested s) m1 cs) as [r2 m2]. cbn [fst snd] in *.
  exists s2. split; [done|]. split; [done|]. split; [by apply (same_object_trans s s1)|].
  intros Hm. rewrite Hcpu2, Hcpu1 by done. done.
Qed.

(** * Creation and activation *)

Lemma flag_bit k s : 0 <= k -> has_flag (2 ^ k) s = Z.testbit (oflags (obj s)) k.
Proof.
  intros Hk. unfold has_flag. destruct (Z.testbit (oflags (obj s)) k) eqn:Eb.
  - apply negb_true_iff, Z.eqb_neq. intros E. assert (Z.testbit (Z.land (oflags (obj s)) (2 ^ k)) k = false) as Hb by (rewrite E; apply Z.bits_0).
    rewrite Z.land_spec, Eb, Z.pow2_bits_true in Hb by done. done.
  - apply negb_false_iff, Z.eqb_eq. apply Z.bits_inj'. intros n Hn. rewrite Z.land_spec, Z.bits_0, Z.pow2_bits_eqb by done.
    destruct (Z.eqb_spec k n) as [<-|]; [by rewrite Eb|by rewrite andb_false_r].
Qed.

(** The processor after an activation. *)
Lemma activate_ok s : vmcs_address (hpa (obj s)) = true -> never_activated s -> cpu_id (cpu s) <> CPU_NEVER_USED ->
  is_active (vmcs_activate s) /\ cache_of (vmcs_activate s) = cache_of s /\ hpa (obj (vmcs_activate s)) = hpa (obj s) /\
  shadow_disable (cpu (vmcs_activate s)) = shadow_disable (cpu s) /\
  nmi_window_is_requested (vmcs_activate s) = nmi_window_is_requested s /\
  (forall p e, region (hw (cpu (vmcs_activate s))) p e = region (hw (cpu s)) p e).
Proof.
  intros Hp Hn Hid. unfold never_activated in Hn. unfold vmcs_activate. rewrite Hn. unfold hw_vmx_flush_current_vmcs, vmx_vmclear, vmx_vmptrld.
  destruct (vmclear_law (hw (cpu s)) (hpa (obj s)) Hp) as (h1 & -> & _ & Hr1).
  cbn [set_hw cpu hw obj]. destruct (vmptrld_law h1 (hpa (obj s)) Hp) as (h2 & -> & Hc2 & Hr2).
  split; [|split; [done|split; [done|split; [done|split; [done|]]]]].
  - split; [|split; [|by split]].
    + change ACTIVATED_FLAG with (2 ^ 1). rewrite flag_bit by done. unfold clear_flag, set_flag, on_obj, o_set_flags. cbn [obj oflags].
      rewrite Z.land_spec, Z.lor_spec. change (Z.testbit (u16 (Z.lnot NEVER_ACTIVATED_FLAG)) 1) with true.
      change (Z.testbit (2 ^ 1) 1) with true. by rewrite orb_true_r.
    + change NEVER_ACTIVATED_FLAG with (2 ^ 2). rewrite flag_bit by done. unfold clear_flag, set_flag, on_obj, o_set_flags. cbn [obj oflags].
      rewrite Z.land_spec. change (Z.testbit (u16 (Z.lnot (2 ^ 2))) 2) with false. by rewrite andb_false_r.
  - intros p e. cbn [clear_flag set_flag on_obj cpu hw set_hw]. rewrite Hr2, Hr1. done.
Qed.

(** At its activation the fields that were used keep their values; the others are what the region has. *)
Lemma activate_stands_for rest m s : stands_for rest m s -> never_activated s -> cpu_id (cpu s) <> CPU_NEVER_USED ->
  stands_for (fun f => region (hw (cpu s)) (hpa (obj s)) (enc_of t f)) m (vmcs_activate s).
Proof.
  intros [[Hc Hsh Ha Hm Hs] Hu Hr] Hn Hid. destruct (activate_ok s Ha Hn Hid) as (Hact & Ec & Eh & Es & En & Er).
  pose proof Hact as (_ & Hn' & _ & _). split.
  - split; [by rewrite Ec|by rewrite Es|by rewrite Eh|by left|]. intros f v Hf Hw Hcv. rewrite Ec in *. left.
    destruct (Hs f v Hf Hw Hcv) as [|[(_ & Hcon & _) _]]; [done|]. unfold never_activated in Hn. congruence.
  - intros f. by rewrite Ec.
  - intros f Hf Hmf. rewrite Hn', Er, Eh. done.
Qed.
Definition msr_list_fields : list Z :=
  [VMCS_EXIT_MSR_STORE_ADDRESS; VMCS_EXIT_MSR_LOAD_ADDRESS; VMCS_ENTER_MSR_LOAD_ADDRESS;
   VMCS_EXIT_MSR_STORE_COUNT; VMCS_EXIT_MSR_LOAD_COUNT; VMCS_ENTER_MSR_LOAD_COUNT].

Lemma init_msr_lists_ok rest s : stands_for rest (fun _ => None) s -> Forall field_ok msr_list_fields ->
  exists c, vmcs_init_all_msr_lists t s = Ok (set_maxima 0 0 0 (set_cache c s)) /\ stands_for rest new_memory (set_maxima 0 0 0 (set_cache c s)).
Proof.
  intros Hst Hf. unfold msr_list_fields in Hf. rewrite !Forall_cons in Hf. destruct Hf as (F1 & F2 & F3 & F4 & F5 & F6 & _).
  unfold vmcs_init_all_msr_lists, vmcs_clear_all_msr_lists.
  destruct (write_ok rest _ s _ VMCS_INVALID_ADDRESS Hst F1 ltac:(done)) as (c1 & -> & H1'). rewrite bind_Ok.
  destruct (write_ok rest _ _ _ VMCS_INVALID_ADDRESS H1' F2 ltac:(done)) as (c2 & -> & H2'). rewrite bind_Ok.
  destruct (write_ok rest _ _ _ VMCS_INVALID_ADDRESS H2' F3 ltac:(done)) as (c3 & -> & H3'). rewrite bind_Ok.
  destruct (write_ok rest _ _ _ 0 H3' F4 ltac:(done)) as (c4 & -> & H4'). rewrite bind_Ok.
  destruct (write_ok rest _ _ _ 0 H4' F5 ltac:(done)) as (c5 & -> & H5'). rewrite bind_Ok.
  destruct (write_ok rest _ _ _ 0 H5' F6 ltac:(done)) as (c6 & -> & H6'). rewrite bind_Ok.
  exists c6. split; [done|]. destruct H6' as [[] Hu Hr]. by split; [split| |].
Qed.

(** A new object has empty MSR lists and no other field in use. *)
Lemma create_ok (c : host_cpu H) p k hpa hva gcpu : p <> 0 -> cache_good k -> (forall f, content k f = None) ->
  shadow_disable c = false -> vmcs_address hpa = true -> Forall field_ok msr_list_fields ->
  exists s, vmcs_act_create t c p (Some k) hpa hva gcpu = Ok (Some s) /\ stands_for (fun _ => 0) new_memory s /\
    never_activated s /\ cpu s = c /\ VmcsActual.hpa (obj s) = hpa.
Proof.
  intros Hp Hk Hnone Hsh Ha Hf. unfold vmcs_act_create. rewrite (proj2 (Z.eqb_neq _ _) Hp).
  set (s := mk_active _ c).
  assert (stands_for (fun _ => 0) (fun _ => None) s) as Hst.
  { split; [|exact Hnone|done]. split; [done|done|done|by right|]. intros f v _ _ Hc. rewrite Hnone in Hc. done. }
  destruct (init_msr_lists_ok _ s Hst Hf) as (k' & E & Hst'). unfold life_ops in E. rewrite E, bind_Ok.
  eexists. by split_and!.
Qed.

(** * A session *)

Lemma exec_all_app fuel s cs cs' r s' : exec_all t fuel s cs = Ok (r, s') ->
  exec_all t fuel s (cs ++ cs') = (r' ← exec_all t fuel s' cs'; Ok (r ++ r'.1, r'.2)).
Proof.
  revert s r. induction cs as [|c cs IH]; intros s r E; cbn [exec_all app] in *.
  { injection E as <- ->. by destruct (exec_all t fuel s' cs') as [[]| |]. }
  destruct (exec t fuel s c) as [[r1 s1]| |]; try done. rewrite bind_Ok in *. cbn [fst snd] in *.
  destruct (exec_all t fuel s1 cs) as [[r2 s2]| |] eqn:E2; try done. rewrite bind_Ok in E. injection E as <- ->.
  rewrite (IH s1 r2 E2). destruct (exec_all t fuel s' cs') as [[]| |]; try done. rewrite !bind_Ok. cbn [fst snd]. by rewrite app_assoc.
Qed.

Lemma spec_all_app rest nmi m cs cs' : spec_all rest nmi m (cs ++ cs') =
  let '(r, m) := spec_all rest nmi m cs in let '(r', m) := spec_all rest nmi m cs' in (r ++ r', m).
Proof.
  revert m. induction cs as [|c cs IH]; intros m; cbn [spec_all app]; [by destruct (spec_all rest nmi m cs')|].
  destruct (spec rest nmi m c) as [r1 m1]. rewrite IH. destruct (spec_all rest nmi m1 cs) as [r2 m2].
  destruct (spec_all rest nmi m2 cs') as [r3 m3]. by rewrite app_assoc.
Qed.

(** Whether the CPU has an NMI to deliver. *)
Definition nmi_waits (c : host_cpu H) : bool := negb (fs c =? 0) || nmi_window c.

(** C3. A VMCS object behaves as a memory of fields over its whole life, and a flush leaves that memory in
    the processor. A new object reads 0 in the fields that were not written and has empty MSR lists;
    from its activation on, the fields that were never used are those of the VMCS region. Every
    read in a sequence of reads, writes, masked updates and flushes gives what the memory holds.
    After a flush each field the processor lets software write has the value of the memory, cut to the
    width of the field; a waiting NMI adds the NMI window to the event controls. Other VMCS
    regions do not change. *)
Theorem vmcs_session_refines fuel (c : host_cpu H) p p1 p2 p3 p4 k hpa hva gcpu cs1 cs2 :
  p <> 0 -> cache64_create VMCS_FIELD_COUNT p1 p2 p3 p4 = Ok (Some k, []) ->
  shadow_disable c = false -> cpu_id c <> CPU_NEVER_USED -> vmcs_address hpa = true ->
  Forall field_ok (VMCS_CONTROL_VECTOR_PROCESSOR_EVENTS :: msr_list_fields) ->
  Forall (cmd_ok false) cs1 -> Forall (cmd_ok true) cs2 ->
  let rest := fun f => region (hw c) hpa (enc_of t f) in
  let '(r1, m1) := spec_all (fun _ => 0) (nmi_waits c) new_memory cs1 in
  let '(r2, m2) := spec_all rest (nmi_waits c) m1 (cs2 ++ [CFlush]) in
  exists s0 s1 s2,
    vmcs_act_create t c p (Some k) hpa hva gcpu = Ok (Some s0) /\
    exec_all t (S fuel) s0 cs1 = Ok (r1, s1) /\
    exec_all t (S fuel) (vmcs_activate s1) (cs2 ++ [CFlush]) = Ok (r2, s2) /\
    (forall f, 0 <= f < VMCS_FIELD_COUNT -> hw_writable t f = true ->
       region (hw (cpu s2)) hpa (enc_of t f) = seen rest m2 f mod 2 ^ field_width (enc_of t f)) /\
    (forall q e, q <> hpa -> region (hw (cpu s2)) q e = region (hw c) q e).
Proof.
  intros Hp Hk Hsh Hid Ha Hf Hc1 Hc2. cbv zeta. apply Forall_cons in Hf as [Hev Hf].
  destruct (cache64_create_spec VMCS_FIELD_COUNT p1 p2 p3 p4 ltac:(done)) as [(_ & _ & _ & _ & k' & E & W & Hn & Hfl & Hnone & _)|[_ E]];
    rewrite Hk in E; [|done]. injection E as <-.
  assert (cache_good k) as Hgk by (split_and!; [done|done|by intros f v; rewrite Hnone|lia]).
  destruct (create_ok c p k hpa hva gcpu Hp Hgk Hnone Hsh Ha Hf) as (s0 & E0 & Hst0 & Hn0 & Hcpu0 & Hh0).
  destruct (exec_all_ok fuel _ _ s0 cs1 false Hst0 ltac:(done) Hc1) as (s1 & E1 & Hst1 & (Hh1 & Hw1 & Hn1 & _ & _) & Hcpu1).
  specialize (Hcpu1 eq_refl).
  assert (nmi_window_is_requested s0 = nmi_waits c) as Hw0 by (unfold nmi_waits, nmi_window_is_requested, nmi_is_nmi_occured; by rewrite Hcpu0).
  rewrite Hw0 in *. destruct (spec_all (fun _ => 0) (nmi_waits c) new_memory cs1) as [r1 m1]. cbn [fst snd] in *.
  assert (never_activated s1) as Hnev by (unfold never_activated; by rewrite Hn1).
  assert (cpu_id (cpu s1) <> CPU_NEVER_USED) as Hid1 by by rewrite Hcpu1, Hcpu0.
  pose proof (activate_stands_for _ _ s1 Hst1 Hnev Hid1) as Hst2.
  destruct (activate_ok s1 (ag_address _ _ (sf_good _ _ _ Hst1)) Hnev Hid1) as (Hact & _ & Eh & _ & En & Er).
  rewrite Hh1, Hh0 in *. rewrite Hcpu1, Hcpu0 in *.
  set (rest := fun f => region (hw c) hpa (enc_of t f)) in *.
  destruct (exec_all_ok fuel rest m1 (vmcs_activate s1) cs2 true Hst2 ltac:(done) Hc2) as (s2 & E2 & Hst3 & (Hh2 & Hw2 & _ & Ha2 & Hr2) & _).
  rewrite En, Hw1 in *. rewrite spec_all_app. destruct (spec_all rest (nmi_waits c) m1 cs2) as [r2 m2]. cbn [fst snd] in *.
  destruct (exec_flush_ok fuel rest m2 s2 Hst3 (Ha2 Hact) Hev) as (s3 & E3 & _ & (_ & _ & _ & _ & Hr3) & Hreg).
  rewrite Hw2, Hh2, Eh in *. cbn [spec_all]. destruct (spec rest (nmi_waits c) m2 CFlush) as [r3 m3] eqn:Esp.
  assert (r3 = []) as -> by (cbn [spec] in Esp; by destruct (nmi_waits c); injection Esp).
  exists s0, s1, s3. split; [done|]. split; [done|]. split.
  { rewrite (exec_all_app _ _ _ [CFlush] _ _ E2). cbn [exec_all]. rewrite E3. rewrite !bind_Ok. done. }
  split; [exact Hreg|]. intros q e Hq. rewrite Hr3, Hr2, Er by done. done.
Qed.
End Life.

(** A session on a new object: the guest's RIP, an update of the pin controls that is read back, and after the
    activation CR0 and the event controls; the region has 5 in the SYSENTER entry point. *)
Definition sample_cpu : host_cpu Sample.processor :=
  mk_cpu 0 (Sample.mk_proc HW_VMCS_IS_EMPTY {[(4096, enc_of g_field_data_init VMCS_GUEST_SYSENTER_EIP) := 5]}) 0 true false false.
Definition sample_before : list vmcs_cmd :=
  [CWrite VMCS_GUEST_RIP 0x7c00; CUpdate VMCS_CONTROL_VECTOR_PIN_EVENTS 0xff 0x0f; CRead VMCS_CONTROL_VECTOR_PIN_EVENTS].
Definition sample_after : list vmcs_cmd :=
  [CRead VMCS_GUEST_SYSENTER_EIP; CWrite VMCS_GUEST_CR0 0x80000011; CFlush; CWrite VMCS_CONTROL_VECTOR_PROCESSOR_EVENTS 0x184006172].
Definition sample_k : CACHE64_STRUCT :=
  match cache64_create VMCS_FIELD_COUNT 1 2 3 4 with Ok (Some k, _) => k | _ => mk_cache 0 0 0 [] [] [] end.

Lemma vmcs_session_refines_witness : exists s0 s1 s2,
  vmcs_act_create g_field_data_init sample_cpu 1 (Some sample_k) 4096 8192 1 = Ok (Some s0) /\
  exec_all g_field_data_init 1 s0 sample_before = Ok ([0x0f], s1) /\
  exec_all g_field_data_init 1 (vmcs_activate s1) (sample_after ++ [CFlush]) = Ok ([5], s2) /\
  region (hw (cpu s2)) 4096 (enc_of g_field_data_init VMCS_GUEST_RIP) = 0x7c00 /\
  region (hw (cpu s2)) 4096 (enc_of g_field_data_init VMCS_CONTROL_VECTOR_PROCESSOR_EVENTS) = 0x84406172.
Proof.
  assert (forall f, 0 <= f < VMCS_FIELD_COUNT -> access <$> g_field_data_init !! Z.to_nat f = Some WRITABLE ->
    field_ok (H := Sample.processor) g_field_data_init f) as Hf.
  { intros f Hf Ha. split; [exact Hf|]. split; [|reflexivity]. destruct (g_field_data_init !! Z.to_nat f) as [d|] eqn:Ed; [|discriminate].
    injection Ha as Ha. exists d. rewrite Ha. split; [exact Ed|]. split; discriminate. }
  pose proof (vmcs_session_refines g_field_data_init eq_refl (fun f _ _ => conj eq_refl eq_refl) 0 sample_cpu 1 1 2 3 4 sample_k
    4096 8192 1 sample_before sample_after ltac:(discriminate) ltac:(vm_compute; reflexivity) eq_refl ltac:(discriminate) eq_refl) as X.
  specialize (X ltac:(repeat (constructor; [apply Hf; [by vm_compute|vm_compute; reflexivity]|]); constructor)).
  specialize (X ltac:(repeat (constructor; [repeat split; try (apply Hf; [by vm_compute|vm_compute; reflexivity]); by vm_compute|]); constructor)).
  specialize (X ltac:(repeat (constructor; [repeat split; try (apply Hf; [by vm_compute|vm_compute; reflexivity]); by vm_compute|]); constructor)).
  cbv zeta in X. destruct (spec_all (fun _ => 0) (nmi_waits sample_cpu) new_memory sample_before) as [r1 m1] eqn:E1.
  destruct (spec_all _ (nmi_waits sample_cpu) m1 (sample_after ++ [CFlush])) as [r2 m2] eqn:E2.
  destruct X as (s0 & s1 & s2 & X0 & X1 & X2 & X3 & _). exists s0, s1, s2.
  assert (seen (fun f => region (hw sample_cpu) 4096 (enc_of g_field_data_init f)) m2 VMCS_GUEST_RIP = 0x7c00 /\
    seen (fun f => region (hw sample_cpu) 4096 (enc_of g_field_data_init f)) m2 VMCS_CONTROL_VECTOR_PROCESSOR_EVENTS = 0x184406172)
    as [M1 M2] by (vm_compute in E1; injection E1 as <- <-; vm_compute in E2; injection E2 as <- <-; split; vm_compute; reflexivity).
  assert (r1 = [0x0f] /\ r2 = [5]) as [-> ->]
    by (vm_compute in E1; injection E1 as <- <-; vm_compute in E2; injection E2 as <- <-; split; reflexivity).
  assert (forall f, bool_decide (0 <= f < VMCS_FIELD_COUNT) && hw_writable g_field_data_init f = true ->
    region (hw (cpu s2)) 4096 (enc_of g_field_data_init f) =
      seen (fun f => region (hw sample_cpu) 4096 (enc_of g_field_data_init f)) m2 f mod 2 ^ field_width (enc_of g_field_data_init f)) as Y.
  { intros f Hfw. apply andb_true_iff in Hfw as [Hr Hw]. apply bool_decide_eq_true in Hr. exact (X3 f Hr Hw). }
  pose proof (Y VMCS_GUEST_RIP ltac:(vm_compute; reflexivity)) as Y1. rewrite M1 in Y1.
  pose proof (Y VMCS_CONTROL_VECTOR_PROCESSOR_EVENTS ltac:(vm_compute; reflexivity)) as Y2. rewrite M2 in Y2.
  split; [exact X0|]. split; [exact X1|]. split; [exact X2|]. split.
  - rewrite Y1. vm_compute. reflexivity.
  - rewrite Y2. vm_compute. reflexivity.
Defined.
