(* ===== verification/VmcsHw.v ===== *)
(** host/hw/vmcs_init.c and include/hw/vmcs_init.h: the capabilities of the processor, read from its
    VMX registers, and the values it accepts in the control fields and control registers. *)

From S2P Require Import Prelude VmmDefs VmcsFields.

(** * Capability registers *)

Definition IA32_MSR_VMCS_REVISION_IDENTIFIER_INDEX : Z := 0x480.
Definition IA32_MSR_PIN_BASED_VM_EXECUTION_CONTROLS_INDEX : Z := 0x481.
Definition IA32_MSR_PROCESSOR_BASED_VM_EXECUTION_CONTROLS_INDEX : Z := 0x482.
Definition IA32_MSR_PROCESSOR_BASED_VM_EXECUTION_CONTROLS2_INDEX : Z := 0x48B.
Definition IA32_MSR_VM_EXIT_CONTROLS_INDEX : Z := 0x483.
Definition IA32_MSR_VM_ENTRY_CONTROLS_INDEX : Z := 0x484.
Definition IA32_MSR_MISCELLANEOUS_DATA_INDEX : Z := 0x485.
Definition IA32_MSR_CR0_ALLOWED_ZERO_INDEX : Z := 0x486.
Definition IA32_MSR_CR0_ALLOWED_ONE_INDEX : Z := 0x487.
Definition IA32_MSR_CR4_ALLOWED_ZERO_INDEX : Z := 0x488.
Definition IA32_MSR_CR4_ALLOWED_ONE_INDEX : Z := 0x489.
Definition IA32_MSR_EPT_VPID_CAP_INDEX : Z := 0x48C.
Definition IA32_MSR_OPT_IN_INDEX : Z := 0x3A.

Record IA32_VMX_CAPABILITIES := mk_caps {
  VmcsRevisionIdentifier : Z;
  PinBasedVmExecutionControls : Z;
  ProcessorBasedVmExecutionControls : Z;
  ProcessorBasedVmExecutionControls2 : Z;
  VmExitControls : Z;
  VmEntryControls : Z;
  MiscellaneousData : Z;
  Cr0MayBeSetToZero : Z;
  Cr0MayBeSetToOne : Z;
  Cr4MayBeSetToZero : Z;
  Cr4MayBeSetToOne : Z;
  EptVpidCapabilities : Z
}.

(** The halves of a control capability: a bit that is 0 in the first may be 0 in the field, a bit that
    is 1 in the second may be 1. *)
Definition MayBeSetToZero (c : Z) : Z := c mod 2 ^ 32.
Definition MayBeSetToOne (c : Z) : Z := Z.shiftr c 32 mod 2 ^ 32.

Definition SecondaryControls (c : Z) : bool := Z.testbit c 31.
Definition EnableEPT (c : Z) : bool := Z.testbit c 1.
Definition EnableVPID (c : Z) : bool := Z.testbit c 5.
Definition UnrestrictedGuest (c : Z) : bool := Z.testbit c 7.
Definition VE (c : Z) : bool := Z.testbit c 18.

Definition RevisionIdentifier (c : Z) : Z := c mod 2 ^ 32.
Definition VmcsMemoryType (c : Z) : Z := Z.land (Z.shiftr c 50) 15.
Definition PreemptionTimerLength (c : Z) : Z := Z.land c 31.
Definition EntryInHaltStateSupported (c : Z) : bool := Z.testbit c 6.
Definition EntryInShutdownStateSupported (c : Z) : bool := Z.testbit c 7.
Definition EntryInWaitForSipiStateSupported (c : Z) : bool := Z.testbit c 8.
Definition NumberOfCr3TargetValues (c : Z) : Z := Z.land (Z.shiftr c 16) 511.
Definition MsrListsMaxSize (c : Z) : Z := Z.land (Z.shiftr c 25) 7.
Definition MsegRevisionIdentifier (c : Z) : Z := Z.shiftr c 32 mod 2 ^ 32.

Definition MASK_PE_PG_OFF_UNRESTRICTED_GUEST : Z := 0xFFFFFFFF7FFFFFFE.
Definition VMCS_REGION_SIZE (caps : IA32_VMX_CAPABILITIES) : Z := Z.land (VmcsRevisionIdentifier caps) 0x77777777.
Definition VMCS_MAX_SIZE_OF_MSR_LISTS (caps : IA32_VMX_CAPABILITIES) : Z := (MsrListsMaxSize (MiscellaneousData caps) + 1) * 512.

Record VMCS_HW_FIXED := mk_fixed {
  fixed_1_pin_based_exec_ctrl : Z;
  fixed_0_pin_based_exec_ctrl : Z;
  fixed_1_processor_based_exec_ctrl : Z;
  fixed_0_processor_based_exec_ctrl : Z;
  fixed_1_processor_based_exec_ctrl2 : Z;
  fixed_0_processor_based_exec_ctrl2 : Z;
  fixed_1_vm_exit_ctrl : Z;
  fixed_0_vm_exit_ctrl : Z;
  fixed_1_vm_entry_ctrl : Z;
  fixed_0_vm_entry_ctrl : Z;
  fixed_1_cr0 : Z;
  fixed_0_cr0 : Z;
  fixed_1_cr4 : Z;
  fixed_0_cr4 : Z
}.

Section Capabilities.
(** The MSRs of the processor. *)
Context (hw_read_msr : Z -> Z).

Definition read_capabilities : IA32_VMX_CAPABILITIES :=
  let procbased := hw_read_msr IA32_MSR_PROCESSOR_BASED_VM_EXECUTION_CONTROLS_INDEX in
  let ctrl2 := if SecondaryControls (MayBeSetToOne procbased)
               then hw_read_msr IA32_MSR_PROCESSOR_BASED_VM_EXECUTION_CONTROLS2_INDEX else 0 in
  let ept := if SecondaryControls (MayBeSetToOne procbased) &&
                (EnableEPT (MayBeSetToOne ctrl2) || EnableVPID (MayBeSetToOne ctrl2))
             then hw_read_msr IA32_MSR_EPT_VPID_CAP_INDEX else 0 in
  mk_caps (hw_read_msr IA32_MSR_VMCS_REVISION_IDENTIFIER_INDEX)
    (hw_read_msr IA32_MSR_PIN_BASED_VM_EXECUTION_CONTROLS_INDEX) procbased ctrl2
    (hw_read_msr IA32_MSR_VM_EXIT_CONTROLS_INDEX) (hw_read_msr IA32_MSR_VM_ENTRY_CONTROLS_INDEX)
    (hw_read_msr IA32_MSR_MISCELLANEOUS_DATA_INDEX)
    (hw_read_msr IA32_MSR_CR0_ALLOWED_ZERO_INDEX) (hw_read_msr IA32_MSR_CR0_ALLOWED_ONE_INDEX)
    (hw_read_msr IA32_MSR_CR4_ALLOWED_ZERO_INDEX) (hw_read_msr IA32_MSR_CR4_ALLOWED_ONE_INDEX) ept.

Definition constraints_of (c : IA32_VMX_CAPABILITIES) : VMCS_HW_CONSTRAINTS :=
  let misc := MiscellaneousData c in
  let ctrl2_supported := SecondaryControls (MayBeSetToOne (ProcessorBasedVmExecutionControls c)) in
  let ctrl2 := MayBeSetToOne (ProcessorBasedVmExecutionControls2 c) in
  {| may1_pin_based_exec_ctrl := MayBeSetToOne (PinBasedVmExecutionControls c);
     may0_pin_based_exec_ctrl := MayBeSetToZero (PinBasedVmExecutionControls c);
     may1_processor_based_exec_ctrl := MayBeSetToOne (ProcessorBasedVmExecutionControls c);
     may0_processor_based_exec_ctrl := MayBeSetToZero (ProcessorBasedVmExecutionControls c);
     may1_processor_based_exec_ctrl2 := MayBeSetToOne (ProcessorBasedVmExecutionControls2 c);
     may0_processor_based_exec_ctrl2 := MayBeSetToZero (ProcessorBasedVmExecutionControls2 c);
     may1_vm_exit_ctrl := MayBeSetToOne (VmExitControls c);
     may0_vm_exit_ctrl := MayBeSetToZero (VmExitControls c);
     may1_vm_entry_ctrl := MayBeSetToOne (VmEntryControls c);
     may0_vm_entry_ctrl := MayBeSetToZero (VmEntryControls c);
     may1_cr0 := Cr0MayBeSetToOne c;
     may0_cr0 := Cr0MayBeSetToZero c;
     may1_cr4 := Cr4MayBeSetToOne c;
     may0_cr4 := Cr4MayBeSetToZero c;
     number_of_cr3_target_values := NumberOfCr3TargetValues misc;
     max_msr_lists_size_in_bytes := VMCS_MAX_SIZE_OF_MSR_LISTS c;
     vmx_timer_length := PreemptionTimerLength misc;
     vmcs_revision := RevisionIdentifier (VmcsRevisionIdentifier c);
     mseg_revision_id := MsegRevisionIdentifier misc;
     vm_entry_in_halt_state_supported := EntryInHaltStateSupported misc;
     vm_entry_in_shutdown_state_supported := EntryInShutdownStateSupported misc;
     vm_entry_in_wait_for_sipi_state_supported := EntryInWaitForSipiStateSupported misc;
     processor_based_exec_ctrl2_supported := ctrl2_supported;
     ept_supported := ctrl2_supported && EnableEPT ctrl2;
     unrestricted_guest_supported := ctrl2_supported && UnrestrictedGuest ctrl2;
     vpid_supported := ctrl2_supported && EnableVPID ctrl2;
     ve_supported := ctrl2_supported && VE ctrl2;
     ept_vpid_capabilities := EptVpidCapabilities c |}.

Definition fixed_of (k : VMCS_HW_CONSTRAINTS) : VMCS_HW_FIXED :=
  let fixed_1_cr0 := Z.land (may0_cr0 k) (may1_cr0 k) in
  {| fixed_1_pin_based_exec_ctrl := Z.land (may0_pin_based_exec_ctrl k) (may1_pin_based_exec_ctrl k);
     fixed_0_pin_based_exec_ctrl := Z.lor (may0_pin_based_exec_ctrl k) (may1_pin_based_exec_ctrl k);
     fixed_1_processor_based_exec_ctrl := Z.land (may0_processor_based_exec_ctrl k) (may1_processor_based_exec_ctrl k);
     fixed_0_processor_based_exec_ctrl := Z.lor (may0_processor_based_exec_ctrl k) (may1_processor_based_exec_ctrl k);
     fixed_1_processor_based_exec_ctrl2 := Z.land (may0_processor_based_exec_ctrl2 k) (may1_processor_based_exec_ctrl2 k);
     fixed_0_processor_based_exec_ctrl2 := Z.lor (may0_processor_based_exec_ctrl2 k) (may1_processor_based_exec_ctrl2 k);
     fixed_1_vm_exit_ctrl := Z.land (may0_vm_exit_ctrl k) (may1_vm_exit_ctrl k);
     fixed_0_vm_exit_ctrl := Z.lor (may0_vm_exit_ctrl k) (may1_vm_exit_ctrl k);
     fixed_1_vm_entry_ctrl := Z.land (may0_vm_entry_ctrl k) (may1_vm_entry_ctrl k);
     fixed_0_vm_entry_ctrl := Z.lor (may0_vm_entry_ctrl k) (may1_vm_entry_ctrl k);
     fixed_1_cr0 := if unrestricted_guest_supported k then Z.land fixed_1_cr0 MASK_PE_PG_OFF_UNRESTRICTED_GUEST else fixed_1_cr0;
     fixed_0_cr0 := Z.lor (may0_cr0 k) (may1_cr0 k);
     fixed_1_cr4 := Z.land (may0_cr4 k) (may1_cr4 k);
     fixed_0_cr4 := Z.lor (may0_cr4 k) (may1_cr4 k) |}.

(** What [vmcs_hw_init] leaves in the globals; a second call changes nothing. *)
Definition fill_vmx_capabilities : IA32_VMX_CAPABILITIES * VMCS_HW_CONSTRAINTS * VMCS_HW_FIXED :=
  let c := read_capabilities in
  let k := constraints_of c in
  (c, k, fixed_of k).
End Capabilities.

Inductive VMM_PHYS_MEM_TYPE := VMM_PHYS_MEM_UNCACHABLE | VMM_PHYS_MEM_WRITE_BACK | VMM_PHYS_MEM_UNDEFINED.

Definition vmcs_memory_type (c : IA32_VMX_CAPABILITIES) : VMM_PHYS_MEM_TYPE :=
  match VmcsMemoryType (VmcsRevisionIdentifier c) with
  | 0 => VMM_PHYS_MEM_UNCACHABLE
  | 6 => VMM_PHYS_MEM_WRITE_BACK
  | _ => VMM_PHYS_MEM_UNDEFINED
  end.

(** [ecx] is that of CPUID leaf 1. *)
Definition vmcs_hw_is_cpu_vmx_capable (ecx opt_in : Z) : bool :=
  if Z.land ecx 0x20 =? 0 then false else Z.testbit opt_in 2 || negb (Z.testbit opt_in 0).

(** * Compliant values *)

Definition EM64T_CR8_VALID_BITS_MASK : Z := 0x0F.

Section Compliant.
Context (g : VMCS_HW_FIXED).

Definition vmcs_hw_make_compliant_pin_based_exec_ctrl (value : Z) : Z :=
  Z.lor (Z.land value (fixed_0_pin_based_exec_ctrl g)) (fixed_1_pin_based_exec_ctrl g).
Definition vmcs_hw_make_compliant_processor_based_exec_ctrl (value : Z) : Z :=
  Z.lor (Z.land value (fixed_0_processor_based_exec_ctrl g)) (fixed_1_processor_based_exec_ctrl g).
Definition vmcs_hw_make_compliant_processor_based_exec_ctrl2 (value : Z) : Z :=
  Z.lor (Z.land value (fixed_0_processor_based_exec_ctrl2 g)) (fixed_1_processor_based_exec_ctrl2 g).
Definition vmcs_hw_make_compliant_vm_exit_ctrl (value : Z) : Z :=
  Z.lor (Z.land value (fixed_0_vm_exit_ctrl g)) (fixed_1_vm_exit_ctrl g).
Definition vmcs_hw_make_compliant_vm_entry_ctrl (value : Z) : Z :=
  Z.lor (Z.land value (fixed_0_vm_entry_ctrl g)) (fixed_1_vm_entry_ctrl g).
Definition vmcs_hw_make_compliant_cr0 (value : Z) : Z := Z.lor (Z.land value (fixed_0_cr0 g)) (fixed_1_cr0 g).
Definition vmcs_hw_make_compliant_cr4 (value : Z) : Z := Z.lor (Z.land value (fixed_0_cr4 g)) (fixed_1_cr4 g).
Definition vmcs_hw_make_compliant_cr8 (value : Z) : Z := Z.land value EM64T_CR8_VALID_BITS_MASK.
End Compliant.

(** * What the processor accepts *)

(** A bit of [lo] must be 1, a bit that is not in [hi] must be 0 (the checks of a VM entry). *)
Definition allowed (lo hi v : Z) : Prop :=
  forall i, 0 <= i -> (Z.testbit lo i = true -> Z.testbit v i = true) /\ (Z.testbit v i = true -> Z.testbit hi i = true).

Definition consistent (lo hi : Z) : Prop := forall i, 0 <= i -> Z.testbit lo i = true -> Z.testbit hi i = true.

(** ** The capability registers of the manual (SDM vol. 3, appendix A) *)

(** [v'] is what a processor accepts for [v] in [n] bits: 1 where it must be 1, 0 where it may not be 1, and
    the bit of [v] where the processor leaves a choice. *)
Definition accepted_for (n : Z) (must may : Z -> bool) (v v' : Z) : Prop :=
  forall i, 0 <= i < n ->
    (must i = true -> Z.testbit v' i = true) /\ (may i = false -> Z.testbit v' i = false) /\
    (must i = false -> may i = true -> Z.testbit v' i = Z.testbit v i).
(** A control register of 32 bits and its capability MSR: bits 31:0 must be 1, bits 63:32 may be 1. *)
Definition control_accepted (cap v v' : Z) : Prop :=
  fits 32 v' /\ accepted_for 32 (fun i => Z.testbit cap i) (fun i => Z.testbit cap (32 + i)) v v'.
(** A bit that must be 1 may be 1. *)
Definition coherent (n : Z) (must may : Z -> bool) : Prop := forall i, 0 <= i < n -> must i = true -> may i = true.
Definition control_coherent (cap : Z) : Prop := coherent 32 (fun i => Z.testbit cap i) (fun i => Z.testbit cap (32 + i)).

Lemma low_bit c i : 0 <= i < 32 -> Z.testbit (MayBeSetToZero c) i = Z.testbit c i.
Proof. intros Hi. unfold MayBeSetToZero. by rewrite Z.mod_pow2_bits_low by lia. Qed.
Lemma high_bit c i : 0 <= i < 32 -> Z.testbit (MayBeSetToOne c) i = Z.testbit c (32 + i).
Proof. intros Hi. unfold MayBeSetToOne. rewrite Z.mod_pow2_bits_low, Z.shiftr_spec by lia. by rewrite Z.add_comm. Qed.
Lemma low_fits c : 0 <= MayBeSetToZero c < 2 ^ 32.
Proof. apply Z.mod_pos_bound. lia. Qed.
Lemma high_fits c : 0 <= MayBeSetToOne c < 2 ^ 32.
Proof. apply Z.mod_pos_bound. lia. Qed.

Lemma control_nearest cap v : control_coherent cap ->
  control_accepted cap v (Z.lor (Z.land v (Z.lor (MayBeSetToZero cap) (MayBeSetToOne cap))) (Z.land (MayBeSetToZero cap) (MayBeSetToOne cap))).
Proof.
  intros Hc. pose proof (low_fits cap). pose proof (high_fits cap). split.
  - split.
    + apply Z.lor_nonneg. split; apply Z.land_nonneg; [right; apply Z.lor_nonneg|left]; lia.
    + apply bits_lt_pow2; [apply Z.lor_nonneg; split; apply Z.land_nonneg; [right; apply Z.lor_nonneg|left]; lia|lia|].
      intros i Hi. rewrite Z.lor_spec, !Z.land_spec, Z.lor_spec, (bits_above (MayBeSetToZero cap) 32 i), (bits_above (MayBeSetToOne cap) 32 i) by lia. by rewrite andb_false_r.
  - intros i Hi. rewrite Z.lor_spec, !Z.land_spec, Z.lor_spec, low_bit, high_bit by lia. specialize (Hc i Hi). cbn beta in Hc.
    destruct (Z.testbit cap i), (Z.testbit cap (32 + i)), (Z.testbit v i); cbn; naive_solver.
Qed.
Lemma register_nearest n must may mask v : coherent n (fun i => Z.testbit must i) (fun i => Z.testbit may i) ->
  accepted_for n (fun i => Z.testbit must i && Z.testbit mask i) (fun i => Z.testbit may i) v
    (Z.lor (Z.land v (Z.lor must may)) (Z.land (Z.land must may) mask)).
Proof.
  intros Hc i Hi. specialize (Hc i Hi). cbn beta in Hc. rewrite Z.lor_spec, !Z.land_spec, Z.lor_spec.
  destruct (Z.testbit must i), (Z.testbit may i), (Z.testbit mask i), (Z.testbit v i); cbn; naive_solver.
Qed.
Lemma accepted_ext n must must' may v v' : (forall i, 0 <= i < n -> must i = must' i) -> accepted_for n must may v v' -> accepted_for n must' may v v'.
Proof. intros E H i Hi. rewrite <- (E i Hi). by apply H. Qed.

(** C33. Every control field and control register that is made compliant is one that the processor whose
    capability MSRs were read accepts: IA32_VMX_PINBASED_CTLS (0x481), PROCBASED_CTLS (0x482), EXIT_CTLS
    (0x483), ENTRY_CTLS (0x484) and, where bit 63 of 0x482 says that they exist, PROCBASED_CTLS2 (0x48B) for
    the controls; CR0_FIXED0 and CR0_FIXED1 (0x486, 0x487) for CR0, with PE and PG free on a processor with
    unrestricted guests (bit 39 of 0x48B); CR4_FIXED0 and CR4_FIXED1 (0x488, 0x489) for CR4. Only bits that the
    processor fixes are changed; without secondary controls their field is 0. The MSRs must not ask for a 1
    that they do not allow. *)
Theorem vmcs_hw_compliant_accepted (hw_read_msr : Z -> Z) (v : Z) :
  Forall (fun m => control_coherent (hw_read_msr m)) [0x481; 0x482; 0x483; 0x484; 0x48B] ->
  coherent 64 (fun i => Z.testbit (hw_read_msr 0x486) i) (fun i => Z.testbit (hw_read_msr 0x487) i) ->
  coherent 64 (fun i => Z.testbit (hw_read_msr 0x488) i) (fun i => Z.testbit (hw_read_msr 0x489) i) ->
  let g := (fill_vmx_capabilities hw_read_msr).2 in
  let secondary := Z.testbit (hw_read_msr 0x482) 63 in
  let unrestricted := secondary && Z.testbit (hw_read_msr 0x48B) 39 in
  control_accepted (hw_read_msr 0x481) v (vmcs_hw_make_compliant_pin_based_exec_ctrl g v) /\
  control_accepted (hw_read_msr 0x482) v (vmcs_hw_make_compliant_processor_based_exec_ctrl g v) /\
  control_accepted (if secondary then hw_read_msr 0x48B else 0) v (vmcs_hw_make_compliant_processor_based_exec_ctrl2 g v) /\
  control_accepted (hw_read_msr 0x483) v (vmcs_hw_make_compliant_vm_exit_ctrl g v) /\
  control_accepted (hw_read_msr 0x484) v (vmcs_hw_make_compliant_vm_entry_ctrl g v) /\
  accepted_for 64 (fun i => Z.testbit (hw_read_msr 0x486) i && negb (unrestricted && ((i =? 0) || (i =? 31))))
    (fun i => Z.testbit (hw_read_msr 0x487) i) v (vmcs_hw_make_compliant_cr0 g v) /\
  accepted_for 64 (fun i => Z.testbit (hw_read_msr 0x488) i) (fun i => Z.testbit (hw_read_msr 0x489) i) v
    (vmcs_hw_make_compliant_cr4 g v).
Proof.
  rewrite !Forall_cons. intros (M1 & M2 & M3 & M4 & M5 & _) H0 H4. cbv zeta. unfold fill_vmx_capabilities. cbn [snd].
  assert (ES : SecondaryControls (MayBeSetToOne (hw_read_msr 0x482)) = Z.testbit (hw_read_msr 0x482) 63)
    by (unfold SecondaryControls; by rewrite high_bit by lia).
  assert (EC : ProcessorBasedVmExecutionControls2 (read_capabilities hw_read_msr) = if Z.testbit (hw_read_msr 0x482) 63 then hw_read_msr 0x48B else 0)
    by (unfold read_capabilities; cbn [ProcessorBasedVmExecutionControls2]; change IA32_MSR_PROCESSOR_BASED_VM_EXECUTION_CONTROLS_INDEX with 0x482; by rewrite ES).
  split; [by apply control_nearest|]. split; [by apply control_nearest|]. split.
  { rewrite <- EC. apply control_nearest. rewrite EC. case_match; [exact M5|]. intros i Hi Hb. cbv beta in Hb. by rewrite Z.bits_0 in Hb. }
  split; [by apply control_nearest|]. split; [by apply control_nearest|]. split.
  - assert (EU : unrestricted_guest_supported (constraints_of (read_capabilities hw_read_msr)) =
      Z.testbit (hw_read_msr 0x482) 63 && Z.testbit (hw_read_msr 0x48B) 39).
    { cbn [constraints_of unrestricted_guest_supported]. rewrite EC. change (ProcessorBasedVmExecutionControls _) with (hw_read_msr 0x482).
      rewrite ES. destruct (Z.testbit (hw_read_msr 0x482) 63); [|done]. cbn [andb]. unfold UnrestrictedGuest. by rewrite high_bit by lia. }
    unfold vmcs_hw_make_compliant_cr0. cbn [fixed_of fixed_0_cr0 fixed_1_cr0]. rewrite EU.
    change (may0_cr0 _) with (hw_read_msr 0x486). change (may1_cr0 _) with (hw_read_msr 0x487). clear EU ES EC.
    destruct (Z.testbit (hw_read_msr 0x482) 63 && Z.testbit (hw_read_msr 0x48B) 39).
    + eapply accepted_ext; [|by apply (register_nearest 64)]. intros i Hi. cbv beta. f_equal.
      assert (E : forallb (fun i => Bool.eqb (Z.testbit MASK_PE_PG_OFF_UNRESTRICTED_GUEST i) (negb ((i =? 0) || (i =? 31)))) (seqZ 0 64) = true)
        by (vm_compute; reflexivity).
      rewrite forallb_forall in E. apply Bool.eqb_prop, E, list_elem_of_In, elem_of_seqZ. lia.
    + pose proof (register_nearest 64 _ _ (-1) v H0) as X. rewrite Z.land_m1_r in X. eapply accepted_ext; [|exact X].
      intros i Hi. cbv beta. cbn [andb negb]. by rewrite Z.bits_m1 by lia.
  - unfold vmcs_hw_make_compliant_cr4. cbn [fixed_of fixed_0_cr4 fixed_1_cr4].
    change (may0_cr4 _) with (hw_read_msr 0x488). change (may1_cr4 _) with (hw_read_msr 0x489).
    pose proof (register_nearest 64 _ _ (-1) v H4) as X. rewrite Z.land_m1_r in X. eapply accepted_ext; [|exact X].
    intros i Hi. cbv beta. by rewrite Z.bits_m1, andb_true_r by lia.
Qed.

(** The registers of a processor with EPT and without unrestricted guests. *)
Definition sample_msrs (m : Z) : Z :=
  if m =? IA32_MSR_PIN_BASED_VM_EXECUTION_CONTROLS_INDEX then 0x7F00000016
  else if m =? IA32_MSR_PROCESSOR_BASED_VM_EXECUTION_CONTROLS_INDEX then 0xF7F9FFFE0401E172
  else if m =? IA32_MSR_PROCESSOR_BASED_VM_EXECUTION_CONTROLS2_INDEX then 0x2200000000
  else if m =? IA32_MSR_VM_EXIT_CONTROLS_INDEX then 0x7FFFFF00036DFF
  else if m =? IA32_MSR_VM_ENTRY_CONTROLS_INDEX then 0xFFFF000011FF
  else if m =? IA32_MSR_CR0_ALLOWED_ZERO_INDEX then 0x80000021
  else if m =? IA32_MSR_CR0_ALLOWED_ONE_INDEX then 0xFFFFFFFF
  else if m =? IA32_MSR_CR4_ALLOWED_ZERO_INDEX then 0x2000
  else if m =? IA32_MSR_CR4_ALLOWED_ONE_INDEX then 0x67FF else 0.

Lemma consistent_land lo hi : Z.land lo hi = lo -> consistent lo hi.
Proof. intros E i Hi Hb. rewrite <- E, Z.land_spec in Hb. by apply andb_true_iff in Hb as [_ Hb]. Qed.

Lemma coherent_decide n must may : forallb (fun i => negb (must i) || may i) (seqZ 0 n) = true -> coherent n must may.
Proof.
  intros E i Hi Hb. rewrite forallb_forall in E. specialize (E i). rewrite Hb in E. cbn [negb orb] in E.
  apply E, list_elem_of_In, elem_of_seqZ. lia.
Qed.

Lemma vmcs_hw_compliant_accepted_witness :
  let g := (fill_vmx_capabilities sample_msrs).2 in
  vmcs_hw_make_compliant_cr0 g 0x11 = 0x80000031 /\ vmcs_hw_make_compliant_vm_exit_ctrl g 0x11 = 0x36DFF /\
  control_accepted 0x7FFFFF00036DFF 0x11 (vmcs_hw_make_compliant_vm_exit_ctrl g 0x11).
Proof.
  assert (H1 : Forall (fun m => control_coherent (sample_msrs m)) [0x481; 0x482; 0x483; 0x484; 0x48B])
    by (repeat (constructor; [apply coherent_decide; vm_compute; reflexivity|]); constructor).
  destruct (vmcs_hw_compliant_accepted sample_msrs 0x11 H1 ltac:(apply coherent_decide; vm_compute; reflexivity)
    ltac:(apply coherent_decide; vm_compute; reflexivity)) as (_ & _ & _ & X & _).
  split; [vm_compute; reflexivity|]. split; [vm_compute; reflexivity|exact X].
Defined.
