(* ===== verification/GuestCpu.v ===== *)
(** guest/guest_cpu/guest_cpu_access.c: the registers of a guest CPU, kept in the VMCS and in its save area.

    The VMCS is used through [VmcsOps]. In this build a guest CPU has one VMCS object, which is its merged
    and its level-0 VMCS; the level-1 pointer is NULL (vmcs_hierarchy.c). *)

From S2P Require Import Prelude VmmDefs VmcsFields Vmcs VmcsMsrList VmcsHw.

(** * Registers *)

Definition IA32_REG_RAX : Z := 0.
Definition IA32_REG_RBX : Z := 1.
Definition IA32_REG_RCX : Z := 2.
Definition IA32_REG_RDX : Z := 3.
Definition IA32_REG_RDI : Z := 4.
Definition IA32_REG_RSI : Z := 5.
Definition IA32_REG_RBP : Z := 6.
Definition IA32_REG_RSP : Z := 7.
Definition IA32_REG_R8 : Z := 8.
Definition IA32_REG_RIP : Z := 16.
Definition IA32_REG_RFLAGS : Z := 17.
Definition IA32_REG_GP_COUNT : Z := 18.

(** The entries of RSP, RFLAGS and RIP in the save area hold control registers. *)
Definition CR2_SAVE_AREA : Z := IA32_REG_RSP.
Definition CR3_SAVE_AREA : Z := IA32_REG_RFLAGS.
Definition CR8_SAVE_AREA : Z := IA32_REG_RIP.
Definition INVALID_CR3_SAVED_VALUE : Z := UINT64_ALL_ONES.

Inductive VMM_IA32_SEGMENT_REGISTERS :=
| IA32_SEG_CS | IA32_SEG_DS | IA32_SEG_SS | IA32_SEG_ES | IA32_SEG_FS | IA32_SEG_GS | IA32_SEG_LDTR | IA32_SEG_TR.
Inductive VMM_IA32_CONTROL_REGISTERS :=
| IA32_CTRL_CR0 | IA32_CTRL_CR2 | IA32_CTRL_CR3 | IA32_CTRL_CR4 | IA32_CTRL_CR8 | UNSUPPORTED_CR.

#[global] Instance seg_eq_dec : EqDecision VMM_IA32_SEGMENT_REGISTERS.
Proof. solve_decision. Defined.
#[global] Instance cr_eq_dec : EqDecision VMM_IA32_CONTROL_REGISTERS.
Proof. solve_decision. Defined.

Definition IA32_REG_DR7 : Z := 5.
Definition IA32_REG_DEBUG_COUNT : Z := 6.

(** The fields of a segment register: selector, base, limit, access rights. *)
Record SEGMENT_2_VMCS := mk_seg { sel : Z; seg_base : Z; limit : Z; ar : Z }.
Definition g_segment_2_vmcs (r : VMM_IA32_SEGMENT_REGISTERS) : SEGMENT_2_VMCS :=
  match r with
  | IA32_SEG_CS => mk_seg VMCS_GUEST_CS_SELECTOR VMCS_GUEST_CS_BASE VMCS_GUEST_CS_LIMIT VMCS_GUEST_CS_AR
  | IA32_SEG_DS => mk_seg VMCS_GUEST_DS_SELECTOR VMCS_GUEST_DS_BASE VMCS_GUEST_DS_LIMIT VMCS_GUEST_DS_AR
  | IA32_SEG_SS => mk_seg VMCS_GUEST_SS_SELECTOR VMCS_GUEST_SS_BASE VMCS_GUEST_SS_LIMIT VMCS_GUEST_SS_AR
  | IA32_SEG_ES => mk_seg VMCS_GUEST_ES_SELECTOR VMCS_GUEST_ES_BASE VMCS_GUEST_ES_LIMIT VMCS_GUEST_ES_AR
  | IA32_SEG_FS => mk_seg VMCS_GUEST_FS_SELECTOR VMCS_GUEST_FS_BASE VMCS_GUEST_FS_LIMIT VMCS_GUEST_FS_AR
  | IA32_SEG_GS => mk_seg VMCS_GUEST_GS_SELECTOR VMCS_GUEST_GS_BASE VMCS_GUEST_GS_LIMIT VMCS_GUEST_GS_AR
  | IA32_SEG_LDTR => mk_seg VMCS_GUEST_LDTR_SELECTOR VMCS_GUEST_LDTR_BASE VMCS_GUEST_LDTR_LIMIT VMCS_GUEST_LDTR_AR
  | IA32_SEG_TR => mk_seg VMCS_GUEST_TR_SELECTOR VMCS_GUEST_TR_BASE VMCS_GUEST_TR_LIMIT VMCS_GUEST_TR_AR
  end.

(** The model specific registers by their place in the two tables. *)
Definition IA32_VMM_MSR_DEBUGCTL : Z := 0.
Definition IA32_VMM_MSR_EFER : Z := 1.
Definition IA32_VMM_MSR_PAT : Z := 2.
Definition IA32_VMM_MSR_SYSENTER_ESP : Z := 3.
Definition IA32_VMM_MSR_SYSENTER_EIP : Z := 4.
Definition IA32_VMM_MSR_SYSENTER_CS : Z := 5.
Definition IA32_VMM_MSR_SMBASE : Z := 6.
Definition IA32_VMM_MSR_PERF_GLOBAL_CTRL : Z := 7.
Definition IA32_VMM_MSR_FS_BASE : Z := 12.

Definition IA32_INVALID_MSR_INDEX : Z := 0xFFFFFFFF.
Definition IA32_MSR_FS_BASE : Z := 0xC0000100.
Definition IA32_MSR_GS_BASE : Z := 0xC0000101.

Definition g_msr_2_vmcs : list Z :=
  [VMCS_GUEST_DEBUG_CONTROL; VMCS_GUEST_EFER; VMCS_GUEST_PAT; VMCS_GUEST_SYSENTER_ESP; VMCS_GUEST_SYSENTER_EIP;
   VMCS_GUEST_SYSENTER_CS; VMCS_GUEST_SMBASE; VMCS_GUEST_IA32_PERF_GLOBAL_CTRL; VMCS_GUEST_FS_BASE; VMCS_GUEST_GS_BASE].
Definition g_msr_2_index : list Z :=
  [0x1D9; 0xC0000080; 0x277; 0x175; 0x176; 0x174; IA32_INVALID_MSR_INDEX; 0x38F; IA32_MSR_FS_BASE; IA32_MSR_GS_BASE].

Definition EFER_LME : Z := 0x100.
Definition EFER_LMA : Z := 0x400.

(** Bits of state_flags and caching_flags. *)
Definition GCPU_ACTIVITY_STATE_CHANGED_FLAG : Z := 3.
Definition GCPU_EXCEPTION_RESOLUTION_REQUIRED_FLAG : Z := 4.
Definition GCPU_UNRESTRICTED_GUEST_FLAG : Z := 6.
Definition GCPU_IMPORTANT_EVENT_OCCURED_FLAG : Z := 7.
Definition GCPU_DEBUG_REGS_CACHED_FLAG : Z := 1.
Definition GCPU_DEBUG_REGS_MODIFIED_FLAG : Z := 3.
Definition BIT_SET (w b : Z) : Z := Z.lor w (Z.shiftl 1 b).
Definition BIT_CLR (w b : Z) : Z := Z.ldiff w (Z.shiftl 1 b).
Definition BIT_GET (w b : Z) : bool := Z.testbit w b.

Inductive GUEST_LEVEL_ENUM := GUEST_LEVEL_1_SIMPLE | GUEST_LEVEL_1_VMM | GUEST_LEVEL_2.

(** * The guest CPU *)

(** guest_cpu_control.h: the number of requests for each bit of a control field, the bits that are
    requested, and the bits that are always 1 and that may be 1. *)
Record GCPU_VMEXIT_CONTROL_FIELD_COUNTERS := mk_counters {
  counters : list Z;
  bit_field : Z;
  minimal_1_settings : Z;
  minimal_0_settings : Z
}.

(** The members of GCPU_VMEXIT_CONTROLS. *)
Inductive control_field :=
| ctl_cr0 | ctl_cr4 | ctl_pin_ctrls | ctl_processor_ctrls | ctl_processor_ctrls2 | ctl_exceptions_ctrls
| ctl_vm_entry_ctrls | ctl_vm_exit_ctrls.
#[global] Instance control_field_eq_dec : EqDecision control_field.
Proof. solve_decision. Defined.
Abbreviation GCPU_VMEXIT_CONTROLS := (control_field -> GCPU_VMEXIT_CONTROL_FIELD_COUNTERS).

Record GUEST_CPU (O : Type) := mk_gcpu {
  vmcs : O;
  gp : list Z;
  xmm : list Z;
  debug : list Z;
  state_flags : Z;
  caching_flags : Z;
  cached_activity_state : Z;
  last_guest_level : GUEST_LEVEL_ENUM;
  next_guest_level : GUEST_LEVEL_ENUM;
  vmexit_setup : GCPU_VMEXIT_CONTROLS
}.
Arguments mk_gcpu {O}.
Arguments vmcs {O}.
Arguments gp {O}.
Arguments xmm {O}.
Arguments debug {O}.
Arguments state_flags {O}.
Arguments caching_flags {O}.
Arguments cached_activity_state {O}.
Arguments last_guest_level {O}.
Arguments next_guest_level {O}.
Arguments vmexit_setup {O}.

Section Gcpu.
Context {O : Type} `{VmcsOps O} (t : list VMCS_ENCODING).
Abbreviation gcpu := (GUEST_CPU O).
Implicit Types g : gcpu.

Definition set_vmcs (o : O) g : gcpu :=
  mk_gcpu o (gp g) (xmm g) (debug g) (state_flags g) (caching_flags g) (cached_activity_state g) (last_guest_level g) (next_guest_level g) (vmexit_setup g).
Definition set_gp (l : list Z) g : gcpu :=
  mk_gcpu (vmcs g) l (xmm g) (debug g) (state_flags g) (caching_flags g) (cached_activity_state g) (last_guest_level g) (next_guest_level g) (vmexit_setup g).
Definition set_xmm (l : list Z) g : gcpu :=
  mk_gcpu (vmcs g) (gp g) l (debug g) (state_flags g) (caching_flags g) (cached_activity_state g) (last_guest_level g) (next_guest_level g) (vmexit_setup g).
Definition set_debug (l : list Z) g : gcpu :=
  mk_gcpu (vmcs g) (gp g) (xmm g) l (state_flags g) (caching_flags g) (cached_activity_state g) (last_guest_level g) (next_guest_level g) (vmexit_setup g).
Definition set_state_flag (b : Z) g : gcpu :=
  mk_gcpu (vmcs g) (gp g) (xmm g) (debug g) (BIT_SET (state_flags g) b) (caching_flags g) (cached_activity_state g) (last_guest_level g) (next_guest_level g) (vmexit_setup g).
Definition set_caching_flag (b : Z) g : gcpu :=
  mk_gcpu (vmcs g) (gp g) (xmm g) (debug g) (state_flags g) (BIT_SET (caching_flags g) b) (cached_activity_state g) (last_guest_level g) (next_guest_level g) (vmexit_setup g).

Definition clr_state_flag (b : Z) g : gcpu :=
  mk_gcpu (vmcs g) (gp g) (xmm g) (debug g) (BIT_CLR (state_flags g) b) (caching_flags g) (cached_activity_state g) (last_guest_level g) (next_guest_level g) (vmexit_setup g).
Definition set_controls (f : control_field) (c : GCPU_VMEXIT_CONTROL_FIELD_COUNTERS) g : gcpu :=
  mk_gcpu (vmcs g) (gp g) (xmm g) (debug g) (state_flags g) (caching_flags g) (cached_activity_state g) (last_guest_level g) (next_guest_level g)
    (fun f' => if decide (f' = f) then c else vmexit_setup g f').

Definition vmcs_hierarchy_get_vmcs g (level : VMCS_LEVEL) : option O :=
  match level with VMCS_LEVEL_1 => None | _ => Some (vmcs g) end.

(** [vmcs_read] and [vmcs_write] of the VMCS of a level. *)
Definition read_vmcs g (level : VMCS_LEVEL) (field : Z) : outcome (Z * gcpu) :=
  match vmcs_hierarchy_get_vmcs g level with
  | None => Fault
  | Some o => r ← vmcs_read t o field; Ok (r.1, set_vmcs r.2 g)
  end.
Definition write_vmcs g (level : VMCS_LEVEL) (field value : Z) : outcome gcpu :=
  match vmcs_hierarchy_get_vmcs g level with
  | None => Fault
  | Some o => o ← vmcs_write t o field value; Ok (set_vmcs o g)
  end.

(** ** General purpose registers *)

Definition gcpu_get_native_gp_reg_layered g (reg : Z) (level : VMCS_LEVEL) : outcome (Z * gcpu) :=
  if reg =? IA32_REG_RSP then read_vmcs g level VMCS_GUEST_RSP
  else if reg =? IA32_REG_RIP then read_vmcs g level VMCS_GUEST_RIP
  else if reg =? IA32_REG_RFLAGS then read_vmcs g level VMCS_GUEST_RFLAGS
  else v ← rd (gp g) reg; Ok (v, g).

Definition gcpu_set_native_gp_reg_layered g (reg value : Z) (level : VMCS_LEVEL) : outcome gcpu :=
  if reg =? IA32_REG_RSP then write_vmcs g level VMCS_GUEST_RSP value
  else if reg =? IA32_REG_RIP then write_vmcs g level VMCS_GUEST_RIP value
  else if reg =? IA32_REG_RFLAGS then write_vmcs g level VMCS_GUEST_RFLAGS value
  else l ← wr (gp g) reg value; Ok (set_gp l g).

Definition gcpu_get_gp_reg_layered g reg level := gcpu_get_native_gp_reg_layered g reg level.
Definition gcpu_set_gp_reg_layered g reg value level := gcpu_set_native_gp_reg_layered g reg value level.

(** The place in the caller's array of each register that is copied. *)
Definition all_gp_regs : list (Z * Z) :=
  [(IA32_REG_RAX, 0); (IA32_REG_RBX, 1); (IA32_REG_RCX, 2); (IA32_REG_RDX, 3); (IA32_REG_RBP, 5); (IA32_REG_RSI, 6);
   (IA32_REG_RDI, 7); (8, 8); (9, 9); (10, 10); (11, 11); (12, 12); (13, 13); (14, 14); (15, 15)].
Fixpoint copy_gp_regs (regs : list (Z * Z)) (l GPReg : list Z) : outcome (list Z) :=
  match regs with
  | [] => Ok l
  | (r, i) :: regs => v ← rd GPReg i; l ← wr l r v; copy_gp_regs regs l GPReg
  end.
Definition gcpu_set_all_gp_regs_internal g (GPReg : list Z) : outcome gcpu :=
  l ← copy_gp_regs all_gp_regs (gp g) GPReg; Ok (set_gp l g).

Definition gcpu_set_xmm_reg g (reg value : Z) : outcome gcpu := l ← wr (xmm g) reg value; Ok (set_xmm l g).

(** ** Segments and descriptor tables *)

Definition gcpu_get_segment_reg_layered g (reg : VMM_IA32_SEGMENT_REGISTERS) (level : VMCS_LEVEL)
  : outcome (Z * Z * Z * Z * gcpu) :=
  let f := g_segment_2_vmcs reg in
  r ← read_vmcs g level (sel f); let '(selector, g) := r in
  r ← read_vmcs g level (seg_base f); let '(base, g) := r in
  r ← read_vmcs g level (limit f); let '(lim, g) := r in
  r ← read_vmcs g level (ar f); let '(attributes, g) := r in
  Ok (u16 selector, base, u32 lim, u32 attributes, g).

Definition gcpu_set_segment_reg_layered g (reg : VMM_IA32_SEGMENT_REGISTERS) (selector base lim attributes : Z)
  (level : VMCS_LEVEL) : outcome gcpu :=
  let f := g_segment_2_vmcs reg in
  g ← write_vmcs g level (sel f) selector;
  g ← write_vmcs g level (seg_base f) base;
  g ← write_vmcs g level (limit f) lim;
  write_vmcs g level (ar f) attributes.

(** Base and limit. *)
Definition get_table g (level : VMCS_LEVEL) (base_field limit_field : Z) : outcome (Z * Z * gcpu) :=
  r ← read_vmcs g level base_field; let '(base, g) := r in
  r ← read_vmcs g level limit_field; let '(lim, g) := r in
  Ok (base, u32 lim, g).
Definition set_table_reg g (level : VMCS_LEVEL) (base_field limit_field base lim : Z) : outcome gcpu :=
  g ← write_vmcs g level base_field base; write_vmcs g level limit_field lim.

Definition gcpu_get_gdt_reg_layered g level := get_table g level VMCS_GUEST_GDTR_BASE VMCS_GUEST_GDTR_LIMIT.
Definition gcpu_set_gdt_reg_layered g base lim level := set_table_reg g level VMCS_GUEST_GDTR_BASE VMCS_GUEST_GDTR_LIMIT base lim.
Definition gcpu_get_idt_reg_layered g level := get_table g level VMCS_GUEST_IDTR_BASE VMCS_GUEST_IDTR_LIMIT.
Definition gcpu_set_idt_reg_layered g base lim level := set_table_reg g level VMCS_GUEST_IDTR_BASE VMCS_GUEST_IDTR_LIMIT base lim.

(** ** Control registers *)

Section Fixed.
Context (fx : VMCS_HW_FIXED).

Definition gcpu_get_control_reg_layered g (reg : VMM_IA32_CONTROL_REGISTERS) (level : VMCS_LEVEL) : outcome (Z * gcpu) :=
  match reg with
  | IA32_CTRL_CR0 => read_vmcs g level VMCS_GUEST_CR0
  | IA32_CTRL_CR2 => v ← rd (gp g) CR2_SAVE_AREA; Ok (v, g)
  | IA32_CTRL_CR3 => read_vmcs g level VMCS_GUEST_CR3
  | IA32_CTRL_CR4 => read_vmcs g level VMCS_GUEST_CR4
  | IA32_CTRL_CR8 => v ← rd (gp g) CR8_SAVE_AREA; Ok (v, g)
  | UNSUPPORTED_CR => Ok (0, g)
  end.

(** The VMCS of the level is [gcpu_get_vmcs] unless it is the NULL of level 1. *)
Definition gcpu_set_control_reg_layered g (reg : VMM_IA32_CONTROL_REGISTERS) (value : Z) (level : VMCS_LEVEL) : outcome gcpu :=
  let own := match level with VMCS_LEVEL_1 => false | _ => true end in
  match reg with
  | IA32_CTRL_CR0 => write_vmcs g level VMCS_GUEST_CR0 (if own then vmcs_hw_make_compliant_cr0 fx value else value)
  | IA32_CTRL_CR2 => l ← wr (gp g) CR2_SAVE_AREA value; Ok (set_gp l g)
  | IA32_CTRL_CR3 => write_vmcs g level VMCS_GUEST_CR3 value
  | IA32_CTRL_CR4 => write_vmcs g level VMCS_GUEST_CR4 (if own then vmcs_hw_make_compliant_cr4 fx value else value)
  | IA32_CTRL_CR8 => l ← wr (gp g) CR8_SAVE_AREA (vmcs_hw_make_compliant_cr8 value); Ok (set_gp l g)
  | UNSUPPORTED_CR => Ok g
  end.

(** The value the guest sees: the bits of the mask come from the shadow. *)
Definition shadowed (real mask shadow : Z) : Z := Z.lor (Z.land real (u64 (Z.lnot mask))) (Z.land shadow mask).

Definition gcpu_get_guest_visible_control_reg_layered g (reg : VMM_IA32_CONTROL_REGISTERS) (level : VMCS_LEVEL)
  : outcome (Z * gcpu) :=
  match reg with
  | IA32_CTRL_CR3 =>
      real_value ← rd (gp g) CR3_SAVE_AREA;
      if INVALID_CR3_SAVED_VALUE =? real_value then gcpu_get_control_reg_layered g IA32_CTRL_CR3 level else Ok (real_value, g)
  | _ =>
      r ← gcpu_get_control_reg_layered g reg level;
      let '(real_value, g) := r in
      match reg with
      | IA32_CTRL_CR0 =>
          r ← read_vmcs g level VMCS_CR0_MASK; let '(mask, g) := r in
          r ← read_vmcs g level VMCS_CR0_READ_SHADOW; let '(shadow, g) := r in
          Ok (shadowed real_value mask shadow, g)
      | IA32_CTRL_CR4 =>
          r ← read_vmcs g level VMCS_CR4_MASK; let '(mask, g) := r in
          r ← read_vmcs g level VMCS_CR4_READ_SHADOW; let '(shadow, g) := r in
          Ok (shadowed real_value mask shadow, g)
      | _ => Ok (real_value, g)
      end
  end.

Definition gcpu_set_guest_visible_control_reg_layered g (reg : VMM_IA32_CONTROL_REGISTERS) (value : Z) (level : VMCS_LEVEL)
  : outcome gcpu :=
  match reg with
  | IA32_CTRL_CR3 => l ← wr (gp g) CR3_SAVE_AREA value; Ok (set_gp l g)
  | IA32_CTRL_CR0 => write_vmcs (set_state_flag GCPU_IMPORTANT_EVENT_OCCURED_FLAG g) level VMCS_CR0_READ_SHADOW value
  | IA32_CTRL_CR4 => write_vmcs g level VMCS_CR4_READ_SHADOW value
  | _ => gcpu_set_control_reg_layered g reg value level
  end.
End Fixed.

(** ** Debug registers *)

Section Debug.
(** The debug registers of the processor. *)
Context (hw_read_dr : Z -> Z).

Definition cache_debug_registers g : outcome gcpu :=
  if BIT_GET (caching_flags g) GCPU_DEBUG_REGS_CACHED_FLAG then Ok g
  else
    let g := set_caching_flag GCPU_DEBUG_REGS_CACHED_FLAG g in
    l ← wr (debug g) 0 (hw_read_dr 0);
    l ← wr l 1 (hw_read_dr 1);
    l ← wr l 2 (hw_read_dr 2);
    l ← wr l 3 (hw_read_dr 3);
    l ← wr l 4 (hw_read_dr 6);
    Ok (set_debug l g).

Definition gcpu_get_debug_reg_layered g (reg : Z) (level : VMCS_LEVEL) : outcome (Z * gcpu) :=
  if reg =? IA32_REG_DR7 then read_vmcs g level VMCS_GUEST_DR7
  else g ← cache_debug_registers g; v ← rd (debug g) reg; Ok (v, g).

Definition gcpu_set_debug_reg_layered g (reg value : Z) (level : VMCS_LEVEL) : outcome gcpu :=
  if reg =? IA32_REG_DR7 then write_vmcs g level VMCS_GUEST_DR7 value
  else
    g ← cache_debug_registers g;
    l ← wr (debug g) reg value;
    Ok (set_caching_flag GCPU_DEBUG_REGS_MODIFIED_FLAG (set_debug l g)).
End Debug.

(** ** Other state *)

Definition gcpu_get_interruptibility_state_layered g level : outcome (Z * gcpu) :=
  r ← read_vmcs g level VMCS_GUEST_INTERRUPTIBILITY; Ok (u32 r.1, r.2).
Definition gcpu_set_interruptibility_state_layered g value level := write_vmcs g level VMCS_GUEST_INTERRUPTIBILITY value.

Definition gcpu_get_activity_state_layered g level := read_vmcs g level VMCS_GUEST_SLEEP_STATE.
(** The hierarchy is not layered. *)
Definition gcpu_set_activity_state_layered g value level : outcome gcpu :=
  g ← write_vmcs g level VMCS_GUEST_SLEEP_STATE value;
  if negb (value =? cached_activity_state g)
  then Ok (set_state_flag GCPU_IMPORTANT_EVENT_OCCURED_FLAG (set_state_flag GCPU_ACTIVITY_STATE_CHANGED_FLAG g))
  else Ok g.

Definition gcpu_get_pending_debug_exceptions_layered g level := read_vmcs g level VMCS_GUEST_PEND_DBE.
Definition gcpu_set_pending_debug_exceptions_layered g value level := write_vmcs g level VMCS_GUEST_PEND_DBE value.

Definition gcpu_get_guest_level g : GUEST_LEVEL_ENUM := last_guest_level g.
Definition gcpu_set_next_guest_level (level : GUEST_LEVEL_ENUM) g : gcpu :=
  mk_gcpu (vmcs g) (gp g) (xmm g) (debug g) (state_flags g) (caching_flags g) (cached_activity_state g) (last_guest_level g) level (vmexit_setup g).

(** The report of the single step changes nothing here. *)
Definition gcpu_skip_guest_instruction g : outcome gcpu :=
  r ← read_vmcs g VMCS_MERGED VMCS_EXIT_INFO_INSTRUCTION_LENGTH; let '(inst_length, g) := r in
  r ← read_vmcs g VMCS_MERGED VMCS_GUEST_RIP; let '(rip, g) := r in
  write_vmcs g VMCS_MERGED VMCS_GUEST_RIP (rip ⊕₆₄ inst_length).

(** ** Segment registers for real mode *)

Definition BITMAP_CLR (w mask : Z) : Z := Z.ldiff w mask.
Definition set_bits_at (w pos mask v : Z) : Z := Z.lor (Z.ldiff w (Z.shiftl mask pos)) (Z.shiftl v pos).

(** Fields of the access rights. *)
Definition ar_type (a : Z) : Z := Z.land a 15.
Definition ar_s (a : Z) : bool := Z.testbit a 4.
Definition ar_dpl (a : Z) : Z := Z.land (Z.shiftr a 5) 3.
Definition ar_p (a : Z) : bool := Z.testbit a 7.
Definition ar_l (a : Z) : bool := Z.testbit a 13.
Definition ar_g (a : Z) : bool := Z.testbit a 15.
Definition ar_null (a : Z) : bool := Z.testbit a 16.
Definition with_type (v a : Z) : Z := set_bits_at a 0 15 v.
Definition with_dpl (v a : Z) : Z := set_bits_at a 5 3 v.
Definition with_bit (b : Z) (v : bool) (a : Z) : Z := if v then BIT_SET a b else BIT_CLR a b.

Record seg_reg64_t := mk_segreg { sr_selector : Z; sr_base : Z; sr_limit : Z; arbyte : Z }.

(** The case of LDTR runs on into that of TR. *)
Definition arch_make_segreg_real_mode_compliant (r : seg_reg64_t) (reg_id : VMM_IA32_SEGMENT_REGISTERS) : seg_reg64_t :=
  let a := arbyte r in
  let a := if (sr_selector r <? 8) && bool_decide (reg_id = IA32_SEG_LDTR) then with_bit 16 true a else a in
  let a := if bool_decide (reg_id = IA32_SEG_TR) || bool_decide (reg_id = IA32_SEG_CS) then with_bit 16 false a else a in
  if ar_null a then mk_segreg (sr_selector r) (sr_base r) (sr_limit r) a
  else
    let selector := BITMAP_CLR (sr_selector r) 7 in
    let a := Z.land a 0xF0FF in
    let a := with_bit 7 true (with_dpl 0 a) in
    let g_must_be_one := negb (Z.land (sr_limit r) 0xFFF00000 =? 0) in
    let a := with_bit 15 g_must_be_one a in
    match reg_id with
    | IA32_SEG_CS => mk_segreg selector (sr_base r) (sr_limit r) (with_bit 13 false (with_bit 4 true (with_type 11 a)))
    | IA32_SEG_SS | IA32_SEG_DS | IA32_SEG_ES | IA32_SEG_FS | IA32_SEG_GS =>
        mk_segreg selector (sr_base r) (sr_limit r) (with_bit 4 true (with_type (Z.lor (ar_type a) 3) a))
    | IA32_SEG_LDTR =>
        mk_segreg (BIT_CLR (BIT_CLR selector 2) 2) (sr_base r) (sr_limit r)
          (with_type 11 (with_bit 4 false (with_type 2 (with_bit 4 false a))))
    | IA32_SEG_TR => mk_segreg (BIT_CLR selector 2) (sr_base r) (sr_limit r) (with_type 11 (with_bit 4 false a))
    end.

Definition make_segreg_hw_real_mode_compliant g (selector base lim attr : Z) (reg_id : VMM_IA32_SEGMENT_REGISTERS)
  : outcome gcpu :=
  let r := arch_make_segreg_real_mode_compliant (mk_segreg selector base lim attr) reg_id in
  gcpu_set_segment_reg_layered g reg_id (sr_selector r) (sr_base r) (sr_limit r) (arbyte r) VMCS_MERGED.
End Gcpu.
