(* ===== verification/GuestCpuSpec.v ===== *)
(** A guest CPU whose VMCS has a given content: the lemmas that the components above guest_cpu_access.c
    use for reads and writes, and the properties of the register file. *)

From S2P Require Import Prelude VmmDefs VmcsFields Vmcs VmcsSw VmcsMsrList VmcsHw GuestCpu.

(** * Bits *)

Lemma bit_set_spec w b i : 0 <= b -> 0 <= i -> Z.testbit (BIT_SET w b) i = Z.testbit w i || (i =? b).
Proof.
  intros Hb Hi. unfold BIT_SET. rewrite Z.lor_spec, Z.shiftl_1_l. f_equal.
  destruct (Z.eqb_spec i b) as [->|Hne]; [by apply Z.pow2_bits_true|by apply Z.pow2_bits_false].
Qed.
Lemma bit_clr_spec w b i : 0 <= b -> 0 <= i -> Z.testbit (BIT_CLR w b) i = Z.testbit w i && negb (i =? b).
Proof.
  intros Hb Hi. unfold BIT_CLR. rewrite Z.ldiff_spec, Z.shiftl_1_l. f_equal. f_equal.
  destruct (Z.eqb_spec i b) as [->|Hne]; [by apply Z.pow2_bits_true|by apply Z.pow2_bits_false].
Qed.

(** * Reads and writes *)

Definition among (l : list Z) (f : Z) : bool := existsb (Z.eqb f) l.
Lemma among_Forall (P : Z -> Prop) l f : Forall P l -> among l f = true -> P f.
Proof.
  intros HP Hf. apply existsb_exists in Hf as (x & Hin & E). apply Z.eqb_eq in E as ->.
  apply (proj1 (Forall_forall P l) HP). by apply list_elem_of_In.
Qed.

(** [V] with [v] in field [f]. *)
Definition fupd (V : Z -> Z) (f v : Z) : Z -> Z := fun x => if x =? f then v else V x.

Lemma fupd_eq V f v : fupd V f v f = v.
Proof. unfold fupd. by rewrite Z.eqb_refl. Qed.
Lemma fupd_ne V f v x : x <> f -> fupd V f v x = V x.
Proof. intros Hx. unfold fupd. by rewrite (proj2 (Z.eqb_neq x f) Hx). Qed.

Lemma fupd_neb V f v x : (x =? f) = false -> fupd V f v x = V x.
Proof. unfold fupd. by intros ->. Qed.
(** The content of a field that is a constant. *)
Ltac fread := repeat (rewrite fupd_eq || rewrite fupd_neb by (vm_compute; reflexivity)).

Section Client.
Context {O : Type} `{VmcsLaws O} (t : list VMCS_ENCODING).
Implicit Types g : GUEST_CPU O.

(** A field that may be read. *)
Definition reads (f : Z) : Prop := 0 <= f < VMCS_FIELD_COUNT /\ FIELD_IS_READABLE t f = Ok true /\ serves (O := O) f.
(** A field that may be read and written. *)
Definition writes (f : Z) : Prop := 0 <= f < VMCS_FIELD_COUNT /\ usable O t f.

Lemma writes_reads f : writes f -> reads f.
Proof. intros (Hf & Ht & Hs). split; [done|]. split; [apply (read_write_rights t f); [lia|done]|done]. Qed.

(** The VMCS has the content [V]. *)
Definition holds g (V : Z -> Z) : Prop := good (vmcs g) /\ forall f, 0 <= f < VMCS_FIELD_COUNT -> view (vmcs g) f = V f.
(** Nothing but the VMCS differs. *)
Definition frame g g' : Prop := g' = set_vmcs (vmcs g') g.

Lemma frame_refl g : frame g g.
Proof. by destruct g. Qed.
Lemma frame_trans g1 g2 g3 : frame g1 g2 -> frame g2 g3 -> frame g1 g3.
Proof. unfold frame. intros E1 E2. by rewrite E2, E1. Qed.
Lemma frame_setup g g' f : frame g g' -> vmexit_setup g' f = vmexit_setup g f.
Proof. intros ->. done. Qed.

Lemma holds_fits g V f : holds g V -> 0 <= f < VMCS_FIELD_COUNT -> fits 64 (V f).
Proof. intros [Hg HV] Hf. rewrite <- HV by done. by apply view_range. Qed.

Lemma holds_ext g V V' : (forall f, 0 <= f < VMCS_FIELD_COUNT -> V f = V' f) -> holds g V -> holds g V'.
Proof. intros E [Hg HV]. split; [done|]. intros f Hf. rewrite HV by done. by apply E. Qed.

Lemma read_vmcs_ok g V level f : level <> VMCS_LEVEL_1 -> holds g V -> reads f ->
  exists g', read_vmcs t g level f = Ok (V f, g') /\ holds g' V /\ frame g g'.
Proof.
  intros Hl [Hg HV] (Hf & Hr & Hs). destruct (read_law (vmcs g) f Hg Hf Hs) as (o & E & Hg' & _ & HV').
  exists (set_vmcs o g). split_and!.
  - unfold read_vmcs, vmcs_hierarchy_get_vmcs. destruct level; [|done|]; unfold vmcs_read; rewrite Hr, bind_Ok,
      (proj2 (Z.ltb_lt _ _)), orb_true_r by lia; cbn [andb]; by rewrite E, bind_Ok, HV.
  - split; [done|]. intros x Hx. cbn [vmcs set_vmcs]. rewrite HV' by done. by apply HV.
  - done.
Qed.

Lemma write_vmcs_ok g V level f v : level <> VMCS_LEVEL_1 -> holds g V -> writes f -> fits 64 v ->
  exists g', write_vmcs t g level f v = Ok g' /\ holds g' (fupd V f v) /\ frame g g'.
Proof.
  intros Hl [Hg HV] (Hf & Hu) Hv. destruct (vmcs_write_ok t (vmcs g) f v Hg Hf Hu Hv) as (o & E & Hg' & _ & HV').
  exists (set_vmcs o g). split_and!.
  - unfold write_vmcs, vmcs_hierarchy_get_vmcs. destruct level; [|done|]; by rewrite E, bind_Ok.
  - split; [done|]. intros x Hx. cbn [vmcs set_vmcs]. rewrite HV' by done. unfold fupd. case_match; [done|by apply HV].
  - done.
Qed.

Lemma update_vmcs_ok g V f v mask : holds g V -> writes f -> fits 64 v -> fits 64 mask ->
  exists o, vmcs_update t (vmcs g) f v mask = Ok o /\ holds (set_vmcs o g) (fupd V f (updated (V f) v mask)).
Proof.
  intros [Hg HV] (Hf & Hu) Hv Hm. destruct (vmcs_update_ok t (vmcs g) f v mask Hg Hf Hu Hv Hm) as (o & E & Hg' & _ & HV').
  exists o. split; [done|]. split; [done|]. intros x Hx. cbn [vmcs set_vmcs]. rewrite HV' by done.
  unfold fupd. rewrite HV by done. case_match; [done|by apply HV].
Qed.
End Client.

(** Steps over a read, a write: [g]/[V] the state, the new one is named. *)
Ltac vread g' H F :=
  match goal with
  | |- context [read_vmcs ?t ?g ?l ?f] =>
      match goal with
      | Hh : holds g ?V |- _ =>
          let E := fresh "E" in
          destruct (read_vmcs_ok t g V l f ltac:(done) Hh ltac:(eauto with vmcs)) as (g' & E & H & F);
          rewrite E, bind_Ok; clear E; cbv iota zeta; cbn [fst snd]
      end
  end.
Ltac vwrite g' H F :=
  match goal with
  | |- context [write_vmcs ?t ?g ?l ?f ?v] =>
      match goal with
      | Hh : holds g ?V |- _ =>
          let E := fresh "E" in
          destruct (write_vmcs_ok t g V l f v ltac:(done) Hh ltac:(eauto with vmcs) ltac:(eauto with vmcs)) as (g' & E & H & F);
          rewrite E; try rewrite bind_Ok; clear E; cbv iota zeta; cbn [fst snd]
      end
  end.
Create HintDb vmcs.
#[export] Hint Resolve writes_reads : vmcs.

(** * An example *)

(** A guest CPU of a zeroed structure, with a software VMCS. *)
Module GuestExample.
Definition zero_counters : GCPU_VMEXIT_CONTROL_FIELD_COUNTERS := mk_counters (replicate 64 0) 0 0 0.
Definition guest : GUEST_CPU VMCS_SOFTWARE_OBJECT :=
  mk_gcpu MsrListExample.initialised (replicate 18 0) (replicate 6 0) (replicate 6 0) 0 0 0
    GUEST_LEVEL_1_SIMPLE GUEST_LEVEL_1_SIMPLE (fun _ => zero_counters).
Lemma guest_holds : holds guest (view (vmcs guest)).
Proof. split; [apply MsrListExample.initialised_good|done]. Qed.

(** The fields that the table gives to a client. *)
Definition table_writes (t : list VMCS_ENCODING) (f : Z) : bool :=
  (0 <=? f) && (f <? VMCS_FIELD_COUNT) &&
  match t !! Z.to_nat f with
  | Some d => negb (Z.land (access d) VMCS_READABLE =? 0) && negb (Z.land (access d) (Z.lor VMCS_WRITABLE VMCS_WRITABLE_IN_CACHE) =? 0)
  | None => false
  end.
Lemma table_writes_ok t f : table_writes t f = true -> writes (O := VMCS_SOFTWARE_OBJECT) t f.
Proof.
  unfold table_writes. rewrite !andb_true_iff. intros [[H1 H2] H3]. split; [lia|]. split; [|done].
  destruct (t !! Z.to_nat f) as [d|] eqn:E; [|done]. apply andb_true_iff in H3 as [H3 H4].
  exists d. split; [done|]. split; by apply Z.eqb_neq, negb_true_iff.
Qed.
Lemma all_table_writes t l : forallb (table_writes t) l = true -> Forall (writes (O := VMCS_SOFTWARE_OBJECT) t) l.
Proof. intros Hl. apply Forall_forall. intros f Hf. apply table_writes_ok. rewrite forallb_forall in Hl. by apply Hl, list_elem_of_In. Qed.
(** The fields that may be read. *)
Definition table_reads (t : list VMCS_ENCODING) (f : Z) : bool :=
  (0 <=? f) && (f <? VMCS_FIELD_COUNT) && match FIELD_IS_READABLE t f with Ok b => b | _ => false end.
Lemma all_table_reads t l : forallb (table_reads t) l = true -> Forall (reads (O := VMCS_SOFTWARE_OBJECT) t) l.
Proof.
  intros Hl. apply Forall_forall. intros f Hf. rewrite forallb_forall in Hl. apply list_elem_of_In, Hl in Hf. clear Hl.
  unfold table_reads in Hf. rewrite !andb_true_iff in Hf. destruct Hf as [[H1 H2] H3]. split; [lia|]. split; [|done].
  by destruct (FIELD_IS_READABLE t f) as [[]| |].
Qed.

(** The guest CPU with other fields of its VMCS. *)
Definition put (g : GUEST_CPU VMCS_SOFTWARE_OBJECT) (p : Z * Z) : GUEST_CPU VMCS_SOFTWARE_OBJECT :=
  match op_write (vmcs g) p.1 p.2 with Ok o => set_vmcs o g | _ => g end.
Definition filled (l : list (Z * Z)) : GUEST_CPU VMCS_SOFTWARE_OBJECT := foldl put guest l.
Definition fill (V : Z -> Z) (l : list (Z * Z)) : Z -> Z := foldl (fun V p => fupd V p.1 p.2) V l.
Lemma filled_holds l : forallb (fun p => (0 <=? p.1) && (p.1 <? VMCS_FIELD_COUNT) && (0 <=? p.2) && (p.2 <? 2 ^ 64)) l = true ->
  holds (filled l) (fill (view (vmcs guest)) l).
Proof.
  unfold filled, fill. generalize guest_holds. generalize (view (vmcs guest)). generalize guest.
  induction l as [|[f v] l IH]; intros g V [Hg HV]; [done|]. cbn [forallb foldl fst snd]. rewrite !andb_true_iff.
  intros [[[[H1 H2] H3] H4] Hl]. apply IH; [|done].
  destruct (write_law (vmcs g) f v Hg ltac:(lia) ltac:(done)) as (o & E & Hg' & _ & HV'); [unfold fits; lia|].
  unfold put. cbn [fst snd]. rewrite E. split; [done|]. intros x Hx. cbn [vmcs set_vmcs]. rewrite HV' by done. unfold fupd.
  case_match; [done|by apply HV].
Qed.
End GuestExample.
