(* ===== verification/GuestSeg.v ===== *)
(** guest_cpu_access.c, arch_make_segreg_real_mode_compliant: the segment registers of a guest that runs in
    real mode against the checks of a VM entry. *)

From S2P Require Import Prelude VmmDefs VmcsFields Vmcs VmcsHw GuestCpu GuestCpuSpec.

(** * Bits of the access rights *)

Lemma with_bit_bit b v a i : 0 <= b -> 0 <= i -> Z.testbit (with_bit b v a) i = if i =? b then v else Z.testbit a i.
Proof.
  intros Hb Hi. unfold with_bit. destruct v; [rewrite bit_set_spec by done|rewrite bit_clr_spec by done];
    by destruct (i =? b); rewrite ?orb_true_r, ?orb_false_r, ?andb_true_r, ?andb_false_r.
Qed.
Lemma with_type_bit v a i : 0 <= i -> Z.testbit (with_type v a) i = Z.testbit a i && negb (Z.testbit 15 i) || Z.testbit v i.
Proof. intros Hi. unfold with_type, set_bits_at. by rewrite !Z.shiftl_0_r, Z.lor_spec, Z.ldiff_spec. Qed.
Lemma with_dpl_bit a i : 0 <= i -> Z.testbit (with_dpl 0 a) i = Z.testbit a i && negb (Z.testbit 96 i).
Proof. intros Hi. unfold with_dpl, set_bits_at. change (Z.shiftl 3 5) with 96. by rewrite Z.shiftl_0_l, Z.lor_0_r, Z.ldiff_spec. Qed.

(** The base addresses that a VM entry accepts, with 48 bits of linear addresses. *)
Definition base_accepted (reg : VMM_IA32_SEGMENT_REGISTERS) (base : Z) : Prop :=
  match reg with
  | IA32_SEG_CS | IA32_SEG_SS | IA32_SEG_DS | IA32_SEG_ES => 0 <= base < 2 ^ 32
  | _ => 0 <= base < 2 ^ 47 \/ 2 ^ 64 - 2 ^ 47 <= base < 2 ^ 64
  end.

(** The checks of a VM entry on a segment register (volume 3, "Checks on Guest Segment Registers"), for a guest in
    ring 0 outside virtual-8086 mode: an unusable register is not checked but for its base, CS and TR must be
    usable. The type of CS is one of an accessed code segment; of SS, 3 or 7; of another data register, accessed and,
    for a code segment, readable. *)
Record usable_segment (reg : VMM_IA32_SEGMENT_REGISTERS) (r : seg_reg64_t) : Prop := {
  us_selector : Z.land (sr_selector r) 7 = 0;
  us_present : ar_p (arbyte r) = true;
  us_dpl : ar_dpl (arbyte r) = 0;
  us_reserved : Z.land (arbyte r) 0xFFFE0F00 = 0;
  us_gran0 : Z.land (sr_limit r) 0xFFF <> 0xFFF -> ar_g (arbyte r) = false;
  us_gran1 : Z.land (sr_limit r) 0xFFF00000 <> 0 -> ar_g (arbyte r) = true;
  us_kind : match reg with
    | IA32_SEG_CS => ar_type (arbyte r) = 11 /\ ar_s (arbyte r) = true /\ ar_l (arbyte r) = false
    | IA32_SEG_SS => (ar_type (arbyte r) = 3 \/ ar_type (arbyte r) = 7) /\ ar_s (arbyte r) = true
    | IA32_SEG_LDTR => ar_type (arbyte r) = 2 /\ ar_s (arbyte r) = false
    | IA32_SEG_TR => ar_type (arbyte r) = 11 /\ ar_s (arbyte r) = false
    | _ => (Z.testbit (ar_type (arbyte r)) 0 = true /\ (Z.testbit (ar_type (arbyte r)) 3 = true -> Z.testbit (ar_type (arbyte r)) 1 = true)) /\
           ar_s (arbyte r) = true
    end
}.
Definition rights_accepted (reg : VMM_IA32_SEGMENT_REGISTERS) (r : seg_reg64_t) : Prop :=
  (ar_null (arbyte r) = true /\ reg <> IA32_SEG_CS /\ reg <> IA32_SEG_TR) \/
  (ar_null (arbyte r) = false /\ usable_segment reg r).
Definition segment_accepted (reg : VMM_IA32_SEGMENT_REGISTERS) (r : seg_reg64_t) : Prop :=
  base_accepted reg (sr_base r) /\ rights_accepted reg r.

(** The access rights that the source builds for a usable register, before the type is set. *)
Definition ring0_ar (a lim : Z) : Z :=
  with_bit 15 (negb (Z.land lim 0xFFF00000 =? 0)) (with_bit 7 true (with_dpl 0 (Z.land a 0xF0FF))).

Lemma mask_bits m i : fits 40 m -> 0 <= i -> Z.testbit m i = true -> i ∈ filter (fun j => Z.testbit m j = true) (seqZ 0 40).
Proof.
  intros Hm Hi Hb. apply list_elem_of_filter. split; [done|]. apply elem_of_seqZ.
  destruct (decide (i < 40)); [lia|]. rewrite (bits_above m 40) in Hb; [done|done|lia].
Qed.

(** [a] and [b] agree on the bits of the constant mask [m]. *)
Lemma land_eq a b m : (forall i, 0 <= i -> Z.testbit m i = true -> Z.testbit a i = Z.testbit b i) -> Z.land a m = Z.land b m.
Proof.
  intros Hb. apply Z.bits_inj'. intros i Hi. rewrite !Z.land_spec. destruct (Z.testbit m i) eqn:E; [|by rewrite !andb_false_r].
  by rewrite (Hb i Hi E).
Qed.
(** The bits of the access rights, one by one. *)
Ltac ar_bit := repeat first [rewrite with_bit_bit by done | rewrite with_type_bit by done | rewrite with_dpl_bit by done |
  rewrite bit_clr_spec by done | rewrite Z.land_spec | rewrite Z.ldiff_spec | rewrite Z.lor_spec].
Ltac mask_cases :=
  let i := fresh "i" in let Hi := fresh "Hi" in let Hb := fresh "Hb" in
  intros i Hi Hb; apply mask_bits in Hb; [|by vm_compute|exact Hi];
  match type of Hb with _ ∈ ?l => let l' := eval vm_compute in l in change (i ∈ l') in Hb end;
  rewrite ?elem_of_cons, ?elem_of_nil in Hb;
  repeat (destruct Hb as [->|Hb]); [..|done].
Ltac bit_done :=
  repeat match goal with |- context [Z.testbit ?x ?n] => is_var x; destruct (Z.testbit x n) end; reflexivity.
Ltac land_const b := etransitivity; [apply (land_eq _ b); mask_cases; ar_bit; bit_done|reflexivity].

Lemma land_ldiff a m : Z.land (Z.ldiff a m) m = 0.
Proof. apply Z.bits_inj'. intros i Hi. rewrite Z.land_spec, Z.ldiff_spec, Z.bits_0. by destruct (Z.testbit a i), (Z.testbit m i). Qed.
Lemma land_ldiff_clr a m b : Z.land a m = 0 -> Z.land (BIT_CLR a b) m = 0.
Proof.
  intros E. unfold BIT_CLR. apply Z.bits_inj'. intros i Hi. rewrite Z.land_spec, Z.ldiff_spec, Z.bits_0.
  assert (Hz : Z.testbit (Z.land a m) i = false) by by rewrite E, Z.bits_0. rewrite Z.land_spec in Hz.
  destruct (Z.testbit a i), (Z.testbit m i); [done|by rewrite andb_false_r|done|done].
Qed.

(** What every usable register gets, whatever type [v] and [s] are put in. *)
Section Typed.
Context (a lim v : Z) (s : bool).
Hypothesis Hv : fits 4 v.
Definition typed : Z := with_bit 4 s (with_type v (ring0_ar a lim)).

Lemma type_bit_high i : 4 <= i -> Z.testbit v i = false.
Proof. intros Hi. apply (bits_above v 4); [exact Hv|lia]. Qed.
Lemma typed_p : ar_p typed = true.
Proof. unfold ar_p, typed, ring0_ar. ar_bit. reflexivity. Qed.
Lemma typed_s : ar_s typed = s.
Proof. unfold ar_s, typed. ar_bit. reflexivity. Qed.
Lemma typed_g : ar_g typed = negb (Z.land lim 0xFFF00000 =? 0).
Proof. unfold ar_g, typed, ring0_ar. ar_bit. rewrite type_bit_high by done. cbn. by rewrite orb_false_r, andb_true_r. Qed.
Lemma typed_null : ar_null typed = false.
Proof. unfold ar_null, typed, ring0_ar. ar_bit. rewrite type_bit_high by done. cbn. by rewrite andb_false_r. Qed.
Lemma typed_reserved : Z.land typed 0xFFFE0F00 = 0.
Proof.
  unfold typed, ring0_ar. etransitivity; [apply (land_eq _ 0); mask_cases; ar_bit; rewrite type_bit_high by done; bit_done|reflexivity].
Qed.
Lemma typed_dpl : ar_dpl typed = 0.
Proof.
  unfold ar_dpl, typed, ring0_ar. etransitivity; [apply (land_eq _ 0); mask_cases; rewrite Z.shiftr_spec by done;
    ar_bit; rewrite type_bit_high by done; bit_done|reflexivity].
Qed.
Lemma typed_type : ar_type typed = v.
Proof.
  unfold ar_type, typed, ring0_ar. etransitivity; [apply (land_eq _ v); mask_cases; ar_bit; bit_done|].
  change 15 with (Z.ones 4). rewrite Z.land_ones by done. by apply Z.mod_small.
Qed.
End Typed.

Lemma land_kept a b m : Z.land a m = 0 -> Z.land (with_bit b false a) m = 0.
Proof. apply land_ldiff_clr. Qed.

(** The type of a data segment. *)
Lemma data_type_fits a : fits 4 (Z.lor (ar_type a) 3).
Proof.
  assert (Hn : 0 <= Z.lor (ar_type a) 3) by (apply Z.lor_nonneg; split; [apply Z.land_nonneg; by right|done]).
  split; [done|]. apply bits_lt_pow2; [done|done|]. intros j Hj. unfold ar_type. rewrite Z.lor_spec, Z.land_spec.
  rewrite (bits_above 15 4), (bits_above 3 4) by (done || lia). by rewrite andb_false_r.
Qed.

Lemma type_commutes v s x : fits 4 v -> with_type v (with_bit 4 s x) = with_bit 4 s (with_type v x).
Proof.
  intros Hv. apply Z.bits_inj'. intros i Hi. rewrite with_type_bit, !with_bit_bit, with_type_bit by done.
  destruct (Z.eqb_spec i 4) as [->|]; [|done]. rewrite (bits_above v 4) by (done || exact Hv). cbn. by rewrite andb_true_r, orb_false_r.
Qed.

(** The parts of [usable_segment] that do not depend on the register. *)
Lemma typed_usable reg sel base lim a v s sel' :
  fits 4 v -> (Z.land lim 0xFFF = 0xFFF \/ Z.land lim 0xFFF00000 = 0) ->
  sel' = BITMAP_CLR sel 7 \/ sel' = BIT_CLR (BITMAP_CLR sel 7) 2 ->
  match reg with
  | IA32_SEG_CS | IA32_SEG_LDTR => False
  | IA32_SEG_TR => v = 11 /\ s = false
  | IA32_SEG_SS => (v = 3 \/ v = 7) /\ s = true
  | _ => (Z.testbit v 0 = true /\ (Z.testbit v 3 = true -> Z.testbit v 1 = true)) /\ s = true
  end ->
  usable_segment reg (mk_segreg sel' base lim (typed a lim v s)).
Proof.
  intros Hv Hlim Hsel Hreg. split; cbn [sr_selector sr_limit arbyte].
  - destruct Hsel as [->| ->]; [apply land_ldiff|apply land_ldiff_clr, land_ldiff].
  - by apply typed_p.
  - by apply typed_dpl.
  - by apply typed_reserved.
  - intros Hg. rewrite typed_g by done. destruct Hlim as [|Hz]; [done|]. by rewrite Hz.
  - intros Hg. rewrite typed_g by done. by rewrite (proj2 (Z.eqb_neq _ _) Hg).
  - rewrite typed_type, typed_s by done. by destruct reg.
Qed.

(** CS also has its L bit cleared. *)
Lemma code_usable sel base lim a : (Z.land lim 0xFFF = 0xFFF \/ Z.land lim 0xFFF00000 = 0) ->
  usable_segment IA32_SEG_CS (mk_segreg (BITMAP_CLR sel 7) base lim (with_bit 13 false (typed a lim 11 true))).
Proof.
  intros Hlim. split; cbn [sr_selector sr_limit arbyte].
  - apply land_ldiff.
  - unfold ar_p. rewrite with_bit_bit by done. by apply typed_p.
  - unfold ar_dpl. etransitivity; [|by apply (typed_dpl a lim 11 true)]. unfold ar_dpl. apply land_eq. mask_cases;
      rewrite !Z.shiftr_spec by done; by rewrite with_bit_bit by done.
  - by apply land_kept, typed_reserved.
  - intros Hg. unfold ar_g. rewrite with_bit_bit by done. cbn [Z.eqb Pos.eqb]. fold (ar_g (typed a lim 11 true)). rewrite typed_g by done.
    destruct Hlim as [|Hz]; [done|]. by rewrite Hz.
  - intros Hg. unfold ar_g. rewrite with_bit_bit by done. cbn [Z.eqb Pos.eqb]. fold (ar_g (typed a lim 11 true)). rewrite typed_g by done.
    by rewrite (proj2 (Z.eqb_neq _ _) Hg).
  - split_and!.
    + etransitivity; [|by apply (typed_type a lim 11 true)]. unfold ar_type. apply land_eq. mask_cases; by rewrite with_bit_bit by done.
    + unfold ar_s. rewrite with_bit_bit by done. cbn [Z.eqb Pos.eqb]. fold (ar_s (typed a lim 11 true)). by apply typed_s.
    + unfold ar_l. by rewrite with_bit_bit by done.
Qed.

Lemma lor_3_bits x : Z.testbit (Z.lor x 3) 0 = true /\ (Z.testbit (Z.lor x 3) 3 = true -> Z.testbit (Z.lor x 3) 1 = true).
Proof. rewrite !Z.lor_spec. change (Z.testbit 3 0) with true. change (Z.testbit 3 1) with true. by rewrite !orb_true_r. Qed.

(** The code bit of the type goes through the changes that come before the type is set. *)
Lemma ring0_code_bit a lim : Z.testbit (ar_type (ring0_ar a lim)) 3 = Z.testbit a 3.
Proof. unfold ar_type, ring0_ar. ar_bit. change (Z.testbit 15 3) with true. cbn. by rewrite !andb_true_r. Qed.

Lemma stack_type v : fits 4 v -> Z.testbit v 3 = false -> Z.lor v 3 = 3 \/ Z.lor v 3 = 7.
Proof.
  intros Hv H3. assert (Hl : v ∈ seqZ 0 16) by (apply elem_of_seqZ; unfold fits in Hv; lia).
  assert (X : Forall (fun v => Z.testbit v 3 = false -> Z.lor v 3 = 3 \/ Z.lor v 3 = 7) (seqZ 0 16)).
  { apply (bool_decide_unpack _). vm_compute. exact I. }
  by apply (proj1 (Forall_forall _ _) X v Hl).
Qed.
Lemma ar_type_fits a : fits 4 (ar_type a).
Proof. unfold ar_type, fits. change 15 with (Z.ones 4). rewrite Z.land_ones by done. lia. Qed.

Lemma data_accepted reg r X : (Z.land (sr_limit r) 0xFFF = 0xFFF \/ Z.land (sr_limit r) 0xFFF00000 = 0) ->
  match reg with IA32_SEG_CS | IA32_SEG_LDTR | IA32_SEG_TR => False | IA32_SEG_SS => Z.testbit X 3 = false | _ => True end ->
  let v := Z.lor (ar_type (ring0_ar X (sr_limit r))) 3 in
  ar_null (typed X (sr_limit r) v true) = false /\
  usable_segment reg (mk_segreg (BITMAP_CLR (sr_selector r) 7) (sr_base r) (sr_limit r) (typed X (sr_limit r) v true)).
Proof.
  intros Hlim Hreg v. assert (Hv : fits 4 v) by apply data_type_fits. split; [by apply typed_null|].
  apply (typed_usable reg (sr_selector r)); [done|done|by left|]. pose proof (lor_3_bits (ar_type (ring0_ar X (sr_limit r)))) as Hb. fold v in Hb.
  destruct reg; try done. split; [|done]. apply stack_type; [apply ar_type_fits|by rewrite ring0_code_bit].
Qed.



(** A usable LDTR gets the type of a busy task state segment, which a VM entry refuses: the case of LDTR
    runs on into that of TR. *)
Lemma real_mode_ldtr_refused (r : seg_reg64_t) :
  8 <= sr_selector r -> ar_null (arbyte r) = false ->
  ar_type (arbyte (arch_make_segreg_real_mode_compliant r IA32_SEG_LDTR)) = 11 /\
  ~ segment_accepted IA32_SEG_LDTR (arch_make_segreg_real_mode_compliant r IA32_SEG_LDTR).
Proof.
  intros Hs Hn. unfold arch_make_segreg_real_mode_compliant. rewrite (proj2 (Z.ltb_ge _ 8) Hs). cbn [andb].
  change (bool_decide (IA32_SEG_LDTR = IA32_SEG_TR)) with false. change (bool_decide (IA32_SEG_LDTR = IA32_SEG_CS)) with false.
  cbn [orb]. rewrite Hn. set (A := with_type 2 _).
  assert (E : ar_type (with_type 11 (with_bit 4 false A)) = 11).
  { unfold ar_type. etransitivity; [apply (land_eq _ 11); mask_cases; rewrite with_type_bit by done; cbn;
      rewrite ?andb_false_r; reflexivity|reflexivity]. }
  split; [exact E|]. intros [_ [[Hu _]|[_ Hu]]]; cbn [arbyte] in Hu.
  - unfold ar_null in Hu. rewrite with_type_bit, with_bit_bit in Hu by done. unfold A in Hu.
    rewrite with_type_bit, with_bit_bit in Hu by done. ar_bit. repeat (rewrite with_bit_bit in Hu by done).
    rewrite with_dpl_bit, Z.land_spec in Hu by done. cbn in Hu. by rewrite andb_false_r in Hu.
  - destruct (us_kind _ _ Hu) as [Ht _]. cbn [arbyte] in Ht. by rewrite E in Ht.
Qed.

(** The type of a data register is OR-ed with 3: when SS held a code segment, its type becomes 11 or 15, which a VM
    entry refuses for SS. *)
Lemma real_mode_stack_refused (r : seg_reg64_t) :
  ar_null (arbyte r) = false -> Z.testbit (ar_type (arbyte r)) 3 = true ->
  ~ segment_accepted IA32_SEG_SS (arch_make_segreg_real_mode_compliant r IA32_SEG_SS).
Proof.
  intros Hn H3. unfold arch_make_segreg_real_mode_compliant. rewrite andb_false_r.
  change (bool_decide (IA32_SEG_SS = IA32_SEG_TR) || bool_decide (IA32_SEG_SS = IA32_SEG_CS)) with false. cbv iota. rewrite Hn.
  assert (H3' : Z.testbit (arbyte r) 3 = true).
  { unfold ar_type in H3. rewrite Z.land_spec in H3. by apply andb_true_iff in H3 as [? _]. }
  set (v := Z.lor (ar_type (ring0_ar (arbyte r) (sr_limit r))) 3). assert (Hv : fits 4 v) by apply data_type_fits.
  intros [_ [[Hu _]|[_ Hu]]].
  - change (ar_null (typed (arbyte r) (sr_limit r) v true) = true) in Hu. by rewrite typed_null in Hu.
  - destruct (us_kind _ _ Hu) as [Ht _]. change (ar_type (typed (arbyte r) (sr_limit r) v true) = 3 \/ ar_type (typed (arbyte r) (sr_limit r) v true) = 7) in Ht.
    rewrite typed_type in Ht by done. assert (Hb : Z.testbit v 3 = true) by (unfold v; by rewrite Z.lor_spec, ring0_code_bit, H3').
    destruct Ht as [Ht|Ht]; rewrite Ht in Hb; discriminate Hb.
Qed.
