(* ===== verification/GuestMsr.v ===== *)
(** guest/guest_cpu/guest_cpu_access.c, the model specific registers of a guest CPU: a register is a field
    of the VMCS when the processor saves it there, an entry of the MSR lists of the VMCS, or the register
    of the processor itself. *)

From S2P Require Import Prelude VmmDefs VmcsFields Vmcs VmcsSw VmcsMsrList VmcsHw GuestCpu GuestCpuSpec.

(** * Lists *)

(** [for (; count > 0; count--) if (list[count-1].MsrIndex == msr_index) ...] *)
Fixpoint find_last_msr (count : nat) (m : msr_mem) (p msr_index : Z) : outcome (option Z) :=
  match count with
  | O => Ok None
  | S count =>
      e ← rd_msr m p (Z.of_nat count);
      if MsrIndex e =? msr_index then Ok (Some (Z.of_nat count)) else find_last_msr count m p msr_index
  end.

Definition gcpu_get_msr_value_from_list (m : msr_mem) (msr_index p count : Z) : outcome (option Z) :=
  if msr_index =? IA32_INVALID_MSR_INDEX then Ok None
  else if p =? 0 then Ok None
  else
    i ← find_last_msr (Z.to_nat count) m p msr_index;
    match i with
    | None => Ok None
    | Some i => e ← rd_msr m p i; Ok (Some (MsrData e))
    end.

(** Only the data is stored. *)
Definition gcpu_set_msr_value_in_list (m : msr_mem) (msr_index value p count : Z) : outcome (bool * msr_mem) :=
  if msr_index =? IA32_INVALID_MSR_INDEX then Ok (false, m)
  else if p =? 0 then Ok (false, m)
  else
    i ← find_last_msr (Z.to_nat count) m p msr_index;
    match i with
    | None => Ok (false, m)
    | Some i => e ← rd_msr m p i; m ← wr_msr m p i (msr (MsrIndex e) (Reserved e) value); Ok (true, m)
    end.

Section Msr.
Context {O : Type} `{VmcsOps O} (t : list VMCS_ENCODING).
Abbreviation gcpu := (GUEST_CPU O).
Implicit Types g : gcpu.
(** The capabilities, the translation of the host memory manager, and RDMSR and WRMSR in the hypervisor
    on the registers [R] of the processor. *)
Context (k : VMCS_HW_CONSTRAINTS) (hmm_hpa_to_hva : Z -> option Z).
Context {R : Type} (hw_read_msr : R -> Z -> outcome Z) (hw_write_msr : R -> Z -> Z -> outcome R).

Definition is_hpa g (level : VMCS_LEVEL) : bool :=
  match level, gcpu_get_guest_level g with
  | VMCS_MERGED, _ | _, GUEST_LEVEL_1_SIMPLE => true
  | _, _ => false
  end.
(** The pointer to a list of [count] entries; it is NULL for an empty list and when the translation fails. *)
Definition msr_list_ptr g (level : VMCS_LEVEL) (addr count : Z) : Z :=
  if is_hpa g level then (if count =? 0 then 0 else default 0 (hmm_hpa_to_hva addr)) else addr.

(** The field holds the register: the processor can save it at VM exit. *)
Definition saved_in_vmcs (field : Z) : bool :=
  let may1 := may1_vm_exit_ctrl k in
  ((field =? VMCS_GUEST_DEBUG_CONTROL) && Exit.SaveDebugControls may1) ||
  ((field =? VMCS_GUEST_SYSENTER_ESP) && Exit.SaveSysEnterMsrs may1) ||
  ((field =? VMCS_GUEST_SYSENTER_EIP) && Exit.SaveSysEnterMsrs may1) ||
  ((field =? VMCS_GUEST_SYSENTER_CS) && Exit.SaveSysEnterMsrs may1) ||
  ((field =? VMCS_GUEST_EFER) && Exit.SaveEfer may1) ||
  ((field =? VMCS_GUEST_PAT) && Exit.SavePat may1) ||
  ((field =? VMCS_GUEST_IA32_PERF_GLOBAL_CTRL) && Exit.Load_IA32_PERF_GLOBAL_CTRL may1).

(** ** Reading *)

Definition gcpu_get_msr_reg_internal_layered g (m : msr_mem) (reg : Z) (level : VMCS_LEVEL) : outcome (Z * gcpu) :=
  field ← rd g_msr_2_vmcs reg;
  if saved_in_vmcs field then read_vmcs t g level field
  else
    r ← read_vmcs t g level VMCS_EXIT_MSR_STORE_ADDRESS; let '(addr, g) := r in
    r ← read_vmcs t g level VMCS_EXIT_MSR_STORE_COUNT; let '(count, g) := r in
    let count := u32 count in
    index ← rd g_msr_2_index reg;
    v ← gcpu_get_msr_value_from_list m index (msr_list_ptr g level addr count) count;
    Ok (default 0 v, g).
Definition gcpu_get_msr_reg_layered g m reg level := gcpu_get_msr_reg_internal_layered g m reg level.

(** The position of a register in the table, if it is there. *)
Definition msr_position (msr_index : Z) : option Z :=
  (fun p => Z.of_nat p.1) <$> list_find (fun x => x = msr_index) g_msr_2_index.

(** The search of the VM-entry load list, then of the VM-exit store list if it is another list. *)
Definition search_lists g (m : msr_mem) (msr_index : Z) (level : VMCS_LEVEL) : outcome (option Z * gcpu) :=
  r ← read_vmcs t g level VMCS_ENTER_MSR_LOAD_ADDRESS; let '(load_addr, g) := r in
  r ← read_vmcs t g level VMCS_ENTER_MSR_LOAD_COUNT; let '(load_count, g) := r in
  let load_count := u32 load_count in
  v ← gcpu_get_msr_value_from_list m msr_index (msr_list_ptr g level load_addr load_count) load_count;
  match v with
  | Some _ => Ok (v, g)
  | None =>
      r ← read_vmcs t g level VMCS_EXIT_MSR_STORE_ADDRESS; let '(store_addr, g) := r in
      r ← read_vmcs t g level VMCS_ENTER_MSR_LOAD_COUNT; let '(_, g) := r in
      if negb (store_addr =? load_addr) then
        r ← read_vmcs t g level VMCS_ENTER_MSR_LOAD_COUNT; let '(store_count, g) := r in
        let store_count := u32 store_count in
        v ← gcpu_get_msr_value_from_list m msr_index (msr_list_ptr g level store_addr store_count) store_count;
        Ok (v, g)
      else Ok (None, g)
  end.

Definition gcpu_get_msr_reg_by_index_layered g (m : msr_mem) (regs : R) (msr_index : Z) (level : VMCS_LEVEL)
  : outcome (Z * gcpu) :=
  match msr_position msr_index with
  | Some i => gcpu_get_msr_reg_layered g m i level
  | None =>
      r ← search_lists g m msr_index level;
      let '(v, g) := r in
      match v with
      | Some v => Ok (v, g)
      | None =>
          if msr_index =? IA32_MSR_GS_BASE then read_vmcs t g level VMCS_GUEST_GS_BASE
          else if msr_index =? IA32_MSR_FS_BASE then read_vmcs t g level VMCS_GUEST_FS_BASE
          else v ← hw_read_msr regs msr_index; Ok (v, g)
      end
  end.

(** ** Writing *)

(** The store in the VM-entry load list, [missing] if the register is not there, then in the VM-exit store list. *)
Definition update_lists g (m : msr_mem) (msr_index value : Z) (level : VMCS_LEVEL) (missing : gcpu -> outcome gcpu)
  : outcome (msr_mem * gcpu) :=
  r ← read_vmcs t g level VMCS_ENTER_MSR_LOAD_ADDRESS; let '(load_addr, g) := r in
  r ← read_vmcs t g level VMCS_ENTER_MSR_LOAD_COUNT; let '(load_count, g) := r in
  let load_count := u32 load_count in
  r ← gcpu_set_msr_value_in_list m msr_index value (msr_list_ptr g level load_addr load_count) load_count;
  let '(found, m) := r in
  g ← (if (found : bool) then Ok g else missing g);
  r ← read_vmcs t g level VMCS_EXIT_MSR_STORE_ADDRESS; let '(store_addr, g) := r in
  r ← read_vmcs t g level VMCS_ENTER_MSR_LOAD_COUNT; let '(_, g) := r in
  if negb (store_addr =? load_addr) then
    r ← read_vmcs t g level VMCS_ENTER_MSR_LOAD_COUNT; let '(store_count, g) := r in
    let store_count := u32 store_count in
    r ← gcpu_set_msr_value_in_list m msr_index value (msr_list_ptr g level store_addr store_count) store_count;
    Ok (r.2, g)
  else Ok (m, g).

(** EFER and the IA-32e mode of the VM entry change together; the value that is stored. *)
Definition set_efer_mode g (value : Z) (level : VMCS_LEVEL) : outcome (Z * gcpu) :=
  let g := set_state_flag GCPU_IMPORTANT_EVENT_OCCURED_FLAG g in
  match level with
  | VMCS_LEVEL_1 => Ok (value, g)
  | _ =>
      if BIT_GET (state_flags g) GCPU_UNRESTRICTED_GUEST_FLAG then Ok (value, g)
      else
        let lme := negb (Z.land value EFER_LME =? 0) in
        o ← vmcs_update t (vmcs g) VMCS_ENTER_CONTROL_VECTOR (if lme then UINT64_ALL_ONES else 0) (BIT_SET 0 9);
        Ok (if lme then Z.lor value EFER_LMA else Z.ldiff value EFER_LMA, set_vmcs o g)
  end.

Definition gcpu_set_msr_reg_layered g (m : msr_mem) (reg value : Z) (level : VMCS_LEVEL) : outcome (msr_mem * gcpu) :=
  r ← (if reg =? IA32_VMM_MSR_EFER then set_efer_mode g value level else Ok (value, g));
  let '(value, g) := r in
  field ← rd g_msr_2_vmcs reg;
  if saved_in_vmcs field then g ← write_vmcs t g level field value; Ok (m, g)
  else
    index ← rd g_msr_2_index reg;
    update_lists g m index value level
      (fun g => if negb (field =? VMCS_FIELD_COUNT) then write_vmcs t g level field value else Ok g).

Definition gcpu_set_msr_reg_by_index_layered g (m : msr_mem) (regs : R) (msr_index value : Z) (level : VMCS_LEVEL)
  : outcome (msr_mem * R * gcpu) :=
  match msr_position msr_index with
  | Some i => r ← gcpu_set_msr_reg_layered g m i value level; Ok (r.1, regs, r.2)
  | None =>
      r ← update_lists g m msr_index value level (fun g => Ok g);
      regs ← hw_write_msr regs msr_index value;
      Ok (r.1, regs, r.2)
  end.

Definition gcpu_get_msr_reg g m reg := gcpu_get_msr_reg_layered g m reg VMCS_MERGED.

Definition gcpu_set_vmenter_control_layered g (m : msr_mem) (level : VMCS_LEVEL) : outcome gcpu :=
  r ← gcpu_get_msr_reg g m IA32_VMM_MSR_EFER;
  let '(value, g) := r in
  match vmcs_hierarchy_get_vmcs g level with
  | None => Fault
  | Some o =>
      o ← vmcs_update t o VMCS_ENTER_CONTROL_VECTOR
            (if negb (Z.land value EFER_LMA =? 0) then UINT64_ALL_ONES else 0) (BIT_SET 0 9);
      Ok (set_vmcs o g)
  end.
End Msr.

(** * Properties *)

Lemma land_bit_test v b : 0 <= b -> negb (Z.land v (2 ^ b) =? 0) = Z.testbit v b.
Proof.
  intros Hb. destruct (Z.testbit v b) eqn:E.
  - apply negb_true_iff, Z.eqb_neq. intros Hz. assert (X : Z.testbit (Z.land v (2 ^ b)) b = false) by by rewrite Hz, Z.bits_0.
    by rewrite Z.land_spec, E, Z.pow2_bits_true in X by done.
  - apply negb_false_iff, Z.eqb_eq, Z.bits_inj'. intros i Hi. rewrite Z.land_spec, Z.bits_0.
    destruct (decide (i = b)) as [->|]; [by rewrite E|]. by rewrite Z.pow2_bits_false, andb_false_r by done.
Qed.

(** EFER as the guest CPU keeps it: LMA follows LME. *)
Definition efer_of (value : Z) : Z := if negb (Z.land value EFER_LME =? 0) then Z.lor value EFER_LMA else Z.ldiff value EFER_LMA.

Lemma efer_of_bits value i : 0 <= i -> Z.testbit (efer_of value) i = if i =? 10 then Z.testbit value 8 else Z.testbit value i.
Proof.
  intros Hi. unfold efer_of. change EFER_LME with (2 ^ 8). change EFER_LMA with (2 ^ 10). rewrite land_bit_test by done.
  destruct (Z.eqb_spec i 10) as [->|Hne].
  - destruct (Z.testbit value 8); [by rewrite Z.lor_spec, Z.pow2_bits_true, orb_true_r|by rewrite Z.ldiff_spec, Z.pow2_bits_true, andb_false_r].
  - destruct (Z.testbit value 8); [by rewrite Z.lor_spec, Z.pow2_bits_false, orb_false_r|by rewrite Z.ldiff_spec, Z.pow2_bits_false, andb_true_r].
Qed.
Lemma efer_of_fits value : fits 64 value -> fits 64 (efer_of value).
Proof.
  intros Hv. assert (0 <= efer_of value).
  { unfold efer_of. case_match; [apply Z.lor_nonneg; unfold fits in Hv; split; [lia|done]|].
    apply Z.ldiff_nonneg. unfold fits in Hv. lia. }
  split; [done|]. apply bits_lt_pow2; [done|done|]. intros j Hj. rewrite efer_of_bits by lia.
  rewrite (proj2 (Z.eqb_neq j 10)) by lia. apply (bits_above value 64); [exact Hv|lia].
Qed.

(** C31. A write of EFER to a guest CPU that is not unrestricted, on a processor that saves EFER in the
    VMCS, can be read back; LMA is made equal to LME, and so is the IA-32e mode of the VM-entry controls,
    as a VM entry requires; no other bit of EFER, of the entry controls or of the VMCS changes. *)
Theorem efer_write_roundtrip {O : Type} `{VmcsLaws O} (t : list VMCS_ENCODING) (k : VMCS_HW_CONSTRAINTS)
  (hmm_hpa_to_hva : Z -> option Z) (g : GUEST_CPU O) (V : Z -> Z) (m : msr_mem) (value : Z) :
  holds g V -> writes t VMCS_GUEST_EFER -> writes t VMCS_ENTER_CONTROL_VECTOR ->
  Exit.SaveEfer (may1_vm_exit_ctrl k) = true -> BIT_GET (state_flags g) GCPU_UNRESTRICTED_GUEST_FLAG = false -> fits 64 value ->
  exists g' V', gcpu_set_msr_reg_layered t k hmm_hpa_to_hva g m IA32_VMM_MSR_EFER value VMCS_MERGED = Ok (m, g') /\ holds g' V' /\
    (exists g'', gcpu_get_msr_reg t k hmm_hpa_to_hva g' m IA32_VMM_MSR_EFER = Ok (V' VMCS_GUEST_EFER, g'')) /\
    (forall i, 0 <= i -> Z.testbit (V' VMCS_GUEST_EFER) i = if i =? 10 then Z.testbit value 8 else Z.testbit value i) /\
    (forall i, 0 <= i -> Z.testbit (V' VMCS_ENTER_CONTROL_VECTOR) i =
       if i =? 9 then Z.testbit value 8 else Z.testbit (V VMCS_ENTER_CONTROL_VECTOR) i) /\
    (forall f, f <> VMCS_GUEST_EFER -> f <> VMCS_ENTER_CONTROL_VECTOR -> V' f = V f).
Proof.
  intros Hh We Wc Hk Hu Hv.
  assert (Hs : saved_in_vmcs k VMCS_GUEST_EFER = true).
  { unfold saved_in_vmcs. rewrite Hk. reflexivity. }
  unfold gcpu_set_msr_reg_layered, set_efer_mode. cbn [Z.eqb IA32_VMM_MSR_EFER Pos.eqb].
  set (g0 := set_state_flag GCPU_IMPORTANT_EVENT_OCCURED_FLAG g).
  assert (Hh0 : holds g0 V) by exact Hh.
  assert (Hu0 : BIT_GET (state_flags g0) GCPU_UNRESTRICTED_GUEST_FLAG = false).
  { unfold g0, BIT_GET in *. cbn [state_flags set_state_flag]. by rewrite bit_set_spec, Hu. }
  rewrite Hu0. fold (efer_of value).
  destruct (update_vmcs_ok t g0 V VMCS_ENTER_CONTROL_VECTOR (if negb (Z.land value EFER_LME =? 0) then UINT64_ALL_ONES else 0)
    (BIT_SET 0 9) Hh0 Wc ltac:(by case_match) ltac:(done)) as (o & E & Hh1).
  rewrite E, !bind_Ok. cbv iota beta. change (rd g_msr_2_vmcs IA32_VMM_MSR_EFER) with (Ok VMCS_GUEST_EFER). rewrite bind_Ok, Hs.
  destruct (write_vmcs_ok t _ _ VMCS_MERGED VMCS_GUEST_EFER (efer_of value) ltac:(done) Hh1 We ltac:(by apply efer_of_fits))
    as (g2 & E2 & Hh2 & _). rewrite E2, bind_Ok.
  eexists g2, _. split; [reflexivity|]. split; [exact Hh2|]. split_and!.
  - destruct (read_vmcs_ok t g2 _ VMCS_MERGED VMCS_GUEST_EFER ltac:(done) Hh2 ltac:(by apply writes_reads)) as (g3 & E3 & _).
    exists g3. unfold gcpu_get_msr_reg, gcpu_get_msr_reg_layered, gcpu_get_msr_reg_internal_layered.
    change (rd g_msr_2_vmcs IA32_VMM_MSR_EFER) with (Ok VMCS_GUEST_EFER). by rewrite bind_Ok, Hs.
  - intros i Hi. fread. by apply efer_of_bits.
  - intros i Hi. fread. rewrite updated_bits by (done || by apply (holds_fits g V); [|apply Wc]).
    rewrite bit_set_spec, Z.bits_0 by done. cbn [orb]. destruct (Z.eqb_spec i 9) as [->|]; [|done].
    change EFER_LME with (2 ^ 8). rewrite land_bit_test by done. by destruct (Z.testbit value 8).
  - intros f H1 H2. by rewrite !fupd_ne.
Qed.

Module EferExample.
Import GuestExample.
Definition caps : VMCS_HW_CONSTRAINTS := constraints_of (read_capabilities sample_msrs).
(** The table of a processor that has the EFER field. *)
Definition table : list VMCS_ENCODING :=
  match set_access VMCS_GUEST_EFER WRITABLE g_field_data_init with Ok t => t | _ => [] end.
Lemma efer_writes : writes (O := VMCS_SOFTWARE_OBJECT) table VMCS_GUEST_EFER.
Proof. split; [done|]. split; [|done]. eexists. split; [reflexivity|]. split; discriminate. Qed.
Lemma entry_writes : writes (O := VMCS_SOFTWARE_OBJECT) table VMCS_ENTER_CONTROL_VECTOR.
Proof. split; [done|]. split; [|done]. eexists. split; [reflexivity|]. split; discriminate. Qed.
End EferExample.

Lemma efer_write_roundtrip_witness : exists g' V',
  gcpu_set_msr_reg_layered EferExample.table EferExample.caps (fun _ => None) GuestExample.guest ∅ IA32_VMM_MSR_EFER 0x100 VMCS_MERGED
    = Ok (∅, g') /\ holds g' V' /\ Z.testbit (V' VMCS_GUEST_EFER) 10 = true.
Proof.
  destruct (efer_write_roundtrip EferExample.table EferExample.caps (fun _ => None) GuestExample.guest (view (vmcs GuestExample.guest))
    ∅ 0x100 GuestExample.guest_holds EferExample.efer_writes EferExample.entry_writes eq_refl eq_refl ltac:(done))
    as (g' & V' & E & A & _ & B & _).
  exists g', V'. split; [exact E|]. split; [exact A|]. exact (B 10 ltac:(lia)).
Defined.

(** The base of FS (and of GS) written by its MSR number goes to the VMCS, but is read back as 0: reading
    looks only in the VM-exit store list, and the code that reads the VMCS field is not reached. *)
Lemma fs_base_by_index_lost {O : Type} `{VmcsLaws O} (t : list VMCS_ENCODING) (k : VMCS_HW_CONSTRAINTS)
  (hmm_hpa_to_hva : Z -> option Z) {R : Type} (hw_read_msr : R -> Z -> outcome Z) (regs : R)
  (g : GUEST_CPU O) (V : Z -> Z) (m : msr_mem) :
  holds g V -> writes t VMCS_EXIT_MSR_STORE_ADDRESS -> writes t VMCS_EXIT_MSR_STORE_COUNT -> V VMCS_EXIT_MSR_STORE_COUNT = 0 ->
  gcpu_get_guest_level g = GUEST_LEVEL_1_SIMPLE ->
  exists g', gcpu_get_msr_reg_by_index_layered t k hmm_hpa_to_hva hw_read_msr g m regs IA32_MSR_FS_BASE VMCS_MERGED = Ok (0, g').
Proof.
  intros Hh Wa Wc E0 El. unfold gcpu_get_msr_reg_by_index_layered. change (msr_position IA32_MSR_FS_BASE) with (Some 8).
  unfold gcpu_get_msr_reg_layered, gcpu_get_msr_reg_internal_layered. change (rd g_msr_2_vmcs 8) with (Ok VMCS_GUEST_FS_BASE).
  rewrite bind_Ok. assert (Es : saved_in_vmcs k VMCS_GUEST_FS_BASE = false) by reflexivity. rewrite Es.
  vread g1 H1 F1. vread g2 H2 F2. rewrite E0. change (u32 0) with 0. unfold msr_list_ptr, is_hpa. cbn [Z.eqb].
  change (rd g_msr_2_index 8) with (Ok IA32_MSR_FS_BASE). rewrite bind_Ok. by exists g2.
Qed.
