(* ===== verification/GuestControl.v ===== *)
(** guest/guest_cpu/guest_cpu_control.c: the VM exits that the components of the hypervisor ask for on a
    guest CPU. Requests for the bits of a control field are counted; a bit is set in the VMCS while a
    request is outstanding, or when the hypervisor or the processor always needs it.

    The operations are sequential; in the source the lock of vmexit_setup makes them so. *)

From S2P Require Import Prelude VmmDefs VmcsFields Vmcs VmcsHw GuestCpu.

(** * Bits *)

Definition CR0_WP : Z := 0x00010000.
Definition CR0_CD : Z := 0x40000000.
Definition CR4_PAE : Z := 0x00000020.
Definition CR4_SMXE : Z := 0x00004000.
Definition CR4_OSXSAVE : Z := 0x00040000.
Definition GCPU_CR4_VMM_CONTROLLED_BITS : Z := Z.lor CR4_PAE CR4_SMXE.
Definition GCPU_CR0_VMM_CONTROLLED_BITS : Z := 0.
Definition UINT32_ALL_ONES : Z := 0xFFFFFFFF.

(** Bit numbers of the control fields (vmx_ctrl_msrs.h). *)
Module Pin.
Definition Nmi : Z := 3.
Definition VirtualNmi : Z := 5.
End Pin.
Module Proc.
Definition Cr3Load : Z := 15.
Definition Cr3Store : Z := 16.
Definition ActivateIoBitmaps : Z := 25.
Definition MonitorTrapFlag : Z := 27.
Definition UseMsrBitmaps : Z := 28.
Definition SecondaryControls : Z := 31.
End Proc.
Module Proc2.
Definition EnableRDTSCP : Z := 3.
Definition UnrestrictedGuest : Z := 7.
Definition EnableINVPCID : Z := 12.
End Proc2.
Module ExitCtl.
Definition always : list Z := [0; 1].
Definition required : list Z := [3; 4; 5; 6; 7; 8; 10; 11; 13; 14].
Definition SaveDebugControls : Z := 2.
Definition Load_IA32_PERF_GLOBAL_CTRL : Z := 12.
Definition SavePat : Z := 18.
Definition LoadPat : Z := 19.
Definition SaveEfer : Z := 20.
Definition LoadEfer : Z := 21.
End ExitCtl.
Module EntryCtl.
Definition always : list Z := [0; 1].
Definition required : list Z := [3; 4; 5; 6; 7; 8].
Definition LoadDebugControls : Z := 2.
Definition Ia32eModeGuest : Z := 9.
Definition LoadPat : Z := 14.
Definition LoadEfer : Z := 15.
End EntryCtl.
Definition EXCEPTION_PF : Z := 14.

(** * CPUID *)

Record CPUID_PARAMS := mk_cpuid { m_rax : Z; m_rbx : Z; m_rcx : Z; m_rdx : Z }.

Section Cpuid.
Context (hw_cpuid : Z -> Z -> CPUID_PARAMS).
Definition is_rdtscp_supported : bool := Z.testbit (m_rdx (hw_cpuid 0x80000001 0)) 27.
Definition is_invpcid_supported : bool := Z.testbit (m_rbx (hw_cpuid 7 0)) 10.
Definition is_fsgsbase_supported : bool := Z.testbit (m_rbx (hw_cpuid 7 0)) 0.
Definition is_pcid_supported : bool := Z.testbit (m_rcx (hw_cpuid 1 0)) 17.
Definition is_cr4_smep_supported : bool := Z.testbit (m_rbx (hw_cpuid 7 0)) 7.
(** The sub-leaf is not set; leaf 1 has none. *)
Definition is_cr4_osxsave_supported : bool := Z.testbit (m_rcx (hw_cpuid 1 0)) 26.
End Cpuid.

(** * Minimal settings *)

(** [func] makes a value compliant. *)
Definition GET_FIXED_MASK (all_ones : Z) (func : Z -> Z) : Z :=
  Z.lor (func 0) (Z.land all_ones (Z.lnot (func all_ones))).
Definition GET_MINIMAL_VALUE (func : Z -> Z) : Z := func 0.
Definition GET_FIXED0 (func : Z -> Z) : Z := func UINT32_ALL_ONES.
Definition MAY_BE_SET1 (fixed default bit : Z) : bool := negb (Z.testbit fixed bit) || Z.testbit default bit.

Definition set_bit (b : Z) (w : Z) : Z := BIT_SET w b.
Definition set_if (c : bool) (b : Z) (w : Z) : Z := if c then BIT_SET w b else w.

Definition set_minimal (one zero : Z) (c : GCPU_VMEXIT_CONTROL_FIELD_COUNTERS) : GCPU_VMEXIT_CONTROL_FIELD_COUNTERS :=
  mk_counters (counters c) (bit_field c) one zero.

Section Minimal.
Context (hw_cpuid : Z -> Z -> CPUID_PARAMS) (k : VMCS_HW_CONSTRAINTS) (fx : VMCS_HW_FIXED).
(** global_policy_is_cache_dis_virtualized and g_pg_policy == POL_PG_EPT. *)
Context (cache_dis_virtualized pg_ept : bool).

Definition set_minimal_cr0_reg_mask c :=
  let fixed := GET_FIXED_MASK UINT64_ALL_ONES (vmcs_hw_make_compliant_cr0 fx) in
  let one := Z.lor fixed GCPU_CR0_VMM_CONTROLLED_BITS in
  set_minimal (if cache_dis_virtualized then Z.lor one CR0_CD else one) UINT64_ALL_ONES c.

Definition set_minimal_cr4_reg_mask c :=
  let fixed := GET_FIXED_MASK UINT64_ALL_ONES (vmcs_hw_make_compliant_cr4 fx) in
  let one := if unrestricted_guest_supported k then Z.lor fixed CR4_SMXE else Z.lor fixed GCPU_CR4_VMM_CONTROLLED_BITS in
  set_minimal (if is_cr4_osxsave_supported hw_cpuid then Z.lor one CR4_OSXSAVE else one) UINT64_ALL_ONES c.

Definition set_minimal_pin_ctrls c :=
  let f := vmcs_hw_make_compliant_pin_based_exec_ctrl fx in
  set_minimal (set_bit Pin.VirtualNmi (set_bit Pin.Nmi (GET_MINIMAL_VALUE f))) (GET_FIXED0 f) c.

Definition set_minimal_processor_ctrls c :=
  let f := vmcs_hw_make_compliant_processor_based_exec_ctrl fx in
  let ctrl := GET_MINIMAL_VALUE f in
  let ctrl := if pg_ept then BIT_CLR (BIT_CLR ctrl Proc.Cr3Load) Proc.Cr3Store else ctrl in
  set_minimal (set_if (processor_based_exec_ctrl2_supported k) Proc.SecondaryControls ctrl) (GET_FIXED0 f) c.

Definition set_minimal_processor_ctrls2 c :=
  if negb (processor_based_exec_ctrl2_supported k) then c
  else
    let f := vmcs_hw_make_compliant_processor_based_exec_ctrl2 fx in
    let ctrl := GET_MINIMAL_VALUE f in
    let ctrl := set_if (negb (Z.testbit ctrl Proc2.EnableRDTSCP) && is_rdtscp_supported hw_cpuid) Proc2.EnableRDTSCP ctrl in
    let ctrl := set_if (negb (Z.testbit ctrl Proc2.EnableINVPCID) && is_invpcid_supported hw_cpuid) Proc2.EnableINVPCID ctrl in
    set_minimal ctrl (GET_FIXED0 f) c.

Definition set_minimal_exceptions_map c := set_minimal 0 UINT64_ALL_ONES c.

(** [if MAY_BE_SET1 ... then set], for each of the bits in turn. *)
Fixpoint set_optional (fixed : Z) (bits : list Z) (ctrl : Z) : Z :=
  match bits with
  | [] => ctrl
  | b :: bits => set_optional fixed bits (set_if (MAY_BE_SET1 fixed ctrl b) b ctrl)
  end.

Definition set_minimal_exit_ctrls c :=
  let f := vmcs_hw_make_compliant_vm_exit_ctrl fx in
  let fixed := GET_FIXED_MASK UINT32_ALL_ONES f in
  let ctrl := foldr set_bit (GET_MINIMAL_VALUE f) ExitCtl.always in
  let ctrl := set_optional fixed [ExitCtl.SaveDebugControls] ctrl in
  let ctrl := foldr set_bit ctrl ExitCtl.required in
  let ctrl := set_optional fixed [ExitCtl.SaveEfer; ExitCtl.LoadEfer; ExitCtl.Load_IA32_PERF_GLOBAL_CTRL;
                                  ExitCtl.SavePat; ExitCtl.LoadPat] ctrl in
  set_minimal ctrl (GET_FIXED0 f) c.

Definition set_minimal_entry_ctrls c :=
  let f := vmcs_hw_make_compliant_vm_entry_ctrl fx in
  let fixed := GET_FIXED_MASK UINT32_ALL_ONES f in
  let ctrl := foldr set_bit (GET_MINIMAL_VALUE f) EntryCtl.always in
  let ctrl := set_optional fixed [EntryCtl.LoadDebugControls] ctrl in
  let ctrl := foldr set_bit ctrl EntryCtl.required in
  let ctrl := set_optional fixed [EntryCtl.LoadEfer; EntryCtl.LoadPat] ctrl in
  set_minimal ctrl (GET_FIXED0 f) c.

Definition set_minimal_of (f : control_field) : GCPU_VMEXIT_CONTROL_FIELD_COUNTERS -> GCPU_VMEXIT_CONTROL_FIELD_COUNTERS :=
  match f with
  | ctl_cr0 => set_minimal_cr0_reg_mask
  | ctl_cr4 => set_minimal_cr4_reg_mask
  | ctl_pin_ctrls => set_minimal_pin_ctrls
  | ctl_processor_ctrls => set_minimal_processor_ctrls
  | ctl_processor_ctrls2 => set_minimal_processor_ctrls2
  | ctl_exceptions_ctrls => set_minimal_exceptions_map
  | ctl_vm_entry_ctrls => set_minimal_entry_ctrls
  | ctl_vm_exit_ctrls => set_minimal_exit_ctrls
  end.
Definition init_minimal_controls (s : GCPU_VMEXIT_CONTROLS) : GCPU_VMEXIT_CONTROLS := fun f => set_minimal_of f (s f).
End Minimal.

(** * Requests *)

Fixpoint update_counters_loop (fuel : nat) (flags mask : Z) (c : GCPU_VMEXIT_CONTROL_FIELD_COUNTERS)
  : outcome GCPU_VMEXIT_CONTROL_FIELD_COUNTERS :=
  if mask =? 0 then Ok c
  else
    match fuel with
    | O => Spin
    | S fuel =>
        match hw_scan_bit_forward64 mask with
        | None => Fault
        | Some idx =>
            let mask := BIT_CLR mask idx in
            v ← rd (counters c) idx;
            if Z.testbit flags idx then
              let bf := if v =? 0 then BIT_SET (bit_field c) idx else bit_field c in
              l ← wr (counters c) idx (u8 (v + 1));
              update_counters_loop fuel flags mask (mk_counters l bf (minimal_1_settings c) (minimal_0_settings c))
            else
              l ← wr (counters c) idx (u8 (v - 1));
              let bf := if u8 (v - 1) =? 0 then BIT_CLR (bit_field c) idx else bit_field c in
              update_counters_loop fuel flags mask (mk_counters l bf (minimal_1_settings c) (minimal_0_settings c))
        end
    end.

(** The bits with a non-zero counter, and the counters. A mask has 64 bits. *)
Definition gcpu_update_control_counters (flags mask : Z) (c : GCPU_VMEXIT_CONTROL_FIELD_COUNTERS)
  : outcome (Z * GCPU_VMEXIT_CONTROL_FIELD_COUNTERS) :=
  c ← update_counters_loop 64 flags mask c; Ok (bit_field c, c).

Definition GET_FINAL_SETTINGS (c : GCPU_VMEXIT_CONTROL_FIELD_COUNTERS) (final_mask : Z) : Z :=
  Z.land (Z.lor final_mask (minimal_1_settings c)) (minimal_0_settings c).

(** VMEXIT_CONTROL: the request for each field. *)
Record VMEXIT_CONTROL_FIELD := mk_request { bit_request : Z; bit_mask : Z }.
Abbreviation VMEXIT_CONTROL := (control_field -> VMEXIT_CONTROL_FIELD).

Inductive EXCEPTIONS_POLICY_TYPE := EXCEPTIONS_POLICY_CATCH_NOTHING | EXCEPTIONS_POLICY_CATCH_ALL.
Inductive GCPU_TEMP_EXCEPTIONS_SETUP :=
| GCPU_TEMP_EXCEPTIONS_EXIT_ON_ALL | GCPU_TEMP_EXCEPTIONS_RESTORE_ALL | GCPU_TEMP_EXIT_ON_PF_AND_CR3
| GCPU_TEMP_RESTORE_PF_AND_CR3 | GCPU_TEMP_CR0_NO_EXIT_ON_WP | GCPU_TEMP_CR0_RESTORE_WP
| GCPU_TEMP_EXIT_ON_INTR_UNBLOCK | GCPU_TEMP_NO_EXIT_ON_INTR_UNBLOCK.

Section Control.
Context {O : Type} `{VmcsOps O} (t : list VMCS_ENCODING).
Abbreviation gcpu := (GUEST_CPU O).
Implicit Types g : gcpu.
(** g_processor_ctrls2_supported, set by the first init_minimal_controls. *)
Context (ctrls2_supported : bool).

Definition update_counters g (f : control_field) (flags mask : Z) : outcome (Z * gcpu) :=
  r ← gcpu_update_control_counters flags mask (vmexit_setup g f); Ok (r.1, set_controls f r.2 g).

(** The field is written when the value changes. *)
Definition write_changed g (level : VMCS_LEVEL) (field value : Z) : outcome gcpu :=
  r ← read_vmcs t g level field;
  let '(old, g) := r in
  if negb (old =? value) then write_vmcs t g level field value else Ok g.

(** ** The fields *)

Definition calculate_cr0_reg_mask g (request bitmask : Z) : outcome (Z * gcpu) :=
  r ← update_counters g ctl_cr0 request bitmask; Ok (GET_FINAL_SETTINGS (vmexit_setup r.2 ctl_cr0) r.1, r.2).
Definition gcpu_set_cr0_reg_mask_layered g level value := write_changed g level VMCS_CR0_MASK value.
Definition gcpu_get_cr0_reg_mask_layered g level := read_vmcs t g level VMCS_CR0_MASK.

Definition calculate_cr4_reg_mask g (request bitmask : Z) : outcome (Z * gcpu) :=
  r ← update_counters g ctl_cr4 request bitmask; Ok (GET_FINAL_SETTINGS (vmexit_setup r.2 ctl_cr4) r.1, r.2).
Definition gcpu_set_cr4_reg_mask_layered g level value := write_changed g level VMCS_CR4_MASK value.
Definition gcpu_get_cr4_reg_mask_layered g level := read_vmcs t g level VMCS_CR4_MASK.

(** The 32-bit fields. *)
Definition calculate32 g (f : control_field) (request bitmask : Z) : outcome (Z * gcpu) :=
  r ← update_counters g f request bitmask;
  Ok (u32 (GET_FINAL_SETTINGS (vmexit_setup r.2 f) (u32 r.1)), r.2).

Definition calculate_pin_ctrls g request bitmask := calculate32 g ctl_pin_ctrls request bitmask.
Definition gcpu_set_pin_ctrls_layered g level value := write_changed g level VMCS_CONTROL_VECTOR_PIN_EVENTS value.
Definition gcpu_get_pin_ctrls_layered g level := read_vmcs t g level VMCS_CONTROL_VECTOR_PIN_EVENTS.

Definition calculate_processor_ctrls g request bitmask := calculate32 g ctl_processor_ctrls request bitmask.
(** The monitor trap flag is kept. *)
Definition gcpu_set_processor_ctrls_layered g level (value : Z) : outcome gcpu :=
  r ← read_vmcs t g level VMCS_CONTROL_VECTOR_PROCESSOR_EVENTS;
  let '(temp, g) := r in
  if negb (temp =? value)
  then write_vmcs t g level VMCS_CONTROL_VECTOR_PROCESSOR_EVENTS
         (Z.lor (Z.land value (u64 (Z.lnot 0x8000000))) (Z.land temp 0x8000000))
  else Ok g.
Definition gcpu_get_processor_ctrls_layered g level := read_vmcs t g level VMCS_CONTROL_VECTOR_PROCESSOR_EVENTS.

Definition calculate_processor_ctrls2 g request bitmask := calculate32 g ctl_processor_ctrls2 request bitmask.
Definition gcpu_set_processor_ctrls2_layered g level value := write_changed g level VMCS_CONTROL2_VECTOR_PROCESSOR_EVENTS value.
Definition gcpu_get_processor_ctrls2_layered g level := read_vmcs t g level VMCS_CONTROL2_VECTOR_PROCESSOR_EVENTS.

Definition pf_policy (exceptions : Z) : EXCEPTIONS_POLICY_TYPE :=
  if Z.testbit exceptions EXCEPTION_PF then EXCEPTIONS_POLICY_CATCH_ALL else EXCEPTIONS_POLICY_CATCH_NOTHING.
Definition calculate_exceptions_map g (request bitmask : Z) : outcome (Z * EXCEPTIONS_POLICY_TYPE * gcpu) :=
  r ← update_counters g ctl_exceptions_ctrls request bitmask;
  let exceptions := u32 r.1 in
  Ok (u32 (GET_FINAL_SETTINGS (vmexit_setup r.2 ctl_exceptions_ctrls) exceptions), pf_policy exceptions, r.2).
Definition gcpu_set_exceptions_map_layered g level value := write_changed g level VMCS_EXCEPTION_BITMAP value.
Definition gcpu_get_exceptions_map_layered g level := read_vmcs t g level VMCS_EXCEPTION_BITMAP.
Definition gcpu_get_pf_error_code_mask_and_match_layered g level : outcome (Z * Z * gcpu) :=
  r ← read_vmcs t g level VMCS_PAGE_FAULT_ERROR_CODE_MASK;
  r2 ← read_vmcs t r.2 level VMCS_PAGE_FAULT_ERROR_CODE_MATCH;
  Ok (u32 r.1, u32 r2.1, r2.2).
Definition gcpu_set_pf_error_code_mask_and_match_layered g level (pf_mask pf_match : Z) : outcome gcpu :=
  g ← write_vmcs t g level VMCS_PAGE_FAULT_ERROR_CODE_MASK pf_mask;
  write_vmcs t g level VMCS_PAGE_FAULT_ERROR_CODE_MATCH pf_match.

Definition calculate_exit_ctrls g request bitmask := calculate32 g ctl_vm_exit_ctrls request bitmask.
Definition gcpu_set_exit_ctrls_layered g level value := write_changed g level VMCS_EXIT_CONTROL_VECTOR value.
Definition gcpu_get_exit_ctrls_layered g level : outcome (Z * gcpu) :=
  r ← read_vmcs t g level VMCS_EXIT_CONTROL_VECTOR; Ok (u32 r.1, r.2).

Definition calculate_enter_ctrls g request bitmask := calculate32 g ctl_vm_entry_ctrls request bitmask.
Definition gcpu_set_enter_ctrls_layered g level value := write_changed g level VMCS_ENTER_CONTROL_VECTOR value.
Definition gcpu_set_enter_ctrls_for_addons g (value bits_untouched : Z) : outcome gcpu :=
  o ← vmcs_update t (vmcs g) VMCS_ENTER_CONTROL_VECTOR value (u32 (Z.lnot bits_untouched)); Ok (set_vmcs o g).
Definition gcpu_get_enter_ctrls_layered g level : outcome (Z * gcpu) :=
  r ← read_vmcs t g level VMCS_ENTER_CONTROL_VECTOR; Ok (u32 r.1, r.2).

(** ** Requests *)

(** The bits of the mask that the host does not always control are shadowed by their real value. *)
Definition update_shadow g (mask one guest_field shadow_field : Z) : outcome gcpu :=
  r ← read_vmcs t g VMCS_MERGED guest_field; let '(value, g) := r in
  r ← read_vmcs t g VMCS_MERGED shadow_field; let '(shadow, g) := r in
  let mask := Z.land mask (u64 (Z.lnot one)) in
  write_vmcs t g VMCS_MERGED shadow_field (Z.lor (Z.land shadow (u64 (Z.lnot mask))) (Z.land value mask)).

Definition request_vmexit_on_cr0 g (bit_request bit_mask : Z) : outcome gcpu :=
  r ← calculate_cr0_reg_mask g bit_request bit_mask; let '(mask, g) := r in
  g ← gcpu_set_cr0_reg_mask_layered g VMCS_LEVEL_0 mask;
  update_shadow g mask (minimal_1_settings (vmexit_setup g ctl_cr0)) VMCS_GUEST_CR0 VMCS_CR0_READ_SHADOW.

Definition request_vmexit_on_cr4 g (bit_request bit_mask : Z) : outcome gcpu :=
  r ← calculate_cr4_reg_mask g bit_request bit_mask; let '(mask, g) := r in
  g ← gcpu_set_cr4_reg_mask_layered g VMCS_LEVEL_0 mask;
  update_shadow g mask (minimal_1_settings (vmexit_setup g ctl_cr4)) VMCS_GUEST_CR4 VMCS_CR4_READ_SHADOW.

Definition update_pfs_setup g (policy : EXCEPTIONS_POLICY_TYPE) : outcome gcpu :=
  r ← gcpu_get_exceptions_map_layered g VMCS_LEVEL_0; let '(exceptions, g) := r in
  let pf := Z.testbit (u32 exceptions) EXCEPTION_PF in
  gcpu_set_pf_error_code_mask_and_match_layered g VMCS_LEVEL_0 0
    (match policy with
     | EXCEPTIONS_POLICY_CATCH_NOTHING => if pf then UINT32_ALL_ONES else 0
     | EXCEPTIONS_POLICY_CATCH_ALL => if pf then 0 else UINT32_ALL_ONES
     end).

Definition request_vmexit_on_exceptions g (bit_request bit_mask : Z) : outcome gcpu :=
  r ← calculate_exceptions_map g bit_request bit_mask; let '(except_map, policy, g) := r in
  g ← gcpu_set_exceptions_map_layered g VMCS_LEVEL_0 except_map;
  update_pfs_setup g policy.

Definition request_vmexit_on_pin_ctrls g (bit_request bit_mask : Z) : outcome gcpu :=
  r ← calculate_pin_ctrls g bit_request bit_mask; gcpu_set_pin_ctrls_layered r.2 VMCS_LEVEL_0 r.1.
Definition request_vmexit_on_proc_ctrls g (bit_request bit_mask : Z) : outcome gcpu :=
  r ← calculate_processor_ctrls g bit_request bit_mask; gcpu_set_processor_ctrls_layered r.2 VMCS_LEVEL_0 r.1.
Definition request_vmexit_on_proc_ctrls2 g (bit_request bit_mask : Z) : outcome gcpu :=
  if ctrls2_supported then
    r ← calculate_processor_ctrls2 g bit_request bit_mask; gcpu_set_processor_ctrls2_layered r.2 VMCS_LEVEL_0 r.1
  else Ok g.
(** IA-32e mode guest is changed with EFER only. *)
Definition request_vmexit_on_vm_enter_ctrls g (bit_request bit_mask : Z) : outcome gcpu :=
  r ← calculate_enter_ctrls g bit_request bit_mask;
  gcpu_set_enter_ctrls_for_addons r.2 r.1 (BIT_SET 0 EntryCtl.Ia32eModeGuest).
Definition request_vmexit_on_vm_exit_ctrls g (bit_request bit_mask : Z) : outcome gcpu :=
  r ← calculate_exit_ctrls g bit_request bit_mask; gcpu_set_exit_ctrls_layered r.2 VMCS_LEVEL_0 r.1.

Definition gcpu_apply_ctrols2 g : outcome gcpu := request_vmexit_on_proc_ctrls2 g 0 0.
Definition gcpu_apply_all g : outcome gcpu :=
  g ← request_vmexit_on_pin_ctrls g 0 0;
  g ← request_vmexit_on_proc_ctrls g 0 0;
  g ← request_vmexit_on_proc_ctrls2 g 0 0;
  g ← request_vmexit_on_exceptions g 0 0;
  g ← request_vmexit_on_vm_exit_ctrls g 0 0;
  g ← request_vmexit_on_vm_enter_ctrls g 0 0;
  g ← request_vmexit_on_cr0 g 0 0;
  request_vmexit_on_cr4 g 0 0.

(** A request for one field, when its mask is not empty. *)
Definition setup_field (request : VMEXIT_CONTROL) (f : control_field) g : outcome gcpu :=
  if negb (bit_mask (request f) =? 0)
  then r ← update_counters g f (bit_request (request f)) (bit_mask (request f)); Ok r.2
  else Ok g.
Definition gcpu_control_setup_only g (request : VMEXIT_CONTROL) : outcome gcpu :=
  g ← setup_field request ctl_cr0 g;
  g ← setup_field request ctl_cr4 g;
  g ← setup_field request ctl_exceptions_ctrls g;
  g ← setup_field request ctl_pin_ctrls g;
  g ← setup_field request ctl_processor_ctrls g;
  g ← setup_field request ctl_processor_ctrls2 g;
  g ← setup_field request ctl_vm_entry_ctrls g;
  setup_field request ctl_vm_exit_ctrls g.
Definition gcpu_control_apply_only g : outcome gcpu := gcpu_apply_all g.
Definition gcpu_control2_apply_only g : outcome gcpu := gcpu_apply_ctrols2 g.
Definition gcpu_control_setup g (request : VMEXIT_CONTROL) : outcome gcpu :=
  g ← gcpu_control_setup_only g request; gcpu_control_apply_only g.
Definition gcpu_control2_setup g (request : VMEXIT_CONTROL) : outcome gcpu :=
  g ← gcpu_control_setup_only g request; gcpu_control2_apply_only g.

(** A request for one field only. *)
Definition only (f : control_field) (request mask : Z) : VMEXIT_CONTROL :=
  fun f' => if decide (f' = f) then mk_request request mask else mk_request 0 0.

Definition gcpu_cr3_virtualized g : bool :=
  let proc_ctrl := u32 (bit_field (vmexit_setup g ctl_processor_ctrls)) in
  Z.testbit proc_ctrl Proc.Cr3Store && Z.testbit proc_ctrl Proc.Cr3Load.

(** Both actions ask for nothing. *)
Definition gcpu_temp_exceptions_setup g (action : GCPU_TEMP_EXCEPTIONS_SETUP) : outcome gcpu :=
  match action with
  | GCPU_TEMP_EXIT_ON_INTR_UNBLOCK | GCPU_TEMP_NO_EXIT_ON_INTR_UNBLOCK => request_vmexit_on_proc_ctrls g 0 0
  | _ => Ok g
  end.

(** ** Settings enforced on the hardware *)

Definition APPLY_ZEROES_AND_ONES (value zeroes ones : Z) : Z := Z.land (Z.lor value ones) zeroes.

Definition gcpu_exceptions_settings_enforce_on_hw g (zeroes ones : Z) : outcome gcpu :=
  r ← gcpu_get_exceptions_map_layered g VMCS_MERGED; let '(v, g) := r in
  let exceptions := u32 (GET_FINAL_SETTINGS (vmexit_setup g ctl_exceptions_ctrls)
                           (APPLY_ZEROES_AND_ONES (u32 v) zeroes ones)) in
  g ← gcpu_set_exceptions_map_layered g VMCS_MERGED exceptions;
  update_pfs_setup g (pf_policy exceptions).
(** The hierarchy is not layered. *)
Definition gcpu_exceptions_settings_restore_on_hw g : outcome gcpu :=
  let c := vmexit_setup g ctl_exceptions_ctrls in
  let exceptions := u32 (GET_FINAL_SETTINGS c (u32 (bit_field c))) in
  g ← gcpu_set_exceptions_map_layered g VMCS_MERGED exceptions;
  update_pfs_setup g (pf_policy exceptions).
Definition gcpu_proc_ctrls_enforce_on_hw g (zeroes ones : Z) : outcome gcpu :=
  r ← gcpu_get_processor_ctrls_layered g VMCS_MERGED; let '(v, g) := r in
  gcpu_set_processor_ctrls_layered g VMCS_MERGED
    (u32 (GET_FINAL_SETTINGS (vmexit_setup g ctl_processor_ctrls) (APPLY_ZEROES_AND_ONES (u32 v) zeroes ones))).
Definition gcpu_proc_ctrls_restore_on_hw g : outcome gcpu :=
  let c := vmexit_setup g ctl_processor_ctrls in
  gcpu_set_processor_ctrls_layered g VMCS_MERGED (u32 (GET_FINAL_SETTINGS c (u32 (bit_field c)))).
Definition gcpu_cr0_mask_enforce_on_hw g (zeroes ones : Z) : outcome gcpu :=
  r ← gcpu_get_cr0_reg_mask_layered g VMCS_MERGED; let '(v, g) := r in
  gcpu_set_cr0_reg_mask_layered g VMCS_MERGED
    (GET_FINAL_SETTINGS (vmexit_setup g ctl_cr0) (APPLY_ZEROES_AND_ONES v zeroes ones)).

Definition gcpu_enforce_settings_on_hardware g (action : GCPU_TEMP_EXCEPTIONS_SETUP) : outcome gcpu :=
  match action with
  | GCPU_TEMP_EXCEPTIONS_EXIT_ON_ALL => gcpu_exceptions_settings_enforce_on_hw g UINT32_ALL_ONES UINT32_ALL_ONES
  | GCPU_TEMP_EXIT_ON_PF_AND_CR3 =>
      g ← gcpu_exceptions_settings_enforce_on_hw g UINT32_ALL_ONES (BIT_SET 0 EXCEPTION_PF);
      gcpu_proc_ctrls_enforce_on_hw g UINT32_ALL_ONES (BIT_SET (BIT_SET 0 Proc.Cr3Load) Proc.Cr3Store)
  | GCPU_TEMP_EXCEPTIONS_RESTORE_ALL => gcpu_exceptions_settings_restore_on_hw g
  | GCPU_TEMP_RESTORE_PF_AND_CR3 => g ← gcpu_exceptions_settings_restore_on_hw g; gcpu_proc_ctrls_restore_on_hw g
  | GCPU_TEMP_CR0_NO_EXIT_ON_WP => gcpu_cr0_mask_enforce_on_hw g (Z.land UINT64_ALL_ONES (Z.lnot CR0_WP)) 0
  | GCPU_TEMP_CR0_RESTORE_WP => gcpu_cr0_mask_enforce_on_hw g UINT64_ALL_ONES CR0_WP
  | _ => Ok g
  end.

(** ** Set-up of a guest CPU *)

Section Setup.
Context (hw_cpuid : Z -> Z -> CPUID_PARAMS) (k : VMCS_HW_CONSTRAINTS) (fx : VMCS_HW_FIXED).
Context (cache_dis_virtualized pg_ept : bool).
(** RDMSR in the hypervisor, and the translation of the host memory manager. *)
Context (hw_read_msr : Z -> outcome Z) (hmm_hva_to_hpa : Z -> option Z).

Definition IA32_MSR_SYSENTER_CS : Z := 0x174.
Definition IA32_MSR_SYSENTER_ESP : Z := 0x175.
Definition IA32_MSR_SYSENTER_EIP : Z := 0x176.
Definition IA32_MSR_PERF_GLOBAL_CTRL : Z := 0x38F.

Definition write_msr_field (field msr : Z) g : outcome gcpu :=
  v ← hw_read_msr msr; write_vmcs t g VMCS_MERGED field v.

Definition gcpu_minimal_controls g : outcome gcpu :=
  let g := mk_gcpu (vmcs g) (gp g) (xmm g) (debug g) (state_flags g) (caching_flags g) (cached_activity_state g)
             (last_guest_level g) (next_guest_level g)
             (init_minimal_controls hw_cpuid k fx cache_dis_virtualized pg_ept (vmexit_setup g)) in
  g ← gcpu_apply_all g;
  g ← write_vmcs t g VMCS_MERGED VMCS_CR3_TARGET_COUNT 0;
  g ← for_range 0 (number_of_cr3_target_values k)
        (fun idx g => write_vmcs t g VMCS_MERGED (VMCS_CR3_TARGET_VALUE_0 + idx) UINT64_ALL_ONES) g;
  g ← write_vmcs t g VMCS_MERGED VMCS_GUEST_WORKING_VMCS_PTR UINT64_ALL_ONES;
  g ← write_msr_field VMCS_GUEST_SYSENTER_CS IA32_MSR_SYSENTER_CS g;
  g ← write_msr_field VMCS_GUEST_SYSENTER_ESP IA32_MSR_SYSENTER_ESP g;
  g ← write_msr_field VMCS_GUEST_SYSENTER_EIP IA32_MSR_SYSENTER_EIP g;
  write_msr_field VMCS_GUEST_IA32_PERF_GLOBAL_CTRL IA32_MSR_PERF_GLOBAL_CTRL g.

(** vmexit_msr.c. *)
Definition msr_vmexit_on_all g (enable : bool) : outcome gcpu :=
  gcpu_control_setup g (only ctl_processor_ctrls (if enable then 0 else UINT64_ALL_ONES) (BIT_SET 0 Proc.UseMsrBitmaps)).
(** [msr_bitmap] is NULL or the address of the page; a failed translation leaves it as it is. *)
Definition msr_vmexit_activate g (msr_bitmap : Z) : outcome gcpu :=
  g ← msr_vmexit_on_all g false;
  if msr_bitmap =? 0 then Ok g
  else write_vmcs t g VMCS_MERGED VMCS_MSR_BITMAP_ADDRESS (default msr_bitmap (hmm_hva_to_hpa msr_bitmap)).

(** vmexit_io.c. *)
Definition io_vmexit_activate g (io_bitmap : Z) : outcome gcpu :=
  if io_bitmap =? 0 then Ok g
  else
    match hmm_hva_to_hpa io_bitmap with
    | None => Ok g
    | Some a =>
        g ← write_vmcs t g VMCS_MERGED VMCS_IO_BITMAP_ADDRESS_A a;
        match hmm_hva_to_hpa (io_bitmap + PAGE_4KB_SIZE) with
        | None => Ok g
        | Some b =>
            g ← write_vmcs t g VMCS_MERGED VMCS_IO_BITMAP_ADDRESS_B b;
            gcpu_control_setup g (only ctl_processor_ctrls UINT64_ALL_ONES (BIT_SET 0 Proc.ActivateIoBitmaps))
        end
    end.

Definition guest_cpu_control_setup g (msr_bitmap io_bitmap : Z) : outcome gcpu :=
  g ← gcpu_minimal_controls g;
  g ← msr_vmexit_activate g msr_bitmap;
  io_vmexit_activate g io_bitmap.
End Setup.

(** ** unrestricted_guest.c *)

Definition hw_is_unrestricted_guest_enabled g : outcome (bool * gcpu) :=
  r ← read_vmcs t g VMCS_MERGED VMCS_CONTROL2_VECTOR_PROCESSOR_EVENTS;
  Ok (Z.testbit (u32 r.1) Proc2.UnrestrictedGuest, r.2).
Definition is_unrestricted_guest_enabled g := hw_is_unrestricted_guest_enabled g.
Definition unrestricted_guest_hw_disable g : outcome gcpu :=
  gcpu_control2_setup g (only ctl_processor_ctrls2 0 (BIT_SET 0 Proc2.UnrestrictedGuest)).
Definition unrestricted_guest_disable g := unrestricted_guest_hw_disable g.
Definition gcpu_clr_unrestricted_guest g : outcome gcpu :=
  unrestricted_guest_disable (clr_state_flag GCPU_UNRESTRICTED_GUEST_FLAG g).

(** ** The control state by number *)

Section State.
(** ept_get_eptp and ept_set_eptp. *)
Context (ept_get_eptp : gcpu -> outcome (Z * gcpu)) (ept_set_eptp : gcpu -> Z -> Z -> outcome (bool * gcpu)).

Definition VMM_CR3_TARGET_VALUE_0 : Z := 48.
Definition NUM_OF_VMM_CONTROL_STATE : Z := 52.

(** The two words of the union: mask (or gaw, or value) and value (or the root table). *)
Record VMM_CONTROLS := mk_vmm_controls { word0 : Z; word1 : Z }.
Definition low32 (w v : Z) : Z := Z.lor (Z.ldiff w UINT32_ALL_ONES) v.

(** [ControlStateId] is an unsigned 32-bit number; a NULL value is [None]. *)
Definition control_field_id (ControlStateId : Z) : Z :=
  if ControlStateId <? VMM_CR3_TARGET_VALUE_0 then ControlStateId
  else VMCS_CR3_TARGET_VALUE_0 + (ControlStateId - VMM_CR3_TARGET_VALUE_0).

Definition vmm_get_vmcs_control_state g (ControlStateId : Z) (value : option VMM_CONTROLS)
  : outcome (bool * option VMM_CONTROLS * gcpu) :=
  match value with
  | None => Ok (false, None, g)
  | Some v =>
      if NUM_OF_VMM_CONTROL_STATE - 1 <? ControlStateId then Ok (false, value, g)
      else
        let f := control_field_id ControlStateId in
        let ret (r : Z * gcpu) := Ok (true, Some (mk_vmm_controls r.1 (word1 v)), r.2) in
        if f =? VMCS_CONTROL_VECTOR_PIN_EVENTS then r ← gcpu_get_pin_ctrls_layered g VMCS_MERGED; ret r
        else if f =? VMCS_CONTROL_VECTOR_PROCESSOR_EVENTS then r ← gcpu_get_processor_ctrls_layered g VMCS_MERGED; ret r
        else if f =? VMCS_CONTROL2_VECTOR_PROCESSOR_EVENTS then r ← gcpu_get_processor_ctrls2_layered g VMCS_MERGED; ret r
        else if f =? VMCS_EXCEPTION_BITMAP then r ← gcpu_get_exceptions_map_layered g VMCS_MERGED; ret r
        else if (f =? VMCS_PAGE_FAULT_ERROR_CODE_MASK) || (f =? VMCS_PAGE_FAULT_ERROR_CODE_MATCH) then
          r ← gcpu_get_pf_error_code_mask_and_match_layered g VMCS_MERGED;
          let '(pf_mask, pf_match, g) := r in
          Ok (true, Some (mk_vmm_controls (low32 (word0 v) pf_mask) (low32 (word1 v) pf_match)), g)
        else if f =? VMCS_CR0_MASK then r ← gcpu_get_cr0_reg_mask_layered g VMCS_MERGED; ret r
        else if f =? VMCS_CR4_MASK then r ← gcpu_get_cr4_reg_mask_layered g VMCS_MERGED; ret r
        else if f =? VMCS_EXIT_CONTROL_VECTOR then r ← gcpu_get_exit_ctrls_layered g VMCS_MERGED; ret r
        else if f =? VMCS_EPTP_ADDRESS then r ← ept_get_eptp g; ret r
        else r ← read_vmcs t g VMCS_MERGED f; ret r
  end.

(** What is not supported returns FALSE. *)
Definition vmm_set_vmcs_control_state g (ControlStateId : Z) (value : option VMM_CONTROLS) : outcome (bool * gcpu) :=
  match value with
  | None => Ok (false, g)
  | Some v =>
      if NUM_OF_VMM_CONTROL_STATE - 1 <? ControlStateId then Ok (false, g)
      else
        let f := control_field_id ControlStateId in
        let mask := word0 v in
        let val := word1 v in
        let done (r : outcome gcpu) := g ← r; Ok (true, g) in
        if f =? VMCS_CONTROL_VECTOR_PIN_EVENTS then done (request_vmexit_on_pin_ctrls g (u32 val) (u32 mask))
        else if f =? VMCS_CONTROL_VECTOR_PROCESSOR_EVENTS then
          done (if negb (mask =? 0) then request_vmexit_on_proc_ctrls g (u32 val) (u32 mask)
                else write_vmcs t g VMCS_MERGED VMCS_CONTROL_VECTOR_PROCESSOR_EVENTS val)
        else if f =? VMCS_CONTROL2_VECTOR_PROCESSOR_EVENTS then done (request_vmexit_on_proc_ctrls2 g (u32 val) (u32 mask))
        else if f =? VMCS_EXCEPTION_BITMAP then done (request_vmexit_on_exceptions g (u32 val) (u32 mask))
        else if f =? VMCS_CR0_MASK then
          done (if negb (mask =? 0) || (val =? 0) then request_vmexit_on_cr0 g (u32 val) (u32 mask)
                else write_vmcs t g VMCS_MERGED VMCS_CR0_MASK val)
        else if f =? VMCS_CR4_MASK then
          done (if negb (mask =? 0) || (val =? 0) then request_vmexit_on_cr4 g (u32 val) (u32 mask)
                else write_vmcs t g VMCS_MERGED VMCS_CR4_MASK val)
        else if f =? VMCS_EXIT_CONTROL_VECTOR then done (gcpu_set_exit_ctrls_layered g VMCS_MERGED (u32 (word0 v)))
        else if f =? VMCS_MSR_BITMAP_ADDRESS then done (write_vmcs t g VMCS_MERGED VMCS_MSR_BITMAP_ADDRESS (word0 v))
        else if f =? VMCS_EPTP_INDEX then done (write_vmcs t g VMCS_MERGED VMCS_EPTP_INDEX (word0 v))
        else if f =? VMCS_EPTP_ADDRESS then ept_set_eptp g (word1 v) (u32 (word0 v))
        else Ok (false, g)
  end.
End State.
End Control.
