(* ===== verification/GuestControlSpec.v ===== *)
(** Properties of guest_cpu_control.c: the control fields of the VMCS show exactly the outstanding
    requests, and the processor accepts them. *)

From S2P Require Import Prelude VmmDefs VmcsFields Vmcs VmcsSw VmcsMsrList VmcsHw GuestCpu GuestCpuSpec GuestControl.

(** * Bits *)

Lemma fits_bits w x : 0 <= w -> 0 <= x -> (forall i, w <= i -> Z.testbit x i = false) -> fits w x.
Proof. intros Hw Hx Hb. split; [done|]. by apply bits_lt_pow2. Qed.

Lemma fits_bit_set w x b : 0 <= b < w -> fits w x -> fits w (BIT_SET x b).
Proof.
  intros Hb Hx. apply fits_bits; [lia| |].
  - unfold BIT_SET. apply Z.lor_nonneg. split; [unfold fits in Hx; lia|]. apply Z.shiftl_nonneg. lia.
  - intros i Hi. rewrite bit_set_spec by lia. rewrite (bits_above x w) by (unfold fits in Hx; lia).
    apply Z.eqb_neq. lia.
Qed.
Lemma fits_bit_clr w x b : 0 <= b < w -> fits w x -> fits w (BIT_CLR x b).
Proof.
  intros Hb Hx. apply fits_bits; [lia| |].
  - unfold BIT_CLR. apply Z.ldiff_nonneg. unfold fits in Hx. lia.
  - intros i Hi. rewrite bit_clr_spec by lia. by rewrite (bits_above x w) by (unfold fits in Hx; lia).
Qed.

Lemma u32_bits x i : 0 <= i -> Z.testbit (u32 x) i = (i <? 32) && Z.testbit x i.
Proof.
  intros Hi. unfold u32, wrap. destruct (Z.ltb_spec i 32); [by rewrite Z.mod_pow2_bits_low by lia|].
  by rewrite Z.mod_pow2_bits_high by lia.
Qed.
Lemma u64_bits x i : 0 <= i -> Z.testbit (u64 x) i = (i <? 64) && Z.testbit x i.
Proof.
  intros Hi. unfold u64, wrap. destruct (Z.ltb_spec i 64); [by rewrite Z.mod_pow2_bits_low by lia|].
  by rewrite Z.mod_pow2_bits_high by lia.
Qed.

(** * Counters *)

(** [n i] requests are outstanding for bit [i]. *)
Record tracks (c : GCPU_VMEXIT_CONTROL_FIELD_COUNTERS) (n : Z -> Z) : Prop := {
  tr_length : length (counters c) = 64%nat;
  tr_count : forall i, 0 <= i < 64 -> counters c !! Z.to_nat i = Some (n i);
  tr_range : forall i, 0 <= i < 64 -> 0 <= n i <= 255;
  tr_field : forall i, 0 <= i < 64 -> Z.testbit (bit_field c) i = (0 <? n i);
  tr_fits : fits 64 (bit_field c)
}.

(** The requests after one for the bits of [mask]: one more where [flags] has a 1, one less where it has a 0. *)
Definition bump (flags mask : Z) (n : Z -> Z) (i : Z) : Z :=
  if Z.testbit mask i then (if Z.testbit flags i then n i + 1 else n i - 1) else n i.
(** A request is only taken back once, and the count stays in a byte. *)
Definition balanced (flags mask : Z) (n : Z -> Z) : Prop :=
  forall i, 0 <= i < 64 -> Z.testbit mask i = true -> if Z.testbit flags i then n i < 255 else 0 < n i.

Lemma tracks_ext c n n' : (forall i, 0 <= i < 64 -> n i = n' i) -> tracks c n -> tracks c n'.
Proof.
  intros E [H1 H2 H3 H4 H5]. split; auto.
  - intros i Hi. rewrite <- E by done. by apply H2.
  - intros i Hi. rewrite <- E by done. by apply H3.
  - intros i Hi. rewrite <- E by done. by apply H4.
Qed.

(** One counter changes by one. *)
Lemma tracks_step c n idx v bf : tracks c n -> 0 <= idx < 64 -> 0 <= v <= 255 ->
  fits 64 bf -> (forall i, 0 <= i < 64 -> Z.testbit bf i = if i =? idx then 0 <? v else Z.testbit (bit_field c) i) ->
  tracks (mk_counters (<[Z.to_nat idx := v]> (counters c)) bf (minimal_1_settings c) (minimal_0_settings c))
    (fun i => if i =? idx then v else n i).
Proof.
  intros [H1 H2 H3 H4 H5] Hidx Hv Hbf Hbits. split; cbn [counters bit_field].
  - by rewrite length_insert.
  - intros i Hi. destruct (Z.eqb_spec i idx) as [->|Hne].
    + apply list_lookup_insert_eq. lia.
    + rewrite list_lookup_insert_ne by lia. by apply H2.
  - intros i Hi. destruct (i =? idx); [done|by apply H3].
  - intros i Hi. rewrite Hbits by done. destruct (i =? idx); [done|by apply H4].
  - done.
Qed.

Lemma tracks_up c n idx : tracks c n -> 0 <= idx < 64 -> n idx < 255 ->
  tracks (mk_counters (<[Z.to_nat idx := u8 (n idx + 1)]> (counters c))
            (if n idx =? 0 then BIT_SET (bit_field c) idx else bit_field c) (minimal_1_settings c) (minimal_0_settings c))
    (fun i => if i =? idx then n idx + 1 else n i).
Proof.
  intros T Hidx Hn. pose proof (tr_range _ _ T idx Hidx). rewrite u8_small by lia.
  apply tracks_step; [done|done|lia| |].
  - case_match; [apply fits_bit_set; [lia|]|]; apply T.
  - intros i Hi. rewrite (proj2 (Z.ltb_lt 0 (n idx + 1))) by lia.
    destruct (Z.eqb_spec (n idx) 0).
    + rewrite bit_set_spec by lia. by destruct (i =? idx); rewrite ?orb_true_r, ?orb_false_r.
    + destruct (Z.eqb_spec i idx) as [->|]; [|done]. rewrite (tr_field _ _ T) by done. apply Z.ltb_lt. lia.
Qed.

Lemma tracks_down c n idx : tracks c n -> 0 <= idx < 64 -> 0 < n idx ->
  tracks (mk_counters (<[Z.to_nat idx := u8 (n idx - 1)]> (counters c))
            (if u8 (n idx - 1) =? 0 then BIT_CLR (bit_field c) idx else bit_field c) (minimal_1_settings c) (minimal_0_settings c))
    (fun i => if i =? idx then n idx - 1 else n i).
Proof.
  intros T Hidx Hn. pose proof (tr_range _ _ T idx Hidx). rewrite u8_small by lia.
  apply tracks_step; [done|done|lia| |].
  - case_match; [apply fits_bit_clr; [lia|]|]; apply T.
  - intros i Hi. destruct (Z.eqb_spec (n idx - 1) 0) as [E|E].
    + rewrite bit_clr_spec, E by lia. by destruct (i =? idx); rewrite ?andb_false_r, ?andb_true_r.
    + destruct (Z.eqb_spec i idx) as [->|]; [|done]. rewrite (tr_field _ _ T) by done.
      rewrite !(proj2 (Z.ltb_lt _ _)) by lia. done.
Qed.

Lemma update_loop_none fuel flags c : update_counters_loop fuel flags 0 c = Ok c.
Proof. by destruct fuel. Qed.

(** The loop ends: each round clears the lowest bit of the mask. *)
Lemma update_loop_spec fuel flags : forall mask c n,
  fits 64 mask -> (forall i, 0 <= i < 64 - Z.of_nat fuel -> Z.testbit mask i = false) ->
  tracks c n -> balanced flags mask n ->
  exists c', update_counters_loop fuel flags mask c = Ok c' /\ tracks c' (bump flags mask n) /\
    minimal_1_settings c' = minimal_1_settings c /\ minimal_0_settings c' = minimal_0_settings c.
Proof.
  induction fuel as [|fuel IH]; intros mask c n Hm Hlow T B.
  - assert (mask = 0) as ->.
    { apply Z.bits_inj'. intros i Hi. rewrite Z.bits_0. destruct (decide (i < 64)); [apply Hlow; lia|].
      apply (bits_above mask 64); unfold fits in Hm; lia. }
    exists c. split_and!; try done. apply (tracks_ext c n); [|done]. intros i Hi. unfold bump. by rewrite Z.bits_0.
  - cbn [update_counters_loop]. destruct (Z.eqb_spec mask 0) as [->|Hne].
    { exists c. split_and!; try done. apply (tracks_ext c n); [|done]. intros i Hi. unfold bump. by rewrite Z.bits_0. }
    destruct (hw_scan_bit_forward64 mask) as [idx|] eqn:E; [|destruct mask; unfold fits in Hm; done || lia].
    apply hw_scan_bit_forward64_spec in E as (I0 & I1 & I2).
    assert (idx < 64) by (destruct (decide (idx < 64)); [done|]; rewrite (bits_above mask 64) in I1; unfold fits in Hm; lia || done).
    assert (64 - Z.of_nat (S fuel) <= idx) by (destruct (decide (64 - Z.of_nat (S fuel) <= idx)); [done|]; rewrite Hlow in I1; lia || done).
    rewrite (rd_ok _ _ (n idx)) by (done || by apply (tr_count _ _ T)). rewrite bind_Ok.
    assert (Hm' : fits 64 (BIT_CLR mask idx)) by (by apply fits_bit_clr).
    assert (Hlow' : forall i, 0 <= i < 64 - Z.of_nat fuel -> Z.testbit (BIT_CLR mask idx) i = false).
    { intros i Hi. rewrite bit_clr_spec by lia. destruct (Z.eqb_spec i idx); [by rewrite andb_false_r|].
      rewrite I2 by lia. done. }
    pose proof (B idx ltac:(lia) I1) as Bi. pose proof (tr_length _ _ T) as HL.
    assert (Hrest : forall m', balanced flags (BIT_CLR mask idx) (fun i => if i =? idx then m' else n i)).
    { intros m' i Hi Hb. rewrite bit_clr_spec in Hb by lia. apply andb_true_iff in Hb as [Hb Hb'].
      rewrite (proj1 (negb_true_iff _) Hb'). by apply B. }
    destruct (Z.testbit flags idx) eqn:Ef.
    + rewrite wr_ok by lia. rewrite bind_Ok.
      destruct (IH _ _ _ Hm' Hlow' (tracks_up c n idx T ltac:(lia) Bi) (Hrest _)) as (c' & E' & T' & M1 & M0).
      exists c'. rewrite E'. split_and!; [done| |exact M1|exact M0]. revert T'. apply tracks_ext.
      intros i Hi. unfold bump. rewrite bit_clr_spec by lia. destruct (Z.eqb_spec i idx) as [->|].
      * by rewrite andb_false_r, I1, Ef.
      * by rewrite andb_true_r.
    + rewrite wr_ok by lia. rewrite bind_Ok.
      destruct (IH _ _ _ Hm' Hlow' (tracks_down c n idx T ltac:(lia) Bi) (Hrest _)) as (c' & E' & T' & M1 & M0).
      exists c'. rewrite E'. split_and!; [done| |exact M1|exact M0]. revert T'. apply tracks_ext.
      intros i Hi. unfold bump. rewrite bit_clr_spec by lia. destruct (Z.eqb_spec i idx) as [->|].
      * by rewrite andb_false_r, I1, Ef.
      * by rewrite andb_true_r.
Qed.

(** * The fields *)

Definition control_vmcs_fields : list Z :=
  [VMCS_CONTROL_VECTOR_PIN_EVENTS; VMCS_CONTROL_VECTOR_PROCESSOR_EVENTS; VMCS_EXCEPTION_BITMAP;
   VMCS_PAGE_FAULT_ERROR_CODE_MASK; VMCS_PAGE_FAULT_ERROR_CODE_MATCH; VMCS_EXIT_CONTROL_VECTOR; VMCS_ENTER_CONTROL_VECTOR;
   VMCS_CR0_MASK; VMCS_CR0_READ_SHADOW; VMCS_CR4_MASK; VMCS_CR4_READ_SHADOW; VMCS_GUEST_CR0; VMCS_GUEST_CR4].

Definition final32 (c : GCPU_VMEXIT_CONTROL_FIELD_COUNTERS) : Z := u32 (GET_FINAL_SETTINGS c (u32 (bit_field c))).
Definition final64 (c : GCPU_VMEXIT_CONTROL_FIELD_COUNTERS) : Z := GET_FINAL_SETTINGS c (bit_field c).
(** [v] with the bits of [kept] from [old]. *)
Definition keep (old v kept : Z) : Z := updated v old kept.

Lemma fits_32_64 x : fits 64 (u32 x).
Proof. pose proof (u32_range x). split; [lia|]. change (2 ^ 64) with 18446744073709551616. lia. Qed.
Lemma fits_land w a b : 0 <= w -> fits w a -> 0 <= b -> fits w (Z.land a b).
Proof.
  intros Hw Ha Hb. apply fits_bits; [done|by apply Z.land_nonneg; left; unfold fits in Ha; lia|].
  intros i Hi. rewrite Z.land_spec. by rewrite (bits_above a w) by (unfold fits in Ha; lia).
Qed.
Lemma fits_lor w a b : 0 <= w -> fits w a -> fits w b -> fits w (Z.lor a b).
Proof.
  intros Hw Ha Hb. apply fits_bits; [done|apply Z.lor_nonneg; unfold fits in *; lia|].
  intros i Hi. rewrite Z.lor_spec. by rewrite (bits_above a w), (bits_above b w) by (unfold fits in *; lia).
Qed.

(** What every state of the counters has. *)
Definition settings_ok (c : GCPU_VMEXIT_CONTROL_FIELD_COUNTERS) : Prop :=
  fits 64 (bit_field c) /\ fits 64 (minimal_1_settings c) /\ fits 64 (minimal_0_settings c).
Lemma final64_fits c : settings_ok c -> fits 64 (final64 c).
Proof.
  intros (H1 & H2 & H3). apply fits_land; [lia| |unfold fits in H3; lia]. by apply fits_lor.
Qed.

(** The outstanding requests of each field and bit. *)
Abbreviation requests := (control_field -> Z -> Z).

Section Fields.
Context {O : Type} `{VmcsLaws O} (t : list VMCS_ENCODING) (ctrls2_supported : bool).
Hypothesis Hfields : Forall (writes t) control_vmcs_fields.
Hypothesis Hctrls2 : ctrls2_supported = true -> writes t VMCS_CONTROL2_VECTOR_PROCESSOR_EVENTS.
Implicit Types g : GUEST_CPU O.

Lemma control_writes f : among control_vmcs_fields f = true -> writes t f.
Proof. by apply among_Forall. Qed.
#[local] Hint Extern 1 (writes t _) => (apply control_writes; reflexivity) : vmcs.
#[local] Hint Extern 1 (reads t _) => (apply writes_reads, control_writes; reflexivity) : vmcs.
#[local] Hint Resolve fits_32_64 final64_fits : vmcs.

(** The VMCS has content [V], the counters are [S]. *)
Definition st g (V : Z -> Z) (S : GCPU_VMEXIT_CONTROLS) : Prop := holds g V /\ forall f, vmexit_setup g f = S f.

Lemma st_frame g g' V V' S : st g V S -> frame g g' -> holds g' V' -> st g' V' S.
Proof. intros [_ HS] F H'. split; [done|]. intros f. rewrite (frame_setup g g') by done. apply HS. Qed.

(** A recalculation without a request. *)
Lemma st_recalculate g V S f : st g V S ->
  update_counters g f 0 0 = Ok (bit_field (S f), set_controls f (S f) g) /\ st (set_controls f (S f) g) V S.
Proof.
  intros [HV HS]. split.
  - unfold update_counters, gcpu_update_control_counters. by rewrite update_loop_none, bind_Ok, bind_Ok, HS.
  - split; [done|]. intros f'. cbn [vmexit_setup set_controls]. case_decide; [by subst|apply HS].
Qed.

Lemma write_changed_ok g V S level f v : level <> VMCS_LEVEL_1 -> st g V S -> writes t f -> fits 64 v ->
  exists g', write_changed t g level f v = Ok g' /\ st g' (fupd V f v) S.
Proof.
  intros Hl Hst Hf Hv. unfold write_changed. pose proof (proj1 Hst) as Hh.
  destruct (read_vmcs_ok t g V level f Hl Hh ltac:(by apply writes_reads)) as (g1 & -> & H1 & F1). rewrite bind_Ok.
  cbv iota zeta. destruct (Z.eqb_spec (V f) v) as [E|_]; cbn [negb].
  - exists g1. split; [done|]. apply (st_frame g g1 V); [done..|]. revert H1. apply holds_ext.
    intros x Hx. unfold fupd. destruct (Z.eqb_spec x f); [by subst|done].
  - destruct (write_vmcs_ok t g1 V level f v Hl H1 Hf Hv) as (g2 & -> & H2 & F2). exists g2. split; [done|].
    apply (st_frame g g2 V); [done| |done]. by apply (frame_trans g g1 g2).
Qed.

Lemma st_settings g V S f : st g V S -> settings_ok (S f) -> settings_ok (vmexit_setup g f).
Proof. intros [_ HS] Hs. by rewrite HS. Qed.

Lemma apply_pin g V S : st g V S ->
  exists g', request_vmexit_on_pin_ctrls t g 0 0 = Ok g' /\
    st g' (fupd V VMCS_CONTROL_VECTOR_PIN_EVENTS (final32 (S ctl_pin_ctrls))) S.
Proof.
  intros Hst. unfold request_vmexit_on_pin_ctrls, calculate_pin_ctrls, calculate32.
  destruct (st_recalculate g V S ctl_pin_ctrls Hst) as [-> Hst']. rewrite !bind_Ok. cbn [fst snd].
  rewrite (proj2 Hst'). apply (write_changed_ok _ V S); [done|done|eauto with vmcs..].
Qed.

Lemma apply_exit g V S : st g V S ->
  exists g', request_vmexit_on_vm_exit_ctrls t g 0 0 = Ok g' /\
    st g' (fupd V VMCS_EXIT_CONTROL_VECTOR (final32 (S ctl_vm_exit_ctrls))) S.
Proof.
  intros Hst. unfold request_vmexit_on_vm_exit_ctrls, calculate_exit_ctrls, calculate32.
  destruct (st_recalculate g V S ctl_vm_exit_ctrls Hst) as [-> Hst']. rewrite !bind_Ok. cbn [fst snd].
  rewrite (proj2 Hst'). apply (write_changed_ok _ V S); [done|done|eauto with vmcs..].
Qed.

Lemma apply_proc2 g V S : st g V S ->
  exists g', request_vmexit_on_proc_ctrls2 t ctrls2_supported g 0 0 = Ok g' /\
    st g' (if ctrls2_supported then fupd V VMCS_CONTROL2_VECTOR_PROCESSOR_EVENTS (final32 (S ctl_processor_ctrls2)) else V) S.
Proof.
  intros Hst. unfold request_vmexit_on_proc_ctrls2, calculate_processor_ctrls2, calculate32.
  destruct ctrls2_supported; [|by exists g].
  destruct (st_recalculate g V S ctl_processor_ctrls2 Hst) as [-> Hst']. rewrite !bind_Ok. cbn [fst snd].
  rewrite (proj2 Hst'). apply (write_changed_ok _ V S); [done|done|by apply Hctrls2|eauto with vmcs].
Qed.

Lemma apply_proc g V S : st g V S ->
  exists g', request_vmexit_on_proc_ctrls t g 0 0 = Ok g' /\
    st g' (fupd V VMCS_CONTROL_VECTOR_PROCESSOR_EVENTS
             (keep (V VMCS_CONTROL_VECTOR_PROCESSOR_EVENTS) (final32 (S ctl_processor_ctrls)) 0x8000000)) S.
Proof.
  intros Hst. unfold request_vmexit_on_proc_ctrls, calculate_processor_ctrls, calculate32.
  destruct (st_recalculate g V S ctl_processor_ctrls Hst) as [-> Hst']. rewrite !bind_Ok. cbn [fst snd].
  rewrite (proj2 Hst'). fold (final32 (S ctl_processor_ctrls)). unfold gcpu_set_processor_ctrls_layered.
  pose proof (proj1 Hst') as Hh. vread g1 H1 F1.
  assert (HV : fits 64 (V VMCS_CONTROL_VECTOR_PROCESSOR_EVENTS)) by (by apply (holds_fits g1)).
  destruct (Z.eqb_spec (V VMCS_CONTROL_VECTOR_PROCESSOR_EVENTS) (final32 (S ctl_processor_ctrls))) as [E|_]; cbn [negb].
  - exists g1. split; [done|]. apply (st_frame _ g1 V _ S Hst' F1). revert H1. apply holds_ext.
    intros x Hx. unfold fupd. destruct (Z.eqb_spec x VMCS_CONTROL_VECTOR_PROCESSOR_EVENTS) as [->|]; [|done].
    rewrite <- E. apply Z.bits_inj'. intros i Hi. unfold keep. rewrite updated_bits by done. by case_match.
  - destruct (write_vmcs_ok t g1 V VMCS_LEVEL_0 VMCS_CONTROL_VECTOR_PROCESSOR_EVENTS
      (keep (V VMCS_CONTROL_VECTOR_PROCESSOR_EVENTS) (final32 (S ctl_processor_ctrls)) 0x8000000) ltac:(done) H1
      ltac:(eauto with vmcs)) as (g2 & E & H2 & F2).
    { apply updated_fits; [apply fits_32_64|done|done]. }
    exists g2. split; [exact E|]. apply (st_frame _ g2 V _ S Hst'); [by apply (frame_trans _ g1)|done].
Qed.

Lemma apply_entry g V S : st g V S ->
  exists g', request_vmexit_on_vm_enter_ctrls t g 0 0 = Ok g' /\
    st g' (fupd V VMCS_ENTER_CONTROL_VECTOR
             (updated (V VMCS_ENTER_CONTROL_VECTOR) (final32 (S ctl_vm_entry_ctrls)) 0xFFFFFDFF)) S.
Proof.
  intros Hst. unfold request_vmexit_on_vm_enter_ctrls, calculate_enter_ctrls, calculate32.
  destruct (st_recalculate g V S ctl_vm_entry_ctrls Hst) as [-> Hst']. rewrite !bind_Ok. cbn [fst snd].
  rewrite (proj2 Hst'). unfold gcpu_set_enter_ctrls_for_addons.
  change (u32 (Z.lnot (BIT_SET 0 EntryCtl.Ia32eModeGuest))) with 0xFFFFFDFF.
  destruct (update_vmcs_ok t _ V VMCS_ENTER_CONTROL_VECTOR (final32 (S ctl_vm_entry_ctrls)) 0xFFFFFDFF (proj1 Hst')
    ltac:(eauto with vmcs) ltac:(apply fits_32_64) ltac:(done)) as (o & E & Ho).
  unfold final32 in E. rewrite E, bind_Ok. eexists. split; [done|]. by apply (st_frame _ _ V _ S Hst').
Qed.

(** The match that makes page faults exit, or not, whatever bit 14 of the bitmap is. *)
Definition pf_match (c : GCPU_VMEXIT_CONTROL_FIELD_COUNTERS) : Z :=
  match pf_policy (u32 (bit_field c)) with
  | EXCEPTIONS_POLICY_CATCH_NOTHING => if Z.testbit (final32 c) EXCEPTION_PF then UINT32_ALL_ONES else 0
  | EXCEPTIONS_POLICY_CATCH_ALL => if Z.testbit (final32 c) EXCEPTION_PF then 0 else UINT32_ALL_ONES
  end.
Lemma pf_match_fits c : fits 64 (pf_match c).
Proof. unfold pf_match. by repeat case_match. Qed.
#[local] Hint Resolve pf_match_fits : vmcs.
#[local] Hint Extern 1 (fits 64 0) => done : vmcs.

Lemma apply_exceptions g V S : st g V S ->
  exists g', request_vmexit_on_exceptions t g 0 0 = Ok g' /\
    st g' (fupd (fupd (fupd V VMCS_EXCEPTION_BITMAP (final32 (S ctl_exceptions_ctrls)))
                   VMCS_PAGE_FAULT_ERROR_CODE_MASK 0) VMCS_PAGE_FAULT_ERROR_CODE_MATCH (pf_match (S ctl_exceptions_ctrls))) S.
Proof.
  intros Hst. unfold request_vmexit_on_exceptions, calculate_exceptions_map.
  destruct (st_recalculate g V S ctl_exceptions_ctrls Hst) as [-> Hst']. rewrite !bind_Ok. cbn [fst snd].
  rewrite (proj2 Hst'). fold (final32 (S ctl_exceptions_ctrls)).
  destruct (write_changed_ok _ V S VMCS_LEVEL_0 VMCS_EXCEPTION_BITMAP (final32 (S ctl_exceptions_ctrls)) ltac:(done) Hst'
    ltac:(eauto with vmcs) ltac:(apply fits_32_64)) as (g1 & E & Hst1).
  unfold gcpu_set_exceptions_map_layered. rewrite E, bind_Ok. clear E.
  unfold update_pfs_setup, gcpu_get_exceptions_map_layered, gcpu_set_pf_error_code_mask_and_match_layered.
  pose proof (proj1 Hst1) as Hh1. vread g2 H2 F2. rewrite fupd_eq.
  assert (E : u32 (final32 (S ctl_exceptions_ctrls)) = final32 (S ctl_exceptions_ctrls)) by apply wrap_wrap. rewrite E.
  vwrite g3 H3 F3. fold (pf_match (S ctl_exceptions_ctrls)). vwrite g4 H4 F4.
  exists g4. split; [done|]. apply (st_frame g1 g4 _ _ S Hst1); [|done].
  by apply (frame_trans g1 g2), (frame_trans g2 g3).
Qed.

(** The shadow of the bits in [mask] that are not in [one] follows the register. *)
Lemma shadow_ok g V S mask one guest shadow : st g V S ->
  among control_vmcs_fields guest = true -> among control_vmcs_fields shadow = true -> fits 64 mask ->
  exists g', update_shadow t g mask one guest shadow = Ok g' /\
    st g' (fupd V shadow (updated (V shadow) (V guest) (Z.land mask (u64 (Z.lnot one))))) S.
Proof.
  intros Hst Hg Hs Hm. unfold update_shadow. pose proof (proj1 Hst) as Hh.
  pose proof (control_writes guest Hg) as Wg. pose proof (control_writes shadow Hs) as Ws.
  vread g1 H1 F1. vread g2 H2 F2.
  destruct (write_vmcs_ok t g2 V VMCS_MERGED shadow (updated (V shadow) (V guest) (Z.land mask (u64 (Z.lnot one))))
    ltac:(done) H2 Ws) as (g3 & E & H3 & F3).
  { apply updated_fits; [by apply (holds_fits g2 V); [|apply Ws]| |by apply (holds_fits g2 V); [|apply Wg]].
    apply fits_land; [lia|done|]. pose proof (u64_range (Z.lnot one)). lia. }
  exists g3. split; [exact E|]. apply (st_frame g g3 V _ S Hst); [|done].
  by apply (frame_trans g g1), (frame_trans g1 g2).
Qed.

Definition cr_applied (V : Z -> Z) (c : GCPU_VMEXIT_CONTROL_FIELD_COUNTERS) (mask_field guest shadow : Z) : Z -> Z :=
  fupd (fupd V mask_field (final64 c)) shadow
    (updated (V shadow) (V guest) (Z.land (final64 c) (u64 (Z.lnot (minimal_1_settings c))))).

Lemma apply_cr0 g V S : st g V S -> settings_ok (S ctl_cr0) ->
  exists g', request_vmexit_on_cr0 t g 0 0 = Ok g' /\
    st g' (cr_applied V (S ctl_cr0) VMCS_CR0_MASK VMCS_GUEST_CR0 VMCS_CR0_READ_SHADOW) S.
Proof.
  intros Hst Hs. unfold request_vmexit_on_cr0, calculate_cr0_reg_mask.
  destruct (st_recalculate g V S ctl_cr0 Hst) as [-> Hst']. rewrite !bind_Ok. cbn [fst snd].
  rewrite (proj2 Hst'). fold (final64 (S ctl_cr0)).
  destruct (write_changed_ok _ V S VMCS_LEVEL_0 VMCS_CR0_MASK (final64 (S ctl_cr0)) ltac:(done) Hst'
    ltac:(eauto with vmcs) ltac:(by apply final64_fits)) as (g1 & E & Hst1).
  unfold gcpu_set_cr0_reg_mask_layered. rewrite E, bind_Ok, (proj2 Hst1).
  destruct (shadow_ok g1 _ S (final64 (S ctl_cr0)) (minimal_1_settings (S ctl_cr0)) VMCS_GUEST_CR0 VMCS_CR0_READ_SHADOW Hst1
    eq_refl eq_refl ltac:(by apply final64_fits)) as (g2 & -> & Hst2). exists g2. split; [done|].
  unfold cr_applied. revert Hst2. by fread.
Qed.

Lemma apply_cr4 g V S : st g V S -> settings_ok (S ctl_cr4) ->
  exists g', request_vmexit_on_cr4 t g 0 0 = Ok g' /\
    st g' (cr_applied V (S ctl_cr4) VMCS_CR4_MASK VMCS_GUEST_CR4 VMCS_CR4_READ_SHADOW) S.
Proof.
  intros Hst Hs. unfold request_vmexit_on_cr4, calculate_cr4_reg_mask.
  destruct (st_recalculate g V S ctl_cr4 Hst) as [-> Hst']. rewrite !bind_Ok. cbn [fst snd].
  rewrite (proj2 Hst'). fold (final64 (S ctl_cr4)).
  destruct (write_changed_ok _ V S VMCS_LEVEL_0 VMCS_CR4_MASK (final64 (S ctl_cr4)) ltac:(done) Hst'
    ltac:(eauto with vmcs) ltac:(by apply final64_fits)) as (g1 & E & Hst1).
  unfold gcpu_set_cr4_reg_mask_layered. rewrite E, bind_Ok, (proj2 Hst1).
  destruct (shadow_ok g1 _ S (final64 (S ctl_cr4)) (minimal_1_settings (S ctl_cr4)) VMCS_GUEST_CR4 VMCS_CR4_READ_SHADOW Hst1
    eq_refl eq_refl ltac:(by apply final64_fits)) as (g2 & -> & Hst2). exists g2. split; [done|].
  unfold cr_applied. revert Hst2. by fread.
Qed.

(** ** All fields *)

Definition applied (V : Z -> Z) (S : GCPU_VMEXIT_CONTROLS) : Z -> Z :=
  let V := fupd V VMCS_CONTROL_VECTOR_PIN_EVENTS (final32 (S ctl_pin_ctrls)) in
  let V := fupd V VMCS_CONTROL_VECTOR_PROCESSOR_EVENTS
             (keep (V VMCS_CONTROL_VECTOR_PROCESSOR_EVENTS) (final32 (S ctl_processor_ctrls)) 0x8000000) in
  let V := if ctrls2_supported then fupd V VMCS_CONTROL2_VECTOR_PROCESSOR_EVENTS (final32 (S ctl_processor_ctrls2)) else V in
  let V := fupd V VMCS_EXCEPTION_BITMAP (final32 (S ctl_exceptions_ctrls)) in
  let V := fupd V VMCS_PAGE_FAULT_ERROR_CODE_MASK 0 in
  let V := fupd V VMCS_PAGE_FAULT_ERROR_CODE_MATCH (pf_match (S ctl_exceptions_ctrls)) in
  let V := fupd V VMCS_EXIT_CONTROL_VECTOR (final32 (S ctl_vm_exit_ctrls)) in
  let V := fupd V VMCS_ENTER_CONTROL_VECTOR (updated (V VMCS_ENTER_CONTROL_VECTOR) (final32 (S ctl_vm_entry_ctrls)) 0xFFFFFDFF) in
  let V := cr_applied V (S ctl_cr0) VMCS_CR0_MASK VMCS_GUEST_CR0 VMCS_CR0_READ_SHADOW in
  cr_applied V (S ctl_cr4) VMCS_CR4_MASK VMCS_GUEST_CR4 VMCS_CR4_READ_SHADOW.

Lemma apply_all_ok g V S : st g V S -> settings_ok (S ctl_cr0) -> settings_ok (S ctl_cr4) ->
  exists g', gcpu_apply_all t ctrls2_supported g = Ok g' /\ st g' (applied V S) S.
Proof.
  intros HI S0 S4. unfold gcpu_apply_all.
  destruct (apply_pin g V S HI) as (g1 & -> & H1). rewrite bind_Ok.
  destruct (apply_proc g1 _ S H1) as (g2 & -> & H2). rewrite bind_Ok.
  destruct (apply_proc2 g2 _ S H2) as (g3 & -> & H3). rewrite bind_Ok.
  destruct (apply_exceptions g3 _ S H3) as (g4 & -> & H4). rewrite bind_Ok.
  destruct (apply_exit g4 _ S H4) as (g5 & -> & H5). rewrite bind_Ok.
  destruct (apply_entry g5 _ S H5) as (g6 & -> & H6). rewrite bind_Ok.
  destruct (apply_cr0 g6 _ S H6 S0) as (g7 & -> & H7). rewrite bind_Ok.
  destruct (apply_cr4 g7 _ S H7 S4) as (g8 & -> & H8). exists g8. split; [done|exact H8].
Qed.

Definition written_fields : list Z :=
  [VMCS_CONTROL_VECTOR_PIN_EVENTS; VMCS_CONTROL_VECTOR_PROCESSOR_EVENTS; VMCS_CONTROL2_VECTOR_PROCESSOR_EVENTS;
   VMCS_EXCEPTION_BITMAP; VMCS_PAGE_FAULT_ERROR_CODE_MASK; VMCS_PAGE_FAULT_ERROR_CODE_MATCH; VMCS_EXIT_CONTROL_VECTOR;
   VMCS_ENTER_CONTROL_VECTOR; VMCS_CR0_MASK; VMCS_CR0_READ_SHADOW; VMCS_CR4_MASK; VMCS_CR4_READ_SHADOW].

Lemma applied_fields V S :
  applied V S VMCS_CONTROL_VECTOR_PIN_EVENTS = final32 (S ctl_pin_ctrls) /\
  applied V S VMCS_CONTROL_VECTOR_PROCESSOR_EVENTS =
    keep (V VMCS_CONTROL_VECTOR_PROCESSOR_EVENTS) (final32 (S ctl_processor_ctrls)) 0x8000000 /\
  (ctrls2_supported = true -> applied V S VMCS_CONTROL2_VECTOR_PROCESSOR_EVENTS = final32 (S ctl_processor_ctrls2)) /\
  applied V S VMCS_EXCEPTION_BITMAP = final32 (S ctl_exceptions_ctrls) /\
  applied V S VMCS_PAGE_FAULT_ERROR_CODE_MASK = 0 /\
  applied V S VMCS_PAGE_FAULT_ERROR_CODE_MATCH = pf_match (S ctl_exceptions_ctrls) /\
  applied V S VMCS_EXIT_CONTROL_VECTOR = final32 (S ctl_vm_exit_ctrls) /\
  applied V S VMCS_ENTER_CONTROL_VECTOR = updated (V VMCS_ENTER_CONTROL_VECTOR) (final32 (S ctl_vm_entry_ctrls)) 0xFFFFFDFF /\
  applied V S VMCS_CR0_MASK = final64 (S ctl_cr0) /\
  applied V S VMCS_CR4_MASK = final64 (S ctl_cr4).
Proof. unfold applied, cr_applied. destruct ctrls2_supported; fread; split_and!; done. Qed.

Lemma applied_shadows V S :
  applied V S VMCS_CR0_READ_SHADOW = updated (V VMCS_CR0_READ_SHADOW) (V VMCS_GUEST_CR0)
    (Z.land (final64 (S ctl_cr0)) (u64 (Z.lnot (minimal_1_settings (S ctl_cr0))))) /\
  applied V S VMCS_CR4_READ_SHADOW = updated (V VMCS_CR4_READ_SHADOW) (V VMCS_GUEST_CR4)
    (Z.land (final64 (S ctl_cr4)) (u64 (Z.lnot (minimal_1_settings (S ctl_cr4))))).
Proof. unfold applied, cr_applied. destruct ctrls2_supported; fread; split_and!; done. Qed.

Lemma applied_other V S f : among written_fields f = false -> applied V S f = V f.
Proof.
  unfold among, written_fields. cbn [existsb]. rewrite !orb_false_iff. intros Hf. destruct_and! Hf.
  unfold applied, cr_applied. destruct ctrls2_supported; by repeat rewrite fupd_neb by done.
Qed.

(** ** Counting *)

Definition counted (S : GCPU_VMEXIT_CONTROLS) (n : requests) : Prop := forall f, tracks (S f) (n f) /\ settings_ok (S f).

Definition ask (r : VMEXIT_CONTROL) (n : requests) : requests :=
  fun f => bump (bit_request (r f)) (bit_mask (r f)) (n f).
Definition may_ask (r : VMEXIT_CONTROL) (n : requests) : Prop :=
  forall f, fits 64 (bit_mask (r f)) /\ balanced (bit_request (r f)) (bit_mask (r f)) (n f).

(** The minimal settings are the same. *)
Definition same_minimal (S S' : GCPU_VMEXIT_CONTROLS) : Prop :=
  forall f, minimal_1_settings (S' f) = minimal_1_settings (S f) /\ minimal_0_settings (S' f) = minimal_0_settings (S f).

Definition counts_in g (V : Z -> Z) (n : requests) (S : GCPU_VMEXIT_CONTROLS) : Prop :=
  holds g V /\ counted (vmexit_setup g) n /\ same_minimal S (vmexit_setup g).

Lemma setup_field_ok g V n S r f : counts_in g V n S ->
  fits 64 (bit_mask (r f)) /\ balanced (bit_request (r f)) (bit_mask (r f)) (n f) ->
  exists g', setup_field r f g = Ok g' /\
    counts_in g' V (fun f' => if decide (f' = f) then ask r n f' else n f') S.
Proof.
  intros (HV & HC & HM) [Hm Hb]. destruct (HC f) as [T (Hs1 & Hs2 & Hs3)]. unfold setup_field.
  destruct (Z.eqb_spec (bit_mask (r f)) 0) as [E|_]; cbn [negb].
  - exists g. split; [done|]. split; [done|]. split; [|done]. intros f'. case_decide as Hf; [|apply HC]. subst f'.
    split; [|by split]. apply (tracks_ext _ (n f)); [|done]. intros i Hi. unfold ask, bump. by rewrite E, Z.bits_0.
  - unfold update_counters, gcpu_update_control_counters.
    destruct (update_loop_spec 64 (bit_request (r f)) (bit_mask (r f)) (vmexit_setup g f) (n f) Hm ltac:(intros; lia) T Hb)
      as (c' & -> & T' & M1 & M0). rewrite !bind_Ok. eexists. split; [done|]. split; [done|].
    cbn [vmexit_setup set_controls fst snd]. split.
    + intros f'. case_decide; [subst f'|apply HC]. split; [done|]. split; [apply T'|]. by rewrite M1, M0.
    + intros f'. case_decide; [subst f'|apply HM]. rewrite M1, M0. apply HM.
Qed.

Lemma counts_in_ext g V n n' S : (forall f, n f = n' f) -> counts_in g V n S -> counts_in g V n' S.
Proof. intros E (A & B & C). split; [done|]. split; [|done]. intros f. rewrite <- E. apply B. Qed.

(** The fields in the order of the source; each is handled once. *)
Lemma setup_only_ok g V n S r : counts_in g V n S -> may_ask r n ->
  exists g', gcpu_control_setup_only g r = Ok g' /\ counts_in g' V (ask r n) S.
Proof.
  intros HI HR. unfold gcpu_control_setup_only.
  destruct (setup_field_ok g V _ S r ctl_cr0 HI (HR _)) as (g1 & -> & H1). rewrite bind_Ok.
  destruct (setup_field_ok g1 V _ S r ctl_cr4 H1 (HR _)) as (g2 & -> & H2). rewrite bind_Ok.
  destruct (setup_field_ok g2 V _ S r ctl_exceptions_ctrls H2 (HR _)) as (g3 & -> & H3). rewrite bind_Ok.
  destruct (setup_field_ok g3 V _ S r ctl_pin_ctrls H3 (HR _)) as (g4 & -> & H4). rewrite bind_Ok.
  destruct (setup_field_ok g4 V _ S r ctl_processor_ctrls H4 (HR _)) as (g5 & -> & H5). rewrite bind_Ok.
  destruct (setup_field_ok g5 V _ S r ctl_processor_ctrls2 H5 (HR _)) as (g6 & -> & H6). rewrite bind_Ok.
  destruct (setup_field_ok g6 V _ S r ctl_vm_entry_ctrls H6 (HR _)) as (g7 & -> & H7). rewrite bind_Ok.
  destruct (setup_field_ok g7 V _ S r ctl_vm_exit_ctrls H7 (HR _)) as (g8 & -> & H8). exists g8. split; [done|].
  revert H8. apply counts_in_ext. by intros [].
Qed.

Lemma control_setup_ok g V n S r : counts_in g V n S -> may_ask r n ->
  exists g' S', gcpu_control_setup t ctrls2_supported g r = Ok g' /\ counts_in g' (applied V S') (ask r n) S /\
    (forall f, vmexit_setup g' f = S' f).
Proof.
  intros HI HR. unfold gcpu_control_setup, gcpu_control_apply_only.
  destruct (setup_only_ok g V n S r HI HR) as (g1 & -> & H1). rewrite bind_Ok. destruct H1 as (A & B & C).
  destruct (apply_all_ok g1 V (vmexit_setup g1) ltac:(by split) (proj2 (B _)) (proj2 (B _))) as (g2 & -> & H2 & HS).
  exists g2, (vmexit_setup g1). split; [done|]. split; [|done]. split; [done|]. split.
  - intros f. rewrite HS. apply B.
  - intros f. rewrite HS. apply C.
Qed.

(** ** The specification *)

Definition field_of (f : control_field) : Z :=
  match f with
  | ctl_cr0 => VMCS_CR0_MASK
  | ctl_cr4 => VMCS_CR4_MASK
  | ctl_pin_ctrls => VMCS_CONTROL_VECTOR_PIN_EVENTS
  | ctl_processor_ctrls => VMCS_CONTROL_VECTOR_PROCESSOR_EVENTS
  | ctl_processor_ctrls2 => VMCS_CONTROL2_VECTOR_PROCESSOR_EVENTS
  | ctl_exceptions_ctrls => VMCS_EXCEPTION_BITMAP
  | ctl_vm_entry_ctrls => VMCS_ENTER_CONTROL_VECTOR
  | ctl_vm_exit_ctrls => VMCS_EXIT_CONTROL_VECTOR
  end.
Definition width (f : control_field) : Z := match f with ctl_cr0 | ctl_cr4 => 64 | _ => 32 end.
Definition exists_on (f : control_field) : bool := match f with ctl_processor_ctrls2 => ctrls2_supported | _ => true end.
(** The bits other components own: the monitor trap flag and IA-32e mode guest. *)
Definition kept (f : control_field) (i : Z) : bool :=
  match f with
  | ctl_processor_ctrls => i =? Proc.MonitorTrapFlag
  | ctl_vm_entry_ctrls => i =? EntryCtl.Ia32eModeGuest
  | _ => false
  end.

(** A bit is set when a request is outstanding or it is always needed, and the processor has it. *)
Definition wanted (S : GCPU_VMEXIT_CONTROLS) (n : requests) (f : control_field) (i : Z) : bool :=
  ((0 <? n f i) || Z.testbit (minimal_1_settings (S f)) i) && Z.testbit (minimal_0_settings (S f)) i.

(** The rule of the processor for a page fault with error code [pfec]. *)
Definition page_fault_exits (bitmap mask match_ pfec : Z) : bool :=
  if Z.land pfec mask =? match_ then Z.testbit bitmap EXCEPTION_PF else negb (Z.testbit bitmap EXCEPTION_PF).

(** What the requests [n] make of a VMCS. *)
Record shows (S : GCPU_VMEXIT_CONTROLS) (n : requests) (V : Z -> Z) : Prop := {
  sh_bits : forall f i, exists_on f = true -> 0 <= i < width f -> kept f i = false ->
    Z.testbit (V (field_of f)) i = wanted S n f i;
  sh_high : forall f i, exists_on f = true -> f <> ctl_vm_entry_ctrls -> width f <= i -> Z.testbit (V (field_of f)) i = false;
  sh_page_faults : forall pfec,
    page_fault_exits (V VMCS_EXCEPTION_BITMAP) (V VMCS_PAGE_FAULT_ERROR_CODE_MASK) (V VMCS_PAGE_FAULT_ERROR_CODE_MATCH) pfec =
    (0 <? n ctl_exceptions_ctrls EXCEPTION_PF);
  sh_cr0 : forall i, 0 <= i < 64 -> wanted S n ctl_cr0 i = true -> Z.testbit (minimal_1_settings (S ctl_cr0)) i = false ->
    Z.testbit (V VMCS_CR0_READ_SHADOW) i = Z.testbit (V VMCS_GUEST_CR0) i;
  sh_cr4 : forall i, 0 <= i < 64 -> wanted S n ctl_cr4 i = true -> Z.testbit (minimal_1_settings (S ctl_cr4)) i = false ->
    Z.testbit (V VMCS_CR4_READ_SHADOW) i = Z.testbit (V VMCS_GUEST_CR4) i
}.

(** What no request changes. *)
Record untouched (S : GCPU_VMEXIT_CONTROLS) (V V' : Z -> Z) : Prop := {
  un_other : forall f, 0 <= f < VMCS_FIELD_COUNT -> among written_fields f = false -> V' f = V f;
  un_kept : forall f i, 0 <= i < 32 -> kept f i = true -> Z.testbit (V' (field_of f)) i = Z.testbit (V (field_of f)) i;
  un_entry : forall i, 32 <= i -> Z.testbit (V' VMCS_ENTER_CONTROL_VECTOR) i = Z.testbit (V VMCS_ENTER_CONTROL_VECTOR) i;
  un_cr0 : forall i, 0 <= i < 64 -> Z.testbit (minimal_1_settings (S ctl_cr0)) i = true ->
    Z.testbit (V' VMCS_CR0_READ_SHADOW) i = Z.testbit (V VMCS_CR0_READ_SHADOW) i;
  un_cr4 : forall i, 0 <= i < 64 -> Z.testbit (minimal_1_settings (S ctl_cr4)) i = true ->
    Z.testbit (V' VMCS_CR4_READ_SHADOW) i = Z.testbit (V VMCS_CR4_READ_SHADOW) i
}.

Lemma untouched_refl S V : untouched S V V.
Proof. by split. Qed.
Lemma untouched_trans S V1 V2 V3 : untouched S V1 V2 -> untouched S V2 V3 -> untouched S V1 V3.
Proof.
  intros [A1 A2 A5 A3 A4] [B1 B2 B5 B3 B4]. split; intros.
  - rewrite B1 by done. by apply A1.
  - rewrite B2 by done. by apply A2.
  - rewrite B5 by done. by apply A5.
  - rewrite B3 by done. by apply A3.
  - rewrite B4 by done. by apply A4.
Qed.

Lemma final32_bits S n f i : counted S n -> 0 <= i < 32 -> Z.testbit (final32 (S f)) i = wanted S n f i.
Proof.
  intros HC Hi. unfold final32, GET_FINAL_SETTINGS, wanted. rewrite u32_bits, Z.land_spec, Z.lor_spec, u32_bits by lia.
  rewrite (proj2 (Z.ltb_lt i 32)) by lia. cbn [andb]. by rewrite (tr_field _ _ (proj1 (HC f))) by lia.
Qed.
Lemma final32_high c i : 32 <= i -> Z.testbit (final32 c) i = false.
Proof. intros Hi. unfold final32. rewrite u32_bits by lia. by rewrite (proj2 (Z.ltb_ge i 32)). Qed.
Lemma final64_bits S n f i : counted S n -> 0 <= i < 64 -> Z.testbit (final64 (S f)) i = wanted S n f i.
Proof.
  intros HC Hi. unfold final64, GET_FINAL_SETTINGS, wanted. rewrite Z.land_spec, Z.lor_spec.
  by rewrite (tr_field _ _ (proj1 (HC f))) by lia.
Qed.

Lemma bit_of_mtf i : 0 <= i -> Z.testbit 0x8000000 i = (i =? Proc.MonitorTrapFlag).
Proof. intros Hi. change 0x8000000 with (2 ^ 27). destruct (Z.eqb_spec i Proc.MonitorTrapFlag) as [->|]; [done|]. by apply Z.pow2_bits_false. Qed.
Lemma bits_of_entry i : 0 <= i < 32 -> Z.testbit 0xFFFFFDFF i = negb (i =? EntryCtl.Ia32eModeGuest).
Proof.
  intros Hi. change 0xFFFFFDFF with (BIT_CLR (Z.ones 32) 9). rewrite bit_clr_spec by lia.
  rewrite Z.ones_spec_low by lia. done.
Qed.

Lemma shadow_bits sh cr c i : fits 64 sh -> fits 64 (final64 c) -> 0 <= i < 64 ->
  Z.testbit (updated sh cr (Z.land (final64 c) (u64 (Z.lnot (minimal_1_settings c))))) i =
  if Z.testbit (final64 c) i && negb (Z.testbit (minimal_1_settings c) i) then Z.testbit cr i else Z.testbit sh i.
Proof.
  intros Hs Hf Hi. rewrite updated_bits by (done || lia). rewrite Z.land_spec, u64_bits, Z.lnot_spec by lia.
  by rewrite (proj2 (Z.ltb_lt i 64)) by lia.
Qed.

Lemma applied_shows V S n : counted S n -> (forall f, 0 <= f < VMCS_FIELD_COUNT -> fits 64 (V f)) -> shows S n (applied V S).
Proof.
  intros HC HV. destruct (applied_fields V S) as (A1 & A2 & A3 & A4 & A5 & A6 & A7 & A8 & A9 & A10).
  destruct (applied_shadows V S) as [B1 B2]. split.
  - intros f i Hx Hi Hk. destruct f; cbn [field_of width] in *.
    + rewrite A9. by apply final64_bits.
    + rewrite A10. by apply final64_bits.
    + rewrite A1. by apply final32_bits.
    + rewrite A2. unfold keep. rewrite updated_bits by (apply fits_32_64 || lia). rewrite bit_of_mtf by lia.
      cbn [kept] in Hk. rewrite Hk. by apply final32_bits.
    + rewrite A3 by done. by apply final32_bits.
    + rewrite A4. by apply final32_bits.
    + rewrite A8. rewrite updated_bits by ((apply HV; done) || lia). rewrite bits_of_entry by lia.
      cbn [kept] in Hk. rewrite Hk. by apply final32_bits.
    + rewrite A7. by apply final32_bits.
  - intros f i Hx Hf Hi. destruct f; cbn [field_of width] in *; try done.
    + rewrite A9. apply (bits_above _ 64); [apply final64_fits, HC|lia].
    + rewrite A10. apply (bits_above _ 64); [apply final64_fits, HC|lia].
    + rewrite A1. by apply final32_high.
    + rewrite A2. unfold keep. rewrite updated_bits by (apply fits_32_64 || lia). rewrite bit_of_mtf by lia.
      rewrite (proj2 (Z.eqb_neq _ _)) by (unfold Proc.MonitorTrapFlag; lia). by apply final32_high.
    + rewrite A3 by done. by apply final32_high.
    + rewrite A4. by apply final32_high.
    + rewrite A7. by apply final32_high.
  - intros pfec. unfold page_fault_exits. rewrite A4, A5, A6, Z.land_0_r. unfold pf_match, pf_policy.
    rewrite u32_bits, (tr_field _ _ (proj1 (HC _))) by done. cbn [andb Z.ltb Z.compare].
    by destruct (0 <? n ctl_exceptions_ctrls EXCEPTION_PF), (Z.testbit (final32 (S ctl_exceptions_ctrls)) EXCEPTION_PF).
  - intros i Hi Hw Hm. rewrite B1, shadow_bits by (done || by apply HV || by apply final64_fits, HC).
    rewrite (final64_bits S n), Hw, Hm by done. by rewrite applied_other.
  - intros i Hi Hw Hm. rewrite B2, shadow_bits by (done || by apply HV || by apply final64_fits, HC).
    rewrite (final64_bits S n), Hw, Hm by done. by rewrite applied_other.
Qed.

Lemma applied_untouched V S : (forall f, settings_ok (S f)) -> (forall f, 0 <= f < VMCS_FIELD_COUNT -> fits 64 (V f)) ->
  untouched S V (applied V S).
Proof.
  intros HS HV. destruct (applied_fields V S) as (_ & A2 & _ & _ & _ & _ & _ & A8 & _).
  destruct (applied_shadows V S) as [B1 B2]. split.
  - intros f _ Hf. by apply applied_other.
  - intros f i Hi Hk. destruct f; try done; cbn [field_of kept] in *.
    + rewrite A2. unfold keep. rewrite updated_bits by (apply fits_32_64 || lia). by rewrite bit_of_mtf, Hk by lia.
    + rewrite A8, updated_bits by ((apply HV; done) || lia). by rewrite bits_of_entry, Hk by lia.
  - intros i Hi. rewrite A8, updated_bits by ((apply HV; done) || lia).
    by rewrite (bits_above 0xFFFFFDFF 32) by (done || lia).
  - intros i Hi Hm. rewrite B1, shadow_bits by (done || by apply HV || by apply final64_fits, HS).
    by rewrite Hm, andb_false_r.
  - intros i Hi Hm. rewrite B2, shadow_bits by (done || by apply HV || by apply final64_fits, HS).
    by rewrite Hm, andb_false_r.
Qed.

(** ** Sessions *)

Lemma wanted_minimal S S' n f i : same_minimal S S' -> wanted S' n f i = wanted S n f i.
Proof. intros HM. unfold wanted. destruct (HM f) as [-> ->]. done. Qed.
Lemma shows_minimal S S' n V : same_minimal S S' -> shows S' n V -> shows S n V.
Proof.
  intros HM [A E B C D]. split; [|done|done| |].
  - intros f i Hx Hi Hk. rewrite A by done. by apply wanted_minimal.
  - intros i Hi Hw Hm. apply C; [done|by rewrite (wanted_minimal S)|by rewrite (proj1 (HM _))].
  - intros i Hi Hw Hm. apply D; [done|by rewrite (wanted_minimal S)|by rewrite (proj1 (HM _))].
Qed.
Lemma untouched_minimal S S' V V' : same_minimal S S' -> untouched S' V V' -> untouched S V V'.
Proof.
  intros HM [A B E C D]. split; [done|done|done| |].
  - intros i Hi Hm. apply C; [done|by rewrite (proj1 (HM _))].
  - intros i Hi Hm. apply D; [done|by rewrite (proj1 (HM _))].
Qed.

(** Requests that are made and taken back one after the other. *)
Fixpoint control_run (rs : list VMEXIT_CONTROL) g : outcome (GUEST_CPU O) :=
  match rs with
  | [] => Ok g
  | r :: rs => g ← gcpu_control_setup t ctrls2_supported g r; control_run rs g
  end.
Fixpoint may_run (rs : list VMEXIT_CONTROL) (n : requests) : Prop :=
  match rs with
  | [] => True
  | r :: rs => may_ask r n /\ may_run rs (ask r n)
  end.
Definition asked (rs : list VMEXIT_CONTROL) (n : requests) : requests := foldl (fun n r => ask r n) n rs.

Lemma control_step g V n S r : counts_in g V n S -> may_ask r n ->
  exists g' V', gcpu_control_setup t ctrls2_supported g r = Ok g' /\ counts_in g' V' (ask r n) S /\
    shows S (ask r n) V' /\ untouched S V V'.
Proof.
  intros HI HR. destruct (control_setup_ok g V n S r HI HR) as (g' & S' & E & HI' & HS).
  exists g', (applied V S'). split; [done|]. split; [done|]. destruct HI' as (HV' & HC' & HM').
  assert (HC : counted S' (ask r n)) by (intros f; rewrite <- HS; apply HC').
  assert (HM : same_minimal S S') by (intros f; rewrite <- HS; apply HM').
  assert (HF : forall f, 0 <= f < VMCS_FIELD_COUNT -> fits 64 (V f)) by (intros f Hf; by apply (holds_fits g V f (proj1 HI))).
  split.
  - apply (shows_minimal S S'); [done|]. by apply applied_shows.
  - apply (untouched_minimal S S'); [done|]. apply applied_untouched; [|done]. intros f. apply HC.
Qed.

Lemma control_session rs : forall r g V n S, counts_in g V n S -> may_run (r :: rs) n ->
  exists g' V', control_run (r :: rs) g = Ok g' /\ counts_in g' V' (asked (r :: rs) n) S /\
    shows S (asked (r :: rs) n) V' /\ untouched S V V'.
Proof.
  induction rs as [|r' rs IH]; intros r g V n S HI [HR HRs].
  - destruct (control_step g V n S r HI HR) as (g' & V' & E & A & B & C). exists g', V'. cbn [control_run].
    by rewrite E, bind_Ok.
  - destruct (control_step g V n S r HI HR) as (g1 & V1 & E & A & _ & C1).
    destruct (IH r' g1 V1 (ask r n) S A HRs) as (g' & V' & E' & A' & B' & C').
    exists g', V'. split; [change (control_run (r :: r' :: rs) g) with (g ← gcpu_control_setup t ctrls2_supported g r; control_run (r' :: rs) g); by rewrite E, bind_Ok|].
    split; [exact A'|]. split; [exact B'|]. by apply (untouched_trans S V V1 V').
Qed.
End Fields.

(** C4. Requests for VM exits are reference counted: after any sequence of requests in which no request is
    taken back twice and no bit has more than 255 (the counters are bytes: control_counter_overflow,
    control_release_hides_request), every bit of every control field of the VMCS is set exactly when a request for
    it is outstanding or the hypervisor always needs it, and the processor has it, except for the two bits
    that other components own, on which requests are ignored and the value stays as it was: bit 27 of the
    processor controls (monitor trap flag) and bit 9 of the entry controls (IA-32e mode guest); the
    secondary processor controls are written only where the processor has them. A page fault exits exactly when a
    request for exception 14 is outstanding; the guest sees the real value of the CR0 and CR4 bits that are
    intercepted only on request; and nothing else in the VMCS changes. *)
Theorem control_session_refines {O : Type} `{VmcsLaws O} (t : list VMCS_ENCODING) (ctrls2_supported : bool)
  (r : VMEXIT_CONTROL) (rs : list VMEXIT_CONTROL) (g : GUEST_CPU O) (V : Z -> Z) (n : requests) :
  Forall (writes t) control_vmcs_fields ->
  (ctrls2_supported = true -> writes t VMCS_CONTROL2_VECTOR_PROCESSOR_EVENTS) ->
  holds g V -> counted (vmexit_setup g) n -> may_run (r :: rs) n ->
  exists g' V', control_run t ctrls2_supported (r :: rs) g = Ok g' /\ holds g' V' /\
    counted (vmexit_setup g') (asked (r :: rs) n) /\
    shows ctrls2_supported (vmexit_setup g) (asked (r :: rs) n) V' /\ untouched (vmexit_setup g) V V'.
Proof.
  intros Hf H2 HV HC HR.
  destruct (control_session t ctrls2_supported Hf H2 rs r g V n (vmexit_setup g) ltac:(by split_and!) HR)
    as (g' & V' & E & (A & B & _) & C & D). by exists g', V'.
Qed.

Module ControlExample.
Import GuestExample.
(** A guest CPU that never exits by itself, on a processor with every control. *)
Definition open_counters : GCPU_VMEXIT_CONTROL_FIELD_COUNTERS := mk_counters (replicate 64 0) 0 0 UINT64_ALL_ONES.
Definition free : GUEST_CPU VMCS_SOFTWARE_OBJECT :=
  mk_gcpu (vmcs guest) (gp guest) (xmm guest) (debug guest) 0 0 0 GUEST_LEVEL_1_SIMPLE GUEST_LEVEL_1_SIMPLE (fun _ => open_counters).
(** Page faults and HLT are requested, and the request for HLT is taken back. *)
Definition pf_request : VMEXIT_CONTROL := only ctl_exceptions_ctrls (BIT_SET 0 EXCEPTION_PF) (BIT_SET 0 EXCEPTION_PF).
Definition hlt_request (v : Z) : VMEXIT_CONTROL := only ctl_processor_ctrls v 0x80.
Definition example_run : list VMEXIT_CONTROL := [hlt_request UINT64_ALL_ONES; pf_request; hlt_request 0].

Lemma open_tracks : tracks open_counters (fun _ => 0).
Proof.
  split; [done| |done| |done]; intros i Hi; cbn [counters bit_field open_counters].
  - apply lookup_replicate_2. lia.
  - by rewrite Z.bits_0.
Qed.
Lemma free_counted : counted (vmexit_setup free) (fun _ _ => 0).
Proof. intros f. split; [apply open_tracks|]. by split_and!. Qed.

Lemma balanced_decide flags mask n :
  forallb (fun i => negb (Z.testbit mask i) || (if Z.testbit flags i then n i <? 255 else 0 <? n i)) (seqZ 0 64) = true ->
  balanced flags mask n.
Proof.
  intros E i Hi Hb. rewrite forallb_forall in E. specialize (E i). rewrite Hb in E. cbn [negb orb] in E.
  destruct (Z.testbit flags i); apply Z.ltb_lt, E, list_elem_of_In, elem_of_seqZ; lia.
Qed.
Lemma example_may_run : may_run example_run (fun _ _ => 0).
Proof. repeat split; try (destruct f; done); destruct f; apply balanced_decide; vm_compute; reflexivity. Qed.
End ControlExample.

Lemma control_session_refines_witness : exists g' V',
  control_run g_field_data_init false ControlExample.example_run ControlExample.free = Ok g' /\ holds g' V' /\
  Z.testbit (V' VMCS_EXCEPTION_BITMAP) 14 = true /\ Z.testbit (V' VMCS_CONTROL_VECTOR_PROCESSOR_EVENTS) 7 = false.
Proof.
  destruct (control_session_refines g_field_data_init false (ControlExample.hlt_request UINT64_ALL_ONES)
    [ControlExample.pf_request; ControlExample.hlt_request 0] ControlExample.free (view (vmcs ControlExample.free)) (fun _ _ => 0)
    (GuestExample.all_table_writes g_field_data_init control_vmcs_fields eq_refl) ltac:(done) GuestExample.guest_holds ControlExample.free_counted
    ControlExample.example_may_run) as (g' & V' & E & A & _ & B & _).
  exists g', V'. split; [exact E|]. split; [exact A|]. split.
  - pose proof (sh_bits _ _ _ _ B ctl_exceptions_ctrls 14) as X. cbn [field_of width] in X. clear E.
    rewrite X; [vm_compute; reflexivity|reflexivity|lia|reflexivity].
  - pose proof (sh_bits _ _ _ _ B ctl_processor_ctrls 7) as X. cbn [field_of width] in X. clear E.
    rewrite X; [vm_compute; reflexivity|reflexivity|lia|reflexivity].
Defined.

(** * Requests out of balance *)

Definition request_bit0 (o : outcome GCPU_VMEXIT_CONTROL_FIELD_COUNTERS) : outcome GCPU_VMEXIT_CONTROL_FIELD_COUNTERS :=
  c ← o; r ← gcpu_update_control_counters 1 1 c; Ok r.2.
Definition release_bit0 (o : outcome GCPU_VMEXIT_CONTROL_FIELD_COUNTERS) : outcome GCPU_VMEXIT_CONTROL_FIELD_COUNTERS :=
  c ← o; r ← gcpu_update_control_counters 0 1 c; Ok r.2.

(** The counter is a byte: after 257 requests and one release the exit is off, with 256 requests outstanding. *)
Lemma control_counter_overflow :
  (c ← release_bit0 (Nat.iter 257 request_bit0 (Ok GuestExample.zero_counters)); Ok (bit_field c)) = Ok 0.
Proof. vm_compute. reflexivity. Qed.

(** A release without a request hides the next request. *)
Lemma control_release_hides_request :
  (c ← request_bit0 (release_bit0 (Ok GuestExample.zero_counters)); Ok (bit_field c)) = Ok 0.
Proof. vm_compute. reflexivity. Qed.
