(* ===== verification/GuestControlAccept.v ===== *)
(** guest_cpu_control.c and vmcs_init.c together: whatever is requested, the processor accepts the control
    fields of the VMCS. *)

From S2P Require Import Prelude VmmDefs VmcsFields Vmcs VmcsSw VmcsMsrList VmcsHw GuestCpu GuestCpuSpec GuestControl GuestControlSpec.

(** * Minimal settings *)

(** [x] has every bit of [lo]. *)
Definition covers (lo x : Z) : Prop := forall i, 0 <= i -> Z.testbit lo i = true -> Z.testbit x i = true.

Lemma covers_set lo b x : 0 <= b -> covers lo x -> covers lo (set_bit b x).
Proof. intros Hb Hc i Hi Hl. unfold set_bit. rewrite bit_set_spec by done. by rewrite Hc. Qed.
Lemma covers_if lo c b x : 0 <= b -> covers lo x -> covers lo (set_if c b x).
Proof. intros Hb Hc. unfold set_if. destruct c; [by apply (covers_set lo b x)|done]. Qed.
Lemma covers_optional lo fixed bits : forall x, Forall (Z.le 0) bits -> covers lo x -> covers lo (set_optional fixed bits x).
Proof.
  induction bits as [|b bits IH]; intros x Hb Hc; [done|]. apply Forall_cons in Hb as [Hb Hbs]. apply IH; [done|].
  by apply covers_if.
Qed.
Lemma covers_all lo bits x : Forall (Z.le 0) bits -> covers lo x -> covers lo (foldr set_bit x bits).
Proof.
  induction bits as [|b bits IH]; intros Hb Hc; [done|]. apply Forall_cons in Hb as [Hb Hbs].
  apply (covers_set lo b); [done|]. by apply IH.
Qed.

Lemma fits_optional fixed bits : forall x, Forall (fun b => 0 <= b < 64) bits -> fits 64 x -> fits 64 (set_optional fixed bits x).
Proof.
  induction bits as [|b bits IH]; intros x Hb Hx; [done|]. apply Forall_cons in Hb as [Hb Hbs]. apply IH; [done|].
  unfold set_if. case_match; [by apply fits_bit_set|done].
Qed.
Lemma fits_all bits x : Forall (fun b => 0 <= b < 64) bits -> fits 64 x -> fits 64 (foldr set_bit x bits).
Proof.
  induction bits as [|b bits IH]; intros Hb Hx; [done|]. apply Forall_cons in Hb as [Hb Hbs].
  apply fits_bit_set; [done|]. by apply IH.
Qed.

(** The value the processor's bounds [lo] and [hi] make of [v]. *)
Definition compliant (lo hi v : Z) : Z := Z.lor (Z.land v (Z.lor lo hi)) (Z.land lo hi).

Section Bounds.
Context (lo hi : Z) (Hc : consistent lo hi).

Lemma minimal_covers : covers lo (compliant lo hi 0).
Proof. intros i Hi Hl. unfold compliant. rewrite Z.lor_spec, !Z.land_spec, Z.lor_spec, Z.bits_0, Hl. by rewrite (Hc i Hi Hl). Qed.

Lemma fixed0_bits i : 0 <= i < 32 -> Z.testbit (compliant lo hi UINT32_ALL_ONES) i = Z.testbit hi i.
Proof.
  intros Hi. unfold compliant. change UINT32_ALL_ONES with (Z.ones 32).
  rewrite Z.lor_spec, !Z.land_spec, Z.lor_spec, Z.ones_spec_low by lia. pose proof (Hc i ltac:(lia)) as Hl.
  destruct (Z.testbit lo i), (Z.testbit hi i); try done. by specialize (Hl eq_refl).
Qed.

Lemma compliant_fits w v : 0 <= w -> fits w lo -> fits w hi -> fits w v -> fits w (compliant lo hi v).
Proof.
  intros Hw Hl Hh Hv. assert (0 <= Z.lor lo hi) by (apply Z.lor_nonneg; unfold fits in *; lia).
  apply fits_lor; [done|by apply fits_land|]. apply fits_land; [done|done|unfold fits in *; lia].
Qed.
End Bounds.

(** * Acceptance *)

(** A bit of a field respects the bounds. *)
Definition allowed_at (lo hi v i : Z) : Prop :=
  (Z.testbit lo i = true -> Z.testbit v i = true) /\ (Z.testbit v i = true -> Z.testbit hi i = true).

Lemma wanted_allowed S n f lo hi v i :
  covers lo (minimal_1_settings (S f)) -> consistent lo hi -> Z.testbit (minimal_0_settings (S f)) i = Z.testbit hi i ->
  0 <= i -> Z.testbit v i = wanted S n f i -> allowed_at lo hi v i.
Proof.
  intros H1 Hc H0 Hi E. unfold allowed_at, wanted in *. rewrite E, H0. split.
  - intros Hl. by rewrite (H1 i Hi Hl), (Hc i Hi Hl), orb_true_r.
  - intros Hb. by apply andb_true_iff in Hb as [_ Hb].
Qed.

(** A field of 32 bits that shows the requests is allowed. *)
Lemma field_allowed S n f lo hi v :
  consistent lo hi -> fits 32 lo -> covers lo (minimal_1_settings (S f)) ->
  (forall i, 0 <= i < 32 -> Z.testbit (minimal_0_settings (S f)) i = Z.testbit hi i) ->
  (forall i, 0 <= i < 32 -> kept f i = false -> Z.testbit v i = wanted S n f i) ->
  (forall i, 0 <= i < 32 -> kept f i = true -> allowed_at lo hi v i) ->
  (forall i, 32 <= i -> Z.testbit v i = false) -> allowed lo hi v.
Proof.
  intros Hc Hl H1 H0 Hw Hk Hh i Hi. fold (allowed_at lo hi v i). destruct (decide (i < 32)).
  - destruct (kept f i) eqn:E; [apply Hk; [lia|done]|]. apply (wanted_allowed S n f); [done..|apply H0; lia|lia|apply Hw; [lia|done]].
  - split.
    + intros Hb. by rewrite (bits_above lo 32) in Hb by (unfold fits in Hl; lia).
    + rewrite Hh by lia. done.
Qed.

(** What is known of the capabilities. *)
Record caps_ok (k : VMCS_HW_CONSTRAINTS) : Prop := {
  caps_pin : consistent (may0_pin_based_exec_ctrl k) (may1_pin_based_exec_ctrl k) /\
    fits 32 (may0_pin_based_exec_ctrl k) /\ fits 32 (may1_pin_based_exec_ctrl k);
  caps_proc : consistent (may0_processor_based_exec_ctrl k) (may1_processor_based_exec_ctrl k) /\
    fits 32 (may0_processor_based_exec_ctrl k) /\ fits 32 (may1_processor_based_exec_ctrl k);
  caps_proc2 : consistent (may0_processor_based_exec_ctrl2 k) (may1_processor_based_exec_ctrl2 k) /\
    fits 32 (may0_processor_based_exec_ctrl2 k) /\ fits 32 (may1_processor_based_exec_ctrl2 k);
  caps_exit : consistent (may0_vm_exit_ctrl k) (may1_vm_exit_ctrl k) /\
    fits 32 (may0_vm_exit_ctrl k) /\ fits 32 (may1_vm_exit_ctrl k);
  caps_entry : consistent (may0_vm_entry_ctrl k) (may1_vm_entry_ctrl k) /\
    fits 32 (may0_vm_entry_ctrl k) /\ fits 32 (may1_vm_entry_ctrl k);
  caps_cr : Forall (fits 64) [may0_cr0 k; may1_cr0 k; may0_cr4 k; may1_cr4 k]
}.

(** With the EPT policy the exits on CR3 are left out, although IA32_VMX_PROCBASED_CTLS may ask for them. *)
Definition proc_lower (pg_ept : bool) (k : VMCS_HW_CONSTRAINTS) : Z :=
  if pg_ept then BIT_CLR (BIT_CLR (may0_processor_based_exec_ctrl k) Proc.Cr3Load) Proc.Cr3Store
  else may0_processor_based_exec_ctrl k.

Lemma consistent_lower lo lo' hi : consistent lo hi -> covers lo' lo -> consistent lo' hi.
Proof. intros Hc Hl i Hi Hb. apply Hc; [done|]. by apply Hl. Qed.
Lemma proc_lower_sub pg_ept k : covers (proc_lower pg_ept k) (may0_processor_based_exec_ctrl k).
Proof.
  intros i Hi. unfold proc_lower. destruct pg_ept; [|done]. rewrite !bit_clr_spec, !andb_true_iff by done. by intros [[Hb _] _].
Qed.
Lemma proc_lower_fits pg_ept k : fits 32 (may0_processor_based_exec_ctrl k) -> fits 32 (proc_lower pg_ept k).
Proof. intros Hf. unfold proc_lower. destruct pg_ept; [|done]. by do 2 (apply fits_bit_clr; [done|]). Qed.

(** A field of 32 bits that shows the requests is allowed. *)
Lemma shows_allowed c2 S n V V' f lo hi : shows c2 S n V' -> untouched S V V' -> exists_on c2 f = true -> width f = 32 ->
  consistent lo hi -> fits 32 lo -> covers lo (minimal_1_settings (S f)) ->
  (forall i, 0 <= i < 32 -> Z.testbit (minimal_0_settings (S f)) i = Z.testbit hi i) ->
  (forall i, kept f i = true -> allowed_at lo hi (V (field_of f)) i) ->
  (f = ctl_vm_entry_ctrls -> fits 32 (V VMCS_ENTER_CONTROL_VECTOR)) -> allowed lo hi (V' (field_of f)).
Proof.
  intros B C Hx Hw Hc Hl H1 H0 Hk He. apply (field_allowed S n f); [done..| | |].
  - intros i Hi Hn. apply (sh_bits _ _ _ _ B); [done|lia|done].
  - intros i Hi Hn. unfold allowed_at. rewrite (un_kept _ _ _ C f i Hi Hn). by apply Hk.
  - intros i Hi. destruct (decide (f = ctl_vm_entry_ctrls)) as [->|Hf]; [|apply (sh_high _ _ _ _ B); [done|done|lia]].
    cbn [field_of]. rewrite (un_entry _ _ _ C i Hi). apply (bits_above _ 32); [by apply He|lia].
Qed.

Section Accept.
Context (hw_cpuid : Z -> Z -> CPUID_PARAMS) (k : VMCS_HW_CONSTRAINTS) (cache_dis_virtualized pg_ept : bool).
Hypothesis Hk : caps_ok k.

(** The settings of a guest CPU whose structure was zeroed. *)
Definition initial_setup : GCPU_VMEXIT_CONTROLS :=
  init_minimal_controls hw_cpuid k (fixed_of k) cache_dis_virtualized pg_ept (fun _ => GuestExample.zero_counters).

Lemma fits_32_of_64 x : fits 32 x -> fits 64 x.
Proof. unfold fits. change (2 ^ 32) with 4294967296. change (2 ^ 64) with 18446744073709551616. lia. Qed.
Lemma fits_zero w : 0 <= w -> fits w 0.
Proof. intros Hw. split; [lia|]. by apply Z.pow_pos_nonneg. Qed.
Lemma fits_set_if c b x : 0 <= b < 64 -> fits 64 x -> fits 64 (set_if c b x).
Proof. intros Hb Hx. unfold set_if. destruct c; [by apply fits_bit_set|done]. Qed.

(** The two values a control field starts from. *)
Lemma compliant_32 lo hi : fits 32 lo -> fits 32 hi -> fits 64 (compliant lo hi 0) /\ fits 64 (compliant lo hi UINT32_ALL_ONES).
Proof. intros Hl Hh. split; apply fits_32_of_64, compliant_fits; done || by apply fits_zero. Qed.

Lemma fixed_mask_fits f : fits 64 (f 0) -> fits 64 (GET_FIXED_MASK UINT64_ALL_ONES f).
Proof.
  intros Hf. unfold GET_FIXED_MASK. apply fits_lor; [done|done|]. apply fits_bits; [done| |].
  - apply Z.land_nonneg. by left.
  - intros i Hi. rewrite Z.land_spec. by rewrite (bits_above UINT64_ALL_ONES 64) by done.
Qed.

Lemma land_zero_lor a b : Z.lor (Z.land 0 a) b = b.
Proof. by rewrite Z.land_0_l, Z.lor_0_l. Qed.

Lemma cr_zero_fits : fits 64 (vmcs_hw_make_compliant_cr0 (fixed_of k) 0) /\ fits 64 (vmcs_hw_make_compliant_cr4 (fixed_of k) 0).
Proof.
  pose proof (caps_cr k Hk) as HF. rewrite !Forall_cons in HF. destruct HF as (A & B & C & D & _).
  unfold vmcs_hw_make_compliant_cr0, vmcs_hw_make_compliant_cr4. rewrite !land_zero_lor. cbn [fixed_of fixed_1_cr0 fixed_1_cr4].
  assert (HB : 0 <= may1_cr0 k) by (unfold fits in B; lia). assert (HD : 0 <= may1_cr4 k) by (unfold fits in D; lia).
  split; [|by apply fits_land]. case_match; [|by apply fits_land].
  apply fits_land; [done|by apply fits_land|]. by vm_compute.
Qed.

Lemma settings_set one zero : fits 64 one -> fits 64 zero -> settings_ok (set_minimal one zero GuestExample.zero_counters).
Proof. intros H1 H0. by split_and!. Qed.

(** A value that was extended with constants. *)
#[local] Ltac lor_fits F := first [exact F | apply fits_lor; [done|lor_fits F|by vm_compute]].

(** The settings fit their fields. *)
Lemma initial_settings f : settings_ok (initial_setup f).
Proof.
  destruct cr_zero_fits as [F0%fixed_mask_fits F4%fixed_mask_fits].
  destruct (caps_pin k Hk) as (_ & P1 & P2), (caps_proc k Hk) as (_ & Q1 & Q2), (caps_proc2 k Hk) as (_ & R1 & R2),
    (caps_exit k Hk) as (_ & X1 & X2), (caps_entry k Hk) as (_ & N1 & N2).
  unfold initial_setup, init_minimal_controls. destruct f; cbn [set_minimal_of].
  - apply settings_set; [|done]. case_match; lor_fits F0.
  - apply settings_set; [|done]. repeat case_match; lor_fits F4.
  - destruct (compliant_32 _ _ P1 P2) as [Z0 Z1]. apply settings_set; [|exact Z1]. do 2 (apply fits_bit_set; [done|]). exact Z0.
  - destruct (compliant_32 _ _ Q1 Q2) as [Z0 Z1]. apply settings_set; [|exact Z1].
    apply fits_set_if; [done|]. destruct pg_ept; [do 2 (apply fits_bit_clr; [done|])|]; exact Z0.
  - unfold set_minimal_processor_ctrls2. case_match; [by split_and!|].
    destruct (compliant_32 _ _ R1 R2) as [Z0 Z1]. apply settings_set; [|exact Z1]. do 2 (apply fits_set_if; [done|]). exact Z0.
  - by apply settings_set.
  - destruct (compliant_32 _ _ N1 N2) as [Z0 Z1]. apply settings_set; [|exact Z1].
    apply fits_optional; [by repeat constructor|]. apply fits_all; [by repeat constructor|].
    apply fits_optional; [by repeat constructor|]. apply fits_all; [by repeat constructor|exact Z0].
  - destruct (compliant_32 _ _ X1 X2) as [Z0 Z1]. apply settings_set; [|exact Z1].
    apply fits_optional; [by repeat constructor|]. apply fits_all; [by repeat constructor|].
    apply fits_optional; [by repeat constructor|]. apply fits_all; [by repeat constructor|exact Z0].
Qed.

Lemma initial_counted : counted initial_setup (fun _ _ => 0).
Proof.
  intros f. split; [|apply initial_settings].
  assert (E : counters (initial_setup f) = replicate 64 0 /\ bit_field (initial_setup f) = 0).
  { unfold initial_setup, init_minimal_controls. destruct f; try done. cbn [set_minimal_of].
    unfold set_minimal_processor_ctrls2. by destruct (processor_based_exec_ctrl2_supported k). }
  destruct E as [E1 E2]. split.
  - by rewrite E1.
  - intros i Hi. rewrite E1. apply lookup_replicate_2. lia.
  - done.
  - intros i Hi. by rewrite E2, Z.bits_0.
  - by rewrite E2.
Qed.

(** ** Bounds of the minimal settings *)

Lemma pin_covers : covers (may0_pin_based_exec_ctrl k) (minimal_1_settings (initial_setup ctl_pin_ctrls)).
Proof. do 2 (apply covers_set; [done|]). by apply minimal_covers, caps_pin. Qed.

Lemma proc_covers : covers (proc_lower pg_ept k) (minimal_1_settings (initial_setup ctl_processor_ctrls)).
Proof.
  apply covers_if; [done|]. pose proof (minimal_covers _ _ (proj1 (caps_proc k Hk))) as Hm.
  unfold proc_lower. destruct pg_ept; [|exact Hm]. intros i Hi. rewrite !bit_clr_spec by done.
  rewrite !andb_true_iff. intros [[Hb H1] H2]. rewrite H1, H2. split_and!; try done. by apply (Hm i Hi).
Qed.

Lemma proc2_covers : processor_based_exec_ctrl2_supported k = true ->
  covers (may0_processor_based_exec_ctrl2 k) (minimal_1_settings (initial_setup ctl_processor_ctrls2)).
Proof.
  intros E. unfold initial_setup, init_minimal_controls. cbn [set_minimal_of]. unfold set_minimal_processor_ctrls2.
  rewrite E. do 2 (apply covers_if; [done|]). by apply minimal_covers, caps_proc2.
Qed.

Lemma exit_covers : covers (may0_vm_exit_ctrl k) (minimal_1_settings (initial_setup ctl_vm_exit_ctrls)).
Proof.
  apply covers_optional; [by repeat constructor|]. apply covers_all; [by repeat constructor|].
  apply covers_optional; [by repeat constructor|]. apply covers_all; [by repeat constructor|].
  by apply minimal_covers, caps_exit.
Qed.

Lemma entry_covers : covers (may0_vm_entry_ctrl k) (minimal_1_settings (initial_setup ctl_vm_entry_ctrls)).
Proof.
  apply covers_optional; [by repeat constructor|]. apply covers_all; [by repeat constructor|].
  apply covers_optional; [by repeat constructor|]. apply covers_all; [by repeat constructor|].
  by apply minimal_covers, caps_entry.
Qed.
End Accept.

(** C9. Whatever exits are requested of a guest CPU that was set up with the minimal controls, as long as no
    request is taken back twice and no bit has more than 255 outstanding (the counters are bytes, and wrap
    beyond that: control_counter_overflow), the pin-based, processor-based and secondary execution controls and the
    exit and entry controls in its VMCS are ones that the processor accepts: every bit the processor requires
    is 1 and every 1 is one it allows. The capabilities are those of a processor that requires no bit it
    does not allow. (The EPT policy leaves the two CR3 exits out of what is required.) The two bits that other
    components own, and the unused half of the entry controls, must be acceptable before. *)
Theorem control_fields_accepted {O : Type} `{VmcsLaws O} (t : list VMCS_ENCODING)
  (hw_cpuid : Z -> Z -> CPUID_PARAMS) (k : VMCS_HW_CONSTRAINTS) (cache_dis_virtualized pg_ept : bool)
  (r : VMEXIT_CONTROL) (rs : list VMEXIT_CONTROL) (g : GUEST_CPU O) (V : Z -> Z) :
  caps_ok k -> Forall (writes t) control_vmcs_fields ->
  (processor_based_exec_ctrl2_supported k = true -> writes t VMCS_CONTROL2_VECTOR_PROCESSOR_EVENTS) ->
  holds g V -> (forall f, vmexit_setup g f = initial_setup hw_cpuid k cache_dis_virtualized pg_ept f) ->
  may_run (r :: rs) (fun _ _ => 0) ->
  allowed_at (proc_lower pg_ept k) (may1_processor_based_exec_ctrl k) (V VMCS_CONTROL_VECTOR_PROCESSOR_EVENTS) Proc.MonitorTrapFlag ->
  allowed_at (may0_vm_entry_ctrl k) (may1_vm_entry_ctrl k) (V VMCS_ENTER_CONTROL_VECTOR) EntryCtl.Ia32eModeGuest ->
  fits 32 (V VMCS_ENTER_CONTROL_VECTOR) ->
  exists g' V', control_run t (processor_based_exec_ctrl2_supported k) (r :: rs) g = Ok g' /\ holds g' V' /\
    allowed (may0_pin_based_exec_ctrl k) (may1_pin_based_exec_ctrl k) (V' VMCS_CONTROL_VECTOR_PIN_EVENTS) /\
    allowed (proc_lower pg_ept k) (may1_processor_based_exec_ctrl k) (V' VMCS_CONTROL_VECTOR_PROCESSOR_EVENTS) /\
    (processor_based_exec_ctrl2_supported k = true ->
     allowed (may0_processor_based_exec_ctrl2 k) (may1_processor_based_exec_ctrl2 k) (V' VMCS_CONTROL2_VECTOR_PROCESSOR_EVENTS)) /\
    allowed (may0_vm_exit_ctrl k) (may1_vm_exit_ctrl k) (V' VMCS_EXIT_CONTROL_VECTOR) /\
    allowed (may0_vm_entry_ctrl k) (may1_vm_entry_ctrl k) (V' VMCS_ENTER_CONTROL_VECTOR).
Proof.
  intros Hk Hf H2 HV HS HR A27 A9 Hfit.
  set (S := initial_setup hw_cpuid k cache_dis_virtualized pg_ept) in *.
  assert (HI : counts_in g V (fun _ _ => 0) S).
  { split; [done|]. split; intros f; rewrite HS; [by apply initial_counted|done]. }
  destruct (control_session t _ Hf H2 rs r g V _ S HI HR) as (g' & V' & E & (HV' & _ & _) & B & C).
  exists g', V'. split; [exact E|]. split; [exact HV'|]. clear E HI.
  destruct (caps_pin k Hk) as (Pc & Pl & _), (caps_proc k Hk) as (Qc & Ql & _), (caps_proc2 k Hk) as (Rc & Rl & _),
    (caps_exit k Hk) as (Xc & Xl & _), (caps_entry k Hk) as (Nc & Nl & _).
  split_and!.
  - apply (shows_allowed _ S _ V V' ctl_pin_ctrls _ _ B C); try done; [by apply pin_covers|intros i Hi; by apply fixed0_bits].
  - apply (shows_allowed _ S _ V V' ctl_processor_ctrls _ _ B C); try done.
    + apply (consistent_lower _ _ _ Qc). by apply proc_lower_sub.
    + by apply proc_lower_fits.
    + by apply proc_covers.
    + intros i Hi. by apply fixed0_bits.
    + intros i ->%Z.eqb_eq. exact A27.
  - intros Es. apply (shows_allowed _ S _ V V' ctl_processor_ctrls2 _ _ B C); try done; [by apply proc2_covers|].
    intros i Hi. unfold S, initial_setup, init_minimal_controls. cbn [set_minimal_of]. unfold set_minimal_processor_ctrls2.
    rewrite Es. by apply fixed0_bits.
  - apply (shows_allowed _ S _ V V' ctl_vm_exit_ctrls _ _ B C); try done; [by apply exit_covers|intros i Hi; by apply fixed0_bits].
  - apply (shows_allowed _ S _ V V' ctl_vm_entry_ctrls _ _ B C); try done; [by apply entry_covers|intros i Hi; by apply fixed0_bits|].
    intros i ->%Z.eqb_eq. exact A9.
Qed.

Module AcceptExample.
(** The processor of [sample_msrs], with the secondary controls out of use. *)
Definition caps : VMCS_HW_CONSTRAINTS := constraints_of (read_capabilities (fun m =>
  if m =? IA32_MSR_PROCESSOR_BASED_VM_EXECUTION_CONTROLS_INDEX then 0x77F9FFFE0401E172 else sample_msrs m)).
Definition no_cpuid (leaf sub : Z) : CPUID_PARAMS := mk_cpuid 0 0 0 0.
Definition guest : GUEST_CPU VMCS_SOFTWARE_OBJECT :=
  mk_gcpu (vmcs GuestExample.guest) (gp GuestExample.guest) (xmm GuestExample.guest) (debug GuestExample.guest) 0 0 0
    GUEST_LEVEL_1_SIMPLE GUEST_LEVEL_1_SIMPLE (initial_setup no_cpuid caps false true).

Lemma caps_fine : caps_ok caps.
Proof.
  split; try (split_and!; [apply consistent_land; vm_compute; reflexivity|by vm_compute..]).
  repeat (constructor; [by vm_compute|]). constructor.
Qed.
End AcceptExample.

Lemma control_fields_accepted_witness : exists g' V',
  control_run g_field_data_init false ControlExample.example_run AcceptExample.guest = Ok g' /\ holds g' V' /\
  allowed 0x16 0x7F (V' VMCS_CONTROL_VECTOR_PIN_EVENTS).
Proof.
  destruct (control_fields_accepted g_field_data_init AcceptExample.no_cpuid AcceptExample.caps false true
    (ControlExample.hlt_request UINT64_ALL_ONES) [ControlExample.pf_request; ControlExample.hlt_request 0]
    AcceptExample.guest (view (vmcs GuestExample.guest)) AcceptExample.caps_fine
    (GuestExample.all_table_writes g_field_data_init control_vmcs_fields eq_refl) ltac:(done) GuestExample.guest_holds ltac:(done)
    ControlExample.example_may_run) as (g' & V' & E & A & B & _).
  - by vm_compute.
  - by vm_compute.
  - by vm_compute.
  - exists g', V'. split; [exact E|]. split; [exact A|exact B].
Defined.
