(* ===== verification/GuestInject.v ===== *)
(** guest/guest_cpu/guest_cpu_vmenter_event.c: events that are injected into a guest at the next VM entry,
    and the exceptions that caused a VM exit, given back to the guest; with isr_error_code_required of
    host/isr.c. *)

From S2P Require Import Prelude VmmDefs VmcsFields Vmcs VmcsSw VmcsMsrList VmcsHw GuestCpu GuestCpuSpec GuestControl GuestControlSpec.

(** * Vectors and interruption information *)

Definition IA32_EXCEPTION_VECTOR_DIVIDE_ERROR : Z := 0.
Definition IA32_EXCEPTION_VECTOR_DEBUG_BREAKPOINT : Z := 1.
Definition IA32_EXCEPTION_VECTOR_NMI : Z := 2.
Definition IA32_EXCEPTION_VECTOR_BREAKPOINT : Z := 3.
Definition IA32_EXCEPTION_VECTOR_UNDEFINED_OPCODE : Z := 6.
Definition IA32_EXCEPTION_VECTOR_DOUBLE_FAULT : Z := 8.
Definition IA32_EXCEPTION_VECTOR_INVALID_TASK_SEGMENT_SELECTOR : Z := 10.
Definition IA32_EXCEPTION_VECTOR_SEGMENT_NOT_PRESENT : Z := 11.
Definition IA32_EXCEPTION_VECTOR_STACK_SEGMENT_FAULT : Z := 12.
Definition IA32_EXCEPTION_VECTOR_GENERAL_PROTECTION_FAULT : Z := 13.
Definition IA32_EXCEPTION_VECTOR_PAGE_FAULT : Z := 14.
Definition IA32_EXCEPTION_VECTOR_ALIGNMENT_CHECK : Z := 17.
Definition IA32_EXCEPTION_VECTOR_VIRTUAL_EXCEPTION : Z := 20.

(** The types of events, the same for VM entry, VM exit and IDT vectoring. *)
Definition InterruptTypeExternalInterrupt : Z := 0.
Definition InterruptTypeNmi : Z := 2.
Definition InterruptTypeHardwareException : Z := 3.
Definition InterruptTypeSoftwareInterrupt : Z := 4.
Definition InterruptTypePrivilegedSoftwareInterrupt : Z := 5.
Definition InterruptTypeSoftwareException : Z := 6.

(** Fields of the interruption information. *)
Definition Vector (w : Z) : Z := Z.land w 255.
Definition InterruptType (w : Z) : Z := Z.land (Z.shiftr w 8) 7.
Definition ErrorCodeValid (w : Z) : bool := Z.testbit w 11.
Definition NmiUnblockingDueToIret (w : Z) : bool := Z.testbit w 12.
Definition Valid (w : Z) : bool := Z.testbit w 31.
Definition set_DeliverCode (b : bool) (w : Z) : Z := with_bit 11 b w.
Definition set_Valid (w : Z) : Z := with_bit 31 true w.
Definition clear_Reserved (w : Z) : Z := Z.ldiff w 0x7FFFF000.
(** A zeroed word with Valid, Vector, InterruptType and DeliverCode stored. *)
Definition make_info (vector type : Z) (deliver : bool) : Z :=
  set_DeliverCode deliver (Z.lor (Z.lor (Z.shiftl 1 31) (Z.land vector 255)) (Z.shiftl type 8)).

(** Bits of the guest interruptibility. *)
Definition BlockNextInstruction (w : Z) : bool := Z.testbit w 0.
Definition BlockStackSegment (w : Z) : bool := Z.testbit w 1.
Definition BlockNmi (w : Z) : bool := Z.testbit w 3.

Record VMENTER_EVENT := mk_event { interrupt_info : Z; instruction_length : Z; error_code : Z }.

Definition isr_error_code_required (vector_id : Z) : bool :=
  existsb (Z.eqb vector_id)
    [IA32_EXCEPTION_VECTOR_DOUBLE_FAULT; IA32_EXCEPTION_VECTOR_PAGE_FAULT; IA32_EXCEPTION_VECTOR_INVALID_TASK_SEGMENT_SELECTOR;
     IA32_EXCEPTION_VECTOR_SEGMENT_NOT_PRESENT; IA32_EXCEPTION_VECTOR_STACK_SEGMENT_FAULT;
     IA32_EXCEPTION_VECTOR_GENERAL_PROTECTION_FAULT; IA32_EXCEPTION_VECTOR_ALIGNMENT_CHECK].

(** * Resolution of two exceptions *)

Inductive EXCEPTION_CLASS :=
| EXCEPTION_CLASS_BENIGN | EXCEPTION_CLASS_CONTRIBUTORY | EXCEPTION_CLASS_PAGE_FAULT | EXCEPTION_CLASS_TRIPLE_FAULT.
Inductive IDT_RESOLUTION_ACTION := INJECT_2ND_EXCEPTION | INJECT_DOUBLE_FAULT | TEAR_DOWN_GUEST.

Definition idt_resolution_table (first second : EXCEPTION_CLASS) : IDT_RESOLUTION_ACTION :=
  match first, second with
  | EXCEPTION_CLASS_TRIPLE_FAULT, _ | _, EXCEPTION_CLASS_TRIPLE_FAULT => TEAR_DOWN_GUEST
  | EXCEPTION_CLASS_BENIGN, _ => INJECT_2ND_EXCEPTION
  | EXCEPTION_CLASS_CONTRIBUTORY, EXCEPTION_CLASS_CONTRIBUTORY => INJECT_DOUBLE_FAULT
  | EXCEPTION_CLASS_CONTRIBUTORY, _ => INJECT_2ND_EXCEPTION
  | EXCEPTION_CLASS_PAGE_FAULT, EXCEPTION_CLASS_BENIGN => INJECT_2ND_EXCEPTION
  | EXCEPTION_CLASS_PAGE_FAULT, _ => INJECT_DOUBLE_FAULT
  end.

Definition vector_to_exception_class (vector_id : Z) : EXCEPTION_CLASS :=
  if vector_id =? IA32_EXCEPTION_VECTOR_PAGE_FAULT then EXCEPTION_CLASS_PAGE_FAULT
  else if existsb (Z.eqb vector_id)
    [IA32_EXCEPTION_VECTOR_DIVIDE_ERROR; IA32_EXCEPTION_VECTOR_INVALID_TASK_SEGMENT_SELECTOR;
     IA32_EXCEPTION_VECTOR_SEGMENT_NOT_PRESENT; IA32_EXCEPTION_VECTOR_STACK_SEGMENT_FAULT;
     IA32_EXCEPTION_VECTOR_GENERAL_PROTECTION_FAULT] then EXCEPTION_CLASS_CONTRIBUTORY
  else if vector_id =? IA32_EXCEPTION_VECTOR_DOUBLE_FAULT then EXCEPTION_CLASS_TRIPLE_FAULT
  else EXCEPTION_CLASS_BENIGN.

(** * Injection *)

(** The NMI window of the VMCS (vmcs_actual.c). *)
Class NmiWindow (O : Type) := { vmcs_write_nmi_window_bit : O -> bool -> outcome O }.

Section Inject.
Context {O : Type} `{VmcsOps O} `{NmiWindow O} (t : list VMCS_ENCODING).
Abbreviation gcpu := (GUEST_CPU O).
(** The guest CPU and num_blocked_nmi_injections_to_guest of its processor (ipc.c). *)
Abbreviation state := (gcpu * Z)%type.
Implicit Types s : state.
(** The control register functions. *)
Context (fx : VMCS_HW_FIXED).

Definition on_gcpu (f : gcpu -> outcome gcpu) s : outcome state := g ← f s.1; Ok (g, s.2).
Definition rd_field (field : Z) s : outcome (Z * state) := r ← read_vmcs t s.1 VMCS_MERGED field; Ok (r.1, (r.2, s.2)).
Definition wr_field (field value : Z) s : outcome state := on_gcpu (fun g => write_vmcs t g VMCS_MERGED field value) s.

Definition gcpu_set_pending_nmi (value : bool) s : outcome state :=
  o ← vmcs_write_nmi_window_bit (vmcs s.1) value; Ok (set_vmcs o s.1, s.2).

Definition ipc_mni_injection_failed s : state := (s.1, u64 (s.2 + 1)).

(** Whether the interruptibility of the guest lets an event in. *)
Definition allowed_now (interruptibility info : Z) : bool :=
  let type := InterruptType info in
  if type =? InterruptTypeExternalInterrupt then negb (BlockNextInstruction interruptibility || BlockStackSegment interruptibility)
  else if type =? InterruptTypeNmi then negb (BlockNmi interruptibility || BlockStackSegment interruptibility)
  else if (InterruptTypeHardwareException <=? type) && (type <=? InterruptTypeSoftwareException) then
    negb (BlockStackSegment interruptibility &&
          ((Vector info =? IA32_EXCEPTION_VECTOR_BREAKPOINT) || (Vector info =? IA32_EXCEPTION_VECTOR_DEBUG_BREAKPOINT)))
  else true.

Definition injection_allowed (info : Z) s : outcome (bool * state) :=
  r ← rd_field VMCS_EXIT_INFO_IDT_VECTORING s; let '(idt, s) := r in
  if Valid (u32 idt) then Ok (false, s)
  else r ← rd_field VMCS_GUEST_INTERRUPTIBILITY s; let '(i, s) := r in Ok (allowed_now (u32 i) info, s).

(** The part that depends on the type: the state and DeliverCode. *)
Definition inject_details (e : VMENTER_EVENT) s : outcome (bool * state) :=
  let type := InterruptType (interrupt_info e) in
  if (type =? InterruptTypeSoftwareInterrupt) || (type =? InterruptTypePrivilegedSoftwareInterrupt) ||
     (type =? InterruptTypeSoftwareException)
  then s ← wr_field VMCS_ENTER_INSTRUCTION_LENGTH (instruction_length e) s; Ok (false, s)
  else if (type =? InterruptTypeHardwareException) && isr_error_code_required (Vector (interrupt_info e))
  then s ← wr_field VMCS_ENTER_EXCEPTION_ERROR_CODE (error_code e) s; Ok (true, s)
  else Ok (false, s).

Definition gcpu_inject_event (e : VMENTER_EVENT) s : outcome (bool * state) :=
  r ← injection_allowed (interrupt_info e) s; let '(ok, s) := r in
  if (ok : bool) then
    r ← inject_details e s; let '(deliver, s) := r in
    s ← wr_field VMCS_ENTER_INTERRUPT_INFO (clear_Reserved (set_Valid (set_DeliverCode deliver (interrupt_info e)))) s;
    Ok (true, s)
  else if InterruptType (interrupt_info e) =? InterruptTypeNmi then
    s ← gcpu_set_pending_nmi true s; Ok (false, ipc_mni_injection_failed s)
  else
    s ← on_gcpu (fun g => gcpu_temp_exceptions_setup t g GCPU_TEMP_EXIT_ON_INTR_UNBLOCK) s; Ok (false, s).

Definition gcpu_inject_gp0 s : outcome (bool * state) :=
  r ← rd_field VMCS_EXIT_INFO_INSTRUCTION_LENGTH s; let '(len, s) := r in
  gcpu_inject_event (mk_event (make_info IA32_EXCEPTION_VECTOR_GENERAL_PROTECTION_FAULT InterruptTypeHardwareException true) (u32 len) 0) s.

Definition gcpu_inject_fault (vec code : Z) s : outcome (bool * state) :=
  r ← rd_field VMCS_EXIT_INFO_INSTRUCTION_LENGTH s; let '(len, s) := r in
  let db := vec =? IA32_EXCEPTION_VECTOR_DEBUG_BREAKPOINT in
  let ve := vec =? IA32_EXCEPTION_VECTOR_VIRTUAL_EXCEPTION in
  gcpu_inject_event (mk_event (make_info vec InterruptTypeHardwareException (negb db && negb ve)) (u32 len) (if db then 0 else code)) s.

Definition gcpu_inject_nmi s : outcome (bool * state) :=
  gcpu_inject_event (mk_event (make_info IA32_EXCEPTION_VECTOR_NMI InterruptTypeNmi false) 0 0) s.

Definition gcpu_inject_double_fault s : outcome (bool * state) :=
  gcpu_inject_event (mk_event (make_info IA32_EXCEPTION_VECTOR_DOUBLE_FAULT InterruptTypeHardwareException true) 0 0) s.

Definition gcpu_inject_invalid_opcode_exception s : outcome (bool * state) :=
  r ← gcpu_inject_event (mk_event (make_info IA32_EXCEPTION_VECTOR_UNDEFINED_OPCODE InterruptTypeHardwareException false) 0 0) s;
  let '(ok, s) := r in
  if (ok : bool) then
    r ← gcpu_get_native_gp_reg_layered t s.1 IA32_REG_RFLAGS VMCS_MERGED;
    g ← gcpu_set_native_gp_reg_layered t r.2 IA32_REG_RFLAGS (BIT_SET r.1 16) VMCS_MERGED;
    Ok (true, (g, s.2))
  else Ok (false, s).

(** [garbage] is the stack where the event is built: what the code does not store stays. *)
Definition copy_exception_to_vmenter_exception (source : Z) : Z := clear_Reserved (u32 source).

Definition gcpu_reinject_vmexit_exception (garbage : VMENTER_EVENT) (info : Z) s : outcome state :=
  r ← (if ErrorCodeValid info then rd_field VMCS_EXIT_INFO_EXCEPTION_ERROR_CODE s else Ok (error_code garbage, s));
  let '(code, s) := r in
  r ← (if InterruptType info =? InterruptTypeSoftwareException
       then r ← rd_field VMCS_EXIT_INFO_INSTRUCTION_LENGTH s; Ok (u32 r.1, r.2) else Ok (instruction_length garbage, s));
  let '(len, s) := r in
  r ← gcpu_inject_event (mk_event (copy_exception_to_vmenter_exception info) len code) s; Ok r.2.

Definition gcpu_reinject_idt_exception (garbage : VMENTER_EVENT) (info : Z) s : outcome state :=
  r ← (if ErrorCodeValid info then rd_field VMCS_EXIT_INFO_IDT_VECTORING_ERROR_CODE s else Ok (error_code garbage, s));
  let '(code, s) := r in
  let type := InterruptType info in
  r ← (if (type =? InterruptTypeSoftwareInterrupt) || (type =? InterruptTypeSoftwareException) ||
          (type =? InterruptTypePrivilegedSoftwareInterrupt)
       then r ← rd_field VMCS_EXIT_INFO_INSTRUCTION_LENGTH s; Ok (u32 r.1, r.2) else Ok (instruction_length garbage, s));
  let '(len, s) := r in
  s ← wr_field VMCS_EXIT_INFO_IDT_VECTORING 0 s;
  r ← gcpu_inject_event (mk_event (copy_exception_to_vmenter_exception info) len code) s; Ok r.2.

(** The exit was the hypervisor's: what it interrupted is delivered again. *)
Definition gcpu_vmexit_exception_resolve (garbage : VMENTER_EVENT) s : outcome state :=
  let s := (clr_state_flag GCPU_EXCEPTION_RESOLUTION_REQUIRED_FLAG s.1, s.2) in
  r ← rd_field VMCS_EXIT_INFO_IDT_VECTORING s; let '(idt, s) := r in
  if Valid (u32 idt) then gcpu_reinject_idt_exception garbage (u32 idt) s
  else
    r ← rd_field VMCS_EXIT_INFO_EXCEPTION_INFO s; let '(w, s) := r in
    let info := u32 w in
    if Valid info && NmiUnblockingDueToIret info && negb (Vector info =? IA32_EXCEPTION_VECTOR_DOUBLE_FAULT)
    then o ← vmcs_update t (vmcs s.1) VMCS_GUEST_INTERRUPTIBILITY (Z.shiftl 1 3) (Z.shiftl 1 3); Ok (set_vmcs o s.1, s.2)
    else Ok s.

(** The exit was the guest's: the exception is given to it, or the double fault that it makes. *)
Definition gcpu_vmexit_exception_reflect (garbage : VMENTER_EVENT) s : outcome state :=
  let s := (clr_state_flag GCPU_EXCEPTION_RESOLUTION_REQUIRED_FLAG s.1, s.2) in
  r ← rd_field VMCS_EXIT_INFO_IDT_VECTORING s; let '(w1, s) := r in
  r ← rd_field VMCS_EXIT_INFO_EXCEPTION_INFO s; let '(w2, s) := r in
  let idt := u32 w1 in
  let info := u32 w2 in
  let inject s :=
    s ← (if Vector info =? IA32_EXCEPTION_VECTOR_PAGE_FAULT
         then r ← rd_field VMCS_EXIT_INFO_QUALIFICATION s;
              on_gcpu (fun g => gcpu_set_control_reg_layered t fx g IA32_CTRL_CR2 r.1 VMCS_MERGED) r.2
         else Ok s);
    gcpu_reinject_vmexit_exception garbage info s in
  if Valid idt then
    s ← wr_field VMCS_EXIT_INFO_IDT_VECTORING 0 s;
    match idt_resolution_table (vector_to_exception_class (Vector idt)) (vector_to_exception_class (Vector info)) with
    | INJECT_2ND_EXCEPTION => inject s
    | INJECT_DOUBLE_FAULT => r ← gcpu_inject_double_fault s; Ok r.2
    | TEAR_DOWN_GUEST => Ok s
    end
  else inject s.
End Inject.

(** * Properties *)

Definition inject_writes : list Z :=
  [VMCS_ENTER_INTERRUPT_INFO; VMCS_ENTER_EXCEPTION_ERROR_CODE; VMCS_ENTER_INSTRUCTION_LENGTH; VMCS_EXIT_INFO_IDT_VECTORING;
   VMCS_GUEST_INTERRUPTIBILITY].
Definition inject_reads : list Z :=
  [VMCS_EXIT_INFO_EXCEPTION_INFO; VMCS_EXIT_INFO_EXCEPTION_ERROR_CODE; VMCS_EXIT_INFO_INSTRUCTION_LENGTH; VMCS_EXIT_INFO_QUALIFICATION].

(** The word that is written for an event whose error code is delivered, or not. *)
Definition entry_info (deliver : bool) (info : Z) : Z := clear_Reserved (set_Valid (set_DeliverCode deliver info)).

Lemma entry_info_bits deliver info i : 0 <= i ->
  Z.testbit (entry_info deliver info) i =
  (if i =? 31 then true else if i =? 11 then deliver else Z.testbit info i) && negb (Z.testbit 0x7FFFF000 i).
Proof.
  intros Hi. unfold entry_info, clear_Reserved, set_Valid, set_DeliverCode, with_bit. rewrite Z.ldiff_spec. f_equal.
  rewrite bit_set_spec by done. destruct deliver; [rewrite bit_set_spec by done|rewrite bit_clr_spec by done];
    destruct (i =? 31), (i =? 11); rewrite ?orb_true_r, ?orb_false_r, ?andb_true_r, ?andb_false_r; done.
Qed.

Lemma entry_info_fits deliver info : fits 32 info -> fits 64 (entry_info deliver info).
Proof.
  intros Hf. apply fits_bits; [done| |].
  - unfold entry_info, clear_Reserved. apply Z.ldiff_nonneg. left. unfold set_Valid, with_bit, BIT_SET. apply Z.lor_nonneg. split; [|done].
    unfold set_DeliverCode, with_bit. destruct deliver; [apply Z.lor_nonneg; split; [unfold fits in Hf; lia|done]|].
    apply Z.ldiff_nonneg. unfold fits in Hf. lia.
  - intros i Hi. rewrite entry_info_bits by lia. rewrite (proj2 (Z.eqb_neq i 31)), (proj2 (Z.eqb_neq i 11)) by lia.
    by rewrite (bits_above info 32) by (unfold fits in Hf; lia).
Qed.

Lemma land_low a b m : (forall i, 0 <= i -> Z.testbit m i = true -> Z.testbit a i = Z.testbit b i) -> Z.land a m = Z.land b m.
Proof.
  intros Hb. apply Z.bits_inj'. intros i Hi. rewrite !Z.land_spec. destruct (Z.testbit m i) eqn:E; [|by rewrite !andb_false_r].
  by rewrite (Hb i Hi E).
Qed.
Lemma ones_bit n i : 0 <= n -> 0 <= i -> Z.testbit (Z.ones n) i = (i <? n).
Proof.
  intros Hn Hi. destruct (Z.ltb_spec i n); [by apply Z.ones_spec_low|by apply Z.ones_spec_high].
Qed.

(** The vector and the type survive. *)
Lemma entry_info_low deliver info i : 0 <= i < 11 -> Z.testbit (entry_info deliver info) i = Z.testbit info i.
Proof.
  intros Hi. rewrite entry_info_bits by lia. rewrite (proj2 (Z.eqb_neq i 31)), (proj2 (Z.eqb_neq i 11)) by lia.
  change 0x7FFFF000 with (Z.shiftl 0x7FFFF 12). rewrite Z.shiftl_spec_low by lia. by rewrite andb_true_r.
Qed.
Lemma entry_info_vector deliver info : Vector (entry_info deliver info) = Vector info.
Proof.
  apply land_low. intros i Hi Hb. change 255 with (Z.ones 8) in Hb. rewrite ones_bit in Hb by lia.
  apply entry_info_low. apply Z.ltb_lt in Hb. lia.
Qed.
Lemma entry_info_type deliver info : InterruptType (entry_info deliver info) = InterruptType info.
Proof.
  apply land_low. intros i Hi Hb. change 7 with (Z.ones 3) in Hb. rewrite ones_bit in Hb by lia. apply Z.ltb_lt in Hb.
  rewrite !Z.shiftr_spec by lia. apply entry_info_low. lia.
Qed.
Lemma entry_info_flags deliver info : Valid (entry_info deliver info) = true /\ ErrorCodeValid (entry_info deliver info) = deliver.
Proof. unfold Valid, ErrorCodeValid. rewrite !entry_info_bits by done. split; [done|]. by rewrite andb_true_r. Qed.

(** ** Two exceptions *)

(** The rules of the processor (volume 3, "Conditions for Generating a Double Fault"): the vectors of contributory
    exceptions and of page faults (with the virtualization exception), and what is delivered when the exception
    [v2] occurs during the delivery of [first], an event with its type and vector; [None] is a shutdown. Only
    exceptions of the processor (type 3) combine: an interrupt or a software interrupt with the same vector does not. *)
Definition contributory (v : Z) : bool := existsb (Z.eqb v) [0; 10; 11; 12; 13; 21].
Definition faults_page (v : Z) : bool := existsb (Z.eqb v) [14; 20].
Definition delivered (first : option (Z * Z)) (v2 : Z) : option Z :=
  match first with
  | Some (3, v1) =>
      if v1 =? 8 then (if contributory v2 || faults_page v2 then None else Some v2)
      else if (contributory v1 && contributory v2) || (faults_page v1 && (contributory v2 || faults_page v2)) then Some 8
      else Some v2
  | _ => Some v2
  end.

(** The pairs for which the source follows these rules: #VE and #CP are not involved; an event that is not an exception
    of the processor does not have the vector of one that combines; #DF is followed by an exception that combines,
    and does not follow another event (the processor does not report one with it). *)
Definition combining (v : Z) : bool := contributory v || faults_page v || (v =? 8).
Definition resolved_pair (type v1 v2 : Z) : Prop :=
  v1 <> 20 /\ v1 <> 21 /\ v2 <> 20 /\ v2 <> 21 /\ v2 <> 8 /\ (type = 3 \/ combining v1 = false) /\ (v1 = 8 -> combining v2 = true).

(** The exceptions that push an error code. *)
Definition has_error_code (v : Z) : bool := existsb (Z.eqb v) [8; 10; 11; 12; 13; 14; 17].
Lemma error_code_spec v : isr_error_code_required v = has_error_code v.
Proof.
  unfold isr_error_code_required, has_error_code. cbn [existsb].
  unfold IA32_EXCEPTION_VECTOR_DOUBLE_FAULT, IA32_EXCEPTION_VECTOR_PAGE_FAULT, IA32_EXCEPTION_VECTOR_INVALID_TASK_SEGMENT_SELECTOR,
    IA32_EXCEPTION_VECTOR_SEGMENT_NOT_PRESENT, IA32_EXCEPTION_VECTOR_STACK_SEGMENT_FAULT, IA32_EXCEPTION_VECTOR_GENERAL_PROTECTION_FAULT,
    IA32_EXCEPTION_VECTOR_ALIGNMENT_CHECK.
  destruct (v =? 8), (v =? 14), (v =? 10), (v =? 11), (v =? 12), (v =? 13), (v =? 17); reflexivity.
Qed.

(** The classes of the source, for the vectors that it knows. *)
Lemma class_cases v : v <> 20 -> v <> 21 ->
  vector_to_exception_class v = EXCEPTION_CLASS_PAGE_FAULT /\ v = 14 \/
  vector_to_exception_class v = EXCEPTION_CLASS_CONTRIBUTORY /\ contributory v = true /\ faults_page v = false /\ v <> 8 \/
  vector_to_exception_class v = EXCEPTION_CLASS_TRIPLE_FAULT /\ v = 8 \/
  vector_to_exception_class v = EXCEPTION_CLASS_BENIGN /\ contributory v = false /\ faults_page v = false /\ v <> 8.
Proof.
  intros H20 H21. unfold vector_to_exception_class.
  assert (Ec : existsb (Z.eqb v) [IA32_EXCEPTION_VECTOR_DIVIDE_ERROR; IA32_EXCEPTION_VECTOR_INVALID_TASK_SEGMENT_SELECTOR;
     IA32_EXCEPTION_VECTOR_SEGMENT_NOT_PRESENT; IA32_EXCEPTION_VECTOR_STACK_SEGMENT_FAULT;
     IA32_EXCEPTION_VECTOR_GENERAL_PROTECTION_FAULT] = contributory v).
  { unfold contributory. cbn [existsb]. by rewrite (proj2 (Z.eqb_neq v 21) H21). }
  rewrite Ec. unfold faults_page. cbn [existsb]. rewrite (proj2 (Z.eqb_neq v 20) H20).
  destruct (Z.eqb_spec v IA32_EXCEPTION_VECTOR_PAGE_FAULT) as [->|H14]; [by left|right]. rewrite (proj2 (Z.eqb_neq v 14)) by exact H14.
  destruct (contributory v) eqn:E.
  - left. split_and!; try done. intros ->. done.
  - right. destruct (Z.eqb_spec v IA32_EXCEPTION_VECTOR_DOUBLE_FAULT) as [->|]; [by left|]. right. by split_and!.
Qed.

Lemma resolution_delivered type v1 v2 : resolved_pair type v1 v2 ->
  match idt_resolution_table (vector_to_exception_class v1) (vector_to_exception_class v2) with
  | INJECT_2ND_EXCEPTION => delivered (Some (type, v1)) v2 = Some v2
  | INJECT_DOUBLE_FAULT => delivered (Some (type, v1)) v2 = Some 8 /\ v2 <> 8
  | TEAR_DOWN_GUEST => delivered (Some (type, v1)) v2 = None
  end.
Proof.
  intros (N1 & N2 & N3 & N4 & N5 & Ht & Hd).
  assert (Hserial : combining v1 = false -> delivered (Some (type, v1)) v2 = Some v2).
  { unfold combining. rewrite !orb_false_iff. intros [[C F] D]. unfold delivered. rewrite C, F, D. cbn [andb orb]. repeat case_match; done. }
  destruct (class_cases v1 N1 N2) as [[-> ->]|[(-> & C1 & F1 & B1)|[[-> ->]|(-> & C1 & F1 & B1)]]].
  4: { assert (combining v1 = false) as Hc by (unfold combining; rewrite C1, F1; by apply Z.eqb_neq).
       destruct (class_cases v2 N3 N4) as [[-> ->]|[(-> & _)|[[-> ->]|(-> & _)]]]; cbn [idt_resolution_table]; try by apply Hserial. done. }
  all: assert (type = 3) as -> by (destruct Ht as [?|Hc]; [done|]; unfold combining in Hc; rewrite ?C1 in Hc; discriminate Hc).
  all: unfold delivered; rewrite ?C1, ?F1; try rewrite (proj2 (Z.eqb_neq _ _) B1).
  all: destruct (class_cases v2 N3 N4) as [[-> ->]|[(-> & C2 & F2 & B2)|[[-> ->]|(-> & C2 & F2 & B2)]]]; cbn [idt_resolution_table];
    rewrite ?C2, ?F2; try done.
  exfalso. specialize (Hd eq_refl). unfold combining in Hd. by rewrite C2, F2, (proj2 (Z.eqb_neq _ _) B2) in Hd.
Qed.

Section Reflect.
Context {O : Type} `{VmcsLaws O} `{NmiWindow O} (t : list VMCS_ENCODING) (fx : VMCS_HW_FIXED).
Hypothesis Hwrites : Forall (writes t) inject_writes.
Hypothesis Hreads : Forall (reads (O := O) t) inject_reads.
Abbreviation state := (GUEST_CPU O * Z)%type.
Implicit Types s : state.

Lemma inject_write f : among inject_writes f = true -> writes t f.
Proof. by apply among_Forall. Qed.
Lemma inject_read f : among inject_reads f = true -> reads (O := O) t f.
Proof. by apply among_Forall. Qed.
#[local] Hint Extern 1 (writes t _) => (apply inject_write; reflexivity) : vmcs.
#[local] Hint Extern 1 (reads t _) => (apply writes_reads, inject_write; reflexivity) : vmcs.
#[local] Hint Extern 1 (reads t _) => (apply inject_read; reflexivity) : vmcs.

(** Only the VMCS and the counter may differ. *)
Definition sframe s s' : Prop := frame s.1 s'.1 /\ s'.2 = s.2.
Lemma sframe_trans s1 s2 s3 : sframe s1 s2 -> sframe s2 s3 -> sframe s1 s3.
Proof. intros [A1 A2] [B1 B2]. split; [by apply (frame_trans s1.1 s2.1)|congruence]. Qed.

Lemma rd_field_ok s V f : holds s.1 V -> reads (O := O) t f ->
  exists s', rd_field t f s = Ok (V f, s') /\ holds s'.1 V /\ sframe s s'.
Proof.
  intros Hh Hf. destruct (read_vmcs_ok t s.1 V VMCS_MERGED f ltac:(done) Hh Hf) as (g' & E & Hh' & F).
  exists (g', s.2). unfold rd_field. rewrite E, bind_Ok. done.
Qed.
Lemma wr_field_ok s V f v : holds s.1 V -> writes t f -> fits 64 v ->
  exists s', wr_field t f v s = Ok s' /\ holds s'.1 (fupd V f v) /\ sframe s s'.
Proof.
  intros Hh Hf Hv. destruct (write_vmcs_ok t s.1 V VMCS_MERGED f v ltac:(done) Hh Hf Hv) as (g' & E & Hh' & F).
  exists (g', s.2). unfold wr_field, on_gcpu. rewrite E, bind_Ok. done.
Qed.

(** The VMCS after the injection of an exception of the processor. *)
Definition injected (V : Z -> Z) (info code : Z) : Z -> Z :=
  let d := isr_error_code_required (Vector info) in
  fupd (if d then fupd V VMCS_ENTER_EXCEPTION_ERROR_CODE code else V) VMCS_ENTER_INTERRUPT_INFO (entry_info d info).

(** An exception of the processor that nothing blocks is injected. *)
Lemma inject_exception_ok s V info len code : holds s.1 V -> fits 32 info -> fits 64 code ->
  InterruptType info = InterruptTypeHardwareException ->
  Valid (u32 (V VMCS_EXIT_INFO_IDT_VECTORING)) = false ->
  allowed_now (u32 (V VMCS_GUEST_INTERRUPTIBILITY)) info = true ->
  exists s', gcpu_inject_event t (mk_event info len code) s = Ok (true, s') /\ holds s'.1 (injected V info code) /\ sframe s s'.
Proof.
  intros Hh Hi Hc Ht Hv Ha. unfold gcpu_inject_event, injection_allowed.
  destruct (rd_field_ok s V VMCS_EXIT_INFO_IDT_VECTORING Hh ltac:(eauto with vmcs)) as (s1 & E1 & K1 & F1).
  rewrite E1, bind_Ok. cbv iota beta. rewrite Hv.
  destruct (rd_field_ok s1 V VMCS_GUEST_INTERRUPTIBILITY K1 ltac:(eauto with vmcs)) as (s2 & E2 & K2 & F2).
  rewrite E2, !bind_Ok. cbv iota beta. cbn [interrupt_info]. rewrite Ha. unfold inject_details, injected. cbn [interrupt_info error_code].
  rewrite Ht. cbn [Z.eqb Pos.eqb orb andb InterruptTypeHardwareException InterruptTypeSoftwareInterrupt
    InterruptTypePrivilegedSoftwareInterrupt InterruptTypeSoftwareException].
  destruct (isr_error_code_required (Vector info)).
  - destruct (wr_field_ok s2 V VMCS_ENTER_EXCEPTION_ERROR_CODE code K2 ltac:(eauto with vmcs) Hc) as (s3 & E3 & K3 & F3).
    rewrite E3, !bind_Ok. cbv iota beta.
    destruct (wr_field_ok s3 _ VMCS_ENTER_INTERRUPT_INFO (entry_info true info) K3 ltac:(eauto with vmcs)
      ltac:(by apply entry_info_fits)) as (s4 & E4 & K4 & F4). unfold entry_info in E4. rewrite E4, bind_Ok.
    exists s4. split; [done|]. split; [done|]. by apply (sframe_trans s s1), (sframe_trans s1 s2), (sframe_trans s2 s3).
  - rewrite bind_Ok. cbv iota beta.
    destruct (wr_field_ok s2 V VMCS_ENTER_INTERRUPT_INFO (entry_info false info) K2 ltac:(eauto with vmcs)
      ltac:(by apply entry_info_fits)) as (s4 & E4 & K4 & F4). unfold entry_info in E4. rewrite E4, bind_Ok.
    exists s4. split; [done|]. split; [done|]. by apply (sframe_trans s s1), (sframe_trans s1 s2).
Qed.

Lemma clear_reserved_low info i : 0 <= i < 12 -> Z.testbit (clear_Reserved info) i = Z.testbit info i.
Proof.
  intros Hi. unfold clear_Reserved. rewrite Z.ldiff_spec. change 0x7FFFF000 with (Z.shiftl 0x7FFFF 12).
  rewrite Z.shiftl_spec_low by lia. by rewrite andb_true_r.
Qed.
Lemma copied_vector info : Vector (copy_exception_to_vmenter_exception (u32 info)) = Vector (u32 info).
Proof.
  apply land_low. intros i Hi Hb. change 255 with (Z.ones 8) in Hb. rewrite ones_bit in Hb by lia. apply Z.ltb_lt in Hb.
  unfold copy_exception_to_vmenter_exception. rewrite clear_reserved_low by lia. f_equal. apply wrap_wrap.
Qed.
Lemma copied_type info : InterruptType (copy_exception_to_vmenter_exception (u32 info)) = InterruptType (u32 info).
Proof.
  apply land_low. intros i Hi Hb. change 7 with (Z.ones 3) in Hb. rewrite ones_bit in Hb by lia. apply Z.ltb_lt in Hb.
  rewrite !Z.shiftr_spec by lia. unfold copy_exception_to_vmenter_exception. rewrite clear_reserved_low by lia. f_equal. apply wrap_wrap.
Qed.
Lemma copied_fits info : fits 32 (copy_exception_to_vmenter_exception info).
Proof.
  unfold copy_exception_to_vmenter_exception, clear_Reserved. pose proof (u32_range info).
  apply fits_bits; [done|apply Z.ldiff_nonneg; lia|]. intros i Hi. rewrite Z.ldiff_spec.
  by rewrite (bits_above (u32 info) 32) by (change (2 ^ 32) with 4294967296; lia).
Qed.

(** An exception of the processor is not blocked when MOV SS does not block. *)
Lemma exception_allowed i info : InterruptType info = InterruptTypeHardwareException -> BlockStackSegment i = false ->
  allowed_now i info = true.
Proof. intros Ht Hb. unfold allowed_now. rewrite Ht, Hb. reflexivity. Qed.

Lemma reinject_ok s V garbage info : holds s.1 V ->
  InterruptType (u32 info) = InterruptTypeHardwareException ->
  ErrorCodeValid (u32 info) = isr_error_code_required (Vector (u32 info)) ->
  Valid (u32 (V VMCS_EXIT_INFO_IDT_VECTORING)) = false ->
  BlockStackSegment (u32 (V VMCS_GUEST_INTERRUPTIBILITY)) = false ->
  fits 64 (error_code garbage) ->
  exists s' code, gcpu_reinject_vmexit_exception t garbage (u32 info) s = Ok s' /\ sframe s s' /\
    holds s'.1 (injected V (copy_exception_to_vmenter_exception (u32 info)) code) /\
    (isr_error_code_required (Vector (u32 info)) = true -> code = V VMCS_EXIT_INFO_EXCEPTION_ERROR_CODE).
Proof.
  intros Hh Ht He Hv Hb Hg. unfold gcpu_reinject_vmexit_exception. rewrite He, Ht.
  cbn [Z.eqb Pos.eqb InterruptTypeHardwareException InterruptTypeSoftwareException].
  pose proof (exception_allowed (u32 (V VMCS_GUEST_INTERRUPTIBILITY)) _ (eq_trans (copied_type info) Ht) Hb) as Ha.
  destruct (isr_error_code_required (Vector (u32 info))) eqn:Er.
  - destruct (rd_field_ok s V VMCS_EXIT_INFO_EXCEPTION_ERROR_CODE Hh ltac:(eauto with vmcs)) as (s1 & E1 & K1 & F1).
    rewrite E1, bind_Ok. cbv iota beta. rewrite bind_Ok. cbv iota beta.
    destruct (inject_exception_ok s1 V (copy_exception_to_vmenter_exception (u32 info)) (instruction_length garbage)
      (V VMCS_EXIT_INFO_EXCEPTION_ERROR_CODE) K1 (copied_fits _) ltac:(by apply (holds_fits s1.1)) (eq_trans (copied_type info) Ht) Hv Ha)
      as (s2 & E2 & K2 & F2). rewrite E2, bind_Ok. exists s2, (V VMCS_EXIT_INFO_EXCEPTION_ERROR_CODE).
    split; [done|]. split; [by apply (sframe_trans s s1)|]. done.
  - rewrite bind_Ok. cbv iota beta. rewrite bind_Ok. cbv iota beta.
    destruct (inject_exception_ok s V (copy_exception_to_vmenter_exception (u32 info)) (instruction_length garbage)
      (error_code garbage) Hh (copied_fits _) Hg (eq_trans (copied_type info) Ht) Hv Ha) as (s2 & E2 & K2 & F2).
    rewrite E2, bind_Ok. by exists s2, (error_code garbage).
Qed.

(** The VMCS of [V] orders the injection of the exception [v] with the error code [code]. *)
Definition carries (V : Z -> Z) (v code : Z) : Prop :=
  let e := V VMCS_ENTER_INTERRUPT_INFO in
  Valid e = true /\ Vector e = v /\ InterruptType e = InterruptTypeHardwareException /\
  ErrorCodeValid e = has_error_code v /\
  (has_error_code v = true -> V VMCS_ENTER_EXCEPTION_ERROR_CODE = code).

Lemma injected_carries V info code : InterruptType info = InterruptTypeHardwareException ->
  carries (injected V info code) (Vector info) code.
Proof.
  intros Ht. unfold carries, injected. rewrite fupd_eq, entry_info_vector, entry_info_type.
  rewrite error_code_spec. destruct (entry_info_flags (has_error_code (Vector info)) info) as [-> ->]. split_and!; try done.
  intros ->. by fread.
Qed.
Lemma injected_other V info code f : f <> VMCS_ENTER_INTERRUPT_INFO -> f <> VMCS_ENTER_EXCEPTION_ERROR_CODE ->
  injected V info code f = V f.
Proof. intros N1 N2. unfold injected. rewrite fupd_ne by done. case_match; [by rewrite fupd_ne|done]. Qed.

(** The exception of the exit is given to the guest; CR2 of a page fault comes with it. *)
Lemma give_exception_ok s V garbage w : holds s.1 V -> length (gp s.1) = 18%nat ->
  InterruptType (u32 w) = InterruptTypeHardwareException ->
  ErrorCodeValid (u32 w) = isr_error_code_required (Vector (u32 w)) ->
  Valid (u32 (V VMCS_EXIT_INFO_IDT_VECTORING)) = false ->
  BlockStackSegment (u32 (V VMCS_GUEST_INTERRUPTIBILITY)) = false ->
  fits 64 (error_code garbage) ->
  exists s' V',
    (s ← (if Vector (u32 w) =? IA32_EXCEPTION_VECTOR_PAGE_FAULT
          then r ← rd_field t VMCS_EXIT_INFO_QUALIFICATION s;
               on_gcpu (fun g => gcpu_set_control_reg_layered t fx g IA32_CTRL_CR2 r.1 VMCS_MERGED) r.2
          else Ok s);
     gcpu_reinject_vmexit_exception t garbage (u32 w) s) = Ok s' /\
    holds s'.1 V' /\ s'.2 = s.2 /\ carries V' (Vector (u32 w)) (V VMCS_EXIT_INFO_EXCEPTION_ERROR_CODE) /\
    (forall f, f <> VMCS_ENTER_INTERRUPT_INFO -> f <> VMCS_ENTER_EXCEPTION_ERROR_CODE -> V' f = V f) /\
    gp s'.1 = (if Vector (u32 w) =? IA32_EXCEPTION_VECTOR_PAGE_FAULT
               then <[Z.to_nat CR2_SAVE_AREA := V VMCS_EXIT_INFO_QUALIFICATION]> (gp s.1) else gp s.1).
Proof.
  intros Hh Hl Ht He Hv Hb Hg.
  assert (X : forall s1, holds s1.1 V -> exists s' V', gcpu_reinject_vmexit_exception t garbage (u32 w) s1 = Ok s' /\
    holds s'.1 V' /\ s'.2 = s1.2 /\ carries V' (Vector (u32 w)) (V VMCS_EXIT_INFO_EXCEPTION_ERROR_CODE) /\
    (forall f, f <> VMCS_ENTER_INTERRUPT_INFO -> f <> VMCS_ENTER_EXCEPTION_ERROR_CODE -> V' f = V f) /\ gp s'.1 = gp s1.1).
  { intros s1 Hh1. destruct (reinject_ok s1 V garbage w Hh1 Ht He Hv Hb Hg) as (s' & code & E & (F1 & F2) & K & Hc).
    exists s', (injected V (copy_exception_to_vmenter_exception (u32 w)) code).
    pose proof (injected_carries V _ code (eq_trans (copied_type w) Ht)) as C. rewrite copied_vector in C.
    split_and!; [done|done|done| |by intros; apply injected_other|by rewrite F1].
    destruct C as (C1 & C2 & C3 & C4 & C5). split_and!; try done. intros Hr. rewrite C5, Hc by (by rewrite ?error_code_spec). done. }
  destruct (Vector (u32 w) =? IA32_EXCEPTION_VECTOR_PAGE_FAULT); [|rewrite bind_Ok; by apply X].
  destruct (rd_field_ok s V VMCS_EXIT_INFO_QUALIFICATION Hh ltac:(eauto with vmcs)) as (s1 & E1 & K1 & F1 & G1).
  rewrite E1, bind_Ok. unfold on_gcpu. cbn [fst snd gcpu_set_control_reg_layered].
  assert (gp s1.1 = gp s.1) as Hgp by by rewrite F1.
  rewrite Hgp, wr_ok by (rewrite Hl; vm_compute; split; [discriminate|reflexivity]). rewrite !bind_Ok.
  destruct (X (set_gp (<[Z.to_nat CR2_SAVE_AREA:=V VMCS_EXIT_INFO_QUALIFICATION]> (gp s.1)) s1.1, s1.2) K1)
    as (s' & V' & A1 & A2 & A3 & A4 & A5 & A6).
  exists s', V'. split_and!; try done. cbn [snd] in A3. congruence.
Qed.

Lemma double_fault_ok s V : holds s.1 V -> Valid (u32 (V VMCS_EXIT_INFO_IDT_VECTORING)) = false ->
  BlockStackSegment (u32 (V VMCS_GUEST_INTERRUPTIBILITY)) = false ->
  exists s' V', gcpu_inject_double_fault t s = Ok (true, s') /\ holds s'.1 V' /\ s'.2 = s.2 /\
    carries V' IA32_EXCEPTION_VECTOR_DOUBLE_FAULT 0 /\
    (forall f, f <> VMCS_ENTER_INTERRUPT_INFO -> f <> VMCS_ENTER_EXCEPTION_ERROR_CODE -> V' f = V f) /\ gp s'.1 = gp s.1.
Proof.
  intros Hh Hv Hb. set (i := make_info IA32_EXCEPTION_VECTOR_DOUBLE_FAULT InterruptTypeHardwareException true).
  destruct (inject_exception_ok s V i 0 0 Hh ltac:(done) ltac:(done) eq_refl Hv (exception_allowed _ i eq_refl Hb))
    as (s' & E & K & F1 & F2). exists s', (injected V i 0). split_and!; try done.
  - intros. by apply injected_other.
  - by rewrite F1.
Qed.
End Reflect.

(** C8. An exception of the processor that left the guest is given back to it: when no other event was being
    delivered, the exception itself; otherwise what the rules of the processor for two exceptions make of the pair (the
    second exception, a double fault with error code 0, or a shutdown, for which the source orders nothing
    and resumes the guest). The entry information is valid, of the type of processor exceptions, with the vector
    and, for the vectors that have one, the error code of the exit; CR2 of a page fault is the address of the exit;
    the interrupted event is forgotten and no other field or register changes. Conditions: the pair is one that
    the source resolves as the processor does (resolved_pair; it ignores the type of the first event, takes #DF and a
    benign exception for a shutdown, and does not know #VE and #CP: interrupt_taken_for_exception,
    double_fault_ends_guest, virtualization_exception_benign); the exit has an error code exactly for these vectors,
    as in protected mode; and the guest is not in the shadow of MOV SS or POP SS. *)
Theorem exception_reflect_resolves {O : Type} `{VmcsLaws O} `{NmiWindow O} (t : list VMCS_ENCODING) (fx : VMCS_HW_FIXED)
  (garbage : VMENTER_EVENT) (s : GUEST_CPU O * Z) (V : Z -> Z) :
  Forall (writes t) inject_writes -> Forall (reads (O := O) t) inject_reads -> holds s.1 V -> length (gp s.1) = 18%nat ->
  fits 64 (error_code garbage) ->
  let idt := u32 (V VMCS_EXIT_INFO_IDT_VECTORING) in
  let info := u32 (V VMCS_EXIT_INFO_EXCEPTION_INFO) in
  InterruptType info = InterruptTypeHardwareException -> ErrorCodeValid info = has_error_code (Vector info) ->
  BlockStackSegment (u32 (V VMCS_GUEST_INTERRUPTIBILITY)) = false ->
  (Valid idt = true -> resolved_pair (InterruptType idt) (Vector idt) (Vector info)) ->
  exists s' V', gcpu_vmexit_exception_reflect t fx garbage s = Ok s' /\ holds s'.1 V' /\ s'.2 = s.2 /\
    Valid (u32 (V' VMCS_EXIT_INFO_IDT_VECTORING)) = false /\
    (forall f, ~ In f [VMCS_EXIT_INFO_IDT_VECTORING; VMCS_ENTER_INTERRUPT_INFO; VMCS_ENTER_EXCEPTION_ERROR_CODE] -> V' f = V f) /\
    match delivered (if Valid idt then Some (InterruptType idt, Vector idt) else None) (Vector info) with
    | None => V' VMCS_ENTER_INTERRUPT_INFO = V VMCS_ENTER_INTERRUPT_INFO /\ gp s'.1 = gp s.1
    | Some v =>
        carries V' v (if v =? Vector info then V VMCS_EXIT_INFO_EXCEPTION_ERROR_CODE else 0) /\
        gp s'.1 = if v =? IA32_EXCEPTION_VECTOR_PAGE_FAULT
                  then <[Z.to_nat CR2_SAVE_AREA := V VMCS_EXIT_INFO_QUALIFICATION]> (gp s.1) else gp s.1
    end.
Proof.
  intros Hw Hr Hh Hl Hg idt info Ht He Hb Hp. rewrite <- error_code_spec in He. unfold gcpu_vmexit_exception_reflect.
  set (s0 := (clr_state_flag GCPU_EXCEPTION_RESOLUTION_REQUIRED_FLAG s.1, s.2)).
  assert (Hh0 : holds s0.1 V) by exact Hh.
  assert (Widt : writes (O := O) t VMCS_EXIT_INFO_IDT_VECTORING) by (apply (among_Forall _ inject_writes); done).
  destruct (rd_field_ok t s0 V VMCS_EXIT_INFO_IDT_VECTORING Hh0 ltac:(by apply writes_reads)) as (s1 & E1 & K1 & F1 & G1).
  rewrite E1, bind_Ok. cbv iota.
  destruct (rd_field_ok t s1 V VMCS_EXIT_INFO_EXCEPTION_INFO K1 ltac:(apply (among_Forall _ inject_reads); done))
    as (s2 & E2 & K2 & F2 & G2). rewrite E2, bind_Ok. cbv iota zeta. fold idt info.
  assert (P2 : gp s2.1 = gp s.1) by (rewrite F2, F1; done). assert (Q2 : s2.2 = s.2) by (rewrite G2, G1; done).
  destruct (Valid idt) eqn:Ev.
  - destruct (wr_field_ok t s2 V VMCS_EXIT_INFO_IDT_VECTORING 0 K2 Widt ltac:(done)) as (s3 & E3 & K3 & F3 & G3).
    rewrite E3, bind_Ok. set (V3 := fupd V VMCS_EXIT_INFO_IDT_VECTORING 0) in *.
    assert (P3 : gp s3.1 = gp s.1) by (rewrite F3; exact P2).
    assert (X : forall f, ~ In f [VMCS_EXIT_INFO_IDT_VECTORING; VMCS_ENTER_INTERRUPT_INFO; VMCS_ENTER_EXCEPTION_ERROR_CODE] ->
      V3 f = V f /\ f <> VMCS_ENTER_INTERRUPT_INFO /\ f <> VMCS_ENTER_EXCEPTION_ERROR_CODE).
    { intros f Hf. cbn [In] in Hf. split; [apply fupd_ne|split]; intros ->; tauto. }
    pose proof (resolution_delivered (InterruptType idt) (Vector idt) (Vector info) (Hp eq_refl)) as D.
    destruct (idt_resolution_table _ _).
    + destruct (give_exception_ok t fx Hw Hr s3 V3 garbage (V VMCS_EXIT_INFO_EXCEPTION_INFO) K3 (eq_trans (f_equal length P3) Hl) Ht He eq_refl
        Hb Hg) as (s' & V' & E & K & G & C & R & P). rewrite D, Z.eqb_refl. exists s', V'. split_and!; try done.
      * congruence.
      * by rewrite R.
      * intros f Hf. destruct (X f Hf) as (X1 & X2 & X3). by rewrite R.
      * by rewrite P, P3.
    + destruct (double_fault_ok t Hw s3 V3 K3 eq_refl Hb) as (s' & V' & E & K & G & C & R & P).
      destruct D as [-> D]. rewrite (proj2 (Z.eqb_neq 8 (Vector info))) by congruence. rewrite E, bind_Ok.
      exists s', V'. split_and!; try done.
      * congruence.
      * by rewrite R.
      * intros f Hf. destruct (X f Hf) as (X1 & X2 & X3). by rewrite R.
      * change (8 =? IA32_EXCEPTION_VECTOR_PAGE_FAULT) with false. cbv iota. congruence.
    + rewrite D. exists s3, V3. split_and!; try done; [congruence|]. intros f Hf. by apply X.
  - destruct (give_exception_ok t fx Hw Hr s2 V garbage (V VMCS_EXIT_INFO_EXCEPTION_INFO) K2 (eq_trans (f_equal length P2) Hl) Ht He Ev
        Hb Hg) as (s' & V' & E & K & G & C & R & P). cbn [delivered]. rewrite Z.eqb_refl. exists s', V'. split_and!; try done.
    * congruence.
    * by rewrite R.
    * intros f Hf. cbn [In] in Hf. apply R; intros ->; tauto.
    * by rewrite P, P2.
Qed.

(** A page fault during the delivery of a page fault. *)
Module InjectExample.
Import GuestExample.
#[local] Instance sw_nmi_window : NmiWindow VMCS_SOFTWARE_OBJECT := { vmcs_write_nmi_window_bit := fun o _ => Ok o }.
Definition pf_info : Z := 0x80000B0E.
Definition fields : list (Z * Z) := [(VMCS_EXIT_INFO_IDT_VECTORING, pf_info); (VMCS_EXIT_INFO_EXCEPTION_INFO, pf_info)].
Definition faulting : GUEST_CPU VMCS_SOFTWARE_OBJECT * Z := (filled fields, 0).
Lemma faulting_holds : holds faulting.1 (fill (view (vmcs guest)) fields).
Proof. by apply filled_holds. Qed.
Definition no_fixed : VMCS_HW_FIXED := mk_fixed 0 0 0 0 0 0 0 0 0 0 0 0 0 0.
End InjectExample.
#[local] Existing Instance InjectExample.sw_nmi_window.

Lemma exception_reflect_resolves_witness : exists s' V',
  gcpu_vmexit_exception_reflect g_field_data_init InjectExample.no_fixed (mk_event 0 0 0) InjectExample.faulting = Ok s' /\
  holds s'.1 V' /\ carries V' IA32_EXCEPTION_VECTOR_DOUBLE_FAULT 0.
Proof.
  destruct (exception_reflect_resolves g_field_data_init InjectExample.no_fixed (mk_event 0 0 0) InjectExample.faulting
    (GuestExample.fill (view (vmcs GuestExample.guest)) InjectExample.fields)
    (GuestExample.all_table_writes g_field_data_init inject_writes eq_refl) (GuestExample.all_table_reads g_field_data_init inject_reads eq_refl)
    InjectExample.faulting_holds eq_refl ltac:(done) ltac:(vm_compute; reflexivity) ltac:(vm_compute; reflexivity)
    ltac:(vm_compute; reflexivity) ltac:(intros _; vm_compute; split_and!; try discriminate; by left)) as (s' & V' & E & A & _ & _ & _ & B).
  exists s', V'. split; [exact E|]. split; [exact A|]. exact (proj1 B).
Defined.

(** ** Pairs that are resolved otherwise *)

(** The vector that is ordered after an exit with this IDT-vectoring and exception information. *)
Definition reflected (idt info : Z) : option (option Z) :=
  let s := (GuestExample.filled [(VMCS_EXIT_INFO_IDT_VECTORING, idt); (VMCS_EXIT_INFO_EXCEPTION_INFO, info)], 0) in
  match gcpu_vmexit_exception_reflect g_field_data_init InjectExample.no_fixed (mk_event 0 0 0) s with
  | Ok s' => let e := view (vmcs s'.1) VMCS_ENTER_INTERRUPT_INFO in Some (if Valid e then Some (Vector e) else None)
  | _ => None
  end.

(** INT 13, a software interrupt, during whose delivery #GP occurs: the processor delivers #GP, the source
    takes the interrupt for a #GP and orders a double fault; so it does for an interrupt with the vector 14. *)
Theorem interrupt_taken_for_exception :
  reflected 0x8000040D 0x80000B0D = Some (Some 8) /\ delivered (Some (4, 13)) 13 = Some 13 /\
  reflected 0x8000000E 0x80000B0D = Some (Some 8) /\ delivered (Some (0, 14)) 13 = Some 13.
Proof. vm_compute. by split_and!. Qed.

(** A debug exception during the delivery of a double fault is delivered; the source forgets both. *)
Theorem double_fault_ends_guest : reflected 0x80000B08 0x80000301 = Some None /\ delivered (Some (3, 8)) 1 = Some 1.
Proof. vm_compute. by split. Qed.

(** #VE combines as a page fault; the source takes it for benign. *)
Theorem virtualization_exception_benign : reflected 0x80000314 0x80000B0D = Some (Some 13) /\ delivered (Some (3, 20)) 13 = Some 8.
Proof. vm_compute. by split. Qed.

(** * Lost events *)

(** An event other than an NMI that cannot be injected while another one is being delivered is refused, and
    nothing of it stays in the state of the guest CPU: no exit is requested for the moment it could be
    injected, although the comment of the function promises an interrupt window. *)
Lemma blocked_event_forgotten {O : Type} `{VmcsLaws O} `{NmiWindow O} (t : list VMCS_ENCODING) (s : GUEST_CPU O * Z) (V : Z -> Z) :
  writes t VMCS_EXIT_INFO_IDT_VECTORING -> holds s.1 V -> Valid (u32 (V VMCS_EXIT_INFO_IDT_VECTORING)) = true ->
  exists s1, sframe s s1 /\ holds s1.1 V /\
    forall e, InterruptType (interrupt_info e) <> InterruptTypeNmi ->
      gcpu_inject_event t e s = (g ← request_vmexit_on_proc_ctrls t s1.1 0 0; Ok (false, (g, s1.2))).
Proof.
  intros Hw Hh Hv. unfold gcpu_inject_event, injection_allowed.
  destruct (rd_field_ok t s V VMCS_EXIT_INFO_IDT_VECTORING Hh ltac:(by apply writes_reads)) as (s1 & E1 & K1 & F1).
  exists s1. split; [done|]. split; [done|]. intros e Ht.
  rewrite E1, bind_Ok. cbv iota beta. rewrite Hv, bind_Ok. cbv iota beta. rewrite (proj2 (Z.eqb_neq _ _) Ht).
  unfold on_gcpu, gcpu_temp_exceptions_setup. by destruct (request_vmexit_on_proc_ctrls t s1.1 0 0).
Qed.
