(* ===== verification/VmexitCr.v ===== *)
(** vmexit/vmexit_cr_access.c: the guest's instructions on control registers (MOV, CLTS, LMSW), with the
    reading of the guest's PAE directory (gcpu_get_32_bit_pdpt of guest_cpu_access.c) and its check
    (pw_is_pdpt_in_32_bit_pae_mode_valid of page_walker.c). *)

From S2P Require Import Prelude VmmDefs PageWalker VmexitMsr VmcsFields Vmcs VmcsSw VmcsMsrList VmcsHw GuestCpu GuestCpuSpec GuestMsr.
From S2P Require Import GuestControl GuestControlSpec GuestInject.

(** * Tables *)

Definition CR0_TASK_SWITCH : Z := 8.

(** The events of lkup_write_event; [None] is EVENTS_COUNT. *)
Inductive CR_WRITE_EVENT := EVENT_GCPU_AFTER_GUEST_CR0_WRITE | EVENT_GCPU_AFTER_GUEST_CR3_WRITE | EVENT_GCPU_AFTER_GUEST_CR4_WRITE.
Definition lkup_write_event (reg : VMM_IA32_CONTROL_REGISTERS) : option CR_WRITE_EVENT :=
  match reg with
  | IA32_CTRL_CR0 => Some EVENT_GCPU_AFTER_GUEST_CR0_WRITE
  | IA32_CTRL_CR3 => Some EVENT_GCPU_AFTER_GUEST_CR3_WRITE
  | IA32_CTRL_CR4 => Some EVENT_GCPU_AFTER_GUEST_CR4_WRITE
  | _ => None
  end.

Definition lkup_operand : list Z :=
  [IA32_REG_RAX; IA32_REG_RCX; IA32_REG_RDX; IA32_REG_RBX; IA32_REG_RSP; IA32_REG_RBP; IA32_REG_RSI; IA32_REG_RDI;
   IA32_REG_R8; IA32_REG_R8 + 1; IA32_REG_R8 + 2; IA32_REG_R8 + 3; IA32_REG_R8 + 4; IA32_REG_R8 + 5; IA32_REG_R8 + 6; IA32_REG_R8 + 7].

Definition lkup_cr : list VMM_IA32_CONTROL_REGISTERS :=
  [IA32_CTRL_CR0; UNSUPPORTED_CR; UNSUPPORTED_CR; IA32_CTRL_CR3; IA32_CTRL_CR4; UNSUPPORTED_CR; UNSUPPORTED_CR; UNSUPPORTED_CR; IA32_CTRL_CR8].
Definition IA32_CR_COUNT : Z := 9.

(** The exit qualification of an access. *)
Definition CrAccess_Number (q : Z) : Z := Z.land q 15.
Definition CrAccess_AccessType (q : Z) : Z := Z.land (Z.shiftr q 4) 3.
Definition CrAccess_MoveGpr (q : Z) : Z := Z.land (Z.shiftr q 8) 15.
Definition CrAccess_LmswData (q : Z) : Z := Z.land (Z.shiftr q 16) 0xFFFF.

Definition vmexit_cr_access_get_cr_from_qualification (q : Z) : outcome VMM_IA32_CONTROL_REGISTERS :=
  if IA32_CR_COUNT <=? CrAccess_Number q then Ok UNSUPPORTED_CR else rd lkup_cr (CrAccess_Number q).
Definition vmexit_cr_access_get_operand_from_qualification (q : Z) : outcome Z := rd lkup_operand (CrAccess_MoveGpr q).

Definition BITMAP_ASSIGN64 (word mask value : Z) : Z := Z.lor (Z.land word (u64 (Z.lnot mask))) (Z.land value mask).

(** * The checks *)

(** Bits of CR0, CR4 and EFER. *)
Module Cr0.
Definition PE (w : Z) := Z.testbit w 0.
Definition NW (w : Z) := Z.testbit w 29.
Definition CD (w : Z) := Z.testbit w 30.
Definition PG (w : Z) := Z.testbit w 31.
End Cr0.
Module Cr4.
Definition PAE (w : Z) := Z.testbit w 5.
Definition VMXE (w : Z) := Z.testbit w 13.
Definition SMXE (w : Z) := Z.testbit w 14.
Definition FSGSBASE (w : Z) := Z.testbit w 16.
Definition PCIDE (w : Z) := Z.testbit w 17.
Definition OSXSAVE (w : Z) := Z.testbit w 18.
Definition SMEP (w : Z) := Z.testbit w 20.
(** Reserved_0 (11, 12), Reserved_1 (15), Reserved_2 (19) and Reserved_3 (21 to 31). *)
Definition reserved (w : Z) := negb (Z.land w 0xFFE89800 =? 0).
End Cr4.
Definition EFER_bit_LME (w : Z) := Z.testbit w 8.
Definition EFER_bit_LMA (w : Z) := Z.testbit w 10.
Definition EFER_bit_NXE (w : Z) := Z.testbit w 11.

(** ** The PAE directory *)

(** A location is read until two reads in a row agree; [reads n] is what read [n] gives. *)
Fixpoint read_until_stable (fuel : nat) (reads : nat -> Z) (n : nat) (value1 : Z) : outcome Z :=
  let value2 := reads n in
  if value1 =? value2 then Ok value1
  else match fuel with O => Spin | S fuel => read_until_stable fuel reads (S n) value2 end.
Definition gcpu_read_pdpt_entry_from_memory (fuel : nat) (reads : nat -> Z) : outcome Z := read_until_stable fuel reads 1 (reads 0%nat).

Fixpoint read_entries (fuel : nat) (mem : Z -> nat -> Z) (hva : Z) (n : nat) : outcome (list Z) :=
  match n with
  | O => Ok []
  | S n => v ← gcpu_read_pdpt_entry_from_memory fuel (mem hva); l ← read_entries fuel mem (hva + 8) n; Ok (v :: l)
  end.

(** pw_is_pdpt_in_32_bit_pae_mode_valid, for the array of the caller. *)
Definition local_pdpt_valid (pw_reserved_bits_high_mask efer : Z) (pdpt : list Z) : bool :=
  forallb (fun e => negb (Z.testbit e 0) || pw_are_reserved_bits_in_pdpte_cleared pw_reserved_bits_high_mask e (EFER_bit_NXE efer) (EFER_bit_LME efer)) pdpt.

(** * The handler *)

(** The guest CPU with the counter of blocked NMIs, and CR0 and CR4 in the EPT state of the guest CPU. *)
Record cr_machine (O : Type) := mk_cr { cr_cpu : GUEST_CPU O * Z; ept_cr0 : Z; ept_cr4 : Z }.
Arguments mk_cr {O}.
Arguments cr_cpu {O}.
Arguments ept_cr0 {O}.
Arguments ept_cr4 {O}.

Section Cr.
Context {O : Type} `{VmcsOps O} `{NmiWindow O} (t : list VMCS_ENCODING).
Abbreviation gcpu := (GUEST_CPU O).
Abbreviation machine := (cr_machine O).
Implicit Types g : gcpu.
Implicit Types s : machine.
Context (k : VMCS_HW_CONSTRAINTS) (fx : VMCS_HW_FIXED) (hw_cpuid : Z -> Z -> CPUID_PARAMS).
(** The lists of MSRs in memory. *)
Context (hmm_hpa_to_hva : Z -> option Z) (m : msr_mem).
(** Guest memory: the address of a guest physical page, and its content at each read. *)
Context (gpm_gpa_to_hva : Z -> option Z) (mem : Z -> nat -> Z) (fuel : nat).
(** pw_reserved_bits_high_mask of page_walker.c. *)
Context (pw_reserved_bits_high_mask : Z).
(** The array on the stack before it is filled. *)
Context (pdpt_garbage : list Z).
(** event_raise, with the handlers that are registered. *)
Context (event_raise : CR_WRITE_EVENT -> Z -> machine -> outcome (bool * machine)).

Definition set_cpu (c : gcpu * Z) s : machine := mk_cr c (ept_cr0 s) (ept_cr4 s).
Definition set_g g s : machine := set_cpu (g, (cr_cpu s).2) s.

Definition visible g (reg : VMM_IA32_CONTROL_REGISTERS) : outcome (Z * gcpu) :=
  gcpu_get_guest_visible_control_reg_layered t g reg VMCS_MERGED.

Definition GCPU_SET_GUEST_VISIBLE_CONTROL_TO_L0_M g (reg : VMM_IA32_CONTROL_REGISTERS) (value : Z) : outcome gcpu :=
  g ← (match reg with
       | IA32_CTRL_CR0 | IA32_CTRL_CR4 => gcpu_set_guest_visible_control_reg_layered t fx g reg value VMCS_LEVEL_0
       | _ => Ok g
       end);
  gcpu_set_guest_visible_control_reg_layered t fx g reg value VMCS_MERGED.

(** The assertions read the registers. *)
Definition gcpu_get_32_bit_pdpt g : outcome (bool * list Z * gcpu) :=
  r ← visible g IA32_CTRL_CR3; let '(cr3, g) := r in
  g ← (if negb (BIT_GET (state_flags g) GCPU_UNRESTRICTED_GUEST_FLAG)
       then r ← visible g IA32_CTRL_CR0; r ← visible r.2 IA32_CTRL_CR0; Ok r.2 else Ok g);
  r ← visible g IA32_CTRL_CR4; let g := r.2 in
  match gpm_gpa_to_hva (Z.land cr3 (u64 (Z.lnot 31))) with
  | None => Ok (false, pdpt_garbage, g)
  | Some hva => l ← read_entries fuel mem hva (Z.to_nat PW_NUM_OF_PDPT_ENTRIES_IN_32_BIT_MODE); Ok (true, l, g)
  end.

(** The result of the read of the directory is not looked at. *)
Definition pae_gpf0 (cr0 cr4 efer : Z) g : outcome (bool * gcpu) :=
  if Cr0.PG cr0 && Cr4.PAE cr4 && negb (EFER_bit_LME efer) then
    r ← gcpu_get_32_bit_pdpt g; let '(_, pdpt, g) := r in
    r ← gcpu_get_msr_reg t k hmm_hpa_to_hva g m IA32_VMM_MSR_EFER; let '(efer, g) := r in
    Ok (negb (local_pdpt_valid pw_reserved_bits_high_mask efer pdpt), g)
  else Ok (false, g).

Definition vmexit_cr_access_is_gpf0 g : outcome (bool * gcpu) :=
  r ← visible g IA32_CTRL_CR0; let '(cr0, g) := r in
  if (Cr0.PG cr0 && negb (Cr0.PE cr0)) || (Cr0.NW cr0 && negb (Cr0.CD cr0)) then Ok (true, g) else
  r ← visible g IA32_CTRL_CR4; let '(cr4, g) := r in
  if Cr4.reserved cr4 || Cr4.VMXE cr4 || Cr4.SMXE cr4 then Ok (true, g) else
  if Cr4.OSXSAVE cr4 && negb (is_cr4_osxsave_supported hw_cpuid) then Ok (true, g) else
  if Cr4.SMEP cr4 && negb (is_cr4_smep_supported hw_cpuid) then Ok (true, g) else
  if Cr4.FSGSBASE cr4 && negb (is_fsgsbase_supported hw_cpuid) then Ok (true, g) else
  r ← gcpu_get_msr_reg t k hmm_hpa_to_hva g m IA32_VMM_MSR_EFER; let '(efer, g) := r in
  if EFER_bit_LME efer && negb (Cr4.PAE cr4) then Ok (true, g) else
  if Cr4.PCIDE cr4 then
    if negb (is_pcid_supported hw_cpuid) then Ok (true, g) else
    if negb (EFER_bit_LMA efer) then Ok (true, g) else
    r ← visible g IA32_CTRL_CR3; let '(cr3, g) := r in
    if negb (Z.land cr3 0x0FFF =? 0) then Ok (true, g) else
    if negb (Cr0.PG cr0) then Ok (true, g) else pae_gpf0 cr0 cr4 efer g
  else pae_gpf0 cr0 cr4 efer g.

Inductive RAISE_EVENT_RETVAL := EVENT_NO_HANDLERS_REGISTERED | EVENT_HANDLED | EVENT_NOT_HANDLED.
Definition cr_raise_write_events s (reg : VMM_IA32_CONTROL_REGISTERS) (new_value : Z) : outcome (RAISE_EVENT_RETVAL * machine) :=
  match lkup_write_event reg with
  | None => Ok (EVENT_NO_HANDLERS_REGISTERED, s)
  | Some event => r ← event_raise event new_value s; let '(b, s) := r in Ok (if (b : bool) then EVENT_HANDLED else EVENT_NOT_HANDLED, s)
  end.

(** The write is refused: the old value is back in the visible register. *)
Definition refuse s g (reg : VMM_IA32_CONTROL_REGISTERS) (old_visible_reg_value : Z) : outcome (bool * machine) :=
  g ← GCPU_SET_GUEST_VISIBLE_CONTROL_TO_L0_M g reg old_visible_reg_value;
  r ← gcpu_inject_gp0 t (g, (cr_cpu s).2); Ok (false, set_cpu r.2 s).

Definition cr_guest_update s (reg : VMM_IA32_CONTROL_REGISTERS) (bits_to_update q : Z) : outcome (bool * machine) :=
  let value := if CrAccess_AccessType q =? 3 then CrAccess_LmswData q else 0 in
  if report_uvmm_event UVMM_EVENT_CR_ACCESS then Ok (false, s) else
  r ← visible (cr_cpu s).1 reg; let '(old, g) := r in
  let visible_guest_cr := BITMAP_ASSIGN64 old bits_to_update value in
  g ← GCPU_SET_GUEST_VISIBLE_CONTROL_TO_L0_M g reg visible_guest_cr;
  r ← vmexit_cr_access_is_gpf0 g; let '(gpf0, g) := r in
  if (gpf0 : bool) then refuse s g reg old
  else
    r ← gcpu_get_control_reg_layered t g reg VMCS_MERGED; let '(guest_cr, g) := r in
    g ← gcpu_set_control_reg_layered t fx g reg (BITMAP_ASSIGN64 guest_cr bits_to_update value) VMCS_MERGED;
    r ← cr_raise_write_events (set_g g s) reg visible_guest_cr; Ok (true, r.2).

Definition cr_guest_write s (reg : VMM_IA32_CONTROL_REGISTERS) (value : Z) : outcome (bool * machine) :=
  r ← visible (cr_cpu s).1 reg; let '(old, g) := r in
  g ← GCPU_SET_GUEST_VISIBLE_CONTROL_TO_L0_M g reg value;
  r ← vmexit_cr_access_is_gpf0 g; let '(gpf0, g) := r in
  if (gpf0 : bool) then refuse s g reg old
  else
    s ← (if unrestricted_guest_supported k
         then r ← gcpu_get_control_reg_layered t g IA32_CTRL_CR0 VMCS_MERGED; let '(cr0, g) := r in
              r ← gcpu_get_control_reg_layered t g IA32_CTRL_CR4 VMCS_MERGED; let '(cr4, g) := r in
              Ok (mk_cr (g, (cr_cpu s).2) cr0 cr4)
         else Ok (set_g g s));
    g ← gcpu_set_control_reg_layered t fx (cr_cpu s).1 reg value VMCS_MERGED;
    r ← cr_raise_write_events (set_g g s) reg value; let s := r.2 in
    match reg with
    | IA32_CTRL_CR4 =>
        if is_cr4_osxsave_supported hw_cpuid then
          r ← read_vmcs t (cr_cpu s).1 VMCS_MERGED VMCS_HOST_CR4; let '(host, g) := r in
          g ← write_vmcs t g VMCS_MERGED VMCS_HOST_CR4
                (Z.lor (Z.land host (u64 (Z.lnot CR4_OSXSAVE))) (Z.land value CR4_OSXSAVE));
          Ok (true, set_g g s)
        else Ok (true, s)
    | _ => Ok (true, s)
    end.

Definition cr_mov s (q : Z) : outcome (bool * machine) :=
  if report_uvmm_event UVMM_EVENT_CR_ACCESS then Ok (false, s) else
  cr_id ← rd lkup_cr (CrAccess_Number q);
  operand ← rd lkup_operand (CrAccess_MoveGpr q);
  let type := CrAccess_AccessType q in
  if type =? 0 then
    r ← gcpu_get_gp_reg_layered t (cr_cpu s).1 operand VMCS_MERGED; let '(cr_value, g) := r in
    cr_guest_write (set_g g s) cr_id cr_value
  else if type =? 1 then
    r ← visible (cr_cpu s).1 cr_id; let '(cr_value, g) := r in
    g ← gcpu_set_gp_reg_layered t g operand cr_value VMCS_MERGED; Ok (true, set_g g s)
  else Ok (true, s).

Definition vmexit_cr_access s : outcome machine :=
  r ← read_vmcs t (cr_cpu s).1 VMCS_MERGED VMCS_EXIT_INFO_QUALIFICATION; let '(q, g) := r in
  let s := set_g g s in
  let type := CrAccess_AccessType q in
  r ← (if (type =? 0) || (type =? 1) then cr_mov s q
       else if type =? 2 then cr_guest_update s IA32_CTRL_CR0 CR0_TASK_SWITCH q
       else cr_guest_update s IA32_CTRL_CR0 0xFFFF q);
  let '(status, s) := r in
  if (status : bool) then g ← gcpu_skip_guest_instruction t (cr_cpu s).1; Ok (set_g g s) else Ok s.
End Cr.
