(* ===== verification/VmexitCrSpec.v ===== *)
(** Properties of the control register exits (VmexitCr): the check of the new value as a function of what the
    guest sees, and what a refused and an accepted write leave behind. *)

From S2P Require Import Prelude VmmDefs PageWalker VmexitMsr VmcsFields Vmcs VmcsSw VmcsMsrList VmcsHw GuestCpu GuestCpuSpec GuestMsr.
From S2P Require Import GuestControl GuestControlSpec GuestInject VmexitCr.

(** ** Reads of a location that changes *)

(** What is returned was read twice in a row. *)
Lemma read_until_stable_twice fuel reads n v : read_until_stable fuel reads (S n) (reads n) = Ok v ->
  exists i, (n <= i)%nat /\ reads i = v /\ reads (S i) = v.
Proof.
  revert n. induction fuel as [|fuel IH]; intros n; cbn [read_until_stable]; destruct (Z.eqb_spec (reads n) (reads (S n))) as [E|E].
  - intros [= <-]. by exists n.
  - done.
  - intros [= <-]. by exists n.
  - intros Hr. destruct (IH _ Hr) as (i & Hi & A). exists i. split; [lia|done].
Qed.
(** A location that does not change is read once. *)
Lemma read_quiet fuel reads v : (forall n, reads n = v) -> gcpu_read_pdpt_entry_from_memory fuel reads = Ok v.
Proof. intros Hr. unfold gcpu_read_pdpt_entry_from_memory. destruct fuel; cbn [read_until_stable]; by rewrite !Hr, Z.eqb_refl. Qed.

(** ** What the guest sees *)

Definition cr_reads : list Z := [VMCS_EXIT_INFO_QUALIFICATION; VMCS_EXIT_INFO_INSTRUCTION_LENGTH; VMCS_GUEST_EFER].
Definition cr_writes : list Z :=
  [VMCS_GUEST_CR0; VMCS_GUEST_CR3; VMCS_GUEST_CR4; VMCS_CR0_MASK; VMCS_CR4_MASK; VMCS_CR0_READ_SHADOW; VMCS_CR4_READ_SHADOW;
   VMCS_GUEST_RSP; VMCS_GUEST_RIP; VMCS_HOST_CR4; VMCS_EXIT_INFO_IDT_VECTORING; VMCS_GUEST_INTERRUPTIBILITY;
   VMCS_ENTER_INTERRUPT_INFO; VMCS_ENTER_EXCEPTION_ERROR_CODE; VMCS_ENTER_INSTRUCTION_LENGTH].

(** The control registers that the guest sees, for the saved registers [l] and the VMCS [V]. *)
Definition slot (l : list Z) (i : Z) : Z := default 0 (l !! Z.to_nat i).
Definition cr_visible (l : list Z) (V : Z -> Z) (reg : VMM_IA32_CONTROL_REGISTERS) : Z :=
  match reg with
  | IA32_CTRL_CR0 => shadowed (V VMCS_GUEST_CR0) (V VMCS_CR0_MASK) (V VMCS_CR0_READ_SHADOW)
  | IA32_CTRL_CR2 => slot l CR2_SAVE_AREA
  | IA32_CTRL_CR3 => if INVALID_CR3_SAVED_VALUE =? slot l CR3_SAVE_AREA then V VMCS_GUEST_CR3 else slot l CR3_SAVE_AREA
  | IA32_CTRL_CR4 => shadowed (V VMCS_GUEST_CR4) (V VMCS_CR4_MASK) (V VMCS_CR4_READ_SHADOW)
  | IA32_CTRL_CR8 => slot l CR8_SAVE_AREA
  | UNSUPPORTED_CR => 0
  end.

(** The saved registers and the VMCS after the visible register was set. *)
Definition seen_gp (reg : VMM_IA32_CONTROL_REGISTERS) (v : Z) (l : list Z) : list Z :=
  match reg with
  | IA32_CTRL_CR2 => <[Z.to_nat CR2_SAVE_AREA := v]> l
  | IA32_CTRL_CR3 => <[Z.to_nat CR3_SAVE_AREA := v]> l
  | IA32_CTRL_CR8 => <[Z.to_nat CR8_SAVE_AREA := vmcs_hw_make_compliant_cr8 v]> l
  | _ => l
  end.
Definition seen_fields (reg : VMM_IA32_CONTROL_REGISTERS) (v : Z) (V : Z -> Z) : Z -> Z :=
  match reg with
  | IA32_CTRL_CR0 => fupd V VMCS_CR0_READ_SHADOW v
  | IA32_CTRL_CR4 => fupd V VMCS_CR4_READ_SHADOW v
  | _ => V
  end.

Lemma slot_insert l i v : 0 <= i < Z.of_nat (length l) -> slot (<[Z.to_nat i := v]> l) i = v.
Proof. intros Hi. unfold slot. by rewrite list_lookup_insert_eq by lia. Qed.
Lemma slot_other l i j v : i <> j -> 0 <= i -> 0 <= j -> slot (<[Z.to_nat i := v]> l) j = slot l j.
Proof. intros Hij Hi Hj. unfold slot. by rewrite list_lookup_insert_ne by lia. Qed.
Lemma rd_slot l i : 0 <= i < Z.of_nat (length l) -> rd l i = Ok (slot l i).
Proof.
  intros Hi. destruct (lookup_lt_is_Some_2 l (Z.to_nat i)) as [x Hx]; [lia|]. unfold slot. rewrite Hx. apply rd_ok; [lia|done].
Qed.

Section CrSpec.
Context {O : Type} `{VmcsLaws O} `{NmiWindow O} (t : list VMCS_ENCODING).
Hypothesis Hwrites : Forall (writes t) cr_writes.
Hypothesis Hreads : Forall (reads (O := O) t) cr_reads.
Implicit Types g : GUEST_CPU O.

Lemma cr_write_right f : among cr_writes f = true -> writes t f.
Proof. by apply among_Forall. Qed.
Lemma cr_read_right f : among cr_reads f = true -> reads (O := O) t f.
Proof. by apply among_Forall. Qed.
#[local] Hint Extern 1 (writes t _) => (apply cr_write_right; reflexivity) : vmcs.
#[local] Hint Extern 1 (reads t _) => (apply writes_reads, cr_write_right; reflexivity) : vmcs.
#[local] Hint Extern 1 (reads t _) => (apply cr_read_right; reflexivity) : vmcs.

(** The structure of the guest CPU: 18 registers are saved. *)
Definition saved (l : list Z) : Prop := length l = 18%nat.

Lemma saved_rd l i : saved l -> 0 <= i < 18 -> rd l i = Ok (slot l i).
Proof. intros Hl Hi. apply rd_slot. unfold saved in Hl. lia. Qed.
Lemma saved_wr l i v : saved l -> 0 <= i < 18 -> wr l i v = Ok (<[Z.to_nat i := v]> l).
Proof. intros Hl Hi. apply wr_ok. unfold saved in Hl. lia. Qed.

Lemma visible_ok g V reg : holds g V -> saved (gp g) ->
  exists g', visible t g reg = Ok (cr_visible (gp g) V reg, g') /\ holds g' V /\ frame g g'.
Proof.
  intros Hh Hl. unfold visible, gcpu_get_guest_visible_control_reg_layered, gcpu_get_control_reg_layered.
  destruct reg; cbn [cr_visible].
  - vread g1 A1 F1. vread g2 A2 F2. vread g3 A3 F3. exists g3. split; [done|]. split; [done|]. by apply (frame_trans g g1), (frame_trans g1 g2).
  - rewrite saved_rd, bind_Ok by done. exists g. split; [done|]. split; [done|]. apply frame_refl.
  - rewrite saved_rd, bind_Ok by done. case_match.
    + by apply read_vmcs_ok; [| |eauto with vmcs].
    + exists g. split; [done|]. split; [done|]. apply frame_refl.
  - vread g1 A1 F1. vread g2 A2 F2. vread g3 A3 F3. exists g3. split; [done|]. split; [done|]. by apply (frame_trans g g1), (frame_trans g1 g2).
  - rewrite saved_rd, bind_Ok by done. exists g. split; [done|]. split; [done|]. apply frame_refl.
  - exists g. split; [done|]. split; [done|]. apply frame_refl.
Qed.

(** Nothing but the VMCS, the saved registers and the flag of important events differs. *)
Definition flagged (a b : Z) : Prop := b = a \/ b = BIT_SET a GCPU_IMPORTANT_EVENT_OCCURED_FLAG.
Definition cr_frame g g' : Prop :=
  flagged (state_flags g) (state_flags g') /\
  g' = mk_gcpu (vmcs g') (gp g') (xmm g) (debug g) (state_flags g') (caching_flags g) (cached_activity_state g) (last_guest_level g)
         (next_guest_level g) (vmexit_setup g).
Lemma bit_set_twice a b : BIT_SET (BIT_SET a b) b = BIT_SET a b.
Proof. unfold BIT_SET. by rewrite <- Z.lor_assoc, Z.lor_diag. Qed.
Lemma cr_frame_trans g1 g2 g3 : cr_frame g1 g2 -> cr_frame g2 g3 -> cr_frame g1 g3.
Proof.
  intros [F1 E1] [F2 E2]. split.
  - unfold flagged in *. destruct F1 as [A|A], F2 as [B|B]; rewrite B, A, ?bit_set_twice; auto.
  - rewrite E2, E1. done.
Qed.
Lemma frame_cr g g' : frame g g' -> cr_frame g g'.
Proof. intros ->. split; [by left|done]. Qed.

Section Fixed.
Context (fx : VMCS_HW_FIXED).

Lemma set_one_ok g V reg v level : level <> VMCS_LEVEL_1 -> holds g V -> saved (gp g) -> fits 64 v ->
  exists g', gcpu_set_guest_visible_control_reg_layered t fx g reg v level = Ok g' /\ holds g' (seen_fields reg v V) /\
    gp g' = seen_gp reg v (gp g) /\ cr_frame g g'.
Proof.
  intros Hv Hh Hl Hf. unfold gcpu_set_guest_visible_control_reg_layered, gcpu_set_control_reg_layered.
  destruct reg; cbn [seen_fields seen_gp]; rewrite ?saved_wr, ?bind_Ok by done.
  - destruct (write_vmcs_ok t (set_state_flag GCPU_IMPORTANT_EVENT_OCCURED_FLAG g) V level VMCS_CR0_READ_SHADOW v Hv Hh
      ltac:(eauto with vmcs) Hf) as (g' & E & K & F). exists g'. split; [done|]. split; [done|]. rewrite F. split; [done|]. split; [by right|done].
  - eexists. split; [done|]. split; [done|]. split; [done|]. split; [by left|done].
  - eexists. split; [done|]. split; [done|]. split; [done|]. split; [by left|done].
  - destruct (write_vmcs_ok t g V level VMCS_CR4_READ_SHADOW v Hv Hh ltac:(eauto with vmcs) Hf) as (g' & E & K & F).
    exists g'. split; [done|]. split; [done|]. rewrite F. split; [done|]. split; [by left|done].
  - eexists. split; [done|]. split; [done|]. split; [done|]. split; [by left|done].
  - exists g. split; [done|]. split; [done|]. split; [done|]. split; [by left|by destruct g].
Qed.

Lemma fupd_twice V f a b x : fupd (fupd V f a) f b x = fupd V f b x.
Proof. unfold fupd. by destruct (x =? f). Qed.

(** The visible register is set. *)
Lemma set_visible_ok g V reg v : holds g V -> saved (gp g) -> fits 64 v ->
  exists g', GCPU_SET_GUEST_VISIBLE_CONTROL_TO_L0_M t fx g reg v = Ok g' /\ holds g' (seen_fields reg v V) /\
    gp g' = seen_gp reg v (gp g) /\ cr_frame g g'.
Proof.
  intros Hh Hl Hf. unfold GCPU_SET_GUEST_VISIBLE_CONTROL_TO_L0_M.
  assert (X : match reg with IA32_CTRL_CR0 | IA32_CTRL_CR4 => True | _ => False end ->
    exists g', (g1 ← gcpu_set_guest_visible_control_reg_layered t fx g reg v VMCS_LEVEL_0;
      gcpu_set_guest_visible_control_reg_layered t fx g1 reg v VMCS_MERGED) = Ok g' /\ holds g' (seen_fields reg v V) /\
      gp g' = seen_gp reg v (gp g) /\ cr_frame g g').
  { intros Hr. destruct (set_one_ok g V reg v VMCS_LEVEL_0 ltac:(done) Hh Hl Hf) as (g1 & E1 & K1 & P1 & F1). rewrite E1, bind_Ok.
    assert (gp g1 = gp g) as P by (rewrite P1; by destruct reg).
    destruct (set_one_ok g1 _ reg v VMCS_MERGED ltac:(done) K1 ltac:(by rewrite P) Hf) as (g2 & E2 & K2 & P2 & F2).
    exists g2. split; [done|]. split.
    - eapply holds_ext; [|exact K2]. intros f _. destruct reg; (done || apply fupd_twice).
    - split; [rewrite P2, P; done|]. by apply (cr_frame_trans g g1). }
  destruct reg; rewrite ?bind_Ok; (by apply X) || by apply set_one_ok.
Qed.
End Fixed.

(** ** A refused write *)

Lemma fit_lnot mask i : fits 64 mask -> 0 <= i < 64 -> Z.testbit (u64 (Z.lnot mask)) i = negb (Z.testbit mask i).
Proof. intros Hm Hi. rewrite u64_bits by lia. rewrite (proj2 (Z.ltb_lt i 64)) by lia. by rewrite Z.lnot_spec by lia. Qed.
Lemma shadowed_bit real mask shadow i : fits 64 real -> fits 64 mask -> 0 <= i ->
  Z.testbit (shadowed real mask shadow) i = if Z.testbit mask i then Z.testbit shadow i else Z.testbit real i.
Proof.
  intros Hr Hm Hi. unfold shadowed. rewrite Z.lor_spec, !Z.land_spec. destruct (Z.ltb_spec i 64) as [Hl|Hl].
  - rewrite fit_lnot by (done || lia). destruct (Z.testbit mask i); cbn [negb]; rewrite ?andb_true_r, ?andb_false_r, ?orb_false_r; done.
  - rewrite (bits_above mask 64), (bits_above real 64) by (unfold fits in *; lia). by rewrite andb_false_r.
Qed.
Lemma shadowed_again real mask shadow : fits 64 real -> fits 64 mask ->
  shadowed real mask (shadowed real mask shadow) = shadowed real mask shadow.
Proof.
  intros Hr Hm. apply Z.bits_inj'. intros i Hi. rewrite !shadowed_bit by done. by destruct (Z.testbit mask i).
Qed.
Lemma shadowed_fits real mask shadow : fits 64 real -> fits 64 mask -> fits 64 shadow -> fits 64 (shadowed real mask shadow).
Proof.
  intros Hr Hm Hs. unfold shadowed. apply fits_lor; [done| |]; apply fits_land; try done; [apply u64_range|unfold fits in Hm; lia].
Qed.

(** What was seen before is seen again. *)
Lemma seen_restored g V reg v r : holds g V -> saved (gp g) ->
  vmcs_hw_make_compliant_cr8 (slot (gp g) CR8_SAVE_AREA) = slot (gp g) CR8_SAVE_AREA ->
  let old := cr_visible (gp g) V reg in
  cr_visible (seen_gp reg old (seen_gp reg v (gp g))) (seen_fields reg old (seen_fields reg v V)) r = cr_visible (gp g) V r.
Proof.
  intros Hh Hl H8 old.
  assert (F : forall f, 0 <= f < VMCS_FIELD_COUNT -> fits 64 (V f)) by (intros; by apply (holds_fits g)).
  assert (Hlen : forall i, 0 <= i < 18 -> 0 <= i < Z.of_nat (length (gp g))) by (unfold saved in Hl; lia).
  destruct reg; cbn [seen_gp seen_fields]; rewrite ?list_insert_insert_eq; destruct r; cbn [cr_visible]; fread; try done;
    rewrite ?(slot_other _ _ _ _) by done; rewrite ?slot_insert by (apply Hlen; vm_compute; by split); try done.
  - by apply shadowed_again; apply F.
  - unfold old. cbn [cr_visible]. destruct (INVALID_CR3_SAVED_VALUE =? slot (gp g) CR3_SAVE_AREA) eqn:E; [by case_match|by rewrite E].
  - by apply shadowed_again; apply F.
Qed.

Lemma seen_saved reg v l : saved l -> saved (seen_gp reg v l).
Proof. unfold saved. intros Hl. destruct reg; cbn [seen_gp]; by rewrite ?length_insert. Qed.
Lemma seen_other reg v V f : f <> VMCS_CR0_READ_SHADOW -> f <> VMCS_CR4_READ_SHADOW -> seen_fields reg v V f = V f.
Proof. intros A B. destruct reg; cbn [seen_fields]; by rewrite ?fupd_ne. Qed.
Lemma visible_fits g V reg : holds g V -> Forall (fits 64) (gp g) -> fits 64 (cr_visible (gp g) V reg).
Proof.
  intros Hh Hl. assert (F : forall f, 0 <= f < VMCS_FIELD_COUNT -> fits 64 (V f)) by (intros; by apply (holds_fits g)).
  assert (S : forall i, fits 64 (slot (gp g) i)).
  { intros i. unfold slot. destruct (gp g !! Z.to_nat i) as [x|] eqn:E; [|done]. by apply (proj1 (Forall_lookup _ _) Hl _ _ E). }
  destruct reg; cbn [cr_visible]; try (by apply S); try (apply shadowed_fits; by apply F); [case_match; [by apply F|by apply S]|done].
Qed.

Lemma inject_rights : Forall (writes t) inject_writes.
Proof. repeat constructor; apply cr_write_right; reflexivity. Qed.

(** #GP(0) is injected when no other event is being delivered. *)
Lemma gp0_ok (s : GUEST_CPU O * Z) V : holds s.1 V -> Valid (u32 (V VMCS_EXIT_INFO_IDT_VECTORING)) = false ->
  exists s' V', gcpu_inject_gp0 t s = Ok (true, s') /\ holds s'.1 V' /\ sframe s s' /\
    carries V' IA32_EXCEPTION_VECTOR_GENERAL_PROTECTION_FAULT 0 /\
    (forall f, f <> VMCS_ENTER_INTERRUPT_INFO -> f <> VMCS_ENTER_EXCEPTION_ERROR_CODE -> V' f = V f).
Proof.
  intros Hh Hv. unfold gcpu_inject_gp0.
  destruct (rd_field_ok t s V VMCS_EXIT_INFO_INSTRUCTION_LENGTH Hh ltac:(eauto with vmcs)) as (s1 & -> & K1 & F1).
  rewrite bind_Ok. cbv iota.
  set (i := make_info IA32_EXCEPTION_VECTOR_GENERAL_PROTECTION_FAULT InterruptTypeHardwareException true).
  assert (Ha : allowed_now (u32 (V VMCS_GUEST_INTERRUPTIBILITY)) i = true).
  { unfold allowed_now. by destruct (BlockStackSegment _). }
  destruct (inject_exception_ok t inject_rights s1 V i (u32 (V VMCS_EXIT_INFO_INSTRUCTION_LENGTH)) 0 K1 ltac:(done) ltac:(done) eq_refl Hv Ha)
    as (s2 & E2 & K2 & F2). exists s2, (injected V i 0). split; [exact E2|]. split; [done|]. split; [by apply (sframe_trans s s1)|].
  split; [exact (injected_carries V i 0 eq_refl)|]. intros. by apply injected_other.
Qed.

(** ** The verdict *)

Section Verdict.
Context (k : VMCS_HW_CONSTRAINTS) (hw_cpuid : Z -> Z -> CPUID_PARAMS) (hmm_hpa_to_hva : Z -> option Z) (m : msr_mem).
Context (gpm_gpa_to_hva : Z -> option Z) (mem : Z -> nat -> Z) (fuel : nat) (high_mask : Z) (garbage : list Z).
(** The processor saves EFER in the VMCS, and nobody writes the directory while it is read. *)
Hypothesis efer_saved : Exit.SaveEfer (may1_vm_exit_ctrl k) = true.
Context (content : Z -> Z).
Hypothesis quiet : forall a n, mem a n = content a.

(** The directory of CR3; what was on the stack when it is not in guest memory. *)
Definition pdpt_of (cr3 : Z) : list Z :=
  match gpm_gpa_to_hva (Z.land cr3 (u64 (Z.lnot 31))) with
  | None => garbage
  | Some a => [content a; content (a + 8); content (a + 8 + 8); content (a + 8 + 8 + 8)]
  end.

(** The conditions that the check computes. *)
Definition cr_refused (cr0 cr3 cr4 efer : Z) : bool :=
  existsb id
    [Cr0.PG cr0 && negb (Cr0.PE cr0);
     Cr0.NW cr0 && negb (Cr0.CD cr0);
     Cr4.reserved cr4; Cr4.VMXE cr4; Cr4.SMXE cr4;
     Cr4.OSXSAVE cr4 && negb (is_cr4_osxsave_supported hw_cpuid);
     Cr4.SMEP cr4 && negb (is_cr4_smep_supported hw_cpuid);
     Cr4.FSGSBASE cr4 && negb (is_fsgsbase_supported hw_cpuid);
     EFER_bit_LME efer && negb (Cr4.PAE cr4);
     Cr4.PCIDE cr4 && negb (is_pcid_supported hw_cpuid && EFER_bit_LMA efer && (Z.land cr3 0x0FFF =? 0) && Cr0.PG cr0);
     Cr0.PG cr0 && Cr4.PAE cr4 && negb (EFER_bit_LME efer) &&
       negb (local_pdpt_valid high_mask efer (pdpt_of cr3))].

Lemma efer_ok g V : holds g V -> exists g', gcpu_get_msr_reg t k hmm_hpa_to_hva g m IA32_VMM_MSR_EFER = Ok (V VMCS_GUEST_EFER, g') /\
  holds g' V /\ frame g g'.
Proof.
  intros Hh. unfold gcpu_get_msr_reg, gcpu_get_msr_reg_layered, gcpu_get_msr_reg_internal_layered.
  change (rd g_msr_2_vmcs IA32_VMM_MSR_EFER) with (Ok VMCS_GUEST_EFER). rewrite bind_Ok.
  assert (Es : saved_in_vmcs k VMCS_GUEST_EFER = true) by (unfold saved_in_vmcs; rewrite efer_saved; reflexivity). rewrite Es.
  by apply read_vmcs_ok; [| |eauto with vmcs].
Qed.

Lemma pdpt_ok g V : holds g V -> saved (gp g) ->
  exists b g', gcpu_get_32_bit_pdpt t gpm_gpa_to_hva mem fuel garbage g = Ok (b, pdpt_of (cr_visible (gp g) V IA32_CTRL_CR3), g') /\
    holds g' V /\ frame g g'.
Proof.
  intros Hh Hl. unfold gcpu_get_32_bit_pdpt.
  destruct (visible_ok g V IA32_CTRL_CR3 Hh Hl) as (g1 & -> & K1 & F1). rewrite bind_Ok. cbv iota.
  assert (L1 : saved (gp g1)) by by rewrite F1.
  assert (X : exists g2, (if negb (BIT_GET (state_flags g1) GCPU_UNRESTRICTED_GUEST_FLAG)
       then r ← visible t g1 IA32_CTRL_CR0; r ← visible t r.2 IA32_CTRL_CR0; Ok r.2 else Ok g1) = Ok g2 /\ holds g2 V /\ frame g1 g2).
  { case_match; [|exists g1; split; [done|]; split; [done|apply frame_refl]].
    destruct (visible_ok g1 V IA32_CTRL_CR0 K1 L1) as (g2 & -> & K2 & F2). rewrite bind_Ok. cbn [snd].
    destruct (visible_ok g2 V IA32_CTRL_CR0 K2 ltac:(by rewrite F2)) as (g3 & -> & K3 & F3). rewrite bind_Ok.
    exists g3. split; [done|]. split; [done|]. by apply (frame_trans g1 g2). }
  destruct X as (g2 & -> & K2 & F2). rewrite bind_Ok.
  destruct (visible_ok g2 V IA32_CTRL_CR4 K2 ltac:(by rewrite F2)) as (g3 & -> & K3 & F3). rewrite bind_Ok. cbv zeta. cbn [snd].
  assert (frame g g3) by by apply (frame_trans g g1), (frame_trans g1 g2).
  unfold pdpt_of. destruct (gpm_gpa_to_hva _) as [a|]; [|by exists false, g3].
  exists true, g3. change (Z.to_nat PW_NUM_OF_PDPT_ENTRIES_IN_32_BIT_MODE) with 4%nat. cbn [read_entries].
  rewrite !(read_quiet fuel (mem _) (content _)) by (intros; apply quiet). by rewrite !bind_Ok.
Qed.

Lemma pae_ok g V cr0 cr4 efer : holds g V -> saved (gp g) -> efer = V VMCS_GUEST_EFER ->
  exists g', pae_gpf0 t k hmm_hpa_to_hva m gpm_gpa_to_hva mem fuel high_mask garbage cr0 cr4 efer g =
    Ok (Cr0.PG cr0 && Cr4.PAE cr4 && negb (EFER_bit_LME efer) &&
        negb (local_pdpt_valid high_mask efer (pdpt_of (cr_visible (gp g) V IA32_CTRL_CR3))), g') /\
    holds g' V /\ frame g g'.
Proof.
  intros Hh Hl ->. unfold pae_gpf0. destruct (Cr0.PG cr0 && Cr4.PAE cr4 && negb (EFER_bit_LME (V VMCS_GUEST_EFER))).
  - destruct (pdpt_ok g V Hh Hl) as (b & g1 & -> & K1 & F1). rewrite bind_Ok. cbv iota.
    destruct (efer_ok g1 V K1) as (g2 & -> & K2 & F2). rewrite bind_Ok. cbv iota. exists g2. split; [done|]. split; [done|].
    by apply (frame_trans g g1).
  - exists g. split; [done|]. split; [done|]. apply frame_refl.
Qed.

(** The check is a function of what the guest sees. *)
Definition verdict (l : list Z) (V : Z -> Z) : bool :=
  cr_refused (cr_visible l V IA32_CTRL_CR0) (cr_visible l V IA32_CTRL_CR3) (cr_visible l V IA32_CTRL_CR4) (V VMCS_GUEST_EFER).

(** Why a set of register values is refused, in terms of the bits of the registers, of CPUID and of the four
    entries of the page directory. *)
Inductive refusal (cr0 cr3 cr4 efer : Z) : Prop :=
| paging_without_protection : Z.testbit cr0 31 = true -> Z.testbit cr0 0 = false -> refusal cr0 cr3 cr4 efer
| write_through_without_cache_disable : Z.testbit cr0 29 = true -> Z.testbit cr0 30 = false -> refusal cr0 cr3 cr4 efer
| reserved_bit i : i = 11 \/ i = 12 \/ i = 15 \/ i = 19 \/ 21 <= i < 32 -> Z.testbit cr4 i = true -> refusal cr0 cr3 cr4 efer
| vmx_is_hidden : Z.testbit cr4 13 = true -> refusal cr0 cr3 cr4 efer
| smx_is_hidden : Z.testbit cr4 14 = true -> refusal cr0 cr3 cr4 efer
| no_xsave : Z.testbit cr4 18 = true -> Z.testbit (m_rcx (hw_cpuid 1 0)) 26 = false -> refusal cr0 cr3 cr4 efer
| no_smep : Z.testbit cr4 20 = true -> Z.testbit (m_rbx (hw_cpuid 7 0)) 7 = false -> refusal cr0 cr3 cr4 efer
| no_fsgsbase : Z.testbit cr4 16 = true -> Z.testbit (m_rbx (hw_cpuid 7 0)) 0 = false -> refusal cr0 cr3 cr4 efer
| long_mode_without_pae : Z.testbit efer 8 = true -> Z.testbit cr4 5 = false -> refusal cr0 cr3 cr4 efer
| no_pcid : Z.testbit cr4 17 = true -> Z.testbit (m_rcx (hw_cpuid 1 0)) 17 = false -> refusal cr0 cr3 cr4 efer
| pcid_outside_long_mode : Z.testbit cr4 17 = true -> Z.testbit efer 10 = false -> refusal cr0 cr3 cr4 efer
| pcid_in_cr3 : Z.testbit cr4 17 = true -> cr3 mod 2 ^ 12 <> 0 -> refusal cr0 cr3 cr4 efer
| pcid_without_paging : Z.testbit cr4 17 = true -> Z.testbit cr0 31 = false -> refusal cr0 cr3 cr4 efer
| bad_directory e : Z.testbit cr0 31 = true -> Z.testbit cr4 5 = true -> Z.testbit efer 8 = false -> e ∈ pdpt_of cr3 ->
    Z.testbit e 0 = true ->
    Z.land ((e / 2 ^ 32) mod 2 ^ 20) high_mask <> 0 \/ (e / 2 ^ 52) mod 2 ^ 11 <> 0 \/ Z.testbit e 63 = true \/
      Z.testbit e 1 = true \/ Z.testbit e 2 = true -> refusal cr0 cr3 cr4 efer.

Lemma cr4_reserved_spec cr4 : Cr4.reserved cr4 = true <-> exists i, (i = 11 \/ i = 12 \/ i = 15 \/ i = 19 \/ 21 <= i < 32) /\ Z.testbit cr4 i = true.
Proof.
  unfold Cr4.reserved. rewrite negb_true_iff, Z.eqb_neq. split.
  - intros Hne. destruct (decide (Exists (fun i => Z.testbit cr4 i = true) ([11; 12; 15; 19] ++ seqZ 21 11))) as [Hx|Hx].
    + apply Exists_exists in Hx as (i & Hi & Ht). exists i. split; [|done]. apply elem_of_app in Hi as [Hi|Hi%elem_of_seqZ]; [|lia].
      rewrite !elem_of_cons, elem_of_nil in Hi. lia.
    + exfalso. apply Hne, Z.bits_inj'. intros i Hi. rewrite Z.land_spec, Z.bits_0. apply andb_false_iff.
      destruct (Z.testbit cr4 i) eqn:Et; [right|by left]. destruct (Z.testbit 0xFFE89800 i) eqn:Em; [|done]. exfalso. apply Hx, Exists_exists.
      exists i. split; [|done]. destruct (decide (i < 32)); [|by rewrite (bits_above 0xFFE89800 32) in Em by lia].
      assert (Hall : Forall (fun i => Z.testbit 0xFFE89800 i = true -> i ∈ [11; 12; 15; 19] ++ seqZ 21 11) (seqZ 0 32)).
      { apply (bool_decide_unpack _). vm_compute. exact I. }
      by apply (proj1 (Forall_forall _ _) Hall i); [apply elem_of_seqZ; lia|].
  - intros (i & Hi & Ht) Hz. assert (Hb : Z.testbit (Z.land cr4 0xFFE89800) i = false) by by rewrite Hz, Z.bits_0.
    rewrite Z.land_spec, Ht in Hb. cbn [andb] in Hb.
    assert (Hall : Forall (fun i => Z.testbit 0xFFE89800 i = true) ([11; 12; 15; 19] ++ seqZ 21 11)).
    { apply (bool_decide_unpack _). vm_compute. exact I. }
    rewrite (proj1 (Forall_forall _ _) Hall i) in Hb; [done|]. rewrite elem_of_app, !elem_of_cons, elem_of_nil, elem_of_seqZ. lia.
Qed.

Lemma directory_spec efer l : EFER_bit_LME efer = false ->
  local_pdpt_valid high_mask efer l = false <->
  exists e, e ∈ l /\ Z.testbit e 0 = true /\
    (Z.land ((e / 2 ^ 32) mod 2 ^ 20) high_mask <> 0 \/ (e / 2 ^ 52) mod 2 ^ 11 <> 0 \/ Z.testbit e 63 = true \/
      Z.testbit e 1 = true \/ Z.testbit e 2 = true).
Proof.
  intros Hl. unfold local_pdpt_valid. rewrite Hl. unfold pw_are_reserved_bits_in_pdpte_cleared, high_reserved, e_addr_base_high, e_avl_or_res,
    e_exb_or_res, e_writable, e_user, bits. cbn [negb].
  assert (E : forall e lo n, 0 <= lo -> 0 <= n -> Z.land (Z.shiftr e lo) (Z.ones n) = (e / 2 ^ lo) mod 2 ^ n)
    by (intros; by rewrite Z.land_ones, Z.shiftr_div_pow2 by lia).
  induction l as [|e l IH]; cbn [forallb]; [split; [done|intros (e & He & _); by apply elem_of_nil in He]|].
  rewrite andb_false_iff, IH. rewrite !E by lia. clear IH. split.
  - intros [He|(x & Hx & Hr)]; [|exists x; by split; [right|]]. exists e. split; [left|].
    apply orb_false_iff in He as [Hp He]. apply negb_false_iff in Hp. split; [done|].
    destruct (Z.eqb_spec (Z.land ((e / 2 ^ 32) mod 2 ^ 20) high_mask) 0); [|by left]. cbn [negb] in He. right. apply negb_false_iff in He.
    rewrite !orb_true_iff, negb_true_iff, Z.eqb_neq in He. tauto.
  - intros (x & [->|Hx]%elem_of_cons & Hp & Hr); [left|right; by exists x]. rewrite Hp. cbn [negb orb].
    destruct (Z.eqb_spec (Z.land ((e / 2 ^ 32) mod 2 ^ 20) high_mask) 0) as [E0|]; [|done]. cbn [negb]. apply negb_false_iff.
    rewrite !orb_true_iff, negb_true_iff, Z.eqb_neq. tauto.
Qed.

Lemma cr_refused_spec cr0 cr3 cr4 efer : cr_refused cr0 cr3 cr4 efer = true <-> refusal cr0 cr3 cr4 efer.
Proof.
  unfold cr_refused. cbn [existsb]. unfold id. rewrite !orb_true_iff, !andb_true_iff, !negb_true_iff, cr4_reserved_spec.
  unfold Cr0.PG, Cr0.PE, Cr0.NW, Cr0.CD, Cr4.VMXE, Cr4.SMXE, Cr4.OSXSAVE, Cr4.SMEP, Cr4.FSGSBASE, Cr4.PCIDE, Cr4.PAE.
  unfold is_cr4_osxsave_supported, is_cr4_smep_supported, is_fsgsbase_supported, is_pcid_supported.
  change 0x0FFF with (Z.ones 12). rewrite Z.land_ones by lia. rewrite !andb_false_iff, Z.eqb_neq. split.
  - intros [[? ?]|[[? ?]|[(i & ? & ?)|[?|[?|[[? ?]|[[? ?]|[[? ?]|[[? ?]|[[? Hp]|[[[[? ?] Hl] Hd]|?]]]]]]]]]]].
    + by apply paging_without_protection.
    + by apply write_through_without_cache_disable.
    + by apply (reserved_bit _ _ _ _ i).
    + by apply vmx_is_hidden.
    + by apply smx_is_hidden.
    + by apply no_xsave.
    + by apply no_smep.
    + by apply no_fsgsbase.
    + by apply long_mode_without_pae.
    + destruct Hp as [[[?|?]|?]|?]; [by apply no_pcid|by apply pcid_outside_long_mode|by apply pcid_in_cr3|by apply pcid_without_paging].
    + apply directory_spec in Hd as (e & ? & ? & ?); [|done]. by apply (bad_directory _ _ _ _ e).
    + done.
  - intros [| |i| | | | | | | | | | |e ? ? ? ? ? ?]; try tauto.
    + right. right. left. by exists i.
    + do 10 right. left. split; [done|]. apply directory_spec; [done|]. by exists e.
Qed.

Lemma gpf0_ok g V : holds g V -> saved (gp g) ->
  exists g', vmexit_cr_access_is_gpf0 t k hw_cpuid hmm_hpa_to_hva m gpm_gpa_to_hva mem fuel high_mask garbage g =
    Ok (verdict (gp g) V, g') /\ holds g' V /\ frame g g'.
Proof.
  intros Hh Hl. unfold vmexit_cr_access_is_gpf0, verdict, cr_refused. cbn [existsb]. unfold id.
  destruct (visible_ok g V IA32_CTRL_CR0 Hh Hl) as (g1 & -> & K1 & F1). rewrite bind_Ok. cbv iota.
  set (cr0 := cr_visible (gp g) V IA32_CTRL_CR0). destruct (Cr0.PG cr0 && negb (Cr0.PE cr0)); [by exists g1|].
  destruct (Cr0.NW cr0 && negb (Cr0.CD cr0)); [by exists g1|]. cbn [orb].
  destruct (visible_ok g1 V IA32_CTRL_CR4 K1 ltac:(by rewrite F1)) as (g2 & -> & K2 & F2). rewrite bind_Ok. cbv iota.
  assert (F : frame g g2) by by apply (frame_trans g g1). rewrite (f_equal gp F1). cbn [gp set_vmcs].
  set (cr4 := cr_visible (gp g) V IA32_CTRL_CR4).
  destruct (Cr4.reserved cr4); [by exists g2|]. destruct (Cr4.VMXE cr4); [by exists g2|]. destruct (Cr4.SMXE cr4); [by exists g2|]. cbn [orb].
  destruct (Cr4.OSXSAVE cr4 && negb (is_cr4_osxsave_supported hw_cpuid)); [by exists g2|].
  destruct (Cr4.SMEP cr4 && negb (is_cr4_smep_supported hw_cpuid)); [by exists g2|].
  destruct (Cr4.FSGSBASE cr4 && negb (is_fsgsbase_supported hw_cpuid)); [by exists g2|]. cbn [orb].
  destruct (efer_ok g2 V K2) as (g3 & -> & K3 & F3). rewrite bind_Ok. cbv iota.
  assert (F' : frame g g3) by by apply (frame_trans g g2). set (efer := V VMCS_GUEST_EFER).
  destruct (EFER_bit_LME efer && negb (Cr4.PAE cr4)); [by exists g3|]. cbn [orb].
  assert (P3 : gp g3 = gp g) by by rewrite F'.
  assert (X : forall g4, holds g4 V -> frame g g4 -> exists g',
    pae_gpf0 t k hmm_hpa_to_hva m gpm_gpa_to_hva mem fuel high_mask garbage cr0 cr4 efer g4 =
    Ok (Cr0.PG cr0 && Cr4.PAE cr4 && negb (EFER_bit_LME efer) &&
        negb (local_pdpt_valid high_mask efer (pdpt_of (cr_visible (gp g) V IA32_CTRL_CR3))) || false, g') /\
    holds g' V /\ frame g g').
  { intros g4 K4 F4. assert (P4 : gp g4 = gp g) by by rewrite F4.
    destruct (pae_ok g4 V cr0 cr4 efer K4 ltac:(by rewrite P4) eq_refl) as (g' & -> & K' & G'). rewrite P4, orb_false_r.
    exists g'. split; [done|]. split; [done|]. by apply (frame_trans g g4). }
  destruct (Cr4.PCIDE cr4); [|by apply X]. cbn [andb].
  destruct (is_pcid_supported hw_cpuid); [|by exists g3]. destruct (EFER_bit_LMA efer); [|by exists g3]. cbn [negb andb].
  destruct (visible_ok g3 V IA32_CTRL_CR3 K3 ltac:(by rewrite P3)) as (g4 & -> & K4 & F4). rewrite bind_Ok, P3. cbv iota.
  assert (F'' : frame g g4) by by apply (frame_trans g g3).
  destruct (_ =? 0); [|by exists g4]. destruct (Cr0.PG cr0); [|by exists g4]. cbn [negb andb orb]. by apply X.
Qed.

(** ** The handlers *)

Context (fx : VMCS_HW_FIXED) (event_raise : CR_WRITE_EVENT -> Z -> cr_machine O -> outcome (bool * cr_machine O)).
Implicit Types s : cr_machine O.

(** The fields that a refused write may change. *)
Definition refused_fields : list Z :=
  [VMCS_CR0_READ_SHADOW; VMCS_CR4_READ_SHADOW; VMCS_ENTER_INTERRUPT_INFO; VMCS_ENTER_EXCEPTION_ERROR_CODE].

(** The guest got #GP(0) and sees the registers it had: [g], [V] before, [s'], [V'] after. *)
Definition faulted g V (s' : cr_machine O) V' : Prop :=
  (forall r, cr_visible (gp (cr_cpu s').1) V' r = cr_visible (gp g) V r) /\
  carries V' IA32_EXCEPTION_VECTOR_GENERAL_PROTECTION_FAULT 0 /\
  (forall f, among refused_fields f = false -> V' f = V f).

Lemma refuse_ok s g0 g V reg v : holds g0 V -> saved (gp g0) ->
  vmcs_hw_make_compliant_cr8 (slot (gp g0) CR8_SAVE_AREA) = slot (gp g0) CR8_SAVE_AREA -> Forall (fits 64) (gp g0) ->
  Valid (u32 (V VMCS_EXIT_INFO_IDT_VECTORING)) = false ->
  holds g (seen_fields reg v V) -> gp g = seen_gp reg v (gp g0) ->
  exists s' V', refuse t fx s g reg (cr_visible (gp g0) V reg) = Ok (false, s') /\ holds (cr_cpu s').1 V' /\
    faulted g0 V s' V' /\ (cr_cpu s').2 = (cr_cpu s).2 /\ cr_frame g (cr_cpu s').1 /\ ept_cr0 s' = ept_cr0 s /\ ept_cr4 s' = ept_cr4 s.
Proof.
  intros Hh Hl H8 Hf Hv Hg Hp. unfold refuse. set (old := cr_visible (gp g0) V reg).
  destruct (set_visible_ok fx g _ reg old Hg ltac:(rewrite Hp; by apply seen_saved) ltac:(by apply visible_fits))
    as (g1 & -> & K1 & P1 & F1). rewrite bind_Ok.
  assert (O1 : forall f, f <> VMCS_CR0_READ_SHADOW -> f <> VMCS_CR4_READ_SHADOW -> seen_fields reg old (seen_fields reg v V) f = V f).
  { intros f A B. by rewrite !seen_other. }
  destruct (gp0_ok (g1, (cr_cpu s).2) _ K1) as (s2 & V2 & -> & K2 & (F2 & G2) & C2 & R2); [by rewrite O1|].
  rewrite bind_Ok. exists (set_cpu s2 s), V2. split; [done|]. split; [done|]. split.
  - split; [|split; [done|]].
    + intros r. assert (P2 : gp s2.1 = gp g1) by by rewrite F2. cbn [cr_cpu set_cpu]. rewrite P2, P1, Hp.
      rewrite <- (seen_restored g0 V reg v r Hh Hl H8). fold old. destruct r; cbn [cr_visible]; by rewrite ?R2.
    + intros f Hn. unfold among in Hn. cbn [existsb refused_fields] in Hn. rewrite !orb_false_iff, !Z.eqb_neq in Hn.
      destruct Hn as (N1 & N2 & N3 & N4 & _). by rewrite R2, O1.
  - split; [exact G2|]. split; [|done]. apply (cr_frame_trans g g1); [done|]. by apply frame_cr.
Qed.

(** The register that a MOV names. *)
Definition operand_value (l : list Z) (V : Z -> Z) (q : Z) : Z :=
  let r := default 0 (lkup_operand !! Z.to_nat (CrAccess_MoveGpr q)) in
  if r =? IA32_REG_RSP then V VMCS_GUEST_RSP else slot l r.

Lemma land_ones_range a n : 0 <= n -> 0 <= Z.land a (Z.ones n) < 2 ^ n.
Proof. intros Hn. rewrite Z.land_ones by done. apply Z.mod_pos_bound. lia. Qed.
Lemma operands_small : Forall (fun r => 0 <= r < 16) lkup_operand.
Proof. repeat (constructor; [vm_compute; by split|]). constructor. Qed.
Lemma operand_reg q : exists r, rd lkup_operand (CrAccess_MoveGpr q) = Ok r /\
  r = default 0 (lkup_operand !! Z.to_nat (CrAccess_MoveGpr q)) /\ 0 <= r < 16.
Proof.
  pose proof (land_ones_range (Z.shiftr q 8) 4 ltac:(done)) as R. change (Z.land (Z.shiftr q 8) (Z.ones 4)) with (CrAccess_MoveGpr q) in R.
  destruct (lookup_lt_is_Some_2 lkup_operand (Z.to_nat (CrAccess_MoveGpr q))) as [r Hr].
  { change (length lkup_operand) with 16%nat. change (2 ^ 4) with 16 in R. lia. }
  exists r. rewrite Hr. split; [apply rd_ok; [lia|done]|]. split; [done|]. exact (proj1 (Forall_lookup _ _) operands_small _ _ Hr).
Qed.

Lemma operand_ok g V q r : holds g V -> saved (gp g) -> rd lkup_operand (CrAccess_MoveGpr q) = Ok r ->
  exists g', gcpu_get_gp_reg_layered t g r VMCS_MERGED = Ok (operand_value (gp g) V q, g') /\ holds g' V /\ frame g g'.
Proof.
  intros Hh Hl Er. destruct (operand_reg q) as (r' & E' & D & R). rewrite Er in E'. injection E' as <-.
  unfold gcpu_get_gp_reg_layered, gcpu_get_native_gp_reg_layered, operand_value. rewrite <- D.
  destruct (Z.eqb_spec r IA32_REG_RSP) as [->|N].
  - by apply read_vmcs_ok; [| |eauto with vmcs].
  - rewrite (proj2 (Z.eqb_neq r IA32_REG_RIP)), (proj2 (Z.eqb_neq r IA32_REG_RFLAGS)) by (unfold IA32_REG_RIP, IA32_REG_RFLAGS; lia).
    rewrite saved_rd, bind_Ok by (done || lia). exists g. split; [done|]. split; [done|]. apply frame_refl.
Qed.

Abbreviation access := (vmexit_cr_access t k fx hw_cpuid hmm_hpa_to_hva m gpm_gpa_to_hva mem fuel high_mask garbage event_raise).
Abbreviation write := (cr_guest_write t k fx hw_cpuid hmm_hpa_to_hva m gpm_gpa_to_hva mem fuel high_mask garbage event_raise).

(** What follows the access. *)
Definition finish (r : bool * cr_machine O) : outcome (cr_machine O) :=
  if r.1 then g ← gcpu_skip_guest_instruction t (cr_cpu r.2).1; Ok (set_g g r.2) else Ok r.2.

(** A MOV to a control register, up to the write. *)
Lemma mov_to_ok s V reg : holds (cr_cpu s).1 V -> saved (gp (cr_cpu s).1) ->
  let q := V VMCS_EXIT_INFO_QUALIFICATION in
  CrAccess_AccessType q = 0 -> rd lkup_cr (CrAccess_Number q) = Ok reg ->
  exists g1, access s = (r ← write (set_g g1 s) reg (operand_value (gp (cr_cpu s).1) V q); finish r) /\ holds g1 V /\ frame (cr_cpu s).1 g1.
Proof.
  intros Hh Hl q Ht Hr. unfold vmexit_cr_access. vread g1 A1 F1. fold q. rewrite Ht. cbn [Z.eqb orb].
  unfold cr_mov. change (report_uvmm_event UVMM_EVENT_CR_ACCESS) with false. cbv iota. rewrite Hr, bind_Ok.
  destruct (operand_reg q) as (r & Er & _). rewrite Er, bind_Ok, Ht. cbn [Z.eqb].
  destruct (operand_ok g1 V q r A1 ltac:(by rewrite F1) Er) as (g2 & E2 & A2 & F2). unfold set_g, set_cpu in *. cbn [cr_cpu fst snd].
  rewrite E2, bind_Ok. cbv iota. cbn [cr_cpu fst snd ept_cr0 ept_cr4]. assert (P1 : gp g1 = gp (cr_cpu s).1) by by rewrite F1. rewrite P1.
  exists g2. split; [|split; [done|by apply (frame_trans _ g1)]]. unfold finish, set_g, set_cpu.
  destruct (write _ _ _) as [[b s1]| |]; by rewrite ?bind_Ok.
Qed.

(** The state of a guest CPU: its registers are 64 bits wide, and CR8 has its four bits. *)
Definition registers_ok (l : list Z) : Prop :=
  saved l /\ Forall (fits 64) l /\ vmcs_hw_make_compliant_cr8 (slot l CR8_SAVE_AREA) = slot l CR8_SAVE_AREA.

Lemma operand_fits g V q : holds g V -> Forall (fits 64) (gp g) -> fits 64 (operand_value (gp g) V q).
Proof.
  intros Hh Hl. unfold operand_value. case_match; [by apply (holds_fits g)|]. unfold slot.
  destruct (gp g !! _) as [x|] eqn:E; [|done]. by apply (proj1 (Forall_lookup _ _) Hl _ _ E).
Qed.

(** C6. A MOV to a control register that would leave the guest with values that the handler refuses (as seen
    through the masks) raises #GP(0) and nothing else: every control register that the guest sees is the one
    it had, the real registers, RIP and all other fields of the VMCS are unchanged, and no event is raised.
    The handler refuses: PG without PE; NW without CD; bits 11, 12, 15, 19 and 21 to 31 of CR4; VMXE and SMXE
    (features that the hypervisor hides); OSXSAVE, SMEP, FSGSBASE and PCIDE where CPUID does not report
    them; EFER.LME without PAE; PCIDE outside long mode, without paging, or with a process identifier in CR3;
    and, with PAE paging, a present directory entry with a reserved bit. The processor's own list is
    different: it also refuses the upper halves of CR0 and CR4 (upper_half_accepted), and it accepts SMXE, and a CR3
    with an identifier once PCIDE is set (process_identifier_refused). No event delivery is under way. *)
Theorem cr_write_refused s V reg :
  holds (cr_cpu s).1 V -> registers_ok (gp (cr_cpu s).1) -> Valid (u32 (V VMCS_EXIT_INFO_IDT_VECTORING)) = false ->
  let q := V VMCS_EXIT_INFO_QUALIFICATION in
  CrAccess_AccessType q = 0 -> rd lkup_cr (CrAccess_Number q) = Ok reg ->
  let value := operand_value (gp (cr_cpu s).1) V q in
  let seen r := cr_visible (seen_gp reg value (gp (cr_cpu s).1)) (seen_fields reg value V) r in
  refusal (seen IA32_CTRL_CR0) (seen IA32_CTRL_CR3) (seen IA32_CTRL_CR4) (V VMCS_GUEST_EFER) ->
  exists s' V', access s = Ok s' /\ holds (cr_cpu s').1 V' /\ faulted (cr_cpu s).1 V s' V' /\
    (cr_cpu s').2 = (cr_cpu s).2 /\ ept_cr0 s' = ept_cr0 s /\ ept_cr4 s' = ept_cr4 s.
Proof.
  intros Hh (Hl & Hf & H8) Hv q Ht Hr value seen Hd.
  assert (Hd' : verdict (seen_gp reg value (gp (cr_cpu s).1)) (seen_fields reg value V) = true).
  { unfold verdict. apply cr_refused_spec. by rewrite (seen_other reg value V VMCS_GUEST_EFER). }
  clear Hd. rename Hd' into Hd.
  destruct (mov_to_ok s V reg Hh Hl Ht Hr) as (g1 & -> & K1 & F1). fold q. fold value.
  assert (P1 : gp g1 = gp (cr_cpu s).1) by by rewrite F1. unfold cr_guest_write. cbn [cr_cpu set_g set_cpu fst].
  destruct (visible_ok g1 V reg K1 ltac:(by rewrite P1)) as (g2 & -> & K2 & F2). rewrite bind_Ok. cbv iota.
  assert (P2 : gp g2 = gp g1) by by rewrite F2.
  destruct (set_visible_ok fx g2 V reg value K2 ltac:(by rewrite P2, P1) ltac:(by apply operand_fits)) as (g3 & -> & K3 & P3 & _).
  rewrite bind_Ok.
  destruct (gpf0_ok g3 _ K3 ltac:(rewrite P3, P2, P1; by apply seen_saved)) as (g4 & -> & K4 & F4). rewrite bind_Ok. cbv iota.
  rewrite P3, P2, P1, Hd.
  destruct (refuse_ok (set_g g1 s) (cr_cpu s).1 g4 V reg value Hh Hl H8 Hf Hv K4) as (s' & V' & E & A & B & C & _ & D).
  { rewrite F4. cbn [gp set_vmcs]. by rewrite P3, P2, P1. }
  rewrite E, bind_Ok. by exists s', V'.
Qed.

(** The real register after the write of [value]. *)
Definition real_write (reg : VMM_IA32_CONTROL_REGISTERS) (value : Z) (V : Z -> Z) : Z -> Z :=
  match reg with
  | IA32_CTRL_CR0 => fupd V VMCS_GUEST_CR0 (vmcs_hw_make_compliant_cr0 fx value)
  | IA32_CTRL_CR3 => fupd V VMCS_GUEST_CR3 value
  | IA32_CTRL_CR4 => fupd V VMCS_GUEST_CR4 (vmcs_hw_make_compliant_cr4 fx value)
  | _ => V
  end.
Definition real_gp (reg : VMM_IA32_CONTROL_REGISTERS) (value : Z) (l : list Z) : list Z :=
  match reg with IA32_CTRL_CR3 => l | _ => seen_gp reg value l end.

(** The fixed bits of the control registers are 64 bits wide. *)
Definition fixed_fit : Prop := Forall (fits 64) [fixed_0_cr0 fx; fixed_1_cr0 fx; fixed_0_cr4 fx; fixed_1_cr4 fx].
Hypothesis Hfixed : fixed_fit.

Lemma compliant_cr_fits v : fits 64 v -> fits 64 (vmcs_hw_make_compliant_cr0 fx v) /\ fits 64 (vmcs_hw_make_compliant_cr4 fx v).
Proof.
  intros Hv. unfold fixed_fit in Hfixed. rewrite !Forall_cons in Hfixed. destruct Hfixed as (A & B & C & D & _).
  unfold vmcs_hw_make_compliant_cr0, vmcs_hw_make_compliant_cr4.
  split; apply fits_lor; (done || apply fits_land; (done || (unfold fits in *; lia))).
Qed.

Lemma set_real_ok g V reg value : holds g V -> saved (gp g) -> fits 64 value ->
  exists g', gcpu_set_control_reg_layered t fx g reg value VMCS_MERGED = Ok g' /\ holds g' (real_write reg value V) /\
    gp g' = real_gp reg value (gp g).
Proof.
  intros Hh Hl Hf. destruct (compliant_cr_fits value Hf) as [C0 C4].
  unfold gcpu_set_control_reg_layered. destruct reg; cbn [real_write real_gp seen_gp]; rewrite ?saved_wr, ?bind_Ok by done.
  - vwrite g1 A1 F1. exists g1. split; [done|]. split; [done|]. by rewrite F1.
  - by eexists.
  - vwrite g1 A1 F1. exists g1. split; [done|]. split; [done|]. by rewrite F1.
  - vwrite g1 A1 F1. exists g1. split; [done|]. split; [done|]. by rewrite F1.
  - by eexists.
  - by eexists.
Qed.

(** The bits of a value that the guest owns are not changed by the processor's constraints. *)
Definition agrees (V : Z -> Z) (reg : VMM_IA32_CONTROL_REGISTERS) (value : Z) : Prop :=
  match reg with
  | IA32_CTRL_CR0 => forall i, 0 <= i -> Z.testbit (V VMCS_CR0_MASK) i = false ->
      Z.testbit (vmcs_hw_make_compliant_cr0 fx value) i = Z.testbit value i
  | IA32_CTRL_CR4 => forall i, 0 <= i -> Z.testbit (V VMCS_CR4_MASK) i = false ->
      Z.testbit (vmcs_hw_make_compliant_cr4 fx value) i = Z.testbit value i
  | IA32_CTRL_CR8 => vmcs_hw_make_compliant_cr8 value = value
  | UNSUPPORTED_CR => False
  | _ => True
  end.

Lemma agrees_visible g V reg value : holds g V -> saved (gp g) -> fits 64 value -> agrees V reg value ->
  cr_visible (real_gp reg value (seen_gp reg value (gp g))) (real_write reg value (seen_fields reg value V)) reg = value.
Proof.
  intros Hh Hl Hv Ha. destruct (compliant_cr_fits value Hv) as [C0 C4].
  assert (F : forall f, 0 <= f < VMCS_FIELD_COUNT -> fits 64 (V f)) by (intros; by apply (holds_fits g)).
  assert (Hlen : forall i, 0 <= i < 18 -> 0 <= i < Z.of_nat (length (gp g))) by (unfold saved in Hl; lia).
  destruct reg; cbn [real_gp real_write seen_gp seen_fields cr_visible agrees] in *; fread; rewrite ?list_insert_insert_eq;
    rewrite ?slot_insert by (apply Hlen; vm_compute; by split); try done.
  - apply Z.bits_inj'. intros i Hi. rewrite shadowed_bit by (done || by apply F). destruct (Z.testbit (V VMCS_CR0_MASK) i) eqn:E; [done|by apply Ha].
  - by destruct (_ =? value).
  - apply Z.bits_inj'. intros i Hi. rewrite shadowed_bit by (done || by apply F). destruct (Z.testbit (V VMCS_CR4_MASK) i) eqn:E; [done|by apply Ha].
Qed.

(** The host keeps OSXSAVE as the guest set it. *)
Definition host_write (reg : VMM_IA32_CONTROL_REGISTERS) (value : Z) (V : Z -> Z) : Z -> Z :=
  match reg with
  | IA32_CTRL_CR4 =>
      if is_cr4_osxsave_supported hw_cpuid then fupd V VMCS_HOST_CR4 (BITMAP_ASSIGN64 (V VMCS_HOST_CR4) CR4_OSXSAVE value) else V
  | _ => V
  end.
Definition skipped (V : Z -> Z) : Z -> Z := fupd V VMCS_GUEST_RIP (V VMCS_GUEST_RIP ⊕₆₄ V VMCS_EXIT_INFO_INSTRUCTION_LENGTH).

Lemma assign_fits w mask v : fits 64 w -> 0 <= mask -> fits 64 v -> fits 64 (BITMAP_ASSIGN64 w mask v).
Proof. intros Hw Hm Hv. unfold BITMAP_ASSIGN64. apply fits_lor; [done| |]; apply fits_land; try done. apply u64_range. Qed.

Lemma skip_ok g V : holds g V -> exists g', gcpu_skip_guest_instruction t g = Ok g' /\ holds g' (skipped V) /\ frame g g'.
Proof.
  intros Hh. unfold gcpu_skip_guest_instruction. vread g1 A1 F1. vread g2 A2 F2.
  destruct (write_vmcs_ok t g2 V VMCS_MERGED VMCS_GUEST_RIP (V VMCS_GUEST_RIP ⊕₆₄ V VMCS_EXIT_INFO_INSTRUCTION_LENGTH) ltac:(done) A2
    ltac:(eauto with vmcs) (u64_range _)) as (g3 & E3 & A3 & F3). exists g3. split; [exact E3|]. split; [exact A3|].
  by apply (frame_trans g g1), (frame_trans g1 g2).
Qed.

(** The end of an accepted write. *)
Lemma end_of_write s V reg value : holds (cr_cpu s).1 V -> fits 64 value ->
  exists s', (r ← (match reg with
    | IA32_CTRL_CR4 =>
        if is_cr4_osxsave_supported hw_cpuid then
          r ← read_vmcs t (cr_cpu s).1 VMCS_MERGED VMCS_HOST_CR4; let '(host, g) := r in
          g ← write_vmcs t g VMCS_MERGED VMCS_HOST_CR4 (Z.lor (Z.land host (u64 (Z.lnot CR4_OSXSAVE))) (Z.land value CR4_OSXSAVE));
          Ok (true, set_g g s)
        else Ok (true, s)
    | _ => Ok (true, s)
    end); finish r) = Ok s' /\ holds (cr_cpu s').1 (skipped (host_write reg value V)) /\ frame (cr_cpu s).1 (cr_cpu s').1 /\
    s' = set_g (cr_cpu s').1 s.
Proof.
  intros Hh Hv.
  assert (X : forall s1 V1, holds (cr_cpu s1).1 V1 -> exists s', (r ← Ok (true, s1); finish r) = Ok s' /\
    holds (cr_cpu s').1 (skipped V1) /\ frame (cr_cpu s1).1 (cr_cpu s').1 /\ s' = set_g (cr_cpu s').1 s1).
  { intros s1 V1 K1. rewrite bind_Ok. unfold finish. cbn [fst snd]. destruct (skip_ok _ _ K1) as (g & -> & K & F). rewrite bind_Ok.
    by exists (set_g g s1). }
  destruct reg; cbn [host_write]; try by apply X. destruct (is_cr4_osxsave_supported hw_cpuid); [|by apply X].
  vread g1 A1 F1. fold (BITMAP_ASSIGN64 (V VMCS_HOST_CR4) CR4_OSXSAVE value).
  destruct (write_vmcs_ok t g1 V VMCS_MERGED VMCS_HOST_CR4 (BITMAP_ASSIGN64 (V VMCS_HOST_CR4) CR4_OSXSAVE value) ltac:(done) A1
    ltac:(eauto with vmcs)) as (g2 & E2 & A2 & F2); [apply assign_fits; [by apply (holds_fits g1)|done|done]|].
  rewrite E2, bind_Ok. destruct (X (set_g g2 s) _ A2) as (s' & E & K & F & G). exists s'. split; [exact E|]. split; [exact K|].
  cbn [cr_cpu set_g set_cpu fst] in F. split; [by apply (frame_trans _ g1), (frame_trans g1 g2)|exact G].
Qed.

(** C5. A MOV to a control register whose new values the check accepts sets the real register to the value,
    with the bits that the processor fixes, before the handlers of the event run; the guest then sees the value
    it wrote when the bits it owns are not fixed; after the handlers the instruction is skipped and, for CR4,
    the OSXSAVE bit of the host follows the guest's; the handlers see exactly this state, and no exception is
    injected. *)
Theorem cr_write_accepted s V reg :
  holds (cr_cpu s).1 V -> registers_ok (gp (cr_cpu s).1) ->
  let q := V VMCS_EXIT_INFO_QUALIFICATION in
  CrAccess_AccessType q = 0 -> rd lkup_cr (CrAccess_Number q) = Ok reg ->
  let value := operand_value (gp (cr_cpu s).1) V q in
  verdict (seen_gp reg value (gp (cr_cpu s).1)) (seen_fields reg value V) = false ->
  exists s1 V1, holds (cr_cpu s1).1 V1 /\ V1 = real_write reg value (seen_fields reg value V) /\
    (agrees V reg value -> cr_visible (gp (cr_cpu s1).1) V1 reg = value) /\
    (cr_cpu s1).2 = (cr_cpu s).2 /\
    (unrestricted_guest_supported k = true -> ept_cr0 s1 = V VMCS_GUEST_CR0 /\ ept_cr4 s1 = V VMCS_GUEST_CR4) /\
    forall b s2 V2, cr_raise_write_events event_raise s1 reg value = Ok (b, s2) -> holds (cr_cpu s2).1 V2 ->
      exists s3, access s = Ok s3 /\ holds (cr_cpu s3).1 (skipped (host_write reg value V2)) /\ frame (cr_cpu s2).1 (cr_cpu s3).1 /\
        s3 = set_g (cr_cpu s3).1 s2.
Proof.
  intros Hh (Hl & Hf & H8) q Ht Hr value Hd.
  destruct (mov_to_ok s V reg Hh Hl Ht Hr) as (g1 & -> & K1 & F1). fold q. fold value.
  assert (Hv : fits 64 value) by by apply operand_fits.
  assert (P1 : gp g1 = gp (cr_cpu s).1) by by rewrite F1. unfold cr_guest_write. cbn [cr_cpu set_g set_cpu fst].
  destruct (visible_ok g1 V reg K1 ltac:(by rewrite P1)) as (g2 & -> & K2 & F2). rewrite bind_Ok. cbv iota.
  assert (P2 : gp g2 = gp (cr_cpu s).1) by (by rewrite F2).
  destruct (set_visible_ok fx g2 V reg value K2 ltac:(by rewrite P2) Hv) as (g3 & -> & K3 & P3 & _). rewrite bind_Ok. rewrite P2 in P3.
  set (V' := seen_fields reg value V) in *.
  destruct (gpf0_ok g3 _ K3 ltac:(rewrite P3; by apply seen_saved)) as (g4 & -> & K4 & F4). rewrite bind_Ok. cbv iota. rewrite P3, Hd.
  assert (P4 : gp g4 = seen_gp reg value (gp (cr_cpu s).1)) by by rewrite F4.
  set (keep := if unrestricted_guest_supported k then _ else _).
  assert (X : exists s5, keep = Ok s5 /\ holds (cr_cpu s5).1 V' /\ gp (cr_cpu s5).1 = gp g4 /\ (cr_cpu s5).2 = (cr_cpu s).2 /\
    (unrestricted_guest_supported k = true -> ept_cr0 s5 = V VMCS_GUEST_CR0 /\ ept_cr4 s5 = V VMCS_GUEST_CR4)).
  { unfold keep. destruct (unrestricted_guest_supported k); [|by exists (set_g g4 (set_g g1 s))].
    unfold gcpu_get_control_reg_layered. vread g5 K5 F5. vread g6 K6 F6. eexists. split; [done|]. split; [done|].
    split; [by rewrite F6, F5|]. split; [done|]. intros _. by rewrite <- !(seen_other reg value V). }
  destruct X as (s5 & -> & K5 & P5 & N5 & U5). rewrite bind_Ok.
  destruct (set_real_ok (cr_cpu s5).1 V' reg value K5 ltac:(rewrite P5, P4; by apply seen_saved) Hv) as (g6 & -> & K6 & P6). rewrite bind_Ok.
  exists (set_g g6 s5), (real_write reg value V'). split; [done|]. split; [done|]. split.
  { intros Ha. cbn [cr_cpu set_g set_cpu fst]. rewrite P6, P5, P4. by apply (agrees_visible (cr_cpu s).1). }
  split; [done|]. split; [exact U5|]. intros b s2 V2 E2 K2'. rewrite E2, bind_Ok. cbn [snd].
  destruct (end_of_write s2 V2 reg value K2' Hv) as (s3 & E3 & A3 & B3 & C3). exists s3. split; [exact E3|]. by split; [|split].
Qed.
End Verdict.
End CrSpec.

(** * Examples *)

Lemma holds_set_gp {O : Type} `{VmcsLaws O} (g : GUEST_CPU O) (V : Z -> Z) (l : list Z) : holds g V -> holds (set_gp l g) V.
Proof. done. Qed.

Module CrExample.
Import GuestExample.
Definition table : list VMCS_ENCODING := EferExample.table.
Definition all_ones : Z := 2 ^ 64 - 1.
(** A processor that has every feature and fixes only VMXE. *)
Definition caps : VMCS_HW_CONSTRAINTS := EferExample.caps.
Definition fx : VMCS_HW_FIXED := fixed_of caps.
Definition cpuid (leaf sub : Z) : CPUID_PARAMS := mk_cpuid 0 all_ones all_ones all_ones.
Definition no_handlers (e : CR_WRITE_EVENT) (v : Z) (s : cr_machine VMCS_SOFTWARE_OBJECT) := Ok (false, s).
(** MOV to CR4 from RAX in 64-bit mode; the host owns VMXE and OSXSAVE. *)
Definition fields (rip : Z) : list (Z * Z) :=
  [(VMCS_EXIT_INFO_QUALIFICATION, 4); (VMCS_EXIT_INFO_INSTRUCTION_LENGTH, 3); (VMCS_GUEST_RIP, rip); (VMCS_GUEST_EFER, 0x500);
   (VMCS_GUEST_CR0, 0x80000031); (VMCS_GUEST_CR4, 0x2020); (VMCS_CR4_MASK, 0x42000); (VMCS_CR4_READ_SHADOW, 0x20)].
Definition start (rax : Z) : cr_machine VMCS_SOFTWARE_OBJECT := mk_cr (set_gp (<[0%nat := rax]> (replicate 18 0)) (filled (fields 0x1000)), 0) 0 0.
Definition content : Z -> Z := fill (view (vmcs guest)) (fields 0x1000).
Lemma start_holds rax : holds (cr_cpu (start rax)).1 content.
Proof. apply holds_set_gp, filled_holds. vm_compute. reflexivity. Qed.
Lemma start_registers_ok rax : fits 64 rax -> registers_ok (gp (cr_cpu (start rax)).1).
Proof.
  intros Hr. split; [done|]. split; [|reflexivity].
  change (gp (cr_cpu (start rax)).1) with (rax :: replicate 17 0). cbn [replicate].
  repeat (constructor; [done|]). constructor.
Qed.
Lemma quiet : forall (a : Z) (n : nat), (fun (_ : Z) (_ : nat) => 0) a n = (fun _ => 0) a.
Proof. done. Qed.
(** LMSW of 0x10 in protected mode, without paging. *)
Definition lmsw : cr_machine VMCS_SOFTWARE_OBJECT :=
  mk_cr (filled [(VMCS_EXIT_INFO_QUALIFICATION, 0x100030); (VMCS_GUEST_CR0, 0x80000031); (VMCS_CR0_MASK, 0xFFFFFFFF);
    (VMCS_CR0_READ_SHADOW, 0x31); (VMCS_CR4_MASK, 0x2000); (VMCS_GUEST_CR4, 0x2000)], 0) 0 0.
(** MOV to CR4 of 0x100000020 in 64-bit mode; the host owns bits 13 and 32. *)
Definition load_cr4 : cr_machine VMCS_SOFTWARE_OBJECT :=
  mk_cr (set_gp (<[0%nat := 0x100000020]> (replicate 18 0))
    (filled [(VMCS_EXIT_INFO_QUALIFICATION, 4); (VMCS_EXIT_INFO_INSTRUCTION_LENGTH, 3); (VMCS_GUEST_RIP, 0x1000); (VMCS_GUEST_EFER, 0x500);
      (VMCS_GUEST_CR0, 0x80000031); (VMCS_GUEST_CR4, 0x2020); (VMCS_CR4_MASK, 0x100002000); (VMCS_CR4_READ_SHADOW, 0x20)]), 0) 0 0.
(** MOV to CR3 of 0x2005 in 64-bit mode with PCIDE. *)
Definition load_cr3 : cr_machine VMCS_SOFTWARE_OBJECT :=
  mk_cr (set_gp (<[0%nat := 0x2005]> (replicate 18 0))
    (filled [(VMCS_EXIT_INFO_QUALIFICATION, 3); (VMCS_EXIT_INFO_INSTRUCTION_LENGTH, 3); (VMCS_GUEST_RIP, 0x1000); (VMCS_GUEST_EFER, 0x500);
      (VMCS_GUEST_CR0, 0x80000031); (VMCS_GUEST_CR4, 0x22020); (VMCS_CR4_MASK, 0x2000); (VMCS_CR4_READ_SHADOW, 0x20020)]), 0) 0 0.
(** The result of a run, by evaluation. *)
Ltac ok_state :=
  match goal with |- exists s', ?a = Ok s' /\ @?P s' =>
    assert (X : match a with Ok s' => P s' | _ => False end); [vm_compute; by repeat split|destruct a as [s'| |]; [by exists s'|done|done]]
  end.
End CrExample.
#[local] Existing Instance InjectExample.sw_nmi_window.

Lemma cr_write_refused_witness : exists s' V',
  vmexit_cr_access CrExample.table CrExample.caps CrExample.fx CrExample.cpuid (fun _ => None) ∅ (fun _ => None) (fun _ _ => 0) 0 0 []
    CrExample.no_handlers (CrExample.start 0x2020) = Ok s' /\
  holds (cr_cpu s').1 V' /\ carries V' 13 0 /\ V' VMCS_GUEST_RIP = 0x1000.
Proof.
  destruct (cr_write_refused CrExample.table (GuestExample.all_table_writes CrExample.table cr_writes eq_refl)
    (GuestExample.all_table_reads CrExample.table cr_reads eq_refl) CrExample.caps CrExample.cpuid (fun _ => None) ∅ (fun _ => None)
    (fun _ _ => 0) 0 0 [] eq_refl (fun _ => 0) CrExample.quiet CrExample.fx CrExample.no_handlers (CrExample.start 0x2020)
    CrExample.content IA32_CTRL_CR4 (CrExample.start_holds 0x2020) (CrExample.start_registers_ok 0x2020 ltac:(done)) ltac:(vm_compute; reflexivity)
    ltac:(vm_compute; reflexivity) ltac:(vm_compute; reflexivity)
    ltac:(apply vmx_is_hidden; vm_compute; reflexivity)) as (s' & V' & E & A & (_ & B & C) & _).
  exists s', V'. split; [exact E|]. split; [exact A|]. split; [exact B|]. rewrite (C VMCS_GUEST_RIP eq_refl). vm_compute. reflexivity.
Defined.

Lemma cr_write_accepted_witness : exists s',
  vmexit_cr_access CrExample.table CrExample.caps CrExample.fx CrExample.cpuid (fun _ => None) ∅ (fun _ => None) (fun _ _ => 0) 0 0 []
    CrExample.no_handlers (CrExample.start 0x40020) = Ok s' /\ exists V', holds (cr_cpu s').1 V' /\ V' VMCS_GUEST_RIP = 0x1003.
Proof.
  destruct (cr_write_accepted CrExample.table (GuestExample.all_table_writes CrExample.table cr_writes eq_refl)
    (GuestExample.all_table_reads CrExample.table cr_reads eq_refl) CrExample.caps CrExample.cpuid (fun _ => None) ∅ (fun _ => None)
    (fun _ _ => 0) 0 0 [] eq_refl (fun _ => 0) CrExample.quiet CrExample.fx CrExample.no_handlers
    ltac:(repeat (constructor; [vm_compute; by split|]); constructor) (CrExample.start 0x40020)
    CrExample.content IA32_CTRL_CR4 (CrExample.start_holds 0x40020) (CrExample.start_registers_ok 0x40020 ltac:(done)) ltac:(vm_compute; reflexivity)
    ltac:(vm_compute; reflexivity) ltac:(vm_compute; reflexivity)) as (s1 & V1 & A1 & HV & _ & _ & _ & X).
  destruct (X EVENT_NOT_HANDLED s1 V1 eq_refl A1) as (s3 & E3 & K3 & _). exists s3. split; [exact E3|].
  eexists. split; [exact K3|]. rewrite HV. vm_compute. reflexivity.
Defined.

(** * Bits that the guest owns *)

(** The check looks at the registers through the masks, before the real register is written: a bit that the
    guest owns is checked with its old value. In 64-bit mode a write of CR4 that clears PAE, refused when the
    host owns PAE, goes through when only another bit (here OSXSAVE) makes the instruction exit. *)
Lemma owned_bits_unchecked : exists s',
  vmexit_cr_access CrExample.table CrExample.caps CrExample.fx CrExample.cpuid (fun _ => None) ∅ (fun _ => None) (fun _ _ => 0) 0 0 []
    CrExample.no_handlers (CrExample.start 0x40000) = Ok s' /\
  Cr4.PAE (view (vmcs (cr_cpu s').1) VMCS_GUEST_CR4) = false /\ EFER_bit_LME (view (vmcs (cr_cpu s').1) VMCS_GUEST_EFER) = true /\
  Cr0.PG (view (vmcs (cr_cpu s').1) VMCS_GUEST_CR0) = true /\ Valid (view (vmcs (cr_cpu s').1) VMCS_ENTER_INTERRUPT_INFO) = false.
Proof. CrExample.ok_state. Qed.

(** LMSW assigns sixteen bits of CR0; the processor changes four, and never clears PE. *)
Lemma lmsw_clears_pe : exists s',
  vmexit_cr_access CrExample.table CrExample.caps CrExample.fx CrExample.cpuid (fun _ => None) ∅ (fun _ => None) (fun _ _ => 0) 0 0 []
    CrExample.no_handlers CrExample.lmsw = Ok s' /\
  cr_visible (gp (cr_cpu CrExample.lmsw).1) (view (vmcs (cr_cpu CrExample.lmsw).1)) IA32_CTRL_CR0 = 0x31 /\
  cr_visible (gp (cr_cpu s').1) (view (vmcs (cr_cpu s').1)) IA32_CTRL_CR0 = 0x10.
Proof. CrExample.ok_state. Qed.

(** The bits above 31 are not tested, although em64t_defs.h says that they must be zero: a write of CR4 with
    bit 32, which the host owns, is accepted and seen by the guest. *)
Lemma upper_half_accepted : exists s',
  vmexit_cr_access CrExample.table CrExample.caps CrExample.fx CrExample.cpuid (fun _ => None) ∅ (fun _ => None) (fun _ _ => 0) 0 0 []
    CrExample.no_handlers CrExample.load_cr4 = Ok s' /\
  Valid (view (vmcs (cr_cpu s').1) VMCS_ENTER_INTERRUPT_INFO) = false /\ view (vmcs (cr_cpu s').1) VMCS_GUEST_RIP = 0x1003 /\
  cr_visible (gp (cr_cpu s').1) (view (vmcs (cr_cpu s').1)) IA32_CTRL_CR4 = 0x100000020.
Proof. CrExample.ok_state. Qed.

(** With PCIDE set, CR3 holds the process identifier in its low 12 bits; the handler applies to every write the
    rule for setting PCIDE, and refuses a MOV to CR3 with the identifier 5. *)
Lemma process_identifier_refused : exists s',
  vmexit_cr_access CrExample.table CrExample.caps CrExample.fx CrExample.cpuid (fun _ => None) ∅ (fun _ => None) (fun _ _ => 0) 0 0 []
    CrExample.no_handlers CrExample.load_cr3 = Ok s' /\
  Valid (view (vmcs (cr_cpu s').1) VMCS_ENTER_INTERRUPT_INFO) = true /\ view (vmcs (cr_cpu s').1) VMCS_GUEST_RIP = 0x1000.
Proof. CrExample.ok_state. Qed.
