(* ===== verification/Gpm.v ===== *)
(** memory/memory_manager/gpm.c: the guest physical memory, a client of the address mapper. A
    GPM holds two mappings; the one from host to guest addresses is filled only under
    USE_HPA_TO_GPA, which the build does not define.

    The two objects are values of the record (nobody else has their handles); their tables are in
    the store that all mappers share. *)

From S2P Require Import Prelude VmmDefs Lock E820 MamEntry Mam.

Definition GPM_INVALID_MAPPING : Z := MAM_MAPPING_SUCCESSFUL + 1.
Definition GPM_MMIO : Z := MAM_MAPPING_SUCCESSFUL + 2.
Definition GPM_INVALID_RANGES_ITERATOR : Z := 2 ^ 64 - 1.
Definition MAM_NO_ATTRIBUTES : Z := 0.

Record GPM := mk_gpm { gpa_to_hpa : MAM; hpa_to_gpa : MAM }.

Definition set_gpa_to_hpa (gpm : GPM) (mam : MAM) : GPM := mk_gpm mam (hpa_to_gpa gpm).
Definition set_hpa_to_gpa (gpm : GPM) (mam : MAM) : GPM := mk_gpm (gpa_to_hpa gpm) mam.

Section Gpm.
Context {A : Type} `{!Pages A} (hmm_hva_to_hpa hmm_hpa_to_hva : Z -> option Z).
Context (fuel : nat) (cpu : Z).

#[local] Abbreviation get_mapping := (mam_get_mapping hmm_hpa_to_hva cpu).
#[local] Abbreviation range_details := (mam_get_range_details_from_iterator hmm_hpa_to_hva).

(** The ranges a guest sees: memory and MMIO. *)
Definition relevant (res : Z) : bool := (res =? MAM_MAPPING_SUCCESSFUL) || (res =? GPM_MMIO).

(** ** Creation *)

(** [None] is GPM_INVALID_HANDLE; a zeroed page holds the object. *)
Definition gpm_create_mapping (s : mstate A) : outcome (option GPM * mstate A) :=
  r ← vmm_page_alloc (pages s);
  let '(gpm_ptr, a) := r in
  let s := mk_mstate (tabs s) a in
  if gpm_ptr =? 0 then Ok (None, s)
  else
    r ← mam_create_mapping s MAM_NO_ATTRIBUTES;
    match r with
    | (None, s) => a ← vmm_memory_free (pages s) gpm_ptr; Ok (None, mk_mstate (tabs s) a)
    | (Some (ptr1, mam1), s) =>
        r ← mam_create_mapping s MAM_NO_ATTRIBUTES;
        match r with
        | (None, s) =>
            s ← mam_destroy_mapping hmm_hpa_to_hva fuel cpu s ptr1 mam1;
            a ← vmm_memory_free (pages s) gpm_ptr; Ok (None, mk_mstate (tabs s) a)
        | (Some (_, mam2), s) => Ok (Some (mk_gpm mam1 mam2), s)
        end
    end.

(** ** Updates *)

(** The result of an operation on one of the two mappings. *)
Definition lift (set : MAM -> GPM) (r : outcome (bool * option MAM * mstate A)) : outcome (bool * option GPM * mstate A) :=
  r ← r;
  match r with
  | (res, Some mam, s) => Ok (res, Some (set mam), s)
  | (_, None, _) => Fault
  end.

Definition gpm_add_mapping (handle : option GPM) (s : mstate A) (gpa hpa size attrs : Z)
  : outcome (bool * option GPM * mstate A) :=
  match handle with
  | None => Ok (false, None, s)
  | Some gpm =>
      lift (set_gpa_to_hpa gpm)
        (mam_insert_range hmm_hva_to_hpa hmm_hpa_to_hva fuel cpu (Some (gpa_to_hpa gpm)) s gpa hpa size attrs)
  end.

Definition unmap (reason : Z) (handle : option GPM) (s : mstate A) (gpa size : Z) : outcome (bool * option GPM * mstate A) :=
  match handle with
  | None => Ok (false, None, s)
  | Some gpm =>
      lift (set_gpa_to_hpa gpm)
        (mam_insert_not_existing_range hmm_hva_to_hpa hmm_hpa_to_hva fuel cpu (Some (gpa_to_hpa gpm)) s gpa size reason)
  end.
Definition gpm_remove_mapping := unmap GPM_INVALID_MAPPING.
Definition gpm_add_mmio_range := unmap GPM_MMIO.

(** The loop from [gpa_tmp] to [limit]; it has no caller in this build. *)
Fixpoint remove_hpa_loop (n : nat) (gpm : GPM) (s : mstate A) (gpa_tmp limit : Z)
  : outcome (bool * option GPM * mstate A) :=
  if negb (gpa_tmp <? limit) then Ok (true, Some gpm, s)
  else
    match n with
    | O => Spin
    | S n =>
        r ← get_mapping (gpa_to_hpa gpm) s gpa_tmp;
        match r with
        | (res, out) =>
            if res =? MAM_MAPPING_SUCCESSFUL then
              match out with
              | None => Fault
              | Some (hpa, _) =>
                  r ← lift (set_hpa_to_gpa gpm)
                        (mam_insert_not_existing_range hmm_hva_to_hpa hmm_hpa_to_hva fuel cpu
                           (Some (hpa_to_gpa gpm)) s hpa PAGE_4KB_SIZE GPM_INVALID_MAPPING);
                  match r with
                  | (true, Some gpm, s) => remove_hpa_loop n gpm s (gpa_tmp ⊕₆₄ PAGE_4KB_SIZE) limit
                  | (_, handle, s) => Ok (false, handle, s)
                  end
              end
            else remove_hpa_loop n gpm s (gpa_tmp ⊕₆₄ PAGE_4KB_SIZE) limit
        end
    end.
Definition gpm_remove_all_relevant_hpa_to_gpa_mapping (n : nat) (gpm : GPM) (s : mstate A) (gpa size : Z) :=
  remove_hpa_loop n gpm s gpa (gpa ⊕₆₄ size).

(** ** Queries *)

Definition gpm_is_mmio_address (handle : option GPM) (s : mstate A) (gpa : Z) : outcome bool :=
  match handle with
  | None => Ok false
  | Some gpm => r ← get_mapping (gpa_to_hpa gpm) s gpa; Ok (r.1 =? GPM_MMIO)
  end.

(** The outputs of a successful query; a mapper that answers MAM_MAPPING_SUCCESSFUL without
    writing them leaves local variables undefined. *)
Definition translated (r : Z * option (Z * Z)) : outcome (option (Z * Z)) :=
  if negb (r.1 =? MAM_MAPPING_SUCCESSFUL) then Ok None
  else match r.2 with Some out => Ok (Some out) | None => Fault end.

(** The address and the attributes, or [None] for FALSE. *)
Definition gpm_gpa_to_hpa (handle : option GPM) (s : mstate A) (gpa : Z) : outcome (option (Z * Z)) :=
  match handle with
  | None => Ok None
  | Some gpm => r ← get_mapping (gpa_to_hpa gpm) s gpa; translated r
  end.

Definition gpm_gpa_to_hva (handle : option GPM) (s : mstate A) (gpa : Z) : outcome (option Z) :=
  match handle with
  | None => Ok None
  | Some gpm =>
      r ← get_mapping (gpa_to_hpa gpm) s gpa;
      r ← translated r;
      Ok (match r with Some (hpa, _) => hmm_hpa_to_hva hpa | None => None end)
  end.

Definition gpm_hpa_to_gpa (handle : option GPM) (s : mstate A) (hpa : Z) : outcome (option Z) :=
  match handle with
  | None => Ok None
  | Some gpm =>
      r ← get_mapping (hpa_to_gpa gpm) s hpa;
      r ← translated r;
      Ok (match r with Some (gpa, _) => Some gpa | None => None end)
  end.

(** ** Iteration *)

Fixpoint advance_loop (n : nat) (mam : MAM) (s : mstate A) (res iter : Z) : outcome (Z * MAM) :=
  if relevant res || (iter =? MAM_INVALID_MEMORY_RANGES_ITERATOR) then Ok (iter, mam)
  else
    match n with
    | O => Spin
    | S n =>
        r ← range_details mam s iter;
        let '(iter, _, _, mam) := r in
        r ← get_mapping mam s (mam_get_range_start_address_from_iterator iter);
        advance_loop n mam s r.1 iter
    end.
Definition gpm_advance_mam_iterator_to_appropriate_range (n : nat) (mam : MAM) (s : mstate A) (iter : Z)
  : outcome (Z * MAM) :=
  r ← get_mapping mam s (mam_get_range_start_address_from_iterator iter);
  advance_loop n mam s r.1 iter.

(** The iterators of the two modules have the same invalid value. *)
Definition gpm_get_ranges_iterator (n : nat) (handle : option GPM) (s : mstate A) : outcome (Z * option GPM) :=
  match handle with
  | None => Ok (GPM_INVALID_RANGES_ITERATOR, None)
  | Some gpm =>
      let '(iter, mam) := mam_get_memory_ranges_iterator (gpa_to_hpa gpm) in
      if iter =? MAM_INVALID_MEMORY_RANGES_ITERATOR
      then Ok (GPM_INVALID_RANGES_ITERATOR, Some (set_gpa_to_hpa gpm mam))
      else
        r ← gpm_advance_mam_iterator_to_appropriate_range n mam s iter;
        let '(iter, mam) := r in
        Ok (if iter =? MAM_INVALID_MEMORY_RANGES_ITERATOR then GPM_INVALID_RANGES_ITERATOR else iter,
            Some (set_gpa_to_hpa gpm mam))
  end.

(** The next iterator, the range, and the object. *)
Definition gpm_get_range_details_from_iterator (n : nat) (gpm : GPM) (s : mstate A) (iter : Z)
  : outcome (Z * Z * Z * GPM) :=
  if iter =? GPM_INVALID_RANGES_ITERATOR then Ok (GPM_INVALID_RANGES_ITERATOR, 2 ^ 64 - 1, 0, gpm)
  else
    r ← range_details (gpa_to_hpa gpm) s iter;
    let '(mam_iter, gpa, size, mam) := r in
    r ← gpm_advance_mam_iterator_to_appropriate_range n mam s mam_iter;
    let '(mam_iter, mam) := r in
    Ok (if mam_iter =? MAM_INVALID_MEMORY_RANGES_ITERATOR then GPM_INVALID_RANGES_ITERATOR else mam_iter,
        gpa, size, set_gpa_to_hpa gpm mam).

(** ** Copy *)

(** The body of the loop of [gpm_copy]: one range of [src] into [dst]. *)
Definition copy_range (src : GPM) (dst : option GPM) (s : mstate A) (override_attrs : bool) (set_attrs addr size : Z)
  : outcome (bool * option GPM * mstate A) :=
  r ← gpm_gpa_to_hpa (Some src) s addr;
  match r with
  | None =>
      mmio ← gpm_is_mmio_address (Some src) s addr;
      if (mmio : bool) then gpm_add_mmio_range dst s addr size else Ok (false, dst, s)
  | Some (host, attrs) => gpm_add_mapping dst s addr host size (if override_attrs then set_attrs else attrs)
  end.

Fixpoint copy_loop (n : nat) (src : GPM) (dst : option GPM) (s : mstate A) (override_attrs : bool) (set_attrs iter : Z)
  : outcome (bool * GPM * option GPM * mstate A) :=
  if iter =? GPM_INVALID_RANGES_ITERATOR then Ok (true, src, dst, s)
  else
    match n with
    | O => Spin
    | S n' =>
        r ← gpm_get_range_details_from_iterator n src s iter;
        let '(iter, addr, size, src) := r in
        r ← copy_range src dst s override_attrs set_attrs addr size;
        let '(status, dst, s) := r in
        if negb (status : bool) then Ok (false, src, dst, s)
        else copy_loop n' src dst s override_attrs set_attrs iter
    end.

(** The two handles are of different objects. *)
Definition gpm_copy (n : nat) (src dst : option GPM) (s : mstate A) (override_attrs : bool) (set_attrs : Z)
  : outcome (bool * option GPM * option GPM * mstate A) :=
  r ← gpm_get_ranges_iterator n src s;
  match r with
  | (_, None) => Ok (true, None, dst, s)
  | (iter, Some src) =>
      r ← copy_loop n src dst s override_attrs set_attrs iter;
      let '(res, src, dst, s) := r in Ok (res, Some src, dst, s)
  end.

(** ** The E820 map of a guest *)

(** Whether a range was found, the iterator after it, the range and the object. *)
Fixpoint gpm_get_range_details_and_advance_mam_iterator (n : nat) (mam : MAM) (s : mstate A) (iter : Z)
  : outcome (bool * Z * Z * Z * MAM) :=
  match n with
  | O => Spin
  | S n =>
      r ← range_details mam s iter;
      let '(iter, range_start, range_size, mam) := r in
      r ← get_mapping mam s range_start;
      if negb (relevant r.1) && negb (iter =? MAM_INVALID_MEMORY_RANGES_ITERATOR)
      then gpm_get_range_details_and_advance_mam_iterator n mam s iter
      else Ok (negb (iter =? MAM_INVALID_MEMORY_RANGES_ITERATOR) || relevant r.1, iter, range_start, range_size, mam)
  end.

(** The local variables of [gpm_create_e820_map] (the map stands for its handle). *)
Record fill := mk_fill { f_mam : MAM; f_map : option e820_map; f_iter : Z; f_start : Z; f_size : Z }.

Inductive merge_status := NonContiguous | Merged | FailedToFill.

Definition entry_end (e : e820_entry) : Z := base_address e ⊕₆₄ range_length e.
Definition f_end (f : fill) : Z := f_start f ⊕₆₄ f_size f.

Definition add_range (f : fill) (e : e820_entry) (size : Z) : outcome (bool * option e820_map) :=
  e820_abstraction_add_new_range (f_map f) (f_start f) size (address_range_type e) (extended_attributes e).

(** The inner loop: the range grows while the following one is adjacent. *)
Fixpoint merge_loop (n : nat) (s : mstate A) (e : e820_entry) (f : fill) : outcome (merge_status * fill) :=
  if (f_iter f =? MAM_INVALID_MEMORY_RANGES_ITERATOR) || negb (f_end f <=? entry_end e) then Ok (Merged, f)
  else
    match n with
    | O => Spin
    | S n' =>
        r ← gpm_get_range_details_and_advance_mam_iterator n (f_mam f) s (f_iter f);
        let '(found, iter, addr, size, mam) := r in
        if negb (found : bool) then Ok (Merged, mk_fill mam (f_map f) iter (f_start f) (f_size f))
        else if f_end f <? addr then
          r ← add_range f e (f_size f);
          let '(added, map) := r in
          if negb (added : bool) then Ok (FailedToFill, mk_fill mam map iter (f_start f) (f_size f))
          else Ok (NonContiguous, mk_fill mam map iter addr size)
        else merge_loop n' s e (mk_fill mam (f_map f) iter (f_start f) (f_size f ⊕₆₄ size))
    end.

(** The outer loop; FALSE is the jump to failed_to_fill. *)
Fixpoint fill_loop (n : nat) (s : mstate A) (g : e820_map) (e820_iter : Z) (f : fill) : outcome (bool * fill) :=
  if e820_iter =? 0 then Ok (true, f)
  else
    match n with
    | O => Spin
    | S n' =>
        r ← e820_abstraction_iterator_get_range_details g e820_iter;
        match r with
        | None => Fault
        | Some e =>
            if (base_address e <=? f_start f) && (f_end f <=? entry_end e) then
              r ← merge_loop n s e f;
              match r with
              | (FailedToFill, f) => Ok (false, f)
              | (NonContiguous, f) => fill_loop n' s g e820_iter f
              | (Merged, f) =>
                  if entry_end e <? f_end f then fill_loop n' s g e820_iter f
                  else
                    r ← add_range f e (f_size f);
                    let '(added, map) := r in
                    Ok (added, mk_fill (f_mam f) map (f_iter f) (f_start f) (f_size f))
              end
            else if f_end f <=? base_address e then
              if f_iter f =? MAM_INVALID_MEMORY_RANGES_ITERATOR then Ok (true, f)
              else
                r ← gpm_get_range_details_and_advance_mam_iterator n (f_mam f) s (f_iter f);
                let '(found, iter, addr, size, mam) := r in
                let f := mk_fill mam (f_map f) iter addr size in
                if negb (found : bool) then Ok (true, f) else fill_loop n' s g e820_iter f
            else if entry_end e <=? f_start f then
              fill_loop n' s g (e820_abstraction_iterator_get_next (Some g) None e820_iter) f
            else if (f_start f <? base_address e) && (base_address e <? f_end f) then
              fill_loop n' s g e820_iter
                (mk_fill (f_mam f) (f_map f) (f_iter f) (base_address e) (f_end f ⊖₆₄ base_address e))
            else
              let new_size := entry_end e ⊖₆₄ f_start f in
              r ← add_range f e new_size;
              let '(added, map) := r in
              let f := mk_fill (f_mam f) map (f_iter f) (f_start f) (f_size f) in
              if negb (added : bool) then Ok (false, f)
              else
                fill_loop n' s g e820_iter
                  (mk_fill (f_mam f) map (f_iter f) (f_start f ⊕₆₄ new_size) (f_size f ⊖₆₄ new_size))
        end
    end.

(** The new map, or [None] for FALSE; [g] is the original map. Without a range or an original
    map the page of the new map is not given back. *)
Definition gpm_create_e820_map (n : nat) (g : option e820_map) (handle : option GPM) (s : mstate A)
  : outcome (option e820_map * option GPM * mstate A) :=
  match handle with
  | None => Ok (None, None, s)
  | Some gpm =>
      r ← vmm_page_alloc (pages s);
      let '(page, a) := r in
      let s := mk_mstate (tabs s) a in
      match e820_abstraction_create_new_map page with
      | None => Ok (None, Some gpm, s)
      | Some map =>
          let e820_iter := e820_abstraction_iterator_get_first g None in
          let '(iter, mam) := mam_get_memory_ranges_iterator (gpa_to_hpa gpm) in
          match g with
          | Some original =>
              if (iter =? MAM_INVALID_MEMORY_RANGES_ITERATOR) || (e820_iter =? 0)
              then Ok (None, Some (set_gpa_to_hpa gpm mam), s)
              else
                r ← gpm_get_range_details_and_advance_mam_iterator n mam s iter;
                let '(found, iter, range_start, range_size, mam) := r in
                if negb (found : bool) then Ok (None, Some (set_gpa_to_hpa gpm mam), s)
                else
                  r ← fill_loop n s original e820_iter (mk_fill mam (Some map) iter range_start range_size);
                  let '(res, f) := r in
                  if (res : bool) then Ok (f_map f, Some (set_gpa_to_hpa gpm (f_mam f)), s)
                  else
                    a ← vmm_memory_free (pages s) page;
                    Ok (None, Some (set_gpa_to_hpa gpm (f_mam f)), mk_mstate (tabs s) a)
          | None => Ok (None, Some (set_gpa_to_hpa gpm mam), s)
          end
      end
  end.
End Gpm.
