(* ===== verification/GpmSpec.v ===== *)
(** The guest physical memory against an abstract map: its operations, its iteration and the
    copy of one guest memory into another. *)

From S2P Require Import Prelude VmmDefs Lock Heap HeapSpec E820 MamEntry MamEntrySpec Mam MamSpec MamFail MamMap MamHeap MamIter Gpm.

#[local] Abbreviation esz := mam_get_size_covered_by_entry.
#[local] Abbreviation tsz := mam_get_size_covered_by_table.

Section Objects.
Context {A : Type} `{!Pages A} (hva_to_hpa hpa_to_hva : Z -> option Z) (K : MAM_ENTRY_OPS).
Context `{!EntryLaws hva_to_hpa hpa_to_hva K} `{!PagesLaws A (table_ok hva_to_hpa hpa_to_hva)}.

#[local] Abbreviation rep := (rep hva_to_hpa hpa_to_hva K).
#[local] Abbreviation trep := (trep hva_to_hpa hpa_to_hva K).
#[local] Abbreviation represents := (represents hva_to_hpa hpa_to_hva K).

(** ** What a mapping can hold *)

Lemma den_bound l : forall tabs e t x a attrs, rep l tabs e t -> 0 <= x < esz l -> level_ok l ->
  den l t x = Mapped a attrs -> 0 <= a < 2 ^ 40 /\ attr_ok K attrs.
Proof.
  induction l as [|l IH]; intros tabs e t x a attrs Hr Hx Hl Hd; [by destruct Hl; lia|].
  destruct t as [r|a0 at0|p ts]; [done| |].
  - destruct Hr as (_ & _ & [[Ha _] _] & Hb & Hat). cbn [den] in Hd. simplify_eq. split; [lia|done].
  - destruct l as [|l]; [by destruct Hr as (_ & _ & _ & [])|].
    apply rep_node in Hr as (_ & _ & _ & Hrep). pose proof (esz_S l Hl) as Esz. pose proof (esz_pos (S l)).
    change (tden (S l) ts x = Mapped a attrs) in Hd. unfold tden in Hd.
    destruct (ts !! Z.to_nat (x / esz (S l))) as [t|] eqn:Ht; [|done].
    destruct (trep_lookup _ _ _ _ _ _ _ _ t Hrep Ht) as (es & e1 & _ & _ & _ & Hr1).
    eapply (IH _ _ _ _ _ _ Hr1); [|unfold level_ok in *; lia|exact Hd]. apply Z.mod_pos_bound. lia.
Qed.

(** A mapped address has 40 bits, and attributes of the format. *)
Lemma mapped_bound mam s m F y a attrs : represents mam s m F -> 0 <= y -> m y = Mapped a attrs ->
  0 <= a < 2 ^ 40 /\ attr_ok K attrs.
Proof.
  intros [(Hl & _ & _ & _ & ts & Hrep & _ & Hm) _] Hy E. rewrite Hm in E by done. unfold table_map in E.
  destruct (Z.ltb_spec y (tsz (first_table_ops mam))); [|done]. unfold tden in E.
  destruct (ts !! _) as [t|] eqn:Ht; [|done].
  destruct (trep_lookup _ _ _ _ _ _ _ _ t Hrep Ht) as (es & e1 & _ & _ & _ & Hr1).
  eapply den_bound; [exact Hr1| |done|exact E]. apply Z.mod_pos_bound. apply esz_pos.
Qed.

(** Above the first table nothing is mapped. *)
Lemma unmapped_above mam s m F y : represents mam s m F -> tsz (first_table_ops mam) <= y -> m y = Unmapped MAM_UNKNOWN_MAPPING.
Proof.
  intros [(Hl & _ & _ & _ & ts & Hrep & _ & Hm) _] Hy. pose proof (esz_pos (first_table_ops mam)).
  rewrite Hm by (rewrite tsz_esz in Hy; lia). unfold table_map. by destruct (Z.ltb_spec y (tsz (first_table_ops mam))); [lia|].
Qed.

(** ** Other objects *)

(** The iterator [x] of the object is at the start of a range. *)
Definition cursor (mam : MAM) (s : mstate A) (m : amap) (F : gset Z) (x : Z) : Prop :=
  0 <= x < tsz (first_table_ops mam) /\
  exists ts, trep (first_table_ops mam) (tabs s) (first_table mam) ts /\
    F = tfp (first_table_ops mam) (first_table mam) ts /\
    (forall y, 0 <= y -> m y = table_map (first_table_ops mam) ts y) /\ tat_start (first_table_ops mam) ts x.

Lemma tables_same (s s' : mstate A) S S' l h ts : trep l (tabs s) h ts -> evolves (tabs s) (tabs s') S S' ->
  tfp l h ts ## S -> trep l (tabs s') h ts /\ tfp l h ts ## S'.
Proof.
  intros Hrep Hev HF. pose proof (trep_dom _ _ _ _ _ _ _ Hrep) as Hd.
  assert (Hk : forall k, k ∈ tfp l h ts -> tabs s' !! k = tabs s !! k /\ k ∉ S').
  { intros k Hk. apply (evolves_same _ _ _ _ _ Hev); [by apply Hd|]. rewrite elem_of_disjoint in HF. intros Hks. by apply (HF k). }
  split; [eapply trep_frame; [exact Hrep|intros; by apply Hk]|]. intros k H1 H2. by apply Hk in H1 as [_ ?].
Qed.

(** An operation on another object keeps this one. *)
Lemma represents_frame mam (s s' : mstate A) m F S S' : represents mam s m F -> evolves (tabs s) (tabs s') S S' -> F ## S ->
  pages_ok hva_to_hpa hpa_to_hva s' -> represents mam s' m F /\ F ## S'.
Proof.
  intros [(Hl & Hin & _ & Hok & ts & Hrep & -> & Hm) Hid] Hev HF Hpg.
  destruct (tables_same _ _ _ _ _ _ _ Hrep Hev HF) as [Hrep' HF']. split; [|done].
  split; [|done]. split_and!; [done..|]. by exists ts.
Qed.

Lemma cursor_frame mam (s s' : mstate A) m F S S' x : cursor mam s m F x -> evolves (tabs s) (tabs s') S S' -> F ## S ->
  cursor mam s' m F x.
Proof.
  intros [Hx (ts & Hrep & -> & Hm & Hst)] Hev HF. split; [done|].
  destruct (tables_same _ _ _ _ _ _ _ Hrep Hev HF) as [Hrep' _]. by exists ts.
Qed.

Lemma represents_pages mam s m F : represents mam s m F -> pages_ok hva_to_hpa hpa_to_hva s.
Proof. by intros [(_ & _ & ? & _) _]. Qed.

(** ** Iteration *)

Lemma cursor_first mam s m F : represents mam s m F -> cursor mam s m F 0.
Proof.
  intros [(Hl & _ & _ & _ & ts & Hrep & HF & Hm) _]. pose proof (esz_pos (first_table_ops mam)).
  split; [rewrite tsz_esz; lia|]. exists ts. split_and!; [done..|].
  apply (tat_start_aligned _ _ _ _ _ _ _ 0%nat Hrep). lia.
Qed.

(** One step of the iterator. *)
Lemma details_spec mam s m F x : represents mam s m F -> cursor mam s m F x ->
  exists size next,
    mam_get_range_details_from_iterator hpa_to_hva mam s x = Ok (next, x, size, set_last_iterator mam x size) /\
    4096 <= size /\ x + size <= tsz (first_table_ops mam) /\ uniform m (x, size) /\
    (next = MAM_INVALID_MEMORY_RANGES_ITERATOR /\ x + size = tsz (first_table_ops mam) \/
     next = x + size /\ cursor mam s m F (x + size)).
Proof.
  intros [(Hl & _) (_ & Hc & _)] [Hx (ts & Hrep & HF & Hm & Hst)]. rewrite tsz_esz in *.
  pose proof (esz_le (first_table_ops mam)) as Hmax. pose proof (esz_pos (first_table_ops mam)).
  unfold mam_get_range_details_from_iterator. rewrite (proj2 (Z.eqb_neq _ _))
    by (unfold MAM_INVALID_MEMORY_RANGES_ITERATOR; lia).
  destruct (size_of_range_spec hva_to_hpa hpa_to_hva K _ Hl s _ ts 0 x Hrep ltac:(lia) ltac:(by rewrite Z.mod_0_l by lia)
    Hx Hmax Hst) as (sz & E & Hsz & Hle & Huni & Hnext).
  change (0 + x) with x in E. rewrite E, bind_Ok, tsz_esz, u64_small by lia. rewrite Hc. cbn [Z.eqb negb].
  exists sz. eexists. split; [done|]. split; [done|]. split; [done|]. split.
  - intros z Hz. cbn [fst snd] in *. rewrite !Hm, !table_map_in by (rewrite ?tsz_esz; lia). by apply Huni.
  - destruct (Z.leb_spec (512 * esz (first_table_ops mam)) (x + sz)) as [Hlast|Hmore]; [left; split; [done|lia]|right].
    split; [done|]. split; [rewrite tsz_esz; lia|]. exists ts. split_and!; [done..|by apply Hnext].
Qed.
End Objects.

(** * The guest's memory *)

(** No address is unmapped with the reason that stands for success. *)
Definition clean (m : amap) : Prop := forall y, 0 <= y -> m y <> Unmapped MAM_MAPPING_SUCCESSFUL.

(** Memory or MMIO. *)
Definition visible (d : mapping) : bool := match d with Mapped _ _ => true | Unmapped r => r =? GPM_MMIO end.

Section Guest.
Context {A : Type} `{!Pages A} (hva_to_hpa hpa_to_hva : Z -> option Z).
Context `{!PagesLaws A (table_ok hva_to_hpa hpa_to_hva)}.
Context (fuel : nat) (cpu : Z).

#[local] Abbreviation K := MAM_INTERNAL_ENTRY_OPS.
#[local] Abbreviation represents := (represents hva_to_hpa hpa_to_hva K).
#[local] Abbreviation cursor := (cursor hva_to_hpa hpa_to_hva K).
#[local] Abbreviation refined := (refined hva_to_hpa hpa_to_hva K).
#[local] Abbreviation pages_ok := (pages_ok hva_to_hpa hpa_to_hva).

(** The guest's memory is [m], in the pages [F1]; the mapping from host addresses, in the pages
    [F2], is empty. *)
Definition gpm_rep (g : GPM) (s : mstate A) (m : amap) (F1 F2 : gset Z) : Prop :=
  represents (gpa_to_hpa g) s m F1 /\ represents (hpa_to_gpa g) s nothing_mapped F2 /\ F1 ## F2 /\ clean m.

Definition grefined (F1 F2 : gset Z) (s : mstate A) (P : bool -> amap -> Prop)
  (o : outcome (bool * option GPM * mstate A)) : Prop :=
  exists res g' s' m' F', o = Ok (res, Some g', s') /\ gpm_rep g' s' m' F' F2 /\ evolves (tabs s) (tabs s') F1 F' /\ P res m'.

Lemma represents_dom mam s m F : represents mam s m F -> F ⊆ dom (tabs s).
Proof. intros [(_ & _ & _ & _ & ts1 & H1 & -> & _) _]. by eapply trep_dom. Qed.

Lemma gpm_rep_frame g s s' m F1 F2 S S' : gpm_rep g s m F1 F2 -> evolves (tabs s) (tabs s') S S' -> F1 ∪ F2 ## S -> pages_ok s' ->
  gpm_rep g s' m F1 F2 /\ F1 ∪ F2 ## S'.
Proof.
  intros (H1 & H2 & Hd & Hc) Hev HF Hpg. apply disjoint_union_l in HF as [HF1 HF2].
  destruct (represents_frame _ _ _ _ _ _ _ _ _ _ H1 Hev HF1 Hpg) as [? ?].
  destruct (represents_frame _ _ _ _ _ _ _ _ _ _ H2 Hev HF2 Hpg) as [? ?].
  split; [done|]. by apply disjoint_union_l.
Qed.

Lemma gpm_rep_pages g s m F1 F2 : gpm_rep g s m F1 F2 -> pages_ok s.
Proof. intros (H1 & _). by eapply represents_pages. Qed.

(** An operation on the first mapping is one on the guest's memory. *)
Lemma lift_spec g s m F1 F2 (P : bool -> amap -> Prop) o : gpm_rep g s m F1 F2 ->
  (forall res m', P res m' -> clean m') -> refined m F1 s P o -> grefined F1 F2 s P (lift (set_gpa_to_hpa g) o).
Proof.
  intros (H1 & H2 & Hd & Hc) HP (res & mam' & s' & m' & F1' & -> & HR & Hev & Hres).
  pose proof (represents_pages _ _ _ _ _ _ _ HR) as Hpg.
  destruct (represents_frame _ _ _ _ _ _ _ _ _ _ H2 Hev ltac:(done) Hpg) as [H2' Hd'].
  exists res, (set_gpa_to_hpa g mam'), s', m', F1'. split; [done|]. split; [|done].
  split_and!; [done|done|done|by eapply HP].
Qed.

Lemma clean_updated res src size f m m' : clean m -> (forall y d, 0 <= y -> d <> Unmapped 0 -> f y d <> Unmapped 0) ->
  map_updated res src size f m m' -> clean m'.
Proof.
  intros Hc Hf Hu y Hy. specialize (Hu y Hy). unfold updated_at in Hu. pose proof (Hc y Hy) as Hcy.
  destruct (in_rng src size y); [|by rewrite Hu]. destruct Hu as [->|[_ ->]]; [by apply Hf|done].
Qed.

Lemma add_mapping_spec g s m F1 F2 gpa hpa size attrs : gpm_rep g s m F1 F2 ->
  0 <= gpa -> 0 <= size -> gpa + size < 2 ^ 64 -> 0 <= hpa -> hpa + size <= 2 ^ 40 -> fits 8 attrs ->
  grefined F1 F2 s (fun res m' => map_updated res gpa size (fun y _ => Mapped (y - gpa + hpa) attrs) m m')
    (gpm_add_mapping hva_to_hpa hpa_to_hva (S fuel) cpu (Some g) s gpa hpa size attrs).
Proof.
  intros HG. intros. pose proof HG as (HR & _ & _ & Hc). eapply lift_spec; [done| |].
  - intros res m'. by apply clean_updated.
  - apply insert_spec; try exact _; try done. by left.
Qed.

Lemma unmap_spec reason g s m F1 F2 gpa size : reason = GPM_INVALID_MAPPING \/ reason = GPM_MMIO -> gpm_rep g s m F1 F2 ->
  0 <= gpa -> 0 < size -> gpa + size < 2 ^ 64 ->
  grefined F1 F2 s (fun res m' => map_updated res gpa size (fun _ _ => Unmapped reason) m m')
    (unmap hva_to_hpa hpa_to_hva (S fuel) cpu reason (Some g) s gpa size).
Proof.
  intros Hr HG. intros. assert (reason = 1 \/ reason = 2) by done. pose proof HG as (HR & _ & _ & Hc).
  eapply lift_spec; [done| |].
  - intros res m'. apply clean_updated; [done|]. intros y d _ _ [= ?]. lia.
  - apply remove_spec; try exact _; try done; [by left|lia].
Qed.

(** ** Queries *)

Definition result_of (d : mapping) : Z * option (Z * Z) :=
  match d with Mapped a attrs => (MAM_MAPPING_SUCCESSFUL, Some (a, attrs)) | Unmapped r => (r, None) end.

Lemma query mam s m F y : represents mam s m F -> 0 <= y -> mam_get_mapping hpa_to_hva cpu mam s y = Ok (result_of (m y)).
Proof. intros HR Hy. exact (get_mapping_spec hva_to_hpa hpa_to_hva K cpu mam s m F y HR Hy). Qed.

Lemma relevant_result d : d <> Unmapped MAM_MAPPING_SUCCESSFUL -> relevant (result_of d).1 = visible d.
Proof.
  intros Hd. destruct d as [r|a attrs]; [|done]. cbn. unfold relevant. destruct (Z.eqb_spec r MAM_MAPPING_SUCCESSFUL) as [->|]; done.
Qed.

Lemma gpa_to_hpa_spec g s m F1 F2 y : gpm_rep g s m F1 F2 -> 0 <= y ->
  gpm_gpa_to_hpa hpa_to_hva cpu (Some g) s y = Ok (match m y with Mapped a attrs => Some (a, attrs) | Unmapped _ => None end).
Proof.
  intros (H1 & _ & _ & Hc) Hy. unfold gpm_gpa_to_hpa. rewrite (query _ _ _ _ _ H1 Hy), bind_Ok.
  specialize (Hc y Hy). destruct (m y) as [r|a attrs]; [|done]. unfold translated. cbn [result_of fst].
  destruct (Z.eqb_spec r MAM_MAPPING_SUCCESSFUL) as [->|]; done.
Qed.

Lemma is_mmio_spec g s m F1 F2 y : gpm_rep g s m F1 F2 -> 0 <= y ->
  gpm_is_mmio_address hpa_to_hva cpu (Some g) s y = Ok (match m y with Unmapped r => r =? GPM_MMIO | Mapped _ _ => false end).
Proof.
  intros (H1 & _) Hy. unfold gpm_is_mmio_address. rewrite (query _ _ _ _ _ H1 Hy), bind_Ok. by destruct (m y).
Qed.

(** ** Iteration *)

(** The iterator is at the end or at a range. *)
Definition at_iter (mam : MAM) (s : mstate A) (m : amap) (F : gset Z) (x : Z) : Prop :=
  x = MAM_INVALID_MEMORY_RANGES_ITERATOR \/ cursor mam s m F x.

(** [y] is the first visible range from [x] on. *)
Definition first_visible (mam : MAM) (s : mstate A) (m : amap) (F : gset Z) (x y : Z) : Prop :=
  x <= y /\ (forall z, x <= z < y -> visible (m z) = false) /\
  (y = MAM_INVALID_MEMORY_RANGES_ITERATOR \/ cursor mam s m F y /\ visible (m y) = true).

Lemma above_invisible mam s m F z : represents mam s m F -> tsz (first_table_ops mam) <= z -> visible (m z) = false.
Proof. intros HR Hz. by rewrite (unmapped_above _ _ _ _ _ _ _ _ HR Hz). Qed.

Lemma uniform_visible m x size z : uniform m (x, size) -> x <= z < x + size -> visible (m z) = visible (m x).
Proof. intros Hu Hz. rewrite (Hu z Hz). cbn [fst]. by destruct (m x). Qed.

Lemma at_iter_start mam s m F x : level_ok (first_table_ops mam) -> at_iter mam s m F x ->
  0 <= x <= MAM_INVALID_MEMORY_RANGES_ITERATOR /\ mam_get_range_start_address_from_iterator x = x.
Proof.
  intros Hl Hx. unfold mam_get_range_start_address_from_iterator.
  destruct Hx as [->|[Hx _]]; [done|]. pose proof (esz_le (first_table_ops mam)). rewrite tsz_esz in Hx.
  unfold MAM_INVALID_MEMORY_RANGES_ITERATOR. split; [lia|]. by destruct (Z.eqb_spec x (2 ^ 64 - 1)).
Qed.

Lemma represents_level mam s m F : represents mam s m F -> level_ok (first_table_ops mam).
Proof. by intros [(? & _) _]. Qed.

Lemma advance_loop_spec s m F : clean m -> forall n mam x, represents mam s m F -> at_iter mam s m F x ->
  tsz (first_table_ops mam) - x <= 4096 * Z.of_nat n ->
  exists y mam', advance_loop hpa_to_hva cpu n mam s (result_of (m x)).1 x = Ok (y, mam') /\
    represents mam' s m F /\ first_table_ops mam' = first_table_ops mam /\ first_visible mam' s m F x y.
Proof.
  intros Hc. induction n as [|n IH]; intros mam x HR Hx Hn;
    destruct (at_iter_start _ _ _ _ _ (represents_level _ _ _ _ HR) Hx) as [Hx0 _].
  all: cbn [advance_loop]; rewrite relevant_result by (apply Hc; lia); destruct (visible (m x)) eqn:Ev; cbn [orb].
  1,3: exists x, mam; unfold first_visible; split_and!; [done..|lia|lia|]; destruct Hx as [->|Hx]; [by left|by right].
  all: destruct (Z.eqb_spec x MAM_INVALID_MEMORY_RANGES_ITERATOR) as [->|Hne];
    [exists MAM_INVALID_MEMORY_RANGES_ITERATOR, mam; unfold first_visible; split_and!; [done..|lia|lia|by left]|].
  all: destruct Hx as [Hx|Hx]; [done|].
  { exfalso. destruct Hx as [Hx _]. lia. }
  destruct (details_spec _ _ _ _ _ _ _ _ HR Hx) as (size & next & -> & Hsz & Hle & Hu & Hnext). rewrite bind_Ok.
  set (mam1 := set_last_iterator mam x size). assert (HR1 : represents mam1 s m F) by exact HR.
  assert (Hnx : at_iter mam1 s m F next) by (destruct Hnext as [[-> _]|[-> Hcur]]; [by left|by right]).
  destruct (at_iter_start _ _ _ _ _ (represents_level _ _ _ _ HR1) Hnx) as [Hn0 ->].
  rewrite (query _ _ _ _ _ HR1) by lia. rewrite bind_Ok.
  assert (Hmore : x + size <= next).
  { destruct Hnext as [[-> ->]|[-> _]]; [|lia]. rewrite tsz_esz. pose proof (esz_le (first_table_ops mam)).
    unfold MAM_INVALID_MEMORY_RANGES_ITERATOR. lia. }
  destruct (IH mam1 next HR1 Hnx) as (y & mam' & E & HR' & Hl' & Hy & Hinv & Hend).
  { destruct Hnext as [[-> Hend]|[-> _]]; [|change (first_table_ops mam1) with (first_table_ops mam); lia].
    change (first_table_ops mam1) with (first_table_ops mam). lia. }
  exists y, mam'. unfold first_visible. split_and!; [done..|lia| |done]. intros z Hz.
  destruct (decide (z < x + size)); [by rewrite (uniform_visible m x size z Hu) by lia|].
  destruct Hnext as [[_ Heq]|[-> _]]; [|apply Hinv; lia]. apply (above_invisible mam s m F); [done|lia].
Qed.

Lemma advance_spec s m F n mam x : clean m -> represents mam s m F -> at_iter mam s m F x ->
  tsz (first_table_ops mam) - x <= 4096 * Z.of_nat n ->
  exists y mam', gpm_advance_mam_iterator_to_appropriate_range hpa_to_hva cpu n mam s x = Ok (y, mam') /\
    represents mam' s m F /\ first_table_ops mam' = first_table_ops mam /\ first_visible mam' s m F x y.
Proof.
  intros Hc HR Hx Hn. unfold gpm_advance_mam_iterator_to_appropriate_range.
  destruct (at_iter_start _ _ _ _ _ (represents_level _ _ _ _ HR) Hx) as [Hx0 ->].
  rewrite (query _ _ _ _ _ HR) by lia. rewrite bind_Ok. by apply advance_loop_spec.
Qed.

Lemma ranges_iterator_spec n g s m F1 F2 : gpm_rep g s m F1 F2 -> tsz (first_table_ops (gpa_to_hpa g)) <= 4096 * Z.of_nat n ->
  exists y g', gpm_get_ranges_iterator hpa_to_hva cpu n (Some g) s = Ok (y, Some g') /\ gpm_rep g' s m F1 F2 /\
    first_table_ops (gpa_to_hpa g') = first_table_ops (gpa_to_hpa g) /\ first_visible (gpa_to_hpa g') s m F1 0 y.
Proof.
  intros (H1 & H2 & Hd & Hc) Hn. unfold gpm_get_ranges_iterator, mam_get_memory_ranges_iterator.
  pose proof (represents_level _ _ _ _ H1) as Hl.
  set (mam := set_last_iterator _ _ _). assert (HR : represents mam s m F1) by exact H1.
  change (first_table_ops mam) with (first_table_ops (gpa_to_hpa g)).
  rewrite (proj2 (Nat.eqb_neq _ _)) by (unfold level_ok in Hl; lia).
  destruct (advance_spec s m F1 n mam 0 Hc HR) as (y & mam' & E & HR' & Hl' & Hy);
    [right; by eapply cursor_first|change (first_table_ops mam) with (first_table_ops (gpa_to_hpa g)); lia|].
  change (0 =? MAM_INVALID_MEMORY_RANGES_ITERATOR) with false. cbv beta iota zeta.
  rewrite E, bind_Ok. exists y, (set_gpa_to_hpa g mam'). split; [|done].
  by destruct (Z.eqb_spec y MAM_INVALID_MEMORY_RANGES_ITERATOR) as [->|].
Qed.

(** One step of the iterator of the guest's memory. *)
Lemma gpm_details_spec n g s m F1 F2 x : gpm_rep g s m F1 F2 ->
  cursor (gpa_to_hpa g) s m F1 x -> tsz (first_table_ops (gpa_to_hpa g)) - x <= 4096 * Z.of_nat (S n) ->
  exists size next g', gpm_get_range_details_from_iterator hpa_to_hva cpu (S n) g s x = Ok (next, x, size, g') /\
    4096 <= size /\ x + size <= tsz (first_table_ops (gpa_to_hpa g)) /\ uniform m (x, size) /\ gpm_rep g' s m F1 F2 /\
    first_table_ops (gpa_to_hpa g') = first_table_ops (gpa_to_hpa g) /\
    first_visible (gpa_to_hpa g') s m F1 (x + size) next.
Proof.
  intros (H1 & H2 & Hd & Hc) Hx Hn. unfold gpm_get_range_details_from_iterator.
  pose proof (represents_level _ _ _ _ H1) as Hl. pose proof (esz_le (first_table_ops (gpa_to_hpa g))) as Hmax.
  assert (Hxb : 0 <= x < tsz (first_table_ops (gpa_to_hpa g))) by (by destruct Hx).
  assert (Hts : tsz (first_table_ops (gpa_to_hpa g)) < 2 ^ 64 - 1) by (rewrite tsz_esz; lia).
  rewrite (proj2 (Z.eqb_neq _ _)) by (unfold GPM_INVALID_RANGES_ITERATOR; lia).
  destruct (details_spec _ _ _ _ _ _ _ _ H1 Hx) as (size & next & -> & Hsz & Hle & Hu & Hnext). rewrite bind_Ok.
  set (mam := set_last_iterator _ _ _). assert (HR : represents mam s m F1) by exact H1.
  assert (Hnx : at_iter mam s m F1 next) by (destruct Hnext as [[-> _]|[-> Hcur]]; [by left|by right]).
  destruct (advance_spec s m F1 (S n) mam next Hc HR Hnx) as (y & mam' & -> & HR' & Hl' & Hy & Hinv & Hend).
  { change (first_table_ops mam) with (first_table_ops (gpa_to_hpa g)).
    destruct Hnext as [[-> _]|[-> _]]; [unfold MAM_INVALID_MEMORY_RANGES_ITERATOR; lia|lia]. }
  rewrite bind_Ok. exists size, y, (set_gpa_to_hpa g mam'). split.
  { by destruct (Z.eqb_spec y MAM_INVALID_MEMORY_RANGES_ITERATOR) as [->|]. }
  split_and!; [done..|]. split_and!; [| |done].
  - destruct Hnext as [[-> _]|[-> _]]; [unfold MAM_INVALID_MEMORY_RANGES_ITERATOR in *; lia|lia].
  - intros z Hz. destruct Hnext as [[_ Heq]|[-> _]]; [|apply Hinv; lia].
    apply (above_invisible (gpa_to_hpa g) s m F1); [done|lia].
Qed.

(** The iterators are at whole pages. *)
Definition paged (x : Z) : Prop := x = MAM_INVALID_MEMORY_RANGES_ITERATOR \/ x mod 4096 = 0.

Lemma details_page mam (s : mstate A) x next start size mam' : paged x -> x <> MAM_INVALID_MEMORY_RANGES_ITERATOR ->
  mam_get_range_details_from_iterator hpa_to_hva mam s x = Ok (next, start, size, mam') -> size mod 4096 = 0 /\ paged next.
Proof.
  intros [?|Hx] Hne HE; [done|]. unfold mam_get_range_details_from_iterator in HE. rewrite (proj2 (Z.eqb_neq _ _) Hne) in HE.
  ostep HE. cbv zeta in HE. destruct (negb _); [done|]. injection HE as <- _ -> _. apply size_of_range_page in E. split; [done|].
  destruct (_ <=? _); [by left|right]. unfold u64, wrap. by apply wrap64_page, add_page.
Qed.

Lemma advance_page n : forall mam (s : mstate A) res x y mam', paged x ->
  advance_loop hpa_to_hva cpu n mam s res x = Ok (y, mam') -> paged y.
Proof.
  induction n as [|n IH]; intros mam s res x y mam' Hx HE; cbn [advance_loop] in HE.
  all: destruct (relevant res); cbn [orb] in HE; [by simplify_eq|].
  all: destruct (Z.eqb_spec x MAM_INVALID_MEMORY_RANGES_ITERATOR); [by simplify_eq|]; [done || idtac].
  ostep HE. destruct r as [[[next start] size] mam1]. apply details_page in E as [_ Hn]; [|done..]. ostep HE. by eapply IH.
Qed.

Lemma gpm_details_page n g (s : mstate A) x next start size g' : paged x -> x <> MAM_INVALID_MEMORY_RANGES_ITERATOR ->
  gpm_get_range_details_from_iterator hpa_to_hva cpu n g s x = Ok (next, start, size, g') -> size mod 4096 = 0 /\ paged next.
Proof.
  intros Hx Hne HE. unfold gpm_get_range_details_from_iterator in HE. change GPM_INVALID_RANGES_ITERATOR with MAM_INVALID_MEMORY_RANGES_ITERATOR in HE.
  rewrite (proj2 (Z.eqb_neq _ _) Hne) in HE.
  ostep HE. destruct r as [[[nx st] sz] mam1]. apply details_page in E as [Hs Hn]; [|done..]. ostep HE. destruct r as [y mam2].
  unfold gpm_advance_mam_iterator_to_appropriate_range in E. ostep E. apply advance_page in E; [|done].
  injection HE as <- _ <- _. split; [done|]. by destruct (_ =? _); [left|].
Qed.

Lemma ranges_iterator_page n g (s : mstate A) y g' : gpm_get_ranges_iterator hpa_to_hva cpu n (Some g) s = Ok (y, Some g') -> paged y.
Proof.
  intros HE. unfold gpm_get_ranges_iterator, mam_get_memory_ranges_iterator in HE. destruct (_ =? 0)%nat; cbv beta iota zeta in HE.
  { change (MAM_INVALID_MEMORY_RANGES_ITERATOR =? MAM_INVALID_MEMORY_RANGES_ITERATOR) with true in HE. injection HE as <- _. by left. }
  change (0 =? MAM_INVALID_MEMORY_RANGES_ITERATOR) with false in HE. cbv beta iota in HE. ostep HE. destruct r as [x mam1].
  unfold gpm_advance_mam_iterator_to_appropriate_range in E. ostep E. apply advance_page in E; [|by right].
  injection HE as <- _. by destruct (_ =? _); [left|].
Qed.

(** ** Copy *)

Section Copy.
Context (override_attrs : bool) (set_attrs : Z).

(** What an address of the destination holds, from what the source and the destination held. *)
Definition copied (res : bool) (c d d' : mapping) : Prop :=
  match c with
  | Mapped a attrs => d' = Mapped a (if override_attrs then set_attrs else attrs) \/ res = false /\ d' = d
  | Unmapped r => if r =? GPM_MMIO then d' = Unmapped GPM_MMIO \/ res = false /\ d' = d else d' = d
  end.

Lemma copied_invisible res c d : visible c = false -> copied res c d d.
Proof. destruct c as [r|a attrs]; [|done]. cbn. by intros ->. Qed.

Lemma copied_failed c d : copied false c d d.
Proof. destruct c as [r|a attrs]; cbn; [|by right]. destruct (r =? GPM_MMIO); [by right|done]. Qed.

(** One range. *)
Lemma copy_range_spec src dst s m d F1 F2 G1 G2 x size : gpm_rep src s m F1 F2 -> gpm_rep dst s d G1 G2 ->
  fits 8 set_attrs -> 0 <= x -> 0 < size -> x + size < 2 ^ 64 -> uniform m (x, size) -> visible (m x) = true ->
  grefined G1 G2 s (fun res d' => forall y, 0 <= y ->
      if in_rng x size y then copied res (m y) (d y) (d' y) else d' y = d y)
    (copy_range hva_to_hpa hpa_to_hva (S fuel) cpu src (Some dst) s override_attrs set_attrs x size).
Proof.
  intros HS HD Hset Hx Hsz Hw Hu Hv. unfold copy_range. rewrite (gpa_to_hpa_spec _ _ _ _ _ _ HS Hx), bind_Ok.
  pose proof HS as (HR & _). destruct (m x) as [r|a attrs] eqn:Em.
  - rewrite (is_mmio_spec _ _ _ _ _ _ HS Hx), bind_Ok, Em. cbn [visible] in Hv. rewrite Hv. apply Z.eqb_eq in Hv as ->.
    destruct (unmap_spec GPM_MMIO dst s d G1 G2 x size ltac:(by right) HD Hx Hsz Hw) as (res & g' & s' & d' & G' & E & HD' & Hev & Hup).
    exists res, g', s', d', G'. split; [exact E|]. split_and!; [done..|]. intros y Hy. specialize (Hup y Hy). unfold updated_at in Hup.
    destruct (in_rng x size y) eqn:Er; [|done]. apply in_rng_spec in Er. rewrite (Hu y Er). cbn [fst]. by rewrite Em.
  - assert (Hlast : m (x + size - 1) = Mapped (a + (size - 1)) attrs).
    { rewrite (Hu (x + size - 1)) by (cbn; lia). cbn [fst]. rewrite Em. cbn [shifted]. f_equal. lia. }
    assert (Hy1 : 0 <= x + size - 1) by lia. destruct (mapped_bound _ _ _ _ _ _ _ _ _ _ HR Hy1 Hlast) as [Ha Hat].
    destruct (mapped_bound _ _ _ _ _ _ _ _ _ _ HR Hx Em) as [Ha0 _].
    destruct (add_mapping_spec dst s d G1 G2 x a size (if override_attrs then set_attrs else attrs) HD Hx ltac:(lia) Hw
      ltac:(lia) ltac:(lia) ltac:(by destruct override_attrs)) as (res & g' & s' & d' & G' & E & HD' & Hev & Hup).
    exists res, g', s', d', G'. split; [exact E|]. split_and!; [done..|]. intros y Hy. specialize (Hup y Hy). unfold updated_at in Hup.
    destruct (in_rng x size y) eqn:Er; [|done]. apply in_rng_spec in Er. rewrite (Hu y Er). cbn [fst]. rewrite Em.
    cbn [shifted copied]. by replace (a + (y - x)) with (y - x + a) by lia.
Qed.

(** A range of whole pages that the guest sees is refused only for lack of memory. *)
Lemma copy_range_starved src dst s m F1 F2 x size dst' s' : gpm_rep src s m F1 F2 -> 0 <= x -> 0 < size -> x + size <= 2 ^ 48 ->
  x mod 4096 = 0 -> size mod 4096 = 0 -> visible (m x) = true ->
  copy_range hva_to_hpa hpa_to_hva (S fuel) cpu src (Some dst) s override_attrs set_attrs x size = Ok (false, dst', s') -> starved s'.
Proof.
  intros HS Hx Hsz Hle Hax Has Hv HE. unfold copy_range in HE. rewrite (gpa_to_hpa_spec _ _ _ _ _ _ HS Hx), bind_Ok in HE.
  pose proof HS as (HR & _). pose proof (query _ _ _ _ _ HR Hx) as Hq. destruct (m x) as [r|a attrs] eqn:Em.
  - rewrite (is_mmio_spec _ _ _ _ _ _ HS Hx), bind_Ok, Em in HE. cbn [visible] in Hv. rewrite Hv in HE.
    unfold gpm_add_mmio_range, unmap, lift in HE. ostep HE. destruct r0 as [[res [mam|]] s1]; [|done]. injection HE as -> _ ->.
    apply removal_fails in E as [[E _]|[_ E]]; [|done]. exfalso. apply removal_refused_spec in E; [|lia..]. cbn [op_refused] in E.
    destruct E as [E|[E|[E|[E|E]]]]; [lia..|discriminate E|discriminate E|lia].
  - apply get_mapping_page in Hq; [|done]. unfold gpm_add_mapping, lift in HE. ostep HE. destruct r as [[res [mam|]] s1]; [|done].
    injection HE as -> _ ->. apply insert_fails in E as [[E _]|[_ E]]; [|done]. exfalso.
    apply (insert_refused_spec x a size 0) in E; [|lia..]. cbn [op_refused] in E. destruct E as [E|[E|[E|[E|E]]]]; lia.
Qed.

Lemma copy_loop_spec m F1 F2 G2 : fits 8 set_attrs -> forall n src dst s d G1 x,
  gpm_rep src s m F1 F2 -> gpm_rep dst s d G1 G2 -> F1 ∪ F2 ## G1 ∪ G2 ->
  first_visible (gpa_to_hpa src) s m F1 x x -> 0 <= x -> paged x -> tsz (first_table_ops (gpa_to_hpa src)) - x <= 4096 * Z.of_nat n ->
  exists res src' dst' s' d' G1', copy_loop hva_to_hpa hpa_to_hva (S fuel) cpu n src (Some dst) s override_attrs set_attrs x
      = Ok (res, src', Some dst', s') /\
    gpm_rep src' s' m F1 F2 /\ gpm_rep dst' s' d' G1' G2 /\ evolves (tabs s) (tabs s') G1 G1' /\
    (res = false -> starved s') /\
    forall y, 0 <= y -> if y <? x then d' y = d y else copied res (m y) (d y) (d' y).
Proof.
  intros Hset. induction n as [|n IH]; intros src dst s d G1 x HS HD Hdis Hfv Hx0 Hpx Hn.
  all: pose proof HS as (HR & _); destruct Hfv as (_ & _ & [->|[Hcur Hv]]).
  1,3: exists true, src, dst, s, d, G1; split_and!; [done..|apply evolves_refl|done|]; intros y Hy;
    destruct (y <? _) eqn:E; [done|]; apply Z.ltb_ge in E; apply copied_invisible;
    apply (above_invisible (gpa_to_hpa src) s m F1); [done|]; rewrite tsz_esz;
    pose proof (esz_le (first_table_ops (gpa_to_hpa src))); unfold MAM_INVALID_MEMORY_RANGES_ITERATOR in E; lia.
  { exfalso. destruct Hcur as [Hcur _]. lia. }
  cbn [copy_loop]. pose proof Hcur as [Hxb _]. pose proof (esz_le (first_table_ops (gpa_to_hpa src))) as Hmax.
  assert (Hts : tsz (first_table_ops (gpa_to_hpa src)) < 2 ^ 64 - 1) by (rewrite tsz_esz; lia).
  rewrite (proj2 (Z.eqb_neq _ _)) by (unfold GPM_INVALID_RANGES_ITERATOR; lia).
  destruct (gpm_details_spec n src s m F1 F2 x HS Hcur Hn) as (size & next & src1 & Ed & Hsz & Hle & Hu & HS1 & Hl1 & Hfv1).
  rewrite Ed, bind_Ok. apply gpm_details_page in Ed as [Has Hpn]; [|done|unfold MAM_INVALID_MEMORY_RANGES_ITERATOR; lia].
  assert (Hax : x mod 4096 = 0) by (destruct Hpx as [->|?]; [unfold MAM_INVALID_MEMORY_RANGES_ITERATOR in *; lia|done]).
  destruct (copy_range_spec src1 dst s m d F1 F2 G1 G2 x size HS1 HD Hset Hx0 ltac:(lia) ltac:(lia) Hu Hv)
    as (res & dst1 & s1 & d1 & G1' & Ec & HD1 & Hev1 & Hup). rewrite Ec, bind_Ok.
  pose proof (gpm_rep_pages _ _ _ _ _ HD1) as Hpg.
  apply disjoint_union_r in Hdis as [Hdis1 Hdis2].
  destruct (gpm_rep_frame _ _ _ _ _ _ _ _ HS1 Hev1 Hdis1 Hpg) as [HS2 Hdis3].
  destruct res; cbn [negb].
  2: { exists false, src1, dst1, s1, d1, G1'. split_and!; [done..| |].
       { intros _. eapply copy_range_starved; [exact HS1|exact Hx0| | |exact Hax|exact Has|exact Hv|exact Ec]; [lia|].
         rewrite tsz_esz in Hle. lia. }
       intros y Hy. specialize (Hup y Hy).
       destruct (in_rng x size y) eqn:Er.
       - apply in_rng_spec in Er. destruct (Z.ltb_spec y x); [lia|done].
       - rewrite Hup. destruct (y <? x); [done|apply copied_failed]. }
  destruct Hfv1 as (Hle1 & Hinv & Hend).
  destruct (IH src1 dst1 s1 d1 G1' next HS2 HD1) as (res & src2 & dst2 & s2 & d2 & G1'' & E & HS3 & HD3 & Hev2 & Hst & Hup2);
    [by apply disjoint_union_r| |lia|done|rewrite Hl1; lia|].
  { split_and!; [lia|lia|]. destruct Hend as [->|[Hc1 Hv1]]; [by left|right]. split; [|done].
    apply disjoint_union_l in Hdis1 as [Hd1 _]. eapply cursor_frame; [exact Hc1|exact Hev1|done]. }
  exists res, src2, dst2, s2, d2, G1''. split_and!; [done..|by eapply evolves_trans|done|].
  intros y Hy. specialize (Hup y Hy). specialize (Hup2 y Hy).
  destruct (in_rng x size y) eqn:Er.
  - apply in_rng_spec in Er. destruct (Z.ltb_spec y x); [lia|]. destruct (Z.ltb_spec y next); [|lia]. rewrite Hup2.
    destruct (m y) as [r|a attrs]; cbn in Hup |- *; [destruct (r =? GPM_MMIO); [|done]|]; destruct Hup as [->|[[=] _]]; by left.
  - rewrite Hup in Hup2. destruct (Z.ltb_spec y x); [destruct (Z.ltb_spec y next); [done|lia]|].
    destruct (Z.ltb_spec y next); [|done]. rewrite Hup2. apply copied_invisible, Hinv.
    assert (x + size <= y); [|lia]. destruct (decide (x + size <= y)); [done|].
    assert (in_rng x size y = true) by (apply in_rng_spec; lia). congruence.
Qed.
End Copy.

(** ** Creation *)

Lemma pages_after_alloc (s : mstate A) p a : pages_ok s -> vmm_page_alloc (pages s) = Ok (p, a) -> pages_ok (mk_mstate (tabs s) a).
Proof.
  intros (S & Ho & Hd) E. destruct (alloc_law _ _ Ho) as (p' & a' & E' & H). rewrite E in E'. simplify_eq.
  destruct H as [[_ H]|(_ & _ & _ & H)]; eexists; (split; [exact H|]); cbn [tabs]; [done|].
  etrans; [exact Hd|apply union_subseteq_r].
Qed.

Lemma created_map (s s' : mstate A) attrs ptr mam : pages_ok s -> mam_create_mapping s attrs = Ok (Some (ptr, mam), s') ->
  exists F, represents mam s' nothing_mapped F /\ evolves (tabs s) (tabs s') ∅ F.
Proof.
  intros Hpg E. destruct (create_mapping_spec hva_to_hpa hpa_to_hva s attrs Hpg) as (r & s1 & E1 & H). rewrite E in E1.
  by injection E1 as <- <-.
Qed.

(** A new guest memory is empty and in new pages. *)
Lemma create_gpm_spec fuel0 (s s' : mstate A) g : pages_ok s -> gpm_create_mapping hpa_to_hva fuel0 cpu s = Ok (Some g, s') ->
  exists F1 F2, gpm_rep g s' nothing_mapped F1 F2 /\ evolves (tabs s) (tabs s') ∅ (F1 ∪ F2).
Proof.
  intros Hpg E. unfold gpm_create_mapping in E. apply bind_Ok_inv in E as ([p a] & Ea & E).
  destruct (p =? 0); [done|]. pose proof (pages_after_alloc _ _ _ Hpg Ea) as Hpg1.
  apply bind_Ok_inv in E as ([[[ptr1 mam1]|] s1] & E1 & E).
  2: { by apply bind_Ok_inv in E as (a1 & _ & E). }
  destruct (created_map _ _ _ _ _ Hpg1 E1) as (F1 & HR1 & Hev1). pose proof (represents_pages _ _ _ _ _ _ _ HR1) as Hpg2.
  apply bind_Ok_inv in E as ([[[ptr2 mam2]|] s2] & E2 & E).
  2: { apply bind_Ok_inv in E as (a1 & _ & E). by apply bind_Ok_inv in E as (a2 & _ & E). }
  destruct (created_map _ _ _ _ _ Hpg2 E2) as (F2 & HR2 & Hev2). injection E as <- <-. cbn [tabs] in Hev1.
  destruct (represents_frame _ _ _ _ _ _ _ _ _ _ HR1 Hev2 (disjoint_empty_r _) (represents_pages _ _ _ _ _ _ _ HR2)) as [HR1' Hd].
  exists F1, F2. split; [split_and!; [done..|intros y _; done]|].
  eapply evolves_trans; [exact Hev1|]. destruct (evolves_frame _ _ _ _ F1 Hev2) as [Hev _];
    [by eapply represents_dom|apply disjoint_empty_r|].
  by rewrite union_empty_l_L, (union_comm_L F2) in Hev.
Qed.

(** Two new guests, the first one with some memory. *)
Lemma two_guests (s0 s1 s2 s3 : mstate A) g1 g2 g1' hpa size attrs fuel0 : pages_ok s0 ->
  gpm_create_mapping hpa_to_hva fuel0 cpu s0 = Ok (Some g1, s1) -> gpm_create_mapping hpa_to_hva fuel0 cpu s1 = Ok (Some g2, s2) ->
  gpm_add_mapping hva_to_hpa hpa_to_hva (S fuel) cpu (Some g1) s2 0 hpa size attrs = Ok (true, Some g1', s3) ->
  0 <= size < 2 ^ 64 -> 0 <= hpa -> hpa + size <= 2 ^ 40 -> fits 8 attrs ->
  exists m F1 F2 G1 G2,
    (forall y, 0 <= y -> m y = if in_rng 0 size y then Mapped (y + hpa) attrs else Unmapped MAM_UNKNOWN_MAPPING) /\
    gpm_rep g1' s3 m F1 F2 /\ gpm_rep g2 s3 nothing_mapped G1 G2 /\ F1 ∪ F2 ## G1 ∪ G2.
Proof.
  intros Hpg E1 E2 E3 Hsz Hh Hb Hat.
  destruct (create_gpm_spec _ _ _ _ Hpg E1) as (F1 & F2 & H1 & _). pose proof (gpm_rep_pages _ _ _ _ _ H1) as Hpg1.
  destruct (create_gpm_spec _ _ _ _ Hpg1 E2) as (G1 & G2 & H2 & Hev2).
  destruct (gpm_rep_frame _ _ _ _ _ _ _ _ H1 Hev2 (disjoint_empty_r _) (gpm_rep_pages _ _ _ _ _ H2)) as [H1' Hd].
  destruct (add_mapping_spec g1 s2 nothing_mapped F1 F2 0 hpa size attrs H1' ltac:(lia) ltac:(lia) ltac:(lia) Hh Hb Hat)
    as (res & g & s & m & F1' & E & H3 & Hev3 & Hup).
  rewrite E3 in E. injection E as <- <- <-. apply disjoint_union_l in Hd as [Hd1 Hd2].
  destruct (gpm_rep_frame _ _ _ _ _ _ _ _ H2 Hev3 ltac:(by symmetry) (gpm_rep_pages _ _ _ _ _ H3)) as [H2' Hd3].
  exists m, F1', F2, G1, G2. split_and!; [|done|done|by apply disjoint_union_l].
  intros y Hy. specialize (Hup y Hy). unfold updated_at in Hup. destruct (in_rng 0 size y); [|done].
  destruct Hup as [->|[[=] _]]. f_equal. lia.
Qed.
End Guest.

(** * Properties *)

(** C19. Copying a guest's memory into another guest's, in a loop with room for one step per page of
    the source, ends, keeps the source, and makes the destination map every address that the source
    maps, to the same host address and with the same or the given attributes (of 8 bits), make MMIO of
    every MMIO address, and keep the rest. It fails only when the heap has answered NULL to a
    request for a page, and then each address is either copied or as it was. *)
Theorem gpm_copy_spec {A : Type} `{!Pages A} (hva_to_hpa hpa_to_hva : Z -> option Z)
  `{!PagesLaws A (table_ok hva_to_hpa hpa_to_hva)} (fuel n : nat) (cpu : Z) (src dst : GPM) (s : mstate A) (m d : amap)
  (F1 F2 G1 G2 : gset Z) (override_attrs : bool) (set_attrs : Z) :
  gpm_rep hva_to_hpa hpa_to_hva src s m F1 F2 -> gpm_rep hva_to_hpa hpa_to_hva dst s d G1 G2 -> F1 ∪ F2 ## G1 ∪ G2 ->
  fits 8 set_attrs -> tsz (first_table_ops (gpa_to_hpa src)) <= 4096 * Z.of_nat n ->
  exists res src' dst' s' d' G1',
    gpm_copy hva_to_hpa hpa_to_hva (S fuel) cpu n (Some src) (Some dst) s override_attrs set_attrs
      = Ok (res, Some src', Some dst', s') /\
    gpm_rep hva_to_hpa hpa_to_hva src' s' m F1 F2 /\ gpm_rep hva_to_hpa hpa_to_hva dst' s' d' G1' G2 /\
    (res = false -> starved s') /\
    forall y, 0 <= y -> copied override_attrs set_attrs res (m y) (d y) (d' y).
Proof.
  intros HS HD Hdis Hset Hn. unfold gpm_copy.
  destruct (ranges_iterator_spec hva_to_hpa hpa_to_hva cpu n src s m F1 F2 HS Hn) as (x & src1 & Ei & HS1 & Hl & Hx & Hinv & Hend).
  rewrite Ei, bind_Ok. apply ranges_iterator_page in Ei.
  destruct (copy_loop_spec hva_to_hpa hpa_to_hva fuel cpu override_attrs set_attrs m F1 F2 G2 Hset n src1 dst s d G1 x HS1 HD Hdis)
    as (res & src' & dst' & s' & d' & G1' & -> & HS' & HD' & _ & Hst & Hall);
    [split_and!; [lia|lia|done]|lia|done|rewrite Hl; lia|].
  rewrite bind_Ok. exists res, src', dst', s', d', G1'. split_and!; [done..|]. intros y Hy. specialize (Hall y Hy).
  destruct (Z.ltb_spec y x) as [Hlt|]; [|done]. rewrite Hall. apply copied_invisible, Hinv. lia.
Qed.

(** gpm_api.h offers the translation of a host address to the guest's; without USE_HPA_TO_GPA
    nothing fills its mapping, and whatever the guest's memory is, the answer is FALSE. *)
Theorem hpa_to_gpa_never_answers {A : Type} `{!Pages A} (hva_to_hpa hpa_to_hva : Z -> option Z)
  `{!PagesLaws A (table_ok hva_to_hpa hpa_to_hva)} (cpu : Z) (g : GPM) (s : mstate A) (m : amap) (F1 F2 : gset Z) (hpa : Z) :
  gpm_rep hva_to_hpa hpa_to_hva g s m F1 F2 -> 0 <= hpa -> gpm_hpa_to_gpa hpa_to_hva cpu (Some g) s hpa = Ok None.
Proof.
  intros (_ & H2 & _) Hh. unfold gpm_hpa_to_gpa. rewrite (query _ _ _ _ _ _ _ _ H2 Hh). done.
Qed.

(** Two guests on a heap of 16 pages; the first one has 8 KB of memory at 1 GB of the host. *)
Module GuestExample.
Import MamHeap.Example.

Definition start : mstate heap := mk_mstate ∅ (sample [Free 16]).
Definition no_mam : MAM := mk_mam 0 0 0 0 (mk_lock 0 0) 0 0 false 0 0 0 0 0 0.

Definition got (r : outcome (option GPM * mstate heap)) : GPM * mstate heap :=
  match r with Ok (Some g, s) => (g, s) | _ => (mk_gpm no_mam no_mam, start) end.
Definition first_guest := got (gpm_create_mapping Some 0 0 start).
Definition second_guest := got (gpm_create_mapping Some 0 0 first_guest.2).

Definition filled : bool * GPM * mstate heap :=
  match gpm_add_mapping Some Some 1 0 (Some first_guest.1) second_guest.2 0 (2 ^ 30) 8192 7 with
  | Ok (res, Some g, s) => (res, g, s)
  | _ => (false, mk_gpm no_mam no_mam, start)
  end.

Definition memory_of_first (y : Z) : mapping :=
  if in_rng 0 8192 y then Mapped (y + 2 ^ 30) 7 else Unmapped MAM_UNKNOWN_MAPPING.

Lemma start_pages : pages_ok Some Some start.
Proof.
  exists ∅. split; [|done]. exists [Free 16]. split_and!; [apply sample_wf; [blocks_ok_tac|simpl; lia]|done| |set_solver].
  intros i [Hi _]. change (0 <= i < 16) in Hi. change (page_address _ i) with (65536 + i * 4096).
  assert ((65536 + i * 4096) mod 4096 = 0) by (rewrite Z.mod_add by lia; done).
  unfold table_ok, addr_ok, mam_hva_to_hpa, mam_hpa_to_hva. cbv [default from_option id]. split_and!; try done; lia.
Qed.

Lemma first_eq : gpm_create_mapping Some 0 0 start = Ok (Some first_guest.1, first_guest.2).
Proof. vm_compute. reflexivity. Qed.
Lemma second_eq : gpm_create_mapping Some 0 0 first_guest.2 = Ok (Some second_guest.1, second_guest.2).
Proof. vm_compute. reflexivity. Qed.
Lemma filled_eq : gpm_add_mapping Some Some 1 0 (Some first_guest.1) second_guest.2 0 (2 ^ 30) 8192 7
  = Ok (true, Some filled.1.2, filled.2).
Proof. vm_compute. reflexivity. Qed.
Lemma filled_level : first_table_ops (gpa_to_hpa filled.1.2) = 1%nat.
Proof. vm_compute. reflexivity. Qed.
End GuestExample.

Import MamHeap.Example GuestExample.

(** The memory of the first guest is copied to the second one. *)
Lemma gpm_copy_spec_witness :
  exists m src' dst' s' d',
    (forall y, 0 <= y -> m y = memory_of_first y) /\
    gpm_copy Some Some 1 0 512 (Some filled.1.2) (Some second_guest.1) filled.2 true 3 = Ok (true, Some src', Some dst', s') /\
    forall y, 0 <= y -> copied true 3 true (m y) (nothing_mapped y) (d' y).
Proof.
  destruct (two_guests Some Some 0 0 start first_guest.2 second_guest.2 filled.2 first_guest.1 second_guest.1 filled.1.2
    (2 ^ 30) 8192 7 0 start_pages first_eq second_eq filled_eq ltac:(lia) ltac:(lia) ltac:(lia) ltac:(unfold fits; lia))
    as (m & F1 & F2 & G1 & G2 & Hm & H1 & H2 & Hd).
  destruct (gpm_copy_spec Some Some 0 512 0 filled.1.2 second_guest.1 filled.2 m nothing_mapped F1 F2 G1 G2 true 3 H1 H2 Hd
    ltac:(unfold fits; lia) ltac:(rewrite filled_level; vm_compute; discriminate))
    as (res & src' & dst' & s' & d' & G1' & E & _ & _ & _ & Hall).
  assert (res = true) as ->.
  { assert (X : match gpm_copy Some Some 1 0 512 (Some filled.1.2) (Some second_guest.1) filled.2 true 3 with
                | Ok (res, _, _, _) => res | _ => false end = true) by (vm_compute; reflexivity). by rewrite E in X. }
  exists m, src', dst', s', d'. split_and!; [exact Hm|exact E|exact Hall].
Defined.
