(* ===== verification/GpmE820.v ===== *)
(** The E820 map that gpm_create_e820_map gives to a guest: the visible memory of the guest cut
    along the ranges of the machine's own map. *)

From S2P Require Import Prelude VmmDefs Lock Heap HeapSpec E820 MamEntry MamEntrySpec Mam MamSpec MamMap MamHeap MamIter Gpm GpmSpec.

#[local] Abbreviation esz := mam_get_size_covered_by_entry.
#[local] Abbreviation tsz := mam_get_size_covered_by_table.
#[local] Abbreviation INVALID := MAM_INVALID_MEMORY_RANGES_ITERATOR.

(** * Ranges of a map *)

Definition inside (e : e820_entry) (y : Z) : Prop := base_address e <= y < base_address e + range_length e.

(** The map describes address [y] with this type and these attributes. *)
Definition described (es : list e820_entry) (y ty att : Z) : Prop :=
  exists e, e ∈ es /\ inside e y /\ address_range_type e = ty /\ extended_attributes e = att.

Lemma ordered_app l1 e l2 : ordered (l1 ++ e :: l2) -> ordered (e :: l2).
Proof. induction l1 as [|a l1 IH]; [done|]. intros (_ & _ & _ & _ & H). by apply IH. Qed.

Lemma ordered_bounds es e : ordered es -> e ∈ es ->
  0 < range_length e /\ 0 <= base_address e /\ base_address e + range_length e < 2 ^ 64.
Proof.
  induction es as [|a es IH]; intros Ho He; [by apply not_elem_of_nil in He|].
  destruct Ho as (A1 & A2 & A3 & _ & A5). apply elem_of_cons in He as [->|He]; [done|by apply IH].
Qed.

Lemma ordered_head a es e : ordered (a :: es) -> e ∈ es -> base_address a + range_length a <= base_address e.
Proof.
  revert a. induction es as [|b es IH]; intros a Ho He; [by apply not_elem_of_nil in He|].
  destruct Ho as (_ & _ & _ & A4 & A5). apply elem_of_cons in He as [->|He]; [done|].
  pose proof (IH b A5 He). destruct A5 as (? & _). lia.
Qed.

Lemma ordered_later l1 e l2 e' : ordered (l1 ++ e :: l2) -> e' ∈ l2 -> base_address e + range_length e <= base_address e'.
Proof. intros Ho%ordered_app He. by eapply ordered_head. Qed.

(** Two ranges of a map that share an address are the same. *)
Lemma ordered_unique es e e' y : ordered es -> e ∈ es -> e' ∈ es -> inside e y -> inside e' y -> e = e'.
Proof.
  unfold inside. induction es as [|a es IH]; intros Ho He He' Hy Hy'; [by apply not_elem_of_nil in He|].
  pose proof Ho as (_ & _ & _ & _ & Ho'). apply elem_of_cons in He as [->|He], He' as [->|He']; [done| | |by apply IH].
  - pose proof (ordered_head a es e' Ho He'). lia.
  - pose proof (ordered_head a es e Ho He). lia.
Qed.

Section Fill.
Context {A : Type} `{!Pages A} (hva_to_hpa hpa_to_hva : Z -> option Z).
Context `{!PagesLaws A (table_ok hva_to_hpa hpa_to_hva)}.
Context (cpu : Z) (s : mstate A) (m : amap) (F : gset Z) (L : nat).
Context (m_clean : clean m).

#[local] Abbreviation K := MAM_INTERNAL_ENTRY_OPS.
#[local] Abbreviation represents := (represents hva_to_hpa hpa_to_hva K).
#[local] Abbreviation cursor := (cursor hva_to_hpa hpa_to_hva K).

(** The object, up to the fields of the iterator. *)
Definition object (mam : MAM) : Prop := represents mam s m F /\ first_table_ops mam = L.

(** The iterator and how many bytes are left to it. *)
Definition iterator (mam : MAM) (x : Z) : Prop := x = INVALID \/ cursor mam s m F x.
Definition left_over (x : Z) : Z := if x =? INVALID then 0 else tsz L - x.

Lemma tsz_bound : 4096 <= tsz L < 2 ^ 64 - 1.
Proof. rewrite tsz_esz. pose proof (esz_le L). destruct (esz_page L) as (k & Hk & Ek). lia. Qed.

Lemma iterator_le mam x : object mam -> iterator mam x -> 0 <= x /\ 0 <= left_over x <= tsz L /\ (x <> INVALID -> x + left_over x = tsz L).
Proof.
  intros [HR HL] Hx. pose proof tsz_bound. unfold left_over. destruct (Z.eqb_spec x INVALID) as [->|Hne].
  - unfold INVALID. lia.
  - destruct Hx as [?|[Hx _]]; [done|]. rewrite HL in Hx. lia.
Qed.

(** The range [a, a + n) is visible, and nothing is between [x] and it. *)
Definition next_from (x a n : Z) : Prop :=
  x <= a /\ 4096 <= n /\ a + n <= tsz L /\ (forall z, x <= z < a -> visible (m z) = false) /\
  (forall z, a <= z < a + n -> visible (m z) = true).

Lemma next_range_spec : forall n mam x, object mam -> cursor mam s m F x -> left_over x <= 4096 * Z.of_nat n ->
  exists found x' a sz mam',
    gpm_get_range_details_and_advance_mam_iterator hpa_to_hva cpu n mam s x = Ok (found, x', a, sz, mam') /\
    object mam' /\ iterator mam' x' /\
    (if found : bool then next_from x a sz /\ (x' = INVALID \/ x' = a + sz) /\ (x' = INVALID -> a + sz = tsz L)
     else x' = INVALID /\ forall z, x <= z -> visible (m z) = false).
Proof.
  induction n as [|n IH]; intros mam x Ho Hx Hn.
  all: pose proof Ho as [HR HL]; pose proof tsz_bound as Hts; pose proof Hx as [Hxb _]; rewrite HL in Hxb.
  all: assert (left_over x = tsz L - x) as El
    by (unfold left_over; destruct (Z.eqb_spec x INVALID) as [->|]; [unfold INVALID in Hxb; lia|done]).
  { lia. }
  cbn [gpm_get_range_details_and_advance_mam_iterator].
  destruct (details_spec _ _ _ _ _ _ _ _ HR Hx) as (sz & next & -> & Hsz & Hle & Hu & Hnext). rewrite bind_Ok, HL in *.
  set (mam1 := set_last_iterator mam x sz). assert (Ho1 : object mam1) by exact Ho.
  rewrite (query _ _ _ _ _ _ _ _ (proj1 Ho1)) by lia. rewrite bind_Ok, relevant_result by (apply m_clean; lia).
  assert (Hvis : forall z, x <= z < x + sz -> visible (m z) = visible (m x)) by (intros; by eapply uniform_visible).
  assert (Hit : iterator mam1 next) by (destruct Hnext as [[-> _]|[-> Hc]]; [by left|by right]).
  destruct (visible (m x)) eqn:Ev; cbn [negb andb].
  - exists true, next, x, sz, mam1. rewrite orb_true_r. split; [done|]. split; [done|]. split; [done|]. split; [|split].
    + split_and!; [lia|lia|lia|lia|done].
    + destruct Hnext as [[-> _]|[-> _]]; [by left|by right].
    + intros ->. destruct Hnext as [[_ ?]|[E _]]; [lia|]. unfold INVALID in E. lia.
  - destruct (Z.eqb_spec next INVALID) as [->|Hne]; cbn [negb].
    + exists false, INVALID, x, sz, mam1. split_and!; [done|done|by left|done|]. intros z Hz.
      destruct Hnext as [[_ Heq]|[E _]]; [|unfold INVALID in E; lia].
      destruct (decide (z < x + sz)); [by rewrite Hvis by lia|].
      apply (above_invisible _ _ mam s m F); [done|rewrite HL; lia].
    + destruct Hnext as [[? _]|[-> Hc]]; [done|].
      destruct (IH mam1 (x + sz) Ho1 Hc) as (found & x' & a & n' & mam' & E & Ho' & Hit' & Hres).
      { unfold left_over. rewrite (proj2 (Z.eqb_neq _ _)) by done. lia. }
      exists found, x', a, n', mam'. split_and!; [done..|]. destruct found.
      * destruct Hres as [(N1 & N2 & N3 & N4 & N5) Hrest]. split; [|done]. split_and!; [lia|done|done| |done].
        intros z Hz. destruct (decide (z < x + sz)); [by rewrite Hvis by lia|]. apply N4. lia.
      * destruct Hres as [-> Hno]. split; [done|]. intros z Hz.
        destruct (decide (z < x + sz)); [by rewrite Hvis by lia|]. apply Hno. lia.
Qed.

(** ** The invariant of the construction *)

Context (orig : e820_map) (orig_ok : map_ok orig) (orig_ordered : ordered (map_entries orig)).

(** The map describes what is visible below [st] as the machine's map does. *)
Definition cover (es : list e820_entry) (st : Z) : Prop :=
  forall y ty att, described es y ty att <-> 0 <= y < st /\ visible (m y) = true /\ described (map_entries orig) y ty att.

Lemma cover_advance es st st' : cover es st -> st <= st' ->
  (forall y ty att, st <= y < st' -> visible (m y) = true -> ~ described (map_entries orig) y ty att) -> cover es st'.
Proof.
  intros Hc Hle Hno y ty att. rewrite (Hc y ty att). split; intros (H1 & H2 & H3).
  - split_and!; [lia|lia|done|done].
  - split_and!; [lia| |done|done]. destruct (decide (y < st)); [done|]. exfalso. apply (Hno y ty att); [lia|done|done].
Qed.

Lemma cover_add es st n e : cover es st -> 0 <= st -> 0 <= n -> e ∈ map_entries orig ->
  base_address e <= st -> st + n <= base_address e + range_length e ->
  (forall y, st <= y < st + n -> visible (m y) = true) ->
  cover (es ++ [mk_entry820 st n (address_range_type e) (extended_attributes e)]) (st + n).
Proof.
  intros Hc H0 Hn He Hb Hend Hv y ty att. unfold described. split.
  - intros (r & [Hr| ->%list_elem_of_singleton]%elem_of_app & Hin & <- & <-).
    + destruct (proj1 (Hc y (address_range_type r) (extended_attributes r))) as (H1 & H2 & H3); [by exists r|].
      split_and!; [lia|lia|done|done].
    + unfold inside in Hin. cbn in Hin. cbn. split_and!; [lia|lia|by apply Hv|]. exists e. split_and!; try done. unfold inside. lia.
  - intros (Hy & Hvis & e' & He' & Hin' & <- & <-). destruct (decide (y < st)) as [Hlt|Hge].
    + destruct (proj2 (Hc y (address_range_type e') (extended_attributes e'))) as (r & Hr & Hrest).
      { split_and!; [lia|lia|done|]. by exists e'. }
      exists r. split; [apply elem_of_app; by left|done].
    + assert (Hiny : inside e y) by (unfold inside; lia).
      rewrite (ordered_unique _ _ _ _ orig_ordered He' He Hin' Hiny).
      eexists. split; [apply elem_of_app; right; by apply list_elem_of_singleton|]. split_and!; [|done|done].
      unfold inside. cbn. lia.
Qed.

(** The places where a range of the new map ends, if it is not the last one: the guest cannot see what
    follows, or an entry of the machine's map ends. *)
Definition boundary (p : Z) : Prop :=
  visible (m p) = false \/ exists e, e ∈ map_entries orig /\ p = base_address e + range_length e.
Definition placed (es : list e820_entry) (st : Z) : Prop :=
  forall r, r ∈ es -> base_address r + range_length r <= st /\ boundary (base_address r + range_length r).
(** The guest's memory has more separate pieces than the page of a map has room for. *)
Definition crowded : Prop :=
  exists es, length es = 170%nat /\ ordered es /\ forall r, r ∈ es ->
    boundary (base_address r + range_length r) /\
    forall y, 0 <= y -> inside r y -> visible (m y) = true /\ described (map_entries orig) y (address_range_type r) (extended_attributes r).

Lemma placed_le es st st' : placed es st -> st <= st' -> placed es st'.
Proof. intros H Hle r Hr. destruct (H r Hr). split; [lia|done]. Qed.
Lemma full_crowded es st : length es = 170%nat -> ordered es -> cover es st -> placed es st -> crowded.
Proof.
  intros Hl Ho Hc Hp. exists es. split; [done|]. split; [done|]. intros r Hr. split; [by apply Hp|]. intros y Hy Hin.
  destruct (proj1 (Hc y (address_range_type r) (extended_attributes r))) as (_ & ? & ?); [by exists r|done].
Qed.

(** The range at hand is visible, what follows it up to the iterator is not, and the map is
    right below it. *)
Record fill_inv (f : fill) (before rest : list e820_entry) : Prop := {
  i_entries : map_entries orig = before ++ rest;
  i_object : object (f_mam f);
  i_iter : iterator (f_mam f) (f_iter f);
  i_range : 0 <= f_start f /\ 0 < f_size f /\ f_start f + f_size f <= tsz L;
  i_visible : forall z, f_start f <= z < f_start f + f_size f -> visible (m z) = true;
  i_gap : f_start f + f_size f <= f_iter f /\
    forall z, f_start f + f_size f <= z < f_iter f -> visible (m z) = false;
  i_before : forall e, e ∈ before -> base_address e + range_length e <= f_start f;
  i_map : exists map, f_map f = Some map /\ page_map map /\ cover (map_entries map) (f_start f) /\
    placed (map_entries map) (f_start f)
}.

(** The finished map. *)
Definition filled_ok (f : fill) : Prop :=
  object (f_mam f) /\ exists map, f_map f = Some map /\ page_map map /\
    forall y ty att, 0 <= y ->
      described (map_entries map) y ty att <-> visible (m y) = true /\ described (map_entries orig) y ty att.

Lemma cover_all es st : cover es st -> (forall y ty att, st <= y -> visible (m y) = true -> ~ described (map_entries orig) y ty att) ->
  forall y ty att, 0 <= y -> described es y ty att <-> visible (m y) = true /\ described (map_entries orig) y ty att.
Proof.
  intros Hc Hno y ty att Hy. rewrite (Hc y ty att). split; [naive_solver|]. intros [H1 H2].
  split_and!; [done| |done|done]. destruct (decide (y < st)); [done|]. exfalso. apply (Hno y ty att); [lia|done|done].
Qed.

(** ** Adding a range *)

Lemma add_range_spec f before e rest n : fill_inv f before (e :: rest) -> 0 < n -> n <= f_size f ->
  base_address e <= f_start f -> f_start f + n <= base_address e + range_length e ->
  exists added map', add_range f e n = Ok (added, Some map') /\
    (added = true -> page_map map' /\ cover (map_entries map') (f_start f + n) /\
       (boundary (f_start f + n) -> placed (map_entries map') (f_start f + n))) /\ (added = false -> crowded).
Proof.
  intros [He _ _ Hr Hv _ _ (map & Em & Hpm & Hc & Hends)] Hn Hle Hb Hend. unfold add_range. rewrite Em.
  pose proof tsz_bound as Hts.
  destruct (add_new_range_ok map (f_start f) n (address_range_type e) (extended_attributes e) Hpm ltac:(lia) ltac:(lia) ltac:(lia))
    as (ok & map' & -> & Hpm' & _ & Hrej & Ees). exists ok, map'. split; [done|]. split.
  2:{ intros Ef. apply Hrej in Ef as [Hl|[?|(l & El & Hlt)]]; [|lia|].
      - eapply full_crowded; [exact Hl|by destruct Hpm as (_ & _ & _ & ?)|exact Hc|exact Hends].
      - destruct (Hends l); [by apply last_Some_elem_of|lia]. }
  intros ->. split; [done|]. rewrite Ees. split.
  - apply cover_add; try done; try lia.
    + rewrite He. apply elem_of_app. right. apply list_elem_of_here.
    + intros y Hy. apply Hv. lia.
  - intros Hbd r [Hin | ->%list_elem_of_singleton]%elem_of_app; [|cbn; split; [lia|done]].
    apply (placed_le _ _ (f_start f + n) Hends); [lia|done].
Qed.

Lemma ends f before e rest : fill_inv f before (e :: rest) ->
  f_end f = f_start f + f_size f /\ entry_end e = base_address e + range_length e /\
  0 <= base_address e /\ 0 < range_length e /\ base_address e + range_length e < 2 ^ 64 /\ e ∈ map_entries orig.
Proof.
  intros [He _ _ Hr _ _ _ _]. pose proof tsz_bound as Hts.
  assert (Hin : e ∈ map_entries orig) by (rewrite He; apply elem_of_app; right; apply list_elem_of_here).
  destruct (ordered_bounds _ _ orig_ordered Hin) as (? & ? & ?). unfold f_end, entry_end. rewrite !u64_small by lia. done.
Qed.

(** Another range follows the one at hand. *)
Lemma next_step n f : object (f_mam f) -> iterator (f_mam f) (f_iter f) -> f_iter f <> INVALID ->
  left_over (f_iter f) <= 4096 * Z.of_nat n ->
  exists found x a sz mam,
    gpm_get_range_details_and_advance_mam_iterator hpa_to_hva cpu n (f_mam f) s (f_iter f) = Ok (found, x, a, sz, mam) /\
    object mam /\ iterator mam x /\
    (if found : bool
     then f_iter f <= a /\ 4096 <= sz /\ a + sz <= tsz L /\ a + sz <= x /\ left_over x + 4096 <= left_over (f_iter f) /\
       (forall z, f_iter f <= z < a -> visible (m z) = false) /\ (forall z, a <= z < a + sz -> visible (m z) = true) /\
       (forall z, a + sz <= z < x -> visible (m z) = false)
     else x = INVALID /\ forall z, f_iter f <= z -> visible (m z) = false).
Proof.
  intros Ho Hit Hne Hn. destruct Hit as [?|Hcur]; [done|].
  destruct (next_range_spec n (f_mam f) (f_iter f) Ho Hcur Hn) as (found & x & a & sz & mam & E & Ho' & Hit' & Hres).
  exists found, x, a, sz, mam. split_and!; [done..|]. destruct found; [|done].
  destruct Hres as ((N1 & N2 & N3 & N4 & N5) & Hx & Hlast). pose proof tsz_bound as Hts.
  assert (left_over (f_iter f) = tsz L - f_iter f) as El by (unfold left_over; by rewrite (proj2 (Z.eqb_neq _ _))).
  split; [done|]. split; [done|]. split; [done|]. split.
  { destruct Hx as [->| ->]; [unfold INVALID; lia|lia]. }
  split.
  { rewrite El. unfold left_over. destruct (Z.eqb_spec x INVALID); [lia|]. destruct Hx as [?| ->]; [done|lia]. }
  split; [done|]. split; [done|]. intros z Hz. destruct Hx as [->| ->]; [|lia].
  destruct Ho as [HR HL]. apply (above_invisible _ _ (f_mam f) s m F); [done|]. rewrite HL, <- Hlast by done. lia.
Qed.

(** ** The inner loop *)

Lemma merge_spec e before rest : forall n f, fill_inv f before (e :: rest) ->
  base_address e <= f_start f -> f_end f <= entry_end e -> left_over (f_iter f) <= 4096 * Z.of_nat n ->
  exists st f', merge_loop hpa_to_hva cpu n s e f = Ok (st, f') /\ object (f_mam f') /\
    match st with
    | NonContiguous => fill_inv f' before (e :: rest) /\ left_over (f_iter f') + 4096 <= left_over (f_iter f)
    | Merged => fill_inv f' before (e :: rest) /\ f_start f' = f_start f /\
        (entry_end e < f_end f' /\ left_over (f_iter f') + 4096 <= left_over (f_iter f) \/
         f_end f' <= entry_end e /\ f_iter f' = INVALID)
    | FailedToFill => crowded
    end.
Proof.
  induction n as [|n IH]; intros f Hinv Hb Hend Hn.
  all: pose proof (ends _ _ _ _ Hinv) as (Ef & Ee & E0 & E1 & E2 & Ein); pose proof tsz_bound as Hts.
  all: pose proof Hinv as [Hes Hob Hit Hr Hv Hg Hbf Hmap]; cbn [merge_loop].
  all: destruct (Z.eqb_spec (f_iter f) INVALID) as [Ei|Hne]; cbn [orb].
  1,3: exists Merged, f; split_and!; [done..|]; by right.
  all: rewrite (proj2 (Z.leb_le _ _)) by done; cbn [negb].
  { exfalso. pose proof (iterator_le _ _ Hob Hit). destruct Hit as [?|[Hc _]]; [done|]. destruct Hob as [_ HL]. rewrite HL in Hc. lia. }
  destruct (next_step (S n) f Hob Hit Hne Hn) as (found & x & a & sz & mam & -> & Ho' & Hit' & Hres). rewrite bind_Ok.
  destruct found; cbn [negb].
  2: { destruct Hres as [-> Hno]. eexists Merged, _. split; [done|]. split; [done|]. split; [|split; [done|right; done]].
       split; try done; cbn [f_mam f_iter f_start f_size f_map].
       - split; [unfold INVALID; lia|]. intros z Hz. destruct (decide (z < f_iter f)); [apply Hg; lia|apply Hno; lia]. }
  destruct Hres as (R1 & R2 & R3 & R4 & R5 & R6 & R7 & R8).
  destruct (Z.ltb_spec (f_end f) a) as [Hlt|Hge].
  - destruct (add_range_spec f before e rest (f_size f) Hinv ltac:(lia) ltac:(lia) Hb ltac:(lia)) as (added & map' & -> & Hadd & Hno).
    rewrite bind_Ok. destruct added; cbn [negb]; [|eexists FailedToFill, _; split; [done|]; split; [done|by apply Hno]].
    destruct (Hadd eq_refl) as (Hpm & Hc & Hends). eexists NonContiguous, _. split; [done|]. split; [done|]. split; [|done].
    split; try done; cbn [f_mam f_iter f_start f_size f_map].
    + lia.
    + intros e' He'. specialize (Hbf e' He'). lia.
    + exists map'. split_and!; [done|done| |].
      * eapply cover_advance; [exact Hc|lia|]. intros y ty att Hy Hvy. exfalso.
        destruct (decide (y < f_iter f)); [rewrite (proj2 Hg) in Hvy by lia|rewrite R6 in Hvy by lia]; done.
      * apply (placed_le _ (f_start f + f_size f)); [|lia]. apply Hends. left.
        destruct (decide (f_start f + f_size f < f_iter f)); [by apply Hg; lia|apply R6; lia].
  - assert (a = f_start f + f_size f) as Ea by lia. rewrite u64_small by lia.
    set (f1 := mk_fill mam (f_map f) x (f_start f) (f_size f + sz)).
    assert (Hinv1 : fill_inv f1 before (e :: rest)).
    { split; try done; unfold f1; cbn [f_mam f_iter f_start f_size f_map].
      - lia.
      - intros z Hz. destruct (decide (z < f_start f + f_size f)); [apply Hv; lia|apply R7; lia].
      - split; [lia|]. intros z Hz. apply R8. lia. }
    pose proof (ends _ _ _ _ Hinv1) as (Ef1 & _). cbn [f_start f_size f1] in Ef1.
    destruct (decide (f_end f1 <= entry_end e)) as [Hin|Hout].
    + destruct (IH f1 Hinv1 Hb Hin) as (st & f' & E & Hob' & Hst); [cbn [f_iter f1]; lia|]. rewrite E.
      exists st, f'. split; [done|]. split; [done|]. cbn [f_iter f_start f1] in Hst. destruct st; [|split_and!; try done|done].
      * destruct Hst as [? ?]. split; [done|lia].
      * by destruct Hst.
      * by destruct Hst as (_ & ? & _).
      * destruct Hst as (_ & _ & [[? ?]|?]); [left; lia|by right].
    + exists Merged, f1. split.
      { destruct n as [|n]; cbn [merge_loop]; rewrite (proj2 (Z.leb_gt (f_end f1) _)) by lia; by rewrite orb_true_r. }
      split; [done|]. split; [done|]. split; [done|]. left. cbn [f_iter f1]. lia.
Qed.

(** ** The iterator of the machine's map *)

Definition at_entry (before rest : list e820_entry) : Z :=
  match rest with [] => 0 | _ => entries_hva orig + ENTRY_EXT_SIZE * Z.of_nat (length before) end.

Lemma entry_details before e rest : map_entries orig = before ++ e :: rest ->
  at_entry before (e :: rest) <> 0 /\
  e820_abstraction_iterator_get_range_details orig (at_entry before (e :: rest)) = Ok (Some e) /\
  e820_abstraction_iterator_get_next (Some orig) None (at_entry before (e :: rest)) = at_entry (before ++ [e]) rest.
Proof.
  intros E. destruct orig_ok as (Ha & Hs & Hb). rewrite E, length_app in Hs. cbn [length] in Hs. cbn [at_entry].
  unfold ENTRY_EXT_SIZE, entries_hva in *.
  assert (Hne : map_addr orig + 4 + 24 * Z.of_nat (length before) <> 0) by lia. split; [done|]. split.
  - unfold e820_abstraction_iterator_get_range_details, entries_hva, ENTRY_EXT_SIZE. rewrite (proj2 (Z.eqb_neq _ _)) by done.
    replace (map_addr orig + 4 + 24 * Z.of_nat (length before) - (map_addr orig + 4)) with (Z.of_nat (length before) * 24) by lia.
    rewrite Z.mod_mul, Z.div_mul by lia. cbn [Z.eqb]. rewrite E.
    by rewrite (rd_ok _ _ e) by (lia || by apply lookup_middle_eq; lia).
  - unfold e820_abstraction_iterator_get_next, e820_abstraction_get_map, entries_hva, ENTRY_EXT_SIZE.
    rewrite (proj2 (Z.eqb_neq _ _)) by done. rewrite !u64_small by lia. rewrite Hs. destruct rest as [|e2 rest]; cbn [length] in *.
    + by rewrite (proj2 (Z.leb_le _ _)) by lia.
    + rewrite (proj2 (Z.leb_gt _ _)) by lia. cbn [at_entry]. unfold entries_hva, ENTRY_EXT_SIZE. rewrite length_app. cbn [length]. lia.
Qed.

Lemma first_entry : e820_abstraction_iterator_get_first (Some orig) None = at_entry [] (map_entries orig).
Proof.
  destruct orig_ok as (Ha & Hs & Hb). unfold e820_abstraction_iterator_get_first, e820_abstraction_get_map, ENTRY_EXT_SIZE in *.
  rewrite Hs. destruct (map_entries orig) as [|e es]; [done|]. cbn [length] in *. rewrite (proj2 (Z.eqb_neq _ _)) by lia.
  cbn [at_entry length]. lia.
Qed.

(** ** The outer loop *)

(** Before [e] and past the earlier ranges nothing is described. *)
Lemma outside f before e rest y ty att : fill_inv f before (e :: rest) -> f_start f <= y < base_address e ->
  ~ described (map_entries orig) y ty att.
Proof.
  intros [He _ _ _ _ _ Hbf _] Hy (e' & Hin & Hiny & _). unfold inside in Hiny. rewrite He in Hin.
  apply elem_of_app in Hin as [Hin|[->|Hin]%elem_of_cons].
  - specialize (Hbf e' Hin). lia.
  - lia.
  - rewrite He in orig_ordered. pose proof (ordered_later _ _ _ _ orig_ordered Hin). destruct (ordered_bounds _ e (ordered_app _ _ _ orig_ordered)); [apply list_elem_of_here|]. lia.
Qed.

Lemma after_iter f before rest : fill_inv f before rest -> f_iter f = INVALID ->
  forall z, f_start f + f_size f <= z -> visible (m z) = false.
Proof.
  intros [_ [HR HL] _ Hr _ Hg _ _] Ei z Hz. destruct (decide (z < INVALID)); [apply Hg; rewrite Ei; lia|].
  apply (above_invisible _ _ (f_mam f) s m F); [done|]. rewrite HL. pose proof tsz_bound. unfold INVALID in *. lia.
Qed.

(** The steps the outer loop can still make. *)
Definition flags (f : fill) (rest : list e820_entry) : Z :=
  match rest with
  | [] => 0
  | e :: _ => Z.b2z (f_start f <? base_address e) + Z.b2z (f_start f <? base_address e + range_length e)
  end.
Definition steps (f : fill) (rest : list e820_entry) : Z :=
  4096 * (4 * Z.of_nat (length rest) + flags f rest) + 3 * left_over (f_iter f).

Lemma flags_bound f rest : 0 <= flags f rest <= 2.
Proof. destruct rest as [|e rest]; cbn [flags]; [lia|]. unfold Z.b2z. repeat case_match; lia. Qed.

Definition finished (o : outcome (bool * fill)) : Prop :=
  exists res f, o = Ok (res, f) /\ object (f_mam f) /\ (if res : bool then filled_ok f else crowded).

Lemma fill_end f before : fill_inv f before [] -> filled_ok f.
Proof.
  intros [He Hob _ _ _ _ Hbf (map & Em & Hpm & Hc & _)]. split; [done|]. exists map. split_and!; [done|done|].
  apply (cover_all _ (f_start f)); [done|]. rewrite He, app_nil_r. intros y ty att Hy _ (e & Hin & Hiny & _).
  specialize (Hbf e Hin). unfold inside in Hiny. lia.
Qed.

(** The range at hand is the last one and ends inside [e]. *)
Lemma last_added f before e rest map' : fill_inv f before (e :: rest) -> f_iter f = INVALID ->
  page_map map' -> cover (map_entries map') (f_start f + f_size f) ->
  filled_ok (mk_fill (f_mam f) (Some map') (f_iter f) (f_start f) (f_size f)).
Proof.
  intros Hinv Ei Hpm Hc. split; [by destruct Hinv|]. exists map'. split_and!; [done|done|].
  apply (cover_all _ (f_start f + f_size f)); [done|]. intros y ty att Hy Hv _.
  by rewrite (after_iter _ _ _ Hinv Ei) in Hv.
Qed.

(** The range at hand is before [e], and the last one. *)
Lemma last_skipped f before e rest : fill_inv f before (e :: rest) -> f_start f + f_size f <= base_address e ->
  (forall z, f_start f + f_size f <= z -> visible (m z) = false) -> filled_ok f.
Proof.
  intros Hinv Hle Hno. pose proof Hinv as [_ Hob _ _ _ _ _ (map & Em & Hpm & Hc & _)]. split; [done|]. exists map.
  split_and!; [done|done|]. apply (cover_all _ (f_start f)); [done|]. intros y ty att Hy Hv Hd.
  destruct (decide (y < f_start f + f_size f)) as [Hlt|Hge]; [|rewrite Hno in Hv by lia; done].
  apply (outside f before e rest y ty att Hinv); [lia|done].
Qed.

(** The cut of a range that starts before [e]. *)
Lemma clip f before e rest : fill_inv f before (e :: rest) -> f_start f < base_address e < f_start f + f_size f ->
  fill_inv (mk_fill (f_mam f) (f_map f) (f_iter f) (base_address e) (f_start f + f_size f - base_address e)) before (e :: rest).
Proof.
  intros Hinv Hb. pose proof Hinv as [He Hob Hit Hr Hv Hg Hbf (map & Em & Hpm & Hc & Hends)].
  split; cbn [f_mam f_iter f_start f_size f_map]; try done; try lia.
  - intros z Hz. apply Hv. lia.
  - replace (base_address e + (f_start f + f_size f - base_address e)) with (f_start f + f_size f) by lia. done.
  - intros e' He'. specialize (Hbf e' He'). lia.
  - exists map. split_and!; [done|done| |].
    + eapply cover_advance; [exact Hc|lia|]. intros y ty att Hy _. eapply outside; [exact Hinv|lia].
    + by eapply placed_le; [exact Hends|lia].
Qed.

(** What remains of a range after the part inside [e]. *)
Lemma cut f before e rest n map' : fill_inv f before (e :: rest) -> 0 < n < f_size f -> page_map map' ->
  cover (map_entries map') (f_start f + n) ->
  placed (map_entries map') (f_start f + n) ->
  fill_inv (mk_fill (f_mam f) (Some map') (f_iter f) (f_start f + n) (f_size f - n)) before (e :: rest).
Proof.
  intros [He Hob Hit Hr Hv Hg Hbf _] Hn Hpm Hc Hends. split; cbn [f_mam f_iter f_start f_size f_map]; try done; try lia.
  - intros z Hz. apply Hv. lia.
  - replace (f_start f + n + (f_size f - n)) with (f_start f + f_size f) by lia. done.
  - intros e' He'. specialize (Hbf e' He'). lia.
  - by exists map'.
Qed.

Lemma next_entry f before e rest : fill_inv f before (e :: rest) -> base_address e + range_length e <= f_start f ->
  fill_inv f (before ++ [e]) rest.
Proof.
  intros [He Hob Hit Hr Hv Hg Hbf Hmap] Hle. split; try done.
  - by rewrite <- app_assoc.
  - intros e' [Hin|Hin%list_elem_of_singleton]%elem_of_app; [by apply Hbf|by subst].
Qed.

(** The next range takes the place of one that is before [e]. *)
Lemma next_range f before e rest x a sz mam : fill_inv f before (e :: rest) -> f_start f + f_size f <= base_address e ->
  object mam -> iterator mam x -> f_iter f <= a -> 0 < sz -> a + sz <= tsz L -> a + sz <= x ->
  (forall z, f_iter f <= z < a -> visible (m z) = false) -> (forall z, a <= z < a + sz -> visible (m z) = true) ->
  (forall z, a + sz <= z < x -> visible (m z) = false) ->
  fill_inv (mk_fill mam (f_map f) x a sz) before (e :: rest).
Proof.
  intros Hinv Hle Ho Hi R1 R2 R3 R4 R6 R7 R8. pose proof Hinv as [He _ _ Hr _ Hg Hbf (map & Em & Hpm & Hc & Hends)].
  split; cbn [f_mam f_iter f_start f_size f_map]; try done; try lia.
  - intros e' He'. specialize (Hbf e' He'). lia.
  - exists map. split_and!; [done|done| |].
    + eapply cover_advance; [exact Hc|lia|]. intros y ty att Hy Hvy. destruct (decide (y < f_start f + f_size f)).
      * eapply outside; [exact Hinv|lia].
      * exfalso. destruct (decide (y < f_iter f)); [rewrite (proj2 Hg) in Hvy by lia|rewrite R6 in Hvy by lia]; done.
    + by eapply placed_le; [exact Hends|lia].
Qed.

Definition loop_ok (n : nat) : Prop := forall f before rest, fill_inv f before rest -> steps f rest <= 4096 * Z.of_nat n ->
  finished (fill_loop hpa_to_hva cpu n s orig (at_entry before rest) f).

(** The range at hand is inside [e]. *)
Lemma fill_inside n f before e rest : loop_ok n -> fill_inv f before (e :: rest) -> steps f (e :: rest) <= 4096 * Z.of_nat (S n) ->
  base_address e <= f_start f -> f_start f + f_size f <= base_address e + range_length e ->
  finished (r ← merge_loop hpa_to_hva cpu (S n) s e f;
            match r with
            | (FailedToFill, f) => Ok (false, f)
            | (NonContiguous, f) => fill_loop hpa_to_hva cpu n s orig (at_entry before (e :: rest)) f
            | (Merged, f) =>
                if entry_end e <? f_end f then fill_loop hpa_to_hva cpu n s orig (at_entry before (e :: rest)) f
                else
                  r ← add_range f e (f_size f);
                  let '(added, map) := r in
                  Ok (added, mk_fill (f_mam f) map (f_iter f) (f_start f) (f_size f))
            end).
Proof.
  intros IH Hinv Hn Hb Hin.
  pose proof (iterator_le _ _ (i_object _ _ _ Hinv) (i_iter _ _ _ Hinv)) as (Hi0 & Hlo & Hi1).
  pose proof (flags_bound f (e :: rest)) as Hfl. pose proof Hn as Hn0. unfold steps in Hn. cbn [length] in Hn.
  destruct (ends _ _ _ _ Hinv) as (Ef & Ee & E0 & E1 & E2 & Ein). pose proof (i_range _ _ _ Hinv) as Hr.
  destruct (merge_spec e before rest (S n) f Hinv Hb ltac:(lia) ltac:(lia)) as (st & f' & -> & Hob' & Hst). rewrite bind_Ok.
  destruct st.
  + destruct Hst as [Hinv' Hlo']. apply (IH f' before (e :: rest) Hinv'). unfold steps. cbn [length].
    pose proof (flags_bound f' (e :: rest)). lia.
  + destruct Hst as (Hinv' & Est & Hcase). destruct (Z.ltb_spec (entry_end e) (f_end f')) as [Hlt|Hge].
    * destruct Hcase as [[_ Hlo']|[? _]]; [|lia]. apply (IH f' before (e :: rest) Hinv'). unfold steps. cbn [length].
      pose proof (flags_bound f' (e :: rest)). lia.
    * destruct Hcase as [[? _]|[_ Ei]]; [lia|]. destruct (ends _ _ _ _ Hinv') as (Ef' & _ & _). pose proof (i_range _ _ _ Hinv').
      destruct (add_range_spec f' before e rest (f_size f') Hinv' ltac:(lia) ltac:(lia) ltac:(lia) ltac:(lia)) as (added & map' & -> & Hadd & Hno).
      rewrite bind_Ok. eexists added, _. split; [done|]. split; [done|]. destruct added; [|by apply Hno].
      destruct (Hadd eq_refl) as (Hpm & Hc & _). by eapply last_added.
  + exists false, f'. by split.
Qed.

(** The range at hand starts inside [e] and ends after it. *)
Lemma fill_cut n f before e rest : loop_ok n -> fill_inv f before (e :: rest) -> steps f (e :: rest) <= 4096 * Z.of_nat (S n) ->
  base_address e <= f_start f < base_address e + range_length e -> base_address e + range_length e < f_start f + f_size f ->
  finished (r ← add_range f e (base_address e + range_length e - f_start f);
            let '(added, map) := r in
            let f := mk_fill (f_mam f) map (f_iter f) (f_start f) (f_size f) in
            if negb (added : bool) then Ok (false, f)
            else
              fill_loop hpa_to_hva cpu n s orig (at_entry before (e :: rest))
                (mk_fill (f_mam f) map (f_iter f) (f_start f ⊕₆₄ (base_address e + range_length e - f_start f))
                   (f_size f ⊖₆₄ (base_address e + range_length e - f_start f)))).
Proof.
  intros IH Hinv Hn [Hb Hpart] Hout.
  pose proof (iterator_le _ _ (i_object _ _ _ Hinv) (i_iter _ _ _ Hinv)) as (Hi0 & Hlo & Hi1).
  pose proof (flags_bound f (e :: rest)) as Hfl. pose proof Hn as Hn0. unfold steps in Hn. cbn [length] in Hn.
  destruct (ends _ _ _ _ Hinv) as (Ef & Ee & E0 & E1 & E2 & Ein). pose proof (i_range _ _ _ Hinv) as Hr.
  destruct (add_range_spec f before e rest (base_address e + range_length e - f_start f) Hinv ltac:(lia) ltac:(lia) Hb ltac:(lia))
    as (added & map' & -> & Hadd & Hno). rewrite bind_Ok.
  destruct added; cbn [negb]; [|eexists false, _; split; [done|]; split; [apply Hinv|by apply Hno]].
  destruct (Hadd eq_refl) as (Hpm & Hc & Hends). cbn [f_mam f_iter f_start f_size f_map]. pose proof tsz_bound.
  rewrite !u64_small by lia.
  pose proof (cut f before e rest (base_address e + range_length e - f_start f) map' Hinv ltac:(lia) Hpm Hc ltac:(apply Hends; right; exists e; split; [done|lia])) as Hinv'. apply (IH _ before (e :: rest) Hinv').
  unfold steps in *. cbn [length flags f_start f_iter] in *.
  rewrite (proj2 (Z.ltb_lt (f_start f) (base_address e + range_length e))) in Hn by lia.
  rewrite (proj2 (Z.ltb_ge (f_start f + _) (base_address e + range_length e))) by lia.
  rewrite (proj2 (Z.ltb_ge (f_start f) (base_address e))) in Hn by lia.
  rewrite (proj2 (Z.ltb_ge (f_start f + _) (base_address e))) by lia. cbn [Z.b2z] in *. lia.
Qed.

(** The range at hand is before [e]. *)
Lemma fill_skip n f before e rest : loop_ok n -> fill_inv f before (e :: rest) -> steps f (e :: rest) <= 4096 * Z.of_nat (S n) ->
  f_start f + f_size f <= base_address e ->
  finished (if f_iter f =? INVALID then Ok (true, f)
            else
              r ← gpm_get_range_details_and_advance_mam_iterator hpa_to_hva cpu (S n) (f_mam f) s (f_iter f);
              let '(found, iter, addr, size, mam) := r in
              let f := mk_fill mam (f_map f) iter addr size in
              if negb (found : bool) then Ok (true, f) else fill_loop hpa_to_hva cpu n s orig (at_entry before (e :: rest)) f).
Proof.
  intros IH Hinv Hn Hskip.
  pose proof (iterator_le _ _ (i_object _ _ _ Hinv) (i_iter _ _ _ Hinv)) as (Hi0 & Hlo & Hi1).
  pose proof (flags_bound f (e :: rest)) as Hfl. pose proof Hn as Hn0. unfold steps in Hn. cbn [length] in Hn.
  destruct (ends _ _ _ _ Hinv) as (Ef & Ee & E0 & E1 & E2 & Ein). pose proof (i_range _ _ _ Hinv) as Hr.
  destruct (Z.eqb_spec (f_iter f) INVALID) as [Ei|Hni].
  { exists true, f. split; [done|]. split; [apply Hinv|]. eapply last_skipped; [exact Hinv|done|by eapply after_iter]. }
  destruct (next_step (S n) f (i_object _ _ _ Hinv) (i_iter _ _ _ Hinv) Hni ltac:(lia))
    as (found & x & a & sz & mam & -> & Ho' & Hit' & Hres). rewrite bind_Ok.
  destruct found; cbn [negb].
  * destruct Hres as (R1 & R2 & R3 & R4 & R5 & R6 & R7 & R8).
    assert (Hinv' : fill_inv (mk_fill mam (f_map f) x a sz) before (e :: rest)) by (eapply next_range; eauto; lia).
    apply (IH _ before (e :: rest) Hinv'). unfold steps. cbn [length f_iter].
    pose proof (flags_bound (mk_fill mam (f_map f) x a sz) (e :: rest)). lia.
  * destruct Hres as [-> Hno]. eexists true, _. split; [done|]. split; [done|].
    assert (Hf : filled_ok f).
    { eapply last_skipped; [exact Hinv|done|]. intros z Hz. destruct (i_gap _ _ _ Hinv) as [_ Hg].
      destruct (decide (z < f_iter f)); [apply Hg; lia|apply Hno; lia]. }
    destruct Hf as [_ Hf]. by split.
Qed.

Lemma fill_spec n : loop_ok n.
Proof.
  induction n as [|n IH]; intros f before rest Hinv Hn; (destruct rest as [|e rest];
    [exists true, f; split; [done|]; split; [by destruct Hinv|by eapply fill_end]|]).
  all: pose proof (iterator_le _ _ (i_object _ _ _ Hinv) (i_iter _ _ _ Hinv)) as (Hi0 & Hlo & Hi1).
  all: pose proof (flags_bound f (e :: rest)) as Hfl; pose proof Hn as Hn0; unfold steps in Hn; cbn [length] in Hn.
  { lia. }
  destruct (entry_details before e rest (i_entries _ _ _ Hinv)) as (Hne & Hdet & Hnxt).
  cbn [fill_loop]. rewrite (proj2 (Z.eqb_neq _ _)) by done. rewrite Hdet, bind_Ok, Hnxt. clear Hdet Hnxt Hne.
  destruct (ends _ _ _ _ Hinv) as (Ef & Ee & E0 & E1 & E2 & Ein). pose proof (i_range _ _ _ Hinv) as Hr. rewrite Ef, Ee.
  destruct (Z.leb_spec (base_address e) (f_start f)) as [Hb|Hb]; cbn [andb];
    [destruct (Z.leb_spec (f_start f + f_size f) (base_address e + range_length e)) as [Hin|Hout]|].
  - rewrite <- Ee. by apply fill_inside.
  - destruct (Z.leb_spec (f_start f + f_size f) (base_address e)); [lia|].
    destruct (Z.leb_spec (base_address e + range_length e) (f_start f)) as [Hpast|Hpart].
    + pose proof (next_entry _ _ _ _ Hinv Hpast) as Hinv'. apply (IH f _ rest Hinv'). unfold steps.
      pose proof (flags_bound f rest). lia.
    + destruct (Z.ltb_spec (f_start f) (base_address e)); [lia|]. cbn [andb]. rewrite !u64_small by lia.
      apply fill_cut; try done; lia.
  - destruct (Z.leb_spec (f_start f + f_size f) (base_address e)) as [Hskip|Hclip].
    + by apply fill_skip.
    + destruct (Z.leb_spec (base_address e + range_length e) (f_start f)); [lia|].
      destruct (Z.ltb_spec (f_start f) (base_address e)); [|lia].
      destruct (Z.ltb_spec (base_address e) (f_start f + f_size f)); [|lia]. cbn [andb]. pose proof tsz_bound.
      rewrite u64_small by lia.
      pose proof (clip f before e rest Hinv ltac:(lia)) as Hinv'. apply (IH _ before (e :: rest) Hinv').
      unfold steps in *. cbn [length flags f_start f_iter] in *.
      rewrite (proj2 (Z.ltb_lt (f_start f) (base_address e))) in Hn by lia.
      rewrite (proj2 (Z.ltb_lt (f_start f) (base_address e + range_length e))) in Hn by lia.
      rewrite (proj2 (Z.ltb_ge (base_address e) (base_address e))) by lia.
      rewrite (proj2 (Z.ltb_lt (base_address e) (base_address e + range_length e))) by lia. cbn [Z.b2z] in *. lia.
Qed.

(** The first range starts the construction. *)
Lemma fill_start mam x a sz page : object mam -> iterator mam x -> next_from 0 a sz ->
  (x = INVALID \/ x = a + sz) -> (x = INVALID -> a + sz = tsz L) -> 0 < page < 2 ^ 40 ->
  fill_inv (mk_fill mam (Some (mk_map page 0 [])) x a sz) [] (map_entries orig).
Proof.
  intros Ho Hi (N1 & N2 & N3 & N4 & N5) Hx Hlast Hp. pose proof tsz_bound.
  split; cbn [f_mam f_iter f_start f_size f_map]; try done; try lia.
  - destruct Hx as [->| ->]; [|split; [lia|intros z Hz; lia]]. split; [unfold INVALID; lia|]. intros z Hz.
    destruct Ho as [HR HL]. apply (above_invisible _ _ mam s m F); [done|]. rewrite HL, <- Hlast by done. lia.
  - intros e He. by apply not_elem_of_nil in He.
  - exists (mk_map page 0 []). split; [done|]. split.
    { split_and!; cbn; unfold map_ok, PAGE_4KB_SIZE; cbn; lia. }
    split; [|intros r Hr; by apply not_elem_of_nil in Hr]. cbn [map_entries]. intros y ty att. split.
    + intros (e & He & _). by apply not_elem_of_nil in He.
    + intros (Hy & Hv & _). rewrite N4 in Hv by lia. done.
Qed.
End Fill.

(** The store with the same tables and another state of the heap. *)
Lemma gpm_rep_store {A : Type} `{!Pages A} (hva_to_hpa hpa_to_hva : Z -> option Z)
  `{!PagesLaws A (table_ok hva_to_hpa hpa_to_hva)} (g : GPM) (s : mstate A) (a : A) (m : amap) (F1 F2 S : gset Z) :
  gpm_rep hva_to_hpa hpa_to_hva g s m F1 F2 -> owns a S -> dom (tabs s) ⊆ S ->
  gpm_rep hva_to_hpa hpa_to_hva g (mk_mstate (tabs s) a) m F1 F2.
Proof.
  intros HG Ho Hd. apply (gpm_rep_frame hva_to_hpa hpa_to_hva g s (mk_mstate (tabs s) a) m F1 F2 ∅ ∅); [done|apply evolves_refl| |].
  - apply disjoint_empty_r.
  - by exists S.
Qed.

(** * Properties *)

(** C20. The E820 map made for a guest, from a map of the machine whose entries are ordered, not empty and
    disjoint (the code relies on the order and copies the loader's map as it is: see e820_unsorted_map_skips):
    the construction ends, without access outside of the maps and with the guest's memory unchanged. When it
    succeeds, the new map is ordered and disjoint, fits its page, and describes an address with a type and
    attributes exactly when the guest can see the address (memory or MMIO) and the machine's map describes it
    so. It fails only when there is no page for the map, when the machine's map is empty or the guest sees no
    memory, or when the guest's memory falls into more pieces than the 170 entries of a page. *)
Theorem gpm_create_e820_map_spec {A : Type} `{!Pages A} (hva_to_hpa hpa_to_hva : Z -> option Z)
  `{!PagesLaws A (table_ok hva_to_hpa hpa_to_hva)} (cpu : Z) (n : nat) (g : GPM) (s : mstate A) (m : amap) (F1 F2 : gset Z)
  (orig : e820_map) :
  gpm_rep hva_to_hpa hpa_to_hva g s m F1 F2 -> map_ok orig -> ordered (map_entries orig) ->
  4096 * (4 * Z.of_nat (length (map_entries orig)) + 2) + 3 * tsz (first_table_ops (gpa_to_hpa g)) <= 4096 * Z.of_nat n ->
  exists res g' s', gpm_create_e820_map hpa_to_hva cpu n (Some orig) (Some g) s = Ok (res, Some g', s') /\
    gpm_rep hva_to_hpa hpa_to_hva g' s' m F1 F2 /\
    match res with
    | None => (exists a', vmm_page_alloc (pages s) = Ok (0, a')) \/ map_entries orig = [] \/
        (forall y, 0 <= y -> visible (m y) = false) \/ crowded m orig
    | Some map => page_map map /\ forall y ty att, 0 <= y ->
        described (map_entries map) y ty att <-> visible (m y) = true /\ described (map_entries orig) y ty att
    end.
Proof.
  intros HG Hok Hord Hn. pose proof (gpm_rep_pages _ _ _ _ _ _ _ HG) as (S & Ho & Hd).
  unfold gpm_create_e820_map. destruct (alloc_law _ _ Ho) as (p & a & Ea & [[-> Ho1]|(Hp0 & HpS & Hpok & Ho1)]); rewrite Ea, bind_Ok.
  { eexists None, g, _. split; [done|]. split; [by eapply gpm_rep_store|]. left. by exists a. }
  unfold e820_abstraction_create_new_map. rewrite (proj2 (Z.eqb_neq p 0)) by done.
  assert (Hd1 : dom (tabs s) ⊆ {[p]} ∪ S) by (etrans; [exact Hd|apply union_subseteq_r]).
  pose proof (gpm_rep_store _ _ _ _ _ _ _ _ _ HG Ho1 Hd1) as (HR & H2 & Hdis & Hc). set (s1 := mk_mstate (tabs s) a) in *.
  assert (Hkeep : forall mam, represents hva_to_hpa hpa_to_hva MAM_INTERNAL_ENTRY_OPS mam s1 m F1 ->
    gpm_rep hva_to_hpa hpa_to_hva (set_gpa_to_hpa g mam) s1 m F1 F2) by (intros mam Hmam; by split_and!).
  pose proof (represents_level _ _ _ _ _ _ HR) as Hl. unfold mam_get_memory_ranges_iterator.
  set (mam0 := set_last_iterator _ _ _). change (first_table_ops mam0) with (first_table_ops (gpa_to_hpa g)).
  rewrite (proj2 (Nat.eqb_neq _ _)) by (unfold level_ok in Hl; lia).
  change (0 =? INVALID) with false. cbv beta iota zeta. cbn [orb]. rewrite (first_entry orig Hok Hord).
  destruct (Z.eqb_spec (at_entry orig [] (map_entries orig)) 0) as [Heq0|Hne].
  { eexists None, _, s1. split; [done|]. split; [by apply Hkeep|]. right; left.
    destruct (map_entries orig) as [|e es] eqn:Ees; [done|]. destruct Hok as (Hok & _). cbn [at_entry length] in Heq0. unfold entries_hva in Heq0. lia. }
  assert (Hob : object hva_to_hpa hpa_to_hva s1 m F1 (first_table_ops (gpa_to_hpa g)) mam0) by done.
  assert (Hlo : left_over (first_table_ops (gpa_to_hpa g)) 0 = tsz (first_table_ops (gpa_to_hpa g))) by (unfold left_over; change (0 =? INVALID) with false; cbv iota; lia).
  pose proof (tsz_bound (first_table_ops (gpa_to_hpa g))) as Hts.
  destruct (next_range_spec hva_to_hpa hpa_to_hva cpu s1 m F1 (first_table_ops (gpa_to_hpa g)) Hc n mam0 0 Hob (cursor_first _ _ _ _ _ _ _ HR) ltac:(lia))
    as (found & x & b & sz & mam1 & -> & [HR1 HL1] & Hit & Hres). rewrite bind_Ok.
  destruct found; cbn [negb]; [|eexists None, _, s1; split; [done|]; split; [by apply Hkeep|]; right; right; left; intros y Hy; apply Hres; lia].
  destruct Hres as (Hnext & Hx & Hlast). destruct Hpok as (Hpa & Hp1 & _). unfold addr_ok in Hpa.
  pose proof (fill_start hva_to_hpa hpa_to_hva s1 m F1 (first_table_ops (gpa_to_hpa g)) orig mam1 x b sz p (conj HR1 HL1) Hit Hnext Hx Hlast ltac:(lia)) as Hinv.
  destruct (fill_spec hva_to_hpa hpa_to_hva cpu s1 m F1 (first_table_ops (gpa_to_hpa g)) Hc orig Hok Hord n _ _ _ Hinv) as (res & f & -> & [HRf _] & Hres).
  { unfold steps. cbn [f_iter]. pose proof (flags_bound (mk_fill mam1 (Some (mk_map p 0 [])) x b sz) (map_entries orig)).
    pose proof (iterator_le _ _ _ _ _ _ _ _ (conj HR1 HL1) Hit). lia. }
  rewrite bind_Ok. destruct res.
  - destruct Hres as (_ & map & -> & Hpm & Hall). eexists (Some map), _, s1. split; [done|]. split; [by apply Hkeep|done].
  - destruct (free_law _ _ p Ho1) as (a2 & Ef & Ho2); [apply elem_of_union_l, elem_of_singleton; done|].
    change (pages s1) with a. rewrite Ef, bind_Ok. eexists None, _, _. split; [done|]. split; [|by right; right; right].
    eapply (gpm_rep_store _ _ _ s1); [by apply Hkeep|exact Ho2|]. cbn [tabs s1]. intros k Hk.
    apply elem_of_difference. split; [by apply Hd1|]. intros ->%elem_of_singleton. by apply HpS, Hd.
Qed.

Import MamHeap.Example GuestExample.

Definition entries_of (r : outcome (option e820_map * option GPM * mstate heap)) : option (list e820_entry) :=
  match r with Ok (Some map, _, _) => Some (map_entries map) | _ => None end.

(** The guest with 8 KB of memory, on a machine with memory below 0x9f000. *)
Lemma gpm_create_e820_map_spec_witness : exists m map g' s',
    (forall y, 0 <= y -> m y = memory_of_first y) /\
    gpm_create_e820_map Some 0 1550 (Some sample_map) (Some filled.1.2) filled.2 = Ok (Some map, Some g', s') /\
    map_entries map = [mk_entry820 0 8192 1 1] /\ page_map map /\
    forall y ty att, 0 <= y ->
      described (map_entries map) y ty att <-> visible (m y) = true /\ described (map_entries sample_map) y ty att.
Proof.
  assert (Es : entries_of (gpm_create_e820_map Some 0 1550 (Some sample_map) (Some filled.1.2) filled.2) = Some [mk_entry820 0 8192 1 1])
    by (vm_compute; reflexivity).
  destruct (two_guests Some Some 0 0 start first_guest.2 second_guest.2 filled.2 first_guest.1 second_guest.1 filled.1.2
    (2 ^ 30) 8192 7 0 start_pages first_eq second_eq filled_eq ltac:(lia) ltac:(lia) ltac:(lia) ltac:(unfold fits; lia))
    as (m & F1 & F2 & G1 & G2 & Hm & H1 & _ & _).
  destruct (gpm_create_e820_map_spec Some Some 0 1550 filled.1.2 filled.2 m F1 F2 sample_map H1
    ltac:(unfold map_ok; cbn; unfold ENTRY_EXT_SIZE; lia) ltac:(cbn; lia) ltac:(rewrite filled_level; vm_compute; discriminate))
    as (res & g' & s' & E & _ & Hres).
  rewrite E in Es. destruct res as [map|]; [|discriminate Es]. injection Es as Es.
  exists m, map, g', s'. split; [exact Hm|]. split; [exact E|]. split; [exact Es|exact Hres].
Defined.

(** The same machine with its map in another order: the guest's memory is passed over. *)
Definition unsorted_map : e820_map :=
  mk_map 0x1000 (memory_map_size sample_map) (rev (map_entries sample_map)).
Theorem e820_unsorted_map_skips :
  entries_of (gpm_create_e820_map Some 0 1550 (Some unsorted_map) (Some filled.1.2) filled.2) = Some [] /\
  described (map_entries unsorted_map) 0 1 1.
Proof.
  split; [vm_compute; reflexivity|]. eexists (mk_entry820 0 0x9f000 1 1). cbn. split; [set_solver|]. done.
Qed.
