(* ===== verification/VmexitIo.v ===== *)
(** vmexit/vmexit_io.c: which I/O ports of a guest cause a VM exit (the I/O bitmap), the
    handlers registered for ports, and the handling of an I/O exit. *)

From S2P Require Import Prelude VmmDefs Address.

(** * Data *)

Definition IO_VMEXIT_MAX_COUNT : Z := 64.

(** A free descriptor has a NULL handler. *)
Record IO_VMEXIT_DESCRIPTOR := mk_iodesc { io_port : Z; io_handler : Z; io_handler_context : Z }.

Record GUEST_IO_VMEXIT_CONTROL := mk_ioctl {
  io_guest_id : Z;
  io_bitmap : list Z;
  io_descriptors : list IO_VMEXIT_DESCRIPTOR
}.

(** io_vmexit_global_state: the list of the guests' controls. *)
Notation io_state := (list GUEST_IO_VMEXIT_CONTROL).

(** * Set-up *)

Definition io_vmexit_initialize : io_state := [].

(** The control and the two pages of the bitmap come zeroed from the allocators. *)
Definition io_vmexit_guest_initialize (st : io_state) (guest_id : Z) : io_state :=
  mk_ioctl guest_id (replicate (Z.to_nat 8192) 0) (replicate 64 (mk_iodesc 0 0 0)) :: st.

Definition io_vmexit_find_guest_io_control (st : io_state) (guest_id : Z)
  : option (nat * GUEST_IO_VMEXIT_CONTROL) := list_find (fun c => io_guest_id c = guest_id) st.

(** * Descriptors *)

(** The index of the descriptor of a port. *)
Definition io_port_lookup (st : io_state) (guest_id port_id : Z) : option nat :=
  match io_vmexit_find_guest_io_control st guest_id with
  | None => None
  | Some (_, c) => fst <$> list_find (fun d => io_port d = port_id /\ io_handler d <> 0) (io_descriptors c)
  end.

Definition io_free_port_lookup (st : io_state) (guest_id : Z) : option nat :=
  match io_vmexit_find_guest_io_control st guest_id with
  | None => None
  | Some (_, c) => fst <$> list_find (fun d => io_handler d = 0) (io_descriptors c)
  end.

(** The state with one control changed. *)
Definition put_control (st : io_state) (i : nat) (c : GUEST_IO_VMEXIT_CONTROL) : io_state := <[i := c]> st.

(** * Registration *)

Definition io_vmexit_handler_register (st : io_state) (guest_id port_id handler context : Z)
  : outcome (VMM_STATUS * io_state) :=
  let p_desc := match io_port_lookup st guest_id port_id with
                | Some d => Some d
                | None => io_free_port_lookup st guest_id
                end in
  match p_desc, io_vmexit_find_guest_io_control st guest_id with
  | Some d, Some (i, c) =>
      bitmap ← BITARRAY_SET (io_bitmap c) port_id;
      ds ← wr (io_descriptors c) (Z.of_nat d) (mk_iodesc port_id handler context);
      Ok (VMM_OK, put_control st i (mk_ioctl (io_guest_id c) bitmap ds))
  | Some _, None => Fault
  | None, _ => Ok (VMM_ERROR, st)
  end.

Definition io_vmexit_handler_unregister (st : io_state) (guest_id port_id : Z)
  : outcome (VMM_STATUS * io_state) :=
  match io_port_lookup st guest_id port_id, io_vmexit_find_guest_io_control st guest_id with
  | Some d, Some (i, c) =>
      bitmap ← BITARRAY_CLR (io_bitmap c) port_id;
      old ← rd (io_descriptors c) (Z.of_nat d);
      ds ← wr (io_descriptors c) (Z.of_nat d) (mk_iodesc (io_port old) 0 0);
      Ok (VMM_OK, put_control st i (mk_ioctl (io_guest_id c) bitmap ds))
  | Some _, None => Fault
  | None, _ => Ok (VMM_OK, st)
  end.

(** One iteration of io_vmexit_block_port; a NULL control faults at the bitmap. *)
Definition block_one (guest_id : Z) (i : Z) (st : io_state) : outcome io_state :=
  r ← io_vmexit_handler_unregister st guest_id (u16 i);
  match io_vmexit_find_guest_io_control r.2 guest_id with
  | None => Fault
  | Some (j, c) =>
      bitmap ← BITARRAY_SET (io_bitmap c) i;
      Ok (put_control r.2 j (mk_ioctl (io_guest_id c) bitmap (io_descriptors c)))
  end.

Definition io_vmexit_block_port (st : io_state) (guest_id port_from port_to : Z) : outcome io_state :=
  for_range port_from (port_to + 1) (block_one guest_id) st.

(** * The exit handler *)

(** What the handler reads of the guest CPU and its VMCS. *)
Record io_guest := mk_ioguest {
  guest : Z;
  rdx : Z; rcx : Z; rsi : Z; rdi : Z;
  qualification : Z;
  linear_address : Z;
  instruction_info : Z;
  enter_controls : Z;
  segment_ar : list Z   (** access rights of ES, CS, SS, DS, FS, GS *)
}.

(** Bit fields of the exit qualification. *)
Definition bits (v lo n : Z) : Z := Z.land (Z.shiftr v lo) (Z.ones n).
Definition q_size (q : Z) : Z := bits q 0 3.
Definition q_in (q : Z) : bool := negb (bits q 3 1 =? 0).
Definition q_string (q : Z) : bool := negb (bits q 4 1 =? 0).
Definition q_rep (q : Z) : bool := negb (bits q 5 1 =? 0).
Definition q_immediate (q : Z) : bool := negb (bits q 6 1 =? 0).
Definition q_port (q : Z) : Z := bits q 16 16.

(** What an exit causes, in order. *)
Record io_call := mk_call {
  c_handler : Z; c_context : Z; c_port : Z; c_size : Z; c_read : bool;
  c_string : bool; c_rep : bool; c_count : Z; c_value : Z
}.
Inductive io_action :=
| InjectGp0
| CallHandler (c : io_call)
| FillMemory (address byte count : Z)   (** vmm_memset, at an address of the VMM *)
| SkipInstruction.

Section Exit.
(** [hva_mapped]: the addresses that are mapped in the VMM's own page tables (host_memory_manager.c unmaps
    the first page). *)
Context (space : address_space) (hva_mapped : Z -> bool).

(** The vmm_memset of io_blocking_read_handler faults when a byte is not mapped; other sizes only reach
    VMM_DEADLOOP, which is empty. io_blocking_write_handler does nothing. *)
Definition io_blocking_read_handler (port_size p_value : Z) : outcome (list io_action) :=
  if (port_size =? 1) || (port_size =? 2) || (port_size =? 4) then
    if forallb (fun i => hva_mapped (p_value + i)) (seqZ 0 port_size) then Ok [FillMemory p_value 255 port_size] else Fault
  else Ok [].

Definition io_blocking_handler (port_size : Z) (read : bool) (p_value : Z) : outcome (list io_action) :=
  if read then io_blocking_read_handler port_size p_value else Ok [].

(** Whether a fault was injected; the #AC case has no effect. *)
Definition io_access_native_fault (g : io_guest) : bool :=
  let is_64bit := negb (bits (enter_controls g) 9 1 =? 0) in
  let ar n := default 0 (segment_ar g !! Z.to_nat n) in
  let '(seg_ar, offset) :=
    if q_in (qualification g) then (ar 0, rdi g)
    else (ar (bits (instruction_info g) 15 3), rsi g) in
  if bits seg_ar 16 1 =? 1 then true
  else if is_64bit then negb (addr_is_canonical space offset)
  else false.

(** [handler_returns]: what the handler installed by another component returns. *)
Definition io_vmexit_handler (handler_returns : io_call -> bool) (st : io_state) (g : io_guest)
  : outcome (list io_action) :=
  let q := qualification g in
  let port_id := if q_immediate q then q_port q else u16 (rdx g) in
  let port_size := q_size q + 1 in
  let rep_count := if q_rep q then u32 (rcx g) else 0 in
  if q_string q && io_access_native_fault g then Ok [InjectGp0]
  else
    let io_value :=
      if q_string q then
        let addr_size := bits (instruction_info g) 7 3 in
        if addr_size =? 0 then Z.land (linear_address g) 0xffff
        else if addr_size =? 1 then Z.land (linear_address g) 0xffffffff
        else linear_address g
      else 0 in
    match io_port_lookup st (guest g) port_id, io_vmexit_find_guest_io_control st (guest g) with
    | Some d, Some (_, c) =>
        desc ← rd (io_descriptors c) (Z.of_nat d);
        let call := mk_call (io_handler desc) (io_handler_context desc) port_id port_size (q_in q)
                      (q_string q) (q_rep q) rep_count io_value in
        Ok (CallHandler call :: (if handler_returns call then [SkipInstruction] else []))
    | _, _ => acts ← io_blocking_handler port_size (q_in q) io_value; Ok (acts ++ [SkipInstruction])
    end.
End Exit.

(** * Facts *)

(** The handler and context registered for a port. *)
Definition active (port : Z) (d : IO_VMEXIT_DESCRIPTOR) : Prop := io_port d = port /\ io_handler d <> 0.
#[global] Instance active_dec port d : Decision (active port d).
Proof. unfold active. apply _. Defined.

Definition handler_of (ds : list IO_VMEXIT_DESCRIPTOR) (port : Z) : option (Z * Z) :=
  (fun x => (io_handler x.2, io_handler_context x.2)) <$> list_find (active port) ds.

Definition unique (ds : list IO_VMEXIT_DESCRIPTOR) : Prop :=
  forall i j d e, ds !! i = Some d -> ds !! j = Some e -> io_handler d <> 0 -> active (io_port d) e -> i = j.

(** A guest's control: two pages of bitmap, 64 descriptors, one per port at most, and a
    port with a handler has its bit set. *)
Record control_ok (c : GUEST_IO_VMEXIT_CONTROL) : Prop := {
  co_bitmap : length (io_bitmap c) = Z.to_nat 8192 /\ bytes_ok (io_bitmap c);
  co_count : length (io_descriptors c) = 64%nat;
  co_unique : unique (io_descriptors c);
  co_bits : forall port, is_Some (handler_of (io_descriptors c) port) -> bit_of (io_bitmap c) port = true
}.

Lemma find_active ds port i d : unique ds -> list_find (active port) ds = Some (i, d) <->
  ds !! i = Some d /\ active port d.
Proof.
  intros U. rewrite list_find_Some. split; [tauto|]. intros [Hi Ha]. split_and!; [done..|].
  intros j e Hj Hlt He. destruct Ha as [<- Ha]. assert (i = j) by by eapply U. lia.
Qed.

(** Replacing a descriptor that is free, or the one of the port itself. *)
Section Replace.
Context (ds : list IO_VMEXIT_DESCRIPTOR) (i : nat) (old new : IO_VMEXIT_DESCRIPTOR) (port : Z).
Hypothesis U : unique ds.
Hypothesis Hold : ds !! i = Some old.
Hypothesis Hport : io_port new = port.
Hypothesis Hmine : forall j d, ds !! j = Some d -> active port d -> j = i.
Hypothesis Hothers : forall q, active q old -> q = port.

Lemma replace_unique : unique (<[i := new]> ds).
Proof using All.
  pose proof (lookup_lt_Some _ _ _ Hold) as Hlt.
  intros a b d e Ha Hb Hd He. apply list_lookup_insert_Some in Ha as [(<- & <- & _)|(Hai & Ha)];
    apply list_lookup_insert_Some in Hb as [(<- & <- & _)|(Hbi & Hb)].
  - done.
  - symmetry. apply (Hmine b e Hb). by rewrite <- Hport.
  - apply (Hmine a d Ha). destruct He as [He _]. split; [by rewrite <- He|done].
  - by eapply U.
Qed.

Lemma replace_handler q : handler_of (<[i := new]> ds) q =
  if q =? port then (if io_handler new =? 0 then None else Some (io_handler new, io_handler_context new))
  else handler_of ds q.
Proof using All.
  pose proof (lookup_lt_Some _ _ _ Hold) as Hlt. pose proof replace_unique as U'. unfold handler_of.
  destruct (Z.eqb_spec q port) as [->|Hq]; [destruct (Z.eqb_spec (io_handler new) 0) as [Hz|Hz]|].
  - replace (list_find (active port) (<[i := new]> ds)) with (@None (nat * IO_VMEXIT_DESCRIPTOR)); [done|].
    symmetry. apply list_find_None, Forall_lookup_2. intros j d Hj Ha.
    apply list_lookup_insert_Some in Hj as [(_ & <- & _)|(Hji & Hj)]; [by destruct Ha|].
    apply Hji. symmetry. by apply (Hmine j d).
  - rewrite (proj2 (find_active _ port i new U')); [done|]. split; [by apply list_lookup_insert_eq|done].
  - destruct (list_find (active q) ds) as [[j d]|] eqn:E.
    + apply find_active in E as [Hj Ha]; [|done].
      rewrite (proj2 (find_active _ q j d U')); [done|]. split; [|done].
      rewrite list_lookup_insert_ne; [done|]. intros ->. rewrite Hold in Hj. injection Hj as <-. by apply Hq, Hothers.
    + apply list_find_None in E. rewrite (proj2 (list_find_None _ _)); [done|].
      apply Forall_insert; [done|]. intros [X _]. congruence.
Qed.
End Replace.

(** The control of a guest. *)
Definition control_of (st : io_state) (guest_id : Z) : option GUEST_IO_VMEXIT_CONTROL :=
  snd <$> io_vmexit_find_guest_io_control st guest_id.

Lemma put_control_of (st : io_state) gid i c c' : io_vmexit_find_guest_io_control st gid = Some (i, c) ->
  io_guest_id c' = gid ->
  io_vmexit_find_guest_io_control (put_control st i c') gid = Some (i, c') /\
  forall g, g <> gid -> control_of (put_control st i c') g = control_of st g.
Proof.
  unfold io_vmexit_find_guest_io_control, put_control, control_of. intros E Hg.
  apply list_find_Some in E as (Hi & Hc & Hbefore). pose proof (lookup_lt_Some _ _ _ Hi) as Hlt. split.
  - apply list_find_Some. split_and!; [by apply list_lookup_insert_eq|done|].
    intros j y Hj Hji. rewrite list_lookup_insert_ne in Hj by lia. by eapply Hbefore.
  - intros g Hne. unfold io_vmexit_find_guest_io_control.
    destruct (list_find (fun x => io_guest_id x = g) st) as [[j d]|] eqn:E.
    + apply list_find_Some in E as (Hj & Hd & Hb).
      replace (list_find (fun x => io_guest_id x = g) (<[i:=c']> st)) with (Some (j, d)); [done|].
      symmetry. apply list_find_Some. split_and!; [|done|].
      * rewrite list_lookup_insert_ne; [done|]. intros ->. congruence.
      * intros k y Hk Hlt'. apply list_lookup_insert_Some in Hk as [(_ & <- & _)|(_ & Hk)]; [congruence|].
        by eapply Hb.
    + apply list_find_None in E.
      replace (list_find (fun x => io_guest_id x = g) (<[i:=c']> st)) with (@None (nat * GUEST_IO_VMEXIT_CONTROL)); [done|].
      symmetry. apply list_find_None, Forall_insert; [done|]. congruence.
Qed.

(** The index of the port's descriptor. *)
Lemma port_lookup_ok (st : io_state) gid i c port : io_vmexit_find_guest_io_control st gid = Some (i, c) ->
  io_port_lookup st gid port = fst <$> list_find (active port) (io_descriptors c).
Proof. intros E. unfold io_port_lookup. by rewrite E. Qed.

Lemma handler_of_none ds port j d : handler_of ds port = None -> ds !! j = Some d -> ~ active port d.
Proof.
  unfold handler_of. destruct (list_find (active port) ds) eqn:E; [done|]. intros _ Hj.
  apply list_find_None in E. by eapply Forall_lookup_1 in E.
Qed.

Lemma control_of_some (st : io_state) gid c : control_of st gid = Some c ->
  exists i, io_vmexit_find_guest_io_control st gid = Some (i, c) /\ io_guest_id c = gid.
Proof.
  unfold control_of. destruct (io_vmexit_find_guest_io_control st gid) as [[i x]|] eqn:E; [|done].
  intros [= <-]. exists i. split; [done|]. by apply list_find_Some in E as (_ & ? & _).
Qed.

(** Registering a handler for a port of a guest fails, with nothing changed, exactly when
    the port has no handler yet and all 64 descriptors are in use; otherwise the port gets
    this handler and context and its bit of the I/O bitmap is set, every other port and
    every other guest keep theirs, and the control stays consistent. *)
Theorem io_vmexit_handler_register_spec (st : io_state) (gid port handler context : Z)
  (c : GUEST_IO_VMEXIT_CONTROL) :
  control_of st gid = Some c -> control_ok c -> fits 16 port -> handler <> 0 ->
  (handler_of (io_descriptors c) port = None /\ Forall (fun d => io_handler d <> 0) (io_descriptors c) /\
     io_vmexit_handler_register st gid port handler context = Ok (VMM_ERROR, st)) \/
  (exists st' c', io_vmexit_handler_register st gid port handler context = Ok (VMM_OK, st') /\
     control_of st' gid = Some c' /\ control_ok c' /\
     (forall q, handler_of (io_descriptors c') q =
        if q =? port then Some (handler, context) else handler_of (io_descriptors c) q) /\
     (forall q, bit_of (io_bitmap c') q = if q =? port then true else bit_of (io_bitmap c) q) /\
     (forall g, g <> gid -> control_of st' g = control_of st g)).
Proof.
  intros Hc [[HL HB] HN U HBits] Hport Hh. destruct (control_of_some st gid c Hc) as (i & E & Hg).
  unfold fits in Hport. unfold io_vmexit_handler_register. rewrite (port_lookup_ok st gid i c) by done.
  unfold io_free_port_lookup. rewrite E.
  assert (Hset : forall d old, io_descriptors c !! d = Some old ->
    (forall j x, io_descriptors c !! j = Some x -> active port x -> j = d) ->
    (forall q, active q old -> q = port) ->
    exists st' c', (bitmap ← BITARRAY_SET (io_bitmap c) port;
      ds ← wr (io_descriptors c) (Z.of_nat d) (mk_iodesc port handler context);
      Ok (VMM_OK, put_control st i (mk_ioctl (io_guest_id c) bitmap ds))) = Ok (VMM_OK, st') /\
     control_of st' gid = Some c' /\ control_ok c' /\
     (forall q, handler_of (io_descriptors c') q =
        if q =? port then Some (handler, context) else handler_of (io_descriptors c) q) /\
     (forall q, bit_of (io_bitmap c') q = if q =? port then true else bit_of (io_bitmap c) q) /\
     (forall g, g <> gid -> control_of st' g = control_of st g)).
  { intros d old Hd Hm Ho. pose proof (lookup_lt_Some _ _ _ Hd) as Hlt.
    destruct (BITARRAY_SET_spec (io_bitmap c) port) as (b & -> & Lb & Ob & Bb); [rewrite HL; lia|].
    rewrite bind_Ok, wr_ok by lia. rewrite bind_Ok, Nat2Z.id.
    set (new := mk_iodesc port handler context).
    assert (Hh' : forall q, handler_of (<[d := new]> (io_descriptors c)) q =
        if q =? port then Some (handler, context) else handler_of (io_descriptors c) q).
    { intros q. rewrite (replace_handler _ d old new port) by done. simpl.
      by rewrite (proj2 (Z.eqb_neq handler 0) Hh). }
    edestruct (put_control_of st gid i c) as [E' O']; [done| |eexists _, _; split; [done|]].
    2:{ split; [unfold control_of; by rewrite E'|]. split; [|split_and!; [done|done|done]].
        split; simpl; [split; [by rewrite Lb|by apply Ob]|by rewrite length_insert|by eapply replace_unique|].
        intros q. rewrite Hh', Bb. destruct (q =? port); [done|]. apply HBits. }
    done. }
  destruct (list_find (active port) (io_descriptors c)) as [[d old]|] eqn:EF; simpl fmap.
  - right. pose proof EF as [Hd Ha]%find_active; [|done]. apply (Hset d old Hd).
    + intros j x Hj [Hx Hx']. destruct Ha as [Ha Ha'].
      apply (U j d x old Hj Hd Hx'). rewrite Hx. by split.
    + intros q [<- _]. by destruct Ha.
  - assert (Hnone : handler_of (io_descriptors c) port = None) by (unfold handler_of; by rewrite EF).
    destruct (list_find (fun d => io_handler d = 0) (io_descriptors c)) as [[d old]|] eqn:EZ; simpl fmap.
    + right. apply list_find_Some in EZ as (Hd & Hz & _). apply (Hset d old Hd).
      * intros j x Hj Hx. exfalso. by eapply handler_of_none.
      * intros q [_ X]. done.
    + left. split; [done|]. split; [|done]. by apply list_find_None in EZ.
Qed.

(** Unregistering a port always reports VMM_OK; afterwards the port has no handler, its
    bit of the bitmap is clear if it had one, and every other port and guest is
    unchanged. *)
Lemma io_vmexit_handler_unregister_ok (st : io_state) (gid port : Z) (c : GUEST_IO_VMEXIT_CONTROL) :
  control_of st gid = Some c -> control_ok c -> fits 16 port ->
  exists st' c', io_vmexit_handler_unregister st gid port = Ok (VMM_OK, st') /\
    control_of st' gid = Some c' /\ control_ok c' /\
    (forall q, handler_of (io_descriptors c') q = if q =? port then None else handler_of (io_descriptors c) q) /\
    (forall q, bit_of (io_bitmap c') q =
       if (q =? port) && bool_decide (is_Some (handler_of (io_descriptors c) port)) then false
       else bit_of (io_bitmap c) q) /\
    (forall g, g <> gid -> control_of st' g = control_of st g).
Proof.
  intros Hc [[HL HB] HN U HBits] Hport. destruct (control_of_some st gid c Hc) as (i & E & Hg).
  unfold fits in Hport. unfold io_vmexit_handler_unregister. rewrite (port_lookup_ok st gid i c) by done.
  destruct (list_find (active port) (io_descriptors c)) as [[d old]|] eqn:EF; simpl fmap.
  - pose proof EF as [Hd Ha]%find_active; [|done]. rewrite E. pose proof (lookup_lt_Some _ _ _ Hd) as Hlt.
    assert (Hsome : is_Some (handler_of (io_descriptors c) port)) by (unfold handler_of; rewrite EF; by eexists).
    destruct (BITARRAY_CLR_spec (io_bitmap c) port) as (b & -> & Lb & Ob & Bb); [rewrite HL; lia|].
    rewrite bind_Ok, (rd_ok _ _ old), bind_Ok, wr_ok by (rewrite ?Nat2Z.id; done || lia). rewrite bind_Ok, Nat2Z.id.
    set (new := mk_iodesc (io_port old) 0 0). destruct Ha as [Hpo Ha].
    assert (Hm : forall j x, io_descriptors c !! j = Some x -> active port x -> j = d).
    { intros j x Hj [Hx Hx']. apply (U j d x old Hj Hd Hx'). rewrite Hx. by split. }
    assert (Hh' : forall q, handler_of (<[d := new]> (io_descriptors c)) q =
        if q =? port then None else handler_of (io_descriptors c) q).
    { intros q. rewrite (replace_handler _ d old new port); try done. intros q' [<- _]. done. }
    edestruct (put_control_of st gid i c) as [E' O']; [done| |eexists _, _; split; [done|]].
    2:{ split; [unfold control_of; by rewrite E'|]. split; [|split_and!; [done| |done]].
        - split; simpl; [split; [by rewrite Lb|by apply Ob]|by rewrite length_insert| |].
          + eapply replace_unique; try done. intros q' [<- _]. done.
          + intros q. rewrite Hh', Bb. destruct (q =? port); [by intros [? [=]]|]. apply HBits.
        - intros q. simpl. rewrite Bb, bool_decide_true by done. by rewrite andb_true_r. }
    done.
  - exists st, c. assert (Hnone : handler_of (io_descriptors c) port = None) by (unfold handler_of; by rewrite EF).
    split_and!; try done.
    + intros q. destruct (Z.eqb_spec q port) as [->|]; done.
    + intros q. rewrite Hnone, bool_decide_false by (by intros [? [=]]). by rewrite andb_false_r.
Qed.

(** Blocking one port. *)
Lemma block_one_ok (st : io_state) (gid port : Z) (c : GUEST_IO_VMEXIT_CONTROL) :
  control_of st gid = Some c -> control_ok c -> fits 16 port ->
  exists st' c', block_one gid port st = Ok st' /\ control_of st' gid = Some c' /\ control_ok c' /\
    (forall q, handler_of (io_descriptors c') q = if q =? port then None else handler_of (io_descriptors c) q) /\
    (forall q, bit_of (io_bitmap c') q = if q =? port then true else bit_of (io_bitmap c) q) /\
    (forall g, g <> gid -> control_of st' g = control_of st g).
Proof.
  intros Hc OK Hp. pose proof Hp as Hp'. unfold fits in Hp'.
  destruct (io_vmexit_handler_unregister_ok st gid port c Hc OK Hp) as (st1 & c1 & E1 & Hc1 & OK1 & H1 & B1 & O1).
  unfold block_one. rewrite u16_small by lia. rewrite E1, bind_Ok. simpl snd.
  destruct (control_of_some st1 gid c1 Hc1) as (j & Ej & Hg). rewrite Ej.
  destruct OK1 as [[HL HB] HN U HBits].
  destruct (BITARRAY_SET_spec (io_bitmap c1) port) as (b & -> & Lb & Ob & Bb); [rewrite HL; lia|]. rewrite bind_Ok.
  set (c2 := mk_ioctl (io_guest_id c1) b (io_descriptors c1)).
  destruct (put_control_of st1 gid j c1 c2 Ej Hg) as [E' O'].
  exists (put_control st1 j c2), c2. split; [done|]. split; [unfold control_of; by rewrite E'|].
  split; [split; simpl|split_and!].
  - split; [by rewrite Lb|by apply Ob].
  - done.
  - done.
  - intros q Hq. rewrite Bb. destruct (q =? port); [done|]. by apply HBits.
  - done.
  - intros q. simpl. rewrite Bb, B1. destruct (q =? port); [done|]. done.
  - intros g Hne. rewrite O' by done. by apply O1.
Qed.

(** Blocking a range of ports leaves each of them without handler and with its bit of the
    I/O bitmap set, so that every access exits to the blocking handler; ports outside the
    range and other guests are unchanged. *)
Theorem io_vmexit_block_port_spec (st : io_state) (gid port_from port_to : Z) (c : GUEST_IO_VMEXIT_CONTROL) :
  control_of st gid = Some c -> control_ok c -> 0 <= port_from <= port_to -> fits 16 port_to ->
  exists st' c', io_vmexit_block_port st gid port_from port_to = Ok st' /\
    control_of st' gid = Some c' /\ control_ok c' /\
    (forall q, handler_of (io_descriptors c') q =
       if (port_from <=? q) && (q <=? port_to) then None else handler_of (io_descriptors c) q) /\
    (forall q, bit_of (io_bitmap c') q =
       if (port_from <=? q) && (q <=? port_to) then true else bit_of (io_bitmap c) q) /\
    (forall g, g <> gid -> control_of st' g = control_of st g).
Proof.
  intros Hc OK Hr Hf. unfold fits in Hf. unfold io_vmexit_block_port.
  pose (P := fun i (s : io_state) => exists c', control_of s gid = Some c' /\ control_ok c' /\
    (forall q, handler_of (io_descriptors c') q =
       if (port_from <=? q) && (q <? i) then None else handler_of (io_descriptors c) q) /\
    (forall q, bit_of (io_bitmap c') q =
       if (port_from <=? q) && (q <? i) then true else bit_of (io_bitmap c) q) /\
    (forall g, g <> gid -> control_of s g = control_of st g)).
  destruct (for_range_inv P port_from (port_to + 1) (block_one gid) st) as (st' & E & c' & Hc' & OK' & H' & B' & O').
  - lia.
  - exists c. split_and!; try done; intros q;
      destruct (Z.leb_spec port_from q), (Z.ltb_spec q port_from); simpl; done || lia.
  - intros i s Hi (c1 & Hc1 & OK1 & H1 & B1 & O1).
    destruct (block_one_ok s gid i c1 Hc1 OK1) as (s' & c2 & E2 & Hc2 & OK2 & H2 & B2 & O2); [unfold fits; lia|].
    exists s'. split; [done|]. exists c2. split_and!; [done..| | |].
    + intros q. rewrite H2, H1.
      destruct (Z.eqb_spec q i), (Z.leb_spec port_from q), (Z.ltb_spec q i), (Z.ltb_spec q (i + 1)); simpl; done || lia.
    + intros q. rewrite B2, B1.
      destruct (Z.eqb_spec q i), (Z.leb_spec port_from q), (Z.ltb_spec q i), (Z.ltb_spec q (i + 1)); simpl; done || lia.
    + intros g Hg. rewrite O2 by done. by apply O1.
  - exists st', c'. split_and!; [done..| | |done]; intros q; rewrite ?H', ?B';
      destruct (Z.leb_spec port_from q), (Z.ltb_spec q (port_to + 1)), (Z.leb_spec q port_to); simpl; done || lia.
Qed.

Lemma fresh_control_ok gid : control_ok (mk_ioctl gid (replicate (Z.to_nat 8192) 0) (replicate 64 (mk_iodesc 0 0 0))).
Proof.
  split; cbn [io_bitmap io_descriptors].
  - rewrite length_replicate. split; [done|]. apply Forall_replicate. unfold fits. lia.
  - done.
  - intros i j d e Hd _ Hh. apply lookup_replicate in Hd as [-> _]. done.
  - intros port [x Hx]. unfold handler_of in Hx.
    destruct (list_find (active port) (replicate 64 (mk_iodesc 0 0 0))) as [[j d]|] eqn:E; [|done].
    apply list_find_Some in E as (Hj & [_ Ha] & _). apply lookup_replicate in Hj as [-> _]. done.
Qed.

(** Two guests. *)
Definition sample_io : io_state := io_vmexit_guest_initialize (io_vmexit_guest_initialize io_vmexit_initialize 0) 1.
Definition fresh_control : GUEST_IO_VMEXIT_CONTROL :=
  mk_ioctl 0 (replicate (Z.to_nat 8192) 0) (replicate 64 (mk_iodesc 0 0 0)).

Lemma io_vmexit_handler_register_spec_witness :
  (handler_of (io_descriptors fresh_control) 0x60 = None /\
   Forall (fun d => io_handler d <> 0) (io_descriptors fresh_control) /\
     io_vmexit_handler_register sample_io 0 0x60 1000 7 = Ok (VMM_ERROR, sample_io)) \/
  (exists st' c', io_vmexit_handler_register sample_io 0 0x60 1000 7 = Ok (VMM_OK, st') /\
     control_of st' 0 = Some c' /\ control_ok c' /\
     (forall q, handler_of (io_descriptors c') q =
        if q =? 0x60 then Some (1000, 7) else handler_of (io_descriptors fresh_control) q) /\
     (forall q, bit_of (io_bitmap c') q = if q =? 0x60 then true else bit_of (io_bitmap fresh_control) q) /\
     (forall g, g <> 0 -> control_of st' g = control_of sample_io g)).
Proof.
  apply (io_vmexit_handler_register_spec sample_io 0 0x60 1000 7 fresh_control);
    [reflexivity|apply fresh_control_ok|unfold fits; lia|lia].
Defined.

Lemma io_vmexit_block_port_spec_witness :
  exists st' c', io_vmexit_block_port sample_io 0 0x60 0x64 = Ok st' /\
    control_of st' 0 = Some c' /\ control_ok c' /\
    (forall q, handler_of (io_descriptors c') q =
       if (0x60 <=? q) && (q <=? 0x64) then None else handler_of (io_descriptors fresh_control) q) /\
    (forall q, bit_of (io_bitmap c') q =
       if (0x60 <=? q) && (q <=? 0x64) then true else bit_of (io_bitmap fresh_control) q) /\
    (forall g, g <> 0 -> control_of st' g = control_of sample_io g).
Proof.
  apply (io_vmexit_block_port_spec sample_io 0 0x60 0x64 fresh_control);
    [reflexivity|apply fresh_control_ok|lia|unfold fits; lia].
Defined.

(** * The exit *)

(** What the exit qualification and the instruction information say (SDM vol. 3, 27.2.1 and 27.2.4). *)
Definition io_is_in (g : io_guest) : bool := Z.testbit (qualification g) 3.
Definition io_is_string (g : io_guest) : bool := Z.testbit (qualification g) 4.
Definition io_is_rep (g : io_guest) : bool := Z.testbit (qualification g) 5.
Definition io_bytes (g : io_guest) : Z := qualification g mod 8 + 1.
Definition io_number (g : io_guest) : Z :=
  if Z.testbit (qualification g) 6 then qualification g / 2 ^ 16 mod 2 ^ 16 else rdx g mod 2 ^ 16.
(** The faults of INS and OUTS that come after the exit: the segment (ES, or the one that the instruction
    names: 0 ES, 1 CS, 2 SS, 3 DS, 4 FS, 5 GS) is unusable; in a 64-bit guest the offset is not canonical for
    [virt] bits. *)
Definition io_faults (virt : Z) (g : io_guest) : Prop :=
  (exists ar, segment_ar g !! Z.to_nat (if io_is_in g then 0 else instruction_info g / 2 ^ 15 mod 8) = Some ar /\ Z.testbit ar 16 = true) \/
  (Z.testbit (enter_controls g) 9 = true /\ ~ sign_extended virt (if io_is_in g then rdi g else rsi g)).
(** The linear address of the string, cut to the address size of the instruction. *)
Definition io_string_address (g : io_guest) : Z :=
  let size := instruction_info g / 2 ^ 7 mod 8 in
  if size =? 0 then linear_address g mod 2 ^ 16 else if size =? 1 then linear_address g mod 2 ^ 32 else linear_address g.
(** The call of the handler [h] with context [ctx]. *)
Definition io_request (g : io_guest) (h ctx : Z) : io_call :=
  mk_call h ctx (io_number g) (io_bytes g) (io_is_in g) (io_is_string g) (io_is_rep g)
    (if io_is_rep g then rcx g mod 2 ^ 32 else 0) (if io_is_string g then io_string_address g else 0).

Lemma bits_bit v k : 0 <= k -> negb (bits v k 1 =? 0) = Z.testbit v k.
Proof.
  intros Hk. unfold bits. change (Z.ones 1) with (2 ^ 0). rewrite <- (Z.add_0_l k) at 2. rewrite <- Z.shiftr_spec by lia.
  destruct (Z.testbit (Z.shiftr v k) 0) eqn:E.
  - rewrite (proj2 (Z.eqb_neq _ _)); [done|]. intros C. apply (f_equal (fun w => Z.testbit w 0)) in C.
    by rewrite Z.land_spec, Z.pow2_bits_true, E, Z.bits_0 in C by lia.
  - rewrite (proj2 (Z.eqb_eq _ _)); [done|]. apply Z.bits_inj'. intros j Hj. rewrite Z.land_spec, Z.pow2_bits_eqb, Z.bits_0 by lia.
    destruct (Z.eqb_spec 0 j) as [<-|]; [by rewrite E|apply andb_false_r].
Qed.
Lemma bits_div_mod v lo n : 0 <= lo -> 0 <= n -> bits v lo n = v / 2 ^ lo mod 2 ^ n.
Proof. intros H1 H2. unfold bits. by rewrite Z.land_ones, Z.shiftr_div_pow2 by lia. Qed.
Lemma bits_one v k : 0 <= k -> (bits v k 1 =? 1) = Z.testbit v k.
Proof.
  intros Hk. rewrite <- bits_bit by done. rewrite bits_div_mod by lia. change (2 ^ 1) with 2.
  pose proof (Z.mod_pos_bound (v / 2 ^ k) 2 ltac:(lia)). zcases; done || lia.
Qed.

(** The check for faults does what the manual says. *)
Lemma native_fault_spec value space g : addr_setup_address_space value = Ok space -> 1 <= virtual_address_size space ->
  fits 64 (rsi g) -> fits 64 (rdi g) -> io_access_native_fault space g = true <-> io_faults (virtual_address_size space) g.
Proof.
  intros Hs Hv H1 H2. unfold io_access_native_fault, io_faults, q_in, io_is_in. rewrite !bits_bit by lia.
  rewrite (bits_div_mod (instruction_info g) 15 3) by lia. change (2 ^ 3) with 8.
  set (seg := instruction_info g / 2 ^ 15 mod 8).
  assert (Hc : forall a, fits 64 a -> negb (addr_is_canonical space a) = true <-> ~ sign_extended (virtual_address_size space) a).
  { intros a Ha. rewrite <- (addr_is_canonical_spec value space a Hs Hv Ha). destruct (addr_is_canonical space a); cbn; naive_solver. }
  destruct (Z.testbit (qualification g) 3); cbv beta iota; rewrite bits_one by lia.
  - change (Z.to_nat 0) with 0%nat. specialize (Hc (rdi g) H2). destruct (segment_ar g !! 0%nat) as [ar|] eqn:E; cbn [default id].
    + destruct (Z.testbit ar 16) eqn:B; [split; [intros _; left; by exists ar|done]|].
      destruct (Z.testbit (enter_controls g) 9); split; [intros H; right; naive_solver|intros [(x & [= <-] & X)|[_ X]]; [congruence|naive_solver]|done|].
      intros [(x & [= <-] & X)|[? _]]; [congruence|done].
    + rewrite Z.bits_0. destruct (Z.testbit (enter_controls g) 9); split; [intros H; right; naive_solver|intros [(x & ? & X)|[_ X]]; [done|naive_solver]|done|].
      intros [(x & ? & X)|[? _]]; done.
  - specialize (Hc (rsi g) H1). destruct (segment_ar g !! Z.to_nat seg) as [ar|] eqn:E; cbn [default id].
    + destruct (Z.testbit ar 16) eqn:B; [split; [intros _; left; by exists ar|done]|].
      destruct (Z.testbit (enter_controls g) 9); split; [intros H; right; naive_solver|intros [(x & [= <-] & X)|[_ X]]; [congruence|naive_solver]|done|].
      intros [(x & [= <-] & X)|[? _]]; [congruence|done].
    + rewrite Z.bits_0. destruct (Z.testbit (enter_controls g) 9); split; [intros H; right; naive_solver|intros [(x & ? & X)|[_ X]]; [done|naive_solver]|done|].
      intros [(x & ? & X)|[? _]]; done.
Qed.

(** The arguments that the handler decodes. *)
Lemma io_decoded g h ctx :
  mk_call h ctx (if q_immediate (qualification g) then q_port (qualification g) else u16 (rdx g)) (q_size (qualification g) + 1)
    (q_in (qualification g)) (q_string (qualification g)) (q_rep (qualification g)) (if q_rep (qualification g) then u32 (rcx g) else 0)
    (if q_string (qualification g) then
       (let addr_size := bits (instruction_info g) 7 3 in
        if addr_size =? 0 then Z.land (linear_address g) 0xffff
        else if addr_size =? 1 then Z.land (linear_address g) 0xffffffff else linear_address g) else 0) = io_request g h ctx.
Proof.
  unfold io_request, q_immediate, q_port, q_size, q_in, q_string, q_rep, io_number, io_bytes, io_is_in, io_is_string, io_is_rep, io_string_address.
  rewrite !bits_bit, !bits_div_mod by lia. rewrite Z.div_1_r. change 0xffff with (Z.ones 16). change 0xffffffff with (Z.ones 32).
  rewrite !Z.land_ones by lia. done.
Qed.

(** C26. The I/O exit handler: for INS and OUTS, when the segment is unusable or, in a 64-bit guest, the offset
    is not canonical, #GP is injected and nothing else happens (a limit violation and #AC are not checked).
    Otherwise the handler registered for the port is called once, with the port of the immediate or of DX,
    the size, the direction, the string and repeat flags, the count in ECX, and for a string instruction the
    linear address cut to the address size of the instruction (else 0); the instruction is skipped exactly
    when it returns TRUE. Without a handler, OUT is skipped; IN fills the size's bytes at the passed address of
    the VMM with ones and is skipped, or faults in the VMM when these bytes are not mapped there: so does
    every IN that is not INS, because its address is 0 (io_blocked_in_faults). *)
Theorem io_vmexit_handler_spec (value : Z) (space : address_space) (hva_mapped : Z -> bool) (ret : io_call -> bool) (st : io_state)
  (g : io_guest) (c : GUEST_IO_VMEXIT_CONTROL) :
  addr_setup_address_space value = Ok space -> 1 <= virtual_address_size space -> fits 64 (rsi g) -> fits 64 (rdi g) ->
  control_of st (guest g) = Some c -> control_ok c ->
  (io_is_string g = true -> io_faults (virtual_address_size space) g -> io_vmexit_handler space hva_mapped ret st g = Ok [InjectGp0]) /\
  (~ (io_is_string g = true /\ io_faults (virtual_address_size space) g) ->
    io_vmexit_handler space hva_mapped ret st g =
      match handler_of (io_descriptors c) (io_number g) with
      | Some (h, ctx) => Ok (CallHandler (io_request g h ctx) :: (if ret (io_request g h ctx) then [SkipInstruction] else []))
      | None =>
          let a := if io_is_string g then io_string_address g else 0 in
          if negb (io_is_in g) || negb (bool_decide (io_bytes g ∈ [1; 2; 4])) then Ok [SkipInstruction]
          else if forallb (fun i => hva_mapped (a + i)) (seqZ 0 (io_bytes g))
               then Ok [FillMemory a 255 (io_bytes g); SkipInstruction] else Fault
      end).
Proof.
  intros Hs Hv H1 H2 Hc OK. destruct (control_of_some st (guest g) c Hc) as (i & E & Hg).
  pose proof (native_fault_spec value space g Hs Hv H1 H2) as NF. pose proof (io_decoded g) as D.
  unfold io_vmexit_handler. cbv zeta.
  assert (Eq : q_string (qualification g) = io_is_string g) by (unfold q_string; by rewrite bits_bit by lia).
  split.
  - intros Hst Hf. apply NF in Hf. by rewrite Eq, Hst, Hf.
  - intros Hn. assert (Ef : q_string (qualification g) && io_access_native_fault space g = false).
    { destruct (q_string (qualification g)) eqn:Es, (io_access_native_fault space g) eqn:En; try done. exfalso. apply Hn. split; [congruence|by apply NF]. }
    rewrite Ef. rewrite (port_lookup_ok st (guest g) i c) by done. unfold handler_of.
    assert (Ep : (if q_immediate (qualification g) then q_port (qualification g) else u16 (rdx g)) = io_number g) by (specialize (D 0 0); by injection D).
    rewrite Ep in *. destruct (list_find (active (io_number g)) (io_descriptors c)) as [[d old]|] eqn:EF; simpl fmap.
    + rewrite E. pose proof EF as (Hd & _ & _)%list_find_Some.
      rewrite (rd_ok _ _ old), bind_Ok by (rewrite ?Nat2Z.id; done || lia). cbn [fst snd]. by rewrite D.
    + specialize (D 0 0). unfold io_request in D. injection D as D1 D2 D3 D4 D5 D6. rewrite D6, D1, D2.
      unfold io_blocking_handler, io_blocking_read_handler. destruct (io_is_in g); [|done]. cbn [negb orb].
      assert (Eb : (io_bytes g =? 1) || (io_bytes g =? 2) || (io_bytes g =? 4) = bool_decide (io_bytes g ∈ [1; 2; 4])).
      { rewrite (bool_decide_ext _ (io_bytes g = 1 \/ io_bytes g = 2 \/ io_bytes g = 4)) by (rewrite !elem_of_cons, elem_of_nil; tauto).
        zcases; case_bool_decide; try done; lia. }
      rewrite Eb. destruct (bool_decide (io_bytes g ∈ [1; 2; 4])); [|done]. cbn [negb].
      by destruct (forallb _ _).
Qed.

Definition sample_guest (q : Z) : io_guest := mk_ioguest 0 0x60 0 0 0 q 0 0 0 [0; 0; 0; 0; 0; 0].
(** 36 bits of physical and 48 of virtual addresses. *)
Definition space48 : address_space := match addr_setup_address_space 0x3024 with Ok s => s | _ => Build_address_space 0 0 0 0 0 end.

(** OUTS to port 0x60 with a handler, and with an unusable DS. *)
Lemma io_vmexit_handler_spec_witness :
  (exists st' c', io_vmexit_handler_register sample_io 0 0x60 1000 7 = Ok (VMM_OK, st') /\ control_of st' 0 = Some c' /\
    io_vmexit_handler space48 (fun a => 4096 <=? a) (fun _ => true) st' (mk_ioguest 0 0x60 0 0x2000 0 0x10 0x12345 0x18000 0 [0; 0; 0; 0; 0; 0])
      = Ok [CallHandler (mk_call 1000 7 0x60 1 false true false 0 0x2345); SkipInstruction]) /\
  io_vmexit_handler space48 (fun a => 4096 <=? a) (fun _ => true) sample_io (mk_ioguest 0 0x60 0 0x2000 0 0x10 0x12345 0x18000 0 [0; 0; 0; 0x10000; 0; 0])
      = Ok [InjectGp0].
Proof.
  split.
  - destruct (io_vmexit_handler_register_spec sample_io 0 0x60 1000 7 fresh_control eq_refl (fresh_control_ok 0) ltac:(unfold fits; lia) ltac:(lia))
      as [(_ & H & _)|(st' & c' & E & Hc & OK & Hh & _)]; [apply Forall_inv in H; done|].
    exists st', c'. split; [exact E|]. split; [exact Hc|].
    destruct (io_vmexit_handler_spec 0x3024 space48 (fun a => 4096 <=? a) (fun _ => true) st'
      (mk_ioguest 0 0x60 0 0x2000 0 0x10 0x12345 0x18000 0 [0; 0; 0; 0; 0; 0]) c' ltac:(vm_compute; reflexivity) ltac:(vm_compute; discriminate)
      ltac:(split; done) ltac:(split; done) Hc OK) as [_ X].
    rewrite X; [rewrite Hh; vm_compute; reflexivity|].
    intros [_ [(ar & Ea & Hb)|[Hb _]]]; [vm_compute in Ea; injection Ea as <-; discriminate Hb|discriminate Hb].
  - apply (io_vmexit_handler_spec 0x3024 space48 (fun a => 4096 <=? a) (fun _ => true) sample_io
      (mk_ioguest 0 0x60 0 0x2000 0 0x10 0x12345 0x18000 0 [0; 0; 0; 0x10000; 0; 0]) fresh_control ltac:(vm_compute; reflexivity) ltac:(vm_compute; discriminate)
      ltac:(split; done) ltac:(split; done) eq_refl (fresh_control_ok 0)); [reflexivity|].
    left. exists 0x10000. split; [vm_compute; reflexivity|reflexivity].
Defined.

(** An IN from a blocked port does not return all ones to the guest: the exit handler passes no buffer for
    IN, the blocking handler fills the bytes at address 0 of the VMM, and the VMM has unmapped its first
    page, so that the exit faults in the VMM itself. *)
Theorem io_blocked_in_faults (space : address_space) (hva_mapped : Z -> bool) (ret : io_call -> bool) (st : io_state) (g : io_guest)
  (c : GUEST_IO_VMEXIT_CONTROL) :
  (forall a, 0 <= a < 4096 -> hva_mapped a = false) ->
  control_of st (guest g) = Some c -> handler_of (io_descriptors c) (io_number g) = None ->
  io_is_in g = true -> io_is_string g = false -> io_bytes g ∈ [1; 2; 4] ->
  io_vmexit_handler space hva_mapped ret st g = Fault.
Proof.
  intros Hm Hc Hn Hin Hs Hsz. destruct (control_of_some st (guest g) c Hc) as (i & E & Hg).
  pose proof (io_decoded g 0 0) as D. unfold io_request in D. injection D as D1 D2 D3 D4 D5 D6 D7.
  unfold io_vmexit_handler. cbv zeta. rewrite D1, D2, D3, D4, Hs, Hin. cbn [andb].
  rewrite (port_lookup_ok st (guest g) i c) by done. unfold handler_of in Hn.
  destruct (list_find (active (io_number g)) (io_descriptors c)); [done|]. simpl fmap.
  unfold io_blocking_handler, io_blocking_read_handler. rewrite !elem_of_cons, elem_of_nil in Hsz.
  assert (Hf : forall n, 0 < n -> forallb (fun i => hva_mapped (0 + i)) (seqZ 0 n) = false)
    by (intros n Hn'; rewrite seqZ_cons by lia; simpl; by rewrite Hm by lia).
  destruct Hsz as [->|[->|[->|[]]]]; by rewrite Hf by lia.
Qed.

(** IN AL, DX. *)
Lemma io_blocked_in_faults_witness :
  io_vmexit_handler space48 (fun a => 4096 <=? a) (fun _ => true) sample_io (sample_guest 8) = Fault.
Proof.
  apply (io_blocked_in_faults space48 (fun a => 4096 <=? a) (fun _ => true) sample_io (sample_guest 8) fresh_control);
    [intros a Ha; apply Z.leb_gt; lia|reflexivity|vm_compute; reflexivity|reflexivity|reflexivity|left].
Defined.
