(* ===== verification/MemAlloc.v ===== *)
(** utils/memory_allocator.c: vmm_malloc and friends, twelve pools of elements of 1 to 2048
    bytes behind one lock, with an information header before each buffer.  The pools are
    used through the interface [PoolServices] (pool_api.h): what is proved here holds for pools with its laws. *)

From S2P Require Import Prelude VmmDefs Lock Libc.

(** * What the allocator needs of the pools *)

Class PoolServices (S : Type) := {
  assync_pool_create : Z -> S -> Z * S;
  pool_allocate_internal : Z -> S -> Z * S;
  pool_free_internal : Z -> Z -> S -> S;
  (** The element size of a pool, and the elements in use with their sizes. *)
  pool_size : S -> Z -> option Z;
  in_use : S -> gmap Z Z;
  create_law : forall sz s h s', assync_pool_create sz s = (h, s') ->
    (h <> 0 -> pool_size s' h = Some sz) /\ in_use s' = in_use s /\
    (forall h' z, pool_size s h' = Some z -> pool_size s' h' = Some z);
  (** An element is aligned to its size, and overlaps no element in use. *)
  allocate_law : forall h s p s' sz, pool_size s h = Some sz -> pool_allocate_internal h s = (p, s') ->
    (forall h' z, pool_size s h' = Some z -> pool_size s' h' = Some z) /\
    (p = 0 /\ in_use s' = in_use s \/
     p mod sz = 0 /\ 0 < p /\ p + sz <= 2 ^ 64 /\ in_use s !! p = None /\
     (forall q z, in_use s !! q = Some z -> q + z <= p \/ p + sz <= q) /\
     in_use s' = <[p := sz]> (in_use s));
  free_law : forall h s p sz, pool_size s h = Some sz -> in_use s !! p = Some sz ->
    in_use (pool_free_internal h p s) = delete p (in_use s)
}.

(** pool_allocate and pool_free do nothing without a pool. *)
Definition pool_allocate {S} `{PoolServices S} (pool : Z) (s : S) : Z * S :=
  if pool =? 0 then (0, s) else pool_allocate_internal pool s.
Definition pool_free {S} `{PoolServices S} (pool data : Z) (s : S) : S :=
  if pool =? 0 then s else pool_free_internal pool data s.

(** * Data *)

Definition NUMBER_OF_POOLS : Z := 12.
(** sizeof(MEM_ALLOCATION_INFO): size, then offset, 32 bits each. *)
Definition INFO_SIZE : Z := 8.

Record allocator (S : Type) := mk_allocator {
  pools : list Z;
  alloc_lock : VMM_LOCK;
  memory_ : mem;
  pool_state : S
}.
Arguments mk_allocator {S}.
Arguments pools {S}.
Arguments alloc_lock {S}.
Arguments memory_ {S}.
Arguments pool_state {S}.

Definition buffer_size_to_pool_index (size : Z) : Z :=
  let pool_index := default 0 (hw_scan_bit_backward size) in
  if u32 (Z.shiftl 1 pool_index) <? size then pool_index + 1 else pool_index.

(** The common part of the allocation and of vmm_mem_pool_size_internal. *)
Definition size_to_request (size alignment : Z) : Z :=
  if INFO_SIZE <? alignment then (if size <? alignment then alignment else size) ⊗₃₂ 2
  else size ⊕₃₂ INFO_SIZE.

Section Operations.
Context {S : Type} `{PoolServices S} (fuel : nat) (cpu : Z).
Implicit Types a : allocator S.

(** [pools[pool_index]], created at the first use. *)
Definition get_pool (ps : list Z) (s : S) (pool_index element_size : Z) : outcome (Z * list Z * S) :=
  pool ← rd ps pool_index;
  if pool =? 0 then
    let '(h, s') := assync_pool_create element_size s in
    ps' ← wr ps pool_index h; Ok (h, ps', s')
  else Ok (pool, ps, s).

Definition vmm_mem_allocate_internal a (size alignment : Z) : outcome (Z * allocator S) :=
  if 2 * 1024 - INFO_SIZE <? size then Ok (0, a)
  else if PAGE_4KB_SIZE <=? alignment then Ok (0, a)
  else
    let pool_index := buffer_size_to_pool_index (size_to_request size alignment) in
    let pool_element_size := u32 (Z.shiftl 1 pool_index) in
    l ← acquire fuel cpu (alloc_lock a);
    x ← get_pool (pools a) (pool_state a) pool_index pool_element_size;
    let '(pool, ps, s) := x in
    let '(ptr, s) := pool_allocate pool s in
    let l := release l in
    if ptr =? 0 then Ok (0, mk_allocator ps l (memory_ a) s)
    else
      let m := vmm_memset (memory_ a) ptr 0 pool_element_size in
      let alloc_info := ptr ⊕₆₄ alignment ⊖₆₄ INFO_SIZE in
      let m := store_bytes m alloc_info 4 pool_element_size in
      let m := store_bytes m (alloc_info + 4) 4 alignment in
      Ok (ptr ⊕₆₄ alignment, mk_allocator ps l m s).

Definition vmm_mem_allocate a (size : Z) : outcome (Z * allocator S) :=
  vmm_mem_allocate_internal a size INFO_SIZE.

Definition vmm_mem_allocate_aligned a (size alignment : Z) : outcome (Z * allocator S) :=
  if negb (IS_POW_OF_2 alignment) then Ok (0, a) else vmm_mem_allocate_internal a size alignment.

Definition vmm_mem_free a (buff : Z) : outcome (allocator S) :=
  if buff =? 0 then Ok a
  else
    let alloc_info := buff ⊖₆₄ INFO_SIZE in
    let pool_element_size := load_bytes (memory_ a) alloc_info 4 in
    let pool_index := buffer_size_to_pool_index pool_element_size in
    let allocated_buffer := buff ⊖₆₄ load_bytes (memory_ a) (alloc_info + 4) 4 in
    l ← acquire fuel cpu (alloc_lock a);
    pool ← rd (pools a) pool_index;
    Ok (mk_allocator (pools a) (release l) (memory_ a) (pool_free pool allocated_buffer (pool_state a))).

Definition vmm_mem_buff_size a (buff : Z) : Z :=
  if buff =? 0 then 0 else load_bytes (memory_ a) (buff ⊖₆₄ INFO_SIZE) 4.

Definition vmm_mem_pool_size_internal (size alignment : Z) : Z :=
  u32 (Z.shiftl 1 (buffer_size_to_pool_index (size_to_request size alignment))).

Definition vmm_mem_pool_size (size : Z) : Z := vmm_mem_pool_size_internal size INFO_SIZE.

End Operations.

(** * Facts *)

Lemma pool_index_log2_up n : 0 < n < 2 ^ 31 -> buffer_size_to_pool_index n = Z.log2_up n.
Proof.
  intros Hn. unfold buffer_size_to_pool_index, hw_scan_bit_backward.
  rewrite (proj2 (Z.eqb_neq n 0)) by lia. simpl default. pose proof (Z.log2_spec n (proj1 Hn)) as [Hlo Hhi].
  pose proof (Z.log2_nonneg n). rewrite Z.shiftl_1_l.
  assert (2 ^ Z.log2 n < 2 ^ 32) by (apply (Z.le_lt_trans _ n); lia). rewrite u32_small by lia.
  destruct (Z.ltb_spec (2 ^ Z.log2 n) n).
  - symmetry. apply Z.log2_up_unique; [lia|]. rewrite Z.add_1_r, Z.pred_succ. lia.
  - assert (n = 2 ^ Z.log2 n) as E by lia. rewrite E at 2. rewrite Z.log2_up_pow2 by lia. done.
Qed.

(** The pool for a request: its elements are large enough, and it exists up to 2048
    bytes. *)
Lemma pool_index_bounds n : 1 < n < 2 ^ 31 -> let i := buffer_size_to_pool_index n in
  0 < i /\ n <= 2 ^ i < 2 * n /\ (n <= 2048 -> i < 12) /\ (2048 < n -> 12 <= i).
Proof.
  intros Hn. rewrite pool_index_log2_up by lia. cbv zeta.
  pose proof (Z.log2_up_spec n ltac:(lia)) as [Hlo Hhi].
  assert (0 < Z.log2_up n) as Hpos by (apply Z.log2_up_pos; lia).
  split; [done|]. split.
  { split; [done|]. replace (Z.log2_up n) with (Z.succ (Z.pred (Z.log2_up n))) by lia.
    rewrite Z.pow_succ_r by lia. lia. }
  split; intros H.
  - change 12 with (Z.succ 11). apply Z.lt_succ_r. change 11 with (Z.log2_up 2048). by apply Z.log2_up_le_mono.
  - destruct (decide (Z.log2_up n < 12)); [|lia].
    assert (2 ^ Z.log2_up n <= 2 ^ 11) by (apply Z.pow_le_mono_r; lia). lia.
Qed.

Lemma pool_index_pow2 i : 0 <= i < 31 -> buffer_size_to_pool_index (2 ^ i) = i.
Proof.
  intros Hi. rewrite pool_index_log2_up; [apply Z.log2_up_pow2; lia|].
  split; [lia|]. apply Z.pow_lt_mono_r; lia.
Qed.

(** The sizes and alignments the pools can serve. *)
Definition served (size k : Z) : Prop :=
  1 <= size <= 2040 /\ (k = 3 \/ 3 < k <= 10 /\ size <= 1024).

Lemma request_bounds size k : served size k ->
  let n := size_to_request size (2 ^ k) in
  1 < n <= 2048 /\ size + 2 ^ k <= n.
Proof.
  intros [Hs Hk]. unfold size_to_request, INFO_SIZE. destruct Hk as [->|[Hk Hs']].
  - simpl. rewrite u32_small by lia. lia.
  - assert (2 ^ 4 <= 2 ^ k <= 2 ^ 10) as Hp by (split; apply Z.pow_le_mono_r; lia).
    change (2 ^ 4) with 16 in Hp. change (2 ^ 10) with 1024 in Hp.
    rewrite (proj2 (Z.ltb_lt 8 (2 ^ k))) by lia.
    destruct (Z.ltb_spec size (2 ^ k)); rewrite u32_small by lia; lia.
Qed.

Section Proofs.
Context {S : Type} `{PoolServices S} (fuel : nat) (cpu : Z).
Implicit Types a : allocator S.

(** The allocator at rest: every pool that exists has the element size of its place. *)
Record allocator_ok a : Prop := {
  ao_count : length (pools a) = 12%nat;
  ao_lock : alloc_lock a = LOCK_INIT_STATE;
  ao_pools : forall (i : nat) h, pools a !! i = Some h -> h <> 0 ->
    pool_size (pool_state a) h = Some (2 ^ Z.of_nat i)
}.

(** The pool of an index, or NULL when it cannot be created. *)
Lemma get_pool_ok a i : allocator_ok a -> 0 <= i < 12 ->
  exists h ps s, get_pool (pools a) (pool_state a) i (2 ^ i) = Ok (h, ps, s) /\
    in_use s = in_use (pool_state a) /\ length ps = 12%nat /\ ps !! Z.to_nat i = Some h /\
    (forall (j : nat) h', ps !! j = Some h' -> h' <> 0 -> pool_size s h' = Some (2 ^ Z.of_nat j)).
Proof.
  intros [HL _ HP] Hi. unfold get_pool.
  destruct (lookup_lt_is_Some_2 (pools a) (Z.to_nat i)) as [h Hh]; [lia|].
  rewrite (rd_ok _ _ h) by (done || lia). rewrite bind_Ok. destruct (Z.eqb_spec h 0) as [->|Hz].
  - destruct (assync_pool_create (2 ^ i) (pool_state a)) as [h s] eqn:EC.
    destruct (create_law _ _ _ _ EC) as (C1 & C2 & C3).
    rewrite wr_ok by lia. rewrite bind_Ok. eexists _, _, _. split; [done|].
    split_and!; [done|by rewrite length_insert|by apply list_lookup_insert_eq; lia|].
    intros j h' Hj Hne. apply list_lookup_insert_Some in Hj as [(<- & <- & _)|(_ & Hj)].
    + rewrite C1 by done. do 2 f_equal. lia.
    + by apply C3, HP.
  - exists h, (pools a), (pool_state a). done.
Qed.

Lemma u64_header p al : 8 <= al -> 0 < p -> p + al < 2 ^ 64 ->
  u64 (p + al) = p + al /\ u64 (u64 (p + al) - INFO_SIZE) = p + al - 8.
Proof. intros. unfold INFO_SIZE. by rewrite !u64_small by (rewrite ?u64_small; lia). Qed.

(** What a successful allocation means: a fresh element [p] of [sz] bytes holds the
    header and, at the requested alignment, the zeroed buffer. *)
Record allocated a a' (size k buff p sz : Z) : Prop := {
  al_fresh : in_use (pool_state a) !! p = None;
  al_used : in_use (pool_state a') = <[p := sz]> (in_use (pool_state a));
  al_disjoint : forall q z, in_use (pool_state a) !! q = Some z -> q + z <= p \/ p + sz <= q;
  al_buff : buff = p + 2 ^ k /\ buff mod 2 ^ k = 0 /\ p + 8 <= buff /\ buff + size <= p + sz;
  al_zero : forall x, buff <= x < buff + size -> memory_ a' x = 0;
  al_rest : forall x, ~ (p <= x < p + sz) -> memory_ a' x = memory_ a x;
  al_header : load_bytes (memory_ a') (buff - 8) 4 = sz /\ load_bytes (memory_ a') (buff - 4) 4 = 2 ^ k;
  al_size : exists i, 0 <= i < 12 /\ sz = 2 ^ i /\
    (exists h, pools a' !! Z.to_nat i = Some h /\ h <> 0) /\ 0 < p /\ p + sz <= 2 ^ 64
}.

Lemma allocate_ok a size k : allocator_ok a -> served size k ->
  exists buff a', vmm_mem_allocate_internal (Datatypes.S fuel) cpu a size (2 ^ k) = Ok (buff, a') /\
    allocator_ok a' /\
    (buff = 0 /\ in_use (pool_state a') = in_use (pool_state a) /\ memory_ a' = memory_ a \/
     buff <> 0 /\ exists p sz, allocated a a' size k buff p sz).
Proof.
  intros OK Hs. destruct (request_bounds size k Hs) as [Hr Hsum]. pose proof Hs as [Hsz Hk].
  destruct (pool_index_bounds (size_to_request size (2 ^ k)) ltac:(lia)) as (Hi0 & Hpow & Hi12 & _).
  specialize (Hi12 ltac:(lia)). set (i := buffer_size_to_pool_index _) in *.
  assert (8 <= 2 ^ k <= 1024) as Hal.
  { change 8 with (2 ^ 3). change 1024 with (2 ^ 10). split; apply Z.pow_le_mono_r; lia. }
  unfold vmm_mem_allocate_internal, INFO_SIZE at 1, PAGE_4KB_SIZE.
  rewrite (proj2 (Z.ltb_ge _ _)), (proj2 (Z.leb_gt _ _)) by lia. cbv zeta. fold i.
  rewrite Z.shiftl_1_l, (u32_small (2 ^ i)) by lia.
  rewrite (acquire_free fuel cpu (alloc_lock a)) by by rewrite (ao_lock a OK). rewrite bind_Ok.
  destruct (get_pool_ok a i OK ltac:(lia)) as (h & ps & s & -> & Hu & Hlen & Hps & Hpools).
  rewrite bind_Ok. unfold pool_allocate. destruct (Z.eqb_spec h 0) as [->|Hh].
  { do 2 eexists. split; [done|]. split; [by split|]. by left. }
  destruct (pool_allocate_internal h s) as [p s'] eqn:EA.
  assert (pool_size s h = Some (2 ^ i)) as Hsize.
  { rewrite (Hpools (Z.to_nat i) h Hps Hh). do 2 f_equal. lia. }
  destruct (allocate_law _ _ _ _ _ Hsize EA) as [Hkeep Hcase].
  assert (Hok : forall m, allocator_ok (mk_allocator ps (release (mk_lock 1 cpu)) m s')).
  { intros m. split; simpl; [done|done|]. intros j h' Hj Hne. by apply Hkeep, Hpools. }
  destruct Hcase as [[-> Hiu]|(Hmod & Hp & Hend & Hfresh & Hdisj & Hiu)].
  { simpl. do 2 eexists. split; [done|]. split; [apply Hok|]. left. simpl. by rewrite Hiu. }
  rewrite (proj2 (Z.eqb_neq p 0)) by lia.
  destruct (u64_header p (2 ^ k)) as [E1 E2]; [lia..|]. rewrite E1 in *. rewrite E2.
  do 2 eexists. split; [done|]. split; [apply Hok|]. right. split; [lia|]. exists p, (2 ^ i).
  assert (Hmem : forall x, store_bytes (store_bytes (vmm_memset (memory_ a) p 0 (2 ^ i)) (p + 2 ^ k - 8) 4 (2 ^ i))
      (p + 2 ^ k - 8 + 4) 4 (2 ^ k) x =
    if within (p + 2 ^ k - 4) 4 x then Z.shiftr (2 ^ k) (8 * (x - (p + 2 ^ k - 4))) mod 256
    else if within (p + 2 ^ k - 8) 4 x then Z.shiftr (2 ^ i) (8 * (x - (p + 2 ^ k - 8))) mod 256
    else if within p (2 ^ i) x then 0 else memory_ a x).
  { intros x. unfold store_bytes, vmm_memset. replace (p + 2 ^ k - 8 + 4) with (p + 2 ^ k - 4) by lia.
    destruct (within (p + 2 ^ k - 4) 4 x); [done|]. destruct (within (p + 2 ^ k - 8) 4 x); [done|].
    rewrite memset_loop_spec, Z2Nat.id by lia. done. }
  split; simpl memory_; simpl pool_state; simpl pools.
  - by rewrite <- Hu.
  - by rewrite Hiu, Hu.
  - intros q z Hq. rewrite <- Hu in Hq. by apply Hdisj.
  - split; [done|]. split; [|lia]. rewrite <- Zplus_mod_idemp_r, Z_mod_same_full, Z.add_0_r.
    apply Z.mod_divide; [lia|]. apply Z.mod_divide in Hmod; [|lia].
    apply (Z.divide_trans _ (2 ^ i)); [|done].
    assert (k <= i) by (apply (Z.pow_le_mono_r_iff 2); lia).
    exists (2 ^ (i - k)). rewrite <- Z.pow_add_r by lia. f_equal. lia.
  - intros x Hx. rewrite Hmem. within_cases; lia.
  - intros x Hx. rewrite Hmem. within_cases; lia || done.
  - assert (2 ^ i < 256 ^ Z.of_nat 4 /\ 2 ^ k < 256 ^ Z.of_nat 4) as [B1 B2]
      by (change (256 ^ Z.of_nat 4) with 4294967296; lia).
    split.
    + rewrite (load_of_bytes _ 4 (2 ^ i)); [apply Z.mod_small; lia|]. intros x Hx. rewrite Hmem.
      within_cases; lia || done.
    + rewrite (load_of_bytes _ 4 (2 ^ k)); [apply Z.mod_small; lia|]. intros x Hx. rewrite Hmem.
      within_cases; lia || done.
  - exists i. split_and!; [lia..|done|by exists h|lia|lia].
Qed.

End Proofs.

(** For the sizes and alignments the pools serve, an allocation terminates and either
    returns NULL, with nothing in use and no byte of memory changed, or returns a zeroed
    buffer at the requested alignment, inside an element that overlaps none in use, with the
    header just before it; no byte outside the element changes. *)
Theorem vmm_mem_allocate_spec {S} `{PoolServices S} (fuel : nat) (cpu : Z) (a : allocator S) (size k : Z) :
  allocator_ok a -> served size k ->
  exists buff a', vmm_mem_allocate_aligned (Datatypes.S fuel) cpu a size (2 ^ k) = Ok (buff, a') /\
    allocator_ok a' /\
    (buff = 0 /\ in_use (pool_state a') = in_use (pool_state a) /\ memory_ a' = memory_ a \/
     buff <> 0 /\ exists p sz, allocated a a' size k buff p sz).
Proof.
  intros OK Hs. unfold vmm_mem_allocate_aligned.
  assert (IS_POW_OF_2 (2 ^ k) = true) as ->.
  { destruct Hs as [_ Hk]. apply IS_POW_OF_2_spec; [lia|]. by rewrite Z.log2_pow2 by lia. }
  by apply allocate_ok.
Qed.

(** Freeing a buffer, whatever the client stored in it, gives back exactly the element
    that the allocation took: the elements in use are those from before the allocation. *)
Theorem vmm_mem_allocate_free {S} `{PoolServices S} (fuel : nat) (cpu : Z) (a : allocator S) (size k buff : Z)
  (a' : allocator S) (m : mem) :
  allocator_ok a -> served size k ->
  vmm_mem_allocate_aligned (Datatypes.S fuel) cpu a size (2 ^ k) = Ok (buff, a') -> buff <> 0 ->
  (forall x, buff - 8 <= x < buff -> m x = memory_ a' x) ->
  exists a2, vmm_mem_free (Datatypes.S fuel) cpu (mk_allocator (pools a') (alloc_lock a') m (pool_state a')) buff
      = Ok a2 /\ in_use (pool_state a2) = in_use (pool_state a).
Proof.
  intros OK Hs HE Hb Hm. unfold vmm_mem_allocate_aligned in HE.
  assert (IS_POW_OF_2 (2 ^ k) = true) as E.
  { destruct Hs as [_ Hk]. apply IS_POW_OF_2_spec; [lia|]. by rewrite Z.log2_pow2 by lia. }
  rewrite E in HE. simpl in HE.
  destruct (allocate_ok fuel cpu a size k OK Hs) as (b & a1 & E1 & OK1 & [[-> _]|[_ (p & sz & AL)]]);
    rewrite E1 in HE; injection HE as <- <-; [done|].
  destruct AL as [A1 A2 _ (A3 & _ & A4 & A5) _ _ (A6 & A7) (i & Hi & -> & (h & Hh & Hz) & Hp & Hend)].
  unfold vmm_mem_free. rewrite (proj2 (Z.eqb_neq _ 0) Hb). cbv zeta. simpl memory_. simpl alloc_lock.
  simpl pools. simpl pool_state. unfold INFO_SIZE. destruct Hs as [Hs _].
  rewrite (u64_small (b - 8)) by lia.
  assert (E2 : load_bytes m (b - 8) 4 = 2 ^ i) by (rewrite <- A6; apply load_ext; intros x Hx; apply Hm; lia).
  assert (E3 : load_bytes m (b - 8 + 4) 4 = 2 ^ k).
  { replace (b - 8 + 4) with (b - 4) by lia. rewrite <- A7. apply load_ext. intros x Hx. apply Hm. lia. }
  rewrite E2, E3, pool_index_pow2 by lia.
  rewrite (acquire_free fuel cpu (alloc_lock a1)) by by rewrite (ao_lock a1 OK1). rewrite bind_Ok.
  rewrite (rd_ok _ _ h) by (done || lia). rewrite bind_Ok. unfold pool_free. rewrite (proj2 (Z.eqb_neq h 0) Hz).
  eexists. split; [done|]. simpl pool_state. rewrite (u64_small (b - 2 ^ k)) by lia.
  replace (b - 2 ^ k) with p by lia.
  rewrite (free_law h (pool_state a1) p (2 ^ i)).
  - rewrite A2. rewrite delete_insert_eq. by apply delete_id.
  - rewrite (ao_pools a1 OK1 (Z.to_nat i) h Hh Hz). do 2 f_equal. lia.
  - rewrite A2. apply lookup_insert_eq.
Qed.

(** An aligned request of more than 1024 bytes, or with an alignment of 2048, doubles to
    more than 2048 bytes and indexes the twelve pools out of bounds, although sizes up to
    2040 are meant to be served. *)
Theorem vmm_mem_allocate_aligned_overflow {S} `{PoolServices S} (fuel : nat) (cpu : Z) (a : allocator S) (size k : Z) :
  allocator_ok a -> 1 <= size <= 2040 -> 3 < k < 12 -> 1024 < Z.max size (2 ^ k) ->
  vmm_mem_allocate_aligned (Datatypes.S fuel) cpu a size (2 ^ k) = Fault.
Proof.
  intros OK Hs Hk Hm. unfold vmm_mem_allocate_aligned.
  assert (IS_POW_OF_2 (2 ^ k) = true) as ->.
  { apply IS_POW_OF_2_spec; [lia|]. by rewrite Z.log2_pow2 by lia. }
  simpl negb. cbv iota. assert (2 ^ 4 <= 2 ^ k <= 2 ^ 11) as Hp by (split; apply Z.pow_le_mono_r; lia).
  change (2 ^ 4) with 16 in Hp. change (2 ^ 11) with 2048 in Hp.
  unfold vmm_mem_allocate_internal, INFO_SIZE at 1, PAGE_4KB_SIZE.
  rewrite (proj2 (Z.ltb_ge _ _)), (proj2 (Z.leb_gt _ _)) by lia. cbv zeta.
  assert (2048 < size_to_request size (2 ^ k) < 2 ^ 31) as Hr.
  { unfold size_to_request, INFO_SIZE. rewrite (proj2 (Z.ltb_lt 8 (2 ^ k))) by lia.
    destruct (Z.ltb_spec size (2 ^ k)); rewrite u32_small by lia; lia. }
  destruct (pool_index_bounds _ ltac:(split; [apply (Z.lt_trans _ 2048); [lia|apply Hr]|apply Hr]))
    as (_ & _ & _ & Hi). specialize (Hi ltac:(lia)).
  rewrite (acquire_free fuel cpu (alloc_lock a)) by by rewrite (ao_lock a OK). rewrite bind_Ok.
  unfold get_pool. by rewrite rd_fault by (rewrite (ao_count a OK); simpl; lia).
Qed.

(** * An instance *)

(** Pools of one element per multiple of 4096: the state counts the elements handed out,
    the pools created and what is in use. *)
Record page_pools := mk_pages { pages_used : Z; sizes : gmap Z Z; used_elements : gmap Z Z }.

Definition pages_create (sz : Z) (s : page_pools) : Z * page_pools :=
  match sizes s !! (sz + 1) with
  | None => (sz + 1, mk_pages (pages_used s) (<[sz + 1 := sz]> (sizes s)) (used_elements s))
  | Some _ => (0, s)
  end.

Definition fits_at (s : page_pools) (sz p : Z) : Prop :=
  p mod sz = 0 /\ 0 < p /\ p + sz <= 2 ^ 64 /\ used_elements s !! p = None /\
  map_Forall (fun q z => q + z <= p) (used_elements s).
#[global] Instance fits_at_dec s sz p : Decision (fits_at s sz p).
Proof. unfold fits_at. apply _. Defined.

Definition pages_allocate (h : Z) (s : page_pools) : Z * page_pools :=
  match sizes s !! h with
  | Some sz =>
      let p := 4096 * (pages_used s + 1) in
      if bool_decide (fits_at s sz p)
      then (p, mk_pages (pages_used s + 1) (sizes s) (<[p := sz]> (used_elements s)))
      else (0, s)
  | None => (0, s)
  end.

Definition pages_free (h p : Z) (s : page_pools) : page_pools :=
  mk_pages (pages_used s) (sizes s) (delete p (used_elements s)).

#[refine, global] Instance page_pool_services : PoolServices page_pools := {|
  assync_pool_create := pages_create; pool_allocate_internal := pages_allocate; pool_free_internal := pages_free;
  pool_size := fun s h => sizes s !! h; in_use := used_elements
|}.
Proof.
  - intros sz s h s' E. unfold pages_create in E. destruct (sizes s !! (sz + 1)) eqn:Es; [by injection E as <- <-|].
    injection E as <- <-. simpl. rewrite lookup_insert_eq. split_and!; [done..|].
    intros h' z Hz. rewrite lookup_insert_ne; [done|]. congruence.
  - intros h s p s' sz Hsz E. unfold pages_allocate in E. rewrite Hsz in E. cbv zeta in E.
    destruct (bool_decide (fits_at s sz (4096 * (pages_used s + 1)))) eqn:EB; injection E as <- <-; [|by split; [|left]].
    apply bool_decide_eq_true in EB as (B1 & B2 & B3 & B4 & B5). simpl. split; [done|]. right.
    split_and!; [done..| |done]. intros q z Hq. left. by apply (B5 q z Hq).
  - done.
Defined.

Definition no_pools : allocator page_pools :=
  mk_allocator (replicate 12 0) LOCK_INIT_STATE (fun _ => 7) (mk_pages 0 ∅ ∅).

Lemma no_pools_ok : allocator_ok no_pools.
Proof.
  split; [done|done|]. intros i h Hi Hh. simpl in Hi.
  change [0; 0; 0; 0; 0; 0; 0; 0; 0; 0; 0; 0] with (replicate 12 0) in Hi.
  by apply lookup_replicate in Hi as [-> _].
Qed.

Lemma served_example : served 100 6.
Proof. unfold served. lia. Qed.

Lemma vmm_mem_allocate_spec_witness :
  exists buff a', vmm_mem_allocate_aligned 1 0 no_pools 100 (2 ^ 6) = Ok (buff, a') /\
    allocator_ok a' /\
    (buff = 0 /\ in_use (pool_state a') = in_use (pool_state no_pools) /\ memory_ a' = memory_ no_pools \/
     buff <> 0 /\ exists p sz, allocated no_pools a' 100 6 buff p sz).
Proof. exact (vmm_mem_allocate_spec 0 0 no_pools 100 6 no_pools_ok served_example). Defined.

(** The state after that allocation. *)
Definition after_alloc : allocator page_pools :=
  match vmm_mem_allocate_aligned 1 0 no_pools 100 (2 ^ 6) with Ok (_, a) => a | _ => no_pools end.

Lemma vmm_mem_allocate_free_witness :
  exists a2, vmm_mem_free 1 0 (mk_allocator (pools after_alloc) (alloc_lock after_alloc) (memory_ after_alloc)
                                 (pool_state after_alloc)) 4160 = Ok a2 /\
    in_use (pool_state a2) = in_use (pool_state no_pools).
Proof.
  apply (vmm_mem_allocate_free 0 0 no_pools 100 6 4160 after_alloc (memory_ after_alloc) no_pools_ok
           served_example).
  - reflexivity.
  - lia.
  - reflexivity.
Defined.

Lemma vmm_mem_allocate_aligned_overflow_witness :
  vmm_mem_allocate_aligned 1 0 no_pools 1500 (2 ^ 4) = Fault.
Proof. apply (vmm_mem_allocate_aligned_overflow 0 0 no_pools 1500 4 no_pools_ok); lia. Defined.
