(* ===== verification/Ipc.v ===== *)
(** ipc/ipc.c, ipc/ipc_impl.h and include/ipc.h: messages between the processors, with the
    NMI bookkeeping of the exits they cause and the flags of vmx/vmx_nmi.c.

    A processor sends a message by putting it into the queue of each destination and waits
    until every destination has taken it out (or has run its handler); while it waits it serves
    its own queue. The model runs all processors: [code] says where a processor is in
    [ipc_execute_send] or in an exit handler, and which handlers are running on it; [exec]
    performs the next step of one processor. A step is one critical section of a queue's
    [data_lock], or one access outside of them: the runs are the interleavings in which the locks
    exclude. Lock says when they do, and that the compare-exchange of the source does not ensure it in every
    interleaving of its accesses to memory. Each queue is the bounded first-in-first-out
    queue that ArrayList shows an array list to be.

    The handler of a message is code of the client: it runs between two steps, may itself serve
    one message (as stop_cpu_handler does) and returns; it does not send. *)

From stdpp Require Import functions.
From S2P Require Import Prelude VmmDefs Lock.

(** * Data *)

Definition CPU_BITMAP_MAX : Z := Z.shiftr (80 + 63) 6.

Definition BITMAP_ARRAY64_BYTE (bitno : Z) : Z := Z.shiftr bitno 6.

Definition BITMAP_ARRAY64_SET (a : list Z) (bitno : Z) : outcome (list Z) :=
  w ← rd a (BITMAP_ARRAY64_BYTE bitno);
  wr a (BITMAP_ARRAY64_BYTE bitno) (Z.lor w (u64 (Z.shiftl 1 (bitno mod 64)))).

Definition BITMAP_ARRAY64_GET (a : list Z) (bitno : Z) : outcome Z :=
  w ← rd a (BITMAP_ARRAY64_BYTE bitno); Ok (Z.land w (u64 (Z.shiftl 1 (bitno mod 64)))).

(** LOCAL_APIC_IPI_DESTINATION_SHORTHAND *)
Definition IPI_DST_NO_SHORTHAND : Z := 0.
Definition IPI_DST_SELF : Z := 1.
Definition IPI_DST_ALL_INCLUDING_SELF : Z := 2.
Definition IPI_DST_ALL_EXCLUDING_SELF : Z := 3.
Definition IPI_DST_CORE_ID_BITMAP : Z := 0xFFF.

Record IPC_DESTINATION := mk_dst { addr_shorthand : Z; addr : Z; CoreBitMap : list Z }.

#[global] Instance IPC_DESTINATION_eq_dec : EqDecision IPC_DESTINATION.
Proof. solve_decision. Defined.

(** IPC_MESSAGE_TYPE *)
Definition IPC_TYPE_NORMAL : Z := 0.
Definition IPC_TYPE_START : Z := 1.
Definition IPC_TYPE_STOP : Z := 2.
Definition IPC_TYPE_SYNC : Z := 3.
Definition IPC_TYPE_LAST : Z := 4.

(** The handler and its argument are addresses; a pointer into the acknowledge array is an
    index of it, or NULL. *)
Record IPC_MESSAGE := mk_msg {
  type : Z;
  from : Z;
  handler : Z;
  arg : Z;
  before_handler_ack : option Z;
  after_handler_ack : option Z }.

#[global] Instance IPC_MESSAGE_eq_dec : EqDecision IPC_MESSAGE.
Proof. solve_decision. Defined.

Inductive IPC_CPU_ACTIVITY_STATE := IPC_CPU_NOT_ACTIVE | IPC_CPU_ACTIVE | IPC_CPU_SIPI.

#[global] Instance IPC_CPU_ACTIVITY_STATE_eq_dec : EqDecision IPC_CPU_ACTIVITY_STATE.
Proof. solve_decision. Defined.

(** The counters of IPC_CPU_CONTEXT, by name. *)
Inductive ipc_counter :=
| num_received_nmi_interrupts
| num_processed_nmi_interrupts
| num_of_sent_ipc_nmi_interrupts
| num_of_processed_ipc_nmi_interrupts
| num_blocked_nmi_injections_to_guest
| num_start_messages
| num_stop_messages
| num_of_sent_ipc_messages
| num_of_received_ipc_messages.

#[global] Instance ipc_counter_eq_dec : EqDecision ipc_counter.
Proof. solve_decision. Defined.

Record IPC_CPU_CONTEXT := mk_ctx { counter : ipc_counter -> Z; message_queue : list IPC_MESSAGE }.

(** A call of ipc_send_message_sync ([c_sync]) or ipc_send_message: its arguments, and the processors that
    were ready (not IPC_CPU_NOT_ACTIVE) when it was made. *)
Record call := mk_call { c_sync : bool; c_dst : IPC_DESTINATION; c_type : Z; c_handler : Z; c_arg : Z; c_ready : list Z }.

#[global] Instance call_eq_dec : EqDecision call.
Proof. solve_decision. Defined.

(** What can be seen of a run. *)
Inductive event :=
| EvCall (c : Z) (k : call)             (** the next call of [c] *)
| EvStart (c : Z)                       (** [c] enters ipc_send_message or its sync form *)
| EvEnqueue (c j : Z) (m : IPC_MESSAGE) (** [c] puts a message into the queue of [j] *)
| EvReceive (j : Z) (m : IPC_MESSAGE)   (** [j] takes it out and calls the handler *)
| EvFinish (j : Z) (m : IPC_MESSAGE)    (** the handler has returned *)
| EvReturn (c n : Z)                    (** the send returns the number of receivers *)
| EvNmi (j : Z)                         (** an NMI is signalled to [j] *)
| EvSipi (j : Z)                        (** a SIPI with vector 0xFF is signalled to [j] *)
| EvWindow (c : Z)                      (** vmcs_nmi_handler on the current guest CPU *)
| EvNoWindow (c : Z)                    (** gcpu_set_pending_nmi(gcpu, 0) *)
| EvExit (c : Z) (handled : bool).      (** an exit handler returns *)

#[global] Instance event_eq_dec : EqDecision event.
Proof. solve_decision. Defined.

(** The arguments and the local variables of ipc_execute_send. *)
Record send := mk_send {
  s_dst : IPC_DESTINATION;
  s_type : Z;
  s_handler : Z;
  s_arg : Z;
  wait_for_handler_finish : bool;
  num_required_acks : Z;
  nmi_accounted_flag : list Z;
  enqueue_flag : list Z }.

Inductive exit_kind := ExitNmi | ExitNmiWindow | ExitSipi.

(** Where the code of a processor is. [Exit] is after ipc_process_all_ipc_messages when no
    handler is running, and inside of it when one is. *)
Inductive place :=
| Outside                                (** not in the code of ipc.c *)
| Enqueueing (f : send) (i : Z)          (** the first loop, at index [i] *)
| Waiting (f : send)                     (** in the while loop, its condition found true *)
| Counting (f : send) (i received : Z)   (** counting the acknowledgements *)
| Resending (f : send) (i : Z)           (** the loop over stalled cores *)
| Resignal (f : send) (i : Z)            (** the same, the core found stalled *)
| Exit (k : exit_kind).

(** A running handler: the message, and for a message taken by ipc_process_all_ipc_messages
    its [nmi_flag] and [last_msg]. *)
Record frame := mk_frame { f_msg : IPC_MESSAGE; f_all : option (bool * bool) }.

Record code := mk_code { at_ : place; frames : list frame }.

Record ipc := mk_ipc {
  ipc_cpu_contexts : Z -> IPC_CPU_CONTEXT;
  ipc_ack_array : Z -> Z;
  cpu_activity_state : Z -> IPC_CPU_ACTIVITY_STATE;
  debug_not_resend : Z;
  nmi_array : Z -> bool;
  cpus : Z -> code;
  log : list event }.                     (** newest first *)

(** * Updates of the state *)

Definition set_contexts (x : Z -> IPC_CPU_CONTEXT) (s : ipc) : ipc :=
  mk_ipc x (ipc_ack_array s) (cpu_activity_state s) (debug_not_resend s) (nmi_array s) (cpus s) (log s).
Definition set_acks (x : Z -> Z) (s : ipc) : ipc :=
  mk_ipc (ipc_cpu_contexts s) x (cpu_activity_state s) (debug_not_resend s) (nmi_array s) (cpus s) (log s).
Definition set_activity (c : Z) (x : IPC_CPU_ACTIVITY_STATE) (s : ipc) : ipc :=
  mk_ipc (ipc_cpu_contexts s) (ipc_ack_array s) (<[c := x]> (cpu_activity_state s)) (debug_not_resend s)
    (nmi_array s) (cpus s) (log s).
Definition set_not_resend (x : Z) (s : ipc) : ipc :=
  mk_ipc (ipc_cpu_contexts s) (ipc_ack_array s) (cpu_activity_state s) x (nmi_array s) (cpus s) (log s).
Definition set_nmi (c : Z) (x : bool) (s : ipc) : ipc :=
  mk_ipc (ipc_cpu_contexts s) (ipc_ack_array s) (cpu_activity_state s) (debug_not_resend s)
    (<[c := x]> (nmi_array s)) (cpus s) (log s).
Definition set_code (c : Z) (x : code) (s : ipc) : ipc :=
  mk_ipc (ipc_cpu_contexts s) (ipc_ack_array s) (cpu_activity_state s) (debug_not_resend s) (nmi_array s)
    (<[c := x]> (cpus s)) (log s).
Definition emit (e : event) (s : ipc) : ipc :=
  mk_ipc (ipc_cpu_contexts s) (ipc_ack_array s) (cpu_activity_state s) (debug_not_resend s) (nmi_array s)
    (cpus s) (e :: log s).

Definition goto (c : Z) (p : place) (s : ipc) : ipc := set_code c (mk_code p (frames (cpus s c))) s.
Definition set_frames (c : Z) (fs : list frame) (s : ipc) : ipc := set_code c (mk_code (at_ (cpus s c)) fs) s.

Definition queue (s : ipc) (j : Z) : list IPC_MESSAGE := message_queue (ipc_cpu_contexts s j).
Definition count (s : ipc) (j : Z) (k : ipc_counter) : Z := counter (ipc_cpu_contexts s j) k.

Definition set_queue (j : Z) (q : list IPC_MESSAGE) (s : ipc) : ipc :=
  set_contexts (<[j := mk_ctx (counter (ipc_cpu_contexts s j)) q]> (ipc_cpu_contexts s)) s.
Definition set_count (j : Z) (k : ipc_counter) (x : Z) (s : ipc) : ipc :=
  set_contexts (<[j := mk_ctx (<[k := x]> (counter (ipc_cpu_contexts s j))) (queue s j)]> (ipc_cpu_contexts s)) s.
(** [counter++] on a UINT64. *)
Definition count_up (j : Z) (k : ipc_counter) (s : ipc) : ipc := set_count j k (count s j k ⊕₆₄ 1) s.

(** * The functions of ipc.c *)

Section Code.
Context (num_of_host_processors : Z).

(** &ipc_ack_array[sender_cpu_id * num_of_host_processors][i] *)
Definition ack_index (sender_cpu_id i : Z) : Z := sender_cpu_id * num_of_host_processors + i.

Definition ipc_get_max_pending_messages : Z := num_of_host_processors.

Definition ipc_cpu_is_destination (dst : IPC_DESTINATION) (this_cpu_id dst_cpu_id : Z) : outcome bool :=
  if addr_shorthand dst =? IPI_DST_SELF then Ok (this_cpu_id =? dst_cpu_id)
  else if addr_shorthand dst =? IPI_DST_ALL_INCLUDING_SELF then Ok true
  else if addr_shorthand dst =? IPI_DST_ALL_EXCLUDING_SELF then Ok (negb (this_cpu_id =? dst_cpu_id))
  else if addr_shorthand dst =? IPI_DST_NO_SHORTHAND then Ok (addr dst =? dst_cpu_id)
  else if addr_shorthand dst =? IPI_DST_CORE_ID_BITMAP then
    b ← BITMAP_ARRAY64_GET (CoreBitMap dst) dst_cpu_id; Ok (negb (b =? 0))
  else Ok false.

Definition ipc_increment_ack (ack : option Z) (s : ipc) : ipc :=
  match ack with
  | Some p => set_acks (<[p := ipc_ack_array s p ⊕₃₂ 1]> (ipc_ack_array s)) s
  | None => s
  end.

(** array_list_add refuses a message when the queue is full. *)
Definition ipc_enqueue_message (cpu_id j type handler arg : Z) (before after : option Z) (s : ipc) : bool * ipc :=
  let msg := mk_msg type cpu_id handler arg before after in
  if Z.of_nat (length (queue s j)) <? ipc_get_max_pending_messages
  then (true, emit (EvEnqueue cpu_id j msg) (set_queue j (queue s j ++ [msg]) s))
  else (false, s).

Definition ipc_dequeue_message (c : Z) (s : ipc) : option IPC_MESSAGE * ipc :=
  match queue s c with
  | [] => (None, s)
  | msg :: q =>
      (Some msg, emit (EvReceive c msg)
        (count_up c num_of_received_ipc_messages (ipc_increment_ack (before_handler_ack msg) (set_queue c q s))))
  end.

Definition is_active (s : ipc) (c : Z) : bool := bool_decide (cpu_activity_state s c = IPC_CPU_ACTIVE).
Definition is_not_active (s : ipc) (c : Z) : bool := bool_decide (cpu_activity_state s c = IPC_CPU_NOT_ACTIVE).

Definition ipc_preprocess_normal_message (dst : Z) (s : ipc) : bool * ipc := (negb (is_not_active s dst), s).
Definition ipc_preprocess_start_message (dst : Z) (s : ipc) : bool * ipc :=
  (false, count_up dst num_start_messages s).
Definition ipc_preprocess_stop_message (dst : Z) (s : ipc) : bool * ipc :=
  (negb (is_not_active s dst), count_up dst num_stop_messages s).

Definition ipc_preprocess_message (dst msg_type : Z) (s : ipc) : bool * ipc :=
  if msg_type =? IPC_TYPE_NORMAL then ipc_preprocess_normal_message dst s
  else if msg_type =? IPC_TYPE_START then ipc_preprocess_start_message dst s
  else if msg_type =? IPC_TYPE_STOP then ipc_preprocess_stop_message dst s
  else (false, s).

(** ** ipc_execute_send, step by step *)

(** The start: the sender's row of the acknowledge array is cleared. *)
Definition clear_row (c : Z) (s : ipc) : ipc :=
  set_acks (fun p => if (ack_index c 0 <=? p) && (p <? ack_index c num_of_host_processors) then 0
                     else ipc_ack_array s p) s.

Definition ipc_execute_send (c : Z) (dst : IPC_DESTINATION) (type handler arg : Z) (wait : bool) (s : ipc) : ipc :=
  let zeros := replicate (Z.to_nat CPU_BITMAP_MAX) 0 in
  goto c (Enqueueing (mk_send dst type handler arg wait 0 zeros zeros) 0) (clear_row c s).

(** The signal of an IPC, and the accounting of its NMI. *)
Definition signal (f : send) (i : Z) (s : ipc) : outcome (send * ipc) :=
  if is_active s i then
    nmi ← BITMAP_ARRAY64_SET (nmi_accounted_flag f) i;
    Ok (mk_send (s_dst f) (s_type f) (s_handler f) (s_arg f) (wait_for_handler_finish f) (num_required_acks f)
          nmi (enqueue_flag f),
        emit (EvNmi (u8 i)) (count_up i num_of_sent_ipc_nmi_interrupts s))
  else Ok (f, emit (EvSipi (u8 i)) s).

(** The critical section for destination [i]. The result of the enqueue is only asserted. *)
Definition send_one (c i : Z) (f : send) (s : ipc) : outcome (send * ipc) :=
  let '(enqueue, s) := ipc_preprocess_message i (s_type f) s in
  if enqueue then
    let empty_queue := Z.of_nat (length (queue s i)) =? 0 in
    flags ← BITMAP_ARRAY64_SET (enqueue_flag f) i;
    let f := mk_send (s_dst f) (s_type f) (s_handler f) (s_arg f) (wait_for_handler_finish f)
               (num_required_acks f ⊕₃₂ 1) (nmi_accounted_flag f) flags in
    let '(before, after) := if wait_for_handler_finish f then (None, Some (ack_index c i))
                            else (Some (ack_index c i), None) in
    let '(_, s) := ipc_enqueue_message c i (s_type f) (s_handler f) (s_arg f) before after s in
    let s := count_up i num_of_sent_ipc_messages s in
    if empty_queue then signal f i s else Ok (f, s)
  else Ok (f, s).

Definition send_step (c i : Z) (f : send) (s : ipc) : outcome ipc :=
  if i <? num_of_host_processors then
    if i =? c then Ok (goto c (Enqueueing f (u16 (i + 1))) s)
    else
      to_i ← ipc_cpu_is_destination (s_dst f) c i;
      if (to_i : bool) then
        r ← send_one c i f s; Ok (goto c (Enqueueing r.1 (u16 (i + 1))) r.2)
      else Ok (goto c (Enqueueing f (u16 (i + 1))) s)
  else if 0 <? num_required_acks f then Ok (goto c (Waiting f) s)
  else Ok (goto c Outside (emit (EvReturn c (num_required_acks f)) s)).

(** One acknowledgement is added; after the last one the condition of the loop is tested. *)
Definition count_step (c i received : Z) (f : send) (s : ipc) : outcome ipc :=
  if i <? num_of_host_processors
  then Ok (goto c (Counting f (u16 (i + 1)) (received ⊕₃₂ ipc_ack_array s (ack_index c i))) s)
  else if received =? num_required_acks f
       then Ok (goto c Outside (emit (EvReturn c (num_required_acks f)) s))
       else Ok (goto c (Waiting f) s).

(** The acknowledgement is read outside of the lock. After the loop [num_received_acks] is 0,
    so the condition holds. *)
Definition resend_step (c i : Z) (f : send) (s : ipc) : outcome ipc :=
  if i <? num_of_host_processors then
    flag ← BITMAP_ARRAY64_GET (enqueue_flag f) i;
    if negb (flag =? 0) && (ipc_ack_array s (ack_index c i) =? 0) && (debug_not_resend s =? 0)
    then Ok (goto c (Resignal f i) s)
    else Ok (goto c (Resending f (u16 (i + 1))) s)
  else Ok (goto c (Waiting f) s).

Definition resignal_step (c i : Z) (f : send) (s : ipc) : outcome ipc :=
  if is_active s i then
    flag ← BITMAP_ARRAY64_GET (nmi_accounted_flag f) i;
    r ← (if flag =? 0 then signal f i s else Ok (f, emit (EvNmi (u8 i)) s));
    Ok (goto c (Resending r.1 (u16 (i + 1))) r.2)
  else Ok (goto c (Resending f (u16 (i + 1))) (emit (EvSipi (u8 i)) s)).

(** ** Receiving *)

(** The call of a handler; NULL is not a function. *)
Definition call_handler (c : Z) (fr : frame) (s : ipc) : outcome ipc :=
  if handler (f_msg fr) =? 0 then Fault else Ok (set_frames c (fr :: frames (cpus s c)) s).

Definition processed_nmi (c : Z) (s : ipc) : ipc :=
  count_up c num_of_processed_ipc_nmi_interrupts (count_up c num_processed_nmi_interrupts s).

(** ipc_process_one_ipc up to the call of the handler. *)
Definition ipc_process_one_ipc (c : Z) (s : ipc) : outcome (bool * ipc) :=
  match ipc_dequeue_message c s with
  | (None, s) => Ok (false, s)
  | (Some msg, s) =>
      let s := if (Z.of_nat (length (queue s c)) =? 0) && is_active s c then processed_nmi c s else s in
      s ← call_handler c (mk_frame msg None) s; Ok (true, s)
  end.

(** The body of the loop of ipc_process_all_ipc_messages up to the call of the handler. The
    message is dereferenced whether there is one or not. *)
Definition process_next (c : Z) (nmi_flag : bool) (s : ipc) : outcome ipc :=
  match ipc_dequeue_message c s with
  | (None, _) => Fault
  | (Some msg, s) =>
      let last_msg := Z.of_nat (length (queue s c)) =? 0 in
      let s := if last_msg && nmi_flag then processed_nmi c s else s in
      call_handler c (mk_frame msg (Some (nmi_flag, last_msg))) s
  end.

Definition ipc_process_all_ipc_messages (c : Z) (nmi_flag : bool) (s : ipc) : outcome ipc :=
  if Z.of_nat (length (queue s c)) =? 0 then Ok s else process_next c nmi_flag s.

(** The return of the running handler, up to the next handler or the end of the function that
    called it. *)
Definition handler_return (c : Z) (s : ipc) : outcome ipc :=
  match frames (cpus s c) with
  | [] => Ok s
  | fr :: fs =>
      let s := emit (EvFinish c (f_msg fr)) (ipc_increment_ack (after_handler_ack (f_msg fr)) (set_frames c fs s)) in
      match f_all fr with
      | Some (nmi_flag, last_msg) => if last_msg then Ok s else process_next c nmi_flag s
      | None =>
          match fs, at_ (cpus s c) with
          | [], Waiting f => Ok (goto c (Counting f 0 0) s)
          | _, _ => Ok s
          end
      end
  end.

(** ** Exits *)

Definition nmi_raise_this (c : Z) (s : ipc) : ipc :=
  if num_of_host_processors <=? c then s else set_nmi c true s.
Definition nmi_clear_this (c : Z) (s : ipc) : ipc :=
  if num_of_host_processors <=? c then s else set_nmi c false s.
Definition nmi_is_pending_this (c : Z) (s : ipc) : bool :=
  if num_of_host_processors <=? c then false else nmi_array s c.

Definition NMIS_WAITING_FOR_PROCESSING (s : ipc) (c : Z) : Z :=
  count s c num_received_nmi_interrupts ⊖₆₄ count s c num_processed_nmi_interrupts.
Definition IPC_NMIS_WAITING_FOR_PROCESSING (s : ipc) (c : Z) : Z :=
  count s c num_of_sent_ipc_nmi_interrupts ⊖₆₄ count s c num_of_processed_ipc_nmi_interrupts.

(** The second half of ipc_dispatcher: is an NMI to be injected into the guest? *)
Definition dispatcher_decision (c : Z) (s : ipc) : bool * ipc :=
  if 0 <? count s c num_blocked_nmi_injections_to_guest then
    (true, set_count c num_blocked_nmi_injections_to_guest
             (count s c num_blocked_nmi_injections_to_guest ⊖₆₄ 1) s)
  else if negb (count s c num_of_sent_ipc_nmi_interrupts =? count s c num_received_nmi_interrupts)
          && negb (NMIS_WAITING_FOR_PROCESSING s c =? IPC_NMIS_WAITING_FOR_PROCESSING s c)
  then (true, nmi_raise_this c (count_up c num_processed_nmi_interrupts s))
  else (false, s).

Definition clear_nmi_counters (c : Z) (s : ipc) : ipc :=
  fold_left (fun s k => set_count c k 0 s)
    [num_received_nmi_interrupts; num_processed_nmi_interrupts; num_of_sent_ipc_nmi_interrupts;
     num_of_processed_ipc_nmi_interrupts; num_blocked_nmi_injections_to_guest] s.

(** What the handler of an exit does after the messages. *)
Definition exit_end (c : Z) (k : exit_kind) (s : ipc) : ipc :=
  match k with
  | ExitSipi => goto c Outside (emit (EvExit c true) (clear_nmi_counters c s))
  | _ => let '(injected, s) := dispatcher_decision c s in
         goto c Outside (emit (EvExit c (negb injected)) s)
  end.

Definition ipc_nmi_vmexit_handler (c : Z) (s : ipc) : outcome ipc :=
  ipc_process_all_ipc_messages c true (goto c (Exit ExitNmi) (count_up c num_received_nmi_interrupts s)).

Definition ipc_nmi_window_vmexit_handler (c : Z) (s : ipc) : outcome ipc :=
  ipc_process_all_ipc_messages c true (goto c (Exit ExitNmiWindow) (emit (EvNoWindow c) s)).

(** [vector] is the vector in the exit qualification. *)
Definition ipc_sipi_vmexit_handler (c vector : Z) (s : ipc) : outcome ipc :=
  if vector =? 0xFF then ipc_process_all_ipc_messages c false (goto c (Exit ExitSipi) s)
  else Ok (emit (EvExit c false) s).

Definition ipc_nmi_interrupt_handler (c : Z) (s : ipc) : ipc :=
  emit (EvWindow c) (count_up c num_received_nmi_interrupts s).

(** ** State changes *)

Definition ipc_change_state_to_active (c : Z) (s : ipc) : ipc :=
  if is_active s c then s else set_activity c IPC_CPU_ACTIVE s.

Definition ipc_change_state_to_sipi (c : Z) (s : ipc) : ipc :=
  if bool_decide (cpu_activity_state s c = IPC_CPU_SIPI) then s
  else emit (EvNoWindow c) (set_activity c IPC_CPU_SIPI s).

Definition ipc_mni_injection_failed (c : Z) (s : ipc) : ipc := count_up c num_blocked_nmi_injections_to_guest s.

Definition ipc_set_no_resend_flag (val : bool) (s : ipc) : ipc :=
  set_not_resend (if val then hw_interlocked_increment (debug_not_resend s)
                  else hw_interlocked_decrement (debug_not_resend s)) s.

(** ipc_send_message ([wait] is FALSE) and ipc_send_message_sync: a message of a bad type or
    with another shorthand is sent to nobody. *)
Definition send_ok (dst : IPC_DESTINATION) (type : Z) : bool :=
  (IPC_TYPE_NORMAL <=? type) && (type <? IPC_TYPE_LAST) &&
  ((addr_shorthand dst =? IPI_DST_ALL_EXCLUDING_SELF) || (addr_shorthand dst =? IPI_DST_NO_SHORTHAND)
   || (addr_shorthand dst =? IPI_DST_CORE_ID_BITMAP)).

Definition ipc_send_message_gen (wait : bool) (c : Z) (dst : IPC_DESTINATION) (type handler arg : Z) (s : ipc) : ipc :=
  let s := emit (EvStart c) s in
  if send_ok dst type then ipc_execute_send c dst type handler arg wait s else emit (EvReturn c 0) s.

Definition ipc_send_message := ipc_send_message_gen false.
Definition ipc_send_message_sync := ipc_send_message_gen true.

(** ** The steps of a processor *)

Inductive action :=
| Send (sync : bool) (dst : IPC_DESTINATION) (type handler arg : Z)
| Continue                  (** the next step of the code the processor is in *)
| Timeout                   (** a waiting sender finds that a second has passed *)
| ProcessOne                (** a call of ipc_process_one_ipc from elsewhere *)
| HandlerReturn
| NmiIsr
| NmiExit
| NmiWindowExit
| SipiExit (vector : Z)
| ToActive
| ToSipi
| InjectionFailed
| NoResend (val : bool).

Definition is_outside (p : place) : bool := match p with Outside => true | _ => false end.

(** The next step of the code when no handler is running. *)
Definition continue_step (c : Z) (s : ipc) : outcome ipc :=
  match at_ (cpus s c) with
  | Outside => Ok s
  | Enqueueing f i => send_step c i f s
  | Waiting f =>
      r ← ipc_process_one_ipc c s;
      Ok (if (r.1 : bool) then r.2 else goto c (Counting f 0 0) r.2)
  | Counting f i received => count_step c i received f s
  | Resending f i => resend_step c i f s
  | Resignal f i => resignal_step c i f s
  | Exit k => Ok (exit_end c k s)
  end.

Definition ready (s : ipc) : list Z := filter (fun j => is_not_active s j = false) (seqZ 0 num_of_host_processors).

(** An action that is not possible where the processor is leaves the state unchanged. *)
Definition exec (c : Z) (a : action) (s : ipc) : outcome ipc :=
  let outside := is_outside (at_ (cpus s c)) in
  match frames (cpus s c), a with
  | _, NmiIsr => Ok (ipc_nmi_interrupt_handler c s)
  | _ :: _, HandlerReturn => handler_return c s
  | _ :: _, ProcessOne => r ← ipc_process_one_ipc c s; Ok r.2
  | _ :: _, _ => Ok s
  | [], Continue => continue_step c s
  | [], Timeout => match at_ (cpus s c) with Waiting f => Ok (goto c (Resending f 0) s) | _ => Ok s end
  | [], HandlerReturn => Ok s
  | [], _ =>
      if outside then
        match a with
        | Send sync dst type handler arg =>
            let s := emit (EvCall c (mk_call sync dst type handler arg (ready s))) s in
            Ok ((if (sync : bool) then ipc_send_message_sync else ipc_send_message) c dst type handler arg s)
        | ProcessOne => r ← ipc_process_one_ipc c s; Ok r.2
        | NmiExit => ipc_nmi_vmexit_handler c s
        | NmiWindowExit => ipc_nmi_window_vmexit_handler c s
        | SipiExit vector => ipc_sipi_vmexit_handler c vector s
        | ToActive => Ok (ipc_change_state_to_active c s)
        | ToSipi => Ok (ipc_change_state_to_sipi c s)
        | InjectionFailed => Ok (ipc_mni_injection_failed c s)
        | NoResend val => Ok (ipc_set_no_resend_flag val s)
        | _ => Ok s
        end
      else Ok s
  end.

(** A run: the processors' steps in some order. *)
Fixpoint run (acts : list (Z * action)) (s : ipc) : outcome ipc :=
  match acts with
  | [] => Ok s
  | (c, a) :: acts' => s ← exec c a s; run acts' s
  end.

(** The state after ipc_state_init: all counters 0, the queues empty, no processor active. *)
Definition ipc_start : ipc :=
  mk_ipc (fun _ => mk_ctx (fun _ => 0) []) (fun _ => 0) (fun _ => IPC_CPU_NOT_ACTIVE) 0 (fun _ => false)
    (fun _ => mk_code Outside []) [].

End Code.
