(* ===== verification/IpcInit.v ===== *)
(** ipc_state_init of ipc/ipc.c: the memory of the IPC (contexts, queues, activity states and
    acknowledgements in one block), and the queues that Ipc starts with. *)

From S2P Require Import Prelude VmmDefs Dlist ArrayList Ipc.

Definition IPC_ALIGNMENT : Z := 8.
Definition sizeof_IPC_CPU_CONTEXT : Z := 88.
Definition sizeof_IPC_MESSAGE : Z := 40.
Definition sizeof_IPC_CPU_ACTIVITY_STATE : Z := 4.
Definition sizeof_UINT32 : Z := 4.

Definition ipc_get_message_array_list_size (n : Z) : Z :=
  u32 (ALIGN_FORWARD (array_list_memory_size 0 sizeof_IPC_MESSAGE (ipc_get_max_pending_messages n) IPC_ALIGNMENT)
         IPC_ALIGNMENT).

Section Layout.
(** number_of_host_processors *)
Context (n : Z).

Definition ipc_cpu_context_size : Z := u32 (n * ALIGN_FORWARD sizeof_IPC_CPU_CONTEXT IPC_ALIGNMENT).
Definition ipc_msg_array_size : Z := u32 (n * ipc_get_message_array_list_size n).
Definition cpu_state_size : Z := u32 (ALIGN_FORWARD (n * sizeof_IPC_CPU_ACTIVITY_STATE) IPC_ALIGNMENT).
Definition ipc_ack_array_size : Z := u32 (ALIGN_FORWARD (u32 (n * sizeof_UINT32 * n)) IPC_ALIGNMENT).
Definition ipc_data_size : Z :=
  ((ipc_cpu_context_size ⊕₃₂ ipc_msg_array_size) ⊕₃₂ cpu_state_size) ⊕₃₂ ipc_ack_array_size.
Definition message_queue_offset (i : Z) : Z :=
  ipc_cpu_context_size ⊕₃₂ u32 (i * ipc_get_message_array_list_size n).

(** ipc_cpu_contexts[], cpu_activity_state[] and ipc_ack_array[], as addresses. *)
Definition context_address (mem i : Z) : Z := mem + i * sizeof_IPC_CPU_CONTEXT.
Definition activity_address (mem i : Z) : Z :=
  mem + ipc_cpu_context_size + ipc_msg_array_size + i * sizeof_IPC_CPU_ACTIVITY_STATE.
Definition ack_address (mem p : Z) : Z :=
  mem + ipc_cpu_context_size + ipc_msg_array_size + cpu_state_size + p * sizeof_UINT32.

(** The loop over the processors: each gets its queue. *)
Definition init_queue (uninit : Z -> LIST_ELEMENT) (mem i : Z) (st : list (option ARRAY_LIST) * gmap Z LIST_ELEMENT * Z)
  : outcome (list (option ARRAY_LIST) * gmap Z LIST_ELEMENT * Z) :=
  let '(qs, m, id) := st in
  r ← array_list_init uninit (mem + message_queue_offset i) (ipc_get_message_array_list_size n) m id
        sizeof_IPC_MESSAGE (ipc_get_max_pending_messages n) IPC_ALIGNMENT;
  let '(q, m, id) := r in Ok (qs ++ [q], m, id).

(** [mem] is what vmm_memory_alloc returned for [ipc_data_size] bytes. *)
Definition ipc_state_init (uninit : Z -> LIST_ELEMENT) (mem : Z) (m : gmap Z LIST_ELEMENT) (id : Z)
  : outcome (bool * (list (option ARRAY_LIST) * gmap Z LIST_ELEMENT * Z)) :=
  if mem =? 0 then Ok (false, ([], m, id))
  else st ← for_range 0 n (init_queue uninit mem) ([], m, id); Ok (true, st).

(** ** The layout *)

Context (Hn : 0 < n <= 80).

Lemma align8 x : 0 <= x < 2 ^ 32 -> x mod 8 = 0 -> ALIGN_FORWARD x IPC_ALIGNMENT = x.
Proof.
  intros Hx H8. unfold IPC_ALIGNMENT. destruct (ALIGN_FORWARD_pow2 x 3) as [Hp Hm]; [lia..|]. change (2 ^ 3) with 8 in *. lia.
Qed.

Lemma list_size : ipc_get_message_array_list_size n = 64 + 56 * n.
Proof using Hn.
  unfold ipc_get_message_array_list_size, array_list_memory_size, ipc_get_max_pending_messages.
  change (ARRAY_LIST_PADDING_SIZE 0 IPC_ALIGNMENT) with 0. change (ARRAY_LIST_HEADER_SIZE IPC_ALIGNMENT) with 64.
  change (ARRAY_LIST_ELEMENT_SIZE sizeof_IPC_MESSAGE IPC_ALIGNMENT) with 56. change (0 ⊕₃₂ 64) with 64.
  rewrite (u32_small (56 * n)), (u32_small (64 + 56 * n)), align8, u32_small by lia. done.
Qed.

Lemma context_size : ipc_cpu_context_size = 88 * n.
Proof using Hn.
  unfold ipc_cpu_context_size. change (ALIGN_FORWARD sizeof_IPC_CPU_CONTEXT IPC_ALIGNMENT) with 88. rewrite u32_small by lia. lia.
Qed.

Lemma msg_array_size : ipc_msg_array_size = n * (64 + 56 * n).
Proof using Hn. unfold ipc_msg_array_size. rewrite list_size, u32_small by nia. done. Qed.

Lemma state_size : 4 * n <= cpu_state_size <= 4 * n + 7 /\ cpu_state_size mod 8 = 0.
Proof using Hn.
  unfold cpu_state_size, sizeof_IPC_CPU_ACTIVITY_STATE, IPC_ALIGNMENT.
  destruct (ALIGN_FORWARD_pow2 (n * 4) 3) as [Hp Hm]; [lia..|]. change (2 ^ 3) with 8 in *. rewrite u32_small by lia. lia.
Qed.

Lemma ack_array_size : 4 * n * n <= ipc_ack_array_size <= 4 * n * n + 7.
Proof using Hn.
  unfold ipc_ack_array_size, sizeof_UINT32, IPC_ALIGNMENT. rewrite (u32_small (n * 4 * n)) by nia.
  destruct (ALIGN_FORWARD_pow2 (n * 4 * n) 3) as [Hp Hm]; [nia..|]. change (2 ^ 3) with 8 in *. rewrite u32_small by nia. nia.
Qed.

Lemma data_size : ipc_data_size = ipc_cpu_context_size + ipc_msg_array_size + cpu_state_size + ipc_ack_array_size.
Proof using Hn.
  unfold ipc_data_size. pose proof context_size. pose proof msg_array_size. pose proof state_size. pose proof ack_array_size.
  assert (n * n <= 6400) by nia. usmall. done.
Qed.

Lemma queue_offset i : 0 <= i < n -> message_queue_offset i = 88 * n + i * (64 + 56 * n).
Proof using Hn.
  intros Hi. unfold message_queue_offset. rewrite context_size, list_size.
  assert (0 <= i * (64 + 56 * n) <= 80 * 4544) by nia. usmall. done.
Qed.

(** The queue of processor [i] in memory [m]: its list starts at the beginning of its part of the block, and
    it is an empty queue with a place for every processor, whatever lies outside of that part. *)
Definition queue_of (mem : Z) (qs : list (option ARRAY_LIST)) (i : Z) (m : gmap Z LIST_ELEMENT) : Prop :=
  exists a, qs !! Z.to_nat i = Some (Some a) /\ alist a = mem + (88 * n + i * (64 + 56 * n)) /\
    forall m'', (forall x, in_buffer (mem + (88 * n + i * (64 + 56 * n))) (64 + 56 * n) x -> m'' !! x = m !! x) ->
      queue_rep a (mk_store m'' ∅) (Z.to_nat n) [].

Lemma init_queue_ok uninit mem i qs m id : 0 <= i < n -> 0 < mem -> mem mod 8 = 0 -> mem + 2 ^ 34 < 2 ^ 64 -> Z.of_nat (length qs) = i ->
  exists q m', init_queue uninit mem i (qs, m, id) = Ok (qs ++ [q], m', u16 (id + 1)) /\
    queue_of mem (qs ++ [q]) i m' /\
    forall x, ~ in_buffer (mem + (88 * n + i * (64 + 56 * n))) (64 + 56 * n) x -> m' !! x = m !! x.
Proof using Hn.
  intros Hi Hm Hal Hmem Hlen. unfold init_queue, queue_of. rewrite queue_offset by done. set (buffer := mem + _).
  assert (0 <= i * (64 + 56 * n) <= 80 * 4544) by nia.
  assert (Hb : buffer mod 8 = 0).
  { unfold buffer. replace (88 * n + i * (64 + 56 * n)) with ((11 * n + i * (8 + 7 * n)) * 8) by lia.
    rewrite Z_mod_plus_full. done. }
  assert (ALIGN_FORWARD buffer (2 ^ 3) = buffer) as Pad.
  { destruct (ALIGN_FORWARD_pow2 buffer 3) as [Hp Hmod]; [lia..|]. change (2 ^ 3) with 8 in *. lia. }
  assert (Lay : layout_fits buffer 3 sizeof_IPC_MESSAGE n).
  { unfold layout_fits, sizeof_IPC_MESSAGE. rewrite Pad. change (ALIGN_FORWARD 60 (2 ^ 3)) with 64.
    change (ALIGN_FORWARD (16 + 40) (2 ^ 3)) with 56. repeat split; lia. }
  destruct (array_list_init_spec uninit buffer (ipc_get_message_array_list_size n) 3 sizeof_IPC_MESSAGE n id m Lay) as [_ Ok].
  destruct Ok as (a & m' & E & _ & A & F & Q).
  - destruct (layout_sizes buffer 3 sizeof_IPC_MESSAGE n Lay) as (_ & _ & _ & _ & _ & _ & ->). rewrite Pad, list_size.
    change (ALIGN_FORWARD 60 (2 ^ 3)) with 64. change (ALIGN_FORWARD (16 + sizeof_IPC_MESSAGE) (2 ^ 3)) with 56. lia.
  - exists (Some a), m'. split.
    { unfold ipc_get_max_pending_messages, IPC_ALIGNMENT. change 8 with (2 ^ 3). rewrite E. done. }
    rewrite list_size in F, Q. split; [|exact F]. exists a. split; [apply lookup_middle_eq; lia|]. split; [by rewrite A, Pad|exact Q].
Qed.

(** The parts of two processors do not overlap. *)
Lemma parts_disjoint mem i j x : 0 <= i < j -> in_buffer (mem + (88 * n + i * (64 + 56 * n))) (64 + 56 * n) x ->
  ~ in_buffer (mem + (88 * n + j * (64 + 56 * n))) (64 + 56 * n) x.
Proof using Hn. unfold in_buffer. intros Hij Hx Hy. nia. Qed.

Lemma queues_ok uninit mem m id : 0 < mem -> mem mod 8 = 0 -> mem + 2 ^ 34 < 2 ^ 64 ->
  exists qs m' id', for_range 0 n (init_queue uninit mem) ([], m, id) = Ok (qs, m', id') /\ Z.of_nat (length qs) = n /\
    (forall i, 0 <= i < n -> queue_of mem qs i m') /\
    forall x, ~ in_buffer (mem + 88 * n) (n * (64 + 56 * n)) x -> m' !! x = m !! x.
Proof using Hn.
  intros Hm Hal Hmem.
  destruct (for_range_inv (fun k (st : list (option ARRAY_LIST) * gmap Z LIST_ELEMENT * Z) => Z.of_nat (length st.1.1) = k /\
      (forall i, 0 <= i < k -> queue_of mem st.1.1 i st.1.2) /\
      forall x, ~ in_buffer (mem + 88 * n) (n * (64 + 56 * n)) x -> st.1.2 !! x = m !! x)
      0 n (init_queue uninit mem) ([], m, id)) as (((qs & m') & id') & -> & Hl & Hq & Hf).
  - lia.
  - split; [done|]. split; [lia|done].
  - intros k ((qs & m0) & id0) Hk (Hl & Hq & Hf). cbn [fst snd] in *.
    destruct (init_queue_ok uninit mem k qs m0 id0 Hk Hm Hal Hmem Hl) as (q & m1 & E & Q & F).
    eexists. split; [exact E|]. clear E. cbn [fst snd]. split; [rewrite length_app; simpl; lia|]. split.
    + intros i Hi. destruct (decide (i = k)) as [->|Hne]; [exact Q|].
      destruct (Hq i ltac:(lia)) as (a & Ea & Aa & Qa). exists a. split; [by rewrite lookup_app_l by lia|]. split; [done|].
      intros m'' Hag. apply Qa. intros x Hx. rewrite Hag by done. apply F. by apply (parts_disjoint mem i k); [lia|].
    + intros x Hx. rewrite F; [by apply Hf|]. intros Hin. apply Hx. unfold in_buffer in *. nia.
  - by exists qs, m', id'.
Qed.

End Layout.


