(* ===== verification/IpcSpec.v ===== *)
(** Every interleaving of the processors of Ipc: a queue never overflows, each message is
    received once and in order, a send returns when its receivers have taken the message (or
    finished its handler), and from every state that a run reaches all sends can be completed. *)

From stdpp Require Import functions.
From S2P Require Import Prelude VmmDefs Lock Ipc.

(** * Bitmaps of processors *)

Definition bit64 (a : list Z) (i : Z) : bool := Z.testbit (a !!! Z.to_nat (i / 64)) (i mod 64).

Lemma land_one_bit w k : 0 <= k < 64 -> (Z.land w (u64 (Z.shiftl 1 k)) =? 0) = negb (Z.testbit w k).
Proof.
  intros Hk. rewrite Z.shiftl_1_l, u64_small by (split; [apply Z.pow_nonneg; lia|apply (Z.pow_lt_mono_r 2 k 64); lia]).
  destruct (Z.testbit w k) eqn:E; simpl.
  - apply Z.eqb_neq. intros X. assert (Z.testbit (Z.land w (2 ^ k)) k = false) as Y by by rewrite X, Z.bits_0.
    rewrite Z.land_spec, E, Z.pow2_bits_true in Y by lia. done.
  - apply Z.eqb_eq. apply Z.bits_inj'. intros n Hn. rewrite Z.land_spec, Z.pow2_bits_eqb, Z.bits_0 by lia.
    destruct (Z.eqb_spec k n) as [->|]; [by rewrite E|by rewrite andb_false_r].
Qed.

Lemma bitmap_byte i : BITMAP_ARRAY64_BYTE i = i / 64.
Proof. unfold BITMAP_ARRAY64_BYTE. by rewrite Z.shiftr_div_pow2. Qed.

Lemma bitmap_word (a : list Z) i : length a = 2%nat -> 0 <= i < 128 ->
  a !! Z.to_nat (BITMAP_ARRAY64_BYTE i) = Some (a !!! Z.to_nat (i / 64)).
Proof.
  intros Hl Hi. rewrite bitmap_byte.   apply list_lookup_lookup_total_lt. lia.
Qed.

Lemma bitmap_get a i : length a = 2%nat -> 0 <= i < 128 ->
  exists b, BITMAP_ARRAY64_GET a i = Ok b /\ (b =? 0) = negb (bit64 a i).
Proof.
  intros Hl Hi. pose proof (bitmap_word a i Hl Hi) as W. rewrite bitmap_byte in W.
  eexists. unfold BITMAP_ARRAY64_GET. rewrite bitmap_byte, (rd_ok a (i / 64) _ ltac:(lia) W), bind_Ok.
  split; [done|]. apply land_one_bit. lia.
Qed.

Lemma bitmap_set a i : length a = 2%nat -> 0 <= i < 128 ->
  exists a', BITMAP_ARRAY64_SET a i = Ok a' /\ length a' = 2%nat /\
    forall j, 0 <= j < 128 -> bit64 a' j = (j =? i) || bit64 a j.
Proof.
  intros Hl Hi. pose proof (bitmap_word a i Hl Hi) as W. rewrite bitmap_byte in W.
  unfold BITMAP_ARRAY64_SET. rewrite bitmap_byte, (rd_ok a (i / 64) _ ltac:(lia) W), bind_Ok.
  unfold wr, in_range. rewrite Hl, (proj2 (Z.leb_le 0 _)), (proj2 (Z.ltb_lt _ _)) by lia. simpl.
  eexists. split; [done|]. split; [by rewrite length_insert|]. intros j Hj. unfold bit64.
  destruct (decide (i / 64 = j / 64)) as [E|E].
  - rewrite <- E, list_lookup_total_insert_eq by lia. rewrite Z.lor_spec, orb_comm. f_equal.
    rewrite Z.shiftl_1_l, u64_small by (split; [apply Z.pow_nonneg; lia|apply (Z.pow_lt_mono_r 2 _ 64); lia]).
    rewrite Z.pow2_bits_eqb by lia. apply eq_bool_prop_intro. rewrite !Is_true_true, !Z.eqb_eq. lia.
  - rewrite list_lookup_total_insert_ne by lia. by rewrite (proj2 (Z.eqb_neq j i)) by congruence.
Qed.

Lemma bit64_zero i : 0 <= i < 128 -> bit64 (replicate (Z.to_nat CPU_BITMAP_MAX) 0) i = false.
Proof.
  intros Hi. unfold bit64. change (replicate (Z.to_nat CPU_BITMAP_MAX) 0) with [0; 0].
  destruct (Z.to_nat (i / 64)) as [|[|n]] eqn:E; [apply Z.bits_0..|lia].
Qed.

(** * What the messages in flight have to do with the sends *)

Section Invariant.
Context (N : Z) (HN : 0 < N <= 80).

Notation cpu c := (0 <= c < N).

(** The send a processor is in. *)
Definition sending (p : place) : option send :=
  match p with
  | Enqueueing f _ | Waiting f | Counting f _ _ | Resending f _ | Resignal f _ => Some f
  | Outside | Exit _ => None
  end.

(** A send without its local variables for NMIs. *)
Record job := mk_job {
  j_type : Z; j_handler : Z; j_arg : Z; j_wait : bool; j_required : Z; j_flags : list Z }.

Definition job_of (f : send) : job :=
  mk_job (s_type f) (s_handler f) (s_arg f) (wait_for_handler_finish f) (num_required_acks f) (enqueue_flag f).

Definition job_at (s : ipc) (c : Z) : option job := job_of <$> sending (at_ (cpus s c)).

(** The message of a send from [c] to [j]. *)
Definition message (k : job) (c j : Z) : IPC_MESSAGE :=
  mk_msg (j_type k) c (j_handler k) (j_arg k)
    (if j_wait k then None else Some (ack_index N c j)) (if j_wait k then Some (ack_index N c j) else None).

Definition sent_by (c : Z) (m : IPC_MESSAGE) : Prop := from m = c.
#[local] Instance sent_by_dec c m : Decision (sent_by c m).
Proof. unfold sent_by. apply _. Defined.
(** A running handler whose sender waits for its end. *)
Definition awaited_by (c : Z) (fr : frame) : Prop := from (f_msg fr) = c /\ after_handler_ack (f_msg fr) <> None.
#[local] Instance awaited_by_dec c fr : Decision (awaited_by c fr).
Proof. unfold awaited_by. apply _. Defined.

Definition in_queue (q : list IPC_MESSAGE) (c : Z) : Z := Z.of_nat (length (filter (sent_by c) q)).
Definition in_handler (fs : list frame) (c : Z) : Z := Z.of_nat (length (filter (awaited_by c) fs)).

(** The number of processors whose bit is set. *)
Definition bits_set (flags : list Z) : Z := Z.of_nat (length (filter (fun j => bit64 flags j = true) (seqZ 0 N))).

(** [q], [fs], [acks] and [jobs]: the queues, the running handlers, the acknowledgements and the
    sends in progress. A message is in a queue, or in a handler that is waited for, only if its
    sender is still in the send that made it; and it is there exactly once until it is
    acknowledged, exactly once. *)
Record in_flight (q : Z -> list IPC_MESSAGE) (fs : Z -> list frame) (acks : Z -> Z) (jobs : Z -> option job) : Prop := {
  fl_queue j m : cpu j -> m ∈ q j -> cpu (from m) /\
    exists k, jobs (from m) = Some k /\ bit64 (j_flags k) j = true /\ m = message k (from m) j;
  fl_frame j fr : cpu j -> fr ∈ fs j -> after_handler_ack (f_msg fr) <> None -> cpu (from (f_msg fr)) /\
    exists k, jobs (from (f_msg fr)) = Some k /\ bit64 (j_flags k) j = true /\ f_msg fr = message k (from (f_msg fr)) j;
  fl_once c j k : cpu c -> cpu j -> jobs c = Some k ->
    in_queue (q j) c + in_handler (fs j) c + acks (ack_index N c j) = Z.b2z (bit64 (j_flags k) j);
  fl_job c k : cpu c -> jobs c = Some k ->
    length (j_flags k) = 2%nat /\ bit64 (j_flags k) c = false /\ j_required k = bits_set (j_flags k);
  fl_acks p : 0 <= acks p }.

Lemma ack_index_inj c c' j j' : cpu j -> cpu j' -> ack_index N c j = ack_index N c' j' -> c = c' /\ j = j'.
Proof using HN. unfold ack_index. intros. assert (c = c') by nia. subst. lia. Qed.

Lemma in_queue_cons m q c : in_queue (m :: q) c = (if decide (from m = c) then 1 else 0) + in_queue q c.
Proof. unfold in_queue. rewrite filter_cons. unfold sent_by. destruct (decide (from m = c)); simpl; lia. Qed.

Lemma in_queue_snoc q m c : in_queue (q ++ [m]) c = in_queue q c + (if decide (from m = c) then 1 else 0).
Proof.
  unfold in_queue. rewrite filter_app, length_app. rewrite filter_cons, filter_nil. unfold sent_by.
  destruct (decide (from m = c)); simpl; lia.
Qed.

Lemma in_handler_cons fr fs c :
  in_handler (fr :: fs) c = (if decide (awaited_by c fr) then 1 else 0) + in_handler fs c.
Proof. unfold in_handler. rewrite filter_cons. destruct (decide (awaited_by c fr)); simpl; lia. Qed.

Lemma in_queue_pos q c : 0 <= in_queue q c. Proof. unfold in_queue. lia. Qed.
Lemma in_handler_pos fs c : 0 <= in_handler fs c. Proof. unfold in_handler. lia. Qed.

Lemma in_queue_none q c : (forall m, m ∈ q -> from m <> c) -> in_queue q c = 0.
Proof.
  intros H. unfold in_queue. induction q as [|m q IH]; [done|]. rewrite filter_cons_False.
  - apply IH. intros x Hx. apply H. by right.
  - apply H. left.
Qed.

Lemma in_handler_none fs c : (forall fr, fr ∈ fs -> ~ awaited_by c fr) -> in_handler fs c = 0.
Proof.
  intros H. unfold in_handler. induction fs as [|m q IH]; [done|]. rewrite filter_cons_False.
  - apply IH. intros x Hx. apply H. by right.
  - apply H. left.
Qed.

Lemma in_queue_zero q c m : in_queue q c = 0 -> m ∈ q -> from m <> c.
Proof.
  intros H Hm E. induction Hm as [y q|? y q Hm IH]; rewrite in_queue_cons in H; pose proof (in_queue_pos q c).
  - rewrite decide_True in H by done. lia.
  - apply IH; [destruct (decide _); lia|done].
Qed.

Lemma in_handler_zero fs c fr : in_handler fs c = 0 -> fr ∈ fs -> ~ awaited_by c fr.
Proof.
  intros H Hm E. induction Hm as [y q|? y q Hm IH]; rewrite in_handler_cons in H; pose proof (in_handler_pos q c).
  - rewrite decide_True in H by done. lia.
  - apply IH; [destruct (decide _); lia|done].
Qed.

Lemma fn_insert_case {A} (f : Z -> A) c x i : <[c := x]> f i = if decide (c = i) then x else f i.
Proof. done. Qed.

Lemma length_filter_ext (f g : Z -> bool) l : (forall x, x ∈ l -> g x = f x) ->
  length (filter (fun x => g x = true) l) = length (filter (fun x => f x = true) l).
Proof.
  intros H. induction l as [|y l IH]; [done|]. rewrite !filter_cons, (H y) by left.
  specialize (IH (fun x Hx => H x (list_elem_of_further x y l Hx))). destruct (decide _); simpl; lia.
Qed.

Lemma length_filter_add (f g : Z -> bool) l j : NoDup l -> j ∈ l -> f j = false ->
  (forall x, x ∈ l -> g x = (x =? j) || f x) ->
  length (filter (fun x => g x = true) l) = S (length (filter (fun x => f x = true) l)).
Proof.
  intros Hn Hj Hf Hg. induction Hn as [|y l Hy Hn IH]; [by apply not_elem_of_nil in Hj|].
  rewrite !filter_cons, (Hg y) by left. apply elem_of_cons in Hj as [<-|Hj].
  - rewrite Z.eqb_refl, Hf, decide_True, decide_False by done. simpl. f_equal. apply length_filter_ext.
    intros x Hx. rewrite Hg by by right. rewrite (proj2 (Z.eqb_neq x j)); [done|]. by intros ->.
  - assert (y <> j) as Hne by by intros ->. rewrite (proj2 (Z.eqb_neq y j) Hne). simpl orb.
    specialize (IH Hj (fun x Hx => Hg x (list_elem_of_further x y l Hx))). destruct (decide (f y = true)); simpl; lia.
Qed.

Lemma bits_set_zero : bits_set (replicate (Z.to_nat CPU_BITMAP_MAX) 0) = 0.
Proof using HN.
  unfold bits_set. rewrite (length_filter_ext (fun _ => false)).
  - induction (seqZ 0 N) as [|x l IH]; [done|]. by rewrite filter_cons_False.
  - intros x Hx%elem_of_seqZ. apply bit64_zero. lia.
Qed.

Lemma bits_set_add a a' j : cpu j -> bit64 a j = false ->
  (forall i, 0 <= i < 128 -> bit64 a' i = (i =? j) || bit64 a i) -> bits_set a' = bits_set a + 1.
Proof using HN.
  intros Hj Hb H. unfold bits_set. rewrite (length_filter_add (bit64 a) (bit64 a') (seqZ 0 N) j); [lia|..|done|].
  - apply NoDup_seqZ.
  - apply elem_of_seqZ. lia.
  - intros x Hx%elem_of_seqZ. apply H. lia.
Qed.

Section Steps.
Context (q : Z -> list IPC_MESSAGE) (fs : Z -> list frame) (acks : Z -> Z) (jobs : Z -> option job).
Context (F : in_flight q fs acks jobs).

Lemma flight_ext q' fs' acks' jobs' : (forall j, q' j = q j) -> (forall j, fs' j = fs j) ->
  (forall p, acks' p = acks p) -> (forall c, jobs' c = jobs c) -> in_flight q' fs' acks' jobs'.
Proof using F.
  intros Eq Ef Ea Ej. split.
  - intros j m. rewrite Eq, Ej. apply (fl_queue _ _ _ _ F).
  - intros j fr. rewrite Ef, Ej. apply (fl_frame _ _ _ _ F).
  - intros c j k. rewrite Eq, Ef, Ea, Ej. apply (fl_once _ _ _ _ F).
  - intros c k. rewrite Ej. apply (fl_job _ _ _ _ F).
  - intros p. rewrite Ea. apply (fl_acks _ _ _ _ F).
Qed.

(** Nothing of a processor that is in no send is in flight. *)
Lemma flight_none c j : jobs c = None -> cpu j -> in_queue (q j) c = 0 /\ in_handler (fs j) c = 0.
Proof using F.
  intros Hc Hj. split.
  - apply in_queue_none. intros m Hm E. destruct (fl_queue _ _ _ _ F j m Hj Hm) as (_ & k & X & _). congruence.
  - apply in_handler_none. intros fr Hf [E A]. destruct (fl_frame _ _ _ _ F j fr Hj Hf A) as (_ & k & X & _). congruence.
Qed.

(** A send starts with its row of the acknowledgements cleared. *)
Lemma flight_start c acks' k : jobs c = None ->
  j_flags k = replicate (Z.to_nat CPU_BITMAP_MAX) 0 -> j_required k = 0 ->
  (forall p, acks' p = if decide (ack_index N c 0 <= p < ack_index N c N) then 0 else acks p) ->
  in_flight q fs acks' (<[c := Some k]> jobs).
Proof using F HN.
  intros Hc Hf Hr Ea. split.
  - intros j m Hj Hm. destruct (fl_queue _ _ _ _ F j m Hj Hm) as (Hm' & k' & E & R).
    split; [done|]. exists k'. rewrite fn_lookup_insert_ne; [done|]. congruence.
  - intros j m Hj Hm A. destruct (fl_frame _ _ _ _ F j m Hj Hm A) as (Hm' & k' & E & R).
    split; [done|]. exists k'. rewrite fn_lookup_insert_ne; [done|]. congruence.
  - intros d j k' Hd Hj. rewrite fn_insert_case, Ea. destruct (decide (c = d)) as [<-|Hne].
    + intros [= <-]. destruct (flight_none c j Hc Hj) as [-> ->]. rewrite Hf, bit64_zero by lia.
      rewrite decide_True; [done|]. unfold ack_index. lia.
    + intros E. rewrite decide_False; [by apply (fl_once _ _ _ _ F)|]. unfold ack_index. nia.
  - intros d k' Hd. rewrite fn_insert_case. destruct (decide (c = d)) as [<-|Hne]; [|by apply (fl_job _ _ _ _ F)].
    intros [= <-]. rewrite Hf, bit64_zero, Hr, bits_set_zero by lia. done.
  - intros p. rewrite Ea. pose proof (fl_acks _ _ _ _ F p). destruct (decide _); lia.
Qed.

(** A message is put into the queue of [j], which has none of this send yet. *)
Lemma flight_enqueue c j k k' : cpu c -> cpu j -> j <> c -> jobs c = Some k -> bit64 (j_flags k) j = false ->
  (forall i, message k' c i = message k c i) -> j_required k' = j_required k + 1 -> length (j_flags k') = 2%nat ->
  (forall i, 0 <= i < 128 -> bit64 (j_flags k') i = (i =? j) || bit64 (j_flags k) i) ->
  in_flight (<[j := q j ++ [message k c j]]> q) fs acks (<[c := Some k']> jobs).
Proof using F HN.
  intros Hc Hj Hne Hk Hb Hm Hr Hl Hf. destruct (fl_job _ _ _ _ F c k Hc Hk) as (_ & B & R).
  assert (Keep : forall m i, cpu i -> (exists k0, jobs (from m) = Some k0 /\ bit64 (j_flags k0) i = true /\ m = message k0 (from m) i) ->
    exists k0, <[c := Some k']> jobs (from m) = Some k0 /\ bit64 (j_flags k0) i = true /\ m = message k0 (from m) i).
  { intros m i Hi (k0 & E & Hbit & Em). rewrite fn_insert_case. destruct (decide (c = from m)) as [X|]; [|by exists k0].
    exists k'. rewrite <- X in *. assert (k0 = k) as -> by congruence. rewrite Hf, Hbit, orb_true_r, Hm by lia. done. }
  split.
  - intros i m Hi Hmi. rewrite fn_insert_case in Hmi. destruct (decide (j = i)) as [<-|].
    + apply elem_of_app in Hmi as [Hmi|Hmi%list_elem_of_singleton].
      * destruct (fl_queue _ _ _ _ F j m Hj Hmi) as [? X]. split; [done|]. by apply Keep.
      * subst m. simpl. split; [done|]. exists k'. rewrite fn_lookup_insert, Hf, Z.eqb_refl, Hm by lia. done.
    + destruct (fl_queue _ _ _ _ F i m Hi Hmi) as [? X]. split; [done|]. by apply Keep.
  - intros i fr Hi Hfr A. destruct (fl_frame _ _ _ _ F i fr Hi Hfr A) as [? X]. split; [done|]. by apply Keep.
  - intros d i k0 Hd Hi E. rewrite fn_insert_case in E. rewrite fn_insert_case.
    assert (in_queue (if decide (j = i) then q j ++ [message k c j] else q i) d
            = in_queue (q i) d + (if decide (c = d /\ j = i) then 1 else 0)) as ->.
    { destruct (decide (j = i)) as [<-|]; [rewrite in_queue_snoc; simpl|].
      - destruct (decide (c = d)), (decide (c = d /\ j = j)); tauto || lia.
      - destruct (decide (c = d /\ j = i)); [tauto|lia]. }
    destruct (decide (c = d)) as [<-|Hcd].
    + injection E as <-. pose proof (fl_once _ _ _ _ F c i k Hc Hi Hk) as O. rewrite Hf by lia.
      destruct (decide (c = c /\ j = i)) as [[_ <-]|X].
      * rewrite Z.eqb_refl. rewrite Hb in O. simpl in *. lia.
      * rewrite (proj2 (Z.eqb_neq i j)) by (intros ->; tauto). simpl. lia.
    + rewrite decide_False by tauto. pose proof (fl_once _ _ _ _ F d i k0 Hd Hi E). lia.
  - intros d k0 Hd E. rewrite fn_insert_case in E. destruct (decide (c = d)) as [<-|]; [|by apply (fl_job _ _ _ _ F)].
    injection E as <-. split; [done|]. rewrite Hf, (proj2 (Z.eqb_neq c j)), B by lia. split; [done|].
    rewrite Hr, R. symmetry. by apply (bits_set_add _ _ j).
  - apply (fl_acks _ _ _ _ F).
Qed.

(** The acknowledgements after an increment through the pointer [o]. *)
Definition bump (o : option Z) (a : Z -> Z) (p : Z) : Z := if decide (o = Some p) then a p ⊕₃₂ 1 else a p.

Lemma bump_pos o a p : 0 <= a p -> 0 <= bump o a p.
Proof. intros H. unfold bump. pose proof (u32_range (a p + 1)). destruct (decide _); lia. Qed.

(** The acknowledgement of a message from [c] to [j] is the one entry for [c] and [j]. *)
Lemma bump_index c j d i (on : bool) a : cpu j -> cpu i -> 0 <= a (ack_index N c j) <= 1 ->
  bump (if on then Some (ack_index N c j) else None) a (ack_index N d i)
  = a (ack_index N d i) + (if decide (on = true /\ c = d /\ j = i) then 1 else 0).
Proof using HN.
  intros Hj Hi Ha. unfold bump. destruct on; [|rewrite !decide_False; naive_solver lia].
  destruct (decide (c = d /\ j = i)) as [[-> ->]|X].
  - rewrite !decide_True by done. by rewrite u32_small by lia.
  - rewrite !decide_False; [lia|naive_solver|].
    intros [= E]. destruct (ack_index_inj c d j i Hj Hi E). naive_solver.
Qed.

(** A message is taken out of a queue, and its handler is called. *)
Lemma flight_dequeue j m r x : cpu j -> q j = m :: r ->
  in_flight (<[j := r]> q) (<[j := mk_frame m x :: fs j]> fs) (bump (before_handler_ack m) acks) jobs.
Proof using F HN.
  intros Hj Eq. destruct (fl_queue _ _ _ _ F j m Hj) as (Hc & k & Hk & Hb & Em); [rewrite Eq; left|].
  set (c := from m) in *. pose proof (fl_once _ _ _ _ F c j k Hc Hj Hk) as O.
  rewrite Hb, Eq, in_queue_cons, decide_True in O by done. simpl in O.
  pose proof (in_queue_pos r c). pose proof (in_handler_pos (fs j) c). pose proof (fl_acks _ _ _ _ F (ack_index N c j)).
  split.
  - intros i m' Hi Hm'. apply (fl_queue _ _ _ _ F i m' Hi). rewrite fn_insert_case in Hm'.
    destruct (decide (j = i)) as [<-|]; [rewrite Eq; by right|done].
  - intros i fr Hi Hfr A. rewrite fn_insert_case in Hfr. destruct (decide (j = i)) as [<-|]; [|by apply (fl_frame _ _ _ _ F)].
    apply elem_of_cons in Hfr as [->|Hfr]; [|by apply (fl_frame _ _ _ _ F)]. simpl. split; [done|]. by exists k.
  - intros d i k' Hd Hi Hk'. pose proof (fl_once _ _ _ _ F d i k' Hd Hi Hk') as O'.
    assert (before_handler_ack m = if negb (j_wait k) then Some (ack_index N c j) else None) as ->
      by (rewrite Em; simpl; by destruct (j_wait k)).
    rewrite (bump_index c j d i) by (done || lia). rewrite !fn_insert_case.
    destruct (decide (j = i)) as [<-|]; [|rewrite decide_False by tauto; lia].
    rewrite in_handler_cons. rewrite Eq, in_queue_cons in O'. fold c in O'.
    assert (awaited_by d (mk_frame m x) <-> c = d /\ j_wait k = true) as AW.
    { unfold awaited_by. simpl. fold c. rewrite Em. simpl. destruct (j_wait k); naive_solver. }
    destruct (decide (c = d)) as [E|E].
    + subst d. rewrite (decide_ext _ _ _ _ AW). destruct (j_wait k).
      * rewrite decide_True, decide_False by (done || by intros [? _]). lia.
      * rewrite decide_False, decide_True by (done || by intros [_ ?]). lia.
    + rewrite !decide_False by tauto. lia.
  - apply (fl_job _ _ _ _ F).
  - intros p. apply bump_pos, (fl_acks _ _ _ _ F).
Qed.

(** A handler returns. *)
Lemma flight_return j fr r : cpu j -> fs j = fr :: r ->
  in_flight q (<[j := r]> fs) (bump (after_handler_ack (f_msg fr)) acks) jobs.
Proof using F HN.
  intros Hj Ef. split.
  - apply (fl_queue _ _ _ _ F).
  - intros i fr' Hi Hfr. rewrite fn_insert_case in Hfr. apply (fl_frame _ _ _ _ F i fr' Hi).
    destruct (decide (j = i)) as [<-|]; [rewrite Ef; by right|done].
  - intros d i k' Hd Hi Hk'. pose proof (fl_once _ _ _ _ F d i k' Hd Hi Hk') as O'. rewrite fn_insert_case.
    assert (in_handler (fs i) d = in_handler (if decide (j = i) then r else fs i) d
      + (if decide (j = i /\ awaited_by d fr) then 1 else 0)) as E.
    { destruct (decide (j = i)) as [<-|]; [rewrite Ef, in_handler_cons|rewrite decide_False by tauto; lia].
      destruct (decide (awaited_by d fr)); [rewrite decide_True by done|rewrite decide_False by tauto]; lia. }
    rewrite E in O'. destruct (after_handler_ack (f_msg fr)) as [p|] eqn:A.
    + destruct (fl_frame _ _ _ _ F j fr Hj) as (Hc & k & Hk & Hb & Em); [rewrite Ef; left|by rewrite A|].
      set (c := from (f_msg fr)) in *. pose proof (fl_once _ _ _ _ F c j k Hc Hj Hk) as O.
      assert (p = ack_index N c j) as -> by (rewrite Em in A; simpl in A; destruct (j_wait k); congruence).
      rewrite Hb, Ef, in_handler_cons, decide_True in O by (split; [done|by rewrite A]). simpl in O.
      pose proof (in_queue_pos (q j) c). pose proof (in_handler_pos r c). pose proof (fl_acks _ _ _ _ F (ack_index N c j)).
      rewrite (bump_index c j d i true) by (done || lia).
      assert (awaited_by d fr <-> c = d) by (unfold awaited_by; rewrite A; naive_solver).
      destruct (decide (j = i /\ awaited_by d fr)), (decide (true = true /\ c = d /\ j = i)); try lia; exfalso; tauto.
    + unfold bump. rewrite (decide_False (P := None = Some _)) by done.
      rewrite (decide_False (P := j = i /\ _)) in O'; [lia|]. unfold awaited_by. by intros (_ & _ & X).
  - apply (fl_job _ _ _ _ F).
  - intros p. apply bump_pos, (fl_acks _ _ _ _ F).
Qed.

(** The send is over when all its messages are acknowledged. *)
Lemma flight_finish c k : cpu c -> jobs c = Some k ->
  (forall j, cpu j -> bit64 (j_flags k) j = true -> acks (ack_index N c j) = 1) ->
  in_flight q fs acks (<[c := None]> jobs).
Proof using F.
  intros Hc Hk Hall.
  assert (Z0 : forall j, cpu j -> in_queue (q j) c = 0 /\ in_handler (fs j) c = 0).
  { intros j Hj. pose proof (fl_once _ _ _ _ F c j k Hc Hj Hk) as O.
    pose proof (in_queue_pos (q j) c). pose proof (in_handler_pos (fs j) c). pose proof (fl_acks _ _ _ _ F (ack_index N c j)).
    destruct (bit64 (j_flags k) j) eqn:B; [rewrite (Hall j Hj B) in O|]; simpl in O; lia. }
  split.
  - intros j m Hj Hm. destruct (fl_queue _ _ _ _ F j m Hj Hm) as (Hm' & k' & E & R). split; [done|]. exists k'.
    rewrite fn_lookup_insert_ne; [done|]. intros X. by apply (in_queue_zero (q j) c m (proj1 (Z0 j Hj)) Hm).
  - intros j fr Hj Hm A. destruct (fl_frame _ _ _ _ F j fr Hj Hm A) as (Hm' & k' & E & R). split; [done|]. exists k'.
    rewrite fn_lookup_insert_ne; [done|]. intros X. by apply (in_handler_zero (fs j) c fr (proj2 (Z0 j Hj)) Hm).
  - intros d j k' Hd Hj E. rewrite fn_insert_case in E. destruct (decide (c = d)); [done|]. by apply (fl_once _ _ _ _ F).
  - intros d k' Hd E. rewrite fn_insert_case in E. destruct (decide (c = d)); [done|]. by apply (fl_job _ _ _ _ F).
  - apply (fl_acks _ _ _ _ F).
Qed.

End Steps.

(** ** The log *)

(** The events since [c] called ipc_send_message, newest first. *)
Fixpoint since (c : Z) (l : list event) : list event :=
  match l with
  | [] => []
  | e :: l' => if decide (e = EvStart c) then [] else e :: since c l'
  end.

Definition target (c : Z) (e : event) : option (Z * IPC_MESSAGE) :=
  match e with EvEnqueue c' j m => if decide (c' = c) then Some (j, m) else None | _ => None end.

(** To whom the send of [c] has sent what. *)
Definition targets (c : Z) (l : list event) : list (Z * IPC_MESSAGE) := omap (target c) (since c l).

Definition sent_event (j : Z) (e : event) : list IPC_MESSAGE :=
  match e with EvEnqueue _ j' m => if decide (j' = j) then [m] else [] | _ => [] end.
Definition received_event (j : Z) (e : event) : list IPC_MESSAGE :=
  match e with EvReceive j' m => if decide (j' = j) then [m] else [] | _ => [] end.

(** The messages sent to [j], and those that [j] has received, in order. *)
Definition sent_to (j : Z) (l : list event) : list IPC_MESSAGE := concat (map (sent_event j) (reverse l)).
Definition received_by (j : Z) (l : list event) : list IPC_MESSAGE := concat (map (received_event j) (reverse l)).

(** A send that returns [n] to [c] after the events [l] has had [n] receivers, each of them has
    received the message, and has run its handler if the send was synchronous. *)
Definition complete (c n : Z) (l : list event) : Prop :=
  n = Z.of_nat (length (targets c l)) /\ NoDup (targets c l).*1 /\
  forall j m, (j, m) ∈ targets c l -> cpu j /\ j <> c /\ from m = c /\ EvReceive j m ∈ since c l /\
    (after_handler_ack m <> None -> EvFinish j m ∈ since c l).

Record logged (l : list event) (q : Z -> list IPC_MESSAGE) (acks : Z -> Z) (jobs : Z -> option job) : Prop := {
  lg_queue j : sent_to j l = received_by j l ++ q j;
  lg_nodup c k : cpu c -> jobs c = Some k -> NoDup (targets c l).*1;
  lg_target c k j m : cpu c -> jobs c = Some k ->
    (j, m) ∈ targets c l <-> cpu j /\ bit64 (j_flags k) j = true /\ m = message k c j;
  lg_received c k j : cpu c -> cpu j -> jobs c = Some k -> bit64 (j_flags k) j = true -> in_queue (q j) c = 0 ->
    EvReceive j (message k c j) ∈ since c l;
  lg_finished c k j : cpu c -> cpu j -> jobs c = Some k -> bit64 (j_flags k) j = true -> j_wait k = true ->
    acks (ack_index N c j) = 1 -> EvFinish j (message k c j) ∈ since c l;
  lg_return l1 c n l2 : l = l1 ++ EvReturn c n :: l2 -> complete c n l2 }.

Lemma sent_to_cons j e l : sent_to j (e :: l) = sent_to j l ++ sent_event j e.
Proof. unfold sent_to. rewrite reverse_cons, map_app, concat_app. simpl. by rewrite app_nil_r. Qed.
Lemma received_by_cons j e l : received_by j (e :: l) = received_by j l ++ received_event j e.
Proof. unfold received_by. rewrite reverse_cons, map_app, concat_app. simpl. by rewrite app_nil_r. Qed.

Lemma since_cons c e l : e <> EvStart c -> since c (e :: l) = e :: since c l.
Proof. intros H. simpl. by rewrite decide_False. Qed.

Lemma targets_cons c e l : e <> EvStart c -> target c e = None -> targets c (e :: l) = targets c l.
Proof. intros H E. unfold targets. rewrite since_cons by done. simpl. by rewrite E. Qed.

(** Events that are no part of a send. *)
Definition quiet (e : event) : bool :=
  match e with EvStart _ | EvEnqueue _ _ _ | EvReceive _ _ | EvFinish _ _ | EvReturn _ _ => false | _ => true end.

Lemma cons_return e l l1 c n l2 : e :: l = l1 ++ EvReturn c n :: l2 ->
  (l1 = [] /\ e = EvReturn c n /\ l = l2) \/ exists l1', l1 = e :: l1' /\ l = l1' ++ EvReturn c n :: l2.
Proof. destruct l1 as [|x l1]; simpl; intros [= -> ->]; [by left|right]. by exists l1. Qed.

Section LogSteps.
Context (l : list event) (q : Z -> list IPC_MESSAGE) (fs : Z -> list frame) (acks : Z -> Z) (jobs : Z -> option job).
Context (F : in_flight q fs acks jobs) (L : logged l q acks jobs).

Lemma logged_ext q' acks' jobs' : (forall j, q' j = q j) ->
  (forall p, acks' p = acks p) -> (forall c, jobs' c = jobs c) -> logged l q' acks' jobs'.
Proof using L.
  intros Eq Ea Ej. split.
  - intros j. rewrite Eq. apply (lg_queue _ _ _ _ L).
  - intros c k. rewrite Ej. apply (lg_nodup _ _ _ _ L).
  - intros c k j m. rewrite Ej. apply (lg_target _ _ _ _ L).
  - intros c k j. rewrite Eq, Ej. apply (lg_received _ _ _ _ L).
  - intros c k j. rewrite Ea, Ej. apply (lg_finished _ _ _ _ L).
  - apply (lg_return _ _ _ _ L).
Qed.

Lemma logged_quiet e : quiet e = true -> logged (e :: l) q acks jobs.
Proof using L.
  intros He. assert (forall c, e <> EvStart c) as Hs by by destruct e.
  assert (forall c, target c e = None) as Ht by by destruct e.
  split.
  - intros j. rewrite sent_to_cons, received_by_cons, (lg_queue _ _ _ _ L). by destruct e; simpl; rewrite ?app_nil_r.
  - intros c k. rewrite targets_cons by done. apply (lg_nodup _ _ _ _ L).
  - intros c k j m. rewrite targets_cons by done. apply (lg_target _ _ _ _ L).
  - intros c k j **. rewrite since_cons by done. right. by apply (lg_received _ _ _ _ L).
  - intros c k j **. rewrite since_cons by done. right. by apply (lg_finished _ _ _ _ L).
  - intros l1 c n l2 [(_ & -> & _)|(l1' & _ & E)]%cons_return; [done|]. by apply (lg_return _ _ _ _ L l1' c n l2).
Qed.

(** [c] calls ipc_send_message, not being in another send. *)
Lemma logged_call c : jobs c = None -> logged (EvStart c :: l) q acks jobs.
Proof using L.
  intros Hc. assert (forall d k, jobs d = Some k -> EvStart c <> EvStart d) as Hs by (intros d k E [= ->]; congruence).
  split.
  - intros j. rewrite sent_to_cons, received_by_cons, !app_nil_r. apply (lg_queue _ _ _ _ L).
  - intros d k ? E. rewrite targets_cons by (done || by eapply Hs). by apply (lg_nodup _ _ _ _ L d k).
  - intros d k j m ? E. rewrite targets_cons by (done || by eapply Hs). by apply (lg_target _ _ _ _ L).
  - intros d k j ** . rewrite since_cons by by eapply Hs. right. by apply (lg_received _ _ _ _ L).
  - intros d k j **. rewrite since_cons by by eapply Hs. right. by apply (lg_finished _ _ _ _ L).
  - intros l1 d n l2 [(_ & [=] & _)|(l1' & _ & E)]%cons_return. by apply (lg_return _ _ _ _ L l1' d n l2).
Qed.

(** ... and is in a send whose row of the acknowledgements is cleared. *)
Lemma logged_start c acks' k : cpu c -> since c l = [] ->
  j_flags k = replicate (Z.to_nat CPU_BITMAP_MAX) 0 ->
  (forall p, acks' p = if decide (ack_index N c 0 <= p < ack_index N c N) then 0 else acks p) ->
  logged l q acks' (<[c := Some k]> jobs).
Proof using L HN.
  intros Hc Hs Hf Ea. assert (targets c l = []) as Ht by (unfold targets; by rewrite Hs).
  assert (forall j, cpu j -> bit64 (j_flags k) j = false) as B by (intros j Hj; rewrite Hf; apply bit64_zero; lia).
  split.
  - apply (lg_queue _ _ _ _ L).
  - intros d k' Hd. rewrite fn_insert_case. destruct (decide (c = d)) as [<-|]; [|by apply (lg_nodup _ _ _ _ L)].
    intros _. rewrite Ht. constructor.
  - intros d k' j m Hd. rewrite fn_insert_case. destruct (decide (c = d)) as [<-|]; [|by apply (lg_target _ _ _ _ L)].
    intros [= <-]. rewrite Ht. split; [by intros ?%not_elem_of_nil|]. intros (Hj & X & _). by rewrite B in X.
  - intros d k' j Hd Hj. rewrite fn_insert_case. destruct (decide (c = d)) as [<-|]; [|by apply (lg_received _ _ _ _ L)].
    intros [= <-] X. by rewrite B in X.
  - intros d k' j Hd Hj. rewrite fn_insert_case. destruct (decide (c = d)) as [<-|].
    + intros [= <-] X. by rewrite B in X.
    + intros E Hb Hw. rewrite Ea, decide_False by (unfold ack_index; nia). by apply (lg_finished _ _ _ _ L).
  - apply (lg_return _ _ _ _ L).
Qed.

Lemma logged_enqueue c j k k' : cpu c -> cpu j -> jobs c = Some k -> bit64 (j_flags k) j = false ->
  (forall i, message k' c i = message k c i) -> j_wait k' = j_wait k ->
  (forall i, 0 <= i < 128 -> bit64 (j_flags k') i = (i =? j) || bit64 (j_flags k) i) ->
  logged (EvEnqueue c j (message k c j) :: l) (<[j := q j ++ [message k c j]]> q) acks (<[c := Some k']> jobs).
Proof using F L HN.
  intros Hc Hj Hk Hb Hm Hw Hf. set (e := EvEnqueue c j (message k c j)).
  assert (T : targets c (e :: l) = (j, message k c j) :: targets c l).
  { unfold targets. rewrite since_cons by done. simpl. by rewrite decide_True. }
  assert (T' : forall d, c <> d -> targets d (e :: l) = targets d l).
  { intros d Hd. apply targets_cons; [done|]. simpl. by rewrite decide_False. }
  split.
  - intros i. rewrite sent_to_cons, received_by_cons, (lg_queue _ _ _ _ L), fn_insert_case. simpl. rewrite app_nil_r.
    destruct (decide (j = i)) as [<-|]; [by rewrite app_assoc|by rewrite app_nil_r].
  - intros d k0 Hd. rewrite fn_insert_case. destruct (decide (c = d)) as [<-|Hne].
    + intros _. rewrite T, fmap_cons. constructor; [|by apply (lg_nodup _ _ _ _ L c k)].
      intros ((j' & m) & E & X)%list_elem_of_fmap. simpl in E. subst j'.
      apply (lg_target _ _ _ _ L c k j m Hc Hk) in X as (_ & X & _). congruence.
    + rewrite T' by done. by apply (lg_nodup _ _ _ _ L).
  - intros d k0 i m Hd. rewrite fn_insert_case. destruct (decide (c = d)) as [<-|Hne].
    + intros [= <-]. rewrite T, elem_of_cons, (lg_target _ _ _ _ L c k i m Hc Hk), Hm. split.
      * intros [[= -> ->]|(Hi & X & ->)]; (split; [done|]; split; [|done]); rewrite Hf by lia.
        -- by rewrite Z.eqb_refl.
        -- by rewrite X, orb_true_r.
      * intros (Hi & X & ->). rewrite Hf in X by lia. destruct (Z.eqb_spec i j) as [->|]; [by left|by right].
    + rewrite T' by done. by apply (lg_target _ _ _ _ L).
  - intros d k0 i Hd Hi. rewrite !fn_insert_case, since_cons by done. intros E Hbit Hq. right.
    destruct (decide (c = d)) as [<-|Hne].
    + injection E as <-. rewrite Hm. destruct (decide (j = i)) as [<-|Hji].
      * rewrite in_queue_snoc in Hq. simpl in Hq. pose proof (in_queue_pos (q j) c). rewrite decide_True in Hq by done. lia.
      * apply (lg_received _ _ _ _ L c k i); [done..| |done]. rewrite Hf in Hbit by lia.
        by rewrite (proj2 (Z.eqb_neq i j)) in Hbit by congruence.
    + apply (lg_received _ _ _ _ L d k0 i); [done..|]. destruct (decide (j = i)) as [<-|]; [|done].
      rewrite in_queue_snoc in Hq. simpl in Hq. by rewrite decide_False, Z.add_0_r in Hq by done.
  - intros d k0 i Hd Hi. rewrite fn_insert_case, since_cons by done. intros E Hbit Hwait Hack. right.
    destruct (decide (c = d)) as [<-|Hne]; [|by apply (lg_finished _ _ _ _ L d k0 i)].
    injection E as <-. rewrite Hm. destruct (decide (j = i)) as [<-|Hji].
    + pose proof (fl_once _ _ _ _ F c j k Hc Hj Hk) as O. rewrite Hb in O. simpl in O.
      pose proof (in_queue_pos (q j) c). pose proof (in_handler_pos (fs j) c). lia.
    + apply (lg_finished _ _ _ _ L c k i); [done..| |congruence|done]. rewrite Hf in Hbit by lia.
      by rewrite (proj2 (Z.eqb_neq i j)) in Hbit by congruence.
  - intros l1 d n l2 [(_ & [=] & _)|(l1' & _ & E)]%cons_return. by apply (lg_return _ _ _ _ L l1' d n l2).
Qed.

(** An event of a receiver changes nobody's targets. *)
Lemma logged_keep e : (forall c, e <> EvStart c) -> (forall c, target c e = None) ->
  (forall c k, cpu c -> jobs c = Some k -> NoDup (targets c (e :: l)).*1) /\
  (forall c k j m, cpu c -> jobs c = Some k ->
    (j, m) ∈ targets c (e :: l) <-> cpu j /\ bit64 (j_flags k) j = true /\ m = message k c j).
Proof using L.
  intros Hs Ht. split.
  - intros c k. rewrite targets_cons by done. apply (lg_nodup _ _ _ _ L).
  - intros c k j m. rewrite targets_cons by done. apply (lg_target _ _ _ _ L).
Qed.

(** The acknowledgement that a message from [c] to [j] points to is not that of a send that
    waits for the other end of the handler. *)
Lemma bump_other (o : option Z) c k d k0 j i (w : bool) : cpu j -> cpu i -> jobs c = Some k -> jobs d = Some k0 ->
  o = (if w then None else Some (ack_index N c j)) -> j_wait k = w -> j_wait k0 = true ->
  bump o acks (ack_index N d i) = acks (ack_index N d i).
Proof using HN.
  intros Hj Hi Hk Hk0 -> Hw Hw0. unfold bump. destruct w; [by rewrite decide_False|].
  rewrite decide_False; [done|]. intros [= E]. destruct (ack_index_inj c d j i Hj Hi E) as [-> _]. congruence.
Qed.

Lemma logged_receive j m r : cpu j -> q j = m :: r ->
  logged (EvReceive j m :: l) (<[j := r]> q) (bump (before_handler_ack m) acks) jobs.
Proof using F L HN.
  intros Hj Eq. destruct (fl_queue _ _ _ _ F j m Hj) as (Hc & k & Hk & Hb & Em); [rewrite Eq; left|].
  destruct (logged_keep (EvReceive j m)) as [Hn Ht]; [done..|]. split; [|done|done|..].
  - intros i. rewrite sent_to_cons, received_by_cons, (lg_queue _ _ _ _ L), fn_insert_case. simpl. rewrite app_nil_r.
    destruct (decide (j = i)) as [<-|]; [by rewrite Eq, <- app_assoc|by rewrite app_nil_r].
  - intros d k0 i Hd Hi E Hbit Hq. rewrite fn_insert_case in Hq. rewrite since_cons by done.
    destruct (decide (j = i)) as [<-|]; [|right; by apply (lg_received _ _ _ _ L)].
    destruct (decide (from m = d)) as [<-|Hne].
    + assert (k0 = k) as -> by congruence. rewrite <- Em. left.
    + right. apply (lg_received _ _ _ _ L d k0 j); [done..|]. rewrite Eq, in_queue_cons, decide_False by done. lia.
  - intros d k0 i Hd Hi E Hbit Hw Hack. rewrite since_cons by done. right. apply (lg_finished _ _ _ _ L d k0 i); [done..|].
    rewrite <- Hack. symmetry. apply (bump_other _ (from m) k d k0 j i (j_wait k)); [done..| |done|done]. by rewrite Em at 1.
  - intros l1 d n l2 [(_ & [=] & _)|(l1' & _ & E)]%cons_return. by apply (lg_return _ _ _ _ L l1' d n l2).
Qed.

Lemma logged_finish j fr r : cpu j -> fs j = fr :: r ->
  logged (EvFinish j (f_msg fr) :: l) q (bump (after_handler_ack (f_msg fr)) acks) jobs.
Proof using F L HN.
  intros Hj Ef. destruct (logged_keep (EvFinish j (f_msg fr))) as [Hn Ht]; [done..|]. split; [|done|done|..].
  - intros i. rewrite sent_to_cons, received_by_cons, !app_nil_r. apply (lg_queue _ _ _ _ L).
  - intros d k0 i **. rewrite since_cons by done. right. by apply (lg_received _ _ _ _ L).
  - intros d k0 i Hd Hi E Hbit Hw Hack. rewrite since_cons by done.
    destruct (decide (after_handler_ack (f_msg fr) = Some (ack_index N d i))) as [A|A].
    + destruct (fl_frame _ _ _ _ F j fr Hj) as (Hc & k & Hk & Hb & Em); [rewrite Ef; left|by rewrite A|].
      assert (from (f_msg fr) = d /\ j = i) as [<- <-].
      { rewrite Em in A. simpl in A. destruct (j_wait k); [|done]. injection A as A. by apply ack_index_inj in A. }
      assert (k0 = k) as -> by congruence. rewrite <- Em. left.
    + right. unfold bump in Hack. rewrite decide_False in Hack by done. by apply (lg_finished _ _ _ _ L d k0 i).
  - intros l1 d n l2 [(_ & [=] & _)|(l1' & _ & E)]%cons_return. by apply (lg_return _ _ _ _ L l1' d n l2).
Qed.

(** A return whose send is complete, by a processor that is in no send afterwards. *)
Lemma logged_returned c n jobs' : complete c n l ->
  jobs' c = None -> (forall d, d <> c -> jobs' d = jobs d) ->
  logged (EvReturn c n :: l) q acks jobs'.
Proof using L.
  intros C Hc Hd. destruct (logged_keep (EvReturn c n)) as [Hn Ht]; [done..|].
  assert (J : forall d k, jobs' d = Some k -> jobs d = Some k) by (intros d k E; rewrite <- Hd; congruence).
  split.
  - intros i. rewrite sent_to_cons, received_by_cons, !app_nil_r. apply (lg_queue _ _ _ _ L).
  - intros d k ? E. by apply (Hn d k), J.
  - intros d k j m ? E. by apply (Ht d k), J.
  - intros d k0 i **. rewrite since_cons by done. right. apply (lg_received _ _ _ _ L); auto.
  - intros d k0 i **. rewrite since_cons by done. right. apply (lg_finished _ _ _ _ L); auto.
  - intros l1 d n' l2 [(_ & [= <- <-] & <-)|(l1' & _ & E)]%cons_return; [done|]. by apply (lg_return _ _ _ _ L l1' d n' l2).
Qed.

Lemma all_complete c k : cpu c -> jobs c = Some k ->
  (forall j, cpu j -> bit64 (j_flags k) j = true -> acks (ack_index N c j) = 1) ->
  complete c (j_required k) l.
Proof using F L HN.
  intros Hc Hk Hall. destruct (fl_job _ _ _ _ F c k Hc Hk) as (_ & B & R). split; [|split].
  - rewrite R. unfold bits_set. f_equal. rewrite <- (length_fmap fst (targets c l)). apply Permutation_length, NoDup_Permutation.
    + apply NoDup_filter, NoDup_seqZ.
    + by apply (lg_nodup _ _ _ _ L c k).
    + intros j. rewrite list_elem_of_filter, elem_of_seqZ, list_elem_of_fmap. split.
      * intros [Hb Hj]. exists (j, message k c j). split; [done|]. apply (lg_target _ _ _ _ L c k); [done..|]. split; [lia|done].
      * intros ([j' m] & -> & X). apply (lg_target _ _ _ _ L c k) in X as (? & ? & _); [|done..]. simpl. split; [done|lia].
  - by apply (lg_nodup _ _ _ _ L c k).
  - intros j m Hm. apply (lg_target _ _ _ _ L c k) in Hm as (Hj & Hb & ->); [|done..].
    split; [done|]. split; [by intros ->; rewrite B in Hb|]. split; [done|]. pose proof (Hall j Hj Hb) as A.
    pose proof (fl_once _ _ _ _ F c j k Hc Hj Hk) as O. rewrite Hb, A in O. simpl in O.
    pose proof (in_queue_pos (q j) c). pose proof (in_handler_pos (fs j) c). split.
    + apply (lg_received _ _ _ _ L c k j); [done..|lia].
    + simpl. intros W. apply (lg_finished _ _ _ _ L c k j); [done..| |done]. by destruct (j_wait k).
Qed.

Lemma none_complete c : since c l = [] -> complete c 0 l.
Proof.
  intros Hs. unfold complete, targets. rewrite Hs. split; [done|]. split; [constructor|]. by intros j m ?%not_elem_of_nil.
Qed.

End LogSteps.

(** ** The invariant of the system *)

(** The acknowledgements of [c] that are counted before index [i]. *)
Definition acks_before (acks : Z -> Z) (c i : Z) : Z :=
  foldr Z.add 0 (map (fun j => acks (ack_index N c j)) (seqZ 0 i)).

Definition place_ok (acks : Z -> Z) (c : Z) (p : place) : Prop :=
  match p with
  | Enqueueing f i => 0 <= i <= N /\ (forall j, cpu j -> i <= j -> bit64 (enqueue_flag f) j = false)
  | Counting f i r => 0 <= i <= N /\ 0 <= r <= acks_before acks c i
  | Resending f i => 0 <= i <= N
  | Resignal f i => cpu i
  | _ => True
  end /\ (forall f, sending p = Some f -> length (nmi_accounted_flag f) = 2%nat).

Record inv (s : ipc) : Prop := {
  inv_flight : in_flight (queue s) (fun j => frames (cpus s j)) (ipc_ack_array s) (job_at s);
  inv_log : logged (log s) (queue s) (ipc_ack_array s) (job_at s);
  inv_place c : cpu c -> place_ok (ipc_ack_array s) c (at_ (cpus s c)) }.

Lemma acks_before_mono a a' c i : (forall j, 0 <= j < i -> a (ack_index N c j) <= a' (ack_index N c j)) ->
  acks_before a c i <= acks_before a' c i.
Proof.
  intros H. unfold acks_before. assert (forall j, j ∈ seqZ 0 i -> a (ack_index N c j) <= a' (ack_index N c j)) as H'.
  { intros j Hj%elem_of_seqZ. apply H. lia. }
  clear H. induction (seqZ 0 i) as [|x l IH]; simpl; [lia|].
  pose proof (H' x (list_elem_of_here x l)). specialize (IH (fun j Hj => H' j (list_elem_of_further j x l Hj))). lia.
Qed.

Lemma acks_before_succ a c i : 0 <= i -> acks_before a c (i + 1) = acks_before a c i + a (ack_index N c i).
Proof.
  intros Hi. unfold acks_before. replace (seqZ 0 (i + 1)) with (seqZ 0 i ++ [i]).
  - rewrite map_app, foldr_app. simpl. generalize (seqZ 0 i). intros l. induction l; simpl; lia.
  - replace (i + 1) with (Z.of_nat (S (Z.to_nat i))) by lia. by rewrite seqZ_S, Z2Nat.id by lia.
Qed.

(** When the acknowledgements that were counted are as many as required, all are there. *)
Lemma counted_all q fs acks jobs c k : in_flight q fs acks jobs -> cpu c -> jobs c = Some k ->
  j_required k <= acks_before acks c N -> forall j, cpu j -> bit64 (j_flags k) j = true -> acks (ack_index N c j) = 1.
Proof using HN.
  intros F Hc Hk. destruct (fl_job _ _ _ _ F c k Hc Hk) as (_ & _ & ->). unfold bits_set, acks_before.
  assert (forall j, j ∈ seqZ 0 N -> 0 <= acks (ack_index N c j) <= Z.b2z (bit64 (j_flags k) j)) as B.
  { intros j Hj%elem_of_seqZ. assert (cpu j) as Hj' by lia. pose proof (fl_once _ _ _ _ F c j k Hc Hj' Hk) as O.
    pose proof (in_queue_pos (q j) c). pose proof (in_handler_pos (fs j) c). pose proof (fl_acks _ _ _ _ F (ack_index N c j)). lia. }
  intros Hsum j Hj. assert (j ∈ seqZ 0 N) as Hin by (apply elem_of_seqZ; lia). clear Hj. revert Hsum j Hin.
  induction (seqZ 0 N) as [|x l IH]; intros Hsum j Hin Hb; [by apply not_elem_of_nil in Hin|].
  pose proof (B x (list_elem_of_here x l)) as Bx. rewrite filter_cons in Hsum. simpl in Hsum.
  assert (forall l', (forall j, j ∈ l' -> 0 <= acks (ack_index N c j) <= Z.b2z (bit64 (j_flags k) j)) ->
    foldr Z.add 0 (map (fun j => acks (ack_index N c j)) l') <= Z.of_nat (length (filter (fun j => bit64 (j_flags k) j = true) l'))) as Up.
  { intros l' H. induction l' as [|y l' IH']; [done|]. rewrite filter_cons. simpl.
    pose proof (H y (list_elem_of_here y l')). specialize (IH' (fun j Hj => H j (list_elem_of_further j y l' Hj))).
    destruct (bit64 (j_flags k) y); simpl in *; lia. }
  specialize (Up l (fun j Hj => B j (list_elem_of_further j x l Hj))).
  specialize (IH (fun j Hj => B j (list_elem_of_further j x l Hj))).
  apply elem_of_cons in Hin as [->|Hin].
  - rewrite Hb in *. rewrite decide_True in Hsum by done. simpl in *. lia.
  - apply IH; [|done|done]. destruct (bit64 (j_flags k) x); simpl in *; lia.
Qed.

(** *** Updates that have nothing to do with messages *)

Lemma queue_set_count j k x s i : queue (set_count j k x s) i = queue s i.
Proof. unfold queue, set_count. simpl. rewrite fn_insert_case. by destruct (decide (j = i)) as [<-|]. Qed.

Lemma inv_count j k x s : inv s -> inv (set_count j k x s).
Proof.
  intros [F L P]. split; [|..|done].
  - apply (flight_ext _ _ _ _ F); intros; by rewrite ?queue_set_count.
  - apply (logged_ext _ _ _ _ L); intros; by rewrite ?queue_set_count.
Qed.

Lemma inv_emit e s : quiet e = true -> inv s -> inv (emit e s).
Proof. intros Hq [F L P]. split; [done| |done]. by apply (logged_quiet _ _ _ _ L). Qed.

Lemma inv_set_nmi c b s : inv s -> inv (set_nmi c b s). Proof. by intros [F L P]. Qed.
Lemma inv_set_activity c b s : inv s -> inv (set_activity c b s). Proof. by intros [F L P]. Qed.
Lemma inv_set_not_resend x s : inv s -> inv (set_not_resend x s). Proof. by intros [F L P]. Qed.

Lemma frames_goto c p s j : frames (cpus (goto c p s) j) = frames (cpus s j).
Proof. unfold goto, set_code. simpl. rewrite fn_insert_case. by destruct (decide (c = j)) as [<-|]. Qed.
Lemma at_goto c p s j : at_ (cpus (goto c p s) j) = if decide (c = j) then p else at_ (cpus s j).
Proof. unfold goto, set_code. simpl. rewrite fn_insert_case. by destruct (decide (c = j)) as [<-|]. Qed.

(** A processor goes on in the send it is in. *)
Lemma inv_goto c p s : place_ok (ipc_ack_array s) c p -> job_of <$> sending p = job_at s c -> inv s -> inv (goto c p s).
Proof.
  intros Hp Hj [F L P]. assert (forall d, job_at (goto c p s) d = job_at s d) as J.
  { intros d. unfold job_at. rewrite at_goto. by destruct (decide (c = d)) as [<-|]. }
  split.
  - apply (flight_ext _ _ _ _ F); intros; [done|apply frames_goto|done|apply J].
  - by apply (logged_ext _ _ _ _ L).
  - intros d Hd. rewrite at_goto. destruct (decide (c = d)) as [<-|]; [done|by apply P].
Qed.

Lemma inv_processed_nmi c s : inv s -> inv (processed_nmi c s).
Proof. intros I. by apply inv_count, inv_count. Qed.

(** *** Acknowledgements *)

Lemma increment_ack o s p : ipc_ack_array (ipc_increment_ack o s) p = bump o (ipc_ack_array s) p.
Proof.
  destruct o as [a|]; simpl; [|done]. rewrite fn_insert_case. unfold bump.
  destruct (decide (a = p)) as [->|]; [by rewrite decide_True|by rewrite decide_False by congruence].
Qed.

Lemma bump_mono q fs acks jobs c k j o : in_flight q fs acks jobs -> cpu c -> cpu j -> jobs c = Some k ->
  acks (ack_index N c j) <= bump o acks (ack_index N c j).
Proof.
  intros F Hc Hj Hk. pose proof (fl_once _ _ _ _ F c j k Hc Hj Hk). pose proof (fl_acks _ _ _ _ F (ack_index N c j)).
  pose proof (in_queue_pos (q j) c). pose proof (in_handler_pos (fs j) c).
  assert (Z.b2z (bit64 (j_flags k) j) <= 1) by (destruct (bit64 (j_flags k) j); simpl; lia).
  unfold bump. destruct (decide _); [|lia]. rewrite u32_small; lia.
Qed.

Lemma place_bump q fs acks jobs o c p : in_flight q fs acks jobs -> cpu c -> jobs c = job_of <$> sending p ->
  place_ok acks c p -> place_ok (bump o acks) c p.
Proof.
  intros F Hc Hj [Hp Hn]. split; [|done]. destruct p as [|f i|f|f i r|f i|f i|e]; try done.
  destruct Hp as (Hi & Hr). split; [done|]. split; [lia|]. etransitivity; [apply Hr|]. apply acks_before_mono.
  intros j Hji. apply (bump_mono q fs acks jobs c (job_of f)); [done|done|lia|by rewrite Hj].
Qed.

Lemma place_ext acks acks' c p : (forall x, acks' x = acks x) -> place_ok acks c p -> place_ok acks' c p.
Proof.
  intros E [Hp Hn]. split; [|done]. destruct p as [|f i|f|f i r|f i|f i|e]; try done.
  destruct Hp as (Hi & Hr). split; [done|]. split; [lia|]. etransitivity; [apply Hr|]. apply acks_before_mono.
  intros. rewrite E. lia.
Qed.

(** *** Receiving *)

Lemma frames_set c fs s j : frames (cpus (set_frames c fs s) j) = <[c := fs]> (fun j => frames (cpus s j)) j.
Proof. unfold set_frames, set_code. simpl. rewrite !fn_insert_case. by destruct (decide (c = j)). Qed.
Lemma at_set_frames c fs s j : at_ (cpus (set_frames c fs s) j) = at_ (cpus s j).
Proof. unfold set_frames, set_code. simpl. rewrite fn_insert_case. by destruct (decide (c = j)) as [<-|]. Qed.

Lemma queue_set_queue j x s i : queue (set_queue j x s) i = <[j := x]> (queue s) i.
Proof. unfold queue, set_queue. simpl. rewrite !fn_insert_case. by destruct (decide (j = i)). Qed.

(** What taking a message out of the queue does. *)
Lemma dequeue_effect c s m s' : ipc_dequeue_message c s = (Some m, s') -> exists r, queue s c = m :: r /\
  (forall j, queue s' j = <[c := r]> (queue s) j) /\ cpus s' = cpus s /\
  (forall p, ipc_ack_array s' p = bump (before_handler_ack m) (ipc_ack_array s) p) /\
  log s' = EvReceive c m :: log s /\ cpu_activity_state s' = cpu_activity_state s.
Proof.
  unfold ipc_dequeue_message. destruct (queue s c) as [|m0 r]; [done|]. intros [= <- <-]. exists r. split; [done|].
  set (o := before_handler_ack m0). split; [|split; [by destruct o|split; [|by destruct o]]].
  - intros j. etransitivity; [apply queue_set_count|]. by destruct o; apply queue_set_queue.
  - intros p. apply (increment_ack o (set_queue c r s)).
Qed.

Lemma job_at_cpus s s' c : at_ (cpus s' c) = at_ (cpus s c) -> job_at s' c = job_at s c.
Proof. unfold job_at. by intros ->. Qed.

(** A message is taken out and its handler is called. *)
Lemma inv_dequeue c s m s' x : cpu c -> inv s -> ipc_dequeue_message c s = (Some m, s') ->
  inv (set_frames c (mk_frame m x :: frames (cpus s' c)) s').
Proof using HN.
  intros Hc [F L P] E. destruct (dequeue_effect c s m s' E) as (r & Eq & Q & C & A & Lg & _). rewrite C.
  assert (forall d, job_at (set_frames c (mk_frame m x :: frames (cpus s c)) s') d = job_at s d) as J.
  { intros d. apply job_at_cpus. by rewrite at_set_frames, C. }
  split.
  - apply (flight_ext _ _ _ _ (flight_dequeue _ _ _ _ F c m r x Hc Eq)); [exact Q| |exact A|exact J].
    intros j. by rewrite frames_set, C.
  - apply (logged_ext _ _ _ _ (eq_rect_r (fun l => logged l _ _ _) (logged_receive _ _ _ _ _ F L c m r Hc Eq) Lg)); [exact Q|exact A|exact J].
  - intros d Hd. rewrite at_set_frames, C. apply (place_ext (bump (before_handler_ack m) (ipc_ack_array s))); [exact A|].
    by apply (place_bump _ _ _ _ _ _ _ F), P.
Qed.

Lemma inv_call c s m s' x t : cpu c -> inv s -> ipc_dequeue_message c s = (Some m, s') ->
  t = s' \/ t = processed_nmi c s' -> forall u, call_handler c (mk_frame m x) t = Ok u -> inv u.
Proof using HN.
  intros Hc I E Ht u. unfold call_handler. destruct (handler _ =? 0); [done|]. intros [= <-].
  pose proof (inv_dequeue c s m s' x Hc I E) as I'. destruct Ht as [-> | ->]; [done|].
  by apply (inv_processed_nmi c) in I'.
Qed.

Lemma inv_process_one c s b s' : cpu c -> inv s -> ipc_process_one_ipc c s = Ok (b, s') -> inv s'.
Proof using HN.
  intros Hc I. unfold ipc_process_one_ipc. destruct (ipc_dequeue_message c s) as [[m|] s1] eqn:E.
  - intros H. ostep H. injection H as _ <-. eapply (inv_call c s m s1 None _ Hc I E); [|exact E0].
    destruct (_ && _); auto.
  - intros [= _ <-]. unfold ipc_dequeue_message in E. destruct (queue s c); congruence.
Qed.

Lemma inv_process_next c nmi s s' : cpu c -> inv s -> process_next c nmi s = Ok s' -> inv s'.
Proof using HN.
  intros Hc I. unfold process_next. destruct (ipc_dequeue_message c s) as [[m|] s1] eqn:E; [|done].
  intros H. eapply (inv_call c s m s1 _ _ Hc I E); [|exact H]. destruct (_ && _); auto.
Qed.

Lemma inv_process_all c nmi s s' : cpu c -> inv s -> ipc_process_all_ipc_messages c nmi s = Ok s' -> inv s'.
Proof using HN.
  intros Hc I. unfold ipc_process_all_ipc_messages. destruct (_ =? 0); [by intros [= <-]|]. by apply inv_process_next.
Qed.

(** A handler returns and is acknowledged. *)
Lemma inv_finish c s fr fs : cpu c -> inv s -> frames (cpus s c) = fr :: fs ->
  inv (emit (EvFinish c (f_msg fr)) (ipc_increment_ack (after_handler_ack (f_msg fr)) (set_frames c fs s))).
Proof using HN.
  intros Hc [F L P] E. set (o := after_handler_ack (f_msg fr)). set (t := emit _ _).
  assert (A : forall p, ipc_ack_array t p = bump o (ipc_ack_array s) p) by (intros p; apply (increment_ack o (set_frames c fs s))).
  assert (C : cpus t = cpus (set_frames c fs s)) by by unfold t; destruct o.
  assert (Q : queue t = queue s) by by unfold t; destruct o.
  assert (J : forall d, job_at t d = job_at s d) by (intros d; apply job_at_cpus; by rewrite C, at_set_frames).
  assert (Lg : log t = EvFinish c (f_msg fr) :: log s) by by unfold t; destruct o.
  split.
  - apply (flight_ext _ _ _ _ (flight_return _ _ _ _ F c fr fs Hc E)); [by rewrite Q| |exact A|exact J].
    intros j. by rewrite C, frames_set.
  - rewrite Lg, Q. by apply (logged_ext _ _ _ _ (logged_finish _ _ _ _ _ F L c fr fs Hc E)).
  - intros d Hd. rewrite C, at_set_frames. apply (place_ext (bump o (ipc_ack_array s))); [exact A|].
    by apply (place_bump _ _ _ _ _ _ _ F), P.
Qed.

Lemma inv_handler_return c s s' : cpu c -> inv s -> handler_return c s = Ok s' -> inv s'.
Proof using HN.
  intros Hc I. unfold handler_return. destruct (frames (cpus s c)) as [|fr fs] eqn:E; [by intros [= <-]|].
  pose proof (inv_finish c s fr fs Hc I E) as I'. set (t := emit _ _) in *.
  destruct (f_all fr) as [[nmi last]|]; [destruct last|].
  - by intros [= <-].
  - by apply inv_process_next.
  - destruct fs; [|by intros [= <-]]. destruct (at_ (cpus t c)) as [|f i|f|f i r|f i|f i|k] eqn:Ea; intros [= <-]; try done.
    apply inv_goto; [|by unfold job_at; rewrite Ea|done]. pose proof (inv_place _ I' c Hc) as [_ Hn]. rewrite Ea in Hn.
    split; [|exact Hn]. split; [lia|]. done.
Qed.

(** *** Sending *)

Lemma in_queue_nodup (q : list IPC_MESSAGE) : (forall c, in_queue q c <= 1) -> NoDup (from <$> q).
Proof.
  induction q as [|m q IH]; intros H; [constructor|]. rewrite fmap_cons. constructor.
  - intros (m' & E & Hm')%list_elem_of_fmap. specialize (H (from m)). rewrite in_queue_cons, decide_True in H by done.
    pose proof (in_queue_pos q (from m)). by apply (in_queue_zero q (from m) m'); [lia|..].
  - apply IH. intros c. specialize (H c). rewrite in_queue_cons in H. destruct (decide _); lia.
Qed.

(** At most one message of each other processor is in a queue. *)
Lemma queue_bound q fs acks jobs j : in_flight q fs acks jobs -> cpu j -> Z.of_nat (length (q j)) <= N - 1.
Proof using HN.
  intros F Hj. assert (forall m, m ∈ q j -> cpu (from m) /\ from m <> j) as R.
  { intros m Hm. destruct (fl_queue _ _ _ _ F j m Hj Hm) as (Hc & k & Hk & Hb & _). split; [done|]. intros X.
    destruct (fl_job _ _ _ _ F _ k Hc Hk) as (_ & B & _). congruence. }
  assert (NoDup (from <$> q j)) as Nd.
  { apply in_queue_nodup. intros c. destruct (decide (0 <= c < N)) as [Hc|Hc].
    - destruct (jobs c) as [k|] eqn:Hk; [|rewrite (proj1 (flight_none _ _ _ _ F c j Hk Hj)); lia].
      pose proof (fl_once _ _ _ _ F c j k Hc Hj Hk). pose proof (in_handler_pos (fs j) c).
      pose proof (fl_acks _ _ _ _ F (ack_index N c j)). destruct (bit64 (j_flags k) j); simpl in *; lia.
    - rewrite in_queue_none; [lia|]. intros m Hm <-. by apply R in Hm as [? _]. }
  assert (NoDup (j :: (from <$> q j))) as Nd'.
  { constructor; [|done]. intros (m & -> & Hm)%list_elem_of_fmap. by apply R in Hm as [_ ?]. }
  apply (NoDup_submseteq _ (seqZ 0 N)) in Nd'.
  - apply submseteq_length in Nd'. simpl in Nd'. rewrite length_fmap, length_seqZ in Nd'. lia.
  - intros x [->|Hx]%elem_of_cons; apply elem_of_seqZ; [lia|]. apply list_elem_of_fmap in Hx as (m & -> & Hm).
    apply R in Hm as [? _]. lia.
Qed.

Lemma inv_call_send c s : cpu c -> inv s -> job_at s c = None -> inv (emit (EvStart c) s).
Proof. intros Hc [F L P] J. split; [done| |done]. by apply (logged_call _ _ _ _ L). Qed.

Lemma since_start c l : since c (EvStart c :: l) = [].
Proof. simpl. by rewrite decide_True. Qed.

Lemma clear_row_acks c s p : ipc_ack_array (clear_row N c s) p =
  if decide (ack_index N c 0 <= p < ack_index N c N) then 0 else ipc_ack_array s p.
Proof.
  unfold clear_row. simpl. destruct (decide _); zcases; done.
Qed.

Lemma inv_execute_send c dst ty h a w s : cpu c -> inv s -> job_at s c = None -> since c (log s) = [] ->
  inv (ipc_execute_send N c dst ty h a w s).
Proof using HN.
  intros Hc [F L P] J S. unfold ipc_execute_send. set (f := mk_send _ _ _ _ _ _ _ _). set (t := clear_row N c s).
  assert (J' : forall d, job_at (goto c (Enqueueing f 0) t) d = <[c := Some (job_of f)]> (job_at s) d).
  { intros d. unfold job_at. rewrite at_goto, fn_insert_case. by destruct (decide (c = d)). }
  split.
  - apply (flight_ext _ _ _ _ (flight_start _ _ _ _ F c (ipc_ack_array t) (job_of f) J eq_refl eq_refl (clear_row_acks c s)));
      [done|exact (frames_goto c _ t)|done|exact J'].
  - by apply (logged_ext _ _ _ _ (logged_start _ _ _ _ L c (ipc_ack_array t) (job_of f) Hc S eq_refl (clear_row_acks c s))).
  - intros d Hd. rewrite at_goto. destruct (decide (c = d)) as [<-|Hne].
    + split; [|by intros ? [= <-]]. split; [lia|]. intros j Hj _. simpl. apply bit64_zero. lia.
    + destruct (P d Hd) as [Hp Hn]. split; [|done]. change (cpus t d) with (cpus s d).
      change (ipc_ack_array (goto c (Enqueueing f 0) t)) with (ipc_ack_array t). destruct (at_ (cpus s d)); try done.
      destruct Hp as (Hi & Hr). split; [done|]. split; [lia|]. etransitivity; [apply Hr|]. apply acks_before_mono.
      intros j Hj. unfold t. rewrite clear_row_acks, decide_False; [lia|]. unfold ack_index. nia.
Qed.

Lemma inv_send_message w c dst ty h a s : cpu c -> inv s -> job_at s c = None ->
  inv (ipc_send_message_gen N w c dst ty h a s).
Proof using HN.
  intros Hc I J. pose proof (inv_call_send c s Hc I J) as I'. unfold ipc_send_message_gen.
  destruct (send_ok dst ty); [apply inv_execute_send; [done..|apply since_start]|].
  destruct I' as [F L P]. split; [done| |done].
  apply (logged_returned _ _ _ _ L c 0); [apply none_complete, since_start|done|done].
Qed.

(** The return of a send that is complete. *)
Lemma inv_return c f s : cpu c -> inv s -> job_at s c = Some (job_of f) ->
  (forall j, cpu j -> bit64 (enqueue_flag f) j = true -> ipc_ack_array s (ack_index N c j) = 1) ->
  inv (goto c Outside (emit (EvReturn c (num_required_acks f)) s)).
Proof using HN.
  intros Hc [F L P] J Hall. set (t := emit _ s).
  assert (J' : forall d, job_at (goto c Outside t) d = <[c := None]> (job_at s) d).
  { intros d. unfold job_at. rewrite at_goto, fn_insert_case. by destruct (decide (c = d)). }
  split.
  - apply (flight_ext _ _ _ _ (flight_finish _ _ _ _ F c (job_of f) Hc J Hall)); [done|exact (frames_goto c _ t)|done|exact J'].
  - apply (logged_returned _ _ _ _ L c (num_required_acks f)).
    + apply (all_complete _ _ _ _ _ F L c (job_of f) Hc J Hall).
    + by rewrite J', fn_lookup_insert.
    + intros d Hd. by rewrite J', fn_lookup_insert_ne.
  - intros d Hd. rewrite at_goto. destruct (decide (c = d)) as [<-|]; [done|by apply P].
Qed.

Lemma goto_emit c p e s : goto c p (emit e s) = emit e (goto c p s). Proof. done. Qed.
Lemma goto_count_up c p j k s : goto c p (count_up j k s) = count_up j k (goto c p s). Proof. done. Qed.

(** The signal changes counters, the log and the accounting of NMIs. *)
Lemma signal_effect f i s f' s' : length (nmi_accounted_flag f) = 2%nat -> cpu i -> signal f i s = Ok (f', s') ->
  job_of f' = job_of f /\ length (nmi_accounted_flag f') = 2%nat /\
  (forall c p, inv (goto c p s) -> inv (goto c p s')) /\ ipc_ack_array s' = ipc_ack_array s /\ cpus s' = cpus s.
Proof using HN.
  intros Hl Hi. unfold signal. destruct (is_active s i).
  - destruct (bitmap_set (nmi_accounted_flag f) i Hl ltac:(lia)) as (a & -> & Ha & _). rewrite bind_Ok. intros [= <- <-].
    split; [done|]. split; [done|]. split; [|done]. intros c p I. rewrite goto_emit, goto_count_up. by apply inv_emit, inv_count.
  - intros [= <- <-]. split; [done|]. split; [done|]. split; [|done]. intros c p I. rewrite goto_emit. by apply inv_emit.
Qed.

Lemma preprocess_effect dst ty s b s' : ipc_preprocess_message dst ty s = (b, s') ->
  (inv s -> inv s') /\ cpus s' = cpus s /\ ipc_ack_array s' = ipc_ack_array s.
Proof.
  unfold ipc_preprocess_message, ipc_preprocess_normal_message, ipc_preprocess_start_message, ipc_preprocess_stop_message.
  destruct (ty =? IPC_TYPE_NORMAL); [by intros [= _ <-]|].
  destruct (ty =? IPC_TYPE_START); [|destruct (ty =? IPC_TYPE_STOP); [|by intros [= _ <-]]];
    intros [= _ <-]; split; try done; apply inv_count.
Qed.

(** The send goes on after a message was put into the queue of [j]. *)
Lemma inv_enqueue c j f f' m s : cpu c -> cpu j -> j <> c -> inv s -> at_ (cpus s c) = Enqueueing f j ->
  m = message (job_of f) c j ->
  (s_type f', s_handler f', s_arg f', wait_for_handler_finish f') = (s_type f, s_handler f, s_arg f, wait_for_handler_finish f) ->
  num_required_acks f' = u32 (num_required_acks f + 1) ->
  length (enqueue_flag f') = 2%nat -> length (nmi_accounted_flag f') = 2%nat ->
  (forall i, 0 <= i < 128 -> bit64 (enqueue_flag f') i = (i =? j) || bit64 (enqueue_flag f) i) ->
  inv (goto c (Enqueueing f' (u16 (j + 1))) (emit (EvEnqueue c j m) (set_queue j (queue s j ++ [m]) s))).
Proof using HN.
  intros Hc Hj Hne [F L P] Ea -> [= E1 E2 E3 E4] Hr Hl Hn Hf. set (t := emit _ _).
  assert (J : job_at s c = Some (job_of f)) by (unfold job_at; by rewrite Ea).
  destruct (P c Hc) as [Hp _]. rewrite Ea in Hp. destruct Hp as [_ Hfl].
  assert (Hb : bit64 (enqueue_flag f) j = false) by (apply Hfl; [done|lia]).
  assert (Hm : forall i, message (job_of f') c i = message (job_of f) c i)
    by (intros i; unfold message, job_of; simpl; by rewrite E1, E2, E3, E4).
  assert (HR : num_required_acks f' = num_required_acks f + 1).
  { destruct (fl_job _ _ _ _ F c _ Hc J) as (_ & _ & R). simpl in R. rewrite Hr, u32_small; [done|].
    unfold bits_set in R. pose proof (length_filter (fun j => bit64 (enqueue_flag f) j = true) (seqZ 0 N)) as B.
    rewrite length_seqZ in B. lia. }
  assert (J' : forall d, job_at (goto c (Enqueueing f' (u16 (j + 1))) t) d = <[c := Some (job_of f')]> (job_at s) d).
  { intros d. unfold job_at. rewrite at_goto, fn_insert_case. by destruct (decide (c = d)). }
  split.
  - apply (flight_ext _ _ _ _ (flight_enqueue _ _ _ _ F c j (job_of f) (job_of f') Hc Hj Hne J Hb Hm HR Hl Hf));
      [apply (queue_set_queue j _ s)|exact (frames_goto c _ t)|done|exact J'].
  - apply (logged_ext _ _ _ _ (logged_enqueue _ _ _ _ _ F L c j (job_of f) (job_of f') Hc Hj J Hb Hm E4 Hf));
      [apply (queue_set_queue j _ s)|done|exact J'].
  - intros d Hd. rewrite at_goto. destruct (decide (c = d)) as [<-|]; [|by apply P].
    split; [|by intros ? [= <-]]. rewrite u16_small by lia. split; [lia|]. intros i Hi Hji. rewrite Hf by lia.
    rewrite (proj2 (Z.eqb_neq i j)) by lia. apply Hfl; [done|lia].
Qed.

Lemma inv_send_one c i f s f' s' : cpu c -> cpu i -> i <> c -> inv s -> at_ (cpus s c) = Enqueueing f i ->
  send_one N c i f s = Ok (f', s') -> inv (goto c (Enqueueing f' (u16 (i + 1))) s').
Proof using HN.
  intros Hc Hi Hne I Ea. unfold send_one. destruct (ipc_preprocess_message i (s_type f) s) as [b t] eqn:E.
  destruct (preprocess_effect _ _ _ _ _ E) as (It & Ct & At). specialize (It I). rewrite <- Ct in Ea.
  destruct (inv_place _ It c Hc) as [Hp Hn]. rewrite Ea in Hp, Hn. specialize (Hn f eq_refl). destruct Hp as [_ Hfl].
  assert (J : job_at t c = Some (job_of f)) by (unfold job_at; by rewrite Ea).
  destruct b.
  - destruct (fl_job _ _ _ _ (inv_flight _ It) c _ Hc J) as (Hl & _ & _).
    destruct (bitmap_set (enqueue_flag f) i Hl ltac:(lia)) as (a & -> & Ha & Hbit). rewrite bind_Ok. cbv zeta.
    set (g := mk_send _ _ _ _ _ _ _ _).
    destruct (if wait_for_handler_finish g then _ else _) as [before after] eqn:Eb.
    assert (M : mk_msg (s_type g) c (s_handler g) (s_arg g) before after = message (job_of f) c i).
    { unfold message. simpl in *. destruct (wait_for_handler_finish f); by injection Eb as <- <-. }
    unfold ipc_enqueue_message. pose proof (queue_bound _ _ _ _ i (inv_flight _ It) Hi) as B.
    rewrite (proj2 (Z.ltb_lt _ _)) by (unfold ipc_get_max_pending_messages; lia). cbv zeta.
    assert (G : forall f1, job_of f1 = job_of g -> length (nmi_accounted_flag f1) = 2%nat ->
      inv (goto c (Enqueueing f1 (u16 (i + 1))) (count_up i num_of_sent_ipc_messages
        (emit (EvEnqueue c i (mk_msg (s_type g) c (s_handler g) (s_arg g) before after))
          (set_queue i (queue t i ++ [mk_msg (s_type g) c (s_handler g) (s_arg g) before after]) t))))).
    { intros f1 [= X1 X2 X3 X4 X5 X6] Hn1. pose proof (inv_enqueue c i f f1 _ t Hc Hi Hne It Ea M) as X.
      rewrite goto_count_up. apply inv_count, X; [by rewrite X1, X2, X3, X4|done|by rewrite X6|done|by rewrite X6]. }
    destruct (_ =? 0).
    + intros Hs. apply signal_effect in Hs as (Jf & Hnf & Keep & _); [|done|done]. by apply Keep, G.
    + intros [= <- <-]. by apply G.
  - intros [= <- <-]. apply inv_goto; [|done|done]. rewrite u16_small by lia. split; [|by intros ? [= <-]].
    split; [lia|]. intros j Hj Hij. apply Hfl; [done|lia].
Qed.

(** The next index of a loop of the send. *)
Lemma inv_next c f s p : cpu c -> inv s -> job_at s c = Some (job_of f) -> sending p = Some f ->
  place_ok (ipc_ack_array s) c p -> inv (goto c p s).
Proof. intros Hc I J Hp Ok. apply inv_goto; [done| |done]. by rewrite Hp, J. Qed.

Lemma inv_send_step c i f s s' : cpu c -> inv s -> at_ (cpus s c) = Enqueueing f i ->
  send_step N c i f s = Ok s' -> inv s'.
Proof using HN.
  intros Hc I Ea. assert (J : job_at s c = Some (job_of f)) by (unfold job_at; by rewrite Ea).
  destruct (inv_place _ I c Hc) as [Hp Hn]. rewrite Ea in Hp, Hn. specialize (Hn f eq_refl). destruct Hp as [Hi Hfl].
  unfold send_step. destruct (Z.ltb_spec i N) as [Hlt|Hge].
  - assert (Next : inv (goto c (Enqueueing f (u16 (i + 1))) s)).
    { apply (inv_next c f); [done..|]. rewrite u16_small by lia. split; [|by intros ? [= <-]]. split; [lia|].
      intros j Hj Hij. apply Hfl; [done|lia]. }
    destruct (Z.eqb_spec i c) as [->|Hic]; [by intros [= <-]|]. intros H. ostep H. destruct r; [|by injection H as <-].
    ostep H. injection H as <-. destruct r as [f' s1]. by apply (inv_send_one c i f s f' s1 Hc ltac:(lia) Hic I Ea).
  - destruct (Z.ltb_spec 0 (num_required_acks f)) as [Hr|Hr]; intros [= <-].
    + apply (inv_next c f); [done..|]. split; [done|]. by intros ? [= <-].
    + apply inv_return; [done..|]. intros j Hj Hb. exfalso.
      destruct (fl_job _ _ _ _ (inv_flight _ I) c _ Hc J) as (_ & _ & R). simpl in R. unfold bits_set in R.
      assert (j ∈ filter (fun j => bit64 (enqueue_flag f) j = true) (seqZ 0 N)) as X
        by (apply list_elem_of_filter; split; [done|apply elem_of_seqZ; lia]).
      destruct (filter _ _) eqn:E in X, R; [by apply not_elem_of_nil in X|]. simpl in R. lia.
Qed.

Lemma inv_count_step c i r f s s' : cpu c -> inv s -> at_ (cpus s c) = Counting f i r ->
  count_step N c i r f s = Ok s' -> inv s'.
Proof using HN.
  intros Hc I Ea. assert (J : job_at s c = Some (job_of f)) by (unfold job_at; by rewrite Ea).
  destruct (inv_place _ I c Hc) as [Hp Hn]. rewrite Ea in Hp, Hn. specialize (Hn f eq_refl). destruct Hp as [Hi Hr].
  unfold count_step. destruct (Z.ltb_spec i N) as [Hlt|Hge].
  - intros [= <-]. apply (inv_next c f); [done..|]. split; [|by intros ? [= <-]]. rewrite u16_small by lia. split; [lia|].
    rewrite acks_before_succ by lia. pose proof (fl_acks _ _ _ _ (inv_flight _ I) (ack_index N c i)).
    split; [apply u32_range|]. etransitivity; [apply Z.mod_le|]; lia.
  - assert (i = N) as -> by lia. destruct (Z.eqb_spec r (num_required_acks f)) as [->|Hne]; intros [= <-].
    + apply inv_return; [done..|]. apply (counted_all _ _ _ _ c (job_of f) (inv_flight _ I) Hc J). simpl. lia.
    + apply (inv_next c f); [done..|]. split; [done|]. by intros ? [= <-].
Qed.

Lemma inv_resend_step c i f s s' : cpu c -> inv s -> at_ (cpus s c) = Resending f i ->
  resend_step N c i f s = Ok s' -> inv s'.
Proof using HN.
  intros Hc I Ea. assert (J : job_at s c = Some (job_of f)) by (unfold job_at; by rewrite Ea).
  destruct (inv_place _ I c Hc) as [Hi Hn]. rewrite Ea in Hi, Hn. specialize (Hn f eq_refl).
  unfold resend_step. destruct (Z.ltb_spec i N) as [Hlt|Hge].
  - intros H. ostep H. destruct (_ && _); injection H as <-; (apply (inv_next c f); [done..|]; split; [|by intros ? [= <-]]); [lia|].
    rewrite u16_small; lia.
  - intros [= <-]. apply (inv_next c f); [done..|]. split; [done|]. by intros ? [= <-].
Qed.

Lemma inv_resignal_step c i f s s' : cpu c -> inv s -> at_ (cpus s c) = Resignal f i ->
  resignal_step c i f s = Ok s' -> inv s'.
Proof using HN.
  intros Hc I Ea. assert (J : job_at s c = Some (job_of f)) by (unfold job_at; by rewrite Ea).
  destruct (inv_place _ I c Hc) as [Hi Hn]. rewrite Ea in Hi, Hn. specialize (Hn f eq_refl).
  assert (Next : forall f', job_of f' = job_of f -> length (nmi_accounted_flag f') = 2%nat -> inv (goto c (Resending f' (u16 (i + 1))) s)).
  { intros f' Jf Hl. apply (inv_next c f'); [done|done|by rewrite Jf|done|]. split; [|by intros ? [= <-]]. rewrite u16_small; lia. }
  unfold resignal_step. destruct (is_active s i); [|intros [= <-]; rewrite goto_emit; by apply inv_emit, Next].
  intros H. ostep H. ostep H. injection H as <-. destruct (_ =? 0).
  - destruct r0 as [f' s1]. apply signal_effect in E0 as (Jf & Hl & Keep & _); [|done|lia]. simpl. by apply Keep, Next.
  - injection E0 as <-. simpl. rewrite goto_emit. by apply inv_emit, Next.
Qed.

(** *** Every step *)

(** A processor that is in no send goes elsewhere, or leaves an exit. *)
Lemma inv_goto_none c p s : sending p = None -> job_at s c = None -> inv s -> inv (goto c p s).
Proof. intros Hp J. apply inv_goto; [|by rewrite Hp]. destruct p; try done; split; done. Qed.

Lemma decision_effect c s b s' : dispatcher_decision N c s = (b, s') -> (inv s -> inv s') /\ cpus s' = cpus s.
Proof.
  unfold dispatcher_decision. destruct (0 <? _); [intros [= _ <-]; split; [apply inv_count|done]|].
  destruct (_ && _); intros [= _ <-]; [|done]. unfold nmi_raise_this. destruct (N <=? c); (split; [|done]).
  - apply inv_count.
  - intros I. by apply inv_set_nmi, inv_count.
Qed.

Lemma inv_clear_counters c s : inv s -> inv (clear_nmi_counters c s).
Proof. intros I. unfold clear_nmi_counters. simpl. by repeat apply inv_count. Qed.

Lemma inv_exit_end c k s : cpu c -> at_ (cpus s c) = Exit k -> inv s -> inv (exit_end N c k s).
Proof.
  intros Hc Ea I. assert (J : job_at s c = None) by (unfold job_at; by rewrite Ea).
  assert (D : forall b s', dispatcher_decision N c s = (b, s') -> inv (goto c Outside (emit (EvExit c (negb b)) s'))).
  { intros b s' E. destruct (decision_effect c s b s' E) as [It Ct]. rewrite goto_emit. apply inv_emit; [done|].
    apply inv_goto_none; [done| |by apply It]. unfold job_at. by rewrite Ct, Ea. }
  destruct k; simpl; [destruct (dispatcher_decision N c s); by apply D..|].
  rewrite goto_emit. apply inv_emit; [done|]. apply inv_goto_none; [done|done|by apply inv_clear_counters].
Qed.

Lemma inv_continue c s s' : cpu c -> inv s -> continue_step N c s = Ok s' -> inv s'.
Proof using HN.
  intros Hc I. unfold continue_step. destruct (at_ (cpus s c)) as [|f i|f|f i r|f i|f i|k] eqn:Ea.
  - by intros [= <-].
  - by apply inv_send_step.
  - intros H. ostep H. destruct r as [b t]. pose proof (inv_process_one c s b t Hc I E) as It. simpl in H.
    destruct b; injection H as <-; [done|].
    assert (t = s) as ->.
    { revert E. unfold ipc_process_one_ipc. destruct (ipc_dequeue_message c s) as [[m|] u] eqn:D.
      - intros H. ostep H. done.
      - intros [= <-]. unfold ipc_dequeue_message in D. destruct (queue s c); congruence. }
    apply (inv_next c f); [done|done|unfold job_at; by rewrite Ea|done|].
    pose proof (inv_place _ I c Hc) as [_ Hn]. rewrite Ea in Hn. split; [|exact Hn]. split; [lia|]. done.
  - by apply inv_count_step.
  - by apply inv_resend_step.
  - by apply inv_resignal_step.
  - intros [= <-]. by apply inv_exit_end.
Qed.

Lemma inv_exec c a s s' : cpu c -> inv s -> exec N c a s = Ok s' -> inv s'.
Proof using HN.
  intros Hc I. unfold exec.
  assert (Isr : inv (ipc_nmi_interrupt_handler c s)) by (apply inv_emit; [done|by apply inv_count]).
  assert (One : forall o, (r ← ipc_process_one_ipc c s; Ok r.2) = Ok o -> inv o).
  { intros o H. ostep H. injection H as <-. destruct r as [b t]. by apply (inv_process_one c s b t). }
  destruct (frames (cpus s c)) as [|fr fs] eqn:Ef.
  - destruct (at_ (cpus s c)) as [|f i|f|f i r|f i|f i|k] eqn:Ea.
    + assert (J : job_at s c = None) by (unfold job_at; by rewrite Ea).
      destruct a; cbn [is_outside]; try (by intros [= <-]); try (by apply One).
      * intros [= <-]. set (t := emit _ s). assert (It : inv t) by by apply inv_emit. by destruct sync; apply inv_send_message.
      * by apply inv_continue.
      * apply inv_process_all; [done|]. apply inv_goto_none; [done|done|by apply inv_count].
      * apply inv_process_all; [done|]. apply inv_goto_none; [done|done|by apply inv_emit].
      * unfold ipc_sipi_vmexit_handler. destruct (vector =? 0xFF); [|intros [= <-]; by apply inv_emit].
        apply inv_process_all; [done|]. by apply inv_goto_none.
      * intros [= <-]. unfold ipc_change_state_to_active. destruct (is_active s c); [done|by apply inv_set_activity].
      * intros [= <-]. unfold ipc_change_state_to_sipi. destruct (bool_decide _); [done|]. by apply inv_emit, inv_set_activity.
      * intros [= <-]. by apply inv_count.
      * intros [= <-]. by apply inv_set_not_resend.
    + destruct a; cbn [is_outside]; try (by intros [= <-]); by apply inv_continue.
    + destruct a; cbn [is_outside]; try (by intros [= <-]); [by apply inv_continue|]. intros [= <-].
      apply (inv_next c f); [done|done|unfold job_at; by rewrite Ea|done|].
      pose proof (inv_place _ I c Hc) as [_ Hn]. rewrite Ea in Hn. split; [simpl; lia|exact Hn].
    + destruct a; cbn [is_outside]; try (by intros [= <-]); by apply inv_continue.
    + destruct a; cbn [is_outside]; try (by intros [= <-]); by apply inv_continue.
    + destruct a; cbn [is_outside]; try (by intros [= <-]); by apply inv_continue.
    + destruct a; cbn [is_outside]; try (by intros [= <-]); by apply inv_continue.
  - destruct a; try (by intros [= <-]); [by apply One|by apply inv_handler_return].
Qed.

Definition on_cpus (acts : list (Z * action)) : Prop := Forall (fun x => cpu x.1) acts.

Lemma inv_run acts s s' : on_cpus acts -> inv s -> run N acts s = Ok s' -> inv s'.
Proof using HN.
  intros Hon. revert s. induction Hon as [|[c a] acts Hc Hon IH]; intros s I H; [by injection H as <-|].
  simpl in H. ostep H. apply (IH r); [|done]. by apply (inv_exec c a s).
Qed.

Lemma inv_start : inv ipc_start.
Proof.
  assert (forall c, job_at ipc_start c = None) as J by done. split.
  - split; try (intros; by rewrite ?J in * ); try done.
    + intros j m Hj Hm. by apply not_elem_of_nil in Hm.
    + intros j m Hj Hm. by apply not_elem_of_nil in Hm.
  - split; try done. intros l1 c n l2 E. by destruct l1.
  - intros c Hc. split; done.
Qed.

End Invariant.

(** * What the runs show *)

(** C14. In every interleaving of the steps of the processors, whatever they send, serve, resend and
    whatever NMIs arrive, each processor receives the messages that were put into its queue once and in the
    order in which they were put there, and the queue never holds as many messages as it has places, so no
    message is refused. A step is one critical section of a queue's lock, or one access outside of them: these
    are the interleavings in which the locks exclude, that is, in which no processor touches a lock's word
    during another's compare-exchange. The compare-exchange of the source does not ensure that by itself
    (lock_mutual_exclusion and lock_mutual_exclusion_fails of Lock). *)
Theorem ipc_queues_fifo (N : Z) (acts : list (Z * action)) (s : ipc) : 0 < N <= 80 -> on_cpus N acts ->
  run N acts ipc_start = Ok s -> forall j, 0 <= j < N ->
  sent_to j (log s) = received_by j (log s) ++ queue s j /\
  Z.of_nat (length (queue s j)) < ipc_get_max_pending_messages N.
Proof.
  intros HN Hon E j Hj. pose proof (inv_run N HN acts _ _ Hon (inv_start N) E) as I. split.
  - apply (lg_queue N _ _ _ _ (inv_log N _ I)).
  - pose proof (queue_bound N HN _ _ _ _ j (inv_flight N _ I) Hj). unfold ipc_get_max_pending_messages. lia.
Qed.

(** Two processors send to all others at the same time, one of them synchronously. *)
Definition to_all : IPC_DESTINATION := mk_dst IPI_DST_ALL_EXCLUDING_SELF 0 [0; 0].
Definition crossing_sends : list (Z * action) :=
  [(0, ToActive); (1, ToActive); (2, ToActive);
   (0, Send false to_all IPC_TYPE_NORMAL 77 5); (1, Send true to_all IPC_TYPE_NORMAL 78 6)] ++
  replicate 4 (0, Continue) ++ replicate 4 (1, Continue) ++ [(1, Continue); (1, HandlerReturn)] ++
  [(2, NmiExit); (2, HandlerReturn); (2, HandlerReturn); (2, Continue); (0, Continue); (0, HandlerReturn)] ++
  replicate 4 (0, Continue) ++ replicate 4 (1, Continue).

Definition end_of (o : outcome ipc) : ipc := match o with Ok s => s | _ => ipc_start end.

Lemma end_of_ok o : (match o with Ok _ => true | _ => false end) = true -> o = Ok (end_of o).
Proof. by destruct o. Qed.

Lemma crossing_on_cpus : on_cpus 3 crossing_sends.
Proof. unfold on_cpus. repeat (apply Forall_cons; split; [simpl; lia|]). apply Forall_nil. exact I. Qed.

Lemma ipc_queues_fifo_witness :
  sent_to 2 (log (end_of (run 3 crossing_sends ipc_start)))
  = received_by 2 (log (end_of (run 3 crossing_sends ipc_start))) ++ queue (end_of (run 3 crossing_sends ipc_start)) 2 /\
  Z.of_nat (length (queue (end_of (run 3 crossing_sends ipc_start)) 2)) < 3.
Proof.
  apply (ipc_queues_fifo 3 crossing_sends); [lia|exact crossing_on_cpus|apply end_of_ok; vm_compute; reflexivity|lia].
Defined.
