(* ===== verification/IpcCall.v ===== *)
(** ipc_send_message and ipc_send_message_sync seen from the caller: which processors a call reaches, with
    which message, and what has happened there when it returns. *)

From stdpp Require Import functions.
From S2P Require Import Prelude VmmDefs Lock Ipc IpcSpec.

Section Calls.
Context (N : Z) (HN : 0 < N <= 80).
Notation cpu j := (0 <= j < N).

(** The processors that a destination names; the sender is never one of them. *)
Definition named (dst : IPC_DESTINATION) (j : Z) : bool :=
  if addr_shorthand dst =? IPI_DST_ALL_EXCLUDING_SELF then true
  else if addr_shorthand dst =? IPI_DST_NO_SHORTHAND then addr dst =? j
  else if addr_shorthand dst =? IPI_DST_CORE_ID_BITMAP then bit64 (CoreBitMap dst) j else false.

(** The arguments of the last call of [c]. *)
Fixpoint called (c : Z) (l : list event) : option call :=
  match l with
  | [] => None
  | e :: l' =>
      if decide (e = EvStart c) then
        match l' with EvCall c' k :: _ => if decide (c' = c) then Some k else None | _ => None end
      else called c l'
  end.

(** What a call with arguments [k] that returns after the events [l] has done. *)
Definition answered (c : Z) (k : call) (l : list event) : Prop :=
  (forall j m, (j, m) ∈ targets c l ->
     named (c_dst k) j = true /\ type m = c_type k /\ handler m = c_handler k /\ arg m = c_arg k /\
     (c_sync k = true -> EvFinish j m ∈ since c l)) /\
  (forall j, cpu j -> j <> c -> named (c_dst k) j = true -> c_type k = IPC_TYPE_NORMAL \/ c_type k = IPC_TYPE_STOP ->
     j ∈ c_ready k -> j ∈ (targets c l).*1).

(** ** The invariant *)

(** The processors that the loop over the destinations has passed. *)
Definition passed (p : place) : Z := match p with Enqueueing _ i => i | _ => N end.

Definition wants (f : send) (k : call) : Prop :=
  wait_for_handler_finish f = c_sync k /\ s_dst f = c_dst k /\ s_type f = c_type k /\ s_handler f = c_handler k /\ s_arg f = c_arg k.

(** The send [f] of [c], at [p], does what the call [k] asks. *)
Record serves (s : ipc) (c : Z) (p : place) (f : send) (k : call) : Prop := {
  sv_wants : wants f k;
  sv_ok : send_ok (c_dst k) (c_type k) = true;
  sv_ready j : j ∈ c_ready k -> is_not_active s j = false;
  sv_named j : cpu j -> bit64 (enqueue_flag f) j = true -> named (c_dst k) j = true;
  sv_sent j : cpu j -> j <> c -> named (c_dst k) j = true -> c_type k = IPC_TYPE_NORMAL \/ c_type k = IPC_TYPE_STOP ->
    j ∈ c_ready k -> j < passed p -> bit64 (enqueue_flag f) j = true }.

Record call_inv (s : ipc) : Prop := {
  ci_send c f : cpu c -> sending (at_ (cpus s c)) = Some f -> exists k, called c (log s) = Some k /\ serves s c (at_ (cpus s c)) f k;
  ci_return l1 c n l2 : log s = l1 ++ EvReturn c n :: l2 -> exists k, called c l2 = Some k /\ answered c k l2 }.

(** ** Steps that are not of the senders *)

Definition calm_event (e : event) : Prop := match e with EvStart _ | EvReturn _ _ => False | _ => True end.
Definition quiet_step (s s' : ipc) : Prop :=
  (exists es, log s' = es ++ log s /\ Forall calm_event es) /\ (forall d, at_ (cpus s' d) = at_ (cpus s d)) /\
  (forall j, is_not_active s' j = true -> is_not_active s j = true).

Lemma quiet_refl s : quiet_step s s.
Proof. split; [by exists []|done]. Qed.
Lemma quiet_trans s1 s2 s3 : quiet_step s1 s2 -> quiet_step s2 s3 -> quiet_step s1 s3.
Proof.
  intros ((e1 & L1 & C1) & A1 & N1) ((e2 & L2 & C2) & A2 & N2). split; [|split].
  - exists (e2 ++ e1). split; [by rewrite L2, L1, app_assoc|by apply Forall_app].
  - intros d. by rewrite A2.
  - auto.
Qed.
Lemma quiet_same s s' : log s' = log s -> (forall d, at_ (cpus s' d) = at_ (cpus s d)) -> cpu_activity_state s' = cpu_activity_state s -> quiet_step s s'.
Proof. intros L A C. split; [by exists []|]. split; [done|]. intros j. unfold is_not_active. by rewrite C. Qed.
Lemma quiet_emit e s : calm_event e -> quiet_step s (emit e s).
Proof. intros H. split; [exists [e]; split; [done|by constructor]|]. done. Qed.

Lemma called_app c es l : Forall calm_event es -> called c (es ++ l) = called c l.
Proof.
  induction 1 as [|e es He Hes IH]; [done|]. cbn [app called]. rewrite decide_False by (intros ->; done). exact IH.
Qed.
Lemma returns_app es l l1 c n l2 : Forall calm_event es -> es ++ l = l1 ++ EvReturn c n :: l2 -> exists l1', l = l1' ++ EvReturn c n :: l2.
Proof.
  intros Hes. revert l1. induction Hes as [|e es He Hes IH]; intros l1 E; [by exists l1|].
  destruct l1 as [|e1 l1]; cbn [app] in E; injection E as E1 E2; [by subst e|]. by apply (IH l1).
Qed.
Lemma serves_mono s s' c p p' f f' k : serves s c p f k -> (forall j, is_not_active s' j = true -> is_not_active s j = true) ->
  wants f' k -> enqueue_flag f' = enqueue_flag f -> passed p' <= passed p -> serves s' c p' f' k.
Proof.
  intros [W O R M S] Hn W' E Hp. split; [done|done| |by rewrite E|].
  - intros j Hj. specialize (R j Hj). destruct (is_not_active s' j) eqn:X; [|done]. apply Hn in X. congruence.
  - intros j H1 H2 H3 H4 H5 H6. rewrite E. apply S; [done..|lia].
Qed.

Lemma call_quiet s s' : call_inv s -> quiet_step s s' -> call_inv s'.
Proof.
  intros [S R] ((es & L & C) & A & Nn). split.
  - intros c f Hc Hf. rewrite A in *. destruct (S c f Hc Hf) as (k & Ek & Sv). exists k. rewrite L, called_app by done.
    split; [done|]. eapply serves_mono; [exact Sv|done|apply Sv|done|lia].
  - intros l1 c n l2 E. rewrite L in E. destruct (returns_app es _ _ _ _ _ C E) as [l1' E']. by apply (R l1' c n).
Qed.

(** The processor goes on in the send it is in, or leaves for another place. *)
Lemma call_goto c p s : call_inv s ->
  (forall f, cpu c -> sending p = Some f -> exists k, called c (log s) = Some k /\ serves s c p f k) -> call_inv (goto c p s).
Proof.
  intros [S R] Hp. split; [|exact R]. intros d f Hd. rewrite at_goto. destruct (decide (c = d)) as [<-|].
  - intros Hf. destruct (Hp f Hd Hf) as (k & Ek & [W Okk Re M Se]). exists k. split; [done|]. by split.
  - intros Hf. destruct (S d f Hd Hf) as (k & Ek & [W Okk Re M Se]). exists k. split; [done|]. by split.
Qed.
Lemma call_leave c p s : sending p = None -> call_inv s -> call_inv (goto c p s).
Proof. intros Hp I. apply call_goto; [done|]. intros f _. by rewrite Hp. Qed.
(** The same send at another place. *)
Lemma call_move c p p' f f' s : call_inv s -> at_ (cpus s c) = p -> sending p = Some f -> sending p' = Some f' ->
  wait_for_handler_finish f' = wait_for_handler_finish f -> s_dst f' = s_dst f -> s_type f' = s_type f -> s_handler f' = s_handler f ->
  s_arg f' = s_arg f -> enqueue_flag f' = enqueue_flag f -> passed p' <= passed p -> call_inv (goto c p' s).
Proof.
  intros I Ep Hf Hf' E1 E2 E3 E4 E5 E6 Hp. apply call_goto; [done|]. intros g Hc Hg. rewrite Hf' in Hg. injection Hg as <-.
  destruct (ci_send _ I c f Hc ltac:(by rewrite Ep)) as (k & Ek & Sv). exists k. split; [done|]. rewrite Ep in Sv.
  eapply serves_mono; [exact Sv|done| |done|done]. destruct (sv_wants _ _ _ _ _ Sv) as (W1 & W2 & W3 & W4 & W5).
  unfold wants. by rewrite E1, E2, E3, E4, E5.
Qed.

(** ** Receiving *)

Lemma set_frames_quiet c fs s : quiet_step s (set_frames c fs s).
Proof. apply quiet_same; [done|apply at_set_frames|done]. Qed.
Lemma count_quiet j k x s : quiet_step s (set_count j k x s).
Proof. by apply quiet_same. Qed.
Lemma processed_quiet c s : quiet_step s (processed_nmi c s).
Proof. eapply quiet_trans; apply count_quiet. Qed.
Lemma dequeue_quiet c s o s' : ipc_dequeue_message c s = (o, s') -> quiet_step s s'.
Proof.
  destruct o as [m|].
  - intros E. destruct (dequeue_effect c s m s' E) as (r & _ & _ & C & _ & L & A). split; [exists [EvReceive c m]; split; [done|by constructor]|].
    split; [by rewrite C|]. intros j. unfold is_not_active. by rewrite A.
  - unfold ipc_dequeue_message. destruct (queue s c); [|done]. intros [= <-]. apply quiet_refl.
Qed.
Lemma handler_quiet c fr s s' : call_handler c fr s = Ok s' -> quiet_step s s'.
Proof. unfold call_handler. destruct (_ =? 0); [done|]. intros [= <-]. apply set_frames_quiet. Qed.
Lemma process_one_quiet c s b s' : ipc_process_one_ipc c s = Ok (b, s') -> quiet_step s s'.
Proof.
  unfold ipc_process_one_ipc. destruct (ipc_dequeue_message c s) as [[m|] t] eqn:E; apply dequeue_quiet in E.
  - intros H. ostep H. injection H as _ <-. eapply quiet_trans; [exact E|]. eapply quiet_trans; [|by eapply handler_quiet].
    destruct (_ && _); [apply processed_quiet|apply quiet_refl].
  - by intros [= _ <-].
Qed.
Lemma process_next_quiet c nmi s s' : process_next c nmi s = Ok s' -> quiet_step s s'.
Proof.
  unfold process_next. destruct (ipc_dequeue_message c s) as [[m|] t] eqn:E; [|done]. apply dequeue_quiet in E.
  intros H. eapply quiet_trans; [exact E|]. eapply quiet_trans; [|by eapply handler_quiet].
  destruct (_ && _); [apply processed_quiet|apply quiet_refl].
Qed.
Lemma process_all_quiet c nmi s s' : ipc_process_all_ipc_messages c nmi s = Ok s' -> quiet_step s s'.
Proof. unfold ipc_process_all_ipc_messages. destruct (_ =? 0); [intros [= <-]; apply quiet_refl|apply process_next_quiet]. Qed.

Lemma call_handler_return c s s' : call_inv s -> handler_return c s = Ok s' -> call_inv s'.
Proof.
  intros I. unfold handler_return. destruct (frames (cpus s c)) as [|fr fs]; [by intros [= <-]|]. set (t := emit _ _).
  assert (Q : quiet_step s t).
  { unfold t. eapply quiet_trans; [|by apply quiet_emit]. destruct (after_handler_ack (f_msg fr)); cbn [ipc_increment_ack].
    - eapply quiet_trans; [apply set_frames_quiet|by apply quiet_same].
    - apply set_frames_quiet. }
  pose proof (call_quiet s t I Q) as It. clearbody t. destruct (f_all fr) as [[nmi last]|].
  - destruct last; [by intros [= <-]|]. intros H. eapply call_quiet; [exact It|by eapply process_next_quiet].
  - destruct fs; [|by intros [= <-]]. destruct (at_ (cpus t c)) as [| |f| | | |] eqn:Ea; try (by intros [= <-]).
    intros [= <-]. by apply (call_move c (Waiting f) _ f f).
Qed.

(** ** Sending *)

Lemma signal_quiet f i s f' s' : signal f i s = Ok (f', s') -> quiet_step s s' /\
  wait_for_handler_finish f' = wait_for_handler_finish f /\ s_dst f' = s_dst f /\ s_type f' = s_type f /\ s_handler f' = s_handler f /\
  s_arg f' = s_arg f /\ enqueue_flag f' = enqueue_flag f.
Proof.
  unfold signal. destruct (is_active s i); intros H; [ostep H|]; injection H as <- <-; (split; [|done]).
  - eapply quiet_trans; [apply count_quiet|by apply quiet_emit].
  - by apply quiet_emit.
Qed.
Lemma preprocess_quiet i ty s b s' : ipc_preprocess_message i ty s = (b, s') -> quiet_step s s' /\
  (ty = IPC_TYPE_NORMAL \/ ty = IPC_TYPE_STOP -> is_not_active s i = false -> b = true).
Proof.
  unfold ipc_preprocess_message, ipc_preprocess_normal_message, ipc_preprocess_start_message, ipc_preprocess_stop_message.
  destruct (Z.eqb_spec ty IPC_TYPE_NORMAL) as [->|]; [intros [= <- <-]; split; [apply quiet_refl|intros _ ->; done]|].
  destruct (Z.eqb_spec ty IPC_TYPE_START) as [->|]; [intros [= <- <-]; split; [apply count_quiet|by intros [?|?]]|].
  destruct (Z.eqb_spec ty IPC_TYPE_STOP) as [->|]; intros [= <- <-]; split; [apply count_quiet|intros _ ->; done|apply quiet_refl|].
  intros [?|?]; done.
Qed.
(** The message for destination [i]: the processor gets it when it is ready. *)
Lemma send_one_quiet c i f s f' s' : length (enqueue_flag f) = 2%nat -> cpu i -> send_one N c i f s = Ok (f', s') -> quiet_step s s' /\
  wait_for_handler_finish f' = wait_for_handler_finish f /\ s_dst f' = s_dst f /\ s_type f' = s_type f /\ s_handler f' = s_handler f /\
  s_arg f' = s_arg f /\ (forall j, cpu j -> j <> i -> bit64 (enqueue_flag f') j = bit64 (enqueue_flag f) j) /\
  (s_type f = IPC_TYPE_NORMAL \/ s_type f = IPC_TYPE_STOP -> is_not_active s i = false -> bit64 (enqueue_flag f') i = true).
Proof using HN.
  intros Hl Hi. unfold send_one. destruct (ipc_preprocess_message i (s_type f) s) as [b t] eqn:E. apply preprocess_quiet in E as [Q Hb].
  destruct b.
  - destruct (bitmap_set (enqueue_flag f) i Hl ltac:(lia)) as (a & -> & Ha & Hbit). rewrite bind_Ok. cbv zeta.
    destruct (if wait_for_handler_finish _ then _ else _) as [before after].
    set (g := mk_send _ _ _ _ _ _ _ _).
    destruct (ipc_enqueue_message N c i (s_type g) (s_handler g) (s_arg g) before after t) as [ok t1] eqn:E1.
    assert (Q1 : quiet_step s t1).
    { eapply quiet_trans; [exact Q|]. revert E1. unfold ipc_enqueue_message. destruct (_ <? _); intros [= _ <-]; [|apply quiet_refl].
      eapply quiet_trans; [|by apply quiet_emit]. by apply quiet_same. }
    assert (Q2 : quiet_step s (count_up i num_of_sent_ipc_messages t1)) by (eapply quiet_trans; [exact Q1|apply count_quiet]).
    assert (B : (forall j, cpu j -> j <> i -> bit64 (enqueue_flag g) j = bit64 (enqueue_flag f) j) /\ bit64 (enqueue_flag g) i = true).
    { unfold g. cbn [enqueue_flag]. split; [intros j Hj Hne; rewrite Hbit by lia; by rewrite (proj2 (Z.eqb_neq j i)) by lia|].
      rewrite Hbit by lia. by rewrite Z.eqb_refl. }
    destruct B as [B1 B2]. destruct (_ =? 0).
    + intros H. apply signal_quiet in H as (Q3 & W1 & W2 & W3 & W4 & W5 & W6). split; [by eapply quiet_trans|].
      rewrite W1, W2, W3, W4, W5, W6. done.
    + intros [= <- <-]. done.
  - intros [= <- <-]. split; [done|]. split_and!; try done. intros H1 H2. by specialize (Hb H1 H2).
Qed.
Lemma bitmap_get_bit a i w : 0 <= i -> BITMAP_ARRAY64_GET a i = Ok w -> (w =? 0) = negb (bit64 a i).
Proof.
  intros Hi. unfold BITMAP_ARRAY64_GET. rewrite bitmap_byte. intros H. ostep H. injection H as <-. apply rd_inv in E as [_ E].
  unfold bit64. rewrite (list_lookup_total_correct _ _ _ E). apply land_one_bit. lia.
Qed.
Lemma destination_named dst ty c i b : ipc_cpu_is_destination dst c i = Ok b -> cpu i -> i <> c -> send_ok dst ty = true -> b = named dst i.
Proof.
  intros H Hi Hne Hok. unfold ipc_cpu_is_destination in H. unfold named. unfold send_ok in Hok. apply andb_true_iff in Hok as [_ Hok].
  destruct (Z.eqb_spec (addr_shorthand dst) IPI_DST_ALL_EXCLUDING_SELF) as [E|_].
  { rewrite E in H. cbn in H. injection H as <-. by rewrite (proj2 (Z.eqb_neq c i)) by lia. }
  destruct (Z.eqb_spec (addr_shorthand dst) IPI_DST_NO_SHORTHAND) as [E|_].
  { rewrite E in H. cbn in H. by injection H as <-. }
  destruct (Z.eqb_spec (addr_shorthand dst) IPI_DST_CORE_ID_BITMAP) as [E|_]; [|done].
  rewrite E in H. cbn -[BITMAP_ARRAY64_GET] in H. ostep H. injection H as <-.
  by rewrite (bitmap_get_bit (CoreBitMap dst) i _ ltac:(lia) E0), negb_involutive.
Qed.

(** The next destination. *)
Lemma call_next c i f f' s s' : inv N s -> call_inv s -> cpu c -> cpu i -> at_ (cpus s c) = Enqueueing f i -> quiet_step s s' ->
  wait_for_handler_finish f' = wait_for_handler_finish f -> s_dst f' = s_dst f -> s_type f' = s_type f -> s_handler f' = s_handler f ->
  s_arg f' = s_arg f -> (forall j, cpu j -> j <> i -> bit64 (enqueue_flag f') j = bit64 (enqueue_flag f) j) ->
  (forall k, called c (log s) = Some k -> serves s c (Enqueueing f i) f k ->
     (bit64 (enqueue_flag f') i = true -> named (c_dst k) i = true) /\
     (i <> c -> named (c_dst k) i = true -> c_type k = IPC_TYPE_NORMAL \/ c_type k = IPC_TYPE_STOP -> i ∈ c_ready k -> bit64 (enqueue_flag f') i = true)) ->
  call_inv (goto c (Enqueueing f' (u16 (i + 1))) s').
Proof using HN.
  intros I CI Hc Hi Ea Q E1 E2 E3 E4 E5 E6 Hk. pose proof (call_quiet s s' CI Q) as CI'. apply call_goto; [done|].
  intros g _ [= <-]. destruct (ci_send _ CI c f Hc ltac:(by rewrite Ea)) as (k & Ek & Sv). rewrite Ea in Sv.
  destruct (Hk k Ek Sv) as [K1 K2]. destruct Q as ((es & L & C) & _ & Nn). exists k. rewrite L, called_app by done. split; [done|].
  destruct Sv as [(W1 & W2 & W3 & W4 & W5) Okk Re M Se]. split.
  - unfold wants. by rewrite E1, E2, E3, E4, E5.
  - done.
  - intros j Hj. specialize (Re j Hj). destruct (is_not_active s' j) eqn:X; [|done]. apply Nn in X. congruence.
  - intros j Hj. destruct (decide (j = i)) as [->|Hne]; [done|]. rewrite E6 by done. by apply M.
  - intros j H1 H2 H3 H4 H5 H6. cbn [passed] in H6. rewrite u16_small in H6 by lia. destruct (decide (j = i)) as [->|Hne]; [by apply K2|].
    rewrite E6 by done. apply Se; try done. cbn [passed]. lia.
Qed.

(** A return: what the send has done is what the call asked. *)
Lemma call_return c f s : inv N s -> call_inv s -> cpu c -> sending (at_ (cpus s c)) = Some f -> passed (at_ (cpus s c)) = N ->
  inv N (goto c Outside (emit (EvReturn c (num_required_acks f)) s)) -> call_inv (goto c Outside (emit (EvReturn c (num_required_acks f)) s)).
Proof.
  intros I CI Hc Hf Hp I'. destruct (ci_send _ CI c f Hc Hf) as (k & Ek & Sv).
  assert (J : job_at s c = Some (job_of f)) by (unfold job_at; by rewrite Hf).
  pose proof (lg_return N _ _ _ _ (inv_log N _ I') [] c (num_required_acks f) (log s) eq_refl) as (_ & _ & Hcomp).
  assert (An : answered c k (log s)).
  { destruct Sv as [(W1 & W2 & W3 & W4 & W5) Okk Re M Se]. split.
    - intros j m Hin. destruct (Hcomp j m Hin) as (Hj & _ & _ & _ & Hfin).
      apply (lg_target N _ _ _ _ (inv_log N _ I) c (job_of f) j m Hc J) in Hin as (_ & Hb & ->).
      split; [by apply M|]. cbn [message type handler arg after_handler_ack job_of j_type j_handler j_arg j_wait] in *.
      split; [done|]. split; [done|]. split; [done|]. intros Hs. apply Hfin. by rewrite W1, Hs.
    - intros j H1 H2 H3 H4 H5. apply list_elem_of_fmap. exists (j, message N (job_of f) c j). split; [done|].
      apply (lg_target N _ _ _ _ (inv_log N _ I) c (job_of f) j _ Hc J). split; [done|]. split; [|done]. apply Se; try done. lia. }
  apply call_leave; [done|]. split.
  - intros d g Hd Hg. cbn [emit log cpus at_] in *. cbn [called]. rewrite decide_False by done.
    destruct (ci_send _ CI d g Hd Hg) as (k' & Ek' & [W Okk Re M Se]). exists k'. by split; [|split].
  - intros l1 d n l2 E. cbn [emit log] in E. destruct l1 as [|e l1]; cbn [app] in E; injection E as E0 E1.
    + subst. by exists k.
    + by apply (ci_return _ CI l1 d n).
Qed.

Lemma call_send_step c i f s s' : inv N s -> call_inv s -> cpu c -> at_ (cpus s c) = Enqueueing f i ->
  send_step N c i f s = Ok s' -> call_inv s'.
Proof using HN.
  intros I CI Hc Ea H. pose proof (inv_send_step N HN c i f s s' Hc I Ea H) as I'.
  destruct (inv_place N _ I c Hc) as [Hp _]. rewrite Ea in Hp. destruct Hp as [Hi Hfl].
  assert (J : job_at s c = Some (job_of f)) by (unfold job_at; by rewrite Ea).
  destruct (fl_job N _ _ _ _ (inv_flight N _ I) c _ Hc J) as (Hl & _ & Hreq).
  unfold send_step in H. destruct (Z.ltb_spec i N) as [Hlt|Hge].
  - assert (Skip : (i = c \/ named (s_dst f) i = false) -> call_inv (goto c (Enqueueing f (u16 (i + 1))) s)).
    { intros Hsk. apply (call_next c i f f s s); try done; [lia|apply quiet_refl|]. intros k Ek Sv. split.
      - rewrite Hfl by lia. done.
      - intros Hne Hn _ _. destruct Hsk as [?|Hsk]; [done|]. destruct (sv_wants _ _ _ _ _ Sv) as (_ & W & _). rewrite W in Hsk. congruence. }
    destruct (Z.eqb_spec i c) as [->|Hic]; [injection H as <-; by apply Skip; left|]. ostep H.
    destruct (ci_send _ CI c f Hc ltac:(by rewrite Ea)) as (k0 & Ek0 & Sv0). rewrite Ea in Sv0.
    destruct (sv_wants _ _ _ _ _ Sv0) as (_ & Wd & Wt & _).
    pose proof (destination_named (s_dst f) (c_type k0) c i r E ltac:(lia) Hic ltac:(rewrite Wd; apply Sv0)) as Er.
    destruct r; [|injection H as <-; apply Skip; by right]. ostep H. injection H as <-. destruct r as [f' s1].
    apply send_one_quiet in E0 as (Q & W1 & W2 & W3 & W4 & W5 & W6 & W7); [|done|lia].
    apply (call_next c i f f' s s1); try done; [lia|]. intros k Ek Sv. rewrite Ek0 in Ek. injection Ek as <-. split.
    + intros _. by rewrite <- Wd.
    + intros _ _ Ht Hr. apply W7; [by rewrite Wt|]. by apply (sv_ready _ _ _ _ _ Sv).
  - assert (i = N) as -> by lia. destruct (0 <? num_required_acks f); injection H as <-.
    + apply (call_move c (Enqueueing f N) _ f f); done.
    + apply call_return; try done; by rewrite Ea.
Qed.

Lemma call_continue c s s' : inv N s -> call_inv s -> cpu c -> continue_step N c s = Ok s' -> call_inv s'.
Proof using HN.
  intros I CI Hc H. pose proof (inv_continue N HN c s s' Hc I H) as I'. unfold continue_step in H.
  destruct (at_ (cpus s c)) as [|f i|f|f i r|f i|f i|k] eqn:Ea.
  - by injection H as <-.
  - by apply (call_send_step c i f s).
  - ostep H. destruct r as [b t]. apply process_one_quiet in E. pose proof (call_quiet s t CI E) as CIt. cbn [fst snd] in H.
    destruct b; injection H as <-; [done|]. apply (call_move c (Waiting f) _ f f); try done. destruct E as (_ & A & _). by rewrite A.
  - unfold count_step in H. destruct (i <? N); [injection H as <-; by apply (call_move c (Counting f i r) _ f f)|].
    destruct (_ =? _); injection H as <-; [|by apply (call_move c (Counting f i r) _ f f)]. apply call_return; try done; by rewrite Ea.
  - unfold resend_step in H. destruct (i <? N); [|injection H as <-; by apply (call_move c (Resending f i) _ f f)].
    ostep H. destruct (_ && _); injection H as <-; by apply (call_move c (Resending f i) _ f f).
  - unfold resignal_step in H. destruct (is_active s i).
    + ostep H. ostep H. injection H as <-. destruct (_ =? 0).
      * destruct r0 as [f' s1]. apply signal_quiet in E0 as (Q & W1 & W2 & W3 & W4 & W5 & W6). cbn [fst snd].
        apply (call_move c (Resignal f i) _ f f'); try done; [by apply (call_quiet s)|]. destruct Q as (_ & A & _). by rewrite A.
      * injection E0 as <-. cbn [fst snd]. apply (call_move c (Resignal f i) _ f f); try done. apply (call_quiet s); [done|by apply quiet_emit].
    + injection H as <-. apply (call_move c (Resignal f i) _ f f); try done. apply (call_quiet s); [done|by apply quiet_emit].
  - injection H as <-. unfold exit_end. destruct k.
    1,2: destruct (dispatcher_decision N c s) as [b t] eqn:E; apply call_leave; [done|]; apply (call_quiet t); [|by apply quiet_emit];
      apply (call_quiet s); [done|]; revert E; unfold dispatcher_decision, nmi_raise_this; destruct (0 <? _); [intros [= _ <-]; apply count_quiet|];
      destruct (_ && _); intros [= _ <-]; [|apply quiet_refl]; (destruct (N <=? c); [apply count_quiet|by apply quiet_same]).
    apply call_leave; [done|]. apply (call_quiet (clear_nmi_counters c s)); [|by apply quiet_emit]. apply (call_quiet s); [done|]. by apply quiet_same.
Qed.

(** A call. *)
Lemma call_send w c dst ty h a s : inv N s -> call_inv s -> cpu c -> sending (at_ (cpus s c)) = None ->
  call_inv (ipc_send_message_gen N w c dst ty h a (emit (EvCall c (mk_call w dst ty h a (ready N s))) s)).
Proof using HN.
  intros I CI Hc Hout. set (k := mk_call w dst ty h a (ready N s)).
  pose proof (call_quiet s (emit (EvCall c k) s) CI (quiet_emit (EvCall c k) s Logic.I)) as CI1.
  set (t := emit (EvCall c k) s) in *. set (u := emit (EvStart c) t).
  assert (Ek : called c (log u) = Some k) by (unfold u, t; cbn [emit log called]; by rewrite !decide_True by done).
  assert (Ret : forall l1 d n l2, log u = l1 ++ EvReturn d n :: l2 -> exists k, called d l2 = Some k /\ answered d k l2).
  { intros l1 d n l2 E. unfold u in E. cbn [emit log] in E. destruct l1 as [|e l1]; [done|]. injection E as _ E. by apply (ci_return _ CI1 l1 d n). }
  assert (Oth : forall d f, d <> c -> cpu d -> sending (at_ (cpus u d)) = Some f -> exists k, called d (log u) = Some k /\ serves u d (at_ (cpus u d)) f k).
  { intros d f Hne Hd Hf. destruct (ci_send _ CI1 d f Hd Hf) as (k' & Ek' & [W Okk Re M Se]). exists k'. split; [|by split].
    unfold u. cbn [emit log called]. rewrite decide_False by congruence. exact Ek'. }
  unfold ipc_send_message_gen. fold u. destruct (send_ok dst ty) eqn:Ok.
  - unfold ipc_execute_send. set (f := mk_send _ _ _ _ _ _ _ _). set (x := clear_row N c u). split; [|exact Ret].
    intros d g Hd. rewrite at_goto. destruct (decide (c = d)) as [<-|Hne].
    + intros [= <-]. exists k. split; [exact Ek|]. split; [done|done| |intros j Hj; unfold f; cbn [enqueue_flag]; by rewrite bit64_zero by lia|].
      * intros j [Hj _]%list_elem_of_filter. exact Hj.
      * intros j H1 _ _ _ _ H2. cbn [passed] in H2. lia.
    + intros Hg. destruct (Oth d g ltac:(congruence) Hd Hg) as (k' & Ek' & [W Okk Re M Se]). exists k'. split; [exact Ek'|by split].
  - assert (An : answered c k (log u)).
    { split; [intros j m Hin; unfold targets in Hin; unfold u in Hin; cbn [emit log] in Hin; rewrite since_start in Hin; by apply not_elem_of_nil in Hin|].
      intros j _ _ Hn Ht _. exfalso. revert Ok. unfold send_ok. cbn [c_dst c_type k] in *.
      assert (Ety : (IPC_TYPE_NORMAL <=? ty) && (ty <? IPC_TYPE_LAST) = true) by (destruct Ht as [-> | ->]; done). rewrite Ety. cbn [andb].
      unfold named in Hn. destruct (_ =? IPI_DST_ALL_EXCLUDING_SELF); [done|]. destruct (_ =? IPI_DST_NO_SHORTHAND); [done|].
      by destruct (_ =? IPI_DST_CORE_ID_BITMAP). }
    split.
    + intros d g Hd Hg. destruct (decide (d = c)) as [->|Hne].
      * change (cpus (emit _ u) c) with (cpus s c) in Hg. congruence.
      * destruct (Oth d g Hne Hd Hg) as (k' & Ek' & [W Okk Re M Se]). exists k'. cbn [emit log called]. rewrite decide_False by done. split; [done|by split].
    + intros l1 d n l2 E. cbn [emit log] in E. destruct l1 as [|e l1]; cbn [app] in E; injection E as E0 E1; [|by apply (Ret l1 d n)].
      subst. by exists k.
Qed.

Lemma call_exec c a s s' : inv N s -> call_inv s -> cpu c -> exec N c a s = Ok s' -> call_inv s'.
Proof using HN.
  intros I CI Hc. unfold exec.
  assert (Isr : call_inv (ipc_nmi_interrupt_handler c s)).
  { apply (call_quiet s); [done|]. eapply quiet_trans; [apply count_quiet|by apply quiet_emit]. }
  assert (One : forall o, (r ← ipc_process_one_ipc c s; Ok r.2) = Ok o -> call_inv o).
  { intros o H. ostep H. injection H as <-. destruct r as [b t]. apply (call_quiet s); [done|by eapply process_one_quiet]. }
  destruct (frames (cpus s c)) as [|fr fs].
  - destruct a; cbn [is_outside]; try (destruct (is_outside (at_ (cpus s c))) eqn:Eo; [|by intros [= <-]]); try (by intros [= <-]); try (by apply One).
    + intros [= <-]. assert (Hout : sending (at_ (cpus s c)) = None) by by destruct (at_ (cpus s c)).
      destruct sync; by apply call_send.
    + intros H. by apply (call_continue c s).
    + destruct (at_ (cpus s c)) as [|f i|f|f i r|f i|f i|k] eqn:Ea; try (by intros [= <-]). intros [= <-]. by apply (call_move c (Waiting f) _ f f).
    + intros H. eapply call_quiet; [|by eapply process_all_quiet]. apply call_leave; [done|]. apply (call_quiet s); [done|apply count_quiet].
    + intros H. eapply call_quiet; [|by eapply process_all_quiet]. apply call_leave; [done|]. apply (call_quiet s); [done|by apply quiet_emit].
    + unfold ipc_sipi_vmexit_handler. destruct (vector =? 0xFF); [|intros [= <-]; apply (call_quiet s); [done|by apply quiet_emit]].
      intros H. eapply call_quiet; [|by eapply process_all_quiet]. by apply call_leave.
    + intros [= <-]. unfold ipc_change_state_to_active. destruct (is_active s c); [done|]. apply (call_quiet s); [done|].
      split; [by exists []|]. split; [done|]. intros j. unfold is_not_active, set_activity. cbn [cpu_activity_state]. rewrite fn_insert_case.
      destruct (decide (c = j)); [|done]. by rewrite bool_decide_false.
    + intros [= <-]. unfold ipc_change_state_to_sipi. destruct (bool_decide _); [done|]. apply (call_quiet s); [done|].
      eapply quiet_trans; [|by apply quiet_emit]. split; [by exists []|]. split; [done|]. intros j. unfold is_not_active, set_activity.
      cbn [cpu_activity_state]. rewrite fn_insert_case. destruct (decide (c = j)); [|done]. by rewrite bool_decide_false.
    + intros [= <-]. apply (call_quiet s); [done|apply count_quiet].
    + intros [= <-]. apply (call_quiet s); [done|by apply quiet_same].
  - destruct a; try (by intros [= <-]); [by apply One|]. by apply call_handler_return.
Qed.

Lemma call_run acts s s' : on_cpus N acts -> inv N s -> call_inv s -> run N acts s = Ok s' -> call_inv s'.
Proof using HN.
  intros Hon. revert s. induction Hon as [|[c a] acts Hc Hon IH]; intros s I CI H; [by injection H as <-|].
  simpl in H. ostep H. apply (IH r); [by apply (inv_exec N HN c a s)|by apply (call_exec c a s)|done].
Qed.
Lemma call_start : call_inv ipc_start.
Proof. split; [done|]. intros l1 c n l2 E. by destruct l1. Qed.
End Calls.

(** C11. In every interleaving of the steps of the processors, whenever a call returns, with the arguments [k]
    of that call: the value is the number of processors to which the call sent its message; these are
    different processors, not the sender, and named by the destination; they are all that the destination
    names, other than the sender, and that were ready when the call was made, for messages of type NORMAL and
    STOP; each message has the type, handler and argument of the call; each of the processors has taken the
    message since the call; and for ipc_send_message_sync each has finished the handler since the call. A step
    is one critical section of a queue's lock: these are the interleavings in which the locks exclude, that
    is, in which no processor touches a lock's word during another's compare-exchange (lock_mutual_exclusion
    and lock_mutual_exclusion_fails of Lock). *)
Theorem ipc_send_returns (N : Z) (acts : list (Z * action)) (s : ipc) : 0 < N <= 80 -> on_cpus N acts ->
  run N acts ipc_start = Ok s -> forall l1 c n l2, log s = l1 ++ EvReturn c n :: l2 ->
  complete N c n l2 /\ exists k, called c l2 = Some k /\ answered N c k l2.
Proof.
  intros HN Hon E l1 c n l2 El. pose proof (inv_run N HN acts _ _ Hon (inv_start N) E) as I. split.
  - by apply (lg_return N _ _ _ _ (inv_log N _ I) l1 c n l2).
  - by apply (ci_return N _ (call_run N HN acts _ _ Hon (inv_start N) (call_start N) E) l1 c n).
Qed.

(** Processor 1 has sent synchronously to 0 and 2, and both have run the handler. *)
Lemma ipc_send_returns_witness : exists l,
  log (end_of (run 3 crossing_sends ipc_start)) = EvReturn 1 2 :: l /\ complete 3 1 2 l /\
  called 1 l = Some (mk_call true to_all IPC_TYPE_NORMAL 78 6 [0; 1; 2]) /\
  answered 3 1 (mk_call true to_all IPC_TYPE_NORMAL 78 6 [0; 1; 2]) l.
Proof.
  eexists. split; [vm_compute; reflexivity|].
  destruct (ipc_send_returns 3 crossing_sends (end_of (run 3 crossing_sends ipc_start)) ltac:(lia) crossing_on_cpus
    (end_of_ok (run 3 crossing_sends ipc_start) ltac:(vm_compute; reflexivity)) [] 1 2 _ ltac:(vm_compute; reflexivity)) as (C & k & Ek & A).
  split; [exact C|].
  assert (Hk : k = mk_call true to_all IPC_TYPE_NORMAL 78 6 [0; 1; 2]) by (vm_compute in Ek; injection Ek as <-; reflexivity).
  rewrite <- Hk. split; [exact Ek|exact A].
Defined.
