(* ===== verification/IpcLive.v ===== *)
(** No deadlock: when the handlers of the messages serve no messages themselves inside
    ipc_process_all_ipc_messages, no step of Ipc faults, and from every state that a run reaches
    the processors can complete all sends and empty all queues. *)

From stdpp Require Import functions.
From S2P Require Import Prelude VmmDefs Lock Ipc IpcSpec.

Section Live.
Context (N : Z) (HN : 0 < N <= 80).
Notation cpu c := (0 <= c < N).

(** What a step does to the code and to the queues. *)
Definition effect (s s' : ipc) (cp : Z -> code) (q : Z -> list IPC_MESSAGE) : Prop :=
  (forall d, cpus s' d = cp d) /\ (forall j, queue s' j = q j).

Lemma effect_code c x s : effect s (set_code c x s) (<[c := x]> (cpus s)) (queue s).
Proof. done. Qed.

(** ** Clients that keep the rules *)

(** The callers of ipc_send_message pass a bitmap of the declared size and a handler. *)
Definition client_ok (a : action) : Prop :=
  match a with
  | Send _ dst ty h _ => length (CoreBitMap dst) = 2%nat /\ (h <> 0 \/ ty = IPC_TYPE_START)
  | _ => True
  end.

(** A handler called by ipc_process_all_ipc_messages serves no messages itself. *)
Definition flat (s : ipc) (x : Z * action) : Prop :=
  x.2 = ProcessOne -> Forall (fun fr => f_all fr = None) (frames (cpus s x.1)).

(** A run of such clients. *)
Fixpoint kept (acts : list (Z * action)) (s : ipc) : Prop :=
  match acts with
  | [] => True
  | x :: acts' => cpu x.1 /\ client_ok x.2 /\ flat s x /\ forall s', exec N x.1 x.2 s = Ok s' -> kept acts' s'
  end.

Definition frames_ok (p : place) (fs : list frame) (q : list IPC_MESSAGE) : Prop :=
  match p with
  | Outside | Waiting _ => Forall (fun fr => f_all fr = None) fs
  | Exit _ => fs = [] \/ exists m nmi last, fs = [mk_frame m (Some (nmi, last))] /\ (last = false -> q <> [])
  | _ => fs = []
  end.

Definition client_send (f : send) : Prop :=
  length (CoreBitMap (s_dst f)) = 2%nat /\ (s_handler f <> 0 \/ s_type f = IPC_TYPE_START).

Record calm (cp : Z -> code) (q : Z -> list IPC_MESSAGE) : Prop := {
  cm_queue j : cpu j -> Forall (fun m => handler m <> 0) (q j);
  cm_send c f : cpu c -> sending (at_ (cp c)) = Some f -> client_send f;
  cm_frames c : cpu c -> frames_ok (at_ (cp c)) (frames (cp c)) (q c) }.

Lemma calm_ext cp q cp' q' : (forall d, cp' d = cp d) -> (forall j, q' j = q j) -> calm cp q -> calm cp' q'.
Proof.
  intros C Q [H1 H2 H3]. split.
  - intros j. rewrite Q. apply H1.
  - intros c f. rewrite C. apply H2.
  - intros c. rewrite C, Q. apply H3.
Qed.

Lemma calm_code c x cp q : calm cp q -> (forall f, sending (at_ x) = Some f -> client_send f) ->
  frames_ok (at_ x) (frames x) (q c) -> calm (<[c := x]> cp) q.
Proof.
  intros [H1 H2 H3] Hs Hf. split; [done|..].
  - intros d f. rewrite fn_insert_case. destruct (decide (c = d)); [intros _; apply Hs|apply H2].
  - intros d. rewrite fn_insert_case. destruct (decide (c = d)) as [<-|]; [done|apply H3].
Qed.

(** A processor takes messages out of its queue. *)
Lemma calm_take c x r cp q : calm cp q -> (forall f, sending (at_ x) = Some f -> client_send f) ->
  frames_ok (at_ x) (frames x) r -> (cpu c -> Forall (fun m => handler m <> 0) r) ->
  calm (<[c := x]> cp) (<[c := r]> q).
Proof.
  intros [H1 H2 H3] Hs Hf Hr. split.
  - intros i Hi. rewrite fn_insert_case. destruct (decide (c = i)) as [<-|]; [by apply Hr|by apply H1].
  - intros d f. rewrite fn_insert_case. destruct (decide (c = d)); [intros _; apply Hs|apply H2].
  - intros d. rewrite !fn_insert_case. destruct (decide (c = d)) as [<-|]; [done|apply H3].
Qed.

(** A message is put into the queue of [j]. *)
Lemma calm_push j m cp q : calm cp q -> handler m <> 0 -> calm cp (<[j := q j ++ [m]]> q).
Proof.
  intros [H1 H2 H3] Hm. split; [|done|].
  - intros i Hi. rewrite fn_insert_case. destruct (decide (j = i)) as [<-|]; [|by apply H1].
    apply Forall_app. split; [by apply H1|by apply Forall_singleton].
  - intros c Hc. specialize (H3 c Hc). rewrite fn_insert_case. destruct (decide (j = c)) as [<-|]; [|done].
    destruct (at_ (cp j)); try done. destruct H3 as [H3|(m' & nmi & last & Hf & Hl)]; [by left|].
    right. exists m', nmi, last. split; [done|]. intros _. by destruct (q j).
Qed.

(** ** The effect of each step *)

(** Where the handler of [m] runs on [c]. *)
Definition calling (cp : Z -> code) (c : Z) (fr : frame) : Z -> code :=
  <[c := mk_code (at_ (cp c)) (fr :: frames (cp c))]> cp.

Lemma call_effect c s m s1 x t : ipc_dequeue_message c s = (Some m, s1) -> handler m <> 0 ->
  t = s1 \/ t = processed_nmi c s1 -> exists r s', queue s c = m :: r /\ call_handler c (mk_frame m x) t = Ok s' /\
    effect s s' (calling (cpus s) c (mk_frame m x)) (<[c := r]> (queue s)).
Proof.
  intros E Hm Ht. destruct (dequeue_effect c s m s1 E) as (r & Eq & Q & C & _). exists r. unfold call_handler. simpl.
  rewrite (proj2 (Z.eqb_neq _ 0) Hm). eexists. split; [done|]. split; [done|].
  assert (cpus t = cpus s) as Ct by (destruct Ht as [-> | ->]; [done|by rewrite <- C]).
  split.
  - intros d. unfold set_frames, set_code, calling. simpl. by rewrite Ct.
  - intros j. rewrite <- Q. unfold set_frames, set_code. destruct Ht as [-> | ->]; [done|].
    etransitivity; [apply queue_set_count|apply queue_set_count].
Qed.

Lemma dequeue_some c s m r : queue s c = m :: r -> exists s1, ipc_dequeue_message c s = (Some m, s1) /\ queue s1 c = r.
Proof.
  intros E. unfold ipc_dequeue_message at 1. rewrite E. eexists. split; [done|].
  etransitivity; [apply queue_set_count|].
  destruct (before_handler_ack m); simpl; (etransitivity; [apply queue_set_queue|apply fn_lookup_insert]).
Qed.

Lemma process_one_effect c s m r : queue s c = m :: r -> handler m <> 0 -> exists s', ipc_process_one_ipc c s = Ok (true, s') /\
  effect s s' (calling (cpus s) c (mk_frame m None)) (<[c := r]> (queue s)).
Proof.
  intros E Hm. destruct (dequeue_some c s m r E) as (s1 & D & _). unfold ipc_process_one_ipc. rewrite D.
  set (t := if _ && _ then _ else _). destruct (call_effect c s m s1 None t D Hm) as (r' & s' & E' & -> & Ef).
  { unfold t. destruct (_ && _); auto. }
  rewrite E in E'. injection E' as <-. eexists. done.
Qed.

Lemma process_one_none c s : queue s c = [] -> ipc_process_one_ipc c s = Ok (false, s).
Proof. intros E. unfold ipc_process_one_ipc, ipc_dequeue_message. by rewrite E. Qed.

Lemma process_next_effect c nmi s m r : queue s c = m :: r -> handler m <> 0 -> exists s', process_next c nmi s = Ok s' /\
  effect s s' (calling (cpus s) c (mk_frame m (Some (nmi, bool_decide (r = []))))) (<[c := r]> (queue s)).
Proof.
  intros E Hm. destruct (dequeue_some c s m r E) as (s1 & D & Q). unfold process_next. rewrite D, Q.
  assert ((Z.of_nat (length r) =? 0) = bool_decide (r = [])) as -> by by destruct r.
  set (t := if _ && _ then _ else _).
  destruct (call_effect c s m s1 (Some (nmi, bool_decide (r = []))) t D Hm) as (r' & s' & E' & -> & Ef).
  { unfold t. destruct (_ && _); auto. }
  rewrite E in E'. injection E' as <-. eexists. done.
Qed.

(** The queues after at most one message was put into that of [i]. *)
Definition pushed (i : Z) (q q' : Z -> list IPC_MESSAGE) : Prop :=
  (forall j, q' j = q j) \/ exists m, handler m <> 0 /\ forall j, q' j = <[i := q i ++ [m]]> q j.

Lemma calm_pushed i cp q q' : calm cp q -> pushed i q q' -> calm cp q'.
Proof.
  intros C [E|(m & Hm & E)]; [by apply (calm_ext cp q)|]. by apply (calm_ext cp (<[i := q i ++ [m]]> q)), calm_push.
Qed.

Definition same_client (f f' : send) : Prop :=
  (s_dst f', s_type f', s_handler f') = (s_dst f, s_type f, s_handler f).

Lemma same_client_send f f' : same_client f f' -> client_send f -> client_send f'.
Proof. intros [= E1 E2 E3]. unfold client_send. by rewrite E1, E2, E3. Qed.

Lemma signal_some f i s : length (nmi_accounted_flag f) = 2%nat -> cpu i -> exists f' s', signal f i s = Ok (f', s') /\
  same_client f f' /\ cpus s' = cpus s /\ forall j, queue s' j = queue s j.
Proof using HN.
  intros Hl Hi. unfold signal. destruct (is_active s i).
  - destruct (bitmap_set (nmi_accounted_flag f) i Hl ltac:(lia)) as (a & -> & _). rewrite bind_Ok. eexists _, _.
    split; [done|]. split; [done|]. split; [done|]. intros j. apply queue_set_count.
  - by eexists _, _.
Qed.

Lemma preprocess_some dst ty s : exists b s', ipc_preprocess_message dst ty s = (b, s') /\ cpus s' = cpus s /\
  (forall j, queue s' j = queue s j) /\ (b = true -> ty <> IPC_TYPE_START).
Proof.
  unfold ipc_preprocess_message, ipc_preprocess_normal_message, ipc_preprocess_start_message, ipc_preprocess_stop_message.
  destruct (Z.eqb_spec ty IPC_TYPE_NORMAL) as [->|]; [by eexists _, _|].
  destruct (Z.eqb_spec ty IPC_TYPE_START) as [->|].
  { eexists _, _. split; [done|]. split; [done|]. split; [|done]. intros j. apply queue_set_count. }
  destruct (Z.eqb_spec ty IPC_TYPE_STOP) as [->|]; [|by eexists _, _].
  eexists _, _. split; [done|]. split; [done|]. split; [|done]. intros j. apply queue_set_count.
Qed.

Lemma send_one_effect c i f s : cpu i -> client_send f -> length (nmi_accounted_flag f) = 2%nat ->
  length (enqueue_flag f) = 2%nat -> exists f' s', send_one N c i f s = Ok (f', s') /\ same_client f f' /\
  cpus s' = cpus s /\ pushed i (queue s) (queue s').
Proof using HN.
  intros Hi [_ Hh] Hn Hl. unfold send_one. destruct (preprocess_some i (s_type f) s) as (b & t & -> & Ct & Qt & Hb).
  destruct b; [|exists f, t; split; [done|]; split; [done|]; split; [done|]; by left].
  destruct (bitmap_set (enqueue_flag f) i Hl ltac:(lia)) as (a & -> & _). rewrite bind_Ok. cbv zeta.
  set (g := mk_send _ _ _ _ _ _ _ _). destruct (if wait_for_handler_finish g then _ else _) as [before after].
  assert (s_handler f <> 0) as H0 by (destruct Hh as [|X]; [done|by destruct (Hb eq_refl)]).
  destruct (ipc_enqueue_message N c i (s_type g) (s_handler g) (s_arg g) before after t) as [ok t1] eqn:E.
  assert (cpus t1 = cpus s /\ pushed i (queue s) (queue t1)) as [C1 P1].
  { revert E. unfold ipc_enqueue_message. destruct (_ <? _); intros [= _ <-].
    - split; [done|]. right. exists (mk_msg (s_type g) c (s_handler g) (s_arg g) before after). split; [exact H0|]. intros j. etransitivity; [apply queue_set_queue|].
      by rewrite !fn_insert_case, !Qt.
    - split; [done|]. by left. }
  set (t2 := count_up i num_of_sent_ipc_messages t1).
  assert (forall j, queue t2 j = queue t1 j) as Q2 by (intros j; apply queue_set_count).
  assert (pushed i (queue s) (queue t2)) as P2.
  { destruct P1 as [P1|(m & Hm & P1)]; [left|right; exists m; split; [done|]]; intros j; by rewrite Q2, P1. }
  destruct (_ =? 0); [|by exists g, t2].
  destruct (signal_some g i t2 Hn Hi) as (f' & s' & -> & Sf & Cs & Qs). exists f', s'. split; [done|]. split; [done|].
  split; [by rewrite Cs|]. destruct P2 as [P2|(m & Hm & P2)]; [left|right; exists m; split; [done|]]; intros j; by rewrite Qs, P2.
Qed.

(** A processor goes to [p]; at most one message is put into a queue. *)
Definition goes (c : Z) (s s' : ipc) (p : place) : Prop :=
  (forall d, cpus s' d = <[c := mk_code p (frames (cpus s c))]> (cpus s) d) /\ exists i, pushed i (queue s) (queue s').

Lemma goes_goto c p s t : cpus t = cpus s -> (exists i, pushed i (queue s) (queue t)) -> goes c s (goto c p t) p.
Proof. intros C Q. split; [|done]. intros d. unfold goto, set_code. simpl. by rewrite C. Qed.

Lemma pushed_refl i q : pushed i q q. Proof. by left. Qed.

Lemma goes_here c p s : goes c s (goto c p s) p.
Proof. apply goes_goto; [done|]. exists 0. apply pushed_refl. Qed.

Lemma destination_ok dst c i : length (CoreBitMap dst) = 2%nat -> cpu i -> exists b, ipc_cpu_is_destination dst c i = Ok b.
Proof using HN.
  intros Hl Hi. unfold ipc_cpu_is_destination. repeat (destruct (_ =? _); [by eexists|]).
  destruct (_ =? _); [|by eexists]. destruct (bitmap_get _ i Hl ltac:(lia)) as (b & -> & _). by eexists.
Qed.

Lemma send_step_effect c i f s : 0 <= i <= N -> client_send f -> length (nmi_accounted_flag f) = 2%nat ->
  length (enqueue_flag f) = 2%nat -> exists s' p, send_step N c i f s = Ok s' /\ goes c s s' p /\
  if decide (i < N) then exists f', p = Enqueueing f' (i + 1) /\ same_client f f'
  else (p = Waiting f \/ p = Outside) /\ forall j, queue s' j = queue s j.
Proof using HN.
  intros Hi Hf Hn Hl. unfold send_step. destruct (decide (i < N)) as [Hlt|Hge];
    [rewrite (proj2 (Z.ltb_lt i N) Hlt)|rewrite (proj2 (Z.ltb_ge i N)) by lia].
  - rewrite u16_small by lia. destruct (i =? c).
    { eexists _, _. split; [done|]. split; [apply goes_here|]. by eexists. }
    destruct (destination_ok (s_dst f) c i) as (b & ->); [by destruct Hf|lia|]. rewrite bind_Ok.
    destruct b; [|eexists _, _; split; [done|]; split; [apply goes_here|]; by eexists].
    destruct (send_one_effect c i f s) as (f' & s1 & -> & Sf & C & P); [lia|done..|]. rewrite bind_Ok. simpl.
    eexists _, _. split; [done|]. split; [apply goes_goto; [done|by exists i]|]. by exists f'.
  - destruct (_ <? _).
    + eexists _, _. split; [done|]. split; [apply goes_here|]. split; [by left|done].
    + eexists _, _. split; [done|]. split; [by apply goes_goto; [|exists 0; left]|]. split; [by right|done].
Qed.

Lemma resend_step_effect c i f s : 0 <= i <= N -> length (enqueue_flag f) = 2%nat ->
  exists s' p, resend_step N c i f s = Ok s' /\ goes c s s' p /\ (forall j, queue s' j = queue s j) /\
  if decide (i < N) then p = Resignal f i \/ p = Resending f (i + 1) else p = Waiting f.
Proof using HN.
  intros Hi Hl. unfold resend_step. destruct (decide (i < N)) as [Hlt|Hge];
    [rewrite (proj2 (Z.ltb_lt i N) Hlt)|rewrite (proj2 (Z.ltb_ge i N)) by lia].
  - rewrite u16_small by lia.
    destruct (bitmap_get (enqueue_flag f) i Hl ltac:(lia)) as (b & -> & _). rewrite bind_Ok.
    destruct (_ && _); (eexists _, _; split; [done|]; split; [apply goes_here|]; split; [done|]); [by left|by right].
  - eexists _, _. split; [done|]. split; [apply goes_here|]. done.
Qed.

Lemma resignal_step_effect c i f s : cpu i -> length (nmi_accounted_flag f) = 2%nat ->
  exists s' f', resignal_step c i f s = Ok s' /\ goes c s s' (Resending f' (i + 1)) /\ (forall j, queue s' j = queue s j) /\
  same_client f f'.
Proof using HN.
  intros Hi Hn. unfold resignal_step. rewrite u16_small by lia. destruct (is_active s i).
  - destruct (bitmap_get (nmi_accounted_flag f) i Hn ltac:(lia)) as (b & -> & _). rewrite bind_Ok. destruct (b =? 0).
    + destruct (signal_some f i s Hn Hi) as (f' & s1 & -> & Sf & C & Q). rewrite bind_Ok. simpl.
      eexists _, _. split; [done|]. split; [apply goes_goto; [done|exists 0; by left]|]. done.
    + rewrite bind_Ok. simpl. eexists _, _. split; [done|]. split; [apply goes_goto; [done|exists 0; by left]|]. done.
  - eexists _, _. split; [done|]. split; [apply goes_goto; [done|exists 0; by left]|]. done.
Qed.

Lemma count_step_effect c i r f s : 0 <= i <= N ->
  exists s' p, count_step N c i r f s = Ok s' /\ goes c s s' p /\ (forall j, queue s' j = queue s j) /\
  if decide (i < N) then exists r', p = Counting f (i + 1) r' else p = Waiting f \/ p = Outside.
Proof using HN.
  intros Hi. unfold count_step. destruct (decide (i < N)) as [Hlt|Hge];
    [rewrite (proj2 (Z.ltb_lt i N) Hlt)|rewrite (proj2 (Z.ltb_ge i N)) by lia].
  - rewrite u16_small by lia. eexists _, _. split; [done|].
    split; [apply goes_here|]. split; [done|]. by eexists.
  - destruct (_ =? _).
    + eexists _, _. split; [done|]. split; [apply goes_goto; [done|exists 0; by left]|]. split; [done|]. by right.
    + eexists _, _. split; [done|]. split; [apply goes_here|]. split; [done|]. by left.
Qed.

Lemma exit_end_effect c k s : goes c s (exit_end N c k s) Outside /\ forall j, queue (exit_end N c k s) j = queue s j.
Proof.
  assert (D : forall b t, dispatcher_decision N c s = (b, t) -> cpus t = cpus s /\ forall j, queue t j = queue s j).
  { intros b t. unfold dispatcher_decision. destruct (_ <? _); [intros [= _ <-]; split; [done|intros; apply queue_set_count]|].
    destruct (_ && _); intros [= _ <-]; [|done]. unfold nmi_raise_this.
    destruct (N <=? c); (split; [done|intros; apply queue_set_count]). }
  assert (G : forall t e, cpus t = cpus s -> (forall j, queue t j = queue s j) ->
    goes c s (goto c Outside (emit e t)) Outside /\ forall j, queue (goto c Outside (emit e t)) j = queue s j).
  { intros t e C Q. split; [apply goes_goto; [done|exists 0; by left]|done]. }
  destruct k; simpl; [destruct (dispatcher_decision N c s) as [b t]; destruct (D b t eq_refl); by apply G..|].
  apply G; [done|]. intros j. unfold clear_nmi_counters. simpl. by rewrite !queue_set_count.
Qed.

(** ** A measure of the work that is left *)

Definition total (w : Z -> Z) : Z := foldr Z.add 0 (map w (seqZ 0 N)).

Lemma total_ext w w' : (forall c, cpu c -> w' c = w c) -> total w' = total w.
Proof.
  intros H. unfold total. assert (forall c, c ∈ seqZ 0 N -> w' c = w c) as H' by (intros c Hc%elem_of_seqZ; apply H; lia).
  clear H. induction (seqZ 0 N) as [|x l IH]; [done|]. simpl. rewrite (H' x) by left. rewrite IH; [done|].
  intros c Hc. apply H'. by right.
Qed.

Lemma total_change c w w' : cpu c -> (forall d, d <> c -> w' d = w d) -> total w' = total w - w c + w' c.
Proof.
  intros Hc H. unfold total. assert (c ∈ seqZ 0 N) as Hin by (apply elem_of_seqZ; lia).
  pose proof (NoDup_seqZ 0 N) as Nd. induction Nd as [|x l Hx Nd IH]; [by apply not_elem_of_nil in Hin|]. simpl.
  apply elem_of_cons in Hin as [<-|Hin].
  - assert (map w' l = map w l) as ->; [|lia]. apply map_ext_in. intros d Hd%list_elem_of_In. apply H. by intros ->.
  - rewrite IH by done. rewrite (H x) by by intros ->. lia.
Qed.

Lemma total_pos w : (forall c, 0 <= w c) -> 0 <= total w.
Proof. intros H. unfold total. induction (seqZ 0 N) as [|x l IH]; simpl; [done|]. specialize (H x). lia. Qed.

(** A message in a queue is worth more than a running handler, that more than counting the
    acknowledgements once; a send that still enqueues is worth the messages it may send. *)
Definition place_work (p : place) : Z :=
  match p with
  | Outside => 0
  | Exit _ | Waiting _ => 1
  | Counting _ i _ => 2 + (N - i)
  | Resending _ i => 2 + 2 * (N - i)
  | Resignal _ i => 1 + 2 * (N - i)
  | Enqueueing _ i => 2 + (N - i) * (N + 4)
  end.

Definition code_work (x : code) : Z := place_work (at_ x) + (N + 2) * Z.of_nat (length (frames x)).
Definition work (cp : Z -> code) (q : Z -> list IPC_MESSAGE) : Z :=
  total (fun c => code_work (cp c)) + total (fun c => (N + 3) * Z.of_nat (length (q c))).

Lemma work_ext cp q cp' q' : (forall d, cp' d = cp d) -> (forall j, q' j = q j) -> work cp' q' = work cp q.
Proof. intros C Q. unfold work. f_equal; apply total_ext; intros c _; [by rewrite C|by rewrite Q]. Qed.

Lemma work_code c x cp q : cpu c -> work (<[c := x]> cp) q = work cp q - code_work (cp c) + code_work x.
Proof.
  intros Hc. pose proof (total_change c (fun d => code_work (cp d)) (fun d => code_work (<[c := x]> cp d)) Hc) as T.
  cbv beta in T. rewrite fn_lookup_insert in T. unfold work. rewrite T; [lia|]. intros d Hd. by rewrite fn_lookup_insert_ne.
Qed.

Lemma work_queue c r cp q : cpu c ->
  work cp (<[c := r]> q) = work cp q + (N + 3) * (Z.of_nat (length r) - Z.of_nat (length (q c))).
Proof.
  intros Hc. pose proof (total_change c (fun d => (N + 3) * Z.of_nat (length (q d)))
    (fun d => (N + 3) * Z.of_nat (length (<[c := r]> q d))) Hc) as T.
  cbv beta in T. rewrite fn_lookup_insert in T. unfold work. rewrite T; [lia|]. intros d Hd. by rewrite fn_lookup_insert_ne.
Qed.

Lemma work_pushed i cp q q' : pushed i q q' -> work cp q' <= work cp q + (N + 3).
Proof using HN.
  intros [E|(m & _ & E)].
  - rewrite (work_ext cp q) by done. lia.
  - rewrite (work_ext cp (<[i := q i ++ [m]]> q)) by done. destruct (decide (0 <= i < N)) as [Hi|Hi].
    + rewrite work_queue, length_app by done. simpl. lia.
    + unfold work at 1. rewrite (total_ext (fun c => (N + 3) * Z.of_nat (length (q c))) (fun c => (N + 3) * Z.of_nat (length (<[i := q i ++ [m]]> q c)))).
      * fold (work cp q). lia.
      * intros c Hc. rewrite fn_lookup_insert_ne; [done|]. by intros ->.
Qed.

Lemma goes_work c s s' p : cpu c -> goes c s s' p -> (forall j, queue s' j = queue s j) ->
  work (cpus s') (queue s') = work (cpus s) (queue s) - place_work (at_ (cpus s c)) + place_work p.
Proof.
  intros Hc [C _] Q. rewrite (work_ext _ _ _ _ C Q), work_code by done. unfold code_work. simpl. lia.
Qed.

Lemma goes_work_push c s s' p : cpu c -> goes c s s' p ->
  work (cpus s') (queue s') <= work (cpus s) (queue s) - place_work (at_ (cpus s c)) + place_work p + (N + 3).
Proof using HN.
  intros Hc [C (i & P)]. rewrite (work_ext _ (queue s') _ (queue s') C (fun _ => eq_refl)), work_code by done.
  pose proof (work_pushed i (cpus s) _ _ P). unfold code_work. simpl. lia.
Qed.

(** ** Every step succeeds *)

Lemma frames_ok_nil p q : frames_ok p [] q.
Proof. destruct p; simpl; try done. by left. Qed.

Lemma calm_goes c s s' p : calm (cpus s) (queue s) -> goes c s s' p -> frames (cpus s c) = [] ->
  (forall f, sending p = Some f -> client_send f) -> calm (cpus s') (queue s').
Proof.
  intros Cm [C (i & P)] Ef Hs. apply (calm_ext (<[c := mk_code p (frames (cpus s c))]> (cpus s)) (queue s')); [done|done|].
  apply calm_code; [by apply (calm_pushed i _ (queue s))|done|]. rewrite Ef. apply frames_ok_nil.
Qed.

(** The end of a handler. *)
Lemma finish_effect c s fr fs : frames (cpus s c) = fr :: fs ->
  effect s (emit (EvFinish c (f_msg fr)) (ipc_increment_ack (after_handler_ack (f_msg fr)) (set_frames c fs s)))
    (<[c := mk_code (at_ (cpus s c)) fs]> (cpus s)) (queue s).
Proof. intros E. by destruct (after_handler_ack (f_msg fr)). Qed.

Lemma return_ok c s fr fs : cpu c -> calm (cpus s) (queue s) -> frames (cpus s c) = fr :: fs ->
  exists s', handler_return c s = Ok s' /\ calm (cpus s') (queue s') /\ work (cpus s') (queue s') < work (cpus s) (queue s).
Proof using HN.
  intros Hc Cm Ef. unfold handler_return. rewrite Ef. destruct (finish_effect c s fr fs Ef) as [C Q]. set (t := emit _ _) in *.
  pose proof (cm_frames _ _ Cm c Hc) as Fr. rewrite Ef in Fr.
  assert (Ct : cpus t c = mk_code (at_ (cpus s c)) fs) by by rewrite C, fn_lookup_insert.
  assert (Wt : work (cpus t) (queue t) = work (cpus s) (queue s) - (N + 2)).
  { rewrite (work_ext _ _ _ _ C Q), work_code by done. unfold code_work. rewrite Ef. simpl length. simpl at_. simpl frames. lia. }
  assert (Cmt : frames_ok (at_ (cpus s c)) fs (queue s c) -> calm (cpus t) (queue t)).
  { intros Ok. apply (calm_ext _ _ _ _ C Q), calm_code; [done| |done]. intros f. apply (cm_send _ _ Cm c f Hc). }
  destruct (f_all fr) as [[nmi last]|] eqn:Ea.
  - destruct (at_ (cpus s c)) as [|f i|f|f i r|f i|f i|k] eqn:Ep; simpl in Fr; try done;
      try (apply Forall_cons in Fr as [X _]; congruence).
    destruct Fr as [|(m & nmi' & last' & [= -> ->] & Hl)]; [done|]. injection Ea as -> ->. destruct last.
    { exists t. split; [done|]. split; [apply Cmt; by left|lia]. }
    destruct (queue t c) as [|m' r] eqn:Eq; [rewrite Q in Eq; by destruct (Hl eq_refl)|].
    pose proof (cm_queue _ _ Cm c Hc) as Hh. rewrite <- Q, Eq in Hh. apply Forall_cons in Hh as [Hh Hr].
    destruct (process_next_effect c nmi t m' r Eq Hh) as (s' & -> & C' & Q'). exists s'. split; [done|]. split.
    + apply (calm_ext _ _ _ _ C' Q'). unfold calling. rewrite Ct. apply calm_take; [apply Cmt; by left|done| |done].
      right. exists m', nmi, (bool_decide (r = [])). split; [done|]. by intros ?%bool_decide_eq_false.
    + rewrite (work_ext _ _ _ _ C' Q'). unfold calling. rewrite Ct, work_queue, work_code, Ct, Eq by done.
      unfold code_work. cbn [at_ frames length place_work]. lia.
  - assert (frames_ok (at_ (cpus s c)) fs (queue s c)) as Ok.
    { destruct (at_ (cpus s c)); simpl in *; try done; try (by apply Forall_cons in Fr as [_ ?]).
      destruct Fr as [|(m & nmi & last & [= -> ->] & _)]; done. }
    destruct fs as [|fr' fs].
    2: { exists t. split; [done|]. split; [by apply Cmt|lia]. }
    rewrite Ct. simpl at_. destruct (at_ (cpus s c)) as [|f i|f|f i r|f i|f i|k] eqn:Ep;
      try (exists t; split; [done|]; split; [by apply Cmt|lia]).
    pose proof (goes_here c (Counting f 0 0) t) as G. eexists. split; [done|]. split.
    + apply (calm_goes c t _ _ (Cmt Ok) G); [by rewrite Ct|]. intros g [= <-]. apply (cm_send _ _ Cm c); [done|by rewrite Ep].
    + rewrite (goes_work c t _ _ Hc G) by done. rewrite Ct. cbn [at_ place_work]. lia.
Qed.

(** One message is served, where that is possible. *)
Lemma one_ok c s m r : cpu c -> calm (cpus s) (queue s) -> queue s c = m :: r ->
  Forall (fun fr => f_all fr = None) (frames (cpus s c)) ->
  match at_ (cpus s c) with Outside | Waiting _ => True | _ => frames (cpus s c) <> [] end ->
  exists s', ipc_process_one_ipc c s = Ok (true, s') /\ calm (cpus s') (queue s') /\
    work (cpus s') (queue s') < work (cpus s) (queue s).
Proof using HN.
  intros Hc Cm Eq Hf Hp. pose proof (cm_queue _ _ Cm c Hc) as Hh. rewrite Eq in Hh. apply Forall_cons in Hh as [Hm Hr].
  destruct (process_one_effect c s m r Eq Hm) as (s' & -> & C & Q). exists s'. split; [done|]. split.
  - apply (calm_ext _ _ _ _ C Q), calm_take; [done|intros f; apply (cm_send _ _ Cm c f Hc)| |done].
    pose proof (cm_frames _ _ Cm c Hc) as Fr. cbn [at_ frames].
    destruct (at_ (cpus s c)); simpl in *; try done; try (by constructor).
    destruct Fr as [|(m' & nmi & last & X & _)]; [done|]. rewrite X in Hf. by apply Forall_cons in Hf as [? _].
  - rewrite (work_ext _ _ _ _ C Q). unfold calling. rewrite work_queue, work_code, Eq by done. unfold code_work.
    cbn [at_ frames length]. lia.
Qed.

Definition finished (p : place) : bool := match p with Outside | Waiting _ => true | _ => false end.

(** The code of a processor goes on; unless it waits, with less work left. *)
Lemma continue_ok c s : cpu c -> inv N s -> calm (cpus s) (queue s) -> frames (cpus s c) = [] ->
  exists s', continue_step N c s = Ok s' /\ calm (cpus s') (queue s') /\
    (finished (at_ (cpus s c)) = false -> work (cpus s') (queue s') < work (cpus s) (queue s)).
Proof using HN.
  intros Hc I Cm Ef. unfold continue_step. pose proof (inv_place N _ I c Hc) as [Hp Hn].
  assert (Hs : forall f, sending (at_ (cpus s c)) = Some f -> client_send f /\ length (enqueue_flag f) = 2%nat /\
    length (nmi_accounted_flag f) = 2%nat).
  { intros f E. split; [by apply (cm_send _ _ Cm c)|]. split; [|by apply Hn].
    by destruct (fl_job N _ _ _ _ (inv_flight N _ I) c (job_of f) Hc) as [? _]; [unfold job_at; rewrite E|]. }
  destruct (at_ (cpus s c)) as [|f i|f|f i r|f i|f i|k] eqn:Ea.
  - by exists s.
  - destruct Hp as [Hi _]. destruct (Hs f eq_refl) as (Hf & Hl & Hnm).
    destruct (send_step_effect c i f s Hi Hf Hnm Hl) as (s' & p & -> & G & Hnext). exists s'. split; [done|].
    destruct (decide (i < N)) as [Hlt|Hge].
    + destruct Hnext as (f' & -> & Sf). split; [|intros _].
      * apply (calm_goes c s _ _ Cm G Ef). intros g [= <-]. by apply (same_client_send f).
      * pose proof (goes_work_push c s s' _ Hc G) as W. rewrite Ea in W. cbn [place_work] in W. nia.
    + destruct Hnext as [[-> | ->] Q].
      * split; [apply (calm_goes c s _ _ Cm G Ef); by intros g [= <-]|intros _].
        rewrite (goes_work c s s' _ Hc G Q), Ea. cbn [place_work]. nia.
      * split; [by apply (calm_goes c s _ _ Cm G Ef)|intros _]. rewrite (goes_work c s s' _ Hc G Q), Ea. cbn [place_work]. nia.
  - destruct (Hs f eq_refl) as (Hf & _). destruct (queue s c) as [|m r] eqn:Eq.
    + rewrite (process_one_none c s Eq), bind_Ok. eexists. split; [done|]. split; [|done].
      apply (calm_goes c s _ _ Cm (goes_here c _ s) Ef). by intros g [= <-].
    + destruct (one_ok c s m r Hc Cm Eq) as (s' & -> & Cm' & _); [by rewrite Ef|by rewrite Ea|]. by exists s'.
  - destruct Hp as [Hi _]. destruct (Hs f eq_refl) as (Hf & _).
    destruct (count_step_effect c i r f s Hi) as (s' & p & -> & G & Q & Hnext). exists s'. split; [done|].
    assert (place_work p < 2 + (N - i) /\ (sending p = Some f \/ sending p = None)) as [Hw Hsp].
    { destruct (decide (i < N)); [destruct Hnext as (r' & ->)|destruct Hnext as [-> | ->]]; cbn [place_work sending]; (split; [lia|auto]). }
    split; [|intros _; rewrite (goes_work c s s' _ Hc G Q), Ea; cbn [place_work]; lia].
    apply (calm_goes c s _ _ Cm G Ef). intros g E. destruct Hsp; congruence.
  - destruct (Hs f eq_refl) as (Hf & Hl & _).
    destruct (resend_step_effect c i f s Hp Hl) as (s' & p & -> & G & Q & Hnext). exists s'. split; [done|].
    assert (place_work p < 2 + 2 * (N - i) /\ sending p = Some f) as [Hw Hsp].
    { destruct (decide (i < N)); [destruct Hnext as [-> | ->]|rewrite Hnext]; cbn [place_work sending]; (split; [lia|auto]). }
    split; [|intros _; rewrite (goes_work c s s' _ Hc G Q), Ea; cbn [place_work]; lia].
    apply (calm_goes c s _ _ Cm G Ef). intros g E. congruence.
  - destruct (Hs f eq_refl) as (Hf & _ & Hnm).
    destruct (resignal_step_effect c i f s Hp Hnm) as (s' & f' & -> & G & Q & Sf). exists s'. split; [done|].
    split; [|intros _; rewrite (goes_work c s s' _ Hc G Q), Ea; cbn [place_work]; lia].
    apply (calm_goes c s _ _ Cm G Ef). intros g [= <-]. by apply (same_client_send f).
  - destruct (exit_end_effect c k s) as [G Q]. eexists. split; [done|].
    split; [by apply (calm_goes c s _ _ Cm G Ef)|intros _]. rewrite (goes_work c s _ _ Hc G Q), Ea. cbn [place_work]. lia.
Qed.

Lemma process_all_ok c nmi k s : cpu c -> calm (cpus s) (queue s) -> cpus s c = mk_code (Exit k) [] ->
  exists s', ipc_process_all_ipc_messages c nmi s = Ok s' /\ calm (cpus s') (queue s').
Proof.
  intros Hc Cm E. unfold ipc_process_all_ipc_messages. destruct (queue s c) as [|m r] eqn:Eq; [by exists s|].
  assert ((Z.of_nat (length (m :: r)) =? 0) = false) as -> by done.
  pose proof (cm_queue _ _ Cm c Hc) as Hh. rewrite Eq in Hh. apply Forall_cons in Hh as [Hm Hr].
  destruct (process_next_effect c nmi s m r Eq Hm) as (s' & -> & C & Q). exists s'. split; [done|].
  apply (calm_ext _ _ _ _ C Q). unfold calling. rewrite E. apply calm_take; [done|done| |done].
  right. exists m, nmi, (bool_decide (r = [])). split; [done|]. by intros ?%bool_decide_eq_false.
Qed.

(** An exit handler starts. *)
Lemma exit_ok c k nmi s t : cpu c -> calm (cpus s) (queue s) -> frames (cpus s c) = [] -> cpus t = cpus s ->
  (forall j, queue t j = queue s j) ->
  exists s', ipc_process_all_ipc_messages c nmi (goto c (Exit k) t) = Ok s' /\ calm (cpus s') (queue s').
Proof.
  intros Hc Cm Ef C Q. apply (process_all_ok c nmi k); [done|..].
  - apply (calm_goes c s _ (Exit k)); [done| |done|done]. apply goes_goto; [done|]. exists 0. by left.
  - unfold goto, set_code. simpl. rewrite fn_lookup_insert, C. by rewrite Ef.
Qed.

Lemma calm_same s s' : cpus s' = cpus s -> (forall j, queue s' j = queue s j) ->
  calm (cpus s) (queue s) -> calm (cpus s') (queue s').
Proof. intros C Q Cm. by apply (calm_ext (cpus s) (queue s)); [rewrite C|..]. Qed.

Lemma send_message_ok w c dst ty h a s : calm (cpus s) (queue s) -> frames (cpus s c) = [] ->
  client_ok (Send w dst ty h a) -> calm (cpus (ipc_send_message_gen N w c dst ty h a s)) (queue (ipc_send_message_gen N w c dst ty h a s)).
Proof.
  intros Cm Ef [Hl Hh]. unfold ipc_send_message_gen. destruct (send_ok dst ty); [|by apply (calm_same s)].
  eapply (calm_goes c s _ (Enqueueing _ 0)); [done| |done|].
  - apply goes_goto; [done|]. exists 0. by left.
  - by intros f [= <-].
Qed.

Lemma one_any_ok c s : cpu c -> calm (cpus s) (queue s) -> Forall (fun fr => f_all fr = None) (frames (cpus s c)) ->
  match at_ (cpus s c) with Outside | Waiting _ => True | _ => frames (cpus s c) <> [] end ->
  exists s', (r ← ipc_process_one_ipc c s; Ok r.2) = Ok s' /\ calm (cpus s') (queue s').
Proof using HN.
  intros Hc Cm Hf Hp. destruct (queue s c) as [|m r] eqn:Eq.
  - rewrite (process_one_none c s Eq). by exists s.
  - destruct (one_ok c s m r Hc Cm Eq Hf Hp) as (s' & -> & Cm' & _). by exists s'.
Qed.

(** No step faults. *)
Lemma ipc_exec_ok c a s : cpu c -> client_ok a -> flat s (c, a) -> inv N s -> calm (cpus s) (queue s) ->
  exists s', exec N c a s = Ok s' /\ calm (cpus s') (queue s').
Proof using HN.
  intros Hc Ha Hfl I Cm. unfold exec.
  assert (Isr : exists s', Ok (ipc_nmi_interrupt_handler c s) = Ok s' /\ calm (cpus s') (queue s')).
  { eexists. split; [done|]. apply (calm_same s); [done|intros; apply queue_set_count|done]. }
  destruct (frames (cpus s c)) as [|fr fs] eqn:Ef.
  - assert (Go : exists s', continue_step N c s = Ok s' /\ calm (cpus s') (queue s')).
    { destruct (continue_ok c s Hc I Cm Ef) as (s' & ? & ? & _). by exists s'. }
    destruct (at_ (cpus s c)) as [|f i|f|f i r|f i|f i|k] eqn:Ea.
    + destruct a; cbn [is_outside]; try done; try (by eexists).
      * eexists. split; [done|]. by destruct sync; apply send_message_ok.
      * apply one_any_ok; [done|done|by rewrite Ef|by rewrite Ea].
      * apply (exit_ok c ExitNmi true s); [done..|intros; apply queue_set_count].
      * by apply (exit_ok c ExitNmiWindow true s).
      * unfold ipc_sipi_vmexit_handler. destruct (vector =? 0xFF); [by apply (exit_ok c ExitSipi false s)|]. by eexists.
      * eexists. split; [done|]. unfold ipc_change_state_to_active. by destruct (is_active s c).
      * eexists. split; [done|]. unfold ipc_change_state_to_sipi. by destruct (bool_decide _).
      * eexists. split; [done|]. apply (calm_same s); [done|intros; apply queue_set_count|done].
    + destruct a; cbn [is_outside]; try done; by eexists.
    + destruct a; cbn [is_outside]; try done; try (by eexists). eexists. split; [done|].
      apply (calm_goes c s _ _ Cm (goes_here c _ s) Ef). intros g [= <-]. apply (cm_send _ _ Cm c); [done|by rewrite Ea].
    + destruct a; cbn [is_outside]; try done; by eexists.
    + destruct a; cbn [is_outside]; try done; by eexists.
    + destruct a; cbn [is_outside]; try done; by eexists.
    + destruct a; cbn [is_outside]; try done; by eexists.
  - destruct a; try done; try (by eexists).
    + apply one_any_ok; [done|done|by apply Hfl|]. rewrite Ef. by destruct (at_ (cpus s c)).
    + destruct (return_ok c s fr fs Hc Cm Ef) as (s' & ? & ? & _). by exists s'.
Qed.

Lemma calm_start : calm (cpus ipc_start) (queue ipc_start).
Proof. split; try done; intros; by constructor. Qed.

Lemma kept_run acts s : kept acts s -> inv N s -> calm (cpus s) (queue s) ->
  exists s', run N acts s = Ok s' /\ inv N s' /\ calm (cpus s') (queue s').
Proof using HN.
  revert s. induction acts as [|[c a] acts IH]; intros s K I Cm; [by exists s|].
  destruct K as (Hc & Ha & Hf & K). simpl in Hc, Ha, K. destruct (ipc_exec_ok c a s Hc Ha Hf I Cm) as (s1 & E & Cm1).
  simpl. rewrite E, bind_Ok. apply IH; [by apply K| |done]. by apply (inv_exec N HN c a s).
Qed.

(** ** Completion *)

Definition all_done (s : ipc) : Prop := forall c, cpu c -> cpus s c = mk_code Outside [] /\ queue s c = [].

(** The processors only go on with what they have begun, and serve their queues. *)
Definition completing (x : Z * action) : Prop := x.2 = Continue \/ x.2 = HandlerReturn \/ x.2 = ProcessOne.

Lemma run_app acts acts' s : run N (acts ++ acts') s = t ← run N acts s; run N acts' t.
Proof.
  revert s. induction acts as [|[c a] acts IH]; intros s; [done|]. simpl. destruct (exec N c a s); [|done|done]. apply IH.
Qed.

Lemma kept_app acts acts' s : kept acts s -> (forall s', run N acts s = Ok s' -> kept acts' s') -> kept (acts ++ acts') s.
Proof.
  revert s. induction acts as [|[c a] acts IH]; intros s K H; [by apply H|]. destruct K as (Hc & Ha & Hf & K).
  simpl. split; [done|]. split; [done|]. split; [done|]. intros s' E. apply IH; [by apply K|].
  intros s2 E2. apply H. simpl in *. by rewrite E.
Qed.

Lemma kept_continue c n s : cpu c -> kept (replicate n (c, Continue)) s.
Proof. intros Hc. revert s. induction n as [|n IH]; intros s; [done|]. simpl. split; [done|]. split; [done|]. split; [done|]. auto. Qed.

(** Counting to the end when all acknowledgements are there. *)
Lemma counting_run c f n : forall s i, cpu c -> 0 <= i -> i + Z.of_nat n = N ->
  cpus s c = mk_code (Counting f i (acks_before N (ipc_ack_array s) c i)) [] ->
  (forall i, 0 <= i <= N -> 0 <= acks_before N (ipc_ack_array s) c i < 2 ^ 32) ->
  acks_before N (ipc_ack_array s) c N = num_required_acks f ->
  exists s', run N (replicate (S n) (c, Continue)) s = Ok s' /\
    (forall d, cpus s' d = <[c := mk_code Outside []]> (cpus s) d) /\ forall j, queue s' j = queue s j.
Proof using HN.
  induction n as [|n IH]; intros s i Hc Hi En Ec Hb Hreq.
  - simpl. unfold exec. rewrite Ec. simpl. unfold continue_step. rewrite Ec. simpl. unfold count_step.
    rewrite (proj2 (Z.ltb_ge i N)) by lia. replace i with N by lia. rewrite Hreq, Z.eqb_refl. simpl.
    eexists. split; [done|]. split; [|done]. intros d. unfold goto, set_code. simpl. by rewrite Ec.
  - assert (exec N c Continue s = Ok (goto c (Counting f (i + 1) (acks_before N (ipc_ack_array s) c (i + 1))) s)) as E.
    { unfold exec. rewrite Ec. simpl. unfold continue_step. rewrite Ec. simpl. unfold count_step.
      rewrite (proj2 (Z.ltb_lt i N)) by lia. rewrite u16_small by lia. rewrite (acks_before_succ N _ c i) by lia.
      specialize (Hb (i + 1) ltac:(lia)). rewrite acks_before_succ in Hb by lia. by rewrite u32_small by lia. }
    rewrite replicate_S. cbn [run]. rewrite E, bind_Ok. set (t := goto _ _ _).
    assert (cpus t c = mk_code (Counting f (i + 1) (acks_before N (ipc_ack_array t) c (i + 1))) []) as Et.
    { unfold t, goto, set_code. simpl. by rewrite fn_lookup_insert, Ec. }
    destruct (IH t (i + 1)) as (s' & -> & C & Q); [done|lia|lia|exact Et|done|done|]. exists s'. split; [done|].
    split; [|done]. intros d. rewrite C, !fn_insert_case. destruct (decide (c = d)) as [|Hne]; [done|].
    unfold t, goto, set_code. simpl. by rewrite fn_lookup_insert_ne.
Qed.

Definition settled (s : ipc) (c : Z) : bool :=
  bool_decide (frames (cpus s c) = [] /\ queue s c = []) && finished (at_ (cpus s c)).

(** When nothing is in flight, the acknowledgements of a waiting send are all there. *)
Lemma settled_acks s c k i : inv N s -> (forall d, cpu d -> settled s d = true) -> cpu c -> job_at s c = Some k ->
  0 <= i <= N -> acks_before N (ipc_ack_array s) c i
    = Z.of_nat (length (filter (fun j => bit64 (j_flags k) j = true) (seqZ 0 i))).
Proof.
  intros I Hs Hc Hk Hi.
  assert (forall j, j ∈ seqZ 0 i -> ipc_ack_array s (ack_index N c j) = Z.b2z (bit64 (j_flags k) j)) as A.
  { intros j Hj%elem_of_seqZ. assert (cpu j) as Hj' by lia. specialize (Hs j Hj').
    apply andb_true_iff in Hs as [[F Q]%bool_decide_eq_true _].
    pose proof (fl_once N _ _ _ _ (inv_flight N _ I) c j k Hc Hj' Hk) as O. cbv beta in O. by rewrite F, Q in O. }
  unfold acks_before. induction (seqZ 0 i) as [|x l IH]; [done|]. simpl. rewrite filter_cons, (A x) by left.
  rewrite IH by (intros j Hj; apply A; by right). destruct (bit64 (j_flags k) x); simpl; lia.
Qed.

Lemma waiting_completes s c f : inv N s -> (forall d, cpu d -> settled s d = true) -> cpu c -> at_ (cpus s c) = Waiting f ->
  exists s', run N (replicate (S (S (Z.to_nat N))) (c, Continue)) s = Ok s' /\
    (forall d, cpus s' d = <[c := mk_code Outside []]> (cpus s) d) /\ forall j, queue s' j = queue s j.
Proof using HN.
  intros I Hs Hc Ea. pose proof (Hs c Hc) as Sc. apply andb_true_iff in Sc as [[Ef Eq]%bool_decide_eq_true _].
  assert (J : job_at s c = Some (job_of f)) by (unfold job_at; by rewrite Ea).
  rewrite replicate_S. cbn [run]. unfold exec at 1. rewrite Ef. unfold continue_step. rewrite Ea, (process_one_none c s Eq).
  rewrite !bind_Ok. simpl fst. simpl snd. cbv iota. set (t := goto _ _ _).
  assert (A : forall i, 0 <= i <= N -> acks_before N (ipc_ack_array t) c i
    = Z.of_nat (length (filter (fun j => bit64 (enqueue_flag f) j = true) (seqZ 0 i)))) by (intros; by apply (settled_acks s c (job_of f))).
  destruct (counting_run c f (Z.to_nat N) t 0) as (s' & -> & C & Q).
  - done.
  - lia.
  - lia.
  - unfold t, goto, set_code. simpl. by rewrite fn_lookup_insert, Ef.
  - intros i Hi. rewrite A by done. pose proof (length_filter (fun j => bit64 (enqueue_flag f) j = true) (seqZ 0 i)) as B.
    rewrite length_seqZ in B. lia.
  - rewrite A by lia. destruct (fl_job N _ _ _ _ (inv_flight N _ I) c _ Hc J) as (_ & _ & R).
    symmetry. exact R.
  - exists s'. split; [done|]. split; [|done]. intros d. rewrite C, !fn_insert_case. destruct (decide (c = d)) as [|Hne]; [done|].
    unfold t, goto, set_code. simpl. by rewrite fn_lookup_insert_ne.
Qed.

Lemma not_settled s c : settled s c = false -> frames (cpus s c) <> [] \/
  (frames (cpus s c) = [] /\ (queue s c <> [] \/ finished (at_ (cpus s c)) = false)).
Proof.
  unfold settled. destruct (frames (cpus s c)); [|by left]. intros H. right. split; [done|].
  destruct (queue s c); [right|by left]. by rewrite bool_decide_true in H.
Qed.

(** Some processor can go on, until all is done. *)
Lemma progress s : inv N s -> calm (cpus s) (queue s) -> all_done s \/
  exists acts s', Forall completing acts /\ kept acts s /\ run N acts s = Ok s' /\
    work (cpus s') (queue s') < work (cpus s) (queue s).
Proof using HN.
  intros I Cm. destruct (decide (Forall (fun c => settled s c = true) (seqZ 0 N))) as [Hall|Hex].
  - assert (Hs : forall d, cpu d -> settled s d = true).
    { intros d Hd. rewrite Forall_forall in Hall. apply Hall, elem_of_seqZ. lia. }
    destruct (decide (Forall (fun c => is_outside (at_ (cpus s c)) = true) (seqZ 0 N))) as [Hout|Hw].
    + left. intros c Hc. specialize (Hs c Hc). apply andb_true_iff in Hs as [[Ef Eq]%bool_decide_eq_true _].
      split; [|done]. rewrite Forall_forall in Hout. specialize (Hout c ltac:(apply elem_of_seqZ; lia)).
      destruct (cpus s c) as [p fs]. simpl in *. by destruct p; subst.
    + right. apply not_Forall_Exists in Hw; [|intros x; apply _]. apply Exists_exists in Hw as (c & Hc%elem_of_seqZ & Hw).
      assert (cpu c) as Hc' by lia. pose proof (Hs c Hc') as Sc. apply andb_true_iff in Sc as [[Ef _]%bool_decide_eq_true Fin].
      destruct (at_ (cpus s c)) as [|f i|f|f i r|f i|f i|k] eqn:Ea; try done; [exfalso; apply Hw; by rewrite Ea|].
      destruct (waiting_completes s c f I Hs Hc' Ea) as (s' & Er & C & Q). eexists _, s'.
      split; [|split; [|split; [exact Er|]]].
      * apply Forall_replicate. by left.
      * by apply kept_continue.
      * rewrite (work_ext _ _ _ _ C Q), work_code by done. unfold code_work. rewrite Ea, Ef. cbn [at_ frames place_work length]. lia.
  - right. apply not_Forall_Exists in Hex; [|intros x; apply _]. apply Exists_exists in Hex as (c & Hc%elem_of_seqZ & Hex).
    assert (cpu c) as Hc' by lia. simpl in Hex. apply not_true_is_false, not_settled in Hex as [Hf|[Ef Hq]].
    + destruct (frames (cpus s c)) as [|fr fs] eqn:Ef; [done|].
      destruct (return_ok c s fr fs Hc' Cm Ef) as (s' & E & _ & W). exists [(c, HandlerReturn)], s'.
      split; [apply Forall_singleton; right; by left|]. split; [done|]. split; [|done]. simpl. unfold exec. by rewrite Ef, E.
    + destruct (finished (at_ (cpus s c))) eqn:Fin.
      * destruct Hq as [Hq|]; [|done]. destruct (queue s c) as [|m r] eqn:Eq; [done|].
        destruct (one_ok c s m r Hc' Cm Eq) as (s' & E & _ & W); [by rewrite Ef|by destruct (at_ (cpus s c))|].
        destruct (at_ (cpus s c)) as [|f i|f|f i r'|f i|f i|k] eqn:Ea; try done.
        -- exists [(c, ProcessOne)], s'. split; [apply Forall_singleton; right; by right|].
           split; [split; [done|]; split; [done|]; split; [intros _; simpl; by rewrite Ef|done]|].
           split; [|done]. simpl. unfold exec. rewrite Ef, Ea. simpl. by rewrite E.
        -- exists [(c, Continue)], s'. split; [apply Forall_singleton; by left|]. split; [by apply (kept_continue c 1)|].
           split; [|done]. simpl. unfold exec. rewrite Ef. unfold continue_step. by rewrite Ea, E.
      * destruct (continue_ok c s Hc' I Cm Ef) as (s' & E & _ & W). exists [(c, Continue)], s'.
        split; [apply Forall_singleton; by left|]. split; [by apply (kept_continue c 1)|].
        split; [|by apply W]. simpl. unfold exec. by rewrite Ef, E.
Qed.

Lemma work_pos s : inv N s -> 0 <= work (cpus s) (queue s).
Proof using HN.
  intros I. assert (forall w : Z -> Z, (forall c, cpu c -> 0 <= w c) -> 0 <= total w) as T.
  { intros w H. rewrite (total_ext (fun c => Z.max 0 (w c)) w) by (intros c Hc; specialize (H c Hc); lia).
    apply total_pos. lia. }
  unfold work. apply Z.add_nonneg_nonneg; apply T; intros c Hc; [|nia].
  pose proof (inv_place N _ I c Hc) as [Hp _]. unfold code_work.
  enough (0 <= place_work (at_ (cpus s c))) by nia. destruct (at_ (cpus s c)); simpl in *; nia.
Qed.

Lemma completes s : inv N s -> calm (cpus s) (queue s) ->
  exists acts s', Forall completing acts /\ kept acts s /\ run N acts s = Ok s' /\ all_done s'.
Proof using HN.
  intros I Cm. remember (Z.to_nat (work (cpus s) (queue s))) as n eqn:En.
  revert s En I Cm. induction (lt_wf n) as [n _ IH]; intros s En I Cm.
  destruct (progress s I Cm) as [D|(acts & s1 & Hc & K & E & W)]; [by exists [], s|].
  destruct (kept_run acts s K I Cm) as (s1' & E' & I1 & Cm1). rewrite E in E'. injection E' as <-.
  pose proof (work_pos s1 I1). pose proof (work_pos s I).
  destruct (IH (Z.to_nat (work (cpus s1) (queue s1))) ltac:(lia) s1 eq_refl I1 Cm1) as (acts2 & s2 & Hc2 & K2 & E2 & D).
  exists (acts ++ acts2), s2. split; [by apply Forall_app|]. split; [apply kept_app; [done|congruence]|].
  split; [|done]. by rewrite run_app, E.
Qed.

End Live.

Lemma kept_simple N acts s : Forall (fun x => 0 <= x.1 < N /\ client_ok x.2 /\ x.2 <> ProcessOne) acts -> kept N acts s.
Proof.
  intros H. revert s. induction H as [|x acts (Hc & Ha & Hp) H IH]; intros s; [done|]. simpl.
  split; [done|]. split; [done|]. split; [by intros ?|]. intros s' _. apply IH.
Qed.

(** C12. When the senders name a handler and the handlers started by ipc_process_all_ipc_messages
    serve no messages themselves, no interleaving of the steps of the processors faults; and at any moment the
    processors, by going on with what they have begun and serving their queues, can complete all sends and
    empty all queues: processors that send to each other do not deadlock. A step is one critical section of a
    queue's lock, or one access outside of them: these are the interleavings in which the locks exclude, that
    is, in which no processor touches a lock's word during another's compare-exchange. The compare-exchange of
    the source does not ensure that by itself (lock_mutual_exclusion and lock_mutual_exclusion_fails of Lock). *)
Theorem ipc_no_deadlock (N : Z) (acts : list (Z * action)) : 0 < N <= 80 -> kept N acts ipc_start ->
  exists s, run N acts ipc_start = Ok s /\
    exists acts' s', Forall completing acts' /\ run N acts' s = Ok s' /\ all_done N s'.
Proof.
  intros HN K. destruct (kept_run N HN acts _ K (inv_start N) (calm_start N)) as (s & E & I & Cm).
  exists s. split; [done|]. destruct (completes N HN s I Cm) as (acts' & s' & Hc & _ & E' & D). by exists acts', s'.
Qed.

(** Both have put their message into the other's queue, and wait. *)
Definition both_wait : list (Z * action) :=
  [(0, ToActive); (1, ToActive); (0, Send true to_all IPC_TYPE_NORMAL 77 5); (1, Send true to_all IPC_TYPE_NORMAL 78 6)]
  ++ replicate 3 (0, Continue) ++ replicate 3 (1, Continue).

Lemma ipc_no_deadlock_witness : exists s, run 2 both_wait ipc_start = Ok s /\
  exists acts' s', Forall completing acts' /\ run 2 acts' s = Ok s' /\ all_done 2 s'.
Proof.
  apply (ipc_no_deadlock 2 both_wait); [lia|]. apply kept_simple.
  repeat (apply Forall_cons; split; [simpl; repeat split; done || lia || (left; lia)|]). apply Forall_nil. exact I.
Defined.

(** * Deviations *)

Definition to_one (j : Z) : IPC_DESTINATION := mk_dst IPI_DST_NO_SHORTHAND j [0; 0].

(** Two messages wait on processor 2, whose NMI exit processes them; the handler of the first
    serves its queue, as stop_cpu_handler does while its processor is stopped. The loop of
    ipc_process_all_ipc_messages has decided before the call of the handler that there is another
    message, and reads through NULL when it returns. *)
Theorem ipc_process_all_reads_null : run 3
  ([(0, ToActive); (1, ToActive); (2, ToActive); (0, Send false (to_one 2) IPC_TYPE_STOP 77 5)] ++ replicate 4 (0, Continue) ++
   [(1, Send false (to_one 2) IPC_TYPE_NORMAL 78 6)] ++ replicate 4 (1, Continue) ++
   [(2, NmiExit); (2, ProcessOne); (2, HandlerReturn); (2, HandlerReturn)]) ipc_start = Fault.
Proof. vm_compute. reflexivity. Qed.

(** A message that is served before its NMI arrives, and a second one: the NMIs of both are one
    for the processor, and from then on each exit for a message also gives the guest an NMI that
    nobody sent ([EvExit 1 false]). *)
Definition serve_by_nmi : list (Z * action) :=
  (0, Send false (to_one 1) IPC_TYPE_NORMAL 77 5) :: replicate 3 (0, Continue) ++
  [(1, NmiExit); (1, HandlerReturn); (1, Continue)] ++ replicate 4 (0, Continue).

Definition is_exit (e : event) : bool := match e with EvExit _ _ => true | _ => false end.

Theorem ipc_merged_nmi_injects :
  let l := log (end_of (run 2 ([(0, ToActive); (1, ToActive); (0, Send false (to_one 1) IPC_TYPE_NORMAL 77 5)] ++
    replicate 3 (0, Continue) ++ [(1, ProcessOne); (1, HandlerReturn)] ++ replicate 4 (0, Continue) ++
    serve_by_nmi ++ serve_by_nmi ++ serve_by_nmi) ipc_start)) in
  filter (fun e => is_exit e = true) l = replicate 3 (EvExit 1 false).
Proof. vm_compute. reflexivity. Qed.
