(* ===== verification/IpcApi.v ===== *)
(** ipc/ipc_api.c on top of Ipc: stopping and starting the other processors, and the memory that
    ipc_initialize and ipc_state_init lay out.

    A stop sends the message [stop_cpu_handler] to all other processors; each of them serves
    its queue in a loop until the context says that it may go on. The model adds the contexts,
    the lock of start and stop, and the place of each processor in execute_stop and execute_start
    to the processors of Ipc; the handler of a stop returns only when its loop ends. *)

From stdpp Require Import functions.
From S2P Require Import Prelude VmmDefs Lock Dlist ArrayList Ipc IpcSpec.

(** * Data *)

Definition INVALID_GUEST_ID : Z := 65535.
Definition STOP_ALL_CONTEXT_ID : Z := INVALID_GUEST_ID.

(** is_destination_fn with its argument: [all_cpus], or [is_cpu_running_guest] of a guest. *)
Inductive is_destination_fn := all_cpus | is_cpu_running_guest (guest_id : Z).

Record STOP_CPU_CONTEXT := mk_stop {
  stop : bool;
  timestamp : Z;
  current_timestamp : Z;
  num_stopped_cpus : Z;
  on_start_handler : Z;
  on_start_handler_arg : Z;
  is_destination : option is_destination_fn;
  guest_id : Z }.

(** A context after vmm_zeromem, with its guest. *)
Definition zero_context (guest_id : Z) : STOP_CPU_CONTEXT := mk_stop false 0 0 0 0 0 None guest_id.

Inductive api_place := ApiOutside | InStop (context : Z) | InStart (context : Z).

Record api := mk_api {
  processors : ipc;
  ipc_stop_context : list Z;                  (** the list of contexts, by address *)
  contexts : gmap Z STOP_CPU_CONTEXT;
  stop_lock : option Z;                       (** the processor that holds it *)
  api_at : Z -> api_place;
  results : list (Z * Z) }.                   (** what stop and start returned, and to whom *)

Definition set_processors (x : ipc) (s : api) : api :=
  mk_api x (ipc_stop_context s) (contexts s) (stop_lock s) (api_at s) (results s).
Definition set_context (p : Z) (x : STOP_CPU_CONTEXT) (s : api) : api :=
  mk_api (processors s) (ipc_stop_context s) (<[p := x]> (contexts s)) (stop_lock s) (api_at s) (results s).
Definition set_lock (x : option Z) (s : api) : api :=
  mk_api (processors s) (ipc_stop_context s) (contexts s) x (api_at s) (results s).
Definition set_api_at (c : Z) (x : api_place) (s : api) : api :=
  mk_api (processors s) (ipc_stop_context s) (contexts s) (stop_lock s) (<[c := x]> (api_at s)) (results s).
Definition give (c r : Z) (s : api) : api :=
  mk_api (processors s) (ipc_stop_context s) (contexts s) (stop_lock s) (api_at s) ((c, r) :: results s).

Definition context_at (s : api) (p : Z) : outcome STOP_CPU_CONTEXT :=
  match contexts s !! p with Some x => Ok x | None => Fault end.

Section Api.
(** The processors, the address of stop_cpu_handler, and what the scheduler says: whether a
    processor runs a guest. *)
Context (num_of_host_processors : Z) (stop_cpu_handler : Z) (runs_guest : Z -> Z -> bool).

Definition is_destination_call (f : option is_destination_fn) (cpu_id : Z) : outcome bool :=
  match f with
  | None => Fault
  | Some all_cpus => Ok true
  | Some (is_cpu_running_guest g) => Ok (runs_guest cpu_id g)
  end.

(** * Operations *)

Definition ipc_find_stop_guest_cpus_context (s : api) (id : Z) : Z :=
  match filter (fun p => guest_id <$> contexts s !! p = Some id) (ipc_stop_context s) with
  | p :: _ => p
  | [] => 0
  end.

(** execute_stop up to the call of ipc_send_message, with the lock taken. *)
Definition execute_stop (c context : Z) (f : is_destination_fn) (s : api) : outcome api :=
  x ← context_at s context;
  if stop x then Ok (give c 0 s)
  else
    let now := current_timestamp x ⊕₃₂ 1 in
    let x := mk_stop true now now (num_stopped_cpus x) (on_start_handler x) (on_start_handler_arg x) (Some f) (guest_id x) in
    let dst := mk_dst IPI_DST_ALL_EXCLUDING_SELF 0 (replicate (Z.to_nat CPU_BITMAP_MAX) 0) in
    Ok (set_api_at c (InStop context) (set_lock (Some c) (set_context context x
          (set_processors (ipc_send_message num_of_host_processors c dst IPC_TYPE_STOP stop_cpu_handler context (processors s)) s)))).

(** ... and after it has returned [n]. *)
Definition execute_stop_end (c context n : Z) (s : api) : outcome api :=
  x ← context_at s context;
  let x := mk_stop (stop x) (timestamp x) (current_timestamp x) n (on_start_handler x) (on_start_handler_arg x)
             (is_destination x) (guest_id x) in
  Ok (give c 1 (set_api_at c ApiOutside (set_lock None (set_context context x s)))).

Definition execute_start (c context handler arg : Z) (s : api) : outcome api :=
  x ← context_at s context;
  if stop x then
    let x := mk_stop false (timestamp x) (current_timestamp x) (num_stopped_cpus x) handler arg (is_destination x) (guest_id x) in
    let dst := mk_dst IPI_DST_ALL_EXCLUDING_SELF 0 (replicate (Z.to_nat CPU_BITMAP_MAX) 0) in
    Ok (set_api_at c (InStart context) (set_lock (Some c) (set_context context x
          (set_processors (ipc_send_message num_of_host_processors c dst IPC_TYPE_START 0 0 (processors s)) s))))
  else Ok (give c 0 s).

Definition execute_start_end (c context : Z) (s : api) : outcome api :=
  x ← context_at s context; Ok (give c (num_stopped_cpus x) (set_api_at c ApiOutside (set_lock None s))).

Definition stop_all_cpus (c : Z) (s : api) : outcome api :=
  execute_stop c (ipc_find_stop_guest_cpus_context s STOP_ALL_CONTEXT_ID) all_cpus s.
Definition start_all_cpus (c handler arg : Z) (s : api) : outcome api :=
  execute_start c (ipc_find_stop_guest_cpus_context s STOP_ALL_CONTEXT_ID) handler arg s.
Definition stop_all_guest_cpus (c id : Z) (s : api) : outcome api :=
  execute_stop c (ipc_find_stop_guest_cpus_context s id) (is_cpu_running_guest id) s.
Definition start_all_guest_cpus (c id handler arg : Z) (s : api) : outcome api :=
  execute_start c (ipc_find_stop_guest_cpus_context s id) handler arg s.

(** Does the handler of a stop stay in its loop? *)
Definition stays_stopped (s : api) (c context : Z) : outcome bool :=
  x ← context_at s context;
  dest ← is_destination_call (is_destination x) c;
  Ok (dest && stop x && (timestamp x =? current_timestamp x)).

(** * The steps of a processor *)

Inductive api_action :=
| Ipc (a : action)
| StopAll
| StartAll (handler arg : Z)
| StopGuest (id : Z)
| StartGuest (id handler arg : Z).

(** Only execute_stop sends stop_cpu_handler. *)
Definition client_action (a : action) : bool :=
  match a with Send _ _ _ h _ => negb (h =? stop_cpu_handler) | _ => true end.

(** After a step of the processor's code: the call of ipc_send_message may have returned. *)
Definition after_send (c : Z) (s : api) : outcome api :=
  match api_at s c, is_outside (at_ (cpus (processors s) c)), log (processors s) with
  | InStop context, true, EvReturn _ n :: _ => execute_stop_end c context n s
  | InStart context, true, _ => execute_start_end c context s
  | _, _, _ => Ok s
  end.

Definition api_exec (c : Z) (a : api_action) (s : api) : outcome api :=
  let t := processors s in
  let free := match api_at s c, frames (cpus t c) with ApiOutside, [] => is_outside (at_ (cpus t c)) | _, _ => false end in
  match a with
  | Ipc a =>
      in_loop ← match a, frames (cpus t c) with
                | HandlerReturn, fr :: _ =>
                    if handler (f_msg fr) =? stop_cpu_handler then stays_stopped s c (arg (f_msg fr)) else Ok false
                | _, _ => Ok false
                end;
      if in_loop || negb (client_action a) then Ok s
      else t ← exec num_of_host_processors c a t; after_send c (set_processors t s)
  | StopAll => if free && bool_decide (stop_lock s = None) then stop_all_cpus c s else Ok s
  | StartAll h arg => if free && bool_decide (stop_lock s = None) then start_all_cpus c h arg s else Ok s
  | StopGuest id => if free && bool_decide (stop_lock s = None) then stop_all_guest_cpus c id s else Ok s
  | StartGuest id h arg => if free && bool_decide (stop_lock s = None) then start_all_guest_cpus c id h arg s else Ok s
  end.

Fixpoint api_run (acts : list (Z * api_action)) (s : api) : outcome api :=
  match acts with
  | [] => Ok s
  | (c, a) :: acts' => s ← api_exec c a s; api_run acts' s
  end.

(** ** Initialisation *)

(** ipc_guest_initialize; [p] is what vmm_malloc returned. A NULL is only asserted against. *)
Definition ipc_guest_initialize (p id : Z) (s : api) : outcome api :=
  if p =? 0 then Fault
  else Ok (mk_api (processors s) (p :: ipc_stop_context s) (<[p := zero_context id]> (contexts s)) (stop_lock s)
             (api_at s) (results s)).

Fixpoint initialize_guests (malloc : nat -> Z) (k : nat) (guests : list Z) (s : api) : outcome api :=
  match guests with
  | [] => Ok s
  | id :: guests' => s ← ipc_guest_initialize (malloc k) id s; initialize_guests malloc (S k) guests' s
  end.

(** ipc_initialize after ipc_state_init; [guests] are the guests that guest_first and guest_next
    give, and [malloc k] is what the k-th call of vmm_malloc returns. *)
Definition ipc_initialize (malloc : nat -> Z) (guests : list Z) : outcome api :=
  s ← ipc_guest_initialize (malloc 0%nat) INVALID_GUEST_ID (mk_api ipc_start [] ∅ None (fun _ => ApiOutside) []);
  initialize_guests malloc 1 guests s.

End Api.

(** * What a step adds *)

(** A step of [c] adds the handlers [pre] and the events [es], and changes no other processor's
    code. *)
Record adds (c : Z) (s s' : ipc) (pre : list frame) (es : list event) : Prop := {
  ad_log : log s' = es ++ log s;
  ad_frames : frames (cpus s' c) = pre ++ frames (cpus s c);
  ad_other j : j <> c -> cpus s' j = cpus s j }.

Lemma adds_refl c s : adds c s s [] [].
Proof. done. Qed.

Lemma adds_trans c s s1 s2 p1 e1 p2 e2 : adds c s s1 p1 e1 -> adds c s1 s2 p2 e2 -> adds c s s2 (p2 ++ p1) (e2 ++ e1).
Proof.
  intros [L1 F1 O1] [L2 F2 O2]. split.
  - by rewrite L2, L1, app_assoc.
  - by rewrite F2, F1, app_assoc.
  - intros j Hj. by rewrite O2, O1.
Qed.

Lemma adds_emit c e s : adds c s (emit e s) [] [e].
Proof. done. Qed.

Lemma adds_goto c p s : adds c s (goto c p s) [] [].
Proof.
  split; [done|apply frames_goto|]. intros j Hj. unfold goto, set_code. simpl. by rewrite fn_lookup_insert_ne.
Qed.

(** No message is received, and nobody starts a send. *)
Definition mild (es : list event) : Prop := Forall (fun e => match e with EvReceive _ _ | EvStart _ => False | _ => True end) es.

Lemma mild_app es es' : mild es -> mild es' -> mild (es ++ es').
Proof. intros. by apply Forall_app. Qed.

(** A step that calls no handler. *)
Definition plain (c : Z) (s s' : ipc) : Prop := exists es, mild es /\ adds c s s' [] es.

Lemma plain_trans c s s1 s2 : plain c s s1 -> plain c s1 s2 -> plain c s s2.
Proof. intros (e1 & M1 & A1) (e2 & M2 & A2). exists (e2 ++ e1). split; [by apply mild_app|]. by apply (adds_trans c s s1 s2 [] e1 [] e2). Qed.

Lemma plain_same c s s' : cpus s' = cpus s -> log s' = log s -> plain c s s'.
Proof. intros C L. exists []. split; [constructor|]. split; [done|by rewrite C|by rewrite C]. Qed.

Lemma plain_emit c e s s' : (match e with EvReceive _ _ | EvStart _ => False | _ => True end) -> plain c s s' -> plain c s (emit e s').
Proof. intros M P. apply (plain_trans c s s'); [done|]. exists [e]. split; [by apply Forall_singleton|apply adds_emit]. Qed.

Lemma plain_goto c p s s' : plain c s s' -> plain c s (goto c p s').
Proof. intros P. apply (plain_trans c s s'); [done|]. exists []. split; [constructor|apply adds_goto]. Qed.

(** The messages received in [es] have their handlers in [pre]; nobody starts a send. *)
Definition grows (c : Z) (s s' : ipc) : Prop := exists pre es, adds c s s' pre es /\
  (forall j m, EvReceive j m ∈ es -> j = c /\ m ∈ f_msg <$> pre) /\ (forall d, EvStart d ∉ es).

Lemma plain_grows c s s' : plain c s s' -> grows c s s'.
Proof.
  intros (es & M & A). exists [], es. split; [done|]. unfold mild in M. rewrite Forall_forall in M.
  split; [intros j m H|intros d H]; by apply M in H.
Qed.

Lemma grows_trans c s s1 s2 : grows c s s1 -> grows c s1 s2 -> grows c s s2.
Proof.
  intros (p1 & e1 & A1 & R1 & S1) (p2 & e2 & A2 & R2 & S2). exists (p2 ++ p1), (e2 ++ e1).
  split; [by apply (adds_trans c s s1 s2)|]. split.
  - intros j m [H|H]%elem_of_app; [apply R2 in H|apply R1 in H]; destruct H as [-> H]; (split; [done|]);
      rewrite fmap_app; apply elem_of_app; auto.
  - intros d [H|H]%elem_of_app; [by apply S2 in H|by apply S1 in H].
Qed.

Lemma call_grows c s m s1 x t u : ipc_dequeue_message c s = (Some m, s1) -> t = s1 \/ t = processed_nmi c s1 ->
  call_handler c (mk_frame m x) t = Ok u -> grows c s u.
Proof.
  intros E Ht. destruct (dequeue_effect c s m s1 E) as (r & _ & _ & C & _ & L & _). unfold call_handler.
  destruct (_ =? 0); [done|]. intros [= <-].
  assert (cpus t = cpus s /\ log t = EvReceive c m :: log s) as [Ct Lt] by (destruct Ht as [-> | ->]; done).
  exists [mk_frame m x], [EvReceive c m]. split; [|split].
  - split; [done| |].
    + unfold set_frames, set_code. simpl. by rewrite fn_lookup_insert, Ct.
    + intros j Hj. unfold set_frames, set_code. simpl. by rewrite fn_lookup_insert_ne, Ct.
  - intros j m' H%list_elem_of_singleton. injection H as -> ->. split; [done|]. left.
  - intros d H%list_elem_of_singleton. done.
Qed.

Lemma process_one_grows c s b s' : ipc_process_one_ipc c s = Ok (b, s') -> grows c s s'.
Proof.
  unfold ipc_process_one_ipc. destruct (ipc_dequeue_message c s) as [[m|] s1] eqn:E.
  - intros H. ostep H. injection H as _ <-. eapply (call_grows c s m s1 None _ _ E); [|exact E0]. destruct (_ && _); auto.
  - intros [= _ <-]. unfold ipc_dequeue_message in E. destruct (queue s c); [|done]. injection E as <-.
    by apply plain_grows, plain_same.
Qed.

Lemma process_next_grows c nmi s s' : process_next c nmi s = Ok s' -> grows c s s'.
Proof.
  unfold process_next. destruct (ipc_dequeue_message c s) as [[m|] s1] eqn:E; [|done].
  intros H. eapply (call_grows c s m s1 _ _ _ E); [|exact H]. destruct (_ && _); auto.
Qed.

Lemma process_all_grows c nmi s s' : ipc_process_all_ipc_messages c nmi s = Ok s' -> grows c s s'.
Proof.
  unfold ipc_process_all_ipc_messages. destruct (_ =? 0); [intros [= <-]; by apply plain_grows, plain_same|apply process_next_grows].
Qed.

Section Steps.
Context (N : Z).

Lemma signal_plain c f i s f' s' : signal f i s = Ok (f', s') -> plain c s s'.
Proof.
  unfold signal. destruct (is_active s i); intros H; [ostep H|]; injection H as _ <-; apply plain_emit; try done; by apply plain_same.
Qed.

Lemma preprocess_plain c i ty s b s' : ipc_preprocess_message i ty s = (b, s') -> plain c s s'.
Proof.
  unfold ipc_preprocess_message, ipc_preprocess_normal_message, ipc_preprocess_start_message, ipc_preprocess_stop_message.
  destruct (_ =? _); [intros [= _ <-]|destruct (_ =? _); [intros [= _ <-]|destruct (_ =? _); intros [= _ <-]]]; by apply plain_same.
Qed.

Lemma send_one_plain c i f s f' s' : send_one N c i f s = Ok (f', s') -> plain c s s'.
Proof.
  unfold send_one. destruct (ipc_preprocess_message i (s_type f) s) as [b t] eqn:E.
  apply (preprocess_plain c) in E. destruct b; [|by intros [= _ <-]]. intros H. ostep H. cbv zeta in H.
  set (g := mk_send _ _ _ _ _ _ _ _) in *. destruct (if wait_for_handler_finish g then _ else _) as [before after].
  destruct (ipc_enqueue_message N c i (s_type g) (s_handler g) (s_arg g) before after t) as [ok t1] eqn:E1.
  assert (plain c s t1) as P1.
  { revert E1. unfold ipc_enqueue_message. destruct (_ <? _); intros [= _ <-]; [|done]. apply plain_emit; [done|].
    apply (plain_trans c s t); [done|by apply plain_same]. }
  assert (plain c s (count_up i num_of_sent_ipc_messages t1)) as P2 by (apply (plain_trans c s t1); [done|by apply plain_same]).
  destruct (_ =? 0); [|by injection H as _ <-]. apply (signal_plain c) in H. by eapply plain_trans.
Qed.

Lemma continue_grows c s s' : continue_step N c s = Ok s' -> grows c s s'.
Proof.
  assert (plain c s s) as Hs by by apply plain_same.
  unfold continue_step. destruct (at_ (cpus s c)) as [|f i|f|f i r|f i|f i|k].
  - intros [= <-]. by apply plain_grows.
  - intros H. apply plain_grows. revert H. unfold send_step. destruct (i <? N).
    + destruct (i =? c); [intros [= <-]; by apply plain_goto|]. intros H. ostep H. destruct r; [|injection H as <-; by apply plain_goto].
      ostep H. injection H as <-. apply plain_goto. destruct r. by apply (send_one_plain c i f s s0).
    + destruct (_ <? _); intros [= <-]; apply plain_goto; [done|by apply plain_emit].
  - intros H. ostep H. destruct r as [b t]. apply process_one_grows in E. injection H as <-. simpl. destruct b; [done|].
    apply (grows_trans c s t); [done|]. by apply plain_grows, plain_goto, plain_same.
  - intros H. apply plain_grows. revert H. unfold count_step. destruct (i <? N); [intros [= <-]; by apply plain_goto|].
    destruct (_ =? _); intros [= <-]; apply plain_goto; [by apply plain_emit|done].
  - intros H. apply plain_grows. revert H. unfold resend_step. destruct (i <? N); [|intros [= <-]; by apply plain_goto].
    intros H. ostep H. destruct (_ && _); injection H as <-; by apply plain_goto.
  - intros H. apply plain_grows. revert H. unfold resignal_step. destruct (is_active s i); [|intros [= <-]; by apply plain_goto, plain_emit].
    intros H. ostep H. ostep H. injection H as <-. apply plain_goto. destruct (_ =? 0).
    + destruct r0. by apply (signal_plain c f i s s0).
    + injection E0 as <-. by apply plain_emit.
  - intros [= <-]. apply plain_grows. destruct k; simpl; [..|by apply plain_goto, plain_emit, plain_same];
      unfold dispatcher_decision; (destruct (_ <? _); [by apply plain_goto, plain_emit, plain_same|]);
      (destruct (_ && _); apply plain_goto, plain_emit; try done); unfold nmi_raise_this; destruct (N <=? c); by apply plain_same.
Qed.

Definition popped (a : action) (fs : list frame) : list frame := match a with HandlerReturn => tail fs | _ => fs end.
Definition is_send (a : action) : bool := match a with Send _ _ _ _ _ => true | _ => false end.

(** Every step: the handler that returns leaves, others may be called. *)
Record exec_adds (c : Z) (a : action) (s s' : ipc) (pre : list frame) (es : list event) : Prop := {
  xa_log : log s' = es ++ log s;
  xa_frames : frames (cpus s' c) = pre ++ popped a (frames (cpus s c));
  xa_other j : j <> c -> cpus s' j = cpus s j;
  xa_receive j m : EvReceive j m ∈ es -> j = c /\ m ∈ f_msg <$> pre;
  xa_start d : EvStart d ∈ es -> d = c /\ is_send a = true }.

Lemma grows_exec c a s s' : a <> HandlerReturn -> grows c s s' -> exists pre es, exec_adds c a s s' pre es.
Proof.
  intros Ha (pre & es & [L F O] & R & S). exists pre, es. split; try done; [by destruct a|].
  intros d H. by apply S in H.
Qed.

Lemma return_adds c s s' : handler_return c s = Ok s' -> exists pre es, exec_adds c HandlerReturn s s' pre es.
Proof.
  unfold handler_return. destruct (frames (cpus s c)) as [|fr fs] eqn:E.
  { intros [= <-]. exists [], []. split; try done; [by rewrite E|..]; intros; by apply not_elem_of_nil in H. }
  set (t := emit _ _). intros H.
  assert (log t = EvFinish c (f_msg fr) :: log s /\ frames (cpus t c) = fs /\ forall j, j <> c -> cpus t j = cpus s j) as (L & F & O).
  { unfold t. destruct (after_handler_ack (f_msg fr)); simpl; (split; [done|]; split; [by rewrite fn_lookup_insert|]);
      intros j Hj; by rewrite fn_lookup_insert_ne. }
  assert (grows c t s') as (pre & es & [L' F' O'] & R & S).
  { destruct (f_all fr) as [[nmi last]|]; [destruct last|].
    - injection H as <-. by apply plain_grows, plain_same.
    - by apply process_next_grows in H.
    - apply plain_grows. destruct fs; [|injection H as <-; by apply plain_same].
      destruct (at_ (cpus t c)); injection H as <-; try (by apply plain_same). by apply plain_goto, plain_same. }
  exists pre, (es ++ [EvFinish c (f_msg fr)]). split.
  - by rewrite L', L, <- app_assoc.
  - by rewrite F', F, E.
  - intros j Hj. by rewrite O', O.
  - intros j m [X|X%list_elem_of_singleton]%elem_of_app; [by apply R|done].
  - intros d [X|X%list_elem_of_singleton]%elem_of_app; [by apply S in X|done].
Qed.

Lemma exec_effect c a s s' : exec N c a s = Ok s' -> exists pre es, exec_adds c a s s' pre es.
Proof.
  assert (Same : a <> HandlerReturn -> exists pre es, exec_adds c a s s pre es) by (intros; by apply grows_exec, plain_grows, plain_same).
  assert (Isr : plain c s (ipc_nmi_interrupt_handler c s)) by (apply plain_emit; [done|by apply plain_same]).
  assert (One : forall o, (r ← ipc_process_one_ipc c s; Ok r.2) = Ok o -> grows c s o).
  { intros o H. ostep H. injection H as <-. destruct r as [b t]. by apply (process_one_grows c s b). }
  unfold exec. destruct (frames (cpus s c)) as [|fr fs] eqn:Ef.
  - destruct a; cbn [is_outside]; try (destruct (is_outside _); [|intros [= <-]; by apply Same]).
    + intros [= <-]. set (k := EvCall c _). assert (Ek : (if sync then ipc_send_message_sync N else ipc_send_message N) c dst type handler arg (emit k s)
        = ipc_send_message_gen N sync c dst type handler arg (emit k s)) by by destruct sync.
      rewrite Ek. unfold ipc_send_message_gen. destruct (send_ok dst type).
      * exists [], [EvStart c; k]. destruct (adds_goto c (Enqueueing (mk_send dst type handler arg sync 0 (replicate (Z.to_nat CPU_BITMAP_MAX) 0)
          (replicate (Z.to_nat CPU_BITMAP_MAX) 0)) 0) (clear_row N c (emit (EvStart c) (emit k s)))) as [L F O].
        split; [done|exact F|exact O|intros ? ? [X|X%list_elem_of_singleton]%elem_of_cons; done|].
        intros ? [X|X%list_elem_of_singleton]%elem_of_cons; [injection X as ->; done|done].
      * exists [], [EvReturn c 0; EvStart c; k]. split; try done.
        -- intros ? ? [X|[X|X%list_elem_of_singleton]%elem_of_cons]%elem_of_cons; done.
        -- intros ? [X|[X|X%list_elem_of_singleton]%elem_of_cons]%elem_of_cons; [done|injection X as ->; done|done].
    + intros H. apply grows_exec; [done|]. by apply continue_grows.
    + intros H. apply grows_exec, plain_grows; [done|]. destruct (at_ (cpus s c)); injection H as <-; try (by apply plain_same).
      by apply plain_goto, plain_same.
    + intros H. by apply grows_exec, One.
    + intros [= <-]. exists [], []. split; try done; [by rewrite Ef|..]; intros; by apply not_elem_of_nil in H.
    + intros [= <-]. by apply grows_exec, plain_grows.
    + intros H. apply grows_exec; [done|]. apply (grows_trans c s _ _ (plain_grows _ _ _ (plain_goto c (Exit ExitNmi) s _ (plain_same c s (count_up c num_received_nmi_interrupts s) eq_refl eq_refl)))).
      by apply process_all_grows in H.
    + intros H. apply grows_exec; [done|]. apply (grows_trans c s (goto c (Exit ExitNmiWindow) (emit (EvNoWindow c) s))).
      * apply plain_grows, plain_goto, plain_emit; [done|by apply plain_same].
      * by apply process_all_grows in H.
    + unfold ipc_sipi_vmexit_handler. destruct (vector =? 0xFF).
      * intros H. apply grows_exec; [done|]. apply (grows_trans c s (goto c (Exit ExitSipi) s)).
        -- by apply plain_grows, plain_goto, plain_same.
        -- by apply process_all_grows in H.
      * intros [= <-]. apply grows_exec, plain_grows, plain_emit; [done|done|by apply plain_same].
    + intros [= <-]. apply grows_exec, plain_grows; [done|]. unfold ipc_change_state_to_active.
      destruct (is_active s c); by apply plain_same.
    + intros [= <-]. apply grows_exec, plain_grows; [done|]. unfold ipc_change_state_to_sipi.
      destruct (bool_decide _); [by apply plain_same|]. by apply plain_emit, plain_same.
    + intros [= <-]. by apply grows_exec, plain_grows, plain_same.
    + intros [= <-]. by apply grows_exec, plain_grows, plain_same.
  - destruct a; try (by intros [= <-]; apply Same).
    + intros H. by apply grows_exec, One.
    + apply return_adds.
    + intros [= <-]. by apply grows_exec, plain_grows.
Qed.

End Steps.

(** * A stop *)

Section Stop.
Context (N : Z) (HN : 0 < N <= 80) (stop_cpu_handler : Z) (runs_guest : Z -> Z -> bool).
Notation cpu c := (0 <= c < N).
Notation api_exec := (api_exec N stop_cpu_handler runs_guest).

(** [m] is the message of a stop with the context [p]. *)
Definition stop_message (p : Z) (m : IPC_MESSAGE) : Prop := handler m = stop_cpu_handler /\ arg m = p.

(** The handler of such a message is running on [j], if [j] is a destination of the stop. *)
Definition stopped (t : ipc) (x : STOP_CPU_CONTEXT) (p j : Z) : Prop :=
  is_destination_call runs_guest (is_destination x) j = Ok true ->
  exists m, m ∈ f_msg <$> frames (cpus t j) /\ stop_message p m.

Record stop_inv (s : api) : Prop := {
  si_base : inv N (processors s);
  si_time p x : contexts s !! p = Some x -> timestamp x = current_timestamp x;
  si_lock c : api_at s c <> ApiOutside -> stop_lock s = Some c;
  si_in c p : api_at s c = InStop p -> cpu c /\ exists x f, contexts s !! p = Some x /\ stop x = true /\
    sending (at_ (cpus (processors s) c)) = Some f /\ stop_message p (message N (job_of f) c 0) /\
    forall j, EvReceive j (message N (job_of f) c j) ∈ since c (log (processors s)) -> stopped (processors s) x p j;
  si_stop p x : contexts s !! p = Some x -> stop x = true -> (forall c, api_at s c <> InStop p) ->
    exists T, NoDup T /\ num_stopped_cpus x = Z.of_nat (length T) /\ forall j, j ∈ T -> cpu j /\ stopped (processors s) x p j }.

Lemma since_app c es l : EvStart c ∉ es -> since c (es ++ l) = es ++ since c l.
Proof.
  induction es as [|e es IH]; intros H; [done|]. rewrite not_elem_of_cons in H. destruct H as [H1 H2].
  simpl. rewrite decide_False by congruence. f_equal. by apply IH.
Qed.

(** ** A processor in a send *)

Definition same_message (f f' : send) : Prop := forall c j, message N (job_of f') c j = message N (job_of f) c j.

Lemma same_message_eq f f' : (s_type f', s_handler f', s_arg f', wait_for_handler_finish f')
  = (s_type f, s_handler f, s_arg f, wait_for_handler_finish f) -> same_message f f'.
Proof. intros [= E1 E2 E3 E4] c j. unfold message. simpl. by rewrite E1, E2, E3, E4. Qed.

Lemma signal_message f i s f' s' : signal f i s = Ok (f', s') -> same_message f f'.
Proof. unfold signal. destruct (is_active s i); intros H; [ostep H|]; injection H as <- _; by apply same_message_eq. Qed.

Lemma same_message_trans f g h : same_message f g -> same_message g h -> same_message f h.
Proof. intros A B c j. by rewrite B, A. Qed.

Lemma send_one_message c i f s f' s' : send_one N c i f s = Ok (f', s') -> same_message f f'.
Proof.
  unfold send_one. destruct (ipc_preprocess_message i (s_type f) s) as [b t]. destruct b; [|by intros [= <- _]].
  intros H. ostep H. cbv zeta in H. set (g := mk_send _ _ _ _ _ _ _ _) in *.
  assert (same_message f g) as G by by apply same_message_eq.
  destruct (if wait_for_handler_finish g then _ else _) as [before after].
  destruct (ipc_enqueue_message N c i (s_type g) (s_handler g) (s_arg g) before after t) as [ok t1].
  destruct (_ =? 0); [|by injection H as <- _]. apply signal_message in H. by apply (same_message_trans f g).
Qed.

(** Where a processor in the send [f] is after a step: still in it, or returned. *)
Definition goes_on (c : Z) (f : send) (s s' : ipc) : Prop :=
  (exists f', sending (at_ (cpus s' c)) = Some f' /\ same_message f f') \/
  (at_ (cpus s' c) = Outside /\ log s' = EvReturn c (num_required_acks f) :: log s /\ frames (cpus s' c) = frames (cpus s c)).

Lemma goes_on_at c f s s' p : at_ (cpus s' c) = p -> (exists f', sending p = Some f' /\ same_message f f') -> goes_on c f s s'.
Proof. intros E H. left. by rewrite E. Qed.

Lemma at_goto_here c p s : at_ (cpus (goto c p s) c) = p.
Proof. rewrite at_goto. by rewrite decide_True. Qed.

Lemma goes_on_return c f s : goes_on c f s (goto c Outside (emit (EvReturn c (num_required_acks f)) s)).
Proof. right. split; [apply at_goto_here|]. split; [done|]. apply (frames_goto c _ (emit _ s)). Qed.

Lemma call_at c s m s1 x t u : ipc_dequeue_message c s = (Some m, s1) -> t = s1 \/ t = processed_nmi c s1 ->
  call_handler c (mk_frame m x) t = Ok u -> at_ (cpus u c) = at_ (cpus s c).
Proof.
  intros E Ht. destruct (dequeue_effect c s m s1 E) as (r & _ & _ & C & _). unfold call_handler.
  destruct (_ =? 0); [done|]. intros [= <-]. rewrite at_set_frames. destruct Ht as [-> | ->]; [|change (cpus (processed_nmi c s1)) with (cpus s1)]; by rewrite C.
Qed.

Lemma process_one_at c s b s' : ipc_process_one_ipc c s = Ok (b, s') -> at_ (cpus s' c) = at_ (cpus s c).
Proof.
  unfold ipc_process_one_ipc. destruct (ipc_dequeue_message c s) as [[m|] s1] eqn:E.
  - intros H. ostep H. injection H as _ <-. eapply (call_at c s m s1 None _ _ E); [|exact E0]. destruct (_ && _); auto.
  - intros [= _ <-]. unfold ipc_dequeue_message in E. destruct (queue s c); [|done]. by injection E as <-.
Qed.

Lemma process_next_at c nmi s s' : process_next c nmi s = Ok s' -> at_ (cpus s' c) = at_ (cpus s c).
Proof.
  unfold process_next. destruct (ipc_dequeue_message c s) as [[m|] s1] eqn:E; [|done].
  intros H. eapply (call_at c s m s1 _ _ _ E); [|exact H]. destruct (_ && _); auto.
Qed.

Lemma return_goes_on c f s s' : sending (at_ (cpus s c)) = Some f -> handler_return c s = Ok s' -> goes_on c f s s'.
Proof.
  intros Hf. assert (Keep : exists f', sending (at_ (cpus s c)) = Some f' /\ same_message f f') by by exists f.
  unfold handler_return. destruct (frames (cpus s c)) as [|fr fs]; [intros [= <-]; by apply (goes_on_at c f s s _ eq_refl)|].
  set (t := emit _ _). assert (Et : at_ (cpus t c) = at_ (cpus s c)).
  { unfold t. destruct (after_handler_ack (f_msg fr)); simpl; by rewrite fn_lookup_insert. }
  destruct (f_all fr) as [[nmi last]|]; [destruct last|].
  - intros [= <-]. by apply (goes_on_at c f s t _ Et).
  - intros H%process_next_at. apply (goes_on_at c f s s' (at_ (cpus s c))); [congruence|done].
  - destruct fs; [|intros [= <-]; by apply (goes_on_at c f s t _ Et)].
    destruct (at_ (cpus t c)) eqn:Ep; intros [= <-]; try (by apply (goes_on_at c f s t (at_ (cpus s c))); [congruence|]).
    eapply goes_on_at; [apply at_goto_here|]. rewrite <- Et in Hf. exists f0. split; [done|]. injection Hf as ->. done.
Qed.

Lemma continue_goes_on c f s s' : sending (at_ (cpus s c)) = Some f -> continue_step N c s = Ok s' -> goes_on c f s s'.
Proof.
  intros Hf. unfold continue_step. destruct (at_ (cpus s c)) as [|g i|g|g i r|g i|g i|k] eqn:Ea; try done; injection Hf as ->.
  - unfold send_step. assert (Next : forall j, goes_on c f s (goto c (Enqueueing f j) s)).
    { intros j. eapply goes_on_at; [apply at_goto_here|]. by exists f. }
    destruct (i <? N); [destruct (i =? c); [intros [= <-]; apply Next|]|].
    + intros H. ostep H. destruct r; [|injection H as <-; apply Next]. ostep H. injection H as <-. destruct r as [f' t].
      apply send_one_message in E0. eapply goes_on_at; [apply at_goto_here|]. by exists f'.
    + destruct (_ <? _); intros [= <-]; [|apply goes_on_return]. eapply goes_on_at; [apply at_goto_here|]. by exists f.
  - intros H. ostep H. destruct r as [b t]. apply process_one_at in E. injection H as <-. simpl. destruct b.
    + eapply goes_on_at; [exact E|]. rewrite Ea. by exists f.
    + eapply goes_on_at; [apply at_goto_here|]. by exists f.
  - unfold count_step. destruct (i <? N); [intros [= <-]; eapply goes_on_at; [apply at_goto_here|]; by exists f|].
    destruct (_ =? _); intros [= <-]; [apply goes_on_return|]. eapply goes_on_at; [apply at_goto_here|]. by exists f.
  - unfold resend_step. destruct (i <? N); [|intros [= <-]; eapply goes_on_at; [apply at_goto_here|]; by exists f].
    intros H. ostep H. destruct (_ && _); injection H as <-; (eapply goes_on_at; [apply at_goto_here|]; by exists f).
  - unfold resignal_step. destruct (is_active s i); [|intros [= <-]; eapply goes_on_at; [apply at_goto_here|]; by exists f].
    intros H. ostep H. ostep H. injection H as <-. destruct r0 as [f' t]. eapply goes_on_at; [apply at_goto_here|]. exists f'.
    split; [done|]. destruct (_ =? 0); [by apply signal_message in E0|]. by injection E0 as <- _.
Qed.

Lemma exec_goes_on c a f s s' : sending (at_ (cpus s c)) = Some f -> exec N c a s = Ok s' -> goes_on c f s s'.
Proof.
  intros Hf. assert (Same : goes_on c f s s) by (eapply goes_on_at; [done|by exists f]).
  assert (One : forall o, (r ← ipc_process_one_ipc c s; Ok r.2) = Ok o -> goes_on c f s o).
  { intros o H. ostep H. injection H as <-. destruct r as [b t]. apply process_one_at in E. eapply goes_on_at; [exact E|by exists f]. }
  assert (Isr : goes_on c f s (ipc_nmi_interrupt_handler c s)) by (eapply goes_on_at; [done|by exists f]).
  assert (is_outside (at_ (cpus s c)) = false) as Ho by by destruct (at_ (cpus s c)).
  unfold exec. rewrite Ho. destruct (frames (cpus s c)) as [|fr fs] eqn:Ef.
  - destruct a; try (by intros [= <-]).
    + by apply continue_goes_on.
    + destruct (at_ (cpus s c)) eqn:Ea; intros [= <-]; try done. injection Hf as ->.
      eapply goes_on_at; [apply at_goto_here|]. by exists f.
  - destruct a; try (by intros [= <-]); [by apply One|by apply return_goes_on].
Qed.

(** ** The handler of a stop stays *)

(** The handler that is about to return on [c], if there is one, is not kept in the loop of a stop. *)
Definition may_step (s : api) (c : Z) (a : action) : Prop :=
  a = HandlerReturn -> forall fr fs, frames (cpus (processors s) c) = fr :: fs ->
    handler (f_msg fr) = stop_cpu_handler -> stays_stopped runs_guest s c (arg (f_msg fr)) = Ok false.

Lemma stopped_keep s c a t' pre es p x j : may_step s c a -> exec_adds c a (processors s) t' pre es ->
  contexts s !! p = Some x -> stop x = true -> timestamp x = current_timestamp x ->
  stopped (processors s) x p j -> stopped t' x p j.
Proof.
  intros May [_ F O _ _] Hx Hs Ht St Hd. destruct (St Hd) as (m & Hm & Hsm). exists m. split; [|done].
  destruct (decide (j = c)) as [->|Hne]; [|by rewrite O]. rewrite F, fmap_app, elem_of_app. right.
  destruct a; try done. simpl. destruct (frames (cpus (processors s) c)) as [|fr fs] eqn:Ef; [done|]. simpl.
  rewrite fmap_cons in Hm. apply elem_of_cons in Hm as [->|Hm]; [|done]. exfalso. destruct Hsm as [Hh Ha].
  specialize (May eq_refl fr fs Ef Hh). unfold stays_stopped, context_at in May. rewrite Ha, Hx, bind_Ok in May.
  unfold mbind, outcome_bind in May. rewrite Hd in May. rewrite Hs, Ht, Z.eqb_refl in May. done.
Qed.

(** The messages that the send [f] of [d] has in its part of the log were received, or are now. *)
Lemma received_keep s c a t' pre es p x d f : may_step s c a -> exec_adds c a (processors s) t' pre es ->
  contexts s !! p = Some x -> stop x = true -> timestamp x = current_timestamp x ->
  stop_message p (message N (job_of f) d 0) -> EvStart d ∉ es ->
  (forall j, EvReceive j (message N (job_of f) d j) ∈ since d (log (processors s)) -> stopped (processors s) x p j) ->
  forall j, EvReceive j (message N (job_of f) d j) ∈ since d (log t') -> stopped t' x p j.
Proof.
  intros May A Hx Hs Ht Hm He K j Hin. pose proof A as [L F _ R _]. rewrite L, since_app in Hin by done.
  apply elem_of_app in Hin as [Hin|Hin].
  - apply R in Hin as [-> Hin]. intros _. exists (message N (job_of f) d c). split; [|done].
    rewrite F, fmap_app, elem_of_app. by left.
  - by apply (stopped_keep s c a t' pre es p x j), K.
Qed.

Lemma stop_inv_mid s c a t' : cpu c -> stop_inv s -> may_step s c a -> exec N c a (processors s) = Ok t' ->
  (forall p, api_at s c = InStop p -> at_ (cpus t' c) <> Outside) -> stop_inv (set_processors t' s).
Proof using HN.
  intros Hc I May E Hout. destruct (exec_effect N c a _ _ E) as (pre & es & A). destruct I as [B T Lk In St].
  split; [by apply (inv_exec N HN c a (processors s))|done|done|..].
  - intros d p Hd. destruct (In d p Hd) as (Hcd & x & f & Hx & Hs & Hf & Hm & K). split; [done|].
    destruct (decide (d = c)) as [->|Hne].
    + destruct (exec_goes_on c a f _ _ Hf E) as [(f' & Hf' & Sm)|(X & _)]; [|by apply Hout in Hd].
      exists x, f'. split; [done|]. split; [done|]. split; [done|]. split; [by rewrite Sm|].
      intros j. rewrite Sm. apply (received_keep s c a t' pre es p x c f); try done; [by apply (T p)|].
      intros X. destruct (xa_start _ _ _ _ _ _ A c X) as [_ Hsend]. destruct a; try done.
      assert (t' = processors s) as ->.
      { revert E. unfold exec. assert (is_outside (at_ (cpus (processors s) c)) = false) as -> by (revert Hf; by destruct (at_ (cpus (processors s) c))).
        destruct (frames _); by intros [= <-]. }
      pose proof (xa_log _ _ _ _ _ _ A) as X'. apply (f_equal length) in X'. rewrite length_app in X'.
      destruct es; [by apply not_elem_of_nil in X|simpl in X'; lia].
    + exists x, f. split; [done|]. split; [done|]. simpl. rewrite (xa_other _ _ _ _ _ _ A d Hne). split; [done|]. split; [done|].
      apply (received_keep s c a t' pre es p x d f); try done; [by apply (T p)|].
      intros X. destruct (xa_start _ _ _ _ _ _ A d X) as [-> _]. done.
  - intros p x Hx Hs Hn. destruct (St p x Hx Hs Hn) as (Ts & Nd & Hnum & HT). exists Ts. split; [done|]. split; [done|].
    intros j Hj. destruct (HT j Hj) as [? Hst]. split; [done|]. apply (stopped_keep s c a t' pre es p x j); try done. by apply (T p).
Qed.

Lemma stop_inv_end s c a t' n p s' : cpu c -> stop_inv s -> may_step s c a -> exec N c a (processors s) = Ok t' ->
  api_at s c = InStop p -> at_ (cpus t' c) = Outside -> log t' = EvReturn c n :: log (processors s) ->
  execute_stop_end c p n (set_processors t' s) = Ok s' -> stop_inv s'.
Proof using HN.
  intros Hc I May E Ha Hout Hlog. destruct (exec_effect N c a _ _ E) as (pre & es & A).
  pose proof (inv_exec N HN c a _ _ Hc (si_base _ I) E) as B'. destruct I as [B T Lk In St].
  destruct (In c p Ha) as (_ & x & f & Hx & Hs & Hf & Hm & K).
  unfold execute_stop_end, context_at. simpl contexts. rewrite Hx, bind_Ok. intros [= <-].
  assert (J : job_at (processors s) c = Some (job_of f)) by (unfold job_at; by rewrite Hf).
  assert (forall d, d <> c -> api_at s d = ApiOutside) as Others.
  { intros d Hd. destruct (api_at s d) eqn:X; [done|..]; (assert (Some d = Some c) by (rewrite <- !Lk; congruence)); congruence. }
  assert (KS : forall q y j, contexts s !! q = Some y -> stop y = true -> stopped (processors s) y q j -> stopped t' y q j).
  { intros q y j Hy Hys. apply (stopped_keep s c a t' pre es q y j); [done..|]. by apply (T q). }
  split; simpl.
  - done.
  - intros q y. destruct (decide (p = q)) as [<-|]; [rewrite lookup_insert_eq; intros [= <-]; exact (T p x Hx)|].
    rewrite lookup_insert_ne by done. apply T.
  - intros d. rewrite fn_insert_case. destruct (decide (c = d)) as [|Hne]; [done|]. by rewrite Others by congruence.
  - intros d q. rewrite fn_insert_case. destruct (decide (c = d)) as [|Hne]; [done|]. by rewrite Others by congruence.
  - intros q y. destruct (decide (p = q)) as [<-|Hne].
    + rewrite lookup_insert_eq. intros [= <-] _ _. simpl.
      destruct (lg_return N _ _ _ _ (inv_log N _ B') [] c n (log (processors s)) Hlog) as (Hn & Nd & HT).
      exists (targets c (log (processors s))).*1. split; [done|]. split; [by rewrite length_fmap|].
      intros j ([j' m] & -> & Hin)%list_elem_of_fmap. simpl. destruct (HT j' m Hin) as (Hj & _ & _ & Hr & _). split; [done|].
      apply (lg_target N _ _ _ _ (inv_log N _ B) c (job_of f)) in Hin as (_ & _ & ->); [|done..].
      apply (KS p x j' Hx Hs). by apply K.
    + rewrite lookup_insert_ne by done. intros Hy Hys Hn.
      destruct (St q y Hy Hys) as (Ts & Nd & Hnum & HT).
      { intros d X. destruct (decide (d = c)) as [->|Hdc]; [congruence|]. by rewrite Others in X. }
      exists Ts. split; [done|]. split; [done|]. intros j Hj. destruct (HT j Hj) as [? Hst]. split; [done|]. by apply KS.
Qed.

(** ** Every step *)

Lemma stop_inv_give c r s : stop_inv s -> stop_inv (give c r s).
Proof. by intros []. Qed.

Lemma lock_free_outside s c : stop_inv s -> stop_lock s = None -> api_at s c = ApiOutside.
Proof. intros I E. destruct (api_at s c) eqn:X; [done|..]; exfalso; assert (stop_lock s = Some c) by (apply (si_lock _ I); congruence); congruence. Qed.

(** The state after the call of ipc_send_message: nobody's handlers have changed. *)
Lemma send_message_state c dst ty h a t : send_ok dst ty = true ->
  let t' := ipc_send_message N c dst ty h a t in
  (forall j, frames (cpus t' j) = frames (cpus t j)) /\ log t' = EvStart c :: log t /\
  exists f, at_ (cpus t' c) = Enqueueing f 0 /\ s_handler f = h /\ s_arg f = a.
Proof.
  intros Hok. unfold ipc_send_message, ipc_send_message_gen. rewrite Hok. split; [|split; [done|]].
  - intros j. apply (frames_goto c _ (clear_row N c (emit (EvStart c) t))).
  - unfold ipc_execute_send. eexists. split; [apply at_goto_here|]. done.
Qed.

Lemma stop_inv_send s c p x t' (st : api_place) : cpu c -> stop_inv s -> stop_lock s = None ->
  job_at (processors s) c = None -> timestamp x = current_timestamp x ->
  (st = InStop p -> stop x = true /\
    exists f, at_ (cpus t' c) = Enqueueing f 0 /\ s_handler f = stop_cpu_handler /\ s_arg f = p) ->
  (st = InStart p \/ st = InStop p) -> (st = InStart p -> stop x = false) ->
  inv N t' -> (forall j, frames (cpus t' j) = frames (cpus (processors s) j)) -> log t' = EvStart c :: log (processors s) ->
  stop_inv (set_api_at c st (set_lock (Some c) (set_context p x (set_processors t' s)))).
Proof.
  intros Hc I Hl J Ht Hst Hwhich Hstart B F L.
  assert (forall d, api_at s d = ApiOutside) as Out by (intros d; by apply lock_free_outside).
  destruct I as [_ T _ _ St]. split; simpl.
  - done.
  - intros q y. destruct (decide (p = q)) as [<-|]; [rewrite lookup_insert_eq; by intros [= <-]|].
    rewrite lookup_insert_ne by done. apply T.
  - intros d. rewrite fn_insert_case. destruct (decide (c = d)) as [->|]; [done|]. by rewrite Out.
  - intros d q. rewrite fn_insert_case. destruct (decide (c = d)) as [<-|]; [|by rewrite Out]. intros ->.
    destruct Hwhich as [|[= ->]]; [done|]. split; [done|]. destruct (Hst eq_refl) as (Hs & f & Ef & Hh & Ha).
    exists x, f. rewrite lookup_insert_eq, Ef. split; [done|]. split; [done|]. split; [done|]. split; [done|].
    rewrite L, since_start. intros j X. by apply not_elem_of_nil in X.
  - intros q y. destruct (decide (p = q)) as [<-|Hne].
    + rewrite lookup_insert_eq. intros [= <-] Hs Hn. exfalso. destruct Hwhich as [E|E].
      * rewrite Hstart in Hs by done. done.
      * by apply (Hn c); rewrite fn_lookup_insert.
    + rewrite lookup_insert_ne by done. intros Hy Hys Hn. destruct (St q y Hy Hys) as (Ts & Nd & Hnum & HT).
      { intros d. by rewrite Out. }
      exists Ts. split; [done|]. split; [done|]. intros j Hj. destruct (HT j Hj) as [? Hx]. split; [done|].
      intros Hd. destruct (Hx Hd) as (m & Hm & Hsm). exists m. by rewrite F.
Qed.

Lemma stop_inv_stop s c p f s' : cpu c -> stop_inv s -> stop_lock s = None -> at_ (cpus (processors s) c) = Outside ->
  execute_stop N stop_cpu_handler c p f s = Ok s' -> stop_inv s'.
Proof using HN.
  intros Hc I Hl Ea. unfold execute_stop, context_at. destruct (contexts s !! p) as [x|] eqn:Hx; [|done]. rewrite bind_Ok.
  destruct (stop x); intros [= <-]; [by apply stop_inv_give|].
  assert (J : job_at (processors s) c = None) by (unfold job_at; by rewrite Ea).
  destruct (send_message_state c (mk_dst IPI_DST_ALL_EXCLUDING_SELF 0 (replicate (Z.to_nat CPU_BITMAP_MAX) 0)) IPC_TYPE_STOP
    stop_cpu_handler p (processors s) eq_refl) as (F & L & g & Eg & Hh & Hag).
  apply stop_inv_send; try done; [intros _; split; [done|]; by exists g|by right|].
  by apply inv_send_message; [|..|apply (si_base _ I)|].
Qed.

Lemma stop_inv_start s c p h a s' : cpu c -> stop_inv s -> stop_lock s = None -> at_ (cpus (processors s) c) = Outside ->
  execute_start N c p h a s = Ok s' -> stop_inv s'.
Proof using HN.
  intros Hc I Hl Ea. unfold execute_start, context_at. destruct (contexts s !! p) as [x|] eqn:Hx; [|done]. rewrite bind_Ok.
  destruct (stop x); intros [= <-]; [|by apply stop_inv_give].
  assert (J : job_at (processors s) c = None) by (unfold job_at; by rewrite Ea).
  destruct (send_message_state c (mk_dst IPI_DST_ALL_EXCLUDING_SELF 0 (replicate (Z.to_nat CPU_BITMAP_MAX) 0)) IPC_TYPE_START
    0 0 (processors s) eq_refl) as (F & L & _).
  apply stop_inv_send; try done; [exact (si_time _ I p x Hx)|by left|].
  by apply inv_send_message; [|..|apply (si_base _ I)|].
Qed.

Lemma stop_inv_start_end s c p s' : stop_inv s -> api_at s c = InStart p ->
  execute_start_end c p s = Ok s' -> stop_inv s'.
Proof.
  intros I Ha. unfold execute_start_end. intros H. ostep H. injection H as <-. apply stop_inv_give.
  assert (forall d, d <> c -> api_at s d = ApiOutside) as Others.
  { intros d Hd. destruct (api_at s d) eqn:X; [done|..]; (assert (Some d = Some c) by (rewrite <- !(si_lock _ I); congruence)); congruence. }
  destruct I as [B T Lk In St]. split; simpl; try done.
  - intros d. rewrite fn_insert_case. destruct (decide (c = d)) as [|Hne]; [done|]. by rewrite Others by congruence.
  - intros d q. rewrite fn_insert_case. destruct (decide (c = d)) as [|Hne]; [done|]. by rewrite Others by congruence.
  - intros q y Hy Hys Hn. apply (St q y Hy Hys). intros d X. destruct (decide (d = c)) as [->|Hdc]; [congruence|].
    by rewrite Others in X.
Qed.

Lemma stop_inv_exec s c a s' : cpu c -> stop_inv s -> api_exec c a s = Ok s' -> stop_inv s'.
Proof using HN.
  intros Hc I. unfold api_exec.
  assert (Free : forall (b : bool) k, (b = true -> api_at s c = ApiOutside /\ at_ (cpus (processors s) c) = Outside) ->
    (stop_lock s = None -> at_ (cpus (processors s) c) = Outside -> k = Ok s' -> stop_inv s') ->
    (if b && bool_decide (stop_lock s = None) then k else Ok s) = Ok s' -> stop_inv s').
  { intros b k Hb Hk. destruct b; [|by intros [= <-]]. destruct (decide (stop_lock s = None)) as [El|El].
    - rewrite bool_decide_true by done. destruct (Hb eq_refl). by apply Hk.
    - rewrite bool_decide_false by done. by intros [= <-]. }
  assert (Hfree : match api_at s c, frames (cpus (processors s) c) with
    | ApiOutside, [] => is_outside (at_ (cpus (processors s) c)) | _, _ => false end = true ->
    api_at s c = ApiOutside /\ at_ (cpus (processors s) c) = Outside).
  { destruct (api_at s c); try done. destruct (frames _); [|done]. by destruct (at_ (cpus (processors s) c)). }
  destruct a as [a| |h ar|id|id h ar].
  2-5: apply (Free _ _ Hfree); intros El Ea; unfold stop_all_cpus, start_all_cpus, stop_all_guest_cpus, start_all_guest_cpus;
    by apply stop_inv_stop || by apply stop_inv_start.
  intros H. ostep H. destruct r; [by injection H as <-|]. destruct (negb (client_action _ a)); [by injection H as <-|].
  simpl in H. ostep H. rename r into t'.
  assert (May : may_step s c a).
  { intros -> fr fs Ef Hh. rewrite Ef in E. by rewrite Hh, Z.eqb_refl in E. }
  unfold after_send in H. simpl in H.
  assert (Mid : (forall p, api_at s c = InStop p -> at_ (cpus t' c) <> Outside) -> stop_inv (set_processors t' s))
    by by apply (stop_inv_mid s c a t').
  destruct (api_at s c) as [|p|p] eqn:Ha.
  - injection H as <-. by apply Mid.
  - destruct (si_in _ I c p Ha) as (_ & x & f & _ & _ & Hf & _).
    destruct (exec_goes_on c a f _ _ Hf E0) as [(f' & Hf' & _)|(X & L & _)].
    + assert (at_ (cpus t' c) <> Outside) as Hno by (intros X; by rewrite X in Hf').
      assert (is_outside (at_ (cpus t' c)) = false) as Ho by by destruct (at_ (cpus t' c)).
      rewrite Ho in H. injection H as <-. by apply Mid.
    + rewrite X, L in H. simpl in H. by apply (stop_inv_end s c a t' (num_required_acks f) p s').
  - assert (stop_inv (set_processors t' s)) as I' by by apply Mid.
    destruct (is_outside (at_ (cpus t' c))); [|by injection H as <-]. by apply (stop_inv_start_end (set_processors t' s) c p).
Qed.

Definition api_on_cpus (acts : list (Z * api_action)) : Prop := Forall (fun x => cpu x.1) acts.

Lemma stop_inv_run acts s s' : api_on_cpus acts -> stop_inv s ->
  api_run N stop_cpu_handler runs_guest acts s = Ok s' -> stop_inv s'.
Proof using HN.
  intros Hon. revert s. induction Hon as [|[c a] acts Hc Hon IH]; intros s I H; [by injection H as <-|].
  simpl in H. ostep H. apply (IH r); [|done]. by apply (stop_inv_exec s c a).
Qed.

Lemma stop_inv_guest p id s s' : stop_inv s -> contexts s !! p = None -> ipc_guest_initialize p id s = Ok s' -> stop_inv s'.
Proof.
  intros [B T Lk In St] Hp. unfold ipc_guest_initialize. destruct (p =? 0); [done|]. intros [= <-]. split; simpl; try done.
  - intros q x. destruct (decide (p = q)) as [<-|]; [rewrite lookup_insert_eq; by intros [= <-]|].
    rewrite lookup_insert_ne by done. apply T.
  - intros c q Hq. destruct (In c q Hq) as (Hc & x & f & Hx & R). split; [done|]. exists x, f.
    rewrite lookup_insert_ne by (intros ->; congruence). done.
  - intros q x. destruct (decide (p = q)) as [<-|]; [rewrite lookup_insert_eq; by intros [= <-]|].
    rewrite lookup_insert_ne by done. apply St.
Qed.

End Stop.

Section Initial.
Context (N : Z) (stop_cpu_handler : Z) (runs_guest : Z -> Z -> bool) (malloc : nat -> Z).
Context (Hmalloc : forall i j, malloc i = malloc j -> i = j).

Lemma initialize_guests_inv guests k s s' : stop_inv N stop_cpu_handler runs_guest s ->
  (forall i, (k <= i)%nat -> contexts s !! malloc i = None) ->
  initialize_guests malloc k guests s = Ok s' -> stop_inv N stop_cpu_handler runs_guest s'.
Proof using Hmalloc.
  revert k s. induction guests as [|id guests IH]; intros k s I Hfresh H; [by injection H as <-|].
  simpl in H. ostep H. apply (IH (S k) r); [|..|done].
  - apply (stop_inv_guest N stop_cpu_handler runs_guest (malloc k) id s); [done|by apply Hfresh|done].
  - intros i Hi. revert E. unfold ipc_guest_initialize. destruct (malloc k =? 0); [done|]. intros [= <-]. simpl.
    rewrite lookup_insert_ne; [apply Hfresh; lia|]. intros X%Hmalloc. lia.
Qed.

Lemma initialize_inv guests s : ipc_initialize malloc guests = Ok s -> stop_inv N stop_cpu_handler runs_guest s.
Proof using Hmalloc.
  unfold ipc_initialize. intros H. ostep H.
  assert (stop_inv N stop_cpu_handler runs_guest (mk_api ipc_start [] ∅ None (fun _ => ApiOutside) [])) as I0.
  { split; simpl; try done. apply inv_start. }
  apply (initialize_guests_inv guests 1 r); [|..|done].
  - apply (stop_inv_guest N stop_cpu_handler runs_guest (malloc 0%nat) INVALID_GUEST_ID _ _ I0); [done|exact E].
  - intros i Hi. revert E. unfold ipc_guest_initialize. destruct (malloc 0%nat =? 0); [done|]. intros [= <-]. simpl.
    rewrite lookup_insert_ne; [done|]. intros X%Hmalloc. lia.
Qed.

End Initial.


(** Two processors: 0 stops all, 1 takes the message in its NMI exit. *)
Definition blocks (k : nat) : Z := 4096 + 64 * Z.of_nat k.
Definition stop_other : list (Z * api_action) :=
  [(0, Ipc ToActive); (1, Ipc ToActive); (0, StopAll)] ++ replicate 3 (0, Ipc Continue) ++ [(1, Ipc NmiExit)] ++
  replicate 4 (0, Ipc Continue) ++ [(1, Ipc HandlerReturn)].

Definition api_end (o : outcome api) : api := match o with Ok s => s | _ => mk_api ipc_start [] ∅ None (fun _ => ApiOutside) [] end.

Lemma api_end_ok o : (match o with Ok _ => true | _ => false end) = true -> o = Ok (api_end o).
Proof. by destruct o. Qed.

Definition stop_other_end : api := api_end (api_run 2 77 (fun _ _ => false) stop_other (api_end (ipc_initialize blocks []))).
Definition stop_other_context : STOP_CPU_CONTEXT := mk_stop true 1 1 1 0 0 (Some all_cpus) INVALID_GUEST_ID.

Lemma blocks_inj i j : blocks i = blocks j -> i = j.
Proof. unfold blocks. lia. Qed.

Lemma stop_other_on_cpus : api_on_cpus 2 stop_other.
Proof. unfold api_on_cpus. repeat (apply Forall_cons; split; [simpl; lia|]). apply Forall_nil. exact I. Qed.

Lemma stop_other_starts : ipc_initialize blocks [] = Ok (api_end (ipc_initialize blocks [])).
Proof. apply api_end_ok. vm_compute. reflexivity. Qed.

Lemma stop_other_runs : api_run 2 77 (fun _ _ => false) stop_other (api_end (ipc_initialize blocks [])) = Ok stop_other_end.
Proof. apply api_end_ok. vm_compute. reflexivity. Qed.

Lemma stop_other_outside c : api_at stop_other_end c = ApiOutside.
Proof.
  apply (lock_free_outside 2 77 (fun _ _ => false)); [|vm_compute; reflexivity].
  apply (stop_inv_run 2 ltac:(lia) 77 (fun _ _ => false) stop_other _ _ stop_other_on_cpus
    (initialize_inv 2 77 (fun _ _ => false) blocks blocks_inj [] _ stop_other_starts) stop_other_runs).
Qed.


(** * Deviations *)

(** The comments say that the timestamps keep a stopped processor from missing a start that is
    followed by another stop. Both timestamps are in the context, and a stop sets both to the same
    value; so in every interleaving the test of the timestamps in the loop is always true, and the
    loop ends only if the processor looks while [stop] is FALSE. *)
Theorem stop_timestamps_never_differ (N : Z) (stop_cpu_handler : Z) (runs_guest : Z -> Z -> bool) (malloc : nat -> Z)
  (guests : list Z) (acts : list (Z * api_action)) (s0 s : api) :
  0 < N <= 80 -> (forall i j, malloc i = malloc j -> i = j) -> ipc_initialize malloc guests = Ok s0 ->
  api_on_cpus N acts -> api_run N stop_cpu_handler runs_guest acts s0 = Ok s ->
  forall p x, contexts s !! p = Some x -> timestamp x = current_timestamp x.
Proof.
  intros HN Hm E0 Hon E p x Hx.
  pose proof (initialize_inv N stop_cpu_handler runs_guest malloc Hm guests s0 E0) as I0.
  pose proof (stop_inv_run N HN stop_cpu_handler runs_guest acts s0 s Hon I0 E) as I.
  exact (si_time _ _ _ _ I p x Hx).
Qed.

(** Processor 1 is stopped, started and stopped again without looking in between: it is still in
    the loop of the first stop, and the second stop waits for nobody else. *)
Theorem stop_missed_start :
  let s := api_end (api_run 2 77 (fun _ _ => false) (stop_other ++ [(0, StartAll 0 0)] ++ replicate 3 (0, Ipc Continue) ++
    [(0, StopAll)] ++ replicate 3 (0, Ipc Continue) ++ [(1, Ipc HandlerReturn)]) (api_end (ipc_initialize blocks []))) in
  results s = [(0, 1); (0, 1)] /\ length (frames (cpus (processors s) 1)) = 1%nat.
Proof. vm_compute. split; reflexivity. Qed.
