(* ===== verification/GuestGva.v ===== *)
(** Linear addresses of a guest: gcpu_gva_to_gpa and gcpu_gva_to_hva of guest/guest_cpu/guest_cpu.c, and the
    copies between guest and hypervisor memory (copy_from_gva, copy_to_gva of vmexit/vmexit_task_switch.c).

    The copies are proved against the class [GvaLaws]: the translation is a function of the guest CPU and of
    memory, and keeps a page together. The page walk of PageWalker is an instance. *)

From S2P Require Import Prelude VmmDefs Lock Libc PageWalker PageWalkerSpec VmcsFields Vmcs VmcsSw VmcsMsrList VmcsHw GuestCpu GuestCpuSpec GuestMsr.
From S2P Require Import GuestControl GuestInject VmexitCr VmexitCrSpec.

(** * Translation *)

Definition GCPU_FLAT_PAGES_TABLES_32_FLAG : Z := 1.
Definition GCPU_FLAT_PAGES_TABLES_64_FLAG : Z := 2.
Definition IS_FLAT_PT_INSTALLED (state_flags : Z) : bool :=
  BIT_GET state_flags GCPU_FLAT_PAGES_TABLES_32_FLAG || BIT_GET state_flags GCPU_FLAT_PAGES_TABLES_64_FLAG.

Section Translation.
Context {O : Type} `{VmcsOps O} (t : list VMCS_ENCODING).
Abbreviation gcpu := (GUEST_CPU O).
Implicit Types g : gcpu.
(** The capabilities of the processor and the memory of the MSR lists; the host memory manager; the guest's
    current physical memory map (gpm.c). *)
Context (k : VMCS_HW_CONSTRAINTS) (msrs : msr_mem) (hmm_hpa_to_hva : Z -> option Z).
Context (gpm_gpa_to_hpa gpm_gpa_to_hva : Z -> option Z) (use_host_page_tables : bool) (high_mask : Z).

(** pw_perform_page_walk, with the registers that it reads first. *)
Definition gcpu_page_walk g (m : mem) (virt_addr : Z) (is_write is_user is_fetch set_ad_bits : bool)
  : outcome (walk_result * gcpu) :=
  r ← gcpu_get_msr_reg t k hmm_hpa_to_hva g msrs IA32_VMM_MSR_EFER; let '(efer_value, g) := r in
  r ← visible t g IA32_CTRL_CR0; let '(cr0, g) := r in
  r ← visible t g IA32_CTRL_CR3; let '(cr3, g) := r in
  r ← visible t g IA32_CTRL_CR4; let '(cr4, g) := r in
  Ok (pw_perform_page_walk gpm_gpa_to_hpa hmm_hpa_to_hva use_host_page_tables high_mask (paging_of efer_value cr0 cr4)
        virt_addr is_write is_user is_fetch set_ad_bits m cr3, g).

Definition gcpu_gva_to_gpa g (m : mem) (gva : Z) : outcome (option Z * gcpu) :=
  r ← visible t g IA32_CTRL_CR0; let '(visible_cr0, g) := r in
  if unrestricted_guest_supported k && negb (Cr0.PG visible_cr0) then Ok (Some gva, g)
  else if IS_FLAT_PT_INSTALLED (state_flags g) then Ok (Some gva, g)
  else
    r ← gcpu_page_walk g m gva false false false false; let '(w, g) := r in
    match w_retval w with
    | PW_RETVAL_SUCCESS => Ok (Some (w_gpa w), g)
    | _ => Ok (None, g)
    end.

Definition gcpu_gva_to_hva g (m : mem) (gva : Z) : outcome (option Z * gcpu) :=
  r ← gcpu_gva_to_gpa g m gva; let '(gpa, g) := r in
  match gpa with
  | None => Ok (None, g)
  | Some gpa => Ok (gpm_gpa_to_hva gpa, g)
  end.
End Translation.

(** * Copies *)

(** What the copies use: the translation of a linear address. *)
Class GvaMap (O : Type) := { op_gva_to_hva : GUEST_CPU O -> mem -> Z -> outcome (option Z * GUEST_CPU O) }.

Section Copies.
Context {O : Type} `{GvaMap O}.
Implicit Types g : GUEST_CPU O.

(** The number of bytes up to the end of the page of [gva]. *)
Definition to_page_end (gva : Z) : Z :=
  u32 (Z.land (gva ⊕₆₄ PAGE_4KB_SIZE) (u64 (Z.lnot PAGE_4KB_MASK)) - gva).

(** [while (size_remaining)]; the hypervisor's buffer is the result. [None] is the return value -1. *)
Fixpoint copy_from_gva_loop (fuel : nat) g (m : mem) (src_gva size_remaining : Z) : outcome (option (list Z) * GUEST_CPU O) :=
  match fuel with
  | 0%nat => Spin
  | S fuel' =>
      if size_remaining =? 0 then Ok (Some [], g)
      else
        r ← op_gva_to_hva g m src_gva; let '(hva, g) := r in
        match hva with
        | None => Ok (None, g)
        | Some dst_hva =>
            if UINT64_ALL_ONES - size_remaining <? src_gva then Ok (None, g)
            else if src_gva ⊕₆₄ size_remaining <=? Z.lor src_gva PAGE_4KB_MASK
            then Ok (Some (peek m dst_hva (Z.to_nat size_remaining)), g)
            else
              let size_copied := to_page_end src_gva in
              r ← copy_from_gva_loop fuel' g m (src_gva ⊕₆₄ size_copied) (size_remaining ⊖₃₂ size_copied);
              Ok (option_map (app (peek m dst_hva (Z.to_nat size_copied))) r.1, r.2)
        end
  end.
Definition copy_from_gva g (m : mem) (gva size : Z) := copy_from_gva_loop (S (Z.to_nat size)) g m gva size.

(** The same with the bytes to be written; what was written before a failure stays. *)
Fixpoint copy_to_gva_loop (fuel : nat) g (m : mem) (dst_gva : Z) (local : list Z) : outcome (bool * mem * GUEST_CPU O) :=
  match fuel with
  | 0%nat => Spin
  | S fuel' =>
      let size_remaining := Z.of_nat (length local) in
      if size_remaining =? 0 then Ok (true, m, g)
      else
        r ← op_gva_to_hva g m dst_gva; let '(hva, g) := r in
        match hva with
        | None => Ok (false, m, g)
        | Some src_hva =>
            if UINT64_ALL_ONES - size_remaining <? dst_gva then Ok (false, m, g)
            else if dst_gva ⊕₆₄ size_remaining <=? Z.lor dst_gva PAGE_4KB_MASK then Ok (true, poke m src_hva local, g)
            else
              let size_copied := to_page_end dst_gva in
              copy_to_gva_loop fuel' g (poke m src_hva (take (Z.to_nat size_copied) local)) (dst_gva ⊕₆₄ size_copied)
                (drop (Z.to_nat size_copied) local)
        end
  end.
Definition copy_to_gva g (m : mem) (gva : Z) (bytes : list Z) := copy_to_gva_loop (S (length bytes)) g m gva bytes.
End Copies.

(** * The interface *)

(** The fields and the saved register that the translation may depend on. *)
Definition paging_fields : list Z :=
  [VMCS_GUEST_CR0; VMCS_CR0_MASK; VMCS_CR0_READ_SHADOW; VMCS_GUEST_CR3; VMCS_GUEST_CR4; VMCS_CR4_MASK; VMCS_CR4_READ_SHADOW; VMCS_GUEST_EFER].

(** Translation is a function of the saved registers, the state flags, the VMCS and memory; it changes
    nothing, and keeps the bytes of a page together. *)
Class GvaLaws (O : Type) `{VmcsLaws O} `{!GvaMap O} := {
  gva_view : list Z -> Z -> (Z -> Z) -> mem -> Z -> option Z;
  gva_law : forall g V m a, holds g V -> saved (gp g) -> fits 64 a ->
    exists g', op_gva_to_hva g m a = Ok (gva_view (gp g) (state_flags g) V m a, g') /\ holds g' V /\ frame g g';
  gva_ext : forall l l' fl fl' V V' m a, (forall f, among paging_fields f = true -> V f = V' f) ->
    slot l CR3_SAVE_AREA = slot l' CR3_SAVE_AREA -> IS_FLAT_PT_INSTALLED fl = IS_FLAT_PT_INSTALLED fl' ->
    gva_view l fl V m a = gva_view l' fl' V' m a;
  gva_page : forall l fl V m a b h, fits 64 a -> fits 64 b -> a / 4096 = b / 4096 ->
    gva_view l fl V m a = Some h -> gva_view l fl V m b = Some (h + (b - a))
}.

(** ** Copies, byte by byte *)

(** Reading and writing through a translation. *)
Fixpoint lin_read (T : Z -> option Z) (m : mem) (a : Z) (n : nat) : option (list Z) :=
  match n with
  | O => Some []
  | S n' => h ← T a; l ← lin_read T m (a + 1) n'; Some (m h :: l)
  end.
Fixpoint lin_write (T : Z -> option Z) (m : mem) (a : Z) (bs : list Z) : option mem :=
  match bs with
  | [] => Some m
  | b :: bs' => h ← T a; lin_write T (store8 m h b) (a + 1) bs'
  end.
(** The range does not reach the end of the address space. *)
Definition lin_fits (a n : Z) : bool := (n =? 0) || (a + n <=? UINT64_ALL_ONES).
Definition lin_copy (T : Z -> option Z) (m : mem) (a n : Z) : option (list Z) :=
  if lin_fits a n then lin_read T m a (Z.to_nat n) else None.

Lemma lin_read_app T m n1 n2 : forall a,
  lin_read T m a (n1 + n2) = (l1 ← lin_read T m a n1; l2 ← lin_read T m (a + Z.of_nat n1) n2; Some (l1 ++ l2)).
Proof.
  induction n1 as [|n1 IH]; intros a; cbn [lin_read Nat.add].
  - rewrite Z.add_0_r. by destruct (lin_read T m a n2).
  - destruct (T a) as [h|]; [|done]. cbn [mbind option_bind]. rewrite IH.
    replace (a + Z.of_nat (S n1)) with (a + 1 + Z.of_nat n1) by lia.
    destruct (lin_read T m (a + 1) n1); [|done]. cbn [mbind option_bind]. by destruct (lin_read T m _ n2).
Qed.
Lemma lin_read_length T m n : forall a l, lin_read T m a n = Some l -> length l = n.
Proof.
  induction n as [|n IH]; intros a l; cbn [lin_read]; [by intros [= <-]|].
  destruct (T a) as [h|]; [|done]. cbn [mbind option_bind]. destruct (lin_read T m (a + 1) n) as [r|] eqn:E; [|done].
  intros [= <-]. cbn [length]. by rewrite (IH _ _ E).
Qed.
Lemma lin_write_app T bs1 bs2 : forall m a,
  lin_write T m a (bs1 ++ bs2) = (m1 ← lin_write T m a bs1; lin_write T m1 (a + Z.of_nat (length bs1)) bs2).
Proof.
  induction bs1 as [|b bs1 IH]; intros m a; cbn [lin_write app length].
  - by rewrite Z.add_0_r.
  - destruct (T a) as [h|]; [|done]. cbn [mbind option_bind]. rewrite IH.
    by replace (a + Z.of_nat (S (length bs1))) with (a + 1 + Z.of_nat (length bs1)) by lia.
Qed.

(** A translation that keeps pages together. *)
Definition by_pages (T : Z -> option Z) : Prop :=
  forall a b h, fits 64 a -> fits 64 b -> a / 4096 = b / 4096 -> T a = Some h -> T b = Some (h + (b - a)).

Lemma lin_read_page T m n : by_pages T -> forall a h, 0 <= a -> a + Z.of_nat n <= a / 4096 * 4096 + 4096 -> a + Z.of_nat n <= 2 ^ 64 ->
  T a = Some h -> lin_read T m a n = Some (peek m h n).
Proof.
  intros HT. induction n as [|n IH]; intros a h Ha Hn Hf Eh; [done|]. cbn [lin_read peek]. rewrite Eh. cbn [mbind option_bind].
  destruct n as [|n]; [done|].
  rewrite (IH (a + 1) (h + 1)); [done|lia|lia|lia|].
  replace (h + 1) with (h + (a + 1 - a)) by lia. apply HT; [unfold fits; lia|unfold fits; lia|lia|done].
Qed.
Lemma lin_write_page T bs : by_pages T -> forall m a h, 0 <= a -> a + Z.of_nat (length bs) <= a / 4096 * 4096 + 4096 ->
  a + Z.of_nat (length bs) <= 2 ^ 64 -> T a = Some h -> lin_write T m a bs = Some (poke m h bs).
Proof.
  intros HT. induction bs as [|b bs IH]; intros m a h Ha Hn Hf Eh; [done|]. cbn [lin_write poke length] in *. rewrite Eh. cbn [mbind option_bind].
  destruct bs as [|b' bs]; [done|]. cbn [length] in *.
  apply IH; [lia|lia|lia|].
  replace (h + 1) with (h + (a + 1 - a)) by lia. apply HT; [unfold fits; lia|unfold fits; lia|lia|done].
Qed.

(** The arithmetic of the loops. *)
Lemma page_last a : 0 <= a -> Z.lor a PAGE_4KB_MASK = a / 4096 * 4096 + 4095.
Proof.
  intros Ha. change PAGE_4KB_MASK with (Z.ones 12).
  assert (E : a = Z.lor (a / 4096 * 2 ^ 12) (a mod 4096)) by (rewrite lor_disjoint; lia).
  rewrite E at 1. rewrite <- Z.lor_assoc, (Z.lor_ones_low (a mod 4096) 12), lor_disjoint.
  - done.
  - done.
  - done.
  - lia.
  - destruct (decide (a mod 4096 = 0)) as [->|]; [done|]. apply Z.log2_lt_pow2; lia.
Qed.
Lemma to_page_end_ok a : 0 <= a -> a / 4096 * 4096 + 4096 < 2 ^ 64 -> to_page_end a = 4096 - a mod 4096.
Proof.
  intros Ha He. unfold to_page_end. change PAGE_4KB_SIZE with 4096. usmall.
  pose proof (ALIGN_BACKWARD_page (a + 4096) ltac:(lia)) as E. unfold ALIGN_BACKWARD in E. rewrite (u64_small (a + 4096)) in E by lia.
  change (Z.lnot PAGE_4KB_MASK) with (Z.lnot (4096 - 1)). rewrite E. rewrite u32_small; lia.
Qed.

Section CopySpec.
Context {O : Type} `{GvaLaws O}.
Implicit Types g : GUEST_CPU O.

Lemma view_by_pages l fl V m : by_pages (gva_view l fl V m).
Proof. intros a b h Ha Hb E Eh. by apply (gva_page l fl V m a b h). Qed.

Lemma copy_from_loop_ok V m fuel : forall g a n, holds g V -> saved (gp g) -> fits 64 a -> fits 32 n -> (Z.to_nat n < fuel)%nat ->
  exists g', copy_from_gva_loop fuel g m a n = Ok (lin_copy (gva_view (gp g) (state_flags g) V m) m a n, g') /\ holds g' V /\ frame g g'.
Proof.
  induction fuel as [|fuel IH]; intros g a n Hh Hs Ha Hn Hf; [lia|]. cbn [copy_from_gva_loop]. unfold lin_copy, lin_fits.
  pose proof (view_by_pages (gp g) (state_flags g) V m) as HT.
  destruct (Z.eqb_spec n 0) as [->|Hz]; [exists g; split; [done|]; split; [done|apply frame_refl]|]. cbn [orb].
  destruct (gva_law g V m a Hh Hs Ha) as (g1 & -> & K1 & F1). rewrite bind_Ok. cbv iota beta.
  set (T := gva_view (gp g) (state_flags g) V m) in *. unfold fits in *.
  destruct (T a) as [h|] eqn:Eh.
  2:{ exists g1. split; [|done]. replace (Z.to_nat n) with (S (Z.to_nat (n - 1))) by lia. cbn [lin_read]. rewrite Eh. by case_match. }
  destruct (Z.ltb_spec (UINT64_ALL_ONES - n) a) as [Hov|Hov].
  { exists g1. split; [|done]. destruct (Z.leb_spec (a + n) UINT64_ALL_ONES); [lia|done]. }
  change UINT64_ALL_ONES with (2 ^ 64 - 1) in *. destruct (Z.leb_spec (a + n) (2 ^ 64 - 1)); [|lia].
  rewrite page_last, (u64_small (a + n)) by lia. destruct (Z.leb_spec (a + n) (a / 4096 * 4096 + 4095)) as [Hp|Hp].
  { exists g1. split; [|done]. rewrite (lin_read_page T m (Z.to_nat n) HT a h); [done|lia|lia|lia|done]. }
  rewrite to_page_end_ok by lia. set (c := 4096 - a mod 4096). assert (0 < c <= 4096) by (unfold c; lia).
  rewrite u64_small, u32_small by lia.
  destruct (IH g1 (a + c) (n - c) K1 ltac:(by rewrite F1) ltac:(unfold fits, c; lia) ltac:(unfold fits, c; lia) ltac:(lia)) as (g2 & -> & K2 & F2).
  rewrite bind_Ok. cbn [fst snd]. exists g2. split; [|split; [done|by apply (frame_trans g g1)]]. do 2 f_equal.
  rewrite F1. change (gva_view _ _ V m) with T. unfold lin_copy, lin_fits. change UINT64_ALL_ONES with (2 ^ 64 - 1).
  rewrite (proj2 (Z.leb_le (a + c + (n - c)) (2 ^ 64 - 1))), orb_true_r by lia.
  replace (Z.to_nat n) with (Z.to_nat c + Z.to_nat (n - c))%nat by lia. rewrite lin_read_app, Z2Nat.id by lia.
  rewrite (lin_read_page T m (Z.to_nat c) HT a h); [|lia|unfold c; lia|unfold c; lia|done]. cbn [mbind option_bind].
  by destruct (lin_read T m (a + c) (Z.to_nat (n - c))).
Qed.

Lemma copy_from_ok g V m a n : holds g V -> saved (gp g) -> fits 64 a -> fits 32 n ->
  exists g', copy_from_gva g m a n = Ok (lin_copy (gva_view (gp g) (state_flags g) V m) m a n, g') /\ holds g' V /\ frame g g'.
Proof. intros Hh Hs Ha Hn. apply copy_from_loop_ok; try done. lia. Qed.

(** [m] differs from [m0] only in bytes that the addresses of [R] name. *)
Definition touched (T : mem -> Z -> option Z) (m0 : mem) (R : Z -> Prop) (m : mem) : Prop :=
  forall x, m x <> m0 x -> exists a, R a /\ T m0 a = Some x.
(** The translation does not depend on these bytes: the tables of the guest lie elsewhere. *)
Definition apart (T : mem -> Z -> option Z) (m0 : mem) (R : Z -> Prop) : Prop :=
  forall m a, touched T m0 R m -> T m a = T m0 a.

Lemma touched_refl T m0 R : touched T m0 R m0.
Proof. intros x Hx. done. Qed.
Lemma touched_write T m0 R bs : forall m a m', touched T m0 R m -> (forall b, a <= b < a + Z.of_nat (length bs) -> R b) ->
  lin_write (T m0) m a bs = Some m' -> touched T m0 R m'.
Proof.
  induction bs as [|b bs IH]; intros m a m' Hm HR; cbn [lin_write length] in *; [by intros [= <-]|].
  destruct (T m0 a) as [h|] eqn:E; [|done]. cbn [mbind option_bind]. apply IH; [|intros c Hc; apply HR; lia].
  intros x. unfold store8. destruct (Z.eqb_spec x h) as [->|]; [|apply Hm]. intros _. exists a. split; [apply HR; lia|done].
Qed.
Lemma lin_write_none T bs : forall m m' a, lin_write T m a bs = None -> lin_write T m' a bs = None.
Proof.
  induction bs as [|b bs IH]; intros m m' a; cbn [lin_write]; [done|]. destruct (T a); [|done]. cbn [mbind option_bind]. apply IH.
Qed.

(** What a write does to memory that differs from [m0] in [R] only. *)
Definition written (T : mem -> Z -> option Z) (m0 : mem) (R : Z -> Prop) (m : mem) (a : Z) (bs : list Z) (ok : bool) (m' : mem) : Prop :=
  touched T m0 R m' /\
  if ok then lin_write (T m0) m a bs = Some m' else lin_fits a (Z.of_nat (length bs)) = false \/ lin_write (T m0) m a bs = None.

Lemma copy_to_loop_ok V fuel : forall g m0 R m a bs, holds g V -> saved (gp g) -> fits 64 a -> fits 32 (Z.of_nat (length bs)) ->
  (length bs < fuel)%nat -> let T := gva_view (gp g) (state_flags g) V in
  apart T m0 R -> touched T m0 R m -> (forall b, a <= b < a + Z.of_nat (length bs) -> R b) ->
  exists ok m' g', copy_to_gva_loop fuel g m a bs = Ok (ok, m', g') /\ holds g' V /\ frame g g' /\ written T m0 R m a bs ok m'.
Proof.
  induction fuel as [|fuel IH]; intros g m0 R m a bs Hh Hs Ha Hn Hf T Hap Ht HR; [lia|]. cbn [copy_to_gva_loop]. unfold written, lin_fits.
  pose proof (view_by_pages (gp g) (state_flags g) V m0) as HT. change (gva_view _ _ V m0) with (T m0) in HT.
  set (n := Z.of_nat (length bs)) in *.
  destruct (Z.eqb_spec n 0) as [Ez|Hz].
  { destruct bs; [|done]. exists true, m, g. split; [done|]. split; [done|]. by split; [apply frame_refl|]. }
  cbn [orb]. destruct (gva_law g V m a Hh Hs Ha) as (g1 & -> & K1 & F1). rewrite bind_Ok. cbv iota beta.
  change (gva_view (gp g) (state_flags g) V m a) with (T m a). rewrite (Hap m a Ht). unfold fits in *.
  destruct (T m0 a) as [h|] eqn:Eh.
  2:{ exists false, m, g1. split; [done|]. split; [done|]. split; [done|]. split; [done|]. right.
      destruct bs as [|b bs]; [done|]. cbn [lin_write]. by rewrite Eh. }
  destruct (Z.ltb_spec (UINT64_ALL_ONES - n) a) as [Hov|Hov].
  { exists false, m, g1. split; [done|]. split; [done|]. split; [done|]. split; [done|]. left. apply Z.leb_gt. lia. }
  change UINT64_ALL_ONES with (2 ^ 64 - 1) in *. destruct (Z.leb_spec (a + n) (2 ^ 64 - 1)); [|lia].
  rewrite page_last, (u64_small (a + n)) by lia. destruct (Z.leb_spec (a + n) (a / 4096 * 4096 + 4095)) as [Hp|Hp].
  { exists true, (poke m h bs), g1. split; [done|]. split; [done|]. split; [done|].
    pose proof (lin_write_page (T m0) bs HT m a h ltac:(lia) ltac:(lia) ltac:(lia) Eh) as W. split; [|done].
    by apply (touched_write T m0 R bs m a). }
  rewrite to_page_end_ok by lia. set (c := 4096 - a mod 4096). assert (0 < c <= 4096) by (unfold c; lia). rewrite u64_small by (unfold c; lia).
  set (b1 := take (Z.to_nat c) bs). set (b2 := drop (Z.to_nat c) bs).
  assert (L1 : Z.of_nat (length b1) = c) by (unfold b1; rewrite length_take; unfold c in *; lia).
  assert (L2 : Z.of_nat (length b2) = n - c) by (unfold b2; rewrite length_drop; lia).
  assert (Eb : bs = b1 ++ b2) by (symmetry; apply take_drop).
  pose proof (lin_write_page (T m0) b1 HT m a h ltac:(lia) ltac:(unfold c in *; lia) ltac:(unfold c in *; lia) Eh) as W.
  assert (ET : gva_view (gp g1) (state_flags g1) V = T) by by rewrite F1.
  destruct (IH g1 m0 R (poke m h b1) (a + c) b2) as (ok & m' & g2 & E2 & K2 & F2 & W2).
  { done. } { by rewrite F1. } { unfold fits, c; lia. } { unfold fits, c in *; lia. } { lia. } { by rewrite ET. }
  { rewrite ET. apply (touched_write T m0 R b1 m a); [done|intros; apply HR; unfold c in *; lia|done]. } { intros; apply HR; unfold c in *; lia. }
  exists ok, m', g2. split; [exact E2|]. split; [done|]. split; [by apply (frame_trans g g1)|]. rewrite ET in W2.
  destruct W2 as [W2 W3]. split; [done|]. rewrite Eb, lin_write_app, W. cbn [mbind option_bind]. rewrite L1.
  destruct ok; [done|]. right. destruct W3 as [W3|W3]; [|done]. exfalso. revert W3. unfold lin_fits. rewrite L2. change UINT64_ALL_ONES with (2 ^ 64 - 1).
  rewrite (proj2 (Z.leb_le (a + c + (n - c)) (2 ^ 64 - 1))), orb_true_r by lia. done.
Qed.

Lemma copy_to_ok g V m0 R m a bs : holds g V -> saved (gp g) -> fits 64 a -> fits 32 (Z.of_nat (length bs)) ->
  let T := gva_view (gp g) (state_flags g) V in
  apart T m0 R -> touched T m0 R m -> (forall b, a <= b < a + Z.of_nat (length bs) -> R b) ->
  exists ok m' g', copy_to_gva g m a bs = Ok (ok, m', g') /\ holds g' V /\ frame g g' /\ written T m0 R m a bs ok m'.
Proof. intros. apply copy_to_loop_ok; try done. lia. Qed.
(** Without any assumption on the guest's tables a copy to the guest still ends. *)
Lemma copy_to_total V fuel : forall g m a bs, holds g V -> saved (gp g) -> fits 64 a -> fits 32 (Z.of_nat (length bs)) -> (length bs < fuel)%nat ->
  exists ok m' g', copy_to_gva_loop fuel g m a bs = Ok (ok, m', g') /\ holds g' V /\ frame g g'.
Proof.
  induction fuel as [|fuel IH]; intros g m a bs Hh Hs Ha Hn Hf; [lia|]. cbn [copy_to_gva_loop].
  case_match; [exists true, m, g; split; [done|]; split; [done|apply frame_refl]|].
  destruct (gva_law g V m a Hh Hs Ha) as (g1 & -> & K1 & F1). rewrite bind_Ok. cbv iota beta.
  case_match; [|by exists false, m, g1]. case_match; [by exists false, m, g1|]. case_match; [by eexists true, _, g1|].
  match goal with H : (_ <? _) = false |- _ => apply Z.ltb_ge in H end.
  match goal with H : (_ <=? _) = false |- _ => apply Z.leb_gt in H; rename H into Hp end. change UINT64_ALL_ONES with (2 ^ 64 - 1) in *. unfold fits in *.
  rewrite page_last, u64_small in Hp by lia. cbv zeta. rewrite to_page_end_ok by lia.
  destruct (IH g1 (poke m z (take (Z.to_nat (4096 - a mod 4096)) bs)) (a ⊕₆₄ (4096 - a mod 4096)) (drop (Z.to_nat (4096 - a mod 4096)) bs))
    as (ok & m' & g2 & E & K2 & F2); [done|by rewrite F1|apply u64_range|unfold fits; rewrite length_drop; lia|rewrite length_drop; lia|].
  exists ok, m', g2. split; [exact E|]. split; [done|by apply (frame_trans g g1)].
Qed.
End CopySpec.

Section WalkMap.
Context {O : Type} `{VmcsLaws O} (t : list VMCS_ENCODING).
Hypothesis Hwrites : Forall (writes t) cr_writes.
Hypothesis Hreads : Forall (reads (O := O) t) cr_reads.
Context (k : VMCS_HW_CONSTRAINTS) (msrs : msr_mem) (hmm_hpa_to_hva : Z -> option Z).
Context (gpm_gpa_to_hpa gpm_gpa_to_hva : Z -> option Z) (use_host_page_tables : bool) (high_mask : Z).
(** The processor saves EFER in the VMCS; the guest's physical memory is mapped by pages. *)
Hypothesis efer_saved : Exit.SaveEfer (may1_vm_exit_ctrl k) = true.
Hypothesis gpm_pages : by_pages gpm_gpa_to_hva.

Definition walk_map : GvaMap O :=
  {| op_gva_to_hva := gcpu_gva_to_hva t k msrs hmm_hpa_to_hva gpm_gpa_to_hpa gpm_gpa_to_hva use_host_page_tables high_mask |}.

Definition walk_of (l : list Z) (V : Z -> Z) (m : mem) (a : Z) : walk_result :=
  pw_perform_page_walk gpm_gpa_to_hpa hmm_hpa_to_hva use_host_page_tables high_mask
    (paging_of (V VMCS_GUEST_EFER) (cr_visible l V IA32_CTRL_CR0) (cr_visible l V IA32_CTRL_CR4)) a false false false false m
    (cr_visible l V IA32_CTRL_CR3).
Definition walk_view (l : list Z) (fl : Z) (V : Z -> Z) (m : mem) (a : Z) : option Z :=
  if unrestricted_guest_supported k && negb (Cr0.PG (cr_visible l V IA32_CTRL_CR0)) || IS_FLAT_PT_INSTALLED fl then gpm_gpa_to_hva a
  else match w_retval (walk_of l V m a) with PW_RETVAL_SUCCESS => gpm_gpa_to_hva (w_gpa (walk_of l V m a)) | _ => None end.

Lemma page_walk_ok g V m a w u f s : holds g V -> saved (gp g) ->
  exists g', gcpu_page_walk t k msrs hmm_hpa_to_hva gpm_gpa_to_hpa use_host_page_tables high_mask g m a w u f s =
    Ok (pw_perform_page_walk gpm_gpa_to_hpa hmm_hpa_to_hva use_host_page_tables high_mask
      (paging_of (V VMCS_GUEST_EFER) (cr_visible (gp g) V IA32_CTRL_CR0) (cr_visible (gp g) V IA32_CTRL_CR4)) a w u f s m
      (cr_visible (gp g) V IA32_CTRL_CR3), g') /\ holds g' V /\ frame g g'.
Proof.
  intros Hh Hs. unfold gcpu_page_walk.
  destruct (efer_ok t Hreads k hmm_hpa_to_hva msrs efer_saved g V Hh) as (g1 & -> & K1 & F1). rewrite bind_Ok. cbv iota beta.
  destruct (visible_ok t Hwrites g1 V IA32_CTRL_CR0 K1 ltac:(by rewrite F1)) as (g2 & -> & K2 & F2). rewrite bind_Ok. cbv iota beta.
  destruct (visible_ok t Hwrites g2 V IA32_CTRL_CR3 K2 ltac:(by rewrite F2, F1)) as (g3 & -> & K3 & F3). rewrite bind_Ok. cbv iota beta.
  destruct (visible_ok t Hwrites g3 V IA32_CTRL_CR4 K3 ltac:(by rewrite F3, F2, F1)) as (g4 & -> & K4 & F4). rewrite bind_Ok. cbv iota beta.
  exists g4. rewrite F3, F2, F1. cbn [gp set_vmcs]. split; [done|]. split; [done|].
  by apply (frame_trans g g1), (frame_trans g1 g2), (frame_trans g2 g3).
Qed.

Lemma walk_law g V m a : holds g V -> saved (gp g) ->
  exists g', op_gva_to_hva (GvaMap := walk_map) g m a = Ok (walk_view (gp g) (state_flags g) V m a, g') /\ holds g' V /\ frame g g'.
Proof.
  intros Hh Hs. cbn [op_gva_to_hva walk_map]. unfold gcpu_gva_to_hva, gcpu_gva_to_gpa, walk_view.
  destruct (visible_ok t Hwrites g V IA32_CTRL_CR0 Hh Hs) as (g1 & -> & K1 & F1). rewrite bind_Ok. cbv iota beta.
  assert (E : state_flags g1 = state_flags g) by by rewrite F1. rewrite E.
  destruct (unrestricted_guest_supported k && _); [by exists g1|]. cbn [orb]. destruct (IS_FLAT_PT_INSTALLED _); [by exists g1|].
  destruct (page_walk_ok g1 V m a false false false false K1 ltac:(by rewrite F1)) as (g2 & -> & K2 & F2). rewrite bind_Ok. cbv iota beta.
  assert (E2 : gp g1 = gp g) by by rewrite F1. rewrite E2. change (pw_perform_page_walk _ _ _ _ _ _ _ _ _ _ _ _) with (walk_of (gp g) V m a).
  assert (frame g g2) by by apply (frame_trans g g1). by destruct (w_retval _); exists g2.
Qed.

Lemma walk_ext l l' fl fl' V V' m a : (forall f, among paging_fields f = true -> V f = V' f) ->
  slot l CR3_SAVE_AREA = slot l' CR3_SAVE_AREA -> IS_FLAT_PT_INSTALLED fl = IS_FLAT_PT_INSTALLED fl' ->
  walk_view l fl V m a = walk_view l' fl' V' m a.
Proof.
  intros EV El Ef. unfold walk_view, walk_of. rewrite Ef. cbn [cr_visible]. rewrite El.
  by rewrite (EV VMCS_GUEST_EFER), (EV VMCS_GUEST_CR0), (EV VMCS_CR0_MASK), (EV VMCS_CR0_READ_SHADOW), (EV VMCS_GUEST_CR4), (EV VMCS_CR4_MASK),
    (EV VMCS_CR4_READ_SHADOW), (EV VMCS_GUEST_CR3) by done.
Qed.

Lemma walk_pages l fl V m a b h : fits 64 a -> fits 64 b -> a / 4096 = b / 4096 ->
  walk_view l fl V m a = Some h -> walk_view l fl V m b = Some (h + (b - a)).
Proof.
  intros Ha Hb Hab. unfold walk_view. case_match; [by apply gpm_pages|].
  destruct (walk_near a b Ha Hb Hab gpm_gpa_to_hpa hmm_hpa_to_hva use_host_page_tables high_mask
    (paging_of (V VMCS_GUEST_EFER) (cr_visible l V IA32_CTRL_CR0) (cr_visible l V IA32_CTRL_CR4)) false false false false m
    (cr_visible l V IA32_CTRL_CR3)) as [Er Hn].
  change (pw_perform_page_walk _ _ _ _ _ a _ _ _ _ _ _) with (walk_of l V m a) in *.
  change (pw_perform_page_walk _ _ _ _ _ b _ _ _ _ _ _) with (walk_of l V m b) in *. rewrite Er.
  destruct (w_retval (walk_of l V m a)); [|done|done|done]. destruct (Hn eq_refl) as (A & B & C & D). intros E.
  rewrite (gpm_pages _ (w_gpa (walk_of l V m b)) h A B C E). f_equal. lia.
Qed.

(** gcpu_gva_to_hva over the page walk keeps the promises of the interface. *)
Definition walk_laws : @GvaLaws O _ _ walk_map :=
  {| gva_view := walk_view; gva_law := fun g V m a Hh Hs _ => walk_law g V m a Hh Hs; gva_ext := walk_ext; gva_page := walk_pages |}.
End WalkMap.

Lemma lin_read_ext T T' m n : (forall a, T a = T' a) -> forall a, lin_read T m a n = lin_read T' m a n.
Proof. intros E. induction n as [|n IH]; intros a; cbn [lin_read]; [done|]. by rewrite E, IH. Qed.
(** ** What was written is read back *)

Lemma lin_write_some T bs : forall m a,
  (exists m', lin_write T m a bs = Some m') <-> forall b, a <= b < a + Z.of_nat (length bs) -> is_Some (T b).
Proof.
  induction bs as [|x bs IH]; intros m a; cbn [lin_write length].
  - split; [lia|by exists m].
  - split.
    + destruct (T a) as [h|] eqn:E; [|by intros [? ?]]. cbn [mbind option_bind]. intros HW b Hb. rewrite IH in HW.
      destruct (decide (b = a)) as [->|]; [by rewrite E|apply HW; lia].
    + intros Hb. destruct (Hb a ltac:(lia)) as [h ->]. cbn [mbind option_bind]. apply IH. intros b ?. apply Hb. lia.
Qed.
(** Two addresses of the range never name the same byte. *)
Definition unaliased (T : Z -> option Z) (a n : Z) : Prop :=
  forall b c h, a <= b < a + n -> a <= c < a + n -> T b = Some h -> T c = Some h -> b = c.
Lemma lin_write_other T bs : forall m a m' x, lin_write T m a bs = Some m' -> (forall b, a <= b < a + Z.of_nat (length bs) -> T b <> Some x) -> m' x = m x.
Proof.
  induction bs as [|y bs IH]; intros m a m' x; cbn [lin_write length]; [by intros [= <-]|].
  destruct (T a) as [h|] eqn:E; [|done]. cbn [mbind option_bind]. intros HW Hx. rewrite (IH _ _ _ x HW) by (intros b ?; apply Hx; lia).
  unfold store8. destruct (Z.eqb_spec x h) as [->|]; [|done]. by destruct (Hx a ltac:(lia)).
Qed.
Lemma lin_read_written T bs : forall m a m', unaliased T a (Z.of_nat (length bs)) -> Forall (fun b => 0 <= b < 256) bs ->
  lin_write T m a bs = Some m' -> lin_read T m' a (length bs) = Some bs.
Proof.
  induction bs as [|x bs IH]; intros m a m' Hu Hb; cbn [lin_write lin_read length]; [done|]. apply Forall_cons in Hb as [Hx Hb].
  destruct (T a) as [h|] eqn:E; [|done]. cbn [mbind option_bind]. intros HW. cbn [length] in Hu.
  rewrite (IH (store8 m h x) (a + 1) m'); [|intros b c k ? ?; apply Hu; lia|done|done]. cbn [mbind option_bind]. do 2 f_equal.
  rewrite (lin_write_other T bs _ (a + 1) m' h HW).
  - unfold store8. rewrite Z.eqb_refl. by apply u8_small.
  - intros b ? Eb. assert (b = a) by (apply (Hu b a h); [lia|lia|done|done]). lia.
Qed.

(** The bytes that a write leaves at the addresses of its range. *)
Lemma lin_write_at T bs : forall m a m' i b h, unaliased T a (Z.of_nat (length bs)) -> Forall (fun b => 0 <= b < 256) bs ->
  lin_write T m a bs = Some m' -> bs !! i = Some b -> T (a + Z.of_nat i) = Some h -> m' h = b.
Proof.
  induction bs as [|x bs IH]; intros m a m' i b h Hu Hb HW Ei Eh; [done|]. cbn [lin_write length] in HW, Hu. apply Forall_cons in Hb as [Hx Hb].
  destruct (T a) as [k|] eqn:E; [|done]. cbn [mbind option_bind] in HW. destruct i as [|i].
  - rewrite Z.add_0_r, E in Eh. injection Eh as <-. injection Ei as <-. rewrite (lin_write_other T bs _ (a + 1) m' k HW).
    + unfold store8. rewrite Z.eqb_refl. by apply u8_small.
    + intros c ? Ec. assert (c = a) by (apply (Hu c a k); [lia|lia|done|done]). lia.
  - apply (IH _ (a + 1) m' i b h) in HW; [done|intros c d j ? ?; apply Hu; lia|done|done|].
    by replace (a + 1 + Z.of_nat i) with (a + Z.of_nat (S i)) by lia.
Qed.

(** C21. A copy to linear addresses of the guest succeeds exactly when the range does not reach the end of the
    address space and every byte of it is mapped, whatever pages it crosses; then the bytes lie where the
    addresses point, nothing else is changed, and a copy back from the same addresses gives the same bytes. The
    guest's page tables must not lie in the range, and no two addresses of it may name the same byte. *)
Theorem guest_copy_roundtrip {O : Type} `{GvaLaws O} (g : GUEST_CPU O) (V : Z -> Z) (m : mem) (a : Z) (bs : list Z) :
  holds g V -> saved (gp g) -> fits 64 a -> fits 32 (Z.of_nat (length bs)) -> Forall (fun b => 0 <= b < 256) bs ->
  let n := Z.of_nat (length bs) in
  let T := gva_view (gp g) (state_flags g) V in
  apart T m (fun b => a <= b < a + n) -> unaliased (T m) a n ->
  exists ok m' g', copy_to_gva g m a bs = Ok (ok, m', g') /\ holds g' V /\ frame g g' /\
    (ok = true <-> lin_fits a n = true /\ forall b, a <= b < a + n -> is_Some (T m b)) /\
    (ok = true -> forall (i : nat) b h, bs !! i = Some b -> T m (a + Z.of_nat i) = Some h -> m' h = b) /\
    (forall x, (forall b, a <= b < a + n -> T m b <> Some x) -> m' x = m x) /\
    (ok = true -> exists g'', copy_from_gva g' m' a n = Ok (Some bs, g'')).
Proof.
  intros Hh Hs Ha Hn Hb n T Hap Hu.
  destruct (copy_to_ok g V m (fun b => a <= b < a + n) m a bs Hh Hs Ha Hn Hap ltac:(apply touched_refl) ltac:(done)) as (ok & m' & g' & E & K & F & Ht & W).
  fold T in Ht, W. exists ok, m', g'. split; [exact E|]. split; [done|]. split; [done|].
  assert (Ok1 : ok = true -> lin_fits a n = true).
  { intros ->. destruct (lin_fits a n) eqn:Ef; [done|]. revert E. unfold copy_to_gva. cbn [copy_to_gva_loop]. unfold lin_fits in Ef. fold n.
    apply orb_false_iff in Ef as [-> Ef]. apply Z.leb_gt in Ef. destruct (gva_law g V m a Hh Hs Ha) as (g1 & -> & _). rewrite bind_Ok. cbv iota beta.
    case_match; [|done]. rewrite (proj2 (Z.ltb_lt _ _)) by lia. done. }
  split; [split|split; [|split]].
  - intros Hok. split; [by apply Ok1|]. apply (proj1 (lin_write_some (T m) bs m a)). exists m'. by rewrite Hok in W.
  - intros [Hf Hall]. destruct ok; [done|]. apply (lin_write_some (T m) bs m a) in Hall as [m2 E2].
    destruct W as [W|W]; [by fold n in W; rewrite Hf in W|by rewrite E2 in W].
  - intros Hok i b h. rewrite Hok in W. by apply (lin_write_at (T m) bs m a m').
  - intros x Hx. destruct (decide (m' x = m x)) as [|Hne]; [done|]. destruct (Ht x Hne) as (b & Hb' & Eb). by destruct (Hx b Hb').
  - intros Hok. destruct (copy_from_ok g' V m' a n K ltac:(by rewrite F) Ha Hn) as (g'' & -> & _). exists g''. do 2 f_equal.
    unfold lin_copy. rewrite (Ok1 Hok). rewrite Hok in W. unfold n. rewrite Nat2Z.id.
    assert (ET : forall b, gva_view (gp g') (state_flags g') V m' b = T m b) by (intros b; rewrite F; by apply Hap).
    rewrite <- (lin_read_written (T m) bs m a m' Hu Hb W). by apply lin_read_ext.
Qed.

(** * An example *)

(** Four bytes at the end of page 4; page 5 of the guest is elsewhere in the host. *)
Module GvaExample.
Import GuestExample.
Definition gpm (a : Z) : option Z := Some (if a / 4096 =? 5 then a + 0x7000 else a).
Lemma gpm_pages : by_pages gpm.
Proof. intros a b h _ _ E [= <-]. unfold gpm. rewrite E. f_equal. case_match; lia. Qed.
Definition with_flags {O} (fl : Z) (g : GUEST_CPU O) : GUEST_CPU O :=
  mk_gcpu (vmcs g) (gp g) (xmm g) (debug g) fl (caching_flags g) (cached_activity_state g) (last_guest_level g) (next_guest_level g) (vmexit_setup g).
Lemma holds_with_flags {O} `{VmcsLaws O} fl (g : GUEST_CPU O) V : holds g V -> holds (with_flags fl g) V.
Proof. done. Qed.
Definition table_crw := all_table_writes CrExample.table cr_writes eq_refl.
Definition table_crr := all_table_reads CrExample.table cr_reads eq_refl.
Definition translation : GvaMap VMCS_SOFTWARE_OBJECT := walk_map CrExample.table CrExample.caps ∅ (fun _ => None) gpm gpm false 0.
Definition laws : @GvaLaws VMCS_SOFTWARE_OBJECT _ _ translation :=
  walk_laws CrExample.table table_crw table_crr CrExample.caps ∅ (fun _ => None) gpm gpm false 0 eq_refl gpm_pages.
(** Flat page tables are installed. *)
Definition flat_guest : GUEST_CPU VMCS_SOFTWARE_OBJECT := with_flags 2 guest.
Lemma flat_view V m a : @gva_view _ _ _ translation laws (gp flat_guest) (state_flags flat_guest) V m a = gpm a.
Proof. cbn [gva_view laws walk_laws]. unfold walk_view. by rewrite orb_true_r. Qed.
End GvaExample.
#[local] Existing Instance GvaExample.translation.
#[local] Existing Instance GvaExample.laws.

Lemma guest_copy_roundtrip_witness : exists m' g' g'',
  copy_to_gva GvaExample.flat_guest (fun _ => 0) 0x4FFE [1; 2; 3; 4] = Ok (true, m', g') /\
  copy_from_gva g' m' 0x4FFE 4 = Ok (Some [1; 2; 3; 4], g'') /\ m' 0xC001 = 4.
Proof.
  destruct (guest_copy_roundtrip GvaExample.flat_guest (view (vmcs GvaExample.flat_guest)) (fun _ => 0) 0x4FFE [1; 2; 3; 4]
    (GvaExample.holds_with_flags 2 _ _ GuestExample.guest_holds) ltac:(vm_compute; reflexivity) ltac:(done) ltac:(done)
    ltac:(repeat constructor; lia)
    ltac:(intros m a _; by rewrite !GvaExample.flat_view)
    ltac:(intros b c h Hb Hc; rewrite !GvaExample.flat_view; unfold GvaExample.gpm; cbn [length] in *; intros [= <-] [= X]; revert X; zcases; lia))
    as (ok & m' & g' & E & _ & _ & Hok & B & _ & R).
  assert (X : ok = true) by (apply Hok; split; [reflexivity|]; intros; rewrite GvaExample.flat_view; by eexists).
  destruct (R X) as (g'' & E2). rewrite X in E. exists m', g', g''. split; [exact E|]. split; [exact E2|].
  apply (B X 3%nat 4 0xC001); [reflexivity|]. by rewrite GvaExample.flat_view.
Defined.
