(* ===== verification/TaskSwitch.v ===== *)
(** vmexit/vmexit_task_switch.c: the emulation of a hardware task switch of a 32-bit guest.

    The local variables of the C functions are values; the guest's structures are read and written through the
    copies of GuestGva. [true] is the return value 0, [false] is -1. *)

From S2P Require Import Prelude VmmDefs Libc PageWalker VmcsFields Vmcs VmcsSw VmcsMsrList VmcsHw GuestCpu GuestCpuSpec GuestInject VmexitCr GuestGva.

(** * Data *)

Record tss32_t := mk_tss {
  prev_tr : Z; esp0 : Z; ss0 : Z; esp1 : Z; ss1 : Z; esp2 : Z; ss2 : Z;
  tss_cr3 : Z; eip : Z; eflags : Z; eax : Z; ecx : Z; edx : Z; ebx : Z; esp : Z; ebp : Z; esi : Z; edi : Z;
  tss_es : Z; tss_cs : Z; tss_ss : Z; tss_ds : Z; tss_fs : Z; tss_gs : Z; tss_ldtr : Z; io_base_addr : Z
}.

(** A word in a buffer. *)
Definition word32 (bs : list Z) (offset : nat) : Z := le (take 4 (drop offset bs)).

(** The structure in a buffer of 104 bytes. *)
Definition tss_of (bs : list Z) : tss32_t :=
  mk_tss (word32 bs 0) (word32 bs 4) (word32 bs 8) (word32 bs 12) (word32 bs 16) (word32 bs 20) (word32 bs 24)
    (word32 bs 28) (word32 bs 32) (word32 bs 36) (word32 bs 40) (word32 bs 44) (word32 bs 48) (word32 bs 52) (word32 bs 56)
    (word32 bs 60) (word32 bs 64) (word32 bs 68)
    (word32 bs 72) (word32 bs 76) (word32 bs 80) (word32 bs 84) (word32 bs 88) (word32 bs 92) (word32 bs 96) (word32 bs 100).
Definition SIZEOF_TSS : Z := 104.

(** The 64 bytes from eip to gs. *)
Definition saved_state (tss : tss32_t) : list Z :=
  concat (le_bytes 4 <$> [eip tss; eflags tss; eax tss; ecx tss; edx tss; ebx tss; esp tss; ebp tss; esi tss; edi tss;
    tss_es tss; tss_cs tss; tss_ss tss; tss_ds tss; tss_fs tss; tss_gs tss]).

Definition set_eflags (v : Z) (tss : tss32_t) : tss32_t :=
  mk_tss (prev_tr tss) (esp0 tss) (ss0 tss) (esp1 tss) (ss1 tss) (esp2 tss) (ss2 tss) (tss_cr3 tss) (eip tss) v (eax tss) (ecx tss)
    (edx tss) (ebx tss) (esp tss) (ebp tss) (esi tss) (edi tss) (tss_es tss) (tss_cs tss) (tss_ss tss) (tss_ds tss) (tss_fs tss)
    (tss_gs tss) (tss_ldtr tss) (io_base_addr tss).

(** Bits of eflags_t. *)
Definition FLAG_RSVD_1 : Z := 1.
Definition FLAG_NESTED_TASK : Z := 14.
Definition FLAG_V86_MODE : Z := 17.
(** Bits of cr0_t. *)
Definition CR0_BIT_PE : Z := 0.
Definition CR0_BIT_TS : Z := 3.
Definition CR0_BIT_PG : Z := 31.
(** l0, l1, l2, l3 and le of dr7_t. *)
Definition DR7_LOCAL : Z := 0x155.

(** The access rights (ar_t) are a word with the fields of GuestCpu; a selector and its descriptor's content. *)
Record seg_reg_t := mk_seg_reg { sg_selector : Z; sg_base : Z; sg_limit : Z; sg_ar : Z }.
Definition set_sg_ar (v : Z) (seg : seg_reg_t) : seg_reg_t := mk_seg_reg (sg_selector seg) (sg_base seg) (sg_limit seg) v.
Definition set_sg_limit (v : Z) (seg : seg_reg_t) : seg_reg_t := mk_seg_reg (sg_selector seg) (sg_base seg) v (sg_ar seg).

Definition Tss32Aval : Z := 0x9.
Definition Tss32Busy : Z := 0xb.
Definition IsLdt (type : Z) : bool := type =? 0x2.
Definition IsTss32Aval (type : Z) : bool := type =? Tss32Aval.
Definition IsTss32Busy (type : Z) : bool := type =? Tss32Busy.
Definition IsTss32 (type : Z) : bool := IsTss32Aval type || IsTss32Busy type.
Definition SetAssessed (type : Z) : Z := Z.lor type 0x1.
Definition IsAssessed (type : Z) : bool := negb (Z.land type 0x1 =? 0).
Definition IsDataRW (type : Z) : bool := Z.land type 0xa =? 0x2.
Definition IsCode (type : Z) : bool := negb (Z.land type 0x8 =? 0).
Definition IsCodeR (type : Z) : bool := Z.land type 0xa =? 0xa.
Definition IsCodeConform (type : Z) : bool := Z.land type 0xc =? 0xc.
Definition SelectorIdx (sel : Z) : Z := Z.land sel 0xfff8.
Definition SelectorGdt (sel : Z) : bool := Z.land sel 0x0004 =? 0.
Definition SelectorRpl (sel : Z) : Z := Z.land sel 0x0003.

(** desc_t: the type and the others by their bits. *)
Definition desc_type (d : Z) : Z := bits d 40 4.
Definition set_desc_type (v d : Z) : Z := set_bits_at d 40 15 v.

Definition parse_desc (dsc : Z) (seg : seg_reg_t) : seg_reg_t :=
  mk_seg_reg (sg_selector seg)
    (Z.lor (Z.lor (bits dsc 16 16) (Z.shiftl (bits dsc 32 8) 16)) (Z.shiftl (bits dsc 56 8) 24))
    (Z.lor (bits dsc 0 16) (Z.shiftl (bits dsc 48 4) 16))
    (Z.lor (bits dsc 40 4) (Z.lor (Z.shiftl (bits dsc 44 1) 4) (Z.lor (Z.shiftl (bits dsc 45 2) 5) (Z.lor (Z.shiftl (bits dsc 47 1) 7)
      (Z.lor (Z.shiftl (bits dsc 52 1) 12) (Z.lor (Z.shiftl (bits dsc 53 1) 13) (Z.lor (Z.shiftl (bits dsc 54 1) 14)
        (Z.shiftl (bits dsc 55 1) 15)))))))).

(** hw/vmx_vmcs.h. *)
Definition TASK_SWITCH_TYPE_CALL : Z := 0.
Definition TASK_SWITCH_TYPE_IRET : Z := 1.
Definition TASK_SWITCH_TYPE_JMP : Z := 2.
Definition TASK_SWITCH_TYPE_IDT : Z := 3.
Definition TaskSwitch_TssSelector (q : Z) : Z := Z.land q 0xFFFF.
Definition TaskSwitch_Source (q : Z) : Z := Z.land (Z.shiftr q 30) 3.
Definition IsSoftwareVector (vec : Z) : bool :=
  Valid vec && ((InterruptType vec =? InterruptTypeSoftwareInterrupt) || (InterruptType vec =? InterruptTypePrivilegedSoftwareInterrupt) ||
    (InterruptType vec =? InterruptTypeSoftwareException)).

(** The guest CPU with the counter of its processor (GuestInject), and memory. *)
Record ts_state (O : Type) := mk_ts { ts_cpu : GUEST_CPU O * Z; ts_mem : mem }.
Arguments mk_ts {O}.
Arguments ts_cpu {O}.
Arguments ts_mem {O}.

Section TaskSwitch.
Context {O : Type} `{VmcsOps O} `{NmiWindow O} `{GvaMap O} (t : list VMCS_ENCODING) (fx : VMCS_HW_FIXED) (hw_read_dr : Z -> Z).
Abbreviation gcpu := (GUEST_CPU O).
Abbreviation state := (ts_state O).
Implicit Types s : state.

(** * Access to the state *)

Definition set_cpu (g : gcpu) s : state := mk_ts (g, (ts_cpu s).2) (ts_mem s).
Definition ask {A} (f : gcpu -> outcome (A * gcpu)) s : outcome (A * state) := r ← f (ts_cpu s).1; Ok (r.1, set_cpu r.2 s).
Definition tell (f : gcpu -> outcome gcpu) s : outcome state := g ← f (ts_cpu s).1; Ok (set_cpu g s).

Definition get_gva (gva size : Z) s : outcome (option (list Z) * state) := ask (fun g => copy_from_gva g (ts_mem s) gva size) s.
Definition put_gva (gva : Z) (bytes : list Z) s : outcome (bool * state) :=
  r ← copy_to_gva (ts_cpu s).1 (ts_mem s) gva bytes; Ok (r.1.1, mk_ts (r.2, (ts_cpu s).2) r.1.2).

Definition get_gp (reg : Z) := ask (fun g => gcpu_get_gp_reg_layered t g reg VMCS_MERGED).
Definition set_gp_reg (reg value : Z) := tell (fun g => gcpu_set_gp_reg_layered t g reg value VMCS_MERGED).
Definition get_field (field : Z) := ask (fun g => read_vmcs t g VMCS_MERGED field).
Definition get_segment (reg : VMM_IA32_SEGMENT_REGISTERS) s : outcome (seg_reg_t * state) :=
  r ← gcpu_get_segment_reg_layered t (ts_cpu s).1 reg VMCS_MERGED;
  let '(selector, base, lim, attributes, g) := r in
  Ok (mk_seg_reg selector (u32 base) lim attributes, set_cpu g s).
Definition set_segment (reg : VMM_IA32_SEGMENT_REGISTERS) (seg : seg_reg_t) :=
  tell (fun g => gcpu_set_segment_reg_layered t g reg (sg_selector seg) (sg_base seg) (sg_limit seg) (sg_ar seg) VMCS_MERGED).
Definition set_visible (reg : VMM_IA32_CONTROL_REGISTERS) (value : Z) :=
  tell (fun g => gcpu_set_guest_visible_control_reg_layered t fx g reg value VMCS_MERGED).
Definition set_control (reg : VMM_IA32_CONTROL_REGISTERS) (value : Z) :=
  tell (fun g => gcpu_set_control_reg_layered t fx g reg value VMCS_MERGED).

Definition inject (vec code : Z) s : outcome state :=
  r ← gcpu_inject_fault t vec code (ts_cpu s); Ok (mk_ts r.2 (ts_mem s)).
Definition gcpu_inject_ts := inject IA32_EXCEPTION_VECTOR_INVALID_TASK_SEGMENT_SELECTOR.
Definition gcpu_inject_ss := inject IA32_EXCEPTION_VECTOR_STACK_SEGMENT_FAULT.
Definition gcpu_inject_np := inject IA32_EXCEPTION_VECTOR_SEGMENT_NOT_PRESENT.
Definition gcpu_inject_db := inject IA32_EXCEPTION_VECTOR_DEBUG_BREAKPOINT 0.

(** The base written through a 64-bit pointer covers the limit, which is written next. *)
Definition force_ring3_ss s : outcome state :=
  r ← ask (fun g => visible t g IA32_CTRL_CR0) s; let '(cr0, s) := r in
  r ← get_gp IA32_REG_RFLAGS s; let '(flags, s) := r in
  if negb (Z.testbit (u32 cr0) CR0_BIT_PE) || Z.testbit (u32 flags) FLAG_V86_MODE then Ok s
  else
    r ← get_segment IA32_SEG_TR s; let '(ss, s) := r in
    set_segment IA32_SEG_SS (set_sg_ar (with_dpl 3 (sg_ar ss)) ss) s.

(** [inject; return -1], with and without force_ring3_ss before it. *)
Definition refuse_with (injection : state -> outcome state) s : outcome (bool * state) := s ← injection s; Ok (false, s).
Definition refuse_ring3 (injection : state -> outcome state) s : outcome (bool * state) := s ← force_ring3_ss s; refuse_with injection s.

(** * Segment registers of the new task *)

(** The address of a descriptor, computed in 32 bits. *)
Definition desc_gva (dtr : seg_reg_t) (selector : Z) : Z := sg_base dtr ⊕₃₂ SelectorIdx selector.

Definition set_guest_ldtr (gdtr : seg_reg_t) (tss : tss32_t) s : outcome (bool * seg_reg_t * state) :=
  let ldtr := mk_seg_reg (u16 (tss_ldtr tss)) 0 0 0 in
  let fail s := r ← refuse_ring3 (gcpu_inject_ts (sg_selector ldtr)) s; Ok (r.1, ldtr, r.2) in
  if SelectorIdx (sg_selector ldtr) =? 0 then Ok (true, set_sg_ar (with_bit 16 true 0) ldtr, s)
  else if negb (SelectorGdt (sg_selector ldtr)) then fail s
  else
    r ← get_gva (desc_gva gdtr (sg_selector ldtr)) 8 s; let '(desc, s) := r in
    match desc with
    | None => fail s
    | Some desc =>
        let ldtr := parse_desc (le desc) ldtr in
        if ar_s (sg_ar ldtr) || negb (IsLdt (ar_type (sg_ar ldtr))) || negb (ar_p (sg_ar ldtr)) then fail s
        else s ← set_segment IA32_SEG_LDTR ldtr s; Ok (true, ldtr, s)
    end.

(** The unit of the limit is 4 KB when g_bit is set. *)
Definition scale_limit (seg : seg_reg_t) : seg_reg_t :=
  if ar_g (sg_ar seg) then set_sg_limit (Z.lor (u32 (Z.shiftl (sg_limit seg) 12)) 0xfff) seg else seg.

(** The accessed bit of the register and, in the guest's table, of the descriptor. *)
Definition mark_accessed (gva desc : Z) (seg : seg_reg_t) (fail : state -> outcome (bool * state))
  (continue : seg_reg_t -> state -> outcome (bool * state)) s : outcome (bool * state) :=
  if IsAssessed (ar_type (sg_ar seg)) then continue seg s
  else
    let seg := set_sg_ar (with_type (SetAssessed (ar_type (sg_ar seg))) (sg_ar seg)) seg in
    r ← put_gva gva (le_bytes 8 (set_desc_type (SetAssessed (desc_type desc)) desc)) s; let '(ok, s) := r in
    if (ok : bool) then continue seg s else fail s.

Definition set_guest_ss (gdtr ldtr : seg_reg_t) (tss : tss32_t) s : outcome (bool * state) :=
  let ss := mk_seg_reg (u16 (tss_ss tss)) 0 0 0 in
  let cpl := SelectorRpl (tss_cs tss) in
  let fail := refuse_ring3 (gcpu_inject_ts (sg_selector ss)) in
  if SelectorIdx (sg_selector ss) =? 0 then fail s
  else
    let dtr := if SelectorGdt (sg_selector ss) then gdtr else ldtr in
    r ← get_gva (desc_gva dtr (sg_selector ss)) 8 s; let '(desc, s) := r in
    match desc with
    | None => fail s
    | Some desc =>
        let ss := parse_desc (le desc) ss in
        let a := sg_ar ss in
        if negb (ar_p a) then refuse_ring3 (gcpu_inject_ss (sg_selector ss)) s
        else if negb (ar_s a) || IsCode (ar_type a) || negb (IsDataRW (ar_type a)) || negb (ar_dpl a =? cpl) ||
                negb (SelectorRpl (sg_selector ss) =? cpl)
        then fail s
        else
          mark_accessed (desc_gva dtr (sg_selector ss)) (le desc) (scale_limit ss) fail
            (fun ss s => s ← set_segment IA32_SEG_SS ss s; Ok (true, s)) s
    end.

Definition set_guest_cs (gdtr ldtr : seg_reg_t) (tss : tss32_t) s : outcome (bool * state) :=
  let cs := mk_seg_reg (u16 (tss_cs tss)) 0 0 0 in
  let cpl := SelectorRpl (tss_cs tss) in
  let fail := refuse_with (gcpu_inject_ts (sg_selector cs)) in
  if SelectorIdx (sg_selector cs) =? 0 then fail s
  else
    let dtr := if SelectorGdt (sg_selector cs) then gdtr else ldtr in
    r ← get_gva (desc_gva dtr (sg_selector cs)) 8 s; let '(desc, s) := r in
    match desc with
    | None => fail s
    | Some desc =>
        let cs := parse_desc (le desc) cs in
        let a := sg_ar cs in
        if negb (ar_p a) then refuse_with (gcpu_inject_np (sg_selector cs)) s
        else if negb (ar_s a) || negb (IsCode (ar_type a)) then fail s
        else if (if IsCodeConform (ar_type a) then cpl <? ar_dpl a else negb (ar_dpl a =? cpl)) then fail s
        else
          mark_accessed (desc_gva dtr (sg_selector cs)) (le desc) (scale_limit cs) fail
            (fun cs s =>
               let cs := set_sg_ar (with_bit 16 false (sg_ar cs)) cs in
               s ← set_segment IA32_SEG_CS cs s;
               if sg_limit cs <? eip tss then fail s else Ok (true, s)) s
    end.

Definition set_guest_seg (gdtr ldtr : seg_reg_t) (tss : tss32_t) (name : VMM_IA32_SEGMENT_REGISTERS) s : outcome (bool * state) :=
  match (match name with
         | IA32_SEG_ES => Some (tss_es tss) | IA32_SEG_DS => Some (tss_ds tss)
         | IA32_SEG_FS => Some (tss_fs tss) | IA32_SEG_GS => Some (tss_gs tss) | _ => None
         end) with
  | None => Ok (false, s)
  | Some sel =>
      let seg := mk_seg_reg (u16 sel) 0 0 0 in
      let cpl := SelectorRpl (tss_cs tss) in
      let dtr := if SelectorGdt (sg_selector seg) then gdtr else ldtr in
      let fail := refuse_ring3 (gcpu_inject_ts (sg_selector seg)) in
      if SelectorIdx (sg_selector seg) =? 0
      then s ← set_segment name (mk_seg_reg 0 0 0 (with_bit 16 true 0)) s; Ok (true, s)
      else
        r ← get_gva (desc_gva dtr (sg_selector seg)) 8 s; let '(desc, s) := r in
        match desc with
        | None => fail s
        | Some desc =>
            let seg := parse_desc (le desc) seg in
            let a := sg_ar seg in
            if negb (ar_s a) || (IsCode (ar_type a) && negb (IsCodeR (ar_type a))) then fail s
            else if negb (ar_p a) then refuse_ring3 (gcpu_inject_np (sg_selector seg)) s
            else if IsCode (ar_type a) && negb (IsCodeConform (ar_type a)) &&
                    ((ar_dpl a <? cpl) || (ar_dpl a <? SelectorRpl (sg_selector seg)))
            then fail s
            else s ← set_segment name (scale_limit seg) s; Ok (true, s)
        end
  end.

(** * The switch *)

(** The type of the switch and the selector of the new task. *)
Definition get_task_info (vect : Z) s : outcome (Z * Z * state) :=
  r ← get_field VMCS_EXIT_INFO_QUALIFICATION s; let '(qual, s) := r in
  let type := TaskSwitch_Source qual in
  let type := if (type =? TASK_SWITCH_TYPE_IDT) && IsSoftwareVector vect then TASK_SWITCH_TYPE_CALL else type in
  Ok (type, TaskSwitch_TssSelector qual, s).

(** Into a zeroed structure. *)
Definition copy_vmcs_to_tss32 s : outcome (tss32_t * state) :=
  r ← get_gp IA32_REG_RIP s; let '(rip, s) := r in
  r ← get_gp IA32_REG_RFLAGS s; let '(rflags, s) := r in
  r ← get_gp IA32_REG_RAX s; let '(rax, s) := r in
  r ← get_gp IA32_REG_RCX s; let '(rcx, s) := r in
  r ← get_gp IA32_REG_RDX s; let '(rdx, s) := r in
  r ← get_gp IA32_REG_RBX s; let '(rbx, s) := r in
  r ← get_gp IA32_REG_RSP s; let '(rsp, s) := r in
  r ← get_gp IA32_REG_RBP s; let '(rbp, s) := r in
  r ← get_gp IA32_REG_RSI s; let '(rsi, s) := r in
  r ← get_gp IA32_REG_RDI s; let '(rdi, s) := r in
  r ← get_field VMCS_GUEST_ES_SELECTOR s; let '(es, s) := r in
  r ← get_field VMCS_GUEST_CS_SELECTOR s; let '(cs, s) := r in
  r ← get_field VMCS_GUEST_SS_SELECTOR s; let '(ss, s) := r in
  r ← get_field VMCS_GUEST_DS_SELECTOR s; let '(ds, s) := r in
  r ← get_field VMCS_GUEST_FS_SELECTOR s; let '(fs, s) := r in
  r ← get_field VMCS_GUEST_GS_SELECTOR s; let '(gs, s) := r in
  Ok (mk_tss 0 0 0 0 0 0 0 0 (u32 rip) (u32 rflags) (u32 rax) (u32 rcx) (u32 rdx) (u32 rbx) (u32 rsp) (u32 rbp) (u32 rsi) (u32 rdi)
        (u32 es) (u32 cs) (u32 ss) (u32 ds) (u32 fs) (u32 gs) 0 0, s).

(** [if (e != 0) return -1;] *)
Definition checked (e : outcome (bool * state)) (continue : state -> outcome (bool * state)) : outcome (bool * state) :=
  r ← e; let '(ok, s) := r in if (ok : bool) then continue s else Ok (false, s).
(** A copy to the guest; #TS when it fails. *)
Definition put_or_ts (gva : Z) (bytes : list Z) (code : Z) s : outcome (bool * state) :=
  r ← put_gva gva bytes s; let '(ok, s) := r in if (ok : bool) then Ok (true, s) else refuse_with (gcpu_inject_ts code) s.

(** Save the guest's state in the old task. *)
Definition save_old_task (inst_type : Z) (old_tr : seg_reg_t) s : outcome (bool * state) :=
  s ← (if negb (inst_type =? TASK_SWITCH_TYPE_IDT) then tell (gcpu_skip_guest_instruction t) s else Ok s);
  r ← copy_vmcs_to_tss32 s; let '(tss, s) := r in
  let tss := if inst_type =? TASK_SWITCH_TYPE_IRET then set_eflags (with_bit FLAG_NESTED_TASK false (eflags tss)) tss else tss in
  put_or_ts (sg_base old_tr ⊕₃₂ 32) (saved_state tss) (sg_selector old_tr) s.

(** Clear the busy bit of the old task. *)
Definition release_old_task (inst_type : Z) (gdtr old_tr : seg_reg_t) s : outcome (bool * state) :=
  if (inst_type =? TASK_SWITCH_TYPE_JMP) || (inst_type =? TASK_SWITCH_TYPE_IRET) then
    r ← get_gva (desc_gva gdtr (sg_selector old_tr)) 8 s; let '(old_tss_desc, s) := r in
    match old_tss_desc with
    | None => refuse_with (gcpu_inject_ts (sg_selector old_tr)) s
    | Some d =>
        put_or_ts (desc_gva gdtr (sg_selector old_tr)) (le_bytes 8 (set_desc_type Tss32Aval (le d))) (sg_selector old_tr) s
    end
  else Ok (true, s).

(** Set the busy bit of the new task, and store the old task in it. The code also sets the bit in its copy of
    the access rights. *)
Definition claim_new_task (inst_type : Z) (gdtr new_tr : seg_reg_t) (new_tss_desc : Z) s : outcome (bool * state) :=
  if negb (inst_type =? TASK_SWITCH_TYPE_IRET)
  then put_or_ts (desc_gva gdtr (sg_selector new_tr)) (le_bytes 8 (set_desc_type Tss32Busy new_tss_desc)) (sg_selector new_tr) s
  else Ok (true, s).
Definition link_old_task (inst_type : Z) (gdtr new_tr old_tr : seg_reg_t) (new_tss_desc : Z) s : outcome (bool * state) :=
  if (inst_type =? TASK_SWITCH_TYPE_CALL) || (inst_type =? TASK_SWITCH_TYPE_IDT) then
    r ← put_gva (sg_base new_tr) (le_bytes 2 (sg_selector old_tr)) s; let '(ok, s) := r in
    if (ok : bool) then Ok (true, s)
    else
      r ← put_gva (desc_gva gdtr (sg_selector new_tr)) (le_bytes 8 (set_desc_type Tss32Aval new_tss_desc)) s;
      refuse_with (gcpu_inject_ts (sg_selector new_tr)) r.2
  else Ok (true, s).

(** The registers of the new task but the segments; its eflags are changed first. *)
Definition new_eflags (inst_type : Z) (v : Z) : Z :=
  with_bit FLAG_RSVD_1 true
    (if (inst_type =? TASK_SWITCH_TYPE_CALL) || (inst_type =? TASK_SWITCH_TYPE_IDT) then with_bit FLAG_NESTED_TASK true v else v).
Definition load_registers (tss : tss32_t) (cr0 : Z) s : outcome state :=
  s ← set_gp_reg IA32_REG_RIP (eip tss) s;
  s ← set_gp_reg IA32_REG_RFLAGS (eflags tss) s;
  s ← set_gp_reg IA32_REG_RAX (eax tss) s;
  s ← set_gp_reg IA32_REG_RCX (ecx tss) s;
  s ← set_gp_reg IA32_REG_RDX (edx tss) s;
  s ← set_gp_reg IA32_REG_RBX (ebx tss) s;
  s ← set_gp_reg IA32_REG_RBP (ebp tss) s;
  s ← set_gp_reg IA32_REG_RSP (esp tss) s;
  s ← set_gp_reg IA32_REG_RSI (esi tss) s;
  s ← set_gp_reg IA32_REG_RDI (edi tss) s;
  let cr0 := with_bit CR0_BIT_TS true cr0 in
  s ← set_visible IA32_CTRL_CR0 cr0 s;
  set_control IA32_CTRL_CR0 cr0 s.

(** The segments of virtual-8086 mode. *)
Definition v86_segment (sel : Z) : seg_reg_t := mk_seg_reg (u16 sel) (Z.shiftl (u16 sel) 4) 0xffff 0xf3.
Definition load_v86_segments (tss : tss32_t) s : outcome state :=
  s ← set_segment IA32_SEG_ES (v86_segment (tss_es tss)) s;
  s ← set_segment IA32_SEG_CS (v86_segment (tss_cs tss)) s;
  s ← set_segment IA32_SEG_SS (v86_segment (tss_ss tss)) s;
  s ← set_segment IA32_SEG_DS (v86_segment (tss_ds tss)) s;
  s ← set_segment IA32_SEG_FS (v86_segment (tss_fs tss)) s;
  set_segment IA32_SEG_GS (v86_segment (tss_gs tss)) s.
Definition load_segments (gdtr new_ldtr : seg_reg_t) (tss : tss32_t) s : outcome (bool * state) :=
  if Z.testbit (eflags tss) FLAG_V86_MODE then s ← load_v86_segments tss s; Ok (true, s)
  else
    checked (set_guest_ss gdtr new_ldtr tss s) (fun s =>
    checked (set_guest_seg gdtr new_ldtr tss IA32_SEG_ES s) (fun s =>
    checked (set_guest_seg gdtr new_ldtr tss IA32_SEG_DS s) (fun s =>
    checked (set_guest_seg gdtr new_ldtr tss IA32_SEG_FS s) (fun s =>
    checked (set_guest_seg gdtr new_ldtr tss IA32_SEG_GS s) (fun s =>
    set_guest_cs gdtr new_ldtr tss s))))).

(** Clear the local breakpoints; a debug trap if the new task asks for it. *)
Definition finish_switch (tss : tss32_t) s : outcome (bool * state) :=
  r ← ask (fun g => gcpu_get_debug_reg_layered t hw_read_dr g IA32_REG_DR7 VMCS_MERGED) s; let '(dr7, s) := r in
  s ← tell (fun g => gcpu_set_debug_reg_layered t hw_read_dr g IA32_REG_DR7 (Z.ldiff (u32 dr7) DR7_LOCAL) VMCS_MERGED) s;
  if Z.testbit (io_base_addr tss) 0 then refuse_with gcpu_inject_db s else Ok (true, s).

(** From the load of the task register on. [garbage] is what the local variable new_ldtr holds while the
    LDTR is not loaded. *)
Definition enter_new_task (garbage gdtr old_ldtr new_tr : seg_reg_t) (inst_type cr0 : Z) (tss : tss32_t) s : outcome (bool * state) :=
  s ← set_segment IA32_SEG_TR new_tr s;
  s ← (if Z.testbit cr0 CR0_BIT_PG
       then s ← set_visible IA32_CTRL_CR3 (tss_cr3 tss) s; set_control IA32_CTRL_CR3 (tss_cr3 tss) s
       else Ok s);
  let tss := set_eflags (new_eflags inst_type (eflags tss)) tss in
  s ← load_registers tss cr0 s;
  r ← (if negb (tss_ldtr tss =? sg_selector old_ldtr) then set_guest_ldtr gdtr tss s else Ok (true, garbage, s));
  let '(ok, new_ldtr, s) := r in
  checked (Ok (ok, s)) (fun s =>
  checked (load_segments gdtr new_ldtr tss s) (finish_switch tss)).

Definition task_switch_for_guest (garbage : seg_reg_t) (vec_info : Z) s : outcome (bool * state) :=
  r ← gcpu_get_gdt_reg_layered t (ts_cpu s).1 VMCS_MERGED; let '(base, lim, g) := r in
  let s := set_cpu g s in
  let gdtr := mk_seg_reg 0 (u32 base) lim 0x80 in
  r ← ask (fun g => visible t g IA32_CTRL_CR0) s; let '(cr0, s) := r in
  let cr0 := u32 cr0 in
  r ← get_task_info vec_info s; let '(inst_type, selector, s) := r in
  r ← get_gva (desc_gva gdtr selector) 8 s; let '(desc, s) := r in
  match desc with
  | None => refuse_with (gcpu_inject_ts selector) s
  | Some desc =>
      let new_tss_desc := le desc in
      let new_tr := parse_desc new_tss_desc (mk_seg_reg selector 0 0 0) in
      if negb (IsTss32 (ar_type (sg_ar new_tr))) then refuse_with (gcpu_inject_ts selector) s
      else
        r ← get_segment IA32_SEG_LDTR s; let '(old_ldtr, s) := r in
        r ← get_segment IA32_SEG_TR s; let '(old_tr, s) := r in
        if negb (IsTss32Busy (ar_type (sg_ar old_tr))) then refuse_with (gcpu_inject_ts (sg_selector old_tr)) s
        else
          checked (save_old_task inst_type old_tr s) (fun s =>
          r ← get_gva (sg_base new_tr) SIZEOF_TSS s; let '(new_tss, s) := r in
          match new_tss with
          | None => refuse_with (gcpu_inject_ts selector) s
          | Some bs =>
              checked (release_old_task inst_type gdtr old_tr s) (fun s =>
              checked (claim_new_task inst_type gdtr new_tr new_tss_desc s) (fun s =>
              checked (link_old_task inst_type gdtr new_tr old_tr (set_desc_type Tss32Busy new_tss_desc) s) (fun s =>
              let new_tr := if negb (inst_type =? TASK_SWITCH_TYPE_IRET) then set_sg_ar (with_type Tss32Busy (sg_ar new_tr)) new_tr else new_tr in
              enter_new_task garbage gdtr old_ldtr new_tr inst_type cr0 (tss_of bs) s)))
          end)
  end.

(** VMEXIT_HANDLED is returned in every case. *)
Definition vmexit_task_switch (garbage : seg_reg_t) s : outcome state :=
  r ← get_field VMCS_EXIT_INFO_IDT_VECTORING s; let '(idt_vectoring_info, s) := r in
  let idt_vectoring_info := u32 idt_vectoring_info in
  r ← get_field VMCS_EXIT_INFO_QUALIFICATION s; let '(qualification, s) := r in
  s ← (if Valid idt_vectoring_info && (TaskSwitch_Source qualification =? TASK_SWITCH_TYPE_IDT)
       then tell (fun g => write_vmcs t g VMCS_MERGED VMCS_EXIT_INFO_IDT_VECTORING 0) s else Ok s);
  r ← task_switch_for_guest garbage idt_vectoring_info s;
  Ok r.2.
End TaskSwitch.
