(* ===== verification/TaskSwitchSpec.v ===== *)
(** Properties of the emulated task switch (TaskSwitch): it always ends, with one exception ordered for the
    guest or with the registers of the new task loaded, and with a code and a stack segment that the next VM
    entry accepts. *)

From S2P Require Import Prelude VmmDefs Libc PageWalker PageWalkerSpec VmcsFields Vmcs VmcsSw VmcsMsrList VmcsHw GuestCpu GuestCpuSpec GuestMsr.
From S2P Require Import GuestControl GuestControlSpec GuestInject GuestSeg VmexitCr VmexitCrSpec GuestGva TaskSwitch.

(** * Words and bytes *)

Lemma bits_range v lo n : 0 <= lo -> 0 <= n -> 0 <= bits v lo n < 2 ^ n.
Proof. intros Hl Hn. rewrite bits_fld by done. by apply fld_bound. Qed.
Lemma fits_weak w w' x : w <= w' -> fits w x -> fits w' x.
Proof. unfold fits. intros Hw Hx. assert (2 ^ w <= 2 ^ w') by (apply Z.pow_le_mono_r; lia). lia. Qed.
Lemma fits_part v lo n w : 0 <= lo -> 0 <= n <= w -> fits w (bits v lo n).
Proof. intros Hl Hn. apply (fits_weak n); [lia|]. by apply bits_range; lia. Qed.
Lemma fits_shift x n k w : 0 <= k -> 0 <= n -> n + k <= w -> fits n x -> fits w (Z.shiftl x k).
Proof.
  intros Hk Hn Hw Hx. apply (fits_weak (n + k)); [lia|]. unfold fits in *. rewrite Z.shiftl_mul_pow2, Z.pow_add_r by lia. nia.
Qed.
Lemma fits_field v lo n k w : 0 <= lo -> 0 <= n -> 0 <= k -> n + k <= w -> fits w (Z.shiftl (bits v lo n) k).
Proof. intros. apply (fits_shift _ n); try lia. by apply bits_range. Qed.
Lemma fits_ldiff w a b : 0 <= w -> fits w a -> 0 <= b -> fits w (Z.ldiff a b).
Proof.
  intros Hw Ha Hb. apply fits_bits; [done| |].
  - apply Z.ldiff_nonneg. left. unfold fits in Ha. lia.
  - intros i Hi. by rewrite Z.ldiff_spec, (bits_above a w) by (done || lia).
Qed.

Definition byte (b : Z) : Prop := 0 <= b < 256.
Lemma le_fits bs : Forall byte bs -> fits (8 * Z.of_nat (length bs)) (le bs).
Proof.
  intros Hb. unfold fits. induction Hb as [|b bs Hb _ IH]; [done|]. cbn [le foldr length]. fold (le bs). unfold byte in Hb.
  replace (8 * Z.of_nat (S (length bs))) with (8 + 8 * Z.of_nat (length bs)) by lia. rewrite Z.pow_add_r by lia. lia.
Qed.
Lemma word32_fits bs k : Forall byte bs -> fits 64 (word32 bs k).
Proof.
  intros Hb. unfold word32. apply (fits_weak (8 * Z.of_nat (length (take 4 (drop k bs))))).
  - rewrite length_take. lia.
  - by apply le_fits, Forall_take, Forall_drop.
Qed.
Lemma lin_read_bytes T m n : mem_ok m -> forall a l, lin_read T m a n = Some l -> Forall byte l.
Proof.
  intros Hm. induction n as [|n IH]; intros a l; cbn [lin_read]; [intros [= <-]; constructor|].
  destruct (T a) as [h|]; [|done]. cbn [mbind option_bind]. destruct (lin_read T m (a + 1) n) as [r|] eqn:E; [|done].
  intros [= <-]. constructor; [apply Hm|by apply (IH (a + 1))].
Qed.
Lemma lin_copy_bytes T m a n l : mem_ok m -> lin_copy T m a n = Some l -> Forall byte l.
Proof. unfold lin_copy. case_match; [|done]. intros Hm. by apply lin_read_bytes. Qed.
Lemma lin_write_mem_ok T bs : forall m a m', mem_ok m -> lin_write T m a bs = Some m' -> mem_ok m'.
Proof.
  induction bs as [|b bs IH]; intros m a m' Hm; cbn [lin_write]; [by intros [= <-]|].
  destruct (T a) as [h|]; [|done]. cbn [mbind option_bind]. apply IH. intros x. unfold store8. case_match; [|apply Hm].
  unfold u8, wrap. change (2 ^ 8) with 256. lia.
Qed.

(** * Segments *)

(** The register that a selector and a descriptor give. *)
Definition seg_fits (seg : seg_reg_t) : Prop := fits 16 (sg_selector seg) /\ fits 32 (sg_base seg) /\ fits 32 (sg_limit seg) /\ fits 32 (sg_ar seg).

Lemma parse_desc_fits d seg : fits 16 (sg_selector seg) -> seg_fits (parse_desc d seg).
Proof.
  intros Hs. split; [done|]. cbn [parse_desc sg_base sg_limit sg_ar].
  split; [|split]; repeat first [apply fits_lor; [done| |] | apply fits_field; lia | apply fits_part; lia].
Qed.
(** The access rights are bits 40 to 55 of the descriptor, without the limit. *)
Lemma parse_desc_ar d seg : sg_ar (parse_desc d seg) = Z.land (Z.shiftr d 40) 0xF0FF.
Proof.
  cbn [parse_desc sg_ar]. unfold bits. apply Z.bits_inj'. intros i Hi.
  rewrite !Z.lor_spec, (Z.land_spec (Z.shiftr d 40) 0xF0FF).
  repeat match goal with |- context [Z.testbit (Z.shiftl ?x ?k) i] => rewrite (Z.shiftl_spec x k i) by done end.
  destruct (decide (i < 16)) as [Hlt|Hge].
  - assert (Hi' : i ∈ seqZ 0 16) by (apply elem_of_seqZ; lia). change (seqZ 0 16) with ltac:(let l := eval vm_compute in (seqZ 0 16) in exact l) in Hi'.
    rewrite !elem_of_cons, elem_of_nil in Hi'.
    repeat (destruct Hi' as [->|Hi']); [..|done];
      repeat match goal with |- context [Z.testbit (Z.land ?x ?y) ?j] =>
        let j' := eval vm_compute in j in change (Z.testbit (Z.land x y) j) with (Z.testbit (Z.land x y) j') end;
      rewrite ?Z.land_spec, ?Z.testbit_neg_r by done; rewrite ?Z.shiftr_spec by done; cbn; rewrite ?andb_true_r, ?andb_false_r, ?orb_false_r; done.
  - rewrite (bits_above 0xF0FF 16 i), andb_false_r by lia.
    rewrite !Z.land_spec. repeat match goal with |- context [Z.testbit (Z.ones ?n) ?j] => rewrite (Z.ones_spec_high n j) by lia end.
    by rewrite !andb_false_r.
Qed.

(** ** Descriptors, as the architecture lays them out (volume 3, "Segment Descriptors")

    The base is in bits 16 to 39 and 56 to 63, the limit in bits 0 to 15 and 48 to 51, in units of 4 KB when
    bit 55 is set, and the access rights are bits 40 to 47 and 52 to 55. *)
Definition arch_base (d : Z) : Z := (d / 2 ^ 16) mod 2 ^ 24 + (d / 2 ^ 56) mod 2 ^ 8 * 2 ^ 24.
Definition arch_units (d : Z) : Z := d mod 2 ^ 16 + (d / 2 ^ 48) mod 2 ^ 4 * 2 ^ 16.
Definition arch_limit (d : Z) : Z := if Z.testbit d 55 then arch_units d * 4096 + 4095 else arch_units d.
Definition arch_rights (d : Z) : Z := Z.land (d / 2 ^ 40) 0xF0FF.
(** The register of a selector and a descriptor: of a system segment, where the source leaves the limit in its
    units, and of a code or data segment. *)
Definition arch_seg (sel d : Z) : seg_reg_t := mk_seg_reg sel (arch_base d) (arch_units d) (arch_rights d).
Definition seg_of_desc (sel d : Z) : seg_reg_t := mk_seg_reg sel (arch_base d) (arch_limit d) (arch_rights d).

Lemma bits_div d lo n : 0 <= lo -> 0 <= n -> bits d lo n = (d / 2 ^ lo) mod 2 ^ n.
Proof. intros. unfold bits. by rewrite Z.land_ones, Z.shiftr_div_pow2 by lia. Qed.
Lemma join_fields a b n : 0 <= n -> 0 <= b < 2 ^ n -> Z.lor b (Z.shiftl a n) = b + a * 2 ^ n.
Proof. intros Hn Hb. rewrite Z.shiftl_mul_pow2, Z.lor_comm, lor_disjoint by done. apply Z.add_comm. Qed.
Lemma mod_split a b c : 0 < b -> 0 < c -> a mod (b * c) = a mod b + (a / b) mod c * b.
Proof. intros Hb Hc. rewrite Z.rem_mul_r by lia. lia. Qed.

(** The source decodes a descriptor as the architecture says. *)
Lemma base_arch d : Z.lor (Z.lor (bits d 16 16) (Z.shiftl (bits d 32 8) 16)) (Z.shiftl (bits d 56 8) 24) = arch_base d.
Proof.
  rewrite !bits_div by done. unfold arch_base. change (2 ^ 24) with (2 ^ 16 * 2 ^ 8) at 1. rewrite mod_split by done.
  rewrite Z.div_div by done. change (2 ^ 16 * 2 ^ 16) with (2 ^ 32).
  pose proof (Z.mod_pos_bound (d / 2 ^ 16) (2 ^ 16) ltac:(done)). pose proof (Z.mod_pos_bound (d / 2 ^ 32) (2 ^ 8) ltac:(done)).
  rewrite (join_fields ((d / 2 ^ 32) mod 2 ^ 8)) by done. apply join_fields; [done|]. lia.
Qed.
Lemma units_arch d : Z.lor (bits d 0 16) (Z.shiftl (bits d 48 4) 16) = arch_units d.
Proof. rewrite !bits_div by done. rewrite join_fields by (done || by apply Z.mod_pos_bound). unfold arch_units. by rewrite Z.div_1_r. Qed.
Lemma parse_desc_arch d sel b lim a : parse_desc d (mk_seg_reg sel b lim a) = arch_seg sel d.
Proof.
  pose proof (parse_desc_ar d (mk_seg_reg sel b lim a)) as Ha. rewrite Z.shiftr_div_pow2 in Ha by done. fold (arch_rights d) in Ha.
  unfold arch_seg. rewrite <- base_arch, <- units_arch, <- Ha. done.
Qed.
Lemma arch_units_range d : 0 <= arch_units d < 2 ^ 20.
Proof.
  unfold arch_units. pose proof (Z.mod_pos_bound d (2 ^ 16) ltac:(done)). pose proof (Z.mod_pos_bound (d / 2 ^ 48) (2 ^ 4) ltac:(done)). lia.
Qed.
Lemma rights_bit d i : 0 <= i -> Z.testbit (arch_rights d) i = Z.testbit d (40 + i) && Z.testbit 0xF0FF i.
Proof. intros Hi. unfold arch_rights. by rewrite Z.land_spec, Z.div_pow2_bits, Z.add_comm by lia. Qed.
Lemma scale_arch sel d : scale_limit (arch_seg sel d) = seg_of_desc sel d.
Proof.
  unfold scale_limit, seg_of_desc, arch_limit, arch_seg. cbn [sg_ar]. unfold ar_g. rewrite rights_bit by done. change (Z.testbit 0xF0FF 15) with true.
  change (40 + 15) with 55. rewrite andb_true_r. destruct (Z.testbit d 55); [|done]. unfold set_sg_limit. cbn [sg_selector sg_base sg_limit sg_ar]. f_equal.
  pose proof (arch_units_range d). rewrite Z.shiftl_mul_pow2, u32_small by lia. by apply lor_disjoint.
Qed.
Lemma arch_seg_fits sel d : fits 16 sel -> seg_fits (arch_seg sel d).
Proof. intros Hs. rewrite <- (parse_desc_arch d sel 0 0 0). by apply parse_desc_fits. Qed.

(** What the checks of a VM entry ask of a usable segment in protected mode (volume 3, "Checks on Guest
    Segment Registers"), then of SS, and of CS when the stack has privilege [dpl]. *)
Record entry_checks (seg : seg_reg_t) : Prop := {
  ec_usable : ar_null (sg_ar seg) = false;
  ec_code_or_data : ar_s (sg_ar seg) = true;
  ec_present : ar_p (sg_ar seg) = true;
  ec_reserved : Z.land (sg_ar seg) 0xFFFE0F00 = 0;
  ec_gran0 : Z.land (sg_limit seg) 0xFFF <> 0xFFF -> ar_g (sg_ar seg) = false;
  ec_gran1 : Z.land (sg_limit seg) 0xFFF00000 <> 0 -> ar_g (sg_ar seg) = true
}.
Definition stack_accepted (seg : seg_reg_t) : Prop :=
  entry_checks seg /\ (ar_type (sg_ar seg) = 3 \/ ar_type (sg_ar seg) = 7) /\ ar_dpl (sg_ar seg) = SelectorRpl (sg_selector seg).
Definition code_accepted (dpl : Z) (seg : seg_reg_t) : Prop :=
  entry_checks seg /\
  ((ar_type (sg_ar seg) = 9 \/ ar_type (sg_ar seg) = 11) /\ ar_dpl (sg_ar seg) = dpl \/
   (ar_type (sg_ar seg) = 13 \/ ar_type (sg_ar seg) = 15) /\ ar_dpl (sg_ar seg) <= dpl).

Definition accessed (seg : seg_reg_t) : seg_reg_t :=
  if IsAssessed (ar_type (sg_ar seg)) then seg
  else set_sg_ar (with_type (SetAssessed (ar_type (sg_ar seg))) (sg_ar seg)) seg.

Lemma ar_type_range a : fits 4 (ar_type a).
Proof. unfold ar_type. change 15 with (Z.ones 4). rewrite Z.land_ones by done. unfold fits. lia. Qed.
Lemma with_type_other v a i : fits 4 v -> 4 <= i -> Z.testbit (with_type v a) i = Z.testbit a i.
Proof.
  intros Hv Hi. rewrite with_type_bit by lia. rewrite (bits_above v 4), (bits_above 15 4 i) by (exact Hv || lia).
  by rewrite andb_true_r, orb_false_r.
Qed.
Lemma with_type_type v a : fits 4 v -> ar_type (with_type v a) = v.
Proof.
  intros Hv. unfold ar_type. change 15 with (Z.ones 4). transitivity (Z.land v (Z.ones 4)).
  - apply land_eq. intros i Hi Hb. destruct (decide (i < 4)); [|rewrite Z.ones_spec_high in Hb by lia; done].
    rewrite with_type_bit by done. change 15 with (Z.ones 4). by rewrite Hb, andb_false_r.
  - rewrite Z.land_ones by done. by apply Z.mod_small.
Qed.
Lemma with_type_land v a m : fits 4 v -> Z.land m 15 = 0 -> Z.land (with_type v a) m = Z.land a m.
Proof.
  intros Hv Hm. apply land_eq. intros i Hi Hb. apply with_type_other; [done|]. destruct (decide (4 <= i)); [done|exfalso].
  assert (X : Z.testbit (Z.land m 15) i = true) by (rewrite Z.land_spec, Hb; change 15 with (Z.ones 4); by rewrite Z.ones_spec_low by lia).
  by rewrite Hm, Z.bits_0 in X.
Qed.
Lemma with_type_dpl v a : fits 4 v -> ar_dpl (with_type v a) = ar_dpl a.
Proof.
  intros Hv. unfold ar_dpl. apply Z.bits_inj'. intros i Hi. rewrite !Z.land_spec, !Z.shiftr_spec by done. by rewrite with_type_other by (done || lia).
Qed.
Lemma assessed_range a : fits 4 (SetAssessed (ar_type a)).
Proof. apply fits_lor; [done|apply ar_type_range|done]. Qed.

(** A type has 16 values. *)
Lemma type_cases v : fits 4 v -> v ∈ [0; 1; 2; 3; 4; 5; 6; 7; 8; 9; 10; 11; 12; 13; 14; 15].
Proof. intros Hv. apply (proj2 (elem_of_seqZ 0 16 v)). unfold fits in Hv. lia. Qed.
Ltac each_type H := apply type_cases in H; rewrite !elem_of_cons, elem_of_nil in H; repeat (destruct H as [->|H]); [..|done].

(** The accessed bit is set, and nothing else is changed. *)
Lemma accessed_spec seg : let b := accessed seg in
  ar_type (sg_ar b) = Z.lor (ar_type (sg_ar seg)) 1 /\ ar_dpl (sg_ar b) = ar_dpl (sg_ar seg) /\
  (forall i, 4 <= i -> Z.testbit (sg_ar b) i = Z.testbit (sg_ar seg) i) /\ Z.land (sg_ar b) 0xFFFE0F00 = Z.land (sg_ar seg) 0xFFFE0F00 /\
  sg_selector b = sg_selector seg /\ sg_base b = sg_base seg /\ sg_limit b = sg_limit seg.
Proof.
  unfold accessed. destruct (IsAssessed (ar_type (sg_ar seg))) eqn:E; cbv zeta.
  - split_and!; try done. pose proof (ar_type_range (sg_ar seg)) as R. revert E R. unfold IsAssessed. generalize (ar_type (sg_ar seg)). intros v E R.
    each_type R; done || discriminate E.
  - cbn [set_sg_ar sg_ar sg_selector sg_base sg_limit]. rewrite with_type_type, with_type_dpl, with_type_land by (apply assessed_range || done).
    split_and!; try done. intros i Hi. by apply with_type_other; [apply assessed_range|].
Qed.
Lemma accessed_fits seg : seg_fits seg -> seg_fits (accessed seg).
Proof.
  intros (A & B & C & D). unfold accessed. case_match; [done|]. split_and!; try done. cbn [set_sg_ar sg_ar].
  apply fits_lor; [done| |apply (fits_weak 4); [lia|]; rewrite Z.shiftl_0_r; apply assessed_range]. by apply fits_ldiff.
Qed.

Lemma seg_of_desc_fits sel d : fits 16 sel -> seg_fits (seg_of_desc sel d).
Proof.
  intros Hs. destruct (arch_seg_fits sel d Hs) as (A & B & _ & D). split_and!; try done. cbn [seg_of_desc sg_limit]. unfold arch_limit, fits.
  pose proof (arch_units_range d). case_match; lia.
Qed.
Lemma ar_g_arch d : ar_g (arch_rights d) = Z.testbit d 55.
Proof. unfold ar_g. rewrite rights_bit by done. apply andb_true_r. Qed.
Lemma seg_of_desc_granularity sel d : let seg := seg_of_desc sel d in
  (Z.land (sg_limit seg) 0xFFF <> 0xFFF -> ar_g (sg_ar seg) = false) /\ (Z.land (sg_limit seg) 0xFFF00000 <> 0 -> ar_g (sg_ar seg) = true).
Proof.
  cbv zeta. cbn [seg_of_desc sg_limit sg_ar]. rewrite ar_g_arch. unfold arch_limit. pose proof (arch_units_range d) as R. destruct (Z.testbit d 55).
  - split; [|done]. intros []. rewrite (Z.land_ones _ 12) by done. change (2 ^ 12) with 4096. lia.
  - split; [done|]. intros []. change 0xFFF00000 with (Z.shiftl 0xFFF 20). apply Z.bits_inj'. intros i Hi. rewrite Z.land_spec, Z.shiftl_spec, Z.bits_0 by done.
    destruct (decide (i < 20)); [by rewrite (Z.testbit_neg_r _ (i - 20)), andb_false_r by lia|by rewrite (bits_above (arch_units d) 20) by (exact R || lia)].
Qed.
Lemma seg_of_desc_checks sel d : let a := sg_ar (arch_seg sel d) in
  ar_s a = true -> ar_p a = true -> entry_checks (accessed (seg_of_desc sel d)).
Proof.
  intros a Hs Hp. destruct (accessed_spec (seg_of_desc sel d)) as (_ & _ & B & R & _ & _ & L).
  assert (Ea : sg_ar (seg_of_desc sel d) = a) by done. rewrite Ea in *.
  assert (Ed : a = Z.land (Z.shiftr d 40) 0xF0FF) by by rewrite Z.shiftr_div_pow2.
  destruct (seg_of_desc_granularity sel d) as [G0 G1]. rewrite Ea in G0, G1.
  assert (K : forall i, 16 <= i -> Z.testbit a i = false) by (intros i Hi; rewrite Ed, Z.land_spec, (bits_above 0xF0FF 16 i), andb_false_r by lia; done).
  split; unfold ar_null, ar_s, ar_p, ar_g in *; rewrite ?B by lia; try done.
  - by apply K.
  - rewrite R, Ed, <- Z.land_assoc. change (Z.land 0xF0FF 0xFFFE0F00) with 0. apply Z.land_0_r.
  - by rewrite L.
  - by rewrite L.
Qed.

(** The types that the checks of the source leave, with the accessed bit. *)
Lemma data_rw_type v : fits 4 v -> IsCode v = false -> IsDataRW v = true -> Z.lor v 1 = 3 \/ Z.lor v 1 = 7.
Proof.
  intros Hv. each_type Hv; intros C D; try discriminate C; try discriminate D; (by left) || by right.
Qed.
Lemma code_type v : fits 4 v -> IsCode v = true ->
  if IsCodeConform v then Z.lor v 1 = 13 \/ Z.lor v 1 = 15 else Z.lor v 1 = 9 \/ Z.lor v 1 = 11.
Proof.
  intros Hv. each_type Hv; intros C; try discriminate C; (by left) || by right.
Qed.

Lemma stack_checked sel d cpl : let a := sg_ar (arch_seg sel d) in
  ar_p a = true -> ar_s a = true -> IsCode (ar_type a) = false -> IsDataRW (ar_type a) = true -> ar_dpl a = cpl -> SelectorRpl sel = cpl ->
  stack_accepted (accessed (seg_of_desc sel d)) /\ ar_dpl (sg_ar (accessed (seg_of_desc sel d))) = cpl.
Proof.
  intros a Hp Hs Hc Hd H1 H2. destruct (accessed_spec (seg_of_desc sel d)) as (Ty & Dp & _ & _ & Se & _).
  assert (Ea : sg_ar (seg_of_desc sel d) = a) by done. rewrite Ea in Ty, Dp. unfold stack_accepted. rewrite Ty, Dp, Se. split; [|done].
  split; [by apply seg_of_desc_checks|]. split; [apply data_rw_type; [apply ar_type_range|done|done]|].
  cbn [seg_of_desc sg_selector]. congruence.
Qed.
Lemma code_checked sel d cpl : let a := sg_ar (arch_seg sel d) in
  ar_p a = true -> ar_s a = true -> IsCode (ar_type a) = true ->
  (if IsCodeConform (ar_type a) then cpl <? ar_dpl a else negb (ar_dpl a =? cpl)) = false ->
  code_accepted cpl (accessed (seg_of_desc sel d)).
Proof.
  intros a Hp Hs Hc Hd. destruct (accessed_spec (seg_of_desc sel d)) as (Ty & Dp & _). assert (Ea : sg_ar (seg_of_desc sel d) = a) by done. rewrite Ea in Ty, Dp.
  split; [by apply seg_of_desc_checks|]. rewrite Ty, Dp. pose proof (code_type (ar_type a) (ar_type_range a) Hc) as Hk.
  destruct (IsCodeConform (ar_type a)).
  - right. split; [done|]. apply Z.ltb_ge in Hd. lia.
  - left. split; [done|]. by apply Z.eqb_eq, negb_false_iff.
Qed.

(** With its accessed bit set. *)
Definition seg_accessed (sel d : Z) : seg_reg_t := mk_seg_reg sel (arch_base d) (arch_limit d) (Z.lor (arch_rights d) 1).
Lemma accessed_arch sel d : accessed (seg_of_desc sel d) = seg_accessed sel d.
Proof.
  unfold accessed, seg_accessed, IsAssessed, SetAssessed, ar_type. cbn [seg_of_desc sg_ar]. rewrite <- Z.land_assoc. change (Z.land 15 1) with 1.
  destruct (Z.eqb_spec (Z.land (arch_rights d) 1) 0) as [E|E]; cbn [negb]; unfold seg_of_desc, set_sg_ar; cbn [sg_selector sg_base sg_limit]; f_equal.
  - unfold with_type, set_bits_at. rewrite !Z.shiftl_0_r. apply Z.bits_inj'. intros i Hi. rewrite !Z.lor_spec, Z.ldiff_spec, Z.land_spec.
    by destruct (Z.testbit (arch_rights d) i), (Z.testbit 15 i), (Z.testbit 1 i).
  - assert (Hb : Z.testbit (arch_rights d) 0 = true).
    { pose proof (Z.bit0_mod (arch_rights d)) as B. rewrite (Z.land_ones _ 1) in E by done. change (2 ^ 1) with 2 in E.
      by destruct (Z.testbit (arch_rights d) 0); [|exfalso; apply E; rewrite <- B]. }
    apply Z.bits_inj'. intros i Hi. rewrite Z.lor_spec. destruct (decide (i = 0)) as [->|]; [by rewrite Hb|].
    by rewrite (bits_above 1 1), orb_false_r by lia.
Qed.

(** * Steps *)

Definition seg_fields (reg : VMM_IA32_SEGMENT_REGISTERS) : list Z :=
  let f := g_segment_2_vmcs reg in [sel f; seg_base f; limit f; ar f].
Definition all_segments : list VMM_IA32_SEGMENT_REGISTERS :=
  [IA32_SEG_CS; IA32_SEG_DS; IA32_SEG_SS; IA32_SEG_ES; IA32_SEG_FS; IA32_SEG_GS; IA32_SEG_LDTR; IA32_SEG_TR].
Definition ts_writes : list Z :=
  concat (seg_fields <$> all_segments) ++ [VMCS_GUEST_RFLAGS; VMCS_GUEST_DR7; VMCS_GUEST_GDTR_BASE; VMCS_GUEST_GDTR_LIMIT].

(** The content of a segment register. *)
Definition seg_in (V : Z -> Z) (reg : VMM_IA32_SEGMENT_REGISTERS) : seg_reg_t :=
  let f := g_segment_2_vmcs reg in mk_seg_reg (u16 (V (sel f))) (u32 (V (seg_base f))) (u32 (V (limit f))) (u32 (V (ar f))).
Definition put_seg (V : Z -> Z) (reg : VMM_IA32_SEGMENT_REGISTERS) (seg : seg_reg_t) : Z -> Z :=
  let f := g_segment_2_vmcs reg in
  fupd (fupd (fupd (fupd V (sel f) (sg_selector seg)) (seg_base f) (sg_base seg)) (limit f) (sg_limit seg)) (ar f) (sg_ar seg).
(** The general purpose registers: three are in the VMCS. *)
Definition in_vmcs (reg : Z) : option Z :=
  if reg =? IA32_REG_RSP then Some VMCS_GUEST_RSP else if reg =? IA32_REG_RIP then Some VMCS_GUEST_RIP
  else if reg =? IA32_REG_RFLAGS then Some VMCS_GUEST_RFLAGS else None.
Definition gp_value (V : Z -> Z) (l : list Z) (reg : Z) : Z := match in_vmcs reg with Some f => V f | None => slot l reg end.

(** Nothing stops the injection of an exception. *)
Definition ready (V : Z -> Z) : Prop :=
  Valid (u32 (V VMCS_EXIT_INFO_IDT_VECTORING)) = false /\ BlockStackSegment (u32 (V VMCS_GUEST_INTERRUPTIBILITY)) = false.

Lemma seg_in_put V reg seg : seg_fits seg -> seg_in (put_seg V reg seg) reg = seg.
Proof.
  intros (A & B & C & D). unfold fits in *. destruct seg as [s b l a]. cbn [sg_selector sg_base sg_limit sg_ar] in *.
  destruct reg; unfold seg_in, put_seg; cbn [g_segment_2_vmcs sel seg_base limit ar sg_selector sg_base sg_limit sg_ar]; fread;
    rewrite u16_small, !u32_small by lia; done.
Qed.
Lemma put_seg_other V reg seg f : among (seg_fields reg) f = false -> put_seg V reg seg f = V f.
Proof.
  unfold among, seg_fields, put_seg. cbn [existsb]. rewrite !orb_false_iff. intros (A & B & C & D & _). by rewrite !fupd_neb.
Qed.
Lemma put_seg_in V reg seg reg' : reg <> reg' -> seg_in (put_seg V reg seg) reg' = seg_in V reg'.
Proof. intros Hr. unfold seg_in. by rewrite !put_seg_other by by destruct reg, reg'. Qed.
Lemma put_seg_ready V reg seg : ready V -> ready (put_seg V reg seg).
Proof. intros Hr. unfold ready. by rewrite !put_seg_other by by destruct reg. Qed.

Section Steps.
Context {O : Type} `{VmcsLaws O} `{NmiWindow O} `{!GvaMap O} `{!GvaLaws O} (t : list VMCS_ENCODING) (fx : VMCS_HW_FIXED) (hw_read_dr : Z -> Z).
Hypothesis Hcrw : Forall (writes t) cr_writes.
Hypothesis Hcrr : Forall (reads (O := O) t) cr_reads.
Hypothesis Htsw : Forall (writes t) ts_writes.
Hypothesis Hfixed : fixed_fit fx.
Abbreviation state := (ts_state O).
Implicit Types s : state.

Lemma ts_write_right f : among ts_writes f = true -> writes t f.
Proof. by apply among_Forall. Qed.
#[local] Hint Extern 1 (writes t _) => (apply ts_write_right; reflexivity) : vmcs.
#[local] Hint Extern 1 (writes t _) => (apply (cr_write_right t Hcrw); reflexivity) : vmcs.
#[local] Hint Extern 1 (reads t _) => (apply writes_reads, ts_write_right; reflexivity) : vmcs.
#[local] Hint Extern 1 (reads t _) => (apply writes_reads, (cr_write_right t Hcrw); reflexivity) : vmcs.
#[local] Hint Extern 1 (reads t _) => (apply (cr_read_right t Hcrr); reflexivity) : vmcs.

(** The guest CPU shows the VMCS content [V], the saved registers [l] and the flags [fl]; memory is [m]. *)
Definition St s (V : Z -> Z) (l : list Z) (fl : Z) (m : mem) : Prop :=
  holds (ts_cpu s).1 V /\ gp (ts_cpu s).1 = l /\ state_flags (ts_cpu s).1 = fl /\ ts_mem s = m /\ saved l.

Lemma ask_ok {A} (f : GUEST_CPU O -> outcome (A * GUEST_CPU O)) (v : A) s V l fl m : St s V l fl m ->
  (exists g', f (ts_cpu s).1 = Ok (v, g') /\ holds g' V /\ frame (ts_cpu s).1 g') -> exists s', ask f s = Ok (v, s') /\ St s' V l fl m.
Proof.
  intros (A1 & A2 & A3 & A4 & A5) (g' & E & K & F). exists (set_cpu g' s). unfold ask. rewrite E, bind_Ok. split; [done|].
  unfold St. cbn [set_cpu ts_cpu ts_mem fst]. rewrite F. cbn [gp state_flags set_vmcs]. by split_and!.
Qed.
Lemma tell_ok (f : GUEST_CPU O -> outcome (GUEST_CPU O)) s V l fl m V' l' fl' : St s V l fl m -> saved l' ->
  (exists g', f (ts_cpu s).1 = Ok g' /\ holds g' V' /\ gp g' = l' /\ state_flags g' = fl') -> exists s', tell f s = Ok s' /\ St s' V' l' fl' m.
Proof.
  intros (A1 & A2 & A3 & A4 & A5) Hl (g' & E & K & P & F). exists (set_cpu g' s). unfold tell. rewrite E, bind_Ok. done.
Qed.

Lemma get_field_ok s V l fl m f : St s V l fl m -> reads (O := O) t f -> exists s', get_field t f s = Ok (V f, s') /\ St s' V l fl m.
Proof. intros HS Hf. apply ask_ok; [done|]. destruct HS as (A1 & _). by apply read_vmcs_ok. Qed.

Lemma get_gp_ok s V l fl m reg : St s V l fl m -> 0 <= reg < 18 -> exists s', get_gp t reg s = Ok (gp_value V l reg, s') /\ St s' V l fl m.
Proof.
  intros HS Hr. apply ask_ok; [done|]. destruct HS as (A1 & A2 & A3 & A4 & A5). unfold gcpu_get_gp_reg_layered, gcpu_get_native_gp_reg_layered, gp_value, in_vmcs.
  repeat (case_match; [apply read_vmcs_ok; [done|done|eauto with vmcs]|]).
  exists (ts_cpu s).1. rewrite A2, saved_rd, bind_Ok by done. split; [done|]. split; [done|apply frame_refl].
Qed.
Definition put_gp_V (V : Z -> Z) (reg v : Z) : Z -> Z := match in_vmcs reg with Some f => fupd V f v | None => V end.
Definition put_gp_l (l : list Z) (reg v : Z) : list Z := match in_vmcs reg with Some _ => l | None => <[Z.to_nat reg := v]> l end.
Lemma set_gp_ok s V l fl m reg v : St s V l fl m -> 0 <= reg < 18 -> fits 64 v ->
  exists s', set_gp_reg t reg v s = Ok s' /\ St s' (put_gp_V V reg v) (put_gp_l l reg v) fl m.
Proof.
  intros HS Hr Hv. pose proof HS as (A1 & A2 & A3 & A4 & A5).
  apply (tell_ok _ s V l fl m); [done|unfold put_gp_l, saved; case_match; [done|by rewrite length_insert]|].
  unfold gcpu_set_gp_reg_layered, gcpu_set_native_gp_reg_layered, put_gp_V, put_gp_l, in_vmcs.
  assert (W : forall f, writes t f -> exists g', write_vmcs t (ts_cpu s).1 VMCS_MERGED f v = Ok g' /\ holds g' (fupd V f v) /\
    gp g' = l /\ state_flags g' = fl).
  { intros f Hf. destruct (write_vmcs_ok t (ts_cpu s).1 V VMCS_MERGED f v ltac:(done) A1 Hf Hv) as (g' & E & K & F). exists g'.
    split; [done|]. split; [done|]. by rewrite F. }
  destruct (reg =? IA32_REG_RSP); [apply W; eauto with vmcs|]. destruct (reg =? IA32_REG_RIP); [apply W; eauto with vmcs|].
  destruct (reg =? IA32_REG_RFLAGS); [apply W; eauto with vmcs|].
  exists (set_gp (<[Z.to_nat reg := v]> l) (ts_cpu s).1). rewrite A2, saved_wr, bind_Ok by done. done.
Qed.

Lemma seg_right reg f : among (seg_fields reg) f = true -> writes t f.
Proof.
  intros Hf. apply ts_write_right. unfold among in *. apply existsb_exists in Hf as (x & Hx & E). apply existsb_exists. exists x. split; [|done].
  apply in_or_app. left. apply in_concat. exists (seg_fields reg). split; [|done]. apply in_map_iff. exists reg. split; [done|]. destruct reg; cbn; tauto.
Qed.
Lemma get_segment_ok s V l fl m reg : St s V l fl m -> exists s', get_segment t reg s = Ok (seg_in V reg, s') /\ St s' V l fl m.
Proof.
  intros (A1 & A2 & A3 & A4 & A5). unfold get_segment, gcpu_get_segment_reg_layered, seg_in.
  assert (R : Forall (reads (O := O) t) (seg_fields reg)).
  { apply Forall_forall. intros f Hf. apply writes_reads, (seg_right reg), existsb_exists. exists f. split; [by apply list_elem_of_In|apply Z.eqb_refl]. }
  unfold seg_fields in R. rewrite !Forall_cons in R. destruct R as (R1 & R2 & R3 & R4 & _). cbv zeta.
  set (g := (ts_cpu s).1) in *.
  destruct (read_vmcs_ok t g V VMCS_MERGED _ ltac:(done) A1 R1) as (g1 & -> & K1 & F1). rewrite bind_Ok. cbv iota beta.
  destruct (read_vmcs_ok t g1 V VMCS_MERGED _ ltac:(done) K1 R2) as (g2 & -> & K2 & F2). rewrite bind_Ok. cbv iota beta.
  destruct (read_vmcs_ok t g2 V VMCS_MERGED _ ltac:(done) K2 R3) as (g3 & -> & K3 & F3). rewrite bind_Ok. cbv iota beta.
  destruct (read_vmcs_ok t g3 V VMCS_MERGED _ ltac:(done) K3 R4) as (g4 & -> & K4 & F4). rewrite !bind_Ok. cbv iota beta.
  exists (set_cpu g4 s). split; [done|]. unfold St. cbn [set_cpu ts_cpu ts_mem fst]. split; [done|]. rewrite F4, F3, F2, F1. done.
Qed.
Lemma set_segment_ok s V l fl m reg seg : St s V l fl m -> seg_fits seg -> exists s', set_segment t reg seg s = Ok s' /\ St s' (put_seg V reg seg) l fl m.
Proof.
  intros HS (S1 & S2 & S3 & S4). pose proof HS as (A1 & A2 & A3 & A4 & A5). apply (tell_ok _ s V l fl m); [done|done|].
  assert (R : Forall (writes t) (seg_fields reg)).
  { apply Forall_forall. intros f Hf. apply (seg_right reg), existsb_exists. exists f. split; [by apply list_elem_of_In|apply Z.eqb_refl]. }
  unfold seg_fields in R. rewrite !Forall_cons in R. destruct R as (R1 & R2 & R3 & R4 & _).
  unfold gcpu_set_segment_reg_layered, put_seg. cbv zeta. set (g := (ts_cpu s).1) in *.
  destruct (write_vmcs_ok t g V VMCS_MERGED _ (sg_selector seg) ltac:(done) A1 R1 ltac:(by apply (fits_weak 16))) as (g1 & -> & K1 & F1). rewrite bind_Ok.
  destruct (write_vmcs_ok t g1 _ VMCS_MERGED _ (sg_base seg) ltac:(done) K1 R2 ltac:(by apply (fits_weak 32))) as (g2 & -> & K2 & F2). rewrite bind_Ok.
  destruct (write_vmcs_ok t g2 _ VMCS_MERGED _ (sg_limit seg) ltac:(done) K2 R3 ltac:(by apply (fits_weak 32))) as (g3 & -> & K3 & F3). rewrite bind_Ok.
  destruct (write_vmcs_ok t g3 _ VMCS_MERGED _ (sg_ar seg) ltac:(done) K3 R4 ltac:(by apply (fits_weak 32))) as (g4 & -> & K4 & F4).
  exists g4. split; [done|]. split; [done|]. rewrite F4, F3, F2, F1. done.
Qed.

Lemma see_ok s V l fl m reg : St s V l fl m -> exists s', ask (fun g => visible t g reg) s = Ok (cr_visible l V reg, s') /\ St s' V l fl m.
Proof.
  intros HS. pose proof HS as (A1 & A2 & A3 & A4 & A5). apply ask_ok; [done|]. rewrite <- A2. apply visible_ok; [done|done|by rewrite A2].
Qed.
Lemma show_ok s V l fl m reg v : St s V l fl m -> fits 64 v ->
  exists s' fl', set_visible t fx reg v s = Ok s' /\ St s' (seen_fields reg v V) (seen_gp reg v l) fl' m /\ flagged fl fl'.
Proof.
  intros HS Hv. pose proof HS as (A1 & A2 & A3 & A4 & A5).
  destruct (set_one_ok t Hcrw fx (ts_cpu s).1 V reg v VMCS_MERGED ltac:(done) A1 ltac:(by rewrite A2) Hv) as (g' & E & K & P & (F & _)).
  destruct (tell_ok (fun g => gcpu_set_guest_visible_control_reg_layered t fx g reg v VMCS_MERGED) s V l fl m (seen_fields reg v V) (seen_gp reg v l)
    (state_flags g') HS (seen_saved reg v l A5)) as (s' & E' & HS').
  { exists g'. split; [done|]. split; [done|]. by rewrite P, A2. }
  exists s', (state_flags g'). split; [done|]. split; [done|]. by rewrite <- A3.
Qed.
Lemma control_ok s V l fl m reg v : St s V l fl m -> fits 64 v -> (reg = IA32_CTRL_CR0 \/ reg = IA32_CTRL_CR3) ->
  exists s', set_control t fx reg v s = Ok s' /\ St s' (real_write fx reg v V) l fl m.
Proof.
  intros HS Hv Hr. pose proof HS as (A1 & A2 & A3 & A4 & A5). apply (tell_ok _ s V l fl m); [done|done|].
  destruct (compliant_cr_fits (O := O) (fun _ _ => mk_cpuid 0 0 0 0) (fun _ => None) (fun _ => None) fx (fun _ _ c => Ok (false, c)) Hfixed v Hv) as [C0 _].
  destruct Hr as [-> | ->]; cbn [gcpu_set_control_reg_layered real_write].
  - vwrite g1 K1 F1. exists g1. split; [done|]. split; [done|]. by rewrite F1.
  - vwrite g1 K1 F1. exists g1. split; [done|]. split; [done|]. by rewrite F1.
Qed.

(** The four exceptions of a task switch. *)
Definition ts_vectors : list Z :=
  [IA32_EXCEPTION_VECTOR_INVALID_TASK_SEGMENT_SELECTOR; IA32_EXCEPTION_VECTOR_STACK_SEGMENT_FAULT; IA32_EXCEPTION_VECTOR_SEGMENT_NOT_PRESENT;
   IA32_EXCEPTION_VECTOR_DEBUG_BREAKPOINT].
Lemma vector_cases v : among ts_vectors v = true -> v = 10 \/ v = 12 \/ v = 11 \/ v = 1.
Proof. unfold among. cbn. rewrite !orb_true_iff, !Z.eqb_eq. unfold ts_vectors. intuition congruence. Qed.
Lemma inject_ok s V l fl m v code : St s V l fl m -> ready V -> among ts_vectors v = true -> fits 64 code ->
  exists s' V', inject t v code s = Ok s' /\ St s' V' l fl m /\ carries V' v code /\
    (forall f, f <> VMCS_ENTER_INTERRUPT_INFO -> f <> VMCS_ENTER_EXCEPTION_ERROR_CODE -> V' f = V f).
Proof.
  intros (A1 & A2 & A3 & A4 & A5) [Hi Hb] Hv Hc. unfold inject, gcpu_inject_fault.
  destruct (rd_field_ok t (ts_cpu s) V VMCS_EXIT_INFO_INSTRUCTION_LENGTH A1 ltac:(eauto with vmcs)) as (s1 & -> & K1 & F1 & G1). rewrite bind_Ok. cbv iota beta zeta.
  set (i := make_info v InterruptTypeHardwareException _). set (c := if v =? _ then 0 else code).
  assert (Ht : InterruptType i = InterruptTypeHardwareException /\ Vector i = v /\ fits 32 i) by (unfold i; clear i c; by destruct (vector_cases v Hv) as [-> |[-> |[-> | ->]]]).
  destruct Ht as (Ht & Hvec & Hf).
  assert (Ha : allowed_now (u32 (V VMCS_GUEST_INTERRUPTIBILITY)) i = true) by (unfold allowed_now; by rewrite Ht, Hb).
  assert (Hcf : fits 64 c) by (unfold c; by case_match).
  destruct (inject_exception_ok t (inject_rights t Hcrw) s1 V i (u32 (V VMCS_EXIT_INFO_INSTRUCTION_LENGTH)) c K1 Hf Hcf Ht Hi Ha) as (s2 & -> & K2 & F2 & G2).
  rewrite bind_Ok. exists (mk_ts s2 (ts_mem s)), (injected V i c). split; [done|]. cbn [ts_cpu ts_mem snd].
  split; [|split; [|intros; by apply injected_other]].
  - unfold St. cbn [ts_cpu ts_mem]. split; [done|]. rewrite F2, F1. done.
  - pose proof (injected_carries V i c Ht) as (X1 & X2 & X3 & X4 & X5). rewrite Hvec in *. split_and!; try done.
    intros Hr. rewrite (X5 Hr). unfold c. by destruct (vector_cases v Hv) as [-> |[-> |[-> | ->]]].
Qed.

(** ** Exits with an exception *)

(** Exactly one exception is ordered for the guest. *)
Definition faulted s : Prop := exists V l fl m v code, St s V l fl m /\ among ts_vectors v = true /\ carries V v code.
(** A part of the switch ends, with [P] or with an exception; under the condition [C] there is no exception. *)
Definition ends (C : Prop) (e : outcome (bool * state)) (P : state -> Prop) : Prop :=
  exists (ok : bool) s', e = Ok (ok, s') /\ if ok then P s' else faulted s' /\ ~ C.

Lemma ends_ok C s P : P s -> ends C (Ok (true, s)) P.
Proof. intros HP. by exists true, s. Qed.
Lemma ends_weaken C e (P Q : state -> Prop) : ends C e P -> (forall s, P s -> Q s) -> ends C e Q.
Proof. intros (ok & s' & E & HP) HPQ. exists ok, s'. split; [done|]. destruct ok; [by apply HPQ|done]. Qed.
Lemma ends_if (C D : Prop) e P : (C -> D) -> ends D e P -> ends C e P.
Proof. intros HCD (ok & s' & E & HP). exists ok, s'. split; [done|]. destruct ok; [done|]. destruct HP as [HF HD]. split; [done|]. by intros HC%HCD. Qed.
Lemma ends_checked C e k P Q : ends C e P -> (forall s, P s -> ends C (k s) Q) -> ends C (checked e k) Q.
Proof.
  intros (ok & s' & E & HP) HQ. unfold checked. rewrite E, bind_Ok. cbv iota beta. destruct ok; [by apply HQ|by exists false, s'].
Qed.
Lemma ends_refuse (C : Prop) v code s V l fl m P : St s V l fl m -> ready V -> among ts_vectors v = true -> fits 64 code -> ~ C ->
  ends C (refuse_with (inject t v code) s) P.
Proof.
  intros HS Hr Hv Hc HC. unfold refuse_with. destruct (inject_ok s V l fl m v code HS Hr Hv Hc) as (s' & V' & -> & HS' & K & _).
  exists false, s'. split; [done|]. split; [|done]. by exists V', l, fl, m, v, code.
Qed.
Lemma force_ok s V l fl m : St s V l fl m -> ready V -> exists s' V', force_ring3_ss t s = Ok s' /\ St s' V' l fl m /\ ready V'.
Proof.
  intros HS Hr. unfold force_ring3_ss. destruct (see_ok s V l fl m IA32_CTRL_CR0 HS) as (s1 & -> & S1). rewrite bind_Ok. cbv iota beta.
  destruct (get_gp_ok s1 V l fl m IA32_REG_RFLAGS S1 ltac:(done)) as (s2 & -> & S2). rewrite bind_Ok. cbv iota beta.
  case_match; [by exists s2, V|]. destruct (get_segment_ok s2 V l fl m IA32_SEG_TR S2) as (s3 & -> & S3). rewrite bind_Ok. cbv iota beta.
  destruct (set_segment_ok s3 V l fl m IA32_SEG_SS (set_sg_ar (with_dpl 3 (sg_ar (seg_in V IA32_SEG_TR))) (seg_in V IA32_SEG_TR)) S3) as (s4 & E4 & S4).
  { split_and!; try apply wrap_fits; try done. cbn [set_sg_ar sg_ar seg_in]. unfold with_dpl, set_bits_at.
    apply fits_lor; [done|apply fits_ldiff; [done|by apply wrap_fits|done]|done]. }
  exists s4, (put_seg V IA32_SEG_SS (set_sg_ar (with_dpl 3 (sg_ar (seg_in V IA32_SEG_TR))) (seg_in V IA32_SEG_TR))). split; [done|]. split; [done|]. by apply put_seg_ready.
Qed.
Lemma ends_refuse3 (C : Prop) v code s V l fl m P : St s V l fl m -> ready V -> among ts_vectors v = true -> fits 64 code -> ~ C ->
  ends C (refuse_ring3 t (inject t v code) s) P.
Proof.
  intros HS Hr Hv Hc HC. unfold refuse_ring3. destruct (force_ok s V l fl m HS Hr) as (s1 & V1 & -> & S1 & R1). rewrite bind_Ok.
  by apply (ends_refuse C v code s1 V1 l fl m).
Qed.

(** ** Guest memory *)

Lemma get_gva_ok s V l fl m a n : St s V l fl m -> fits 64 a -> fits 32 n ->
  exists s', get_gva a n s = Ok (lin_copy (gva_view l fl V m) m a n, s') /\ St s' V l fl m.
Proof.
  intros HS Ha Hn. pose proof HS as (A1 & A2 & A3 & A4 & A5). apply ask_ok; [done|]. rewrite A4, <- A2, <- A3.
  apply copy_from_ok; try done. by rewrite A2.
Qed.
Lemma put_gva_total s V l fl m a bs : St s V l fl m -> fits 64 a -> fits 32 (Z.of_nat (length bs)) ->
  exists ok s' m' g', put_gva a bs s = Ok (ok, s') /\ St s' V l fl m' /\ copy_to_gva (ts_cpu s).1 m a bs = Ok (ok, m', g').
Proof.
  intros (A1 & A2 & A3 & A4 & A5) Ha Hn. unfold put_gva. rewrite A4.
  destruct (copy_to_total V (S (length bs)) (ts_cpu s).1 m a bs A1 ltac:(by rewrite A2) Ha Hn ltac:(lia)) as (ok & m' & g' & E & K & F).
  unfold copy_to_gva. rewrite E, bind_Ok.
  exists ok, (mk_ts (g', (ts_cpu s).2) m'), m', g'. split; [done|]. split; [|done]. unfold St. cbn [ts_cpu ts_mem fst]. split; [done|]. rewrite F. done.
Qed.

(** Memory that differs from [m0] only in [R], where no table of the guest lies: its addresses are translated as
    in [m0], by [T m0]. *)
Definition Tr s (V : Z -> Z) (l : list Z) (fl : Z) (T : mem -> Z -> option Z) (m0 : mem) (R : Z -> Prop) (m : mem) : Prop :=
  St s V l fl m /\ (forall m a, gva_view l fl V m a = T m a) /\ apart T m0 R /\ touched T m0 R m.

Lemma lin_copy_ext T T' m a n : (forall a, T a = T' a) -> lin_copy T m a n = lin_copy T' m a n.
Proof. intros E. unfold lin_copy. by rewrite (lin_read_ext T T'). Qed.
Lemma lin_write_ext T T' bs : (forall a, T a = T' a) -> forall m a, lin_write T m a bs = lin_write T' m a bs.
Proof. intros E. induction bs as [|b bs IH]; intros m a; cbn [lin_write]; [done|]. rewrite E. destruct (T' a); [|done]. apply IH. Qed.
Lemma touched_ext (T T' : mem -> Z -> option Z) m0 R m : (forall m a, T m a = T' m a) -> touched T m0 R m -> touched T' m0 R m.
Proof. intros E Ht x Hx. destruct (Ht x Hx) as (b & Hb & Eb). exists b. by rewrite <- E. Qed.
Lemma apart_ext (T T' : mem -> Z -> option Z) m R : (forall m a, T m a = T' m a) -> apart T m R -> apart T' m R.
Proof. intros E Ha m' a Ht. rewrite <- !E. apply Ha. by apply (touched_ext T'). Qed.

Lemma tr_get s V l fl T m0 R m a n : Tr s V l fl T m0 R m -> fits 64 a -> fits 32 n ->
  exists s', get_gva a n s = Ok (lin_copy (T m0) m a n, s') /\ Tr s' V l fl T m0 R m.
Proof.
  intros (HS & HT & Ha & Ht) Hf Hn. destruct (get_gva_ok s V l fl m a n HS Hf Hn) as (s' & -> & S'). exists s'. split; [|done].
  do 2 f_equal. apply lin_copy_ext. intros b. rewrite HT. by apply Ha.
Qed.
(** An address of 32 bits and a few bytes do not reach the end of the address space. *)
Lemma tr_put s V l fl T m0 R m a bs : Tr s V l fl T m0 R m -> fits 32 a -> Z.of_nat (length bs) <= 4096 ->
  (forall b, a <= b < a + Z.of_nat (length bs) -> R b) ->
  exists (ok : bool) s' m', put_gva a bs s = Ok (ok, s') /\ Tr s' V l fl T m0 R m' /\ lin_write (T m0) m a bs = if ok then Some m' else None.
Proof.
  intros (HS & HT & Hap & Ht) Ha Hn HR. pose proof HS as (A1 & A2 & A3 & A4 & A5). unfold put_gva. rewrite A4.
  assert (HT' : forall m a, T m a = gva_view (gp (ts_cpu s).1) (state_flags (ts_cpu s).1) V m a) by (intros; by rewrite A2, A3).
  unfold fits in Ha.
  destruct (copy_to_ok (ts_cpu s).1 V m0 R m a bs A1 ltac:(by rewrite A2) ltac:(unfold fits; lia) ltac:(unfold fits; lia)
    ltac:(by apply (apart_ext T)) ltac:(by apply (touched_ext T)) HR) as (ok & m' & g' & -> & K & F & W & W'). rewrite bind_Ok.
  exists ok, (mk_ts (g', (ts_cpu s).2) m'), m'. split; [done|]. split.
  - split; [|split; [done|split; [done|]]]; [|by apply (touched_ext (gva_view (gp (ts_cpu s).1) (state_flags (ts_cpu s).1) V))].
    unfold St. cbn [ts_cpu ts_mem fst]. split; [done|]. rewrite F. done.
  - rewrite (lin_write_ext _ _ _ (HT' m0)). destruct ok; [done|]. destruct W' as [W'|W']; [|done].
    unfold lin_fits in W'. apply orb_false_iff in W' as [_ W']. apply Z.leb_gt in W'. change UINT64_ALL_ONES with (2 ^ 64 - 1) in W'. lia.
Qed.
Lemma tr_put_or_ts (C : Prop) s V l fl T m0 R m a bs code : Tr s V l fl T m0 R m -> ready V -> fits 64 code -> fits 32 a -> Z.of_nat (length bs) <= 4096 ->
  (forall b, a <= b < a + Z.of_nat (length bs) -> R b) -> (C -> is_Some (lin_write (T m0) m a bs)) ->
  ends C (put_or_ts t a bs code s) (fun s' => exists m', Tr s' V l fl T m0 R m' /\ lin_write (T m0) m a bs = Some m').
Proof.
  intros HT Hr Hc Ha Hn HR HC. unfold put_or_ts. destruct (tr_put s V l fl T m0 R m a bs HT Ha Hn HR) as (ok & s' & m' & -> & T' & W).
  rewrite bind_Ok. cbv iota beta. destruct ok; [apply ends_ok; by exists m'|]. destruct T' as [S' _].
  apply (ends_refuse _ _ _ s' V l fl m'); try done. rewrite W in HC. by intros [? ?]%HC.
Qed.

(** ** The segment registers of the new task *)

Lemma desc_gva_fits dtr sel : fits 64 (desc_gva dtr sel).
Proof. apply (fits_weak 32); [lia|]. apply u32_range. Qed.
Lemma sel_fits x : fits 64 (u16 x).
Proof. apply (fits_weak 16); [lia|]. by apply wrap_fits. Qed.

Lemma seg_of_desc_selector sel d : sg_selector (seg_of_desc sel d) = sel.
Proof. done. Qed.

(** The descriptor that a selector names, in the GDT or in the local table. *)
Definition table_of (gdtr ldtr : seg_reg_t) (sel : Z) : seg_reg_t := if SelectorGdt sel then gdtr else ldtr.
Definition descriptor (T : Z -> option Z) (m : mem) (gdtr ldtr : seg_reg_t) (sel : Z) : option Z :=
  le <$> lin_copy T m (desc_gva (table_of gdtr ldtr sel) sel) 8.

(** Descriptors of the new task that load without a fault and need no accessed bit: they lie in the GDT, are
    present and of the right kind and privilege. *)
Definition gdt_desc (T : Z -> option Z) (m : mem) (gdtr : seg_reg_t) (sel : Z) : option Z :=
  if SelectorGdt sel then le <$> lin_copy T m (desc_gva gdtr sel) 8 else None.
Definition stack_good (T : Z -> option Z) (m : mem) (gdtr : seg_reg_t) (tss : tss32_t) : bool :=
  let sel := u16 (tss_ss tss) in let cpl := SelectorRpl (tss_cs tss) in
  match gdt_desc T m gdtr sel with
  | Some d =>
      let a := sg_ar (arch_seg sel d) in
      negb (SelectorIdx sel =? 0) && ar_p a && ar_s a && ((ar_type a =? 3) || (ar_type a =? 7)) && (ar_dpl a =? cpl) && (SelectorRpl sel =? cpl)
  | None => false
  end.
Definition code_good (T : Z -> option Z) (m : mem) (gdtr : seg_reg_t) (tss : tss32_t) : bool :=
  let sel := u16 (tss_cs tss) in let cpl := SelectorRpl (tss_cs tss) in
  match gdt_desc T m gdtr sel with
  | Some d =>
      let a := sg_ar (arch_seg sel d) in
      negb (SelectorIdx sel =? 0) && ar_p a && ar_s a &&
      (((ar_type a =? 9) || (ar_type a =? 11)) && (ar_dpl a =? cpl) || ((ar_type a =? 13) || (ar_type a =? 15)) && (ar_dpl a <=? cpl)) &&
      (eip tss <=? arch_limit d)
  | None => false
  end.
Definition data_good (T : Z -> option Z) (m : mem) (gdtr : seg_reg_t) (tss : tss32_t) (sel : Z) : bool :=
  (SelectorIdx sel =? 0) ||
  match gdt_desc T m gdtr sel with
  | Some d =>
      let a := sg_ar (arch_seg sel d) in
      ar_p a && ar_s a && (negb (IsCode (ar_type a)) || IsCodeR (ar_type a)) &&
      (SelectorRpl (tss_cs tss) <=? ar_dpl a) && (SelectorRpl sel <=? ar_dpl a)
  | None => false
  end.
Definition ldt_good (T : Z -> option Z) (m : mem) (gdtr : seg_reg_t) (tss : tss32_t) : bool :=
  let sel := u16 (tss_ldtr tss) in
  (SelectorIdx sel =? 0) ||
  match gdt_desc T m gdtr sel with
  | Some d => let a := sg_ar (arch_seg sel d) in negb (ar_s a) && (ar_type a =? 2) && ar_p a
  | None => false
  end.

Lemma gdt_desc_some T m gdtr ldtr sel d : gdt_desc T m gdtr sel = Some d ->
  exists bs, lin_copy T m (desc_gva (if SelectorGdt sel then gdtr else ldtr) sel) 8 = Some bs /\ d = le bs /\ SelectorGdt sel = true.
Proof.
  unfold gdt_desc. destruct (SelectorGdt sel); [|done]. destruct (lin_copy T m _ 8) as [bs|]; [|done]. intros [= <-]. by exists bs.
Qed.
Lemma type_good_stack v : (v =? 3) || (v =? 7) = true -> IsCode v = false /\ IsDataRW v = true /\ IsAssessed v = true.
Proof. rewrite orb_true_iff, !Z.eqb_eq. by intros [-> | ->]. Qed.
Lemma type_good_code v dpl cpl : ((v =? 9) || (v =? 11)) && (dpl =? cpl) || ((v =? 13) || (v =? 15)) && (dpl <=? cpl) = true ->
  IsCode v = true /\ IsAssessed v = true /\ (if IsCodeConform v then cpl <? dpl else negb (dpl =? cpl)) = false.
Proof.
  rewrite orb_true_iff, !andb_true_iff, !orb_true_iff, !Z.eqb_eq, Z.leb_le.
  intros [[[-> | ->] ->]|[[-> | ->] Hd]]; (split; [done|]; split; [done|]); first [by apply negb_false_iff, Z.eqb_refl | by apply Z.ltb_ge].
Qed.

(** One descriptor of the new task, at [gva], may have got its accessed bit; the guest's addresses are
    translated with [V]'s paging registers. *)
Definition marks_accessed (l : list Z) (fl : Z) (V : Z -> Z) (gva : Z) (m m' : mem) : Prop :=
  m' = m \/ exists (g g' : GUEST_CPU O) Va bs, holds g Va /\ gp g = l /\ state_flags g = fl /\
    (forall f, among paging_fields f = true -> Va f = V f) /\ lin_copy (gva_view l fl V m) m gva 8 = Some bs /\
    copy_to_gva g m gva (le_bytes 8 (Z.lor (le bs) (2 ^ 40))) = Ok (true, m', g').
Lemma mark_arch d : set_desc_type (SetAssessed (desc_type d)) d = Z.lor d (2 ^ 40).
Proof.
  unfold set_desc_type, SetAssessed, desc_type, set_bits_at, bits. apply Z.bits_inj'. intros i Hi.
  rewrite !Z.lor_spec, Z.ldiff_spec, !Z.shiftl_spec by done. rewrite Z.lor_spec, Z.land_spec, Z.pow2_bits_eqb by done.
  destruct (decide (i < 40)) as [Hl|Hl]; [rewrite !(Z.testbit_neg_r _ (i - 40)) by lia; rewrite (proj2 (Z.eqb_neq 40 i)) by lia; by rewrite andb_false_r, andb_true_r|].
  rewrite Z.shiftr_spec by lia. replace (i - 40 + 40) with i by lia. destruct (Z.eqb_spec 40 i) as [<-|Hne].
  - change (Z.testbit 1 (40 - 40)) with true. by rewrite !orb_true_r.
  - rewrite (bits_above 1 1 (i - 40)) by lia. change 15 with (Z.ones 4). destruct (decide (i - 40 < 4)).
    + rewrite Z.ones_spec_low by lia. by destruct (Z.testbit d i).
    + rewrite Z.ones_spec_high by lia. by destruct (Z.testbit d i).
Qed.
Lemma marks_ext l fl V V' gva m m' : (forall f, among paging_fields f = true -> V' f = V f) -> marks_accessed l fl V gva m m' -> marks_accessed l fl V' gva m m'.
Proof.
  intros HV [->|(g & g' & Va & bs & A1 & A2 & A3 & A4 & A5 & A6)]; [by left|]. right. exists g, g', Va, bs. split; [done|]. split; [done|]. split; [done|].
  split; [intros f Hf; rewrite A4, HV by done; done|]. split; [|done]. rewrite <- A5. apply lin_copy_ext. intros a. by apply gva_ext.
Qed.

Lemma mark_ok (C : Prop) gva bs seg fail continue s V l fl m P : St s V l fl m -> fits 64 gva -> lin_copy (gva_view l fl V m) m gva 8 = Some bs ->
  (C -> IsAssessed (ar_type (sg_ar seg)) = true) ->
  (forall s' m', St s' V l fl m' -> ~ C -> ends C (fail s') P) ->
  (forall s' m', St s' V l fl m' -> marks_accessed l fl V gva m m' -> (C -> m' = m) -> ends C (continue (accessed seg) s') P) ->
  ends C (mark_accessed gva (le bs) seg fail continue s) P.
Proof.
  intros HS Hg Hb HC Hf Hc. unfold mark_accessed. rewrite mark_arch. specialize (Hc) as Hc'. unfold accessed in Hc'.
  destruct (IsAssessed (ar_type (sg_ar seg))); [apply (Hc' s m); [done|by left|done]|].
  assert (HN : ~ C) by (intros HC'; by discriminate HC).
  destruct (put_gva_total s V l fl m gva (le_bytes 8 (Z.lor (le bs) (2 ^ 40))) HS Hg ltac:(done)) as (ok & s' & m' & g' & E & HS' & E').
  cbv zeta. rewrite E, bind_Ok. cbv iota beta. destruct ok; [|by apply (Hf s' m')]. apply (Hc' s' m'); [done| |done]. right.
  destruct HS as (A1 & A2 & A3 & A4 & A5). by exists (ts_cpu s).1, g', V, bs.
Qed.

Lemma ss_ok gdtr ldtr tss s V l fl m : St s V l fl m -> ready V ->
  ends (stack_good (gva_view l fl V m) m gdtr tss = true) (set_guest_ss t gdtr ldtr tss s)
    (fun s' => exists d m', descriptor (gva_view l fl V m) m gdtr ldtr (u16 (tss_ss tss)) = Some d /\
    let seg := seg_accessed (u16 (tss_ss tss)) d in St s' (put_seg V IA32_SEG_SS seg) l fl m' /\ seg_fits seg /\
    stack_accepted seg /\ ar_dpl (sg_ar seg) = SelectorRpl (tss_cs tss) /\
    marks_accessed l fl V (desc_gva (table_of gdtr ldtr (u16 (tss_ss tss))) (u16 (tss_ss tss))) m m' /\ (stack_good (gva_view l fl V m) m gdtr tss = true -> m' = m)).
Proof.
  intros HS Hr. unfold set_guest_ss. cbv zeta. cbn [sg_selector parse_desc]. set (sel := u16 (tss_ss tss)). assert (Hsel : fits 64 sel) by apply sel_fits.
  set (C := stack_good (gva_view l fl V m) m gdtr tss = true).
  set (dtr := if SelectorGdt sel then gdtr else ldtr).
  assert (G : C -> (SelectorIdx sel =? 0) = false /\ exists bs, lin_copy (gva_view l fl V m) m (desc_gva dtr sel) 8 = Some bs /\
    let a := sg_ar (arch_seg sel (le bs)) in ar_p a = true /\ IsAssessed (ar_type a) = true /\
    negb (ar_s a) || IsCode (ar_type a) || negb (IsDataRW (ar_type a)) || negb (ar_dpl a =? SelectorRpl (tss_cs tss)) ||
      negb (SelectorRpl sel =? SelectorRpl (tss_cs tss)) = false).
  { unfold C, stack_good. cbv zeta. fold sel. destruct (gdt_desc _ m gdtr sel) as [d|] eqn:Ed; [|done].
    destruct (gdt_desc_some _ _ _ ldtr _ _ Ed) as (bs & E & -> & _). rewrite !andb_true_iff, negb_true_iff. intros (((((G1 & G2) & G3) & G4) & G5) & G6).
    split; [done|]. exists bs. split; [done|]. cbv zeta. destruct (type_good_stack _ G4) as (K1 & K2 & K3). by rewrite G2, G3, K1, K2, K3, G5, G6. }
  destruct (SelectorIdx sel =? 0); [apply (ends_refuse3 _ _ _ s V l fl m); try done; by intros [? _]%G|].
  destruct (get_gva_ok s V l fl m (desc_gva dtr sel) 8 HS ltac:(apply desc_gva_fits) ltac:(done)) as (s1 & -> & S1). rewrite bind_Ok. cbv iota beta.
  destruct (lin_copy _ m _ 8) as [bs|] eqn:Eb; [|apply (ends_refuse3 _ _ _ s1 V l fl m); try done; by intros (_ & ? & ? & _)%G].
  rewrite !parse_desc_arch. set (d := le bs). set (a := sg_ar (arch_seg sel d)).
  assert (G' : C -> ar_p a = true /\ IsAssessed (ar_type a) = true /\ negb (ar_s a) || IsCode (ar_type a) || negb (IsDataRW (ar_type a)) ||
    negb (ar_dpl a =? SelectorRpl (tss_cs tss)) || negb (SelectorRpl sel =? SelectorRpl (tss_cs tss)) = false).
  { intros (_ & bs' & [= <-] & G1)%G. done. }
  destruct (ar_p a) eqn:Ep; cbn [negb]; [|apply (ends_refuse3 _ _ _ s1 V l fl m); try done; by intros (? & _)%G'].
  match goal with |- ends _ (if ?c then _ else _) _ => destruct c eqn:Ec end; [apply (ends_refuse3 _ _ _ s1 V l fl m); try done; by intros (_ & _ & ?)%G'|].
  rewrite !orb_false_iff, !negb_false_iff, !Z.eqb_eq in Ec. destruct Ec as ((((E1 & E2) & E3) & E4) & E5).
  apply (mark_ok C _ _ _ _ _ s1 V l fl m); [done|apply desc_gva_fits|done|rewrite scale_arch; by intros (_ & ? & _)%G'|
    intros s' m' S' HN; by apply (ends_refuse3 _ _ _ s' V l fl m')|].
  intros s' m' S' HM HE. rewrite scale_arch.
  assert (Hf : seg_fits (accessed (seg_of_desc sel d))) by (apply accessed_fits, seg_of_desc_fits; by apply wrap_fits).
  destruct (stack_checked sel d (SelectorRpl (tss_cs tss)) Ep E1 E2 E3 E4 E5) as [K1 K2]. rewrite accessed_arch in *.
  destruct (set_segment_ok s' V l fl m' IA32_SEG_SS (seg_accessed sel d) S' Hf) as (s2 & -> & S2). rewrite bind_Ok.
  apply ends_ok. exists d, m'. split; [unfold descriptor, table_of; fold dtr; by rewrite Eb|]. cbv zeta. by split_and!.
Qed.

Lemma with_bit_clear a b : 0 <= b -> Z.testbit a b = false -> with_bit b false a = a.
Proof. intros Hb Ha. apply Z.bits_inj'. intros i Hi. rewrite with_bit_bit by done. by destruct (Z.eqb_spec i b) as [->|]. Qed.

Lemma cs_ok gdtr ldtr tss s V l fl m : St s V l fl m -> ready V ->
  ends (code_good (gva_view l fl V m) m gdtr tss = true) (set_guest_cs t gdtr ldtr tss s)
    (fun s' => exists d m', descriptor (gva_view l fl V m) m gdtr ldtr (u16 (tss_cs tss)) = Some d /\
    let seg := seg_accessed (u16 (tss_cs tss)) d in St s' (put_seg V IA32_SEG_CS seg) l fl m' /\ seg_fits seg /\
    code_accepted (SelectorRpl (tss_cs tss)) seg /\ eip tss <= arch_limit d /\
    marks_accessed l fl V (desc_gva (table_of gdtr ldtr (u16 (tss_cs tss))) (u16 (tss_cs tss))) m m').
Proof.
  intros HS Hr. unfold set_guest_cs. cbv zeta. cbn [sg_selector parse_desc]. set (sel := u16 (tss_cs tss)). assert (Hsel : fits 64 sel) by apply sel_fits.
  set (C := code_good (gva_view l fl V m) m gdtr tss = true).
  set (dtr := if SelectorGdt sel then gdtr else ldtr). set (cpl := SelectorRpl (tss_cs tss)).
  assert (G : C -> (SelectorIdx sel =? 0) = false /\ exists bs, lin_copy (gva_view l fl V m) m (desc_gva dtr sel) 8 = Some bs /\
    let a := sg_ar (arch_seg sel (le bs)) in ar_p a = true /\ IsAssessed (ar_type a) = true /\
    negb (ar_s a) || negb (IsCode (ar_type a)) = false /\ (if IsCodeConform (ar_type a) then cpl <? ar_dpl a else negb (ar_dpl a =? cpl)) = false /\
    eip tss <= arch_limit (le bs)).
  { unfold C, code_good. cbv zeta. fold sel cpl. destruct (gdt_desc _ m gdtr sel) as [d|] eqn:Ed; [|done].
    destruct (gdt_desc_some _ _ _ ldtr _ _ Ed) as (bs & E & -> & _). rewrite !andb_true_iff, negb_true_iff. intros ((((G1 & G2) & G3) & G4) & G5).
    split; [done|]. exists bs. split; [done|]. cbv zeta. destruct (type_good_code _ _ _ G4) as (K1 & K2 & K3).
    rewrite G2, G3, K1, K2, K3. split; [done|]. split; [done|]. split; [done|]. split; [done|]. by apply Z.leb_le. }
  destruct (SelectorIdx sel =? 0); [apply (ends_refuse _ _ _ s V l fl m); try done; by intros [? _]%G|].
  destruct (get_gva_ok s V l fl m (desc_gva dtr sel) 8 HS ltac:(apply desc_gva_fits) ltac:(done)) as (s1 & -> & S1). rewrite bind_Ok. cbv iota beta.
  destruct (lin_copy _ m _ 8) as [bs|] eqn:Eb; [|apply (ends_refuse _ _ _ s1 V l fl m); try done; by intros (_ & ? & ? & _)%G].
  rewrite !parse_desc_arch. set (d := le bs). set (a := sg_ar (arch_seg sel d)).
  assert (G' : C -> ar_p a = true /\ IsAssessed (ar_type a) = true /\ negb (ar_s a) || negb (IsCode (ar_type a)) = false /\
    (if IsCodeConform (ar_type a) then cpl <? ar_dpl a else negb (ar_dpl a =? cpl)) = false /\ eip tss <= arch_limit d).
  { intros (_ & bs' & [= <-] & G1)%G. done. }
  destruct (ar_p a) eqn:Ep; cbn [negb]; [|apply (ends_refuse _ _ _ s1 V l fl m); try done; by intros (? & _)%G'].
  destruct (negb (ar_s a) || negb (IsCode (ar_type a))) eqn:Ec; [apply (ends_refuse _ _ _ s1 V l fl m); try done; by intros (_ & _ & ? & _)%G'|].
  rewrite !orb_false_iff, !negb_false_iff in Ec. destruct Ec as (E1 & E2).
  match goal with |- ends _ (if ?c then _ else _) _ => destruct c eqn:E3 end; [apply (ends_refuse _ _ _ s1 V l fl m); try done; by intros (_ & _ & _ & ? & _)%G'|].
  apply (mark_ok C _ _ _ _ _ s1 V l fl m); [done|apply desc_gva_fits|done|rewrite scale_arch; by intros (_ & ? & _)%G'|
    intros s' m' S' HN; by apply (ends_refuse _ _ _ s' V l fl m')|].
  intros s' m' S' HM _. rewrite scale_arch, accessed_arch. set (seg := seg_accessed sel d).
  assert (Hf : seg_fits seg) by (unfold seg; rewrite <- accessed_arch; apply accessed_fits, seg_of_desc_fits; by apply wrap_fits).
  pose proof (code_checked sel d cpl Ep E1 E2 E3) as Hk. rewrite accessed_arch in Hk. fold seg in Hk.
  assert (Ea : set_sg_ar (with_bit 16 false (sg_ar seg)) seg = seg).
  { rewrite with_bit_clear by (done || apply (ec_usable _ (proj1 Hk))). by destruct seg. }
  cbv beta zeta. rewrite Ea. destruct (set_segment_ok s' V l fl m' IA32_SEG_CS seg S' Hf) as (s2 & -> & S2). rewrite bind_Ok.
  change (sg_limit seg) with (arch_limit d). destruct (arch_limit d <? eip tss) eqn:El.
  { apply (ends_refuse _ _ _ s2 (put_seg V IA32_SEG_CS seg) l fl m'); try done; try by apply put_seg_ready.
    apply Z.ltb_lt in El. intros (_ & _ & _ & _ & ?)%G'. lia. }
  apply ends_ok. exists d, m'. split; [unfold descriptor, table_of; fold dtr; by rewrite Eb|]. cbv zeta. fold seg. split_and!; try done. by apply Z.ltb_ge.
Qed.

(** The selector of a data segment in the new task. *)
Definition data_selector (tss : tss32_t) (reg : VMM_IA32_SEGMENT_REGISTERS) : Z :=
  match reg with
  | IA32_SEG_ES => u16 (tss_es tss) | IA32_SEG_DS => u16 (tss_ds tss) | IA32_SEG_FS => u16 (tss_fs tss) | _ => u16 (tss_gs tss)
  end.
(** A null selector makes the register unusable; another one is loaded from its descriptor, which is present. *)
Definition data_loaded (T : Z -> option Z) (m : mem) (gdtr ldtr : seg_reg_t) (sel : Z) (seg : seg_reg_t) : Prop :=
  if SelectorIdx sel =? 0 then seg = mk_seg_reg 0 0 0 0x10000
  else exists d, descriptor T m gdtr ldtr sel = Some d /\ seg = seg_of_desc sel d /\ ar_s (sg_ar seg) = true /\ ar_p (sg_ar seg) = true.
Definition is_data_reg (reg : VMM_IA32_SEGMENT_REGISTERS) : bool :=
  match reg with IA32_SEG_ES | IA32_SEG_DS | IA32_SEG_FS | IA32_SEG_GS => true | _ => false end.

Lemma seg_ok gdtr ldtr tss name s V l fl m : is_data_reg name = true -> St s V l fl m -> ready V ->
  ends (data_good (gva_view l fl V m) m gdtr tss (data_selector tss name) = true) (set_guest_seg t gdtr ldtr tss name s)
    (fun s' => exists seg, St s' (put_seg V name seg) l fl m /\ seg_fits seg /\
      data_loaded (gva_view l fl V m) m gdtr ldtr (data_selector tss name) seg).
Proof.
  intros Hn HS Hr. unfold set_guest_seg.
  assert (X : exists x, (match name with IA32_SEG_ES => Some (tss_es tss) | IA32_SEG_DS => Some (tss_ds tss) | IA32_SEG_FS => Some (tss_fs tss)
    | IA32_SEG_GS => Some (tss_gs tss) | _ => None end) = Some x /\ data_selector tss name = u16 x) by (destruct name; try discriminate Hn; by eexists).
  destruct X as (x & -> & ->). cbv zeta. cbn [sg_selector parse_desc]. set (sel := u16 x). assert (Hsel : fits 64 sel) by apply sel_fits. unfold data_loaded.
  set (C := data_good (gva_view l fl V m) m gdtr tss sel = true). set (cpl := SelectorRpl (tss_cs tss)).
  set (dtr := if SelectorGdt sel then gdtr else ldtr).
  assert (G : C -> (SelectorIdx sel =? 0) = false -> exists bs, lin_copy (gva_view l fl V m) m (desc_gva dtr sel) 8 = Some bs /\
    let a := sg_ar (arch_seg sel (le bs)) in ar_p a = true /\
    negb (ar_s a) || IsCode (ar_type a) && negb (IsCodeR (ar_type a)) = false /\
    IsCode (ar_type a) && negb (IsCodeConform (ar_type a)) && ((ar_dpl a <? cpl) || (ar_dpl a <? SelectorRpl sel)) = false).
  { unfold C, data_good. intros HG Ei. rewrite Ei in HG. cbn [orb] in HG. destruct (gdt_desc _ m gdtr sel) as [d|] eqn:Ed; [|done].
    destruct (gdt_desc_some _ _ _ ldtr _ _ Ed) as (bs & E & -> & _). fold cpl in HG. rewrite !andb_true_iff, !Z.leb_le in HG.
    destruct HG as ((((G1 & G2) & G3) & G4) & G5). exists bs. split; [done|]. cbv zeta. rewrite G1, G2. split; [done|].
    rewrite (proj2 (Z.ltb_ge _ _) G4), (proj2 (Z.ltb_ge _ _) G5), andb_false_r. split; [|done]. cbn [negb orb].
    destruct (IsCode _); [|done]. cbn [negb orb] in G3. by rewrite G3. }
  destruct (SelectorIdx sel =? 0).
  { destruct (set_segment_ok s V l fl m name (mk_seg_reg 0 0 0 (with_bit 16 true 0)) HS ltac:(by split_and!)) as (s1 & -> & S1). rewrite bind_Ok.
    apply ends_ok. exists (mk_seg_reg 0 0 0 (with_bit 16 true 0)). by split_and!. }
  destruct (get_gva_ok s V l fl m (desc_gva dtr sel) 8 HS ltac:(apply desc_gva_fits) ltac:(done)) as (s1 & -> & S1). rewrite bind_Ok. cbv iota beta.
  destruct (lin_copy _ m _ 8) as [bs|] eqn:Eb; [|apply (ends_refuse3 _ _ _ s1 V l fl m); try done; intros HC; by destruct (G HC eq_refl) as (? & ? & _)].
  rewrite !parse_desc_arch. set (d := le bs). set (a := sg_ar (arch_seg sel d)).
  assert (G' : C -> ar_p a = true /\ negb (ar_s a) || IsCode (ar_type a) && negb (IsCodeR (ar_type a)) = false /\
    IsCode (ar_type a) && negb (IsCodeConform (ar_type a)) && ((ar_dpl a <? cpl) || (ar_dpl a <? SelectorRpl sel)) = false).
  { intros HC. destruct (G HC eq_refl) as (bs' & [= <-] & G1). done. }
  match goal with |- ends _ (if ?c then _ else _) _ => destruct c eqn:Ec end; [apply (ends_refuse3 _ _ _ s1 V l fl m); try done; by intros (_ & ? & _)%G'|].
  rewrite orb_false_iff, negb_false_iff in Ec. destruct Ec as (E1 & _).
  destruct (ar_p a) eqn:Ep; cbn [negb]; [|apply (ends_refuse3 _ _ _ s1 V l fl m); try done; by intros (? & _)%G'].
  match goal with |- ends _ (if ?c then _ else _) _ => destruct c eqn:E3 end; [apply (ends_refuse3 _ _ _ s1 V l fl m); try done; by intros (_ & _ & ?)%G'|].
  rewrite scale_arch. assert (Hf : seg_fits (seg_of_desc sel d)) by (apply seg_of_desc_fits; by apply wrap_fits).
  destruct (set_segment_ok s1 V l fl m name (seg_of_desc sel d) S1 Hf) as (s2 & -> & S2). rewrite bind_Ok.
  apply ends_ok. exists (seg_of_desc sel d). split; [done|]. split; [done|]. exists d. split; [unfold descriptor, table_of; fold dtr; by rewrite Eb|done].
Qed.

Lemma ldtr_ok gdtr tss s V l fl m : St s V l fl m -> ready V ->
  exists (ok : bool) ldtr s', set_guest_ldtr t gdtr tss s = Ok (ok, ldtr, s') /\
    if ok then (if SelectorIdx (u16 (tss_ldtr tss)) =? 0 then St s' V l fl m
                else exists d, gdt_desc (gva_view l fl V m) m gdtr (u16 (tss_ldtr tss)) = Some d /\ ldtr = arch_seg (u16 (tss_ldtr tss)) d /\
                  seg_fits ldtr /\ St s' (put_seg V IA32_SEG_LDTR ldtr) l fl m)
    else faulted s' /\ ldt_good (gva_view l fl V m) m gdtr tss = false.
Proof.
  intros HS Hr. unfold set_guest_ldtr. cbv zeta. cbn [sg_selector parse_desc]. set (sel := u16 (tss_ldtr tss)). assert (Hsel : fits 64 sel) by apply sel_fits.
  assert (F : forall s1 P (b : bool), St s1 V l fl m -> b = false -> exists (ok : bool) ldtr s',
    (r ← refuse_ring3 t (gcpu_inject_ts t sel) s1; Ok (r.1, mk_seg_reg sel 0 0 0, r.2)) = Ok (ok, ldtr, s') /\ if ok then P ldtr s' else faulted s' /\ b = false).
  { intros s1 P b S1 Eb. destruct (ends_refuse3 False IA32_EXCEPTION_VECTOR_INVALID_TASK_SEGMENT_SELECTOR sel s1 V l fl m (fun _ => False) S1 Hr eq_refl Hsel (fun x => x)) as (ok & s' & E & K).
    unfold gcpu_inject_ts. rewrite E, bind_Ok. exists ok, (mk_seg_reg sel 0 0 0), s'. split; [done|]. destruct ok; [done|]. by destruct K. }
  unfold ldt_good, gdt_desc. cbv zeta. fold sel.
  destruct (SelectorIdx sel =? 0); [by eexists true, _, s|]. destruct (SelectorGdt sel); cbn [negb orb]; [|by apply F].
  destruct (get_gva_ok s V l fl m (desc_gva gdtr sel) 8 HS ltac:(apply desc_gva_fits) ltac:(done)) as (s1 & -> & S1). rewrite bind_Ok. cbv iota beta.
  destruct (lin_copy _ m _ 8) as [bs|]; cbn [fmap option_fmap option_map]; [|by apply F]. rewrite !parse_desc_arch. set (a := sg_ar (arch_seg sel (le bs))).
  destruct (ar_s a || negb (IsLdt (ar_type a)) || negb (ar_p a)) eqn:Ec.
  { apply F; [done|]. unfold IsLdt in Ec. by destruct (ar_s a), (ar_type a =? 2), (ar_p a). }
  assert (Hf : seg_fits (arch_seg sel (le bs))) by (apply arch_seg_fits; by apply wrap_fits).
  destruct (set_segment_ok s1 V l fl m IA32_SEG_LDTR _ S1 Hf) as (s2 & -> & S2). rewrite bind_Ok.
  eexists true, _, s2. split; [done|]. by exists (le bs).
Qed.

(** Registers by name, after the segments were loaded: nothing else of the VMCS differs. *)
Definition six_segments : list VMM_IA32_SEGMENT_REGISTERS := [IA32_SEG_ES; IA32_SEG_CS; IA32_SEG_SS; IA32_SEG_DS; IA32_SEG_FS; IA32_SEG_GS].
Definition only (regs : list VMM_IA32_SEGMENT_REGISTERS) (V V' : Z -> Z) : Prop :=
  forall f, among (concat (seg_fields <$> regs)) f = false -> V' f = V f.
#[local] Ltac in_list := rewrite !elem_of_cons; repeat first [left; reflexivity | right].
Lemma only_refl regs V : only regs V V.
Proof. done. Qed.
Lemma only_put regs V V' reg seg : reg ∈ regs -> only regs V V' -> only regs V (put_seg V' reg seg).
Proof.
  intros Hr HV f Hf. rewrite put_seg_other; [by apply HV|]. apply not_true_is_false. intros Hx. apply not_true_iff_false in Hf. apply Hf.
  unfold among in *. apply existsb_exists in Hx as (x & Hx & E). apply existsb_exists. exists x. split; [|done].
  apply in_concat. exists (seg_fields reg). split; [|done]. apply in_map_iff. exists reg. split; [done|]. by apply list_elem_of_In.
Qed.
Lemma only_ready regs V V' : only regs V V' -> ready V -> among (concat (seg_fields <$> regs)) VMCS_EXIT_INFO_IDT_VECTORING = false ->
  among (concat (seg_fields <$> regs)) VMCS_GUEST_INTERRUPTIBILITY = false -> ready V'.
Proof. intros Ho Hr H1' H2'. unfold ready. by rewrite !Ho. Qed.

(** The selectors of the new task, as segments of virtual-8086 mode or as checked descriptors. *)
Definition v86_selector (tss : tss32_t) (reg : VMM_IA32_SEGMENT_REGISTERS) : Z :=
  match reg with
  | IA32_SEG_CS => tss_cs tss | IA32_SEG_SS => tss_ss tss | IA32_SEG_ES => tss_es tss | IA32_SEG_DS => tss_ds tss
  | IA32_SEG_FS => tss_fs tss | _ => tss_gs tss
  end.
(** SS comes from memory [m], the others from [m1], where SS may have got its accessed bit. *)
Definition new_segments (gdtr ldtr : seg_reg_t) (T : Z -> option Z) (m : mem) (T1 : Z -> option Z) (m1 : mem) (tss : tss32_t) (V : Z -> Z) : Prop :=
    (exists d, descriptor T1 m1 gdtr ldtr (u16 (tss_cs tss)) = Some d /\ seg_in V IA32_SEG_CS = seg_accessed (u16 (tss_cs tss)) d /\
      code_accepted (SelectorRpl (tss_cs tss)) (seg_in V IA32_SEG_CS) /\ eip tss <= arch_limit d) /\
    (exists d, descriptor T m gdtr ldtr (u16 (tss_ss tss)) = Some d /\ seg_in V IA32_SEG_SS = seg_accessed (u16 (tss_ss tss)) d /\
      stack_accepted (seg_in V IA32_SEG_SS) /\ ar_dpl (sg_ar (seg_in V IA32_SEG_SS)) = SelectorRpl (tss_cs tss)) /\
    forall reg, is_data_reg reg = true -> data_loaded T1 m1 gdtr ldtr (data_selector tss reg) (seg_in V reg).

Lemma v86_fits sel : seg_fits (v86_segment sel).
Proof.
  assert (F : fits 16 (u16 sel)) by by apply wrap_fits. split_and!; try done. cbn [v86_segment sg_base]. by apply (fits_shift _ 16).
Qed.

Lemma load_v86_ok tss s V l fl m : St s V l fl m ->
  exists s' V', load_v86_segments t tss s = Ok s' /\ St s' V' l fl m /\ only six_segments V V' /\
    forall reg, reg ∈ six_segments -> seg_in V' reg = v86_segment (v86_selector tss reg).
Proof.
  intros HS. unfold load_v86_segments.
  destruct (set_segment_ok s V l fl m IA32_SEG_ES _ HS (v86_fits (tss_es tss))) as (s1 & -> & S1). rewrite bind_Ok.
  destruct (set_segment_ok s1 _ l fl m IA32_SEG_CS _ S1 (v86_fits (tss_cs tss))) as (s2 & -> & S2). rewrite bind_Ok.
  destruct (set_segment_ok s2 _ l fl m IA32_SEG_SS _ S2 (v86_fits (tss_ss tss))) as (s3 & -> & S3). rewrite bind_Ok.
  destruct (set_segment_ok s3 _ l fl m IA32_SEG_DS _ S3 (v86_fits (tss_ds tss))) as (s4 & -> & S4). rewrite bind_Ok.
  destruct (set_segment_ok s4 _ l fl m IA32_SEG_FS _ S4 (v86_fits (tss_fs tss))) as (s5 & -> & S5). rewrite bind_Ok.
  destruct (set_segment_ok s5 _ l fl m IA32_SEG_GS _ S5 (v86_fits (tss_gs tss))) as (s6 & -> & S6).
  eexists s6, _. split; [done|]. split; [exact S6|]. split.
  - unfold six_segments. repeat (apply only_put; [in_list|]). apply only_refl.
  - unfold six_segments. intros reg Hr. rewrite !elem_of_cons, elem_of_nil in Hr.
    repeat (destruct Hr as [->|Hr]); [..|done]; rewrite ?put_seg_in by done; rewrite seg_in_put by apply v86_fits; done.
Qed.

(** The translation does not look at the segment registers. *)
Lemma among_cases fs f : among fs f = true -> f ∈ fs.
Proof. intros Hf. apply existsb_exists in Hf as (x & Hx & E). apply Z.eqb_eq in E as ->. by apply list_elem_of_In. Qed.
Lemma seg_not_paging f : among paging_fields f = true -> forall reg, among (seg_fields reg) f = false.
Proof.
  intros Hf%among_cases reg. unfold paging_fields in Hf. rewrite !elem_of_cons, elem_of_nil in Hf.
  repeat (destruct Hf as [->|Hf]); [..|done]; by destruct reg.
Qed.
Lemma put_seg_paging V reg seg f : among paging_fields f = true -> put_seg V reg seg f = V f.
Proof. intros Hf. by apply put_seg_other, seg_not_paging. Qed.
Lemma view_of l fl V V' m a : (forall f, among paging_fields f = true -> V' f = V f) -> gva_view l fl V' m a = gva_view l fl V m a.
Proof. intros HV. by apply gva_ext. Qed.

Definition data_regs : list VMM_IA32_SEGMENT_REGISTERS := [IA32_SEG_ES; IA32_SEG_DS; IA32_SEG_FS; IA32_SEG_GS].
Definition segments_good (T : Z -> option Z) (m : mem) (gdtr : seg_reg_t) (tss : tss32_t) : bool :=
  Z.testbit (eflags tss) FLAG_V86_MODE ||
  (stack_good T m gdtr tss && forallb (fun reg => data_good T m gdtr tss (data_selector tss reg)) data_regs && code_good T m gdtr tss).
Lemma gdt_desc_ext T T' m gdtr sel : (forall a, T a = T' a) -> gdt_desc T m gdtr sel = gdt_desc T' m gdtr sel.
Proof. intros E. unfold gdt_desc. by rewrite (lin_copy_ext T T'). Qed.
Lemma data_good_ext T T' m gdtr tss sel : (forall a, T a = T' a) -> data_good T m gdtr tss sel = data_good T' m gdtr tss sel.
Proof. intros E. unfold data_good. by rewrite (gdt_desc_ext T T'). Qed.
Lemma code_good_ext T T' m gdtr tss : (forall a, T a = T' a) -> code_good T m gdtr tss = code_good T' m gdtr tss.
Proof. intros E. unfold code_good. by rewrite (gdt_desc_ext T T'). Qed.
Lemma segments_good_ext T T' m gdtr tss : (forall a, T a = T' a) -> segments_good T m gdtr tss = segments_good T' m gdtr tss.
Proof.
  intros E. unfold segments_good, stack_good. cbn [forallb data_regs]. by rewrite (code_good_ext T T'), (gdt_desc_ext T T'), !(data_good_ext T T').
Qed.

Lemma new_segments_ext gdtr ldtr T T' m T1 T1' m1 tss V : (forall a, T a = T' a) -> (forall a, T1 a = T1' a) ->
  new_segments gdtr ldtr T m T1 m1 tss V -> new_segments gdtr ldtr T' m T1' m1 tss V.
Proof.
  intros E E1. unfold new_segments, data_loaded, descriptor. intros (A & B & C). split; [|split].
  - by rewrite <- (lin_copy_ext T1 T1').
  - by rewrite <- (lin_copy_ext T T').
  - intros reg Hr. rewrite <- (lin_copy_ext T1 T1') by done. by apply C.
Qed.

(** The segments of the task [tss] are loaded into [V'], and memory [m] becomes [m']: in virtual-8086 mode nothing is
    written; otherwise the descriptors of SS and then of CS may get their accessed bit. *)
Definition loads_segments (gdtr ldtr : seg_reg_t) (tss : tss32_t) (l : list Z) (fl : Z) (V : Z -> Z) (m : mem) (V' : Z -> Z) (m' : mem) : Prop :=
  if Z.testbit (eflags tss) FLAG_V86_MODE
  then (forall reg, reg ∈ six_segments -> seg_in V' reg = v86_segment (v86_selector tss reg)) /\ m' = m
  else exists m1, new_segments gdtr ldtr (gva_view l fl V m) m (gva_view l fl V m1) m1 tss V' /\
    marks_accessed l fl V (desc_gva (table_of gdtr ldtr (u16 (tss_ss tss))) (u16 (tss_ss tss))) m m1 /\
    marks_accessed l fl V (desc_gva (table_of gdtr ldtr (u16 (tss_cs tss))) (u16 (tss_cs tss))) m1 m'.

Lemma load_segments_ok gdtr ldtr tss s V l fl m : St s V l fl m -> ready V ->
  ends (segments_good (gva_view l fl V m) m gdtr tss = true) (load_segments t gdtr ldtr tss s)
    (fun s' => exists V' m', St s' V' l fl m' /\ only six_segments V V' /\ loads_segments gdtr ldtr tss l fl V m V' m').
Proof.
  intros HS Hr. unfold load_segments, loads_segments, segments_good. destruct (Z.testbit (eflags tss) FLAG_V86_MODE).
  { destruct (load_v86_ok tss s V l fl m HS) as (s' & V' & -> & S' & K1 & K2). rewrite bind_Ok. apply ends_ok. by exists V', m. }
  cbn [orb]. set (C := _ = true).
  assert (G : C -> stack_good (gva_view l fl V m) m gdtr tss = true /\
    (forall reg, is_data_reg reg = true -> data_good (gva_view l fl V m) m gdtr tss (data_selector tss reg) = true) /\ code_good (gva_view l fl V m) m gdtr tss = true).
  { unfold C. rewrite !andb_true_iff, forallb_forall. intros ((G1 & G2) & G3). split; [done|]. split; [|done]. intros reg Hreg. apply G2.
    destruct reg; try discriminate Hreg; cbn; tauto. }
  assert (GD : forall V1 m1 reg, (forall f, among paging_fields f = true -> V1 f = V f) -> (C -> m1 = m) -> is_data_reg reg = true -> C ->
    data_good (gva_view l fl V1 m1) m1 gdtr tss (data_selector tss reg) = true).
  { intros V1 m1 reg HV Hm Hreg HC. rewrite (Hm HC), (data_good_ext _ (gva_view l fl V m)) by (intros a; by apply view_of). by apply (proj2 (G HC)). }
  eapply ends_checked; [eapply ends_if; [|by apply (ss_ok gdtr ldtr tss s V l fl m)]; by intros [? _]%G|].
  intros s1 (dss & m1 & Dss & S1 & Fss & Q2 & Q3 & M1 & E1'). set (ss := seg_accessed (u16 (tss_ss tss)) dss) in *. assert (E1 : C -> m1 = m) by (by intros [? _]%G; apply E1').
  assert (Pg : forall V1 reg seg, (forall f, among paging_fields f = true -> V1 f = V f) -> forall f, among paging_fields f = true -> put_seg V1 reg seg f = V f).
  { intros V1 reg seg HV f Hf. rewrite put_seg_paging by done. by apply HV. }
  assert (P1 := Pg V IA32_SEG_SS ss ltac:(done)).
  eapply ends_checked; [eapply ends_if; [|eapply (seg_ok _ _ _ IA32_SEG_ES); [done|exact S1|by apply put_seg_ready]]; by apply GD|].
  intros s2 (es & S2 & Fes & Des). assert (P2 := Pg _ IA32_SEG_ES es P1).
  eapply ends_checked; [eapply ends_if; [|eapply (seg_ok _ _ _ IA32_SEG_DS); [done|exact S2|by do 2 apply put_seg_ready]]; by apply GD|].
  intros s3 (ds & S3 & Fds & Dds). assert (P3 := Pg _ IA32_SEG_DS ds P2).
  eapply ends_checked; [eapply ends_if; [|eapply (seg_ok _ _ _ IA32_SEG_FS); [done|exact S3|by do 3 apply put_seg_ready]]; by apply GD|].
  intros s4 (fs & S4 & Ffs & Dfs). assert (P4 := Pg _ IA32_SEG_FS fs P3).
  eapply ends_checked; [eapply ends_if; [|eapply (seg_ok _ _ _ IA32_SEG_GS); [done|exact S4|by do 4 apply put_seg_ready]]; by apply GD|].
  intros s5 (gs & S5 & Fgs & Dgs). assert (P5 := Pg _ IA32_SEG_GS gs P4).
  eapply ends_weaken; [eapply ends_if; [|eapply cs_ok; [exact S5|by do 5 apply put_seg_ready]]|].
  { intros HC. rewrite (E1 HC), (code_good_ext _ (gva_view l fl V m)) by (intros a; by apply view_of). by apply (G HC). }
  intros s6 (dcs & m6 & Dcs & S6 & Fcs & C2 & C3 & M2). set (cs := seg_accessed (u16 (tss_cs tss)) dcs) in *.
  eexists _, m6. split; [exact S6|]. split; [unfold six_segments; repeat (apply only_put; [in_list|]); apply only_refl|].
  exists m1. split; [|split; [done|]; apply (marks_ext _ _ _ V _ _ _ ltac:(intros f Hf; symmetry; by apply P5) M2)].
  assert (Ecs : forall V0, seg_in (put_seg V0 IA32_SEG_CS cs) IA32_SEG_CS = cs) by (intros; by apply seg_in_put).
  unfold new_segments. rewrite Ecs. rewrite !put_seg_in by done. rewrite seg_in_put by done.
  assert (DV : forall V1 sel seg, (forall f, among paging_fields f = true -> V1 f = V f) ->
    data_loaded (gva_view l fl V1 m1) m1 gdtr ldtr sel seg -> data_loaded (gva_view l fl V m1) m1 gdtr ldtr sel seg).
  { intros V1 sel seg HV. unfold data_loaded, descriptor. by rewrite (lin_copy_ext (gva_view l fl V1 m1) (gva_view l fl V m1)) by (intros a; by apply view_of). }
  split; [|split].
  - exists dcs. split; [|done]. rewrite <- Dcs. unfold descriptor. f_equal. apply lin_copy_ext. intros a. symmetry. by apply view_of.
  - by exists dss.
  - intros reg Hd. destruct reg; try discriminate Hd; rewrite ?put_seg_in by done; rewrite seg_in_put by done; (eapply DV; [|eassumption]); done.
Qed.

(** ** The other registers *)

Definition tss_fits (tss : tss32_t) : Prop :=
  Forall (fits 64) [tss_cr3 tss; eip tss; eflags tss; eax tss; ecx tss; edx tss; ebx tss; esp tss; ebp tss; esi tss; edi tss].
Definition gp_loaded (tss : tss32_t) (V : Z -> Z) (l : list Z) : Prop :=
  V VMCS_GUEST_RIP = eip tss /\ V VMCS_GUEST_RFLAGS = eflags tss /\ V VMCS_GUEST_RSP = esp tss /\
  slot l IA32_REG_RAX = eax tss /\ slot l IA32_REG_RCX = ecx tss /\ slot l IA32_REG_RDX = edx tss /\ slot l IA32_REG_RBX = ebx tss /\
  slot l IA32_REG_RBP = ebp tss /\ slot l IA32_REG_RSI = esi tss /\ slot l IA32_REG_RDI = edi tss.
(** The fields of the VMCS and the saved registers that loading the registers does not touch. *)
Definition loaded_fields : list Z :=
  [VMCS_GUEST_RIP; VMCS_GUEST_RFLAGS; VMCS_GUEST_RSP; VMCS_CR0_READ_SHADOW; VMCS_GUEST_CR0].
Definition kept_slots (l l' : list Z) : Prop := forall i, 8 <= i < 18 -> slot l' i = slot l i.

Lemma load_registers_ok tss cr0 s V l fl m : St s V l fl m -> tss_fits tss -> fits 32 cr0 ->
  exists s' V' l' fl', load_registers t fx tss cr0 s = Ok s' /\ St s' V' l' fl' m /\ flagged fl fl' /\ gp_loaded tss V' l' /\ kept_slots l l' /\
    (forall f, among loaded_fields f = false -> V' f = V f) /\ V' VMCS_CR0_READ_SHADOW = with_bit CR0_BIT_TS true cr0 /\
    V' VMCS_GUEST_CR0 = vmcs_hw_make_compliant_cr0 fx (with_bit CR0_BIT_TS true cr0).
Proof.
  intros HS Ht Hc. unfold tss_fits in Ht. rewrite !Forall_cons in Ht. destruct Ht as (_ & F1 & F2 & F3 & F4 & F5 & F6 & F7 & F8 & F9 & F10 & _).
  assert (Hc0 : fits 64 (with_bit CR0_BIT_TS true cr0)) by (apply fits_lor; [done|by apply (fits_weak 32)|done]).
  unfold load_registers.
  destruct (set_gp_ok s V l fl m IA32_REG_RIP (eip tss) HS ltac:(done) F1) as (s1 & -> & S1). rewrite bind_Ok.
  destruct (set_gp_ok s1 _ _ fl m IA32_REG_RFLAGS (eflags tss) S1 ltac:(done) F2) as (s2 & -> & S2). rewrite bind_Ok.
  destruct (set_gp_ok s2 _ _ fl m IA32_REG_RAX (eax tss) S2 ltac:(done) F3) as (s3 & -> & S3). rewrite bind_Ok.
  destruct (set_gp_ok s3 _ _ fl m IA32_REG_RCX (ecx tss) S3 ltac:(done) F4) as (s4 & -> & S4). rewrite bind_Ok.
  destruct (set_gp_ok s4 _ _ fl m IA32_REG_RDX (edx tss) S4 ltac:(done) F5) as (s5 & -> & S5). rewrite bind_Ok.
  destruct (set_gp_ok s5 _ _ fl m IA32_REG_RBX (ebx tss) S5 ltac:(done) F6) as (s6 & -> & S6). rewrite bind_Ok.
  destruct (set_gp_ok s6 _ _ fl m IA32_REG_RBP (ebp tss) S6 ltac:(done) F8) as (s7 & -> & S7). rewrite bind_Ok.
  destruct (set_gp_ok s7 _ _ fl m IA32_REG_RSP (esp tss) S7 ltac:(done) F7) as (s8 & -> & S8). rewrite bind_Ok.
  destruct (set_gp_ok s8 _ _ fl m IA32_REG_RSI (esi tss) S8 ltac:(done) F9) as (s9 & -> & S9). rewrite bind_Ok.
  destruct (set_gp_ok s9 _ _ fl m IA32_REG_RDI (edi tss) S9 ltac:(done) F10) as (s10 & -> & S10). rewrite bind_Ok. cbv zeta.
  destruct (show_ok s10 _ _ fl m IA32_CTRL_CR0 _ S10 Hc0) as (s11 & fl' & -> & S11 & Hfl). rewrite bind_Ok.
  destruct (control_ok s11 _ _ fl' m IA32_CTRL_CR0 _ S11 Hc0 ltac:(by left)) as (s12 & -> & S12).
  eexists s12, _, _, fl'. split; [done|]. split; [exact S12|]. split; [done|]. clear S1 S2 S3 S4 S5 S6 S7 S8 S9 S10 S11 S12.
  assert (Hl : length l = 18%nat) by (destruct HS as (_ & _ & _ & _ & A); exact A).
  cbn [seen_gp seen_fields real_write]. unfold put_gp_V, put_gp_l, in_vmcs. cbn [Z.eqb Pos.eqb IA32_REG_RSP IA32_REG_RIP IA32_REG_RFLAGS
    IA32_REG_RAX IA32_REG_RBX IA32_REG_RCX IA32_REG_RDX IA32_REG_RDI IA32_REG_RSI IA32_REG_RBP].
  unfold gp_loaded, kept_slots. split; [|split; [|split; [|split]]].
  - split_and!; fread; try done;
      repeat first [rewrite slot_insert by (rewrite ?length_insert, Hl; by vm_compute) | rewrite slot_other by done]; done.
  - intros i Hi. by rewrite !slot_other by (unfold IA32_REG_RAX, IA32_REG_RBX, IA32_REG_RCX, IA32_REG_RDX, IA32_REG_RDI, IA32_REG_RSI, IA32_REG_RBP; lia).
  - unfold among, loaded_fields. cbn [existsb]. intros f Hf. rewrite !orb_false_iff in Hf. destruct Hf as (G1 & G2 & G3 & G4 & G5 & _). by rewrite !fupd_neb.
  - by fread.
  - by fread.
Qed.

(** ** The new task *)

(** The state [V'], [l'] of a guest CPU that was in [V], [l] and has switched to the task [tss] (its eflags
    already changed) with the task register [new_tr]; memory is [m] and [T] translates the guest's addresses. *)
Record switched (cr0 : Z) (gdtr old_ldtr new_tr : seg_reg_t) (T : Z -> option Z) (m : mem) (tss : tss32_t) (V V' : Z -> Z) (l l' : list Z) : Prop := {
  sw_tr : seg_in V' IA32_SEG_TR = new_tr;
  sw_gp : gp_loaded tss V' l';
  sw_kept : forall i, 8 <= i < 17 -> slot l' i = slot l i;
  sw_cr3 : if Z.testbit cr0 CR0_BIT_PG then V' VMCS_GUEST_CR3 = tss_cr3 tss /\ slot l' CR3_SAVE_AREA = tss_cr3 tss
           else V' VMCS_GUEST_CR3 = V VMCS_GUEST_CR3 /\ slot l' CR3_SAVE_AREA = slot l CR3_SAVE_AREA;
  sw_cr0 : V' VMCS_CR0_READ_SHADOW = with_bit CR0_BIT_TS true cr0 /\
           V' VMCS_GUEST_CR0 = vmcs_hw_make_compliant_cr0 fx (with_bit CR0_BIT_TS true cr0);
  sw_ldtr : if (tss_ldtr tss =? sg_selector old_ldtr) || (SelectorIdx (u16 (tss_ldtr tss)) =? 0)
            then seg_in V' IA32_SEG_LDTR = seg_in V IA32_SEG_LDTR
            else exists d, gdt_desc T m gdtr (u16 (tss_ldtr tss)) = Some d /\ seg_in V' IA32_SEG_LDTR = arch_seg (u16 (tss_ldtr tss)) d;
  sw_dr7 : V' VMCS_GUEST_DR7 = Z.ldiff (u32 (V VMCS_GUEST_DR7)) DR7_LOCAL;
  sw_no_trap : Z.testbit (io_base_addr tss) 0 = false;
  sw_no_event : V' VMCS_ENTER_INTERRUPT_INFO = V VMCS_ENTER_INTERRUPT_INFO
}.

Lemma seg_in_ext V V' reg : (forall f, among (seg_fields reg) f = true -> V' f = V f) -> seg_in V' reg = seg_in V reg.
Proof. intros E. unfold seg_in. by rewrite !E by by destruct reg. Qed.
Lemma only_in regs V V' reg : only regs V V' -> forallb (fun f => negb (among (concat (seg_fields <$> regs)) f)) (seg_fields reg) = true -> seg_in V' reg = seg_in V reg.
Proof.
  intros Ho Hd. apply seg_in_ext. intros f Hf. apply Ho. rewrite forallb_forall in Hd. apply negb_true_iff, Hd.
  apply existsb_exists in Hf as (x & Hx & E). apply Z.eqb_eq in E. by subst x.
Qed.

Lemma finish_ok tss s V l fl m : St s V l fl m -> ready V ->
  ends (Z.testbit (io_base_addr tss) 0 = false) (finish_switch t hw_read_dr tss s) (fun s' => St s' (fupd V VMCS_GUEST_DR7 (Z.ldiff (u32 (V VMCS_GUEST_DR7)) DR7_LOCAL)) l fl m /\
    Z.testbit (io_base_addr tss) 0 = false).
Proof.
  intros HS Hr. unfold finish_switch. pose proof HS as (A1 & A2 & A3 & A4 & A5).
  destruct (ask_ok (fun g => gcpu_get_debug_reg_layered t hw_read_dr g IA32_REG_DR7 VMCS_MERGED) (V VMCS_GUEST_DR7) s V l fl m HS) as (s1 & -> & S1).
  { by apply read_vmcs_ok; [| |eauto with vmcs]. }
  rewrite bind_Ok. cbv iota beta. pose proof S1 as (B1 & B2 & B3 & B4 & B5). set (v := Z.ldiff _ _).
  assert (Hv : fits 64 v) by (apply (fits_weak 32); [lia|]; apply fits_ldiff; [done|apply u32_range|done]).
  destruct (tell_ok (fun g => gcpu_set_debug_reg_layered t hw_read_dr g IA32_REG_DR7 v VMCS_MERGED) s1 V l fl m (fupd V VMCS_GUEST_DR7 v) l fl S1 A5) as (s2 & -> & S2).
  { destruct (write_vmcs_ok t (ts_cpu s1).1 V VMCS_MERGED VMCS_GUEST_DR7 v ltac:(done) B1 ltac:(eauto with vmcs) Hv) as (g' & E & K & F).
    exists g'. split; [exact E|]. split; [done|]. by rewrite F. }
  rewrite bind_Ok. destruct (Z.testbit (io_base_addr tss) 0); [|by apply ends_ok].
  by apply (ends_refuse _ _ _ s2 (fupd V VMCS_GUEST_DR7 v) l fl m).
Qed.

Lemma set_eflags_fits v tss : tss_fits tss -> fits 64 v -> tss_fits (set_eflags v tss).
Proof. intros Ht Hv. unfold tss_fits in *. rewrite !Forall_cons in *. cbn. tauto. Qed.
Lemma new_eflags_fits ty v : fits 64 v -> fits 64 (new_eflags ty v).
Proof. intros Hv. unfold new_eflags. apply fits_lor; [done| |done]. case_match; [by apply fits_lor|done]. Qed.

Lemma flagged_trans a b c : flagged a b -> flagged b c -> flagged a c.
Proof. unfold flagged. intros [-> | ->] [-> | ->]; rewrite ?bit_set_twice; auto. Qed.
Lemma load_cr3_ok cr0 v s V l fl m : St s V l fl m -> fits 64 v ->
  exists s' V' l' fl', (if Z.testbit cr0 CR0_BIT_PG then s ← set_visible t fx IA32_CTRL_CR3 v s; set_control t fx IA32_CTRL_CR3 v s else Ok s) = Ok s' /\
    St s' V' l' fl' m /\ flagged fl fl' /\ (forall f, f <> VMCS_GUEST_CR3 -> V' f = V f) /\ (forall i, 0 <= i < 17 -> slot l' i = slot l i) /\
    if Z.testbit cr0 CR0_BIT_PG then V' VMCS_GUEST_CR3 = v /\ slot l' CR3_SAVE_AREA = v
    else V' VMCS_GUEST_CR3 = V VMCS_GUEST_CR3 /\ slot l' CR3_SAVE_AREA = slot l CR3_SAVE_AREA.
Proof.
  intros HS Hv. destruct (Z.testbit cr0 CR0_BIT_PG); [|exists s, V, l, fl; split; [done|]; split; [done|]; split; [by left|done]].
  destruct (show_ok s V l fl m IA32_CTRL_CR3 v HS Hv) as (s1 & fl1 & -> & S1 & Hfl). rewrite bind_Ok.
  destruct (control_ok s1 _ _ fl1 m IA32_CTRL_CR3 v S1 Hv ltac:(by right)) as (s2 & -> & S2). cbn [seen_fields seen_gp real_write] in S2.
  eexists s2, _, _, fl1. split; [done|]. split; [exact S2|]. split; [done|]. destruct HS as (_ & _ & _ & _ & Hl). split; [|split; [|split]].
  - intros f Hf. by rewrite fupd_ne.
  - intros i Hi. by rewrite slot_other by (unfold CR3_SAVE_AREA, IA32_REG_RFLAGS; lia).
  - by fread.
  - apply slot_insert. rewrite Hl. by vm_compute.
Qed.

(** Between the registers and the segments. *)
Record prepared (cr0 : Z) (new_tr : seg_reg_t) (tss : tss32_t) (V V' : Z -> Z) (l l' : list Z) : Prop := {
  pr_tr : seg_in V' IA32_SEG_TR = new_tr;
  pr_gp : gp_loaded tss V' l';
  pr_kept : forall i, 8 <= i < 17 -> slot l' i = slot l i;
  pr_cr3 : if Z.testbit cr0 CR0_BIT_PG then V' VMCS_GUEST_CR3 = tss_cr3 tss /\ slot l' CR3_SAVE_AREA = tss_cr3 tss
           else V' VMCS_GUEST_CR3 = V VMCS_GUEST_CR3 /\ slot l' CR3_SAVE_AREA = slot l CR3_SAVE_AREA;
  pr_cr0 : V' VMCS_CR0_READ_SHADOW = with_bit CR0_BIT_TS true cr0 /\
           V' VMCS_GUEST_CR0 = vmcs_hw_make_compliant_cr0 fx (with_bit CR0_BIT_TS true cr0);
  pr_rest : forall f, among (VMCS_GUEST_CR3 :: loaded_fields ++ seg_fields IA32_SEG_TR) f = false -> V' f = V f
}.

Lemma prepare_ok new_tr ty cr0 tss s V l fl m : St s V l fl m -> seg_fits new_tr -> tss_fits tss -> fits 32 cr0 ->
  let tss' := set_eflags (new_eflags ty (eflags tss)) tss in
  exists s' V' l' fl', (s ← set_segment t IA32_SEG_TR new_tr s;
    s ← (if Z.testbit cr0 CR0_BIT_PG then s ← set_visible t fx IA32_CTRL_CR3 (tss_cr3 tss) s; set_control t fx IA32_CTRL_CR3 (tss_cr3 tss) s else Ok s);
    load_registers t fx tss' cr0 s) = Ok s' /\ St s' V' l' fl' m /\ flagged fl fl' /\ prepared cr0 new_tr tss' V V' l l'.
Proof.
  intros HS Hn Ht Hc tss'.
  destruct (set_segment_ok s V l fl m IA32_SEG_TR new_tr HS Hn) as (s1 & -> & S1). rewrite bind_Ok.
  assert (Ht3 : fits 64 (tss_cr3 tss) /\ fits 64 (eflags tss)) by (unfold tss_fits in Ht; rewrite !Forall_cons in Ht; tauto). destruct Ht3 as [Hc3 Hfl].
  destruct (load_cr3_ok cr0 (tss_cr3 tss) s1 _ l fl m S1 Hc3) as (s2 & V2 & l2 & fl2 & E2 & S2 & Z2 & K2 & L2 & Q2). rewrite E2, bind_Ok. clear E2.
  assert (Ht' : tss_fits tss') by (apply set_eflags_fits; [done|by apply new_eflags_fits]).
  destruct (load_registers_ok tss' cr0 s2 V2 l2 fl2 m S2 Ht' Hc) as (s3 & V3 & l3 & fl3 & E3 & S3 & Z3 & G3 & L3 & K3 & C3 & D3).
  exists s3, V3, l3, fl3. split; [done|]. split; [done|]. split; [by apply (flagged_trans fl fl2)|]. split; [|done| | |done|].
  - rewrite (seg_in_ext (put_seg V IA32_SEG_TR new_tr) V3); [by apply seg_in_put|].
    intros f Hf. apply existsb_exists in Hf as (x & Hx & E). apply Z.eqb_eq in E as ->. cbn in Hx.
    repeat (destruct Hx as [<-|Hx]); [..|done]; (rewrite K3 by reflexivity); by apply K2.
  - intros i Hi. rewrite L3, L2 by lia. done.
  - rewrite K3 by reflexivity. rewrite (L3 CR3_SAVE_AREA) by (vm_compute; done).
    destruct (Z.testbit cr0 CR0_BIT_PG); [done|]. destruct Q2 as [-> ->]. split; [by rewrite put_seg_other|done].
  - intros f Hf. cbn [among existsb] in Hf. unfold among in Hf. rewrite existsb_app, !orb_false_iff in Hf. destruct Hf as (F1 & F2 & F3).
    rewrite K3 by done. rewrite K2 by (by apply Z.eqb_neq). by rewrite put_seg_other.
Qed.

(** The LDTR register in [V'] after it was set or left alone. *)
Definition same_ldt (old_ldtr : seg_reg_t) (tss : tss32_t) : bool :=
  (tss_ldtr tss =? sg_selector old_ldtr) || (SelectorIdx (u16 (tss_ldtr tss)) =? 0).
Definition ldtr_set (gdtr old_ldtr : seg_reg_t) (T : Z -> option Z) (m : mem) (tss : tss32_t) (V V' : Z -> Z) : Prop :=
  if same_ldt old_ldtr tss then seg_in V' IA32_SEG_LDTR = seg_in V IA32_SEG_LDTR
  else exists d, gdt_desc T m gdtr (u16 (tss_ldtr tss)) = Some d /\ seg_in V' IA32_SEG_LDTR = arch_seg (u16 (tss_ldtr tss)) d.

(** The segments are those of the task; the local table is the one of the LDTR if the LDTR was loaded, and is not
    known otherwise. *)
Definition in_new_task (gdtr old_ldtr : seg_reg_t) (tss : tss32_t) (l : list Z) (fl : Z) (m : mem) (V : Z -> Z) (m' : mem) : Prop :=
  exists ldtr, (same_ldt old_ldtr tss = false -> ldtr = seg_in V IA32_SEG_LDTR) /\ loads_segments gdtr ldtr tss l fl V m V m'.

Lemma segments_ok gdtr old_ldtr ldtr new_tr cr0 tss s V V3 V4 l l3 fl m : St s V4 l3 fl m -> ready V -> prepared cr0 new_tr tss V V3 l l3 ->
  only [IA32_SEG_LDTR] V3 V4 -> ldtr_set gdtr old_ldtr (gva_view l3 fl V4 m) m tss V3 V4 -> (same_ldt old_ldtr tss = false -> ldtr = seg_in V4 IA32_SEG_LDTR) ->
  ends (segments_good (gva_view l3 fl V4 m) m gdtr tss && negb (Z.testbit (io_base_addr tss) 0) = true)
    (checked (load_segments t gdtr ldtr tss s) (finish_switch t hw_read_dr tss)) (fun s' => exists V' l' fl' m', St s' V' l' fl' m' /\
    switched cr0 gdtr old_ldtr new_tr (gva_view l' fl' V' m) m tss V V' l l' /\ in_new_task gdtr old_ldtr tss l' fl' m V' m').
Proof.
  intros S4 Hr [P1 P2 P3 P4 P5 P6] O4 Q4 L4.
  assert (R3 : ready V3) by (unfold ready; by rewrite !P6). assert (R4 : ready V4) by (apply (only_ready [IA32_SEG_LDTR] V3); done).
  eapply ends_checked; [eapply ends_if; [|by apply (load_segments_ok gdtr ldtr tss s V4 l3 fl m)]; by intros [? _]%andb_true_iff|]. intros s5 (V5 & m5 & S5 & O5 & Q5).
  eapply ends_weaken; [eapply ends_if; [|apply (finish_ok tss s5 V5 l3 fl m5 S5); apply (only_ready six_segments V4); done]; by intros [_ ?%negb_true_iff]%andb_true_iff|].
  intros s6 (S6 & Q6).
  eexists _, l3, fl, m5. split; [exact S6|].
  assert (PV : forall f v, among paging_fields f = true -> fupd V5 VMCS_GUEST_DR7 v f = V4 f).
  { intros f v Hf. rewrite fupd_ne by (by intros ->). apply O5. unfold six_segments; cbn [fmap list_fmap concat]; unfold among; rewrite !existsb_app;
        pose proof (seg_not_paging f Hf) as N; unfold among in N; by rewrite !N. }
  assert (Y : forall reg v, seg_in (fupd V5 VMCS_GUEST_DR7 v) reg = seg_in V5 reg).
  { intros reg v. apply seg_in_ext. intros f Hf. apply fupd_ne. intros ->. by destruct reg. }
  split.
  2:{ exists ldtr. split; [intros Hs; rewrite Y, (only_in six_segments V4 V5) by done; by apply L4|].
      unfold loads_segments in *. destruct (Z.testbit (eflags tss) FLAG_V86_MODE).
      { destruct Q5 as [Q5 ->]. split; [|done]. intros reg Hreg. rewrite Y. by apply Q5. }
      destruct Q5 as (m1 & Qn & Ma & Mb). exists m1.
      split; [|split; (eapply marks_ext; [|eassumption]); intros f Hf; by apply PV].
      eapply new_segments_ext; [intros a; symmetry; apply view_of; intros f Hf; by apply PV..|].
      unfold new_segments in *. destruct Qn as (A & B & C). rewrite !Y. split; [done|]. split; [done|]. intros reg Hreg. rewrite Y. by apply C. }
  assert (W : forall f, among (concat (seg_fields <$> six_segments)) f = false -> among (concat (seg_fields <$> [IA32_SEG_LDTR])) f = false -> V5 f = V3 f).
  { intros f Hf1 Hf2. by rewrite (O5 f Hf1), (O4 f Hf2). }
  split; fread; try done.
  - by rewrite Y, (only_in six_segments V4 V5), (only_in [IA32_SEG_LDTR] V3 V4).
  - unfold gp_loaded in *. fread. by rewrite !W by reflexivity.
  - by rewrite W by reflexivity.
  - by rewrite !W by reflexivity.
  - rewrite Y, (only_in six_segments V4 V5) by done. unfold ldtr_set, same_ldt in Q4. destruct (_ || _).
    2:{ destruct Q4 as (d & Ed & Es). exists d. split; [|done]. rewrite <- Ed. apply gdt_desc_ext. intros a. apply view_of. intros f Hf. by apply PV. }
    rewrite Q4. apply seg_in_ext. intros f Hf. apply P6. apply existsb_exists in Hf as (x & Hx & E). apply Z.eqb_eq in E as ->. cbn in Hx.
    by repeat (destruct Hx as [<-|Hx]).
  - by rewrite W, P6 by reflexivity.
  - by rewrite W, P6 by reflexivity.
Qed.

(** The new task can be entered. *)
Definition new_task_good (T : Z -> option Z) (m : mem) (gdtr old_ldtr : seg_reg_t) (tss : tss32_t) : bool :=
  ((tss_ldtr tss =? sg_selector old_ldtr) || ldt_good T m gdtr tss) && (segments_good T m gdtr tss && negb (Z.testbit (io_base_addr tss) 0)).

Lemma new_task_good_ext T T' m gdtr old_ldtr tss : (forall a, T a = T' a) -> new_task_good T m gdtr old_ldtr tss = new_task_good T' m gdtr old_ldtr tss.
Proof. intros E. unfold new_task_good, ldt_good. by rewrite (gdt_desc_ext T T'), (segments_good_ext T T'). Qed.

Lemma enter_ok garbage gdtr old_ldtr new_tr ty cr0 tss s V l fl m : St s V l fl m -> ready V -> seg_fits new_tr -> tss_fits tss -> fits 32 cr0 ->
  let tss' := set_eflags (new_eflags ty (eflags tss)) tss in
  ends (forall V' l' fl', prepared cr0 new_tr tss' V V' l l' -> flagged fl fl' -> new_task_good (gva_view l' fl' V' m) m gdtr old_ldtr tss' = true)
    (enter_new_task t fx hw_read_dr garbage gdtr old_ldtr new_tr ty cr0 tss s) (fun s' => exists V' l' fl' m', St s' V' l' fl' m' /\
    switched cr0 gdtr old_ldtr new_tr (gva_view l' fl' V' m) m tss' V V' l l' /\ in_new_task gdtr old_ldtr tss' l' fl' m V' m').
Proof.
  intros HS Hr Hn Ht Hc tss'. unfold enter_new_task. fold tss'.
  destruct (prepare_ok new_tr ty cr0 tss s V l fl m HS Hn Ht Hc) as (s3 & V3 & l3 & fl3 & E3 & S3 & Z3 & P3). fold tss' in E3, P3.
  apply bind_ok in E3 as (s1 & E1 & E3). rewrite E1, bind_Ok. apply bind_ok in E3 as (s2 & E2 & E3). rewrite E2, bind_Ok. cbv zeta. fold tss'. rewrite E3, bind_Ok.
  assert (R3 : ready V3) by (unfold ready; by rewrite !(pr_rest _ _ _ _ _ _ _ P3)).
  apply (ends_if _ (new_task_good (gva_view l3 fl3 V3 m) m gdtr old_ldtr tss' = true)); [intros HC; by apply HC|]. unfold new_task_good.
  destruct (tss_ldtr tss' =? sg_selector old_ldtr) eqn:El; cbn [negb].
  { rewrite bind_Ok. cbv iota beta. unfold checked at 1. rewrite bind_Ok. apply (segments_ok gdtr old_ldtr garbage new_tr cr0 tss' s3 V V3 V3 l l3 fl3 m); try done;
      unfold ldtr_set, same_ldt; by rewrite El. }
  destruct (ldtr_ok gdtr tss' s3 V3 l3 fl3 m S3 R3) as (ok & ldtr & s4 & -> & K4). rewrite bind_Ok. cbv iota beta. unfold checked at 1. rewrite bind_Ok. cbv iota beta.
  destruct ok; [|exists false, s4; split; [done|]; destruct K4 as [K4 K5]; split; [done|]; rewrite K5; done].
  destruct (SelectorIdx (u16 (tss_ldtr tss')) =? 0) eqn:Ei.
  - eapply ends_if; [|apply (segments_ok gdtr old_ldtr ldtr new_tr cr0 tss' s4 V V3 V3 l l3 fl3 m); try done].
    + by intros [_ ?]%andb_true_iff.
    + unfold ldtr_set, same_ldt. by rewrite Ei, orb_true_r.
    + unfold same_ldt. by rewrite Ei, orb_true_r.
  - destruct K4 as (d4 & D4 & N4 & F4 & S4). eapply ends_if; [|apply (segments_ok gdtr old_ldtr ldtr new_tr cr0 tss' s4 V V3 _ l l3 fl3 m S4); try done].
    + intros [_ HG]%andb_true_iff. rewrite <- HG. f_equal. apply segments_good_ext. intros a. apply view_of. intros f Hf. by apply put_seg_paging.
    + apply only_put; [set_solver|apply only_refl].
    + unfold ldtr_set, same_ldt. rewrite El, Ei, seg_in_put by done. exists d4. split; [|done]. rewrite <- D4. apply gdt_desc_ext. intros a. apply view_of.
      intros f Hf. by apply put_seg_paging.
    + intros _. by rewrite seg_in_put.
Qed.

(** ** The old task *)

(** The registers of the guest, as they are stored in its task segment. *)
Definition tss_now (V : Z -> Z) (l : list Z) : tss32_t :=
  mk_tss 0 0 0 0 0 0 0 0 (u32 (V VMCS_GUEST_RIP)) (u32 (V VMCS_GUEST_RFLAGS)) (u32 (slot l IA32_REG_RAX)) (u32 (slot l IA32_REG_RCX))
    (u32 (slot l IA32_REG_RDX)) (u32 (slot l IA32_REG_RBX)) (u32 (V VMCS_GUEST_RSP)) (u32 (slot l IA32_REG_RBP)) (u32 (slot l IA32_REG_RSI))
    (u32 (slot l IA32_REG_RDI)) (u32 (V VMCS_GUEST_ES_SELECTOR)) (u32 (V VMCS_GUEST_CS_SELECTOR)) (u32 (V VMCS_GUEST_SS_SELECTOR))
    (u32 (V VMCS_GUEST_DS_SELECTOR)) (u32 (V VMCS_GUEST_FS_SELECTOR)) (u32 (V VMCS_GUEST_GS_SELECTOR)) 0 0.

#[local] Ltac gp_step S := match goal with |- context [get_gp t ?r ?s] =>
  let s' := fresh "s" in let S' := fresh "S" in let E := fresh "E" in
  destruct (get_gp_ok s _ _ _ _ r S ltac:(done)) as (s' & E & S'); rewrite E, bind_Ok; clear E; cbv iota beta end.
#[local] Ltac field_step S := match goal with |- context [get_field t ?f ?s] =>
  let s' := fresh "s" in let S' := fresh "S" in let E := fresh "E" in
  destruct (get_field_ok s _ _ _ _ f S ltac:(eauto with vmcs)) as (s' & E & S'); rewrite E, bind_Ok; clear E; cbv iota beta end.
Lemma copy_vmcs_ok s V l fl m : St s V l fl m -> exists s', copy_vmcs_to_tss32 t s = Ok (tss_now V l, s') /\ St s' V l fl m.
Proof.
  intros HS. unfold copy_vmcs_to_tss32.
  gp_step HS. gp_step S. gp_step S0. gp_step S1. gp_step S2. gp_step S3. gp_step S4. gp_step S5. gp_step S6. gp_step S7.
  field_step S8. field_step S9. field_step S10. field_step S11. field_step S12. field_step S13. by eexists.
Qed.

(** The old task's state, after the instruction if the switch is one, and what is saved of it. *)
Definition after_instruction (ty : Z) (V : Z -> Z) : Z -> Z := if negb (ty =? TASK_SWITCH_TYPE_IDT) then skipped V else V.
Definition old_state (ty : Z) (V : Z -> Z) (l : list Z) : tss32_t :=
  let tss := tss_now (after_instruction ty V) l in
  if ty =? TASK_SWITCH_TYPE_IRET then set_eflags (with_bit FLAG_NESTED_TASK false (eflags tss)) tss else tss.
Lemma saved_state_length tss : length (saved_state tss) = 64%nat.
Proof. done. Qed.

(** The translation does not look at the fields that are written before CR3. *)
Lemma view_after ty l fl V m a : gva_view l fl (after_instruction ty V) m a = gva_view l fl V m a.
Proof.
  apply gva_ext; [|done|done]. intros f Hf. unfold after_instruction. case_match; [|done]. unfold skipped. apply fupd_ne. by intros ->.
Qed.
Lemma after_ready ty V : ready V -> ready (after_instruction ty V).
Proof. intros Hr. unfold after_instruction. case_match; [|done]. unfold ready, skipped. by fread. Qed.

Lemma save_ok (C : Prop) ty old_tr s V l fl m R : St s V l fl m -> ready V -> fits 64 (sg_selector old_tr) ->
  let T := gva_view l fl V in let a := sg_base old_tr ⊕₃₂ 32 in
  apart T m R -> (forall b, a <= b < a + 64 -> R b) -> (C -> is_Some (lin_write (T m) m a (saved_state (old_state ty V l)))) ->
  ends C (save_old_task t ty old_tr s) (fun s' => exists m1, Tr s' (after_instruction ty V) l fl T m R m1 /\
    lin_write (T m) m a (saved_state (old_state ty V l)) = Some m1).
Proof.
  intros HS Hr Hsel T a Hap HR HC. unfold save_old_task. pose proof HS as (A1 & A2 & A3 & A4 & A5).
  assert (X : exists s1, (if negb (ty =? TASK_SWITCH_TYPE_IDT) then tell (gcpu_skip_guest_instruction t) s else Ok s) = Ok s1 /\
    St s1 (after_instruction ty V) l fl m).
  { unfold after_instruction. case_match; [|by exists s]. apply (tell_ok _ s V l fl m); [done|done|].
    destruct (skip_ok t Hcrw Hcrr (ts_cpu s).1 V A1) as (g' & E & K & F). exists g'. split; [done|]. split; [done|]. by rewrite F. }
  destruct X as (s1 & -> & S1). rewrite bind_Ok. destruct (copy_vmcs_ok s1 _ l fl m S1) as (s2 & -> & S2). rewrite bind_Ok. cbv iota beta zeta.
  change (if ty =? TASK_SWITCH_TYPE_IRET then _ else _) with (old_state ty V l). fold a.
  apply (tr_put_or_ts C s2 (after_instruction ty V) l fl T m R m); try done.
  - split; [done|]. split; [intros; apply view_after|]. split; [done|apply touched_refl].
  - by apply after_ready.
  - apply u32_range.
Qed.

(** The marks in the descriptors: the busy bit of the old task is cleared, that of the new one is set, and the
    old task is stored in the new one. *)
Definition release_mem (T : Z -> option Z) (ty : Z) (gdtr old_tr : seg_reg_t) (m : mem) : option mem :=
  let a := desc_gva gdtr (sg_selector old_tr) in
  if (ty =? TASK_SWITCH_TYPE_JMP) || (ty =? TASK_SWITCH_TYPE_IRET)
  then d ← lin_copy T m a 8; lin_write T m a (le_bytes 8 (set_desc_type Tss32Aval (le d))) else Some m.
Definition claim_mem (T : Z -> option Z) (ty : Z) (gdtr new_tr : seg_reg_t) (d : Z) (m : mem) : option mem :=
  if negb (ty =? TASK_SWITCH_TYPE_IRET)
  then lin_write T m (desc_gva gdtr (sg_selector new_tr)) (le_bytes 8 (set_desc_type Tss32Busy d)) else Some m.
Definition link_mem (T : Z -> option Z) (ty : Z) (new_tr old_tr : seg_reg_t) (m : mem) : option mem :=
  if (ty =? TASK_SWITCH_TYPE_CALL) || (ty =? TASK_SWITCH_TYPE_IDT)
  then lin_write T m (sg_base new_tr) (le_bytes 2 (sg_selector old_tr)) else Some m.
Definition marks_mem (T : Z -> option Z) (ty : Z) (gdtr new_tr old_tr : seg_reg_t) (d : Z) (m : mem) : option mem :=
  m2 ← release_mem T ty gdtr old_tr m; m3 ← claim_mem T ty gdtr new_tr d m2; link_mem T ty new_tr old_tr m3.

Definition in_range (a n b : Z) : Prop := a <= b < a + n.
(** The bytes of the guest that are read and written before the new task is entered. *)
Definition marks_area (gdtr new_tr old_tr : seg_reg_t) (R : Z -> Prop) : Prop :=
  (forall b, in_range (desc_gva gdtr (sg_selector old_tr)) 8 b -> R b) /\ (forall b, in_range (desc_gva gdtr (sg_selector new_tr)) 8 b -> R b) /\
  (forall b, in_range (sg_base new_tr) 2 b -> R b).

Lemma release_ok (C : Prop) ty gdtr old_tr s V l fl T m0 R m : Tr s V l fl T m0 R m -> ready V -> fits 64 (sg_selector old_tr) ->
  (forall b, in_range (desc_gva gdtr (sg_selector old_tr)) 8 b -> R b) -> (C -> is_Some (release_mem (T m0) ty gdtr old_tr m)) ->
  ends C (release_old_task t ty gdtr old_tr s) (fun s' => exists m', Tr s' V l fl T m0 R m' /\ release_mem (T m0) ty gdtr old_tr m = Some m').
Proof.
  intros HT Hr Fo HR HC. unfold release_old_task, release_mem in *. cbv zeta in *. case_match; [|apply ends_ok; by exists m].
  destruct (tr_get s V l fl T m0 R m (desc_gva gdtr (sg_selector old_tr)) 8 HT ltac:(apply desc_gva_fits) ltac:(done)) as (s1 & -> & T1). rewrite bind_Ok. cbv iota beta.
  destruct (lin_copy (T m0) m _ 8) as [d|]; [by apply (tr_put_or_ts C s1 V l fl T m0 R m); try done; apply u32_range|].
  pose proof T1 as [S1 _]. apply (ends_refuse _ _ _ s1 V l fl m); try done. by intros [? ?]%HC.
Qed.
Lemma claim_new_ok (C : Prop) ty gdtr new_tr d s V l fl T m0 R m : Tr s V l fl T m0 R m -> ready V -> fits 64 (sg_selector new_tr) ->
  (forall b, in_range (desc_gva gdtr (sg_selector new_tr)) 8 b -> R b) -> (C -> is_Some (claim_mem (T m0) ty gdtr new_tr d m)) ->
  ends C (claim_new_task t ty gdtr new_tr d s) (fun s' => exists m', Tr s' V l fl T m0 R m' /\ claim_mem (T m0) ty gdtr new_tr d m = Some m').
Proof.
  intros HT Hr Fn HR HC. unfold claim_new_task, claim_mem in *. case_match; [|apply ends_ok; by exists m].
  by apply (tr_put_or_ts C s V l fl T m0 R m); try done; apply u32_range.
Qed.
Lemma link_ok (C : Prop) ty gdtr new_tr old_tr d s V l fl T m0 R m : Tr s V l fl T m0 R m -> ready V -> seg_fits new_tr ->
  (forall b, in_range (sg_base new_tr) 2 b -> R b) -> (C -> is_Some (link_mem (T m0) ty new_tr old_tr m)) ->
  ends C (link_old_task t ty gdtr new_tr old_tr d s) (fun s' => exists m', Tr s' V l fl T m0 R m' /\ link_mem (T m0) ty new_tr old_tr m = Some m').
Proof.
  intros HT Hr Hn HR HC. unfold link_old_task, link_mem in *. case_match; [|apply ends_ok; by exists m].
  destruct (tr_put s V l fl T m0 R m (sg_base new_tr) (le_bytes 2 (sg_selector old_tr)) HT ltac:(apply Hn) ltac:(done) HR) as (ok & s1 & m1 & -> & T1 & W).
  rewrite bind_Ok. cbv iota beta. destruct ok; [apply ends_ok; by exists m1|]. pose proof T1 as [S1 _].
  destruct (put_gva_total s1 V l fl m1 (desc_gva gdtr (sg_selector new_tr)) (le_bytes 8 (set_desc_type Tss32Aval d)) S1 ltac:(apply desc_gva_fits) ltac:(done))
    as (ok & s2 & m2 & g2 & -> & S2 & _). rewrite bind_Ok.
  apply (ends_refuse _ _ _ s2 V l fl m2); try done; [apply (fits_weak 16); [lia|apply Hn]|]. rewrite W in HC. by intros [? ?]%HC.
Qed.

Lemma marks_ok (C : Prop) ty gdtr old_tr new_tr d s V l fl T m0 R m k P : Tr s V l fl T m0 R m -> ready V -> seg_fits old_tr -> seg_fits new_tr ->
  marks_area gdtr new_tr old_tr R -> (C -> is_Some (marks_mem (T m0) ty gdtr new_tr old_tr d m)) ->
  (forall s' m', Tr s' V l fl T m0 R m' -> marks_mem (T m0) ty gdtr new_tr old_tr d m = Some m' -> ends C (k s') P) ->
  ends C (checked (release_old_task t ty gdtr old_tr s) (fun s => checked (claim_new_task t ty gdtr new_tr d s) (fun s =>
    checked (link_old_task t ty gdtr new_tr old_tr (set_desc_type Tss32Busy d) s) k))) P.
Proof.
  intros HT Hr Ho Hn (R1 & R2 & R3) HC Hk. assert (Fo : fits 64 (sg_selector old_tr)) by (apply (fits_weak 16); [lia|apply Ho]).
  assert (Fn : fits 64 (sg_selector new_tr)) by (apply (fits_weak 16); [lia|apply Hn]). unfold marks_mem in *.
  eapply ends_checked; [apply (release_ok C ty gdtr old_tr s V l fl T m0 R m); try done|].
  { intros HC'. destruct (HC HC') as [m9 E]. destruct (release_mem _ _ _ _ _); [by eexists|done]. }
  intros s1 (m1 & T1 & E1). rewrite E1 in *. cbn [mbind option_bind] in *.
  eapply ends_checked; [apply (claim_new_ok C ty gdtr new_tr d s1 V l fl T m0 R m1); try done|].
  { intros HC'. destruct (HC HC') as [m9 E]. destruct (claim_mem _ _ _ _ _ _); [by eexists|done]. }
  intros s2 (m2 & T2 & E2). rewrite E2 in *. cbn [mbind option_bind] in *.
  eapply ends_checked; [by apply (link_ok C ty gdtr new_tr old_tr _ s2 V l fl T m0 R m2)|].
  intros s3 (m3 & T3 & E3). by apply (Hk s3 m3).
Qed.

(** ** The whole switch *)

Definition task_type (vec : Z) (V : Z -> Z) : Z :=
  let ty := TaskSwitch_Source (V VMCS_EXIT_INFO_QUALIFICATION) in
  if (ty =? TASK_SWITCH_TYPE_IDT) && IsSoftwareVector vec then TASK_SWITCH_TYPE_CALL else ty.
Definition task_gdtr (V : Z -> Z) : seg_reg_t := mk_seg_reg 0 (u32 (V VMCS_GUEST_GDTR_BASE)) (u32 (V VMCS_GUEST_GDTR_LIMIT)) 0x80.
Definition task_selector (V : Z -> Z) : Z := TaskSwitch_TssSelector (V VMCS_EXIT_INFO_QUALIFICATION).
(** The task register: the descriptor, marked busy. *)
Definition task_tr (ty sel d : Z) : seg_reg_t :=
  let tr := arch_seg sel d in
  if negb (ty =? TASK_SWITCH_TYPE_IRET) then set_sg_ar (with_type Tss32Busy (sg_ar tr)) tr else tr.
(** Where the old task's state is saved. *)
Definition save_area (V : Z -> Z) : Z := sg_base (seg_in V IA32_SEG_TR) ⊕₃₂ 32.

(** RFLAGS of the new task: bit 1 is always set, and NT when the new task is nested in the old one. *)
Definition arch_eflags (ty v : Z) : Z := Z.lor v (if (ty =? TASK_SWITCH_TYPE_CALL) || (ty =? TASK_SWITCH_TYPE_IDT) then 0x4002 else 2).
Definition new_task (ty : Z) (bs : list Z) : tss32_t := let tss := tss_of bs in set_eflags (arch_eflags ty (eflags tss)) tss.
Lemma new_eflags_arch ty v : new_eflags ty v = arch_eflags ty v.
Proof.
  unfold new_eflags, arch_eflags, FLAG_RSVD_1, FLAG_NESTED_TASK. apply Z.bits_inj'. intros i Hi. rewrite with_bit_bit, Z.lor_spec by done.
  destruct ((ty =? TASK_SWITCH_TYPE_CALL) || (ty =? TASK_SWITCH_TYPE_IDT)).
  - rewrite with_bit_bit by done. change 0x4002 with (Z.lor (2 ^ 14) (2 ^ 1)). rewrite Z.lor_spec, !Z.pow2_bits_eqb, (Z.eqb_sym 1), (Z.eqb_sym 14) by done.
    destruct (i =? 1), (i =? 14); by rewrite ?orb_true_r, ?orb_false_r.
  - change 2 with (2 ^ 1). rewrite Z.pow2_bits_eqb, (Z.eqb_sym 1) by done. destruct (i =? 1); by rewrite ?orb_true_r, ?orb_false_r.
Qed.

(** [d] is the descriptor of the new task, and the old task is busy. *)
Definition task_found (V : Z -> Z) (T : Z -> option Z) (m : mem) (d : list Z) : Prop :=
  lin_copy T m (desc_gva (task_gdtr V) (task_selector V)) 8 = Some d /\
  IsTss32 (ar_type (sg_ar (task_tr TASK_SWITCH_TYPE_IRET (task_selector V) (le d)))) = true /\
  IsTss32Busy (ar_type (sg_ar (seg_in V IA32_SEG_TR))) = true.
(** The old task's state is saved, the new task's segment is read, and the tasks are marked. *)
Definition switch_memory (T : Z -> option Z) (ty : Z) (V : Z -> Z) (l : list Z) (d : Z) (m : mem) : option (list Z * mem) :=
  let tr := task_tr TASK_SWITCH_TYPE_IRET (task_selector V) d in
  m1 ← lin_write T m (save_area V) (saved_state (old_state ty V l));
  bs ← lin_copy T m1 (sg_base tr) SIZEOF_TSS;
  m2 ← marks_mem T ty (task_gdtr V) tr (seg_in V IA32_SEG_TR) d m1;
  Some (bs, m2).
(** Where these are; the tables of the guest must lie elsewhere. *)
Definition task_area (V : Z -> Z) (T : Z -> option Z) (m : mem) (b : Z) : Prop :=
  in_range (save_area V) 64 b \/ in_range (desc_gva (task_gdtr V) (sg_selector (seg_in V IA32_SEG_TR))) 8 b \/
  in_range (desc_gva (task_gdtr V) (task_selector V)) 8 b \/
  match lin_copy T m (desc_gva (task_gdtr V) (task_selector V)) 8 with
  | Some d => in_range (sg_base (task_tr TASK_SWITCH_TYPE_IRET (task_selector V) (le d))) 2 b
  | None => False
  end.

(** The guest has switched tasks: memory is [m1] but for accessed bits, and the guest CPU is in the state of the
    new task, whose segment has the content [bs]. *)
Definition task_switched (vec : Z) (V : Z -> Z) (l : list Z) (fl : Z) (m : mem) s : Prop :=
  let ty := task_type vec V in
  let T := gva_view l fl V m in
  exists d bs m1 V' l' fl' m', task_found V T m d /\ switch_memory T ty V l (le d) m = Some (bs, m1) /\ St s V' l' fl' m' /\
    switched (u32 (cr_visible l V IA32_CTRL_CR0)) (task_gdtr V) (seg_in V IA32_SEG_LDTR) (task_tr ty (task_selector V) (le d))
      (gva_view l' fl' V' m1) m1 (new_task ty bs) V V' l l' /\
    in_new_task (task_gdtr V) (seg_in V IA32_SEG_LDTR) (new_task ty bs) l' fl' m1 V' m'.
(** Nothing stands against the switch: the tasks are found and can be marked, and once the registers of the new
    task are loaded, its descriptors in the GDT are good. *)
Definition switch_good (vec : Z) (V : Z -> Z) (l : list Z) (fl : Z) (m : mem) : Prop :=
  let ty := task_type vec V in
  let T := gva_view l fl V m in
  exists d bs m1, task_found V T m d /\ switch_memory T ty V l (le d) m = Some (bs, m1) /\
    forall V' l' fl', prepared (u32 (cr_visible l V IA32_CTRL_CR0)) (task_tr ty (task_selector V) (le d)) (new_task ty bs) V V' l l' -> flagged fl fl' ->
      new_task_good (gva_view l' fl' V' m1) m1 (task_gdtr V) (seg_in V IA32_SEG_LDTR) (new_task ty bs) = true.

Lemma selector_fits V : fits 16 (task_selector V).
Proof. unfold task_selector, TaskSwitch_TssSelector. change 0xFFFF with (Z.ones 16). rewrite Z.land_ones by done. unfold fits. lia. Qed.
Lemma task_tr_fits ty sel d : fits 16 sel -> seg_fits (task_tr ty sel d).
Proof.
  intros Hs. unfold task_tr. destruct (arch_seg_fits sel d Hs) as (A & B & C & D). case_match; [|done].
  split_and!; try done. cbn [set_sg_ar sg_ar]. unfold with_type, set_bits_at. apply fits_lor; [done|by apply fits_ldiff|done].
Qed.
Lemma task_tr_base ty ty' sel d : sg_base (task_tr ty sel d) = sg_base (task_tr ty' sel d).
Proof. unfold task_tr. by repeat case_match. Qed.
Lemma seg_in_fits V reg : seg_fits (seg_in V reg).
Proof. split_and!; by apply wrap_fits. Qed.
Lemma tss_of_fits bs : Forall byte bs -> tss_fits (tss_of bs).
Proof. intros Hb. unfold tss_fits, tss_of. repeat (constructor; [by apply word32_fits|]). constructor. Qed.

Lemma switched_after ty cr0 gdtr old_ldtr new_tr T m tss V V' l l' : switched cr0 gdtr old_ldtr new_tr T m tss (after_instruction ty V) V' l l' ->
  switched cr0 gdtr old_ldtr new_tr T m tss V V' l l'.
Proof.
  unfold after_instruction. case_match; [|done]. intros [X1 X2 X3 X4 X5 X6 X8 X9 X10].
  assert (E : seg_in (skipped V) IA32_SEG_LDTR = seg_in V IA32_SEG_LDTR) by (apply seg_in_ext; intros f Hf; apply fupd_ne; by intros ->).
  rewrite E in X6. unfold skipped in *. rewrite !fupd_neb in X4, X8, X10 by done. by split.
Qed.
Lemma prepared_after ty cr0 new_tr tss V V' l l' : prepared cr0 new_tr tss (after_instruction ty V) V' l l' -> prepared cr0 new_tr tss V V' l l'.
Proof.
  unfold after_instruction. case_match; [|done]. intros [X1 X2 X3 X4 X5 X6]. unfold skipped in *. rewrite fupd_neb in X4 by done. split; try done.
  intros f Hf. rewrite X6 by done. apply fupd_ne. by intros ->.
Qed.

Lemma gdtr_ok s V l fl m : St s V l fl m -> exists g', gcpu_get_gdt_reg_layered t (ts_cpu s).1 VMCS_MERGED =
  Ok (V VMCS_GUEST_GDTR_BASE, u32 (V VMCS_GUEST_GDTR_LIMIT), g') /\ St (set_cpu g' s) V l fl m.
Proof.
  intros (A1 & A2 & A3 & A4 & A5). unfold gcpu_get_gdt_reg_layered, get_table. set (g := (ts_cpu s).1) in *.
  vread g1 K1 F1. vread g2 K2 F2. exists g2. split; [done|]. unfold St. cbn [set_cpu ts_cpu ts_mem fst]. split; [done|]. by rewrite F2, F1.
Qed.

(** From the save of the old task on. *)
Lemma found_ok garbage vec s V l fl m d : St s V l fl m -> mem_ok m -> ready V ->
  apart (gva_view l fl V) m (task_area V (gva_view l fl V m) m) -> task_found V (gva_view l fl V m) m d ->
  let ty := task_type vec V in let sel := task_selector V in let new_tr := task_tr TASK_SWITCH_TYPE_IRET sel (le d) in
  ends (switch_good vec V l fl m)
    (checked (save_old_task t ty (seg_in V IA32_SEG_TR) s) (fun s =>
     r ← get_gva (sg_base new_tr) SIZEOF_TSS s; let '(new_tss, s) := r in
     match new_tss with
     | None => refuse_with (gcpu_inject_ts t sel) s
     | Some bs =>
         checked (release_old_task t ty (task_gdtr V) (seg_in V IA32_SEG_TR) s) (fun s =>
         checked (claim_new_task t ty (task_gdtr V) new_tr (le d) s) (fun s =>
         checked (link_old_task t ty (task_gdtr V) new_tr (seg_in V IA32_SEG_TR) (set_desc_type Tss32Busy (le d)) s) (fun s =>
         enter_new_task t fx hw_read_dr garbage (task_gdtr V) (seg_in V IA32_SEG_LDTR) (task_tr ty sel (le d)) ty
           (u32 (cr_visible l V IA32_CTRL_CR0)) (tss_of bs) s)))
     end)) (task_switched vec V l fl m).
Proof.
  intros HS Hm Hr Hap HF ty sel tr. set (R := task_area V (gva_view l fl V m) m) in *. set (C := switch_good vec V l fl m). set (T := gva_view l fl V m) in *.
  pose proof (selector_fits V) as Hsel. fold sel in Hsel. assert (Hsel' : fits 64 sel) by by apply (fits_weak 16).
  assert (Hold : fits 64 (sg_selector (seg_in V IA32_SEG_TR))) by apply sel_fits.
  assert (GM : C -> exists bs m2, switch_memory T ty V l (le d) m = Some (bs, m2) /\
    forall V' l' fl', prepared (u32 (cr_visible l V IA32_CTRL_CR0)) (task_tr ty sel (le d)) (new_task ty bs) V V' l l' -> flagged fl fl' ->
      new_task_good (gva_view l' fl' V' m2) m2 (task_gdtr V) (seg_in V IA32_SEG_LDTR) (new_task ty bs) = true).
  { intros (d' & bs & m2 & (Hd' & _) & K). destruct HF as [Ed _]. fold T in Hd', K. rewrite Ed in Hd'. injection Hd' as <-. by exists bs, m2. }
  unfold switch_memory in GM. cbv zeta in GM. fold sel in GM. fold tr in GM.
  eapply ends_checked; [apply (save_ok C ty (seg_in V IA32_SEG_TR) s V l fl m R); try done; [by left|]|].
  { intros HC. destruct (GM HC) as (bs & m2 & E & _). fold (save_area V). fold T. destruct (lin_write _ _ _ _); [by eexists|done]. }
  intros s7 (m1 & T7 & W7). fold (save_area V) in W7. fold T in W7. rewrite W7 in GM. cbn [mbind option_bind] in GM. set (V1 := after_instruction ty V) in *.
  pose proof (task_tr_fits TASK_SWITCH_TYPE_IRET sel (le d) Hsel) as Ftr. fold tr in Ftr.
  assert (R1 : ready V1) by by apply after_ready.
  assert (F64 : fits 64 (sg_base tr)) by (apply (fits_weak 32); [lia|apply Ftr]).
  destruct (tr_get s7 V1 l fl _ m R m1 (sg_base tr) SIZEOF_TSS T7 F64 ltac:(done)) as (s8 & -> & T8). rewrite bind_Ok. cbv iota beta. fold T.
  destruct (lin_copy T m1 (sg_base tr) SIZEOF_TSS) as [bs|] eqn:Ebs.
  2:{ pose proof T8 as [S8 _]. apply (ends_refuse _ _ _ s8 V1 l fl m1); try done. by intros (? & ? & ? & _)%GM. }
  cbn [mbind option_bind] in GM.
  apply (marks_ok C ty (task_gdtr V) (seg_in V IA32_SEG_TR) tr (le d) s8 V1 l fl (gva_view l fl V) m R m1); try done.
  { apply seg_in_fits. }
  { split; [|split]; intros b Hb; unfold R, task_area; [right; by left|right; right; by left|]. right. right. right. by rewrite (proj1 HF). }
  { intros HC. destruct (GM HC) as (bs' & m2 & E & _). fold T. destruct (marks_mem _ _ _ _ _ _ _); [by eexists|done]. }
  intros s9 m9 T9 E9. fold T in E9. rewrite E9 in GM. cbn [mbind option_bind] in GM. pose proof T9 as [S9 _].
  assert (Hb : Forall byte bs) by (apply (lin_copy_bytes T m1 (sg_base tr) SIZEOF_TSS); [apply (lin_write_mem_ok T _ m _ m1 Hm W7)|done]).
  assert (En : set_eflags (new_eflags ty (eflags (tss_of bs))) (tss_of bs) = new_task ty bs) by (unfold new_task; cbv zeta; by rewrite new_eflags_arch).
  eapply ends_weaken; [eapply ends_if; [|apply (enter_ok garbage (task_gdtr V) (seg_in V IA32_SEG_LDTR) (task_tr ty sel (le d)) ty (u32 (cr_visible l V IA32_CTRL_CR0)) (tss_of bs) s9 V1 l fl m9);
    [done|done|by apply task_tr_fits|by apply tss_of_fits|apply u32_range]]|].
  { intros HC V' l' fl'. cbv zeta. rewrite En. intros Hp%(prepared_after ty) Hf. destruct (GM HC) as (bs' & m2 & [= <- <-] & K). by apply K. }
  cbv zeta. rewrite En. intros s' (V' & l' & fl' & m' & S' & Q & M). exists d, bs, m9, V', l', fl', m'.
  split; [done|]. split; [|split; [exact S'|]; split; [by apply (switched_after ty)|done]].
  unfold switch_memory. cbv zeta. fold T ty sel. fold tr. rewrite W7. cbn [mbind option_bind]. rewrite Ebs. cbn [mbind option_bind]. by rewrite E9.
Qed.

(** What is read and checked before anything is written. *)
Lemma switch_ok garbage vec s V l fl m : St s V l fl m -> mem_ok m -> ready V ->
  apart (gva_view l fl V) m (task_area V (gva_view l fl V m) m) ->
  ends (switch_good vec V l fl m) (task_switch_for_guest t fx hw_read_dr garbage vec s) (task_switched vec V l fl m).
Proof.
  intros HS Hm Hr Hap. unfold task_switch_for_guest. set (C := switch_good vec V l fl m). set (T := gva_view l fl V m) in *.
  destruct (gdtr_ok s V l fl m HS) as (g' & -> & S1). rewrite bind_Ok. cbv iota beta zeta. fold (task_gdtr V).
  destruct (see_ok _ V l fl m IA32_CTRL_CR0 S1) as (s2 & -> & S2). rewrite bind_Ok. cbv iota beta zeta. unfold get_task_info.
  destruct (get_field_ok s2 V l fl m VMCS_EXIT_INFO_QUALIFICATION S2 ltac:(eauto with vmcs)) as (s3 & -> & S3). rewrite !bind_Ok. cbv iota beta zeta.
  fold (task_type vec V). fold (task_selector V). set (ty := task_type vec V) in *. set (sel := task_selector V) in *.
  pose proof (selector_fits V) as Hsel. fold sel in Hsel. assert (Hsel' : fits 64 sel) by by apply (fits_weak 16).
  destruct (get_gva_ok s3 V l fl m (desc_gva (task_gdtr V) sel) 8 S3 ltac:(apply desc_gva_fits) ltac:(done)) as (s4 & -> & S4). rewrite bind_Ok. cbv iota beta. fold T.
  assert (GC : C -> exists d, task_found V T m d) by (intros (d & _ & _ & Hd & _); by exists d).
  destruct (lin_copy T m _ 8) as [d|] eqn:Ed; [|apply (ends_refuse _ _ _ s4 V l fl m); try done; intros [d [Hd _]]%GC; unfold sel in Ed; congruence].
  assert (GC' : C -> task_found V T m d) by (intros HC; destruct (GC HC) as [d' Hd]; pose proof (proj1 Hd) as Hd'; fold sel in Hd'; rewrite Ed in Hd'; by injection Hd' as ->).
  rewrite !parse_desc_arch. destruct (IsTss32 _) eqn:Et; cbn [negb]; [|apply (ends_refuse _ _ _ s4 V l fl m); try done; intros (_ & Hd & _)%GC'; fold sel in Hd; change (task_tr TASK_SWITCH_TYPE_IRET sel (le d)) with (arch_seg sel (le d)) in Hd; by rewrite Et in Hd].
  destruct (get_segment_ok s4 V l fl m IA32_SEG_LDTR S4) as (s5 & -> & S5). rewrite bind_Ok. cbv iota beta.
  destruct (get_segment_ok s5 V l fl m IA32_SEG_TR S5) as (s6 & -> & S6). rewrite bind_Ok. cbv iota beta.
  assert (Hold : fits 64 (sg_selector (seg_in V IA32_SEG_TR))) by apply sel_fits.
  destruct (IsTss32Busy _) eqn:Eb; cbn [negb]; [|apply (ends_refuse _ _ _ s6 V l fl m); try done; intros (_ & _ & Hd)%GC'; by rewrite Eb in Hd].
  by apply (found_ok garbage vec s6 V l fl m d).
Qed.

(** The VMCS without the event that a task gate of the IDT takes up. *)
Definition taken (V : Z -> Z) : Z -> Z :=
  if Valid (u32 (V VMCS_EXIT_INFO_IDT_VECTORING)) && (TaskSwitch_Source (V VMCS_EXIT_INFO_QUALIFICATION) =? TASK_SWITCH_TYPE_IDT)
  then fupd V VMCS_EXIT_INFO_IDT_VECTORING 0 else V.


(** * Deviations *)

(** When a segment of the new task cannot be loaded, the source forces the stack to ring 3, but it takes the
    task register for it: SS gets the selector and the base of the task segment, and since that is a system
    segment, the VM entry that should deliver the exception fails. *)
Theorem force_ring3_ss_loads_tr s V l fl m : St s V l fl m -> Z.testbit (u32 (cr_visible l V IA32_CTRL_CR0)) CR0_BIT_PE = true ->
  Z.testbit (u32 (V VMCS_GUEST_RFLAGS)) FLAG_V86_MODE = false ->
  exists s' V', force_ring3_ss t s = Ok s' /\ St s' V' l fl m /\
    sg_selector (seg_in V' IA32_SEG_SS) = sg_selector (seg_in V IA32_SEG_TR) /\ sg_base (seg_in V' IA32_SEG_SS) = sg_base (seg_in V IA32_SEG_TR) /\
    (ar_s (sg_ar (seg_in V IA32_SEG_TR)) = false -> ~ stack_accepted (seg_in V' IA32_SEG_SS)).
Proof.
  intros HS Hpe Hv. unfold force_ring3_ss. destruct (see_ok s V l fl m IA32_CTRL_CR0 HS) as (s1 & -> & S1). rewrite bind_Ok. cbv iota beta.
  destruct (get_gp_ok s1 V l fl m IA32_REG_RFLAGS S1 ltac:(done)) as (s2 & -> & S2). rewrite bind_Ok. cbv iota beta.
  change (gp_value V l IA32_REG_RFLAGS) with (V VMCS_GUEST_RFLAGS). rewrite Hpe, Hv. cbn [negb orb].
  destruct (get_segment_ok s2 V l fl m IA32_SEG_TR S2) as (s3 & -> & S3). rewrite bind_Ok. cbv iota beta. set (tr := seg_in V IA32_SEG_TR).
  assert (Hf : seg_fits (set_sg_ar (with_dpl 3 (sg_ar tr)) tr)).
  { destruct (seg_in_fits V IA32_SEG_TR) as (A & B & C & D). split_and!; try done. cbn [set_sg_ar sg_ar]. unfold with_dpl, set_bits_at.
    apply fits_lor; [done|by apply fits_ldiff|done]. }
  destruct (set_segment_ok s3 V l fl m IA32_SEG_SS _ S3 Hf) as (s4 & -> & S4). eexists s4, _. split; [done|]. split; [exact S4|].
  rewrite seg_in_put by done. split; [done|]. split; [done|]. intros Hs [[_ X _ _ _ _] _]. cbn [set_sg_ar sg_ar] in X.
  unfold ar_s in *. unfold with_dpl, set_bits_at in X. rewrite Z.lor_spec, Z.ldiff_spec, Hs in X. discriminate X.
Qed.

(** The limit of the new task register is left in the units of its descriptor, also when these are 4 KB: a
    descriptor with the granularity bit gives a limit that the VM entry refuses, bits 11 to 0 being required to be set. *)
Theorem system_limit_unscaled d sel : Z.testbit d 55 = true -> d mod 2 ^ 12 <> 4095 ->
  ar_g (sg_ar (parse_desc d (mk_seg_reg sel 0 0 0))) = true /\ sg_limit (parse_desc d (mk_seg_reg sel 0 0 0)) mod 2 ^ 12 <> 4095.
Proof.
  intros Hg Hd. rewrite parse_desc_arch. cbn [arch_seg sg_ar sg_limit]. rewrite ar_g_arch. split; [done|]. unfold arch_units.
  change (2 ^ 16) with (2 ^ 4 * 2 ^ 12) at 2. rewrite Z.mul_assoc, Z.mod_add by done. change (2 ^ 16) with (2 ^ 12 * 2 ^ 4).
  rewrite mod_split by done. by rewrite Z.mod_add, Z.mod_mod by done.
Qed.

(** A data segment is loaded whatever its privilege and without its accessed bit: the checks of privilege are
    made for code segments only, and the VM entry refuses a usable segment whose accessed bit is clear. *)
Theorem data_segment_unchecked gdtr ldtr tss name s V l fl m d : is_data_reg name = true -> St s V l fl m ->
  let sel := data_selector tss name in let a := sg_ar (arch_seg sel (le d)) in
  (SelectorIdx sel =? 0) = false ->
  lin_copy (gva_view l fl V m) m (desc_gva (if SelectorGdt sel then gdtr else ldtr) sel) 8 = Some d ->
  ar_s a = true -> ar_p a = true -> IsCode (ar_type a) = false ->
  exists s', set_guest_seg t gdtr ldtr tss name s = Ok (true, s') /\ St s' (put_seg V name (seg_of_desc sel (le d))) l fl m /\
    sg_ar (seg_of_desc sel (le d)) = a.
Proof.
  intros Hn HS sel a Hi Hd Hs Hp Hc. unfold set_guest_seg.
  assert (X : exists x, (match name with IA32_SEG_ES => Some (tss_es tss) | IA32_SEG_DS => Some (tss_ds tss) | IA32_SEG_FS => Some (tss_fs tss)
    | IA32_SEG_GS => Some (tss_gs tss) | _ => None end) = Some x /\ sel = u16 x) by (unfold sel; destruct name; try discriminate Hn; by eexists).
  destruct X as (x & -> & Ex). cbv zeta. cbn [sg_selector parse_desc]. rewrite <- Ex, Hi.
  destruct (get_gva_ok s V l fl m (desc_gva (if SelectorGdt sel then gdtr else ldtr) sel) 8 HS ltac:(apply desc_gva_fits) ltac:(done)) as (s1 & -> & S1).
  rewrite bind_Ok. cbv iota beta. rewrite Hd, !parse_desc_arch, scale_arch. fold a. rewrite Hs, Hp, Hc. cbn [negb orb andb].
  assert (Hf : seg_fits (seg_of_desc sel (le d))) by (apply seg_of_desc_fits; rewrite Ex; by apply wrap_fits).
  destruct (set_segment_ok s1 V l fl m name _ S1 Hf) as (s2 & E2 & S2). exists s2. rewrite E2, bind_Ok. by split_and!.
Qed.
End Steps.

(** * Examples *)

Module TaskExample.
Import GuestExample GvaExample.
Definition words (l : list (Z * Z)) (x : Z) : Z :=
  match list_find (fun p => p.1 <= x < p.1 + 4) l with Some (_, (a, v)) => Z.shiftr v (8 * (x - a)) mod 256 | None => 0 end.
(** A GDT at 0x1000 with code, data, the old and the new task, and the new task's segment at 0x3000. *)
Definition guest_words : list (Z * Z) :=
  [(0x1008, 0x0000FFFF); (0x100C, 0x00CF9B00); (0x1010, 0x0000FFFF); (0x1014, 0x00CF9300); (0x1018, 0x20000067); (0x101C, 0x00008B00);
   (0x1020, 0x30000067); (0x1024, 0x00008900);
   (0x3020, 0x400); (0x3024, 2); (0x3028, 0x11); (0x3038, 0x8000); (0x3048, 0x10); (0x304C, 0x08); (0x3050, 0x10); (0x3054, 0x10)].
Definition guest_mem : mem := words guest_words.
Lemma guest_mem_ok : mem_ok guest_mem.
Proof. intros x. unfold guest_mem, words. destruct (list_find _ _) as [[i [a v]]|]; lia. Qed.
(** A jump to task 0x20 in protected mode without paging. *)
Definition fields : list (Z * Z) :=
  [(VMCS_EXIT_INFO_QUALIFICATION, 0x80000020); (VMCS_EXIT_INFO_INSTRUCTION_LENGTH, 7); (VMCS_GUEST_RIP, 0x100); (VMCS_GUEST_CR0, 0x11);
   (VMCS_GUEST_GDTR_BASE, 0x1000); (VMCS_GUEST_GDTR_LIMIT, 0x27); (VMCS_GUEST_TR_SELECTOR, 0x18); (VMCS_GUEST_TR_BASE, 0x2000);
   (VMCS_GUEST_TR_LIMIT, 0x67); (VMCS_GUEST_TR_AR, 0x8B)].
Definition content : Z -> Z := fill (view (vmcs guest)) fields.
(** Flat page tables are installed. *)
Definition flags : Z := 2.
Definition cpu : GUEST_CPU VMCS_SOFTWARE_OBJECT := with_flags flags (filled fields).
Definition start : ts_state VMCS_SOFTWARE_OBJECT := mk_ts (cpu, 0) guest_mem.
Definition regs : list Z := replicate 18 0.
Lemma start_st : St start content regs flags guest_mem.
Proof.
  assert (Hh : holds cpu content) by (apply holds_with_flags, filled_holds; vm_compute; reflexivity).
  split; [exact Hh|]. split; [vm_compute; reflexivity|]. split; [vm_compute; reflexivity|]. split; [reflexivity|]. vm_compute. reflexivity.
Qed.
Definition translation : GvaMap VMCS_SOFTWARE_OBJECT := walk_map CrExample.table CrExample.caps ∅ (fun _ => None) Some Some false 0.
Lemma identity_pages : by_pages Some.
Proof. intros a b h _ _ _ [= <-]. f_equal. lia. Qed.
Definition table_tsw := all_table_writes CrExample.table ts_writes eq_refl.
Definition laws : @GvaLaws VMCS_SOFTWARE_OBJECT _ _ translation :=
  walk_laws CrExample.table table_crw table_crr CrExample.caps ∅ (fun _ => None) Some Some false 0 eq_refl identity_pages.
#[local] Existing Instance translation.
#[local] Existing Instance laws.
Definition no_ldtr : seg_reg_t := mk_seg_reg 0 0 0 0.
Lemma identity_view l fl V m a : IS_FLAT_PT_INSTALLED fl = true -> @gva_view _ _ _ translation laws l fl V m a = Some a.
Proof. intros Hf. cbn [gva_view laws walk_laws]. unfold walk_view. by rewrite Hf, orb_true_r. Qed.
Lemma flat_apart m R : apart (@gva_view _ _ _ translation laws regs flags (taken content)) m R.
Proof. intros m' a _. by rewrite !identity_view. Qed.
(** The descriptors and segments of the example are in order. *)
Definition vec : Z := u32 (content VMCS_EXIT_INFO_IDT_VECTORING).
Definition in_order : bool :=
  let V := taken content in let ty := task_type vec V in
  match lin_copy Some guest_mem (desc_gva (task_gdtr V) (task_selector V)) 8 with
  | None => false
  | Some d =>
      IsTss32 (ar_type (sg_ar (task_tr TASK_SWITCH_TYPE_IRET (task_selector V) (le d)))) && IsTss32Busy (ar_type (sg_ar (seg_in V IA32_SEG_TR))) &&
      match switch_memory Some ty V regs (le d) guest_mem with
      | None => false
      | Some (bs, m1) => new_task_good Some m1 (task_gdtr V) (seg_in V IA32_SEG_LDTR) (new_task ty bs)
      end
  end.
Lemma switch_memory_ext T T' ty V l d m : (forall a, T a = T' a) -> switch_memory T ty V l d m = switch_memory T' ty V l d m.
Proof.
  intros E. unfold switch_memory, marks_mem, release_mem, claim_mem, link_mem. cbv zeta. rewrite (lin_write_ext T T') by done.
  destruct (lin_write T' m _ _) as [m1|]; [|done]. cbn [mbind option_bind]. rewrite !(lin_copy_ext T T') by done.
  destruct (lin_copy T' m1 _ SIZEOF_TSS) as [bs|]; [|done]. cbn [mbind option_bind].
  destruct (lin_copy T' m1 _ 8) as [od|]; cbn [mbind option_bind]; rewrite ?(lin_write_ext T T' _ E m1).
  all: repeat match goal with |- context [@mbind _ _ _ _ _ ?o] => destruct o; cbn [mbind option_bind]; [rewrite ?(lin_write_ext T T') by done|done] end; done.
Qed.
Lemma in_order_good : in_order = true -> switch_good CrExample.fx vec (taken content) regs flags guest_mem.
Proof.
  unfold in_order, switch_good. set (V := taken content). set (T := @gva_view _ _ _ translation laws regs flags V guest_mem). cbv zeta.
  assert (ET : forall a, Some a = T a) by (intros a; symmetry; by apply identity_view).
  rewrite (lin_copy_ext Some T) by done. destruct (lin_copy T guest_mem _ 8) as [d|] eqn:Ed; [|done]. rewrite (switch_memory_ext Some T) by done.
  destruct (switch_memory T _ V regs (le d) guest_mem) as [[bs m1]|] eqn:Em; [|by rewrite andb_false_r].
  rewrite !andb_true_iff. intros ((H1 & H2) & H3). exists d, bs, m1. split; [split; [exact Ed|split; [exact H1|exact H2]]|]. split; [exact Em|].
  intros V' l' fl' _ Hf. rewrite (new_task_good_ext _ Some); [exact H3|]. intros a. apply identity_view. by destruct Hf as [-> | ->].
Qed.
End TaskExample.
#[local] Existing Instance InjectExample.sw_nmi_window.
#[local] Existing Instance TaskExample.translation.
#[local] Existing Instance TaskExample.laws.

Definition result {A} (P : A -> bool) (o : outcome A) : bool := match o with Ok a => P a | _ => false end.
Definition rip_is (v : Z) (s : ts_state VMCS_SOFTWARE_OBJECT) : bool :=
  match op_read (vmcs (ts_cpu s).1) VMCS_GUEST_RIP with Ok r => r.1 =? v | _ => false end.
Lemma example_switches :
  result (rip_is 0x400) (vmexit_task_switch CrExample.table CrExample.fx (fun _ => 0) TaskExample.no_ldtr TaskExample.start) = true.
Proof. vm_compute. reflexivity. Qed.


(** The local variable for the LDTR of the new task is not set when the LDTR does not change, and the segments
    of the new task are looked up in it all the same: with one content of the stack the switch succeeds, with
    another one the same guest gets a stack fault. *)
Definition local_words : list (Z * Z) := (0x3050, 0x14) :: TaskExample.guest_words.
Definition local_start : ts_state VMCS_SOFTWARE_OBJECT := mk_ts (TaskExample.cpu, 0) (TaskExample.words local_words).
Definition entry_event (s : ts_state VMCS_SOFTWARE_OBJECT) : option Z :=
  match op_read (vmcs (ts_cpu s).1) VMCS_ENTER_INTERRUPT_INFO with
  | Ok r => if Valid r.1 then Some (Vector r.1) else None
  | _ => None
  end.
Theorem ldtr_uninitialised :
  let switch garbage := vmexit_task_switch CrExample.table CrExample.fx (fun _ => 0) garbage local_start in
  result (fun s => bool_decide (entry_event s = None)) (switch (mk_seg_reg 0 0x1000 0 0)) = true /\
  result (fun s => bool_decide (entry_event s = Some IA32_EXCEPTION_VECTOR_STACK_SEGMENT_FAULT)) (switch (mk_seg_reg 0 0x5000 0 0)) = true.
Proof. vm_compute. by split. Qed.
